(* ===== verification/_CoqProject ===== *)
-Q . S2P
Prelude.v
Mmu.v
Mem.v
Kalloc.v
Vm.v
VmInv.v
VmWalk.v
VmUser.v
VmGrow.v
VmFree.v
VmInit.v
VmCopy.v
VmOut.v
Block.v
BlockCache.v
Bio.v
Log.v
LogInv.v
LogCommit.v
LogCrash.v
LogOps.v
Umalloc.v
Pipe.v
Fs.v
FsAlloc.v
FsFile.v
FsRw.v
FsInode.v
FsTrunc.v
FsDir.v
Spinlock.v
Proc.v
ProcInv.v
File.v
Syscall.v
Exec.v
Sysfile.v
Trap.v
SysInv.v
SysRefs.v
Grep.v
Ulib.v
Kbd.v
Console.v
FsLog.v
Mkfs.v
MkfsInv.v
MkfsMain.v
MkfsImage.v
Ide.v
Sh.v
User.v
Filters.v
ShRun.v
UserCmds.v
TestProgs.v
Usertests.v
Tree.v
TreeInv.v
FsTree.v
FsNames.v
FsDemo.v
FsCalls.v
FsCreate.v
FsOpen.v
Unix.v
UsertestsRun.v
Mp.v
Rtc.v
Apic.v
Boot.v
Seg.v
Startup.v
Main.v
