(* ===== verification/Prelude.v ===== *)
(** * Verification of an xv6 kernel (OS_2024_project_vm)

    The program is a small Unix for the x86: a kernel in C with virtual memory,
    processes, a logging file system, pipes and a console, and the user programs
    that run on it.  This library translates its C code into Rocq functions, file
    by file, and proves what the parts promise each other and the user.

    ** How the code is modelled

    Integers are [Z]; each C operator that can wrap is followed by [u32] or
    [s32].  Code that changes state is a function of the monad [M S A] of this
    file: a run ends in a result and a new state ([Ret]), in the kernel's [panic]
    with its message ([Panic]), in an access the C language does not define
    ([Undef]), or it does not come back ([Hang]: a lock nobody will release, a
    loop that does not end).  [wp c Q s] is total correctness: from [s], [c]
    returns, in a state where [Q] holds.  [tr m x c Q] follows a measure [m] of the
    state through [c] whenever it returns, and is used where a path may panic.

    Sections under a spin lock are atomic steps.  Where the interleaving of steps
    matters (processes, log calls, pipes, locks, processors) the steps are an
    inductive relation and the theorems are about every reachable state.  A system
    call runs as one process sees it; a process that gives up the processor ends
    its turn, and goes on from there when it is scheduled.

    ** The parts

    Memory.
    - Mmu.v: mmu.h, memlayout.h and param.h, the addresses, entries and
      descriptors of the processor.
    - Mem.v: byte memory and string.c.
    - Kalloc.v: kalloc.c.  The free list is threaded through the free pages;
      [kinv s fl] says that it is the list [fl].
    - Vm.v: the routines of vm.c, over Kalloc.v and Mem.v.  VmInv.v has the
      two-level walk of the processor and the invariants [pt_inv] and [uvm_inv];
      VmWalk.v (walkpgdir, mappages), VmUser.v (deallocuvm), VmGrow.v (allocuvm),
      VmFree.v (freevm, setupkvm), VmCopy.v (copyuvm) and VmOut.v (uva2ka, copyout,
      clearpteu) and VmInit.v (inituvm) prove what each does.  loaduvm is in
      Exec.v.

    Disk and files.
    - Block.v: param.h, fs.h and the little-endian fields of a disk block.
    - BlockCache.v: the class [BlockCache], what the log needs of a buffer cache.
      Bio.v (bio.c, sleeplock.c, memide.c) is an instance of it.
    - Log.v: log.c over any [BlockCache].  LogInv.v and LogCommit.v give the exact
      disk writes of each routine, LogCrash.v cuts them short, LogOps.v interleaves
      the calls.
    - Fs.v: fs.c, layer by layer, over the blocks as the current transaction sees
      them.  FsAlloc.v (balloc, bfree), FsFile.v (bmap), FsRw.v (readi, writei),
      FsInode.v (iget, ilock, iupdate), FsTrunc.v (itrunc, iput), FsDir.v
      (dirlookup, dirlink, skipelem).  The class [Devsw] of Fs.v is the table of
      devices.
    - FsLog.v runs the routines of fs.c on log.c over any [BlockCache].
    - Mkfs.v: mkfs.c.  MkfsInv.v and MkfsMain.v follow the image it writes,
      MkfsImage.v starts the file system of the kernel on it.
    - Ide.v: ide.c over the class [IdeHw] of the ports of a disk controller, with
      the laws [IdeLaws] of a disk; a simulated controller is an instance.
    - Pipe.v: the ring buffer of pipe.c.  File.v: file.c, pipealloc and pipeclose,
      and [kern], the state that joins memory, file system, open files and pipes.

    Processes and system calls.
    - Spinlock.v: spinlock.c, with mycpu and cpuid of proc.c.
    - Proc.v: proc.c over the class [ProcEnv] of the memory and file operations
      that fork, exit and wait call.  ProcInv.v interleaves its sections on any
      number of processors.
    - Syscall.v: the argument fetching of syscall.c, and the instance [kernel_env]
      of [ProcEnv] with Vm.v, File.v and Fs.v.  Exec.v (exec.c), Sysfile.v
      (sysfile.c), Trap.v (the table of syscall.c, sysproc.c, trap.c).
    - SysInv.v and SysRefs.v: what holds of every handler.
    - The handlers against the tree of names of Tree.v.  TreeInv.v says when a tree
      is well formed (dots, parents, link counts) and that names can come and go;
      FsTree.v reads the tree off the disk ([tree_of]), states the invariant of disk
      and inode cache ([pinv]), keeps account of references and locks ([got]) and
      follows namex; FsNames.v does the changes one at a time (dirlink, iupdate, the
      last iput, ialloc).  FsCalls.v (link, unlink), FsCreate.v (create, mkdir, mknod)
      and FsOpen.v (open, chdir) put them together; FsDemo.v is a small disk.
    - Kbd.v (kbd.c), Console.v (console.c, an instance of [Devsw]).

    Booting and devices.
    - Boot.v: bootmain.c, with the disk of Ide.v.  Mp.v: mp.c.  Rtc.v: the clock of
      lapic.c.  Apic.v: the rest of lapic.c, ioapic.c, picirq.c and uart.c, as reads
      and writes of registers whose answers depend on what was done before.
    - Seg.v: the descriptor tables and table registers of vm.c and trap.c, and what
      the processor makes of them.
    - Startup.v: main.c, which runs the initialisers of all the parts on the record
      [sys] of their states.  Main.v follows it to the scheduler.

    User programs.
    - Umalloc.v (umalloc.c), Ulib.v (ulib.c, printf.c), Grep.v (the matcher of
      grep.c), Sh.v (the parser of sh.c).
    - User.v: programs as interaction trees over the system calls of user.h.
      Filters.v (cat.c, wc.c, echo.c, grep.c), ShRun.v (runcmd and main of sh.c),
      UserCmds.v (kill.c, ln.c, mkdir.c, rm.c, ls.c, zombie.c, init.c).
    - TestProgs.v (forktest.c, stressfs.c, test_1.c, test_2.c, print_free_list) and
      Usertests.v (usertests.c).  Tree.v says what the tree of names is to its users
      and what the calls do to it, Unix.v what processes may expect of all the system
      calls, as a machine with any schedule; UsertestsRun.v runs tests on it.

    ** What is proved

    - The page allocator is a stack of free pages; every routine of vm.c that
      takes or gives pages accounts for each of them, on success and on failure,
      and fork's copy is a copy.
    - The buffer cache is a cache.  A commit is atomic, wherever the machine stops,
      and recovery can be stopped and run again.  The reservation that begin_op
      makes keeps log_write from running out of log, and with the size that mkfs
      gives the log it is one block short.  Any code made of the routines of fs.c,
      between begin_op and end_op, leaves on the disk all it did or nothing.
    - mkfs makes the file system it was asked for, as the kernel reads it.  The IDE
      driver serves its requests in order and does what the memory disk does.
    - writei and readi are a file of bytes; balloc gives out free blocks only; iput
      frees exactly the blocks of its inode; a directory is a finite map from names.
    - Spin locks exclude; interrupts nest; the process table keeps its invariant
      under every interleaving; no wakeup is lost in wait.
    - link, unlink, mkdir, mknod, open and chdir, from argument to end of transaction,
      return what the calls on the tree of names say and leave the tree they say on
      the disk, on every branch, with every link count right, every reference given
      back and no lock held.  A link to the dot of a directory hangs, and a file made
      in a directory that was removed is lost: both are theorems.
    - System call arguments are in bounds; whatever path a system call takes it
      leaves no transaction open and no inode locked, and the reference counts of
      open files match the descriptors; exec replaces the whole image or nothing.
    - Pipes are queues, console input is a line editor, malloc and free keep the
      free list and the memory handed out apart, grep decides its patterns, the
      shell's parser ends on every line.
    - cat, wc and grep write what they should however their input is cut; every
      program the shell starts has the descriptors its command line says, whatever
      calls fail; a session of the shell runs its lines to the end of the input;
      tests of usertests.c pass on the specification, under every schedule.
    - The boot loader loads the kernel its ELF headers describe; main reaches the
      scheduler, with every page owned once, the other processors running and the
      first process ready; user code enters the kernel by the system call gate only,
      on its kernel stack; mpinit finds the processors, and cmostime a date at which
      the clock stood.

    ** Bounds and fuel

    Loops over an array or a range of pages recurse on the number of iterations
    that are left, which the code's own condition bounds.  The loops that follow
    pointers take fuel, and running out of it is [Hang], which the theorems
    exclude: two turns round the free list for malloc and free, one byte of
    fuel per character for strlen, four calls per character for the shell's
    parser, the number of pages for freerange.  Path walks recurse on the length of
    the path.  Loops that poll a device take its patience ([hw_patience], the
    [patience] of Apic.v), and the laws of the device say that it is ready by then;
    mpinit takes one round more than the table has entries, readseg one per
    sector, cmostime as many as the clock needs to be read twice in one second.
    Booting needs 73 pages between the kernel and 4 MB: at most 65 for the page
    table of the kernel, and a stack for each of at most 7 other processors.  A loop
    of a user program is one of its interaction tree, and [ok] says that it ends.

    Witness states are small: a few pages of memory, a disk of some tens of blocks.

    ** Not modelled

    - Assembly: swtch.S is the change of the running process, trapasm.S and
      usys.S the call of [trap]; the entry code of another processor goes on to
      mpenter; the boot sector and initcode.S are left out, and asm.h with them.
    - The hardware: what a port or register answers is a parameter of the models of
      the drivers, with the laws they rely on.  The console writes to a list of bytes
      sent and a screen.
    - defs.h and types.h, which declare.
    - The loop of scheduler, as a program: one turn of it is a step of ProcInv.v.
      forkret's first call of iinit and initlog, and the initlock calls: their
      effect is the initial state of each model.
    - The call stacks that procdump and panic print.
    - A process that would wait for log space waits in [begin_op] of Log.v; the
      calls of Fs.v find it. *)

From stdpp Require Import base numbers list gmap strings.
From Stdlib Require Import ZArith Lia.

Local Open Scope Z_scope.

(** ** Machine integers

    [uint] is a [Z] in [0, 2^32); [int] is a [Z] in [-2^31, 2^31).  Every C
    operator that can wrap is followed by [u32] (or [s32]). *)
Definition u32 (x : Z) : Z := x mod 4294967296.

Definition s32 (x : Z) : Z :=
  let y := x mod 4294967296 in
  if y <? 2147483648 then y else y - 4294967296.

Lemma u32_range x : 0 <= u32 x < 4294967296.
Proof. apply Z.mod_pos_bound. lia. Qed.

Lemma u32_small x : 0 <= x < 4294967296 -> u32 x = x.
Proof. apply Z.mod_small. Qed.

Lemma u32_idemp x : u32 (u32 x) = u32 x.
Proof. apply u32_small, u32_range. Qed.

Lemma u32_add_l a b : u32 (u32 a + b) = u32 (a + b).
Proof. unfold u32. apply Zplus_mod_idemp_l. Qed.

Lemma u32_add_r a b : u32 (a + u32 b) = u32 (a + b).
Proof. unfold u32. apply Zplus_mod_idemp_r. Qed.

Lemma u32_sub_l a b : u32 (u32 a - b) = u32 (a - b).
Proof. unfold u32. apply Zminus_mod_idemp_l. Qed.

Lemma u32_sub_r a b : u32 (a - u32 b) = u32 (a - b).
Proof. unfold u32. apply Zminus_mod_idemp_r. Qed.

Lemma s32_range x : -2147483648 <= s32 x < 2147483648.
Proof.
  unfold s32. pose proof (Z.mod_pos_bound x 4294967296 ltac:(lia)).
  destruct (Z.ltb_spec (x mod 4294967296) 2147483648); lia.
Qed.

Lemma s32_small x : -2147483648 <= x < 2147483648 -> s32 x = x.
Proof.
  intros H. unfold s32. destruct (Z.le_gt_cases 0 x).
  - rewrite Z.mod_small by lia. destruct (Z.ltb_spec x 2147483648); lia.
  - replace (x mod 4294967296) with (x + 4294967296).
    + destruct (Z.ltb_spec (x + 4294967296) 2147483648); lia.
    + rewrite <- (Z.mod_small (x + 4294967296) 4294967296) by lia.
      rewrite <- (Z_mod_plus_full x 1 4294967296). f_equal; lia.
Qed.

(** ** Outcomes of kernel code

    A kernel routine that runs to completion returns a value and a new state.
    [Panic] is a call of [panic()], [Undef] an access C leaves undefined (such
    as a load through a null pointer), and [Hang] a loop that did not finish
    within the iterations its model allows. *)
Inductive outcome (S A : Type) : Type :=
| Ret (a : A) (s : S)
| Panic (msg : string)
| Undef
| Hang.
Arguments Ret {S A} a s.
Arguments Panic {S A} msg.
Arguments Undef {S A}.
Arguments Hang {S A}.

Definition M (S A : Type) : Type := S -> outcome S A.

Definition ret {S A} (a : A) : M S A := fun s => Ret a s.

Definition bind {S A B} (c : M S A) (k : A -> M S B) : M S B := fun s =>
  match c s with
  | Ret a s' => k a s'
  | Panic msg => Panic msg
  | Undef => Undef
  | Hang => Hang
  end.

Declare Scope kernel_scope.
Delimit Scope kernel_scope with kernel.
Notation "x <- c ;; k" := (bind c (fun x => k))
  (at level 100, c at next level, k at level 200, right associativity) : kernel_scope.
Notation "' pat <- c ;; k" := (bind c (fun x => match x with pat => k end))
  (at level 20, pat pattern, c at level 100, k at level 200) : kernel_scope.
Notation "c ;; k" := (bind c (fun _ => k))
  (at level 100, k at level 200, right associativity) : kernel_scope.
Bind Scope kernel_scope with M.
Open Scope kernel_scope.

Definition panic {S A} (msg : string) : M S A := fun _ => Panic msg.
Definition undef {S A} : M S A := fun _ => Undef.
Definition hang {S A} : M S A := fun _ => Hang.
Definition get {S} : M S S := fun s => Ret s s.
Definition put {S} (s : S) : M S unit := fun _ => Ret tt s.
Definition modify {S} (f : S -> S) : M S unit := fun s => Ret tt (f s).
Definition gets {S A} (f : S -> A) : M S A := fun s => Ret (f s) s.

(** ** Total correctness

    [wp c Q s]: from [s], [c] returns (no panic, no undefined access, no
    unfinished loop) and the result satisfies [Q]. *)
Definition wp {S A} (c : M S A) (Q : A -> S -> Prop) (s : S) : Prop :=
  match c s with Ret a s' => Q a s' | _ => False end.

Lemma wp_ret {S A} (a : A) (Q : A -> S -> Prop) s : Q a s -> wp (ret a) Q s.
Proof. done. Qed.

Lemma wp_bind {S A B} (c : M S A) (k : A -> M S B) Q s :
  wp c (fun a => wp (k a) Q) s -> wp (bind c k) Q s.
Proof. unfold wp, bind. destruct (c s); done. Qed.

Lemma wp_bind_inv {S A B} (c : M S A) (k : A -> M S B) Q s :
  wp (bind c k) Q s -> wp c (fun a => wp (k a) Q) s.
Proof. unfold wp, bind. destruct (c s); done. Qed.

Lemma wp_mono {S A} (c : M S A) (P Q : A -> S -> Prop) s :
  wp c P s -> (forall a s', P a s' -> Q a s') -> wp c Q s.
Proof. unfold wp. destruct (c s); eauto. Qed.

Lemma wp_gets {S A} (f : S -> A) (Q : A -> S -> Prop) s : Q (f s) s -> wp (gets f) Q s.
Proof. done. Qed.

Lemma wp_get {S} (Q : S -> S -> Prop) s : Q s s -> wp get Q s.
Proof. done. Qed.

Lemma wp_modify {S} (f : S -> S) (Q : unit -> S -> Prop) s : Q tt (f s) -> wp (modify f) Q s.
Proof. done. Qed.

Lemma wp_inv {S A} (c : M S A) Q s : wp c Q s -> exists a s', c s = Ret a s' /\ Q a s'.
Proof. unfold wp. destruct (c s) as [a s'| | |]; [eauto|done..]. Qed.

Lemma wp_intro {S A} (c : M S A) Q s a s' : c s = Ret a s' -> Q a s' -> wp c Q s.
Proof. unfold wp. by intros ->. Qed.


(** ** What a routine does to a measure of the state

    [tr m x c Q]: started where the measure [m] is [x], whenever [c] returns, [Q]
    holds of the result and of the measure then.  [keepsM m c]: whenever [c]
    returns, the measure is what it was. *)
Definition tr {S A X} (m : S -> X) (x : X) (c : M S A) (Q : A -> X -> Prop) : Prop :=
  forall s a s', m s = x -> c s = Ret a s' -> Q a (m s').

Definition keepsM {S A X} (m : S -> X) (c : M S A) : Prop :=
  forall s a s', c s = Ret a s' -> m s' = m s.

Lemma keepsM_ret {S A X} (m : S -> X) (a : A) : keepsM m (ret a).
Proof. intros s a' s' [= <- <-]. done. Qed.
Lemma keepsM_panic {S A X} (m : S -> X) msg : keepsM m (panic msg : M S A).
Proof. done. Qed.
Lemma keepsM_undef {S A X} (m : S -> X) : keepsM m (undef : M S A).
Proof. done. Qed.
Lemma keepsM_hang {S A X} (m : S -> X) : keepsM m (hang : M S A).
Proof. done. Qed.
Lemma keepsM_gets {S A X} (m : S -> X) (f : S -> A) : keepsM m (gets f).
Proof. intros s a s' [= <- <-]. done. Qed.
Lemma keepsM_get {S X} (m : S -> X) : keepsM m get.
Proof. intros s a s' [= <- <-]. done. Qed.
Lemma keepsM_modify {S X} (m : S -> X) (f : S -> S) : (forall s, m (f s) = m s) -> keepsM m (modify f).
Proof. intros Hf s a s' [= <- <-]. apply Hf. Qed.
Lemma keepsM_bind {S A B X} (m : S -> X) (c : M S A) (k : A -> M S B) :
  keepsM m c -> (forall a, keepsM m (k a)) -> keepsM m (bind c k).
Proof.
  intros Hc Hk s a s' H. unfold bind in H. destruct (c s) as [a0 s0| | |] eqn:E; try done.
  rewrite <- (Hc s a0 s0 E). apply (Hk a0 s0 a s' H).
Qed.

Lemma tr_ret {S A X} (m : S -> X) x (a : A) (Q : A -> X -> Prop) : Q a x -> tr m x (ret a) Q.
Proof. intros HQ s a' s' <- [= <- <-]. done. Qed.
Lemma tr_mono {S A X} (m : S -> X) x (c : M S A) (P Q : A -> X -> Prop) :
  tr m x c P -> (forall a y, P a y -> Q a y) -> tr m x c Q.
Proof. intros Hc HPQ s a s' Hs H. eapply HPQ, Hc; done. Qed.
Lemma tr_bind {S A B X} (m : S -> X) x (c : M S A) (k : A -> M S B) (Q : B -> X -> Prop) :
  tr m x c (fun a y => tr m y (k a) Q) -> tr m x (bind c k) Q.
Proof.
  intros Hc s b s' Hs H. unfold bind in H. destruct (c s) as [a s0| | |] eqn:E; try done.
  exact (Hc s a s0 Hs E s0 b s' eq_refl H).
Qed.
Lemma tr_keep {S A X} (m : S -> X) x (c : M S A) (Q : A -> X -> Prop) :
  keepsM m c -> (forall a, Q a x) -> tr m x c Q.
Proof. intros Hc HQ s a s' <- H. rewrite (Hc s a s' H). apply HQ. Qed.
Lemma keepsM_tr {S A X} (m : S -> X) (c : M S A) :
  (forall x, tr m x c (fun _ y => y = x)) -> keepsM m c.
Proof. intros Hc s a s' H. exact (Hc (m s) s a s' eq_refl H). Qed.
Lemma tr_stop {S A X} (m : S -> X) x (c : M S A) (Q : A -> X -> Prop) :
  (forall s a s', c s <> Ret a s') -> tr m x c Q.
Proof. intros Hc s a s' _ H. by destruct (Hc s a s'). Qed.

Create HintDb keepsdb.
Ltac keeps_step :=
  match goal with
  | |- forall _, _ => intros ?
  | |- keepsM _ (bind _ _) => apply keepsM_bind
  | |- keepsM _ (ret _) => apply keepsM_ret
  | |- keepsM _ get => apply keepsM_get
  | |- keepsM _ (gets _) => apply keepsM_gets
  | |- keepsM _ (modify _) => apply keepsM_modify; intros; reflexivity
  | |- keepsM _ (panic _) => apply keepsM_panic
  | |- keepsM _ undef => apply keepsM_undef
  | |- keepsM _ hang => apply keepsM_hang
  | |- keepsM _ (match ?x with _ => _ end) => destruct x
  | |- keepsM _ _ => solve [auto with keepsdb nocore]
  end.
Ltac keeps_tac := repeat keeps_step.

(** The same on [tr], for a routine that takes and releases: the calls that keep
    the measure are passed over. *)
Ltac tr_step :=
  match goal with
  | |- forall _, _ => intros ?
  | |- tr _ _ (bind _ _) _ => apply tr_bind
  | |- tr _ _ (ret _) _ => apply tr_ret
  | |- tr _ _ (panic _) _ => apply tr_stop; done
  | |- tr _ _ undef _ => apply tr_stop; done
  | |- tr _ _ hang _ => apply tr_stop; done
  | |- tr _ _ (match ?x with _ => _ end) _ => destruct x
  | |- tr _ _ _ _ => apply tr_keep; [solve [keeps_tac]|]
  end.
Ltac tr_tac := repeat tr_step.

Lemma wp_and {S A} (c : M S A) (P Q : A -> S -> Prop) s :
  wp c P s -> wp c Q s -> wp c (fun a s' => P a s' /\ Q a s') s.
Proof. unfold wp. destruct (c s); auto. Qed.

(** Running a sequence whose first part is known to return. *)
Lemma bind_run {S A B} (c : M S A) (k : A -> M S B) s a s' : c s = Ret a s' -> bind c k s = k a s'.
Proof. unfold bind. by intros ->. Qed.

Lemma bind_gets {S A B} (f : S -> A) (k : A -> M S B) s : bind (gets f) k s = k (f s) s.
Proof. done. Qed.

Lemma bind_get {S B} (k : S -> M S B) s : bind get k s = k s s.
Proof. done. Qed.

Create HintDb xv6 discriminated.
#[export] Hint Resolve wp_ret wp_gets wp_get wp_modify : xv6.

(** One step of a weakest precondition: sequencing and the state primitives. *)
Ltac wp_step :=
  lazymatch goal with
  | |- wp (bind _ _) _ _ => apply wp_bind
  | |- wp (ret _) _ _ => apply wp_ret
  | |- wp (gets _) _ _ => apply wp_gets
  | |- wp get _ _ => apply wp_get
  | |- wp (modify _) _ _ => apply wp_modify
  end; cbv beta.
Ltac wp_steps := repeat wp_step.

(** Case analysis on the boolean guard of the goal. *)
Ltac split_guard H :=
  lazymatch goal with
  | |- context [if ?b then _ else _] => destruct b eqn:H
  end.

(** Turn boolean comparisons of the context into propositions. *)
Ltac b2p :=
  repeat match goal with
  | H : (_ && _)%bool = true |- _ => apply andb_prop in H; destruct H
  | H : (_ || _)%bool = false |- _ => apply orb_false_elim in H; destruct H
  | H : negb _ = true |- _ => apply negb_true_iff in H
  | H : negb _ = false |- _ => apply negb_false_iff in H
  | H : (_ <? _) = true |- _ => apply Z.ltb_lt in H
  | H : (_ <? _) = false |- _ => apply Z.ltb_ge in H
  | H : (_ <=? _) = true |- _ => apply Z.leb_le in H
  | H : (_ <=? _) = false |- _ => apply Z.leb_gt in H
  | H : (_ >=? _) = _ |- _ => rewrite Z.geb_leb in H
  | H : (_ >? _) = _ |- _ => rewrite Z.gtb_ltb in H
  | H : (_ =? _) = true |- _ => apply Z.eqb_eq in H
  | H : (_ =? _) = false |- _ => apply Z.eqb_neq in H
  end.

(** ** Finite sequences of steps *)
Section Star.
  Context {A : Type} (R : A -> A -> Prop).

Inductive star : A -> A -> Prop :=
| star_refl a : star a a
| star_step a b c : R a b -> star b c -> star a c.

Lemma star_one a b : R a b -> star a b.
Proof. eauto using star. Qed.

Lemma star_trans a b c : star a b -> star b c -> star a c.
Proof. induction 1; eauto using star. Qed.

Lemma star_inv (I : A -> Prop) a b :
  (forall x y, I x -> R x y -> I y) -> star a b -> I a -> I b.
Proof. intros Hstep. induction 1; eauto. Qed.
End Star.

(** ** Lists and finite maps *)

Lemma alter_insert {A} (l : list A) f i x : l !! i = Some x -> alter f i l = <[i := f x]> l.
Proof.
  intros Hi. apply list_eq. intros j. destruct (decide (j = i)) as [-> | Hj].
  - rewrite list_lookup_alter_eq, list_lookup_insert_eq by (by eapply lookup_lt_Some). by rewrite Hi.
  - by rewrite list_lookup_alter_ne, list_lookup_insert_ne by done.
Qed.
Lemma list_lookup_Z_lt {A} (l : list A) (i : Z) :
  0 <= i < Z.of_nat (length l) -> exists x, l !! Z.to_nat i = Some x.
Proof. intros H. apply lookup_lt_is_Some. lia. Qed.

Lemma div_mod_unique_4096 a q r : 0 <= r < 4096 -> a = 4096 * q + r -> a / 4096 = q /\ a mod 4096 = r.
Proof.
  intros Hr ->. split.
  - symmetry. apply (Z.div_unique _ _ _ r); lia.
  - symmetry. apply (Z.mod_unique _ _ q); lia.
Qed.
