(* ===== verification/Mmu.v ===== *)
(** * x86 memory-management constants (mmu.h, memlayout.h, param.h)

    The macros of src/mmu.h and src/memlayout.h as functions on 32-bit
    integers, with the arithmetic they stand for: page rounding, the three-part
    structure of a virtual address, page-table entries, segment descriptors and
    interrupt gates. *)

From stdpp Require Import base numbers list.
From Stdlib Require Import ZArith Lia.
From S2P Require Import Prelude.

Local Open Scope Z_scope.

(** ** memlayout.h *)
Definition EXTMEM : Z := 0x100000.
Definition PHYSTOP : Z := 0xE000000.
Definition DEVSPACE : Z := 0xFE000000.
Definition KERNBASE : Z := 0x80000000.
Definition KERNLINK : Z := KERNBASE + EXTMEM.
Definition V2P (a : Z) : Z := u32 (a - KERNBASE).
Definition P2V (a : Z) : Z := u32 (a + KERNBASE).

(** ** mmu.h: paging *)
Definition PGSIZE : Z := 4096.
Definition NPDENTRIES : Z := 1024.
Definition NPTENTRIES : Z := 1024.
Definition PTXSHIFT : Z := 12.
Definition PDXSHIFT : Z := 22.
Definition PDX (va : Z) : Z := Z.land (Z.shiftr (u32 va) PDXSHIFT) 0x3FF.
Definition PTX (va : Z) : Z := Z.land (Z.shiftr (u32 va) PTXSHIFT) 0x3FF.
Definition PGADDR (d t o : Z) : Z :=
  u32 (Z.lor (Z.lor (Z.shiftl d PDXSHIFT) (Z.shiftl t PTXSHIFT)) o).
Definition PGROUNDUP (sz : Z) : Z := Z.land (u32 (sz + PGSIZE - 1)) (u32 (Z.lnot (PGSIZE - 1))).
Definition PGROUNDDOWN (a : Z) : Z := Z.land (u32 a) (u32 (Z.lnot (PGSIZE - 1))).
Definition PTE_P : Z := 0x001.
Definition PTE_W : Z := 0x002.
Definition PTE_U : Z := 0x004.
Definition PTE_PS : Z := 0x080.
Definition PTE_ADDR (pte : Z) : Z := Z.land (u32 pte) (u32 (Z.lnot 0xFFF)).
Definition PTE_FLAGS (pte : Z) : Z := Z.land (u32 pte) 0xFFF.

(** ** mmu.h: segment and gate descriptors *)
Definition SEG_KCODE : Z := 1.
Definition SEG_KDATA : Z := 2.
Definition SEG_UCODE : Z := 3.
Definition SEG_UDATA : Z := 4.
Definition SEG_TSS : Z := 5.
Definition NSEGS : Z := 6.
Definition DPL_USER : Z := 3.
Definition STA_X : Z := 0x8.
Definition STA_W : Z := 0x2.
Definition STA_R : Z := 0x2.
Definition STS_T32A : Z := 0x9.
Definition STS_IG32 : Z := 0xE.
Definition STS_TG32 : Z := 0xF.
Definition FL_IF : Z := 0x200.

Record segdesc := mkSegdesc {
  lim_15_0 : Z; base_15_0 : Z; base_23_16 : Z; seg_type : Z; seg_s : Z;
  seg_dpl : Z; seg_p : Z; lim_19_16 : Z; seg_avl : Z; seg_rsv1 : Z;
  seg_db : Z; seg_g : Z; base_31_24 : Z }.

(** Bit-fields keep the low bits of what is assigned to them. *)
Definition SEG (type base lim dpl : Z) : segdesc :=
  mkSegdesc (Z.land (Z.shiftr lim 12) 0xffff) (Z.land (u32 base) 0xffff)
    (Z.land (Z.shiftr (u32 base) 16) 0xff) (type mod 16) 1 (dpl mod 4) 1
    (Z.shiftr (u32 lim) 28 mod 16) 0 0 1 1 (Z.shiftr (u32 base) 24 mod 256).

Definition SEG16 (type base lim dpl : Z) : segdesc :=
  mkSegdesc (Z.land lim 0xffff) (Z.land (u32 base) 0xffff)
    (Z.land (Z.shiftr (u32 base) 16) 0xff) (type mod 16) 1 (dpl mod 4) 1
    (Z.shiftr (u32 lim) 16 mod 16) 0 0 1 0 (Z.shiftr (u32 base) 24 mod 256).

Record gatedesc := mkGatedesc {
  off_15_0 : Z; gate_cs : Z; gate_args : Z; gate_rsv1 : Z; gate_type : Z;
  gate_s : Z; gate_dpl : Z; gate_p : Z; off_31_16 : Z }.

Definition SETGATE (istrap : bool) (sel off d : Z) : gatedesc :=
  mkGatedesc (Z.land (u32 off) 0xffff) (sel mod 65536) 0 0
    (if istrap then STS_TG32 else STS_IG32) 0 (d mod 4) 1 (Z.shiftr (u32 off) 16).

(** What the processor makes of the descriptors (Intel SDM, vol. 3, 3.4.5 and
    6.11): the 32-bit base, the limit with its granularity, the handler's
    offset. *)
Definition seg_base (s : segdesc) : Z :=
  base_15_0 s + 65536 * base_23_16 s + 16777216 * base_31_24 s.
Definition seg_limit (s : segdesc) : Z :=
  let raw := lim_15_0 s + 65536 * lim_19_16 s in
  if seg_g s =? 1 then 4096 * raw + 4095 else raw.
Definition gate_offset (g : gatedesc) : Z := off_15_0 g + 65536 * off_31_16 g.

(** ** Bit operations as arithmetic *)
Lemma land_ones_mod x n m : 0 <= n -> m = 2 ^ n - 1 -> Z.land x m = x mod 2 ^ n.
Proof.
  intros Hn ->. rewrite <- Z.land_ones by lia. rewrite Z.ones_equiv. f_equal; lia.
Qed.

Lemma land_pagemask x : 0 <= x < 4294967296 -> Z.land x 4294963200 = 4096 * (x / 4096).
Proof.
  intros Hx. rewrite Z.mul_comm.
  change (x / 4096 * 4096) with (x / 2 ^ 12 * 2 ^ 12).
  rewrite <- Z.shiftr_div_pow2, <- Z.shiftl_mul_pow2 by lia.
  change 4294963200 with (Z.shiftl (Z.ones 20) 12).
  apply Z.bits_inj'. intros i Hi.
  rewrite Z.land_spec, !Z.shiftl_spec by lia.
  destruct (Z.lt_ge_cases i 12).
  - rewrite !(Z.testbit_neg_r _ (i - 12)) by lia. by rewrite andb_false_r.
  - rewrite Z.shiftr_spec by lia. replace (i - 12 + 12) with i by lia.
    destruct (Z.lt_ge_cases i 32).
    + rewrite Z.ones_spec_low by lia. apply andb_true_r.
    + rewrite Z.ones_spec_high, andb_false_r by lia. symmetry.
      apply Z.bits_above_log2; [lia|].
      destruct (decide (x = 0)) as [->|]; [simpl; lia|].
      apply Z.log2_lt_pow2; [lia|]. apply (Z.lt_le_trans _ (2 ^ 32)); [lia|].
      apply Z.pow_le_mono_r; lia.
Qed.

Lemma lor_low_add n a f : 0 <= n -> a mod 2 ^ n = 0 -> 0 <= f < 2 ^ n -> Z.lor a f = a + f.
Proof.
  intros Hn Ha Hf. rewrite <- Z.add_lor_land.
  enough (Z.land a f = 0) by lia.
  apply Z.bits_inj'. intros i Hi. rewrite Z.land_spec, Z.bits_0.
  destruct (Z.lt_ge_cases i n).
  - rewrite <- (Z.mod_pow2_bits_low a n) by lia. rewrite Ha, Z.bits_0. done.
  - replace (Z.testbit f i) with false; [by rewrite andb_false_r|].
    symmetry. destruct (decide (f = 0)) as [->|]; [apply Z.bits_0|].
    apply Z.bits_above_log2; [lia|]. apply Z.log2_lt_pow2; [lia|].
    apply (Z.lt_le_trans _ (2 ^ n)); [lia|]. apply Z.pow_le_mono_r; lia.
Qed.

Section PageArithmetic.
  Implicit Types va a sz pa f : Z.

Lemma PDX_div va : 0 <= va < 4294967296 -> PDX va = va / 4194304.
Proof.
  intros H. unfold PDX, PDXSHIFT. rewrite u32_small by lia.
  rewrite (land_ones_mod _ 10), Z.shiftr_div_pow2 by lia.
  change (2 ^ 22) with 4194304. apply Z.mod_small.
  split; [apply Z.div_pos; lia|apply Z.div_lt_upper_bound; lia].
Qed.

Lemma PTX_div va : 0 <= va < 4294967296 -> PTX va = va / 4096 mod 1024.
Proof.
  intros H. unfold PTX, PTXSHIFT. rewrite u32_small by lia.
  rewrite (land_ones_mod _ 10), Z.shiftr_div_pow2 by lia. done.
Qed.

Lemma PDX_range va : 0 <= va < 4294967296 -> 0 <= PDX va < 1024.
Proof.
  intros H. rewrite PDX_div by lia.
  split; [apply Z.div_pos; lia|apply Z.div_lt_upper_bound; lia].
Qed.

Lemma PTX_range va : 0 <= va < 4294967296 -> 0 <= PTX va < 1024.
Proof. intros H. rewrite PTX_div by lia. apply Z.mod_pos_bound; lia. Qed.

Lemma PGROUNDDOWN_div a : 0 <= a < 4294967296 -> PGROUNDDOWN a = 4096 * (a / 4096).
Proof.
  intros H. unfold PGROUNDDOWN. rewrite u32_small by lia.
  change (u32 (Z.lnot (PGSIZE - 1))) with 4294963200. by apply land_pagemask.
Qed.

Lemma PGROUNDUP_div sz : 0 <= sz <= 4294967296 - 4096 -> PGROUNDUP sz = 4096 * ((sz + 4095) / 4096).
Proof.
  intros H. unfold PGROUNDUP, PGSIZE.
  replace (sz + 4096 - 1) with (sz + 4095) by lia. rewrite u32_small by lia.
  change (u32 (Z.lnot (4096 - 1))) with 4294963200. apply land_pagemask; lia.
Qed.

Lemma PTE_ADDR_div p : 0 <= p < 4294967296 -> PTE_ADDR p = 4096 * (p / 4096).
Proof. intros H. apply (PGROUNDDOWN_div p H). Qed.

Lemma PTE_FLAGS_mod p : 0 <= p < 4294967296 -> PTE_FLAGS p = p mod 4096.
Proof.
  intros H. unfold PTE_FLAGS. rewrite u32_small by lia.
  by rewrite (land_ones_mod _ 12) by lia.
Qed.

(** Rounding: the least page boundary at or above, the greatest at or below. *)
Lemma PGROUNDUP_spec sz :
  0 <= sz <= 4294967296 - 4096 ->
  PGROUNDUP sz mod 4096 = 0 /\ sz <= PGROUNDUP sz < sz + 4096.
Proof.
  intros H. rewrite PGROUNDUP_div by lia.
  rewrite Z.mul_comm, Z.mod_mul by lia.
  pose proof (Z.div_mod (sz + 4095) 4096 ltac:(lia)).
  pose proof (Z.mod_pos_bound (sz + 4095) 4096 ltac:(lia)). lia.
Qed.

Lemma PGROUNDDOWN_spec a :
  0 <= a < 4294967296 ->
  PGROUNDDOWN a mod 4096 = 0 /\ PGROUNDDOWN a <= a < PGROUNDDOWN a + 4096.
Proof.
  intros H. rewrite PGROUNDDOWN_div by lia.
  rewrite Z.mul_comm, Z.mod_mul by lia.
  pose proof (Z.div_mod a 4096 ltac:(lia)).
  pose proof (Z.mod_pos_bound a 4096 ltac:(lia)). lia.
Qed.

Lemma PGROUNDUP_aligned sz : 0 <= sz <= 4294967296 - 4096 -> sz mod 4096 = 0 -> PGROUNDUP sz = sz.
Proof.
  intros H Hm. pose proof (PGROUNDUP_spec sz H) as [Ha Hb].
  apply Z.mod_divide in Hm as [k ->]; [|lia].
  apply Z.mod_divide in Ha as [k' Hk']; [|lia]. rewrite Hk' in *. lia.
Qed.

Lemma PGROUNDDOWN_aligned a : 0 <= a < 4294967296 -> a mod 4096 = 0 -> PGROUNDDOWN a = a.
Proof.
  intros H Hm. rewrite PGROUNDDOWN_div by lia.
  pose proof (Z.div_mod a 4096 ltac:(lia)). lia.
Qed.

(** A page-table entry is its frame address plus its flags. *)
Lemma pte_make pa f :
  0 <= pa < 4294967296 -> pa mod 4096 = 0 -> 0 <= f < 4096 ->
  Z.lor pa f = pa + f /\ PTE_ADDR (Z.lor pa f) = pa /\ PTE_FLAGS (Z.lor pa f) = f.
Proof.
  intros Hpa Hm Hf. rewrite (lor_low_add 12) by (try done; lia).
  apply Z.mod_divide in Hm as [k ->]; [|lia].
  assert (0 <= k * 4096 + f < 4294967296) by lia.
  rewrite PTE_ADDR_div, PTE_FLAGS_mod by lia.
  destruct (div_mod_unique_4096 (k * 4096 + f) k f) as [-> ->]; lia.
Qed.

Lemma V2P_P2V a : 0 <= a < 4294967296 -> V2P (P2V a) = a.
Proof.
  intros H. unfold V2P, P2V. rewrite u32_sub_l.
  replace (a + KERNBASE - KERNBASE) with a by lia. by apply u32_small.
Qed.

Lemma P2V_V2P a : 0 <= a < 4294967296 -> P2V (V2P a) = a.
Proof.
  intros H. unfold V2P, P2V. rewrite u32_add_l.
  replace (a - KERNBASE + KERNBASE) with a by lia. by apply u32_small.
Qed.

Lemma V2P_kern a : KERNBASE <= a < 4294967296 -> V2P a = a - KERNBASE.
Proof. intros H. apply u32_small. unfold KERNBASE in *. lia. Qed.
End PageArithmetic.

Lemma PGADDR_add d t o :
  0 <= d < 1024 -> 0 <= t < 1024 -> 0 <= o < 4096 ->
  PGADDR d t o = 4194304 * d + 4096 * t + o.
Proof.
  intros Hd Ht Ho. unfold PGADDR, PDXSHIFT, PTXSHIFT.
  rewrite !Z.shiftl_mul_pow2 by lia.
  rewrite (lor_low_add 22 (d * 2 ^ 22)) by (try apply Z.mod_mul; lia).
  rewrite (lor_low_add 12); [rewrite u32_small; lia|lia| |lia].
  replace (d * 2 ^ 22 + t * 2 ^ 12) with ((d * 1024 + t) * 2 ^ 12) by lia.
  by apply Z.mod_mul.
Qed.

Lemma va_parts va :
  0 <= va < 4294967296 -> va = 4194304 * PDX va + 4096 * PTX va + va mod 4096.
Proof.
  intros H. rewrite PDX_div, PTX_div by lia.
  pose proof (Z.div_mod va 4096 ltac:(lia)).
  pose proof (Z.div_mod (va / 4096) 1024 ltac:(lia)).
  rewrite Z.div_div in * by lia. change (4096 * 1024) with 4194304 in *. lia.
Qed.

Lemma parts_of d t o :
  0 <= d < 1024 -> 0 <= t < 1024 -> 0 <= o < 4096 ->
  let va := 4194304 * d + 4096 * t + o in
  PDX va = d /\ PTX va = t /\ va mod 4096 = o.
Proof.
  intros Hd Ht Ho va. assert (Hva : 0 <= va < 4294967296) by (unfold va; lia).
  pose proof (va_parts va Hva) as E. pose proof (PDX_range va Hva).
  pose proof (PTX_range va Hva). pose proof (Z.mod_pos_bound va 4096 ltac:(lia)).
  unfold va in E at 1. lia.
Qed.

(** A virtual address is exactly its three parts: putting the page
    directory index, the page table index and the page offset back together
    with [PGADDR] gives the address, and the parts of such an address are the
    indices and the offset it was built from. *)
Theorem PGADDR_roundtrip :
  (forall va, 0 <= va < 4294967296 -> PGADDR (PDX va) (PTX va) (va mod PGSIZE) = va) /\
  (forall d t o, 0 <= d < NPDENTRIES -> 0 <= t < NPTENTRIES -> 0 <= o < PGSIZE ->
     PDX (PGADDR d t o) = d /\ PTX (PGADDR d t o) = t /\ PGADDR d t o mod PGSIZE = o).
Proof.
  unfold NPDENTRIES, NPTENTRIES, PGSIZE. split.
  - intros va Hva. pose proof (PDX_range va Hva). pose proof (PTX_range va Hva).
    rewrite PGADDR_add by (try apply Z.mod_pos_bound; lia).
    symmetry. by apply va_parts.
  - intros d t o Hd Ht Ho. rewrite PGADDR_add by lia. by apply parts_of.
Qed.

(** Base, limit and handler offset survive the descriptors' scattered
    bit-fields. *)
Lemma field_split x : 0 <= x < 4294967296 ->
  Z.land x 65535 + 65536 * Z.land (Z.shiftr x 16) 255 + 16777216 * (Z.shiftr x 24 mod 256) = x.
Proof.
  intros H. rewrite (land_ones_mod _ 16), (land_ones_mod _ 8), !Z.shiftr_div_pow2 by lia.
  change (2 ^ 16) with 65536. change (2 ^ 8) with 256. change (2 ^ 24) with 16777216.
  pose proof (Z.div_mod x 65536 ltac:(lia)).
  pose proof (Z.div_mod (x / 65536) 256 ltac:(lia)).
  rewrite Z.div_div in * by lia. change (65536 * 256) with 16777216 in *.
  rewrite (Z.mod_small (x / 16777216)); [lia|].
  split; [apply Z.div_pos; lia|apply Z.div_lt_upper_bound; lia].
Qed.

(** The processor reads back from [SEG] the base the kernel asked for and,
    for a limit that ends a 4 KiB granule (the only ones the kernel uses), that
    limit; and from [SETGATE] the handler's address, the selector and the
    privilege level, as a trap gate exactly when one was asked for. *)
Theorem descriptors_decode (type base lim dpl : Z) (istrap : bool) (sel off : Z)
  (Hbase : 0 <= base < 4294967296) (Hlim : 0 <= lim < 4294967296)
  (Hgran : lim mod 4096 = 4095) (Hdpl : 0 <= dpl < 4)
  (Hsel : 0 <= sel < 65536) (Hoff : 0 <= off < 4294967296) :
  seg_base (SEG type base lim dpl) = base /\
  seg_limit (SEG type base lim dpl) = lim /\
  seg_dpl (SEG type base lim dpl) = dpl /\
  gate_offset (SETGATE istrap sel off dpl) = off /\
  gate_cs (SETGATE istrap sel off dpl) = sel /\
  gate_dpl (SETGATE istrap sel off dpl) = dpl /\
  (gate_type (SETGATE istrap sel off dpl) = STS_TG32 <-> istrap = true).
Proof.
  unfold seg_base, seg_limit, gate_offset; simpl. rewrite !u32_small by lia.
  split_and!; try (by apply Z.mod_small); [by apply field_split| | |by destruct istrap].
  - rewrite (land_ones_mod _ 16), !Z.shiftr_div_pow2 by lia.
    change (2 ^ 16) with 65536. change (2 ^ 12) with 4096. change (2 ^ 28) with 268435456.
    pose proof (Z.div_mod lim 4096 ltac:(lia)).
    pose proof (Z.div_mod (lim / 4096) 65536 ltac:(lia)).
    rewrite Z.div_div in * by lia. change (4096 * 65536) with 268435456 in *.
    rewrite (Z.mod_small (lim / 268435456)); [lia|].
    split; [apply Z.div_pos; lia|apply Z.div_lt_upper_bound; lia].
  - rewrite (land_ones_mod _ 16), Z.shiftr_div_pow2 by lia.
    change (2 ^ 16) with 65536. pose proof (Z.div_mod off 65536 ltac:(lia)). lia.
Qed.

Lemma descriptors_decode_witness :
  seg_limit (SEG STA_W 0 0xffffffff DPL_USER) = 0xffffffff /\
  gate_offset (SETGATE true (SEG_KCODE * 8) 0x80106000 DPL_USER) = 0x80106000.
Proof.
  pose proof (descriptors_decode STA_W 0 0xffffffff DPL_USER true (SEG_KCODE * 8) 0x80106000
    ltac:(lia) ltac:(lia) eq_refl ltac:(unfold DPL_USER; lia) ltac:(unfold SEG_KCODE; lia)
    ltac:(lia)) as (_ & Hl & _ & Ho & _).
  split; [exact Hl|exact Ho].
Defined.
