(* ===== verification/Mem.v ===== *)
(** * Memory and string.c

    Byte-addressed memory with little-endian 32-bit words, and the kernel's
    memory and string routines of src/string.c over it.  An address is a [Z];
    an address that was never written reads as an arbitrary fixed byte.  A
    [char*] that is only read is passed as the function from an index to the
    byte there, so the same routine serves memory and byte lists. *)

From stdpp Require Import base numbers list gmap.
From Stdlib Require Import ZArith Lia.
From S2P Require Import Prelude Mmu.

Local Open Scope Z_scope.

Abbreviation memory := (gmap Z Z).

(** ** Loads and stores *)
Definition load8 (m : memory) (a : Z) : Z := default 0 (m !! a) mod 256.
Definition store8 (m : memory) (a v : Z) : memory := <[a := v mod 256]> m.

Definition load32 (m : memory) (a : Z) : Z :=
  load8 m a + 256 * load8 m (a + 1) + 65536 * load8 m (a + 2) + 16777216 * load8 m (a + 3).

Definition store32 (m : memory) (a v : Z) : memory :=
  store8 (store8 (store8 (store8 m a v) (a + 1) (v / 256)) (a + 2) (v / 65536))
    (a + 3) (v / 16777216).

Fixpoint load_bytes (m : memory) (a : Z) (n : nat) : list Z :=
  match n with
  | O => []
  | S n' => load8 m a :: load_bytes m (a + 1) n'
  end.

Fixpoint store_bytes (m : memory) (a : Z) (l : list Z) : memory :=
  match l with
  | [] => m
  | b :: l' => store_bytes (store8 m a b) (a + 1) l'
  end.

(** ** x86.h: rep stosb, rep stosl *)
Fixpoint stosb (m : memory) (addr data : Z) (cnt : nat) : memory :=
  match cnt with
  | O => m
  | S cnt' => stosb (store8 m addr data) (addr + 1) data cnt'
  end.

Fixpoint stosl (m : memory) (addr data : Z) (cnt : nat) : memory :=
  match cnt with
  | O => m
  | S cnt' => stosl (store32 m addr data) (addr + 4) data cnt'
  end.

(** ** string.c *)
Definition memset (m : memory) (dst c n : Z) : memory :=
  if (Z.rem (s32 dst) 4 =? 0) && (n mod 4 =? 0) then
    let c := Z.land c 0xFF in
    stosl m dst
      (Z.lor (Z.lor (Z.lor (Z.shiftl c 24) (Z.shiftl c 16)) (Z.shiftl c 8)) c)
      (Z.to_nat (n / 4))
  else stosb m dst c (Z.to_nat n).

Fixpoint memmove_fwd (m : memory) (d s : Z) (n : nat) : memory :=
  match n with
  | O => m
  | S n' => memmove_fwd (store8 m d (load8 m s)) (d + 1) (s + 1) n'
  end.

Fixpoint memmove_bwd (m : memory) (d s : Z) (n : nat) : memory :=
  match n with
  | O => m
  | S n' => memmove_bwd (store8 m (d - 1) (load8 m (s - 1))) (d - 1) (s - 1) n'
  end.

Definition memmove (m : memory) (dst src n : Z) : memory :=
  if (src <? dst) && (src + n >? dst)
  then memmove_bwd m (dst + n) (src + n) (Z.to_nat n)
  else memmove_fwd m dst src (Z.to_nat n).

Definition memcpy (m : memory) (dst src n : Z) : memory := memmove m dst src n.

Fixpoint memcmp_loop (s1 s2 : Z -> Z) (i : Z) (n : nat) : Z :=
  match n with
  | O => 0
  | S n' => if negb (s1 i =? s2 i) then s1 i - s2 i else memcmp_loop s1 s2 (i + 1) n'
  end.
Definition memcmp (v1 v2 : Z -> Z) (n : nat) : Z := memcmp_loop v1 v2 0 n.

Fixpoint strncmp_loop (p q : Z -> Z) (i : Z) (n : nat) : Z :=
  match n with
  | O => 0
  | S n' =>
      if negb (p i =? 0) && (p i =? q i) then strncmp_loop p q (i + 1) n'
      else p i - q i
  end.
Definition strncmp (p q : Z -> Z) (n : nat) : Z := strncmp_loop p q 0 n.

(** The bytes [strncpy] stores from the destination on: all [n] of them. *)
Fixpoint strncpy_loop (t : Z -> Z) (i : Z) (n : nat) : list Z :=
  match n with
  | O => []
  | S n' => if t i =? 0 then replicate n 0 else t i :: strncpy_loop t (i + 1) n'
  end.
Definition strncpy (t : Z -> Z) (n : nat) : list Z := strncpy_loop t 0 n.

(** The bytes [safestrcpy] stores: the string it copied and a NUL; what
    follows in the destination is not written. *)
Fixpoint safestrcpy_loop (t : Z -> Z) (i : Z) (n : nat) : list Z :=
  match n with
  | O => [0]
  | S n' => if t i =? 0 then [0; 0] else t i :: safestrcpy_loop t (i + 1) n'
  end.
Definition safestrcpy (t : Z -> Z) (n : Z) : list Z :=
  if n <=? 0 then [] else safestrcpy_loop t 0 (Z.to_nat (n - 1)).

Fixpoint strlen_loop (s : Z -> Z) (n : Z) (fuel : nat) : option Z :=
  match fuel with
  | O => None
  | S fuel' => if s n =? 0 then Some n else strlen_loop s (n + 1) fuel'
  end.
Definition strlen (s : Z -> Z) (fuel : nat) : option Z := strlen_loop s 0 fuel.

(** ** Loads after stores *)
Lemma load8_range m a : 0 <= load8 m a < 256.
Proof. apply Z.mod_pos_bound. lia. Qed.

Lemma load8_store8 m a v b :
  load8 (store8 m a v) b = if decide (a = b) then v mod 256 else load8 m b.
Proof.
  unfold load8, store8. destruct (decide (a = b)) as [->|Hne].
  - rewrite lookup_insert_eq. simpl. apply Z.mod_mod. lia.
  - by rewrite lookup_insert_ne.
Qed.

Lemma load8_store8_eq m a v : load8 (store8 m a v) a = v mod 256.
Proof. rewrite load8_store8. by destruct (decide (a = a)). Qed.

Lemma load8_store8_ne m a v b : a <> b -> load8 (store8 m a v) b = load8 m b.
Proof. intros H. rewrite load8_store8. by destruct (decide (a = b)). Qed.

Lemma load32_range m a : 0 <= load32 m a < 4294967296.
Proof.
  unfold load32. pose proof (load8_range m a). pose proof (load8_range m (a + 1)).
  pose proof (load8_range m (a + 2)). pose proof (load8_range m (a + 3)). lia.
Qed.

Lemma load8_store32_ne m a v b : b < a \/ a + 4 <= b -> load8 (store32 m a v) b = load8 m b.
Proof. intros H. unfold store32. rewrite !load8_store8_ne by lia. done. Qed.

Lemma load8_store32 m a v i :
  0 <= i < 4 -> load8 (store32 m a v) (a + i) = v / 2 ^ (8 * i) mod 256.
Proof.
  intros Hi. unfold store32.
  destruct (decide (i = 0)) as [->|]; [|destruct (decide (i = 1)) as [->|];
    [|destruct (decide (i = 2)) as [->|]; [|assert (i = 3) as -> by lia]]];
    repeat (rewrite load8_store8_ne by lia);
    (replace (a + 0) with a by lia || idtac);
    rewrite load8_store8_eq; simpl; by rewrite ?Z.div_1_r.
Qed.

Lemma load32_store32_eq m a v : load32 (store32 m a v) a = v mod 4294967296.
Proof.
  unfold load32.
  pose proof (load8_store32 m a v 0 ltac:(lia)) as E0.
  replace (a + 0) with a in E0 by lia. rewrite E0, !load8_store32 by lia.
  change (2 ^ (8 * 0)) with 1. change (2 ^ (8 * 1)) with 256.
  change (2 ^ (8 * 2)) with (256 * 256). change (2 ^ (8 * 3)) with (256 * 256 * 256).
  rewrite Z.div_1_r, <- !Z.div_div by lia.
  change 4294967296 with (256 * (256 * (256 * 256))).
  rewrite !Z.rem_mul_r by lia. lia.
Qed.

Lemma load32_store32_ne m a v b :
  b + 4 <= a \/ a + 4 <= b -> load32 (store32 m a v) b = load32 m b.
Proof. intros H. unfold load32. rewrite !load8_store32_ne by lia. done. Qed.

Lemma load32_ext m m' a :
  (forall i, 0 <= i < 4 -> load8 m (a + i) = load8 m' (a + i)) -> load32 m a = load32 m' a.
Proof.
  intros H. unfold load32. rewrite !H by lia.
  replace (load8 m a) with (load8 m' a); [done|].
  specialize (H 0 ltac:(lia)). by rewrite Z.add_0_r in H.
Qed.

Lemma load_bytes_length m a n : length (load_bytes m a n) = n.
Proof. revert a. induction n; intros a; simpl; auto. Qed.

Lemma load_bytes_lookup m a n i :
  (i < n)%nat -> load_bytes m a n !! i = Some (load8 m (a + Z.of_nat i)).
Proof.
  revert a i. induction n as [|n IH]; intros a i Hi; [lia|].
  destruct i as [|i]; simpl; [by rewrite Z.add_0_r|].
  rewrite IH by lia. do 2 f_equal. lia.
Qed.

Lemma load8_store_bytes m a l b :
  load8 (store_bytes m a l) b =
  if (a <=? b) && (b <? a + Z.of_nat (length l))
  then default 0 (l !! Z.to_nat (b - a)) mod 256 else load8 m b.
Proof.
  revert m a. induction l as [|x l IH]; intros m a; cbn [store_bytes length].
  - destruct (Z.leb_spec a b), (Z.ltb_spec b (a + Z.of_nat 0)); simpl; try done; lia.
  - rewrite IH, load8_store8. clear IH.
    destruct (Z.leb_spec (a + 1) b), (Z.leb_spec a b),
      (Z.ltb_spec b (a + 1 + Z.of_nat (length l))),
      (Z.ltb_spec b (a + Z.of_nat (S (length l)))), (decide (a = b)); cbn [andb];
      try lia; try done.
    + replace (Z.to_nat (b - a)) with (S (Z.to_nat (b - (a + 1)))) by lia. done.
    + subst. by rewrite Z.sub_diag.
Qed.

(** ** memset *)
Lemma load8_stosb m addr data cnt b :
  load8 (stosb m addr data cnt) b =
  if (addr <=? b) && (b <? addr + Z.of_nat cnt) then data mod 256 else load8 m b.
Proof.
  revert m addr. induction cnt as [|cnt IH]; intros m addr; cbn [stosb].
  - destruct (Z.leb_spec addr b), (Z.ltb_spec b (addr + Z.of_nat 0)); simpl; try done; lia.
  - rewrite IH, load8_store8. clear IH.
    destruct (Z.leb_spec (addr + 1) b), (Z.leb_spec addr b),
      (Z.ltb_spec b (addr + 1 + Z.of_nat cnt)),
      (Z.ltb_spec b (addr + Z.of_nat (S cnt))), (decide (addr = b)); cbn [andb];
      try lia; done.
Qed.

Lemma load8_stosl m addr data cnt b :
  (forall i, 0 <= i < 4 -> data / 2 ^ (8 * i) mod 256 = data mod 256) ->
  load8 (stosl m addr data cnt) b =
  if (addr <=? b) && (b <? addr + 4 * Z.of_nat cnt) then data mod 256 else load8 m b.
Proof.
  intros Hd. revert m addr. induction cnt as [|cnt IH]; intros m addr; cbn [stosl].
  - destruct (Z.leb_spec addr b), (Z.ltb_spec b (addr + 4 * Z.of_nat 0)); simpl; try done; lia.
  - rewrite IH. clear IH.
    destruct (Z.leb_spec (addr + 4) b), (Z.leb_spec addr b),
      (Z.ltb_spec b (addr + 4 + 4 * Z.of_nat cnt)),
      (Z.ltb_spec b (addr + 4 * Z.of_nat (S cnt))); cbn [andb]; try lia; try done.
    all: try (apply load8_store32_ne; lia).
    all: replace b with (addr + (b - addr)) by lia; rewrite load8_store32 by lia; apply Hd; lia.
Qed.

(** The four bytes of the word [memset] stores are the byte it was given. *)
Lemma memset_word c :
  let w := Z.lor (Z.lor (Z.lor (Z.shiftl (Z.land c 255) 24) (Z.shiftl (Z.land c 255) 16))
             (Z.shiftl (Z.land c 255) 8)) (Z.land c 255) in
  w mod 256 = c mod 256 /\ forall i, 0 <= i < 4 -> w / 2 ^ (8 * i) mod 256 = w mod 256.
Proof.
  rewrite (land_ones_mod c 8) by lia. change (2 ^ 8) with 256.
  pose proof (Z.mod_pos_bound c 256 ltac:(lia)) as Hb. set (b := c mod 256) in *.
  cbv zeta. rewrite !Z.shiftl_mul_pow2 by lia.
  rewrite (lor_low_add 24 (b * 2 ^ 24)) by (try apply Z.mod_mul; lia).
  rewrite (lor_low_add 16 (b * 2 ^ 24 + b * 2 ^ 16) (b * 2 ^ 8)); [|lia| |lia].
  2: { replace (b * 2 ^ 24 + b * 2 ^ 16) with ((b * 256 + b) * 2 ^ 16) by lia. by apply Z.mod_mul. }
  rewrite (lor_low_add 8); [|lia| |lia].
  2: { replace (b * 2 ^ 24 + b * 2 ^ 16 + b * 2 ^ 8) with ((b * 65536 + b * 256 + b) * 2 ^ 8) by lia.
       by apply Z.mod_mul. }
  set (w := _ + b). assert (Hw : w = b * 16777216 + b * 65536 + b * 256 + b) by (unfold w; lia).
  assert (E : w mod 256 = b).
  { symmetry. apply (Z.mod_unique _ _ (b * 65536 + b * 256 + b)); lia. }
  split; [exact E|]. intros i Hi. rewrite E. symmetry.
  destruct (decide (i = 0)) as [->|]; [simpl; by rewrite Z.div_1_r|].
  assert (i = 1 \/ i = 2 \/ i = 3) as [-> | [-> | ->]] by lia;
    (match goal with |- b = w / ?p mod 256 => let q := eval cbv in p in change p with q end).
  - replace (w / 256) with (b * 65536 + b * 256 + b) by (apply (Z.div_unique _ _ _ b); lia).
    apply (Z.mod_unique _ _ (b * 256 + b)); lia.
  - replace (w / 65536) with (b * 256 + b) by (apply (Z.div_unique _ _ _ (b * 256 + b)); lia).
    apply (Z.mod_unique _ _ b); lia.
  - replace (w / 16777216) with b by (apply (Z.div_unique _ _ _ (b * 65536 + b * 256 + b)); lia).
    symmetry. by apply Z.mod_small.
Qed.

Lemma load8_memset m dst c n b :
  0 <= n ->
  load8 (memset m dst c n) b =
  if (dst <=? b) && (b <? dst + n) then c mod 256 else load8 m b.
Proof.
  intros Hn. unfold memset.
  destruct ((Z.rem (s32 dst) 4 =? 0) && (n mod 4 =? 0)) eqn:E.
  - b2p. pose proof (memset_word c) as [Hw0 Hw]. rewrite load8_stosl by exact Hw.
    rewrite Hw0. pose proof (Z.div_mod n 4 ltac:(lia)).
    pose proof (Z.div_pos n 4 Hn ltac:(lia)).
    rewrite Z2Nat.id by lia. by replace (4 * (n / 4)) with n by lia.
  - rewrite load8_stosb, Z2Nat.id by lia. done.
Qed.

Lemma load32_memset_out m dst c n a :
  0 <= n -> a + 4 <= dst \/ dst + n <= a -> load32 (memset m dst c n) a = load32 m a.
Proof.
  intros Hn H. apply load32_ext. intros i Hi. rewrite load8_memset by lia.
  destruct (Z.leb_spec dst (a + i)), (Z.ltb_spec (a + i) (dst + n)); simpl; try done; lia.
Qed.

Lemma load32_memset_zero m dst n a :
  dst <= a -> a + 4 <= dst + n -> load32 (memset m dst 0 n) a = 0.
Proof.
  intros H1 H2. unfold load32. rewrite !load8_memset by lia.
  repeat match goal with
  | |- context [?x <=? ?y] => destruct (Z.leb_spec x y); try lia
  | |- context [?x <? ?y] => destruct (Z.ltb_spec x y); try lia
  end. reflexivity.
Qed.

(** ** memmove *)
Lemma load8_memmove_fwd m d s n b :
  d <= s \/ s + Z.of_nat n <= d ->
  load8 (memmove_fwd m d s n) b =
  if (d <=? b) && (b <? d + Z.of_nat n) then load8 m (s + (b - d)) else load8 m b.
Proof.
  revert m d s. induction n as [|n IH]; intros m d s H; cbn [memmove_fwd].
  - destruct (Z.leb_spec d b), (Z.ltb_spec b (d + Z.of_nat 0)); simpl; try done; lia.
  - rewrite IH by lia. clear IH. rewrite !load8_store8.
    destruct (Z.leb_spec (d + 1) b), (Z.leb_spec d b),
      (Z.ltb_spec b (d + 1 + Z.of_nat n)), (Z.ltb_spec b (d + Z.of_nat (S n)));
      cbn [andb]; try lia.
    all: repeat (destruct (decide _)); try lia; try done.
    all: try (subst; rewrite Z.mod_small by apply load8_range); f_equal; lia.
Qed.

Lemma load8_memmove_bwd m d s n b :
  s < d ->
  load8 (memmove_bwd m d s n) b =
  if (d - Z.of_nat n <=? b) && (b <? d) then load8 m (s + (b - d)) else load8 m b.
Proof.
  revert m d s. induction n as [|n IH]; intros m d s H; cbn [memmove_bwd].
  - destruct (Z.leb_spec (d - Z.of_nat 0) b), (Z.ltb_spec b d); simpl; try done; lia.
  - rewrite IH by lia. clear IH. rewrite !load8_store8.
    destruct (Z.leb_spec (d - 1 - Z.of_nat n) b), (Z.leb_spec (d - Z.of_nat (S n)) b),
      (Z.ltb_spec b (d - 1)), (Z.ltb_spec b d); cbn [andb]; try lia.
    all: repeat (destruct (decide _)); try lia; try done.
    all: try (subst; rewrite Z.mod_small by apply load8_range); f_equal; lia.
Qed.

Lemma load8_memmove m dst src n b :
  0 <= n ->
  load8 (memmove m dst src n) b =
  if (dst <=? b) && (b <? dst + n) then load8 m (src + (b - dst)) else load8 m b.
Proof.
  intros Hn. unfold memmove. destruct ((src <? dst) && (src + n >? dst)) eqn:E.
  - b2p. rewrite load8_memmove_bwd, Z2Nat.id by lia.
    replace (dst + n - n) with dst by lia. by replace (src + n + (b - (dst + n))) with (src + (b - dst)) by lia.
  - rewrite load8_memmove_fwd, Z2Nat.id; [done|lia|].
    rewrite Z2Nat.id by lia. apply andb_false_iff in E as [E|E]; b2p; lia.
Qed.

(** [memset] and [memmove] against their byte-level meaning: [memset]
    stores the low byte of [c] at exactly the [n] bytes from [dst], by words or
    by bytes alike; [memmove] leaves at [dst] the [n] bytes that were at [src]
    before the call, whichever way the two ranges overlap, and touches nothing
    else. *)
Theorem memset_memmove_correct (m : memory) (dst src c n : Z) (Hn : 0 <= n) :
  (forall i, 0 <= i < n -> load8 (memset m dst c n) (dst + i) = c mod 256) /\
  (forall i, 0 <= i < n -> load8 (memmove m dst src n) (dst + i) = load8 m (src + i)) /\
  (forall b, b < dst \/ dst + n <= b ->
     load8 (memset m dst c n) b = load8 m b /\ load8 (memmove m dst src n) b = load8 m b).
Proof.
  split_and!.
  - intros i Hi. rewrite load8_memset by lia.
    destruct (Z.leb_spec dst (dst + i)), (Z.ltb_spec (dst + i) (dst + n)); try lia; done.
  - intros i Hi. rewrite load8_memmove by lia.
    destruct (Z.leb_spec dst (dst + i)), (Z.ltb_spec (dst + i) (dst + n)); try lia.
    simpl. f_equal. lia.
  - intros b Hb. rewrite load8_memset, load8_memmove by lia.
    destruct (Z.leb_spec dst b), (Z.ltb_spec b (dst + n)); try lia; done.
Qed.

Lemma memset_memmove_correct_witness :
  load8 (memmove (store_bytes ∅ 100 [1; 2; 3; 4]) 101 100 4) 103 = 3.
Proof.
  pose proof (memset_memmove_correct (store_bytes ∅ 100 [1; 2; 3; 4]) 101 100 0 4 ltac:(lia))
    as (_ & H & _).
  exact (H 2 ltac:(lia)).
Defined.

(** ** Strings *)
Lemma strncmp_loop_zero p q i n :
  strncmp_loop p q i n = 0 <->
  (forall k, 0 <= k < Z.of_nat n ->
     (forall j, 0 <= j < k -> p (i + j) <> 0 /\ p (i + j) = q (i + j)) -> p (i + k) = q (i + k)).
Proof.
  revert i. induction n as [|n IH]; intros i; cbn [strncmp_loop].
  { split; [intros _ k Hk; lia|done]. }
  destruct (negb (p i =? 0) && (p i =? q i)) eqn:E; b2p.
  - rewrite IH. split; intros Hx k Hk Hj.
    + destruct (decide (k = 0)) as [->|]; [by rewrite Z.add_0_r|].
      replace (i + k) with (i + 1 + (k - 1)) by lia. apply Hx; [lia|].
      intros j Hj'. replace (i + 1 + j) with (i + (j + 1)) by lia. apply Hj. lia.
    + replace (i + 1 + k) with (i + (k + 1)) by lia. apply Hx; [lia|].
      intros j Hj'. destruct (decide (j = 0)) as [->|]; [rewrite Z.add_0_r; done|].
      replace (i + j) with (i + 1 + (j - 1)) by lia. apply Hj. lia.
  - split.
    + intros Hx k Hk Hj. destruct (decide (k = 0)) as [->|]; [rewrite Z.add_0_r; lia|].
      specialize (Hj 0 ltac:(lia)). rewrite Z.add_0_r in Hj.
      apply andb_false_iff in E as [E|E]; b2p; lia.
    + intros Hx. specialize (Hx 0 ltac:(lia) ltac:(lia)). rewrite Z.add_0_r in Hx. lia.
Qed.

Lemma memcmp_loop_zero p q i n :
  memcmp_loop p q i n = 0 <-> (forall k, 0 <= k < Z.of_nat n -> p (i + k) = q (i + k)).
Proof.
  revert i. induction n as [|n IH]; intros i; cbn [memcmp_loop].
  { split; [intros _ k Hk; lia|done]. }
  destruct (negb (p i =? q i)) eqn:E; b2p.
  - split; [lia|]. intros Hx. specialize (Hx 0 ltac:(lia)). rewrite Z.add_0_r in Hx. lia.
  - rewrite IH. split; intros Hx k Hk.
    + destruct (decide (k = 0)) as [->|]; [by rewrite Z.add_0_r|].
      replace (i + k) with (i + 1 + (k - 1)) by lia. apply Hx. lia.
    + replace (i + 1 + k) with (i + (k + 1)) by lia. apply Hx. lia.
Qed.

(** [cstring s l]: the NUL-terminated string at [s] is [l]. *)
Definition cstring (s : Z -> Z) (l : list Z) : Prop :=
  (forall i c, l !! i = Some c -> s (Z.of_nat i) = c /\ c <> 0) /\ s (Z.of_nat (length l)) = 0.

Lemma strlen_loop_cstring s l n fuel :
  (forall i c, l !! i = Some c -> s (n + Z.of_nat i) = c /\ c <> 0) ->
  s (n + Z.of_nat (length l)) = 0 -> (length l < fuel)%nat ->
  strlen_loop s n fuel = Some (n + Z.of_nat (length l)).
Proof.
  revert n fuel. induction l as [|c l IH]; intros n fuel Hl Hz Hf;
    (destruct fuel as [|fuel]; [simpl in Hf; lia|]); cbn [strlen_loop length].
  - simpl in Hz. rewrite Z.add_0_r in *. rewrite Hz. done.
  - destruct (Hl 0%nat c eq_refl) as [E Hc]. rewrite Z.add_0_r in E.
    destruct (Z.eqb_spec (s n) 0); [lia|].
    rewrite (IH (n + 1)).
    + f_equal. lia.
    + intros i x Hi. replace (n + 1 + Z.of_nat i) with (n + Z.of_nat (S i)) by lia. by apply Hl.
    + replace (n + 1 + Z.of_nat (length l)) with (n + Z.of_nat (length (c :: l))) by (simpl; lia). done.
    + simpl in Hf. lia.
Qed.

Lemma strncpy_loop_cstring s l i n :
  (forall k c, l !! k = Some c -> s (i + Z.of_nat k) = c /\ c <> 0) ->
  s (i + Z.of_nat (length l)) = 0 ->
  strncpy_loop s i n = take n l ++ replicate (n - length l) 0.
Proof.
  revert i l. induction n as [|n IH]; intros i l Hl Hz; cbn [strncpy_loop]; [done|].
  destruct l as [|c l]; simpl in Hz.
  - rewrite Z.add_0_r in Hz. rewrite Hz. done.
  - destruct (Hl 0%nat c eq_refl) as [E Hc]. rewrite Z.add_0_r in E.
    destruct (Z.eqb_spec (s i) 0); [lia|]. rewrite E. cbn [take length app]. f_equal.
    rewrite (IH (i + 1) l); [done| |].
    + intros k x Hk. replace (i + 1 + Z.of_nat k) with (i + Z.of_nat (S k)) by lia. by apply Hl.
    + replace (i + 1 + Z.of_nat (length l)) with (i + Z.of_nat (S (length l))) by lia. done.
Qed.

Lemma safestrcpy_loop_cstring s l i n :
  (forall k c, l !! k = Some c -> s (i + Z.of_nat k) = c /\ c <> 0) ->
  s (i + Z.of_nat (length l)) = 0 ->
  safestrcpy_loop s i n = take n l ++ (if decide (length l < n)%nat then [0; 0] else [0]).
Proof.
  revert i l. induction n as [|n IH]; intros i l Hl Hz; cbn [safestrcpy_loop]; [done|].
  destruct l as [|c l]; simpl in Hz.
  - rewrite Z.add_0_r in Hz. rewrite Hz. done.
  - destruct (Hl 0%nat c eq_refl) as [E Hc]. rewrite Z.add_0_r in E.
    destruct (Z.eqb_spec (s i) 0); [lia|]. rewrite E. cbn [take length app]. f_equal.
    rewrite (IH (i + 1) l).
    + f_equal. repeat destruct (decide _); try done; lia.
    + intros k x Hk. replace (i + 1 + Z.of_nat k) with (i + Z.of_nat (S k)) by lia. by apply Hl.
    + replace (i + 1 + Z.of_nat (length l)) with (i + Z.of_nat (S (length l))) by lia. done.
Qed.

(** The string routines on a NUL-terminated source [l] and a buffer of [n]
    bytes: [strlen] is its length; [strncpy] writes exactly [n] bytes, the
    string cut to [n] and padded with NULs; [safestrcpy] writes at most [n],
    always ends in NUL, and what it wrote reads back as the first [n - 1]
    characters. *)
Theorem string_copies (s : Z -> Z) (l : list Z) (n : nat) (Hs : cstring s l) (Hn : (0 < n)%nat) :
  strlen s (S (length l)) = Some (Z.of_nat (length l)) /\
  strncpy s n = take n l ++ replicate (n - length l) 0 /\
  length (strncpy s n) = n /\
  (length (safestrcpy s (Z.of_nat n)) <= n)%nat /\
  cstring (fun i => default 0 (safestrcpy s (Z.of_nat n) !! Z.to_nat i)) (take (n - 1) l).
Proof.
  destruct Hs as [Hl Hz].
  assert (Hcpy : strncpy s n = take n l ++ replicate (n - length l) 0)
    by (apply strncpy_loop_cstring; auto).
  assert (Hsafe : safestrcpy s (Z.of_nat n) =
    take (n - 1) l ++ (if decide (length l < n - 1)%nat then [0; 0] else [0])).
  { unfold safestrcpy. destruct (Z.leb_spec (Z.of_nat n) 0); [lia|].
    replace (Z.to_nat (Z.of_nat n - 1)) with (n - 1)%nat by lia.
    apply safestrcpy_loop_cstring; auto. }
  split_and!; [| exact Hcpy | | |].
  - unfold strlen. rewrite (strlen_loop_cstring s l 0); auto.
  - rewrite Hcpy, length_app, length_take, length_replicate. lia.
  - rewrite Hsafe, length_app, length_take. destruct (decide _); simpl; lia.
  - rewrite Hsafe. split.
    + intros i c Hi. rewrite Nat2Z.id, lookup_app_l, Hi by (by eapply lookup_lt_Some).
      simpl. split; [done|]. apply lookup_take_Some in Hi as [Hi _]. by destruct (Hl i c Hi).
    + rewrite Nat2Z.id, lookup_app_r, Nat.sub_diag by lia. by destruct (decide _).
Qed.

Lemma string_copies_witness :
  length (strncpy (fun i => default 0 ([97; 98; 99] !! Z.to_nat i)) 2) = 2%nat.
Proof.
  refine (proj1 (proj2 (proj2 (string_copies
    (fun i => default 0 ([97; 98; 99] !! Z.to_nat i)) [97; 98; 99] 2 _ ltac:(lia))))).
  split; [|reflexivity].
  intros i c Hi. rewrite Nat2Z.id, Hi. split; [done|].
  destruct i as [|[|[|i]]]; simplify_eq/=; lia.
Defined.

(** Proofs of the clients go through the lemmas above, never through the loops. *)
#[global] Opaque load8 store8 load32 store32 memset memmove load_bytes store_bytes.
