(* ===== verification/Kalloc.v ===== *)
(** * The physical page allocator (kalloc.c)

    The free list lives in the free pages themselves: the first word of a free
    page is the address of the next one.  [kstate] is the allocator's state and
    the memory it manages, at kernel virtual addresses.  The kernel's spin lock
    appears as seen from the CPU that runs the routine: taken twice, or
    released when not held, it panics. *)

From stdpp Require Import base numbers list gmap strings.
From Stdlib Require Import ZArith Lia.
From S2P Require Import Prelude Mmu Mem.

Local Open Scope Z_scope.
Local Open Scope kernel_scope.

(** ** Linker symbols (kernel.ld)

    [end] and [data] are addresses the linker chooses; what kernel.ld and
    entrypgdir guarantee of them is [LinkSymsOk]. *)
Class LinkSyms := { sym_end : Z; sym_data : Z }.
Class LinkSymsOk {LS : LinkSyms} : Prop := {
  sym_data_aligned : sym_data mod 4096 = 0;
  sym_data_after_text : KERNLINK < sym_data;
  sym_end_after_data : sym_data <= sym_end;
  sym_end_in_entrypgdir : sym_end <= KERNBASE + 4 * 1024 * 1024
}.

Record kstate := mkKstate {
  mem : memory;
  freelist : Z;
  use_lock : bool;
  kmem_lock : bool
}.

Definition set_mem (f : memory -> memory) (s : kstate) : kstate :=
  mkKstate (f (mem s)) (freelist s) (use_lock s) (kmem_lock s).
Definition set_freelist (p : Z) (s : kstate) : kstate :=
  mkKstate (mem s) p (use_lock s) (kmem_lock s).
Definition set_use_lock (b : bool) (s : kstate) : kstate :=
  mkKstate (mem s) (freelist s) b (kmem_lock s).
Definition set_kmem_lock (b : bool) (s : kstate) : kstate :=
  mkKstate (mem s) (freelist s) (use_lock s) b.

(** spinlock.c on [kmem.lock], from the one CPU that runs the routine. *)
Definition acquire_kmem : M kstate unit :=
  l <- gets kmem_lock;;
  if l then panic "acquire" else modify (set_kmem_lock true).
Definition release_kmem : M kstate unit :=
  l <- gets kmem_lock;;
  if l then modify (set_kmem_lock false) else panic "release".

Section Kalloc.
Context {LS : LinkSyms}.

Definition kfree (v : Z) : M kstate unit :=
  if negb (v mod PGSIZE =? 0) || (v <? sym_end) || (V2P v >=? PHYSTOP)
  then panic "kfree"
  else
    modify (set_mem (fun m => memset m v 1 PGSIZE));;
    lk <- gets use_lock;;
    (if lk then acquire_kmem else ret tt);;
    next <- gets freelist;;
    modify (set_mem (fun m => store32 m v next));;
    modify (set_freelist v);;
    lk <- gets use_lock;;
    (if lk then release_kmem else ret tt).

Definition kalloc : M kstate Z :=
  lk <- gets use_lock;;
  (if lk then acquire_kmem else ret tt);;
  r <- gets freelist;;
  (if negb (r =? 0)
   then m <- gets mem;; modify (set_freelist (load32 m r))
   else ret tt);;
  lk <- gets use_lock;;
  (if lk then release_kmem else ret tt);;
  ret r.

Fixpoint freerange_loop (fuel : nat) (p vend : Z) : M kstate unit :=
  match fuel with
  | O => hang
  | S fuel' =>
      if p + PGSIZE <=? vend
      then kfree p;; freerange_loop fuel' (p + PGSIZE) vend
      else ret tt
  end.

Definition freerange (vstart vend : Z) : M kstate unit :=
  let p := PGROUNDUP vstart in
  freerange_loop (S (Z.to_nat ((vend - p) / PGSIZE))) p vend.

Definition kinit1 (vstart vend : Z) : M kstate unit :=
  modify (set_kmem_lock false);;
  modify (set_use_lock false);;
  freerange vstart vend.

Definition kinit2 (vstart vend : Z) : M kstate unit :=
  freerange vstart vend;;
  modify (set_use_lock true).

(** ** The free list as an abstract list of pages *)

(** A page [kfree] accepts: aligned, above the kernel image, below PHYSTOP. *)
Definition page_ok (v : Z) : Prop :=
  v mod 4096 = 0 /\ sym_end <= v /\ KERNBASE <= v /\ v < KERNBASE + PHYSTOP.

Fixpoint chain (m : memory) (p : Z) (l : list Z) : Prop :=
  match l with
  | [] => p = 0
  | q :: l' => p = q /\ chain m (load32 m q) l'
  end.

Record kinv (s : kstate) (fl : list Z) : Prop := mkKinv {
  kinv_chain : chain (mem s) (freelist s) fl;
  kinv_ok : Forall page_ok fl;
  kinv_nodup : NoDup fl;
  kinv_lock : kmem_lock s = false
}.

(** [m'] is [m] except inside the pages [P] (given by their first address). *)
Definition same_except (P : Z -> Prop) (m m' : memory) : Prop :=
  forall a, ~ P (4096 * (a / 4096)) -> load8 m' a = load8 m a.

Lemma same_except_refl P m : same_except P m m.
Proof. by intros a _. Qed.

Lemma same_except_trans P m1 m2 m3 :
  same_except P m1 m2 -> same_except P m2 m3 -> same_except P m1 m3.
Proof. intros H1 H2 a Ha. rewrite H2, H1; done. Qed.

Lemma same_except_mono (P Q : Z -> Prop) m m' :
  (forall p, P p -> Q p) -> same_except P m m' -> same_except Q m m'.
Proof. intros HPQ H a Ha. apply H. auto. Qed.

Lemma in_page v a : v mod 4096 = 0 -> v <= a < v + 4096 -> 4096 * (a / 4096) = v.
Proof.
  intros Hv Ha. apply Z.mod_divide in Hv as [k ->]; [|lia].
  destruct (div_mod_unique_4096 a k (a - k * 4096)) as [-> _]; lia.
Qed.

Lemma out_of_page v a : v mod 4096 = 0 -> 4096 * (a / 4096) <> v -> a < v \/ v + 4096 <= a.
Proof.
  intros Hv Ha. destruct (Z.lt_ge_cases a v); [by left|].
  destruct (Z.lt_ge_cases a (v + 4096)); [|by right].
  destruct Ha. by apply in_page.
Qed.

(** A word of a page keeps its value when its page is not among those changed. *)
Lemma load32_same_except P m m' v o :
  same_except P m m' -> v mod 4096 = 0 -> 0 <= o -> o + 4 <= 4096 -> ~ P v ->
  load32 m' (v + o) = load32 m (v + o).
Proof.
  intros H Hv Ho Ho' HP. apply load32_ext. intros i Hi. apply H.
  rewrite (in_page v) by lia. done.
Qed.

Lemma same_except_memset (P : Z -> Prop) m v c :
  v mod 4096 = 0 -> P v -> same_except P m (memset m v c 4096).
Proof.
  intros Hv HP a Ha. rewrite load8_memset by lia.
  destruct (out_of_page v a Hv) as [|]; [by intros E; rewrite E in Ha| |];
    destruct (Z.leb_spec v a), (Z.ltb_spec a (v + 4096)); simpl; try done; lia.
Qed.

Lemma same_except_store32 (P : Z -> Prop) m v o x :
  v mod 4096 = 0 -> 0 <= o -> o + 4 <= 4096 -> P v -> same_except P m (store32 m (v + o) x).
Proof.
  intros Hv Ho Ho' HP a Ha.
  assert (a < v \/ v + 4096 <= a) by (apply out_of_page; [done|by intros E; rewrite E in Ha]).
  apply load8_store32_ne. lia.
Qed.

Lemma chain_same_except P m m' p l :
  same_except P m m' -> Forall page_ok l -> (forall q, q ∈ l -> ~ P q) ->
  chain m p l -> chain m' p l.
Proof.
  intros Hs. revert p. induction l as [|q l IH]; intros p Hok HP; [done|].
  intros [-> Hc]. split; [done|]. apply Forall_cons in Hok as [[Hq _] Hok].
  pose proof (load32_same_except P m m' q 0 Hs Hq ltac:(lia) ltac:(lia)) as E.
  rewrite Z.add_0_r in E. rewrite E by (apply HP; left). apply IH; [done| |done].
  intros r Hr. apply HP. by right.
Qed.

Lemma page_ok_range v : page_ok v -> KERNBASE <= v /\ v + 4096 <= KERNBASE + PHYSTOP.
Proof.
  intros (Hm & _ & Hl & Hh). split; [done|].
  apply Z.mod_divide in Hm as [k ->]; [|lia]. unfold KERNBASE, PHYSTOP in *. lia.
Qed.

Lemma page_ok_nonzero v : page_ok v -> v <> 0.
Proof. intros (_ & _ & Hl & _). unfold KERNBASE in Hl. lia. Qed.

(** Distinct pages do not overlap. *)
Lemma pages_disjoint v w : page_ok v -> page_ok w -> v <> w -> v + 4096 <= w \/ w + 4096 <= v.
Proof.
  intros (Hv & _) (Hw & _) Hne.
  apply Z.mod_divide in Hv as [k ->]; [|lia]. apply Z.mod_divide in Hw as [k' ->]; lia.
Qed.

Lemma kfree_guard v :
  0 <= v < 4294967296 ->
  negb (v mod PGSIZE =? 0) || (v <? sym_end) || (V2P v >=? PHYSTOP) = false <-> page_ok v.
Proof.
  intros Hv. unfold page_ok, V2P, u32, PGSIZE. rewrite Z.geb_leb, !orb_false_iff, negb_false_iff.
  rewrite Z.eqb_eq, Z.ltb_ge, Z.leb_gt.
  assert (Hw : (v - KERNBASE) mod 4294967296 =
               if KERNBASE <=? v then v - KERNBASE else v - KERNBASE + 4294967296).
  { destruct (Z.leb_spec KERNBASE v); unfold KERNBASE in *.
    - apply Z.mod_small. lia.
    - symmetry. apply (Z.mod_unique _ _ (-1)); lia. }
  rewrite Hw. destruct (Z.leb_spec KERNBASE v); unfold KERNBASE, PHYSTOP in *; lia.
Qed.

Lemma kalloc_wp s fl :
  kinv s fl ->
  wp kalloc (fun r s' =>
    match fl with
    | [] => r = 0 /\ s' = s
    | v :: fl' => r = v /\ kinv s' fl' /\ mem s' = mem s /\ use_lock s' = use_lock s
    end) s.
Proof.
  intros [Hc Hok Hnd Hlk]. destruct s as [m f ul kl]; simpl in *. subst kl.
  unfold wp, kalloc, bind, gets, acquire_kmem, release_kmem, modify; simpl.
  destruct fl as [|v fl']; simpl in Hc.
  - subst f. destruct ul; done.
  - destruct Hc as [-> Hc]. apply Forall_cons in Hok as [Hv Hok].
    apply NoDup_cons in Hnd as [_ Hnd].
    pose proof (page_ok_nonzero v Hv) as Hnz. apply Z.eqb_neq in Hnz.
    destruct ul; simpl; rewrite Hnz; simpl; split_and!; try done.
Qed.

Lemma kfree_wp s fl v :
  kinv s fl -> page_ok v -> v ∉ fl ->
  wp (kfree v) (fun _ s' =>
    kinv s' (v :: fl) /\ use_lock s' = use_lock s /\ same_except (eq v) (mem s) (mem s') /\
    (forall i, 4 <= i < 4096 -> load8 (mem s') (v + i) = 1)) s.
Proof.
  intros [Hc Hok Hnd Hlk] Hv Hnin. pose proof (page_ok_range v Hv) as Hr.
  pose proof Hv as (Hal & _). destruct s as [m f ul kl]; simpl in *. subst kl.
  assert (Hf : 0 <= f < 4294967296).
  { destruct fl as [|q fl]; simpl in Hc; [lia|]. destruct Hc as [-> _].
    apply Forall_cons in Hok as [Hq _]. pose proof (page_ok_range q Hq).
    unfold KERNBASE, PHYSTOP in *; lia. }
  assert (Hs : same_except (eq v) m (store32 (memset m v 1 4096) v f)).
  { eapply same_except_trans; [by apply (same_except_memset _ _ v)|].
    pose proof (same_except_store32 (eq v) (memset m v 1 4096) v 0 f) as E.
    rewrite Z.add_0_r in E. apply E; done || lia. }
  assert (Hg : negb (v mod PGSIZE =? 0) || (v <? sym_end) || (V2P v >=? PHYSTOP) = false).
  { apply kfree_guard; [unfold KERNBASE, PHYSTOP in *; lia|done]. }
  assert (Hinv : forall b, kinv (mkKstate (store32 (memset m v 1 4096) v f) v b false) (v :: fl)).
  { intros b. constructor; simpl; [|by constructor|by constructor|done]. split; [done|].
    rewrite load32_store32_eq, Z.mod_small by lia.
    apply (chain_same_except (eq v) m); [done|done| |done]. by intros q Hq <-. }
  assert (Hjunk : forall i, 4 <= i < 4096 ->
            load8 (store32 (memset m v 1 4096) v f) (v + i) = 1).
  { intros i Hi. rewrite load8_store32_ne, load8_memset by lia.
    destruct (Z.leb_spec v (v + i)), (Z.ltb_spec (v + i) (v + 4096)); try lia. done. }
  unfold wp, kfree. rewrite Hg.
  unfold bind, gets, acquire_kmem, release_kmem, modify; simpl.
  destruct ul; simpl; (split_and!; [exact (Hinv _)|done|exact Hs|exact Hjunk]).
Qed.

Lemma kfree_bad v s : 0 <= v < 4294967296 -> ~ page_ok v -> kfree v s = Panic "kfree".
Proof.
  intros Hv Hbad. unfold kfree.
  destruct (negb _ || _ || _) eqn:E; [done|]. by apply kfree_guard in E.
Qed.

Definition pages_from (p : Z) (n : nat) : list Z := map (fun i => p + 4096 * Z.of_nat i) (seq 0 n).

Lemma pages_from_S p n : pages_from p (S n) = p :: pages_from (p + 4096) n.
Proof.
  unfold pages_from. cbn [seq map]. rewrite <- List.seq_shift, List.map_map. f_equal; [lia|].
  apply map_ext. intros i. lia.
Qed.

Lemma elem_pages_from p n q :
  q ∈ pages_from p n <-> exists i, 0 <= i < Z.of_nat n /\ q = p + 4096 * i.
Proof.
  unfold pages_from. rewrite list_elem_of_In, in_map_iff. setoid_rewrite in_seq. split.
  - intros (i & <- & Hi). exists (Z.of_nat i). lia.
  - intros (i & Hi & ->). exists (Z.to_nat i). lia.
Qed.

Lemma freerange_loop_wp n : forall fuel p vend s fl,
  kinv s fl -> (n < fuel)%nat ->
  p + 4096 * Z.of_nat n <= vend < p + 4096 * Z.of_nat n + 4096 ->
  (forall q, q ∈ pages_from p n -> page_ok q /\ q ∉ fl) ->
  wp (freerange_loop fuel p vend) (fun _ s' =>
    kinv s' (rev (pages_from p n) ++ fl) /\ use_lock s' = use_lock s /\
    same_except (fun q => q ∈ pages_from p n) (mem s) (mem s')) s.
Proof.
  induction n as [|n IH]; intros fuel p vend s fl Hinv Hf Hend Hpg;
    (destruct fuel as [|fuel]; [lia|]); cbn [freerange_loop]; unfold PGSIZE.
  - destruct (Z.leb_spec (p + 4096) vend); [lia|]. apply wp_ret.
    split_and!; [done|done|apply same_except_refl].
  - destruct (Z.leb_spec (p + 4096) vend); [|lia]. rewrite pages_from_S in *.
    destruct (Hpg p) as [Hp Hpn]; [left|].
    apply wp_bind. eapply wp_mono; [by apply (kfree_wp s fl)|].
    intros [] s1 (Hinv1 & Hul1 & Hs1 & _).
    eapply wp_mono; [apply (IH fuel (p + 4096) vend s1 (p :: fl)); [done|lia|lia|]|].
    + intros q Hq. destruct (Hpg q) as [Hq1 Hq2]; [by right|]. split; [done|].
      apply not_elem_of_cons. split; [|done]. apply elem_pages_from in Hq as (i & Hi & ->). lia.
    + intros [] s2 (Hinv2 & Hul2 & Hs2). simpl. rewrite <- app_assoc. split_and!; [done|congruence|].
      eapply same_except_trans.
      * eapply same_except_mono; [|exact Hs1]. intros q <-. left.
      * eapply same_except_mono; [|exact Hs2]. intros q Hq. by right.
Qed.

Lemma freerange_wp s fl vstart vend :
  0 <= vstart <= 4294967296 - 4096 -> PGROUNDUP vstart <= vend -> kinv s fl ->
  let pgs := pages_from (PGROUNDUP vstart) (Z.to_nat ((vend - PGROUNDUP vstart) / 4096)) in
  (forall q, q ∈ pgs -> page_ok q /\ q ∉ fl) ->
  wp (freerange vstart vend) (fun _ s' =>
    kinv s' (rev pgs ++ fl) /\ use_lock s' = use_lock s /\
    same_except (fun q => q ∈ pgs) (mem s) (mem s')) s.
Proof.
  intros Hv Hle Hinv pgs Hpgs. unfold freerange, PGSIZE.
  set (p := PGROUNDUP vstart) in *.
  pose proof (Z.div_mod (vend - p) 4096 ltac:(lia)).
  pose proof (Z.mod_pos_bound (vend - p) 4096 ltac:(lia)).
  pose proof (Z.div_pos (vend - p) 4096 ltac:(lia) ltac:(lia)).
  apply freerange_loop_wp; [done|lia|lia|done].
Qed.

Lemma pages_of_range lo hi p :
  lo mod 4096 = 0 -> hi mod 4096 = 0 -> lo <= hi ->
  p ∈ pages_from lo (Z.to_nat ((hi - lo) / 4096)) <-> p mod 4096 = 0 /\ lo <= p < hi.
Proof.
  intros Hlo Hhi Hle. rewrite elem_pages_from.
  apply Z.mod_divide in Hlo as [a ->]; [|lia]. apply Z.mod_divide in Hhi as [b ->]; [|lia].
  replace (b * 4096 - a * 4096) with ((b - a) * 4096) by lia. rewrite Z.div_mul by lia.
  rewrite Z2Nat.id by lia. split.
  - intros (i & Hi & ->). replace (a * 4096 + 4096 * i) with ((a + i) * 4096) by lia.
    rewrite Z.mod_mul; lia.
  - intros (Hp & Hr). apply Z.mod_divide in Hp as [k ->]; [|lia]. exists (k - a). lia.
Qed.
End Kalloc.

(** C13.  The page allocator refines a stack of free pages.  From a state whose
    free list is [fl]: [kalloc] hands out the top page (or returns 0 when there
    is none, changing nothing) and leaves memory alone; [kfree] of a page
    outside the free list pushes it, fills the rest of the page with junk and
    touches no other page; [kfree] of anything but a page between [end] and
    PHYSTOP panics. *)
Theorem kalloc_refines_stack {LS : LinkSyms} (s : kstate) (fl : list Z) (Hinv : kinv s fl) :
  wp kalloc (fun r s' =>
    match fl with
    | [] => r = 0 /\ s' = s
    | v :: fl' => r = v /\ kinv s' fl' /\ mem s' = mem s /\ use_lock s' = use_lock s
    end) s /\
  (forall v, page_ok v -> v ∉ fl ->
    wp (kfree v) (fun _ s' =>
      kinv s' (v :: fl) /\ use_lock s' = use_lock s /\ same_except (eq v) (mem s) (mem s') /\
      (forall i, 4 <= i < PGSIZE -> load8 (mem s') (v + i) = 1)) s) /\
  (forall v, 0 <= v < 4294967296 -> ~ page_ok v -> kfree v s = Panic "kfree").
Proof.
  split_and!; [by apply kalloc_wp|intros v Hv Hn; by apply kfree_wp|].
  intros v Hv Hb. by apply kfree_bad.
Qed.

(** A link map and a two-page free list. *)
Definition example_syms : LinkSyms := {| sym_end := 0x80115000; sym_data := 0x80108000 |}.

Lemma example_syms_ok : @LinkSymsOk example_syms.
Proof. split; simpl; unfold KERNLINK, KERNBASE, EXTMEM; lia || reflexivity. Qed.

Definition example_kstate : kstate :=
  mkKstate (store32 ∅ 0x80200000 0x80201000) 0x80200000 true false.

Lemma example_kinv : @kinv example_syms example_kstate [0x80200000; 0x80201000].
Proof.
  split; [vm_compute; auto| | |done].
  2: { apply NoDup_cons. split; [|apply NoDup_singleton]. by intros E%list_elem_of_singleton. }
  repeat constructor; simpl; unfold KERNBASE, PHYSTOP; try lia; reflexivity.
Qed.

Lemma kalloc_refines_stack_witness :
  wp (@kalloc) (fun r _ => r = 0x80200000) example_kstate.
Proof.
  eapply wp_mono;
    [exact (proj1 (@kalloc_refines_stack example_syms example_kstate _ example_kinv))|].
  intros r s' [H _]. exact H.
Defined.

(** Booting the allocator.  [kinit1(end, P2V(4 MiB))] on an empty list
    frees exactly the pages above the kernel image and below 4 MiB, and
    [kinit2(P2V(4 MiB), P2V(PHYSTOP))], run when any of those are still free,
    adds exactly the pages from 4 MiB to PHYSTOP and turns locking on: no page
    is lost or listed twice, and no other memory changes. *)
Theorem kinit_frees_all {LS : LinkSyms} {LSOk : LinkSymsOk} (s : kstate) :
  (freelist s = 0 ->
   wp (kinit1 sym_end (P2V (4 * 1024 * 1024))) (fun _ s' =>
     use_lock s' = false /\
     exists fl, kinv s' fl /\
       (forall p, p ∈ fl <-> page_ok p /\ p < KERNBASE + 4 * 1024 * 1024) /\
       same_except page_ok (mem s) (mem s')) s) /\
  (forall fl, kinv s fl -> (forall p, p ∈ fl -> p < KERNBASE + 4 * 1024 * 1024) ->
   wp (kinit2 (P2V (4 * 1024 * 1024)) (P2V PHYSTOP)) (fun _ s' =>
     use_lock s' = true /\
     exists fl', kinv s' fl' /\
       (forall p, p ∈ fl' <-> p ∈ fl \/ page_ok p /\ KERNBASE + 4 * 1024 * 1024 <= p) /\
       same_except (fun p => page_ok p /\ KERNBASE + 4 * 1024 * 1024 <= p) (mem s) (mem s')) s).
Proof.
  pose proof sym_end_after_data. pose proof sym_data_after_text.
  pose proof sym_end_in_entrypgdir.
  change (P2V (4 * 1024 * 1024)) with 0x80400000. change (P2V PHYSTOP) with 0x8E000000.
  unfold KERNLINK, KERNBASE, EXTMEM in *.
  split.
  - intros Hf. assert (Hse : 0 <= sym_end <= 4294967296 - 4096) by lia.
    pose proof (PGROUNDUP_spec sym_end Hse) as [Ha Hb].
    set (s0 := set_use_lock false (set_kmem_lock false s)).
    assert (Hle : PGROUNDUP sym_end <= 0x80400000).
    { apply Z.mod_divide in Ha as [k Hk]; [|lia]. lia. }
    assert (Hmem : forall p, p ∈ pages_from (PGROUNDUP sym_end)
              (Z.to_nat ((0x80400000 - PGROUNDUP sym_end) / 4096)) <->
              page_ok p /\ p < 0x80400000).
    { intros p. rewrite pages_of_range by (done || lia). unfold page_ok, KERNBASE, PHYSTOP.
      split; [intros; lia|]. intros ((Hp & He & _) & Hlt). split; [done|]. split; [|done].
      apply Z.mod_divide in Ha as [k Hk]; [|lia]. apply Z.mod_divide in Hp as [k' ->]; [|lia]. lia. }
    unfold kinit1. wp_steps. fold s0.
    eapply wp_mono; [apply (freerange_wp s0 []); [lia|done| |]|].
    + split; [exact Hf|done|constructor|done].
    + intros q Hq. split; [by apply Hmem|set_solver].
    + intros [] s' (Hinv & Hul & Hse'). split; [exact Hul|]. eexists. split; [exact Hinv|].
      split; [|eapply same_except_mono; [|exact Hse']; intros p Hp; by apply Hmem]. intros p. rewrite app_nil_r, list_elem_of_In, <- in_rev, <- list_elem_of_In. apply Hmem.
  - intros fl Hinv Hlow.
    assert (Hmem : forall p, p ∈ pages_from 0x80400000 (Z.to_nat ((0x8E000000 - 0x80400000) / 4096))
              <-> page_ok p /\ 0x80400000 <= p).
    { intros p. rewrite pages_of_range by (done || lia). unfold page_ok, KERNBASE, PHYSTOP. lia. }
    unfold kinit2. apply wp_bind.
    eapply wp_mono; [apply (freerange_wp s fl 0x80400000); [lia|done|done|]|].
    + change (PGROUNDUP 0x80400000) with 0x80400000.
      intros q Hq. apply Hmem in Hq as [Hq1 Hq2]. split; [done|]. intros Hin. apply Hlow in Hin. lia.
    + change (PGROUNDUP 0x80400000) with 0x80400000.
      intros [] s' (Hinv' & _ & Hse'). apply wp_modify. split; [done|]. eexists.
      split; [destruct Hinv'; split; [..|done]; done|].
      split; [|eapply same_except_mono; [|exact Hse']; intros p Hp; by apply Hmem]. intros p. rewrite elem_of_app, list_elem_of_In, <- in_rev, <- list_elem_of_In, Hmem. tauto.
Qed.

Lemma kinit_frees_all_witness :
  wp (@kinit1 example_syms 0x80115000 (P2V (4 * 1024 * 1024)))
     (fun _ s' => use_lock s' = false) (mkKstate ∅ 0 true false).
Proof.
  eapply wp_mono;
    [exact (proj1 (@kinit_frees_all example_syms example_syms_ok (mkKstate ∅ 0 true false)) eq_refl)|].
  intros r s' [H _]. exact H.
Defined.
