(* ===== verification/Vm.v ===== *)
(** * Page tables (vm.c): the operations

    A page directory and its page tables are pages of [mem], at kernel virtual
    addresses; entries are 32-bit words.  The definitions follow vm.c routine by
    routine.  Console messages ([cprintf]) are not part of this state.  Data the
    kernel copies in ([inituvm]'s init code, [copyout]'s buffer) is given by its
    bytes. *)

From stdpp Require Import base numbers list gmap strings.
From Stdlib Require Import ZArith Lia.
From S2P Require Import Prelude Mmu Mem Kalloc.

Local Open Scope Z_scope.
Local Open Scope kernel_scope.

Definition present (e : Z) : bool := negb (Z.land e PTE_P =? 0).

Section Vm.
Context {LS : LinkSyms}.

Definition walkpgdir (pgdir va : Z) (alloc : bool) : M kstate Z :=
  let pde := pgdir + 4 * PDX va in
  m <- gets mem;;
  if present (load32 m pde) then
    let pgtab := P2V (PTE_ADDR (load32 m pde)) in
    ret (pgtab + 4 * PTX va)
  else if negb alloc then ret 0
  else
    pgtab <- kalloc;;
    if pgtab =? 0 then ret 0
    else
      modify (set_mem (fun m => memset m pgtab 0 PGSIZE));;
      modify (set_mem (fun m =>
        store32 m pde (Z.lor (Z.lor (Z.lor (V2P pgtab) PTE_P) PTE_W) PTE_U)));;
      ret (pgtab + 4 * PTX va).

Fixpoint mappages_loop (fuel : nat) (pgdir a last pa perm : Z) : M kstate Z :=
  match fuel with
  | O => hang
  | S fuel' =>
      pte <- walkpgdir pgdir a true;;
      if pte =? 0 then ret (-1)
      else
        m <- gets mem;;
        if present (load32 m pte) then panic "remap"
        else
          modify (set_mem (fun m => store32 m pte (Z.lor (Z.lor pa perm) PTE_P)));;
          if a =? last then ret 0
          else mappages_loop fuel' pgdir (u32 (a + PGSIZE)) last (u32 (pa + PGSIZE)) perm
  end.

Definition mappages (pgdir va size pa perm : Z) : M kstate Z :=
  let a := PGROUNDDOWN va in
  let last := PGROUNDDOWN (va + size - 1) in
  mappages_loop (S (Z.to_nat (u32 (last - a) / PGSIZE))) pgdir a last pa perm.

Fixpoint deallocuvm_loop (fuel : nat) (pgdir a oldsz : Z) : M kstate unit :=
  match fuel with
  | O => hang
  | S fuel' =>
      if a <? oldsz then
        pte <- walkpgdir pgdir a false;;
        a' <- (if pte =? 0 then ret (u32 (PGADDR (PDX a + 1) 0 0 - PGSIZE))
               else
                 m <- gets mem;;
                 if present (load32 m pte) then
                   let pa := PTE_ADDR (load32 m pte) in
                   if pa =? 0 then panic "kfree"
                   else
                     let v := P2V pa in
                     kfree v;;
                     modify (set_mem (fun m => store32 m pte 0));;
                     ret a
                 else ret a);;
        deallocuvm_loop fuel' pgdir (u32 (a' + PGSIZE)) oldsz
      else ret tt
  end.

Definition deallocuvm (pgdir oldsz newsz : Z) : M kstate Z :=
  if newsz >=? oldsz then ret oldsz
  else
    let a := PGROUNDUP newsz in
    deallocuvm_loop (S (Z.to_nat ((oldsz - a + PGSIZE) / PGSIZE))) pgdir a oldsz;;
    ret newsz.

Fixpoint allocuvm_loop (fuel : nat) (pgdir a oldsz newsz : Z) : M kstate Z :=
  match fuel with
  | O => hang
  | S fuel' =>
      if a <? newsz then
        pg <- kalloc;;
        if pg =? 0 then
          deallocuvm pgdir newsz oldsz;;
          ret 0
        else
          modify (set_mem (fun m => memset m pg 0 PGSIZE));;
          r <- mappages pgdir a PGSIZE (V2P pg) (Z.lor PTE_W PTE_U);;
          if r <? 0 then
            deallocuvm pgdir newsz oldsz;;
            kfree pg;;
            ret 0
          else allocuvm_loop fuel' pgdir (u32 (a + PGSIZE)) oldsz newsz
      else ret newsz
  end.

Definition allocuvm (pgdir oldsz newsz : Z) : M kstate Z :=
  if newsz >=? KERNBASE then ret 0
  else if newsz <? oldsz then ret oldsz
  else
    let a := PGROUNDUP oldsz in
    allocuvm_loop (S (Z.to_nat ((newsz - a + PGSIZE) / PGSIZE))) pgdir a oldsz newsz.

Fixpoint freevm_loop (n : nat) (pgdir i : Z) : M kstate unit :=
  match n with
  | O => ret tt
  | S n' =>
      m <- gets mem;;
      (if present (load32 m (pgdir + 4 * i))
       then kfree (P2V (PTE_ADDR (load32 m (pgdir + 4 * i))))
       else ret tt);;
      freevm_loop n' pgdir (i + 1)
  end.

Definition freevm (pgdir : Z) : M kstate unit :=
  if pgdir =? 0 then panic "freevm: no pgdir"
  else
    deallocuvm pgdir KERNBASE 0;;
    freevm_loop (Z.to_nat NPDENTRIES) pgdir 0;;
    kfree pgdir.

(** The kernel's mappings, present in every page table. *)
Record kmap_entry := mkKmap { virt : Z; phys_start : Z; phys_end : Z; kperm : Z }.

Definition kmap : list kmap_entry :=
  [ mkKmap KERNBASE 0 EXTMEM PTE_W;
    mkKmap KERNLINK (V2P KERNLINK) (V2P sym_data) 0;
    mkKmap sym_data (V2P sym_data) PHYSTOP PTE_W;
    mkKmap DEVSPACE DEVSPACE 0 PTE_W ].

Fixpoint setupkvm_loop (pgdir : Z) (ks : list kmap_entry) : M kstate Z :=
  match ks with
  | [] => ret pgdir
  | k :: ks' =>
      r <- mappages pgdir (virt k) (u32 (phys_end k - phys_start k)) (phys_start k) (kperm k);;
      if r <? 0 then freevm pgdir;; ret 0
      else setupkvm_loop pgdir ks'
  end.

Definition setupkvm : M kstate Z :=
  pgdir <- kalloc;;
  if pgdir =? 0 then ret 0
  else
    modify (set_mem (fun m => memset m pgdir 0 PGSIZE));;
    if P2V PHYSTOP >? DEVSPACE then panic "PHYSTOP too high"
    else setupkvm_loop pgdir kmap.

(** [inituvm] does not test what [kalloc] returns: with no free page it stores
    through a null pointer. *)
Definition inituvm (pgdir : Z) (init : list Z) : M kstate unit :=
  if Z.of_nat (length init) >=? PGSIZE then panic "inituvm: more than a page"
  else
    pg <- kalloc;;
    if pg =? 0 then undef
    else
      modify (set_mem (fun m => memset m pg 0 PGSIZE));;
      mappages pgdir 0 PGSIZE (V2P pg) (Z.lor PTE_W PTE_U);;
      modify (set_mem (fun m => store_bytes m pg init)).

Definition clearpteu (pgdir uva : Z) : M kstate unit :=
  pte <- walkpgdir pgdir uva false;;
  if pte =? 0 then panic "clearpteu"
  else modify (set_mem (fun m => store32 m pte (Z.land (load32 m pte) (u32 (Z.lnot PTE_U))))).

Fixpoint copyuvm_loop (fuel : nat) (pgdir d i sz : Z) : M kstate Z :=
  match fuel with
  | O => hang
  | S fuel' =>
      if i <? sz then
        pte <- walkpgdir pgdir i false;;
        if pte =? 0 then panic "copyuvm: pte should exist"
        else
          m <- gets mem;;
          if negb (present (load32 m pte)) then panic "copyuvm: page not present"
          else
            let pa := PTE_ADDR (load32 m pte) in
            let flags := PTE_FLAGS (load32 m pte) in
            pg <- kalloc;;
            if pg =? 0 then freevm d;; ret 0
            else
              modify (set_mem (fun m => memmove m pg (P2V pa) PGSIZE));;
              r <- mappages d i PGSIZE (V2P pg) flags;;
              if r <? 0 then
                kfree pg;;
                freevm d;;
                ret 0
              else copyuvm_loop fuel' pgdir d (u32 (i + PGSIZE)) sz
      else ret d
  end.

Definition copyuvm (pgdir sz : Z) : M kstate Z :=
  d <- setupkvm;;
  if d =? 0 then ret 0
  else copyuvm_loop (S (Z.to_nat ((sz + PGSIZE - 1) / PGSIZE))) pgdir d 0 sz.

(** [uva2ka] loads [*pte] without testing [pte]: when the page table is missing
    that is a load through a null pointer. *)
Definition uva2ka (pgdir uva : Z) : M kstate Z :=
  pte <- walkpgdir pgdir uva false;;
  if pte =? 0 then undef
  else
    m <- gets mem;;
    if Z.land (load32 m pte) PTE_P =? 0 then ret 0
    else if Z.land (load32 m pte) PTE_U =? 0 then ret 0
    else ret (P2V (PTE_ADDR (load32 m pte))).

Fixpoint copyout_loop (fuel : nat) (pgdir va : Z) (buf : list Z) : M kstate Z :=
  match fuel with
  | O => hang
  | S fuel' =>
      if (0 <? Z.of_nat (length buf)) then
        let va0 := PGROUNDDOWN va in
        pa0 <- uva2ka pgdir va0;;
        if pa0 =? 0 then ret (-1)
        else
          let n := Z.min (PGSIZE - (va - va0)) (Z.of_nat (length buf)) in
          modify (set_mem (fun m => store_bytes m (pa0 + (va - va0)) (take (Z.to_nat n) buf)));;
          copyout_loop fuel' pgdir (u32 (va0 + PGSIZE)) (drop (Z.to_nat n) buf)
      else ret 0
  end.

Definition copyout (pgdir va : Z) (buf : list Z) : M kstate Z :=
  copyout_loop (S (length buf)) pgdir va buf.

(** vm.c's system call [walkpt] has no body yet. *)
Definition walkpt (my_struct va : Z) : M kstate Z := ret 0.
End Vm.
