(* ===== verification/VmInv.v ===== *)
(** * Page tables (vm.c): what the processor sees, and the invariants

    [lookup_pte] is the two-level walk the MMU does.  [pt_inv] says that a page
    directory and its tables are distinct allocated pages, [uvm_inv] that user
    mappings go to distinct pages that are neither free nor part of the table.
    [pt_change] is how an operation may change a page table: it only takes pages
    from the free list, keeps every existing table in place, loses no page, and
    touches nothing outside those pages. *)

From stdpp Require Import base numbers list gmap strings.
From Stdlib Require Import ZArith Lia.
From S2P Require Import Prelude Mmu Mem Kalloc Vm.

Local Open Scope Z_scope.
Local Open Scope kernel_scope.

(** ** The MMU's view *)
Definition pde (m : memory) (pgdir i : Z) : Z := load32 m (pgdir + 4 * i).
Definition tbl (m : memory) (pgdir i : Z) : Z := P2V (PTE_ADDR (pde m pgdir i)).
Definition lookup_pte (m : memory) (pgdir va : Z) : Z :=
  if present (pde m pgdir (PDX va)) then load32 m (tbl m pgdir (PDX va) + 4 * PTX va) else 0.
Definition frame (m : memory) (pgdir va : Z) : Z := P2V (PTE_ADDR (lookup_pte m pgdir va)).

(** A page-aligned address of the 32-bit space, and of its user half. *)
Definition paligned (va : Z) : Prop := va mod 4096 = 0 /\ 0 <= va < 4294967296.
Definition ualigned (va : Z) : Prop := va mod 4096 = 0 /\ 0 <= va < KERNBASE.

Lemma ualigned_paligned va : ualigned va -> paligned va.
Proof. unfold ualigned, paligned, KERNBASE. lia. Qed.

(** The pages a page table is made of. *)
Definition pt_page (m : memory) (pgdir p : Z) : Prop :=
  p = pgdir \/ exists i, 0 <= i < 1024 /\ present (pde m pgdir i) = true /\ p = tbl m pgdir i.

(** The user pages it maps. *)
Definition user_page (m : memory) (pgdir p : Z) : Prop :=
  exists va, ualigned va /\ present (lookup_pte m pgdir va) = true /\ p = frame m pgdir va.

Section VmInv.
Context {LS : LinkSyms}.

Record pt_inv (m : memory) (fl : list Z) (pgdir : Z) : Prop := mkPtInv {
  pt_dir_ok : page_ok pgdir;
  pt_dir_used : pgdir ∉ fl;
  pt_tbl_ok : forall i, 0 <= i < 1024 -> present (pde m pgdir i) = true ->
    page_ok (tbl m pgdir i) /\ (tbl m pgdir i ∉ fl) /\ tbl m pgdir i <> pgdir;
  pt_tbl_inj : forall i j, 0 <= i < 1024 -> 0 <= j < 1024 ->
    present (pde m pgdir i) = true -> present (pde m pgdir j) = true ->
    tbl m pgdir i = tbl m pgdir j -> i = j
}.

Record uvm_inv (m : memory) (fl : list Z) (pgdir : Z) : Prop := mkUvmInv {
  uvm_frame : forall va, ualigned va -> present (lookup_pte m pgdir va) = true ->
    page_ok (frame m pgdir va) /\ (frame m pgdir va ∉ fl) /\ ~ pt_page m pgdir (frame m pgdir va);
  uvm_inj : forall va va', ualigned va -> ualigned va' ->
    present (lookup_pte m pgdir va) = true -> present (lookup_pte m pgdir va') = true ->
    frame m pgdir va = frame m pgdir va' -> va = va'
}.

Record pt_change (m : memory) (fl : list Z) (m' : memory) (fl' : list Z) (pgdir : Z) : Prop :=
  mkPtChange {
  ptc_suffix : exists taken, fl = taken ++ fl';
  ptc_keep : forall i, 0 <= i < 1024 -> present (pde m pgdir i) = true ->
    present (pde m' pgdir i) = true /\ tbl m' pgdir i = tbl m pgdir i;
  ptc_pages : forall p, p ∈ fl \/ pt_page m pgdir p <-> p ∈ fl' \/ pt_page m' pgdir p;
  ptc_mem : same_except (fun p => p ∈ fl \/ pt_page m pgdir p) m m'
}.

Lemma pt_change_refl m fl pgdir : pt_change m fl m fl pgdir.
Proof. split; [by exists []|done|done|apply same_except_refl]. Qed.

Lemma pt_change_trans m1 fl1 m2 fl2 m3 fl3 pgdir :
  pt_change m1 fl1 m2 fl2 pgdir -> pt_change m2 fl2 m3 fl3 pgdir ->
  pt_change m1 fl1 m3 fl3 pgdir.
Proof.
  intros [[t1 E1] K1 P1 M1] [[t2 E2] K2 P2 M2]. split.
  - exists (t1 ++ t2). subst. by rewrite app_assoc.
  - intros i Hi Hp. destruct (K1 i Hi Hp) as [Hp2 Ht]. destruct (K2 i Hi Hp2) as [? Ht2].
    split; [done|congruence].
  - intros p. by rewrite P1, P2.
  - eapply same_except_trans; [exact M1|]. eapply same_except_mono; [|exact M2].
    intros p. by rewrite P1.
Qed.

Lemma pt_change_subset m fl m' fl' pgdir p :
  pt_change m fl m' fl' pgdir -> p ∈ fl' -> p ∈ fl.
Proof. intros [[t ->] _ _ _] Hp. set_solver. Qed.

(** ** Reading a page table through a memory change *)
Lemma present_0 : present 0 = false.
Proof. reflexivity. Qed.

Lemma pde_same P m m' pgdir i :
  same_except P m m' -> page_ok pgdir -> ~ P pgdir -> 0 <= i < 1024 ->
  pde m' pgdir i = pde m pgdir i.
Proof.
  intros Hs [Ha _] HP Hi. unfold pde. eapply load32_same_except; eauto; lia.
Qed.

Lemma lookup_pte_same P m m' fl pgdir va :
  same_except P m m' -> pt_inv m fl pgdir -> 0 <= va < 4294967296 ->
  (forall p, pt_page m pgdir p -> ~ P p) -> lookup_pte m' pgdir va = lookup_pte m pgdir va.
Proof.
  intros Hs Hpt Hva HP. pose proof (PDX_range va Hva). pose proof (PTX_range va Hva).
  assert (E : pde m' pgdir (PDX va) = pde m pgdir (PDX va)).
  { eapply pde_same; eauto; [apply Hpt|]. apply HP. by left. }
  unfold lookup_pte, tbl. rewrite E. destruct (present (pde m pgdir (PDX va))) eqn:Hp; [|done].
  destruct (pt_tbl_ok _ _ _ Hpt (PDX va) ltac:(lia) Hp) as ([Ha _] & _).
  eapply (load32_same_except P m m' (tbl m pgdir (PDX va))); eauto; try lia.
  apply HP. right. eauto.
Qed.

Lemma pt_page_same P m m' fl pgdir p :
  same_except P m m' -> pt_inv m fl pgdir -> ~ P pgdir ->
  pt_page m' pgdir p <-> pt_page m pgdir p.
Proof.
  intros Hs Hpt HP. unfold pt_page, tbl.
  assert (E : forall i, 0 <= i < 1024 -> pde m' pgdir i = pde m pgdir i).
  { intros i Hi. eapply pde_same; eauto. apply Hpt. }
  split; (intros [->|(i & Hi & Hp & ->)]; [by left|right; exists i]);
    rewrite ?E in * by done; by rewrite ?E.
Qed.

Lemma pt_inv_same P m m' fl pgdir :
  same_except P m m' -> pt_inv m fl pgdir -> ~ P pgdir -> pt_inv m' fl pgdir.
Proof.
  intros Hs Hpt HP.
  assert (E : forall i, 0 <= i < 1024 -> pde m' pgdir i = pde m pgdir i).
  { intros i Hi. eapply pde_same; eauto. apply Hpt. }
  destruct Hpt as [H1 H2 H3 H4]. split; [done|done| |].
  - intros i Hi. unfold tbl. rewrite E by done. apply H3; done.
  - intros i j Hi Hj. unfold tbl. rewrite !E by done. apply H4; done.
Qed.

Lemma pt_inv_weaken m fl fl' pgdir :
  (forall p, p ∈ fl' -> p ∈ fl) -> pt_inv m fl pgdir -> pt_inv m fl' pgdir.
Proof.
  intros Hsub [H1 H2 H3 H4]. split; [done| | |done].
  - intros Hx. by apply H2, Hsub.
  - intros i Hi Hp. destruct (H3 i Hi Hp) as (? & Hn & ?). split_and!; [done| |done].
    intros Hx. by apply Hn, Hsub.
Qed.

Lemma pt_page_ok m fl pgdir p : pt_inv m fl pgdir -> pt_page m pgdir p -> page_ok p /\ p ∉ fl.
Proof.
  intros Hpt [->|(i & Hi & Hp & ->)]; [split; apply Hpt|].
  destruct (pt_tbl_ok _ _ _ Hpt i Hi Hp) as (? & ? & ?). done.
Qed.

(** Address of the entry of [va] in its page table. *)
Lemma pte_slots_distinct m fl pgdir va va' :
  pt_inv m fl pgdir -> paligned va -> paligned va' -> va <> va' ->
  present (pde m pgdir (PDX va)) = true -> present (pde m pgdir (PDX va')) = true ->
  tbl m pgdir (PDX va) + 4 * PTX va + 4 <= tbl m pgdir (PDX va') + 4 * PTX va' \/
  tbl m pgdir (PDX va') + 4 * PTX va' + 4 <= tbl m pgdir (PDX va) + 4 * PTX va.
Proof.
  intros Hpt [Ha Hr] [Ha' Hr'] Hne Hp Hp'.
  pose proof (PDX_range va Hr). pose proof (PDX_range va' Hr').
  pose proof (PTX_range va Hr). pose proof (PTX_range va' Hr').
  destruct (decide (PDX va = PDX va')) as [E|E].
  - rewrite E. pose proof (va_parts va Hr). pose proof (va_parts va' Hr'). lia.
  - destruct (pt_tbl_ok _ _ _ Hpt (PDX va) ltac:(lia) Hp) as (Hok & _).
    destruct (pt_tbl_ok _ _ _ Hpt (PDX va') ltac:(lia) Hp') as (Hok' & _).
    assert (tbl m pgdir (PDX va) <> tbl m pgdir (PDX va')).
    { intros Et. apply E. eapply pt_tbl_inj; eauto. }
    destruct (pages_disjoint _ _ Hok Hok'); [done|lia|lia].
Qed.
End VmInv.
