(* ===== verification/VmWalk.v ===== *)
(** * Page tables (vm.c): walkpgdir and mappages

    [walkpgdir] finds the entry of an address, adding an empty page table when
    asked to; [mappages] installs exactly the mappings it was asked for. *)

From stdpp Require Import base numbers list gmap strings.
From Stdlib Require Import ZArith Lia.
From S2P Require Import Prelude Mmu Mem Kalloc Vm VmInv.

Local Open Scope Z_scope.
Local Open Scope kernel_scope.

Section VmWalk.
Context {LS : LinkSyms}.

(** ** Entries *)
Lemma page_ok_V2P t : page_ok t ->
  V2P t mod 4096 = 0 /\ 0 <= V2P t < 4294967296 /\ P2V (V2P t) = t /\ V2P t = t - KERNBASE.
Proof.
  intros Ht. pose proof (page_ok_range t Ht) as [Hl Hh]. destruct Ht as (Ha & _).
  unfold KERNBASE, PHYSTOP in *.
  rewrite P2V_V2P by lia. rewrite V2P_kern by (unfold KERNBASE; lia). unfold KERNBASE.
  split_and!; try lia. apply Z.mod_divide in Ha as [k ->]; [|lia].
  replace (k * 4096 - 2147483648) with ((k - 524288) * 4096) by lia. by apply Z.mod_mul.
Qed.

Lemma present_lor a f : a mod 4096 = 0 -> present (Z.lor a f) = present f.
Proof.
  intros Ha. unfold present, PTE_P. rewrite Z.land_lor_distr_l.
  replace (Z.land a 1) with 0; [done|].
  symmetry. rewrite (land_ones_mod a 1) by lia. change (2 ^ 1) with 2.
  apply Z.mod_divide in Ha as [k ->]; [|lia].
  replace (k * 4096) with (k * 2048 * 2) by lia. by apply Z.mod_mul.
Qed.

Lemma lor_lt_4096 a b : 0 <= a < 4096 -> 0 <= b < 4096 -> 0 <= Z.lor a b < 4096.
Proof.
  intros Ha Hb. split; [apply Z.lor_nonneg; lia|].
  destruct (decide (Z.lor a b = 0)) as [E|E]; [lia|].
  assert (0 <= Z.lor a b) by (apply Z.lor_nonneg; lia).
  apply (Z.log2_lt_pow2 _ 12); [lia|]. rewrite Z.log2_lor by lia.
  apply Z.max_lub_lt.
  - destruct (decide (a = 0)) as [->|]; [simpl; lia|]. apply Z.log2_lt_pow2; lia.
  - destruct (decide (b = 0)) as [->|]; [simpl; lia|]. apply Z.log2_lt_pow2; lia.
Qed.

Lemma present_lor_P f : present (Z.lor f PTE_P) = true.
Proof.
  unfold present, PTE_P. rewrite Z.land_lor_distr_l. apply negb_true_iff, Z.eqb_neq.
  intros E. apply Z.lor_eq_0_iff in E as [_ E]. discriminate.
Qed.

(** An entry built from a frame address and flags. *)
Lemma entry_spec pa f :
  pa mod 4096 = 0 -> 0 <= pa < 4294967296 -> 0 <= f < 4096 ->
  PTE_ADDR (Z.lor pa f) = pa /\ PTE_FLAGS (Z.lor pa f) = f /\
  present (Z.lor pa f) = present f /\ 0 <= Z.lor pa f < 4294967296.
Proof.
  intros Ha Hr Hf. destruct (pte_make pa f Hr Ha Hf) as (E & -> & ->).
  split_and!; [done|done|by apply present_lor| |]; rewrite E;
    apply Z.mod_divide in Ha as [k ->]; lia.
Qed.

(** The directory entry [walkpgdir] writes for a new table [t]. *)
Lemma new_pde_spec t :
  page_ok t ->
  let e := Z.lor (Z.lor (Z.lor (V2P t) PTE_P) PTE_W) PTE_U in
  0 <= e < 4294967296 /\ present e = true /\ P2V (PTE_ADDR e) = t.
Proof.
  intros Ht e. destruct (page_ok_V2P t Ht) as (Ha & Hr & Hp & _).
  assert (Ee : e = Z.lor (V2P t) 7) by (unfold e; by rewrite <- !Z.lor_assoc).
  destruct (entry_spec (V2P t) 7 Ha Hr ltac:(lia)) as (E1 & _ & E2 & E3).
  rewrite Ee, E1, E2. split_and!; try lia. reflexivity.
Qed.

(** ** Adding an empty page table *)
Section NewTable.
  Context (m : memory) (fl : list Z) (pgdir t d : Z).
  Context (Hpt : pt_inv m (t :: fl) pgdir) (Ht : page_ok t) (Hnd : NoDup (t :: fl)).
  Context (Hd : 0 <= d < 1024) (Habs : present (pde m pgdir d) = false).
Let m' : memory := store32 (memset m t 0 4096) (pgdir + 4 * d)
              (Z.lor (Z.lor (Z.lor (V2P t) PTE_P) PTE_W) PTE_U).

Lemma new_table_ne : t <> pgdir.
Proof. intros ->. apply (pt_dir_used _ _ _ Hpt). left. Qed.

Lemma new_table_disj : pgdir + 4096 <= t \/ t + 4096 <= pgdir.
Proof.
  apply pages_disjoint; [apply Hpt|done|]. intros E. by apply new_table_ne.
Qed.

Lemma new_table_pde i : 0 <= i < 1024 ->
  pde m' pgdir i =
  if decide (i = d) then Z.lor (Z.lor (Z.lor (V2P t) PTE_P) PTE_W) PTE_U else pde m pgdir i.
Proof.
  intros Hi. unfold pde, m'. pose proof new_table_disj.
  destruct (new_pde_spec t Ht) as (He & _ & _).
  destruct (decide (i = d)) as [->|Hne].
  - rewrite load32_store32_eq. by apply Z.mod_small.
  - rewrite load32_store32_ne by lia. rewrite load32_memset_out by lia. done.
Qed.

Lemma new_table_old_ne i : 0 <= i < 1024 -> present (pde m pgdir i) = true -> i <> d.
Proof. intros _ Hp ->. congruence. Qed.

Lemma new_table_tbl i : 0 <= i < 1024 -> present (pde m' pgdir i) = true ->
  (i = d /\ tbl m' pgdir i = t) \/
  (i <> d /\ present (pde m pgdir i) = true /\ tbl m' pgdir i = tbl m pgdir i).
Proof.
  intros Hi. unfold tbl. rewrite new_table_pde by done.
  destruct (decide (i = d)) as [->|Hne]; intros Hp.
  - left. split; [done|]. apply new_pde_spec, Ht.
  - right. done.
Qed.

Lemma new_table_same : same_except (fun p => p = t \/ p = pgdir) m m'.
Proof.
  unfold m'. pose proof (pt_dir_ok _ _ _ Hpt) as [Ha _]. pose proof Ht as [Hta _].
  eapply same_except_trans.
  - apply (same_except_memset _ _ t 0 Hta). by left.
  - apply (same_except_store32 _ _ pgdir (4 * d)); auto; lia.
Qed.

Lemma new_table_inv : pt_inv m' fl pgdir.
Proof.
  pose proof Hpt as [H1 H2 H3 H4]. pose proof Hnd as [Hnt Hnd']%NoDup_cons.
  split; [done|by intros ?; apply H2; right| |].
  - intros i Hi Hp. destruct (new_table_tbl i Hi Hp) as [[-> ->]|(Hne & Hp0 & ->)].
    + split_and!; [done|done|apply new_table_ne].
    + destruct (H3 i Hi Hp0) as (? & Hn & ?). split_and!; [done|by intros ?; apply Hn; right|done].
  - intros i j Hi Hj Hpi Hpj E.
    destruct (new_table_tbl i Hi Hpi) as [[-> Ei]|(Hnei & Hpi0 & Ei)];
      destruct (new_table_tbl j Hj Hpj) as [[-> Ej]|(Hnej & Hpj0 & Ej)]; [done| | |].
    + destruct (H3 j Hj Hpj0) as (_ & Hn & _). destruct Hn. rewrite <- Ej, <- E, Ei. left.
    + destruct (H3 i Hi Hpi0) as (_ & Hn & _). destruct Hn. rewrite <- Ei, E, Ej. left.
    + apply (H4 i j); auto. congruence.
Qed.

Lemma new_table_change : pt_change m (t :: fl) m' fl pgdir.
Proof.
  assert (Hkeep : forall i, 0 <= i < 1024 -> present (pde m pgdir i) = true ->
    present (pde m' pgdir i) = true /\ tbl m' pgdir i = tbl m pgdir i).
  { intros i Hi Hp. pose proof (new_table_old_ne i Hi Hp) as Hne.
    unfold tbl. rewrite new_table_pde by done. by destruct (decide (i = d)). }
  assert (Hnew : present (pde m' pgdir d) = true /\ tbl m' pgdir d = t).
  { unfold tbl. rewrite new_table_pde by done. destruct (decide (d = d)); [|done].
    split; apply new_pde_spec, Ht. }
  split; [by exists [t]|done| |].
  - intros p. split.
    + intros [Hp|[->|(i & Hi & Hp & ->)]].
      * apply elem_of_cons in Hp as [->|Hp]; [|by left].
        right. right. exists d. destruct Hnew as [? E]. by rewrite E.
      * right. by left.
      * right. right. exists i. destruct (Hkeep i Hi Hp) as [? E]. by rewrite E.
    + intros [Hp|[->|(i & Hi & Hp & ->)]]; [left; by right|right; by left|].
      destruct (new_table_tbl i Hi Hp) as [[-> ->]|(Hne & Hp0 & ->)]; [left; by left|].
      right. right. eauto.
  - eapply same_except_mono; [|exact new_table_same].
    intros p [->| ->]; [left; by left|right; by left].
Qed.

Lemma new_table_lookup va : 0 <= va < 4294967296 -> lookup_pte m' pgdir va = lookup_pte m pgdir va.
Proof.
  intros Hva. pose proof (PDX_range va Hva) as HD. pose proof (PTX_range va Hva) as HT.
  unfold lookup_pte at 1. destruct (present (pde m' pgdir (PDX va))) eqn:Hp.
  - destruct (new_table_tbl _ HD Hp) as [[E ->]|(Hne & Hp0 & ->)].
    + unfold lookup_pte. rewrite E, Habs. unfold m'. pose proof new_table_disj.
      rewrite load32_store32_ne by lia. apply load32_memset_zero; lia.
    + unfold lookup_pte. rewrite Hp0.
      destruct (pt_tbl_ok _ _ _ Hpt (PDX va) HD Hp0) as ([Ha _] & Hn & Hne').
      eapply load32_same_except; [apply new_table_same|done|lia|lia|].
      intros [E|E]; [|done]. apply Hn. rewrite E. left.
  - unfold lookup_pte. rewrite new_table_pde in Hp by done.
    destruct (decide (PDX va = d)) as [->|]; [by rewrite Habs|by rewrite Hp].
Qed.
End NewTable.

(** ** Writing one entry *)
Section SetPte.
  Context (m : memory) (fl : list Z) (pgdir va e : Z).
  Context (Hpt : pt_inv m fl pgdir) (Hva : paligned va).
  Context (Hp : present (pde m pgdir (PDX va)) = true) (He : 0 <= e < 4294967296).
Let m' : memory := store32 m (tbl m pgdir (PDX va) + 4 * PTX va) e.

Lemma set_pte_tbl_ok :
  page_ok (tbl m pgdir (PDX va)) /\ (tbl m pgdir (PDX va) ∉ fl) /\ tbl m pgdir (PDX va) <> pgdir.
Proof. apply Hpt; [|done]. destruct Hva. by apply PDX_range. Qed.

Lemma set_pte_same : same_except (eq (tbl m pgdir (PDX va))) m m'.
Proof.
  destruct set_pte_tbl_ok as ([Ha _] & _). destruct Hva as [_ Hr].
  pose proof (PTX_range va Hr). by apply same_except_store32; try lia.
Qed.

Lemma set_pte_pde i : 0 <= i < 1024 -> pde m' pgdir i = pde m pgdir i.
Proof.
  intros Hi. apply (pde_same _ _ _ _ _ set_pte_same); [apply Hpt| |done].
  apply set_pte_tbl_ok.
Qed.

Lemma set_pte_inv : pt_inv m' fl pgdir.
Proof. apply (pt_inv_same _ _ _ _ _ set_pte_same); [done|apply set_pte_tbl_ok]. Qed.

Lemma set_pte_page p : pt_page m' pgdir p <-> pt_page m pgdir p.
Proof. apply (pt_page_same _ _ _ fl _ _ set_pte_same); [done|apply set_pte_tbl_ok]. Qed.

Lemma set_pte_change : pt_change m fl m' fl pgdir.
Proof.
  split.
  - by exists [].
  - intros i Hi Hpi. unfold tbl. by rewrite set_pte_pde.
  - intros p. by rewrite set_pte_page.
  - eapply same_except_mono; [|exact set_pte_same]. intros p <-. right. right.
    exists (PDX va). destruct Hva. split; [by apply PDX_range|done].
Qed.

Lemma set_pte_lookup va' : paligned va' ->
  lookup_pte m' pgdir va' = if decide (va' = va) then e else lookup_pte m pgdir va'.
Proof.
  intros Hva'. pose proof Hva' as [_ Hr']. pose proof (PDX_range va' Hr').
  unfold lookup_pte, tbl. rewrite set_pte_pde by done. fold (tbl m pgdir (PDX va')).
  destruct (decide (va' = va)) as [->|Hne].
  - rewrite Hp. unfold m'. rewrite load32_store32_eq. by apply Z.mod_small.
  - destruct (present (pde m pgdir (PDX va'))) eqn:Hp'; [|done].
    unfold m'. apply load32_store32_ne.
    pose proof (pte_slots_distinct m fl pgdir va va' Hpt Hva Hva' ltac:(congruence) Hp Hp'). lia.
Qed.
End SetPte.

(** A memory update, with the new state known only by its fields. *)
Lemma wp_set_mem f (Q : unit -> kstate -> Prop) s :
  (forall s', mem s' = f (mem s) -> freelist s' = freelist s -> use_lock s' = use_lock s ->
     kmem_lock s' = kmem_lock s -> Q tt s') ->
  wp (modify (set_mem f)) Q s.
Proof. intros H. apply wp_modify, H; done. Qed.

Lemma kinv_same s s' fl P :
  kinv s fl -> freelist s' = freelist s -> kmem_lock s' = kmem_lock s ->
  same_except P (mem s) (mem s') -> (forall q, q ∈ fl -> ~ P q) -> kinv s' fl.
Proof.
  intros [Hc Hok Hnd Hlk] Hf Hl Hs HP. split; [|done|done|congruence].
  rewrite Hf. by apply (chain_same_except P (mem s)).
Qed.

(** ** walkpgdir *)
Record vm_inv (s : kstate) (fl : list Z) (pgdir : Z) : Prop := mkVmInv {
  vm_kinv : kinv s fl;
  vm_pt : pt_inv (mem s) fl pgdir
}.

(** Without allocation: the slot of [va], or 0 when there is no page table. *)
Lemma walkpgdir_false s pgdir va :
  walkpgdir pgdir va false s =
  Ret (if present (pde (mem s) pgdir (PDX va))
       then tbl (mem s) pgdir (PDX va) + 4 * PTX va else 0) s.
Proof.
  unfold walkpgdir, bind, gets, tbl, pde. by destruct (present _).
Qed.

Lemma tbl_slot_nonzero m fl pgdir va :
  pt_inv m fl pgdir -> 0 <= va < 4294967296 -> present (pde m pgdir (PDX va)) = true ->
  tbl m pgdir (PDX va) + 4 * PTX va <> 0.
Proof.
  intros Hpt Hva Hp. pose proof (PDX_range va Hva). pose proof (PTX_range va Hva).
  destruct (pt_tbl_ok _ _ _ Hpt (PDX va) ltac:(lia) Hp) as (Hok & _).
  pose proof (page_ok_range _ Hok). unfold KERNBASE in *. lia.
Qed.

(** The directory entries present in [m'] are those of [m] and some at [D]. *)
Definition new_tables (m m' : memory) (pgdir : Z) (D : Z -> Prop) : Prop :=
  forall i, 0 <= i < 1024 -> present (pde m' pgdir i) = true -> present (pde m pgdir i) = true \/ D i.

Lemma new_tables_refl m pgdir D : new_tables m m pgdir D.
Proof. intros i _ H. by left. Qed.

Lemma new_tables_trans m1 m2 m3 pgdir (D1 D2 D : Z -> Prop) :
  new_tables m1 m2 pgdir D1 -> new_tables m2 m3 pgdir D2 -> (forall i, D1 i \/ D2 i -> D i) -> new_tables m1 m3 pgdir D.
Proof. intros H1 H2 HD i Hi H. destruct (H2 i Hi H) as [H'|]; [destruct (H1 i Hi H')|]; auto. Qed.

(** The result of a successful walk: the slot of [va] in a table that exists. *)
Definition walk_ok (s : kstate) (fl : list Z) (pgdir va r : Z) (s' : kstate) (fl' : list Z) : Prop :=
  vm_inv s' fl' pgdir /\ use_lock s' = use_lock s /\
  pt_change (mem s) fl (mem s') fl' pgdir /\
  present (pde (mem s') pgdir (PDX va)) = true /\
  r = tbl (mem s') pgdir (PDX va) + 4 * PTX va /\
  (forall va', 0 <= va' < 4294967296 -> lookup_pte (mem s') pgdir va' = lookup_pte (mem s) pgdir va') /\
  new_tables (mem s) (mem s') pgdir (eq (PDX va)).

Lemma walkpgdir_wp s fl pgdir va :
  vm_inv s fl pgdir -> 0 <= va < 4294967296 ->
  wp (walkpgdir pgdir va true) (fun r s' =>
    (r = 0 /\ s' = s /\ fl = [] /\ present (pde (mem s) pgdir (PDX va)) = false) \/
    (exists fl', walk_ok s fl pgdir va r s' fl')) s.
Proof.
  intros [Hk Hpt] Hva. pose proof (PDX_range va Hva) as HD.
  unfold walkpgdir. apply wp_bind, wp_gets. fold (pde (mem s) pgdir (PDX va)).
  destruct (present (pde (mem s) pgdir (PDX va))) eqn:Hp.
  { apply wp_ret. right. exists fl. split_and!; try done; [apply pt_change_refl|apply new_tables_refl]. }
  simpl. apply wp_bind. eapply wp_mono; [by apply kalloc_wp|]. intros t s1.
  destruct fl as [|t' fl'].
  { intros [-> ->]. by left. }
  intros (-> & Hk1 & Hm1 & Hul1).
  pose proof (kinv_ok _ _ Hk) as [Ht _]%Forall_cons. pose proof (kinv_nodup _ _ Hk) as Hnd.
  destruct (Z.eqb_spec t' 0) as [E|_]; [by apply page_ok_nonzero in E|].
  apply wp_bind, wp_set_mem. intros s2 Hm2 Hf2 Hu2 Hl2.
  apply wp_bind, wp_set_mem. intros s3 Hm3 Hf3 Hu3 Hl3. apply wp_ret.
  rewrite Hm2, Hm1 in Hm3. change PGSIZE with 4096 in Hm3.
  right. exists fl'. unfold walk_ok. rewrite Hm3.
  split_and!; [|congruence|by apply new_table_change| | | |].
  - split; [|rewrite Hm3; by apply new_table_inv].
    apply (kinv_same s1 s3 fl' (fun p => p = t' \/ p = pgdir)); [done|congruence|congruence| |].
    + rewrite Hm1, Hm3. by apply new_table_same with (fl := fl').
    + apply NoDup_cons in Hnd as [Hnt _]. intros q Hq [->| ->]; [done|].
      apply (pt_dir_used _ _ _ Hpt). by right.
  - rewrite (new_table_pde (mem s) fl' pgdir t' (PDX va)) by done.
    destruct (decide _); [|done]. apply new_pde_spec, Ht.
  - unfold tbl. rewrite (new_table_pde (mem s) fl' pgdir t' (PDX va)) by done.
    destruct (decide _); [|done]. destruct (new_pde_spec t' Ht) as (_ & _ & E). by rewrite E.
  - intros va' Hva'. by apply new_table_lookup with (fl := fl').
  - intros i Hi. rewrite (new_table_pde (mem s) fl' pgdir t' (PDX va)) by done. destruct (decide _); [by right|by left].
Qed.

(** ** mappages *)

(** [m'] maps [n] pages from [a] to the frames from [pa] on, and every other
    page as [m] does. *)
Definition maps_range (m m' : memory) (pgdir a n pa perm : Z) : Prop :=
  forall va, paligned va ->
    lookup_pte m' pgdir va =
    if (a <=? va) && (va <? a + 4096 * n)
    then Z.lor (Z.lor (pa + (va - a)) perm) PTE_P else lookup_pte m pgdir va.

Lemma map_entry_range pa perm :
  pa mod 4096 = 0 -> 0 <= pa < 4294967296 -> 0 <= perm < 4096 ->
  0 <= Z.lor (Z.lor pa perm) PTE_P < 4294967296.
Proof.
  intros Ha Hr Hp. rewrite <- Z.lor_assoc.
  apply entry_spec; [done|done|]. apply lor_lt_4096; unfold PTE_P; lia.
Qed.

(** What a run of [mappages] over [k] pages from [a] leaves: on success all of
    them, on failure (the free list is exhausted) a proper prefix. *)
Definition mappages_post (s : kstate) (fl : list Z) (pgdir a k pa perm r : Z) (s' : kstate) : Prop :=
  exists fl' n,
    vm_inv s' fl' pgdir /\ use_lock s' = use_lock s /\
    pt_change (mem s) fl (mem s') fl' pgdir /\
    (r = 0 /\ n = k \/ r = -1 /\ 0 <= n < k /\ fl' = []) /\
    maps_range (mem s) (mem s') pgdir a n pa perm /\
    new_tables (mem s) (mem s') pgdir (fun i => exists j, 0 <= j < k /\ i = PDX (a + 4096 * j)).

Lemma aligned_step a j : paligned a -> 0 <= j -> a + 4096 * j < 4294967296 -> paligned (a + 4096 * j).
Proof.
  intros [Ha Hr] Hj Hlt. split; [|lia].
  apply Z.mod_divide in Ha as [q ->]; [|lia].
  replace (q * 4096 + 4096 * j) with ((q + j) * 4096) by lia. by apply Z.mod_mul.
Qed.

(** One iteration of [mappages]: the walk, then the store of the entry. *)
Lemma map_one s fl pgdir a pa perm :
  vm_inv s fl pgdir -> paligned a -> paligned pa -> 0 <= perm < 4096 ->
  present (lookup_pte (mem s) pgdir a) = false ->
  wp (walkpgdir pgdir a true) (fun pte s1 =>
    (pte = 0 /\ s1 = s /\ fl = []) \/
    (pte <> 0 /\ present (load32 (mem s1) pte) = false /\
     forall s2, mem s2 = store32 (mem s1) pte (Z.lor (Z.lor pa perm) PTE_P) ->
       freelist s2 = freelist s1 -> use_lock s2 = use_lock s1 -> kmem_lock s2 = kmem_lock s1 ->
       exists fl2, vm_inv s2 fl2 pgdir /\ use_lock s2 = use_lock s /\
         pt_change (mem s) fl (mem s2) fl2 pgdir /\
         maps_range (mem s) (mem s2) pgdir a 1 pa perm /\ new_tables (mem s) (mem s2) pgdir (eq (PDX a)))) s.
Proof.
  intros Hvm Ha Hpa Hperm Hab.
  eapply wp_mono; [apply walkpgdir_wp; [exact Hvm|apply Ha]|]. intros pte s1.
  intros [(-> & -> & -> & _)|(fl1 & Hvm1 & Hu1 & Hc1 & Hp1 & -> & Hl1 & Hn1)]; [by left|right].
  destruct Hvm1 as [Hk1 Hpt1]. set (e := Z.lor (Z.lor pa perm) PTE_P).
  assert (He : 0 <= e < 4294967296) by (apply map_entry_range; [apply Hpa|apply Hpa|done]).
  split_and!.
  - by eapply tbl_slot_nonzero; [|apply Ha|].
  - specialize (Hl1 a (proj2 Ha)). unfold lookup_pte in Hl1 at 1. rewrite Hp1 in Hl1. congruence.
  - intros s2 Hm2 Hf2 Hu2 Hk2. exists fl1. rewrite Hm2. split_and!; [|congruence| | |].
    + split; [|rewrite Hm2; by apply set_pte_inv].
      apply (kinv_same s1 s2 fl1 (eq (tbl (mem s1) pgdir (PDX a)))); [done|done|done| |].
      * rewrite Hm2. by apply set_pte_same with (fl := fl1).
      * intros q Hq <-. by destruct (set_pte_tbl_ok _ _ _ _ Hpt1 Ha Hp1) as (_ & Hn & _).
    + eapply pt_change_trans; [exact Hc1|by apply set_pte_change].
    + intros va Hva. rewrite (set_pte_lookup _ fl1) by done. rewrite Hl1 by apply Hva.
      destruct (decide (va = a)) as [->|Hne].
      * rewrite Z.sub_diag, Z.add_0_r.
        destruct (Z.leb_spec a a), (Z.ltb_spec a (a + 4096 * 1)); try lia. done.
      * destruct Ha as [Ha _], Hva as [Hva _].
        apply Z.mod_divide in Ha as [q ->]; [|lia]. apply Z.mod_divide in Hva as [q' ->]; [|lia].
        destruct (Z.leb_spec (q * 4096) (q' * 4096)), (Z.ltb_spec (q' * 4096) (q * 4096 + 4096 * 1));
          try done. lia.
    + intros i Hi. rewrite (set_pte_pde _ fl1) by done. by apply Hn1.
Qed.

Lemma maps_range_nil m pgdir a pa perm : maps_range m m pgdir a 0 pa perm.
Proof.
  intros va Hva. destruct (Z.leb_spec a va), (Z.ltb_spec va (a + 4096 * 0)); try done. lia.
Qed.

Lemma maps_range_cons m1 m2 m3 pgdir a n pa perm :
  0 <= n -> paligned a ->
  maps_range m1 m2 pgdir a 1 pa perm -> maps_range m2 m3 pgdir (a + 4096) n (pa + 4096) perm ->
  maps_range m1 m3 pgdir a (n + 1) pa perm.
Proof.
  intros Hn [Ha _] H1 H2 va Hva. rewrite H2, H1 by done. destruct Hva as [Hva _].
  apply Z.mod_divide in Ha as [q ->]; [|lia]. apply Z.mod_divide in Hva as [q' ->]; [|lia].
  destruct (Z.leb_spec (q * 4096) (q' * 4096)), (Z.leb_spec (q * 4096 + 4096) (q' * 4096)),
    (Z.ltb_spec (q' * 4096) (q * 4096 + 4096 + 4096 * n)),
    (Z.ltb_spec (q' * 4096) (q * 4096 + 4096 * (n + 1))),
    (Z.ltb_spec (q' * 4096) (q * 4096 + 4096 * 1)); simpl; try lia; try done.
  do 2 f_equal. lia.
Qed.

Lemma mappages_post_fail s pgdir a k pa perm :
  vm_inv s [] pgdir -> 0 < k -> mappages_post s [] pgdir a k pa perm (-1) s.
Proof.
  intros Hvm Hk. exists [], 0. split_and!; [done|done|apply pt_change_refl| |apply maps_range_nil|apply new_tables_refl].
  right. split_and!; done || lia.
Qed.

Lemma mappages_loop_wp pgdir perm (Hperm : 0 <= perm < 4096) k : forall fuel s fl a pa,
  vm_inv s fl pgdir -> (k < fuel)%nat -> paligned a -> a + 4096 * Z.of_nat k < 4294967296 ->
  paligned pa -> pa + 4096 * Z.of_nat k < 4294967296 ->
  (forall j, 0 <= j <= Z.of_nat k ->
     present (lookup_pte (mem s) pgdir (a + 4096 * j)) = false) ->
  wp (mappages_loop fuel pgdir a (a + 4096 * Z.of_nat k) pa perm)
     (mappages_post s fl pgdir a (Z.of_nat k + 1) pa perm) s.
Proof.
  induction k as [|k IH]; intros fuel s fl a pa Hvm Hf Ha Hak Hpa Hpk Hfree;
    (destruct fuel as [|fuel]; [lia|]); cbn [mappages_loop]; apply wp_bind;
    (eapply wp_mono; [apply (map_one s fl pgdir a pa perm); try done;
       specialize (Hfree 0 ltac:(lia)); by rewrite Z.mul_0_r, Z.add_0_r in Hfree|]);
    (intros pte s1 [(-> & -> & ->)|(Hnz & Hab & Hst)];
     [apply mappages_post_fail; [done|lia]|]);
    apply Z.eqb_neq in Hnz; rewrite Hnz; apply wp_bind, wp_gets; rewrite Hab;
    apply wp_bind, wp_set_mem; intros s2 Hm2 Hf2 Hu2 Hl2;
    destruct (Hst s2 Hm2 Hf2 Hu2 Hl2) as (fl2 & Hvm2 & Hul2 & Hc2 & Hr2 & Hn2).
  - replace (a + 4096 * Z.of_nat 0) with a by lia. rewrite Z.eqb_refl. apply wp_ret.
    exists fl2, 1. split_and!; try done; [left; lia|]. eapply new_tables_trans; [exact Hn2|apply (new_tables_refl _ _ (fun _ => False))|].
    intros i [<-|[]]. exists 0. split; [lia|]. f_equal. lia.
  - destruct (Z.eqb_spec a (a + 4096 * Z.of_nat (S k))); [lia|]. unfold PGSIZE.
    destruct Ha as [Ha Har], Hpa as [Hpa Hpr].
    rewrite !u32_small by lia.
    replace (a + 4096 * Z.of_nat (S k)) with (a + 4096 + 4096 * Z.of_nat k) by lia.
    eapply wp_mono; [apply (IH fuel s2 fl2 (a + 4096) (pa + 4096)); try done; try lia|].
    + apply (aligned_step a 1); [done|lia|lia].
    + apply (aligned_step pa 1); [done|lia|lia].
    + intros j Hj. replace (a + 4096 + 4096 * j) with (a + 4096 * (j + 1)) by lia.
      rewrite Hr2 by (apply aligned_step; [done|lia|lia]).
      destruct (Z.ltb_spec (a + 4096 * (j + 1)) (a + 4096 * 1)); [lia|]. rewrite andb_false_r.
      apply Hfree. lia.
    + intros r s3 (fl3 & np & Hvm3 & Hul3 & Hc3 & Hcase & Hr3 & Hn3). exists fl3, (np + 1).
      split_and!; [done|congruence|by eapply pt_change_trans| | |].
      * destruct Hcase as [[-> ->]|(-> & Hn & ->)]; [left; lia|right; split_and!; done || lia].
      * apply (maps_range_cons _ (mem s2)); try done. destruct Hcase as [[_ ->]|(_ & ? & _)]; lia.
      * eapply new_tables_trans; [exact Hn2|exact Hn3|]. intros i [<-|(j & Hj & ->)]; [exists 0|exists (j + 1)];
          (split; [lia|]); f_equal; lia.
Qed.

(** [mappages] over a page-aligned range of [n] pages. *)
Lemma mappages_wp s fl pgdir a n pa perm :
  vm_inv s fl pgdir -> 0 <= perm < 4096 -> 0 < n -> paligned a -> a + 4096 * n <= 4294967296 ->
  paligned pa -> pa + 4096 * n <= 4294967296 ->
  (forall j, 0 <= j < n -> present (lookup_pte (mem s) pgdir (a + 4096 * j)) = false) ->
  wp (mappages pgdir a (u32 (4096 * n)) pa perm) (mappages_post s fl pgdir a n pa perm) s.
Proof.
  intros Hvm Hperm Hn Ha Han Hpa Hpan Hfree. unfold mappages.
  pose proof Ha as [Ham Har]. rewrite (PGROUNDDOWN_aligned a Har Ham).
  assert (El : PGROUNDDOWN (a + u32 (4096 * n) - 1) = a + 4096 * (n - 1)).
  { unfold PGROUNDDOWN. rewrite <- (u32_idemp (a + u32 (4096 * n) - 1)).
    replace (u32 (a + u32 (4096 * n) - 1)) with (a + 4096 * n - 1).
    2: { replace (a + u32 (4096 * n) - 1) with (a - 1 + u32 (4096 * n)) by lia.
         rewrite u32_add_r, u32_small by lia. lia. }
    fold (PGROUNDDOWN (a + 4096 * n - 1)). rewrite PGROUNDDOWN_div by lia.
    apply Z.mod_divide in Ham as [q ->]; [|lia].
    destruct (div_mod_unique_4096 (q * 4096 + 4096 * n - 1) (q + n - 1) 4095) as [-> _]; lia. }
  rewrite El. replace (a + 4096 * (n - 1) - a) with (4096 * (n - 1)) by lia.
  rewrite u32_small by lia. unfold PGSIZE.
  replace (4096 * (n - 1) / 4096) with (n - 1) by (rewrite Z.mul_comm, Z.div_mul; lia).
  replace (a + 4096 * (n - 1)) with (a + 4096 * Z.of_nat (Z.to_nat (n - 1))) by lia.
  eapply wp_mono.
  - apply (mappages_loop_wp pgdir perm Hperm); try done; try lia. intros j Hj. apply Hfree. lia.
  - intros r s'. replace (Z.of_nat (Z.to_nat (n - 1)) + 1) with n by lia. done.
Qed.
End VmWalk.

(** [mappages] over [n] pages that are not yet mapped, with [fl] the free
    list: it returns 0 with exactly those pages mapped, page [i] to frame
    [pa + 4096 i] with the permissions asked for, or returns -1 with only a
    proper prefix mapped and no free page left.  Either way every other virtual
    page translates as before, the page table stays well formed, and pages only
    move from the free list into the page table. *)
Theorem mappages_correct {LS : LinkSyms} (s : kstate) (fl : list Z) (pgdir a n pa perm : Z)
  (Hvm : vm_inv s fl pgdir) (Hperm : 0 <= perm < 4096) (Hn : 0 < n)
  (Ha : paligned a) (Han : a + 4096 * n <= 4294967296)
  (Hpa : paligned pa) (Hpan : pa + 4096 * n <= 4294967296)
  (Hfree : forall j, 0 <= j < n -> present (lookup_pte (mem s) pgdir (a + 4096 * j)) = false) :
  wp (mappages pgdir a (u32 (4096 * n)) pa perm) (fun r s' =>
    exists fl' k,
      vm_inv s' fl' pgdir /\
      (r = 0 /\ k = n \/ r = -1 /\ 0 <= k < n /\ fl' = []) /\
      (forall va, paligned va ->
         lookup_pte (mem s') pgdir va =
         if (a <=? va) && (va <? a + 4096 * k)
         then Z.lor (Z.lor (pa + (va - a)) perm) PTE_P
         else lookup_pte (mem s) pgdir va) /\
      (forall p, p ∈ fl \/ pt_page (mem s) pgdir p <-> p ∈ fl' \/ pt_page (mem s') pgdir p) /\
      same_except (fun p => p ∈ fl \/ pt_page (mem s) pgdir p) (mem s) (mem s')) s.
Proof.
  eapply wp_mono; [by apply (mappages_wp s fl)|].
  intros r s' (fl' & k & Hvm' & _ & Hc & Hcase & Hr & _). exists fl', k.
  split_and!; try done; apply Hc.
Qed.

(** An empty page directory beside the two-page free list. *)
Lemma load32_empty a : load32 ∅ a = 0.
Proof. reflexivity. Qed.

Lemma example_pde i : 0 <= i < 1024 -> pde (mem example_kstate) 0x80202000 i = 0.
Proof.
  intros Hi. unfold pde, example_kstate. simpl mem.
  rewrite load32_store32_ne by lia. apply load32_empty.
Qed.

Lemma example_lookup va : 0 <= va < 4294967296 -> lookup_pte (mem example_kstate) 0x80202000 va = 0.
Proof. intros Hva. unfold lookup_pte. by rewrite example_pde by (by apply PDX_range). Qed.

Lemma example_vm : @vm_inv example_syms example_kstate [0x80200000; 0x80201000] 0x80202000.
Proof.
  split; [exact example_kinv|]. split.
  - split_and!; simpl; unfold KERNBASE, PHYSTOP; done || lia.
  - by intros [E|[E|E%elem_of_nil]%elem_of_cons]%elem_of_cons.
  - intros i Hi Hp. by rewrite example_pde in Hp.
  - intros i j Hi Hj Hp. by rewrite example_pde in Hp.
Qed.

Lemma mappages_correct_witness :
  wp (@mappages 0x80202000 0x1000 (u32 (4096 * 2)) 0x300000 PTE_W)
     (fun r s' => r = 0 -> lookup_pte (mem s') 0x80202000 0x2000 = 0x301003) example_kstate.
Proof.
  eapply wp_mono.
  - apply (@mappages_correct example_syms example_kstate _ 0x80202000 0x1000 2 0x300000 PTE_W
      example_vm); unfold PTE_W, paligned; try lia; [split; [reflexivity|lia]..|].
    intros j Hj. rewrite example_lookup by lia. reflexivity.
  - intros r s' (fl' & k & _ & [[-> ->]|(-> & _)] & Hl & _); [|done]. intros _.
    rewrite Hl by (split; [reflexivity|lia]). reflexivity.
Defined.
