(* ===== verification/VmUser.v ===== *)
(** * Page tables (vm.c): shrinking an address space

    [deallocuvm]: which user pages it unmaps, and that each of them goes back to
    the free list, once. *)

From stdpp Require Import base numbers list gmap strings.
From Stdlib Require Import ZArith Lia.
From S2P Require Import Prelude Mmu Mem Kalloc Vm VmInv VmWalk.

Local Open Scope Z_scope.
Local Open Scope kernel_scope.

(** The user pages mapped in [a, b). *)
Definition freed (m : memory) (pgdir a b p : Z) : Prop :=
  exists va, ualigned va /\ a <= va < b /\ present (lookup_pte m pgdir va) = true /\
    p = frame m pgdir va.

Section VmUser.
Context {LS : LinkSyms}.

(** The address space of a process: its page table and its user pages. *)
Record as_inv (s : kstate) (fl : list Z) (pgdir : Z) : Prop := mkAsInv {
  as_vm : vm_inv s fl pgdir;
  as_uvm : uvm_inv (mem s) fl pgdir
}.

(** From [m] and [fl] to [m'] and [fl'], the mappings in [a, b) were removed and
    their pages freed. *)
Record unmaps (m : memory) (fl : list Z) (m' : memory) (fl' : list Z) (pgdir a b : Z) : Prop :=
  mkUnmaps {
  um_pde : forall i, 0 <= i < 1024 -> pde m' pgdir i = pde m pgdir i;
  um_lookup : forall va, paligned va ->
    lookup_pte m' pgdir va =
    if (a <=? va) && (va <? b) && present (lookup_pte m pgdir va) then 0
    else lookup_pte m pgdir va;
  um_free : forall p, p ∈ fl' <-> p ∈ fl \/ freed m pgdir a b p;
  um_mem : same_except (fun p => pt_page m pgdir p \/ freed m pgdir a b p) m m'
}.

Lemma unmaps_pt_page m fl m' fl' pgdir a b p :
  unmaps m fl m' fl' pgdir a b -> pt_page m' pgdir p <-> pt_page m pgdir p.
Proof.
  intros H. unfold pt_page, tbl.
  split; (intros [->|(i & Hi & Hp & ->)]; [by left|right; exists i]);
    rewrite ?(um_pde _ _ _ _ _ _ _ H i Hi) in *; done.
Qed.

Lemma unmaps_refl m fl pgdir a : unmaps m fl m fl pgdir a a.
Proof.
  split; [done| | |apply same_except_refl].
  - intros va _. destruct (Z.leb_spec a va), (Z.ltb_spec va a); try done. lia.
  - intros p. split; [by left|]. intros [|(va & _ & H & _)]; [done|lia].
Qed.

(** Nothing is mapped in the range: nothing changes. *)
Lemma unmaps_none m fl pgdir a b :
  (forall va, ualigned va -> a <= va < b -> present (lookup_pte m pgdir va) = false) ->
  0 <= a -> b <= KERNBASE -> unmaps m fl m fl pgdir a b.
Proof.
  intros H Ha Hb. split; [done| | |apply same_except_refl].
  - intros va [Hva Hr]. destruct (Z.leb_spec a va), (Z.ltb_spec va b); simpl; try done.
    rewrite H; [done|split; [done|lia]|lia].
  - intros p. split; [by left|]. intros [|(va & Hu & Hr & Hp & _)]; [done|].
    by rewrite H in Hp.
Qed.

Lemma unmaps_trans m1 fl1 m2 fl2 m3 fl3 pgdir a c b :
  a <= c <= b ->
  unmaps m1 fl1 m2 fl2 pgdir a c -> unmaps m2 fl2 m3 fl3 pgdir c b ->
  unmaps m1 fl1 m3 fl3 pgdir a b.
Proof.
  intros Hc H1 H2.
  assert (El : forall va, paligned va -> c <= va ->
    lookup_pte m2 pgdir va = lookup_pte m1 pgdir va).
  { intros va Hva Hle. rewrite (um_lookup _ _ _ _ _ _ _ H1 va Hva).
    destruct (Z.ltb_spec va c); [lia|]. by rewrite andb_false_r. }
  assert (Ef : forall p, freed m2 pgdir c b p <-> freed m1 pgdir c b p).
  { intros p. split; intros (va & Hu & Hr & Hp & ->); exists va;
      pose proof (El va (ualigned_paligned va Hu) ltac:(lia)) as E; unfold frame in *;
      rewrite E in *; done. }
  assert (Ej : forall p, freed m1 pgdir a b p <-> freed m1 pgdir a c p \/ freed m1 pgdir c b p).
  { intros p. split.
    - intros (va & Hu & Hr & Hp & ->).
      destruct (Z.lt_ge_cases va c); [left|right]; exists va; split_and!; done || lia.
    - intros [(va & Hu & Hr & Hp & ->)|(va & Hu & Hr & Hp & ->)]; exists va; split_and!; done || lia. }
  split.
  - intros i Hi. by rewrite (um_pde _ _ _ _ _ _ _ H2 i Hi), (um_pde _ _ _ _ _ _ _ H1 i Hi).
  - intros va Hva. rewrite (um_lookup _ _ _ _ _ _ _ H2 va Hva).
    destruct (Z.leb_spec c va).
    + rewrite El by done. destruct (Z.leb_spec a va); [done|lia].
    + simpl. rewrite (um_lookup _ _ _ _ _ _ _ H1 va Hva).
      destruct (Z.ltb_spec va c), (Z.ltb_spec va b); try done; lia.
  - intros p. rewrite (um_free _ _ _ _ _ _ _ H2), (um_free _ _ _ _ _ _ _ H1), Ef, Ej. tauto.
  - eapply same_except_trans.
    + eapply same_except_mono; [|apply H1]. intros p. cbv beta. rewrite Ej. tauto.
    + eapply same_except_mono; [|apply H2].
      intros p. cbv beta. rewrite (unmaps_pt_page _ _ _ _ _ _ _ p H1), Ef, Ej. tauto.
Qed.

Lemma unmaps_uvm m fl m' fl' pgdir a b :
  uvm_inv m fl pgdir -> unmaps m fl m' fl' pgdir a b -> uvm_inv m' fl' pgdir.
Proof.
  intros [Hf Hi] Hu.
  assert (Hk : forall va, ualigned va -> present (lookup_pte m' pgdir va) = true ->
    lookup_pte m' pgdir va = lookup_pte m pgdir va /\ present (lookup_pte m pgdir va) = true /\
    ~ a <= va < b).
  { intros va Hva Hp. pose proof (um_lookup _ _ _ _ _ _ _ Hu va (ualigned_paligned va Hva)) as E.
    destruct ((a <=? va) && (va <? b) && present (lookup_pte m pgdir va)) eqn:Hc.
    - by rewrite E in Hp.
    - rewrite E in *. split_and!; [done|done|]. intros Hr. rewrite Hp, andb_true_r in Hc.
      apply andb_false_iff in Hc as [Hc|Hc]; b2p; lia. }
  split.
  - intros va Hva Hp. destruct (Hk va Hva Hp) as (E & Hp0 & Hout). unfold frame. rewrite E.
    fold (frame m pgdir va). destruct (Hf va Hva Hp0) as (Hok & Hn & Hpt). split_and!; [done| |].
    + rewrite (um_free _ _ _ _ _ _ _ Hu). intros [|(va2 & Hva2 & Hr2 & Hp2 & E2)]; [done|].
      apply Hout. by rewrite (Hi va va2).
    + by rewrite (unmaps_pt_page _ _ _ _ _ _ _ _ Hu).
  - intros va va' Hva Hva' Hp Hp'. destruct (Hk va Hva Hp) as (E & Hp0 & _).
    destruct (Hk va' Hva' Hp') as (E' & Hp0' & _). unfold frame. rewrite E, E'. by apply Hi.
Qed.

Lemma unmaps_pt m fl m' fl' pgdir a b :
  uvm_inv m fl pgdir -> pt_inv m fl pgdir -> unmaps m fl m' fl' pgdir a b -> pt_inv m' fl' pgdir.
Proof.
  intros [Hf _] Hpt Hu.
  assert (Hnot : forall p, pt_page m pgdir p -> p ∉ fl').
  { intros p Hp. rewrite (um_free _ _ _ _ _ _ _ Hu). intros [Hin|(va & Hva & _ & Hpr & ->)].
    - by destruct (pt_page_ok _ _ _ _ Hpt Hp).
    - by destruct (Hf va Hva Hpr) as (_ & _ & Hn). }
  split.
  - apply Hpt.
  - apply Hnot. by left.
  - intros i Hi. unfold tbl. rewrite (um_pde _ _ _ _ _ _ _ Hu i Hi). intros Hp.
    fold (tbl m pgdir i). destruct (pt_tbl_ok _ _ _ Hpt i Hi Hp) as (? & _ & ?).
    split_and!; [done| |done]. apply Hnot. right. eauto.
  - intros i j Hi Hj. unfold tbl.
    rewrite (um_pde _ _ _ _ _ _ _ Hu i Hi), (um_pde _ _ _ _ _ _ _ Hu j Hj). by apply Hpt.
Qed.

Lemma unmaps_ext m fl m' fl' pgdir a b a' b' :
  (forall va, paligned va -> a <= va < b <-> a' <= va < b') ->
  unmaps m fl m' fl' pgdir a b -> unmaps m fl m' fl' pgdir a' b'.
Proof.
  intros Hext [H1 H2 H3 H4].
  assert (Ef : forall p, freed m pgdir a b p <-> freed m pgdir a' b' p).
  { intros p. split; intros (va & Hu & Hr & Hp & ->); exists va;
      split_and!; try done; apply (Hext va (ualigned_paligned va Hu)); done. }
  split; [done| | |].
  - intros va Hva. rewrite H2 by done. specialize (Hext va Hva).
    destruct (Z.leb_spec a va), (Z.ltb_spec va b), (Z.leb_spec a' va), (Z.ltb_spec va b'); try done; lia.
  - intros p. by rewrite H3, Ef.
  - eapply same_except_mono; [|exact H4]. intros p. cbv beta. by rewrite Ef.
Qed.

Lemma as_inv_unmaps s fl s' fl' pgdir a b :
  as_inv s fl pgdir -> kinv s' fl' -> unmaps (mem s) fl (mem s') fl' pgdir a b ->
  as_inv s' fl' pgdir.
Proof.
  intros [[_ Hpt] Hu] Hk Hum. split; [split; [done|]|].
  - by eapply unmaps_pt.
  - by eapply unmaps_uvm.
Qed.

(** ** Freeing one user page *)
Lemma lookup_pte_slot m pgdir va :
  present (pde m pgdir (PDX va)) = true ->
  lookup_pte m pgdir va = load32 m (tbl m pgdir (PDX va) + 4 * PTX va).
Proof. unfold lookup_pte. by intros ->. Qed.

Lemma page_step va a : paligned va -> paligned a -> a <= va < a + 4096 -> va = a.
Proof.
  intros [H1 _] [H2 _]. apply Z.mod_divide in H1 as [k ->]; [|lia].
  apply Z.mod_divide in H2 as [k' ->]; lia.
Qed.

Lemma free_one s fl pgdir a :
  as_inv s fl pgdir -> ualigned a -> present (pde (mem s) pgdir (PDX a)) = true ->
  present (lookup_pte (mem s) pgdir a) = true ->
  wp (kfree (frame (mem s) pgdir a);;
      modify (set_mem (fun m => store32 m (tbl (mem s) pgdir (PDX a) + 4 * PTX a) 0));;
      ret a)
    (fun r s' => r = a /\ exists fl', as_inv s' fl' pgdir /\ use_lock s' = use_lock s /\
       unmaps (mem s) fl (mem s') fl' pgdir a (a + 4096)) s.
Proof.
  intros Has Ha Hpd Hp. destruct Has as [[Hk Hpt] Hu] eqn:E. clear E.
  pose proof (ualigned_paligned a Ha) as Hpa. set (v := frame (mem s) pgdir a).
  destruct (uvm_frame _ _ _ Hu a Ha Hp) as (Hv & Hvn & Hvt). fold v in Hv, Hvn, Hvt.
  apply wp_bind. eapply wp_mono; [by apply (kfree_wp s fl v)|].
  intros [] s1 (Hk1 & Hu1 & Hs1 & _).
  apply wp_bind, wp_set_mem. intros s2 Hm2 Hf2 Hu2 Hl2. apply wp_ret. split; [done|].
  exists (v :: fl).
  assert (Hnv : forall p, pt_page (mem s) pgdir p -> v <> p) by (by intros p Hpp <-).
  assert (Hpt1 : pt_inv (mem s1) fl pgdir).
  { apply (pt_inv_same _ (mem s) _ fl pgdir Hs1 Hpt). apply Hnv. by left. }
  assert (Epde : forall i, 0 <= i < 1024 -> pde (mem s1) pgdir i = pde (mem s) pgdir i).
  { intros i Hi. apply (pde_same _ _ _ _ _ Hs1); [apply Hpt|apply Hnv; by left|done]. }
  assert (Elk : forall va, 0 <= va < 4294967296 ->
    lookup_pte (mem s1) pgdir va = lookup_pte (mem s) pgdir va).
  { intros va Hva. by apply (lookup_pte_same _ _ _ fl _ _ Hs1). }
  pose proof (PDX_range a (proj2 Hpa)) as HD.
  assert (Et : tbl (mem s) pgdir (PDX a) = tbl (mem s1) pgdir (PDX a)) by (unfold tbl; by rewrite Epde).
  assert (Hpd1 : present (pde (mem s1) pgdir (PDX a)) = true) by (by rewrite Epde).
  rewrite Et in Hm2.
  pose proof (set_pte_same (mem s1) fl pgdir a 0 Hpt1 Hpa Hpd1) as Hs2. rewrite <- Hm2 in Hs2.
  assert (Hum : unmaps (mem s) fl (mem s2) (v :: fl) pgdir a (a + 4096)).
  { split.
    - intros i Hi. rewrite Hm2, (set_pte_pde _ fl) by done. by apply Epde.
    - intros va Hva. rewrite Hm2, (set_pte_lookup _ fl) by (done || lia). rewrite Elk by apply Hva.
      destruct (decide (va = a)) as [->|Hne].
      + rewrite Hp. destruct (Z.leb_spec a a), (Z.ltb_spec a (a + 4096)); try lia. done.
      + destruct (Z.leb_spec a va), (Z.ltb_spec va (a + 4096)); try done.
        destruct Hne. apply page_step; done || lia.
    - intros p. rewrite elem_of_cons. split.
      + intros [->|]; [right|by left]. exists a. split_and!; done || lia.
      + intros [|(va & Hva & Hr & _ & ->)]; [by right|left].
        by rewrite (page_step va a (ualigned_paligned va Hva) Hpa Hr).
    - eapply same_except_trans; [eapply same_except_mono; [|exact Hs1]|
        eapply same_except_mono; [|exact Hs2]].
      + intros p <-. right. exists a. split_and!; done || lia.
      + intros p <-. left. right. exists (PDX a). rewrite Et. by rewrite <- Epde. }
  assert (Hk2 : kinv s2 (v :: fl)).
  { apply (kinv_same s1 s2 _ _ Hk1 Hf2 Hl2 Hs2). intros q [->|Hq]%elem_of_cons.
    - rewrite <- Et. intros Eq. apply (Hnv (tbl (mem s) pgdir (PDX a))); [|done]. right.
      exists (PDX a). done.
    - intros <-. by destruct (set_pte_tbl_ok _ _ _ _ Hpt1 Hpa Hpd1) as (_ & Hn & _). }
  split_and!; [|congruence|done]. by eapply as_inv_unmaps.
Qed.

Context {LSOk : LinkSymsOk}.

Lemma frame_addr_nonzero m pgdir va : page_ok (frame m pgdir va) -> PTE_ADDR (lookup_pte m pgdir va) <> 0.
Proof.
  intros (_ & He & _) E. unfold frame in He. rewrite E in He. change (P2V 0) with 0x80000000 in He.
  pose proof sym_end_after_data. pose proof sym_data_after_text.
  unfold KERNLINK, KERNBASE, EXTMEM in *. lia.
Qed.

(** [deallocuvm] jumps over the rest of a missing page table. *)
Lemma skip_table a :
  0 <= a < KERNBASE ->
  let c := u32 (u32 (PGADDR (PDX a + 1) 0 0 - PGSIZE) + PGSIZE) in
  a < c <= KERNBASE /\ c mod 4096 = 0 /\
  forall va, a <= va < c -> 0 <= va < 4294967296 /\ PDX va = PDX a.
Proof.
  intros Ha c. unfold KERNBASE in *. pose proof (PDX_div a ltac:(lia)) as E.
  assert (Ec : c = 4194304 * (a / 4194304 + 1)).
  { unfold c. rewrite u32_add_l. rewrite PGADDR_add; unfold PGSIZE.
    - rewrite u32_small; [lia|]. pose proof (Z.div_lt_upper_bound a 4194304 512 ltac:(lia) ltac:(lia)).
      pose proof (Z.div_pos a 4194304 ltac:(lia) ltac:(lia)). lia.
    - pose proof (Z.div_lt_upper_bound a 4194304 512 ltac:(lia) ltac:(lia)).
      pose proof (Z.div_pos a 4194304 ltac:(lia) ltac:(lia)). lia.
    - lia.
    - lia. }
  pose proof (Z.div_mod a 4194304 ltac:(lia)). pose proof (Z.mod_pos_bound a 4194304 ltac:(lia)).
  pose proof (Z.div_lt_upper_bound a 4194304 512 ltac:(lia) ltac:(lia)).
  pose proof (Z.div_pos a 4194304 ltac:(lia) ltac:(lia)).
  split; [lia|]. split.
  - rewrite Ec. replace (4194304 * (a / 4194304 + 1)) with (1024 * (a / 4194304 + 1) * 4096) by lia.
    by apply Z.mod_mul.
  - intros va Hva. split; [lia|]. rewrite !PDX_div by lia.
    symmetry. apply (Z.div_unique _ _ _ (va - 4194304 * (a / 4194304))); lia.
Qed.

Lemma unmaps_skip m fl m' fl' pgdir a c b :
  a < b -> a <= c -> 0 <= a -> b <= KERNBASE ->
  (forall va, ualigned va -> a <= va < c -> present (lookup_pte m pgdir va) = false) ->
  unmaps m fl m' fl' pgdir c (Z.max c b) -> unmaps m fl m' fl' pgdir a b.
Proof.
  intros Hab Hac Ha Hb Hnone H. destruct (Z.le_gt_cases c b).
  - rewrite Z.max_r in H by lia. eapply unmaps_trans; [|by apply (unmaps_none _ _ _ a c); try lia|exact H]. lia.
  - rewrite Z.max_l in H by lia. eapply (unmaps_trans _ _ m fl _ _ _ a b b); [lia| |].
    + apply unmaps_none; [|lia|lia]. intros va Hva Hr. apply Hnone; [done|lia].
    + eapply unmaps_ext; [|exact H]. intros va _. lia.
Qed.

Lemma deallocuvm_loop_wp pgdir oldsz (Hold : oldsz <= KERNBASE) n : forall fuel s fl a,
  as_inv s fl pgdir -> (n < fuel)%nat -> a mod 4096 = 0 -> 0 <= a <= KERNBASE ->
  oldsz - a <= 4096 * Z.of_nat n ->
  wp (deallocuvm_loop fuel pgdir a oldsz) (fun _ s' => exists fl',
    as_inv s' fl' pgdir /\ use_lock s' = use_lock s /\
    unmaps (mem s) fl (mem s') fl' pgdir a (Z.max a oldsz)) s.
Proof.
  induction n as [|n IH]; intros fuel s fl a Has Hf Hal Hr Hn;
    (destruct fuel as [|fuel]; [lia|]); cbn [deallocuvm_loop];
    destruct (Z.ltb_spec a oldsz) as [Hlt|Hge]; try lia;
    try (apply wp_ret; exists fl; rewrite Z.max_l by lia; split_and!; [done|done|apply unmaps_refl]).
  assert (Hua : ualigned a) by (split; [done|lia]). unfold KERNBASE in *.
  assert (Har : 0 <= a < 4294967296) by lia.
  apply wp_bind. rewrite Z.max_r by lia.
  eapply wp_intro; [apply walkpgdir_false|]. cbv beta.
  destruct (present (pde (mem s) pgdir (PDX a))) eqn:Hpd.
  - pose proof (tbl_slot_nonzero _ _ _ a (vm_pt _ _ _ (as_vm _ _ _ Has)) Har Hpd) as Hnz.
    apply Z.eqb_neq in Hnz. rewrite Hnz.
    assert (Hnext : u32 (a + PGSIZE) = a + 4096) by (unfold PGSIZE; rewrite u32_small; lia).
    assert (Hal' : (a + 4096) mod 4096 = 0).
    { rewrite <- Hal. apply (Z_mod_plus_full a 1 4096). }
    assert (Hr' : a + 4096 <= KERNBASE).
    { apply Z.mod_divide in Hal as [k ->]; [|lia]. unfold KERNBASE. lia. }
    unfold KERNBASE in Hr'.
    apply wp_bind. apply wp_bind, wp_gets. rewrite <- (lookup_pte_slot _ _ _ Hpd).
    destruct (present (lookup_pte (mem s) pgdir a)) eqn:Hp.
    + destruct (uvm_frame _ _ _ (as_uvm _ _ _ Has) a Hua Hp) as (Hok & _).
      pose proof (frame_addr_nonzero _ _ _ Hok) as Hnz2. apply Z.eqb_neq in Hnz2. rewrite Hnz2.
      fold (frame (mem s) pgdir a).
      eapply wp_mono; [by apply (free_one s fl)|].
      intros r s1 (-> & fl1 & Has1 & Hu1 & Hum1). rewrite Hnext.
      eapply wp_mono; [apply (IH fuel s1 fl1 (a + 4096)); try done; lia|].
      intros [] s2 (fl2 & Has2 & Hu2 & Hum2). exists fl2. split_and!; [done|congruence|].
      destruct (Z.le_gt_cases (a + 4096) oldsz).
      * rewrite Z.max_r in Hum2 by lia. eapply unmaps_trans; [|exact Hum1|exact Hum2]. lia.
      * rewrite Z.max_l in Hum2 by lia.
        eapply unmaps_ext; [|eapply unmaps_trans; [|exact Hum1|exact Hum2]; lia].
        intros va Hva. split; intros; [|lia].
        pose proof (page_step va a Hva (conj Hal Har) ltac:(lia)). lia.
    + apply wp_ret. rewrite Hnext.
      eapply wp_mono; [apply (IH fuel s fl (a + 4096)); try done; lia|].
      intros [] s2 (fl2 & Has2 & Hu2 & Hum2). exists fl2. split_and!; [done|done|].
      apply (unmaps_skip _ _ _ _ _ _ (a + 4096)); unfold KERNBASE; try lia; [|done].
      intros va Hva Hvr. by rewrite (page_step va a (ualigned_paligned va Hva) (conj Hal Har)) by lia.
  - destruct (skip_table a ltac:(unfold KERNBASE; lia)) as (Hc1 & Hc2 & Hc3).
    change (0 =? 0) with true. cbv iota. apply wp_bind, wp_ret.
    set (c := u32 (u32 (PGADDR (PDX a + 1) 0 0 - PGSIZE) + PGSIZE)) in *. unfold KERNBASE in *.
    assert (a + 4096 <= c).
    { apply Z.mod_divide in Hal as [k ->]; [|lia]. apply Z.mod_divide in Hc2 as [k' Hk']; [|lia]. lia. }
    eapply wp_mono; [apply (IH fuel s fl c); try done; lia|].
    intros [] s2 (fl2 & Has2 & Hu2 & Hum2). exists fl2. split_and!; [done|done|].
    apply (unmaps_skip _ _ _ _ _ _ c); unfold KERNBASE; try lia; [|done].
    intros va Hva Hvr. destruct (Hc3 va Hvr) as [_ E]. unfold lookup_pte. by rewrite E, Hpd.
Qed.

Lemma deallocuvm_wp s fl pgdir oldsz newsz :
  as_inv s fl pgdir -> 0 <= newsz < oldsz -> oldsz <= KERNBASE ->
  wp (deallocuvm pgdir oldsz newsz) (fun r s' => r = newsz /\ exists fl',
    as_inv s' fl' pgdir /\ use_lock s' = use_lock s /\
    unmaps (mem s) fl (mem s') fl' pgdir (PGROUNDUP newsz) oldsz) s.
Proof.
  intros Has Hsz Hold. unfold deallocuvm.
  destruct (Z.geb_spec newsz oldsz); [lia|]. unfold KERNBASE in *.
  destruct (PGROUNDUP_spec newsz ltac:(lia)) as [Ha1 Ha2]. set (a := PGROUNDUP newsz) in *.
  assert (Hak : a <= 2147483648).
  { apply Z.mod_divide in Ha1 as [k Hk]; [|lia]. lia. }
  apply wp_bind. unfold PGSIZE.
  pose proof (Z.div_mod (oldsz - a + 4096) 4096 ltac:(lia)).
  pose proof (Z.mod_pos_bound (oldsz - a + 4096) 4096 ltac:(lia)).
  pose proof (Z.div_pos (oldsz - a + 4096) 4096 ltac:(lia) ltac:(lia)).
  eapply wp_mono.
  - apply (deallocuvm_loop_wp pgdir oldsz Hold (Z.to_nat ((oldsz - a + 4096) / 4096)));
      try done; unfold KERNBASE; lia.
  - intros [] s' (fl' & Has' & Hu' & Hum). apply wp_ret. split; [done|]. exists fl'.
    split_and!; [done|done|]. eapply unmaps_ext; [|exact Hum]. intros va _. lia.
Qed.

(** [deallocuvm] shrinks an address space: it never stops on a hole in the
    page table, it unmaps exactly the pages from the rounded-up new size to the
    old size, each of their frames goes to the free list exactly once, nothing
    else is touched, and the invariant of the address space is kept.  Growing is
    a no-op that returns the old size. *)
Theorem deallocuvm_correct s fl pgdir oldsz newsz :
  as_inv s fl pgdir -> 0 <= newsz -> oldsz <= KERNBASE ->
  wp (deallocuvm pgdir oldsz newsz) (fun r s' =>
    (oldsz <= newsz -> r = oldsz /\ s' = s) /\
    (newsz < oldsz -> r = newsz /\ exists fl',
       as_inv s' fl' pgdir /\ NoDup fl' /\
       unmaps (mem s) fl (mem s') fl' pgdir (PGROUNDUP newsz) oldsz)) s.
Proof.
  intros Has Hn Ho. destruct (Z.lt_ge_cases newsz oldsz).
  - eapply wp_mono; [apply (deallocuvm_wp s fl); done|]. intros r s' (-> & fl' & Has' & _ & Hum).
    split; [lia|]. intros _. split; [done|]. exists fl'. split_and!; [done| |done].
    apply (kinv_nodup _ _ (vm_kinv _ _ _ (as_vm _ _ _ Has'))).
  - unfold deallocuvm. destruct (Z.geb_spec newsz oldsz); [|lia]. apply wp_ret. split; [done|lia].
Qed.
End VmUser.

Lemma example_as : @as_inv example_syms example_kstate [0x80200000; 0x80201000] 0x80202000.
Proof.
  split; [exact example_vm|].
  split; intros va; [|intros va']; intros Hva; [|intros _]; apply ualigned_paligned in Hva as [_ Hva];
    rewrite example_lookup by done; done.
Qed.

(** A concrete address space with one user page: page 0, at the frame
    0x80204000, through the table at 0x80203000. *)
Definition example_user : kstate :=
  set_mem (fun m => store32 (store32 m 0x80202000 0x203007) 0x80203000 0x204007) example_kstate.

Lemma example_user_pde i : 0 <= i < 1024 ->
  pde (mem example_user) 0x80202000 i = if i =? 0 then 0x203007 else 0.
Proof.
  intros Hi. unfold pde, example_user, set_mem. cbn [mem]. rewrite load32_store32_ne by lia.
  destruct (Z.eqb_spec i 0) as [->|].
  - rewrite Z.mul_0_r, Z.add_0_r. by rewrite load32_store32_eq.
  - rewrite load32_store32_ne by lia. by apply example_pde.
Qed.

Lemma example_user_lookup va : paligned va ->
  lookup_pte (mem example_user) 0x80202000 va = if va =? 0 then 0x204007 else 0.
Proof.
  intros [Hal Hva]. pose proof (PDX_range va Hva) as Hd. pose proof (PTX_range va Hva) as Ht.
  pose proof (PDX_div va Hva) as Ed. pose proof (PTX_div va Hva) as Et.
  unfold lookup_pte, tbl. rewrite example_user_pde by done.
  apply Z.mod_divide in Hal as [k ->]; [|lia].
  destruct (Z.eqb_spec (PDX (k * 4096)) 0) as [E|E].
  - change (present 0x203007) with true. change (P2V (PTE_ADDR 0x203007)) with 0x80203000. cbv iota.
    unfold example_user, set_mem. cbn [mem]. destruct (Z.eqb_spec (k * 4096) 0) as [E0|E0].
    + rewrite E0. by rewrite load32_store32_eq.
    + assert (PTX (k * 4096) <> 0) by (rewrite Et, Z.div_mul by lia; rewrite Ed in E;
        pose proof (Z.div_mod (k * 4096) 4194304 ltac:(lia)); pose proof (Z.mod_pos_bound (k * 4096) 4194304 ltac:(lia));
        rewrite Z.mod_small; lia).
      unfold example_kstate; cbn [mem]; rewrite !load32_store32_ne by lia. apply load32_empty.
  - destruct (Z.eqb_spec (k * 4096) 0) as [E0|E0]; [|done]. by rewrite E0 in E.
Qed.

Lemma example_user_as : @as_inv example_syms example_user [0x80200000; 0x80201000] 0x80202000.
Proof.
  assert (Hnin : forall q, q ∈ [0x80200000; 0x80201000] -> q < 0x80202000).
  { intros q [->|[->|[]%elem_of_nil]%elem_of_cons]%elem_of_cons; lia. }
  assert (Hok : forall q, q = 0x80202000 \/ q = 0x80203000 \/ q = 0x80204000 -> @page_ok example_syms q).
  { intros q Hq. destruct Hq as [->|[->| ->]]; split_and!; simpl; unfold KERNBASE, PHYSTOP; done || lia. }
  assert (Htbl : forall i, 0 <= i < 1024 -> present (pde (mem example_user) 0x80202000 i) = true ->
    i = 0 /\ tbl (mem example_user) 0x80202000 i = 0x80203000).
  { intros i Hi. unfold tbl. rewrite example_user_pde by done. by destruct (Z.eqb_spec i 0) as [->|]. }
  assert (Hfr : forall va, ualigned va -> present (lookup_pte (mem example_user) 0x80202000 va) = true ->
    va = 0 /\ frame (mem example_user) 0x80202000 va = 0x80204000).
  { intros va Hva. unfold frame. rewrite example_user_lookup by (by apply ualigned_paligned).
    by destruct (Z.eqb_spec va 0) as [->|]. }
  split; [split; [|split]|split].
  - eapply (kinv_same _ _ _ (fun p => p = 0x80202000 \/ p = 0x80203000) example_kinv); [done|done| |].
    + eapply same_except_trans; [apply (same_except_store32 _ _ 0x80202000 0); (by left) || done || lia|].
      apply (same_except_store32 _ _ 0x80203000 0); (by right) || done || lia.
    + intros q Hq%Hnin. lia.
  - apply Hok. by left.
  - intros Hq%Hnin. lia.
  - intros i Hi Hp. destruct (Htbl i Hi Hp) as [_ ->]. split_and!; [apply Hok; tauto| |done].
    intros Hq%Hnin. lia.
  - intros i j Hi Hj Hp Hp' _. destruct (Htbl i Hi Hp), (Htbl j Hj Hp'). congruence.
  - intros va Hva Hp. destruct (Hfr va Hva Hp) as [_ ->]. split_and!; [apply Hok; tauto|intros Hq%Hnin; lia|].
    intros [E|(i & Hi & Hpi & E)]; [done|]. destruct (Htbl i Hi Hpi) as [_ Et]. by rewrite Et in E.
  - intros va va' Hva Hva' Hp Hp' _. destruct (Hfr va Hva Hp), (Hfr va' Hva' Hp'). congruence.
Qed.

Lemma deallocuvm_correct_witness :
  wp (@deallocuvm example_syms 0x80202000 0x1000 0)
     (fun r s' => r = 0 /\ lookup_pte (mem s') 0x80202000 0 = 0) example_user.
Proof.
  eapply wp_mono.
  - apply (@deallocuvm_correct example_syms example_syms_ok example_user _ 0x80202000 0x1000 0
      example_user_as); [lia|unfold KERNBASE; lia].
  - intros r s' [_ H]. destruct (H ltac:(lia)) as (-> & fl' & _ & _ & Hum). split; [done|].
    rewrite (um_lookup _ _ _ _ _ _ _ Hum 0) by (split; [done|lia]).
    by rewrite example_user_lookup by (split; [done|lia]).
Defined.
