(* ===== verification/VmGrow.v ===== *)
(** * Page tables (vm.c): allocuvm

    Growing an address space: on success the new pages are zeroed, private and
    writable by the user; on failure everything taken is given back. *)

From stdpp Require Import base numbers list gmap strings.
From Stdlib Require Import ZArith Lia.
From S2P Require Import Prelude Mmu Mem Kalloc Vm VmInv VmWalk VmUser.

Local Open Scope Z_scope.
Local Open Scope kernel_scope.

Definition PTE_WU : Z := Z.lor PTE_W PTE_U.

Lemma PTE_WU_range : 0 <= PTE_WU < 4096.
Proof. change PTE_WU with 6. lia. Qed.

(** The page [f] holds the given bytes. *)
Definition page_bytes (m : memory) (f : Z) (bytes : Z -> Z) : Prop :=
  forall i, 0 <= i < 4096 -> load8 m (f + i) = bytes i.

(** What a range of user pages is mapped with: permissions and contents by page. *)
Record contents := mkContents { cperm : Z -> Z; cbytes : Z -> Z -> Z }.
Definition zeroed : contents := mkContents (fun _ => PTE_WU) (fun _ _ => 0).

Section VmGrow.
Context {LS : LinkSyms}.

(** From [m] and [fl] to [m'] and [fl'], the pages in [a, b) were mapped, each
    to its own page taken from the free list, with the given contents. *)
Record maps_user (c : contents) (m : memory) (fl : list Z) (m' : memory) (fl' : list Z) (pgdir a b : Z) : Prop :=
  mkMapsUser {
  mu_out : forall va, paligned va -> ~ a <= va < b -> lookup_pte m' pgdir va = lookup_pte m pgdir va;
  mu_in : forall va, paligned va -> a <= va < b -> exists f, f ∈ fl /\
    lookup_pte m' pgdir va = Z.lor (Z.lor (V2P f) (cperm c va)) PTE_P /\
    page_bytes m' f (cbytes c va);
  mu_suffix : exists taken, fl = taken ++ fl';
  mu_pages : forall p, p ∈ fl \/ pt_page m pgdir p <->
    p ∈ fl' \/ pt_page m' pgdir p \/ freed m' pgdir a b p;
  mu_mem : same_except (fun p => p ∈ fl \/ pt_page m pgdir p) m m'
}.

Lemma maps_user_refl c m fl pgdir a : maps_user c m fl m fl pgdir a a.
Proof.
  split; [done|intros; lia|by exists []| |apply same_except_refl].
  intros p. split; [tauto|]. intros [|[|(va & _ & H & _)]]; [by left|by right|lia].
Qed.

(** A new entry: its frame, and that it is present. *)
Lemma new_entry pg perm :
  page_ok pg -> 0 <= perm < 4096 ->
  P2V (PTE_ADDR (Z.lor (Z.lor (V2P pg) perm) PTE_P)) = pg /\
  present (Z.lor (Z.lor (V2P pg) perm) PTE_P) = true.
Proof.
  intros Hpg Hperm. destruct (page_ok_V2P pg Hpg) as (Ha & Hr & E & _).
  split; [|apply present_lor_P]. rewrite <- Z.lor_assoc.
  destruct (entry_spec (V2P pg) (Z.lor perm PTE_P) Ha Hr) as (-> & _); [|done].
  apply lor_lt_4096; unfold PTE_P; lia.
Qed.

(** User mappings survive a change that keeps them and uses no new pages. *)
Lemma uvm_inv_ext m fl m' fl' pgdir :
  uvm_inv m fl pgdir ->
  (forall p, p ∈ fl' \/ pt_page m' pgdir p -> p ∈ fl \/ pt_page m pgdir p) ->
  (forall va, ualigned va -> lookup_pte m' pgdir va = lookup_pte m pgdir va) ->
  uvm_inv m' fl' pgdir.
Proof.
  intros [Hf Hi] Hc Hl. split.
  - intros va Hva. unfold frame. rewrite Hl by done. intros Hp. fold (frame m pgdir va).
    destruct (Hf va Hva Hp) as (Hok & Hn & Hpt). pose proof (Hc (frame m pgdir va)). tauto.
  - intros va va' Hva Hva'. unfold frame. rewrite !Hl by done. by apply Hi.
Qed.

(** The page [pg], taken off the free list and filled (from [m] to [m2]), was
    mapped at [a] (from [m2] to [m3]). *)
Record page_added (m : memory) (pg : Z) (fl : list Z) (m2 m3 : memory) (fl3 : list Z)
    (pgdir a perm : Z) : Prop := mkPageAdded {
  pa_pt : pt_inv m (pg :: fl) pgdir;
  pa_uvm : uvm_inv m (pg :: fl) pgdir;
  pa_ok : page_ok pg;
  pa_nodup : NoDup (pg :: fl);
  pa_fill : same_except (eq pg) m m2;
  pa_change : pt_change m2 fl m3 fl3 pgdir;
  pa_range : maps_range m2 m3 pgdir a 1 (V2P pg) perm;
  pa_addr : ualigned a;
  pa_perm : 0 <= perm < 4096;
  pa_absent : present (lookup_pte m pgdir a) = false
}.

Section AddPage.
  Context {m : memory} {pg : Z} {fl : list Z} {m2 m3 : memory} {fl3 : list Z} {pgdir a perm : Z}.
  Context (Hadd : page_added m pg fl m2 m3 fl3 pgdir a perm).

Lemma add_page_not_pt p : pt_page m pgdir p -> pg <> p.
Proof. intros Hp <-. destruct (pt_page_ok _ _ _ _ (pa_pt _ _ _ _ _ _ _ _ _ Hadd) Hp) as [_ Hn]. apply Hn. left. Qed.

Lemma add_page_lookup2 va : paligned va -> lookup_pte m2 pgdir va = lookup_pte m pgdir va.
Proof.
  intros [_ Hva]. apply (lookup_pte_same _ _ _ (pg :: fl) _ _ (pa_fill _ _ _ _ _ _ _ _ _ Hadd)); [apply Hadd|done|].
  apply add_page_not_pt.
Qed.

Lemma add_page_pt2 p : pt_page m2 pgdir p <-> pt_page m pgdir p.
Proof. apply (pt_page_same _ _ _ (pg :: fl) _ _ (pa_fill _ _ _ _ _ _ _ _ _ Hadd)); [apply Hadd|]. apply add_page_not_pt. by left. Qed.

Lemma add_page_lookup va : paligned va ->
  lookup_pte m3 pgdir va =
  if decide (va = a) then Z.lor (Z.lor (V2P pg) perm) PTE_P else lookup_pte m pgdir va.
Proof.
  intros Hva. rewrite (pa_range _ _ _ _ _ _ _ _ _ Hadd) by done. rewrite add_page_lookup2 by done.
  pose proof (ualigned_paligned a (pa_addr _ _ _ _ _ _ _ _ _ Hadd)) as Hpa.
  destruct (decide (va = a)) as [->|Hne].
  - rewrite Z.sub_diag, Z.add_0_r.
    destruct (Z.leb_spec a a), (Z.ltb_spec a (a + 4096 * 1)); try lia. done.
  - destruct (Z.leb_spec a va), (Z.ltb_spec va (a + 4096 * 1)); try done.
    destruct Hne. apply page_step; done || lia.
Qed.

Lemma add_page_frame : frame m3 pgdir a = pg /\ present (lookup_pte m3 pgdir a) = true.
Proof.
  unfold frame. rewrite add_page_lookup by apply ualigned_paligned, Hadd.
  destruct (decide (a = a)); [|done]. apply new_entry; apply Hadd.
Qed.

Lemma add_page_old va : ualigned va -> va <> a ->
  lookup_pte m3 pgdir va = lookup_pte m pgdir va.
Proof.
  intros Hva Hne. rewrite add_page_lookup by (by apply ualigned_paligned).
  by destruct (decide (va = a)).
Qed.

(** The pages that were free or in the table, before and after. *)
Lemma add_page_pages p :
  p ∈ pg :: fl \/ pt_page m pgdir p <-> p = pg \/ p ∈ fl3 \/ pt_page m3 pgdir p.
Proof.
  rewrite elem_of_cons, <- (ptc_pages _ _ _ _ _ (pa_change _ _ _ _ _ _ _ _ _ Hadd)), add_page_pt2. tauto.
Qed.

Lemma add_page_fresh : (pg ∉ fl3) /\ ~ pt_page m3 pgdir pg.
Proof.
  assert (H : ~ (pg ∈ fl3 \/ pt_page m3 pgdir pg)); [|tauto].
  rewrite <- (ptc_pages _ _ _ _ _ (pa_change _ _ _ _ _ _ _ _ _ Hadd)), add_page_pt2. intros [H|H].
  - by pose proof (pa_nodup _ _ _ _ _ _ _ _ _ Hadd) as [Hn _]%NoDup_cons.
  - by apply add_page_not_pt in H.
Qed.

Lemma add_page_uvm : uvm_inv m3 fl3 pgdir.
Proof.
  destruct add_page_frame as [Efr _]. destruct add_page_fresh as [Hn3 Hp3].
  assert (Hold : forall va, ualigned va -> va <> a -> present (lookup_pte m3 pgdir va) = true ->
    frame m3 pgdir va = frame m pgdir va /\ present (lookup_pte m pgdir va) = true).
  { intros va Hva Hne Hp. unfold frame. rewrite add_page_old in * by done. done. }
  assert (Hne_pg : forall va, ualigned va -> present (lookup_pte m pgdir va) = true ->
    frame m pgdir va <> pg).
  { intros va Hva Hp E. destruct (uvm_frame _ _ _ (pa_uvm _ _ _ _ _ _ _ _ _ Hadd) va Hva Hp) as (_ & Hn & _).
    apply Hn. rewrite E. left. }
  split.
  - intros va Hva Hp. destruct (decide (va = a)) as [->|Hne]; [rewrite Efr; split_and!; [apply Hadd|done|done]|].
    destruct (Hold va Hva Hne Hp) as [-> Hp0].
    destruct (uvm_frame _ _ _ (pa_uvm _ _ _ _ _ _ _ _ _ Hadd) va Hva Hp0) as (Hfo & Hfn & Hft).
    assert (Hno : ~ (frame m pgdir va ∈ fl3 \/ pt_page m3 pgdir (frame m pgdir va))).
    { rewrite <- (ptc_pages _ _ _ _ _ (pa_change _ _ _ _ _ _ _ _ _ Hadd)), add_page_pt2. rewrite elem_of_cons in Hfn. tauto. }
    split_and!; [done|tauto|tauto].
  - intros va va' Hva Hva' Hp Hp' E.
    destruct (decide (va = a)) as [->|Hne], (decide (va' = a)) as [->|Hne']; [done| | |].
    + destruct (Hold va' Hva' Hne' Hp') as [E' Hp0']. rewrite Efr, E' in E.
      by destruct (Hne_pg va' Hva' Hp0').
    + destruct (Hold va Hva Hne Hp) as [E' Hp0]. rewrite Efr, E' in E.
      by destruct (Hne_pg va Hva Hp0).
    + destruct (Hold va Hva Hne Hp) as [E1 Hp0]. destruct (Hold va' Hva' Hne' Hp') as [E2 Hp0'].
      apply (uvm_inj _ _ _ (pa_uvm _ _ _ _ _ _ _ _ _ Hadd)); try done. congruence.
Qed.

Lemma add_page_mem : same_except (fun p => p ∈ pg :: fl \/ pt_page m pgdir p) m m3.
Proof.
  eapply same_except_trans.
  - eapply same_except_mono; [|exact (pa_fill _ _ _ _ _ _ _ _ _ Hadd)]. intros p <-. left. left.
  - eapply same_except_mono; [|apply (pa_change _ _ _ _ _ _ _ _ _ Hadd)]. intros p. cbv beta. rewrite add_page_pt2, elem_of_cons. tauto.
Qed.

(** The contents of the new page are those it had before it was mapped. *)
Lemma add_page_bytes i : 0 <= i < 4096 -> load8 m3 (pg + i) = load8 m2 (pg + i).
Proof.
  intros Hi. apply (ptc_mem _ _ _ _ _ (pa_change _ _ _ _ _ _ _ _ _ Hadd)). pose proof (pa_ok _ _ _ _ _ _ _ _ _ Hadd) as [Hal _].
  rewrite (in_page pg) by lia. rewrite add_page_pt2.
  intros [H|H]; [|by apply add_page_not_pt in H]. by pose proof (pa_nodup _ _ _ _ _ _ _ _ _ Hadd) as [Hn _]%NoDup_cons.
Qed.
End AddPage.

Lemma maps_user_ext c m fl m' fl' pgdir a b b' :
  (forall va, paligned va -> a <= va < b <-> a <= va < b') ->
  maps_user c m fl m' fl' pgdir a b -> maps_user c m fl m' fl' pgdir a b'.
Proof.
  intros Hext [H1 H2 H3 H4 H5].
  assert (Ef : forall p, freed m' pgdir a b p <-> freed m' pgdir a b' p).
  { intros p. split; intros (va & Hu & Hr & Hp & ->); exists va;
      pose proof (Hext va (ualigned_paligned va Hu)); split_and!; done || lia. }
  split; [| |done| |done].
  - intros va Hva Hn. apply H1; [done|]. by rewrite (Hext va Hva).
  - intros va Hva Hr. apply H2; [done|]. by rewrite (Hext va Hva).
  - intros p. by rewrite H4, Ef.
Qed.

(** One more page. *)
Lemma maps_user_step c m0 fl0 m pg fl m2 m3 fl3 pgdir a0 a :
  Forall page_ok fl0 -> (forall va, 0 <= cperm c va < 4096) ->
  maps_user c m0 fl0 m (pg :: fl) pgdir a0 a -> page_added m pg fl m2 m3 fl3 pgdir a (cperm c a) ->
  0 <= a0 <= a -> page_bytes m2 pg (cbytes c a) -> maps_user c m0 fl0 m3 fl3 pgdir a0 (a + 4096).
Proof.
  intros Hok0 Hperm [Hout Hin [taken Htk] Hpg Hmem] Hadd Ha0 Hz.
  pose proof (pa_addr _ _ _ _ _ _ _ _ _ Hadd) as Ha. pose proof (pa_uvm _ _ _ _ _ _ _ _ _ Hadd) as Hu.
  assert (Hpg0 : pg ∈ fl0) by (rewrite Htk; apply elem_of_app; right; left).
  pose proof (proj1 (Forall_forall _ _) Hok0) as Hok0'. assert (Hok : page_ok pg) by auto.
  pose proof (ualigned_paligned a Ha) as Hpa.
  pose proof (add_page_lookup Hadd) as Hl.
  destruct (add_page_frame Hadd) as [Efr Hpr].
  pose proof (add_page_mem Hadd) as Hm3.
  assert (Hfr : forall p, freed m3 pgdir a0 (a + 4096) p <-> p = pg \/ freed m pgdir a0 a p).
  { intros p. split.
    - intros (va & Hva & Hvr & Hvp & ->). pose proof (ualigned_paligned va Hva) as Hvpa.
      destruct (decide (va = a)) as [->|Hne]; [by left|right]. exists va.
      assert (~ a <= va < a + 4096) by (intros E; apply Hne; by apply page_step).
      unfold frame in *. rewrite Hl in * by done. destruct (decide (va = a)); [done|].
      split_and!; done || lia.
    - intros [->|(va & Hva & Hvr & Hvp & ->)].
      + exists a. split_and!; done || lia.
      + exists va. unfold frame. rewrite !Hl by (by apply ualigned_paligned).
        destruct (decide (va = a)); [lia|]. split_and!; done || lia. }
  split.
  - intros va Hva Hn. rewrite Hl by done. destruct (decide (va = a)) as [->|]; [lia|].
    apply Hout; [done|lia].
  - intros va Hva Hvr. rewrite Hl by done. destruct (decide (va = a)) as [->|Hne].
    + exists pg. split_and!; [done|done|]. intros i Hi.
      rewrite (add_page_bytes Hadd) by done. by apply Hz.
    + assert (a0 <= va < a).
      { assert (~ a <= va < a + 4096) by (intros E; apply Hne; by apply page_step). lia. }
      destruct (Hin va Hva ltac:(lia)) as (f & Hf & El & Hzf). exists f. split_and!; [done|done|].
      intros i Hi. rewrite <- (Hzf i Hi). apply Hm3.
      assert (Hfok : page_ok f) by auto.
      assert (Hva' : ualigned va) by (destruct Ha; destruct Hva; split; [done|lia]).
      destruct (new_entry f _ Hfok (Hperm va)) as [Ef Hfp].
      destruct (uvm_frame _ _ _ Hu va Hva') as (_ & Hfn & Hft); [by rewrite El|].
      unfold frame in Hfn, Hft. rewrite El, Ef in Hfn, Hft.
      destruct Hfok as [Hfal _]. rewrite (in_page f) by (done || lia). tauto.
  - destruct (pa_change _ _ _ _ _ _ _ _ _ Hadd) as [[t2 ->] _ _ _]. exists (taken ++ pg :: t2). by rewrite Htk, <- app_assoc.
  - intros p. rewrite Hpg, Hfr.
    pose proof (add_page_pages Hadd p). tauto.
  - eapply same_except_trans; [exact Hmem|]. eapply same_except_mono; [|exact Hm3].
    intros p. cbv beta. rewrite Hpg. tauto.
Qed.

(** A page taken off the free list and filled, and [mappages] at [a]: it is
    mapped, or there was no page for a table and nothing is. *)
Definition map_filled_post (s : kstate) (pg : Z) (fl : list Z) (m2 : memory) (pgdir a perm r : Z)
    (s3 : kstate) : Prop :=
  exists fl3, as_inv s3 fl3 pgdir /\ use_lock s3 = use_lock s /\
  (r = 0 /\ page_added (mem s) pg fl m2 (mem s3) fl3 pgdir a perm \/
   r = -1 /\ fl3 = [] /\
   (forall va, paligned va -> lookup_pte (mem s3) pgdir va = lookup_pte (mem s) pgdir va) /\
   (forall p, p ∈ pg :: fl \/ pt_page (mem s) pgdir p <-> p = pg \/ pt_page (mem s3) pgdir p) /\
   ~ pt_page (mem s3) pgdir pg /\
   same_except (fun p => p ∈ pg :: fl \/ pt_page (mem s) pgdir p) (mem s) (mem s3)).

(** Filling a free page does not change a page table. *)
Lemma fill_page m pg fl m2 pgdir :
  pt_inv m (pg :: fl) pgdir -> same_except (eq pg) m m2 ->
  (~ pt_page m pgdir pg) /\
  (forall va, paligned va -> lookup_pte m2 pgdir va = lookup_pte m pgdir va) /\
  (forall p, pt_page m2 pgdir p <-> pt_page m pgdir p) /\ pt_inv m2 fl pgdir.
Proof.
  intros Hpt Hs2.
  assert (Hnp : forall p, pt_page m pgdir p -> pg <> p).
  { intros p Hp <-. destruct (pt_page_ok _ _ _ _ Hpt Hp) as [_ Hn]. apply Hn. left. }
  assert (Hd : pg <> pgdir) by (apply Hnp; by left). split_and!.
  - intros Hp. by apply (Hnp pg Hp).
  - intros va [_ Hva]. by apply (lookup_pte_same _ _ _ (pg :: fl) _ _ Hs2).
  - intros p. by apply (pt_page_same _ _ _ (pg :: fl) _ _ Hs2).
  - apply (pt_inv_weaken _ (pg :: fl)); [by right|]. by apply (pt_inv_same _ _ _ _ _ Hs2).
Qed.

Lemma map_filled_wp s pg fl s2 pgdir a perm :
  as_inv s (pg :: fl) pgdir -> kinv s2 fl -> use_lock s2 = use_lock s ->
  same_except (eq pg) (mem s) (mem s2) -> ualigned a -> 0 <= perm < 4096 ->
  present (lookup_pte (mem s) pgdir a) = false ->
  wp (mappages pgdir a PGSIZE (V2P pg) perm)
    (map_filled_post s pg fl (mem s2) pgdir a perm) s2.
Proof.
  intros [Hvm Hu] Hk2 Hul2 Hs2 Ha Hperm Habs. pose proof (vm_pt _ _ _ Hvm) as Hpt.
  pose proof (vm_kinv _ _ _ Hvm) as Hk. pose proof (kinv_nodup _ _ Hk) as Hnd.
  pose proof (kinv_ok _ _ Hk) as [Hok _]%Forall_cons.
  destruct (page_ok_V2P pg Hok) as (Hpa & Hpr & _ & Ev).
  destruct (fill_page _ _ _ _ _ Hpt Hs2) as (Hnp & Hl2 & Hpp2 & Hpt2).
  change PGSIZE with (u32 (4096 * 1)).
  eapply wp_mono; [apply (mappages_wp s2 fl pgdir a 1); [by split|done|lia|
    by apply ualigned_paligned| |split; [done|lia]| |]|].
  - destruct Ha. unfold KERNBASE in *. lia.
  - pose proof (page_ok_range pg Hok). unfold KERNBASE, PHYSTOP in *. lia.
  - intros j Hj. replace (a + 4096 * j) with a by lia. rewrite Hl2; [done|by apply ualigned_paligned].
  - intros r s3 (fl3 & n & Hvm3 & Hu3 & Hc & Hr & Hm & _).
    destruct Hr as [[-> ->]|(-> & Hn & ->)].
    + assert (Hadd : page_added (mem s) pg fl (mem s2) (mem s3) fl3 pgdir a perm) by done.
      exists fl3. split_and!; [split; [done|apply (add_page_uvm Hadd)]|congruence|by left].
    + assert (n = 0) as -> by lia. exists [].
      assert (Hl3 : forall va, paligned va ->
        lookup_pte (mem s3) pgdir va = lookup_pte (mem s) pgdir va).
      { intros va Hva. rewrite Hm, Hl2 by done.
        destruct (Z.leb_spec a va), (Z.ltb_spec va (a + 4096 * 0)); try done. lia. }
      assert (Hpp : forall p, p ∈ pg :: fl \/ pt_page (mem s) pgdir p <->
        p = pg \/ pt_page (mem s3) pgdir p).
      { intros p. pose proof (ptc_pages _ _ _ _ _ Hc p) as E. rewrite Hpp2, elem_of_nil in E.
        rewrite elem_of_cons. tauto. }
      split_and!; [split; [done|]|congruence|right; split_and!; try done].
      * apply (uvm_inv_ext _ _ _ _ _ Hu).
        -- intros p. rewrite Hpp, elem_of_nil. tauto.
        -- intros va Hva. by apply Hl3, ualigned_paligned.
      * intros Hp. apply NoDup_cons in Hnd as [Hnin _].
        pose proof (ptc_pages _ _ _ _ _ Hc pg) as E. rewrite Hpp2 in E. tauto.
      * eapply same_except_trans; [eapply same_except_mono; [|exact Hs2]; intros p <-; left; left|].
        eapply same_except_mono; [|apply Hc]. intros p. cbv beta. rewrite Hpp2, elem_of_cons. tauto.
Qed.

Context {LSOk : LinkSymsOk}.

(** Undoing a partial allocation.  [held] are pages taken off the free list but
    not (yet) mapped. *)
Definition alloc_undone (s0 : kstate) (fl0 : list Z) (pgdir a0 newsz : Z) (held : Z -> Prop)
    (s' : kstate) (fl' : list Z) : Prop :=
  as_inv s' fl' pgdir /\ use_lock s' = use_lock s0 /\
  (forall va, paligned va -> ~ a0 <= va < newsz ->
     lookup_pte (mem s') pgdir va = lookup_pte (mem s0) pgdir va) /\
  (forall va, ualigned va -> a0 <= va < newsz -> present (lookup_pte (mem s') pgdir va) = false) /\
  (forall p, p ∈ fl0 \/ pt_page (mem s0) pgdir p <->
     held p \/ p ∈ fl' \/ pt_page (mem s') pgdir p) /\
  same_except (fun p => p ∈ fl0 \/ pt_page (mem s0) pgdir p) (mem s0) (mem s').

(** Freeing a page that the address space does not use. *)
Lemma kfree_unused_wp s fl pgdir pg :
  as_inv s fl pgdir -> page_ok pg -> pg ∉ fl -> ~ pt_page (mem s) pgdir pg ->
  ~ user_page (mem s) pgdir pg ->
  wp (kfree pg) (fun _ s' => as_inv s' (pg :: fl) pgdir /\ use_lock s' = use_lock s /\
    same_except (eq pg) (mem s) (mem s') /\
    (forall va, paligned va -> lookup_pte (mem s') pgdir va = lookup_pte (mem s) pgdir va) /\
    (forall p, pt_page (mem s') pgdir p <-> pt_page (mem s) pgdir p)) s.
Proof.
  intros [[Hk Hpt] Hu] Hok Hnin Hnpt Hnu.
  eapply wp_mono; [by apply (kfree_wp s fl)|]. intros _ s' (Hk' & Hul & Hs & _).
  assert (Hnp : forall p, pt_page (mem s) pgdir p -> pg <> p) by (by intros p Hp <-).
  assert (Hd : pg <> pgdir) by (apply Hnp; by left).
  assert (Hl : forall va, paligned va -> lookup_pte (mem s') pgdir va = lookup_pte (mem s) pgdir va).
  { intros va [_ Hva]. by apply (lookup_pte_same _ _ _ _ _ _ Hs Hpt). }
  assert (Hpp : forall p, pt_page (mem s') pgdir p <-> pt_page (mem s) pgdir p).
  { intros p. by apply (pt_page_same _ _ _ _ _ _ Hs Hpt). }
  assert (Hpt' : pt_inv (mem s') (pg :: fl) pgdir).
  { apply (pt_inv_same _ _ _ _ _ Hs); [|done]. destruct Hpt as [H1 H2 H3 H4].
    split; [done|apply not_elem_of_cons; done| |done]. intros i Hi Hp. destruct (H3 i Hi Hp) as (? & ? & ?).
    split_and!; [done| |done]. apply not_elem_of_cons. split; [|done]. intros E. apply Hnpt. right. eauto. }
  split_and!; [split; [by split|]|done|done|done|done]. destruct Hu as [Hf Hi]. split.
  - intros va Hva. unfold frame. rewrite Hl by (by apply ualigned_paligned). intros Hp.
    destruct (Hf va Hva Hp) as (? & ? & ?). split_and!; [done| |by rewrite Hpp].
    apply not_elem_of_cons. split; [|done]. intros E. apply Hnu. exists va. done.
  - intros va va' Hva Hva'. unfold frame. rewrite !Hl by (by apply ualigned_paligned). by apply Hi.
Qed.

Lemma alloc_undo_wp s0 fl0 s fl pgdir a newsz oldsz (held : Z -> Prop) :
  0 <= oldsz < newsz -> newsz < KERNBASE -> as_inv s fl pgdir -> use_lock s = use_lock s0 ->
  PGROUNDUP oldsz <= a < newsz ->
  (forall va, paligned va -> ~ PGROUNDUP oldsz <= va < a ->
     lookup_pte (mem s) pgdir va = lookup_pte (mem s0) pgdir va) ->
  (forall va, ualigned va -> PGROUNDUP oldsz <= va < newsz ->
     present (lookup_pte (mem s0) pgdir va) = false) ->
  (forall p, p ∈ fl0 \/ pt_page (mem s0) pgdir p <->
     held p \/ p ∈ fl \/ pt_page (mem s) pgdir p \/ freed (mem s) pgdir (PGROUNDUP oldsz) a p) ->
  same_except (fun p => p ∈ fl0 \/ pt_page (mem s0) pgdir p) (mem s0) (mem s) ->
  wp (deallocuvm pgdir newsz oldsz) (fun _ s' => exists fl',
    alloc_undone s0 fl0 pgdir (PGROUNDUP oldsz) newsz held s' fl' /\
    unmaps (mem s) fl (mem s') fl' pgdir (PGROUNDUP oldsz) newsz) s.
Proof.
  intros Hsz Hnew Has Hul Ha Hout Hnone Hpages Hmem. set (a0 := PGROUNDUP oldsz) in *.
  eapply wp_mono; [apply (deallocuvm_wp s fl); [done|lia|lia]|].
  intros r s' (_ & fl' & Has' & Hu' & Hum). fold a0 in Hum. exists fl'.
  assert (Hfr : forall p, freed (mem s) pgdir a0 newsz p <-> freed (mem s) pgdir a0 a p).
  { intros p. split; intros (va & Hva & Hr & Hp & ->); exists va; split_and!; try done; try lia.
    destruct (Z.lt_ge_cases va a); [done|]. exfalso.
    rewrite Hout, Hnone in Hp; [done|done|lia|by apply ualigned_paligned|lia]. }
  split; [|done]. split_and!; [done|congruence| | | |].
  - intros va Hva Hn. rewrite (um_lookup _ _ _ _ _ _ _ Hum) by done.
    destruct (Z.leb_spec a0 va), (Z.ltb_spec va newsz); simpl; try lia; apply Hout; done || lia.
  - intros va Hva Hr. rewrite (um_lookup _ _ _ _ _ _ _ Hum) by (by apply ualigned_paligned).
    destruct (Z.leb_spec a0 va), (Z.ltb_spec va newsz); try lia. simpl.
    by destruct (present (lookup_pte (mem s) pgdir va)) eqn:E.
  - intros p. rewrite Hpages, (um_free _ _ _ _ _ _ _ Hum), (unmaps_pt_page _ _ _ _ _ _ _ _ Hum), Hfr.
    tauto.
  - eapply same_except_trans; [exact Hmem|]. eapply same_except_mono; [|apply Hum].
    intros p. cbv beta. rewrite Hfr, Hpages. tauto.
Qed.

Lemma unmaps_user_page m fl m' fl' pgdir a b p :
  unmaps m fl m' fl' pgdir a b -> user_page m' pgdir p -> user_page m pgdir p.
Proof.
  intros Hum (va & Hva & Hp & ->). exists va. unfold frame.
  rewrite (um_lookup _ _ _ _ _ _ _ Hum va (ualigned_paligned va Hva)) in *.
  by destruct (_ && _).
Qed.

(** ** The loop of allocuvm *)
Definition alloc_done (s0 : kstate) (fl0 : list Z) (pgdir a0 newsz r : Z) (s' : kstate) : Prop :=
  (r = newsz /\ exists fl', as_inv s' fl' pgdir /\ use_lock s' = use_lock s0 /\
     maps_user zeroed (mem s0) fl0 (mem s') fl' pgdir a0 newsz) \/
  (r = 0 /\ exists fl', alloc_undone s0 fl0 pgdir a0 newsz (fun _ => False) s' fl').

(** The failure of [mappages] inside the loop. *)
Lemma alloc_map_failed s0 fl0 s pg fl pgdir oldsz newsz a s3 :
  0 <= oldsz < newsz -> newsz < KERNBASE -> PGROUNDUP oldsz <= a < newsz ->
  (forall va, ualigned va -> PGROUNDUP oldsz <= va < newsz ->
     present (lookup_pte (mem s0) pgdir va) = false) ->
  as_inv s (pg :: fl) pgdir -> maps_user zeroed (mem s0) fl0 (mem s) (pg :: fl) pgdir (PGROUNDUP oldsz) a ->
  as_inv s3 [] pgdir -> use_lock s3 = use_lock s0 ->
  (forall va, paligned va -> lookup_pte (mem s3) pgdir va = lookup_pte (mem s) pgdir va) ->
  (forall p, p ∈ pg :: fl \/ pt_page (mem s) pgdir p <-> p = pg \/ pt_page (mem s3) pgdir p) ->
  ~ pt_page (mem s3) pgdir pg ->
  same_except (fun p => p ∈ pg :: fl \/ pt_page (mem s) pgdir p) (mem s) (mem s3) ->
  wp (deallocuvm pgdir newsz oldsz) (fun _ => wp (kfree pg;; ret 0)
    (alloc_done s0 fl0 pgdir (PGROUNDUP oldsz) newsz)) s3.
Proof.
  intros Hsz Hnew Ha Hnone Has Hmu Has3 Hul Hl3 Hp3 Hn3 Hm3. set (a0 := PGROUNDUP oldsz) in *.
  assert (Hok : page_ok pg) by (by pose proof (kinv_ok _ _ (vm_kinv _ _ _ (as_vm _ _ _ Has))) as [? _]%Forall_cons).
  assert (Hnu : ~ user_page (mem s3) pgdir pg).
  { intros (va & Hva & Hp & E). unfold frame in E. rewrite Hl3 in * by (by apply ualigned_paligned).
    destruct (uvm_frame _ _ _ (as_uvm _ _ _ Has) va Hva Hp) as (_ & Hn & _). apply Hn.
    unfold frame. rewrite <- E. left. }
  assert (Hfr : forall b p, freed (mem s3) pgdir a0 b p <-> freed (mem s) pgdir a0 b p).
  { intros b p. split; intros (va & Hva & Hr & Hp & ->); exists va; unfold frame in *;
      rewrite Hl3 in * by (by apply ualigned_paligned); done. }
  eapply wp_mono; [apply (alloc_undo_wp s0 fl0 s3 [] pgdir a newsz oldsz (eq pg)); try done|].
  - intros va Hva Hn. rewrite Hl3 by done. by apply Hmu.
  - intros p. fold a0. rewrite (mu_pages _ _ _ _ _ _ _ _ Hmu), Hfr, elem_of_nil.
    pose proof (Hp3 p). assert (p = pg <-> pg = p) by (split; congruence). tauto.
  - eapply same_except_trans; [apply Hmu|]. eapply same_except_mono; [|exact Hm3].
    intros p. cbv beta. rewrite (mu_pages _ _ _ _ _ _ _ _ Hmu). tauto.
  - intros _ s4 (fl4 & (Has4 & Hu4 & Hout4 & Hin4 & Hp4 & Hm4) & Hum). fold a0 in Hout4, Hin4, Hum.
    assert (Hpt4 : ~ pt_page (mem s4) pgdir pg) by (by rewrite (unmaps_pt_page _ _ _ _ _ _ _ _ Hum)).
    assert (Hu4' : ~ user_page (mem s4) pgdir pg) by (intros E; by apply (unmaps_user_page _ _ _ _ _ _ _ _ Hum) in E).
    assert (Hn4 : pg ∉ fl4).
    { rewrite (um_free _ _ _ _ _ _ _ Hum), elem_of_nil. intros [[]|(va & Hva & _ & Hp & E)].
      apply Hnu. by exists va. }
    apply wp_bind. eapply wp_mono; [by apply (kfree_unused_wp s4 fl4 pgdir)|].
    intros _ s5 (Has5 & Hu5 & Hm5 & Hl5 & Hp5). apply wp_ret. right. split; [done|]. exists (pg :: fl4).
    split_and!; [done|congruence| | | |].
    + intros va Hva Hn. by rewrite Hl5, Hout4.
    + intros va Hva Hr. rewrite Hl5 by (by apply ualigned_paligned). by apply Hin4.
    + intros p. rewrite Hp4, Hp5, elem_of_cons. assert (p = pg <-> pg = p) by (split; congruence). tauto.
    + eapply same_except_trans; [exact Hm4|]. eapply same_except_mono; [|exact Hm5].
      intros p <-. rewrite Hp4. by left.
Qed.

Lemma allocuvm_loop_wp s0 fl0 pgdir oldsz newsz
  (Hok0 : Forall page_ok fl0) (Hsz : 0 <= oldsz <= newsz) (Hnew : newsz < KERNBASE)
  (Hnone : forall va, ualigned va -> PGROUNDUP oldsz <= va < newsz ->
     present (lookup_pte (mem s0) pgdir va) = false) n :
  forall fuel s fl a,
  as_inv s fl pgdir -> use_lock s = use_lock s0 ->
  maps_user zeroed (mem s0) fl0 (mem s) fl pgdir (PGROUNDUP oldsz) a ->
  (n < fuel)%nat -> a mod 4096 = 0 -> PGROUNDUP oldsz <= a < newsz + 4096 ->
  newsz - a <= 4096 * Z.of_nat n ->
  wp (allocuvm_loop fuel pgdir a oldsz newsz) (alloc_done s0 fl0 pgdir (PGROUNDUP oldsz) newsz) s.
Proof.
  unfold KERNBASE in *. destruct (PGROUNDUP_spec oldsz ltac:(lia)) as [Ha0 Ha1].
  set (a0 := PGROUNDUP oldsz) in *.
  induction n as [|n IH]; intros fuel s fl a Has Hul Hmu Hf Hal Hr Hn;
    (destruct fuel as [|fuel]; [lia|]); cbn [allocuvm_loop];
    destruct (Z.ltb_spec a newsz) as [Hlt|Hge]; try lia;
    try (apply wp_ret; left; split; [done|]; exists fl; split_and!; [done|done|];
         eapply maps_user_ext; [|exact Hmu]; intros va [Hva _]; split; [|lia]; intros;
         apply Z.mod_divide in Hva as [k ->]; [|lia]; apply Z.mod_divide in Hal as [k' ->]; lia).
  assert (Hua : ualigned a) by (split; [done|unfold KERNBASE; lia]).
  assert (Habs : present (lookup_pte (mem s) pgdir a) = false).
  { rewrite (mu_out _ _ _ _ _ _ _ _ Hmu); [apply Hnone; done || lia|by apply ualigned_paligned|lia]. }
  apply wp_bind. eapply wp_mono; [by apply kalloc_wp; apply Has|]. intros pg s1.
  destruct fl as [|pg' fl1].
  { intros [-> ->]. change (0 =? 0) with true. cbv iota. apply wp_bind.
    eapply wp_mono; [apply (alloc_undo_wp s0 fl0 s [] pgdir a newsz oldsz (fun _ => False));
      unfold KERNBASE; try done; try lia; try apply Hmu|].
    - intros p. rewrite (mu_pages _ _ _ _ _ _ _ _ Hmu). tauto.
    - intros r s' (fl' & Hun & _). apply wp_ret. right. eauto. }
  intros (-> & Hk1 & Hm1 & Hu1). pose proof (vm_kinv _ _ _ (as_vm _ _ _ Has)) as Hk.
  pose proof (kinv_ok _ _ Hk) as [Hok _]%Forall_cons. pose proof (kinv_nodup _ _ Hk) as [Hnin _]%NoDup_cons.
  destruct (Z.eqb_spec pg' 0) as [E|_]; [by apply page_ok_nonzero in E|].
  apply wp_bind, wp_set_mem. intros s2 Em Ef Eu El.
  assert (Hs2 : same_except (eq pg') (mem s1) (mem s2)).
  { rewrite Em. apply same_except_memset; [apply Hok|done]. }
  assert (Hz : page_bytes (mem s2) pg' (fun _ => 0)).
  { intros i Hi. rewrite Em. rewrite load8_memset by (unfold PGSIZE; lia).
    destruct (Z.leb_spec pg' (pg' + i)), (Z.ltb_spec (pg' + i) (pg' + PGSIZE)); unfold PGSIZE in *; try lia. done. }
  apply wp_bind. eapply wp_mono; [apply (map_filled_wp s pg' fl1 s2); try done;
    [eapply kinv_same; eauto; by intros q Hq <-|congruence|by rewrite <- Hm1]|].
  intros r s3 (fl3 & Has3 & Hu3 & [[-> Hadd]|(-> & -> & Hl3 & Hp3 & Hn3 & Hm3)]).
  - change (0 <? 0) with false. cbv iota. rewrite u32_small by (unfold PGSIZE; lia).
    apply (IH fuel s3 fl3); [done|congruence| |lia| |unfold PGSIZE; lia|unfold PGSIZE; lia].
    + eapply maps_user_step; eauto; [intros ?; apply PTE_WU_range|lia].
    + unfold PGSIZE. rewrite <- Z.add_mod_idemp_l, Hal by lia. done.
  - change (-1 <? 0) with true. cbv iota. apply wp_bind.
    eapply alloc_map_failed; eauto; unfold KERNBASE; lia.
Qed.

Lemma allocuvm_wp s fl pgdir oldsz newsz :
  as_inv s fl pgdir -> 0 <= oldsz <= newsz -> newsz < KERNBASE ->
  (forall va, ualigned va -> PGROUNDUP oldsz <= va < newsz ->
     present (lookup_pte (mem s) pgdir va) = false) ->
  wp (allocuvm pgdir oldsz newsz) (alloc_done s fl pgdir (PGROUNDUP oldsz) newsz) s.
Proof.
  intros Has Hsz Hnew Hnone. unfold allocuvm, KERNBASE in *.
  destruct (PGROUNDUP_spec oldsz ltac:(lia)) as [Ha0 Ha1].
  destruct (Z.geb_spec newsz 2147483648), (Z.ltb_spec newsz oldsz); try lia.
  set (a0 := PGROUNDUP oldsz) in *. set (n := Z.to_nat ((newsz - a0 + PGSIZE) / PGSIZE)).
  assert (Hq : 0 <= newsz - a0 + PGSIZE) by (unfold PGSIZE; lia).
  pose proof (Z.div_mod (newsz - a0 + PGSIZE) PGSIZE ltac:(done)) as Hdm.
  pose proof (Z.mod_pos_bound (newsz - a0 + PGSIZE) PGSIZE ltac:(done)) as Hmb.
  assert (Hn : Z.of_nat n = (newsz - a0 + PGSIZE) / PGSIZE).
  { unfold n. rewrite Z2Nat.id; [done|]. apply Z.div_pos; [done|unfold PGSIZE; lia]. }
  unfold PGSIZE in *.
  eapply (allocuvm_loop_wp s fl pgdir oldsz newsz) with (n := n) (fl := fl); unfold KERNBASE; try done; try lia.
  - apply (kinv_ok _ _ (vm_kinv _ _ _ (as_vm _ _ _ Has))).
  - apply maps_user_refl.
Qed.

End VmGrow.

