(* ===== verification/VmFree.v ===== *)
(** * Page tables (vm.c): freevm and setupkvm

    Freeing a whole address space gives back every page of its page table and
    every user page; building one maps exactly the kernel's regions. *)

From stdpp Require Import base numbers list gmap strings.
From Stdlib Require Import ZArith Lia.
From S2P Require Import Prelude Mmu Mem Kalloc Vm VmInv VmWalk VmUser.

Local Open Scope Z_scope.
Local Open Scope kernel_scope.

(** The tables of directory entries [i .. i+n). *)
Definition tables (m : memory) (pgdir i n p : Z) : Prop :=
  exists j, i <= j < i + n /\ present (pde m pgdir j) = true /\ p = tbl m pgdir j.

Section VmFree.
Context {LS : LinkSyms}.

Lemma freevm_loop_wp pgdir n : forall s fl i,
  0 <= i -> i + Z.of_nat n <= 1024 -> kinv s fl -> pt_inv (mem s) [] pgdir -> pgdir ∉ fl ->
  (forall p, tables (mem s) pgdir i (Z.of_nat n) p -> p ∉ fl) ->
  wp (freevm_loop n pgdir i) (fun _ s' => exists fl',
    kinv s' fl' /\ use_lock s' = use_lock s /\
    (forall p, p ∈ fl' <-> p ∈ fl \/ tables (mem s) pgdir i (Z.of_nat n) p) /\
    same_except (tables (mem s) pgdir i (Z.of_nat n)) (mem s) (mem s')) s.
Proof.
  induction n as [|n IH]; intros s fl i Hi Hn Hk Hpt Hd Hnin; cbn [freevm_loop].
  { apply wp_ret. exists fl. split_and!; [done|done| |apply same_except_refl].
    intros p. split; [by left|]. intros [|(j & Hj & _)]; [done|lia]. }
  apply wp_bind, wp_gets. fold (pde (mem s) pgdir i). fold (tbl (mem s) pgdir i).
  assert (Hstep : forall p, tables (mem s) pgdir i (Z.of_nat (S n)) p <->
    (present (pde (mem s) pgdir i) = true /\ p = tbl (mem s) pgdir i) \/
    tables (mem s) pgdir (i + 1) (Z.of_nat n) p).
  { intros p. split.
    - intros (j & Hj & Hp & ->). destruct (decide (j = i)) as [->|]; [by left|right].
      exists j. split_and!; done || lia.
    - intros [[Hp ->]|(j & Hj & Hp & ->)]; [exists i|exists j]; split_and!; done || lia. }
  apply wp_bind. destruct (present (pde (mem s) pgdir i)) eqn:Hp.
  - destruct (pt_tbl_ok _ _ _ Hpt i ltac:(lia) Hp) as (Hok & _ & Hne).
    eapply wp_mono; [apply (kfree_wp s fl); [done|done|]|].
    { apply Hnin, Hstep. by left. }
    intros _ s1 (Hk1 & Hu1 & Hs1 & _).
    assert (Ep : forall j, 0 <= j < 1024 -> pde (mem s1) pgdir j = pde (mem s) pgdir j).
    { intros j Hj. by eapply pde_same; [exact Hs1|apply Hpt| |]. }
    assert (Et : forall p, tables (mem s1) pgdir (i + 1) (Z.of_nat n) p <->
      tables (mem s) pgdir (i + 1) (Z.of_nat n) p).
    { intros p. unfold tables, tbl.
      split; intros (j & Hj & H); exists j; rewrite Ep in * by lia; done. }
    eapply wp_mono; [apply (IH s1 (tbl (mem s) pgdir i :: fl)); [lia|lia|done| | |]|].
    + by apply (pt_inv_same _ _ _ _ _ Hs1).
    + by apply not_elem_of_cons.
    + intros p. rewrite Et. intros Ht. apply not_elem_of_cons. split; [|apply Hnin, Hstep; by right].
      destruct Ht as (j & Hj & Hpj & ->). intros E. apply (pt_tbl_inj _ _ _ Hpt) in E; done || lia.
    + intros _ s2 (fl2 & Hk2 & Hu2 & Hf2 & Hs2). exists fl2. split_and!; [done|congruence| |].
      * intros p. rewrite Hf2, Hstep, Et, elem_of_cons. tauto.
      * eapply same_except_trans; (eapply same_except_mono; [|eassumption]); intros p; cbv beta;
          rewrite Hstep, ?Et; [intros <-; by left; split|tauto].
  - apply wp_ret. eapply wp_mono; [apply (IH s fl); [lia|lia|done|done|done|]|].
    + intros p Ht. apply Hnin, Hstep. by right.
    + intros _ s2 (fl2 & Hk2 & Hu2 & Hf2 & Hs2). exists fl2. split_and!; [done|done| |].
      * intros p. rewrite Hf2, Hstep. split; [tauto|]. intros [?|[[? _]|?]]; [tauto|done|tauto].
      * eapply same_except_mono; [|exact Hs2]. intros p. rewrite Hstep. tauto.
Qed.

Context {LSOk : LinkSymsOk}.

(** Every page of an address space goes back to the free list, once. *)
Lemma freevm_wp s fl pgdir :
  as_inv s fl pgdir ->
  wp (freevm pgdir) (fun _ s' => exists fl', kinv s' fl' /\ use_lock s' = use_lock s /\
    (forall p, p ∈ fl' <-> p ∈ fl \/ pt_page (mem s) pgdir p \/ user_page (mem s) pgdir p) /\
    same_except (fun p => pt_page (mem s) pgdir p \/ user_page (mem s) pgdir p) (mem s) (mem s')) s.
Proof.
  intros Has. pose proof (vm_pt _ _ _ (as_vm _ _ _ Has)) as Hpt. unfold freevm.
  destruct (Z.eqb_spec pgdir 0) as [E|_]; [by apply page_ok_nonzero in E; [|apply Hpt]|].
  apply wp_bind. eapply wp_mono; [apply (deallocuvm_wp s fl); [done|unfold KERNBASE; lia|lia]|].
  intros _ s1 (_ & fl1 & Has1 & Hu1 & Hum). change (PGROUNDUP 0) with 0 in Hum.
  assert (Hfr : forall p, freed (mem s) pgdir 0 KERNBASE p <-> user_page (mem s) pgdir p).
  { intros p. split; intros (va & Hva & H); exists va; [|pose proof Hva as [_ ?]]; tauto. }
  pose proof (vm_pt _ _ _ (as_vm _ _ _ Has1)) as Hpt1.
  assert (Htab : forall p, pt_page (mem s1) pgdir p <-> p = pgdir \/ tables (mem s1) pgdir 0 (Z.of_nat 1024) p) by done.
  apply wp_bind. change (Z.to_nat NPDENTRIES) with 1024%nat.
  eapply wp_mono; [apply (freevm_loop_wp pgdir 1024 s1 fl1); [lia|lia|apply Has1| |apply Hpt1|]|].
  { apply (pt_inv_weaken _ fl1); [by intros p ?%elem_of_nil|done]. }
  { intros p (j & Hj & Hp & ->). by apply Hpt1. }
  intros _ s2 (fl2 & Hk2 & Hu2 & Hf2 & Hs2).
  eapply wp_mono; [apply (kfree_wp s2 fl2); [done|apply Hpt|]|].
  { rewrite Hf2. intros [Hx|(j & Hj & Hp & E)]; [by apply (pt_dir_used _ _ _ Hpt1)|].
    by apply (pt_tbl_ok _ _ _ Hpt1 j) in Hp as (_ & _ & Hne). }
  intros _ s3 (Hk3 & Hu3 & Hs3 & _). exists (pgdir :: fl2).
  assert (Hall : forall p, pt_page (mem s) pgdir p <-> p = pgdir \/ tables (mem s1) pgdir 0 (Z.of_nat 1024) p).
  { intros p. by rewrite <- (unmaps_pt_page _ _ _ _ _ _ _ p Hum), Htab. }
  split_and!; [done|congruence| |].
  - intros p. rewrite elem_of_cons, Hf2, (um_free _ _ _ _ _ _ _ Hum), Hfr, Hall. tauto.
  - eapply same_except_trans; [eapply same_except_mono; [|apply Hum]|
      eapply same_except_trans; (eapply same_except_mono; [|eassumption])];
      intros p; cbv beta; rewrite ?Hfr, Hall; [tauto|tauto|intros <-; tauto].
Qed.

(** ** setupkvm *)
Definition ksize (k : kmap_entry) : Z := u32 (phys_end k - phys_start k).

(** The entry that the kernel's regions give for the page [va]. *)
Fixpoint kmap_pte (ks : list kmap_entry) (va : Z) : option Z :=
  match ks with
  | [] => None
  | k :: ks' =>
      if (virt k <=? va) && (va <? virt k + ksize k)
      then Some (Z.lor (Z.lor (phys_start k + (va - virt k)) (kperm k)) PTE_P)
      else kmap_pte ks' va
  end.

(** Regions in increasing order, page-sized, inside the address space. *)
Fixpoint kmap_ok (lo : Z) (ks : list kmap_entry) : Prop :=
  match ks with
  | [] => True
  | k :: ks' =>
      exists n, 0 < n /\ ksize k = 4096 * n /\ lo <= virt k /\ paligned (virt k) /\ virt k + 4096 * n <= 4294967296 /\
        paligned (phys_start k) /\ phys_start k + 4096 * n <= 4294967296 /\
        0 <= kperm k < 4096 /\ kmap_ok (virt k + 4096 * n) ks'
  end.

Lemma kmap_is_ok : kmap_ok KERNBASE kmap.
Proof.
  pose proof sym_data_aligned as Ha. pose proof sym_data_after_text as Hd.
  pose proof sym_end_after_data as He. pose proof sym_end_in_entrypgdir as Hf.
  unfold kmap, kmap_ok, KERNLINK, EXTMEM, KERNBASE in *. cbn [virt phys_start phys_end kperm].
  rewrite (V2P_kern sym_data) by (unfold KERNBASE; lia). change (V2P (2147483648 + 1048576)) with 1048576.
  unfold paligned, KERNBASE, PHYSTOP, DEVSPACE, PTE_W.
  apply Z.mod_divide in Ha as [q Hq]; [|lia]. rewrite Hq in Hd, He |- *.
  assert (Eq : (q * 4096 - 2147483648) mod 4096 = 0).
  { replace (q * 4096 - 2147483648) with ((q - 524288) * 4096) by lia. by apply Z.mod_mul. }
  assert (Hs : forall v a b p, 0 <= b - a < 4294967296 -> ksize (mkKmap v a b p) = b - a).
  { intros. unfold ksize. simpl. by apply u32_small. }
  exists 256. split_and!; try done; try lia.
  exists (q - 524544). rewrite Hs by lia. split_and!; try done; try lia.
  exists (581632 - q). rewrite Hs by lia. split_and!; try done; try lia.
  { by apply Z.mod_mul. }
  exists 8192. split_and!; try done; try lia.
Qed.

Lemma kmap_pte_below ks : forall lo va, kmap_ok lo ks -> va < lo -> kmap_pte ks va = None.
Proof.
  induction ks as [|k ks IH]; intros lo va Hok Hlt; [done|].
  destruct Hok as (n & Hn & _ & Hl & _ & _ & _ & _ & _ & Hok). simpl.
  destruct (Z.leb_spec (virt k) va); [lia|]. apply (IH (virt k + 4096 * n)); [done|lia].
Qed.

(** The directory entries that the regions need. *)
Definition kmap_dir (ks : list kmap_entry) (i : Z) : Prop :=
  exists k j, k ∈ ks /\ 0 <= j < ksize k / 4096 /\ i = PDX (virt k + 4096 * j).

(** Every page of [fl] is a table of one of those entries. *)
Definition tables_of (D : Z -> Prop) (fl : list Z) : Prop :=
  exists T, forall p, p ∈ fl -> exists i, D i /\ p = T i.

(** Nothing is left: the free pages have become tables. *)
Lemma all_tables m fl m' pgdir D : pt_inv m fl pgdir -> pt_change m fl m' [] pgdir -> new_tables m m' pgdir D -> tables_of D fl.
Proof.
  intros Hpt Hc Hn. exists (tbl m' pgdir). intros p Hp.
  destruct (proj1 (ptc_pages _ _ _ _ _ Hc p) (or_introl Hp)) as [[]%elem_of_nil|[->|(i & Hi & Hpr & ->)]].
  - by destruct (pt_dir_used _ _ _ Hpt).
  - exists i. split; [|done]. destruct (Hn i Hi Hpr) as [Ho|]; [|done]. exfalso.
    destruct (ptc_keep _ _ _ _ _ Hc i Hi Ho) as [_ E]. rewrite E in Hp. by destruct (pt_tbl_ok _ _ _ Hpt i Hi Ho) as (_ & ? & _).
Qed.

Lemma setupkvm_loop_wp pgdir ks : forall s fl lo,
  KERNBASE <= lo -> kmap_ok lo ks -> vm_inv s fl pgdir ->
  (forall va, paligned va -> va < KERNBASE \/ lo <= va -> present (lookup_pte (mem s) pgdir va) = false) ->
  wp (setupkvm_loop pgdir ks) (fun r s' => exists fl', use_lock s' = use_lock s /\
    same_except (fun p => p ∈ fl \/ pt_page (mem s) pgdir p) (mem s) (mem s') /\
    (r = pgdir /\ vm_inv s' fl' pgdir /\ pt_change (mem s) fl (mem s') fl' pgdir /\
       (forall va, paligned va -> lookup_pte (mem s') pgdir va =
          default (lookup_pte (mem s) pgdir va) (kmap_pte ks va)) /\
       new_tables (mem s) (mem s') pgdir (kmap_dir ks) \/
     r = 0 /\ kinv s' fl' /\ (forall p, p ∈ fl' <-> p ∈ fl \/ pt_page (mem s) pgdir p) /\
       forall E : Z -> Prop, (forall i, kmap_dir ks i -> E i) ->
       forall m0 fl0, pt_inv m0 fl0 pgdir -> pt_change m0 fl0 (mem s) fl pgdir -> new_tables m0 (mem s) pgdir E -> tables_of E fl0)) s.
Proof.
  induction ks as [|k ks IH]; intros s fl lo Hlo Hok Hvm Hnone; cbn [setupkvm_loop].
  { apply wp_ret. exists fl. split_and!; [done|apply same_except_refl|left].
    split_and!; [done|done|apply pt_change_refl|done|apply new_tables_refl]. }
  destruct Hok as (n & Hn & Ek & Hlv & Hva & Hvn & Hpa & Hpn & Hperm & Hok).
  fold (ksize k). rewrite Ek, <- (u32_small (4096 * n)) by (unfold paligned, KERNBASE in *; lia). apply wp_bind.
  eapply wp_mono; [apply (mappages_wp s fl pgdir (virt k) n); try done|].
  { intros j Hj. apply Hnone; [apply aligned_step; done || lia|lia]. }
  intros r s1 (fl1 & n1 & Hvm1 & Hu1 & Hc1 & Hr & Hm1 & Hn1').
  destruct Hr as [[-> ->]|(-> & Hn1 & ->)].
  - change (0 <? 0) with false. cbv iota. 
    eapply wp_mono; [apply (IH s1 fl1 (virt k + 4096 * n)); [lia|done|done|]|].
    + intros va Hva' Hr. rewrite Hm1 by done.
      destruct (Z.leb_spec (virt k) va), (Z.ltb_spec va (virt k + 4096 * n)); simpl; try lia; apply Hnone; done || lia.
    + intros r s2 (fl2 & Hu2 & Hs2 & Hcase). exists fl2. split_and!; [congruence| |].
      * eapply same_except_trans; [apply Hc1|]. eapply same_except_mono; [|exact Hs2].
        intros p. cbv beta. by rewrite (ptc_pages _ _ _ _ _ Hc1).
      * destruct Hcase as [(-> & Hvm2 & Hc2 & Hl2 & Hn2)|(-> & Hk2 & Hf2 & Ht2)]; [left|right].
        -- split_and!; [done|done|by eapply pt_change_trans| |]; cycle 1.
           { eapply new_tables_trans; [exact Hn1'|exact Hn2|]. intros i [(j & Hj & ->)|(k' & j & Hk' & Hj & ->)]; [exists k, j|exists k', j].
             - split; [by left|]. split; [|done]. rewrite Ek, (Z.mul_comm 4096), Z.div_mul by done. lia.
             - split; [by right|done]. }
           intros va Hva'.
           rewrite Hl2, Hm1 by done. cbn [kmap_pte]. rewrite Ek.
           destruct ((virt k <=? va) && (va <? virt k + 4096 * n)) eqn:E; [|done].
           apply andb_prop in E as [_ E%Z.ltb_lt]. by rewrite (kmap_pte_below _ (virt k + 4096 * n)).
        -- split_and!; [done|done| |]; [intros p; by rewrite Hf2, (ptc_pages _ _ _ _ _ Hc1)|].
           intros E HE m0 fl0 Hp0 Hc0 Hn0. apply (Ht2 E) with (m0 := m0); [|done|by eapply pt_change_trans|].
           ++ intros i (k' & j & Hk' & Hj & ->). apply HE. exists k', j. split; [by right|done].
           ++ eapply new_tables_trans; [exact Hn0|exact Hn1'|]. intros i [?|(j & Hj & ->)]; [done|]. apply HE.
              exists k, j. split; [by left|]. split; [|done]. rewrite Ek, (Z.mul_comm 4096), Z.div_mul by done. lia.
  - change (-1 <? 0) with true. cbv iota. apply wp_bind.
    assert (Hl1 : forall va, ualigned va -> present (lookup_pte (mem s1) pgdir va) = false).
    { intros va Hu. pose proof (ualigned_paligned va Hu) as Hva'. destruct Hu as [_ Hu]. rewrite Hm1 by done.
      destruct (Z.leb_spec (virt k) va); [lia|]. simpl. apply Hnone; [done|lia]. }
    assert (Hnu : forall p, ~ user_page (mem s1) pgdir p).
    { intros p (va & Hva' & Hp & _). by rewrite Hl1 in Hp. }
    eapply wp_mono; [apply (freevm_wp s1 [])|].
    + split; [done|]. split; intros va; [|intros va']; intros Hva'; [|intros _]; by rewrite Hl1.
    + intros _ s2 (fl2 & Hk2 & Hu2 & Hf2 & Hs2). apply wp_ret. exists fl2. split_and!; [congruence| |right].
      * eapply same_except_trans; [apply Hc1|]. eapply same_except_mono; [|exact Hs2].
        intros p. cbv beta. rewrite (ptc_pages _ _ _ _ _ Hc1). pose proof (Hnu p). tauto.
      * split_and!; [done|done| |].
        { intros p. rewrite Hf2, (ptc_pages _ _ _ _ _ Hc1). pose proof (Hnu p). tauto. }
        intros E HE m0 fl0 Hp0 Hc0 Hn0. apply (all_tables m0 _ (mem s1) pgdir); [done|by eapply pt_change_trans|].
        eapply new_tables_trans; [exact Hn0|exact Hn1'|]. intros i [?|(j & Hj & ->)]; [done|]. apply HE.
        exists k, j. split; [by left|]. split; [|done]. rewrite Ek, (Z.mul_comm 4096), Z.div_mul by done. lia.
Qed.

(** What [setupkvm] returns: a page table, or 0 and the free pages it found. *)
Definition setupkvm_post (s : kstate) (fl : list Z) (r : Z) (s' : kstate) : Prop :=
  exists fl', use_lock s' = use_lock s /\
    same_except (fun p => p ∈ fl) (mem s) (mem s') /\
    (r <> 0 /\ as_inv s' fl' r /\ (exists taken, fl = taken ++ fl' /\ (length taken <= 65)%nat) /\
       (forall p, p ∈ fl <-> p ∈ fl' \/ pt_page (mem s') r p) /\
       (forall va, paligned va -> lookup_pte (mem s') r va = default 0 (kmap_pte kmap va)) \/
     r = 0 /\ kinv s' fl' /\ (forall p, p ∈ fl' <-> p ∈ fl) /\ (length fl <= 65)%nat).

(** A page full of zeros is an empty page directory. *)
Lemma empty_pgdir m m2 pg fl :
  page_ok pg -> pg ∉ fl -> m2 = memset m pg 0 PGSIZE ->
  pt_inv m2 fl pg /\ (forall va, 0 <= va < 4294967296 -> lookup_pte m2 pg va = 0) /\
  (forall p, pt_page m2 pg p <-> p = pg).
Proof.
  intros Hok Hn ->.
  assert (E : forall i, 0 <= i < 1024 -> pde (memset m pg 0 PGSIZE) pg i = 0).
  { intros i Hi. apply load32_memset_zero; unfold PGSIZE; lia. }
  assert (Ep : forall i, 0 <= i < 1024 -> present (pde (memset m pg 0 PGSIZE) pg i) = true -> False).
  { intros i Hi. by rewrite E. }
  split_and!; [split; [done|done| |]| |].
  - intros i Hi Hp. by destruct (Ep i Hi).
  - intros i j Hi Hj Hp. by destruct (Ep i Hi).
  - intros va Hva. unfold lookup_pte. by rewrite E by (by apply PDX_range).
  - intros p. split; [|by left]. intros [->|(i & Hi & Hp & _)]; [done|]. by destruct (Ep i Hi).
Qed.

Lemma tables_of_length D l fl : tables_of D fl -> (forall i, D i -> i ∈ l) -> NoDup fl -> (length fl <= length l)%nat.
Proof.
  intros [T HT] Hl Hnd. rewrite <- (length_map T l). apply submseteq_length, NoDup_submseteq; [done|].
  intros p Hp. destruct (HT p Hp) as (i & Hi & ->). apply list_elem_of_fmap. exists i. split; [done|by apply Hl].
Qed.

(** 56 tables for the memory up to PHYSTOP and 8 for the devices. *)
Lemma kmap_dirs i : kmap_dir kmap i -> i ∈ seqZ 512 56 ++ seqZ 1016 8.
Proof.
  pose proof kmap_is_ok as Hok. intros (k & j & Hk & Hj & ->). pose proof sym_data_after_text as Hd.
  pose proof sym_end_after_data as He. pose proof sym_end_in_entrypgdir as Hf. unfold KERNLINK, EXTMEM, KERNBASE in *.
  assert (H : KERNBASE <= virt k /\ virt k + 4096 * (ksize k / 4096) <= KERNBASE + PHYSTOP \/
              DEVSPACE <= virt k /\ virt k + 4096 * (ksize k / 4096) <= 4294967296).
  { assert (Hs : forall v a b p, 0 <= b - a < 4294967296 -> 4096 * (ksize (mkKmap v a b p) / 4096) <= b - a).
    { intros v a b p H. unfold ksize. cbn [phys_end phys_start]. rewrite u32_small by done. apply Z.mul_div_le. done. }
    unfold kmap, KERNLINK, EXTMEM, KERNBASE, PHYSTOP, DEVSPACE in *. rewrite (V2P_kern sym_data) in Hk by (unfold KERNBASE; lia).
    change (V2P (2147483648 + 1048576)) with 1048576 in Hk. unfold KERNBASE in Hk.
    apply elem_of_cons in Hk as [->|[->|[->|[->|[]%elem_of_nil]%elem_of_cons]%elem_of_cons]%elem_of_cons]; cbn [virt];
      [left|left|left|right; split; [done|vm_compute; discriminate]];
      (split; [lia|]); (eapply Z.le_trans; [apply Z.add_le_mono_l, Hs; lia|lia]). }
  unfold KERNBASE, PHYSTOP, DEVSPACE in H. rewrite PDX_div by lia. apply elem_of_app.
  destruct H as [H|H]; [left|right]; apply elem_of_seqZ;
    (split; [apply Z.div_le_lower_bound; lia|apply Z.div_lt_upper_bound; lia]).
Qed.

Lemma setupkvm_wp s fl : kinv s fl -> wp setupkvm (setupkvm_post s fl) s.
Proof.
  intros Hk. unfold setupkvm. apply wp_bind. eapply wp_mono; [by apply kalloc_wp|].
  intros pg s1. destruct fl as [|pg' fl1].
  { intros [-> ->]. change (0 =? 0) with true. apply wp_ret. exists [].
    split_and!; [done|apply same_except_refl|right]. split_and!; try done. cbn. lia. }
  intros (-> & Hk1 & Hm1 & Hu1). pose proof (kinv_ok _ _ Hk) as [Hok _]%Forall_cons.
  pose proof (kinv_nodup _ _ Hk) as [Hnin _]%NoDup_cons.
  destruct (Z.eqb_spec pg' 0) as [E|_]; [by apply page_ok_nonzero in E|].
  apply wp_bind, wp_set_mem. intros s2 Em Ef Eu El.
  change (P2V PHYSTOP >? DEVSPACE) with false. cbv iota.
  assert (Hs2 : same_except (eq pg') (mem s1) (mem s2)).
  { rewrite Em. apply same_except_memset; [apply Hok|done]. }
  destruct (empty_pgdir _ _ _ fl1 Hok Hnin Em) as (Hpt2 & Hl2 & Hp2).
  assert (Hk2 : kinv s2 fl1) by (eapply kinv_same; eauto; by intros q Hq <-).
  eapply wp_mono; [apply (setupkvm_loop_wp pg' kmap s2 fl1 KERNBASE); [done|apply kmap_is_ok|by split|]|].
  { intros va [_ Hva] _. by rewrite Hl2. }
  intros r s3 (fl3 & Hu3 & Hs3 & Hr). exists fl3. split_and!; [congruence| |].
  { eapply same_except_trans; [rewrite <- Hm1; eapply same_except_mono; [|exact Hs2]; intros p <-; by left|].
    eapply same_except_mono; [|exact Hs3]. intros p. cbv beta. rewrite Hp2, elem_of_cons. tauto. }
  destruct Hr as [(-> & Hvm3 & Hc3 & Hl3 & Hn3)|(-> & Hk3 & Hf3 & Ht3)]; [left|right].
  - assert (Hl3' : forall va, paligned va -> lookup_pte (mem s3) pg' va = default 0 (kmap_pte kmap va)).
    { intros va Hva. rewrite Hl3 by done. destruct Hva. by rewrite Hl2. }
    split_and!; [by apply page_ok_nonzero|split; [done|]| | |done].
    + assert (Hnone : forall va, ualigned va -> lookup_pte (mem s3) pg' va = 0).
      { intros va Hva. rewrite Hl3' by (by apply ualigned_paligned).
        by rewrite (kmap_pte_below kmap KERNBASE) by (apply kmap_is_ok || apply Hva). }
      split; intros va; [|intros va']; intros Hva; [|intros _]; by rewrite Hnone.
    + destruct (ptc_suffix _ _ _ _ _ Hc3) as [t E]. exists (pg' :: t). split; [by rewrite E|]. cbn [length].
      pose proof (kinv_nodup _ _ Hk2) as Hnd. rewrite E in Hnd. apply NoDup_app in Hnd as (Hnd & Hdis & _).
      enough (length t <= 64)%nat by lia. apply (tables_of_length (kmap_dir kmap) (seqZ 512 56 ++ seqZ 1016 8)); [|apply kmap_dirs|done].
      exists (tbl (mem s3) pg'). intros p Hp.
      assert (Hpt : pt_page (mem s3) pg' p).
      { destruct (proj1 (ptc_pages _ _ _ _ _ Hc3 p)) as [Hin|]; [left; rewrite E; apply elem_of_app; by left|by destruct (Hdis p Hp)|done]. }
      destruct Hpt as [->|(i & Hi & Hpr & ->)]; [destruct Hnin; rewrite E; apply elem_of_app; by left|].
      exists i. split; [|done]. destruct (Hn3 i Hi Hpr) as [Ho|]; [|done]. exfalso.
      assert (Hpp : pt_page (mem s2) pg' (tbl (mem s2) pg' i)) by (right; by exists i). apply Hp2 in Hpp.
      destruct (pt_tbl_ok _ _ _ Hpt2 i Hi Ho) as (_ & _ & ?). done.
    + intros p. rewrite elem_of_cons, <- (ptc_pages _ _ _ _ _ Hc3), Hp2. tauto.
  - split_and!; [done|done|intros p; rewrite Hf3, Hp2, elem_of_cons; tauto|]. cbn [length].
    pose proof (tables_of_length _ _ _ (Ht3 _ kmap_dirs _ _ Hpt2 (pt_change_refl _ _ _) (new_tables_refl _ _ _)) (fun i H => H)
      (kinv_nodup _ _ Hk2)) as Hlen. rewrite length_app, !length_seqZ in Hlen. lia.
Qed.

(** After [freevm], starting from [s] with the free list [fl]. *)
Definition freevm_post (s : kstate) (fl : list Z) (pgdir : Z) (s' : kstate) : Prop :=
  exists fl', kinv s' fl' /\ NoDup fl' /\
    (forall p, p ∈ fl' <-> p ∈ fl \/ pt_page (mem s) pgdir p \/ user_page (mem s) pgdir p) /\
    same_except (fun p => pt_page (mem s) pgdir p \/ user_page (mem s) pgdir p) (mem s) (mem s').

(** C27.  [freevm] leaks nothing and frees nothing twice: it returns, the free list
    it leaves has no duplicates and holds exactly the pages that were free, the
    pages of the page table (the directory included) and the user pages, and no
    other memory changes. *)
Theorem freevm_correct s fl pgdir :
  as_inv s fl pgdir -> wp (freevm pgdir) (fun _ s' => freevm_post s fl pgdir s') s.
Proof.
  intros Has. eapply wp_mono; [by apply freevm_wp|]. intros _ s' (fl' & Hk & _ & Hf & Hs).
  exists fl'. split_and!; [done|apply Hk|done|done].
Qed.

(** [setupkvm] either returns a page table that maps exactly the kernel's four
    regions (and so nothing in the user half), made of pages taken off the free
    list, or returns 0 with every page it took given back.  It never hits the
    "remap" panic and changes no page that was not free. *)
Theorem setupkvm_correct s fl :
  kinv s fl ->
  wp setupkvm (fun r s' => setupkvm_post s fl r s' /\
    (r <> 0 -> forall va, ualigned va -> lookup_pte (mem s') r va = 0)) s.
Proof.
  intros Hk. eapply wp_mono; [by apply setupkvm_wp|]. intros r s' Hpost. split; [done|].
  intros Hr va Hva. destruct Hpost as (fl' & _ & _ & [(_ & _ & _ & _ & Hl)|[-> _]]); [|done].
  rewrite Hl by (by apply ualigned_paligned).
  by rewrite (kmap_pte_below kmap KERNBASE) by (apply kmap_is_ok || apply Hva).
Qed.
End VmFree.

Lemma freevm_correct_witness :
  wp (@freevm example_syms 0x80202000) (fun _ s' => exists fl', @kinv example_syms s' fl' /\
    0x80202000 ∈ fl') example_kstate.
Proof.
  eapply wp_mono; [apply (@freevm_correct example_syms example_syms_ok _ _ _ example_as)|].
  intros _ s' (fl' & Hk & _ & Hf & _). exists fl'. split; [done|]. apply Hf. right. left. by left.
Defined.

Lemma setupkvm_correct_witness :
  wp (@setupkvm example_syms) (fun r s' => r <> 0 -> lookup_pte (mem s') r 0x1000 = 0) example_kstate.
Proof.
  eapply wp_mono; [apply (@setupkvm_correct example_syms example_syms_ok _ _ example_kinv)|].
  intros r s' [_ H] Hr. apply H; [done|]. split; [reflexivity|unfold KERNBASE; lia].
Defined.
