(* ===== verification/VmInit.v ===== *)
(** * The first process's memory (inituvm of vm.c)

    inituvm maps one page at address 0 and copies the initial code into it. *)

From stdpp Require Import base numbers list strings.
From Stdlib Require Import ZArith Lia.
From S2P Require Import Prelude Mmu Mem Kalloc Vm VmInv VmWalk VmUser VmGrow VmFree.

Local Open Scope Z_scope.
Local Open Scope kernel_scope.

Section VmInit.
Context {LS : LinkSyms} {LSOk : LinkSymsOk}.

(** A store into a page that the address space only maps. *)
Lemma as_inv_fill s s' fl pgdir pg :
  as_inv s fl pgdir -> freelist s' = freelist s -> kmem_lock s' = kmem_lock s ->
  same_except (eq pg) (mem s) (mem s') -> pg ∉ fl -> ~ pt_page (mem s) pgdir pg ->
  as_inv s' fl pgdir /\ (forall va, paligned va -> lookup_pte (mem s') pgdir va = lookup_pte (mem s) pgdir va) /\
  (forall p, pt_page (mem s') pgdir p <-> pt_page (mem s) pgdir p).
Proof.
  intros [[Hk Hpt] Hu] Hf Hl Hs Hn Hp.
  assert (Hnp : forall p, pt_page (mem s) pgdir p -> pg <> p) by (by intros p ? <-).
  assert (Hd : pg <> pgdir) by (apply Hnp; by left).
  assert (HL : forall va, paligned va -> lookup_pte (mem s') pgdir va = lookup_pte (mem s) pgdir va).
  { intros va [_ Hva]. by apply (lookup_pte_same _ _ _ fl _ _ Hs). }
  assert (HP : forall p, pt_page (mem s') pgdir p <-> pt_page (mem s) pgdir p) by (intros p; by apply (pt_page_same _ _ _ fl _ _ Hs)).
  split_and!; [|done|done]. split; [split|].
  - apply (kinv_same s s' fl (eq pg)); try done. by intros q Hq <-.
  - by apply (pt_inv_same _ _ _ _ _ Hs).
  - apply (uvm_inv_ext _ _ _ _ _ Hu); [intros p; by rewrite HP|]. intros va Hva. by apply HL, ualigned_paligned.
Qed.

(** With two free pages left, mapping a filled page does not fail. *)
Lemma map_filled_ok s pg fl s2 pgdir a perm :
  as_inv s (pg :: fl) pgdir -> kinv s2 fl -> use_lock s2 = use_lock s -> same_except (eq pg) (mem s) (mem s2) ->
  ualigned a -> 0 <= perm < 4096 -> present (lookup_pte (mem s) pgdir a) = false -> (2 <= length fl)%nat ->
  wp (mappages pgdir a PGSIZE (V2P pg) perm) (fun r s3 => exists fl3, as_inv s3 fl3 pgdir /\ use_lock s3 = use_lock s /\
    page_added (mem s) pg fl (mem s2) (mem s3) fl3 pgdir a perm) s2.
Proof.
  intros Has Hk2 Hul Hs2 Ha Hperm Habs Hlen.
  pose proof (kinv_ok _ _ (vm_kinv _ _ _ (as_vm _ _ _ Has))) as [Hok _]%Forall_cons.
  destruct (page_ok_V2P pg Hok) as (Hpa & Hpr & _ & Ev).
  destruct (fill_page _ _ _ _ _ (vm_pt _ _ _ (as_vm _ _ _ Has)) Hs2) as (Hnp & Hl2 & Hpp2 & Hpt2).
  assert (Hm : wp (mappages pgdir a (u32 (4096 * 1)) (V2P pg) perm) (mappages_post s2 fl pgdir a 1 (V2P pg) perm) s2).
  { apply mappages_wp; [by split|done|lia|by apply ualigned_paligned| |split; [done|lia]| |].
    - destruct Ha. unfold KERNBASE in *. lia.
    - pose proof (page_ok_range pg Hok). unfold KERNBASE, PHYSTOP in *. lia.
    - intros j Hj. replace (a + 4096 * j) with a by lia. rewrite Hl2; [done|by apply ualigned_paligned]. }
  eapply wp_mono; [apply wp_and; [by apply (map_filled_wp s pg fl s2)|exact Hm]|].
  intros r s3 [(fl3 & Has3 & Hu3 & [[-> Hadd]|(-> & _)]) (fl4 & n & _ & _ & Hc & Hr & _ & Hnew)]; [by exists fl3|].
  destruct Hr as [[? _]|(_ & _ & ->)]; [done|]. exfalso.
  pose proof (tables_of_length _ [PDX a] _ (all_tables _ _ _ _ _ Hpt2 Hc Hnew)) as H. cbn in H.
  enough (length fl <= 1)%nat by lia. apply H; [|apply Hk2].
  intros i (j & Hj & ->). replace (a + 4096 * j) with a by lia. left.
Qed.

(** The address space with the page of [init] at 0. *)
Record inited (s : kstate) (fl : list Z) (pgdir : Z) (init : list Z) (s' : kstate) (fl' : list Z) : Prop := mkInited {
  in_as : as_inv s' fl' pgdir;
  in_lock : use_lock s' = use_lock s;
  in_page : exists pg, pg ∈ fl /\ (forall p, p ∈ fl \/ pt_page (mem s) pgdir p <-> p = pg \/ p ∈ fl' \/ pt_page (mem s') pgdir p) /\
    (pg ∉ fl') /\ ~ pt_page (mem s') pgdir pg /\
    (forall va, paligned va -> lookup_pte (mem s') pgdir va =
       if decide (va = 0) then Z.lor (Z.lor (V2P pg) (Z.lor PTE_W PTE_U)) PTE_P else lookup_pte (mem s) pgdir va) /\
    forall i, 0 <= i < 4096 -> load8 (mem s') (pg + i) = default 0 (init !! Z.to_nat i) mod 256;
  in_suffix : exists taken, fl = taken ++ fl';
  in_mem : same_except (fun p => p ∈ fl \/ pt_page (mem s) pgdir p) (mem s) (mem s')
}.

Lemma inituvm_wp s fl pgdir init : as_inv s fl pgdir -> (3 <= length fl)%nat -> Z.of_nat (length init) < PGSIZE ->
  present (lookup_pte (mem s) pgdir 0) = false ->
  wp (inituvm pgdir init) (fun _ s' => exists fl', inited s fl pgdir init s' fl') s.
Proof.
  intros Has Hlen Hinit Habs. unfold inituvm. unfold PGSIZE in Hinit.
  destruct (Z.geb_spec (Z.of_nat (length init)) PGSIZE) as [H|_]; [unfold PGSIZE in H; lia|].
  pose proof (vm_kinv _ _ _ (as_vm _ _ _ Has)) as Hk. apply wp_bind. eapply wp_mono; [by apply kalloc_wp|]. intros pg s1.
  destruct fl as [|pg' fl1]; [cbn in Hlen; lia|]. intros (-> & Hk1 & Hm1 & Hu1).
  pose proof (kinv_ok _ _ Hk) as [Hok _]%Forall_cons. pose proof (kinv_nodup _ _ Hk) as [Hnin Hnd]%NoDup_cons.
  destruct (Z.eqb_spec pg' 0) as [E|_]; [by apply page_ok_nonzero in E|].
  apply wp_bind, wp_set_mem. intros s2 Em Ef Eu El.
  assert (Hs2 : same_except (eq pg') (mem s1) (mem s2)) by (rewrite Em; apply same_except_memset; [apply Hok|done]).
  assert (Hk2 : kinv s2 fl1) by (eapply kinv_same; eauto; by intros q Hq <-).
  rewrite Hm1 in Hs2. assert (Hperm : 0 <= Z.lor PTE_W PTE_U < 4096) by done.
  assert (Hua : ualigned 0) by (split; [done|unfold KERNBASE; lia]).
  apply wp_bind. eapply wp_mono; [apply (map_filled_ok s pg' fl1 s2); try done; [congruence|cbn in Hlen; lia]|].
  intros _ s3 (fl3 & Has3 & Hu3 & Hadd). apply wp_set_mem. intros s4 Em4 Ef4 Eu4 El4. exists fl3.
  destruct (add_page_fresh Hadd) as [Hn3 Hp3]. destruct Hok as [Hal _].
  assert (Hs4 : same_except (eq pg') (mem s3) (mem s4)).
  { intros b Hb. rewrite Em4, load8_store_bytes. destruct (out_of_page pg' b Hal ltac:(congruence)), (Z.leb_spec pg' b),
      (Z.ltb_spec b (pg' + Z.of_nat (length init))); try done; lia. }
  destruct (as_inv_fill s3 s4 fl3 pgdir pg') as (Has4 & Hl4 & Hpp4); try done. split; [done|congruence| | |].
  - exists pg'. split; [left|]. split; [intros p; rewrite Hpp4; apply (add_page_pages Hadd)|]. split; [done|].
    split; [by rewrite Hpp4|]. split; [intros va Hva; rewrite Hl4 by done; by apply (add_page_lookup Hadd)|].
    intros i Hi. rewrite Em4, load8_store_bytes. replace (pg' + i - pg') with i by lia.
    rewrite (add_page_bytes Hadd), Em, load8_memset by (unfold PGSIZE; lia). unfold PGSIZE.
    rewrite (proj2 (Z.leb_le pg' (pg' + i))), (proj2 (Z.ltb_lt (pg' + i) (pg' + 4096))) by lia. cbn [andb].
    destruct (Z.ltb_spec (pg' + i) (pg' + Z.of_nat (length init))); [done|]. by rewrite lookup_ge_None_2 by lia.
  - destruct (ptc_suffix _ _ _ _ _ (pa_change _ _ _ _ _ _ _ _ _ Hadd)) as [t ->]. by exists (pg' :: t).
  - eapply same_except_trans; [apply (add_page_mem Hadd)|]. eapply same_except_mono; [|exact Hs4]. intros p <-. left. left.
Qed.
End VmInit.
