(* ===== verification/VmCopy.v ===== *)
(** * Page tables (vm.c): copyuvm

    [copyuvm], the copy of an address space that fork makes: the child has the
    same user pages, with the same permissions and contents, in pages of its
    own, and the parent is not touched. *)

From stdpp Require Import base numbers list gmap strings.
From Stdlib Require Import ZArith Lia.
From S2P Require Import Prelude Mmu Mem Kalloc Vm VmInv VmWalk VmUser VmGrow VmFree.

Local Open Scope Z_scope.
Local Open Scope kernel_scope.

(** The pages of an address space, as [copyuvm] should copy them. *)
Definition contents_of (m : memory) (pgdir : Z) : contents :=
  mkContents (fun va => PTE_FLAGS (lookup_pte m pgdir va))
             (fun va i => load8 m (frame m pgdir va + i)).

Section VmCopy.
Context {LS : LinkSyms}.

Lemma PTE_FLAGS_range x : 0 <= PTE_FLAGS x < 4096.
Proof. unfold PTE_FLAGS. rewrite (land_ones_mod _ 12) by lia. by apply Z.mod_pos_bound. Qed.

Lemma same_except_memmove (P : Z -> Prop) m v src :
  v mod 4096 = 0 -> P v -> same_except P m (memmove m v src 4096).
Proof.
  intros Hv HP a Ha. rewrite load8_memmove by lia.
  destruct (out_of_page v a Hv) as [|]; [by intros E; rewrite E in Ha| |];
    destruct (Z.leb_spec v a), (Z.ltb_spec a (v + 4096)); done || lia.
Qed.

(** ** An address space whose pages are out of reach of a change *)
Section Frozen.
  Context {m0 : memory} {fl0 : list Z} {pgdir : Z} {m : memory}.
  Context (Hpt0 : pt_inv m0 fl0 pgdir) (Hu0 : uvm_inv m0 fl0 pgdir).
  Context (Hs : same_except (fun p => p ∈ fl0) m0 m).

Lemma frozen_pt_free p : pt_page m0 pgdir p -> p ∉ fl0.
Proof. intros Hp. by destruct (pt_page_ok _ _ _ _ Hpt0 Hp). Qed.

Lemma frozen_lookup va : paligned va -> lookup_pte m pgdir va = lookup_pte m0 pgdir va.
Proof. intros [_ Hva]. apply (lookup_pte_same _ _ _ _ _ _ Hs Hpt0 Hva). apply frozen_pt_free. Qed.

Lemma frozen_pt_page p : pt_page m pgdir p <-> pt_page m0 pgdir p.
Proof. apply (pt_page_same _ _ _ _ _ _ Hs Hpt0). apply frozen_pt_free. by left. Qed.

Lemma frozen_pt_inv fl : (forall p, p ∈ fl -> p ∈ fl0) -> pt_inv m fl pgdir.
Proof.
  intros Hsub. apply (pt_inv_weaken _ fl0); [done|]. apply (pt_inv_same _ _ _ _ _ Hs Hpt0).
  apply frozen_pt_free. by left.
Qed.

Lemma frozen_uvm_inv fl : (forall p, p ∈ fl -> p ∈ fl0) -> uvm_inv m fl pgdir.
Proof.
  intros Hsub. apply (uvm_inv_ext _ _ _ _ _ Hu0).
  - intros p. rewrite frozen_pt_page. intros [?%Hsub|?]; tauto.
  - intros va Hva. by apply frozen_lookup, ualigned_paligned.
Qed.

Lemma frozen_bytes va i : ualigned va -> present (lookup_pte m0 pgdir va) = true -> 0 <= i < 4096 ->
  load8 m (frame m0 pgdir va + i) = load8 m0 (frame m0 pgdir va + i).
Proof.
  intros Hva Hp Hi. destruct (uvm_frame _ _ _ Hu0 va Hva Hp) as ([Hal _] & Hn & _).
  apply Hs. by rewrite (in_page (frame m0 pgdir va)) by (done || lia).
Qed.
End Frozen.

Context {LSOk : LinkSymsOk}.

(** The state in the loop of [copyuvm], with the child [d] copied below [i]: [s0]
    is the state before the copy, [s1] the one after [setupkvm]. *)
Record copying (s0 : kstate) (fl0 : list Z) (pgdir : Z) (s1 : kstate) (fl1 : list Z) (d i : Z)
    (s : kstate) (fl : list Z) : Prop := mkCopying {
  cp_as : as_inv s fl d;
  cp_lock : use_lock s = use_lock s0;
  cp_maps : maps_user (contents_of (mem s0) pgdir) (mem s1) fl1 (mem s) fl d 0 i;
  cp_mem : same_except (fun p => p ∈ fl0) (mem s0) (mem s);
  cp_own : forall p, p ∈ fl0 <-> p ∈ fl \/ pt_page (mem s) d p \/ user_page (mem s) d p
}.

(** Nothing was copied: every page is free again. *)
Definition copy_failed (s0 : kstate) (fl0 : list Z) (s' : kstate) : Prop :=
  exists fl', kinv s' fl' /\ use_lock s' = use_lock s0 /\
    same_except (fun p => p ∈ fl0) (mem s0) (mem s') /\ forall p, p ∈ fl' <-> p ∈ fl0.

Lemma copy_undo_wp s0 fl0 s fl d :
  as_inv s fl d -> use_lock s = use_lock s0 -> same_except (fun p => p ∈ fl0) (mem s0) (mem s) ->
  (forall p, p ∈ fl0 <-> p ∈ fl \/ pt_page (mem s) d p \/ user_page (mem s) d p) ->
  wp (freevm d) (fun _ => copy_failed s0 fl0) s.
Proof.
  intros Has Hu Hs Hown. eapply wp_mono; [by apply (freevm_wp s fl)|].
  intros _ s' (fl' & Hk & Hu' & Hf & Hs'). exists fl'. split_and!; [done|congruence| |].
  - eapply same_except_trans; [exact Hs|]. eapply same_except_mono; [|exact Hs'].
    intros p. cbv beta. rewrite Hown. tauto.
  - intros p. by rewrite Hf, Hown.
Qed.

(** One page more of the child. *)
Lemma copying_step s0 fl0 pgdir s1 fl1 d i s pg fl m2 s3 fl3 :
  Forall page_ok fl1 -> (forall va, ualigned va -> present (lookup_pte (mem s1) d va) = false) ->
  copying s0 fl0 pgdir s1 fl1 d i s (pg :: fl) -> 0 <= i ->
  as_inv s3 fl3 d -> use_lock s3 = use_lock s ->
  page_added (mem s) pg fl m2 (mem s3) fl3 d i (PTE_FLAGS (lookup_pte (mem s0) pgdir i)) ->
  page_bytes m2 pg (fun k => load8 (mem s0) (frame (mem s0) pgdir i + k)) ->
  copying s0 fl0 pgdir s1 fl1 d (i + 4096) s3 fl3.
Proof.
  intros Hok1 Hnone [Has Hu Hmu Hs Hown] Hi Has3 Hu3 Hadd Hb.
  assert (Hmu3 : maps_user (contents_of (mem s0) pgdir) (mem s1) fl1 (mem s3) fl3 d 0 (i + 4096)).
  { eapply maps_user_step; eauto; [intros ?; apply PTE_FLAGS_range|lia]. }
  split; [done|congruence|done| |].
  - eapply same_except_trans; [exact Hs|]. eapply same_except_mono; [|apply (add_page_mem Hadd)].
    intros p. cbv beta. rewrite Hown. tauto.
  - assert (Hup : forall b m fl', maps_user (contents_of (mem s0) pgdir) (mem s1) fl1 m fl' d 0 b ->
      forall p, user_page m d p <-> freed m d 0 b p).
    { intros b m fl' H p. split; intros (va & Hva & Hr); exists va; [|tauto].
      destruct Hr as [Hp ->]. destruct (Z.lt_ge_cases va b); [pose proof Hva as [_ ?]; split_and!; done || lia|].
      exfalso. rewrite (mu_out _ _ _ _ _ _ _ _ H) in Hp; [|by apply ualigned_paligned|lia]. by rewrite Hnone in Hp. }
    intros p. rewrite Hown, (Hup _ _ _ Hmu), (Hup _ _ _ Hmu3),
      <- (mu_pages _ _ _ _ _ _ _ _ Hmu), <- (mu_pages _ _ _ _ _ _ _ _ Hmu3). done.
Qed.

Lemma copy_map_wp s0 fl0 pgdir s1 fl1 d i s pg fl s2 :
  as_inv s0 fl0 pgdir -> Forall page_ok fl1 ->
  (forall va, ualigned va -> present (lookup_pte (mem s1) d va) = false) ->
  copying s0 fl0 pgdir s1 fl1 d i s (pg :: fl) -> ualigned i ->
  present (lookup_pte (mem s0) pgdir i) = true ->
  kinv s2 fl -> use_lock s2 = use_lock s ->
  mem s2 = memmove (mem s) pg (frame (mem s0) pgdir i) PGSIZE ->
  wp (mappages d i PGSIZE (V2P pg) (PTE_FLAGS (lookup_pte (mem s0) pgdir i))) (fun r s3 =>
    r = 0 /\ (exists fl3, copying s0 fl0 pgdir s1 fl1 d (i + 4096) s3 fl3) \/
    r = -1 /\ wp (kfree pg;; freevm d;; ret 0) (fun r s' => r = 0 /\ copy_failed s0 fl0 s') s3) s2.
Proof.
  intros Has0 Hok1 Hnone Hcp Hi Hp0 Hk2 Hu2 Em. pose proof Hcp as [Has Hul Hmu Hs Hown].
  pose proof (kinv_ok _ _ (vm_kinv _ _ _ (as_vm _ _ _ Has))) as [Hok _]%Forall_cons.
  assert (Hs2 : same_except (eq pg) (mem s) (mem s2)).
  { rewrite Em. apply same_except_memmove; [apply Hok|done]. }
  assert (Hb : page_bytes (mem s2) pg (fun k => load8 (mem s0) (frame (mem s0) pgdir i + k))).
  { intros k Hk. rewrite Em, load8_memmove by (unfold PGSIZE; lia). unfold PGSIZE.
    destruct (Z.leb_spec pg (pg + k)), (Z.ltb_spec (pg + k) (pg + 4096)); try lia. simpl.
    replace (pg + k - pg) with k by lia. by apply (frozen_bytes (as_uvm _ _ _ Has0) Hs). }
  eapply wp_mono; [apply (map_filled_wp s pg fl s2); try done; [apply PTE_FLAGS_range|]|].
  { rewrite (mu_out _ _ _ _ _ _ _ _ Hmu); [by apply Hnone|by apply ualigned_paligned|lia]. }
  intros r s3 (fl3 & Has3 & Hu3 & [[-> Hadd]|(-> & -> & Hl3 & Hp3 & Hn3 & Hm3)]); [left|right].
  { split; [done|]. exists fl3. eapply copying_step; eauto. destruct Hi; lia. }
  split; [done|].
  assert (Hup : forall p, user_page (mem s3) d p <-> user_page (mem s) d p).
  { intros p. unfold user_page, frame.
    split; intros (va & Hva & H); exists va; rewrite Hl3 in * by (by apply ualigned_paligned); done. }
  assert (Hnu : ~ user_page (mem s3) d pg).
  { rewrite Hup. intros (va & Hva & Hp & E). apply (uvm_frame _ _ _ (as_uvm _ _ _ Has) va Hva) in Hp as (_ & Hn & _).
    apply Hn. rewrite <- E. left. }
  apply wp_bind. eapply wp_mono; [apply (kfree_unused_wp s3 [] d pg); try done; by apply not_elem_of_nil|].
  intros _ s4 (Has4 & Hu4 & Hs4 & Hl4 & Hp4). apply wp_bind.
  eapply wp_mono; [apply (copy_undo_wp s0 fl0 s4 [pg]); [done|congruence| |]|].
  - eapply same_except_trans; [exact Hs|]. eapply same_except_trans; (eapply same_except_mono; [|eassumption]).
    + intros p. cbv beta. rewrite Hown. tauto.
    + intros p <-. apply Hown. left. left.
  - intros p. rewrite Hown, Hp4, list_elem_of_singleton.
    assert (user_page (mem s4) d p <-> user_page (mem s) d p) as ->.
    { rewrite <- Hup. unfold user_page, frame.
      split; intros (va & Hva & H); exists va; rewrite Hl4 in * by (by apply ualigned_paligned); done. }
    pose proof (Hp3 p). tauto.
  - intros [] s' Hcf. by apply wp_ret.
Qed.

Lemma copyuvm_loop_wp s0 fl0 pgdir s1 fl1 d sz
  (Has0 : as_inv s0 fl0 pgdir) (Hok1 : Forall page_ok fl1) (Hsz : sz <= KERNBASE)
  (Hnone : forall va, ualigned va -> present (lookup_pte (mem s1) d va) = false)
  (Hpres : forall va, ualigned va -> va < sz -> present (lookup_pte (mem s0) pgdir va) = true) n :
  forall fuel s fl i,
  copying s0 fl0 pgdir s1 fl1 d i s fl -> (n < fuel)%nat -> i mod 4096 = 0 -> 0 <= i < sz + 4096 ->
  sz - i <= 4096 * Z.of_nat n ->
  wp (copyuvm_loop fuel pgdir d i sz) (fun r s' =>
    r = d /\ (exists i' fl', i' mod 4096 = 0 /\ sz <= i' < sz + 4096 /\ copying s0 fl0 pgdir s1 fl1 d i' s' fl') \/
    r = 0 /\ copy_failed s0 fl0 s') s.
Proof.
  unfold KERNBASE in *.
  induction n as [|n IH]; intros fuel s fl i Hcp Hf Hal Hr Hn;
    (destruct fuel as [|fuel]; [lia|]); cbn [copyuvm_loop];
    destruct (Z.ltb_spec i sz) as [Hlt|Hge]; try lia;
    try (apply wp_ret; left; split; [done|]; exists i, fl; split_and!; [done|lia|lia|done]).
  assert (Hua : ualigned i) by (split; [done|unfold KERNBASE; lia]).
  pose proof (Hpres i Hua Hlt) as Hp0. pose proof Hcp as [Has Hul Hmu Hs Hown].
  pose proof (vm_pt _ _ _ (as_vm _ _ _ Has0)) as Hpt0. pose proof (as_uvm _ _ _ Has0) as Hu0.
  pose proof (frozen_lookup Hpt0 Hs i (ualigned_paligned i Hua)) as El.
  assert (Hpd : present (pde (mem s) pgdir (PDX i)) = true).
  { rewrite <- El in Hp0. unfold lookup_pte in Hp0. by destruct (present (pde _ _ _)). }
  apply wp_bind. unfold wp at 1. rewrite walkpgdir_false, Hpd.
  assert (Epte : load32 (mem s) (tbl (mem s) pgdir (PDX i) + 4 * PTX i) = lookup_pte (mem s0) pgdir i).
  { rewrite <- El. unfold lookup_pte. by rewrite Hpd. }
  destruct (Z.eqb_spec (tbl (mem s) pgdir (PDX i) + 4 * PTX i) 0) as [E|_].
  { exfalso. revert E. eapply tbl_slot_nonzero; [|destruct Hua; unfold KERNBASE in *; lia|done].
    apply (frozen_pt_inv Hpt0 Hs fl). intros p Hp. apply Hown. by left. }
  apply wp_bind, wp_gets. rewrite Epte, Hp0. cbn [negb]. cbv iota zeta. fold (frame (mem s0) pgdir i).
  apply wp_bind. eapply wp_mono; [by apply kalloc_wp; apply Has|]. intros pg s2.
  destruct fl as [|pg' fl1'].
  { intros [-> ->]. change (0 =? 0) with true. cbv iota. apply wp_bind.
    eapply wp_mono; [by apply (copy_undo_wp s0 fl0 s [])|]. intros [] s' Hcf. apply wp_ret. by right. }
  intros (-> & Hk2 & Hm2 & Hu2). pose proof (vm_kinv _ _ _ (as_vm _ _ _ Has)) as Hk.
  pose proof (kinv_ok _ _ Hk) as [Hok _]%Forall_cons. pose proof (kinv_nodup _ _ Hk) as [Hnin _]%NoDup_cons.
  destruct (Z.eqb_spec pg' 0) as [E|_]; [by apply page_ok_nonzero in E|].
  apply wp_bind, wp_set_mem. intros s3 Em Ef Eu Elk.
  assert (Hk3 : kinv s3 fl1').
  { eapply (kinv_same s2 s3 fl1' (eq pg')); eauto; [|by intros q Hq <-].
    rewrite Em. apply same_except_memmove; [apply Hok|done]. }
  assert (Em' : mem s3 = memmove (mem s) pg' (frame (mem s0) pgdir i) PGSIZE) by (rewrite <- Hm2; exact Em).
  apply wp_bind. eapply wp_mono; [apply (copy_map_wp s0 fl0 pgdir s1 fl1 d i s pg' fl1' s3);
    [done|done|done|done|done|done|done|congruence|exact Em']|].
  intros r s4 [[-> [fl3 Hcp4]]|[-> Hfail]].
  - change (0 <? 0) with false. cbv iota. rewrite u32_small by (unfold PGSIZE; lia). unfold PGSIZE.
    apply (IH fuel s4 fl3); [done|lia| |lia|lia]. rewrite <- Z.add_mod_idemp_l, Hal by lia. done.
  - change (-1 <? 0) with true. cbv iota. eapply wp_mono; [exact Hfail|]. intros r s' Hfin. by right.
Qed.

(** What [copyuvm] left: nothing taken, or a child address space [r]. *)
Definition copyuvm_post (s : kstate) (fl : list Z) (pgdir sz r : Z) (s' : kstate) : Prop :=
  exists fl', same_except (fun p => p ∈ fl) (mem s) (mem s') /\
    (r = 0 /\ kinv s' fl' /\ (forall p, p ∈ fl' <-> p ∈ fl) \/
     r <> 0 /\ as_inv s' fl' r /\ as_inv s' fl' pgdir /\
     (forall p, p ∈ fl <-> p ∈ fl' \/ pt_page (mem s') r p \/ user_page (mem s') r p) /\
     forall va, ualigned va ->
       if va <? sz then exists f, f ∈ fl /\
         lookup_pte (mem s') r va =
           Z.lor (Z.lor (V2P f) (PTE_FLAGS (lookup_pte (mem s) pgdir va))) PTE_P /\
         forall i, 0 <= i < 4096 -> load8 (mem s') (f + i) = load8 (mem s) (frame (mem s) pgdir va + i)
       else lookup_pte (mem s') r va = 0).

(** C10.  [copyuvm] (fork's copy of the parent's memory).  When every page below [sz]
    is mapped it never panics and returns either 0, with every page it took free
    again, or a page table [r] whose user half is exactly that range: each page is a
    page of its own that was free, with the same permission bits and the same bytes
    as the parent's, and every page that was free is free still or belongs to the
    child.  Only pages that were free are written, so the parent's page table
    and memory are unchanged; both address spaces satisfy the invariant. *)
Theorem copyuvm_correct s fl pgdir sz :
  as_inv s fl pgdir -> 0 <= sz <= KERNBASE ->
  (forall va, ualigned va -> va < sz -> present (lookup_pte (mem s) pgdir va) = true) ->
  wp (copyuvm pgdir sz) (copyuvm_post s fl pgdir sz) s.
Proof.
  intros Has Hsz Hpres. pose proof (vm_kinv _ _ _ (as_vm _ _ _ Has)) as Hk. unfold copyuvm.
  apply wp_bind. eapply wp_mono; [by apply (setupkvm_wp s fl)|].
  intros d s1 (fl1 & Hu1 & Hs1 & [(Hd & Has1 & (t1 & Et1 & _) & Hown1 & Hl1)|(-> & Hk1 & Hf1 & _)]); cycle 1.
  { change (0 =? 0) with true. apply wp_ret. exists fl1. split; [done|]. by left. }
  destruct (Z.eqb_spec d 0) as [|_]; [done|].
  assert (Hnone : forall va, ualigned va -> lookup_pte (mem s1) d va = 0).
  { intros va Hva. rewrite Hl1 by (by apply ualigned_paligned).
    by rewrite (kmap_pte_below kmap KERNBASE) by (apply kmap_is_ok || apply Hva). }
  assert (Hcp : copying s fl pgdir s1 fl1 d 0 s1 fl1).
  { split; [done|done|apply maps_user_refl|done|]. intros p. rewrite Hown1.
    assert (~ user_page (mem s1) d p) by (intros (va & Hva & Hp & _); by rewrite Hnone in Hp). tauto. }
  unfold PGSIZE in *. pose proof (Z.div_mod (sz + 4096 - 1) 4096 ltac:(lia)).
  pose proof (Z.mod_pos_bound (sz + 4096 - 1) 4096 ltac:(lia)).
  pose proof (Z.div_pos (sz + 4096 - 1) 4096 ltac:(lia) ltac:(lia)).
  eapply wp_mono; [apply (copyuvm_loop_wp s fl pgdir s1 fl1 d sz Has) with (fl := fl1)
    (n := Z.to_nat ((sz + 4096 - 1) / 4096)); try done; try lia|].
  { pose proof (kinv_ok _ _ Hk) as Ho. rewrite Et1 in Ho. by apply Forall_app in Ho as [_ ?]. }
  { intros va Hva. by rewrite Hnone. }
  intros r s' [(-> & i' & fl' & Hal' & Hi' & [Has' _ Hmu Hs' Hown'])|(-> & fl' & Hk' & _ & Hs' & Hf')];
    exists fl'; (split; [done|]); [right|by left].
  assert (Hsub : forall p, p ∈ fl' -> p ∈ fl) by (intros p Hp; apply Hown'; by left).
  split_and!; [done|done| |done|].
  - split; [split; [apply Has'|]|]; [by apply (frozen_pt_inv (vm_pt _ _ _ (as_vm _ _ _ Has)) Hs')|].
    by apply (frozen_uvm_inv (vm_pt _ _ _ (as_vm _ _ _ Has)) (as_uvm _ _ _ Has) Hs').
  - intros va Hva. pose proof Hva as [Hal Hr]. destruct (Z.ltb_spec va sz).
    + destruct (mu_in _ _ _ _ _ _ _ _ Hmu va) as (f & Hf & El & Hb); [by apply ualigned_paligned|lia|].
      exists f. split_and!; [rewrite Et1; apply elem_of_app; by right|done|done].
    + rewrite (mu_out _ _ _ _ _ _ _ _ Hmu); [by apply Hnone|by apply ualigned_paligned|].
      apply Z.mod_divide in Hal as [k ->], Hal' as [k' ->]; lia.
Qed.
End VmCopy.

Lemma copyuvm_correct_witness :
  wp (@copyuvm example_syms 0x80202000 0x1000)
     (fun r s' => r <> 0 -> exists f, f ∈ [0x80200000; 0x80201000] /\
        lookup_pte (mem s') r 0 = Z.lor (Z.lor (V2P f) 7) PTE_P /\
        load8 (mem s') f = load8 (mem example_user) 0x80204000) example_user.
Proof.
  eapply wp_mono.
  - apply (@copyuvm_correct example_syms example_syms_ok example_user _ 0x80202000 0x1000 example_user_as);
      [unfold KERNBASE; lia|]. intros va Hva Hlt. destruct Hva as [Hal Hva].
    assert (va = 0) as -> by (apply Z.mod_divide in Hal as [k ->]; lia).
    rewrite example_user_lookup by (split; [done|lia]). done.
  - intros r s' (fl' & _ & [(-> & _)|(_ & _ & _ & _ & H)]) Hr; [done|].
    destruct (H 0) as (f & Hf & El & Hb); [split; [done|unfold KERNBASE; lia]|].
    exists f. unfold frame in Hb. rewrite example_user_lookup in El, Hb by (split; [done|lia]).
    split_and!; [done|exact El|]. specialize (Hb 0 ltac:(lia)). by rewrite !Z.add_0_r in Hb.
Defined.
