(* ===== verification/VmOut.v ===== *)
(** * Page tables (vm.c): uva2ka, copyout and clearpteu

    Writing to user memory through a page table that is not the current one, and
    taking a page away from the user.  [uread] is what a user program reads at an
    address. *)

From stdpp Require Import base numbers list gmap strings.
From Stdlib Require Import ZArith Lia.
From S2P Require Import Prelude Mmu Mem Kalloc Vm VmInv VmWalk VmUser VmGrow.

Local Open Scope Z_scope.
Local Open Scope kernel_scope.

(** The byte a user program sees at the virtual address [x]. *)
Definition uread (m : memory) (pgdir x : Z) : Z :=
  load8 m (frame m pgdir (4096 * (x / 4096)) + x mod 4096).

(** The page of [va] has a page table, and the user may access it. *)
Definition has_table (m : memory) (pgdir va : Z) : bool := present (pde m pgdir (PDX va)).
Definition user_ok (m : memory) (pgdir va : Z) : bool :=
  present (lookup_pte m pgdir va) && negb (Z.land (lookup_pte m pgdir va) PTE_U =? 0).

Section VmOut.
Context {LS : LinkSyms}.

Lemma uva2ka_wp s fl pgdir va :
  pt_inv (mem s) fl pgdir -> 0 <= va < 4294967296 -> has_table (mem s) pgdir va = true ->
  wp (uva2ka pgdir va) (fun r s' => s' = s /\
    r = if user_ok (mem s) pgdir va then frame (mem s) pgdir va else 0) s.
Proof.
  intros Hpt Hva Ht. unfold has_table in Ht. unfold uva2ka. apply wp_bind.
  unfold wp at 1. rewrite walkpgdir_false, Ht.
  destruct (Z.eqb_spec (tbl (mem s) pgdir (PDX va) + 4 * PTX va) 0) as [E|_];
    [by apply (tbl_slot_nonzero _ fl) in E|].
  apply wp_bind, wp_gets. unfold user_ok, frame, lookup_pte, present at 1. rewrite Ht. unfold present.
  destruct (Z.land _ PTE_P =? 0); [by apply wp_ret|].
  destruct (Z.land _ PTE_U =? 0); by apply wp_ret.
Qed.

(** ** Writing to a user page *)
Section Write.
  Context {s : kstate} {fl : list Z} {pgdir : Z} {s' : kstate} {va : Z}.
  Context (Has : as_inv s fl pgdir) (Hva : ualigned va)
    (Hp : present (lookup_pte (mem s) pgdir va) = true).
  Context (Hs : same_except (eq (frame (mem s) pgdir va)) (mem s) (mem s')).

Lemma uwrite_not_pt p : pt_page (mem s) pgdir p -> frame (mem s) pgdir va <> p.
Proof. intros Hpt <-. by apply (uvm_frame _ _ _ (as_uvm _ _ _ Has) va Hva Hp). Qed.

Lemma uwrite_lookup x : paligned x -> lookup_pte (mem s') pgdir x = lookup_pte (mem s) pgdir x.
Proof.
  intros [_ Hx]. apply (lookup_pte_same _ _ _ fl _ _ Hs); [apply Has|done|apply uwrite_not_pt].
Qed.

Lemma uwrite_frame x : paligned x -> frame (mem s') pgdir x = frame (mem s) pgdir x.
Proof. intros Hx. unfold frame. by rewrite uwrite_lookup. Qed.

Lemma uwrite_pde i : 0 <= i < 1024 -> pde (mem s') pgdir i = pde (mem s) pgdir i.
Proof. intros Hi. eapply pde_same; [exact Hs|apply Has|apply uwrite_not_pt; by left|done]. Qed.

Lemma uwrite_as :
  freelist s' = freelist s -> kmem_lock s' = kmem_lock s -> as_inv s' fl pgdir.
Proof.
  intros Hf Hl. destruct (uvm_frame _ _ _ (as_uvm _ _ _ Has) va Hva Hp) as (Hok & Hn & Hnp).
  assert (Hd : frame (mem s) pgdir va <> pgdir) by (apply uwrite_not_pt; by left).
  split; [split|].
  - eapply kinv_same; [apply Has|done|done|exact Hs|]. by intros q Hq <-.
  - apply (pt_inv_same _ _ _ _ _ Hs); [apply Has|done].
  - apply (uvm_inv_ext _ _ _ _ _ (as_uvm _ _ _ Has)).
    + intros p. rewrite (pt_page_same _ _ _ fl _ _ Hs); [done|apply Has|done].
    + intros x Hx. by apply uwrite_lookup, ualigned_paligned.
Qed.
End Write.

(** A user address: its page and its offset. *)
Lemma page_of x : 0 <= x < KERNBASE ->
  ualigned (4096 * (x / 4096)) /\ x = 4096 * (x / 4096) + x mod 4096 /\ 0 <= x mod 4096 < 4096.
Proof.
  unfold KERNBASE. intros Hx. pose proof (Z.div_mod x 4096 ltac:(lia)).
  pose proof (Z.mod_pos_bound x 4096 ltac:(lia)). split_and!; [split|lia..].
  - by rewrite Z.mul_comm, Z.mod_mul.
  - unfold KERNBASE. lia.
Qed.

(** Storing [l] at the user address [va], inside one page. *)
Lemma uread_store s fl pgdir m' va l x :
  as_inv s fl pgdir -> 0 <= va < KERNBASE -> va mod 4096 + Z.of_nat (length l) <= 4096 ->
  present (lookup_pte (mem s) pgdir (4096 * (va / 4096))) = true ->
  m' = store_bytes (mem s) (frame (mem s) pgdir (4096 * (va / 4096)) + va mod 4096) l ->
  0 <= x < KERNBASE -> present (lookup_pte (mem s) pgdir (4096 * (x / 4096))) = true ->
  load8 m' (frame (mem s) pgdir (4096 * (x / 4096)) + x mod 4096) =
  if (va <=? x) && (x <? va + Z.of_nat (length l)) then default 0 (l !! Z.to_nat (x - va)) mod 256
  else uread (mem s) pgdir x.
Proof.
  intros Has Hva Hlen Hp -> Hx Hpx. rewrite load8_store_bytes. fold (uread (mem s) pgdir x).
  destruct (page_of va Hva) as (Hav & Ev & Hvm), (page_of x Hx) as (Hax & Ex & Hxm).
  destruct (uvm_frame _ _ _ (as_uvm _ _ _ Has) _ Hav Hp) as ([Hfv _] & _).
  destruct (uvm_frame _ _ _ (as_uvm _ _ _ Has) _ Hax Hpx) as ([Hfx _] & _).
  destruct (Z.eq_dec (4096 * (x / 4096)) (4096 * (va / 4096))) as [E|Hne].
  - rewrite E. set (f := frame (mem s) pgdir (4096 * (va / 4096))).
    replace (f + x mod 4096 - (f + va mod 4096)) with (x - va) by lia.
    destruct (Z.leb_spec (f + va mod 4096) (f + x mod 4096)), (Z.leb_spec va x),
      (Z.ltb_spec (f + x mod 4096) (f + va mod 4096 + Z.of_nat (length l))),
      (Z.ltb_spec x (va + Z.of_nat (length l))); try lia; done.
  - assert (Hf : frame (mem s) pgdir (4096 * (x / 4096)) <> frame (mem s) pgdir (4096 * (va / 4096))).
    { intros E. by apply (uvm_inj _ _ _ (as_uvm _ _ _ Has)) in E. }
    apply Z.mod_divide in Hfv as [k1 E1], Hfx as [k2 E2]; try lia. rewrite E1, E2 in *.
    destruct (Z.leb_spec (k1 * 4096 + va mod 4096) (k2 * 4096 + x mod 4096)),
      (Z.ltb_spec (k2 * 4096 + x mod 4096) (k1 * 4096 + va mod 4096 + Z.of_nat (length l))),
      (Z.leb_spec va x), (Z.ltb_spec x (va + Z.of_nat (length l))); simpl; try lia; done.
Qed.

(** What [copyout] of [buf] to [va] did. *)
Definition copyout_post (s : kstate) (fl : list Z) (pgdir va : Z) (buf : list Z) (r : Z)
    (s' : kstate) : Prop :=
  as_inv s' fl pgdir /\ use_lock s' = use_lock s /\
  (forall x, paligned x -> lookup_pte (mem s') pgdir x = lookup_pte (mem s) pgdir x) /\
  same_except (user_page (mem s) pgdir) (mem s) (mem s') /\
  (r = 0 /\
     (forall x, va <= x < va + Z.of_nat (length buf) -> user_ok (mem s) pgdir (4096 * (x / 4096)) = true) /\
     (forall x, 0 <= x < KERNBASE -> present (lookup_pte (mem s) pgdir (4096 * (x / 4096))) = true ->
        uread (mem s') pgdir x =
        if (va <=? x) && (x <? va + Z.of_nat (length buf)) then default 0 (buf !! Z.to_nat (x - va)) mod 256
        else uread (mem s) pgdir x) \/
   r = -1 /\ exists x, va <= x < va + Z.of_nat (length buf) /\
     user_ok (mem s) pgdir (4096 * (x / 4096)) = false).

(** A first piece [l1] stored at [va], then the rest [l2] from the next page. *)
Lemma copyout_step s fl pgdir va l1 l2 s1 r s2 :
  as_inv s fl pgdir -> 0 <= va < KERNBASE -> va + Z.of_nat (length (l1 ++ l2)) <= KERNBASE ->
  0 < Z.of_nat (length l1) -> va mod 4096 + Z.of_nat (length l1) <= 4096 -> l2 = [] \/ va mod 4096 + Z.of_nat (length l1) = 4096 ->
  user_ok (mem s) pgdir (4096 * (va / 4096)) = true ->
  mem s1 = store_bytes (mem s) (frame (mem s) pgdir (4096 * (va / 4096)) + va mod 4096) l1 ->
  use_lock s1 = use_lock s ->
  same_except (eq (frame (mem s) pgdir (4096 * (va / 4096)))) (mem s) (mem s1) ->
  copyout_post s1 fl pgdir (4096 * (va / 4096) + 4096) l2 r s2 ->
  copyout_post s fl pgdir va (l1 ++ l2) r s2.
Proof.
  intros Has Hva Hend Hl1 Hlen Hsplit Hok Em Hu Hs (Has2 & Hu2 & Hl2 & Hs2 & Hr).
  pose proof Hok as [Hp _]%andb_prop. destruct (page_of va Hva) as (Hav & Ev & Hvm).
  set (a := 4096 * (va / 4096)) in *.
  pose proof (uwrite_lookup Has Hav Hp Hs) as Hl.
  assert (Eok : forall x, paligned x -> user_ok (mem s1) pgdir x = user_ok (mem s) pgdir x).
  { intros x Hx. unfold user_ok. by rewrite Hl. }
  assert (Hup : forall p, user_page (mem s1) pgdir p -> user_page (mem s) pgdir p).
  { intros p (x & Hx & Hpx & ->). exists x. unfold frame.
    by rewrite !Hl in * by (by apply ualigned_paligned). }
  split_and!; [done|congruence|intros x Hx; by rewrite Hl2, Hl| |].
  - eapply same_except_trans; [eapply same_except_mono; [|exact Hs]; intros p <-; by exists a|].
    eapply same_except_mono; [|exact Hs2]. exact Hup.
  - rewrite length_app, Nat2Z.inj_add in *. set (n1 := Z.of_nat (length l1)) in *.
    set (n2 := Z.of_nat (length l2)) in *.
    assert (Hn2 : n2 = 0 \/ va + n1 = a + 4096).
    { destruct Hsplit as [->|]; [left; done|right; lia]. }
    destruct Hr as [(-> & Hall & Hrd)|(-> & x & Hx & Hbad)]; [left|right].
    + split_and!; [done| |].
      * intros x Hx. destruct (Z.lt_ge_cases x (va + n1)).
        { rewrite (in_page a); [done|apply Hav|lia]. }
        rewrite <- Eok; [apply Hall; lia|]. by apply ualigned_paligned, page_of; lia.
      * intros x Hx Hpx. destruct (page_of x Hx) as (Hax%ualigned_paligned & _ & _).
        rewrite Hrd by (rewrite ?Hl; done). unfold uread at 1. rewrite (uwrite_frame Has Hav Hp Hs) by done.
        rewrite (uread_store s fl pgdir _ va l1 x Has Hva Hlen Hp Em Hx Hpx). fold n1.
        rewrite lookup_app. subst n1 n2.
        destruct (Z.leb_spec (a + 4096) x), (Z.ltb_spec x (a + 4096 + Z.of_nat (length l2))), (Z.leb_spec va x),
          (Z.ltb_spec x (va + Z.of_nat (length l1))), (Z.ltb_spec x (va + (Z.of_nat (length l1) + Z.of_nat (length l2))));
          cbn [andb]; try lia; try done.
        -- rewrite (lookup_ge_None_2 l1) by lia. do 3 f_equal. lia.
        -- destruct (lookup_lt_is_Some_2 l1 (Z.to_nat (x - va)) ltac:(lia)) as [y ->]. done.
    + split; [done|]. exists x. split; [lia|]. rewrite <- Eok; [done|].
      by apply ualigned_paligned, page_of; lia.
Qed.

Lemma same_except_store_bytes (P : Z -> Prop) m f o l :
  f mod 4096 = 0 -> P f -> 0 <= o -> o + Z.of_nat (length l) <= 4096 ->
  same_except P m (store_bytes m (f + o) l).
Proof.
  intros Hf HP Ho Hl a Ha. rewrite load8_store_bytes.
  destruct (out_of_page f a Hf) as [|]; [by intros E; rewrite E in Ha| |];
    destruct (Z.leb_spec (f + o) a), (Z.ltb_spec a (f + o + Z.of_nat (length l))); done || lia.
Qed.

Lemma copyout_loop_wp fl pgdir fuel : forall buf s va,
  as_inv s fl pgdir -> (length buf < fuel)%nat -> 0 <= va -> va + Z.of_nat (length buf) <= KERNBASE ->
  (forall x, va <= x < va + Z.of_nat (length buf) -> has_table (mem s) pgdir (4096 * (x / 4096)) = true) ->
  wp (copyout_loop fuel pgdir va buf) (copyout_post s fl pgdir va buf) s.
Proof.
  induction fuel as [|fuel IH]; intros buf s va Has Hf Hva Hend Ht; [lia|]. cbn [copyout_loop].
  destruct (Z.ltb_spec 0 (Z.of_nat (length buf))) as [Hlt|Hge].
  2: { apply wp_ret. split_and!; [done|done|done|apply same_except_refl|left].
       split_and!; [done|lia|]. intros x _ _. destruct (Z.leb_spec va x), (Z.ltb_spec x (va + Z.of_nat (length buf))); done || lia. }
  assert (Hvk : 0 <= va < KERNBASE) by lia. destruct (page_of va Hvk) as (Hav & Ev & Hvm).
  rewrite PGROUNDDOWN_div by (unfold KERNBASE in *; lia). cbv zeta.
  replace (va - 4096 * (va / 4096)) with (va mod 4096) by lia. set (a := 4096 * (va / 4096)) in *.
  apply wp_bind. eapply wp_mono; [apply (uva2ka_wp s fl); [apply Has|destruct Hav; unfold KERNBASE in *; lia|apply Ht; lia]|].
  intros pa s' [-> ->]. destruct (user_ok (mem s) pgdir a) eqn:Hok.
  2: { change (0 =? 0) with true. apply wp_ret. split_and!; [done|done|done|apply same_except_refl|right].
       split; [done|]. exists va. split; [lia|done]. }
  pose proof Hok as [Hp _]%andb_prop. destruct (uvm_frame _ _ _ (as_uvm _ _ _ Has) a Hav Hp) as (Hfok & _).
  destruct (Z.eqb_spec (frame (mem s) pgdir a) 0) as [E|_]; [by apply page_ok_nonzero in E|].
  set (n := Z.min (PGSIZE - va mod 4096) (Z.of_nat (length buf))). unfold PGSIZE in n.
  assert (Hl1 : Z.of_nat (length (take (Z.to_nat n) buf)) = n) by (rewrite length_take; lia).
  assert (Hl2 : Z.of_nat (length (drop (Z.to_nat n) buf)) = Z.of_nat (length buf) - n) by (rewrite length_drop; lia).
  apply wp_bind, wp_set_mem. intros s1 Em Ef Eu El.
  assert (Hs : same_except (eq (frame (mem s) pgdir a)) (mem s) (mem s1)).
  { rewrite Em. apply same_except_store_bytes; [apply Hfok|done|lia|lia]. }
  assert (Has1 : as_inv s1 fl pgdir) by (by apply (uwrite_as Has Hav Hp Hs)).
  destruct Hav as [Hal Har] eqn:EE. clear EE. unfold PGSIZE. rewrite u32_small by (unfold KERNBASE in *; lia).
  assert (Hak : a + 4096 <= KERNBASE).
  { unfold KERNBASE in *. apply Z.mod_divide in Hal as [k Hk]; [|lia]. lia. }
  eapply wp_mono; [apply (IH (drop (Z.to_nat n) buf) s1 (a + 4096)); [done|lia|lia| |]|].
  - rewrite Hl2. lia.
  - rewrite Hl2. intros x Hx. unfold has_table. rewrite (uwrite_pde Has Hav Hp Hs); [apply Ht; lia|].
    apply PDX_range. destruct (page_of x) as ([_ ?] & _); unfold KERNBASE in *; lia.
  - intros r s2 Hpost. rewrite <- (take_drop (Z.to_nat n) buf).
    apply (copyout_step s fl pgdir va _ _ s1); try done; rewrite ?take_drop, ?Hl1; try lia.
    assert (n = Z.of_nat (length buf) \/ n = 4096 - va mod 4096) as [E|E] by lia; [left|right; lia].
    apply nil_length_inv. lia.
Qed.

(** C28.  [copyout], for a range of user addresses whose page tables exist.  It writes
    the buffer and returns 0 exactly when every page of the range is mapped for the
    user, and a user program that reads the range afterwards finds the bytes of the
    buffer and elsewhere what was there; otherwise it returns -1.  In both cases the
    page table, the free pages and everything outside the user's own pages are
    unchanged. *)
Theorem copyout_correct s fl pgdir va buf :
  as_inv s fl pgdir -> 0 <= va -> va + Z.of_nat (length buf) <= KERNBASE ->
  (forall x, va <= x < va + Z.of_nat (length buf) -> has_table (mem s) pgdir (4096 * (x / 4096)) = true) ->
  wp (copyout pgdir va buf) (copyout_post s fl pgdir va buf) s.
Proof. intros. apply copyout_loop_wp; done || lia. Qed.
End VmOut.

Lemma copyout_correct_witness :
  wp (@copyout 0x80202000 0xffe [7; 9]) (fun r s' => r = 0 -> uread (mem s') 0x80202000 0xfff = 9) example_user.
Proof.
  eapply wp_mono.
  - apply (@copyout_correct example_syms example_user _ 0x80202000 0xffe [7; 9] example_user_as);
      [lia|simpl; unfold KERNBASE; lia|]. simpl length. intros x Hx. unfold has_table.
    replace (x / 4096) with 0 by (symmetry; apply Z.div_small; lia).
    rewrite example_user_pde; [done|]. apply PDX_range. lia.
  - intros r s' (_ & _ & _ & _ & [(_ & _ & H)|[-> _]]); [intros _|done].
    rewrite (H 0xfff); [done|unfold KERNBASE; lia|].
    change (4096 * (0xfff / 4096)) with 0. by rewrite example_user_lookup by (split; [done|lia]).
Defined.
