(* ===== verification/Block.v ===== *)
(** * Disk blocks (param.h, fs.h, buf.h)

    The constants of the file system and disk blocks as lists of bytes, with the
    little-endian fields that the kernel's structs lay over them. *)

From stdpp Require Import base numbers list gmap strings.
From Stdlib Require Import ZArith Lia.
From S2P Require Import Prelude.

Local Open Scope Z_scope.

(** ** param.h *)
Definition NPROC : Z := 64.
Definition NOFILE : Z := 16.
Definition NFILE : Z := 100.
Definition NINODE : Z := 50.
Definition NDEV : Z := 10.
Definition ROOTDEV : Z := 1.
Definition MAXARG : Z := 32.
Definition MAXOPBLOCKS : Z := 10.
Definition LOGSIZE : Z := MAXOPBLOCKS * 3.
Definition NBUF : Z := MAXOPBLOCKS * 3.
Definition FSSIZE : Z := 1000.

(** ** fs.h *)
Definition ROOTINO : Z := 1.
Definition BSIZE : Z := 512.
Definition NDIRECT : Z := 12.
Definition NINDIRECT : Z := BSIZE / 4.
Definition MAXFILE : Z := NDIRECT + NINDIRECT.
Definition DIRSIZ : Z := 14.
(** The sizes of struct dinode and struct dirent. *)
Definition sizeof_dinode : Z := 64.
Definition sizeof_dirent : Z := 16.
Definition IPB : Z := BSIZE / sizeof_dinode.
Definition BPB : Z := BSIZE * 8.

Record superblock := mkSuperblock {
  sb_size : Z; sb_nblocks : Z; sb_ninodes : Z; sb_nlog : Z;
  sb_logstart : Z; sb_inodestart : Z; sb_bmapstart : Z
}.

Definition IBLOCK (i : Z) (sb : superblock) : Z := u32 (i / IPB + sb_inodestart sb).
Definition BBLOCK (b : Z) (sb : superblock) : Z := u32 (b / BPB + sb_bmapstart sb).

(** ** Bytes of a block *)
Abbreviation block := (list Z).

Definition getb (d : block) (o : Z) : Z := default 0 (d !! Z.to_nat o).
Definition puts (d : block) (o : Z) (l : list Z) : block := list_inserts (Z.to_nat o) l d.
Definition putb (d : block) (o v : Z) : block := puts d o [v mod 256].

Definition get16 (d : block) (o : Z) : Z := getb d o + 256 * getb d (o + 1).
Definition get32 (d : block) (o : Z) : Z :=
  getb d o + 256 * getb d (o + 1) + 65536 * getb d (o + 2) + 16777216 * getb d (o + 3).

Definition le16 (v : Z) : list Z := [v mod 256; v / 256 mod 256].
Definition le32 (v : Z) : list Z :=
  [v mod 256; v / 256 mod 256; v / 65536 mod 256; v / 16777216 mod 256].
Definition put16 (d : block) (o v : Z) : block := puts d o (le16 v).
Definition put32 (d : block) (o v : Z) : block := puts d o (le32 v).

(** [n] bytes from offset [o]. *)
Definition gets_bytes (d : block) (o n : Z) : list Z := take (Z.to_nat n) (drop (Z.to_nat o) d).

(** A block as the disk stores it. *)
Definition block_ok (d : block) : Prop :=
  length d = Z.to_nat BSIZE /\ Forall (fun b => 0 <= b < 256) d.

Definition zero_block : block := replicate (Z.to_nat BSIZE) 0.

Lemma zero_block_ok : block_ok zero_block.
Proof. split; [apply length_replicate|]. apply Forall_replicate. lia. Qed.

Lemma length_puts d o l : length (puts d o l) = length d.
Proof. apply length_inserts. Qed.

Lemma getb_puts d o l x :
  0 <= o -> o + Z.of_nat (length l) <= Z.of_nat (length d) -> 0 <= x ->
  getb (puts d o l) x =
  if (o <=? x) && (x <? o + Z.of_nat (length l)) then default 0 (l !! Z.to_nat (x - o)) else getb d x.
Proof.
  intros Ho Hl Hx. unfold getb, puts.
  destruct (Z.leb_spec o x), (Z.ltb_spec x (o + Z.of_nat (length l))); simpl.
  - rewrite list_lookup_inserts by lia. do 2 f_equal. lia.
  - by rewrite list_lookup_inserts_ge by lia.
  - by rewrite list_lookup_inserts_lt by lia.
  - by rewrite list_lookup_inserts_lt by lia.
Qed.

Lemma getb_range d o : block_ok d -> 0 <= getb d o < 256.
Proof.
  intros [_ Hd]. unfold getb. destruct (d !! Z.to_nat o) as [b|] eqn:E; simpl; [|lia].
  by apply (Forall_lookup_1 _ _ _ _ Hd E).
Qed.

Lemma puts_ok d o l : block_ok d -> Forall (fun b => 0 <= b < 256) l -> block_ok (puts d o l).
Proof.
  intros [Hl Hf] Hl'. split; [by rewrite length_puts|].
  unfold puts. revert d Hl Hf. generalize (Z.to_nat o).
  induction l as [|x l IH]; intros i d Hl Hf; simpl; [done|].
  apply Forall_cons in Hl' as [Hx Hl']. apply Forall_insert; [|done]. by apply IH.
Qed.

Lemma byte_range v : 0 <= v mod 256 < 256.
Proof. by apply Z.mod_pos_bound. Qed.

Lemma le32_ok v : Forall (fun b => 0 <= b < 256) (le32 v).
Proof. repeat constructor; apply byte_range. Qed.

Lemma le16_ok v : Forall (fun b => 0 <= b < 256) (le16 v).
Proof. repeat constructor; apply byte_range. Qed.

Lemma put32_ok d o v : block_ok d -> block_ok (put32 d o v).
Proof. intros H. apply puts_ok; [done|apply le32_ok]. Qed.

Lemma put16_ok d o v : block_ok d -> block_ok (put16 d o v).
Proof. intros H. apply puts_ok; [done|apply le16_ok]. Qed.

Lemma putb_ok d o v : block_ok d -> block_ok (putb d o v).
Proof. intros H. apply puts_ok; [done|]. repeat constructor; apply byte_range. Qed.

(** ** Fields: what is written is read back, and other fields are kept *)
Lemma le32_sum v :
  v mod 256 + 256 * (v / 256 mod 256) + 65536 * (v / 65536 mod 256) + 16777216 * (v / 16777216 mod 256)
  = v mod 4294967296.
Proof.
  replace (v / 65536) with (v / 256 / 256) by (by rewrite Z.div_div).
  replace (v / 16777216) with (v / 256 / 256 / 256) by (by rewrite !Z.div_div).
  pose proof (Z.div_mod v 256 ltac:(lia)). pose proof (Z.div_mod (v / 256) 256 ltac:(lia)).
  pose proof (Z.div_mod (v / 256 / 256) 256 ltac:(lia)). pose proof (Z.div_mod (v / 256 / 256 / 256) 256 ltac:(lia)).
  pose proof (byte_range v). pose proof (byte_range (v / 256)). pose proof (byte_range (v / 256 / 256)).
  pose proof (byte_range (v / 256 / 256 / 256)).
  apply (Z.mod_unique _ _ (v / 256 / 256 / 256 / 256)); lia.
Qed.

Lemma le16_sum v : v mod 256 + 256 * (v / 256 mod 256) = v mod 65536.
Proof.
  pose proof (Z.div_mod v 256 ltac:(lia)). pose proof (Z.div_mod (v / 256) 256 ltac:(lia)).
  pose proof (byte_range v). pose proof (byte_range (v / 256)).
  apply (Z.mod_unique _ _ (v / 256 / 256)); lia.
Qed.

Lemma get32_puts_ne d o l x :
  0 <= o -> o + Z.of_nat (length l) <= Z.of_nat (length d) -> 0 <= x ->
  x + 4 <= o \/ o + Z.of_nat (length l) <= x -> get32 (puts d o l) x = get32 d x.
Proof.
  intros Ho Hl Hx Hd. unfold get32. rewrite !getb_puts by lia.
  repeat match goal with |- context [Z.leb ?a ?b] => destruct (Z.leb_spec a b) end;
  repeat match goal with |- context [Z.ltb ?a ?b] => destruct (Z.ltb_spec a b) end;
  simpl; try lia; done.
Qed.

Lemma get32_put32_eq d o v :
  0 <= o -> o + 4 <= Z.of_nat (length d) -> get32 (put32 d o v) o = v mod 4294967296.
Proof.
  intros Ho Hl. unfold get32, put32. rewrite !getb_puts by (simpl; lia). simpl length.
  rewrite <- le32_sum.
  repeat match goal with |- context [Z.leb ?a ?b] => destruct (Z.leb_spec a b); [|lia] end.
  repeat match goal with |- context [Z.ltb ?a ?b] => destruct (Z.ltb_spec a b); [|lia] end.
  cbn [andb]. rewrite Z.sub_diag, !Z.add_simpl_l. done.
Qed.

Lemma get32_put32_ne d o v x :
  0 <= o -> o + 4 <= Z.of_nat (length d) -> 0 <= x -> x + 4 <= o \/ o + 4 <= x ->
  get32 (put32 d o v) x = get32 d x.
Proof. intros. apply get32_puts_ne; simpl; lia. Qed.

Lemma get16_puts_ne d o l x :
  0 <= o -> o + Z.of_nat (length l) <= Z.of_nat (length d) -> 0 <= x ->
  x + 2 <= o \/ o + Z.of_nat (length l) <= x -> get16 (puts d o l) x = get16 d x.
Proof.
  intros Ho Hl Hx Hd. unfold get16. rewrite !getb_puts by lia.
  repeat match goal with |- context [Z.leb ?a ?b] => destruct (Z.leb_spec a b) end;
  repeat match goal with |- context [Z.ltb ?a ?b] => destruct (Z.ltb_spec a b) end;
  simpl; try lia; done.
Qed.

Lemma get16_put16_eq d o v :
  0 <= o -> o + 2 <= Z.of_nat (length d) -> get16 (put16 d o v) o = v mod 65536.
Proof.
  intros Ho Hl. unfold get16, put16. rewrite !getb_puts by (simpl; lia). simpl length.
  rewrite <- le16_sum.
  repeat match goal with |- context [Z.leb ?a ?b] => destruct (Z.leb_spec a b); [|lia] end.
  repeat match goal with |- context [Z.ltb ?a ?b] => destruct (Z.ltb_spec a b); [|lia] end.
  cbn [andb]. rewrite Z.sub_diag, !Z.add_simpl_l. done.
Qed.

Lemma get32_range d o : block_ok d -> 0 <= get32 d o < 4294967296.
Proof.
  intros Hd. unfold get32. pose proof (getb_range d o Hd). pose proof (getb_range d (o + 1) Hd).
  pose proof (getb_range d (o + 2) Hd). pose proof (getb_range d (o + 3) Hd). lia.
Qed.

Lemma get16_range d o : block_ok d -> 0 <= get16 d o < 65536.
Proof.
  intros Hd. unfold get16. pose proof (getb_range d o Hd). pose proof (getb_range d (o + 1) Hd). lia.
Qed.
