(* ===== verification/BlockCache.v ===== *)
(** * The buffer cache as its clients see it

    What bio.c promises to log.c: the operations, the abstract state (the
    contents a reader sees, the contents on disk, which blocks are pinned by
    [B_DIRTY] and which are locked by the caller, and the disk writes done so
    far), and the effect of each operation on it.  Bio.v implements it. *)

From stdpp Require Import base numbers list gmap strings.
From Stdlib Require Import ZArith Lia.
From S2P Require Import Prelude Block.

Local Open Scope Z_scope.

Class BlockCache (S : Type) := {
  (** bread, bwrite, brelse; a buffer is named by its index in the cache *)
  bc_read : Z -> Z -> M S nat;
  bc_write : nat -> M S unit;
  bc_relse : nat -> M S unit;
  (** b->data, b->blockno, and b->flags |= B_DIRTY *)
  bc_data : nat -> M S block;
  bc_set : nat -> block -> M S unit;
  bc_blockno : nat -> M S Z;
  bc_pin : nat -> M S unit;
  (** the abstract state *)
  bc_inv : S -> Prop;
  nblk : S -> Z;
  view : S -> Z -> block;
  ondisk : S -> Z -> block;
  dirty : S -> Z -> bool;
  held : S -> Z -> bool;
  owns : S -> nat -> Z -> Prop;
  trace : S -> list (Z * block)
}.

(** Two states of the cache that differ in at most the listed components. *)
Record bc_same {S} {BC : BlockCache S} (s s' : S) : Prop := mkBcSame {
  bs_inv : bc_inv s';
  bs_nblk : nblk s' = nblk s
}.

Class BlockCacheLaws (S : Type) {BC : BlockCache S} : Prop := {
  law_clean s b : bc_inv s -> dirty s b = false -> held s b = false -> view s b = ondisk s b;
  law_ok s b : bc_inv s -> block_ok (view s b) /\ block_ok (ondisk s b);
  (** bread: needs the block not locked, and a buffer to recycle unless it is pinned *)
  law_read s bno L : bc_inv s -> 0 <= bno < nblk s -> held s bno = false ->
    (forall b, dirty s b = true \/ held s b = true -> b ∈ L) ->
    dirty s bno = true \/ Z.of_nat (length L) < NBUF ->
    wp (bc_read ROOTDEV bno) (fun i s' => bc_same s s' /\ owns s' i bno /\ trace s' = trace s /\
      (forall b, view s' b = view s b) /\ (forall b, ondisk s' b = ondisk s b) /\
      (forall b, dirty s' b = dirty s b) /\
      (forall b, held s' b = if b =? bno then true else held s b) /\
      (forall j b, owns s j b -> owns s' j b)) s;
  law_data s i bno : bc_inv s -> owns s i bno ->
    wp (bc_data i) (fun d s' => s' = s /\ d = view s bno) s;
  law_blockno s i bno : bc_inv s -> owns s i bno ->
    wp (bc_blockno i) (fun b s' => s' = s /\ b = bno) s;
  law_set s i bno d : bc_inv s -> owns s i bno -> block_ok d ->
    wp (bc_set i d) (fun _ s' => bc_same s s' /\ trace s' = trace s /\
      (forall b, view s' b = if b =? bno then d else view s b) /\
      (forall b, ondisk s' b = ondisk s b) /\ (forall b, dirty s' b = dirty s b) /\
      (forall b, held s' b = held s b) /\ (forall j b, owns s j b -> owns s' j b)) s;
  law_pin s i bno : bc_inv s -> owns s i bno ->
    wp (bc_pin i) (fun _ s' => bc_same s s' /\ trace s' = trace s /\
      (forall b, view s' b = view s b) /\ (forall b, ondisk s' b = ondisk s b) /\
      (forall b, dirty s' b = if b =? bno then true else dirty s b) /\
      (forall b, held s' b = held s b) /\ (forall j b, owns s j b -> owns s' j b)) s;
  law_write s i bno : bc_inv s -> owns s i bno ->
    wp (bc_write i) (fun _ s' => bc_same s s' /\ trace s' = trace s ++ [(bno, view s bno)] /\
      (forall b, view s' b = view s b) /\
      (forall b, ondisk s' b = if b =? bno then view s bno else ondisk s b) /\
      (forall b, dirty s' b = if b =? bno then false else dirty s b) /\
      (forall b, held s' b = held s b) /\ (forall j b, owns s j b -> owns s' j b)) s;
  (** brelse: what was modified must have been pinned or written *)
  law_relse s i bno : bc_inv s -> owns s i bno ->
    dirty s bno = true \/ view s bno = ondisk s bno ->
    wp (bc_relse i) (fun _ s' => bc_same s s' /\ trace s' = trace s /\
      (forall b, view s' b = view s b) /\ (forall b, ondisk s' b = ondisk s b) /\
      (forall b, dirty s' b = dirty s b) /\
      (forall b, held s' b = if b =? bno then false else held s b) /\
      (forall j b, b <> bno -> owns s j b -> owns s' j b)) s
}.
