(* ===== verification/Bio.v ===== *)
(** * The buffer cache (bio.c, sleeplock.c) over the memory disk (memide.c)

    The cache of disk blocks: the array of buffers, the most-recently-used list
    as the sequence of buffer indices from [head.next] to [head.prev], and each
    buffer's sleep lock.  The sections under [bcache.lock] are atomic.  A process
    that would sleep on a buffer lock waits for another process to release it;
    with none that is the outcome [Hang].  Every write to the disk is recorded in
    [dtrace]. *)

From stdpp Require Import base numbers list gmap strings.
From Stdlib Require Import ZArith Lia.
From S2P Require Import Prelude Block BlockCache.

Local Open Scope Z_scope.
Local Open Scope kernel_scope.

(** ** buf.h *)
Definition B_VALID : Z := 2.
Definition B_DIRTY : Z := 4.

Record sleeplock := mkSleeplock { locked : bool; pid : Z }.

Record buf := mkBuf {
  flags : Z; dev : Z; blockno : Z; lock : sleeplock; refcnt : Z; data : block
}.

Record bstate := mkBstate {
  bufs : list buf;            (* bcache.buf *)
  lru : list nat;             (* bcache.head's list *)
  disk : gmap Z block;        (* memdisk *)
  disksize : Z;
  dtrace : list (Z * block);  (* the writes to memdisk *)
  mypid : Z                   (* myproc()->pid *)
}.

Definition set_flags (v : Z) (b : buf) : buf := mkBuf v (dev b) (blockno b) (lock b) (refcnt b) (data b).
Definition set_lock (v : sleeplock) (b : buf) : buf := mkBuf (flags b) (dev b) (blockno b) v (refcnt b) (data b).
Definition set_refcnt (v : Z) (b : buf) : buf := mkBuf (flags b) (dev b) (blockno b) (lock b) v (data b).
Definition set_data (v : block) (b : buf) : buf := mkBuf (flags b) (dev b) (blockno b) (lock b) (refcnt b) v.

Definition get_buf (i : nat) : M bstate buf :=
  s <- get;;
  match bufs s !! i with Some b => ret b | None => undef end.

Definition with_bufs (s : bstate) (l : list buf) : bstate :=
  mkBstate l (lru s) (disk s) (disksize s) (dtrace s) (mypid s).

Definition upd_buf (i : nat) (f : buf -> buf) : M bstate unit :=
  modify (fun s => with_bufs s (alter f i (bufs s))).

Definition set_lru (l : list nat) : M bstate unit :=
  modify (fun s => mkBstate (bufs s) l (disk s) (disksize s) (dtrace s) (mypid s)).

(** ** sleeplock.c *)
Definition acquiresleep (i : nat) : M bstate unit :=
  b <- get_buf i;;
  if locked (lock b) then hang
  else
    me <- gets mypid;;
    upd_buf i (set_lock (mkSleeplock true me)).

Definition releasesleep (i : nat) : M bstate unit := upd_buf i (set_lock (mkSleeplock false 0)).

Definition holdingsleep (i : nat) : M bstate bool :=
  b <- get_buf i;;
  me <- gets mypid;;
  ret (locked (lock b) && (pid (lock b) =? me)).

(** ** memide.c *)
Definition dread (d : gmap Z block) (b : Z) : block := default zero_block (d !! b).

Definition disk_write (b : Z) (d : block) : M bstate unit :=
  modify (fun s => mkBstate (bufs s) (lru s) (<[b := d]> (disk s)) (disksize s)
                     (dtrace s ++ [(b, d)]) (mypid s)).

Definition iderw (i : nat) : M bstate unit :=
  h <- holdingsleep i;;
  if negb h then panic "iderw: buf not locked"
  else
    b <- get_buf i;;
    if Z.land (flags b) (Z.lor B_VALID B_DIRTY) =? B_VALID then panic "iderw: nothing to do"
    else if negb (dev b =? 1) then panic "iderw: request not for disk 1"
    else
      n <- gets disksize;;
      if blockno b >=? n then panic "iderw: block out of range"
      else
        (if negb (Z.land (flags b) B_DIRTY =? 0) then
           upd_buf i (fun b => set_flags (Z.land (flags b) (Z.lnot B_DIRTY)) b);;
           disk_write (blockno b) (data b)
         else
           d <- gets disk;;
           upd_buf i (set_data (dread d (blockno b))));;
        upd_buf i (fun b => set_flags (Z.lor (flags b) B_VALID) b).

(** ** bio.c *)
Definition binit (d : gmap Z block) (size me : Z) : bstate :=
  let b0 := mkBuf 0 0 0 (mkSleeplock false 0) 0 zero_block in
  mkBstate (replicate (Z.to_nat NBUF) b0)
    (foldl (fun l i => i :: l) [] (seq 0 (Z.to_nat NBUF))) d size [] me.

(** The first buffer of the list that satisfies [p]. *)
Fixpoint scan (p : buf -> bool) (l : list buf) (order : list nat) : option nat :=
  match order with
  | [] => None
  | i :: order' =>
      match l !! i with
      | Some b => if p b then Some i else scan p l order'
      | None => scan p l order'
      end
  end.

Definition bget (d bno : Z) : M bstate nat :=
  s <- get;;
  match scan (fun b => (dev b =? d) && (blockno b =? bno)) (bufs s) (lru s) with
  | Some i =>
      upd_buf i (fun b => set_refcnt (u32 (refcnt b + 1)) b);;
      acquiresleep i;;
      ret i
  | None =>
      match scan (fun b => (refcnt b =? 0) && (Z.land (flags b) B_DIRTY =? 0)) (bufs s) (rev (lru s)) with
      | Some i =>
          upd_buf i (fun b => mkBuf 0 d bno (lock b) 1 (data b));;
          acquiresleep i;;
          ret i
      | None => panic "bget: no buffers"
      end
  end.

Definition bread (d bno : Z) : M bstate nat :=
  i <- bget d bno;;
  b <- get_buf i;;
  (if Z.land (flags b) B_VALID =? 0 then iderw i else ret tt);;
  ret i.

Definition bwrite (i : nat) : M bstate unit :=
  h <- holdingsleep i;;
  if negb h then panic "bwrite"
  else
    upd_buf i (fun b => set_flags (Z.lor (flags b) B_DIRTY) b);;
    iderw i.

Definition brelse (i : nat) : M bstate unit :=
  h <- holdingsleep i;;
  if negb h then panic "brelse"
  else
    releasesleep i;;
    upd_buf i (fun b => set_refcnt (u32 (refcnt b - 1)) b);;
    b <- get_buf i;;
    if refcnt b =? 0 then
      l <- gets lru;;
      set_lru (i :: filter (fun j => j <> i) l)
    else ret tt.

(** log.c's [b->flags |= B_DIRTY], and the fields its clients read and write. *)
Definition pin (i : nat) : M bstate unit := upd_buf i (fun b => set_flags (Z.lor (flags b) B_DIRTY) b).
Definition buf_data (i : nat) : M bstate block := b <- get_buf i;; ret (data b).
Definition buf_set (i : nat) (d : block) : M bstate unit := upd_buf i (set_data d).
Definition buf_blockno (i : nat) : M bstate Z := b <- get_buf i;; ret (blockno b).

(** ** The invariant *)
Definition buf_ok (s : bstate) (b : buf) : Prop :=
  refcnt b = (if locked (lock b) then 1 else 0) /\
  (locked (lock b) = true -> pid (lock b) = mypid s) /\
  (dev b = 0 /\ flags b = 0 /\ locked (lock b) = false \/
   dev b = 1 /\ (flags b = 2 \/ flags b = 6) /\ 0 <= blockno b < disksize s /\ block_ok (data b) /\
   (flags b = 2 -> locked (lock b) = false -> data b = dread (disk s) (blockno b))).

(** At most one buffer for each block. *)
Definition uniq (l : list buf) : Prop :=
  forall i j bi bj, l !! i = Some bi -> l !! j = Some bj -> dev bi = 1 -> dev bj = 1 ->
    blockno bi = blockno bj -> i = j.

Record binv (s : bstate) : Prop := mkBinv {
  bi_len : length (bufs s) = Z.to_nat NBUF;
  bi_lru : lru s ≡ₚ seq 0 (Z.to_nat NBUF);
  bi_bufs : forall i b, bufs s !! i = Some b -> buf_ok s b;
  bi_uniq : uniq (bufs s);
  bi_disk : forall b, block_ok (dread (disk s) b)
}.

(** ** The abstract state *)
Definition findb (l : list buf) (bno : Z) : option (nat * buf) :=
  list_find (fun b => dev b = 1 /\ blockno b = bno) l.

Definition bview (s : bstate) (bno : Z) : block :=
  match findb (bufs s) bno with Some (_, b) => data b | None => dread (disk s) bno end.
Definition bdirty (s : bstate) (bno : Z) : bool :=
  match findb (bufs s) bno with Some (_, b) => flags b =? 6 | None => false end.
Definition bheld (s : bstate) (bno : Z) : bool :=
  match findb (bufs s) bno with Some (_, b) => locked (lock b) | None => false end.
Definition bowns (s : bstate) (i : nat) (bno : Z) : Prop :=
  exists b, bufs s !! i = Some b /\ dev b = 1 /\ blockno b = bno /\ locked (lock b) = true.

Lemma findb_Some l bno i b : uniq l ->
  findb l bno = Some (i, b) <-> l !! i = Some b /\ dev b = 1 /\ blockno b = bno.
Proof.
  intros Hu. unfold findb. rewrite list_find_Some. split; [tauto|].
  intros (Hl & Hd & Hb). split_and!; [done|done|done|]. intros j y Hj Hlt [Hd' Hb'].
  assert (j = i) by (apply (Hu j i y b); congruence). lia.
Qed.

Lemma findb_None l bno : findb l bno = None <-> forall i b, l !! i = Some b -> ~ (dev b = 1 /\ blockno b = bno).
Proof.
  unfold findb. rewrite list_find_None, Forall_lookup. done.
Qed.

(** Replacing one buffer. *)
Lemma uniq_insert l i b' : uniq l ->
  (forall j b, l !! j = Some b -> dev b = 1 -> blockno b = blockno b' -> j = i) ->
  uniq (<[i := b']> l).
Proof.
  intros Hu Hk j k bj bk. rewrite !list_lookup_insert_Some.
  intros [(-> & <- & _)|[Hne Hj]] [(-> & <- & _)|[Hne' Hk']] Hd Hd' E; try done.
  - symmetry. by apply (Hk k bk).
  - by apply (Hk j bj).
  - by apply (Hu j k bj bk).
Qed.

Lemma findb_insert l i b' x : uniq l -> (i < length l)%nat -> dev b' = 1 ->
  (forall j b, l !! j = Some b -> dev b = 1 -> blockno b = blockno b' -> j = i) ->
  findb (<[i := b']> l) x =
  if x =? blockno b' then Some (i, b')
  else match findb l x with Some (j, b) => if decide (j = i) then None else Some (j, b) | None => None end.
Proof.
  intros Hu Hi Hd Hk. pose proof (uniq_insert l i b' Hu Hk) as Hu'.
  destruct (Z.eqb_spec x (blockno b')) as [->|Hx].
  { apply findb_Some; [done|]. by rewrite list_lookup_insert_eq by done. }
  destruct (findb (<[i := b']> l) x) as [[j b]|] eqn:E.
  - apply findb_Some in E as (Hj & Hdj & Hbj); [|done].
    apply list_lookup_insert_Some in Hj as [(-> & -> & _)|[Hne Hj]]; [congruence|].
    assert (findb l x = Some (j, b)) as -> by (by apply findb_Some). by rewrite decide_False.
  - rewrite findb_None in E. destruct (findb l x) as [[j b]|] eqn:E'; [|done].
    apply findb_Some in E' as (Hj & Hdj & Hbj); [|done]. destruct (decide (j = i)) as [|Hne]; [done|].
    destruct (E j b); [|done]. by rewrite list_lookup_insert_ne.
Qed.

(** The same block, another state of its buffer. *)
Lemma findb_same l i b b' x : uniq l -> l !! i = Some b -> dev b = 1 -> dev b' = 1 ->
  blockno b' = blockno b ->
  findb (<[i := b']> l) x = if x =? blockno b then Some (i, b') else findb l x.
Proof.
  intros Hu Hi Hd Hd' Hb. pose proof (lookup_lt_Some _ _ _ Hi) as Hlt.
  rewrite findb_insert; [|done|done|done|]; rewrite Hb.
  - destruct (Z.eqb_spec x (blockno b)) as [|Hx]; [done|].
    destruct (findb l x) as [[j bj]|] eqn:E; [|done]. destruct (decide (j = i)) as [->|]; [|done].
    apply findb_Some in E as (Hj & _ & Ex); [|done]. congruence.
  - intros j bj Hj Hdj Hbj. by apply (Hu j i bj b).
Qed.

(** ** One buffer of the caller changes *)
Definition step_buf (s : bstate) (i : nat) (b' : buf) (l : list nat) (d : gmap Z block)
    (tr : list (Z * block)) : bstate :=
  mkBstate (<[i := b']> (bufs s)) l d (disksize s) tr (mypid s).

Lemma step_buf_inv s i b b' l d tr :
  binv s -> bufs s !! i = Some b -> dev b = 1 -> dev b' = 1 -> blockno b' = blockno b ->
  l ≡ₚ lru s -> (forall x, x <> blockno b -> dread d x = dread (disk s) x) ->
  block_ok (dread d (blockno b)) -> buf_ok (step_buf s i b' l d tr) b' ->
  binv (step_buf s i b' l d tr).
Proof.
  intros [Hlen Hlru Hok Hu Hdk] Hi Hd Hd' Hb Hl Hx Hbx Hok'. split.
  - simpl. by rewrite length_insert.
  - simpl. by rewrite Hl.
  - intros j bj. simpl. rewrite list_lookup_insert_Some. intros [(<- & -> & _)|[Hne Hj]]; [done|].
    destruct (Hok j bj Hj) as (H1 & H2 & H3). split_and!; [done|done|]. destruct H3 as [H3|(Hdj & Hf & Hr & Hbk & H3)]; [by left|].
    right. split; [done|]. split; [done|]. split; [done|]. split; [done|]. intros Hf2 Hlk. rewrite Hx; [by apply H3|].
    intros E. apply Hne. symmetry. by apply (Hu j i bj b).
  - apply uniq_insert; [done|]. intros j bj Hj Hdj E. rewrite Hb in E. by apply (Hu j i bj b).
  - intros x. simpl. destruct (Z.eq_dec x (blockno b)) as [->|Hne]; [done|]. rewrite Hx by done. apply Hdk.
Qed.

Lemma step_buf_find s i b b' l d tr x :
  binv s -> bufs s !! i = Some b -> dev b = 1 -> dev b' = 1 -> blockno b' = blockno b ->
  findb (bufs (step_buf s i b' l d tr)) x =
  if x =? blockno b then Some (i, b') else findb (bufs s) x.
Proof. intros Hs Hi Hd Hd' Hb. by apply findb_same; [apply Hs|..]. Qed.

Lemma own_find s i bno b :
  binv s -> bufs s !! i = Some b -> dev b = 1 -> blockno b = bno -> findb (bufs s) bno = Some (i, b).
Proof. intros Hs Hi Hd Hb. apply findb_Some; [apply Hs|done]. Qed.

Lemma step_buf_owns s i b b' l d tr j bno :
  bufs s !! i = Some b -> dev b = 1 -> dev b' = 1 -> blockno b' = blockno b -> binv s ->
  (locked (lock b') = true \/ bno <> blockno b) -> bowns s j bno -> bowns (step_buf s i b' l d tr) j bno.
Proof.
  intros Hi Hd Hd' Hb Hs Hl (bj & Hj & Hdj & Hbj & Hlk). unfold bowns, step_buf. simpl.
  destruct (decide (j = i)) as [->|Hne].
  - exists b'. rewrite list_lookup_insert_eq by (by eapply lookup_lt_Some).
    assert (bj = b) as -> by congruence. destruct Hl as [Hl|Hl]; [|congruence]. split_and!; congruence.
  - exists bj. by rewrite list_lookup_insert_ne.
Qed.

(** What the caller sees of such a step. *)
Lemma step_buf_abs s i b b' l d tr :
  binv s -> bufs s !! i = Some b -> dev b = 1 -> dev b' = 1 -> blockno b' = blockno b ->
  (forall x, x <> blockno b -> dread d x = dread (disk s) x) ->
  let s' := step_buf s i b' l d tr in
  (forall x, bview s' x = if x =? blockno b then data b' else bview s x) /\
  (forall x, bdirty s' x = if x =? blockno b then flags b' =? 6 else bdirty s x) /\
  (forall x, bheld s' x = if x =? blockno b then locked (lock b') else bheld s x) /\
  bview s (blockno b) = data b /\ bdirty s (blockno b) = (flags b =? 6) /\
  bheld s (blockno b) = locked (lock b).
Proof.
  intros Hs Hi Hd Hd' Hb Hx s'. pose proof (own_find s i _ b Hs Hi Hd eq_refl) as E.
  pose proof (step_buf_find s i b b' l d tr) as Hf. fold s' in Hf.
  split_and!; [intros x; unfold bview|intros x; unfold bdirty|intros x; unfold bheld|
    unfold bview|unfold bdirty|unfold bheld]; rewrite ?Hf, ?E by done; try done;
    destruct (Z.eqb_spec x (blockno b)) as [|Hne]; try done.
  destruct (findb (bufs s) x) as [[j bj]|]; [done|]. simpl. by apply Hx.
Qed.

(** ** Running the operations *)
Lemma upd_buf_run i f s b : bufs s !! i = Some b ->
  upd_buf i f s = Ret tt (with_bufs s (<[i := f b]> (bufs s))).
Proof.
  intros Hi. unfold upd_buf, modify. do 2 f_equal. by apply alter_insert.
Qed.

Lemma get_buf_run i s b : bufs s !! i = Some b -> get_buf i s = Ret b s.
Proof. intros Hi. unfold get_buf, bind, get. by rewrite Hi. Qed.

Lemma holdingsleep_run i s b : bufs s !! i = Some b -> locked (lock b) = true -> pid (lock b) = mypid s ->
  holdingsleep i s = Ret true s.
Proof.
  intros Hi Hl Hp. unfold holdingsleep, bind. rewrite (get_buf_run i s b Hi). unfold gets, ret.
  by rewrite Hl, Hp, Z.eqb_refl.
Qed.

(** An owned buffer. *)
Lemma owned s i bno : binv s -> bowns s i bno -> exists b, bufs s !! i = Some b /\ dev b = 1 /\
  blockno b = bno /\ locked (lock b) = true /\ pid (lock b) = mypid s /\ refcnt b = 1 /\
  (flags b = 2 \/ flags b = 6) /\ 0 <= bno < disksize s /\ block_ok (data b).
Proof.
  intros Hs (b & Hi & Hd & Hb & Hl). exists b. destruct (bi_bufs s Hs i b Hi) as (Hr & Hp & H).
  rewrite Hl in Hr. destruct H as [(E & _)|(_ & Hf & Hrg & Hok & _)]; [congruence|]. subst bno.
  split_and!; try done; try lia. by apply Hp.
Qed.

#[export] Instance bio_cache : BlockCache bstate := {|
  bc_read := bread; bc_write := bwrite; bc_relse := brelse;
  bc_data := buf_data; bc_set := buf_set; bc_blockno := buf_blockno; bc_pin := pin;
  bc_inv := binv; nblk := disksize; view := bview; ondisk := fun s b => dread (disk s) b;
  dirty := bdirty; held := bheld; owns := bowns; trace := dtrace
|}.

Lemma with_bufs_step s i b' : with_bufs s (<[i := b']> (bufs s)) = step_buf s i b' (lru s) (disk s) (dtrace s).
Proof. done. Qed.

Lemma step_buf_twice s i b' l d tr b'' l' d' tr' :
  step_buf (step_buf s i b' l d tr) i b'' l' d' tr' = step_buf s i b'' l' d' tr'.
Proof. unfold step_buf. simpl. f_equal. apply list_insert_insert_eq. Qed.

Lemma step_buf_lookup s i b b' l d tr : bufs s !! i = Some b -> bufs (step_buf s i b' l d tr) !! i = Some b'.
Proof. intros Hi. apply list_lookup_insert_eq. by eapply lookup_lt_Some. Qed.

Lemma dread_insert d b x v : dread (<[b := v]> d) x = if x =? b then v else dread d x.
Proof.
  unfold dread. destruct (Z.eqb_spec x b) as [->|]; [by rewrite lookup_insert_eq|].
  by rewrite lookup_insert_ne.
Qed.

(** The write of an owned buffer. *)
Lemma bwrite_run s i b : bufs s !! i = Some b -> dev b = 1 -> locked (lock b) = true ->
  pid (lock b) = mypid s -> flags b = 2 \/ flags b = 6 -> blockno b < disksize s ->
  bwrite i s = Ret tt (step_buf s i (set_flags 2 b) (lru s) (<[blockno b := data b]> (disk s))
                         (dtrace s ++ [(blockno b, data b)])).
Proof.
  intros Hi Hd Hl Hp Hf Hn. unfold bwrite.
  rewrite (bind_run _ _ _ _ _ (holdingsleep_run i s b Hi Hl Hp)). cbn [negb].
  rewrite (bind_run _ _ _ _ _ (upd_buf_run i _ s b Hi)), with_bufs_step.
  set (b1 := set_flags (Z.lor (flags b) B_DIRTY) b). set (s1 := step_buf _ _ _ _ _ _).
  assert (Hi1 : bufs s1 !! i = Some b1) by (by eapply step_buf_lookup).
  assert (Ef : flags b1 = 6) by (by destruct Hf as [E|E]; unfold b1; simpl; rewrite E).
  unfold iderw. rewrite (bind_run _ _ _ _ _ (holdingsleep_run i s1 b1 Hi1 Hl Hp)). cbn [negb].
  rewrite (bind_run _ _ _ _ _ (get_buf_run i s1 b1 Hi1)). rewrite Ef. change (dev b1) with (dev b). rewrite Hd.
  change (Z.land 6 (Z.lor B_VALID B_DIRTY) =? B_VALID) with false. change (negb (1 =? 1)) with false. cbv iota.
  rewrite bind_gets. change (blockno b1) with (blockno b). change (disksize s1) with (disksize s).
  destruct (Z.geb_spec (blockno b) (disksize s)); [lia|].
  change (negb (Z.land 6 B_DIRTY =? 0)) with true. cbv iota.
  erewrite bind_run; [|erewrite bind_run; [reflexivity|by apply (upd_buf_run i _ s1 b1)]].
  erewrite upd_buf_run; [|simpl; apply list_lookup_insert_eq; rewrite length_insert; by eapply lookup_lt_Some].
  f_equal. unfold step_buf, with_bufs. simpl. rewrite !list_insert_insert_eq. unfold set_flags. simpl.
  by destruct Hf as [E|E]; rewrite E.
Qed.

Lemma brelse_run s i b : bufs s !! i = Some b -> locked (lock b) = true ->
  pid (lock b) = mypid s -> refcnt b = 1 ->
  brelse i s = Ret tt (step_buf s i (set_refcnt 0 (set_lock (mkSleeplock false 0) b))
                         (i :: filter (fun j => j <> i) (lru s)) (disk s) (dtrace s)).
Proof.
  intros Hi Hl Hp Hr. unfold brelse.
  rewrite (bind_run _ _ _ _ _ (holdingsleep_run i s b Hi Hl Hp)). cbn [negb]. unfold releasesleep.
  rewrite (bind_run _ _ _ _ _ (upd_buf_run i _ s b Hi)), with_bufs_step. set (s1 := step_buf _ _ _ _ _ _).
  assert (Hi1 : bufs s1 !! i = Some (set_lock (mkSleeplock false 0) b)) by (by eapply step_buf_lookup).
  rewrite (bind_run _ _ _ _ _ (upd_buf_run i _ s1 _ Hi1)), with_bufs_step. unfold s1.
  rewrite step_buf_twice. simpl refcnt. rewrite Hr. change (u32 (1 - 1)) with 0.
  rewrite (bind_run _ _ _ _ _ (get_buf_run i _ _ (step_buf_lookup _ _ _ _ _ _ _ Hi))). done.
Qed.

Lemma lru_front (l : list nat) i n : l ≡ₚ seq 0 n -> (i < n)%nat -> i :: filter (fun j => j <> i) l ≡ₚ l.
Proof.
  intros Hl Hi. assert (Hin : i ∈ l) by (rewrite Hl; apply elem_of_seq; lia).
  assert (Hnd : NoDup l) by (rewrite Hl; apply NoDup_seq).
  apply NoDup_Permutation; [apply NoDup_cons; split; [|by apply NoDup_filter]|done|].
  - rewrite list_elem_of_filter. by intros [? _].
  - intros x. rewrite elem_of_cons, list_elem_of_filter. destruct (decide (x = i)) as [->|]; tauto.
Qed.

(** [scan] finds a buffer when there is one. *)
Lemma scan_Some p l order i :
  scan p l order = Some i -> i ∈ order /\ exists b, l !! i = Some b /\ p b = true.
Proof.
  induction order as [|j order IH]; simpl; [done|].
  destruct (l !! j) as [b|] eqn:E; [destruct (p b) eqn:Ep|].
  - intros [= <-]. split; [left|eauto].
  - intros H. destruct (IH H) as [? ?]. split; [by right|done].
  - intros H. destruct (IH H) as [? ?]. split; [by right|done].
Qed.

Lemma scan_None p l order i b :
  scan p l order = None -> i ∈ order -> l !! i = Some b -> p b = false.
Proof.
  induction order as [|j order IH]; simpl; intros H Hi Hl; [by apply elem_of_nil in Hi|].
  apply elem_of_cons in Hi as [->|Hi].
  - rewrite Hl in H. by destruct (p b).
  - destruct (l !! j) as [b'|]; [destruct (p b'); [done|]|]; by apply IH.
Qed.

Lemma in_lru s i b : binv s -> bufs s !! i = Some b -> i ∈ lru s.
Proof.
  intros Hs Hi. rewrite (bi_lru s Hs). apply elem_of_seq. apply lookup_lt_Some in Hi.
  rewrite (bi_len s Hs) in Hi. lia.
Qed.

(** With fewer than [NBUF] blocks pinned or locked, a buffer can be recycled. *)
Lemma some_free s L : binv s ->
  (forall b, bdirty s b = true \/ bheld s b = true -> b ∈ L) -> Z.of_nat (length L) < NBUF ->
  exists i b, bufs s !! i = Some b /\ refcnt b = 0 /\ Z.land (flags b) B_DIRTY = 0.
Proof.
  intros Hs HL Hlen.
  destruct (decide (Exists (fun b => refcnt b = 0 /\ Z.land (flags b) B_DIRTY = 0) (bufs s))) as [He|Hn].
  { apply Exists_exists in He as (b & Hb & H). apply list_elem_of_lookup in Hb as [i Hi]. exists i, b. tauto. }
  exfalso. rewrite <- Forall_Exists_neg in Hn. rewrite Forall_lookup in Hn.
  assert (Hbusy : forall i b, bufs s !! i = Some b -> dev b = 1 /\ blockno b ∈ L).
  { intros i b Hi. specialize (Hn i b Hi). destruct (bi_bufs s Hs i b Hi) as (Hr & _ & H).
    destruct H as [(_ & Hf & Hlk)|(Hd & Hf & _)].
    { rewrite Hlk in Hr. rewrite Hf in Hn. tauto. }
    split; [done|]. apply HL. unfold bdirty, bheld. rewrite (own_find s i _ b) by done.
    destruct Hf as [Hf|Hf]; rewrite Hf in *; [right|by left].
    destruct (locked (lock b)); [done|]. destruct Hn. done. }
  assert (Hnd : NoDup (blockno <$> bufs s)).
  { apply NoDup_alt. intros i j x. rewrite !list_lookup_fmap, !fmap_Some.
    intros (bi & Hi & ->) (bj & Hj & E). apply (bi_uniq s Hs i j bi bj); try done; by eapply Hbusy. }
  assert (Hsub : (blockno <$> bufs s) ⊆ L).
  { intros x. rewrite list_elem_of_fmap. intros (b & -> & [i Hi]%list_elem_of_lookup). by eapply Hbusy. }
  pose proof (submseteq_length _ _ (NoDup_submseteq _ _ Hnd Hsub)) as Hle.
  rewrite length_fmap, (bi_len s Hs) in Hle. unfold NBUF, MAXOPBLOCKS in *. lia.
Qed.

Lemma acquiresleep_run s i b : bufs s !! i = Some b -> locked (lock b) = false ->
  acquiresleep i s = Ret tt (with_bufs s (<[i := set_lock (mkSleeplock true (mypid s)) b]> (bufs s))).
Proof.
  intros Hi Hl. unfold acquiresleep. rewrite (bind_run _ _ _ _ _ (get_buf_run i s b Hi)), Hl, bind_gets.
  by apply upd_buf_run.
Qed.

(** [iderw] on a buffer that was just recycled. *)
Lemma iderw_read s i b : bufs s !! i = Some b -> dev b = 1 -> locked (lock b) = true ->
  pid (lock b) = mypid s -> flags b = 0 -> blockno b < disksize s ->
  iderw i s = Ret tt (step_buf s i (set_flags 2 (set_data (dread (disk s) (blockno b)) b))
                        (lru s) (disk s) (dtrace s)).
Proof.
  intros Hi Hd Hl Hp Hf Hn. unfold iderw.
  rewrite (bind_run _ _ _ _ _ (holdingsleep_run i s b Hi Hl Hp)). cbn [negb].
  rewrite (bind_run _ _ _ _ _ (get_buf_run i s b Hi)), Hf, Hd.
  change (Z.land 0 (Z.lor B_VALID B_DIRTY) =? B_VALID) with false. change (negb (1 =? 1)) with false. cbv iota.
  rewrite bind_gets. destruct (Z.geb_spec (blockno b) (disksize s)); [lia|].
  change (negb (Z.land 0 B_DIRTY =? 0)) with false. cbv iota.
  erewrite bind_run; [|rewrite bind_gets; by apply (upd_buf_run i _ s b)].
  rewrite with_bufs_step. erewrite upd_buf_run; [|by eapply step_buf_lookup].
  rewrite with_bufs_step, step_buf_twice. unfold set_flags, set_data. simpl. by rewrite Hf.
Qed.

(** The block is cached. *)
Lemma bread_hit s i b : binv s -> bufs s !! i = Some b -> dev b = 1 -> locked (lock b) = false ->
  bread 1 (blockno b) s =
  Ret i (step_buf s i (set_lock (mkSleeplock true (mypid s)) (set_refcnt 1 b)) (lru s) (disk s) (dtrace s)).
Proof.
  intros Hs Hi Hd Hl. unfold bread.
  assert (Hg : bget 1 (blockno b) s =
    Ret i (step_buf s i (set_lock (mkSleeplock true (mypid s)) (set_refcnt 1 b)) (lru s) (disk s) (dtrace s))).
  { unfold bget. rewrite bind_get.
    destruct (scan _ _ _) as [j|] eqn:E.
    - apply scan_Some in E as (_ & bj & Hj & Hm). b2p.
      assert (j = i) as -> by (apply (bi_uniq s Hs j i bj b); done). assert (bj = b) as -> by congruence.
      rewrite (bind_run _ _ _ _ _ (upd_buf_run i _ s b Hi)), with_bufs_step. set (s1 := step_buf _ _ _ _ _ _).
      assert (Hi1 : bufs s1 !! i = Some (set_refcnt (u32 (refcnt b + 1)) b)) by (by eapply step_buf_lookup).
      rewrite (bind_run _ _ _ _ _ (acquiresleep_run s1 i _ Hi1 Hl)), with_bufs_step. unfold s1.
      rewrite step_buf_twice. destruct (bi_bufs s Hs i b Hi) as (Hr & _). rewrite Hl in Hr. by rewrite Hr.
    - exfalso. apply (scan_None _ _ _ i b E) in Hi; [|by eapply in_lru]. by rewrite Hd, !Z.eqb_refl in Hi. }
  rewrite (bind_run _ _ _ _ _ Hg).
  rewrite (bind_run _ _ _ _ _ (get_buf_run i _ _ (step_buf_lookup _ _ _ _ _ _ _ Hi))). simpl flags.
  destruct (bi_bufs s Hs i b Hi) as (_ & _ & [(E & _)|(_ & Hf & _)]); [congruence|].
  destruct Hf as [Hf|Hf]; rewrite Hf; done.
Qed.

(** The block is not cached: the buffer [i] that is recycled. *)
Lemma bread_miss s bno L : binv s -> 0 <= bno < disksize s -> findb (bufs s) bno = None ->
  (forall b, bdirty s b = true \/ bheld s b = true -> b ∈ L) -> Z.of_nat (length L) < NBUF ->
  exists i b, bufs s !! i = Some b /\ locked (lock b) = false /\ refcnt b = 0 /\
    (dev b = 1 -> flags b = 2 /\ data b = dread (disk s) (blockno b)) /\
    bread 1 bno s = Ret i (step_buf s i (mkBuf 2 1 bno (mkSleeplock true (mypid s)) 1 (dread (disk s) bno))
                             (lru s) (disk s) (dtrace s)).
Proof.
  intros Hs Hb Hn HL Hlen. unfold bread. rewrite findb_None in Hn.
  destruct (scan (fun b => (dev b =? 1) && (blockno b =? bno)) (bufs s) (lru s)) as [j|] eqn:E.
  { apply scan_Some in E as (_ & bj & Hj & Hm). b2p. by destruct (Hn j bj Hj). }
  destruct (scan (fun b => (refcnt b =? 0) && (Z.land (flags b) B_DIRTY =? 0)) (bufs s) (rev (lru s))) as [i|] eqn:E2.
  2: { exfalso. destruct (some_free s L Hs HL Hlen) as (i & b & Hi & Hr & Hf).
       apply (scan_None _ _ _ i b E2) in Hi as Hp; [|rewrite <- Permutation_rev; by eapply in_lru].
       by rewrite Hr, Hf in Hp. }
  destruct (scan_Some _ _ _ _ E2) as (_ & b & Hi & Hm). b2p. exists i, b.
  destruct (bi_bufs s Hs i b Hi) as (Hr & _ & H1).
  assert (Hl : locked (lock b) = false) by (destruct (locked (lock b)); [lia|done]).
  split; [done|]. split; [done|]. split; [done|]. split.
  { intros Hd. destruct H1 as [(? & _)|(_ & [Hf|Hf] & _ & _ & H1)]; [congruence| |by rewrite Hf in *]. auto. }
  set (b1 := mkBuf 0 1 bno (lock b) 1 (data b)). set (b2 := set_lock (mkSleeplock true (mypid s)) b1).
  assert (Hg : bget 1 bno s = Ret i (step_buf s i b2 (lru s) (disk s) (dtrace s))).
  { unfold bget. rewrite bind_get, E, E2.
    rewrite (bind_run _ _ _ _ _ (upd_buf_run i _ s b Hi)), with_bufs_step. fold b1. set (s1 := step_buf _ _ _ _ _ _).
    assert (Hi1 : bufs s1 !! i = Some b1) by (by eapply step_buf_lookup).
    rewrite (bind_run _ _ _ _ _ (acquiresleep_run s1 i b1 Hi1 Hl)), with_bufs_step. unfold s1.
    by rewrite step_buf_twice. }
  rewrite (bind_run _ _ _ _ _ Hg).
  rewrite (bind_run _ _ _ _ _ (get_buf_run i _ _ (step_buf_lookup _ _ _ _ _ _ _ Hi))).
  change (Z.land (flags b2) B_VALID =? 0) with true. cbv iota.
  erewrite bind_run; [|apply (iderw_read _ i b2); try done; [by eapply step_buf_lookup|simpl; lia]].
  by rewrite step_buf_twice.
Qed.

(** ** bio.c implements the interface *)
Lemma buf_ok_step s i b b' l d tr : binv s -> bufs s !! i = Some b -> dev b = 1 ->
  dev b' = 1 -> blockno b' = blockno b -> refcnt b' = (if locked (lock b') then 1 else 0) ->
  (locked (lock b') = true -> pid (lock b') = mypid s) -> flags b' = 2 \/ flags b' = 6 ->
  block_ok (data b') ->
  (flags b' = 2 -> locked (lock b') = false -> data b' = dread d (blockno b)) ->
  buf_ok (step_buf s i b' l d tr) b'.
Proof.
  intros Hs Hi Hd Hd' Hb Hr Hp Hf Hok Hc. destruct (bi_bufs s Hs i b Hi) as (_ & _ & [(E & _)|(_ & _ & Hn & _)]); [congruence|].
  split; [done|]. split; [done|]. right. rewrite Hb. done.
Qed.

(** Recycling the buffer [i] for the block [bno]. *)
Lemma recycle s i b b' bno : binv s -> findb (bufs s) bno = None -> 0 <= bno < disksize s ->
  bufs s !! i = Some b -> locked (lock b) = false ->
  (dev b = 1 -> flags b = 2 /\ data b = dread (disk s) (blockno b)) ->
  b' = mkBuf 2 1 bno (mkSleeplock true (mypid s)) 1 (dread (disk s) bno) ->
  let s' := step_buf s i b' (lru s) (disk s) (dtrace s) in
  binv s' /\ (forall x, bview s' x = bview s x) /\ (forall x, bdirty s' x = bdirty s x) /\
  (forall x, bheld s' x = if x =? bno then true else bheld s x) /\
  (forall j x, bowns s j x -> bowns s' j x).
Proof.
  intros Hs Hn Hb Hi Hl Hc Eb' s'. pose proof Hn as Hn'. rewrite findb_None in Hn'.
  assert (Hk : forall j bj, bufs s !! j = Some bj -> dev bj = 1 -> blockno bj = blockno b' -> j = i).
  { intros j bj Hj Hdj Ej. subst b'. by destruct (Hn' j bj Hj). }
  assert (Hfind : forall x, findb (bufs s') x = if x =? bno then Some (i, b')
    else match findb (bufs s) x with Some (j, bj) => if decide (j = i) then None else Some (j, bj) | None => None end).
  { intros x. unfold s', step_buf. cbn [bufs]. rewrite findb_insert; [by subst b'|apply Hs| |by subst b'|done].
    by eapply lookup_lt_Some. }
  assert (Hold : forall x bj, findb (bufs s) x = Some (i, bj) -> bj = b /\ dev b = 1 /\ blockno b = x).
  { intros x bj (Hj & ? & ?)%findb_Some; [|apply Hs]. assert (bj = b) as -> by congruence. done. }
  split_and!.
  - destruct Hs as [Hlen Hlru Hok Hu Hdk]. split; [by simpl; rewrite length_insert|done| |by apply uniq_insert|done].
    intros j bj. simpl. rewrite list_lookup_insert_Some. intros [(<- & <- & _)|[_ Hj]]; [|by apply (Hok j bj)].
    subst b'. split; [done|]. split; [done|]. right. simpl. split; [done|]. split; [by left|]. done.
  - intros x. unfold bview. rewrite Hfind. destruct (Z.eqb_spec x bno) as [->|]; [by rewrite Hn; subst b'|].
    destruct (findb (bufs s) x) as [[j bj]|] eqn:E; [|done]. destruct (decide (j = i)) as [->|]; [|done].
    destruct (Hold x bj E) as (-> & Hd & <-). symmetry. by apply Hc.
  - intros x. unfold bdirty. rewrite Hfind. destruct (Z.eqb_spec x bno) as [->|]; [by rewrite Hn; subst b'|].
    destruct (findb (bufs s) x) as [[j bj]|] eqn:E; [|done]. destruct (decide (j = i)) as [->|]; [|done].
    destruct (Hold x bj E) as (-> & Hd & <-). by destruct (Hc Hd) as [-> _].
  - intros x. unfold bheld. rewrite Hfind. destruct (Z.eqb_spec x bno) as [->|]; [by subst b'|].
    destruct (findb (bufs s) x) as [[j bj]|] eqn:E; [|done]. destruct (decide (j = i)) as [->|]; [|done].
    destruct (Hold x bj E) as (-> & Hd & <-). done.
  - intros j x (bj & Hj & Hdj & Hbj & Hlj). exists bj. unfold s', step_buf. cbn [bufs].
    rewrite list_lookup_insert_ne; [done|]. intros <-. congruence.
Qed.

Lemma bio_read s bno L : binv s -> 0 <= bno < disksize s -> bheld s bno = false ->
  (forall b, bdirty s b = true \/ bheld s b = true -> b ∈ L) ->
  bdirty s bno = true \/ Z.of_nat (length L) < NBUF ->
  wp (bread 1 bno) (fun i s' => bc_same s s' /\ bowns s' i bno /\ dtrace s' = dtrace s /\
    (forall b, bview s' b = bview s b) /\ disk s' = disk s /\ (forall b, bdirty s' b = bdirty s b) /\
    (forall b, bheld s' b = if b =? bno then true else bheld s b) /\
    (forall j b, bowns s j b -> bowns s' j b)) s.
Proof.
  intros Hs Hb Hh HL Hlen. destruct (findb (bufs s) bno) as [[i b]|] eqn:E.
  - pose proof E as (Hi & Hd & <-)%findb_Some; [|apply Hs].
    assert (Hl : locked (lock b) = false) by (unfold bheld in Hh; by rewrite E in Hh).
    eapply wp_intro; [by apply bread_hit|]. set (b' := set_lock _ _).
    destruct (bi_bufs s Hs i b Hi) as (_ & _ & [(? & _)|(_ & Hf & _ & Hok & _)]); [congruence|].
    destruct (step_buf_abs s i b b' (lru s) (disk s) (dtrace s)) as (Hv & Hdt & Hhd & Ev & Ed & _); try done.
    split_and!; [split; [|done]| |done| |done| | |].
    + apply (step_buf_inv s i b); try done; [apply Hs|]. by apply (buf_ok_step s i b).
    + exists b'. split; [by eapply step_buf_lookup|done].
    + intros x. rewrite Hv. destruct (Z.eqb_spec x (blockno b)) as [->|]; [|done]. by rewrite Ev.
    + intros x. rewrite Hdt. destruct (Z.eqb_spec x (blockno b)) as [->|]; [|done]. by rewrite Ed.
    + done.
    + intros j x. apply (step_buf_owns s i b); try done. by left.
  - destruct Hlen as [Hlen|Hlen]; [unfold bdirty in Hlen; by rewrite E in Hlen|].
    destruct (bread_miss s bno L Hs Hb E HL Hlen) as (i & b & Hi & Hl & Hr & Hc & Hrun).
    eapply wp_intro; [exact Hrun|]. set (b' := mkBuf _ _ _ _ _ _).
    destruct (recycle s i b b' bno) as (Hinv & Hv & Hdt & Hhd & Ho); try done.
    split_and!; [by split| |done|done|done|done|done|done].
    exists b'. split; [by eapply step_buf_lookup|done].
Qed.

Lemma bio_write s i bno : binv s -> bowns s i bno ->
  wp (bwrite i) (fun _ s' => bc_same s s' /\ dtrace s' = dtrace s ++ [(bno, bview s bno)] /\
    (forall b, bview s' b = bview s b) /\
    (forall b, dread (disk s') b = if b =? bno then bview s bno else dread (disk s) b) /\
    (forall b, bdirty s' b = if b =? bno then false else bdirty s b) /\
    (forall b, bheld s' b = bheld s b) /\ (forall j b, bowns s j b -> bowns s' j b)) s.
Proof.
  intros Hs Ho. destruct (owned s i bno Hs Ho) as (b & Hi & Hd & Hb & Hl & Hp & Hr & Hf & Hn & Hok).
  subst bno. eapply wp_intro; [apply (bwrite_run s i b); try done; lia|]. set (b' := set_flags 2 b).
  assert (Hx : forall x, x <> blockno b -> dread (<[blockno b := data b]> (disk s)) x = dread (disk s) x).
  { intros x Hne. rewrite dread_insert. by destruct (Z.eqb_spec x (blockno b)). }
  assert (Hbx : block_ok (dread (<[blockno b := data b]> (disk s)) (blockno b))) by (by rewrite dread_insert, Z.eqb_refl).
  destruct (step_buf_abs s i b b' (lru s) (<[blockno b := data b]> (disk s)) (dtrace s ++ [(blockno b, data b)]))
    as (Hv & Hdt & Hhd & Ev & Ed & Eh); try done.
  split_and!; [split; [|done]| | | | | |].
  - apply (step_buf_inv s i b); try done. apply (buf_ok_step s i b); try done; [by simpl; rewrite Hl|by left|]. simpl. congruence.
  - by rewrite Ev.
  - intros x. rewrite Hv. destruct (Z.eqb_spec x (blockno b)) as [->|]; [|done]. by rewrite Ev.
  - intros x. cbn [disk step_buf]. by rewrite dread_insert, Ev.
  - done.
  - intros x. rewrite Hhd. destruct (Z.eqb_spec x (blockno b)) as [->|]; [|done]. by rewrite Eh.
  - intros j x. apply (step_buf_owns s i b); try done. by left.
Qed.

Lemma bio_relse s i bno : binv s -> bowns s i bno ->
  bdirty s bno = true \/ bview s bno = dread (disk s) bno ->
  wp (brelse i) (fun _ s' => bc_same s s' /\ dtrace s' = dtrace s /\
    (forall b, bview s' b = bview s b) /\ disk s' = disk s /\ (forall b, bdirty s' b = bdirty s b) /\
    (forall b, bheld s' b = if b =? bno then false else bheld s b) /\
    (forall j b, b <> bno -> bowns s j b -> bowns s' j b)) s.
Proof.
  intros Hs Ho Hclean. destruct (owned s i bno Hs Ho) as (b & Hi & Hd & Hb & Hl & Hp & Hr & Hf & Hn & Hok).
  subst bno. eapply wp_intro; [by apply (brelse_run s i b)|]. set (b' := set_refcnt _ _). set (l' := i :: _).
  destruct (step_buf_abs s i b b' l' (disk s) (dtrace s)) as (Hv & Hdt & Hhd & Ev & Ed & Eh); try done.
  split_and!; [split; [|done]|done| |done| |done|].
  - apply (step_buf_inv s i b); try done.
    + eapply lru_front; [apply Hs|]. apply lookup_lt_Some in Hi. by rewrite (bi_len s Hs) in Hi.
    + apply Hs.
    + apply (buf_ok_step s i b); try done. simpl. intros Hf2 _. rewrite Ev, Ed, Hf2 in Hclean.
      by destruct Hclean.
  - intros x. rewrite Hv. destruct (Z.eqb_spec x (blockno b)) as [->|]; [|done]. by rewrite Ev.
  - intros x. rewrite Hdt. destruct (Z.eqb_spec x (blockno b)) as [->|]; [|done]. by rewrite Ed.
  - intros j x Hne. apply (step_buf_owns s i b); try done. by right.
Qed.

Lemma bio_set s i bno d : binv s -> bowns s i bno -> block_ok d ->
  wp (buf_set i d) (fun _ s' => bc_same s s' /\ dtrace s' = dtrace s /\
    (forall b, bview s' b = if b =? bno then d else bview s b) /\ disk s' = disk s /\
    (forall b, bdirty s' b = bdirty s b) /\ (forall b, bheld s' b = bheld s b) /\
    (forall j b, bowns s j b -> bowns s' j b)) s.
Proof.
  intros Hs Ho Hdo. destruct (owned s i bno Hs Ho) as (b & Hi & Hd & Hb & Hl & Hp & Hr & Hf & Hn & Hok).
  subst bno. eapply wp_intro; [by apply upd_buf_run|]. rewrite with_bufs_step. set (b' := set_data d b).
  destruct (step_buf_abs s i b b' (lru s) (disk s) (dtrace s)) as (Hv & Hdt & Hhd & Ev & Ed & Eh); try done.
  split_and!; [split; [|done]|done|done|done| | |].
  - apply (step_buf_inv s i b); try done; [apply Hs|]. apply (buf_ok_step s i b); try done; [by simpl; rewrite Hl|].
    simpl. congruence.
  - intros x. rewrite Hdt. destruct (Z.eqb_spec x (blockno b)) as [->|]; [|done]. by rewrite Ed.
  - intros x. rewrite Hhd. destruct (Z.eqb_spec x (blockno b)) as [->|]; [|done]. by rewrite Eh.
  - intros j x. apply (step_buf_owns s i b); try done. by left.
Qed.

Lemma bio_pin s i bno : binv s -> bowns s i bno ->
  wp (pin i) (fun _ s' => bc_same s s' /\ dtrace s' = dtrace s /\
    (forall b, bview s' b = bview s b) /\ disk s' = disk s /\
    (forall b, bdirty s' b = if b =? bno then true else bdirty s b) /\
    (forall b, bheld s' b = bheld s b) /\ (forall j b, bowns s j b -> bowns s' j b)) s.
Proof.
  intros Hs Ho. destruct (owned s i bno Hs Ho) as (b & Hi & Hd & Hb & Hl & Hp & Hr & Hf & Hn & Hok).
  subst bno. eapply wp_intro; [by apply upd_buf_run|]. rewrite with_bufs_step. set (b' := set_flags _ b).
  assert (Ef : flags b' = 6) by (by destruct Hf as [E|E]; unfold b'; simpl; rewrite E).
  destruct (step_buf_abs s i b b' (lru s) (disk s) (dtrace s)) as (Hv & Hdt & Hhd & Ev & Ed & Eh); try done.
  split_and!; [split; [|done]|done| |done| | |].
  - apply (step_buf_inv s i b); try done; [apply Hs|]. apply (buf_ok_step s i b); try done; [by simpl; rewrite Hl|by right|].
    congruence.
  - intros x. rewrite Hv. destruct (Z.eqb_spec x (blockno b)) as [->|]; [|done]. by rewrite Ev.
  - intros x. by rewrite Hdt, Ef.
  - intros x. rewrite Hhd. destruct (Z.eqb_spec x (blockno b)) as [->|]; [|done]. by rewrite Eh.
  - intros j x. apply (step_buf_owns s i b); try done. by left.
Qed.

#[export] Instance bio_laws : BlockCacheLaws bstate.
Proof.
  split; simpl.
  - intros s b Hs Hd Hh. unfold bview, bdirty, bheld in *.
    destruct (findb (bufs s) b) as [[i bf]|] eqn:E; [|done].
    apply findb_Some in E as (Hi & Hdev & <-); [|apply Hs].
    destruct (bi_bufs s Hs i bf Hi) as (_ & _ & [(? & _)|(_ & [Hf|Hf] & _ & _ & H)]); [congruence|by apply H|].
    by rewrite Hf in Hd.
  - intros s b Hs. split; [|apply Hs]. unfold bview.
    destruct (findb (bufs s) b) as [[i bf]|] eqn:E; [|apply Hs].
    apply findb_Some in E as (Hi & Hdev & <-); [|apply Hs].
    destruct (bi_bufs s Hs i bf Hi) as (_ & _ & [(? & _)|(_ & _ & _ & Hok & _)]); [congruence|done].
  - intros s bno L Hs Hb Hh HL Hlen. eapply wp_mono; [by apply (bio_read s bno L)|].
    intros i s' (H1 & H2 & H3 & H4 & H5 & H6 & H7 & H8). rewrite H5. tauto.
  - intros s i bno Hs Ho. destruct (owned s i bno Hs Ho) as (b & Hi & Hd & Hb & _).
    eapply wp_intro; [by unfold buf_data; rewrite (bind_run _ _ _ _ _ (get_buf_run i s b Hi))|].
    split; [done|]. unfold bview. by rewrite (own_find s i bno b).
  - intros s i bno Hs Ho. destruct (owned s i bno Hs Ho) as (b & Hi & Hd & Hb & _).
    by eapply wp_intro; [by unfold buf_blockno; rewrite (bind_run _ _ _ _ _ (get_buf_run i s b Hi))|].
  - intros s i bno d Hs Ho Hd. eapply wp_mono; [by apply (bio_set s i bno)|].
    intros [] s' (H1 & H2 & H3 & H4 & H5 & H6 & H7). rewrite H4. tauto.
  - intros s i bno Hs Ho. eapply wp_mono; [by apply (bio_pin s i bno)|].
    intros [] s' (H1 & H2 & H3 & H4 & H5 & H6 & H7). rewrite H4. tauto.
  - intros s i bno Hs Ho. by apply bio_write.
  - intros s i bno Hs Ho Hc. eapply wp_mono; [by apply (bio_relse s i bno)|].
    intros [] s' (H1 & H2 & H3 & H4 & H5 & H6 & H7). rewrite H4. tauto.
Qed.

Lemma foldl_rev_seq (l acc : list nat) : foldl (fun l i => i :: l) acc l = rev l ++ acc.
Proof.
  revert acc. induction l as [|x l IH]; intros acc; simpl; [done|]. by rewrite IH, <- app_assoc.
Qed.

Lemma binit_inv d size me : (forall b, block_ok (dread d b)) -> binv (binit d size me).
Proof.
  intros Hd. assert (Hrep : forall i b, bufs (binit d size me) !! i = Some b ->
    b = mkBuf 0 0 0 (mkSleeplock false 0) 0 zero_block).
  { intros i b [-> _]%lookup_replicate. done. }
  split; [done| | | |done].
  - unfold binit. cbn [lru]. rewrite foldl_rev_seq, app_nil_r. by rewrite <- Permutation_rev.
  - intros i b ->%Hrep. split; [done|]. split; [done|]. by left.
  - intros i j bi bj ->%Hrep _ Hdi. done.
Qed.

(** C29.  The buffer cache of bio.c over memide.c.  The state binit makes satisfies
    the invariant (one buffer per block at most, the list a permutation of all the
    buffers, an unpinned unlocked buffer equal to its block on disk), and bread,
    bwrite, brelse and the pinning of a buffer keep it and act as the interface
    says: a reader sees the last contents given to a block, only bwrite changes
    the disk, and bread finds a buffer whenever fewer than NBUF blocks are pinned
    or locked. *)
Theorem bio_refines_cache :
  (forall d size me, (forall b, block_ok (dread d b)) -> binv (binit d size me)) /\
  BlockCacheLaws bstate.
Proof. split; [intros d size me; apply binit_inv|apply bio_laws]. Qed.

Lemma bio_refines_cache_witness : binv (binit ∅ 1000 1).
Proof.
  apply (proj1 bio_refines_cache). intros b. unfold dread. rewrite lookup_empty. apply zero_block_ok.
Defined.
