(* ===== verification/Log.v ===== *)
(** * The write-ahead log (log.c)

    The operations of log.c over any buffer cache that keeps the promises of
    BlockCache.v.  [log.lh] is the in-memory header: its count and its array of
    [LOGSIZE] block numbers.  The sections under [log.lock] are atomic. *)

From stdpp Require Import base numbers list gmap strings.
From Stdlib Require Import ZArith Lia.
From S2P Require Import Prelude Block BlockCache.

Local Open Scope Z_scope.
Local Open Scope kernel_scope.

Section Log.
Context {S : Type} {BC : BlockCache S}.

Record logst := mkLog {
  bc : S;
  lstart : Z;         (* log.start *)
  lsize : Z;          (* log.size *)
  outstanding : Z;    (* log.outstanding *)
  committing : bool;  (* log.committing *)
  ldev : Z;           (* log.dev *)
  lh_n : Z;           (* log.lh.n *)
  lh_block : list Z   (* log.lh.block *)
}.

Definition set_bc (c : S) (s : logst) : logst :=
  mkLog c (lstart s) (lsize s) (outstanding s) (committing s) (ldev s) (lh_n s) (lh_block s).
Definition set_outstanding (v : Z) (s : logst) : logst :=
  mkLog (bc s) (lstart s) (lsize s) v (committing s) (ldev s) (lh_n s) (lh_block s).
Definition set_committing (v : bool) (s : logst) : logst :=
  mkLog (bc s) (lstart s) (lsize s) (outstanding s) v (ldev s) (lh_n s) (lh_block s).
Definition set_lh (n : Z) (l : list Z) (s : logst) : logst :=
  mkLog (bc s) (lstart s) (lsize s) (outstanding s) (committing s) (ldev s) n l.
Definition set_place (start size dev : Z) (s : logst) : logst :=
  mkLog (bc s) start size (outstanding s) (committing s) dev (lh_n s) (lh_block s).

(** A call into the buffer cache. *)
Definition lift {A} (c : M S A) : M logst A := fun s =>
  match c (bc s) with
  | Ret a c' => Ret a (set_bc c' s)
  | Panic msg => Panic msg
  | Undef => Undef
  | Hang => Hang
  end.

(** log.lh.block[i] *)
Definition lh_get (i : Z) : M logst Z :=
  l <- gets lh_block;;
  match l !! Z.to_nat i with Some b => ret b | None => undef end.

Definition lh_put (i v : Z) : M logst unit :=
  l <- gets lh_block;;
  if (0 <=? i) && (i <? Z.of_nat (length l)) then
    modify (fun s => set_lh (lh_n s) (<[Z.to_nat i := v]> l) s)
  else undef.

(** ** struct logheader on a block *)
Definition hdr_n (d : block) : Z := s32 (get32 d 0).
Definition hdr_block (d : block) (i : Z) : Z := get32 d (4 + 4 * i).

(** The stores hb->block[i] = ... of write_head, from index [i] on. *)
Fixpoint fill_blocks (d : block) (i : Z) (l : list Z) : block :=
  match l with
  | [] => d
  | b :: l' => fill_blocks (put32 d (4 + 4 * i) b) (i + 1) l'
  end.

(** ** install_trans *)
Fixpoint install_loop (k : nat) (tail : Z) : M logst unit :=
  match k with
  | O => ret tt
  | Datatypes.S k' =>
      s <- get;;
      lbuf <- lift (bc_read (ldev s) (u32 (lstart s + tail + 1)));;
      b <- lh_get tail;;
      dbuf <- lift (bc_read (ldev s) b);;
      d <- lift (bc_data lbuf);;
      lift (bc_set dbuf d);;
      lift (bc_write dbuf);;
      lift (bc_relse lbuf);;
      lift (bc_relse dbuf);;
      install_loop k' (tail + 1)
  end.

Definition install_trans : M logst unit :=
  n <- gets lh_n;;
  install_loop (Z.to_nat n) 0.

(** ** read_head and write_head *)
Fixpoint read_blocks (k : nat) (d : block) (i : Z) : M logst unit :=
  match k with
  | O => ret tt
  | Datatypes.S k' => lh_put i (hdr_block d i);; read_blocks k' d (i + 1)
  end.

Definition read_head : M logst unit :=
  s <- get;;
  b <- lift (bc_read (ldev s) (u32 (lstart s)));;
  d <- lift (bc_data b);;
  modify (fun s => set_lh (hdr_n d) (lh_block s) s);;
  read_blocks (Z.to_nat (hdr_n d)) d 0;;
  lift (bc_relse b).

Definition write_head : M logst unit :=
  s <- get;;
  b <- lift (bc_read (ldev s) (u32 (lstart s)));;
  d <- lift (bc_data b);;
  (if lh_n s >? Z.of_nat (length (lh_block s)) then undef
   else lift (bc_set b (fill_blocks (put32 d 0 (lh_n s)) 0 (take (Z.to_nat (lh_n s)) (lh_block s)))));;
  lift (bc_write b);;
  lift (bc_relse b).

Definition recover_from_log : M logst unit :=
  read_head;;
  install_trans;;
  modify (fun s => set_lh 0 (lh_block s) s);;
  write_head.

(** initlog: readsb (fs.c) copies the superblock out of block 1. *)
Definition sb_of (d : block) : superblock :=
  mkSuperblock (get32 d 0) (get32 d 4) (get32 d 8) (get32 d 12) (get32 d 16) (get32 d 20) (get32 d 24).

Definition readsb (dev : Z) : M logst superblock :=
  b <- lift (bc_read dev 1);;
  d <- lift (bc_data b);;
  lift (bc_relse b);;
  ret (sb_of d).

Definition initlog (dev : Z) : M logst unit :=
  if 4 + 4 * LOGSIZE >=? BSIZE then panic "initlog: too big logheader"
  else
    sb <- readsb dev;;
    modify (set_place (sb_logstart sb) (sb_nlog sb) dev);;
    recover_from_log.

(** ** begin_op: one turn of its loop; [false] when the caller goes to sleep *)
Definition begin_op : M logst bool :=
  s <- get;;
  if committing s then ret false
  else if lh_n s + (outstanding s + 1) * MAXOPBLOCKS >? LOGSIZE then ret false
  else
    modify (set_outstanding (outstanding s + 1));;
    ret true.

(** ** commit *)
Fixpoint write_log_loop (k : nat) (tail : Z) : M logst unit :=
  match k with
  | O => ret tt
  | Datatypes.S k' =>
      s <- get;;
      to <- lift (bc_read (ldev s) (u32 (lstart s + tail + 1)));;
      b <- lh_get tail;;
      from <- lift (bc_read (ldev s) b);;
      d <- lift (bc_data from);;
      lift (bc_set to d);;
      lift (bc_write to);;
      lift (bc_relse from);;
      lift (bc_relse to);;
      write_log_loop k' (tail + 1)
  end.

Definition write_log : M logst unit :=
  n <- gets lh_n;;
  write_log_loop (Z.to_nat n) 0.

Definition commit : M logst unit :=
  n <- gets lh_n;;
  if n >? 0 then
    write_log;;
    write_head;;
    install_trans;;
    modify (fun s => set_lh 0 (lh_block s) s);;
    write_head
  else ret tt.

Definition end_op : M logst unit :=
  modify (fun s => set_outstanding (outstanding s - 1) s);;
  s <- get;;
  if committing s then panic "log.committing"
  else if outstanding s =? 0 then
    modify (set_committing true);;
    commit;;
    modify (set_committing false)
  else ret tt.

(** ** log_write *)
Fixpoint absorb (l : list Z) (b : Z) : nat :=
  match l with
  | [] => O
  | x :: l' => if x =? b then O else Datatypes.S (absorb l' b)
  end.

Definition log_write (i : nat) : M logst unit :=
  s <- get;;
  if (lh_n s >=? LOGSIZE) || (lh_n s >=? lsize s - 1) then panic "too big a transaction"
  else if outstanding s <? 1 then panic "log_write outside of trans"
  else
    b <- lift (bc_blockno i);;
    let k := Z.of_nat (absorb (take (Z.to_nat (lh_n s)) (lh_block s)) b) in
    lh_put k b;;
    (if k =? lh_n s then modify (fun s => set_lh (lh_n s + 1) (lh_block s) s) else ret tt);;
    lift (bc_pin i).
End Log.
Arguments logst : clear implicits.
