(* ===== verification/LogInv.v ===== *)
(** * The write-ahead log (log.c): what each routine writes to disk

    Each routine of the log is shown to make an explicit sequence of disk writes.
    [wrote] is one such write, [upd] and [after] its effect on a disk. *)

From stdpp Require Import base numbers list gmap strings.
From Stdlib Require Import ZArith Lia.
From S2P Require Import Prelude Block BlockCache Log.

Local Open Scope Z_scope.
Local Open Scope kernel_scope.

(** ** Disks and sequences of writes *)
Definition upd (D : Z -> block) (b : Z) (v : block) : Z -> block := fun x => if x =? b then v else D x.
Definition after (D : Z -> block) (tr : list (Z * block)) : Z -> block :=
  foldl (fun D w => upd D w.1 w.2) D tr.

Lemma after_app D t1 t2 : after D (t1 ++ t2) = after (after D t1) t2.
Proof. apply foldl_app. Qed.

Lemma upd_ext D D' b v x : D x = D' x -> upd D b v x = upd D' b v x.
Proof. unfold upd. by destruct (x =? b). Qed.

Lemma after_ext tr : forall D D' x, D x = D' x -> after D tr x = after D' tr x.
Proof.
  induction tr as [|w tr IH]; intros D D' x H; [done|]. apply IH. by apply upd_ext.
Qed.

Lemma after_other tr : forall D x, x ∉ tr.*1 -> after D tr x = D x.
Proof.
  induction tr as [|[b v] tr IH]; intros D x H; [done|]. simpl in H. apply not_elem_of_cons in H as [Hne H].
  change (after D ((b, v) :: tr) x) with (after (upd D b v) tr x). rewrite IH by done.
  unfold upd. by destruct (Z.eqb_spec x b).
Qed.

Lemma after_snoc D tr b v x : after D (tr ++ [(b, v)]) x = upd (after D tr) b v x.
Proof. by rewrite after_app. Qed.

(** Writes to distinct blocks: the one at index [i] is seen. *)
Lemma after_lookup tr : forall D i b v, NoDup tr.*1 -> tr !! i = Some (b, v) -> after D tr b = v.
Proof.
  induction tr as [|[b' v'] tr IH]; intros D i b v Hnd Hi; [done|].
  change (after D ((b', v') :: tr) b) with (after (upd D b' v') tr b).
  simpl in Hnd. apply NoDup_cons in Hnd as [Hnin Hnd]. destruct i as [|i]; simpl in Hi.
  - injection Hi as -> ->. rewrite after_other by done. unfold upd. by rewrite Z.eqb_refl.
  - by apply (IH _ i).
Qed.

Section LogInv.
Context {S : Type} {BC : BlockCache S} {BL : BlockCacheLaws S}.
Implicit Types s : logst S.

Lemma wp_lift {A} (c : M S A) (Q : A -> logst S -> Prop) s :
  wp c (fun a c' => Q a (set_bc c' s)) (bc s) -> wp (lift c) Q s.
Proof. unfold wp, lift. by destruct (c (bc s)). Qed.

(** The writes [tr], from [c] to [c']. *)
Record wrote (c : S) (tr : list (Z * block)) (c' : S) : Prop := mkWrote {
  wr_inv : bc_inv c';
  wr_nblk : nblk c' = nblk c;
  wr_trace : trace c' = trace c ++ tr;
  wr_view : forall x, view c' x = after (view c) tr x;
  wr_disk : forall x, ondisk c' x = after (ondisk c) tr x;
  wr_dirty : forall x, dirty c' x = if decide (x ∈ tr.*1) then false else dirty c x;
  wr_held : forall x, held c' x = held c x
}.

Lemma wrote_nil c : bc_inv c -> wrote c [] c.
Proof. intros H. split; try done. by rewrite app_nil_r. Qed.

Lemma wrote_app c t1 c1 t2 c2 : wrote c t1 c1 -> wrote c1 t2 c2 -> wrote c (t1 ++ t2) c2.
Proof.
  intros [H1 H2 H3 H4 H5 H6 H7] [G1 G2 G3 G4 G5 G6 G7]. split; [done|congruence| | | | |].
  - by rewrite G3, H3, app_assoc.
  - intros x. rewrite G4, after_app. apply after_ext, H4.
  - intros x. rewrite G5, after_app. apply after_ext, H5.
  - intros x. rewrite G6, H6, fmap_app. destruct (decide (x ∈ t2.*1)), (decide (x ∈ t1.*1)),
      (decide (x ∈ t1.*1 ++ t2.*1)) as [Hx|Hx]; rewrite ?elem_of_app in Hx; tauto.
  - intros x. by rewrite G7, H7.
Qed.

(** Copying a locked block to another, writing it, and releasing both. *)
Lemma copy_wp s i j src dst (K : M (logst S) unit) Q :
  bc_inv (bc s) -> owns (bc s) i src -> owns (bc s) j dst -> src <> dst ->
  dirty (bc s) src = true \/ view (bc s) src = ondisk (bc s) src ->
  (forall c', bc_inv c' -> nblk c' = nblk (bc s) ->
     trace c' = trace (bc s) ++ [(dst, view (bc s) src)] ->
     (forall x, view c' x = upd (view (bc s)) dst (view (bc s) src) x) ->
     (forall x, ondisk c' x = upd (ondisk (bc s)) dst (view (bc s) src) x) ->
     (forall x, dirty c' x = if x =? dst then false else dirty (bc s) x) ->
     (forall x, held c' x = if x =? dst then false else if x =? src then false else held (bc s) x) ->
     wp K Q (set_bc c' s)) ->
  wp (d <- lift (bc_data i);; lift (bc_set j d);; lift (bc_write j);; lift (bc_relse i);;
      lift (bc_relse j);; K) Q s.
Proof.
  intros Hinv Hi Hj Hne Hsrc HK.
  apply wp_bind, wp_lift. eapply wp_mono; [by apply (law_data (bc s) i src)|]. intros d c1 [-> ->].
  apply wp_bind, wp_lift. simpl.
  eapply wp_mono; [by apply (law_set (bc s) j dst); [..|apply law_ok]|].
  intros _ c2 ([Hi2 Hn2] & Ht2 & Hv2 & Ho2 & Hd2 & Hh2 & Hw2).
  apply wp_bind, wp_lift. simpl. eapply wp_mono; [by apply (law_write c2 j dst); [|apply Hw2]|].
  intros _ c3 ([Hi3 Hn3] & Ht3 & Hv3 & Ho3 & Hd3 & Hh3 & Hw3).
  assert (Ev : view c2 dst = view (bc s) src) by (by rewrite Hv2, Z.eqb_refl).
  apply wp_bind, wp_lift. simpl. eapply wp_mono; [apply (law_relse c3 i src); [done|by apply Hw3, Hw2|]|].
  { rewrite Hd3, Hv3, Ho3, Hd2, Hv2, Ho2. by destruct (Z.eqb_spec src dst). }
  intros _ c4 ([Hi4 Hn4] & Ht4 & Hv4 & Ho4 & Hd4 & Hh4 & Hw4).
  apply wp_bind, wp_lift. simpl. eapply wp_mono; [apply (law_relse c4 j dst); [done|apply Hw4; [done|by apply Hw3, Hw2]|]|].
  { right. by rewrite Hv4, Ho4, Hv3, Ho3, Z.eqb_refl. }
  intros _ c5 ([Hi5 Hn5] & Ht5 & Hv5 & Ho5 & Hd5 & Hh5 & _).
  apply HK; [done|congruence| | | | |].
  - by rewrite Ht5, Ht4, Ht3, Ht2, Ev.
  - intros x. by rewrite Hv5, Hv4, Hv3, Hv2.
  - intros x. rewrite Ho5, Ho4, Ho3, Ev. apply upd_ext, Ho2.
  - intros x. by rewrite Hd5, Hd4, Hd3, Hd2.
  - intros x. by rewrite Hh5, Hh4, Hh3, Hh2.
Qed.

(** ** Between operations *)
Definition in_log s (b : Z) : Prop := lstart s <= b < lstart s + lsize s.

Record log_ok s (l : list Z) : Prop := mkLogOk {
  lo_inv : bc_inv (bc s);
  lo_dev : ldev s = ROOTDEV;
  lo_start : 0 <= lstart s;
  lo_end : lstart s + lsize s <= nblk (bc s);
  lo_nblk : nblk (bc s) <= 4294967296;
  lo_len : length (lh_block s) = Z.to_nat LOGSIZE;
  lo_n : lh_n s = Z.of_nat (length l);
  lo_blocks : take (length l) (lh_block s) = l;
  lo_size : Z.of_nat (length l) < lsize s;
  lo_nbuf : Z.of_nat (length l) < NBUF;
  lo_home : Forall (fun b => 0 <= b < nblk (bc s) /\ ~ in_log s b) l;
  lo_nodup : NoDup l;
  lo_held : forall b, held (bc s) b = false;
  lo_dirty : forall b, dirty (bc s) b = true -> b ∈ l
}.

Lemma log_ok_wrote s l tr c' :
  log_ok s l -> wrote (bc s) tr c' -> log_ok (set_bc c' s) l.
Proof.
  intros [] Hw. split; simpl; try done; rewrite ?(wr_nblk _ _ _ Hw); try done.
  - apply Hw.
  - intros b. by rewrite (wr_held _ _ _ Hw).
  - intros b. rewrite (wr_dirty _ _ _ Hw). destruct (decide _); [done|auto].
Qed.

Lemma logged_lookup s l1 b l2 : log_ok s (l1 ++ b :: l2) -> lh_block s !! length l1 = Some b.
Proof.
  intros Hok. pose proof (lo_blocks _ _ Hok) as E.
  assert (H : (l1 ++ b :: l2) !! length l1 = Some b) by (by apply list_lookup_middle).
  rewrite <- E, lookup_take in H. by destruct (decide _).
Qed.

(** Reading the log block at [p] and then the home block [b]. *)
Lemma read_two s l1 b l2 (K : nat -> nat -> M (logst S) unit) Q :
  log_ok s (l1 ++ b :: l2) ->
  dirty (bc s) b = true \/ (forall x, dirty (bc s) x = false) ->
  let p := lstart s + Z.of_nat (length l1) + 1 in
  (forall i j c, bc_inv c -> nblk c = nblk (bc s) -> trace c = trace (bc s) ->
     owns c i p -> owns c j b ->
     (forall x, view c x = view (bc s) x) -> (forall x, ondisk c x = ondisk (bc s) x) ->
     (forall x, dirty c x = dirty (bc s) x) ->
     (forall x, held c x = if x =? b then true else if x =? p then true else false) ->
     wp (K i j) Q (set_bc c s)) ->
  wp (i <- lift (bc_read (ldev s) (u32 p));; b <- lh_get (Z.of_nat (length l1));;
      j <- lift (bc_read (ldev s) b);; K i j) Q s.
Proof.
  intros Hok Hdb p HK. pose proof (lo_home _ _ Hok) as Hh. apply Forall_app in Hh as [_ Hh].
  apply Forall_cons in Hh as [[Hb Hnl] _]. unfold in_log in Hnl.
  pose proof (lo_size _ _ Hok) as Hsz. rewrite length_app in Hsz. simpl in Hsz.
  pose proof (lo_start _ _ Hok). pose proof (lo_end _ _ Hok). pose proof (lo_nblk _ _ Hok).
  rewrite (lo_dev _ _ Hok), u32_small by (unfold p; lia).
  assert (Hpb : p <> b) by (unfold p; lia).
  assert (HL : forall x, dirty (bc s) x = true \/ held (bc s) x = true -> x ∈ l1 ++ b :: l2).
  { intros x [Hd|Hd]; [by apply Hok|]. by rewrite (lo_held _ _ Hok) in Hd. }
  apply wp_bind, wp_lift. eapply wp_mono; [apply (law_read (bc s) p (l1 ++ b :: l2)); [apply Hok| |apply Hok|done|right; apply Hok]|].
  { unfold p. lia. }
  intros i c1 ([Hi1 Hn1] & Ho1 & Ht1 & Hv1 & Hk1 & Hd1 & Hh1 & Hw1).
  apply wp_bind. unfold lh_get. apply wp_bind, wp_gets. simpl. rewrite Nat2Z.id, (logged_lookup _ _ _ _ Hok).
  apply wp_ret. apply wp_bind, wp_lift. simpl.
  set (L := if dirty (bc s) b then p :: l1 ++ b :: l2 else [p]).
  eapply wp_mono; [apply (law_read c1 b L); [done|lia| | |]|].
  - rewrite Hh1, (lo_held _ _ Hok). by destruct (Z.eqb_spec b p).
  - intros x. rewrite Hd1, Hh1. unfold L. destruct (Z.eqb_spec x p) as [->|].
    { intros _. destruct (dirty _ b); left. }
    rewrite (lo_held _ _ Hok). intros [Hx|Hx]; [|done]. destruct Hdb as [->|Hdb]; [|by rewrite Hdb in Hx].
    right. apply HL. by left.
  - rewrite Hd1. destruct Hdb as [->|Hdb]; [by left|right]. unfold L. by rewrite Hdb.
  - intros j c2 ([Hi2 Hn2] & Ho2 & Ht2 & Hv2 & Hk2 & Hd2 & Hh2 & Hw2).
    apply (HK i j c2); try done; try congruence; try by apply Hw2.
    intros x. rewrite Hh2, Hh1, (lo_held _ _ Hok). by destruct (x =? b), (x =? p).
Qed.

(** The block at [p] of the log is clean. *)
Lemma log_clean s l p : log_ok s l -> in_log s p -> dirty (bc s) p = false /\ view (bc s) p = ondisk (bc s) p.
Proof.
  intros Hok Hp. assert (Hd : dirty (bc s) p = false).
  { destruct (dirty (bc s) p) eqn:E; [|done]. apply (lo_dirty _ _ Hok) in E.
    pose proof (proj1 (Forall_forall _ _) (lo_home _ _ Hok) p E) as [_ Hn]. done. }
  split; [done|]. apply law_clean; [apply Hok|done|apply Hok].
Qed.

Lemma single_write (c : S) dst x (v : block) :
  (if x =? dst then false else dirty c x) = if decide (x ∈ [(dst, v)].*1) then false else dirty c x.
Proof.
  simpl. destruct (decide (x ∈ [dst])) as [Hx|Hx], (Z.eqb_spec x dst) as [Heq|Hne]; try done.
  - by apply list_elem_of_singleton in Hx.
  - destruct Hx. by apply list_elem_of_singleton.
Qed.

Lemma install_one s l1 b l2 (K : M (logst S) unit) Q :
  log_ok s (l1 ++ b :: l2) -> dirty (bc s) b = true \/ (forall x, dirty (bc s) x = false) ->
  let p := lstart s + Z.of_nat (length l1) + 1 in
  (forall c', wrote (bc s) [(b, ondisk (bc s) p)] c' -> wp K Q (set_bc c' s)) ->
  wp (lbuf <- lift (bc_read (ldev s) (u32 p));; b <- lh_get (Z.of_nat (length l1));;
      dbuf <- lift (bc_read (ldev s) b);; d <- lift (bc_data lbuf);; lift (bc_set dbuf d);;
      lift (bc_write dbuf);; lift (bc_relse lbuf);; lift (bc_relse dbuf);; K) Q s.
Proof.
  intros Hok Hdb p HK. pose proof (lo_size _ _ Hok) as Hsz. rewrite length_app in Hsz. simpl in Hsz.
  assert (Hp : in_log s p) by (unfold in_log, p; lia).
  pose proof (lo_home _ _ Hok) as Hh. apply Forall_app in Hh as [_ Hh]. apply Forall_cons in Hh as [[Hb Hnl] _].
  destruct (log_clean _ _ _ Hok Hp) as [Hdp Hvp].
  apply (read_two s l1 b l2 (fun lbuf dbuf => _) Q Hok Hdb).
  intros i j c Hinv Hn Ht Hoi Hoj Hv Ho Hd Hh.
  apply (copy_wp (set_bc c s) i j p b); simpl; try done.
  - intros ->. done.
  - right. by rewrite Hv, Ho.
  - intros c' Hinv' Hn' Ht' Hv' Ho' Hd' Hh'. apply HK.
    split; [done|congruence| | | | |].
    + by rewrite Ht', Ht, Hv, Hvp.
    + intros x. rewrite Hv', Hv, Hvp. by apply upd_ext.
    + intros x. rewrite Ho', Hv, Hvp. by apply upd_ext.
    + intros x. rewrite Hd', Hd. apply single_write.
    + intros x. rewrite Hh', Hh, (lo_held _ _ Hok). fold p. by destruct (x =? b), (x =? p).
Qed.

Lemma write_log_one s l1 b l2 (K : M (logst S) unit) Q :
  log_ok s (l1 ++ b :: l2) -> dirty (bc s) b = true ->
  let p := lstart s + Z.of_nat (length l1) + 1 in
  (forall c', wrote (bc s) [(p, view (bc s) b)] c' -> wp K Q (set_bc c' s)) ->
  wp (to <- lift (bc_read (ldev s) (u32 p));; b <- lh_get (Z.of_nat (length l1));;
      from <- lift (bc_read (ldev s) b);; d <- lift (bc_data from);; lift (bc_set to d);;
      lift (bc_write to);; lift (bc_relse from);; lift (bc_relse to);; K) Q s.
Proof.
  intros Hok Hdb p HK. pose proof (lo_size _ _ Hok) as Hsz. rewrite length_app in Hsz. simpl in Hsz.
  assert (Hp : in_log s p) by (unfold in_log, p; lia).
  pose proof (lo_home _ _ Hok) as Hh. apply Forall_app in Hh as [_ Hh]. apply Forall_cons in Hh as [[Hb Hnl] _].
  apply (read_two s l1 b l2 (fun to from => _) Q Hok (or_introl Hdb)).
  intros i j c Hinv Hn Ht Hoi Hoj Hv Ho Hd Hh.
  apply (copy_wp (set_bc c s) j i b p); simpl; try done.
  - intros <-. done.
  - left. by rewrite Hd.
  - intros c' Hinv' Hn' Ht' Hv' Ho' Hd' Hh'. apply HK.
    split; [done|congruence| | | | |].
    + by rewrite Ht', Ht, Hv.
    + intros x. rewrite Hv', Hv. by apply upd_ext.
    + intros x. rewrite Ho', Hv. by apply upd_ext.
    + intros x. rewrite Hd', Hd. apply single_write.
    + intros x. rewrite Hh', Hh, (lo_held _ _ Hok). fold p. by destruct (x =? b), (x =? p).
Qed.

(** ** The loops *)
Fixpoint home_writes (D : Z -> block) (p : Z) (l : list Z) : list (Z * block) :=
  match l with [] => [] | b :: l' => (b, D p) :: home_writes D (p + 1) l' end.

Fixpoint log_writes (V : Z -> block) (p : Z) (l : list Z) : list (Z * block) :=
  match l with [] => [] | b :: l' => (p, V b) :: log_writes V (p + 1) l' end.

Lemma home_writes_fst D p l : (home_writes D p l).*1 = l.
Proof. revert p. induction l as [|b l IH]; intros p; simpl; [done|]. by rewrite IH. Qed.

Lemma home_writes_ext D D' l : forall p, (forall x, p <= x < p + Z.of_nat (length l) -> D x = D' x) ->
  home_writes D p l = home_writes D' p l.
Proof.
  induction l as [|b l IH]; intros p H; simpl; [done|]. rewrite H by (simpl; lia).
  rewrite IH; [done|]. intros x Hx. apply H. simpl. lia.
Qed.

Lemma log_writes_fst V l : forall p x, x ∈ (log_writes V p l).*1 <-> p <= x < p + Z.of_nat (length l).
Proof.
  induction l as [|b l IH]; intros p x; simpl; [rewrite elem_of_nil; lia|].
  rewrite elem_of_cons, IH. lia.
Qed.

Lemma log_writes_ext V V' l : forall p, (forall x, x ∈ l -> V x = V' x) -> log_writes V p l = log_writes V' p l.
Proof.
  induction l as [|b l IH]; intros p H; simpl; [done|]. rewrite H by left. rewrite IH; [done|].
  intros x Hx. apply H. by right.
Qed.

Lemma install_loop_wp l2 : forall l1 s, log_ok s (l1 ++ l2) ->
  (forall b, b ∈ l2 -> dirty (bc s) b = true) \/ (forall x, dirty (bc s) x = false) ->
  wp (install_loop (length l2) (Z.of_nat (length l1))) (fun _ s' => exists c', s' = set_bc c' s /\
    wrote (bc s) (home_writes (ondisk (bc s)) (lstart s + Z.of_nat (length l1) + 1) l2) c') s.
Proof.
  induction l2 as [|b l2 IH]; intros l1 s Hok Hd; cbn [install_loop length].
  { apply wp_ret. exists (bc s). split; [by destruct s|]. apply wrote_nil, Hok. }
  apply wp_bind, wp_get. apply (install_one s l1 b l2); [done| |].
  { destruct Hd as [Hd|Hd]; [left; apply Hd; left|by right]. }
  set (p := lstart s + Z.of_nat (length l1) + 1). intros c1 Hw1.
  pose proof (log_ok_wrote _ _ _ _ Hok Hw1) as Hok1.
  replace (Z.of_nat (length l1) + 1) with (Z.of_nat (length (l1 ++ [b]))) by (rewrite length_app; simpl; lia).
  pose proof (lo_nodup _ _ Hok) as (_ & _ & [Hnb _]%NoDup_cons)%NoDup_app.
  eapply wp_mono; [apply (IH (l1 ++ [b]))|].
  - by rewrite <- app_assoc.
  - destruct Hd as [Hd|Hd]; [left|right]; intros x; [intros Hx|]; simpl; rewrite (wr_dirty _ _ _ Hw1).
    + destruct (decide (x ∈ _)) as [E%list_elem_of_singleton|]; [|apply Hd; by right]. by subst.
    + by destruct (decide _).
  - intros _ s' (c2 & -> & Hw2). exists c2. split; [done|]. simpl in Hw2.
    rewrite length_app in Hw2. simpl in Hw2.
    replace (lstart s + Z.of_nat (length l1 + 1) + 1) with (p + 1) in Hw2 by (unfold p; lia).
    apply (wrote_app _ _ _ _ _ Hw1). rewrite (home_writes_ext _ (ondisk (bc s))) in Hw2; [done|].
    intros x Hx. rewrite (wr_disk _ _ _ Hw1). apply after_other. intros E%list_elem_of_singleton. simpl in E. subst x.
    pose proof (lo_home _ _ Hok) as Hh. apply Forall_app in Hh as [_ Hh]. apply Forall_cons in Hh as [[_ Hnl] _].
    apply Hnl. unfold in_log. pose proof (lo_size _ _ Hok) as Hsz. rewrite length_app in Hsz. simpl in Hsz. unfold p in *. lia.
Qed.

Lemma write_log_loop_wp l2 : forall l1 s, log_ok s (l1 ++ l2) ->
  (forall b, b ∈ l1 ++ l2 -> dirty (bc s) b = true) ->
  wp (write_log_loop (length l2) (Z.of_nat (length l1))) (fun _ s' => exists c', s' = set_bc c' s /\
    wrote (bc s) (log_writes (view (bc s)) (lstart s + Z.of_nat (length l1) + 1) l2) c') s.
Proof.
  induction l2 as [|b l2 IH]; intros l1 s Hok Hd; cbn [write_log_loop length].
  { apply wp_ret. exists (bc s). split; [by destruct s|]. apply wrote_nil, Hok. }
  apply wp_bind, wp_get. apply (write_log_one s l1 b l2); [done|apply Hd; set_solver|].
  set (p := lstart s + Z.of_nat (length l1) + 1). intros c1 Hw1.
  pose proof (log_ok_wrote _ _ _ _ Hok Hw1) as Hok1.
  replace (Z.of_nat (length l1) + 1) with (Z.of_nat (length (l1 ++ [b]))) by (rewrite length_app; simpl; lia).
  assert (Hne : forall x, x ∈ l1 ++ b :: l2 -> x ∉ [(p, view (bc s) b)].*1).
  { intros x Hx ->%list_elem_of_singleton. apply (proj1 (Forall_forall _ _) (lo_home _ _ Hok)) in Hx as [_ Hnl].
    apply Hnl. unfold in_log. pose proof (lo_size _ _ Hok) as Hsz. rewrite length_app in Hsz. simpl in *. unfold p. lia. }
  eapply wp_mono; [apply (IH (l1 ++ [b]))|].
  - by rewrite <- app_assoc.
  - rewrite <- app_assoc. intros x Hx. simpl. rewrite (wr_dirty _ _ _ Hw1), decide_False by (by apply Hne). by apply Hd.
  - intros _ s' (c2 & -> & Hw2). exists c2. split; [done|]. simpl in Hw2.
    rewrite length_app in Hw2. simpl in Hw2.
    replace (lstart s + Z.of_nat (length l1 + 1) + 1) with (p + 1) in Hw2 by (unfold p; lia).
    apply (wrote_app _ _ _ _ _ Hw1). rewrite (log_writes_ext _ (view (bc s))) in Hw2; [done|].
    intros x Hx. rewrite (wr_view _ _ _ Hw1). apply after_other, Hne. set_solver.
Qed.
End LogInv.
