(* ===== verification/LogCommit.v ===== *)
(** * The write-ahead log (log.c): the header, commit and recovery

    The exact sequence of disk writes of [commit] and of [recover_from_log]. *)

From stdpp Require Import base numbers list gmap strings.
From Stdlib Require Import ZArith Lia.
From S2P Require Import Prelude Block BlockCache Log LogInv.

Local Open Scope Z_scope.
Local Open Scope kernel_scope.

(** ** The header block *)
Definition hdr_list (d : block) : list Z := hdr_block d <$> seqZ 0 (hdr_n d).

Definition is_hdr (d : block) (l : list Z) : Prop :=
  block_ok d /\ hdr_n d = Z.of_nat (length l) /\ hdr_list d = l.

Lemma fill_blocks_spec l : forall d i,
  block_ok d -> 0 <= i -> 4 + 4 * (i + Z.of_nat (length l)) <= BSIZE ->
  Forall (fun b => 0 <= b < 4294967296) l ->
  block_ok (fill_blocks d i l) /\
  (forall x, 0 <= x -> x + 4 <= 4 + 4 * i -> get32 (fill_blocks d i l) x = get32 d x) /\
  (forall k b, l !! k = Some b -> get32 (fill_blocks d i l) (4 + 4 * (i + Z.of_nat k)) = b).
Proof.
  induction l as [|b l IH]; intros d i Hd Hi Hlen Hl; cbn [fill_blocks length] in *; [done|].
  apply Forall_cons in Hl as [Hb Hl]. pose proof Hd as [Hdl _]. unfold BSIZE in *.
  destruct (IH (put32 d (4 + 4 * i) b) (i + 1)) as (H1 & H2 & H3); [by apply put32_ok|lia|lia|done|].
  split; [done|]. split.
  - intros x Hx Hle. rewrite H2 by lia. apply get32_put32_ne; lia.
  - intros [|k] b' Hk; simpl in Hk.
    + injection Hk as <-. rewrite Z.add_0_r, H2, get32_put32_eq by lia. by apply Z.mod_small.
    + rewrite <- (H3 k b' Hk). f_equal. lia.
Qed.

Lemma make_hdr d l :
  block_ok d -> Z.of_nat (length l) <= LOGSIZE -> Forall (fun b => 0 <= b < 4294967296) l ->
  is_hdr (fill_blocks (put32 d 0 (Z.of_nat (length l))) 0 l) l.
Proof.
  intros Hd Hlen Hl. pose proof Hd as [Hdl _]. unfold LOGSIZE, MAXOPBLOCKS, BSIZE in *.
  destruct (fill_blocks_spec l (put32 d 0 (Z.of_nat (length l))) 0) as (H1 & H2 & H3);
    [by apply put32_ok|lia|unfold BSIZE; lia|done|].
  assert (En : hdr_n (fill_blocks (put32 d 0 (Z.of_nat (length l))) 0 l) = Z.of_nat (length l)).
  { unfold hdr_n. rewrite H2, get32_put32_eq, Z.mod_small by lia. apply s32_small. lia. }
  split; [done|]. split; [done|]. unfold hdr_list. rewrite En.
  apply list_eq. intros k. rewrite list_lookup_fmap. destruct (l !! k) as [b|] eqn:E.
  - apply lookup_lt_Some in E as Hk. rewrite lookup_seqZ_lt by lia. cbn. f_equal. by apply (H3 k b).
  - apply lookup_ge_None in E. by rewrite lookup_seqZ_ge by lia.
Qed.

Lemma is_hdr_block d l i b : is_hdr d l -> l !! i = Some b -> hdr_block d (Z.of_nat i) = b.
Proof.
  intros (_ & En & El) Hi. rewrite <- El in Hi. unfold hdr_list in Hi.
  apply list_lookup_fmap_Some in Hi as (k & -> & [-> _]%lookup_seqZ). done.
Qed.

Section LogCommit.
Context {S : Type} {BC : BlockCache S} {BL : BlockCacheLaws S}.
Implicit Types s : logst S.

Lemma log_ok_range s l : log_ok s l -> Forall (fun b => 0 <= b < 4294967296) l.
Proof.
  intros Hok. eapply Forall_impl; [apply Hok|]. intros b [Hb _]. pose proof (lo_nblk _ _ Hok). lia.
Qed.

(** Reading the header block, doing something with it, and releasing it. *)
Lemma log_reads s l : log_ok s l -> forall x, dirty (bc s) x = true \/ held (bc s) x = true -> x ∈ l.
Proof. intros Hok x [Hx|Hx]; [by apply Hok|]. by rewrite (lo_held _ _ Hok) in Hx. Qed.

Lemma log_start s l : log_ok s l -> in_log s (lstart s) /\ 0 <= lstart s < nblk (bc s) /\ u32 (lstart s) = lstart s.
Proof.
  intros Hok. pose proof (lo_size _ _ Hok). pose proof (lo_start _ _ Hok). pose proof (lo_end _ _ Hok).
  pose proof (lo_nblk _ _ Hok). unfold in_log. rewrite u32_small by lia. lia.
Qed.

Lemma write_head_wp s l : log_ok s l ->
  wp write_head (fun _ s' => exists c' h, s' = set_bc c' s /\ is_hdr h l /\
    wrote (bc s) [(lstart s, h)] c') s.
Proof.
  intros Hok. destruct (log_start _ _ Hok) as (Hil & Hst & Eu). destruct (log_clean _ _ _ Hok Hil) as [Hdst _].
  unfold write_head. apply wp_bind, wp_get. rewrite (lo_dev _ _ Hok), Eu.
  apply wp_bind, wp_lift.
  eapply wp_mono; [apply (law_read (bc s) (lstart s) l); [apply Hok|done|apply Hok|by apply log_reads|right; apply Hok]|].
  intros i c1 ([Hi1 Hn1] & Ho1 & Ht1 & Hv1 & Hk1 & Hd1 & Hh1 & _).
  apply wp_bind, wp_lift. simpl. eapply wp_mono; [by apply (law_data c1 i (lstart s))|]. intros d c1' [-> ->].
  pose proof (lo_len _ _ Hok) as Hll. pose proof (lo_nbuf _ _ Hok) as Hnb.
  rewrite (lo_n _ _ Hok). apply wp_bind. unfold NBUF, LOGSIZE, MAXOPBLOCKS in *.
  destruct (Z.gtb_spec (Z.of_nat (length l)) (Z.of_nat (length (lh_block s)))); [lia|].
  rewrite Nat2Z.id, (lo_blocks _ _ Hok). set (h := fill_blocks _ _ _).
  assert (Hh : is_hdr h l).
  { apply make_hdr; [by apply law_ok|unfold LOGSIZE, MAXOPBLOCKS; lia|by eapply log_ok_range]. }
  apply wp_lift. simpl. eapply wp_mono; [apply (law_set c1 i (lstart s)); [done|done|apply Hh]|].
  intros _ c2 ([Hi2 Hn2] & Ht2 & Hv2 & Ho2 & Hd2 & Hh2 & Hw2).
  apply wp_bind, wp_lift. simpl. eapply wp_mono; [by apply (law_write c2 i (lstart s)); [|apply Hw2]|].
  intros _ c3 ([Hi3 Hn3] & Ht3 & Hv3 & Ho3 & Hd3 & Hh3 & Hw3).
  apply wp_lift. simpl. eapply wp_mono; [apply (law_relse c3 i (lstart s)); [done|by apply Hw3, Hw2|]|].
  { right. by rewrite Hv3, Ho3, Z.eqb_refl. }
  intros _ c4 ([Hi4 Hn4] & Ht4 & Hv4 & Ho4 & Hd4 & Hh4 & _).
  exists c4, h. split; [done|]. split; [done|].
  assert (Ev : view c2 (lstart s) = h) by (by rewrite Hv2, Z.eqb_refl).
  split; [done|congruence| | | | |].
  - by rewrite Ht4, Ht3, Ht2, Ht1, Ev.
  - intros x. rewrite Hv4, Hv3, Hv2. by apply upd_ext.
  - intros x. rewrite Ho4, Ho3, Ev. apply upd_ext. by rewrite Ho2, Hk1.
  - intros x. rewrite Hd4, Hd3, Hd2, Hd1. apply single_write.
  - intros x. rewrite Hh4, Hh3, Hh2, Hh1, (lo_held _ _ Hok). by destruct (x =? lstart s).
Qed.

Lemma read_blocks_wp d l2 : forall l1 s, is_hdr d (l1 ++ l2) ->
  length (lh_block s) = Z.to_nat LOGSIZE -> (length (l1 ++ l2) <= Z.to_nat LOGSIZE)%nat ->
  take (length l1) (lh_block s) = l1 ->
  wp (read_blocks (length l2) d (Z.of_nat (length l1))) (fun _ s' => exists lb, s' = set_lh (lh_n s) lb s /\
    length lb = Z.to_nat LOGSIZE /\ take (length (l1 ++ l2)) lb = l1 ++ l2) s.
Proof.
  induction l2 as [|b l2 IH]; intros l1 s Hh Hlen Hle Htk; cbn [read_blocks length].
  { apply wp_ret. exists (lh_block s). rewrite app_nil_r. split; [by destruct s|done]. }
  assert (Hb : hdr_block d (Z.of_nat (length l1)) = b) by (apply (is_hdr_block d (l1 ++ b :: l2)); [done|by apply list_lookup_middle]).
  rewrite length_app in Hle. simpl in Hle. rewrite Hb.
  apply wp_bind. unfold lh_put. apply wp_bind, wp_gets.
  destruct (Z.leb_spec 0 (Z.of_nat (length l1))), (Z.ltb_spec (Z.of_nat (length l1)) (Z.of_nat (length (lh_block s)))); try lia.
  simpl. apply wp_modify. rewrite Nat2Z.id.
  replace (Z.of_nat (length l1) + 1) with (Z.of_nat (length (l1 ++ [b]))) by (rewrite length_app; simpl; lia).
  eapply wp_mono; [apply (IH (l1 ++ [b])); simpl|].
  - by rewrite <- app_assoc.
  - by rewrite length_insert.
  - rewrite <- app_assoc, length_app. simpl. lia.
  - rewrite length_app, Nat.add_1_r. erewrite take_S_r; [|apply list_lookup_insert_eq; lia].
    by rewrite take_insert_ge, Htk by lia.
  - intros _ s' (lb & -> & Hl & Ht). exists lb. rewrite <- app_assoc in Ht. done.
Qed.

(** A header that recovery can follow. *)
Definition hdr_fits s (l : list Z) : Prop :=
  Z.of_nat (length l) < lsize s /\ Z.of_nat (length l) < NBUF /\
  Forall (fun b => 0 <= b < nblk (bc s) /\ ~ in_log s b) l /\ NoDup l.

Lemma read_head_wp s l : log_ok s [] -> is_hdr (ondisk (bc s) (lstart s)) l -> hdr_fits s l ->
  wp read_head (fun _ s' => exists c' lb, s' = set_lh (Z.of_nat (length l)) lb (set_bc c' s) /\
    wrote (bc s) [] c' /\ log_ok s' l) s.
Proof.
  intros Hok Hhdr (Hsz & Hnb & Hhome & Hnd). destruct (log_start _ _ Hok) as (Hil & Hst & Eu).
  destruct (log_clean _ _ _ Hok Hil) as [Hdst Hvst]. unfold NBUF, MAXOPBLOCKS in *.
  unfold read_head. apply wp_bind, wp_get. rewrite (lo_dev _ _ Hok), Eu.
  apply wp_bind, wp_lift.
  eapply wp_mono; [apply (law_read (bc s) (lstart s) []); [apply Hok|done|apply Hok|by apply log_reads|by right]|].
  intros i c1 ([Hi1 Hn1] & Ho1 & Ht1 & Hv1 & Hk1 & Hd1 & Hh1 & _).
  apply wp_bind, wp_lift. simpl. eapply wp_mono; [by apply (law_data c1 i (lstart s))|]. intros d c1' [-> ->].
  rewrite Hv1, Hvst. set (d := ondisk _ _) in *. pose proof Hhdr as (_ & En & _). rewrite En, Nat2Z.id.
  apply wp_bind, wp_modify, wp_bind.
  eapply wp_mono; [apply (read_blocks_wp d l [] (set_lh _ (lh_block s) (set_bc c1 s))); simpl; try done|].
  { apply Hok. } { unfold LOGSIZE, MAXOPBLOCKS. lia. }
  intros _ s1 (lb & -> & Hlb & Htk). simpl in *. apply wp_lift. simpl.
  eapply wp_mono; [apply (law_relse c1 i (lstart s)); [done|done|]|].
  { right. by rewrite Hv1, Hk1. }
  intros _ c2 ([Hi2 Hn2] & Ht2 & Hv2 & Ho2 & Hd2 & Hh2 & _). exists c2, lb.
  assert (Hnod : forall x, dirty c2 x = false).
  { intros x. rewrite Hd2, Hd1. destruct (dirty (bc s) x) eqn:E; [|done]. by apply (lo_dirty _ _ Hok), elem_of_nil in E. }
  assert (Hnoh : forall x, held c2 x = false).
  { intros x. rewrite Hh2, Hh1, (lo_held _ _ Hok). by destruct (x =? lstart s). }
  split; [done|]. split.
  - split; [done|congruence|by rewrite app_nil_r, Ht2, Ht1| | | |].
    + intros x. by rewrite Hv2, Hv1.
    + intros x. by rewrite Ho2, Hk1.
    + intros x. by rewrite Hd2, Hd1.
    + intros x. by rewrite Hnoh, (lo_held _ _ Hok).
  - destruct Hok. split; simpl; try done; try congruence.
    eapply Forall_impl; [exact Hhome|]. intros b [Hb Hnl]. split; [lia|done].
Qed.

(** [install_trans], then the in-memory header emptied. *)
Lemma install_clear_wp s l (K : M (logst S) unit) Q : log_ok s l ->
  (forall b, b ∈ l -> dirty (bc s) b = true) \/ (forall x, dirty (bc s) x = false) ->
  (forall c', wrote (bc s) (home_writes (ondisk (bc s)) (lstart s + 1) l) c' ->
     log_ok (set_lh 0 (lh_block s) (set_bc c' s)) [] ->
     wp K Q (set_lh 0 (lh_block s) (set_bc c' s))) ->
  wp (install_trans;; modify (fun s => set_lh 0 (lh_block s) s);; K) Q s.
Proof.
  intros Hok Hd HK. apply wp_bind. unfold install_trans. apply wp_bind, wp_gets.
  rewrite (lo_n _ _ Hok), Nat2Z.id.
  eapply wp_mono; [apply (install_loop_wp l [] s Hok Hd)|]. intros _ s' (c' & -> & Hw).
  apply wp_bind, wp_modify. simpl in Hw |- *. rewrite Z.add_0_r in Hw. apply (HK c' Hw).
  pose proof (lo_dirty _ _ Hok) as Hdl.
  pose proof (log_ok_wrote _ _ _ _ Hok Hw) as []. split; simpl in *; try done; try lia.
  - constructor.
  - intros b. rewrite (wr_dirty _ _ _ Hw), home_writes_fst. destruct (decide (b ∈ l)) as [|Hn]; [done|].
    intros Hb. by apply Hdl in Hb.
Qed.

Lemma recover_wp s l : log_ok s [] -> is_hdr (ondisk (bc s) (lstart s)) l -> hdr_fits s l ->
  wp recover_from_log (fun _ s' => exists c' h lb, s' = set_lh 0 lb (set_bc c' s) /\ is_hdr h [] /\
    wrote (bc s) (home_writes (ondisk (bc s)) (lstart s + 1) l ++ [(lstart s, h)]) c' /\ log_ok s' []) s.
Proof.
  intros Hok Hhdr Hfit. unfold recover_from_log. apply wp_bind.
  eapply wp_mono; [by apply (read_head_wp s l)|]. intros _ s1 (c1 & lb & -> & Hw1 & Hok1).
  assert (Hno : forall x, dirty c1 x = false).
  { intros x. rewrite (wr_dirty _ _ _ Hw1). destruct (decide _); [done|]. destruct (dirty (bc s) x) eqn:E; [|done].
    by apply (lo_dirty _ _ Hok), elem_of_nil in E. }
  apply (install_clear_wp _ l); [done|by right|]. simpl. intros c2 Hw2 Hok2.
  eapply wp_mono; [by apply (write_head_wp _ [])|]. intros _ s3 (c3 & h & -> & Hh & Hw3). simpl in *.
  exists c3, h, lb. split; [done|]. split; [done|]. split.
  - apply (wrote_app _ _ c2); [|done]. change (home_writes (ondisk (bc s)) (lstart s + 1) l)
      with ([] ++ home_writes (ondisk (bc s)) (lstart s + 1) l). apply (wrote_app _ _ c1); [done|].
    erewrite home_writes_ext; [exact Hw2|]. intros x _. by rewrite (wr_disk _ _ _ Hw1).
  - by apply (log_ok_wrote _ [] _ _ Hok2 Hw3).
Qed.

(** The writes of [commit]: log blocks, header, home blocks, header. *)
Definition commit_writes (V : Z -> block) (start : Z) (l : list Z) (h1 h0 : block) : list (Z * block) :=
  log_writes V (start + 1) l ++ [(start, h1)] ++ ((fun b => (b, V b)) <$> l) ++ [(start, h0)].

Lemma home_after_log V D l : forall p, (forall i b, l !! i = Some b -> D (p + Z.of_nat i) = V b) ->
  home_writes D p l = (fun b => (b, V b)) <$> l.
Proof.
  induction l as [|b l IH]; intros p H; simpl; [done|]. f_equal.
  - f_equal. rewrite <- (H 0%nat b eq_refl). f_equal. simpl. lia.
  - apply IH. intros i b' Hi. rewrite <- (H (Datatypes.S i) b' Hi). f_equal. lia.
Qed.

Lemma log_writes_lookup V l : forall p i b, l !! i = Some b -> log_writes V p l !! i = Some (p + Z.of_nat i, V b).
Proof.
  induction l as [|x l IH]; intros p i b Hi; [done|]. destruct i as [|i]; simpl in *.
  - injection Hi as ->. by rewrite Z.add_0_r.
  - rewrite (IH _ _ _ Hi). do 2 f_equal. lia.
Qed.

Lemma log_writes_nodup V l : forall p, NoDup (log_writes V p l).*1.
Proof.
  induction l as [|x l IH]; intros p; simpl; [constructor|]. apply NoDup_cons. split; [|apply IH].
  rewrite log_writes_fst. lia.
Qed.

Lemma commit_wp s l : log_ok s l -> l <> [] -> (forall b, b ∈ l -> dirty (bc s) b = true) ->
  wp commit (fun _ s' => exists c' h1 h0, s' = set_lh 0 (lh_block s) (set_bc c' s) /\
    is_hdr h1 l /\ is_hdr h0 [] /\
    wrote (bc s) (commit_writes (view (bc s)) (lstart s) l h1 h0) c' /\ log_ok s' []) s.
Proof.
  intros Hok Hne Hd. unfold commit. apply wp_bind, wp_gets. rewrite (lo_n _ _ Hok).
  destruct (Z.gtb_spec (Z.of_nat (length l)) 0); [|destruct l; simpl in *; lia || done].
  apply wp_bind. unfold write_log. apply wp_bind, wp_gets. rewrite (lo_n _ _ Hok), Nat2Z.id.
  eapply wp_mono; [apply (write_log_loop_wp l [] s Hok Hd)|]. intros _ s1 (c1 & -> & Hw1).
  simpl in Hw1. rewrite Z.add_0_r in Hw1. pose proof (log_ok_wrote _ _ _ _ Hok Hw1) as Hok1.
  apply wp_bind. eapply wp_mono; [by apply (write_head_wp _ l)|]. intros _ s2 (c2 & h1 & -> & Hh1 & Hw2).
  simpl in *. pose proof (log_ok_wrote _ _ _ _ Hok1 Hw2) as Hok2. simpl in Hok2.
  pose proof (lo_size _ _ Hok) as Hsz. pose proof (proj1 (Forall_forall _ _) (lo_home _ _ Hok)) as Hhome.
  assert (Hd2 : forall b, b ∈ l -> dirty c2 b = true).
  { intros b Hb. destruct (Hhome b Hb) as [_ Hnl]. unfold in_log in Hnl.
    rewrite (wr_dirty _ _ _ Hw2), decide_False, (wr_dirty _ _ _ Hw1), decide_False; [by apply Hd| |].
    - rewrite log_writes_fst. lia.
    - intros E%list_elem_of_singleton. simpl in E. lia. }
  apply (install_clear_wp _ l); [done|by left|]. simpl. intros c3 Hw3 Hok3.
  eapply wp_mono; [by apply (write_head_wp _ [])|]. intros _ s4 (c4 & h0 & -> & Hh0 & Hw4). simpl in *.
  exists c4, h1, h0. split; [done|]. split; [done|]. split; [done|]. split; [|by apply (log_ok_wrote _ [] _ _ Hok3 Hw4)].
  unfold commit_writes. eapply wrote_app; [exact Hw1|]. eapply wrote_app; [exact Hw2|].
  eapply wrote_app; [|exact Hw4]. rewrite <- (home_after_log _ (ondisk c2) l (lstart s + 1)); [exact Hw3|].
  intros i b Hi. rewrite (wr_disk _ _ _ Hw2), after_other.
  2: { intros E%list_elem_of_singleton. simpl in E. lia. }
  rewrite (wr_disk _ _ _ Hw1). apply (after_lookup _ _ i); [apply log_writes_nodup|]. by apply log_writes_lookup.
Qed.
End LogCommit.
