(* ===== verification/LogCrash.v ===== *)
(** * The write-ahead log (log.c): crashes

    A crash loses the memory and keeps the disk as some prefix of the writes left
    it.  [commit] is atomic under crashes, and recovery may itself crash and be
    run again. *)

From stdpp Require Import base numbers list gmap strings.
From Stdlib Require Import ZArith Lia.
From S2P Require Import Prelude Block BlockCache Bio Log LogInv LogCommit.

Local Open Scope Z_scope.
Local Open Scope kernel_scope.

Lemma prefix_cases {A} (t1 t2 p : list A) : p `prefix_of` t1 ++ t2 ->
  p `prefix_of` t1 \/ exists q, p = t1 ++ q /\ q `prefix_of` t2.
Proof.
  intros Hp. destruct (decide (length p <= length t1)%nat) as [Hle|Hgt].
  - left. destruct Hp as [k E]. apply (f_equal (take (length p))) in E.
    rewrite take_app_length, take_app_le in E by done. exists (drop (length p) t1). rewrite <- E at 1. by rewrite take_drop.
  - right. destruct Hp as [k E]. exists (drop (length t1) p). split.
    + rewrite <- (take_drop (length t1) p) at 1. f_equal.
      apply (f_equal (take (length t1))) in E. rewrite take_app_length in E.
      rewrite take_app_le in E by lia. done.
    + exists k. apply (f_equal (drop (length t1))) in E. rewrite drop_app_length in E.
      rewrite drop_app_le in E by lia. done.
Qed.

Lemma prefix_snoc_cases {A} (t p : list A) w : p `prefix_of` t ++ [w] -> p `prefix_of` t \/ p = t ++ [w].
Proof.
  intros [Hp|([|x q] & -> & Hp)]%prefix_cases; [by left|left; by rewrite app_nil_r|right].
  pose proof (prefix_cons_inv_1 _ _ _ _ Hp) as ->. by apply prefix_cons_inv_2, prefix_nil_inv in Hp as ->.
Qed.

Lemma prefix_fst (p t : list (Z * block)) x : p `prefix_of` t -> x ∈ p.*1 -> x ∈ t.*1.
Proof. intros [k ->] Hx. rewrite fmap_app. apply elem_of_app. by left. Qed.

(** Writing each block of [l] with its new contents, or some of them. *)
Lemma after_new D (V : Z -> block) l x :
  NoDup l -> after D ((fun b => (b, V b)) <$> l) x = if decide (x ∈ l) then V x else D x.
Proof.
  intros Hnd.
  assert (Ef : ((fun b => (b, V b)) <$> l).*1 = l) by (rewrite <- list_fmap_compose; apply list_fmap_id).
  destruct (decide (x ∈ l)) as [Hx|Hx]; [|by apply after_other; rewrite Ef].
  apply list_elem_of_lookup in Hx as [i Hi]. apply (after_lookup _ _ i); [by rewrite Ef|].
  by rewrite list_lookup_fmap, Hi.
Qed.

Lemma upd_eq D b v : upd D b v b = v.
Proof. unfold upd. by rewrite Z.eqb_refl. Qed.

Lemma home_writes_lookup D l : forall p i b, l !! i = Some b -> home_writes D p l !! i = Some (b, D (p + Z.of_nat i)).
Proof.
  induction l as [|x l IH]; intros p i b Hi; [done|]. destruct i as [|i]; simpl in *.
  - injection Hi as ->. by rewrite Z.add_0_r.
  - rewrite (IH _ _ _ Hi). do 3 f_equal. lia.
Qed.

(** Doing the writes again after some of them were done. *)
Lemma after_twice D p t x : NoDup t.*1 -> (x ∈ p.*1 -> x ∈ t.*1) -> after (after D p) t x = after D t x.
Proof.
  intros Hnd Hsub. destruct (decide (x ∈ t.*1)) as [Hx|Hx].
  - apply list_elem_of_fmap in Hx as ([b v] & -> & Hx). apply list_elem_of_lookup in Hx as [i Hi].
    by rewrite !(after_lookup _ _ i b v).
  - rewrite !after_other; auto.
Qed.

Section LogCrash.
Context {S : Type} {BC : BlockCache S} {BL : BlockCacheLaws S}.
Implicit Types s r : logst S.

(** The machine rebooted with the disk [D]: an empty cache and an empty log in
    memory, the log at the same place. *)
Definition reboot s (D : Z -> block) r : Prop :=
  log_ok r [] /\ lstart r = lstart s /\ lsize r = lsize s /\ nblk (bc r) = nblk (bc s) /\
  forall b, ondisk (bc r) b = D b.

Lemma recover_from s D r l : reboot s D r -> is_hdr (D (lstart s)) l -> hdr_fits s l ->
  wp recover_from_log (fun _ r' => log_ok r' [] /\ is_hdr (ondisk (bc r') (lstart s)) [] /\
    forall b, b <> lstart s -> ondisk (bc r') b = after D (home_writes D (lstart s + 1) l) b) r.
Proof.
  intros (Hok & Est & Esz & Enb & Ed) Hh Hfit.
  assert (Hfit' : hdr_fits r l) by (unfold hdr_fits, in_log in *; by rewrite Est, Esz, Enb).
  eapply wp_mono; [apply (recover_wp r l Hok); [by rewrite Est, Ed|done]|].
  intros _ r' (c' & h & lb & -> & Hh0 & Hw & Hok'). split; [done|]. simpl. rewrite Est in Hw.
  assert (Eh : home_writes (ondisk (bc r)) (lstart s + 1) l = home_writes D (lstart s + 1) l)
    by (apply home_writes_ext; intros; apply Ed).
  rewrite Eh in Hw. split.
  - rewrite (wr_disk _ _ _ Hw), after_snoc. unfold upd. by rewrite Z.eqb_refl.
  - intros b Hb. rewrite (wr_disk _ _ _ Hw), after_snoc. unfold upd. destruct (Z.eqb_spec b (lstart s)); [done|].
    by apply after_ext.
Qed.

(** The disks that the writes of [commit] can leave behind. *)
Lemma commit_prefix s l p h1 h0 : log_ok s l -> is_hdr (ondisk (bc s) (lstart s)) [] ->
  is_hdr h1 l -> is_hdr h0 [] ->
  p `prefix_of` commit_writes (view (bc s)) (lstart s) l h1 h0 ->
  let D := after (ondisk (bc s)) p in
  (is_hdr (D (lstart s)) [] /\ ((forall b, ~ in_log s b -> D b = ondisk (bc s) b) \/
                                (forall b, ~ in_log s b -> D b = view (bc s) b))) \/
  (is_hdr (D (lstart s)) l /\
     forall b, ~ in_log s b -> after D (home_writes D (lstart s + 1) l) b = view (bc s) b).
Proof.
  intros Hok H0 Hh1 Hh0 Hp. pose proof (lo_size _ _ Hok) as Hsz. pose proof (lo_nodup _ _ Hok) as Hnd.
  pose proof (proj1 (Forall_forall _ _) (lo_home _ _ Hok)) as Hhome. unfold in_log in *.
  set (V := view (bc s)) in *. set (O := ondisk (bc s)) in *. set (W := (fun b => (b, V b)) <$> l) in *.
  assert (EW : W.*1 = l) by (unfold W; rewrite <- list_fmap_compose; apply list_fmap_id).
  assert (Hst : lstart s ∉ l) by (intros Hx; apply Hhome in Hx as [_ Hx]; lia).
  assert (Hclean : forall b, b ∉ l -> V b = O b).
  { intros b Hb. apply law_clean; [apply Hok| |apply Hok]. destruct (dirty (bc s) b) eqn:E; [|done].
    by apply (lo_dirty _ _ Hok) in E. }
  assert (Hold : forall D b, (forall x, ~ lstart s <= x < lstart s + lsize s -> x ∉ l -> D x = O x) ->
    ~ lstart s <= b < lstart s + lsize s -> after D W b = V b).
  { intros D b HD Hb. unfold W. rewrite after_new by done. destruct (decide (b ∈ l)) as [|Hn]; [done|].
    rewrite HD by done. symmetry. by apply Hclean. }
  assert (Hlogw : forall x, ~ lstart s + 1 <= x < lstart s + lsize s -> x ∉ (log_writes V (lstart s + 1) l).*1).
  { intros x Hx. rewrite log_writes_fst. lia. }
  set (L := log_writes V (lstart s + 1) l) in *. unfold commit_writes in Hp. fold W L in Hp.
  apply prefix_cases in Hp as [Hp|(q & -> & Hp)].
  { left. assert (Hx : forall x, ~ lstart s + 1 <= x < lstart s + lsize s -> after O p x = O x).
    { intros x Hx. apply after_other. intros E. by apply (Hlogw x Hx), (prefix_fst p). }
    split; [rewrite Hx by lia; done|left; intros b Hb; apply Hx; lia]. }
  destruct q as [|w q].
  { left. rewrite app_nil_r. assert (Hx : forall x, ~ lstart s + 1 <= x < lstart s + lsize s -> after O L x = O x).
    { intros x Hx. by apply after_other, Hlogw. }
    split; [rewrite Hx by lia; done|left; intros b Hb; apply Hx; lia]. }
  apply prefix_cons_inv_1 in Hp as Ew. apply prefix_cons_inv_2 in Hp. subst w.
  set (D1 := after (after O L) [(lstart s, h1)]).
  assert (HD1 : forall x, x <> lstart s -> D1 x = after O L x).
  { intros x Hx. apply after_other. by intros E%list_elem_of_singleton. }
  assert (HD1o : forall x, ~ lstart s <= x < lstart s + lsize s -> D1 x = O x).
  { intros x Hx. rewrite HD1 by lia. apply after_other, Hlogw. lia. }
  assert (Happ : forall t, after O (L ++ (lstart s, h1) :: t) = after D1 t).
  { intros t. rewrite after_app. done. }
  assert (HD1s : D1 (lstart s) = h1) by apply upd_eq.
  assert (Hmid : forall q, q `prefix_of` W -> is_hdr (after D1 q (lstart s)) l /\
    forall b, ~ lstart s <= b < lstart s + lsize s ->
      after (after D1 q) (home_writes (after D1 q) (lstart s + 1) l) b = V b).
  { intros q1 Hq1. assert (Hq : forall x, x ∉ l -> after D1 q1 x = D1 x).
    { intros x Hx. apply after_other. intros E. apply Hx. rewrite <- EW. by apply (prefix_fst q1). }
    split; [by rewrite Hq, HD1s|]. intros b Hb. rewrite (home_after_log V).
    - apply Hold; [|done]. intros x Hx Hxl. by rewrite Hq, HD1o.
    - intros i b' Hi. assert (Hi' := lookup_lt_Some _ _ _ Hi). rewrite Hq, HD1.
      + apply (after_lookup _ _ i); [apply log_writes_nodup|by apply log_writes_lookup].
      + lia.
      + intros Hx. apply Hhome in Hx as [_ Hx]. lia. }
  rewrite Happ. apply prefix_snoc_cases in Hp as [Hp| ->]; [by right; apply Hmid|left].
  rewrite after_snoc, upd_eq. split; [done|right]. intros b Hb. rewrite after_snoc. unfold upd.
  destruct (Z.eqb_spec b (lstart s)); [lia|]. apply Hold; [|done]. intros x Hx _. by apply HD1o.
Qed.

(** After recovery: an empty log, and the blocks outside it all old or all new. *)
Definition old_or_new s (r' : logst S) : Prop :=
  log_ok r' [] /\ is_hdr (ondisk (bc r') (lstart s)) [] /\
  ((forall b, ~ in_log s b -> ondisk (bc r') b = ondisk (bc s) b) \/
   (forall b, ~ in_log s b -> ondisk (bc r') b = view (bc s) b)).

Lemma recover_old_new s l D r : log_ok s l -> reboot s D r ->
  (is_hdr (D (lstart s)) [] /\ ((forall b, ~ in_log s b -> D b = ondisk (bc s) b) \/
                                (forall b, ~ in_log s b -> D b = view (bc s) b))) \/
  (is_hdr (D (lstart s)) l /\
     forall b, ~ in_log s b -> after D (home_writes D (lstart s + 1) l) b = view (bc s) b) ->
  wp recover_from_log (fun _ r' => old_or_new s r') r.
Proof.
  intros Hok Hr HD. pose proof (lo_size _ _ Hok) as Hsz.
  assert (Hst : forall b, ~ in_log s b -> b <> lstart s) by (unfold in_log; intros; lia).
  destruct HD as [[Hh HD]|[Hh HD]].
  - eapply wp_mono; [apply (recover_from s D r [] Hr Hh)|].
    { split_and!; [simpl; lia|done|constructor|constructor]. }
    intros _ r' (Hok' & Hh' & Hr'). split; [done|]. split; [done|].
    destruct HD as [HD|HD]; [left|right]; intros b Hb; rewrite Hr' by auto; by apply HD.
  - eapply wp_mono; [apply (recover_from s D r l Hr Hh)|]; [split_and!; apply Hok|].
    intros _ r' (Hok' & Hh' & Hr'). split; [done|]. split; [done|]. right. intros b Hb.
    rewrite Hr' by auto. by apply HD.
Qed.

Lemma after_same tr : forall V x, (forall v, (x, v) ∈ tr -> v = V x) -> after V tr x = V x.
Proof.
  induction tr as [|[b v] tr IH]; intros V x H; [done|].
  change (after V ((b, v) :: tr) x) with (after (upd V b v) tr x).
  assert (E : upd V b v x = V x).
  { unfold upd. destruct (Z.eqb_spec x b) as [->|]; [|done]. apply H. left. }
  rewrite IH; [done|]. intros v' Hv. rewrite E. apply H. by right.
Qed.

Lemma commit_writes_same s l h1 h0 b : log_ok s l -> ~ in_log s b ->
  after (view (bc s)) (commit_writes (view (bc s)) (lstart s) l h1 h0) b = view (bc s) b.
Proof.
  intros Hok Hb. unfold in_log in Hb. pose proof (lo_size _ _ Hok). apply after_same. intros v.
  unfold commit_writes. rewrite !elem_of_app, !list_elem_of_singleton, list_elem_of_fmap.
  intros [Hv|[[= -> _]|[(b' & [= -> ->] & _)|[= -> _]]]]; [|lia|done|lia].
  apply (list_elem_of_fmap_2 fst) in Hv. simpl in Hv. apply log_writes_fst in Hv. lia.
Qed.

(** What commit leaves alone: the place of the log and the counters. *)
Definition log_frame s s' : Prop :=
  lstart s' = lstart s /\ lsize s' = lsize s /\ nblk (bc s') = nblk (bc s) /\
  outstanding s' = outstanding s /\ committing s' = committing s.

Lemma commit_atomic s l :
  log_ok s l -> (forall b, b ∈ l -> dirty (bc s) b = true) ->
  is_hdr (ondisk (bc s) (lstart s)) [] ->
  wp commit (fun _ s' => log_ok s' [] /\ log_frame s s' /\
    is_hdr (ondisk (bc s') (lstart s)) [] /\ exists tr, trace (bc s') = trace (bc s) ++ tr /\
    (forall b, ~ in_log s b -> ondisk (bc s') b = view (bc s) b) /\
    forall p r, p `prefix_of` tr -> reboot s (after (ondisk (bc s)) p) r ->
      wp recover_from_log (fun _ r' => old_or_new s r') r) s.
Proof.
  intros Hok Hd H0. destruct l as [|b0 l0] eqn:El.
  - eapply wp_mono; [apply (wp_intro _ (fun _ s' => s' = s) _ tt s); [|done]|].
    { unfold commit. by rewrite bind_gets, (lo_n _ _ Hok). }
    intros _ s' ->. split; [done|]. split; [done|]. split; [done|]. exists []. split; [by rewrite app_nil_r|].
    assert (Hcl : forall b, ondisk (bc s) b = view (bc s) b).
    { intros b. symmetry. apply law_clean; [apply Hok| |apply Hok]. destruct (dirty (bc s) b) eqn:E; [|done].
      by apply (lo_dirty _ _ Hok), elem_of_nil in E. }
    split; [by intros|]. intros p r ->%prefix_nil_inv Hr. apply (recover_old_new s [] _ r Hok Hr). by auto.
  - rewrite <- El in *. eapply wp_mono; [apply (commit_wp s l Hok); [by rewrite El|done]|].
    intros _ s' (c' & h1 & h0 & -> & Hh1 & Hh0 & Hw & Hok').
    split; [done|]. split; [split_and!; try done; apply (wr_nblk _ _ _ Hw)|]. split.
    { simpl. rewrite (wr_disk _ _ _ Hw). unfold commit_writes. by rewrite !app_assoc, after_snoc, upd_eq. }
    exists (commit_writes (view (bc s)) (lstart s) l h1 h0). simpl. split; [apply Hw|]. split.
    + intros b Hb. rewrite <- (commit_writes_same s l h1 h0 b Hok Hb), <- (wr_view _ _ _ Hw).
      symmetry. apply law_clean; [apply Hok'| |apply (lo_held _ _ Hok')]. destruct (dirty c' b) eqn:E; [|done].
      by apply (lo_dirty _ _ Hok' b), elem_of_nil in E.
    + intros p r Hp Hr. apply (recover_old_new s l _ r Hok Hr). by apply (commit_prefix s l p h1 h0).
Qed.

(** [commit] is atomic with respect to crashes.  It returns, its writes leave every
    block outside the log with the contents its callers gave it, and if the machine
    stops after any number of those writes and is rebooted, recovery returns with an
    empty log and either every block outside the log as before the commit or every
    block as after it. *)
Theorem commit_crash_atomic s l :
  log_ok s l -> (forall b, b ∈ l -> dirty (bc s) b = true) ->
  is_hdr (ondisk (bc s) (lstart s)) [] ->
  wp commit (fun _ s' => exists tr, trace (bc s') = trace (bc s) ++ tr /\
    (forall b, ~ in_log s b -> ondisk (bc s') b = view (bc s) b) /\
    forall p r, p `prefix_of` tr -> reboot s (after (ondisk (bc s)) p) r ->
      wp recover_from_log (fun _ r' => old_or_new s r') r) s.
Proof. intros. eapply wp_mono; [by apply (commit_atomic s l)|]. intros _ s' (_ & _ & _ & H'). exact H'. Qed.

(** C17.  Recovery may crash too: run from a valid header it returns, and if it is itself
    stopped after any number of its writes, the recovery of the next boot ends with the
    same blocks outside the log as if it had not been stopped. *)
Theorem recovery_idempotent s l :
  log_ok s [] -> is_hdr (ondisk (bc s) (lstart s)) l -> hdr_fits s l ->
  wp recover_from_log (fun _ s' => exists tr, trace (bc s') = trace (bc s) ++ tr /\
    (forall b i, l !! i = Some b -> ondisk (bc s') b = ondisk (bc s) (lstart s + 1 + Z.of_nat i)) /\
    (forall b, ~ in_log s b -> b ∉ l -> ondisk (bc s') b = ondisk (bc s) b) /\
    forall p r, p `prefix_of` tr -> reboot s (after (ondisk (bc s)) p) r ->
      wp recover_from_log (fun _ r' => log_ok r' [] /\ is_hdr (ondisk (bc r') (lstart s)) [] /\
        forall b, ~ in_log s b -> ondisk (bc r') b = ondisk (bc s') b) r) s.
Proof.
  intros Hok Hh Hfit. pose proof Hfit as (Hsz & _ & Hhome & Hnd). pose proof (proj1 (Forall_forall _ _) Hhome) as Hl.
  unfold in_log in *. set (O := ondisk (bc s)). set (H := home_writes O (lstart s + 1) l).
  assert (EH : H.*1 = l) by apply home_writes_fst.
  assert (Hst : lstart s ∉ l) by (intros Hx; apply Hl in Hx as [_ Hx]; lia).
  assert (HD : forall p, p `prefix_of` H -> forall x, x ∉ l -> after O p x = O x).
  { intros p Hp x Hx. apply after_other. intros E. apply Hx. rewrite <- EH. by apply (prefix_fst p). }
  eapply wp_mono; [by apply (recover_wp s l)|]. intros _ s' (c' & h & lb & -> & Hh0 & Hw & Hok').
  fold O H in Hw. exists (H ++ [(lstart s, h)]). simpl. split; [apply Hw|].
  assert (Hfin : forall b, b <> lstart s -> ondisk c' b = after O H b).
  { intros b Hb. rewrite (wr_disk _ _ _ Hw), after_snoc. unfold upd. by destruct (Z.eqb_spec b (lstart s)). }
  split_and!.
  - intros b i Hi. assert (b ∈ l) by (by eapply list_elem_of_lookup_2). rewrite Hfin by (by intros ->).
    apply (after_lookup _ _ i); [by rewrite EH|]. by apply home_writes_lookup.
  - intros b Hb Hn. rewrite Hfin by lia. by apply (HD H).
  - intros p r Hp Hr. apply prefix_snoc_cases in Hp as [Hp| ->].
    + eapply wp_mono; [apply (recover_from s _ r l Hr); [by rewrite HD|done]|].
      intros _ r' (Hokr & Hhr & Hr'). split; [done|]. split; [done|]. intros b Hb. rewrite Hr', Hfin by lia.
      rewrite (home_writes_ext _ O); [apply after_twice; [by rewrite EH|by apply (prefix_fst p)]|].
      intros x Hx. apply HD; [done|]. intros E. apply Hl in E as [_ E]. lia.
    + eapply wp_mono; [apply (recover_from s _ r [] Hr); [by rewrite after_snoc, upd_eq|]|].
      { split_and!; [simpl; lia|done|constructor|constructor]. }
      intros _ r' (Hokr & Hhr & Hr'). split; [done|]. split; [done|]. intros b Hb.
      rewrite Hr', (wr_disk _ _ _ Hw) by lia. done.
Qed.
End LogCrash.

(** ** A concrete log over bio.c: block 100 was modified, the log is blocks 2 to 31 *)
Definition example_block : block := replicate (Z.to_nat BSIZE) 7.

Definition example_bufs : list buf :=
  mkBuf 6 1 100 (mkSleeplock false 0) 0 example_block
    :: replicate 29 (mkBuf 0 0 0 (mkSleeplock false 0) 0 zero_block).

Definition example_cache : bstate := mkBstate example_bufs (seq 0 30) ∅ 1000 [] 1.

Definition example_log : logst bstate :=
  mkLog example_cache 2 30 0 true 1 1 (100 :: replicate 29 0).

Lemma dread_empty b : dread ∅ b = zero_block.
Proof. unfold dread. by rewrite lookup_empty. Qed.

Lemma example_buf i b : example_bufs !! i = Some b ->
  i = O /\ b = mkBuf 6 1 100 (mkSleeplock false 0) 0 example_block \/
  b = mkBuf 0 0 0 (mkSleeplock false 0) 0 zero_block.
Proof.
  destruct i as [|i]; cbn [example_bufs lookup list_lookup]; [intros [= <-]; by left|].
  intros [-> _]%lookup_replicate. by right.
Qed.

Lemma example_binv : binv example_cache.
Proof.
  split; [done|done| | |].
  - intros i b [[_ ->]| ->]%example_buf; (split; [done|]; split; [done|]); [right|by left].
    simpl. split; [done|]. split; [by right|]. split; [lia|]. split; [|done].
    split; [apply length_replicate|]. apply Forall_replicate. lia.
  - intros i j bi bj [[-> ->]| ->]%example_buf Hj Hdi Hdj; [|done].
    apply example_buf in Hj as [[-> ->]| ->]; done.
  - intros b. simpl. rewrite dread_empty. apply zero_block_ok.
Qed.

Lemma example_find b : findb example_bufs b =
  if b =? 100 then Some (O, mkBuf 6 1 100 (mkSleeplock false 0) 0 example_block) else None.
Proof.
  destruct (Z.eqb_spec b 100) as [->|Hne].
  - apply findb_Some; [apply (bi_uniq _ example_binv)|done].
  - apply findb_None. intros i bf [[_ ->]| ->]%example_buf [Hd Hb]; simpl in *; congruence.
Qed.

Lemma example_log_ok : log_ok example_log [100].
Proof.
  split; simpl; try done; try lia.
  - apply example_binv.
  - constructor; [|done]. unfold in_log. simpl. lia.
  - apply NoDup_singleton.
  - intros b. unfold bheld. change (bufs example_cache) with example_bufs. rewrite example_find. by destruct (b =? 100).
  - intros b. unfold bdirty. change (bufs example_cache) with example_bufs. rewrite example_find. destruct (Z.eqb_spec b 100) as [->|]; [left|done].
Qed.

Lemma zero_hdr : is_hdr zero_block [].
Proof. split; [apply zero_block_ok|]. split; reflexivity. Qed.

Lemma commit_crash_atomic_witness :
  wp commit (fun _ s' => ondisk (bc s') 100 = example_block) example_log.
Proof.
  eapply wp_mono.
  - apply (commit_crash_atomic example_log [100] example_log_ok).
    + intros b ->%list_elem_of_singleton. reflexivity.
    + simpl. rewrite dread_empty. apply zero_hdr.
  - intros _ s' (tr & _ & Hnew & _). apply (Hnew 100). unfold in_log. simpl. lia.
Defined.

Lemma example_reboot_ok d : (forall b, block_ok (dread d b)) ->
  log_ok (mkLog (binit d 1000 1) 2 30 0 false 1 0 (replicate 30 0)) [].
Proof.
  intros Hd. split; simpl; try done; try lia; [by apply binit_inv|constructor].
Qed.

Lemma recovery_idempotent_witness :
  wp recover_from_log (fun _ s' => ondisk (bc s') 100 = zero_block)
    (mkLog (binit ∅ 1000 1) 2 30 0 false 1 0 (replicate 30 0)).
Proof.
  eapply wp_mono.
  - apply (recovery_idempotent _ []); [apply example_reboot_ok| |].
    + intros b. rewrite (dread_empty b). apply zero_block_ok.
    + simpl. rewrite (dread_empty 2). apply zero_hdr.
    + split_and!; [simpl; lia|reflexivity|constructor|constructor].
  - intros _ s' (tr & _ & _ & Hsame & _). simpl in Hsame |- *. rewrite Hsame.
    + apply (dread_empty 100).
    + unfold in_log. simpl. lia.
    + apply not_elem_of_nil.
Defined.
