(* ===== verification/LogOps.v ===== *)
(** * The write-ahead log (log.c): begin_op, log_write and end_op

    Concurrent file-system calls share one transaction.  The step relation [lstep]
    interleaves them; its invariant is the reservation that [begin_op] makes:
    the blocks logged and the blocks still owed to running calls fit in the log. *)

From stdpp Require Import base numbers list gmap strings.
From Stdlib Require Import ZArith Lia.
From S2P Require Import Prelude Block BlockCache Bio Log LogInv LogCommit LogCrash.

Local Open Scope Z_scope.
Local Open Scope kernel_scope.

Lemma absorb_spec l b : (absorb l b <= length l)%nat /\
  (b ∈ l -> l !! absorb l b = Some b) /\ (b ∉ l -> absorb l b = length l).
Proof.
  induction l as [|x l (H1 & H2 & H3)]; simpl; [split_and!; [lia|by intros ?%elem_of_nil|done]|].
  destruct (Z.eqb_spec x b) as [->|Hne]; simpl.
  - split_and!; [lia|done|]. intros Hb. destruct Hb. left.
  - split_and!; [lia| |].
    + intros [->|Hb]%elem_of_cons; [done|auto].
    + intros [_ Hb]%not_elem_of_cons. by rewrite H3.
Qed.

Section LogOps.
Context {S : Type} {BC : BlockCache S} {BL : BlockCacheLaws S}.
Implicit Types s : logst S.

(** The blocks of the open transaction. *)
Record logged s (l : list Z) : Prop := mkLogged {
  lg_len : length (lh_block s) = Z.to_nat LOGSIZE;
  lg_n : lh_n s = Z.of_nat (length l);
  lg_blocks : take (length l) (lh_block s) = l;
  lg_nodup : NoDup l
}.

Lemma lh_put_run s k v : 0 <= k < Z.of_nat (length (lh_block s)) ->
  lh_put k v s = Ret tt (set_lh (lh_n s) (<[Z.to_nat k := v]> (lh_block s)) s).
Proof.
  intros Hk. unfold lh_put. rewrite bind_gets.
  destruct (Z.leb_spec 0 k), (Z.ltb_spec k (Z.of_nat (length (lh_block s)))); try lia. done.
Qed.

(** Where the log is and whether it is committing. *)
Definition log_place s : Z * Z * Z * bool := (lstart s, lsize s, ldev s, committing s).

Lemma log_write_wp s l i b :
  bc_inv (bc s) -> owns (bc s) i b -> logged s l -> 1 <= outstanding s ->
  lh_n s < LOGSIZE -> lh_n s < lsize s - 1 ->
  wp (log_write i) (fun _ s' =>
    logged s' (if decide (b ∈ l) then l else l ++ [b]) /\ bc_inv (bc s') /\
    outstanding s' = outstanding s /\ trace (bc s') = trace (bc s) /\
    (forall x, view (bc s') x = view (bc s) x) /\ (forall x, ondisk (bc s') x = ondisk (bc s) x) /\
    (forall x, dirty (bc s') x = if x =? b then true else dirty (bc s) x) /\
    (forall x, held (bc s') x = held (bc s) x) /\ (forall j x, owns (bc s) j x -> owns (bc s') j x) /\
    nblk (bc s') = nblk (bc s) /\ log_place s' = log_place s) s.
Proof.
  intros Hinv Ho [Hlen Hn Htk Hnd] Hout Hls Hsz. unfold log_write. apply wp_bind, wp_get.
  destruct (Z.geb_spec (lh_n s) LOGSIZE), (Z.geb_spec (lh_n s) (lsize s - 1)); try lia. cbn [orb].
  destruct (Z.ltb_spec (outstanding s) 1); [lia|].
  apply wp_bind, wp_lift. eapply wp_mono; [by apply (law_blockno (bc s) i b)|]. intros b' c' [-> ->].
  rewrite Hn, Nat2Z.id, Htk. destruct (absorb_spec l b) as (Ha1 & Ha2 & Ha3). set (k := absorb l b) in *.
  change (set_bc (bc s) s) with (set_lh (lh_n s) (lh_block s) s).
  replace (set_lh (lh_n s) (lh_block s) s) with s by (by destruct s).
  rewrite Hn in Hls. unfold LOGSIZE, MAXOPBLOCKS in *.
  apply wp_bind. eapply wp_intro; [apply lh_put_run; lia|]. rewrite Nat2Z.id.
  set (l' := if decide (b ∈ l) then l else l ++ [b]).
  apply wp_bind. apply (wp_mono _ (fun _ s1 => logged s1 l' /\ bc s1 = bc s /\ outstanding s1 = outstanding s /\ log_place s1 = log_place s)).
  { unfold l'. destruct (decide (b ∈ l)) as [Hb|Hb].
    - specialize (Ha2 Hb). assert (Hk : (k < length l)%nat) by (by eapply lookup_lt_Some).
      destruct (Z.eqb_spec (Z.of_nat k) (Z.of_nat (length l))); [lia|]. apply wp_ret.
      split; [|done]. rewrite list_insert_id; [by split|].
      rewrite <- Htk, lookup_take in Ha2. by destruct (decide _).
    - rewrite (Ha3 Hb), Z.eqb_refl. apply wp_modify. split; [|done]. split; simpl.
      + by rewrite length_insert.
      + rewrite Hn, length_app. simpl. lia.
      + rewrite length_app, Nat.add_1_r. erewrite take_S_r; [|apply list_lookup_insert_eq; lia].
        by rewrite take_insert_ge, Htk by lia.
      + apply NoDup_app. split_and!; [done| |apply NoDup_singleton]. by intros x Hx ->%list_elem_of_singleton. }
  intros _ s1 ([Hl1 Hn1 Ht1 Hd1] & Ebc & Eo & Ep). apply wp_lift. rewrite Ebc.
  eapply wp_mono; [by apply (law_pin (bc s) i b)|].
  intros _ c' ([Hi' Hnb] & Htr & Hv & Hod & Hdt & Hh & Hw). simpl. by split_and!.
Qed.

(** [log_write] of a locked buffer inside a transaction with room in the log: it
    records the block number once, however often the block is written (absorption),
    pins the buffer in the cache and changes no contents and no disk block. *)
Theorem log_write_absorbs s l i b :
  bc_inv (bc s) -> owns (bc s) i b -> logged s l -> 1 <= outstanding s ->
  lh_n s < LOGSIZE -> lh_n s < lsize s - 1 ->
  wp (log_write i) (fun _ s' =>
    logged s' (if decide (b ∈ l) then l else l ++ [b]) /\ bc_inv (bc s') /\
    outstanding s' = outstanding s /\ trace (bc s') = trace (bc s) /\
    (forall x, view (bc s') x = view (bc s) x) /\ (forall x, ondisk (bc s') x = ondisk (bc s) x) /\
    (forall x, dirty (bc s') x = if x =? b then true else dirty (bc s) x)) s.
Proof. intros. eapply wp_mono; [by apply (log_write_wp s l)|]. naive_solver. Qed.

(** ** Interleaved system calls *)

(** The calls between begin_op and end_op, with the log_writes each has done. *)
Abbreviation running := (gmap nat Z).

(** What the running calls may still log. *)
Definition owed (ops : running) : Z := map_fold (fun _ used acc => MAXOPBLOCKS - used + acc) 0 ops.

Inductive lstep : logst S * running -> logst S * running -> Prop :=
| step_begin s ops t s' :
    ops !! t = None -> begin_op s = Ret true s' -> lstep (s, ops) (s', <[t := 0]> ops)
| step_wait s ops s' : begin_op s = Ret false s' -> lstep (s, ops) (s', ops)
| step_write s ops t used i s' :
    ops !! t = Some used -> used < MAXOPBLOCKS -> log_write i s = Ret tt s' ->
    lstep (s, ops) (s', <[t := used + 1]> ops)
| step_end s ops t used s' :
    ops !! t = Some used -> end_op s = Ret tt s' -> lstep (s, ops) (s', delete t ops).

Record reserved (x : logst S * running) : Prop := mkReserved {
  rs_committing : committing x.1 = false;
  rs_outstanding : outstanding x.1 = Z.of_nat (size x.2);
  rs_used : forall t used, x.2 !! t = Some used -> 0 <= used <= MAXOPBLOCKS;
  rs_n : 0 <= lh_n x.1;
  rs_room : lh_n x.1 + owed x.2 <= LOGSIZE
}.

Lemma owed_insert ops t used : ops !! t = None -> owed (<[t := used]> ops) = MAXOPBLOCKS - used + owed ops.
Proof. intros Ht. unfold owed. rewrite map_fold_insert_L; [done| |done]. intros. lia. Qed.

Lemma owed_delete ops t used : ops !! t = Some used -> owed ops = MAXOPBLOCKS - used + owed (delete t ops).
Proof.
  intros Ht. rewrite <- (owed_insert (delete t ops) t used) by apply lookup_delete_eq.
  by rewrite insert_delete_id.
Qed.

Lemma owed_bounds ops : (forall t used, ops !! t = Some used -> 0 <= used <= MAXOPBLOCKS) ->
  0 <= owed ops <= Z.of_nat (size ops) * MAXOPBLOCKS.
Proof.
  unfold MAXOPBLOCKS. induction ops as [|t used ops Ht IH] using map_ind; intros H; [done|].
  rewrite owed_insert, map_size_insert_None by done. unfold MAXOPBLOCKS.
  pose proof (H t used (lookup_insert_eq _ _ _)). destruct IH; [|lia].
  intros t' u Hu. apply (H t' u). rewrite lookup_insert_ne; [done|]. congruence.
Qed.

(** Code that leaves the counters of the log alone. *)
Definition counters s : Z * bool * Z * Z := (lh_n s, committing s, outstanding s, lsize s).
Definition keeps {A} (c : M (logst S) A) : Prop :=
  forall s a s', c s = Ret a s' -> counters s' = counters s.

Lemma bind_inv {A B} (c : M (logst S) A) (k : A -> M (logst S) B) s b s' :
  bind c k s = Ret b s' -> exists a s1, c s = Ret a s1 /\ k a s1 = Ret b s'.
Proof. unfold bind. destruct (c s); naive_solver. Qed.

Lemma keeps_bind {A B} (c : M (logst S) A) (k : A -> M (logst S) B) :
  keeps c -> (forall a, keeps (k a)) -> keeps (bind c k).
Proof.
  intros Hc Hk s b s' (a & s1 & E1 & E2)%bind_inv. rewrite (Hk _ _ _ _ E2). by apply Hc in E1.
Qed.

Lemma keeps_ret {A} (a : A) : keeps (ret a).
Proof. by intros s b s' [= <- <-]. Qed.
Lemma keeps_get : keeps get.
Proof. by intros s b s' [= <- <-]. Qed.
Lemma keeps_gets {A} (f : logst S -> A) : keeps (gets f).
Proof. by intros s b s' [= <- <-]. Qed.
Lemma keeps_lift {A} (c : M S A) : keeps (lift c).
Proof. intros s a s'. unfold lift. destruct (c (bc s)); try done. by intros [= -> <-]. Qed.
Lemma keeps_undef {A} : keeps (@undef (logst S) A).
Proof. done. Qed.
Lemma keeps_lh_get i : keeps (lh_get i).
Proof.
  apply keeps_bind; [apply keeps_gets|]. intros l. destruct (l !! Z.to_nat i); [apply keeps_ret|apply keeps_undef].
Qed.
Hint Resolve keeps_bind keeps_ret keeps_get keeps_gets keeps_lift keeps_undef keeps_lh_get : core.

Lemma keeps_install k : forall t, keeps (install_loop k t).
Proof. induction k as [|k IH]; intros t; cbn [install_loop]; [auto|]. repeat (apply keeps_bind; [auto|intros ?]). apply IH. Qed.

Lemma keeps_write_log k : forall t, keeps (write_log_loop k t).
Proof. induction k as [|k IH]; intros t; cbn [write_log_loop]; [auto|]. repeat (apply keeps_bind; [auto|intros ?]). apply IH. Qed.

Lemma keeps_write_head : keeps write_head.
Proof.
  unfold write_head. do 3 (apply keeps_bind; [auto|intros ?]). apply keeps_bind; [|intros _; auto].
  by destruct (_ >? _).
Qed.

(** A commit that returns has emptied the header. *)
Lemma commit_empties s s' : commit s = Ret tt s' -> 0 <= lh_n s ->
  counters s' = (0, committing s, outstanding s, lsize s).
Proof.
  intros H Hn. unfold commit in H. rewrite bind_gets in H. destruct (Z.gtb_spec (lh_n s) 0).
  2: { injection H as <-. unfold counters. do 3 f_equal. lia. }
  apply bind_inv in H as ([] & s1 & H1 & H). apply bind_inv in H as ([] & s2 & H2 & H).
  apply bind_inv in H as ([] & s3 & H3 & H). apply bind_inv in H as ([] & s4 & H4 & H).
  apply keeps_write_head in H, H2. unfold write_log in H1. rewrite bind_gets in H1. apply keeps_write_log in H1.
  unfold install_trans in H3. rewrite bind_gets in H3. apply keeps_install in H3.
  injection H4 as <-. rewrite H. unfold counters in *. simpl. congruence.
Qed.

Lemma lh_put_counters k b s s' : lh_put k b s = Ret tt s' -> counters s' = counters s.
Proof.
  unfold lh_put. rewrite bind_gets. destruct (_ && _); [|done]. by intros [= <-].
Qed.

(** One log_write adds at most one block, and only returns when there is room. *)
Lemma log_write_counters i s s' : log_write i s = Ret tt s' ->
  lh_n s < LOGSIZE /\ lh_n s' <= lh_n s + 1 /\ lh_n s <= lh_n s' /\
  committing s' = committing s /\ outstanding s' = outstanding s.
Proof.
  intros H. unfold log_write in H. rewrite bind_get in H.
  destruct (Z.geb_spec (lh_n s) LOGSIZE); [done|]. destruct (_ >=? _); [done|]. cbn [orb] in H.
  destruct (_ <? 1); [done|]. apply bind_inv in H as (b & s1 & H1%keeps_lift & H).
  apply bind_inv in H as ([] & s2 & H2%lh_put_counters & H). apply bind_inv in H as ([] & s3 & H3 & H4%keeps_lift).
  assert (E3 : lh_n s3 <= lh_n s2 + 1 /\ lh_n s2 <= lh_n s3 /\ committing s3 = committing s2 /\ outstanding s3 = outstanding s2).
  { destruct (_ =? _); injection H3 as <-; simpl; split_and!; done || lia. }
  unfold counters in *. simplify_eq. split; [lia|]. destruct E3 as (? & ? & ? & ?).
  split_and!; congruence || lia.
Qed.

Lemma reserved_step x y : reserved x -> lstep x y -> reserved y.
Proof.
  intros [Hc Ho Hu Hn Hr] Hstep. destruct Hstep as [s ops t s' Ht H|s ops s' H|s ops t used i s' Ht Hlt H|s ops t used s' Ht H];
    simpl in *.
  - unfold begin_op in H. rewrite bind_get, Hc in H. destruct (Z.gtb_spec (lh_n s + (outstanding s + 1) * MAXOPBLOCKS) LOGSIZE); [done|].
    injection H as <-. pose proof (owed_bounds ops Hu). split; simpl; [done| | |done|].
    + rewrite map_size_insert_None by done. lia.
    + intros t' u. rewrite lookup_insert_Some. intros [[_ <-]|[_ Hu']]; [done|by apply (Hu t')].
    + rewrite owed_insert by done. lia.
  - unfold begin_op in H. rewrite bind_get, Hc in H. destruct (_ >? _); [|done]. by injection H as <-.
  - apply log_write_counters in H as (H1 & H2 & H3 & H4 & H5). pose proof (Hu t used Ht).
    rewrite (owed_delete _ _ _ Ht) in Hr. split; simpl; [congruence| | |lia|].
    + rewrite map_size_insert_Some by done. congruence.
    + intros t' u. rewrite lookup_insert_Some. intros [[_ <-]|[_ Hu']]; [lia|by apply (Hu t')].
    + rewrite <- insert_delete_eq, owed_insert by apply lookup_delete_eq. lia.
  - unfold end_op in H. apply bind_inv in H as ([] & s1 & [= <-] & H). rewrite bind_get in H. simpl in H.
    rewrite Hc in H. assert (Hsz : Z.of_nat (size (delete t ops)) = outstanding s - 1).
    { rewrite map_size_delete_Some by eauto. assert (size ops <> 0%nat) by (intros ->%map_size_empty_inv; done). lia. }
    rewrite (owed_delete _ _ _ Ht) in Hr. pose proof (Hu t used Ht).
    assert (Hu' : forall t' u, delete t ops !! t' = Some u -> 0 <= u <= MAXOPBLOCKS).
    { intros t' u [_ Hu']%lookup_delete_Some. by apply (Hu t'). }
    destruct (Z.eqb_spec (outstanding s - 1) 0) as [E|E].
    + apply bind_inv in H as ([] & s2 & [= <-] & H). apply bind_inv in H as ([] & s3 & H%commit_empties & [= <-]); [|done].
      unfold counters in H. simpl in H. simplify_eq.
      assert (delete t ops = ∅) as -> by (apply map_size_empty_inv; lia). split; simpl; [done| |done|lia|].
      * rewrite map_size_empty in *. lia.
      * rewrite H. unfold owed. rewrite map_fold_empty. done.
    + injection H as <-. split; simpl; [done|lia|done|done|lia].
Qed.

End LogOps.

(** ** A concrete log: thirty buffers, each locked by the caller, with blocks 100 to 129 *)
Definition full_cache : bstate :=
  mkBstate ((fun i => mkBuf 2 1 (100 + i) (mkSleeplock true 1) 1 zero_block) <$> seqZ 0 30)
    (seq 0 30) ∅ 1000 [] 1.

Definition idle_log (size : Z) : logst bstate := mkLog full_cache 2 size 0 false 1 0 (replicate 30 0).

Lemma full_buf i b : bufs full_cache !! i = Some b ->
  b = mkBuf 2 1 (100 + Z.of_nat i) (mkSleeplock true 1) 1 zero_block /\ (i < 30)%nat.
Proof.
  unfold full_cache. cbn [bufs]. intros (x & -> & [-> Hx]%lookup_seqZ)%list_lookup_fmap_Some. split; [done|lia].
Qed.

Lemma full_binv : binv full_cache.
Proof.
  split; [done|done| | |].
  - intros i b [-> Hi]%full_buf. split; [done|]. split; [done|]. right. simpl. split; [done|].
    split; [by left|]. split; [lia|]. split; [apply zero_block_ok|done].
  - intros i j bi bj [-> Hi]%full_buf [-> Hj]%full_buf _ _. simpl. lia.
  - intros b. simpl. rewrite dread_empty. apply zero_block_ok.
Qed.

Lemma full_owns : bowns full_cache 0 100.
Proof. eexists. split; [reflexivity|]. done. Qed.

Lemma idle_logged size : logged (idle_log size) [].
Proof. split; [done|done|done|constructor]. Qed.

Lemma log_write_absorbs_witness :
  wp (log_write 0) (fun _ s' => logged s' [100]) (set_outstanding 1 (idle_log 30)).
Proof.
  eapply wp_mono.
  - apply (log_write_absorbs (set_outstanding 1 (idle_log 30)) [] 0 100);
      [exact full_binv|exact full_owns|split; [done|done|done|constructor]|reflexivity..].
  - intros _ s' [H _]. exact H.
Defined.


(** ** The log that mkfs makes *)

(** Call [t] logs the buffers [i], [i+1], ... [k] of them. *)
Fixpoint log_run (k : nat) (i : nat) (s : logst bstate) : option (logst bstate) :=
  match k with
  | O => Some s
  | Datatypes.S k' => match log_write i s with Ret _ s' => log_run k' (Datatypes.S i) s' | _ => None end
  end.

Lemma log_run_steps k : forall i s s' ops t used, log_run k i s = Some s' ->
  ops !! t = Some used -> used + Z.of_nat k <= MAXOPBLOCKS ->
  star lstep (s, ops) (s', <[t := used + Z.of_nat k]> ops).
Proof.
  induction k as [|k IH]; intros i s s' ops t used Hr Ht Hle; cbn [log_run] in Hr.
  - injection Hr as <-. rewrite Z.add_0_r, insert_id by done. constructor.
  - destruct (log_write i s) as [[] s1| | |] eqn:E; try done.
    apply star_step with (s1, <[t := used + 1]> ops); [eapply step_write; eauto; lia|].
    apply (IH _ _ _ (<[t := used + 1]> ops) t (used + 1)) in Hr; [|apply lookup_insert_eq|lia].
    rewrite insert_insert_eq in Hr.
    replace (used + Z.of_nat (Datatypes.S k)) with (used + 1 + Z.of_nat k) by lia. exact Hr.
Qed.

(** The log is one block short for that reservation.  mkfs gives the superblock
    [nlog = LOGSIZE] and log.c uses the first of those blocks for the header, so from
    an idle log of that size three calls are admitted together, and after the first
    two have logged ten blocks each and the third nine, its tenth log_write panics. *)
Theorem log_one_block_short : exists s ops,
  star lstep (idle_log LOGSIZE, ∅) (s, ops) /\ ops !! 2%nat = Some (MAXOPBLOCKS - 1) /\
  log_write 29 s = Panic "too big a transaction".
Proof.
  set (s0 := set_outstanding 3 (idle_log LOGSIZE)).
  set (run := fun k i s => default s (log_run k i s)).
  set (s1 := run 10%nat 0%nat s0). set (s2 := run 10%nat 10%nat s1). set (s3 := run 9%nat 20%nat s2).
  exists s3, (<[2%nat := 0 + 9]> (<[1%nat := 0 + 10]> (<[0%nat := 0 + 10]> (<[2%nat := 0]> (<[1%nat := 0]> (<[0%nat := 0]> ∅)))))).
  split; [|split; [reflexivity|vm_compute; reflexivity]].
  eapply star_step; [apply (step_begin _ _ 0); reflexivity|].
  eapply star_step; [apply (step_begin _ _ 1); reflexivity|].
  eapply star_step; [apply (step_begin _ _ 2); reflexivity|].
  eapply star_trans; [apply (log_run_steps 10 0 s0 s1 _ 0 0); [vm_compute; reflexivity|reflexivity|done]|].
  eapply star_trans; [apply (log_run_steps 10 10 s1 s2 _ 1 0); [vm_compute; reflexivity|reflexivity|done]|].
  apply (log_run_steps 9 20 s2 s3 _ 2 0); [vm_compute; reflexivity|reflexivity|done].
Qed.
