(* ===== verification/Umalloc.v ===== *)
(** * The user allocator (umalloc.c)

    The Kernighan-Ritchie allocator.  A header is the pair of its pointer and its
    size in 8-byte units, at its address; the free list is a ring through [base].
    [sbrk] is the system call, a parameter with its own state. *)

From stdpp Require Import base numbers list gmap strings.
From Stdlib Require Import ZArith Lia.
From S2P Require Import Prelude.

Local Open Scope Z_scope.
Local Open Scope kernel_scope.

Section Umalloc.
Context {E : Type} (base : Z).

Record ustate := mkUstate {
  hdrs : gmap Z (Z * Z);   (* address -> (s.ptr, s.size) *)
  freep : Z;
  env : E
}.

Definition sizeof_Header : Z := 8.
Definition hptr (s : ustate) (p : Z) : Z := (default (0, 0) (hdrs s !! p)).1.
Definition hsize (s : ustate) (p : Z) : Z := (default (0, 0) (hdrs s !! p)).2.

Definition set_hdr (p : Z) (v : Z * Z) (s : ustate) : ustate := mkUstate (<[p := v]> (hdrs s)) (freep s) (env s).
Definition set_ptr (p v : Z) (s : ustate) : ustate := set_hdr p (v, hsize s p) s.
Definition set_size (p v : Z) (s : ustate) : ustate := set_hdr p (hptr s p, v) s.
Definition set_freep (v : Z) (s : ustate) : ustate := mkUstate (hdrs s) v (env s).

(** Pointer arithmetic on Header pointers. *)
Definition hadd (p n : Z) : Z := u32 (p + sizeof_Header * n).

(** ** free *)
Fixpoint free_loop (fuel : nat) (bp p : Z) : M ustate Z :=
  match fuel with
  | O => hang
  | S fuel' =>
      q <- gets (fun s => hptr s p);;
      if (bp >? p) && (bp <? q) then ret p
      else if (p >=? q) && ((bp >? p) || (bp <? q)) then ret p
      else free_loop fuel' bp q
  end.

Definition free (fuel : nat) (ap : Z) : M ustate unit :=
  let bp := u32 (ap - sizeof_Header) in
  f <- gets freep;;
  p <- free_loop fuel bp f;;
  s <- get;;
  let q := hptr s p in
  (if hadd bp (hsize s bp) =? q then
     modify (fun s => set_size bp (u32 (hsize s bp + hsize s q)) s);;
     modify (fun s => set_ptr bp (hptr s (hptr s p)) s)
   else modify (fun s => set_ptr bp (hptr s p) s));;
  s <- get;;
  (if hadd p (hsize s p) =? bp then
     modify (fun s => set_size p (u32 (hsize s p + hsize s bp)) s);;
     modify (fun s => set_ptr p (hptr s bp) s)
   else modify (fun s => set_ptr p bp s));;
  modify (set_freep p).

(** ** The free list *)
Abbreviation blocks := (list (Z * Z)).   (* (address, size) *)

Definition hd_or (l : blocks) (e : Z) : Z := match l with [] => e | (a, _) :: _ => a end.

(** Each header of [l] points to the next, the last to [e]. *)
Fixpoint linked (h : gmap Z (Z * Z)) (l : blocks) (e : Z) : Prop :=
  match l with
  | [] => True
  | (a, n) :: l' => h !! a = Some (hd_or l' e, n) /\ linked h l' e
  end.

(** Increasing addresses, with a gap after each block: no two blocks touch. *)
Fixpoint gaps (e : Z) (l : blocks) : Prop :=
  match l with
  | [] => e <= 4294967295
  | (a, n) :: l' => e < a /\ 0 < n /\ gaps (a + 8 * n) l'
  end.

(** The free list: a ring of [base] and the free blocks [l]. *)
Record ring (s : ustate) (l : blocks) : Prop := mkRing {
  rg_pos : 0 < base;
  rg_linked : linked (hdrs s) ((base, 0) :: l) base;
  rg_gaps : gaps base l;
  rg_freep : freep s ∈ ((base, 0) :: l).*1
}.

(** The bytes in free blocks. *)
Definition covers (l : blocks) (x : Z) : Prop := exists a n, (a, n) ∈ l /\ a <= x < a + 8 * n.

Lemma hd_or_app l1 l2 e : hd_or (l1 ++ l2) e = hd_or l1 (hd_or l2 e).
Proof. by destruct l1 as [|[a n] l1]. Qed.

Lemma linked_app h l1 l2 e : linked h (l1 ++ l2) e <-> linked h l1 (hd_or l2 e) /\ linked h l2 e.
Proof.
  induction l1 as [|[a n] l1 IH]; simpl; [tauto|]. rewrite hd_or_app, IH. tauto.
Qed.

Lemma linked_insert h l e a v : a ∉ l.*1 -> linked (<[a := v]> h) l e <-> linked h l e.
Proof.
  induction l as [|[b n] l IH]; simpl; [done|]. intros [Hne Hn]%not_elem_of_cons.
  rewrite lookup_insert_ne by done. by rewrite IH.
Qed.

Lemma gaps_weaken e e' l : e' <= e -> gaps e l -> gaps e' l.
Proof. destruct l as [|[a n] l]; simpl; [lia|]. intros ? (? & ? & ?). split_and!; done || lia. Qed.

Lemma gaps_bound e l : gaps e l -> e <= 4294967295.
Proof. revert e. induction l as [|[a n] l IH]; simpl; intros e; [done|]. intros (? & ? & H%IH). lia. Qed.

Lemma gaps_elem e l a n : gaps e l -> (a, n) ∈ l -> e < a /\ 0 < n /\ a + 8 * n <= 4294967295.
Proof.
  revert e. induction l as [|[b m] l IH]; intros e Hg Hin; [by apply elem_of_nil in Hin|].
  destruct Hg as (H1 & H2 & H3). apply elem_of_cons in Hin as [[= -> ->]|Hin].
  - pose proof (gaps_bound _ _ H3). lia.
  - destruct (IH _ H3 Hin). lia.
Qed.

(** Splitting the list at a block. *)
Lemma gaps_split e l1 a n l2 : gaps e (l1 ++ (a, n) :: l2) <->
  e < a /\ 0 < n /\ gaps (a + 8 * n) l2 /\ gaps e l1 /\ Forall (fun b => b.1 + 8 * b.2 < a) l1.
Proof.
  revert e. induction l1 as [|[b m] l1 IH]; intros e; simpl.
  - split; [|tauto]. intros (H1 & H2 & H3). pose proof (gaps_bound _ _ H3). split_and!; [done|done|done|lia|constructor].
  - rewrite IH, Forall_cons. simpl. split.
    + intros (H1 & H2 & H3 & H4 & H5 & H6 & H7). split_and!; done || lia.
    + intros (H1 & H2 & H3 & (H4 & H5 & H6) & H7 & H8). split_and!; done || lia.
Qed.

(** ** The search of free *)
Lemma hptr_linked s a n l e : linked (hdrs s) ((a, n) :: l) e -> hptr s a = hd_or l e /\ hsize s a = n.
Proof. intros [H _]. unfold hptr, hsize. by rewrite H. Qed.

Lemma free_loop_S fuel bp p s :
  free_loop (S fuel) bp p s =
  (if (bp >? p) && (bp <? hptr s p) then ret p
   else if (p >=? hptr s p) && ((bp >? p) || (bp <? hptr s p)) then ret p
   else free_loop fuel bp (hptr s p)) s.
Proof. done. Qed.

(** From a block below [p], to [p]. *)
Lemma walk_fwd s bp p n C e B : forall fuel x m,
  linked (hdrs s) ((x, m) :: B ++ (p, n) :: C) e ->
  Forall (fun b => b.1 < p) ((x, m) :: B) -> gaps x (B ++ (p, n) :: C) -> p < bp ->
  free_loop (S (length B) + fuel) bp x s = free_loop fuel bp p s.
Proof.
  induction B as [|[y k] B IH]; intros fuel x m Hl Hlt Hg Hp.
  - change (S (length []) + fuel)%nat with (S fuel). rewrite free_loop_S. destruct (hptr_linked _ _ _ _ _ Hl) as [-> _].
    simpl in Hg |- *. apply Forall_cons in Hlt as [Hx _]. simpl in Hx.
    destruct (Z.gtb_spec bp x), (Z.ltb_spec bp p), (Z.geb_spec x p); simpl; try lia; done.
  - change (S (length ((y, k) :: B)) + fuel)%nat with (S (S (length B) + fuel)).
    rewrite free_loop_S. destruct (hptr_linked _ _ _ _ _ Hl) as [-> _].
    change (hd_or (((y, k) :: B) ++ (p, n) :: C) e) with y. apply Forall_cons in Hlt as [Hx Hlt]. pose proof Hlt as [Hy _]%Forall_cons. simpl in Hx, Hy, Hg.
    destruct Hg as (Hg1 & Hg2 & Hg3).
    destruct (Z.gtb_spec bp x), (Z.ltb_spec bp y), (Z.geb_spec x y); cbn [andb]; try lia.
    apply (IH fuel y k); [apply Hl|done|eapply gaps_weaken; [|exact Hg3]; lia|done].
Qed.

(** From a block above [bp], round to [base]. *)
Lemma walk_wrap s bp C : forall fuel x m,
  linked (hdrs s) ((x, m) :: C) base -> bp < x -> base < bp -> gaps x C ->
  free_loop (S (length C) + fuel) bp x s = free_loop fuel bp base s.
Proof.
  induction C as [|[y k] C IH]; intros fuel x m Hl Hx Hb Hg.
  - change (S (length []) + fuel)%nat with (S fuel). rewrite free_loop_S.
    destruct (hptr_linked _ _ _ _ _ Hl) as [-> _]. change (hd_or [] base) with base. destruct (Z.gtb_spec bp x), (Z.ltb_spec bp base); cbn [andb orb]; try lia. by destruct (x >=? base).
  - change (S (length ((y, k) :: C)) + fuel)%nat with (S (S (length C) + fuel)).
    rewrite free_loop_S. destruct (hptr_linked _ _ _ _ _ Hl) as [-> _]. change (hd_or ((y, k) :: C) base) with y. destruct Hg as (Hg1 & Hg2 & Hg3).
    destruct (Z.gtb_spec bp x), (Z.geb_spec x y); cbn [andb]; try lia.
    apply (IH fuel y k); [apply Hl|lia|done|eapply gaps_weaken; [|exact Hg3]; lia].
Qed.

Lemma walk_stop s bp p n C fuel : linked (hdrs s) ((p, n) :: C) base -> p < bp -> base <= p ->
  (forall a, hd_or C bp = a -> C <> [] -> bp < a) -> free_loop (S fuel) bp p s = Ret p s.
Proof.
  intros Hl Hp Hb HC. rewrite free_loop_S. destruct (hptr_linked _ _ _ _ _ Hl) as [-> _].
  destruct C as [|[q k] C]; simpl.
  - destruct (Z.gtb_spec bp p), (Z.ltb_spec bp base), (Z.geb_spec p base); try lia; done.
  - pose proof (HC q eq_refl ltac:(done)). destruct (Z.gtb_spec bp p), (Z.ltb_spec bp q); try lia; done.
Qed.

(** A block of the ring and what is around it. *)
Lemma ring_split l A x m R : gaps base l -> (base, 0) :: l = A ++ (x, m) :: R ->
  gaps (x + 8 * m) R /\ base <= x /\ 0 <= m /\ Forall (fun b => b.1 + 8 * b.2 < x /\ 0 <= b.2 /\ base <= b.1) A.
Proof.
  intros Hg El. destruct A as [|[a k] A]; simpl in El; [injection El as <- <- ->|injection El as <- <- ->].
  - split_and!; [eapply gaps_weaken; [|exact Hg]; lia|lia|lia|constructor].
  - apply gaps_split in Hg as (H1 & H2 & H3 & H4 & H5). split_and!; [done|lia|lia|].
    constructor; simpl; [lia|]. apply Forall_forall. intros [b j] Hb.
    pose proof (proj1 (Forall_forall _ _) H5 _ Hb). destruct (gaps_elem _ _ _ _ H4 Hb). simpl in *. lia.
Qed.

Lemma ring_tail l A x m R : gaps base l -> (base, 0) :: l = A ++ (x, m) :: R -> gaps x R.
Proof. intros Hg El. destruct (ring_split _ _ _ _ _ Hg El) as (H & _ & Hm & _). eapply gaps_weaken; [|exact H]. lia. Qed.

(** Where [bp] belongs: after the block at [p]. *)
Definition place (l A : blocks) (p n : Z) (C : blocks) (bp : Z) : Prop :=
  (base, 0) :: l = A ++ (p, n) :: C /\ p < bp /\ forall q k C', C = (q, k) :: C' -> bp < q.

Lemma find_place l bp : gaps base l -> base < bp -> bp ∉ l.*1 -> exists A p n C, place l A p n C bp.
Proof.
  intros Hg Hb Hn. unfold place.
  assert (H : forall l e m, gaps e l -> e < bp -> bp ∉ l.*1 -> exists A p n C, (e, m) :: l = A ++ (p, n) :: C /\ p < bp /\
    forall q k C', C = (q, k) :: C' -> bp < q).
  { clear l Hg Hb Hn. induction l as [|[a n] l IH]; intros e m Hg He Hn.
    - exists [], e, m, []. done.
    - simpl in Hn. apply not_elem_of_cons in Hn as [Hne Hn]. destruct Hg as (H1 & H2 & H3).
      destruct (Z.lt_ge_cases a bp) as [Ha|Ha].
      + destruct (IH a n) as (A & p & k & C & El & Hp & HC); [eapply gaps_weaken; [|exact H3]; lia|done|done|].
        exists ((e, m) :: A), p, k, C. simpl. by rewrite El.
      + exists [], e, m, ((a, n) :: l). split_and!; [done|done|]. intros q k C' [= -> -> ->]. lia. }
  by apply (H l base 0).
Qed.

Lemma find_free s l A p n C bp fuel : ring s l -> place l A p n C bp -> (S (length l) < fuel)%nat ->
  free_loop fuel bp (freep s) s = Ret p s.
Proof.
  intros [Hpos Hl Hg Hf] (El & Hp & HC) Hfuel.
  destruct (ring_split _ _ _ _ _ Hg El) as (HgC & Hbp & Hn & HA).
  assert (Hlen : S (length l) = (length A + S (length C))%nat).
  { change (S (length l)) with (length ((base, 0) :: l)). by rewrite El, length_app. }
  rewrite El in Hl, Hf. pose proof Hl as [HlA HlC]%linked_app.
  assert (Hstop : forall f, free_loop (S f) bp p s = Ret p s).
  { intros f. apply (walk_stop s bp p n C); [done|done|done|]. intros a Ha HCn. destruct C as [|[q k] C']; [done|].
    simpl in Ha. subst a. by apply (HC q k C'). }
  assert (Hfwd : forall x m A1 A2 f, A = A1 ++ (x, m) :: A2 ->
    free_loop (S (length A2) + S f) bp x s = Ret p s).
  { intros x m A1 A2 f EA. rewrite <- (Hstop f). rewrite EA, <- app_assoc in Hl, El. simpl in El.
    apply linked_app in Hl as [_ Hl]. apply (walk_fwd s bp p n C base A2 (S f) x m); [done| |by eapply ring_tail|done].
    rewrite EA in HA. apply Forall_app in HA as [_ HA]. eapply Forall_impl; [exact HA|]. simpl. lia. }
  rewrite fmap_app in Hf. apply elem_of_app in Hf as [Hf|Hf].
  { apply list_elem_of_fmap in Hf as ([x m] & Ef & Hx). simpl in Ef. rewrite Ef.
    apply list_elem_of_split in Hx as (A1 & A2 & EA).
    assert (length A = (length A1 + S (length A2))%nat) by (by rewrite EA, length_app).
    replace fuel with (S (length A2) + S (fuel - S (S (length A2))))%nat by lia. by apply (Hfwd x m A1). }
  simpl in Hf. apply elem_of_cons in Hf as [->|Hf].
  { destruct fuel as [|fuel]; [lia|]. apply Hstop. }
  apply list_elem_of_fmap in Hf as ([x m] & Ef & Hx). simpl in Ef. rewrite Ef.
  apply list_elem_of_split in Hx as (C1 & C2 & EC).
  assert (length C = (length C1 + S (length C2))%nat) by (by rewrite EC, length_app).
  rewrite EC in HlC, HgC. pose proof HgC as (H1 & H2 & H3 & _)%gaps_split.
  replace fuel with (S (length C2) + (fuel - S (length C2)))%nat by lia.
  rewrite (walk_wrap s bp C2 _ x m).
  - destruct A as [|[a k] A']; simpl in El; [injection El as <- <- ->|injection El as <- <- ->].
    + replace (fuel - S (length C2))%nat with (S (fuel - S (S (length C2)))) by lia. apply Hstop.
    + simpl in *. replace (fuel - S (length C2))%nat with (S (length A') + S (fuel - S (length C2) - S (S (length A'))))%nat by lia.
      by apply (Hfwd base 0 []).
  - simpl in HlC. destruct HlC as [_ HlC]. by apply linked_app in HlC as [_ ?].
  - destruct C1 as [|[q k] C1]; simpl in EC; [by apply (HC x m C2)|].
    pose proof (HC q k _ EC). simpl in HgC. destruct HgC as (Hq1 & Hq2 & Hq3). apply gaps_split in Hq3 as (Hq4 & _). lia.
  - lia.
  - eapply gaps_weaken; [|exact H3]. lia.
Qed.

(** ** What free does to the list *)
Definition merge_right (C : blocks) (bp nb : Z) : Z * blocks :=
  match C with
  | (q, k) :: C' => if bp + 8 * nb =? q then (nb + k, C') else (nb, C)
  | [] => (nb, C)
  end.

Definition put_block (A : blocks) (p n : Z) (C : blocks) (bp nb : Z) : blocks :=
  let r := merge_right C bp nb in
  if p + 8 * n =? bp then A ++ (p, n + r.1) :: r.2 else A ++ (p, n) :: (bp, r.1) :: r.2.

(** The block [bp] of [nb] units is free to be given back there. *)
Definition fits (p n : Z) (C : blocks) (bp nb : Z) : Prop :=
  0 < nb /\ p + 8 * n <= bp /\ bp + 8 * nb <= 4294967295 /\ forall q k C', C = (q, k) :: C' -> bp + 8 * nb <= q.

Lemma hptr_set s a b v : hptr (set_hdr a v s) b = if decide (a = b) then v.1 else hptr s b.
Proof.
  unfold hptr, set_hdr. simpl. destruct (decide (a = b)) as [->|]; [by rewrite lookup_insert_eq|].
  by rewrite lookup_insert_ne.
Qed.

Lemma hsize_set s a b v : hsize (set_hdr a v s) b = if decide (a = b) then v.2 else hsize s b.
Proof.
  unfold hsize, set_hdr. simpl. destruct (decide (a = b)) as [->|]; [by rewrite lookup_insert_eq|].
  by rewrite lookup_insert_ne.
Qed.

Lemma hsize_freep s v a : hsize (set_freep v s) a = hsize s a.
Proof. done. Qed.

Lemma hptr_set_size s a n b : hptr (set_size a n s) b = hptr s b.
Proof. unfold set_size. rewrite hptr_set. by destruct (decide (a = b)) as [->|]. Qed.

Lemma set_hdr_twice s a v w : set_hdr a w (set_hdr a v s) = set_hdr a w s.
Proof. unfold set_hdr. simpl. by rewrite insert_insert_eq. Qed.

(** Each half of free writes one header. *)
Lemma size_then_ptr s a n w : set_ptr a w (set_size a n s) = set_hdr a (w, n) s.
Proof. unfold set_ptr, set_size. by rewrite hsize_set, decide_True, set_hdr_twice. Qed.

Lemma free_run s l A p n C bp nb fuel : ring s l -> place l A p n C bp -> fits p n C bp nb ->
  hsize s bp = nb -> (S (length l) < fuel)%nat ->
  let r := merge_right C bp nb in
  let s1 := set_hdr bp (hd_or r.2 base, r.1) s in
  free fuel (bp + 8) s = Ret tt (set_freep p
    (if p + 8 * n =? bp then set_hdr p (hd_or r.2 base, n + r.1) s1 else set_hdr p (bp, n) s1)).
Proof.
  intros Hr Hpl Hfit Hsz Hfuel r s1. pose proof Hpl as (El & Hp & HC). pose proof Hfit as (Hnb & Hle & Hend & Hq).
  pose proof Hr as [Hpos Hl Hg _]. destruct (ring_split _ _ _ _ _ Hg El) as (HgC & Hbp & Hn & HA).
  rewrite El in Hl. apply linked_app in Hl as [_ HlC]. destruct (hptr_linked _ _ _ _ _ HlC) as [Eptr Esz].
  unfold free. assert (Ebp : u32 (bp + 8 - sizeof_Header) = bp) by (unfold sizeof_Header; rewrite u32_small; lia).
  rewrite Ebp. cbv zeta. rewrite bind_gets. rewrite (bind_run _ _ _ _ _ (find_free s l A p n C bp fuel Hr Hpl Hfuel)).
  rewrite bind_get, Eptr, Hsz. unfold hadd at 1, sizeof_Header. rewrite u32_small by lia.
  assert (H1 : (if bp + 8 * nb =? hd_or C base then
      modify (fun s => set_size bp (u32 (hsize s bp + hsize s (hd_or C base))) s);;
      modify (fun s => set_ptr bp (hptr s (hptr s p)) s)
    else modify (fun s => set_ptr bp (hptr s p) s)) s = Ret tt s1).
  { destruct C as [|[q k] C']; cbn [hd_or].
    - destruct (Z.eqb_spec (bp + 8 * nb) base); [lia|]. unfold modify, set_ptr. cbv beta. by rewrite Eptr, Hsz.
    - destruct HlC as [_ HlC]. destruct (hptr_linked _ _ _ _ _ HlC) as [Eq Ek]. destruct HgC as (Hg1 & Hg2 & Hg3).
      pose proof (gaps_bound _ _ Hg3). unfold s1, r, merge_right.
      destruct (Z.eqb_spec (bp + 8 * nb) q) as [Eq'|Hne]; simpl.
      + unfold bind, modify. cbv beta iota. rewrite Hsz, Ek, u32_small by lia.
        rewrite !hptr_set_size, Eptr. cbn [hd_or]. rewrite Eq. by rewrite size_then_ptr.
      + unfold modify, set_ptr. cbv beta. by rewrite Eptr, Hsz. }
  rewrite (bind_run _ _ _ _ _ H1). rewrite bind_get.
  assert (Hb1 : hptr s1 bp = hd_or r.2 base /\ hsize s1 bp = r.1 /\ hptr s1 p = hd_or C base /\ hsize s1 p = n).
  { unfold s1. rewrite !hptr_set, !hsize_set, !(decide_True) by done. rewrite !decide_False by lia. done. }
  destruct Hb1 as (E1 & E2 & E3 & E4). rewrite E4. unfold hadd. rewrite u32_small by (unfold sizeof_Header; lia).
  unfold sizeof_Header. destruct (Z.eqb_spec (p + 8 * n) bp) as [Em|Hm].
  - assert (Hr1 : 0 < r.1 /\ n + r.1 < 4294967296).
    { unfold r, merge_right. destruct C as [|[q k] C']; simpl; [lia|]. destruct HgC as (Hg1 & Hg2 & Hg3%gaps_bound).
      destruct (bp + 8 * nb =? q); simpl; lia. }
    erewrite bind_run; [|unfold bind, modify; cbv beta iota; rewrite E4, E2, u32_small by lia; reflexivity].
    unfold modify. cbv beta. do 2 f_equal. rewrite hptr_set_size, E1. by rewrite size_then_ptr.
  - erewrite bind_run; [|reflexivity]. unfold modify, set_ptr. cbv beta. by rewrite E4.
Qed.

Lemma covers_cons a n l x : covers ((a, n) :: l) x <-> a <= x < a + 8 * n \/ covers l x.
Proof.
  unfold covers. split.
  - intros (b & m & [[= -> ->]|Hin]%elem_of_cons & Hx); [by left|right; eauto].
  - intros [Hx|(b & m & Hin & Hx)]; [exists a, n; split; [left|done]|exists b, m; split; [by right|done]].
Qed.

Lemma covers_nil x : ~ covers [] x.
Proof. intros (a & n & []%elem_of_nil & _). Qed.

Lemma covers_app l1 l2 x : covers (l1 ++ l2) x <-> covers l1 x \/ covers l2 x.
Proof.
  induction l1 as [|[a n] l1 IH]; simpl; [pose proof (covers_nil x); tauto|]. rewrite !covers_cons, IH. tauto.
Qed.

(** The base block covers nothing, so the ring covers what its blocks do. *)
Lemma covers_ring l L x : (base, 0) :: l = L -> covers l x <-> covers L x.
Proof. intros <-. rewrite covers_cons. split; [tauto|]. intros [|]; [lia|done]. Qed.

Lemma merge_right_spec C bp nb e : gaps e C -> fits e 0 C bp nb ->
  let r := merge_right C bp nb in
  0 < r.1 /\ gaps (bp + 8 * r.1) r.2 /\
  (forall x, covers ((bp, r.1) :: r.2) x <-> covers C x \/ bp <= x < bp + 8 * nb) /\
  (length r.2 <= length C)%nat.
Proof.
  intros Hg (Hnb & He & Hend & Hq). unfold merge_right. destruct C as [|[q k] C']; simpl.
  - split_and!; [done|done| |lia]. intros x. rewrite covers_cons. tauto.
  - destruct Hg as (H1 & H2 & H3). pose proof (Hq q k C' eq_refl).
    destruct (Z.eqb_spec (bp + 8 * nb) q) as [<-|Hne]; simpl.
    + split_and!; [lia|eapply gaps_weaken; [|exact H3]; lia| |lia]. intros x. rewrite !covers_cons.
      assert (bp <= x < bp + 8 * (nb + k) <-> bp + 8 * nb <= x < bp + 8 * nb + 8 * k \/ bp <= x < bp + 8 * nb) by lia. tauto.
    + split_and!; [lia|lia|done|done| |lia]. intros x. rewrite !covers_cons. tauto.
Qed.

Lemma put_gaps l A p n C bp nb : gaps base l -> place l A p n C bp -> fits p n C bp nb ->
  exists l', (base, 0) :: l' = put_block A p n C bp nb /\ gaps base l' /\
    (forall x, covers l' x <-> covers l x \/ bp <= x < bp + 8 * nb) /\ (length l' <= S (length l))%nat.
Proof.
  intros Hg (El & Hp & HC) Hfit. destruct (ring_split _ _ _ _ _ Hg El) as (HgC & Hbp & Hn & HA).
  pose proof Hfit as (Hnb & Hle & Hend & Hq).
  destruct (merge_right_spec C bp nb (p + 8 * n) HgC) as (Hr1 & Hr2 & Hr3 & Hr4).
  { split_and!; [done|lia|done|done]. }
  unfold put_block. set (r := merge_right C bp nb) in *. destruct A as [|[a k] A]; simpl in El.
  - injection El as <- <- ->. destruct (Z.eqb_spec (base + 8 * 0) bp); [lia|].
    exists ((bp, r.1) :: r.2). simpl. split_and!; [done|lia|done|done| |lia]. exact Hr3.
  - injection El as <- <- ->. apply gaps_split in Hg as (H1 & H2 & H3 & H4 & H5).
    destruct (Z.eqb_spec (p + 8 * n) bp) as [Em|Hm]; simpl.
    + exists (A ++ (p, n + r.1) :: r.2). split_and!; [done| | |rewrite !length_app; simpl; lia].
      * apply gaps_split. split_and!; [done|lia| |done|done]. eapply gaps_weaken; [|exact Hr2]. lia.
      * intros x. rewrite !covers_app, !covers_cons. specialize (Hr3 x). rewrite covers_cons in Hr3.
        assert (Ecov : p <= x < p + 8 * (n + r.1) <-> p <= x < p + 8 * n \/ bp <= x < bp + 8 * r.1) by lia. tauto.
    + exists (A ++ (p, n) :: (bp, r.1) :: r.2). split_and!; [done| | |rewrite !length_app; simpl; lia].
      * apply gaps_split. split_and!; [done|lia| |done|done]. simpl. split_and!; [lia|done|done].
      * intros x. rewrite !covers_app, (covers_cons p n), (covers_cons p n), Hr3. tauto.
Qed.

(** ** free gives the block back *)
Lemma free_wp s l A p n C bp nb fuel : ring s l -> place l A p n C bp -> fits p n C bp nb ->
  hsize s bp = nb -> (S (length l) < fuel)%nat ->
  wp (free fuel (bp + 8)) (fun _ s' => exists l', ring s' l' /\ freep s' = p /\ env s' = env s /\
    (base, 0) :: l' = put_block A p n C bp nb /\
    (forall x, covers l' x <-> covers l x \/ bp <= x < bp + 8 * nb) /\ (length l' <= S (length l))%nat) s.
Proof.
  intros Hr Hpl Hfit Hsz Hfuel. eapply wp_intro; [by apply (free_run s l A p n C bp nb)|].
  pose proof Hr as [Hpos Hl Hg Hf]. destruct (put_gaps l A p n C bp nb Hg Hpl Hfit) as (l' & El' & Hg' & Hcov & Hlen).
  pose proof Hpl as (El & Hp & HC). destruct (ring_split _ _ _ _ _ Hg El) as (HgC & Hbp & Hn & HA).
  exists l'. split; [|split_and!; [done|by destruct (p + 8 * n =? bp)|done|done|done]].
  assert (HnA : forall a, a ∈ A.*1 -> a < p).
  { intros a ([b k] & -> & Hb)%list_elem_of_fmap. apply (proj1 (Forall_forall _ _) HA) in Hb. simpl in *. lia. }
  assert (HnC : forall a, a ∈ C.*1 -> bp < a).
  { intros a ([b k] & -> & Hb)%list_elem_of_fmap. destruct C as [|[q m] C']; [by apply elem_of_nil in Hb|].
    pose proof (HC q m C' eq_refl). apply elem_of_cons in Hb as [[= -> ->]|Hb]; [done|].
    destruct HgC as (_ & Hm & HgC). destruct (gaps_elem _ _ _ _ HgC Hb) as [? _]. simpl. lia. }
  rewrite El in Hl. apply linked_app in Hl as [HlA [Hlp HlC]].
  set (r := merge_right C bp nb) in *.
  assert (Hr2 : linked (hdrs s) r.2 base /\ forall a, a ∈ r.2.*1 -> a ∈ C.*1).
  { unfold r, merge_right. destruct C as [|[q k] C']; [done|]. destruct (bp + 8 * nb =? q); simpl; [|done].
    split; [apply HlC|]. intros a Ha. by right. }
  destruct Hr2 as [Hlr Hsub].
  assert (Hup : forall v w, linked (<[p := v]> (<[bp := w]> (hdrs s))) A p /\
    linked (<[p := v]> (<[bp := w]> (hdrs s))) r.2 base /\ linked (<[bp := w]> (hdrs s)) r.2 base).
  { intros v w. rewrite !linked_insert; [done|..]; intros Hin; try apply HnA in Hin; try apply Hsub, HnC in Hin; lia. }
  assert (Ebp : (<[p := (bp, n)]> (<[bp := (hd_or r.2 base, r.1)]> (hdrs s))) !! bp = Some (hd_or r.2 base, r.1)).
  { rewrite lookup_insert_ne by lia. apply lookup_insert_eq. }
  unfold put_block in El'. fold r in El'. destruct (p + 8 * n =? bp); (split; [done| |done|]); rewrite El'.
  - apply linked_app. cbn [hd_or]. split; [apply Hup|]. split; [apply lookup_insert_eq|apply Hup].
  - simpl. rewrite fmap_app. apply elem_of_app. right. left.
  - apply linked_app. cbn [hd_or]. split; [apply Hup|]. split; [apply lookup_insert_eq|]. split; [exact Ebp|apply Hup].
  - simpl. rewrite fmap_app. apply elem_of_app. right. left.
Qed.

(** [nu] units at [a] above [base], away from every free block. *)
Definition fresh (l : blocks) (a nu : Z) : Prop :=
  base < a /\ a + 8 * nu <= 4294967295 /\ forall b m, (b, m) ∈ l -> a + 8 * nu <= b \/ b + 8 * m <= a.

Lemma fresh_place l a nb : gaps base l -> fresh l a nb -> 0 < nb ->
  exists A p n C, (a ∉ l.*1) /\ place l A p n C a /\ fits p n C a nb.
Proof.
  intros Hg (Hba & Hend & Hdis) Hnb.
  assert (Hna : a ∉ l.*1).
  { intros ([b m] & Eb & Hb)%list_elem_of_fmap. simpl in Eb. subst b. destruct (gaps_elem _ _ _ _ Hg Hb). destruct (Hdis _ _ Hb); lia. }
  destruct (find_place l a Hg Hba Hna) as (A & p & n & C & Hpl). pose proof Hpl as (El & Hp & HC).
  destruct (ring_split _ _ _ _ _ Hg El) as (HgC & Hbp & Hn & HA).
  exists A, p, n, C. split; [done|]. split; [done|]. split_and!; [done| |done|].
  - destruct A as [|[b k] A]; simpl in El; injection El as <- <- ->; [lia|].
    destruct (Hdis p n); [apply elem_of_app; right; left|lia|lia].
  - intros q k C' ->. pose proof (HC q k C' eq_refl). destruct (Hdis q k) as [|Hx]; [|done|].
    + destruct A as [|[b j] A]; simpl in El; injection El as <- <- ->; [left|apply elem_of_app; right; right; left].
    + destruct HgC as (_ & Hk & _). lia.
Qed.

(** C31.  [free] of a block that malloc handed out: the search round the ring ends, the
    block's bytes become free and no others do, and the list stays ordered with no two
    free blocks adjacent, so neighbours are merged. *)
Theorem free_correct s l bp nb fuel :
  ring s l -> fresh l bp nb -> 0 < nb -> hsize s bp = nb -> (S (length l) < fuel)%nat ->
  wp (free fuel (bp + 8)) (fun _ s' => exists l', ring s' l' /\ env s' = env s /\
    forall x, covers l' x <-> covers l x \/ bp <= x < bp + 8 * nb) s.
Proof.
  intros Hr Hfr Hnb Hsz Hfuel.
  destruct (fresh_place l bp nb (rg_gaps _ _ Hr) Hfr Hnb) as (A & p & n & C & _ & Hpl & Hfit).
  eapply wp_mono; [by apply (free_wp s l A p n C bp nb)|].
  intros _ s' (l' & Hr' & _ & Ee & _ & Hcov & _). by exists l'.
Qed.
(** ** morecore and malloc *)
Context (sbrk : Z -> E -> Z * E).

Definition call_sbrk (n : Z) : M ustate Z := fun s =>
  let r := sbrk n (env s) in Ret (r.1) (mkUstate (hdrs s) (freep s) (r.2)).

Definition morecore (fuel : nat) (nu : Z) : M ustate Z :=
  let nu := if nu <? 4096 then 4096 else nu in
  p <- call_sbrk (u32 (nu * sizeof_Header));;
  if p =? 4294967295 then ret 0
  else
    modify (set_size p nu);;
    free fuel (hadd p 1);;
    gets freep.

Fixpoint malloc_loop (fuel : nat) (prevp p nunits : Z) : M ustate Z :=
  match fuel with
  | O => hang
  | S fuel' =>
      s <- get;;
      if hsize s p >=? nunits then
        p' <- (if hsize s p =? nunits then
                 modify (set_ptr prevp (hptr s p));; ret p
               else
                 modify (set_size p (hsize s p - nunits));;
                 let p' := hadd p (hsize s p - nunits) in
                 modify (set_size p' nunits);; ret p');;
        modify (set_freep prevp);;
        ret (hadd p' 1)
      else if p =? freep s then
        r <- morecore fuel nunits;;
        if r =? 0 then ret 0
        else
          q <- gets (fun s => hptr s r);;
          malloc_loop fuel' r q nunits
      else malloc_loop fuel' p (hptr s p) nunits
  end.

Definition nunits_of (nbytes : Z) : Z := u32 (u32 (nbytes + sizeof_Header - 1) / sizeof_Header + 1).

Definition malloc (fuel : nat) (nbytes : Z) : M ustate Z :=
  let nunits := nunits_of nbytes in
  f <- gets freep;;
  prevp <- (if f =? 0 then
              modify (set_freep base);;
              modify (set_ptr base base);;
              modify (set_size base 0);;
              ret base
            else ret f);;
  p <- gets (fun s => hptr s prevp);;
  malloc_loop fuel prevp p nunits.

(** umalloc.c's [malloc_wf] has no body yet. *)
Definition malloc_wf (nbytes : Z) : M ustate Z := ret 0.

(** ** malloc: taking a block out *)

(** [q] is the start of a block of [nu] units that was taken from the free list. *)
Definition taken (s : ustate) (l : blocks) (q nu : Z) (s' : ustate) : Prop :=
  exists l', ring s' l' /\ env s' = env s /\ hsize s' q = nu /\ base < q /\ q + 8 * nu <= 4294967295 /\
    (forall x, q <= x < q + 8 * nu -> covers l x) /\
    (forall x, covers l' x <-> covers l x /\ ~ q <= x < q + 8 * nu).

(** Blocks of an ordered list do not overlap. *)
Lemma gaps_disjoint e l1 a n l2 x : gaps e (l1 ++ (a, n) :: l2) ->
  a <= x < a + 8 * n -> ~ covers l1 x /\ ~ covers l2 x.
Proof.
  intros (H1 & H2 & H3 & H4 & H5)%gaps_split Hx. split; intros (b & m & Hin & Hb).
  - apply (proj1 (Forall_forall _ _) H5) in Hin. simpl in Hin. lia.
  - destruct (gaps_elem _ _ _ _ H3 Hin). lia.
Qed.

Lemma take_gaps l A v m p n R : gaps base l -> (base, 0) :: l = A ++ (v, m) :: (p, n) :: R ->
  exists l1, (base, 0) :: l1 = A ++ [(v, m)] /\ l = l1 ++ (p, n) :: R.
Proof.
  intros Hg El. destruct A as [|[a k] A]; simpl in El; injection El as <- <- ->.
  - by exists [].
  - exists (A ++ [(v, m)]). simpl. split; [done|]. by rewrite <- app_assoc.
Qed.

Lemma ring_addr_lt l A x m R a : gaps base l -> (base, 0) :: l = A ++ (x, m) :: R -> a ∈ A.*1 -> a < x.
Proof.
  intros Hg El ([b k] & -> & Hb)%list_elem_of_fmap. destruct (ring_split _ _ _ _ _ Hg El) as (_ & _ & _ & HA).
  apply (proj1 (Forall_forall _ _) HA) in Hb. simpl in *. lia.
Qed.

Lemma gaps_addr_gt e l a : gaps e l -> a ∈ l.*1 -> e < a.
Proof. intros Hg ([b k] & -> & Hb)%list_elem_of_fmap. by destruct (gaps_elem _ _ _ _ Hg Hb). Qed.

(** The whole block. *)
Lemma take_whole s l A v m p n R : ring s l -> (base, 0) :: l = A ++ (v, m) :: (p, n) :: R ->
  taken s l p n (set_freep v (set_ptr v (hptr s p) s)).
Proof.
  intros [Hpos Hl Hg Hf] El. destruct (take_gaps _ _ _ _ _ _ _ Hg El) as (l1 & E1 & ->).
  pose proof Hg as (H1 & H2 & H3 & H4 & H5)%gaps_split. pose proof (gaps_bound _ _ H3).
  rewrite El in Hl. apply linked_app in Hl as [HlA [Hlv Hl2]]. pose proof Hl2 as [Hlp HlR].
  destruct (hptr_linked _ _ _ _ _ Hl2) as [Ep En].
  assert (Ev : hsize s v = m) by (unfold hsize; by rewrite Hlv).
  assert (Hvp : v < p) by (eapply (ring_addr_lt _ (A ++ [(v, m)]) p n R); [exact Hg|by rewrite El, <- app_assoc|];
    rewrite fmap_app; apply elem_of_app; right; left).
  assert (E' : (base, 0) :: l1 ++ R = A ++ (v, m) :: R).
  { change ((base, 0) :: l1 ++ R) with (((base, 0) :: l1) ++ R). by rewrite E1, <- app_assoc. }
  assert (Hg' : gaps base (l1 ++ R)).
  { clear - H3 H4 H5 H1 H2. revert H4 H5 H1. generalize base. induction l1 as [|[b k] l1 IH]; simpl; intros e H4 H5 H1.
    - eapply gaps_weaken; [|exact H3]. lia.
    - apply Forall_cons in H5 as [H5 H6]. destruct H4 as (? & ? & ?). split_and!; [done|done|]. apply IH; done. }
  exists (l1 ++ R). unfold set_ptr. rewrite Ep, Ev. split; [split; [done| |done|]|].
  - cbn [set_freep hdrs set_hdr]. rewrite E'. apply linked_app. cbn [hd_or]. split; [|split; [apply lookup_insert_eq|]].
    + apply linked_insert; [|done]. intros Hin. apply (ring_addr_lt _ _ _ _ _ _ Hg El) in Hin. lia.
    + apply linked_insert; [|done]. intros Hin%(gaps_addr_gt _ _ _ H3). lia.
  - cbn [set_freep freep]. rewrite E', fmap_app. apply elem_of_app. right. left.
  - split; [done|]. split; [rewrite hsize_freep, hsize_set, decide_False by lia; done|]. split; [lia|]. split; [lia|]. split.
    + intros x Hx. rewrite covers_app, covers_cons. tauto.
    + intros x. rewrite !covers_app, covers_cons. pose proof (gaps_disjoint base l1 p n R x Hg). tauto.
Qed.

(** The tail of a larger block. *)
Lemma take_tail s l A v m p n R nu : ring s l -> (base, 0) :: l = A ++ (v, m) :: (p, n) :: R -> 0 < nu < n ->
  let q := p + 8 * (n - nu) in
  taken s l q nu (set_freep v (set_size q nu (set_size p (n - nu) s))).
Proof.
  intros [Hpos Hl Hg Hf] El Hnu q. destruct (take_gaps _ _ _ _ _ _ _ Hg El) as (l1 & E1 & ->).
  pose proof Hg as (H1 & H2 & H3 & H4 & H5)%gaps_split. pose proof (gaps_bound _ _ H3).
  rewrite El in Hl. apply linked_app in Hl as [HlA [Hlv Hl2]]. pose proof Hl2 as [Hlp HlR].
  destruct (hptr_linked _ _ _ _ _ Hl2) as [Ep En].
  assert (ElA : (base, 0) :: l1 ++ (p, n) :: R = (A ++ [(v, m)]) ++ (p, n) :: R) by (by rewrite El, <- app_assoc).
  assert (Hlt : forall a, a ∈ (A ++ [(v, m)]).*1 -> a < p) by (intros a; by apply (ring_addr_lt _ _ p n R a Hg)).
  assert (Hvp : v < p) by (apply Hlt; rewrite fmap_app; apply elem_of_app; right; left).
  assert (HltA : forall a, a ∈ A.*1 -> a < p).
  { intros a Ha. apply Hlt. rewrite fmap_app. apply elem_of_app. by left. }
  assert (Hgt : forall a, a ∈ R.*1 -> p + 8 * n < a) by (intros a; by apply gaps_addr_gt).
  assert (E' : (base, 0) :: l1 ++ (p, n - nu) :: R = A ++ (v, m) :: (p, n - nu) :: R).
  { change ((base, 0) :: l1 ++ (p, n - nu) :: R) with (((base, 0) :: l1) ++ (p, n - nu) :: R). by rewrite E1, <- app_assoc. }
  exists (l1 ++ (p, n - nu) :: R). unfold set_size. rewrite Ep. set (w := hptr _ q).
  split; [split; [done| | |]|].
  - cbn [set_freep hdrs set_hdr]. rewrite E'. apply linked_app. cbn [hd_or linked].
    rewrite !(lookup_insert_ne _ q) by lia. rewrite lookup_insert_ne, lookup_insert_eq by lia.
    split_and!; [|exact Hlv|done|]; (rewrite !linked_insert; [done|..]); intros Hin.
    1, 2: apply HltA in Hin; lia.
    1, 2: apply Hgt in Hin; lia.
  - apply gaps_split. split_and!; [done|lia| |done|done]. eapply gaps_weaken; [|exact H3]. lia.
  - cbn [set_freep freep]. rewrite E', fmap_app. apply elem_of_app. right. left.
  - split; [done|]. split; [rewrite hsize_freep, hsize_set, decide_True; done|]. split; [lia|]. split; [lia|]. split.
    + intros x Hx. rewrite covers_app, covers_cons. lia || (right; left; lia).
    + intros x. rewrite !covers_app, !covers_cons. pose proof (gaps_disjoint base l1 p n R x Hg).
      assert (p <= x < p + 8 * (n - nu) <-> p <= x < p + 8 * n /\ ~ q <= x < q + 8 * nu) by lia.
      assert (q <= x < q + 8 * nu -> p <= x < p + 8 * n) by lia. tauto.
Qed.

(** ** malloc: going round the ring *)
Definition nxt (N i : nat) : nat := if decide (S i < N)%nat then S i else O.
Definition dist (N i f : nat) : nat := if decide (i <= f)%nat then (f - i)%nat else (f + N - i)%nat.

Lemma dist_next N i f : (i < N)%nat -> (f < N)%nat -> i <> f -> dist N i f = S (dist N (nxt N i) f).
Proof. intros. unfold dist, nxt. repeat case_decide; lia. Qed.

Lemma linked_lookup h l e i a n : linked h l e -> l !! i = Some (a, n) -> h !! a = Some (hd_or (drop (S i) l) e, n).
Proof.
  revert i. induction l as [|[b m] l IH]; intros i Hl Hi; [done|]. destruct i as [|i]; simpl in *.
  - injection Hi as -> ->. rewrite drop_0. apply Hl.
  - apply IH; [apply Hl|done].
Qed.

Lemma ring_next s l i a n : ring s l -> ((base, 0) :: l) !! i = Some (a, n) ->
  hsize s a = n /\ exists k, ((base, 0) :: l) !! nxt (S (length l)) i = Some (hptr s a, k).
Proof.
  intros [_ Hl _ _] Hi. pose proof (linked_lookup _ _ _ _ _ _ Hl Hi) as Eh. unfold hsize, hptr. rewrite Eh. split; [done|].
  set (L := (base, 0) :: l) in *. unfold nxt. change (S (length l)) with (length L). cbn [default fst].
  destruct (decide (S i < length L)%nat) as [Hlt|Hge].
  - apply lookup_lt_is_Some_2 in Hlt as [[b k] Hb]. exists k. by rewrite (drop_S _ _ _ Hb).
  - exists 0. rewrite drop_ge by lia. done.
Qed.

(** What malloc does when it reaches [freep] without a fit. *)
Definition grow (fuel : nat) (nu : Z) : M ustate Z :=
  r <- morecore (S fuel) nu;;
  if r =? 0 then ret 0 else q <- gets (fun s => hptr s r);; malloc_loop fuel r q nu.

Lemma gaps_nodup e l : gaps e l -> NoDup (e :: l.*1).
Proof.
  revert e. induction l as [|[a n] l IH]; intros e Hg; simpl; [apply NoDup_singleton|].
  destruct Hg as (H1 & H2 & H3). apply NoDup_cons. split.
  - intros [->|Hin]%elem_of_cons; [lia|]. apply (gaps_addr_gt _ _ _ H3) in Hin. lia.
  - apply (IH a). eapply gaps_weaken; [|exact H3]. lia.
Qed.

Lemma ring_inj l i j a n m : gaps base l -> ((base, 0) :: l) !! i = Some (a, n) ->
  ((base, 0) :: l) !! j = Some (a, m) -> i = j.
Proof.
  intros Hg Hi Hj. apply gaps_nodup in Hg. change (base :: l.*1) with (((base, 0) :: l).*1) in Hg.
  apply (NoDup_lookup _ i j a Hg); rewrite list_lookup_fmap; [by rewrite Hi|by rewrite Hj].
Qed.

Lemma split_two (L : blocks) j v m p n : L !! j = Some (v, m) -> L !! S j = Some (p, n) ->
  exists A R, L = A ++ (v, m) :: (p, n) :: R.
Proof.
  intros Hj HS. exists (take j L), (drop (S (S j)) L).
  rewrite <- (take_drop j L) at 1. f_equal. rewrite (drop_S _ _ _ Hj). f_equal. by apply drop_S.
Qed.

Lemma alloc_wp s l j v m p n nu Q : ring s l -> ((base, 0) :: l) !! j = Some (v, m) ->
  ((base, 0) :: l) !! S j = Some (p, n) -> 0 < nu <= n ->
  (forall q s', taken s l q nu s' -> Q (hadd q 1) s') ->
  wp (p' <- (if n =? nu then modify (set_ptr v (hptr s p));; ret p
             else modify (set_size p (n - nu));;
                  let p' := hadd p (n - nu) in modify (set_size p' nu);; ret p');;
      modify (set_freep v);; ret (hadd p' 1)) Q s.
Proof.
  intros Hr Hj HS Hnu HQ. destruct (split_two _ _ _ _ _ _ Hj HS) as (A & R & El).
  destruct (Z.eqb_spec n nu) as [->|Hne].
  - wp_steps. apply HQ. by eapply take_whole.
  - cbv zeta. wp_steps. apply HQ.
    assert (Hb : hadd p (n - nu) = p + 8 * (n - nu)).
    { pose proof (rg_gaps _ _ Hr) as Hg. pose proof (ring_split _ (A ++ [(v, m)]) p n R Hg) as Hs.
      rewrite <- app_assoc in Hs. destruct (Hs El) as (Hs1%gaps_bound & Hs2 & _). pose proof (rg_pos _ _ Hr).
      unfold hadd, sizeof_Header. apply u32_small. lia. }
    rewrite Hb. eapply take_tail; [done|exact El|lia].
Qed.

Lemma malloc_loop_wp s l nu f k0 Q : ring s l -> ((base, 0) :: l) !! f = Some (freep s, k0) -> 0 < nu ->
  (forall q s', taken s l q nu s' -> Q (hadd q 1) s') ->
  forall d i v p n fuel, dist (S (length l)) i f = d -> ((base, 0) :: l) !! i = Some (p, n) ->
  (forall j, i = S j -> exists m, ((base, 0) :: l) !! j = Some (v, m)) -> (d < fuel)%nat ->
  ((forall j a m, ((base, 0) :: l) !! j = Some (a, m) -> (dist (S (length l)) j f <= d)%nat -> m < nu) ->
     wp (grow (fuel - d - 1) nu) Q s) ->
  wp (malloc_loop fuel v p nu) Q s.
Proof.
  intros Hr Hf Hnu HQ d. pose proof (rg_gaps _ _ Hr) as Hg.
  induction d as [|d IH]; intros i v p n fuel Hd Hi Hv Hfuel Hgrow;
    (destruct fuel as [|fuel]; [lia|]); cbn [malloc_loop]; apply wp_bind, wp_get;
    destruct (ring_next _ _ _ _ _ Hr Hi) as [Esz (k & Hk)]; rewrite Esz;
    pose proof (lookup_lt_Some _ _ _ Hi) as Hi'; pose proof (lookup_lt_Some _ _ _ Hf) as Hf'; simpl in Hi', Hf';
    (destruct (Z.geb_spec n nu) as [Hfit|Hno];
     [destruct i as [|j]; [injection Hi as _ <-; lia|]; destruct (Hv j eq_refl) as [m Hm]; by eapply alloc_wp|]).
  - assert (i = f) as -> by (unfold dist in Hd; repeat case_decide; lia).
    assert (p = freep s) as -> by (rewrite Hf in Hi; by injection Hi as <- _). rewrite Z.eqb_refl.
    replace (S fuel - 0 - 1)%nat with fuel in Hgrow by lia. apply Hgrow. intros j a m Hj Hdj.
    apply lookup_lt_Some in Hj as Hj'. simpl in Hj'.
    assert (j = f) as -> by (unfold dist in Hdj; repeat case_decide; lia). rewrite Hi in Hj. injection Hj as _ <-. lia.
  - assert (Hne : i <> f) by (intros ->; unfold dist in Hd; repeat case_decide; lia).
    pose proof (dist_next (S (length l)) i f Hi' Hf' Hne) as Hdn.
    assert (Hpf : p <> freep s).
    { intros ->. by apply Hne, (ring_inj l i f (freep s) n k0). }
    destruct (Z.eqb_spec p (freep s)); [done|].
    apply (IH (nxt (S (length l)) i) p (hptr s p) k fuel); [lia|done| |lia|].
    + intros j Ej. exists n. unfold nxt in Ej. destruct (decide _); [|done]. by injection Ej as <-.
    + intros Hall. replace (fuel - d - 1)%nat with (S fuel - S d - 1)%nat by lia. apply Hgrow.
      intros j a m Hj Hdj. destruct (decide (dist (S (length l)) j f <= d)%nat) as [Hle|Hgt]; [by eapply Hall|].
      apply lookup_lt_Some in Hj as Hj'. simpl in Hj'.
      assert (j = i) as -> by (clear - Hd Hdj Hgt Hj' Hi' Hf'; unfold dist in *; repeat case_decide; lia).
      rewrite Hi in Hj. injection Hj as _ <-. lia.
Qed.

(** ** malloc *)

Definition core (nu : Z) : Z := if nu <? 4096 then 4096 else nu.

(** The state after morecore: a larger ring, [freep] in it. *)
Lemma morecore_wp s l nu fuel : ring s l -> 0 < nu -> core nu * 8 < 4294967296 -> (S (length l) < fuel)%nat ->
  (sbrk (core nu * 8) (env s)).1 = 4294967295 \/ fresh l (sbrk (core nu * 8) (env s)).1 (core nu) ->
  let a := (sbrk (core nu * 8) (env s)).1 in
  wp (morecore fuel nu) (fun r s' => env s' = (sbrk (core nu * 8) (env s)).2 /\
    (r = 0 /\ a = 4294967295 /\ ring s' l \/
     r = freep s' /\ r <> 0 /\ fresh l a (core nu) /\ exists l', ring s' l' /\
       (forall x, covers l' x <-> covers l x \/ a <= x < a + 8 * core nu) /\ (length l' <= S (length l))%nat)) s.
Proof.
  intros Hr Hnu Hlt Hfuel Hsb a. unfold morecore. fold (core nu). apply wp_bind. unfold sizeof_Header.
  assert (Hc : 0 < core nu) by (unfold core; destruct (nu <? 4096); lia).
  rewrite u32_small by lia. unfold call_sbrk. eapply wp_intro; [reflexivity|]. fold a in Hsb |- *.
  set (s1 := mkUstate (hdrs s) (freep s) _). assert (Hr1 : ring s1 l) by (by destruct Hr).
  destruct (Z.eqb_spec a 4294967295) as [Ea|Ea]; [apply wp_ret; split; [done|left; done]|].
  destruct Hsb as [|Hfr]; [done|]. pose proof (rg_gaps _ _ Hr) as Hg. pose proof Hfr as (Hba & Hend & Hdis).
  destruct (fresh_place l a (core nu) Hg Hfr Hc) as (A & p & n & C & Hna & Hpl & Hfit).
  apply wp_bind, wp_modify. set (s2 := set_size a (core nu) s1).
  assert (Hr2 : ring s2 l).
  { destruct Hr1 as [R1 R2 R3 R4]. split; [done| |done|done]. unfold s2, set_size, set_hdr. cbn [hdrs].
    apply linked_insert; [|done]. simpl. apply not_elem_of_cons. split; [lia|done]. }
  assert (Hsz : hsize s2 a = core nu) by (unfold s2, set_size; by rewrite hsize_set, decide_True).
  pose proof (rg_pos _ _ Hr) as Hpos. apply wp_bind. replace (hadd a 1) with (a + 8) by (unfold hadd, sizeof_Header; rewrite u32_small; lia).
  eapply wp_mono; [by apply (free_wp s2 l A p n C a (core nu))|].
  intros _ s3 (l' & Hr3 & Ef & Ee & _ & Hcov & Hlen). apply wp_gets. split; [done|right]. rewrite Ef.
  destruct (ring_split _ _ _ _ _ Hg (proj1 Hpl)) as (_ & Hbp & _). split_and!; [done|lia|done|]. by exists l'.
Qed.

(** What malloc returns: 0 when sbrk failed, or a block of [nu] units that was free
    or is new, out of a free list that has lost exactly that block. *)
Definition malloc_post (s : ustate) (l : blocks) (nu r : Z) (s' : ustate) : Prop :=
  let a := (sbrk (core nu * 8) (env s)).1 in
  (r = 0 /\ a = 4294967295 /\ exists l', ring s' l' /\ forall x, covers l' x <-> covers l x) \/
  exists q l', r = q + 8 /\ ring s' l' /\ hsize s' q = nu /\ base < q /\ q + 8 * nu <= 4294967295 /\
    ((forall x, q <= x < q + 8 * nu -> covers l x) /\
     (forall x, covers l' x <-> covers l x /\ ~ q <= x < q + 8 * nu) \/
     fresh l a (core nu) /\
     (forall x, q <= x < q + 8 * nu -> covers l x \/ a <= x < a + 8 * core nu) /\
     (forall x, covers l' x <-> (covers l x \/ a <= x < a + 8 * core nu) /\ ~ q <= x < q + 8 * nu)).

(** A block of a coalesced list that is contained in the list is inside one block. *)
Lemma covers_block e l a nu : gaps e l -> 0 < nu -> (forall x, a <= x < a + 8 * nu -> covers l x) ->
  exists b m, (b, m) ∈ l /\ b <= a /\ a + 8 * nu <= b + 8 * m.
Proof.
  revert e. induction l as [|[b m] l IH]; intros e Hg Hnu Hc; [destruct (covers_nil a); apply Hc; lia|].
  destruct Hg as (H1 & H2 & H3). pose proof (Hc a ltac:(lia)) as Ha. apply covers_cons in Ha as [Ha|Ha].
  - exists b, m. split_and!; [left|lia|]. destruct (Z.le_gt_cases (a + 8 * nu) (b + 8 * m)) as [|Hgt]; [done|].
    destruct (Hc (b + 8 * m)) as (b' & m' & Hin & Hx); [lia|]. apply elem_of_cons in Hin as [[= -> ->]|Hin]; [lia|].
    destruct (gaps_elem _ _ _ _ H3 Hin). lia.
  - destruct (IH _ H3 Hnu) as (b' & m' & Hin & Hb & Hb').
    + intros x Hx. destruct (proj1 (covers_cons b m l x) (Hc x Hx)) as [Hbx|]; [|done].
      destruct Ha as (b' & m' & Hin & Ha). destruct (gaps_elem _ _ _ _ H3 Hin). lia.
    + exists b', m'. split_and!; [by right|done|done].
Qed.

Lemma grow_wp s l nu fuel : ring s l -> 0 < nu -> core nu * 8 < 4294967296 -> (S (S (length l)) < fuel)%nat ->
  (sbrk (core nu * 8) (env s)).1 = 4294967295 \/ fresh l (sbrk (core nu * 8) (env s)).1 (core nu) ->
  wp (grow fuel nu) (malloc_post s l nu) s.
Proof.
  intros Hr Hnu Hlt Hfuel Hsb. unfold grow. apply wp_bind.
  eapply wp_mono; [apply (morecore_wp s l nu (S fuel)); done || lia|]. cbv zeta. set (a := (sbrk _ _).1) in *.
  intros r s1 (_ & [(-> & Ea & Hr1)|(-> & Hnz & Hfr & l1 & Hr1 & Hcov & Hlen)]).
  { change (0 =? 0) with true. apply wp_ret. left. split; [done|]. split; [done|]. exists l. done. }
  destruct (Z.eqb_spec (freep s1) 0) as [|_]; [done|]. apply wp_bind, wp_gets.
  pose proof (rg_freep _ _ Hr1) as ([f k0] & Ef & Hf)%list_elem_of_fmap. simpl in Ef. subst f.
  apply list_elem_of_lookup in Hf as [f Hf]. pose proof (lookup_lt_Some _ _ _ Hf) as Hf'. simpl in Hf'.
  destruct (ring_next _ _ _ _ _ Hr1 Hf) as [_ (k & Hk)]. assert (Hcore : nu <= core nu) by (unfold core; destruct (Z.ltb_spec nu 4096); lia).
  eapply (malloc_loop_wp s1 l1 nu f k0 _ Hr1 Hf Hnu) with (d := length l1); [|  |exact Hk| |lia|].
  - intros q s' (l' & Hr' & _ & Hsz & Hq & Hend & Hin & Hc). right. exists q, l'.
    pose proof (rg_pos _ _ Hr). split_and!; [unfold hadd, sizeof_Header; apply u32_small; lia|done|done|done|done|].
    right. split_and!; [done|..]; intros x; fold a; rewrite <- ?Hcov; [apply Hin|apply Hc].
  - unfold dist, nxt. repeat case_decide; lia.
  - intros j Ej. exists k0. unfold nxt in Ej. destruct (decide _); [|done]. by injection Ej as <-.
  - intros Hall. exfalso. destruct (covers_block base l1 a (core nu)) as (b & m & Hin & Hb & Hb').
    + apply Hr1.
    + lia.
    + intros x Hx. apply Hcov. by right.
    + apply list_elem_of_lookup in Hin as [j Hj].
      assert (Hm : m < nu).
      { apply (Hall (S j) b m Hj). apply lookup_lt_Some in Hj. unfold dist. case_decide; lia. }
      lia.
Qed.

Lemma nunits_enough nbytes : 0 <= nbytes <= 4294967280 ->
  0 < nunits_of nbytes /\ nbytes + 8 <= 8 * nunits_of nbytes /\ core (nunits_of nbytes) * 8 < 4294967296.
Proof.
  intros Hn. unfold nunits_of, sizeof_Header. rewrite (u32_small (nbytes + 8 - 1)) by lia.
  pose proof (Z.div_mod (nbytes + 8 - 1) 8 ltac:(lia)). pose proof (Z.mod_pos_bound (nbytes + 8 - 1) 8 ltac:(lia)).
  rewrite u32_small by lia. unfold core. destruct (Z.ltb_spec ((nbytes + 8 - 1) / 8 + 1) 4096); lia.
Qed.

(** C30.  [malloc], for a size that does not overflow and enough fuel for two turns
    round the free list.  It returns (also on its first call): either 0 because sbrk
    failed, with the same memory free as before, or the address after a header whose
    block is large enough for the request, and which was free or has just been
    obtained from sbrk; exactly that block leaves the free memory and the free list
    stays ordered, coalesced and linked in a ring. *)
Theorem malloc_correct s l nbytes fuel :
  (ring s l \/ freep s = 0 /\ l = []) -> 0 < base <= 4294967295 -> 0 <= nbytes <= 4294967280 ->
  (2 * length l + 6 < fuel)%nat ->
  let nu := nunits_of nbytes in
  (sbrk (core nu * 8) (env s)).1 = 4294967295 \/ fresh l (sbrk (core nu * 8) (env s)).1 (core nu) ->
  wp (malloc fuel nbytes) (fun r s' => nbytes + 8 <= 8 * nu /\ malloc_post s l nu r s') s.
Proof.
  intros Hr Hb Hn Hfuel nu Hsb. destruct (nunits_enough nbytes Hn) as (Hnu & Henough & Hlt).
  unfold malloc. fold nu in Hnu, Henough, Hlt |- *. apply wp_bind, wp_gets, wp_bind.
  apply (wp_mono _ (fun v s1 => ring s1 l /\ env s1 = env s /\ v = freep s1)).
  { destruct Hr as [Hr|[Hf ->]].
    - destruct (Z.eqb_spec (freep s) 0) as [Ez|_]; [|by apply wp_ret].
      pose proof (rg_freep _ _ Hr) as ([a k] & Ea & Hin)%list_elem_of_fmap. simpl in Ea.
      apply elem_of_cons in Hin as [[= -> _]|Hin]; [lia|]. destruct (gaps_elem _ _ _ _ (rg_gaps _ _ Hr) Hin). lia.
    - rewrite Hf, Z.eqb_refl. wp_steps. split; [|done]. unfold set_size. split; simpl; [lia| |lia|left].
      split; [|done]. rewrite lookup_insert_eq. unfold set_ptr. by rewrite hptr_set, decide_True. }
  intros v s1 (Hr1 & Ee & ->). apply wp_bind, wp_gets.
  pose proof (rg_freep _ _ Hr1) as ([f k0] & Ef & Hf)%list_elem_of_fmap. simpl in Ef. subst f.
  apply list_elem_of_lookup in Hf as [f Hf]. pose proof (lookup_lt_Some _ _ _ Hf) as Hf'. simpl in Hf'.
  destruct (ring_next _ _ _ _ _ Hr1 Hf) as [_ (k & Hk)]. rewrite <- Ee in Hsb.
  assert (Hpost : forall r s', malloc_post s1 l nu r s' -> nbytes + 8 <= 8 * nu /\ malloc_post s l nu r s').
  { intros r s'. unfold malloc_post. by rewrite Ee. }
  eapply wp_mono; [|exact Hpost].
  eapply (malloc_loop_wp s1 l nu f k0 _ Hr1 Hf Hnu) with (d := length l); [| |exact Hk| |lia|].
  - intros q s' (l' & Hr' & _ & Hsz & Hq & Hend & Hin & Hc). right. exists q, l'.
    split_and!; [unfold hadd, sizeof_Header; apply u32_small; lia|done|done|done|done|by left].
  - unfold dist, nxt. repeat case_decide; lia.
  - intros j Ej. exists k0. unfold nxt in Ej. destruct (decide _); [|done]. by injection Ej as <-.
  - intros _. apply grow_wp; done || lia.
Qed.

End Umalloc.
Arguments ustate : clear implicits.

(** ** A concrete heap: base at 0x1000, sbrk handing out memory from 0x4000 *)
Definition example_sbrk (n : Z) (brk : Z) : Z * Z := (brk, brk + n).
Definition example_heap : ustate Z := mkUstate ∅ 0 0x4000.

Lemma malloc_correct_witness :
  wp (malloc 0x1000 example_sbrk 10 100) (fun r s' => malloc_post 0x1000 example_sbrk example_heap [] 14 r s') example_heap.
Proof.
  eapply wp_mono.
  - apply (malloc_correct 0x1000 example_sbrk example_heap [] 100 10); [by right|lia|lia|simpl; lia|].
    right. split_and!; [reflexivity|vm_compute; discriminate|]. intros b m []%elem_of_nil.
  - intros r s' [_ H]. exact H.
Defined.

Lemma free_correct_witness :
  wp (free 3 (0x2000 + 8)) (fun _ s' => exists l', ring 0x1000 s' l' /\ covers l' 0x2010)
    (mkUstate {[ 0x1000 := (0x1000, 0); 0x2000 := (0, 4) ]} 0x1000 tt).
Proof.
  eapply wp_mono.
  - apply (free_correct 0x1000 _ [] 0x2000 4 3); [|split_and!; [lia|lia|intros b m []%elem_of_nil]|lia|reflexivity|simpl; lia].
    split; [lia|split; reflexivity|simpl; lia|left].
  - intros _ s' (l' & Hr & _ & Hc). exists l'. split; [exact Hr|]. apply Hc. right. lia.
Defined.
