(* ===== verification/Pipe.v ===== *)
(** * Pipes (pipe.c)

    A pipe is a ring buffer with two counters that wrap at 2^32.  A call runs under
    [p->lock] until it returns or goes to sleep; when it is woken it goes on from
    its loop, with the bytes that are left.  [contents] is the abstract queue. *)

From stdpp Require Import base numbers list gmap strings.
From Stdlib Require Import ZArith Lia.
From S2P Require Import Prelude.

Local Open Scope Z_scope.

Definition PIPESIZE : Z := 512.

Record pipe := mkPipe {
  pdata : list Z;
  nread : Z;
  nwrite : Z;
  readopen : bool;
  writeopen : bool
}.

(** pipealloc's initialisation of the page from kalloc, whose bytes are [junk]. *)
Definition pipe_init (junk : list Z) : pipe := mkPipe junk 0 0 true true.

(** pipeclose; [true] when both ends are closed and the page is freed. *)
Definition pipeclose (p : pipe) (writable : bool) : pipe * bool :=
  let p' := if writable then mkPipe (pdata p) (nread p) (nwrite p) (readopen p) false
            else mkPipe (pdata p) (nread p) (nwrite p) false (writeopen p) in
  (p', negb (readopen p') && negb (writeopen p')).

(** A call either returns or sleeps, keeping what it still has to do. *)
Inductive result (A B : Type) := Returns (r : A) | Sleeps (left : B).
Arguments Returns {A B} r.
Arguments Sleeps {A B} left.

Definition put (p : pipe) (b : Z) : pipe :=
  mkPipe (<[Z.to_nat (nwrite p mod PIPESIZE) := b]> (pdata p)) (nread p) (u32 (nwrite p + 1))
    (readopen p) (writeopen p).

(** pipewrite from its loop on, with [bytes] left to write; [n] is what it returns. *)
Fixpoint pipewrite (p : pipe) (killed : bool) (n : Z) (bytes : list Z) : pipe * result Z (list Z) :=
  match bytes with
  | [] => (p, Returns n)
  | b :: rest =>
      if nwrite p =? u32 (nread p + PIPESIZE) then
        if negb (readopen p) || killed then (p, Returns (-1)) else (p, Sleeps bytes)
      else pipewrite (put p b) killed n rest
  end.

Definition getbyte (p : pipe) : Z := default 0 (pdata p !! Z.to_nat (nread p mod PIPESIZE)).
Definition advance (p : pipe) : pipe :=
  mkPipe (pdata p) (u32 (nread p + 1)) (nwrite p) (readopen p) (writeopen p).

Fixpoint read_loop (p : pipe) (n : nat) : pipe * list Z :=
  match n with
  | O => (p, [])
  | S n' =>
      if nread p =? nwrite p then (p, [])
      else let r := read_loop (advance p) n' in (r.1, getbyte p :: r.2)
  end.

(** piperead from its wait loop on: the bytes it copied out, and its result. *)
Definition piperead (p : pipe) (killed : bool) (n : nat) : pipe * list Z * result Z unit :=
  if (nread p =? nwrite p) && writeopen p then
    if killed then (p, [], Returns (-1)) else (p, [], Sleeps tt)
  else let r := read_loop p n in (r.1, r.2, Returns (Z.of_nat (length r.2))).

(** ** The queue *)
Definition count (p : pipe) : Z := u32 (nwrite p - nread p).

Definition cell (p : pipe) (i : Z) : Z := default 0 (pdata p !! Z.to_nat (u32 (nread p + i) mod PIPESIZE)).

Definition contents (p : pipe) : list Z := cell p <$> seqZ 0 (count p).

Record pipe_ok (p : pipe) : Prop := mkPipeOk {
  po_len : length (pdata p) = Z.to_nat PIPESIZE;
  po_r : 0 <= nread p < 4294967296;
  po_w : 0 <= nwrite p < 4294967296;
  po_count : count p <= PIPESIZE
}.

Lemma u32_mod_512 x : u32 x mod PIPESIZE = x mod PIPESIZE.
Proof.
  unfold u32, PIPESIZE. apply Z.mod_mod_divide. by exists 8388608.
Qed.

Lemma count_range p : 0 <= count p < 4294967296.
Proof. apply u32_range. Qed.

(** The counters agree with the length of the queue, across wrap-around. *)
Lemma nwrite_count p : pipe_ok p -> nwrite p = u32 (nread p + count p).
Proof.
  intros [_ Hr Hw _]. unfold count. rewrite u32_add_r. rewrite u32_small; lia.
Qed.

Lemma length_contents p : Z.of_nat (length (contents p)) = count p.
Proof. unfold contents. rewrite length_fmap, length_seqZ. pose proof (count_range p). lia. Qed.

Lemma empty_count p : pipe_ok p -> (nread p =? nwrite p) = (count p =? 0).
Proof.
  intros Hp. pose proof Hp as [_ Hr Hw Hc]. rewrite (nwrite_count p Hp).
  pose proof (count_range p). unfold PIPESIZE in Hc.
  destruct (Z.eqb_spec (count p) 0) as [->|Hne].
  - rewrite Z.add_0_r, u32_small by lia. apply Z.eqb_refl.
  - apply Z.eqb_neq. intros E. assert (u32 (nread p + count p - nread p) = 0).
    { rewrite <- u32_sub_l, <- E, Z.sub_diag. done. }
    replace (nread p + count p - nread p) with (count p) in * by lia. rewrite u32_small in *; lia.
Qed.

Lemma full_count p : pipe_ok p -> (nwrite p =? u32 (nread p + PIPESIZE)) = (count p =? PIPESIZE).
Proof.
  intros Hp. pose proof Hp as [_ Hr Hw Hc]. rewrite (nwrite_count p Hp) at 1. pose proof (count_range p).
  unfold PIPESIZE in *. destruct (Z.eqb_spec (count p) 512) as [->|Hne]; [apply Z.eqb_refl|].
  apply Z.eqb_neq. intros E. assert (E' : u32 (nread p + count p - nread p) = u32 (nread p + 512 - nread p)).
  { by rewrite <- u32_sub_l, E, u32_sub_l. }
  replace (nread p + count p - nread p) with (count p) in E' by lia.
  replace (nread p + 512 - nread p) with 512 in E' by lia. rewrite !u32_small in E'; lia.
Qed.

(** ** One byte in, one byte out *)
Lemma count_put p b : pipe_ok p -> count p < PIPESIZE -> count (put p b) = count p + 1.
Proof.
  intros Hp Hc. unfold count, put. simpl. rewrite u32_sub_l.
  replace (nwrite p + 1 - nread p) with (nwrite p - nread p + 1) by lia.
  rewrite <- u32_add_l. fold (count p). pose proof (count_range p). unfold PIPESIZE in *. apply u32_small. lia.
Qed.

Lemma put_ok p b : pipe_ok p -> count p < PIPESIZE -> pipe_ok (put p b).
Proof.
  intros Hp Hc. pose proof Hp as [Hl Hr Hw _]. split; simpl; [by rewrite length_insert|done|apply u32_range|].
  rewrite count_put by done. lia.
Qed.

Lemma put_contents p b : pipe_ok p -> count p < PIPESIZE -> contents (put p b) = contents p ++ [b].
Proof.
  intros Hp Hc. pose proof (count_range p). unfold contents. rewrite count_put by done.
  rewrite seqZ_app by lia. rewrite fmap_app. pose proof Hp as [Hl Hr Hw _]. f_equal.
  - apply list_fmap_ext. intros i x Hx%lookup_seqZ. unfold cell, put. simpl.
    rewrite list_lookup_insert_ne; [done|]. rewrite (nwrite_count p Hp), !u32_mod_512.
    unfold PIPESIZE in *. intros E. apply Z2Nat.inj in E; [|apply Z.mod_pos_bound; lia..].
    assert (Hm : (count p - x) mod 512 = 0).
    { replace (count p - x) with (nread p + count p - (nread p + x)) by lia. rewrite Zminus_mod, E. by rewrite Z.sub_diag. }
    rewrite Z.mod_small in Hm; lia.
  - simpl. rewrite Z.add_0_l. f_equal. unfold cell, put. simpl.
    rewrite (nwrite_count p Hp), !u32_mod_512. rewrite list_lookup_insert_eq; [done|].
    rewrite Hl. pose proof (Z.mod_pos_bound (nread p + count p) PIPESIZE ltac:(done)). lia.
Qed.

Lemma count_advance p : pipe_ok p -> 0 < count p -> count (advance p) = count p - 1.
Proof.
  intros Hp Hc. unfold count, advance. simpl. rewrite u32_sub_r.
  replace (nwrite p - (nread p + 1)) with (nwrite p - nread p - 1) by lia.
  rewrite <- u32_sub_l. fold (count p). pose proof (count_range p). apply u32_small. lia.
Qed.

Lemma advance_ok p : pipe_ok p -> 0 < count p -> pipe_ok (advance p).
Proof.
  intros Hp Hc. pose proof Hp as [Hl Hr Hw Hn]. split; simpl; [done|apply u32_range|done|].
  rewrite count_advance by done. lia.
Qed.

Lemma advance_contents p : pipe_ok p -> 0 < count p -> contents p = getbyte p :: contents (advance p).
Proof.
  intros Hp Hc. unfold contents. rewrite count_advance by done. rewrite seqZ_cons by done. simpl. f_equal.
  - unfold cell, getbyte. rewrite Z.add_0_r, u32_small; [done|apply Hp].
  - rewrite <- (fmap_add_seqZ 1 0), <- list_fmap_compose. apply list_fmap_ext. intros i x _.
    unfold cell, advance, compose. simpl. rewrite u32_add_l. do 5 f_equal. lia.
Qed.

(** ** A turn of pipewrite and of piperead *)
Definition same_ends (p p' : pipe) : Prop := readopen p' = readopen p /\ writeopen p' = writeopen p.

Definition write_spec (p : pipe) (killed : bool) (n : Z) (bytes : list Z) (p' : pipe)
    (r : result Z (list Z)) : Prop :=
  pipe_ok p' /\ same_ends p p' /\ exists done rest, bytes = done ++ rest /\
    contents p' = contents p ++ done /\
    (r = Returns n /\ rest = [] \/
     rest <> [] /\ count p' = PIPESIZE /\
       r = if negb (readopen p) || killed then Returns (-1) else Sleeps rest).

Lemma pipewrite_spec killed n bytes : forall p, pipe_ok p ->
  write_spec p killed n bytes (pipewrite p killed n bytes).1 (pipewrite p killed n bytes).2.
Proof.
  induction bytes as [|b rest IH]; intros p Hp; cbn [pipewrite].
  - split; [done|]. split; [done|]. exists [], []. split; [done|]. split; [by rewrite app_nil_r|]. auto.
  - rewrite full_count by done. destruct (Z.eqb_spec (count p) PIPESIZE) as [E|Hne].
    + assert (Hw : write_spec p killed n (b :: rest) p (if negb (readopen p) || killed then Returns (-1) else Sleeps (b :: rest))).
      { split; [done|]. split; [done|]. exists [], (b :: rest). split; [done|]. split; [by rewrite app_nil_r|]. right. auto. }
      by destruct (negb (readopen p) || killed).
    + pose proof (po_count p Hp). destruct (IH (put p b)) as (H1 & H2 & dn & rs & -> & Hc & Hr); [apply put_ok; done || lia|].
      split; [done|]. split; [done|]. exists (b :: dn), rs. split; [done|]. split; [|done].
      rewrite Hc, put_contents by (done || lia). by rewrite <- app_assoc.
Qed.

Definition read_spec (p : pipe) (killed : bool) (n : nat) (p' : pipe) (out : list Z)
    (r : result Z unit) : Prop :=
  pipe_ok p' /\ same_ends p p' /\ contents p = out ++ contents p' /\
  (contents p = [] /\ writeopen p = true /\ out = [] /\ r = (if killed then Returns (-1) else Sleeps tt) \/
   (contents p <> [] \/ writeopen p = false) /\ out = take n (contents p) /\ r = Returns (Z.of_nat (length out))).

Lemma contents_nil p : contents p = [] <-> count p = 0.
Proof.
  pose proof (length_contents p). split; intros E; [by rewrite E in *|]. apply nil_length_inv. lia.
Qed.

Lemma read_loop_spec n : forall p, pipe_ok p -> let r := read_loop p n in
  pipe_ok r.1 /\ same_ends p r.1 /\ contents p = r.2 ++ contents r.1 /\ r.2 = take n (contents p).
Proof.
  induction n as [|n IH]; intros p Hp; cbn [read_loop]; [by rewrite take_0|].
  rewrite empty_count by done. destruct (Z.eqb_spec (count p) 0) as [E|Hne].
  - apply contents_nil in E. simpl. by rewrite E.
  - pose proof (count_range p). destruct (IH (advance p)) as (H1 & H2 & H3 & H4); [apply advance_ok; done || lia|].
    simpl. rewrite (advance_contents p) by (done || lia). simpl. rewrite <- H3, <- H4. done.
Qed.

Lemma piperead_spec killed n p : pipe_ok p ->
  read_spec p killed n (piperead p killed n).1.1 (piperead p killed n).1.2 (piperead p killed n).2.
Proof.
  intros Hp. unfold piperead. rewrite empty_count by done.
  destruct (Z.eqb_spec (count p) 0) as [E%contents_nil|Hne]; [destruct (writeopen p) eqn:Ew|]; simpl.
  - assert (H : read_spec p killed n p [] (if killed then Returns (-1) else Sleeps tt)).
    { split; [done|]. split; [done|]. split; [done|]. left. done. }
    by destruct killed.
  - destruct (read_loop_spec n p Hp) as (H1 & H2 & H3 & H4). split; [done|]. split; [done|]. split; [done|]. right. auto.
  - destruct (read_loop_spec n p Hp) as (H1 & H2 & H3 & H4). split; [done|]. split; [done|]. split; [done|]. right.
    rewrite contents_nil. auto.
Qed.

(** ** Writers and readers together *)

(** A pipe with all the bytes put into it and all the bytes taken out of it so far. *)
Record pipe_run := mkRun { pp : pipe; wrote_so_far : list Z; read_so_far : list Z }.

Inductive pstep : pipe_run -> pipe_run -> Prop :=
| pstep_write s killed n bytes p' r :
    pipewrite (pp s) killed n bytes = (p', r) ->
    pstep s (mkRun p' (wrote_so_far s ++ take (Z.to_nat (count p' - count (pp s))) bytes) (read_so_far s))
| pstep_read s killed n p' out r :
    piperead (pp s) killed n = (p', out, r) ->
    pstep s (mkRun p' (wrote_so_far s) (read_so_far s ++ out))
| pstep_close s writable p' gone :
    pipeclose (pp s) writable = (p', gone) -> pstep s (mkRun p' (wrote_so_far s) (read_so_far s)).

Definition fifo (s : pipe_run) : Prop :=
  pipe_ok (pp s) /\ wrote_so_far s = read_so_far s ++ contents (pp s).

Lemma fifo_step s s' : fifo s -> pstep s s' -> fifo s'.
Proof.
  intros [Hp Hw] Hstep. destruct Hstep as [s killed n bytes p' r E|s killed n p' out r E|s writable p' gone E].
  - destruct (pipewrite_spec killed n bytes (pp s) Hp) as (Hp' & _ & dn & rs & Eb & Hc & _). rewrite E in *. simpl in *.
    split; [done|]. simpl. rewrite Hc, Hw, <- app_assoc. do 2 f_equal.
    rewrite <- !length_contents, Hc, length_app, Nat2Z.inj_add, Z.add_simpl_l, Nat2Z.id, Eb. by rewrite take_app_length.
  - destruct (piperead_spec killed n (pp s) Hp) as (Hp' & _ & Hc & _). rewrite E in *. simpl in *.
    split; [done|]. simpl. by rewrite Hw, Hc, <- app_assoc.
  - unfold pipeclose in E. injection E as <- _. destruct Hp. by destruct writable.
Qed.

Lemma pipe_init_ok junk : length junk = Z.to_nat PIPESIZE -> pipe_ok (pipe_init junk).
Proof. intros H. split; [done|done|done|by vm_compute]. Qed.

(** C33.  Pipes are FIFO queues.  From a new pipe, whatever sequence of turns of pipewrite
    and piperead (by any number of processes, killed or not) and of pipeclose happens,
    the bytes read are exactly the bytes written, in order, except for at most
    PIPESIZE bytes at the end that are still in the buffer; this also holds when the
    32-bit counters wrap around. *)
Theorem pipe_fifo junk s :
  length junk = Z.to_nat PIPESIZE -> star pstep (mkRun (pipe_init junk) [] []) s ->
  wrote_so_far s = read_so_far s ++ contents (pp s) /\ Z.of_nat (length (contents (pp s))) <= PIPESIZE.
Proof.
  intros Hj Hs. destruct (star_inv pstep fifo _ _ fifo_step Hs) as [Hp Hw].
  { split; [by apply pipe_init_ok|done]. }
  split; [done|]. rewrite length_contents. apply Hp.
Qed.

Lemma pipe_fifo_witness :
  wrote_so_far (mkRun (put (pipe_init (replicate 512 0)) 7) [7] []) =
  read_so_far (mkRun (put (pipe_init (replicate 512 0)) 7) [7] []) ++ contents (put (pipe_init (replicate 512 0)) 7).
Proof.
  apply (pipe_fifo (replicate 512 0)); [reflexivity|]. apply star_one.
  apply (pstep_write (mkRun (pipe_init (replicate 512 0)) [] []) false 1 [7]
    (put (pipe_init (replicate 512 0)) 7) (Returns 1)). reflexivity.
Defined.

(** The results of one turn of pipewrite and of piperead on every branch.  A write
    puts a prefix of its bytes; it returns its count when all are in, and otherwise the
    pipe is full and it returns -1 (reader gone or process killed) or sleeps with the
    rest.  A read takes the first bytes of the queue, up to the number asked; only on
    an empty pipe with a writer left does it sleep (or return -1 when killed), so a
    result of 0 for a positive count means the writers are gone. *)
Theorem pipe_turns p killed n bytes k :
  pipe_ok p ->
  write_spec p killed n bytes (pipewrite p killed n bytes).1 (pipewrite p killed n bytes).2 /\
  read_spec p killed k (piperead p killed k).1.1 (piperead p killed k).1.2 (piperead p killed k).2 /\
  ((0 < k)%nat -> (piperead p killed k).2 = Returns 0 -> contents p = [] /\ writeopen p = false).
Proof.
  intros Hp. pose proof (piperead_spec killed k p Hp) as Hr. split; [by apply pipewrite_spec|]. split; [done|].
  intros Hk E. destruct Hr as (_ & _ & _ & [(_ & _ & _ & Er)|(Hor & Eout & Er)]); rewrite E in Er; [by destruct killed|].
  injection Er as El. rewrite Eout, length_take in El.
  assert (Hc : contents p = []) by (apply nil_length_inv; lia). split; [done|]. by destruct Hor.
Qed.

Lemma pipe_turns_witness : exists p', (pipewrite (pipe_init (replicate 512 0)) false 2 [7; 9]).1 = p' /\ pipe_ok p'.
Proof.
  eexists. split; [reflexivity|].
  apply (pipe_turns (pipe_init (replicate 512 0)) false 2 [7; 9] 1). split; [reflexivity|done|done|by vm_compute].
Defined.
