(* ===== verification/Fs.v ===== *)
(** * The file system (fs.c)

    The five layers of fs.c above the log: the block allocator, the inode cache,
    the content of inodes, directories and path names.  A block is reached
    through the view the log and the buffer cache give of the disk: [bread] is
    bread followed by the brelse of a buffer that was only read, and [bupdate]
    is the new content of a buffer followed by log_write and brelse.  The
    sections under icache.lock are atomic, and the sleep-lock of an inode is a
    flag: taking a lock that is held does not return.  Pointers to inodes are
    indices of icache.inode. *)

From stdpp Require Import base numbers list gmap strings.
From Stdlib Require Import ZArith Lia.
From S2P Require Import Prelude Block Log Mem.

Local Open Scope Z_scope.
Local Open Scope kernel_scope.

(** ** stat.h *)
Definition T_DIR : Z := 1.
Definition T_FILE : Z := 2.
Definition T_DEV : Z := 3.

Record stat := mkStat { st_type : Z; st_dev : Z; st_ino : Z; st_nlink : Z; st_size : Z }.

(** A short read back from its 16 bits. *)
Definition s16 (x : Z) : Z :=
  let y := x mod 65536 in if y <? 32768 then y else y - 65536.

(** ** struct inode (file.h) *)
Record inode := mkInode {
  i_dev : Z; i_inum : Z; i_ref : Z; i_locked : bool; i_valid : bool;
  i_type : Z; i_major : Z; i_minor : Z; i_nlink : Z; i_size : Z; i_addrs : list Z
}.

Definition inode0 : inode := mkInode 0 0 0 false false 0 0 0 0 0 (replicate 13 0).

Definition set_ref (r : Z) (ip : inode) : inode :=
  mkInode (i_dev ip) (i_inum ip) r (i_locked ip) (i_valid ip) (i_type ip) (i_major ip)
          (i_minor ip) (i_nlink ip) (i_size ip) (i_addrs ip).
Definition set_locked (l : bool) (ip : inode) : inode :=
  mkInode (i_dev ip) (i_inum ip) (i_ref ip) l (i_valid ip) (i_type ip) (i_major ip)
          (i_minor ip) (i_nlink ip) (i_size ip) (i_addrs ip).
Definition set_valid (v : bool) (ip : inode) : inode :=
  mkInode (i_dev ip) (i_inum ip) (i_ref ip) (i_locked ip) v (i_type ip) (i_major ip)
          (i_minor ip) (i_nlink ip) (i_size ip) (i_addrs ip).
Definition set_type (t : Z) (ip : inode) : inode :=
  mkInode (i_dev ip) (i_inum ip) (i_ref ip) (i_locked ip) (i_valid ip) t (i_major ip)
          (i_minor ip) (i_nlink ip) (i_size ip) (i_addrs ip).
Definition set_nlink (n : Z) (ip : inode) : inode :=
  mkInode (i_dev ip) (i_inum ip) (i_ref ip) (i_locked ip) (i_valid ip) (i_type ip) (i_major ip)
          (i_minor ip) n (i_size ip) (i_addrs ip).
Definition set_dev_nums (mj mn : Z) (ip : inode) : inode :=
  mkInode (i_dev ip) (i_inum ip) (i_ref ip) (i_locked ip) (i_valid ip) (i_type ip) mj mn
          (i_nlink ip) (i_size ip) (i_addrs ip).
Definition set_size (z : Z) (ip : inode) : inode :=
  mkInode (i_dev ip) (i_inum ip) (i_ref ip) (i_locked ip) (i_valid ip) (i_type ip) (i_major ip)
          (i_minor ip) (i_nlink ip) z (i_addrs ip).
Definition set_addr (k a : Z) (ip : inode) : inode :=
  mkInode (i_dev ip) (i_inum ip) (i_ref ip) (i_locked ip) (i_valid ip) (i_type ip) (i_major ip)
          (i_minor ip) (i_nlink ip) (i_size ip) (<[Z.to_nat k := a]> (i_addrs ip)).
Definition addr_at (ip : inode) (k : Z) : Z := default 0 (i_addrs ip !! Z.to_nat k).

(** ** struct dinode (fs.h) at offset [o] of a block *)
Definition dinode_type (d : block) (o : Z) : Z := s16 (get16 d o).

(** The copies ip->xxx = dip->xxx of ilock, and ip->valid = 1. *)
Definition load_dinode (d : block) (o : Z) (ip : inode) : inode :=
  mkInode (i_dev ip) (i_inum ip) (i_ref ip) (i_locked ip) true
          (s16 (get16 d o)) (s16 (get16 d (o + 2))) (s16 (get16 d (o + 4))) (s16 (get16 d (o + 6)))
          (get32 d (o + 8)) (map (fun j => get32 d (o + 12 + 4 * j)) (seqZ 0 13)).

Definition addrs_bytes (l : list Z) : list Z := concat (map le32 l).

(** The copies dip->xxx = ip->xxx of iupdate. *)
Definition store_dinode (d : block) (o : Z) (ip : inode) : block :=
  let d := put16 d o (i_type ip) in
  let d := put16 d (o + 2) (i_major ip) in
  let d := put16 d (o + 4) (i_minor ip) in
  let d := put16 d (o + 6) (i_nlink ip) in
  let d := put32 d (o + 8) (i_size ip) in
  puts d (o + 12) (addrs_bytes (i_addrs ip)).

Definition dinode_off (inum : Z) : Z := sizeof_dinode * (inum mod IPB).

(** ** State *)
Section State.
Context {D : Type}.

Record fsst := mkFs {
  blk : gmap Z block;     (* the blocks as the current transaction sees them *)
  disksize : Z;           (* blocks on the disk *)
  logged : list Z;        (* the blocks log_write has recorded *)
  sb : superblock;
  icache : list inode;
  devst : D               (* state of the devices behind devsw *)
}.

Definition set_blk (b : gmap Z block) (s : fsst) : fsst :=
  mkFs b (disksize s) (logged s) (sb s) (icache s) (devst s).
Definition set_logged (l : list Z) (s : fsst) : fsst :=
  mkFs (blk s) (disksize s) l (sb s) (icache s) (devst s).
Definition set_sb (b : superblock) (s : fsst) : fsst :=
  mkFs (blk s) (disksize s) (logged s) b (icache s) (devst s).
Definition set_icache (l : list inode) (s : fsst) : fsst :=
  mkFs (blk s) (disksize s) (logged s) (sb s) l (devst s).
Definition set_devst (d : D) (s : fsst) : fsst :=
  mkFs (blk s) (disksize s) (logged s) (sb s) (icache s) d.

(** devsw[] (file.h): the read and write routines of a device, by its major
    number; [None] is a null entry. *)
Class Devsw := {
  dev_read : Z -> option (nat -> Z -> M fsst (option (list Z)));
  dev_write : Z -> option (nat -> list Z -> M fsst (option Z))
}.
End State.
Arguments fsst D : clear implicits.
Arguments Devsw D : clear implicits.

Section Fs.
Context {D : Type} `{DV : Devsw D}.

(** ** Blocks *)

(** The tests of iderw; [blockno] is a uint. *)
Definition check_blk (dev b : Z) : M (fsst D) unit :=
  s <- get;;
  if negb (dev =? 1) then panic "iderw: request not for disk 1"
  else if negb ((0 <=? b) && (b <? disksize s)) then panic "iderw: block out of range"
  else ret tt.

Definition bread (dev b : Z) : M (fsst D) block :=
  check_blk dev b;;
  s <- get;;
  ret (default zero_block (blk s !! b)).

Definition bupdate (dev b : Z) (d : block) : M (fsst D) unit :=
  check_blk dev b;;
  modify (fun s =>
    set_logged (if decide (b ∈ logged s) then logged s else logged s ++ [b])
               (set_blk (<[b := d]> (blk s)) s)).

Definition readsb (dev : Z) : M (fsst D) superblock :=
  d <- bread dev 1;; ret (sb_of d).

Definition bzero (dev bno : Z) : M (fsst D) unit :=
  d <- bread dev bno;;
  bupdate dev bno (puts d 0 zero_block).

(** ** The block allocator *)
Definition bit_mask (bi : Z) : Z := Z.shiftl 1 (bi mod 8).

(** The inner loop of balloc: the first clear bit from [bi] on. *)
Fixpoint balloc_scan (k : nat) (size b bi : Z) (d : block) : option Z :=
  match k with
  | O => None
  | S k' =>
      if b + bi <? size then
        if Z.land (getb d (bi / 8)) (bit_mask bi) =? 0 then Some bi
        else balloc_scan k' size b (bi + 1) d
      else None
  end.

Fixpoint balloc_loop (k : nat) (dev b : Z) : M (fsst D) Z :=
  match k with
  | O => hang
  | S k' =>
      s <- get;;
      if b <? sb_size (sb s) then
        d <- bread dev (BBLOCK b (sb s));;
        match balloc_scan (Z.to_nat BPB) (sb_size (sb s)) b 0 d with
        | Some bi =>
            bupdate dev (BBLOCK b (sb s)) (putb d (bi / 8) (Z.lor (getb d (bi / 8)) (bit_mask bi)));;
            bzero dev (b + bi);;
            ret (b + bi)
        | None => balloc_loop k' dev (b + BPB)
        end
      else panic "balloc: out of blocks"
  end.

Definition balloc (dev : Z) : M (fsst D) Z :=
  s <- get;;
  balloc_loop (Z.to_nat (sb_size (sb s) / BPB) + 2) dev 0.

Definition bfree (dev b : Z) : M (fsst D) unit :=
  s <- get;;
  d <- bread dev (BBLOCK b (sb s));;
  let bi := b mod BPB in
  if Z.land (getb d (bi / 8)) (bit_mask bi) =? 0 then panic "freeing free block"
  else bupdate dev (BBLOCK b (sb s)) (putb d (bi / 8) (Z.land (getb d (bi / 8)) (Z.lnot (bit_mask bi)))).

(** ** The inode cache *)
Definition inode_at (i : nat) : M (fsst D) inode :=
  s <- get;;
  match icache s !! i with Some ip => ret ip | None => undef end.

Definition upd_inode (i : nat) (f : inode -> inode) : M (fsst D) unit :=
  ip <- inode_at i;;
  modify (fun s => set_icache (<[i := f ip]> (icache s)) s).

Definition iinit (dev : Z) : M (fsst D) unit :=
  modify (fun s => set_icache (map (set_locked false) (icache s)) s);;
  b <- readsb dev;;
  modify (set_sb b).

(** The scan of iget from index [i] on: a live entry for the inode, or the first
    free one. *)
Fixpoint iget_scan (dev inum : Z) (l : list inode) (i : nat) (empty : option nat)
  : nat + option nat :=
  match l with
  | [] => inr empty
  | ip :: l' =>
      if (i_ref ip >? 0) && (i_dev ip =? dev) && (i_inum ip =? inum) then inl i
      else iget_scan dev inum l' (S i)
             (match empty with
              | None => if i_ref ip =? 0 then Some i else None
              | Some e => Some e
              end)
  end.

Definition iget (dev inum : Z) : M (fsst D) nat :=
  s <- get;;
  match iget_scan dev inum (icache s) 0 None with
  | inl i => upd_inode i (fun ip => set_ref (i_ref ip + 1) ip);; ret i
  | inr None => panic "iget: no inodes"
  | inr (Some i) =>
      upd_inode i (fun ip =>
        mkInode dev inum 1 (i_locked ip) false (i_type ip) (i_major ip) (i_minor ip)
                (i_nlink ip) (i_size ip) (i_addrs ip));;
      ret i
  end.

Fixpoint ialloc_loop (k : nat) (dev type inum : Z) : M (fsst D) nat :=
  match k with
  | O => hang
  | S k' =>
      s <- get;;
      if inum <? sb_ninodes (sb s) then
        d <- bread dev (IBLOCK inum (sb s));;
        let o := dinode_off inum in
        if dinode_type d o =? 0 then
          bupdate dev (IBLOCK inum (sb s))
            (put16 (puts d o (replicate (Z.to_nat sizeof_dinode) 0)) o type);;
          iget dev inum
        else ialloc_loop k' dev type (inum + 1)
      else panic "ialloc: no inodes"
  end.

Definition ialloc (dev type : Z) : M (fsst D) nat :=
  s <- get;;
  ialloc_loop (Z.to_nat (sb_ninodes (sb s)) + 1) dev type 1.

Definition iupdate (i : nat) : M (fsst D) unit :=
  ip <- inode_at i;;
  s <- get;;
  d <- bread (i_dev ip) (IBLOCK (i_inum ip) (sb s));;
  bupdate (i_dev ip) (IBLOCK (i_inum ip) (sb s)) (store_dinode d (dinode_off (i_inum ip)) ip).

Definition idup (i : nat) : M (fsst D) nat :=
  upd_inode i (fun ip => set_ref (i_ref ip + 1) ip);; ret i.

Definition iacquire (i : nat) : M (fsst D) unit :=
  ip <- inode_at i;;
  if i_locked ip then hang else upd_inode i (set_locked true).

Definition ilock (i : nat) : M (fsst D) unit :=
  ip <- inode_at i;;
  if i_ref ip <? 1 then panic "ilock"
  else
    iacquire i;;
    if i_valid ip then ret tt
    else
      s <- get;;
      d <- bread (i_dev ip) (IBLOCK (i_inum ip) (sb s));;
      upd_inode i (load_dinode d (dinode_off (i_inum ip)));;
      ip <- inode_at i;;
      if i_type ip =? 0 then panic "ilock: no type" else ret tt.

Definition iunlock (i : nat) : M (fsst D) unit :=
  ip <- inode_at i;;
  if negb (i_locked ip) || (i_ref ip <? 1) then panic "iunlock"
  else upd_inode i (set_locked false).

(** ** The content of an inode *)
Definition bmap (i : nat) (bn : Z) : M (fsst D) Z :=
  ip <- inode_at i;;
  if bn <? NDIRECT then
    let addr := addr_at ip bn in
    if addr =? 0 then
      addr <- balloc (i_dev ip);;
      upd_inode i (set_addr bn addr);;
      ret addr
    else ret addr
  else
    let bn := bn - NDIRECT in
    if bn <? NINDIRECT then
      addr <- (if addr_at ip NDIRECT =? 0 then
                 addr <- balloc (i_dev ip);;
                 upd_inode i (set_addr NDIRECT addr);;
                 ret addr
               else ret (addr_at ip NDIRECT));;
      d <- bread (i_dev ip) addr;;
      if get32 d (4 * bn) =? 0 then
        a <- balloc (i_dev ip);;
        bupdate (i_dev ip) addr (put32 d (4 * bn) a);;
        ret a
      else ret (get32 d (4 * bn))
    else panic "bmap: out of range".

(** itrunc: the loop over the direct addresses, and the one over the entries of
    the indirect block. *)
Fixpoint trunc_direct (k : nat) (i : nat) (j : Z) : M (fsst D) unit :=
  match k with
  | O => ret tt
  | S k' =>
      ip <- inode_at i;;
      (if addr_at ip j =? 0 then ret tt
       else bfree (i_dev ip) (addr_at ip j);; upd_inode i (set_addr j 0));;
      trunc_direct k' i (j + 1)
  end.

Fixpoint trunc_indirect (k : nat) (dev : Z) (d : block) (j : Z) : M (fsst D) unit :=
  match k with
  | O => ret tt
  | S k' =>
      (if get32 d (4 * j) =? 0 then ret tt else bfree dev (get32 d (4 * j)));;
      trunc_indirect k' dev d (j + 1)
  end.

Definition itrunc (i : nat) : M (fsst D) unit :=
  trunc_direct (Z.to_nat NDIRECT) i 0;;
  ip <- inode_at i;;
  (if addr_at ip NDIRECT =? 0 then ret tt
   else
     d <- bread (i_dev ip) (addr_at ip NDIRECT);;
     trunc_indirect (Z.to_nat NINDIRECT) (i_dev ip) d 0;;
     bfree (i_dev ip) (addr_at ip NDIRECT);;
     upd_inode i (set_addr NDIRECT 0));;
  upd_inode i (set_size 0);;
  iupdate i.

Definition iput (i : nat) : M (fsst D) unit :=
  iacquire i;;
  ip <- inode_at i;;
  (if i_valid ip && (i_nlink ip =? 0) then
     if i_ref ip =? 1 then
       itrunc i;;
       upd_inode i (set_type 0);;
       iupdate i;;
       upd_inode i (set_valid false)
     else ret tt
   else ret tt);;
  upd_inode i (set_locked false);;
  upd_inode i (fun ip => set_ref (i_ref ip - 1) ip).

Definition iunlockput (i : nat) : M (fsst D) unit := iunlock i;; iput i.

Definition stati (i : nat) : M (fsst D) stat :=
  ip <- inode_at i;;
  ret (mkStat (i_type ip) (i_dev ip) (i_inum ip) (i_nlink ip) (i_size ip)).

(** readi: the bytes copied to [dst], [None] for the return value -1. *)
Fixpoint readi_loop (k : nat) (i : nat) (off tot n : Z) : M (fsst D) (list Z) :=
  match k with
  | O => hang
  | S k' =>
      if tot <? n then
        ip <- inode_at i;;
        a <- bmap i (off / BSIZE);;
        d <- bread (i_dev ip) a;;
        let m := Z.min (n - tot) (BSIZE - off mod BSIZE) in
        rest <- readi_loop k' i (off + m) (tot + m) n;;
        ret (gets_bytes d (off mod BSIZE) m ++ rest)
      else ret []
  end.

Definition readi (i : nat) (off n : Z) : M (fsst D) (option (list Z)) :=
  ip <- inode_at i;;
  if i_type ip =? T_DEV then
    if (i_major ip <? 0) || (i_major ip >=? NDEV) then ret None
    else match dev_read (i_major ip) with
         | None => ret None
         | Some rd => rd i n
         end
  else if (off >? i_size ip) || (u32 (off + n) <? off) then ret None
  else
    let n := if u32 (off + n) >? i_size ip then i_size ip - off else n in
    l <- readi_loop (S (Z.to_nat n)) i off 0 n;;
    ret (Some l).

Fixpoint writei_loop (k : nat) (i : nat) (src : list Z) (off tot n : Z) : M (fsst D) Z :=
  match k with
  | O => hang
  | S k' =>
      if tot <? n then
        ip <- inode_at i;;
        a <- bmap i (off / BSIZE);;
        d <- bread (i_dev ip) a;;
        let m := Z.min (n - tot) (BSIZE - off mod BSIZE) in
        bupdate (i_dev ip) a (puts d (off mod BSIZE) (take (Z.to_nat m) src));;
        writei_loop k' i (drop (Z.to_nat m) src) (off + m) (tot + m) n
      else ret off
  end.

(** writei of the bytes [src]; [None] for the return value -1. *)
Definition writei (i : nat) (src : list Z) (off : Z) : M (fsst D) (option Z) :=
  ip <- inode_at i;;
  let n := Z.of_nat (length src) in
  if i_type ip =? T_DEV then
    if (i_major ip <? 0) || (i_major ip >=? NDEV) then ret None
    else match dev_write (i_major ip) with
         | None => ret None
         | Some wr => wr i src
         end
  else if (off >? i_size ip) || (u32 (off + n) <? off) then ret None
  else if u32 (off + n) >? MAXFILE * BSIZE then ret None
  else
    off' <- writei_loop (S (Z.to_nat n)) i src off 0 n;;
    ip <- inode_at i;;
    (if (n >? 0) && (off' >? i_size ip) then
       upd_inode i (set_size off');;
       iupdate i
     else ret tt);;
    ret (Some n).

(** ** Directories *)
Definition cstr (l : list Z) : Z -> Z := fun i => default 0 (l !! Z.to_nat i).

Definition namecmp (s t : list Z) : Z := strncmp (cstr s) (cstr t) (Z.to_nat DIRSIZ).

(** struct dirent: inum and name of the 16 bytes [e]. *)
Definition de_inum (e : list Z) : Z := get16 e 0.
Definition de_name (e : list Z) : list Z := drop 2 e.
Definition mk_dirent (inum : Z) (name : list Z) : list Z := le16 inum ++ name.

Fixpoint dirlookup_loop (k : nat) (i : nat) (name : list Z) (off : Z)
  : M (fsst D) (option (nat * Z)) :=
  match k with
  | O => hang
  | S k' =>
      ip <- inode_at i;;
      if off <? i_size ip then
        r <- readi i off sizeof_dirent;;
        match r with
        | Some e =>
            if negb (Z.of_nat (length e) =? sizeof_dirent) then panic "dirlookup read"
            else if de_inum e =? 0 then dirlookup_loop k' i name (u32 (off + sizeof_dirent))
            else if namecmp name (de_name e) =? 0 then
              ip <- inode_at i;;
              j <- iget (i_dev ip) (de_inum e);;
              ret (Some (j, off))
            else dirlookup_loop k' i name (u32 (off + sizeof_dirent))
        | None => panic "dirlookup read"
        end
      else ret None
  end.

(** The inode a name denotes and the offset of its entry; [None] is the null
    pointer. *)
Definition dirlookup (i : nat) (name : list Z) : M (fsst D) (option (nat * Z)) :=
  ip <- inode_at i;;
  if negb (i_type ip =? T_DIR) then panic "dirlookup not DIR"
  else dirlookup_loop (Z.to_nat (i_size ip / sizeof_dirent) + 2) i name 0.

Fixpoint dirlink_loop (k : nat) (i : nat) (off : Z) : M (fsst D) Z :=
  match k with
  | O => hang
  | S k' =>
      ip <- inode_at i;;
      if u32 off <? i_size ip then
        r <- readi i (u32 off) sizeof_dirent;;
        match r with
        | Some e =>
            if negb (Z.of_nat (length e) =? sizeof_dirent) then panic "dirlink read"
            else if de_inum e =? 0 then ret off
            else dirlink_loop k' i (s32 (off + sizeof_dirent))
        | None => panic "dirlink read"
        end
      else ret off
  end.

Definition dirlink (i : nat) (name : list Z) (inum : Z) : M (fsst D) Z :=
  r <- dirlookup i name;;
  match r with
  | Some (j, _) => iput j;; ret (-1)
  | None =>
      ip <- inode_at i;;
      off <- dirlink_loop (Z.to_nat (i_size ip / sizeof_dirent) + 2) i 0;;
      r <- writei i (mk_dirent inum (strncpy (cstr name) (Z.to_nat DIRSIZ))) (u32 off);;
      if bool_decide (r = Some sizeof_dirent) then ret 0 else panic "dirlink"
  end.

(** ** Path names: C strings as the lists of their characters *)
Definition SLASH : Z := 47.

Fixpoint skip_slashes (p : list Z) : list Z :=
  match p with
  | c :: p' => if c =? SLASH then skip_slashes p' else p
  | [] => []
  end.

(** The element at the front and the rest of the path. *)
Fixpoint span_elem (p : list Z) : list Z * list Z :=
  match p with
  | c :: p' => if c =? SLASH then ([], p) else let '(e, r) := span_elem p' in (c :: e, r)
  | [] => ([], [])
  end.

Definition skipelem (path : list Z) : option (list Z * list Z) :=
  let path := skip_slashes path in
  match path with
  | [] => None
  | _ :: _ =>
      let '(s, rest) := span_elem path in
      Some (if Z.of_nat (length s) >=? DIRSIZ then take (Z.to_nat DIRSIZ) s else s,
            skip_slashes rest)
  end.

Fixpoint namex_loop (k : nat) (i : nat) (path : list Z) (nameiparent : bool) (name : list Z)
  : M (fsst D) (option (nat * list Z)) :=
  match k with
  | O => hang
  | S k' =>
      match skipelem path with
      | Some (name, path) =>
          ilock i;;
          ip <- inode_at i;;
          if negb (i_type ip =? T_DIR) then iunlockput i;; ret None
          else if nameiparent && bool_decide (path = []) then iunlock i;; ret (Some (i, name))
          else
            r <- dirlookup i name;;
            match r with
            | None => iunlockput i;; ret None
            | Some (next, _) => iunlockput i;; namex_loop k' next path nameiparent name
            end
      | None =>
          if nameiparent then iput i;; ret None
          else ret (Some (i, name))
      end
  end.

(** [cwd] is myproc()->cwd. *)
Definition namex (cwd : nat) (path : list Z) (nameiparent : bool)
  : M (fsst D) (option (nat * list Z)) :=
  i <- (if bool_decide (head path = Some SLASH) then iget ROOTDEV ROOTINO else idup cwd);;
  namex_loop (S (length path)) i path nameiparent [].

Definition namei (cwd : nat) (path : list Z) : M (fsst D) (option nat) :=
  r <- namex cwd path false;;
  ret (fst <$> r).

Definition nameiparent (cwd : nat) (path : list Z) : M (fsst D) (option (nat * list Z)) :=
  namex cwd path true.
End Fs.
