(* ===== verification/FsAlloc.v ===== *)
(** * The block allocator of the file system (fs.c: bzero, balloc, bfree)

    The bitmap as a set of used blocks: balloc takes the least free block, marks
    it and zeroes it; bfree clears exactly the bit of its block. *)

From stdpp Require Import base numbers list gmap strings.
From Stdlib Require Import ZArith Lia Bool.
From S2P Require Import Prelude Block Fs.

Local Open Scope Z_scope.
Local Open Scope kernel_scope.

(** ** Bits of a bitmap block *)
Definition bit (d : block) (bi : Z) : bool := Z.testbit (getb d (bi / 8)) (bi mod 8).

Lemma land_mask x bi : 0 <= bi -> (Z.land x (bit_mask bi) =? 0) = negb (Z.testbit x (bi mod 8)).
Proof.
  intros Hbi. unfold bit_mask. pose proof (Z.mod_pos_bound bi 8 ltac:(lia)) as Hk.
  set (k := bi mod 8) in *. rewrite Z.shiftl_1_l.
  destruct (Z.testbit x k) eqn:E; simpl.
  - apply Z.eqb_neq. intros H0. assert (Ht : Z.testbit (Z.land x (2 ^ k)) k = true)
      by (rewrite Z.land_spec, E, Z.pow2_bits_true by lia; done).
    rewrite H0, Z.bits_0 in Ht. done.
  - apply Z.eqb_eq. apply Z.bits_inj'. intros n Hn.
    rewrite Z.land_spec, Z.bits_0, Z.pow2_bits_eqb by lia.
    destruct (Z.eqb_spec k n) as [<-|]; [by rewrite E|apply andb_false_r].
Qed.

Lemma testbit_mod256 v k : 0 <= k < 8 -> Z.testbit (v mod 256) k = Z.testbit v k.
Proof. intros. change 256 with (2 ^ 8). apply Z.mod_pow2_bits_low. lia. Qed.

Lemma div8_mod8_eq x y : x / 8 = y / 8 -> x mod 8 = y mod 8 -> x = y.
Proof. intros. rewrite (Z.div_mod x 8), (Z.div_mod y 8); lia. Qed.

Lemma bit_putb d bi v x :
  block_ok d -> 0 <= bi < BPB -> 0 <= x < BPB ->
  bit (putb d (bi / 8) v) x = if x / 8 =? bi / 8 then Z.testbit v (x mod 8) else bit d x.
Proof.
  intros [Hl _] Hbi Hx. unfold bit, putb. unfold BPB, BSIZE in *.
  assert (0 <= bi / 8 < 512) by (split; [apply Z.div_pos|apply Z.div_lt_upper_bound]; lia).
  assert (0 <= x / 8 < 512) by (split; [apply Z.div_pos|apply Z.div_lt_upper_bound]; lia).
  rewrite getb_puts by (simpl; lia). cbn [length].
  destruct (Z.eqb_spec (x / 8) (bi / 8)) as [->|Hne].
  - rewrite Z.leb_refl, (proj2 (Z.ltb_lt _ _)) by lia. cbn [andb]. rewrite Z.sub_diag.
    cbn. apply testbit_mod256, Z.mod_pos_bound. lia.
  - destruct (Z.leb_spec (bi / 8) (x / 8)), (Z.ltb_spec (x / 8) (bi / 8 + Z.of_nat 1)); simpl; try done. lia.
Qed.

Lemma bit_set d bi x :
  block_ok d -> 0 <= bi < BPB -> 0 <= x < BPB ->
  bit (putb d (bi / 8) (Z.lor (getb d (bi / 8)) (bit_mask bi))) x = (x =? bi) || bit d x.
Proof.
  intros Hd Hbi Hx. rewrite bit_putb by done. unfold bit, bit_mask.
  pose proof (Z.mod_pos_bound bi 8 ltac:(lia)). pose proof (Z.mod_pos_bound x 8 ltac:(lia)).
  destruct (Z.eqb_spec (x / 8) (bi / 8)) as [He|Hne].
  - rewrite Z.lor_spec, Z.shiftl_1_l, Z.pow2_bits_eqb, He by lia.
    destruct (Z.eqb_spec (bi mod 8) (x mod 8)) as [Hm|Hm].
    + rewrite (div8_mod8_eq x bi) by done. by rewrite Z.eqb_refl, orb_true_r.
    + destruct (Z.eqb_spec x bi) as [->|]; [done|]. by rewrite orb_false_r.
  - destruct (Z.eqb_spec x bi) as [->|]; done.
Qed.

Lemma bit_clear d bi x :
  block_ok d -> 0 <= bi < BPB -> 0 <= x < BPB ->
  bit (putb d (bi / 8) (Z.land (getb d (bi / 8)) (Z.lnot (bit_mask bi)))) x = negb (x =? bi) && bit d x.
Proof.
  intros Hd Hbi Hx. rewrite bit_putb by done. unfold bit, bit_mask.
  pose proof (Z.mod_pos_bound bi 8 ltac:(lia)). pose proof (Z.mod_pos_bound x 8 ltac:(lia)).
  destruct (Z.eqb_spec (x / 8) (bi / 8)) as [He|Hne].
  - rewrite Z.land_spec, Z.lnot_spec, Z.shiftl_1_l, Z.pow2_bits_eqb, He by lia.
    destruct (Z.eqb_spec (bi mod 8) (x mod 8)) as [Hm|Hm].
    + rewrite (div8_mod8_eq x bi) by done. by rewrite Z.eqb_refl, andb_false_r.
    + destruct (Z.eqb_spec x bi) as [->|]; [done|]. by rewrite andb_true_r.
  - destruct (Z.eqb_spec x bi) as [->|]; done.
Qed.

(** ** The inner loop of balloc *)
Lemma balloc_scan_spec k size b bi d :
  0 <= bi ->
  match balloc_scan k size b bi d with
  | Some r => bi <= r < bi + Z.of_nat k /\ b + r < size /\ bit d r = false /\
              forall x, bi <= x < r -> bit d x = true
  | None => forall x, bi <= x < bi + Z.of_nat k -> b + x < size -> bit d x = true
  end.
Proof.
  revert bi. induction k as [|k IH]; intros bi Hbi; cbn [balloc_scan]; [lia|].
  destruct (Z.ltb_spec (b + bi) size); [|lia]. rewrite land_mask by lia.
  fold (bit d bi). destruct (bit d bi) eqn:E; simpl.
  - specialize (IH (bi + 1) ltac:(lia)).
    destruct (balloc_scan k size b (bi + 1) d) as [r|].
    + destruct IH as (Hr & Hs & Hb & Hx). split_and!; try lia; try done.
      intros x Hx'. destruct (decide (x = bi)) as [->|]; [done|]. apply Hx. lia.
    + intros x Hx Hs. destruct (decide (x = bi)) as [->|]; [done|]. apply IH; lia.
  - split_and!; try lia; try done.
Qed.

(** ** The file system's blocks *)
Section Alloc.
Context {D : Type}.
Implicit Types s : fsst D.

Definition rdb s (b : Z) : block := default zero_block (blk s !! b).

Definition used s (b : Z) : bool := bit (rdb s (BBLOCK b (sb s))) (b mod BPB).

(** The first block after the bitmap. *)
Definition datastart s : Z := sb_bmapstart (sb s) + sb_size (sb s) / BPB + 1.

(** The blocks are 512 bytes, the bitmap lies on the disk after the log and the
    inodes, and the blocks up to its end are marked as in use. *)
Record fs_ok s : Prop := mkFsOk {
  ok_blk : forall b d, blk s !! b = Some d -> block_ok d;
  ok_size : 0 < sb_size (sb s) <= disksize s;
  ok_disk : disksize s < 2147483648;
  ok_ino : 1 < sb_inodestart (sb s);
  ok_ninodes : 0 <= sb_ninodes (sb s);
  ok_inos : sb_inodestart (sb s) + sb_ninodes (sb s) / IPB + 1 <= sb_bmapstart (sb s);
  ok_bmap : datastart s <= sb_size (sb s);
  ok_meta : forall b, 0 <= b < datastart s -> used s b = true
}.

Lemma datastart_pos s : fs_ok s -> 0 < datastart s.
Proof.
  intros H. pose proof (ok_size s H). pose proof (ok_ino s H). pose proof (ok_inos s H). pose proof (ok_ninodes s H).
  unfold datastart. assert (0 <= sb_size (sb s) / BPB) by (by apply Z.div_pos; [lia|]).
  assert (0 <= sb_ninodes (sb s) / IPB) by (by apply Z.div_pos). lia.
Qed.

(** States that differ in the blocks only. *)
Definition same_rest s s' : Prop :=
  disksize s' = disksize s /\ sb s' = sb s /\ icache s' = icache s /\ devst s' = devst s.

Lemma same_rest_refl s : same_rest s s.
Proof. done. Qed.

Lemma same_rest_trans s1 s2 s3 : same_rest s1 s2 -> same_rest s2 s3 -> same_rest s1 s3.
Proof. intros (?&?&?&?) (?&?&?&?). split_and!; congruence. Qed.

Lemma rdb_ok s b : fs_ok s -> block_ok (rdb s b).
Proof.
  intros H. unfold rdb. destruct (blk s !! b) eqn:E; simpl; [by eapply ok_blk|apply zero_block_ok].
Qed.

(** The block an update writes, and the state after it. *)
Definition put_blk (b : Z) (d : block) s : fsst D :=
  set_logged (if decide (b ∈ logged s) then logged s else logged s ++ [b])
             (set_blk (<[b := d]> (blk s)) s).

Lemma rdb_put_eq b d s : rdb (put_blk b d s) b = d.
Proof. unfold rdb. simpl. by rewrite lookup_insert_eq. Qed.

Lemma rdb_put_ne b d s x : x <> b -> rdb (put_blk b d s) x = rdb s x.
Proof. intros. unfold rdb. simpl. by rewrite lookup_insert_ne. Qed.

Lemma put_same_rest b d s : same_rest s (put_blk b d s).
Proof. done. Qed.

Lemma wp_bread (Q : block -> fsst D -> Prop) s b :
  0 <= b < disksize s -> Q (rdb s b) s -> wp (bread ROOTDEV b) Q s.
Proof.
  intros Hb HQ. unfold bread, check_blk. wp_steps. change (ROOTDEV =? 1) with true. cbn [negb].
  destruct (Z.leb_spec 0 b), (Z.ltb_spec b (disksize s)); try lia. wp_steps. done.
Qed.

Lemma wp_bupdate (Q : unit -> fsst D -> Prop) s b d :
  0 <= b < disksize s -> Q tt (put_blk b d s) -> wp (bupdate ROOTDEV b d) Q s.
Proof.
  intros Hb HQ. unfold bupdate, check_blk. wp_steps. change (ROOTDEV =? 1) with true. cbn [negb].
  destruct (Z.leb_spec 0 b), (Z.ltb_spec b (disksize s)); try lia. wp_steps. done.
Qed.

Lemma BBLOCK_val s b : fs_ok s -> 0 <= b < sb_size (sb s) ->
  BBLOCK b (sb s) = b / BPB + sb_bmapstart (sb s) /\
  1 < BBLOCK b (sb s) < datastart s /\ 0 <= b mod BPB < BPB.
Proof.
  intros H Hb. unfold BBLOCK. pose proof (ok_bmap s H). pose proof (ok_size s H).
  pose proof (ok_disk s H). pose proof (ok_ino s H). pose proof (ok_inos s H).
  pose proof (ok_ninodes s H).
  assert (0 <= sb_ninodes (sb s) / IPB) by (apply Z.div_pos; [lia|done]).
  unfold datastart in *. assert (0 <= b / BPB <= sb_size (sb s) / BPB).
  { split; [apply Z.div_pos; [lia|done]|apply Z.div_le_mono; [done|lia]]. }
  rewrite u32_small by lia. split_and!; try lia; apply Z.mod_pos_bound; done.
Qed.

(** Rewriting one bitmap block changes the used bits it holds and no others. *)
Lemma used_put_bitmap s b d :
  fs_ok s -> 0 <= b < sb_size (sb s) ->
  forall x, 0 <= x < sb_size (sb s) ->
  used (put_blk (BBLOCK b (sb s)) d s) x =
  if x / BPB =? b / BPB then bit d (x mod BPB) else used s x.
Proof.
  intros H Hb x Hx. unfold used. cbn [sb put_blk set_logged set_blk].
  destruct (BBLOCK_val s b H Hb) as (Eb & _), (BBLOCK_val s x H Hx) as (Ex & _).
  destruct (Z.eqb_spec (x / BPB) (b / BPB)) as [He|Hne].
  - assert (E : BBLOCK x (sb s) = BBLOCK b (sb s)) by lia. by rewrite E, rdb_put_eq.
  - rewrite rdb_put_ne by lia. done.
Qed.

Lemma used_put_data s b d :
  fs_ok s -> datastart s <= b ->
  forall x, 0 <= x < sb_size (sb s) -> used (put_blk b d s) x = used s x.
Proof.
  intros H Hb x Hx. unfold used. cbn [sb put_blk set_logged set_blk].
  destruct (BBLOCK_val s x H Hx) as (_ & ? & _). rewrite rdb_put_ne by lia. done.
Qed.

Lemma fs_ok_put s b d :
  fs_ok s -> block_ok d ->
  (forall x, 0 <= x < datastart s -> used (put_blk b d s) x = true) -> fs_ok (put_blk b d s).
Proof.
  intros [] Hd Hu. constructor; try done.
  intros b' d'. simpl. intros [[-> ->]|[? ?]]%lookup_insert_Some; eauto.
Qed.

Lemma fs_ok_put_data s b d : fs_ok s -> block_ok d -> datastart s <= b -> fs_ok (put_blk b d s).
Proof.
  intros H Hd Hb. apply fs_ok_put; [done..|]. intros x Hx. pose proof (ok_bmap s H).
  rewrite used_put_data by (done || lia). by apply ok_meta.
Qed.

Lemma div_mod_BPB_eq x y : x / BPB = y / BPB -> x mod BPB = y mod BPB -> x = y.
Proof. intros. rewrite (Z.div_mod x BPB), (Z.div_mod y BPB) by done. lia. Qed.

(** The state after marking block [b]. *)
Definition marked s (b : Z) : fsst D :=
  let d := rdb s (BBLOCK b (sb s)) in let bi := b mod BPB in
  put_blk (BBLOCK b (sb s)) (putb d (bi / 8) (Z.lor (getb d (bi / 8)) (bit_mask bi))) s.

Definition unmarked s (b : Z) : fsst D :=
  let d := rdb s (BBLOCK b (sb s)) in let bi := b mod BPB in
  put_blk (BBLOCK b (sb s)) (putb d (bi / 8) (Z.land (getb d (bi / 8)) (Z.lnot (bit_mask bi)))) s.

Lemma used_marked s b x :
  fs_ok s -> 0 <= b < sb_size (sb s) -> 0 <= x < sb_size (sb s) ->
  used (marked s b) x = (x =? b) || used s x.
Proof.
  intros H Hb Hx. unfold marked. rewrite used_put_bitmap by done.
  pose proof (Z.mod_pos_bound b BPB ltac:(done)). pose proof (Z.mod_pos_bound x BPB ltac:(done)).
  destruct (Z.eqb_spec (x / BPB) (b / BPB)) as [He|Hne].
  - rewrite bit_set by (done || by apply rdb_ok). unfold used, BBLOCK. rewrite He. f_equal.
    destruct (Z.eqb_spec x b) as [->|Hn]; [by apply Z.eqb_refl|].
    apply Z.eqb_neq. intros ?. by apply Hn, div_mod_BPB_eq.
  - destruct (Z.eqb_spec x b) as [->|]; done.
Qed.

Lemma used_unmarked s b x :
  fs_ok s -> 0 <= b < sb_size (sb s) -> 0 <= x < sb_size (sb s) ->
  used (unmarked s b) x = negb (x =? b) && used s x.
Proof.
  intros H Hb Hx. unfold unmarked. rewrite used_put_bitmap by done.
  pose proof (Z.mod_pos_bound b BPB ltac:(done)). pose proof (Z.mod_pos_bound x BPB ltac:(done)).
  destruct (Z.eqb_spec (x / BPB) (b / BPB)) as [He|Hne].
  - rewrite bit_clear by (done || by apply rdb_ok). unfold used, BBLOCK. rewrite He. f_equal.
    destruct (Z.eqb_spec x b) as [->|Hn]; [by rewrite Z.eqb_refl|].
    f_equal. apply Z.eqb_neq. intros ?. by apply Hn, div_mod_BPB_eq.
  - destruct (Z.eqb_spec x b) as [->|]; done.
Qed.

Lemma marked_ok s b : fs_ok s -> 0 <= b < sb_size (sb s) -> fs_ok (marked s b).
Proof.
  intros H Hb. apply fs_ok_put; [done|apply putb_ok, rdb_ok, H|]. intros x Hx.
  pose proof (ok_bmap s H). fold (marked s b). rewrite used_marked by (done || lia).
  rewrite (ok_meta s H) by lia. apply orb_true_r.
Qed.

Lemma unmarked_ok s b : fs_ok s -> datastart s <= b < sb_size (sb s) -> fs_ok (unmarked s b).
Proof.
  intros H Hb. pose proof (datastart_pos s H).
  apply fs_ok_put; [done|apply putb_ok, rdb_ok, H|]. intros x Hx.
  fold (unmarked s b). rewrite used_unmarked by (done || lia).
  rewrite (ok_meta s H) by lia. destruct (Z.eqb_spec x b); [lia|done].
Qed.

Lemma puts_whole d l : length d = length l -> puts d 0 l = l.
Proof.
  intros Hl. apply list_eq. intros i. unfold puts.
  destruct (decide (i < length l)%nat).
  - rewrite list_lookup_inserts by lia. f_equal. lia.
  - rewrite list_lookup_inserts_ge by lia. rewrite !lookup_ge_None_2 by lia. done.
Qed.

Lemma wp_bzero (Q : unit -> fsst D -> Prop) s b :
  fs_ok s -> 0 <= b < disksize s -> Q tt (put_blk b zero_block s) -> wp (bzero ROOTDEV b) Q s.
Proof.
  intros H Hb HQ. unfold bzero. wp_steps. apply wp_bread; [done|]. apply wp_bupdate; [done|].
  rewrite puts_whole; [done|]. rewrite (proj1 (rdb_ok s b H)). unfold zero_block.
  by rewrite length_replicate.
Qed.

(** The state after balloc has taken block [a]. *)
Definition balloced s (a : Z) : fsst D := put_blk a zero_block (marked s a).

Definition first_free s (a : Z) : Prop :=
  0 <= a < sb_size (sb s) /\ used s a = false /\ forall x, 0 <= x < a -> used s x = true.

Lemma div_mod_BPB q y : 0 <= y < BPB -> (BPB * q + y) / BPB = q /\ (BPB * q + y) mod BPB = y.
Proof.
  intros Hy. split; symmetry; [apply (Z.div_unique _ _ _ y)|apply (Z.mod_unique _ _ q)]; lia.
Qed.

(** Bit [y] of the [q]th bitmap block is the mark of block [BPB * q + y]. *)
Lemma BBLOCK_at s q y : 0 <= y < BPB -> BBLOCK (BPB * q + y) (sb s) = BBLOCK (BPB * q) (sb s).
Proof.
  intros Hy. unfold BBLOCK. destruct (div_mod_BPB q y Hy) as [-> _].
  rewrite <- (Z.add_0_r (BPB * q)). by destruct (div_mod_BPB q 0) as [-> _].
Qed.

Lemma used_at s q y : 0 <= y < BPB -> used s (BPB * q + y) = bit (rdb s (BBLOCK (BPB * q) (sb s))) y.
Proof. intros Hy. unfold used. rewrite BBLOCK_at by done. by destruct (div_mod_BPB q y Hy) as [_ ->]. Qed.

Lemma run_bread s b : 0 <= b < disksize s -> bread ROOTDEV b s = Ret (rdb s b) s.
Proof.
  intros Hb. by destruct (wp_inv _ _ _ (wp_bread (fun d s' => d = rdb s b /\ s' = s) s b Hb ltac:(done)))
    as (?&?&E&->&->).
Qed.

(** The branch of balloc that has found a free block. *)
Lemma balloc_found s q bi :
  fs_ok s -> 0 <= bi < BPB -> 0 <= BPB * q + bi < sb_size (sb s) ->
  (let d := rdb s (BBLOCK (BPB * q) (sb s)) in
   bupdate ROOTDEV (BBLOCK (BPB * q) (sb s)) (putb d (bi / 8) (Z.lor (getb d (bi / 8)) (bit_mask bi)));;
   bzero ROOTDEV (BPB * q + bi);;
   ret (BPB * q + bi)) s = Ret (BPB * q + bi) (balloced s (BPB * q + bi)).
Proof.
  intros H Hbi Ha. cbv zeta. destruct (BBLOCK_val s _ H Ha) as (_ & HB & _).
  pose proof (ok_size s H). pose proof (ok_bmap s H).
  assert (Hw : wp (let d := rdb s (BBLOCK (BPB * q) (sb s)) in
   bupdate ROOTDEV (BBLOCK (BPB * q) (sb s)) (putb d (bi / 8) (Z.lor (getb d (bi / 8)) (bit_mask bi)));;
   bzero ROOTDEV (BPB * q + bi);;
   ret (BPB * q + bi)) (fun a s' => a = BPB * q + bi /\ s' = balloced s (BPB * q + bi)) s).
  { cbv zeta. wp_steps. rewrite <- (BBLOCK_at s q bi) by done. apply wp_bupdate; [lia|].
    destruct (div_mod_BPB q bi Hbi) as [_ Em].
    assert (Es : put_blk (BBLOCK (BPB * q + bi) (sb s)) (putb (rdb s (BBLOCK (BPB * q + bi) (sb s))) (bi / 8)
      (Z.lor (getb (rdb s (BBLOCK (BPB * q + bi) (sb s))) (bi / 8)) (bit_mask bi))) s = marked s (BPB * q + bi))
      by (unfold marked; by rewrite Em).
    rewrite Es. wp_steps. apply wp_bzero; [by apply marked_ok|simpl; lia|]. wp_steps. done. }
  destruct (wp_inv _ _ _ Hw) as (?&?&E&->&->). exact E.
Qed.

Lemma balloc_loop_spec k s q :
  fs_ok s -> 0 <= q -> (forall x, 0 <= x < BPB * q -> x < sb_size (sb s) -> used s x = true) ->
  BPB * (q - 1) < sb_size (sb s) < BPB * (q + Z.of_nat k - 1) ->
  (exists a, first_free s a /\ balloc_loop k ROOTDEV (BPB * q) s = Ret a (balloced s a)) \/
  ((forall x, 0 <= x < sb_size (sb s) -> used s x = true) /\
   balloc_loop k ROOTDEV (BPB * q) s = Panic "balloc: out of blocks").
Proof.
  intros H. revert q. induction k as [|k IH]; intros q Hq Hall Hk; [lia|].
  cbn [balloc_loop]. rewrite bind_get. destruct (Z.ltb_spec (BPB * q) (sb_size (sb s))) as [Hlt|Hge].
  2: { right. split; [|done]. intros x Hx. apply Hall; lia. }
  pose proof (ok_size s H) as Hsz. pose proof (ok_bmap s H) as Hbm.
  assert (Hb : 0 <= BPB * q < sb_size (sb s)) by (unfold BPB, BSIZE in *; lia).
  destruct (BBLOCK_val s (BPB * q) H Hb) as (_ & HB & _).
  rewrite (bind_run _ _ _ _ _ (run_bread s (BBLOCK (BPB * q) (sb s)) ltac:(lia))).
  pose proof (balloc_scan_spec (Z.to_nat BPB) (sb_size (sb s)) (BPB * q) 0
    (rdb s (BBLOCK (BPB * q) (sb s))) ltac:(lia)) as Hscan.
  pose proof (used_at s q) as Hused.
  assert (HBPB : Z.of_nat (Z.to_nat BPB) = BPB) by done.
  destruct (balloc_scan _ _ _ _ _) as [bi|].
  - destruct Hscan as (Hbi & Hlim & Hfree & Hbefore). left. exists (BPB * q + bi).
    assert (Hff : first_free s (BPB * q + bi)).
    { split; [lia|]. rewrite Hused by lia. split; [done|]. intros x Hx.
      destruct (decide (x < BPB * q)); [apply Hall; lia|].
      replace x with (BPB * q + (x - BPB * q)) by lia. rewrite Hused by lia. apply Hbefore. lia. }
    split; [done|]. apply (balloc_found s q bi); [done|lia|lia].
  - replace (BPB * q + BPB) with (BPB * (q + 1)) by lia. apply IH; [lia| |lia].
    intros x Hx Hxs. destruct (decide (x < BPB * q)); [apply Hall; lia|].
    replace x with (BPB * q + (x - BPB * q)) by lia. rewrite Hused by lia. apply Hscan; lia.
Qed.

Lemma balloc_spec s :
  fs_ok s ->
  (exists a, first_free s a /\ balloc ROOTDEV s = Ret a (balloced s a)) \/
  ((forall x, 0 <= x < sb_size (sb s) -> used s x = true) /\
   balloc ROOTDEV s = Panic "balloc: out of blocks").
Proof.
  intros H. unfold balloc. rewrite bind_get. pose proof (ok_size s H).
  apply (balloc_loop_spec _ s 0); [done|lia|lia|].
  pose proof (Z.div_mod (sb_size (sb s)) BPB ltac:(done)).
  pose proof (Z.mod_pos_bound (sb_size (sb s)) BPB ltac:(done)).
  assert (0 <= sb_size (sb s) / BPB) by (apply Z.div_pos; [lia|done]).
  unfold BPB, BSIZE in *. lia.
Qed.

Lemma used_balloced s a x :
  fs_ok s -> datastart s <= a < sb_size (sb s) -> 0 <= x < sb_size (sb s) ->
  used (balloced s a) x = (x =? a) || used s x.
Proof.
  intros H Ha Hx. assert (0 < datastart s).
  { pose proof (ok_size s H). destruct (BBLOCK_val s 0 H) as (_ & ? & _); lia. }
  unfold balloced. rewrite used_put_data; [apply used_marked; done || lia| |exact (proj1 Ha)|done].
  apply marked_ok; [done|lia].
Qed.

Lemma rdb_balloced s a x :
  fs_ok s -> datastart s <= a < sb_size (sb s) -> datastart s <= x ->
  rdb (balloced s a) x = if x =? a then zero_block else rdb s x.
Proof.
  intros H Ha Hx. unfold balloced. destruct (Z.eqb_spec x a) as [->|]; [apply rdb_put_eq|].
  rewrite rdb_put_ne by done. unfold marked. assert (0 < datastart s).
  { pose proof (ok_size s H). destruct (BBLOCK_val s 0 H) as (_ & ? & _); lia. }
  destruct (BBLOCK_val s a H) as (_ & ? & _); [lia|]. rewrite rdb_put_ne by lia. done.
Qed.

Lemma first_free_data s a : fs_ok s -> first_free s a -> datastart s <= a < sb_size (sb s).
Proof.
  intros H (Ha & Hf & _). split; [|lia]. destruct (decide (a < datastart s)); [|lia].
  rewrite (ok_meta s H) in Hf by lia. done.
Qed.

Lemma balloced_ok s a : fs_ok s -> datastart s <= a < sb_size (sb s) -> fs_ok (balloced s a).
Proof.
  intros H Ha. assert (0 < datastart s).
  { pose proof (ok_size s H). destruct (BBLOCK_val s 0 H) as (_ & ? & _); lia. }
  apply fs_ok_put_data; [apply marked_ok; [done|lia]|apply zero_block_ok|exact (proj1 Ha)].
Qed.

Lemma bfree_spec s b :
  fs_ok s -> 0 <= b < sb_size (sb s) ->
  bfree ROOTDEV b s = if used s b then Ret tt (unmarked s b) else Panic "freeing free block".
Proof.
  intros H Hb. unfold bfree. rewrite bind_get.
  destruct (BBLOCK_val s b H Hb) as (_ & HB & Hm). pose proof (ok_bmap s H). pose proof (ok_size s H).
  rewrite (bind_run _ _ _ _ _ (run_bread s (BBLOCK b (sb s)) ltac:(lia))).
  rewrite land_mask by lia. fold (bit (rdb s (BBLOCK b (sb s))) (b mod BPB)). fold (used s b).
  destruct (used s b) eqn:E; cbn [negb]; [|done].
  destruct (wp_inv _ _ _ (wp_bupdate (fun _ s' => s' = unmarked s b) s (BBLOCK b (sb s))
    (putb (rdb s (BBLOCK b (sb s))) (b mod BPB / 8)
      (Z.land (getb (rdb s (BBLOCK b (sb s))) (b mod BPB / 8)) (Z.lnot (bit_mask (b mod BPB)))))
    ltac:(lia) ltac:(done))) as ([]&?&E'&->). exact E'.
Qed.

(** balloc on a well-formed file system returns the least block that the
    bitmap marks as free, a block of the data area; afterwards that block is
    marked and all zero, no other mark and no other data block has changed, and
    the file system is still well formed; when every block is marked it panics
    instead.  Freeing the block again restores every mark, and freeing it a
    second time panics. *)
Theorem balloc_bfree_correct s (H : fs_ok s) :
  match balloc ROOTDEV s with
  | Ret a s' =>
      first_free s a /\ datastart s <= a /\ fs_ok s' /\ same_rest s s' /\ rdb s' a = zero_block /\
      (forall x, 0 <= x < sb_size (sb s) -> used s' x = (x =? a) || used s x) /\
      (forall x, datastart s <= x -> x <> a -> rdb s' x = rdb s x) /\
      exists s2, bfree ROOTDEV a s' = Ret tt s2 /\ fs_ok s2 /\ same_rest s s2 /\
        (forall x, 0 <= x < sb_size (sb s) -> used s2 x = used s x) /\
        bfree ROOTDEV a s2 = Panic "freeing free block"
  | Panic msg =>
      msg = "balloc: out of blocks"%string /\ forall x, 0 <= x < sb_size (sb s) -> used s x = true
  | _ => False
  end.
Proof.
  destruct (balloc_spec s H) as [(a & Hff & ->)|[Hall ->]]; [|done].
  pose proof (first_free_data s a H Hff) as Ha. pose proof (balloced_ok s a H Ha) as Hok.
  destruct Hff as (Har & Hfree & Hleast).
  assert (Hu : forall x, 0 <= x < sb_size (sb s) -> used (balloced s a) x = (x =? a) || used s x)
    by (intros; by apply used_balloced).
  split; [done|]. split; [lia|]. split; [done|]. split; [done|]. split; [apply rdb_put_eq|].
  split; [done|]. split.
  { intros x Hx Hne. rewrite rdb_balloced by done. by destruct (Z.eqb_spec x a). }
  exists (unmarked (balloced s a) a). rewrite bfree_spec by done. rewrite Hu, Z.eqb_refl by done.
  split; [done|]. assert (Hok2 : fs_ok (unmarked (balloced s a) a)) by (by apply unmarked_ok).
  assert (Hu2 : forall x, 0 <= x < sb_size (sb s) -> used (unmarked (balloced s a) a) x = used s x).
  { intros x Hx. rewrite used_unmarked, Hu by done.
    destruct (Z.eqb_spec x a) as [->|]; [by rewrite Hfree|done]. }
  split; [done|]. split; [done|]. split; [done|].
  rewrite bfree_spec by done. rewrite Hu2 by done. by rewrite Hfree.
Qed.
End Alloc.

(** A disk of 40 blocks: log from block 2, one block of inodes at 32, the bitmap
    at 34, blocks 0 to 34 in use. *)
Definition demo_sb : superblock := mkSuperblock 40 5 7 30 2 32 34.
Definition demo_bitmap : block := [255; 255; 255; 255; 7] ++ replicate 507 0.
Definition demo_fs : fsst unit :=
  mkFs {[34 := demo_bitmap]} 40 [] demo_sb (replicate 50 inode0) tt.

Lemma demo_fs_ok : fs_ok demo_fs.
Proof.
  constructor; [| by vm_compute | by vm_compute | by vm_compute | by vm_compute | by vm_compute | by vm_compute |].
  - cbn [blk demo_fs]. intros b d [<- <-]%lookup_singleton_Some. split; [done|].
    apply Forall_app. split; [repeat constructor; lia|]. apply Forall_replicate. lia.
  - intros b Hb. assert (Hd : datastart demo_fs = 35) by done. rewrite Hd in Hb.
    assert (Hall : forallb (used demo_fs) (seqZ 0 35) = true) by (vm_compute; done).
    rewrite forallb_forall in Hall. apply Hall, list_elem_of_In, elem_of_seqZ. lia.
Qed.

Lemma balloc_bfree_correct_witness :
  (match balloc ROOTDEV demo_fs with Ret a _ => a | _ => 0 end) = 35 /\
  match balloc ROOTDEV demo_fs with
  | Ret a s' => first_free demo_fs a /\ rdb s' a = zero_block
  | _ => False
  end.
Proof.
  split; [vm_compute; done|].
  pose proof (balloc_bfree_correct demo_fs demo_fs_ok) as Hp.
  assert (E : match balloc ROOTDEV demo_fs with Panic _ => true | _ => false end = false) by (vm_compute; done).
  destruct (balloc ROOTDEV demo_fs) as [a s'| | |]; [|done..].
  destruct Hp as (Hf & _ & _ & _ & Hz & _). done.
Defined.
