(* ===== verification/FsFile.v ===== *)
(** * The blocks of a file (fs.c: bmap)

    The 140 blocks of a file and its indirect block as slots of the inode.  A
    file is well formed when its slots are distinct blocks of the data area that
    the bitmap marks as used; bmap fills at most the slot it is asked for and the
    indirect block, and leaves every other block of every file alone. *)

From stdpp Require Import base numbers list gmap strings.
From Stdlib Require Import ZArith Lia Bool.
From S2P Require Import Prelude Block Fs FsAlloc.

Local Open Scope Z_scope.
Local Open Scope kernel_scope.

(** ** Counting *)
Definition count (f : Z -> bool) (l : list Z) : nat := length (List.filter f l).

Lemma elem_of_tail (x y : Z) l : x ∈ l -> x ∈ y :: l.
Proof. intros. apply elem_of_cons. by right. Qed.

Lemma count_ext f g l : (forall x, x ∈ l -> f x = g x) -> count f l = count g l.
Proof.
  unfold count. induction l as [|x l IH]; intros H; simpl; [done|].
  rewrite <- (H x) by (apply elem_of_cons; auto).
  assert (IH' := IH (fun y Hy => H y (elem_of_tail _ _ _ Hy))).
  destruct (f x); simpl; congruence.
Qed.

Lemma count_drop f g l a :
  NoDup l -> a ∈ l -> f a = true -> g a = false -> (forall x, x ∈ l -> x <> a -> g x = f x) ->
  count f l = S (count g l).
Proof.
  induction l as [|x l IH]; intros Hnd Ha Hf Hg H; [by apply elem_of_nil in Ha|].
  apply NoDup_cons in Hnd as [Hx Hnd]. unfold count. simpl.
  destruct (decide (x = a)) as [->|Hne].
  - rewrite Hf, Hg. simpl. f_equal. apply count_ext. intros y Hy. symmetry.
    apply H; [by apply elem_of_tail|]. by intros ->.
  - rewrite (H x) by (done || apply elem_of_cons; auto). apply elem_of_cons in Ha as [?|Ha]; [congruence|].
    assert (IH' := IH Hnd Ha Hf Hg (fun y Hy => H y (elem_of_tail _ _ _ Hy))).
    unfold count in IH'. destruct (f x); simpl; lia.
Qed.

Lemma count_pos f l a : a ∈ l -> f a = true -> (0 < count f l)%nat.
Proof.
  unfold count. intros Ha Hf. assert (In a (List.filter f l)) by
    (apply filter_In; split; [by apply list_elem_of_In|done]).
  destruct (List.filter f l); simpl in *; [done|lia].
Qed.

Lemma count_none f l : (forall x, x ∈ l -> f x = false) -> count f l = O.
Proof.
  unfold count. induction l as [|x l IH]; intros H; simpl; [done|].
  rewrite (H x) by (apply elem_of_cons; auto). apply IH. intros y Hy. by apply H, elem_of_tail.
Qed.

(** ** Inodes *)
Lemma addr_at_set_eq k a ip : 0 <= k < Z.of_nat (length (i_addrs ip)) -> addr_at (set_addr k a ip) k = a.
Proof. intros. unfold addr_at. simpl. by rewrite list_lookup_insert_eq by lia. Qed.

Lemma addr_at_set_ne k a ip j : 0 <= k -> 0 <= j -> j <> k -> addr_at (set_addr k a ip) j = addr_at ip j.
Proof. intros. unfold addr_at. simpl. by rewrite list_lookup_insert_ne by lia. Qed.

Lemma get32_zero o : get32 zero_block o = 0.
Proof.
  assert (H : forall x, getb zero_block x = 0).
  { intros x. unfold getb, zero_block. destruct (replicate _ _ !! _) eqn:E; simpl; [|done].
    by apply lookup_replicate in E as [-> _]. }
  unfold get32. by rewrite !H.
Qed.

Section File.
Context {D : Type} `{DV : Devsw D}.
Implicit Types s : fsst D.

(** Slots 0 to 139 are the blocks of the content, slot 140 the indirect block. *)
Definition IND : Z := 140.

Definition slot s (ip : inode) (k : Z) : Z :=
  if k <? NDIRECT then addr_at ip k
  else if k <? MAXFILE then
    if addr_at ip NDIRECT =? 0 then 0 else get32 (rdb s (addr_at ip NDIRECT)) (4 * (k - NDIRECT))
  else addr_at ip NDIRECT.

Definition is_slot (k : Z) : Prop := 0 <= k <= IND.

Record file_ok s (ip : inode) : Prop := mkFileOk {
  fo_dev : i_dev ip = ROOTDEV;
  fo_len : length (i_addrs ip) = 13%nat;
  fo_slot : forall k, is_slot k -> slot s ip k <> 0 ->
            datastart s <= slot s ip k < sb_size (sb s) /\ used s (slot s ip k) = true;
  fo_inj : forall k j, is_slot k -> is_slot j -> slot s ip k <> 0 -> slot s ip k = slot s ip j -> k = j
}.

(** The free blocks of the disk, and the empty slots of a file among [K]. *)
Definition nfree s : nat := count (fun x => negb (used s x)) (seqZ 0 (sb_size (sb s))).
Definition missing s (ip : inode) (K : list Z) : nat := count (fun k => slot s ip k =? 0) K.

Definition set_ino (i : nat) (ip : inode) s : fsst D := set_icache (<[i := ip]> (icache s)) s.

Definition finv s (i : nat) (ip : inode) : Prop :=
  fs_ok s /\ icache s !! i = Some ip /\ file_ok s ip.

(** The fields of an inode other than its block addresses and its size. *)
Definition same_ino (ip ip' : inode) : Prop :=
  i_dev ip' = i_dev ip /\ i_inum ip' = i_inum ip /\ i_ref ip' = i_ref ip /\
  i_locked ip' = i_locked ip /\ i_valid ip' = i_valid ip /\ i_type ip' = i_type ip /\
  i_major ip' = i_major ip /\ i_minor ip' = i_minor ip /\ i_nlink ip' = i_nlink ip.

(** What file [i] may do to the rest of the system while it changes its own
    blocks: keep its slots, take free blocks, and write to no other block that
    was in use. *)
Record fstep s (i : nat) (ip : inode) s' (ip' : inode) : Prop := mkFstep {
  st_sb : sb s' = sb s /\ disksize s' = disksize s /\ devst s' = devst s;
  st_icache : icache s' = <[i := ip']> (icache s);
  st_ino : same_ino ip ip';
  st_keep : forall k, is_slot k -> slot s ip k <> 0 -> slot s' ip' k = slot s ip k;
  st_fresh : forall k, is_slot k -> slot s ip k = 0 -> slot s' ip' k <> 0 ->
             datastart s <= slot s' ip' k < sb_size (sb s) /\ used s (slot s' ip' k) = false;
  st_used : forall x, 0 <= x < sb_size (sb s) -> used s x = true -> used s' x = true;
  st_frame : forall x, datastart s <= x < sb_size (sb s) -> used s x = true ->
             (forall k, is_slot k -> slot s ip k <> x) -> rdb s' x = rdb s x;
  st_meta : forall x, x < sb_bmapstart (sb s) -> rdb s' x = rdb s x
}.

Lemma datastart_bmap s : fs_ok s -> 1 < sb_bmapstart (sb s) < datastart s.
Proof.
  intros H. pose proof (ok_ino s H). pose proof (ok_inos s H). pose proof (ok_ninodes s H).
  pose proof (ok_size s H). unfold datastart.
  assert (0 <= sb_ninodes (sb s) / IPB) by (apply Z.div_pos; [lia|done]).
  assert (0 <= sb_size (sb s) / BPB) by (apply Z.div_pos; [lia|done]). lia.
Qed.

Lemma fs_ok_set_ino s i ip : fs_ok s -> fs_ok (set_ino i ip s).
Proof. intros []. by constructor. Qed.

(** [datastart] and the marks only look at the superblock and the blocks. *)
Lemma datastart_sb s s' : sb s' = sb s -> datastart s' = datastart s.
Proof. unfold datastart. by intros ->. Qed.

Lemma fstep_refl s i ip : icache s !! i = Some ip -> fstep s i ip s ip.
Proof. intros Hi. constructor; try done. by rewrite list_insert_id. Qed.

Lemma fstep_trans s1 i ip1 s2 ip2 s3 ip3 :
  fs_ok s1 -> fstep s1 i ip1 s2 ip2 -> fstep s2 i ip2 s3 ip3 -> fstep s1 i ip1 s3 ip3.
Proof.
  intros O1 A B. destruct (st_sb _ _ _ _ _ A) as (Esb & Eds & Edv).
  destruct (st_sb _ _ _ _ _ B) as (Esb' & Eds' & Edv').
  pose proof (datastart_sb _ _ Esb) as Ed. pose proof (datastart_pos s1 O1).
  constructor.
  - split_and!; congruence.
  - rewrite (st_icache _ _ _ _ _ B), (st_icache _ _ _ _ _ A). apply list_insert_insert_eq.
  - destruct (st_ino _ _ _ _ _ A) as (?&?&?&?&?&?&?&?&?), (st_ino _ _ _ _ _ B) as (?&?&?&?&?&?&?&?&?).
    unfold same_ino. split_and!; congruence.
  - intros k Hk Hne. pose proof (st_keep _ _ _ _ _ A k Hk Hne) as E. rewrite <- E in Hne |- *.
    by apply (st_keep _ _ _ _ _ B).
  - intros k Hk Hz Hne. destruct (decide (slot s2 ip2 k = 0)) as [E|E].
    + destruct (st_fresh _ _ _ _ _ B k Hk E Hne) as [Hr Hf]. rewrite Ed, Esb in Hr. split; [done|].
      destruct (used s1 (slot s3 ip3 k)) eqn:Eu; [|done].
      rewrite (st_used _ _ _ _ _ A) in Hf; [done|lia|done].
    + rewrite (st_keep _ _ _ _ _ B k Hk E). by apply (st_fresh _ _ _ _ _ A).
  - intros x Hx Hu. apply (st_used _ _ _ _ _ B); [by rewrite Esb|by apply (st_used _ _ _ _ _ A)].
  - intros x Hx Hu Hs. rewrite (st_frame _ _ _ _ _ B).
    + by apply (st_frame _ _ _ _ _ A).
    + by rewrite Ed, Esb.
    + apply (st_used _ _ _ _ _ A); [lia|done].
    + intros k Hk. destruct (decide (slot s1 ip1 k = 0)) as [E|E].
      * destruct (decide (slot s2 ip2 k = 0)) as [->|E2]; [lia|].
        destruct (st_fresh _ _ _ _ _ A k Hk E E2) as [_ Hf]. congruence.
      * rewrite (st_keep _ _ _ _ _ A k Hk E). by apply Hs.
  - intros x Hx. rewrite (st_meta _ _ _ _ _ B) by (by rewrite Esb). by apply (st_meta _ _ _ _ _ A).
Qed.

(** ** Filling one slot

    [a] was free; in [s'] it is marked, it is the slot [k] of the file, and
    nothing else of the file has changed. *)
Record filled s (i : nat) (ip : inode) s' (ip' : inode) (k a : Z) : Prop := mkFilled {
  fl_free : datastart s <= a < sb_size (sb s) /\ used s a = false;
  fl_sb : sb s' = sb s /\ disksize s' = disksize s /\ devst s' = devst s;
  fl_icache : icache s' = <[i := ip']> (icache s);
  fl_ino : same_ino ip ip' /\ i_size ip' = i_size ip /\ length (i_addrs ip') = length (i_addrs ip);
  fl_zero : slot s ip k = 0;
  fl_slot : forall j, is_slot j -> slot s' ip' j = if j =? k then a else slot s ip j;
  fl_used : forall x, 0 <= x < sb_size (sb s) -> used s' x = (x =? a) || used s x;
  fl_new : rdb s' a = zero_block;
  fl_blk : forall x, datastart s <= x -> x <> a -> x <> addr_at ip NDIRECT -> rdb s' x = rdb s x;
  fl_meta : forall x, x < sb_bmapstart (sb s) -> rdb s' x = rdb s x
}.

Lemma filled_file_ok s i ip s' ip' k a :
  fs_ok s -> file_ok s ip -> is_slot k -> filled s i ip s' ip' k a -> file_ok s' ip'.
Proof.
  intros O F Hk L. destruct (fl_free _ _ _ _ _ _ _ L) as [Ha Hf].
  destruct (fl_sb _ _ _ _ _ _ _ L) as (Esb & _). destruct (fl_ino _ _ _ _ _ _ _ L) as ((Edv & _) & _ & El).
  pose proof (datastart_sb _ _ Esb) as Ed. pose proof (datastart_pos s O).
  pose proof (fl_slot _ _ _ _ _ _ _ L) as Hs. pose proof (fl_used _ _ _ _ _ _ _ L) as Hu.
  assert (Hno : forall j, is_slot j -> slot s ip j <> a).
  { intros j Hj E. destruct (fo_slot s ip F j Hj) as [_ Hu']; [lia|]. congruence. }
  constructor.
  - rewrite Edv. apply F.
  - rewrite El. apply F.
  - intros j Hj. rewrite (Hs j Hj), Ed, Esb. destruct (Z.eqb_spec j k) as [->|].
    + intros _. split; [done|]. by rewrite Hu, Z.eqb_refl by lia.
    + intros Hne. destruct (fo_slot s ip F j Hj Hne) as [Hr Hm]. split; [done|].
      rewrite Hu, Hm by lia. apply orb_true_r.
  - intros j l Hj Hl. rewrite (Hs j Hj), (Hs l Hl).
    destruct (Z.eqb_spec j k) as [->|], (Z.eqb_spec l k) as [->|]; intros Hne E; try done.
    + by destruct (Hno l Hl).
    + by destruct (Hno j Hj).
    + by apply (fo_inj s ip F).
Qed.

Lemma filled_fstep s i ip s' ip' k a :
  fs_ok s -> is_slot k -> filled s i ip s' ip' k a -> fstep s i ip s' ip'.
Proof.
  intros O Hk L. destruct (fl_free _ _ _ _ _ _ _ L) as [Ha Hf]. pose proof (datastart_pos s O).
  pose proof (fl_slot _ _ _ _ _ _ _ L) as Hs. pose proof (fl_zero _ _ _ _ _ _ _ L) as Hz.
  constructor; try apply L.
  - intros j Hj Hne. rewrite (Hs j Hj). destruct (Z.eqb_spec j k) as [->|]; done.
  - intros j Hj Hz'. rewrite (Hs j Hj). destruct (Z.eqb_spec j k) as [->|]; done.
  - intros x Hx Hu. rewrite (fl_used _ _ _ _ _ _ _ L), Hu by done. apply orb_true_r.
  - intros x Hx Hu Hns. apply (fl_blk _ _ _ _ _ _ _ L); [lia| |].
    + intros ->. congruence.
    + intros ->. by apply (Hns IND).
Qed.

Lemma filled_nfree s i ip s' ip' k a : fs_ok s -> filled s i ip s' ip' k a -> nfree s = S (nfree s').
Proof.
  intros O L. destruct (fl_free _ _ _ _ _ _ _ L) as [Ha Hf]. pose proof (datastart_pos s O).
  destruct (fl_sb _ _ _ _ _ _ _ L) as (Esb & _). unfold nfree. rewrite Esb.
  pose proof (fl_used _ _ _ _ _ _ _ L) as Hu.
  apply (count_drop _ _ _ a); [apply NoDup_seqZ|apply elem_of_seqZ; lia|by rewrite Hf| |].
  - rewrite Hu, Z.eqb_refl by lia. done.
  - intros x Hx%elem_of_seqZ Hne. rewrite Hu by lia. by destruct (Z.eqb_spec x a).
Qed.

Lemma filled_missing s i ip s' ip' k a K :
  fs_ok s -> filled s i ip s' ip' k a -> NoDup K -> k ∈ K -> (forall j, j ∈ K -> is_slot j) ->
  missing s ip K = S (missing s' ip' K).
Proof.
  intros O L Hnd Hk HK. destruct (fl_free _ _ _ _ _ _ _ L) as [Ha _]. pose proof (datastart_pos s O).
  pose proof (fl_slot _ _ _ _ _ _ _ L) as Hs.
  apply (count_drop _ _ _ k); [done|done|by rewrite (fl_zero _ _ _ _ _ _ _ L)| |].
  - rewrite (Hs k), Z.eqb_refl by auto. apply Z.eqb_neq. lia.
  - intros x Hx Hne. rewrite (Hs x) by auto. by destruct (Z.eqb_spec x k).
Qed.

Lemma wp_balloc (Q : Z -> fsst D -> Prop) s :
  fs_ok s -> (0 < nfree s)%nat ->
  (forall a, datastart s <= a < sb_size (sb s) -> used s a = false -> Q a (balloced s a)) ->
  wp (balloc ROOTDEV) Q s.
Proof.
  intros O Hn HQ. destruct (balloc_spec s O) as [(a & Hff & E)|[Hall _]].
  - eapply wp_intro; [exact E|]. apply HQ; [by apply first_free_data|apply Hff].
  - exfalso. unfold nfree in Hn. rewrite count_none in Hn; [lia|].
    intros x Hx%elem_of_seqZ. rewrite Hall by lia. done.
Qed.

Lemma wp_inode_at (Q : inode -> fsst D -> Prop) s i ip :
  icache s !! i = Some ip -> Q ip s -> wp (inode_at i) Q s.
Proof. intros Hi HQ. unfold inode_at. wp_steps. rewrite Hi. by wp_steps. Qed.

Lemma wp_upd_inode (Q : unit -> fsst D -> Prop) s i ip f :
  icache s !! i = Some ip -> Q tt (set_ino i (f ip) s) -> wp (upd_inode i f) Q s.
Proof. intros Hi HQ. unfold upd_inode. wp_steps. eapply wp_inode_at; [done|]. by wp_steps. Qed.

Lemma indirect_fresh s ip a :
  fs_ok s -> file_ok s ip -> used s a = false -> addr_at ip NDIRECT <> 0 -> addr_at ip NDIRECT <> a /\
  datastart s <= addr_at ip NDIRECT < sb_size (sb s).
Proof.
  intros O F Hf Hne. destruct (fo_slot s ip F IND ltac:(done) Hne) as [Hr Hu].
  change (slot s ip IND) with (addr_at ip NDIRECT) in *. split; [congruence|done].
Qed.

(** Slots look at the addresses and at the indirect block. *)
Lemma slot_congr s s' ip ip' j :
  is_slot j -> (j < NDIRECT -> addr_at ip' j = addr_at ip j) -> addr_at ip' NDIRECT = addr_at ip NDIRECT ->
  (addr_at ip NDIRECT <> 0 -> rdb s' (addr_at ip NDIRECT) = rdb s (addr_at ip NDIRECT)) ->
  slot s' ip' j = slot s ip j.
Proof.
  intros Hj Hd Hi Hr. unfold slot. rewrite Hi.
  destruct (Z.ltb_spec j NDIRECT); [auto|]. destruct (Z.ltb_spec j MAXFILE); [|done].
  destruct (Z.eqb_spec (addr_at ip NDIRECT) 0); [done|]. by rewrite Hr.
Qed.

(** The part of [filled] that the allocation alone gives. *)
Lemma fill_addr s i ip k kk a :
  fs_ok s -> file_ok s ip -> icache s !! i = Some ip -> datastart s <= a < sb_size (sb s) ->
  used s a = false -> (k = kk /\ 0 <= k < NDIRECT) \/ (k = IND /\ kk = NDIRECT) -> addr_at ip kk = 0 ->
  filled s i ip (set_ino i (set_addr kk a ip) (balloced s a)) (set_addr kk a ip) k a.
Proof.
  intros O F Hi Ha Hf Hk Hz. pose proof (datastart_pos s O) as Hdp. pose proof (datastart_bmap s O) as Hbm.
  set (s' := set_ino i (set_addr kk a ip) (balloced s a)).
  assert (Hlen : Z.of_nat (length (i_addrs ip)) = 13) by (by rewrite (fo_len s ip F)).
  assert (Hkk : 0 <= kk <= NDIRECT) by (unfold NDIRECT in *; lia).
  assert (Hkl : 0 <= kk < Z.of_nat (length (i_addrs ip))) by (unfold NDIRECT in *; lia).
  assert (Hrd : forall x, datastart s <= x -> rdb s' x = if x =? a then zero_block else rdb s x)
    by (intros x Hx; by apply (rdb_balloced s a x)).
  constructor; try done.
  - simpl. by rewrite length_insert.
  - unfold slot. destruct Hk as [[-> Hk]|[-> ->]]; [|done].
    by destruct (Z.ltb_spec kk NDIRECT); [|lia].
  - intros j Hj. destruct Hk as [[-> Hk]|[-> ->]].
    + destruct (Z.eqb_spec j kk) as [->|Hne].
      { unfold slot. destruct (Z.ltb_spec kk NDIRECT); [|lia]. by apply addr_at_set_eq. }
      apply slot_congr; [done|intros; apply addr_at_set_ne; unfold is_slot in *; lia|
        apply addr_at_set_ne; unfold NDIRECT in *; lia|].
      intros Hn. destruct (indirect_fresh s ip a O F Hf Hn) as [Hna Hr].
      rewrite Hrd by lia. by destruct (Z.eqb_spec (addr_at ip NDIRECT) a).
    + unfold slot. rewrite addr_at_set_eq, Hz by done. change MAXFILE with 140 in *. unfold is_slot, IND, NDIRECT in *.
      destruct (Z.ltb_spec j 12); [rewrite addr_at_set_ne by lia; destruct (Z.eqb_spec j 140); [lia|done]|].
      destruct (Z.eqb_spec j 140) as [->|]; [done|].
      destruct (Z.ltb_spec j 140); [|lia].
      destruct (Z.eqb_spec a 0); [lia|]. rewrite Hrd, Z.eqb_refl by lia. apply get32_zero.
  - intros x Hx. by apply (used_balloced s a x).
  - rewrite Hrd, Z.eqb_refl by lia. done.
  - intros x Hx Hne _. rewrite Hrd by done. by destruct (Z.eqb_spec x a).
  - intros x Hx. unfold s'. change (rdb (balloced s a) x = rdb s x). unfold balloced.
    rewrite rdb_put_ne by lia. unfold marked. destruct (BBLOCK_val s a O) as (E & _); [lia|].
    rewrite rdb_put_ne; [done|]. assert (0 <= a / BPB) by (apply Z.div_pos; [lia|done]). lia.
Qed.

(** Filling an entry of the indirect block. *)
Lemma fill_entry s i ip bn a :
  fs_ok s -> file_ok s ip -> icache s !! i = Some ip -> datastart s <= a < sb_size (sb s) ->
  used s a = false -> NDIRECT <= bn < MAXFILE -> addr_at ip NDIRECT <> 0 -> slot s ip bn = 0 ->
  filled s i ip (put_blk (addr_at ip NDIRECT)
    (put32 (rdb s (addr_at ip NDIRECT)) (4 * (bn - NDIRECT)) a) (balloced s a)) ip bn a.
Proof.
  intros O F Hi Ha Hf Hbn Hn Hz. pose proof (datastart_pos s O) as Hdp. pose proof (datastart_bmap s O) as Hbm.
  pose proof (ok_disk s O) as Hdisk. pose proof (ok_size s O) as Hsize.
  destruct (indirect_fresh s ip a O F Hf Hn) as [Hna Hr].
  set (ind := addr_at ip NDIRECT) in *. set (d' := put32 _ _ _).
  pose proof (proj1 (rdb_ok s ind O)) as Hlen.
  assert (Hlenz : Z.of_nat (length (rdb s ind)) = 512) by (by rewrite Hlen).
  assert (Hrd : forall x, datastart s <= x -> x <> ind ->
    rdb (put_blk ind d' (balloced s a)) x = if x =? a then zero_block else rdb s x)
    by (intros x Hx Hne; rewrite rdb_put_ne by done; by apply rdb_balloced).
  constructor; try done.
  - simpl. by rewrite list_insert_id.
  - intros j Hj. unfold slot. fold ind. rewrite rdb_put_eq. change MAXFILE with 140 in *. unfold is_slot, IND, NDIRECT in *.
    destruct (Z.ltb_spec j 12); [destruct (Z.eqb_spec j bn); [lia|done]|].
    destruct (Z.ltb_spec j 140); [|destruct (Z.eqb_spec j bn); [lia|done]].
    destruct (Z.eqb_spec ind 0); [done|]. unfold d'. destruct (Z.eqb_spec j bn) as [->|].
    + rewrite get32_put32_eq by lia. apply Z.mod_small. lia.
    + rewrite get32_put32_ne by lia. done.
  - intros x Hx. rewrite used_put_data; [by apply used_balloced|by apply balloced_ok|exact (proj1 Hr)|done].
  - rewrite Hrd, Z.eqb_refl by (done || lia). done.
  - intros x Hx Hne Hni. rewrite Hrd by done. by destruct (Z.eqb_spec x a).
  - intros x Hx. rewrite rdb_put_ne by lia. unfold balloced. rewrite rdb_put_ne by lia. unfold marked.
    destruct (BBLOCK_val s a O) as (E & _); [lia|].
    rewrite rdb_put_ne; [done|]. assert (0 <= a / BPB) by (apply Z.div_pos; [lia|done]). lia.
Qed.

Lemma filled_finv s i ip s' ip' k a :
  finv s i ip -> is_slot k -> fs_ok s' -> filled s i ip s' ip' k a -> finv s' i ip'.
Proof.
  intros (O & Hi & F) Hk O' L. split; [done|]. split.
  - rewrite (fl_icache _ _ _ _ _ _ _ L). apply list_lookup_insert_eq. by eapply lookup_lt_Some.
  - exact (filled_file_ok _ _ _ _ _ _ _ O F Hk L).
Qed.

(** The content of the blocks a file already has. *)
Lemma filled_content s i ip s' ip' k a j :
  fs_ok s -> file_ok s ip -> filled s i ip s' ip' k a -> 0 <= j < MAXFILE -> slot s ip j <> 0 ->
  rdb s' (slot s ip j) = rdb s (slot s ip j).
Proof.
  intros O F L Hj Hne. destruct (fl_free _ _ _ _ _ _ _ L) as [Ha Hf].
  assert (Hjs : is_slot j) by (unfold is_slot, IND; change MAXFILE with 140 in *; lia).
  destruct (fo_slot s ip F j Hjs Hne) as [Hr Hu].
  apply (fl_blk _ _ _ _ _ _ _ L); [lia|congruence|]. intros E.
  assert (j = IND) by (apply (fo_inj s ip F); done).
  unfold IND in *. change MAXFILE with 140 in *. lia.
Qed.

(** ** bmap *)
Record mapped s (i : nat) (ip : inode) s' (ip' : inode) (bn : Z) : Prop := mkMapped {
  mp_inv : finv s' i ip';
  mp_step : fstep s i ip s' ip';
  mp_size : i_size ip' = i_size ip;
  mp_have : slot s' ip' bn <> 0;
  mp_other : forall j, 0 <= j < MAXFILE -> j <> bn -> slot s' ip' j = slot s ip j;
  mp_content : forall j, 0 <= j < MAXFILE -> slot s ip j <> 0 -> rdb s' (slot s ip j) = rdb s (slot s ip j);
  mp_new : slot s ip bn = 0 -> rdb s' (slot s' ip' bn) = zero_block;
  mp_old : slot s ip bn <> 0 -> s' = s /\ ip' = ip
}.

Lemma mapped_refl s i ip bn : finv s i ip -> slot s ip bn <> 0 -> mapped s i ip s ip bn.
Proof. intros F Hne. constructor; try done. apply fstep_refl, F. Qed.

Lemma mapped_fill s i ip s' ip' bn a :
  finv s i ip -> fs_ok s' -> 0 <= bn < MAXFILE -> filled s i ip s' ip' bn a -> mapped s i ip s' ip' bn.
Proof.
  intros F O' Hbn L. pose proof F as (O & Hi & Fi). destruct (fl_free _ _ _ _ _ _ _ L) as [Ha Hf].
  assert (Hs : forall j, 0 <= j < MAXFILE -> is_slot j)
    by (intros j Hj; unfold is_slot, IND; change MAXFILE with 140 in *; lia).
  pose proof (datastart_pos s O). assert (Es : slot s' ip' bn = a)
    by (by rewrite (fl_slot _ _ _ _ _ _ _ L), Z.eqb_refl by auto).
  constructor.
  - eapply filled_finv; eauto.
  - eapply filled_fstep; eauto.
  - apply L.
  - lia.
  - intros j Hj Hne. rewrite (fl_slot _ _ _ _ _ _ _ L) by auto. by destruct (Z.eqb_spec j bn).
  - intros j Hj Hne. exact (filled_content _ _ _ _ _ _ _ j O Fi L Hj Hne).
  - intros _. rewrite Es. apply L.
  - by rewrite (fl_zero _ _ _ _ _ _ _ L).
Qed.

(** Allocating the indirect block first. *)
Lemma mapped_after_ind s i ip s1 ip1 s2 ip2 bn a :
  finv s i ip -> fs_ok s1 -> NDIRECT <= bn < MAXFILE -> filled s i ip s1 ip1 IND a ->
  mapped s1 i ip1 s2 ip2 bn -> slot s ip bn = 0 -> mapped s i ip s2 ip2 bn.
Proof.
  intros F O1 Hbn L P Hz. pose proof F as (O & Hi & Fi).
  assert (Hs1 : forall j, 0 <= j < MAXFILE -> slot s1 ip1 j = slot s ip j).
  { intros j Hj. rewrite (fl_slot _ _ _ _ _ _ _ L).
    - destruct (Z.eqb_spec j IND); [|done]. unfold IND in *. change MAXFILE with 140 in *. lia.
    - unfold is_slot, IND. change MAXFILE with 140 in *. lia. }
  assert (Hbn0 : 0 <= bn < MAXFILE) by (unfold NDIRECT in *; lia).
  constructor; [exact (mp_inv _ _ _ _ _ _ P)| | |exact (mp_have _ _ _ _ _ _ P)| | | |].
  - eapply fstep_trans; [done| |apply P]. exact (filled_fstep _ _ _ _ _ IND _ O ltac:(done) L).
  - pose proof (mp_size _ _ _ _ _ _ P). destruct (fl_ino _ _ _ _ _ _ _ L) as (_ & ? & _). congruence.
  - intros j Hj Hne. rewrite (mp_other _ _ _ _ _ _ P) by done. auto.
  - intros j Hj Hne. rewrite <- Hs1 in Hne |- * by done. rewrite (mp_content _ _ _ _ _ _ P) by done.
    rewrite Hs1 in Hne |- * by done. exact (filled_content _ _ _ _ _ _ _ j O Fi L Hj Hne).
  - intros _. apply (mp_new _ _ _ _ _ _ P). by rewrite Hs1.
  - done.
Qed.

Lemma bmap_entry_wp (Q : Z -> fsst D -> Prop) s i ip bn :
  finv s i ip -> NDIRECT <= bn < MAXFILE -> addr_at ip NDIRECT <> 0 ->
  (slot s ip bn = 0 -> (0 < nfree s)%nat) ->
  (slot s ip bn <> 0 -> Q (slot s ip bn) s) ->
  (forall a s', slot s ip bn = 0 -> fs_ok s' -> filled s i ip s' ip bn a -> Q a s') ->
  wp (d <- bread (i_dev ip) (addr_at ip NDIRECT);;
      if get32 d (4 * (bn - NDIRECT)) =? 0 then
        a <- balloc (i_dev ip);;
        bupdate (i_dev ip) (addr_at ip NDIRECT) (put32 d (4 * (bn - NDIRECT)) a);;
        ret a
      else ret (get32 d (4 * (bn - NDIRECT)))) Q s.
Proof.
  intros (O & Hi & F) Hbn Hn Hfree HQ1 HQ2. rewrite (fo_dev s ip F).
  pose proof (ok_size s O). pose proof (datastart_pos s O). destruct (fo_slot s ip F IND ltac:(done) Hn) as [Hr Hu].
  change (slot s ip IND) with (addr_at ip NDIRECT) in Hr.
  assert (Es : slot s ip bn = get32 (rdb s (addr_at ip NDIRECT)) (4 * (bn - NDIRECT))).
  { unfold slot. destruct (Z.ltb_spec bn NDIRECT); [lia|]. destruct (Z.ltb_spec bn MAXFILE); [|lia].
    by destruct (Z.eqb_spec (addr_at ip NDIRECT) 0). }
  wp_steps. apply wp_bread; [lia|]. rewrite <- Es. destruct (Z.eqb_spec (slot s ip bn) 0) as [Hz|Hz].
  - wp_steps. apply wp_balloc; [done|by apply Hfree|]. intros a Ha Hf. wp_steps.
    apply wp_bupdate; [simpl; lia|]. wp_steps. apply HQ2; [done| |by apply fill_entry].
    apply fs_ok_put_data; [by apply balloced_ok|by apply put32_ok, rdb_ok|exact (proj1 Hr)].
  - wp_steps. by apply HQ1.
Qed.

Lemma missing_pos s ip K k : k ∈ K -> slot s ip k = 0 -> (0 < missing s ip K)%nat.
Proof. intros Hk Hz. unfold missing. eapply count_pos; [done|]. cbv beta. by rewrite Hz. Qed.

(** The second half of bmap, once there is an indirect block. *)
Lemma bmap_indirect_wp (Q : Z -> fsst D -> Prop) s i ip bn K N :
  finv s i ip -> NDIRECT <= bn < MAXFILE -> addr_at ip NDIRECT <> 0 ->
  NoDup K -> (forall j, j ∈ K -> is_slot j) -> bn ∈ K -> (missing s ip K + N <= nfree s)%nat ->
  (forall s' ip', mapped s i ip s' ip' bn -> (missing s' ip' K + N <= nfree s')%nat -> Q (slot s' ip' bn) s') ->
  wp (d <- bread (i_dev ip) (addr_at ip NDIRECT);;
      if get32 d (4 * (bn - NDIRECT)) =? 0 then
        a <- balloc (i_dev ip);;
        bupdate (i_dev ip) (addr_at ip NDIRECT) (put32 d (4 * (bn - NDIRECT)) a);;
        ret a
      else ret (get32 d (4 * (bn - NDIRECT)))) Q s.
Proof.
  intros Fv Hbn Hn Hnd HK HbK Hm HQ. pose proof Fv as (O & _ & _).
  assert (Hbn0 : 0 <= bn < MAXFILE) by (change NDIRECT with 12 in *; lia).
  apply (bmap_entry_wp Q s i ip bn); [done..| | |].
  - intros Hz. pose proof (missing_pos s ip K bn HbK Hz). lia.
  - intros Hz. apply HQ; [by apply mapped_refl|done].
  - intros a s' Hz O' L. pose proof (mapped_fill _ _ _ _ _ _ _ Fv O' Hbn0 L) as P.
    replace a with (slot s' ip bn) by (rewrite (fl_slot _ _ _ _ _ _ _ L), Z.eqb_refl by auto; done).
    apply HQ; [done|]. pose proof (filled_nfree _ _ _ _ _ _ _ O L).
    pose proof (filled_missing _ _ _ _ _ _ _ K O L Hnd HbK HK). lia.
Qed.

(** [K] holds the slots the caller still needs: as long as the disk has that many
    free blocks, and [N] more, bmap finds one when it needs one and leaves the [N]. *)
Lemma bmap_wp (Q : Z -> fsst D -> Prop) s i ip bn K N :
  finv s i ip -> 0 <= bn < MAXFILE -> NoDup K -> (forall j, j ∈ K -> is_slot j) -> bn ∈ K ->
  (NDIRECT <= bn -> IND ∈ K) -> (missing s ip K + N <= nfree s)%nat ->
  (forall s' ip', mapped s i ip s' ip' bn -> (missing s' ip' K + N <= nfree s')%nat -> Q (slot s' ip' bn) s') ->
  wp (bmap i bn) Q s.
Proof.
  intros Fv Hbn Hnd HK HbK HiK Hm HQ. pose proof Fv as (O & Hi & F). unfold bmap.
  wp_steps. eapply wp_inode_at; [done|]. destruct (Z.ltb_spec bn NDIRECT) as [Hlt|Hge].
  - assert (Es : slot s ip bn = addr_at ip bn) by (unfold slot; by destruct (Z.ltb_spec bn NDIRECT); [|lia]).
    rewrite <- Es. destruct (Z.eqb_spec (slot s ip bn) 0) as [Hz|Hz].
    + wp_steps. rewrite (fo_dev s ip F). pose proof (missing_pos s ip K bn HbK Hz).
      apply wp_balloc; [done|lia|]. intros a Ha Hf. wp_steps. eapply wp_upd_inode; [done|]. wp_steps.
      pose proof (fill_addr s i ip bn bn a O F Hi Ha Hf ltac:(left; lia) ltac:(congruence)) as L.
      assert (O' := fs_ok_set_ino _ i (set_addr bn a ip) (balloced_ok s a O Ha)).
      pose proof (mapped_fill _ _ _ _ _ _ _ Fv O' Hbn L) as P.
      replace a with (slot (set_ino i (set_addr bn a ip) (balloced s a)) (set_addr bn a ip) bn) at 1
        by (rewrite (fl_slot _ _ _ _ _ _ _ L), Z.eqb_refl by auto; done).
      apply HQ; [done|]. pose proof (filled_nfree _ _ _ _ _ _ _ O L).
      pose proof (filled_missing _ _ _ _ _ _ _ K O L Hnd HbK HK). lia.
    + wp_steps. apply HQ; [by apply mapped_refl|done].
  - assert (Hb2 : NDIRECT <= bn < MAXFILE) by lia.
    assert (Eb : (bn - NDIRECT <? NINDIRECT) = true)
      by (apply Z.ltb_lt; change NINDIRECT with 128; change NDIRECT with 12; change MAXFILE with 140 in Hbn; lia).
    rewrite Eb. wp_steps. destruct (Z.eqb_spec (addr_at ip NDIRECT) 0) as [Hz|Hz].
    + assert (Hzb : slot s ip bn = 0).
      { unfold slot. destruct (Z.ltb_spec bn NDIRECT); [lia|]. destruct (Z.ltb_spec bn MAXFILE); [|lia].
        by rewrite Hz. }
      wp_steps. rewrite (fo_dev s ip F) at 1.
      pose proof (missing_pos s ip K IND (HiK Hge) ltac:(exact Hz)).
      apply wp_balloc; [done|lia|]. intros a Ha Hf. wp_steps. eapply wp_upd_inode; [done|]. wp_steps.
      pose proof (fill_addr s i ip IND NDIRECT a O F Hi Ha Hf ltac:(by right) Hz) as L.
      assert (O' := fs_ok_set_ino _ i (set_addr NDIRECT a ip) (balloced_ok s a O Ha)).
      pose proof (filled_finv _ _ _ _ _ IND _ Fv ltac:(done) O' L) as Fv1.
      pose proof (filled_nfree _ _ _ _ _ _ _ O L) as Hn.
      pose proof (filled_missing _ _ _ _ _ _ _ K O L Hnd (HiK Hge) HK) as Hmi.
      set (s1 := set_ino i _ _) in *. set (ip1 := set_addr NDIRECT a ip) in *.
      assert (Ea : addr_at ip1 NDIRECT = a) by (apply addr_at_set_eq; rewrite (fo_len s ip F); done).
      rewrite <- Ea. change (i_dev ip) with (i_dev ip1).
      apply wp_bind_inv. apply (bmap_indirect_wp Q s1 i ip1 bn K N); [done|done|pose proof (datastart_pos s O); lia|done..|lia|].
      intros s' ip' P Hm'. apply HQ; [|done]. by eapply mapped_after_ind.
    + wp_steps. apply wp_bind_inv. apply (bmap_indirect_wp Q s i ip bn K N); done.
Qed.
End File.
