(* ===== verification/FsRw.v ===== *)
(** * Reading and writing a file (fs.c: readi, writei, iupdate)

    The content of a file as a function from offsets to bytes: readi returns a
    piece of it, writei replaces a piece of it and extends the file. *)

From stdpp Require Import base numbers list gmap strings.
From Stdlib Require Import ZArith Lia Bool.
From S2P Require Import Prelude Block Fs FsAlloc FsFile.

Local Open Scope Z_scope.
Local Open Scope kernel_scope.

Lemma gets_bytes_map d o m :
  0 <= o -> 0 <= m -> o + m <= Z.of_nat (length d) -> gets_bytes d o m = map (getb d) (seqZ o m).
Proof.
  intros Ho Hm Hl. apply list_eq. intros j. unfold gets_bytes.
  change (map (getb d) (seqZ o m)) with (getb d <$> seqZ o m). rewrite list_lookup_fmap.
  destruct (decide (Z.of_nat j < m)).
  - rewrite lookup_take_lt by lia. rewrite lookup_drop.
    rewrite (proj2 (lookup_seqZ o m j (o + Z.of_nat j))) by lia. simpl. unfold getb.
    replace (Z.to_nat (o + Z.of_nat j)) with (Z.to_nat o + j)%nat by lia.
    destruct (lookup_lt_is_Some_2 d (Z.to_nat o + j)) as [v ->]; [lia|done].
  - rewrite lookup_take_ge by lia. rewrite lookup_seqZ_ge by lia. done.
Qed.

Lemma seqZ_split o m n : 0 <= m <= n -> seqZ o n = seqZ o m ++ seqZ (o + m) (n - m).
Proof. intros H. rewrite <- seqZ_app by lia. f_equal. lia. Qed.

Lemma store_dinode_ok d o ip : block_ok d -> block_ok (store_dinode d o ip).
Proof.
  intros Hd. unfold store_dinode. apply puts_ok; [by apply put32_ok; do 4 apply put16_ok|].
  unfold addrs_bytes. apply Forall_concat, Forall_map. apply Forall_forall. intros a _. apply le32_ok.
Qed.

Section Rw.
Context {D : Type} `{DV : Devsw D}.
Implicit Types s : fsst D.

Definition fbyte s (ip : inode) (x : Z) : Z := getb (rdb s (slot s ip (x / BSIZE))) (x mod BSIZE).

(** Every block below the size of the file is there. *)
Definition nohole s (ip : inode) : Prop :=
  i_size ip <= MAXFILE * BSIZE /\ forall x, 0 <= x < i_size ip -> slot s ip (x / BSIZE) <> 0.

Lemma off_block x : 0 <= x < MAXFILE * BSIZE -> 0 <= x / BSIZE < MAXFILE /\ 0 <= x mod BSIZE < BSIZE.
Proof.
  intros Hx. split; [split; [apply Z.div_pos; [lia|done]|apply Z.div_lt_upper_bound; [done|lia]]|].
  by apply Z.mod_pos_bound.
Qed.

Lemma is_slot_bn bn : 0 <= bn < MAXFILE -> is_slot bn.
Proof. unfold is_slot, IND. change MAXFILE with 140. lia. Qed.

(** ** Reading *)
Lemma bmap_have s i ip bn :
  finv s i ip -> 0 <= bn < MAXFILE -> slot s ip bn <> 0 -> bmap i bn s = Ret (slot s ip bn) s.
Proof.
  intros Fv Hbn Hne. set (K := if bn <? NDIRECT then [bn] else [bn; IND]).
  assert (Hm : missing s ip K = O).
  { apply count_none. intros x Hx. apply Z.eqb_neq. unfold K in Hx.
    destruct (Z.ltb_spec bn NDIRECT); [by apply list_elem_of_singleton in Hx as ->|].
    apply elem_of_cons in Hx as [->|Hx]; [done|]. apply list_elem_of_singleton in Hx as ->.
    intros E. apply Hne. unfold slot. destruct (Z.ltb_spec bn NDIRECT); [lia|].
    destruct (Z.ltb_spec bn MAXFILE); [|lia]. change (slot s ip IND) with (addr_at ip NDIRECT) in E. by rewrite E. }
  assert (Hw : wp (bmap i bn) (fun a s' => a = slot s ip bn /\ s' = s) s).
  { apply (bmap_wp _ s i ip bn K 0); [done..| | | | |rewrite Hm; lia|].
    - unfold K. destruct (Z.ltb_spec bn NDIRECT); [apply NoDup_singleton|].
      apply NoDup_cons. split; [|apply NoDup_singleton]. rewrite list_elem_of_singleton.
      unfold IND. change MAXFILE with 140 in *. lia.
    - intros j. unfold K. pose proof (is_slot_bn bn Hbn).
      destruct (bn <? NDIRECT); rewrite !elem_of_cons, elem_of_nil; [by intros [->|[]]|].
      by intros [->|[->|[]]].
    - unfold K. destruct (bn <? NDIRECT); apply elem_of_cons; by left.
    - intros Hge. unfold K. destruct (Z.ltb_spec bn NDIRECT); [lia|].
      apply elem_of_cons. right. apply elem_of_cons. by left.
    - intros s' ip' P _. by destruct (mp_old _ _ _ _ _ _ P Hne) as [-> ->]. }
  destruct (wp_inv _ _ _ Hw) as (?&?&E&->&->). exact E.
Qed.

(** One turn of readi or writei stays within a block. *)
Lemma chunk_bound off r :
  0 <= off -> 0 < r -> let m := Z.min r (BSIZE - off mod BSIZE) in
  0 < m <= r /\ off mod BSIZE + m <= BSIZE /\
  forall x, off <= x < off + m -> x / BSIZE = off / BSIZE /\ x mod BSIZE = off mod BSIZE + (x - off).
Proof.
  intros Hoff Hr m. pose proof (Z.mod_pos_bound off BSIZE ltac:(done)).
  assert (Hm : 0 < m <= r /\ off mod BSIZE + m <= BSIZE) by (unfold m; lia).
  split; [lia|]. split; [lia|]. intros x Hx. pose proof (Z.div_mod off BSIZE ltac:(done)).
  split; symmetry; [apply (Z.div_unique _ _ _ (off mod BSIZE + (x - off)))|
    apply (Z.mod_unique _ _ (off / BSIZE))]; lia.
Qed.

Lemma readi_loop_spec k s i ip off tot n :
  finv s i ip -> nohole s ip -> 0 <= off -> tot <= n -> off + (n - tot) <= i_size ip -> n - tot < Z.of_nat k ->
  readi_loop k i off tot n s = Ret (map (fbyte s ip) (seqZ off (n - tot))) s.
Proof.
  intros Fv Hh. pose proof Fv as (O & Hi & F). revert off tot.
  induction k as [|k IH]; intros off tot Hoff Htot Hsz Hk; [lia|]. cbn [readi_loop].
  destruct (Z.ltb_spec tot n) as [Hlt|Hge].
  2: { replace (n - tot) with 0 by lia. done. }
  assert (Hi' : inode_at i s = Ret ip s) by (unfold inode_at; rewrite bind_get, Hi; done).
  rewrite (bind_run _ _ _ _ _ Hi'). destruct Hh as [Hmax Hh].
  destruct (off_block off ltac:(lia)) as [Hb Hm].
  pose proof (Hh off ltac:(lia)) as Hne.
  rewrite (bind_run _ _ _ _ _ (bmap_have s i ip _ Fv Hb Hne)).
  destruct (fo_slot s ip F _ (is_slot_bn _ Hb) Hne) as [Hr _]. pose proof (ok_size s O). pose proof (datastart_pos s O).
  rewrite (fo_dev s ip F), (bind_run _ _ _ _ _ (run_bread s (slot s ip (off / BSIZE)) ltac:(lia))).
  destruct (chunk_bound off (n - tot) Hoff ltac:(lia)) as (Hmr & Hmb & Hx).
  set (m := Z.min (n - tot) (BSIZE - off mod BSIZE)) in *. cbv zeta.
  rewrite (bind_run _ _ _ _ _ (IH (off + m) (tot + m) ltac:(lia) ltac:(lia) ltac:(lia) ltac:(lia))).
  unfold ret. f_equal. rewrite (seqZ_split off m (n - tot)), map_app by lia.
  replace (n - (tot + m)) with (n - tot - m) by lia. f_equal.
  rewrite gets_bytes_map by (rewrite ?(proj1 (rdb_ok s _ O)), ?Z2Nat.id by done; lia).
  apply list_eq. intros j. change (map ?f ?l) with (f <$> l). rewrite !list_lookup_fmap.
  destruct (decide (Z.of_nat j < m)); [|by rewrite !lookup_seqZ_ge by lia].
  rewrite (proj2 (lookup_seqZ (off mod BSIZE) m j _) ltac:(split; [reflexivity|lia])).
  rewrite (proj2 (lookup_seqZ off m j _) ltac:(split; [reflexivity|lia])).
  simpl. unfold fbyte. destruct (Hx (off + Z.of_nat j) ltac:(lia)) as [-> ->]. do 2 f_equal. lia.
Qed.

Lemma readi_spec s i ip off n :
  finv s i ip -> nohole s ip -> i_type ip <> T_DEV -> 0 <= off <= i_size ip -> 0 <= n -> off + n < 4294967296 ->
  readi i off n s = Ret (Some (map (fbyte s ip) (seqZ off (Z.min n (i_size ip - off))))) s.
Proof.
  intros Fv Hh Ht Hoff Hn Hn32. pose proof Fv as (O & Hi & F). unfold readi.
  assert (Hi' : inode_at i s = Ret ip s) by (unfold inode_at; rewrite bind_get, Hi; done).
  rewrite (bind_run _ _ _ _ _ Hi'). destruct (Z.eqb_spec (i_type ip) T_DEV); [done|].
  rewrite u32_small by lia.
  assert (E : (off >? i_size ip) || (off + n <? off) = false)
    by (apply orb_false_intro; [rewrite Z.gtb_ltb; apply Z.ltb_ge|apply Z.ltb_ge]; lia).
  rewrite E. assert (En : (if off + n >? i_size ip then i_size ip - off else n) = Z.min n (i_size ip - off))
    by (rewrite Z.gtb_ltb; destruct (Z.ltb_spec (i_size ip) (off + n)); lia).
  rewrite En. cbv zeta. set (r := Z.min n (i_size ip - off)).
  assert (Hr : 0 <= r <= i_size ip - off) by lia.
  rewrite (bind_run _ _ _ _ _ (readi_loop_spec (S (Z.to_nat r)) s i ip off 0 r Fv Hh ltac:(lia) ltac:(lia) ltac:(lia) ltac:(lia))).
  by rewrite Z.sub_0_r.
Qed.

(** ** Writing into a block the file has *)
Lemma slot_put s ip bn d k :
  fs_ok s -> file_ok s ip -> 0 <= bn < MAXFILE -> slot s ip bn <> 0 -> is_slot k ->
  slot (put_blk (slot s ip bn) d s) ip k = slot s ip k.
Proof.
  intros O F Hbn Hne Hk. apply slot_congr; [done..|]. intros Hi. apply rdb_put_ne.
  intros E. assert (IND = bn) by (by apply (fo_inj s ip F IND bn); [|apply is_slot_bn|..]).
  unfold IND in *. change MAXFILE with 140 in *. lia.
Qed.

Section Write.
  Context (s : fsst D) (i : nat) (ip : inode) (bn : Z) (d : block).
  Context (Fv : finv s i ip) (Hbn : 0 <= bn < MAXFILE) (Hne : slot s ip bn <> 0) (Hd : block_ok d).
Let s' := put_blk (slot s ip bn) d s.

Lemma put_slot_range : datastart s <= slot s ip bn < sb_size (sb s) /\ used s (slot s ip bn) = true.
Proof. destruct Fv as (O & _ & F). apply F; [by apply is_slot_bn|done]. Qed.

Lemma put_used x : 0 <= x < sb_size (sb s) -> used s' x = used s x.
Proof. intros Hx. apply used_put_data; [apply Fv|apply put_slot_range|done]. Qed.

Lemma put_slots k : is_slot k -> slot s' ip k = slot s ip k.
Proof. destruct Fv as (O & _ & F). by apply slot_put. Qed.

Lemma put_finv : finv s' i ip.
Proof.
  destruct Fv as (O & Hi & F). pose proof put_slot_range as [Hr _]. pose proof (datastart_pos s O).
  split; [apply fs_ok_put_data; [done|done|lia]|]. split; [done|]. constructor; try apply F.
  - intros k Hk. rewrite put_slots by done. intros Hk0. destruct (fo_slot s ip F k Hk Hk0) as [Hkr Hku].
    split; [done|]. by rewrite put_used by lia.
  - intros k j Hk Hj. rewrite !put_slots by done. by apply F.
Qed.

Lemma put_fstep : fstep s i ip s' ip.
Proof.
  destruct Fv as (O & Hi & F). pose proof put_slot_range as [Hr Hu]. pose proof (datastart_bmap s O).
  constructor; try done.
  - simpl. by rewrite list_insert_id.
  - intros k Hk _. by apply put_slots.
  - intros k Hk Hz. by rewrite put_slots, Hz by done.
  - intros x Hx Hux. by rewrite put_used.
  - intros x Hx Hux Hns. apply rdb_put_ne. intros ->. by apply (Hns bn); [apply is_slot_bn|].
  - intros x Hx. apply rdb_put_ne. lia.
Qed.

Lemma put_counts K : (forall j, j ∈ K -> is_slot j) -> missing s' ip K = missing s ip K /\ nfree s' = nfree s.
Proof.
  intros HK. split; apply count_ext.
  - intros x Hx. by rewrite put_slots by auto.
  - intros x Hx%elem_of_seqZ. rewrite put_used; [done|]. simpl in Hx. lia.
Qed.

Lemma put_fbyte x :
  0 <= x < MAXFILE * BSIZE -> x / BSIZE = bn \/ slot s ip (x / BSIZE) <> 0 ->
  fbyte s' ip x = if x / BSIZE =? bn then getb d (x mod BSIZE) else fbyte s ip x.
Proof.
  intros Hx Hor. destruct Fv as (O & _ & F). destruct (off_block x Hx) as [Hb _]. unfold fbyte.
  rewrite put_slots by (by apply is_slot_bn). destruct (Z.eqb_spec (x / BSIZE) bn) as [->|Hn].
  - unfold s'. by rewrite rdb_put_eq.
  - unfold s'. rewrite rdb_put_ne; [done|]. intros E. apply Hn.
    destruct Hor as [?|Hs]; [done|]. apply (fo_inj s ip F); [by apply is_slot_bn..|done|done].
Qed.
End Write.

(** ** The loop of writei *)
Record written s (i : nat) (ip : inode) s' (ip' : inode) (off : Z) (src : list Z) : Prop := mkWritten {
  wr_inv : finv s' i ip';
  wr_step : fstep s i ip s' ip';
  wr_size : i_size ip' = i_size ip;
  wr_have : forall x, off <= x < off + Z.of_nat (length src) -> slot s' ip' (x / BSIZE) <> 0;
  wr_src : forall j b, src !! j = Some b -> fbyte s' ip' (off + Z.of_nat j) = b;
  wr_rest : forall x, 0 <= x < MAXFILE * BSIZE -> ~ (off <= x < off + Z.of_nat (length src)) ->
            slot s ip (x / BSIZE) <> 0 -> fbyte s' ip' x = fbyte s ip x;
  wr_same : (forall x, off <= x < off + Z.of_nat (length src) -> slot s ip (x / BSIZE) <> 0) -> ip' = ip
}.

Lemma slot_kept s i ip s' ip' x :
  fstep s i ip s' ip' -> 0 <= x < MAXFILE * BSIZE -> slot s ip (x / BSIZE) <> 0 ->
  slot s' ip' (x / BSIZE) = slot s ip (x / BSIZE).
Proof. intros T Hx. destruct (off_block x Hx) as [Hb _]. by apply (st_keep _ _ _ _ _ T), is_slot_bn. Qed.

(** bmap keeps the content of a file. *)
Lemma mapped_fbyte s i ip s' ip' bn x :
  mapped s i ip s' ip' bn -> 0 <= x < MAXFILE * BSIZE -> slot s ip (x / BSIZE) <> 0 ->
  fbyte s' ip' x = fbyte s ip x.
Proof.
  intros P Hx Hs. destruct (off_block x Hx) as [Hb _]. unfold fbyte.
  rewrite (slot_kept _ _ _ _ _ _ (mp_step _ _ _ _ _ _ P)) by done.
  by rewrite (mp_content _ _ _ _ _ _ P) by done.
Qed.

(** One turn: the chunk [c] written at [off], inside one block. *)
Lemma write_chunk s i ip s1 ip1 off c :
  finv s i ip -> mapped s i ip s1 ip1 (off / BSIZE) -> 0 <= off ->
  off + Z.of_nat (length c) <= MAXFILE * BSIZE -> (0 < length c)%nat ->
  off mod BSIZE + Z.of_nat (length c) <= BSIZE -> Forall (fun b => 0 <= b < 256) c ->
  (forall x, off <= x < off + Z.of_nat (length c) ->
     x / BSIZE = off / BSIZE /\ x mod BSIZE = off mod BSIZE + (x - off)) ->
  let a := slot s1 ip1 (off / BSIZE) in
  written s i ip (put_blk a (puts (rdb s1 a) (off mod BSIZE) c) s1) ip1 off c.
Proof.
  intros Fv P Hoff Hmax Hlen Hfit Hc Hx. cbv zeta. destruct (off_block off ltac:(lia)) as [Hb Hm].
  pose proof (mp_inv _ _ _ _ _ _ P) as Fv1. pose proof (mp_have _ _ _ _ _ _ P) as Hne.
  pose proof Fv as (O & _ & F). pose proof Fv1 as (O1 & _ & F1).
  pose proof (rdb_ok s1 (slot s1 ip1 (off / BSIZE)) O1) as Hd. assert (Hdl : Z.of_nat (length (rdb s1 (slot s1 ip1 (off / BSIZE)))) = BSIZE) by (by rewrite (proj1 Hd)).
  set (d := puts (rdb s1 (slot s1 ip1 (off / BSIZE))) (off mod BSIZE) c). assert (Hdok : block_ok d) by (by apply puts_ok).
  assert (Hg : forall o, 0 <= o -> getb d o = if (off mod BSIZE <=? o) && (o <? off mod BSIZE + Z.of_nat (length c))
    then default 0 (c !! Z.to_nat (o - off mod BSIZE)) else getb (rdb s1 (slot s1 ip1 (off / BSIZE))) o) by (intros; apply getb_puts; lia).
  constructor.
  - by apply (put_finv s1 i ip1).
  - eapply fstep_trans; [done|apply P|]. by apply (put_fstep s1 i ip1).
  - exact (mp_size _ _ _ _ _ _ P).
  - intros x Hxr. destruct (Hx x Hxr) as [-> _]. rewrite (put_slots s1 i ip1) by (done || by apply is_slot_bn). done.
  - intros j b Hj. pose proof (lookup_lt_Some _ _ _ Hj). destruct (Hx (off + Z.of_nat j) ltac:(lia)) as [Ed Em].
    rewrite (put_fbyte s1 i ip1) by (done || lia || by left). rewrite Ed, Z.eqb_refl, Em, Hg by lia.
    rewrite (proj2 (Z.leb_le _ _)), (proj2 (Z.ltb_lt _ _)) by lia. cbn [andb].
    replace (Z.to_nat _) with j by lia. by rewrite Hj.
  - intros x Hxr Hout Hs. assert (Hs1 : slot s1 ip1 (x / BSIZE) <> 0)
      by (by rewrite (slot_kept _ _ _ _ _ _ (mp_step _ _ _ _ _ _ P))).
    rewrite (put_fbyte s1 i ip1) by (done || by right). rewrite <- (mapped_fbyte _ _ _ _ _ _ x P) by done.
    destruct (Z.eqb_spec (x / BSIZE) (off / BSIZE)) as [E|]; [|done].
    destruct (off_block x Hxr) as [_ Hxm]. rewrite Hg by lia. unfold fbyte. rewrite E.
    destruct (Z.leb_spec (off mod BSIZE) (x mod BSIZE)), (Z.ltb_spec (x mod BSIZE) (off mod BSIZE + Z.of_nat (length c)));
      cbn [andb]; try done. exfalso. apply Hout.
    pose proof (Z.div_mod x BSIZE ltac:(done)). pose proof (Z.div_mod off BSIZE ltac:(done)). rewrite E in *. lia.
  - intros Hs. apply (mp_old _ _ _ _ _ _ P), Hs. lia.
Qed.

Lemma written_refl s i ip off : finv s i ip -> written s i ip s ip off [].
Proof. intros Fv. constructor; try done; [apply fstep_refl, Fv|simpl; lia]. Qed.

Lemma written_app s i ip s1 ip1 s2 ip2 off c l :
  fs_ok s -> 0 <= off -> off + Z.of_nat (length (c ++ l)) <= MAXFILE * BSIZE ->
  written s i ip s1 ip1 off c -> written s1 i ip1 s2 ip2 (off + Z.of_nat (length c)) l ->
  written s i ip s2 ip2 off (c ++ l).
Proof.
  intros O Hoff Hmax A B. rewrite length_app in Hmax. constructor.
  - apply B.
  - eapply fstep_trans; [done|apply A|apply B].
  - pose proof (wr_size _ _ _ _ _ _ _ A). pose proof (wr_size _ _ _ _ _ _ _ B). congruence.
  - intros x. rewrite length_app. intros Hx. destruct (decide (x < off + Z.of_nat (length c))).
    + pose proof (wr_have _ _ _ _ _ _ _ A x ltac:(lia)) as Hs.
      by rewrite (slot_kept _ _ _ _ _ _ (wr_step _ _ _ _ _ _ _ B)) by (done || lia).
    + apply (wr_have _ _ _ _ _ _ _ B). lia.
  - intros j b [Hj|[Hge Hj]]%lookup_app_Some.
    + pose proof (lookup_lt_Some _ _ _ Hj). rewrite (wr_rest _ _ _ _ _ _ _ B);
        [exact (wr_src _ _ _ _ _ _ _ A j b Hj)|lia|lia|].
      apply (wr_have _ _ _ _ _ _ _ A). lia.
    + rewrite <- (wr_src _ _ _ _ _ _ _ B _ _ Hj). f_equal. lia.
  - intros x Hx. rewrite length_app. intros Hout Hs. rewrite (wr_rest _ _ _ _ _ _ _ B); [|done|lia|].
    + apply (wr_rest _ _ _ _ _ _ _ A); [done|lia|done].
    + by rewrite (slot_kept _ _ _ _ _ _ (wr_step _ _ _ _ _ _ _ A)).
  - rewrite length_app. intros Hs. pose proof (wr_same _ _ _ _ _ _ _ A ltac:(intros x Hx; apply Hs; lia)) as ->.
    apply (wr_same _ _ _ _ _ _ _ B). intros x Hx. pose proof (Hs x ltac:(lia)) as Hx0.
    by rewrite (slot_kept _ _ _ _ _ _ (wr_step _ _ _ _ _ _ _ A)) by (done || lia).
Qed.

(** [K] holds the slots of the bytes still to be written. *)
Definition covered (off n : Z) (K : list Z) : Prop :=
  NoDup K /\ (forall j, j ∈ K -> is_slot j) /\
  forall x, off <= x < off + n -> x / BSIZE ∈ K /\ (NDIRECT <= x / BSIZE -> IND ∈ K).

Lemma writei_loop_wp k (Q : Z -> fsst D -> Prop) s i ip src off tot n K N :
  finv s i ip -> Z.of_nat (length src) = n - tot -> 0 <= off -> off + (n - tot) <= MAXFILE * BSIZE ->
  n - tot < Z.of_nat k -> Forall (fun b => 0 <= b < 256) src -> covered off (n - tot) K ->
  (missing s ip K + N <= nfree s)%nat ->
  (forall s' ip', written s i ip s' ip' off src -> (N <= nfree s')%nat -> Q (off + (n - tot)) s') ->
  wp (writei_loop k i src off tot n) Q s.
Proof.
  revert s ip src off tot Q. induction k as [|k IH]; intros s ip src off tot Q Fv Hlen Hoff Hmax Hk Hsrc HK Hm HQ; [lia|].
  cbn [writei_loop]. destruct (Z.ltb_spec tot n) as [Hlt|Hge].
  2: { wp_steps. replace off with (off + (n - tot)) by lia. apply (HQ s ip); [|lia].
       destruct src; [|simpl in *; lia]. by apply written_refl. }
  pose proof Fv as (O & Hi & F). destruct HK as (Hnd & HKs & HKc).
  wp_steps. eapply wp_inode_at; [done|]. wp_steps. destruct (off_block off ltac:(lia)) as [Hb _].
  destruct (HKc off ltac:(lia)) as [Hin Hind].
  apply (bmap_wp _ s i ip (off / BSIZE) K N); [done..|]. intros s1 ip1 P Hm1.
  pose proof (mp_inv _ _ _ _ _ _ P) as (O1 & Hi1 & F1). pose proof (mp_have _ _ _ _ _ _ P) as Hne.
  destruct (fo_slot s1 ip1 F1 _ (is_slot_bn _ Hb) Hne) as [Hr _]. pose proof (ok_size s1 O1). pose proof (datastart_pos s1 O1).
  rewrite (fo_dev s ip F). wp_steps. apply wp_bread; [lia|].
  destruct (chunk_bound off (n - tot) Hoff ltac:(lia)) as (Hmr & Hmb & Hx).
  set (m := Z.min (n - tot) (BSIZE - off mod BSIZE)) in *. cbv zeta. wp_steps.
  apply wp_bupdate; [lia|]. set (c := take (Z.to_nat m) src).
  assert (Hc : Z.of_nat (length c) = m) by (unfold c; rewrite length_take; lia).
  assert (W : written s i ip (put_blk (slot s1 ip1 (off / BSIZE))
    (puts (rdb s1 (slot s1 ip1 (off / BSIZE))) (off mod BSIZE) c) s1) ip1 off c).
  { apply write_chunk; [done|done|done|lia|lia|lia|by apply Forall_take|]. by rewrite Hc. }
  destruct (put_counts s1 i ip1 (off / BSIZE) (puts (rdb s1 (slot s1 ip1 (off / BSIZE))) (off mod BSIZE) c)
    (mp_inv _ _ _ _ _ _ P) Hb Hne K HKs) as [Em En].
  apply (IH _ ip1); [apply W|rewrite length_drop; lia|lia|lia|lia|by apply Forall_drop| |lia|].
  - split; [done|]. split; [done|]. intros x Hxr. apply HKc. lia.
  - intros s2 ip2 W2 HN2. replace (off + m + (n - (tot + m))) with (off + (n - tot)) by lia. apply (HQ s2 ip2); [|done].
    rewrite <- (take_drop (Z.to_nat m) src). fold c.
    replace (off + m) with (off + Z.of_nat (length c)) in W2 by lia.
    eapply written_app; [done|done| |exact W|exact W2].
    rewrite length_app, length_drop. unfold c in *. lia.
Qed.

(** ** iupdate *)
Lemma IBLOCK_val s inum : fs_ok s -> 0 <= inum < sb_ninodes (sb s) ->
  IBLOCK inum (sb s) = inum / IPB + sb_inodestart (sb s) /\ 1 < IBLOCK inum (sb s) < sb_bmapstart (sb s).
Proof.
  intros O Hn. pose proof (ok_ino s O). pose proof (ok_inos s O). pose proof (ok_size s O). pose proof (ok_disk s O).
  pose proof (datastart_bmap s O). pose proof (ok_bmap s O). unfold IBLOCK.
  assert (0 <= inum / IPB <= sb_ninodes (sb s) / IPB)
    by (split; [apply Z.div_pos; [lia|done]|apply Z.div_le_mono; [done|lia]]).
  rewrite u32_small by lia. lia.
Qed.

(** The state after iupdate of [ip]. *)
Definition iupdated s (ip : inode) : fsst D :=
  put_blk (IBLOCK (i_inum ip) (sb s))
    (store_dinode (rdb s (IBLOCK (i_inum ip) (sb s))) (dinode_off (i_inum ip)) ip) s.

Lemma used_put_low s b d x : fs_ok s -> b < sb_bmapstart (sb s) -> 0 <= x < sb_size (sb s) ->
  used (put_blk b d s) x = used s x.
Proof.
  intros O Hb Hx. unfold used. cbn [sb put_blk set_logged set_blk].
  destruct (BBLOCK_val s x O Hx) as (E & _ & _). assert (0 <= x / BPB) by (apply Z.div_pos; [lia|done]).
  rewrite rdb_put_ne by lia. done.
Qed.

Lemma fs_ok_put_low s b d : fs_ok s -> block_ok d -> b < sb_bmapstart (sb s) -> fs_ok (put_blk b d s).
Proof.
  intros O Hd Hb. apply fs_ok_put; [done..|]. intros x Hx. pose proof (ok_bmap s O).
  rewrite used_put_low by (done || lia). by apply ok_meta.
Qed.

Lemma wp_iupdate (Q : unit -> fsst D -> Prop) s i ip :
  fs_ok s -> icache s !! i = Some ip -> i_dev ip = ROOTDEV -> 0 <= i_inum ip < sb_ninodes (sb s) ->
  Q tt (iupdated s ip) -> wp (iupdate i) Q s.
Proof.
  intros O Hi Hd Hn HQ. unfold iupdate. wp_steps. eapply wp_inode_at; [done|]. wp_steps. rewrite Hd.
  destruct (IBLOCK_val s _ O Hn) as [_ Hb]. pose proof (datastart_bmap s O). pose proof (ok_bmap s O).
  pose proof (ok_size s O). apply wp_bread; [lia|]. by apply wp_bupdate; [lia|].
Qed.

(** A change below the bitmap, or of fields other than the addresses, leaves the
    blocks of a file as they are. *)
Lemma finv_low s i ip ip' b d :
  finv s i ip -> b < sb_bmapstart (sb s) -> block_ok d -> i_addrs ip' = i_addrs ip -> i_dev ip' = i_dev ip ->
  finv (put_blk b d (set_ino i ip' s)) i ip' /\
  (forall k, is_slot k -> slot (put_blk b d (set_ino i ip' s)) ip' k = slot s ip k).
Proof.
  intros (O & Hi & F) Hb Hd Ha Hdv. pose proof (datastart_bmap s O). pose proof (datastart_pos s O).
  assert (O1 : fs_ok (set_ino i ip' s)) by (by apply fs_ok_set_ino).
  assert (Hs : forall k, is_slot k -> slot (put_blk b d (set_ino i ip' s)) ip' k = slot s ip k).
  { intros k Hk. apply slot_congr; [done|unfold addr_at; by rewrite Ha..|].
    intros Hn. destruct (fo_slot s ip F IND ltac:(done) Hn) as [Hr _].
    change (slot s ip IND) with (addr_at ip NDIRECT) in Hr. rewrite rdb_put_ne by lia. done. }
  split; [|done]. split; [by apply fs_ok_put_low|]. split.
  { simpl. apply list_lookup_insert_eq. by eapply lookup_lt_Some. }
  constructor; [by rewrite Hdv; apply F|by rewrite Ha; apply F| |].
  - intros k Hk. rewrite Hs by done. intros Hk0. destruct (fo_slot s ip F k Hk Hk0) as [Hkr Hku].
    split; [done|]. rewrite used_put_low by (done || (simpl; lia)). done.
  - intros k j Hk Hj. rewrite !Hs by done. by apply F.
Qed.

Lemma fbyte_low s i ip ip' b d x :
  finv s i ip -> b < sb_bmapstart (sb s) -> block_ok d -> i_addrs ip' = i_addrs ip -> i_dev ip' = i_dev ip ->
  0 <= x < MAXFILE * BSIZE -> slot s ip (x / BSIZE) <> 0 ->
  fbyte (put_blk b d (set_ino i ip' s)) ip' x = fbyte s ip x.
Proof.
  intros Fv Hb Hd Ha Hdv Hx Hne. destruct (finv_low s i ip ip' b d Fv Hb Hd Ha Hdv) as [_ Hs].
  destruct (off_block x Hx) as [Hbn _]. pose proof Fv as (O & _ & F). pose proof (datastart_bmap s O).
  destruct (fo_slot s ip F _ (is_slot_bn _ Hbn) Hne) as [Hr _].
  unfold fbyte. rewrite Hs by (by apply is_slot_bn). rewrite rdb_put_ne by lia. done.
Qed.

(** ** writei *)

(** The slots that the bytes from [off] to [off + n] fall into. *)
Definition wslots (off n : Z) : list Z :=
  let last := (off + n - 1) / BSIZE in
  seqZ (off / BSIZE) (last - off / BSIZE + 1) ++ (if NDIRECT <=? last then [IND] else []).

Lemma wslots_covered off n : 0 <= off -> off + n <= MAXFILE * BSIZE -> covered off n (wslots off n).
Proof.
  intros Hoff Hmax. unfold wslots. set (last := (off + n - 1) / BSIZE).
  assert (H0 : 0 <= off / BSIZE) by (by apply Z.div_pos).
  assert (Hl : last < MAXFILE) by (apply Z.div_lt_upper_bound; [done|lia]).
  assert (Hin : forall j, j ∈ seqZ (off / BSIZE) (last - off / BSIZE + 1) -> 0 <= j < MAXFILE)
    by (intros j Hj%elem_of_seqZ; lia).
  split; [|split].
  - apply NoDup_app. split; [apply NoDup_seqZ|]. destruct (NDIRECT <=? last); [|split; [|constructor]].
    + split; [|apply NoDup_singleton]. intros j Hj Hj2. apply list_elem_of_singleton in Hj2 as ->.
      apply Hin in Hj. unfold IND in Hj. change MAXFILE with 140 in Hj. lia.
    + intros j _ Hj. by apply elem_of_nil in Hj.
  - intros j [Hj|Hj]%elem_of_app; [by apply is_slot_bn, Hin|].
    destruct (NDIRECT <=? last); [by apply list_elem_of_singleton in Hj as ->|by apply elem_of_nil in Hj].
  - intros x Hx. assert (off / BSIZE <= x / BSIZE <= last)
      by (split; [apply Z.div_le_mono; [done|lia]|apply Z.div_le_mono; [done|lia]]).
    split; [apply elem_of_app; left; apply elem_of_seqZ; lia|]. intros Hge.
    apply elem_of_app. right. destruct (Z.leb_spec NDIRECT last); [by apply list_elem_of_singleton|lia].
Qed.

Record wrote s (i : nat) (ip : inode) s' (ip' : inode) (off : Z) (src : list Z) : Prop := mkWrote {
  wo_inv : finv s' i ip';
  wo_nohole : nohole s' ip';
  wo_size : i_size ip' = Z.max (i_size ip) (off + Z.of_nat (length src));
  wo_ino : same_ino ip ip';
  wo_sb : sb s' = sb s /\ disksize s' = disksize s /\ devst s' = devst s /\ icache s' = <[i := ip']> (icache s);
  wo_src : forall j b, src !! j = Some b -> fbyte s' ip' (off + Z.of_nat j) = b;
  wo_rest : forall x, 0 <= x < i_size ip -> ~ (off <= x < off + Z.of_nat (length src)) ->
            fbyte s' ip' x = fbyte s ip x;
  wo_frame : forall x, datastart s <= x < sb_size (sb s) -> used s x = true ->
             (forall k, is_slot k -> slot s ip k <> x) -> rdb s' x = rdb s x;
  wo_used : forall x, 0 <= x < sb_size (sb s) -> used s x = true -> used s' x = true;
  wo_meta : forall x, x < sb_bmapstart (sb s) -> x <> IBLOCK (i_inum ip) (sb s) -> rdb s' x = rdb s x;
  wo_disk : rdb s' (IBLOCK (i_inum ip) (sb s)) =
            if i_size ip <? off + Z.of_nat (length src)
            then store_dinode (rdb s (IBLOCK (i_inum ip) (sb s))) (dinode_off (i_inum ip)) ip'
            else rdb s (IBLOCK (i_inum ip) (sb s));
  wo_keep : forall k, is_slot k -> slot s ip k <> 0 -> slot s' ip' k = slot s ip k;
  wo_fresh : forall k, is_slot k -> slot s ip k = 0 -> slot s' ip' k <> 0 ->
             datastart s <= slot s' ip' k < sb_size (sb s) /\ used s (slot s' ip' k) = false;
  wo_same : off + Z.of_nat (length src) <= i_size ip -> ip' = ip
}.

(** No growth: the loop has done all the work. *)
Lemma wrote_within s i ip s' ip' off src :
  finv s i ip -> nohole s ip -> 0 <= i_inum ip < sb_ninodes (sb s) -> 0 <= off ->
  off + Z.of_nat (length src) <= i_size ip -> written s i ip s' ip' off src -> wrote s i ip s' ip' off src.
Proof.
  intros (O & Hi & F) [Hmax Hh] Hn Hoff Hle W. pose proof (wr_step _ _ _ _ _ _ _ W) as T.
  pose proof (wr_size _ _ _ _ _ _ _ W) as Es. destruct (IBLOCK_val s _ O Hn) as [_ Hb].
  destruct (st_sb _ _ _ _ _ T) as (?&?&?).
  constructor; [exact (wr_inv _ _ _ _ _ _ _ W)| | |exact (st_ino _ _ _ _ _ T)| |
    exact (wr_src _ _ _ _ _ _ _ W)| |exact (st_frame _ _ _ _ _ T)|exact (st_used _ _ _ _ _ T)| | |
    exact (st_keep _ _ _ _ _ T)|exact (st_fresh _ _ _ _ _ T)|].
  - split; [lia|]. intros x Hx. rewrite Es in Hx. pose proof (Hh x Hx).
    by rewrite (slot_kept _ _ _ _ _ _ T) by (done || lia).
  - lia.
  - split_and!; try done. apply T.
  - intros x Hx Hout. apply (wr_rest _ _ _ _ _ _ _ W); [lia|done|by apply Hh].
  - intros x Hx _. by apply (st_meta _ _ _ _ _ T).
  - destruct (Z.ltb_spec (i_size ip) (off + Z.of_nat (length src))); [lia|].
    apply (st_meta _ _ _ _ _ T). lia.
  - intros _. apply (wr_same _ _ _ _ _ _ _ W). intros x Hx. apply Hh. lia.
Qed.

(** Growth: writei sets the size and updates the inode on the disk. *)
Lemma wrote_grown s i ip s1 ip1 off src :
  finv s i ip -> nohole s ip -> 0 <= i_inum ip < sb_ninodes (sb s) -> 0 <= off <= i_size ip ->
  i_size ip < off + Z.of_nat (length src) <= MAXFILE * BSIZE -> written s i ip s1 ip1 off src ->
  let ip2 := set_size (off + Z.of_nat (length src)) ip1 in
  wrote s i ip (iupdated (set_ino i ip2 s1) ip2) ip2 off src.
Proof.
  intros Fv Hhole Hn Hoff Hgr W ip2. destruct Hhole as [Hmax Hh]. pose proof Fv as (O & Hi & F).
  pose proof (wr_step _ _ _ _ _ _ _ W) as T. pose proof (wr_inv _ _ _ _ _ _ _ W) as Fv1.
  pose proof Fv1 as (O1 & _ & _). destruct (st_sb _ _ _ _ _ T) as (Esb & Edk & Edv).
  pose proof (st_ino _ _ _ _ _ T) as Hino. destruct Hino as (Ed & En & Hino).
  destruct (IBLOCK_val s _ O Hn) as [_ Hb]. pose proof (datastart_bmap s O) as Hbm.
  set (ib := IBLOCK (i_inum ip) (sb s)) in *.
  assert (Eib : IBLOCK (i_inum ip2) (sb (set_ino i ip2 s1)) = ib) by (simpl; by rewrite En, Esb).
  assert (Eib1 : rdb s1 ib = rdb s ib) by (apply (st_meta _ _ _ _ _ T); lia).
  unfold iupdated. rewrite Eib. set (d := store_dinode _ _ _).
  assert (Hd : block_ok d) by (apply store_dinode_ok, rdb_ok; by apply fs_ok_set_ino).
  assert (Hib : ib < sb_bmapstart (sb s1)) by (rewrite Esb; lia).
  destruct (finv_low s1 i ip1 ip2 ib d Fv1 Hib Hd eq_refl eq_refl) as [Fv2 Hs2].
  assert (Hbyte : forall x, 0 <= x < MAXFILE * BSIZE -> slot s1 ip1 (x / BSIZE) <> 0 ->
    fbyte (put_blk ib d (set_ino i ip2 s1)) ip2 x = fbyte s1 ip1 x)
    by (intros; by apply fbyte_low).
  assert (Hslot : forall x, 0 <= x < off + Z.of_nat (length src) -> slot s1 ip1 (x / BSIZE) <> 0).
  { intros x Hx. destruct (decide (x < off)); [|apply (wr_have _ _ _ _ _ _ _ W); lia].
    pose proof (Hh x ltac:(lia)). by rewrite (slot_kept _ _ _ _ _ _ T) by (done || lia). }
  constructor; try done.
  - split; [simpl; lia|]. intros x Hx. simpl in Hx.
    rewrite Hs2 by (apply is_slot_bn, off_block; lia). apply Hslot. lia.
  - simpl. lia.
  - split_and!; try done. simpl. rewrite (st_icache _ _ _ _ _ T). apply list_insert_insert_eq.
  - intros j b Hj. pose proof (lookup_lt_Some _ _ _ Hj). rewrite Hbyte by (lia || apply Hslot; lia).
    by apply (wr_src _ _ _ _ _ _ _ W).
  - intros x Hx Hout. rewrite Hbyte by (lia || apply Hslot; lia).
    apply (wr_rest _ _ _ _ _ _ _ W); [lia|done|by apply Hh].
  - intros x Hx Hu Hns. rewrite rdb_put_ne by lia. by apply (st_frame _ _ _ _ _ T).
  - intros x Hx Hu. rewrite used_put_low by (simpl; rewrite ?Esb; done || (by apply fs_ok_set_ino) || lia).
    by apply (st_used _ _ _ _ _ T).
  - intros x Hx Hne. rewrite rdb_put_ne by done. by apply (st_meta _ _ _ _ _ T).
  - rewrite rdb_put_eq. destruct (Z.ltb_spec (i_size ip) (off + Z.of_nat (length src))); [|lia].
    unfold d. simpl. rewrite En. change (rdb (set_ino i ip2 s1) ib) with (rdb s1 ib). by rewrite Eib1.
  - intros k Hk Hne. rewrite Hs2 by done. by apply (st_keep _ _ _ _ _ T).
  - intros k Hk Hz. rewrite Hs2 by done. by apply (st_fresh _ _ _ _ _ T).
  - lia.
Qed.

Lemma nfree_iupdated s ip : fs_ok s -> 0 <= i_inum ip < sb_ninodes (sb s) -> nfree (iupdated s ip) = nfree s.
Proof.
  intros O Hn. destruct (IBLOCK_val s _ O Hn) as [_ Hb]. apply count_ext. intros x Hx%elem_of_seqZ. simpl in Hx.
  unfold iupdated. by rewrite used_put_low by (done || lia).
Qed.

Lemma writei_spare_wp (Q : option Z -> fsst D -> Prop) s i ip src off N :
  finv s i ip -> nohole s ip -> i_type ip <> T_DEV -> 0 <= i_inum ip < sb_ninodes (sb s) ->
  Forall (fun b => 0 <= b < 256) src -> 0 <= off <= i_size ip ->
  off + Z.of_nat (length src) <= MAXFILE * BSIZE ->
  (missing s ip (wslots off (Z.of_nat (length src))) + N <= nfree s)%nat ->
  (forall s' ip', wrote s i ip s' ip' off src -> (N <= nfree s')%nat -> Q (Some (Z.of_nat (length src))) s') ->
  wp (writei i src off) Q s.
Proof.
  intros Fv Hh Ht Hn Hsrc Hoff Hmax Hfree HQ. pose proof Fv as (O & Hi & F). set (n := Z.of_nat (length src)) in *.
  assert (Hmax32 : MAXFILE * BSIZE < 4294967296) by done.
  unfold writei. wp_steps. eapply wp_inode_at; [done|]. fold n. cbv zeta.
  destruct (Z.eqb_spec (i_type ip) T_DEV); [done|]. rewrite u32_small by lia.
  assert (E : (off >? i_size ip) || (off + n <? off) = false)
    by (apply orb_false_intro; [rewrite Z.gtb_ltb|]; apply Z.ltb_ge; lia).
  rewrite E. destruct (off + n >? MAXFILE * BSIZE) eqn:E2; b2p; [lia|]. wp_steps.
  apply (writei_loop_wp _ _ s i ip src off 0 n (wslots off n) N); rewrite ?Z.sub_0_r;
    [done|done|lia|lia|lia|done|apply wslots_covered; lia|done|].
  intros s1 ip1 W HN. pose proof (wr_inv _ _ _ _ _ _ _ W) as Fv1. pose proof Fv1 as (O1 & Hi1 & F1).
  wp_steps. eapply wp_inode_at; [done|]. rewrite (wr_size _ _ _ _ _ _ _ W).
  destruct ((n >? 0) && (off + n >? i_size ip)) eqn:E3; b2p.
  - wp_steps. eapply wp_upd_inode; [done|]. wp_steps.
    pose proof (wr_step _ _ _ _ _ _ _ W) as T. destruct (st_sb _ _ _ _ _ T) as (Esb & _).
    destruct (st_ino _ _ _ _ _ T) as (Ed & En & _).
    apply (wp_iupdate _ _ i (set_size (off + n) ip1)); [by apply fs_ok_set_ino| | | |].
    + simpl. apply list_lookup_insert_eq. by eapply lookup_lt_Some.
    + apply F1.
    + simpl. by rewrite En, Esb.
    + wp_steps. eapply HQ; [apply (wrote_grown s i ip s1 ip1 off src); done || lia|].
      by rewrite (nfree_iupdated (set_ino i (set_size (off + n) ip1) s1)) by (simpl; rewrite ?En, ?Esb; done || by apply fs_ok_set_ino).
  - wp_steps. eapply HQ; [|done]. apply wrote_within; [done|done|done|lia| |done]. fold n.
    apply andb_false_iff in E3 as [E3|E3]; b2p; lia.
Qed.

Lemma writei_wp (Q : option Z -> fsst D -> Prop) s i ip src off :
  finv s i ip -> nohole s ip -> i_type ip <> T_DEV -> 0 <= i_inum ip < sb_ninodes (sb s) ->
  Forall (fun b => 0 <= b < 256) src -> 0 <= off <= i_size ip ->
  off + Z.of_nat (length src) <= MAXFILE * BSIZE ->
  (missing s ip (wslots off (Z.of_nat (length src))) <= nfree s)%nat ->
  (forall s' ip', wrote s i ip s' ip' off src -> Q (Some (Z.of_nat (length src))) s') ->
  wp (writei i src off) Q s.
Proof.
  intros Fv Hh Ht Hn Hsrc Hoff Hmax Hfree HQ. apply (writei_spare_wp Q s i ip src off 0); [done..|lia|].
  intros s' ip' W _. by eapply HQ.
Qed.

Lemma writei_reject s i ip src off :
  icache s !! i = Some ip -> i_type ip <> T_DEV -> 0 <= off < 4294967296 ->
  Z.of_nat (length src) < 4294967296 ->
  i_size ip < off \/ MAXFILE * BSIZE < off + Z.of_nat (length src) -> writei i src off s = Ret None s.
Proof.
  intros Hi Ht Hoff Hn Hor. unfold writei.
  assert (Hi' : inode_at i s = Ret ip s) by (unfold inode_at; rewrite bind_get, Hi; done).
  rewrite (bind_run _ _ _ _ _ Hi'). cbv zeta. destruct (Z.eqb_spec (i_type ip) T_DEV) as [|_]; [done|].
  set (n := Z.of_nat (length src)) in *.
  destruct ((off >? i_size ip) || (u32 (off + n) <? off)) eqn:E; [done|]. b2p.
  destruct (u32 (off + n) >? MAXFILE * BSIZE) eqn:E2; [done|]. b2p. exfalso.
  destruct (decide (off + n < 4294967296)); [rewrite u32_small in * by lia; lia|].
  assert (u32 (off + n) = off + n - 4294967296).
  { unfold u32. symmetry. apply (Z.mod_unique _ _ 1); lia. }
  lia.
Qed.

(** C2.  writei of bytes at an offset of a file: it fails without touching the
    state exactly when the offset is beyond the end of the file or the write
    would exceed the largest file.  Otherwise, if the disk has a free block for
    each block the write adds, it writes all the bytes: readi at that offset then
    returns them, every other byte of the file is what it was, the size is the
    larger of the old size and the end of the write, the inode on the disk is
    updated when the file grew, the file is well formed and has no holes, and no
    block in use outside the file has changed. *)
Theorem writei_readi_correct s i ip src off
    (Fv : finv s i ip) (Hh : nohole s ip) (Ht : i_type ip <> T_DEV)
    (Hn : 0 <= i_inum ip < sb_ninodes (sb s)) (Hsrc : Forall (fun b => 0 <= b < 256) src)
    (Hoff : 0 <= off < 4294967296) (Hlen : Z.of_nat (length src) < 4294967296)
    (Hfree : (missing s ip (wslots off (Z.of_nat (length src))) <= nfree s)%nat) :
  if (i_size ip <? off) || (MAXFILE * BSIZE <? off + Z.of_nat (length src))
  then writei i src off s = Ret None s
  else wp (writei i src off) (fun r s' =>
    r = Some (Z.of_nat (length src)) /\
    exists ip', wrote s i ip s' ip' off src /\
      readi i off (Z.of_nat (length src)) s' = Ret (Some src) s') s.
Proof.
  destruct (Z.ltb_spec (i_size ip) off); [cbn [orb]; apply (writei_reject s i ip); try apply Fv; try done; by left|].
  destruct (Z.ltb_spec (MAXFILE * BSIZE) (off + Z.of_nat (length src))); cbn [orb];
    [apply (writei_reject s i ip); try apply Fv; try done; by right|].
  apply (writei_wp _ s i ip); try done; try lia. intros s' ip' W. split; [done|]. exists ip'. split; [done|].
  pose proof (wo_size _ _ _ _ _ _ _ W) as Es. destruct (wo_ino _ _ _ _ _ _ _ W) as (_&_&_&_&_&Et&_).
  rewrite (readi_spec s' i ip'); [|apply W|apply W|congruence|lia|lia|].
  2: { assert (MAXFILE * BSIZE < 4294967296) by done. lia. }
  rewrite Es, Z.min_l by lia. do 2 f_equal. apply list_eq. intros j.
  change (map ?f ?l) with (f <$> l). rewrite list_lookup_fmap.
  destruct (src !! j) as [b|] eqn:Ej.
  - pose proof (lookup_lt_Some _ _ _ Ej).
    rewrite (proj2 (lookup_seqZ off (Z.of_nat (length src)) j _) ltac:(split; [reflexivity|lia])). simpl.
    by rewrite (wo_src _ _ _ _ _ _ _ W j b Ej).
  - apply lookup_ge_None in Ej. rewrite lookup_seqZ_ge by lia. done.
Qed.
End Rw.

(** ** Witness: three bytes written to an empty file *)
#[local] Instance no_devs : Devsw unit := {| dev_read := fun _ => None; dev_write := fun _ => None |}.

Definition demo_ino : inode := mkInode 1 1 1 true true T_FILE 0 0 1 0 (replicate 13 0).
Definition demo_file : fsst unit := set_ino 0 demo_ino demo_fs.

Lemma addr_at_zeros ip k : i_addrs ip = replicate 13 0 -> addr_at ip k = 0.
Proof.
  intros E. unfold addr_at. rewrite E. destruct (replicate 13 0 !! _) eqn:El; [|done].
  by apply lookup_replicate in El as [-> _].
Qed.

Lemma empty_slot {D} (s : fsst D) ip k : i_addrs ip = replicate 13 0 -> slot s ip k = 0.
Proof.
  intros E. unfold slot. rewrite !addr_at_zeros by done. destruct (k <? NDIRECT), (k <? MAXFILE); done.
Qed.

Lemma demo_finv : finv demo_file 0 demo_ino.
Proof.
  split; [apply fs_ok_set_ino, demo_fs_ok|]. split; [done|].
  constructor; [done|done|intros k _ []; by apply empty_slot|intros k j _ _ []; by apply empty_slot].
Qed.

Lemma writei_readi_correct_witness :
  wp (writei 0 [104; 105; 10] 0) (fun r s' =>
    r = Some 3 /\ exists ip', i_size ip' = 3 /\ readi 0 0 3 s' = Ret (Some [104; 105; 10]) s') demo_file.
Proof.
  assert (Hh : nohole demo_file demo_ino) by (split; [done|simpl; lia]).
  assert (Hf : (missing demo_file demo_ino (wslots 0 3) <= nfree demo_file)%nat) by (vm_compute; lia).
  assert (Hn : 0 <= i_inum demo_ino < sb_ninodes (sb demo_file)) by (by vm_compute).
  assert (Hs : Forall (fun b => 0 <= b < 256) [104; 105; 10]) by (repeat constructor; lia).
  pose proof (writei_readi_correct demo_file 0 demo_ino [104; 105; 10] 0 demo_finv Hh ltac:(done) Hn Hs
    ltac:(lia) ltac:(done) Hf) as Hp.
  assert (Ec : (i_size demo_ino <? 0) || (MAXFILE * BSIZE <? 0 + Z.of_nat (length [104; 105; 10])) = false) by done.
  rewrite Ec in Hp. refine (wp_mono _ _ _ _ Hp _).
  intros r s' (-> & ip' & W & Hr). split; [done|]. exists ip'. split; [|exact Hr].
  by rewrite (wo_size _ _ _ _ _ _ _ W).
Defined.
