(* ===== verification/FsInode.v ===== *)
(** * Inodes (fs.c: iget, idup, ilock, iupdate, itrunc, iput)

    The inode cache holds at most one live entry per inode; an inode written by
    iupdate is what ilock reads back; and dropping the last reference to an
    inode without links frees its blocks and the inode itself. *)

From stdpp Require Import base numbers list gmap strings.
From Stdlib Require Import ZArith Lia Bool.
From S2P Require Import Prelude Block Fs FsAlloc FsFile FsRw.

Local Open Scope Z_scope.
Local Open Scope kernel_scope.

(** ** struct dinode: what is stored is what is loaded *)
Definition s16_ok (x : Z) : Prop := -32768 <= x < 32768.

Lemma s16_get16_put16 v : s16_ok v -> s16 (v mod 65536) = v.
Proof.
  intros Hv. unfold s16, s16_ok in *. rewrite Z.mod_mod by lia.
  destruct (decide (0 <= v)).
  - rewrite Z.mod_small by lia. destruct (Z.ltb_spec v 32768); lia.
  - assert (E : v mod 65536 = v + 65536) by (symmetry; apply (Z.mod_unique _ _ (-1)); lia).
    rewrite E. destruct (Z.ltb_spec (v + 65536) 32768); lia.
Qed.

(** An inode whose fields fit their C types. *)
Definition ino_ok (ip : inode) : Prop :=
  s16_ok (i_type ip) /\ s16_ok (i_major ip) /\ s16_ok (i_minor ip) /\ s16_ok (i_nlink ip) /\
  0 <= i_size ip < 4294967296 /\ length (i_addrs ip) = 13%nat /\
  Forall (fun a => 0 <= a < 4294967296) (i_addrs ip).

Lemma addrs_bytes_lookup l j r :
  (r < 4)%nat -> addrs_bytes l !! (4 * j + r)%nat = a ← l !! j; le32 a !! r.
Proof.
  intros Hr. unfold addrs_bytes. revert j. induction l as [|a l IH]; intros j; [done|].
  cbn [map concat]. destruct j as [|j].
  - rewrite lookup_app_l by (simpl; lia). done.
  - rewrite lookup_app_r by (simpl; lia). simpl length.
    replace (4 * S j + r - 4)%nat with (4 * j + r)%nat by lia. by rewrite IH.
Qed.

Lemma length_addrs_bytes l : length (addrs_bytes l) = (4 * length l)%nat.
Proof. unfold addrs_bytes. induction l as [|a l IH]; [done|]. cbn [map concat]. rewrite length_app, IH. simpl. lia. Qed.

Lemma get32_addrs d o l j a :
  0 <= o -> o + 4 * Z.of_nat (length l) <= Z.of_nat (length d) -> l !! j = Some a -> 0 <= a < 4294967296 ->
  get32 (puts d o (addrs_bytes l)) (o + 4 * Z.of_nat j) = a.
Proof.
  intros Ho Hl Hj Ha. pose proof (lookup_lt_Some _ _ _ Hj). pose proof (length_addrs_bytes l) as Hlb.
  assert (Hb : forall r, (r < 4)%nat -> getb (puts d o (addrs_bytes l)) (o + 4 * Z.of_nat j + Z.of_nat r) =
    default 0 (le32 a !! r)).
  { intros r Hr. rewrite getb_puts by lia.
    rewrite (proj2 (Z.leb_le _ _)), (proj2 (Z.ltb_lt _ _)) by lia. cbn [andb].
    replace (Z.to_nat _) with (4 * j + r)%nat by lia. by rewrite addrs_bytes_lookup, Hj by done. }
  unfold get32. pose proof (Hb 0%nat ltac:(lia)) as H0. pose proof (Hb 1%nat ltac:(lia)) as H1.
  pose proof (Hb 2%nat ltac:(lia)) as H2. pose proof (Hb 3%nat ltac:(lia)) as H3.
  change (Z.of_nat 0) with 0 in H0. change (Z.of_nat 1) with 1 in H1. change (Z.of_nat 2) with 2 in H2.
  change (Z.of_nat 3) with 3 in H3. rewrite Z.add_0_r in H0. rewrite H0, H1, H2, H3.
  change (default 0 (le32 a !! 0%nat)) with (a mod 256). change (default 0 (le32 a !! 1%nat)) with (a / 256 mod 256).
  change (default 0 (le32 a !! 2%nat)) with (a / 65536 mod 256).
  change (default 0 (le32 a !! 3%nat)) with (a / 16777216 mod 256). rewrite le32_sum. by apply Z.mod_small.
Qed.

Lemma get16_put16_ne d o v x :
  0 <= o -> o + 2 <= Z.of_nat (length d) -> 0 <= x -> x + 2 <= o \/ o + 2 <= x -> get16 (put16 d o v) x = get16 d x.
Proof. intros. apply get16_puts_ne; simpl; lia. Qed.

Lemma get16_put32_ne d o v x :
  0 <= o -> o + 4 <= Z.of_nat (length d) -> 0 <= x -> x + 2 <= o \/ o + 4 <= x -> get16 (put32 d o v) x = get16 d x.
Proof. intros. apply get16_puts_ne; simpl; lia. Qed.

Lemma get32_put16_ne d o v x :
  0 <= o -> o + 2 <= Z.of_nat (length d) -> 0 <= x -> x + 4 <= o \/ o + 2 <= x -> get32 (put16 d o v) x = get32 d x.
Proof. intros. apply get32_puts_ne; simpl; lia. Qed.

Lemma length_store d o ip : length (store_dinode d o ip) = length d.
Proof. unfold store_dinode, put16, put32. by rewrite !length_puts. Qed.

(** Step over one store of [store_dinode]. *)
Ltac fld Hd Hb lem :=
  rewrite lem by (unfold put32, put16; rewrite ?length_puts, ?Hb, ?Hd; simpl; lia).

(** The inode read back over the cache entry [jp]. *)
Definition with_fields (ip jp : inode) : inode :=
  mkInode (i_dev jp) (i_inum jp) (i_ref jp) (i_locked jp) true (i_type ip) (i_major ip) (i_minor ip)
          (i_nlink ip) (i_size ip) (i_addrs ip).

Lemma load_store_dinode d o ip jp :
  length d = Z.to_nat BSIZE -> 0 <= o -> o + sizeof_dinode <= BSIZE -> ino_ok ip ->
  load_dinode (store_dinode d o ip) o jp = with_fields ip jp.
Proof.
  intros Hd Ho Hmax (Ht & Hmj & Hmn & Hl & Hs & Hal & Ha). unfold sizeof_dinode, BSIZE in *.
  unfold load_dinode, with_fields, store_dinode. cbv zeta.
  pose proof (length_addrs_bytes (i_addrs ip)) as Hb. rewrite Hal in Hb.
  assert (Ha13 : map (fun j => get32 (puts (put32 (put16 (put16 (put16 (put16 d o (i_type ip)) (o + 2) (i_major ip))
     (o + 4) (i_minor ip)) (o + 6) (i_nlink ip)) (o + 8) (i_size ip)) (o + 12) (addrs_bytes (i_addrs ip)))
     (o + 12 + 4 * j)) (seqZ 0 13) = i_addrs ip).
  { apply list_eq. intros j. change (map ?f ?l) with (f <$> l). rewrite list_lookup_fmap.
    destruct (i_addrs ip !! j) as [a|] eqn:E.
    - pose proof (lookup_lt_Some _ _ _ E).
      rewrite (proj2 (lookup_seqZ 0 13 j _) ltac:(split; [reflexivity|lia])). simpl. f_equal.
      apply get32_addrs; [lia| |done|by apply (Forall_lookup_1 _ _ _ _ Ha E)].
      unfold put32, put16. rewrite !length_puts. lia.
    - apply lookup_ge_None in E. rewrite lookup_seqZ_ge by lia. done. }
  rewrite Ha13.
  f_equal.
  - fld Hd Hb get16_puts_ne; fld Hd Hb get16_put32_ne; fld Hd Hb get16_put16_ne; fld Hd Hb get16_put16_ne;
      fld Hd Hb get16_put16_ne; fld Hd Hb get16_put16_eq. by apply s16_get16_put16.
  - fld Hd Hb get16_puts_ne; fld Hd Hb get16_put32_ne; fld Hd Hb get16_put16_ne; fld Hd Hb get16_put16_ne;
      fld Hd Hb get16_put16_eq. by apply s16_get16_put16.
  - fld Hd Hb get16_puts_ne; fld Hd Hb get16_put32_ne; fld Hd Hb get16_put16_ne; fld Hd Hb get16_put16_eq.
    by apply s16_get16_put16.
  - fld Hd Hb get16_puts_ne; fld Hd Hb get16_put32_ne; fld Hd Hb get16_put16_eq. by apply s16_get16_put16.
  - fld Hd Hb get32_puts_ne; fld Hd Hb get32_put32_eq. by apply Z.mod_small.
Qed.

Lemma getb_puts_out d o l x :
  0 <= o -> o + Z.of_nat (length l) <= Z.of_nat (length d) -> 0 <= x ->
  x < o \/ o + Z.of_nat (length l) <= x -> getb (puts d o l) x = getb d x.
Proof.
  intros Ho Hl Hx Hout. rewrite getb_puts by done.
  destruct (Z.leb_spec o x), (Z.ltb_spec x (o + Z.of_nat (length l))); try done. lia.
Qed.

Lemma getb_store_out d o ip x :
  length d = Z.to_nat BSIZE -> 0 <= o -> o + sizeof_dinode <= BSIZE -> length (i_addrs ip) = 13%nat ->
  0 <= x -> x < o \/ o + sizeof_dinode <= x -> getb (store_dinode d o ip) x = getb d x.
Proof.
  intros Hd Ho Hmax Hal Hx Hout. unfold sizeof_dinode, BSIZE in *. unfold store_dinode. cbv zeta.
  pose proof (length_addrs_bytes (i_addrs ip)) as Hb. rewrite Hal in Hb.
  unfold put16, put32. by do 6 fld Hd Hb getb_puts_out.
Qed.

Lemma load_dinode_ext d d' o jp :
  (forall x, o <= x < o + sizeof_dinode -> getb d' x = getb d x) -> load_dinode d' o jp = load_dinode d o jp.
Proof.
  intros H. unfold sizeof_dinode in H.
  assert (H16 : forall x, o <= x < o + 63 -> get16 d' x = get16 d x)
    by (intros x Hx; unfold get16; by rewrite !H by lia).
  assert (H32 : forall x, o <= x < o + 61 -> get32 d' x = get32 d x)
    by (intros x Hx; unfold get32; by rewrite !H by lia).
  unfold load_dinode. f_equal; rewrite ?H16, ?H32 by lia; try done.
  apply map_ext_in. intros j Hj%list_elem_of_In%elem_of_seqZ. apply H32. lia.
Qed.

Lemma dinode_off_bound inum : 0 <= dinode_off inum /\ dinode_off inum + sizeof_dinode <= BSIZE.
Proof.
  unfold dinode_off. pose proof (Z.mod_pos_bound inum IPB ltac:(done)). change IPB with 8 in *.
  unfold sizeof_dinode, BSIZE. lia.
Qed.

Lemma dinode_off_disjoint n m :
  n / IPB = m / IPB -> n <> m -> dinode_off n + sizeof_dinode <= dinode_off m \/ dinode_off m + sizeof_dinode <= dinode_off n.
Proof.
  intros Hq Hne. assert (Hr : n mod IPB <> m mod IPB).
  { intros E. apply Hne. rewrite (Z.div_mod n IPB), (Z.div_mod m IPB) by done. by rewrite Hq, E. }
  unfold dinode_off, sizeof_dinode. lia.
Qed.

Section Inode.
Context {D : Type} `{DV : Devsw D}.
Implicit Types s : fsst D.

(** The inode [inum] as ilock would read it over the entry [jp]. *)
Definition disk_ino s (inum : Z) (jp : inode) : inode :=
  load_dinode (rdb s (IBLOCK inum (sb s))) (dinode_off inum) jp.

Lemma disk_ino_iupdated s ip jp inum :
  fs_ok s -> 0 <= i_inum ip < sb_ninodes (sb s) -> 0 <= inum < sb_ninodes (sb s) -> ino_ok ip ->
  disk_ino (iupdated s ip) inum jp =
  if inum =? i_inum ip then with_fields ip jp else disk_ino s inum jp.
Proof.
  intros O Hi Hn Hok. unfold disk_ino, iupdated. cbn [sb put_blk set_logged set_blk].
  destruct (IBLOCK_val s _ O Hi) as [Ei _], (IBLOCK_val s _ O Hn) as [En _].
  pose proof (proj1 (rdb_ok s (IBLOCK (i_inum ip) (sb s)) O)) as Hlen.
  destruct (dinode_off_bound (i_inum ip)) as [Ho Hmax].
  destruct (Z.eqb_spec inum (i_inum ip)) as [->|Hne].
  - rewrite rdb_put_eq. by apply load_store_dinode.
  - destruct (decide (IBLOCK inum (sb s) = IBLOCK (i_inum ip) (sb s))) as [E|E]; [|by rewrite rdb_put_ne].
    rewrite E, rdb_put_eq. apply load_dinode_ext. intros x Hx. destruct (dinode_off_bound inum) as [Ho' _].
    destruct (dinode_off_disjoint inum (i_inum ip) ltac:(lia) Hne);
      (apply getb_store_out; [done|done|done|apply Hok|lia|lia]).
Qed.

Lemma ilock_valid_wp (Q : unit -> fsst D -> Prop) s j jp :
  icache s !! j = Some jp -> 1 <= i_ref jp -> i_locked jp = false -> i_valid jp = true ->
  Q tt (set_ino j (set_locked true jp) s) -> wp (ilock j) Q s.
Proof.
  intros Hj Hr Hl Hv HQ. unfold ilock, iacquire. wp_steps. eapply wp_inode_at; [done|].
  destruct (Z.ltb_spec (i_ref jp) 1); [lia|]. wp_steps. eapply wp_inode_at; [done|]. rewrite Hl.
  eapply wp_upd_inode; [done|]. rewrite Hv. by wp_steps.
Qed.

Lemma ilock_load_wp (Q : unit -> fsst D -> Prop) s j jp :
  fs_ok s -> icache s !! j = Some jp -> 1 <= i_ref jp -> i_locked jp = false -> i_valid jp = false ->
  i_dev jp = ROOTDEV -> 0 <= i_inum jp < sb_ninodes (sb s) ->
  let ip := disk_ino s (i_inum jp) (set_locked true jp) in
  i_type ip <> 0 -> Q tt (set_ino j ip s) -> wp (ilock j) Q s.
Proof.
  intros O Hj Hr Hl Hv Hd Hn ip Ht HQ. unfold ilock, iacquire. wp_steps. eapply wp_inode_at; [done|].
  destruct (Z.ltb_spec (i_ref jp) 1); [lia|]. wp_steps. eapply wp_inode_at; [done|]. rewrite Hl.
  eapply wp_upd_inode; [done|]. rewrite Hv. wp_steps. rewrite Hd.
  destruct (IBLOCK_val s _ O Hn) as [_ Hb]. pose proof (datastart_bmap s O). pose proof (ok_bmap s O).
  pose proof (ok_size s O). apply wp_bread; [simpl; lia|]. wp_steps.
  assert (Hlt : (j < length (icache s))%nat) by (by eapply lookup_lt_Some).
  eapply wp_upd_inode; [by apply list_lookup_insert_eq|]. wp_steps.
  eapply wp_inode_at; [simpl; rewrite list_insert_insert_eq; by apply list_lookup_insert_eq|].
  repeat match goal with |- context [load_dinode ?d ?o ?jq] => change (load_dinode d o jq) with ip end.
  destruct (Z.eqb_spec (i_type ip) 0); [done|]. wp_steps.
  assert (E : set_ino j ip (set_ino j (set_locked true jp) s) = set_ino j ip s)
    by (unfold set_ino; simpl; by rewrite list_insert_insert_eq).
  change (Q tt (set_ino j ip (set_ino j (set_locked true jp) s))). by rewrite E.
Qed.

(** iupdate writes an inode through to the disk: a later ilock of any
    cache entry for the same inode, not yet valid, finds exactly the fields
    written (type, major, minor, nlink, size and the 13 addresses, each at its
    width), while every other inode on the disk, including those that share the
    block, is unchanged. *)
Theorem iupdate_ilock_roundtrip s i ip j jp
    (O : fs_ok s) (Hi : icache s !! i = Some ip) (Hok : ino_ok ip) (Hd : i_dev ip = ROOTDEV)
    (Hn : 0 <= i_inum ip < sb_ninodes (sb s)) (Ht : i_type ip <> 0)
    (Hj : icache s !! j = Some jp) (Hjd : i_dev jp = ROOTDEV) (Hjn : i_inum jp = i_inum ip)
    (Hr : 1 <= i_ref jp) (Hl : i_locked jp = false) (Hv : i_valid jp = false) :
  wp (iupdate i;; ilock j) (fun _ s' =>
    fs_ok s' /\ icache s' = <[j := with_fields ip (set_locked true jp)]> (icache s) /\
    forall inum kp, 0 <= inum < sb_ninodes (sb s) -> inum <> i_inum ip -> disk_ino s' inum kp = disk_ino s inum kp) s.
Proof.
  wp_steps. apply (wp_iupdate _ _ i ip); [done..|].
  assert (Ed : disk_ino (iupdated s ip) (i_inum jp) (set_locked true jp) = with_fields ip (set_locked true jp)).
  { rewrite disk_ino_iupdated by (done || by rewrite Hjn). by rewrite Hjn, Z.eqb_refl. }
  assert (O' : fs_ok (iupdated s ip)).
  { apply fs_ok_put_low; [done|by apply store_dinode_ok, rdb_ok|]. destruct (IBLOCK_val s _ O Hn). lia. }
  apply (ilock_load_wp _ _ j jp); [done..|by rewrite Hjn|by rewrite Ed|]. rewrite Ed.
  split; [by apply fs_ok_set_ino|]. split; [done|]. intros inum kp Hin Hne.
  change (disk_ino (iupdated s ip) inum kp = disk_ino s inum kp).
  rewrite disk_ino_iupdated by done. by destruct (Z.eqb_spec inum (i_inum ip)).
Qed.

(** ** The inode cache *)

(** An entry is live when it is referenced. *)
Definition is_ino (dev inum : Z) (ip : inode) : bool := (i_dev ip =? dev) && (i_inum ip =? inum).

(** No two live entries for the same inode, and no negative reference counts. *)
Definition icache_ok (l : list inode) : Prop :=
  Forall (fun ip => 0 <= i_ref ip) l /\
  forall i j ip jp, l !! i = Some ip -> l !! j = Some jp -> 0 < i_ref ip -> 0 < i_ref jp ->
    i_dev ip = i_dev jp -> i_inum ip = i_inum jp -> i = j.

(** The references to an inode, over all entries. *)
Definition refcnt (l : list inode) (dev inum : Z) : Z :=
  foldr (fun ip n => (if is_ino dev inum ip then i_ref ip else 0) + n) 0 l.

Lemma refcnt_insert l i ip ip' dev inum :
  l !! i = Some ip ->
  refcnt (<[i := ip']> l) dev inum =
  refcnt l dev inum - (if is_ino dev inum ip then i_ref ip else 0) + (if is_ino dev inum ip' then i_ref ip' else 0).
Proof.
  revert i. induction l as [|x l IH]; intros [|i] Hi; simplify_eq/=; [lia|]. rewrite (IH i) by done. lia.
Qed.

Lemma is_ino_true dev inum ip : is_ino dev inum ip = true <-> i_dev ip = dev /\ i_inum ip = inum.
Proof. unfold is_ino. rewrite andb_true_iff, !Z.eqb_eq. done. Qed.

(** The scan of iget: a live entry for the inode, or the first free entry. *)
Lemma iget_scan_spec dev inum l n e :
  match iget_scan dev inum l n e with
  | inl k => exists j ip, k = (n + j)%nat /\ l !! j = Some ip /\ 0 < i_ref ip /\ i_dev ip = dev /\ i_inum ip = inum
  | inr r => (forall j ip, l !! j = Some ip -> 0 < i_ref ip -> ~ (i_dev ip = dev /\ i_inum ip = inum)) /\
             match e, r with
             | Some k, r => r = Some k
             | None, Some k => exists j ip, k = (n + j)%nat /\ l !! j = Some ip /\ i_ref ip = 0
             | None, None => forall j ip, l !! j = Some ip -> i_ref ip <> 0
             end
  end.
Proof.
  revert n e. induction l as [|x l IH]; intros n e; cbn [iget_scan].
  { split; [done|]. by destruct e. }
  destruct ((i_ref x >? 0) && (i_dev x =? dev) && (i_inum x =? inum)) eqn:E.
  { b2p. exists 0%nat, x. split_and!; [lia|done|lia|done|done]. }
  set (e' := match e with None => if i_ref x =? 0 then Some n else None | Some k => Some k end).
  specialize (IH (S n) e'). destruct (iget_scan dev inum l (S n) e') as [k|r].
  - destruct IH as (j & ip & -> & Hj & ?). exists (S j), ip. split; [lia|done].
  - destruct IH as [Hno Hr]. split.
    + intros [|j] ip Hj Hp; simplify_eq/=; [|by apply (Hno j)]. intros [<- <-].
      rewrite !Z.eqb_refl, !andb_true_r in E. b2p. lia.
    + unfold e' in *. destruct e as [k|]; [done|]. destruct (Z.eqb_spec (i_ref x) 0).
      * subst r. exists 0%nat, x. split_and!; [lia|done|done].
      * destruct r as [k|].
        { destruct Hr as (j & ip & -> & ?). exists (S j), ip. split; [lia|done]. }
        intros [|j] ip Hj; simplify_eq/=; [done|by apply (Hr j)].
Qed.

(** A cache entry that keeps its name keeps the cache well formed. *)
Lemma icache_ok_update l i ip ip' :
  icache_ok l -> l !! i = Some ip -> 0 <= i_ref ip' ->
  (0 < i_ref ip' -> forall j jp, j <> i -> l !! j = Some jp -> 0 < i_ref jp ->
     ~ (i_dev jp = i_dev ip' /\ i_inum jp = i_inum ip')) ->
  icache_ok (<[i := ip']> l).
Proof.
  intros [Hr Hu] Hi Hr' Hnew. split; [by apply Forall_insert|].
  intros j k jp kp Hj Hk Hjr Hkr Hd Hn.
  apply list_lookup_insert_Some in Hj as [(<- & <- & _)|[Hji Hj]], Hk as [(<- & <- & _)|[Hki Hk]]; try done.
  - exfalso. by apply (Hnew Hjr k kp).
  - exfalso. by apply (Hnew Hkr j jp).
  - by apply (Hu j k jp kp).
Qed.

Lemma icache_ok_same l i ip ip' :
  icache_ok l -> l !! i = Some ip -> 0 <= i_ref ip' -> (0 < i_ref ip' -> 0 < i_ref ip) ->
  i_dev ip' = i_dev ip -> i_inum ip' = i_inum ip -> icache_ok (<[i := ip']> l).
Proof.
  intros Hok Hi Hr Hp Hd Hn. apply (icache_ok_update l i ip); [done..|].
  intros Hpos j jp Hji Hj Hjr [Ed En]. apply Hji. destruct Hok as [_ Hu].
  apply (Hu j i jp ip); [done|done|done|auto|congruence|congruence].
Qed.

(** What a reference operation does: one entry for the inode, [n] more (or
    fewer) references to it, and nothing else. *)
Record counted s s' (i : nat) (dev inum n : Z) : Prop := mkCounted {
  ct_rest : blk s' = blk s /\ sb s' = sb s /\ disksize s' = disksize s /\ logged s' = logged s /\ devst s' = devst s;
  ct_ok : icache_ok (icache s');
  ct_entry : exists ip', icache s' = <[i := ip']> (icache s) /\ (i < length (icache s))%nat /\
             i_dev ip' = dev /\ i_inum ip' = inum;
  ct_refs : forall d m, refcnt (icache s') d m = refcnt (icache s) d m + (if (d =? dev) && (m =? inum) then n else 0)
}.

Lemma ref_add_counted s i ip n :
  icache_ok (icache s) -> icache s !! i = Some ip -> 0 < i_ref ip -> 0 <= i_ref ip + n ->
  counted s (set_ino i (set_ref (i_ref ip + n) ip) s) i (i_dev ip) (i_inum ip) n.
Proof.
  intros Hok Hi Hp Hn. constructor; [done| | |].
  - by apply (icache_ok_same (icache s) i ip).
  - eexists. split; [done|]. split; [by eapply lookup_lt_Some|done].
  - intros d m. simpl. rewrite (refcnt_insert _ _ ip) by done. unfold is_ino. simpl.
    rewrite (Z.eqb_sym (i_dev ip)), (Z.eqb_sym (i_inum ip)).
    destruct ((d =? i_dev ip) && (m =? i_inum ip)); lia.
Qed.

Lemma iget_spec s dev inum :
  icache_ok (icache s) ->
  match iget dev inum s with
  | Ret i s' => counted s s' i dev inum 1 /\
      exists ip', icache s' !! i = Some ip' /\ 0 < i_ref ip' /\
      ((exists ip, icache s !! i = Some ip /\ 0 < i_ref ip /\ ip' = set_ref (i_ref ip + 1) ip) \/
       (refcnt (icache s) dev inum = 0 /\ i_valid ip' = false /\ i_ref ip' = 1))
  | Panic msg => msg = "iget: no inodes"%string /\ forall j ip, icache s !! j = Some ip -> 0 < i_ref ip /\
                 ~ (i_dev ip = dev /\ i_inum ip = inum)
  | _ => False
  end.
Proof.
  intros Hok. unfold iget. rewrite bind_get. pose proof (iget_scan_spec dev inum (icache s) 0 None) as H.
  destruct (iget_scan dev inum (icache s) 0 None) as [k|[k|]].
  - destruct H as (j & ip & -> & Hj & Hr & <- & <-). simpl. unfold upd_inode, inode_at.
    unfold bind, get, modify, ret. rewrite Hj. pose proof (lookup_lt_Some _ _ _ Hj).
    split; [apply (ref_add_counted s j ip 1); done || lia|].
    exists (set_ref (i_ref ip + 1) ip). split; [simpl; by rewrite list_lookup_insert_eq|].
    split; [simpl; lia|]. left. by exists ip.
  - destruct H as (Hno & j & ip & -> & Hj & Hr). simpl. unfold upd_inode, inode_at.
    unfold bind, get, modify, ret. rewrite Hj. pose proof (lookup_lt_Some _ _ _ Hj).
    set (ip' := mkInode dev inum 1 _ _ _ _ _ _ _ _).
    split; [constructor; [done| | |]|exists ip'; split; [simpl; by rewrite list_lookup_insert_eq|split; [simpl; lia|right]]].
    + simpl. apply (icache_ok_update _ j ip); [done|done|simpl; lia|]. intros _ n jp _ Hn Hp. by apply (Hno n).
    + exists ip'. done.
    + intros d m. simpl. rewrite (refcnt_insert _ _ ip) by done. rewrite Hr. unfold is_ino. simpl.
      rewrite (Z.eqb_sym dev), (Z.eqb_sym inum).
      destruct ((d =? dev) && (m =? inum)), ((i_dev ip =? d) && (i_inum ip =? m)); lia.
    + split; [|done]. clear Hj Hr. destruct Hok as [Hpos _]. revert Hno Hpos. generalize (icache s) as l.
      induction l as [|x l IH]; intros Hno Hpos; [done|]. simpl. apply Forall_cons in Hpos as [Hx Hpos].
      rewrite IH; [|intros n y Hy; by apply (Hno (S n))|done].
      destruct (is_ino dev inum x) eqn:E; [|lia]. apply is_ino_true in E.
      destruct (decide (0 < i_ref x)); [by destruct (Hno 0%nat x eq_refl)|lia].
  - destruct H as (Hno & Hall). split; [done|]. intros j ip Hj. pose proof (Hall j ip Hj).
    pose proof (Forall_lookup_1 _ _ _ _ (proj1 Hok) Hj). simpl in *. split; [lia|]. apply (Hno j); [done|lia].
Qed.

(** In a cache with at most one live entry per inode, iget adds exactly
    one reference to the inode and to no other, and keeps the cache that way: an
    inode that is cached keeps its entry, with one more reference; an inode that
    is not gets a free entry, with one reference and nothing read from the disk.
    It panics exactly when the inode is not cached and every entry is in use.
    idup adds a reference too. *)
Theorem iget_correct s dev inum (Hok : icache_ok (icache s)) :
  (match iget dev inum s with
   | Ret i s' => counted s s' i dev inum 1 /\
       exists ip', icache s' !! i = Some ip' /\ 0 < i_ref ip' /\
       ((exists ip, icache s !! i = Some ip /\ 0 < i_ref ip /\ ip' = set_ref (i_ref ip + 1) ip) \/
        (refcnt (icache s) dev inum = 0 /\ i_valid ip' = false /\ i_ref ip' = 1))
   | Panic msg => msg = "iget: no inodes"%string /\ forall j ip, icache s !! j = Some ip -> 0 < i_ref ip /\
                  ~ (i_dev ip = dev /\ i_inum ip = inum)
   | _ => False
   end) /\
  forall i ip, icache s !! i = Some ip -> 0 < i_ref ip ->
    wp (idup i) (fun j s' => j = i /\ counted s s' i (i_dev ip) (i_inum ip) 1) s.
Proof.
  split; [by apply iget_spec|]. intros i ip Hi Hp. unfold idup. wp_steps.
  eapply wp_upd_inode; [done|]. wp_steps. split; [done|]. apply ref_add_counted; [done|done|done|lia].
Qed.
End Inode.

(** ** Witnesses *)
Definition two_inos : list inode :=
  [mkInode 1 3 1 true true T_FILE 0 0 1 100 [35; 36; 0; 0; 0; 0; 0; 0; 0; 0; 0; 0; 0];
   mkInode 1 3 1 false false 0 0 0 0 0 (replicate 13 0)].
Definition two_fs : fsst unit := set_icache two_inos demo_fs.

Lemma iupdate_ilock_roundtrip_witness :
  wp (iupdate 0;; ilock 1) (fun _ s' =>
    i_size <$> icache s' !! 1%nat = Some 100 /\ (i_addrs <$> icache s' !! 1%nat) = i_addrs <$> two_inos !! 0%nat) two_fs.
Proof.
  assert (O : fs_ok two_fs) by (destruct demo_fs_ok; by constructor).
  assert (Hok : forall ip, two_inos !! 0%nat = Some ip -> ino_ok ip)
    by (intros ip [= <-]; unfold ino_ok, s16_ok; simpl; split_and!; try lia; try done; repeat constructor; lia).
  assert (Hn : 0 <= 3 < sb_ninodes (sb two_fs)) by (by vm_compute).
  refine (wp_mono _ _ _ _ (iupdate_ilock_roundtrip two_fs 0 _ 1 _ O eq_refl (Hok _ eq_refl) eq_refl Hn
    ltac:(done) eq_refl eq_refl eq_refl ltac:(done) eq_refl eq_refl) _).
  intros _ s' (_ & -> & _). done.
Defined.

Lemma iget_correct_witness :
  icache_ok (replicate 2 inode0) /\
  match iget 1 7 (set_icache (replicate 2 inode0) demo_fs) with
  | Ret i s' => i = 0%nat /\ counted (set_icache (replicate 2 inode0) demo_fs) s' i 1 7 1
  | _ => False
  end.
Proof.
  assert (Hok : icache_ok (replicate 2 inode0)).
  { split; [repeat constructor; simpl; lia|]. intros i j ip jp [-> _]%lookup_replicate _ Hp. simpl in Hp. lia. }
  split; [exact Hok|]. destruct (iget_correct (set_icache (replicate 2 inode0) demo_fs) 1 7 Hok) as [Hp _].
  assert (Ei : match iget 1 7 (set_icache (replicate 2 inode0) demo_fs) with Ret i _ => i | _ => 9%nat end = 0%nat) by done.
  destruct (iget 1 7 (set_icache (replicate 2 inode0) demo_fs)) as [i s'| | |]; [|done..].
  split; [exact Ei|]. apply Hp.
Defined.
