(* ===== verification/FsTrunc.v ===== *)
(** * Freeing an inode (fs.c: itrunc, iput)

    itrunc returns every block of a file to the bitmap; iput of the last
    reference to an inode without links truncates it and frees the inode. *)

From stdpp Require Import base numbers list gmap strings.
From Stdlib Require Import ZArith Lia Bool.
From S2P Require Import Prelude Block Fs FsAlloc FsFile FsRw FsInode.

Local Open Scope Z_scope.
Local Open Scope kernel_scope.

Lemma existsb_ext_in (f g : Z -> bool) l : (forall x, x ∈ l -> f x = g x) -> existsb f l = existsb g l.
Proof.
  induction l as [|x l IH]; intros H; simpl; [done|].
  rewrite (H x), IH; [done| |apply elem_of_cons; by left]. intros y Hy. apply H, elem_of_cons. by right.
Qed.

Lemma no_block x : negb (x =? 0) && (0 =? x) = false.
Proof. rewrite (Z.eqb_sym 0 x). by destruct (x =? 0). Qed.

Lemma one_block b x : b <> 0 -> (x =? b) = negb (x =? 0) && (b =? x).
Proof.
  intros Hb. rewrite (Z.eqb_sym b x). destruct (Z.eqb_spec x b) as [->|]; [|by rewrite andb_false_r].
  by destruct (Z.eqb_spec b 0).
Qed.

Section Trunc.
Context {D : Type} `{DV : Devsw D}.
Implicit Types s : fsst D.

(** [s'] is [s] with the blocks that satisfy [P] freed. *)
Record freeing s s' (P : Z -> bool) : Prop := mkFreeing {
  fr_ok : fs_ok s';
  fr_sb : sb s' = sb s /\ disksize s' = disksize s /\ devst s' = devst s;
  fr_used : forall x, 0 <= x < sb_size (sb s) -> used s' x = used s x && negb (P x);
  fr_blk : forall x, x < sb_bmapstart (sb s) \/ datastart s <= x -> rdb s' x = rdb s x
}.

Lemma freeing_refl s P : fs_ok s -> (forall x, 0 <= x < sb_size (sb s) -> P x = false) -> freeing s s P.
Proof. intros O HP. constructor; try done. intros x Hx. by rewrite HP, andb_true_r. Qed.

Lemma freeing_trans s1 s2 s3 P Q :
  freeing s1 s2 P -> freeing s2 s3 Q -> freeing s1 s3 (fun x => P x || Q x).
Proof.
  intros A B. destruct (fr_sb _ _ _ A) as (Esb & Ed & Ev), (fr_sb _ _ _ B) as (Esb' & Ed' & Ev').
  constructor.
  - apply B.
  - split_and!; congruence.
  - intros x Hx. rewrite (fr_used _ _ _ B), (fr_used _ _ _ A) by (rewrite ?Esb; done).
    by rewrite negb_orb, andb_assoc.
  - intros x Hx. rewrite (fr_blk _ _ _ B), (fr_blk _ _ _ A); [done|done|].
    by rewrite Esb, (datastart_sb _ _ Esb).
Qed.

Lemma freeing_ext s s' P Q :
  freeing s s' P -> (forall x, 0 <= x < sb_size (sb s) -> P x = Q x) -> freeing s s' Q.
Proof. intros [] H. constructor; try done. intros x Hx. rewrite <- H by done. auto. Qed.

Lemma freeing_set_ino s s' P i ip : freeing s s' P -> freeing s (set_ino i ip s') P.
Proof. intros []. constructor; try done. by apply fs_ok_set_ino. Qed.

Lemma wp_bfree (Q : unit -> fsst D -> Prop) s b :
  fs_ok s -> datastart s <= b < sb_size (sb s) -> used s b = true ->
  (forall s', freeing s s' (fun x => x =? b) -> icache s' = icache s -> Q tt s') -> wp (bfree ROOTDEV b) Q s.
Proof.
  intros O Hb Hu HQ. pose proof (datastart_pos s O). eapply wp_intro.
  { rewrite bfree_spec by (done || lia). by rewrite Hu. }
  apply HQ; [|done]. destruct (BBLOCK_val s b O) as (Eb & Hbb & _); [lia|]. constructor.
  - by apply unmarked_ok.
  - done.
  - intros x Hx. rewrite used_unmarked by (done || lia). apply andb_comm.
  - intros x Hx. unfold unmarked. apply rdb_put_ne. unfold datastart in *.
    assert (0 <= b / BPB) by (apply Z.div_pos; [lia|done]). lia.
Qed.

(** Does one of the blocks [f j], ..., [f (j + k - 1)] equal [x]? *)
Definition among (f : Z -> Z) (j : Z) (k : nat) (x : Z) : bool :=
  negb (x =? 0) && existsb (fun m => f m =? x) (seqZ j (Z.of_nat k)).

Lemma among_S f j k x :
  among f j (S k) x = (negb (x =? 0) && (f j =? x)) || among f (j + 1) k x.
Proof.
  unfold among. rewrite Nat2Z.inj_succ, seqZ_cons by lia. cbn [existsb].
  replace (Z.pred (Z.succ (Z.of_nat k))) with (Z.of_nat k) by lia.
  rewrite <- Z.add_1_r. apply andb_orb_distrib_r.
Qed.

Lemma among_true f j k x :
  among f j k x = true <-> x <> 0 /\ exists m, j <= m < j + Z.of_nat k /\ f m = x.
Proof.
  unfold among. rewrite andb_true_iff, negb_true_iff, Z.eqb_neq, existsb_exists.
  split; intros [H0 (m & Hm & He)]; split; try done; exists m; [b2p|].
  - split; [|done]. apply list_elem_of_In, elem_of_seqZ in Hm. lia.
  - split; [apply list_elem_of_In, elem_of_seqZ; lia|by apply Z.eqb_eq].
Qed.

(** The blocks [f j], ..., [f (j + k - 1)] that are not 0 are distinct used data
    blocks. *)
Definition blocks s (f : Z -> Z) (j : Z) (k : nat) : Prop :=
  forall m, j <= m < j + Z.of_nat k -> f m <> 0 ->
    datastart s <= f m < sb_size (sb s) /\ used s (f m) = true /\
    forall n, j <= n < j + Z.of_nat k -> f n = f m -> n = m.

Lemma blocks_next s s' f j k :
  blocks s f j (S k) -> freeing s s' (fun x => negb (x =? 0) && (f j =? x)) -> fs_ok s -> blocks s' f (j + 1) k.
Proof.
  intros H Fr O m Hm Hne. destruct (H m ltac:(lia) Hne) as (Hr & Hu & Hd).
  destruct (fr_sb _ _ _ Fr) as (Esb & _). pose proof (datastart_pos s O).
  rewrite Esb, (datastart_sb _ _ Esb). split; [done|]. split.
  - rewrite (fr_used _ _ _ Fr), Hu by lia. destruct (Z.eqb_spec (f j) (f m)) as [E|]; [|by rewrite andb_false_r].
    pose proof (Hd j ltac:(lia) E). lia.
  - intros n Hn. apply Hd. lia.
Qed.

Lemma trunc_indirect_wp k (Q : unit -> fsst D -> Prop) s d j :
  fs_ok s -> blocks s (fun m => get32 d (4 * m)) j k ->
  (forall s', freeing s s' (among (fun m => get32 d (4 * m)) j k) -> icache s' = icache s -> Q tt s') ->
  wp (trunc_indirect k ROOTDEV d j) Q s.
Proof.
  revert s j Q. induction k as [|k IH]; intros s j Q O Hb HQ; cbn [trunc_indirect].
  { wp_steps. apply HQ; [|done]. apply freeing_refl; [done|]. intros x _. unfold among. simpl. apply andb_false_r. }
  set (f := fun m => get32 d (4 * m)) in *. wp_steps. change (get32 d (4 * j)) with (f j).
  assert (Hnext : forall s1, freeing s s1 (fun x => negb (x =? 0) && (f j =? x)) -> icache s1 = icache s ->
    wp (trunc_indirect k ROOTDEV d (j + 1)) Q s1).
  { intros s1 Fr E1. apply IH; [apply Fr|by apply (blocks_next s)|].
    intros s2 Fr2 E2. apply HQ; [|congruence]. eapply freeing_ext; [by eapply freeing_trans|].
    intros x Hx. by rewrite among_S. }
  destruct (Z.eqb_spec (f j) 0) as [Hz|Hz]; wp_steps.
  - apply Hnext; [|done]. apply freeing_refl; [done|]. intros x _. rewrite Hz. apply no_block.
  - destruct (Hb j ltac:(lia) Hz) as (Hr & Hu & _). apply wp_bfree; [done..|]. intros s1 Fr E1.
    apply Hnext; [|done]. eapply freeing_ext; [exact Fr|]. intros x Hx. by apply one_block.
Qed.

(** [ip] with the addresses [j], ..., [j + k - 1] set to 0. *)
Definition cleared (ip ip' : inode) (j : Z) (k : nat) : Prop :=
  same_ino ip ip' /\ i_size ip' = i_size ip /\ length (i_addrs ip') = length (i_addrs ip) /\
  forall m, 0 <= m -> addr_at ip' m = if (j <=? m) && (m <? j + Z.of_nat k) then 0 else addr_at ip m.

(** One turn of the loop: address [j] is cleared if it was set. *)
Definition clear1 (ip : inode) (j : Z) : inode := if addr_at ip j =? 0 then ip else set_addr j 0 ip.

Lemma clear1_cleared ip j : 0 <= j < Z.of_nat (length (i_addrs ip)) -> cleared ip (clear1 ip j) j 1.
Proof.
  intros Hj. unfold clear1, cleared. destruct (Z.eqb_spec (addr_at ip j) 0) as [E|E].
  - split; [done|]. split; [done|]. split; [done|]. intros m Hm.
    destruct (Z.leb_spec j m), (Z.ltb_spec m (j + Z.of_nat 1)); try done. by replace m with j by lia.
  - split; [done|]. split; [done|]. split; [simpl; by rewrite length_insert|]. intros m Hm.
    destruct (decide (m = j)) as [->|].
    + rewrite addr_at_set_eq by done. destruct (Z.leb_spec j j), (Z.ltb_spec j (j + Z.of_nat 1)); done || lia.
    + rewrite addr_at_set_ne by lia. destruct (Z.leb_spec j m), (Z.ltb_spec m (j + Z.of_nat 1)); done || lia.
Qed.

Lemma cleared_trans ip1 ip2 ip3 j k :
  cleared ip1 ip2 j 1 -> cleared ip2 ip3 (j + 1) k -> cleared ip1 ip3 j (S k).
Proof.
  intros (A1 & A2 & A3 & A4) (B1 & B2 & B3 & B4). split; [|split; [congruence|split; [congruence|]]].
  - destruct A1 as (?&?&?&?&?&?&?&?&?), B1 as (?&?&?&?&?&?&?&?&?). unfold same_ino. split_and!; congruence.
  - intros m Hm. rewrite B4, A4 by done.
    destruct (Z.leb_spec (j + 1) m), (Z.ltb_spec m (j + 1 + Z.of_nat k)), (Z.leb_spec j m),
      (Z.ltb_spec m (j + Z.of_nat (S k))), (Z.ltb_spec m (j + Z.of_nat 1)); simpl; try done; lia.
Qed.

Lemma blocks_ext s f g j k :
  (forall m, j <= m < j + Z.of_nat k -> g m = f m) -> blocks s f j k -> blocks s g j k.
Proof.
  intros E H m Hm. rewrite E by done. intros Hne. destruct (H m Hm Hne) as (?&?&Hd). split; [done|]. split; [done|].
  intros n Hn. rewrite E by done. by apply Hd.
Qed.

Lemma among_ext f g j k x :
  (forall m, j <= m < j + Z.of_nat k -> g m = f m) -> among f j k x = among g j k x.
Proof.
  intros E. unfold among. f_equal. apply existsb_ext_in. intros m Hm%elem_of_seqZ. by rewrite E by lia.
Qed.

Lemma trunc_direct_wp k (Q : unit -> fsst D -> Prop) s i ip j :
  fs_ok s -> icache s !! i = Some ip -> i_dev ip = ROOTDEV -> length (i_addrs ip) = 13%nat ->
  0 <= j -> j + Z.of_nat k <= NDIRECT -> blocks s (addr_at ip) j k ->
  (forall s' ip', freeing s s' (among (addr_at ip) j k) -> cleared ip ip' j k ->
     icache s' = <[i := ip']> (icache s) -> Q tt s') ->
  wp (trunc_direct k i j) Q s.
Proof.
  revert s ip j Q. induction k as [|k IH]; intros s ip j Q O Hi Hd Hl Hj Hk Hb HQ; cbn [trunc_direct].
  { wp_steps. apply (HQ s ip); [| |by rewrite list_insert_id].
    - apply freeing_refl; [done|]. intros x _. unfold among. simpl. apply andb_false_r.
    - split; [done|]. split; [done|]. split; [done|]. intros m Hm.
      destruct (Z.leb_spec j m), (Z.ltb_spec m (j + Z.of_nat 0)); try done. lia. }
  change NDIRECT with 12 in *. wp_steps. eapply wp_inode_at; [done|]. wp_steps.
  assert (Hlt : (i < length (icache s))%nat) by (by eapply lookup_lt_Some).
  pose proof (clear1_cleared ip j ltac:(lia)) as Hc. destruct (Hc) as ((Hc1 & _) & _ & Hc3 & Hc4).
  assert (Ha : forall m, j + 1 <= m < j + 1 + Z.of_nat k -> addr_at (clear1 ip j) m = addr_at ip m).
  { intros m Hm. rewrite Hc4 by lia. destruct (Z.leb_spec j m), (Z.ltb_spec m (j + Z.of_nat 1)); done || lia. }
  assert (Hnext : forall s1, freeing s s1 (fun x => negb (x =? 0) && (addr_at ip j =? x)) ->
    icache s1 = <[i := clear1 ip j]> (icache s) -> wp (trunc_direct k i (j + 1)) Q s1).
  { intros s1 Fr E1. apply (IH s1 (clear1 ip j));
      [apply Fr|rewrite E1; by apply list_lookup_insert_eq|by rewrite Hc1|by rewrite Hc3|lia|lia| |].
    - apply (blocks_ext _ (addr_at ip)); [done|]. by eapply blocks_next.
    - intros s2 ip2 Fr2 C2 E2. apply (HQ s2 ip2); [|by eapply cleared_trans|].
      + eapply freeing_ext; [by eapply freeing_trans|]. intros x Hx. cbv beta. rewrite among_S. f_equal.
        symmetry. by apply among_ext.
      + rewrite E2, E1. apply list_insert_insert_eq. }
  unfold clear1 in Hnext. destruct (Z.eqb_spec (addr_at ip j) 0) as [Hz|Hz]; wp_steps.
  - apply (Hnext s); [|by rewrite list_insert_id]. apply freeing_refl; [done|]. intros x _. rewrite Hz. apply no_block.
  - destruct (Hb j ltac:(lia) Hz) as (Hr & Hu & _). rewrite Hd. apply wp_bfree; [done..|]. intros s1 Fr E1. wp_steps.
    eapply wp_upd_inode; [by rewrite E1|]. apply Hnext; [|simpl; by rewrite E1].
    apply freeing_set_ino. eapply freeing_ext; [exact Fr|]. intros x Hx. by apply one_block.
Qed.

(** The blocks of a file, its indirect block included. *)
Definition owned s (ip : inode) (x : Z) : bool := among (slot s ip) 0 141 x.

Definition entry s (ip : inode) (m : Z) : Z := get32 (rdb s (addr_at ip NDIRECT)) (4 * m).

Lemma slot_direct s ip m : 0 <= m < NDIRECT -> slot s ip m = addr_at ip m.
Proof. intros Hm. unfold slot. by destruct (Z.ltb_spec m NDIRECT); [|lia]. Qed.

Lemma slot_entry s ip m : 0 <= m < NINDIRECT -> addr_at ip NDIRECT <> 0 -> slot s ip (NDIRECT + m) = entry s ip m.
Proof.
  intros Hm Hne. unfold slot, entry. change NINDIRECT with 128 in *. change NDIRECT with 12 in *. change MAXFILE with 140.
  destruct (Z.ltb_spec (12 + m) 12); [lia|]. destruct (Z.ltb_spec (12 + m) 140); [|lia].
  destruct (Z.eqb_spec (addr_at ip 12) 0); [done|]. by rewrite Z.add_simpl_l.
Qed.

Lemma owned_direct s ip x : addr_at ip NDIRECT = 0 -> among (addr_at ip) 0 12 x = owned s ip x.
Proof.
  intros Hz. apply eq_true_iff_eq. unfold owned. rewrite !among_true. split; intros (Hx & m & Hm & E); split; try done; exists m.
  - rewrite slot_direct by (change NDIRECT with 12; lia). split; [lia|done].
  - destruct (decide (m < 12)); [rewrite slot_direct in E by (change NDIRECT with 12; lia); split; [lia|done]|].
    unfold slot in E. change NDIRECT with 12 in *. rewrite Hz in E.
    destruct (Z.ltb_spec m 12); [lia|]. destruct (m <? MAXFILE); simpl in E; lia.
Qed.

Lemma owned_all s ip x :
  addr_at ip NDIRECT <> 0 ->
  (among (addr_at ip) 0 12 x || among (entry s ip) 0 128 x) || (x =? addr_at ip NDIRECT) = owned s ip x.
Proof.
  intros Hne. apply eq_true_iff_eq. unfold owned. rewrite !orb_true_iff, !among_true, Z.eqb_eq. split.
  - intros [[(Hx & m & Hm & E)|(Hx & m & Hm & E)]| ->].
    + split; [done|]. exists m. rewrite slot_direct by (change NDIRECT with 12; lia). split; [lia|done].
    + split; [done|]. exists (NDIRECT + m). rewrite slot_entry by (done || (change NINDIRECT with 128; lia)).
      split; [change NDIRECT with 12; lia|done].
    + split; [done|]. exists IND. by split.
  - intros (Hx & m & Hm & E). destruct (decide (m < 12)).
    { left. left. split; [done|]. exists m. rewrite slot_direct in E by (change NDIRECT with 12; lia). split; [lia|done]. }
    destruct (decide (m < 140)).
    { left. right. split; [done|]. exists (m - 12). split; [lia|].
      rewrite <- slot_entry by (done || (change NINDIRECT with 128; lia)). rewrite <- E. f_equal. change NDIRECT with 12. lia. }
    right. assert (m = IND) as -> by (unfold IND; lia). by rewrite <- E.
Qed.

(** A well-formed file gives the loops of itrunc what they need. *)
Lemma file_blocks s ip f j k g :
  file_ok s ip -> (forall m, j <= m < j + Z.of_nat k -> is_slot (g m) /\ f m = slot s ip (g m)) ->
  (forall m n, g m = g n -> m = n) -> blocks s f j k.
Proof.
  intros F Hg Hi m Hm Hne. destruct (Hg m Hm) as [Hs E]. rewrite E in *.
  destruct (fo_slot s ip F _ Hs Hne) as [Hr Hu]. split; [done|]. split; [done|].
  intros n Hn En. destruct (Hg n Hn) as [Hs' E']. rewrite E' in En.
  apply Hi. symmetry. apply (fo_inj s ip F); [done..|congruence].
Qed.

(** The state itrunc leaves, before the inode goes to the disk. *)
Record truncated s (i : nat) (ip : inode) s' (ip' : inode) : Prop := mkTruncated {
  tr_free : freeing s s' (owned s ip);
  tr_ino : same_ino ip ip' /\ i_size ip' = 0 /\ i_addrs ip' = replicate 13 0;
  tr_icache : icache s' = <[i := ip']> (icache s)
}.

Lemma addrs_zero ip : length (i_addrs ip) = 13%nat -> (forall m, 0 <= m <= NDIRECT -> addr_at ip m = 0) ->
  i_addrs ip = replicate 13 0.
Proof.
  intros Hl H. apply list_eq. intros j. destruct (decide (j < 13)%nat).
  - rewrite lookup_replicate_2 by done. specialize (H (Z.of_nat j) ltac:(change NDIRECT with 12; lia)).
    unfold addr_at in H. rewrite Nat2Z.id in H. destruct (lookup_lt_is_Some_2 (i_addrs ip) j) as [a E]; [lia|].
    rewrite E in *. simpl in H. by subst.
  - rewrite !lookup_ge_None_2; [done|rewrite length_replicate; lia|lia].
Qed.

Lemma freeing_blocks s s' P f j k :
  freeing s s' P -> fs_ok s -> blocks s f j k ->
  (forall m, j <= m < j + Z.of_nat k -> f m <> 0 -> P (f m) = false) -> blocks s' f j k.
Proof.
  intros Fr O Hb HP m Hm Hne. destruct (Hb m Hm Hne) as (Hr & Hu & Hd). destruct (fr_sb _ _ _ Fr) as (Esb & _).
  pose proof (datastart_pos s O). rewrite Esb, (datastart_sb _ _ Esb). split; [done|]. split; [|done].
  by rewrite (fr_used _ _ _ Fr), Hu, HP by lia.
Qed.

(** itrunc up to the final iupdate. *)
Lemma trunc_indirect_part (Q : unit -> fsst D -> Prop) s i ip s1 ip1 :
  finv s i ip -> freeing s s1 (among (addr_at ip) 0 12) -> cleared ip ip1 0 12 ->
  icache s1 = <[i := ip1]> (icache s) -> addr_at ip NDIRECT <> 0 ->
  (forall s2, freeing s s2 (owned s ip) -> icache s2 = <[i := set_addr NDIRECT 0 ip1]> (icache s) -> Q tt s2) ->
  wp (d <- bread (i_dev ip1) (addr_at ip1 NDIRECT);;
      trunc_indirect (Z.to_nat NINDIRECT) (i_dev ip1) d 0;;
      bfree (i_dev ip1) (addr_at ip1 NDIRECT);;
      upd_inode i (set_addr NDIRECT 0)) Q s1.
Proof.
  intros (O & Hi & F) Fr (C1 & C2 & C3 & C4) E1 Hne HQ.
  assert (Hlt : (i < length (icache s))%nat) by (by eapply lookup_lt_Some).
  assert (Ea : addr_at ip1 NDIRECT = addr_at ip NDIRECT) by (by rewrite C4).
  destruct C1 as (Ed & _). rewrite Ea, Ed, (fo_dev s ip F). destruct (fr_sb _ _ _ Fr) as (Esb & Edk & _).
  destruct (fo_slot s ip F IND ltac:(done) Hne) as [Hr Hu]. change (slot s ip IND) with (addr_at ip NDIRECT) in *.
  pose proof (ok_size s O). pose proof (datastart_pos s O).
  wp_steps. apply wp_bread; [rewrite Edk; lia|]. wp_steps.
  rewrite (fr_blk _ _ _ Fr) by lia. change (Z.to_nat NINDIRECT) with 128%nat.
  assert (Hent : forall m, 0 <= m < 128 -> is_slot (NDIRECT + m) /\ entry s ip m = slot s ip (NDIRECT + m)).
  { intros m Hm. split; [unfold is_slot, IND; change NDIRECT with 12; lia|symmetry; by apply slot_entry]. }
  assert (Hbe : blocks s (entry s ip) 0 128)
    by (apply (file_blocks s ip _ _ _ (fun m => NDIRECT + m)); [done|intros; apply Hent; lia|lia]).
  assert (Hbe1 : blocks s1 (entry s ip) 0 128).
  { apply (freeing_blocks s s1 _ _ _ _ Fr O Hbe). intros m Hm Hm0. apply not_true_iff_false. rewrite among_true.
    intros (_ & n & Hn & En). destruct (Hent m ltac:(lia)) as [Hs Em]. rewrite Em in *.
    rewrite <- slot_direct with (s := s) in En by (change NDIRECT with 12; lia).
    assert (NDIRECT + m = n) by (apply (fo_inj s ip F); [done|unfold is_slot, IND; lia|done|done]).
    change NDIRECT with 12 in *. lia. }
  apply trunc_indirect_wp; [apply Fr|exact Hbe1|]. intros s2 Fr2 E2. wp_steps.
  pose proof (freeing_trans _ _ _ _ _ Fr Fr2) as Fr12. destruct (fr_sb _ _ _ Fr12) as (Esb2 & _).
  apply wp_bfree; [apply Fr2|by rewrite Esb2, (datastart_sb _ _ Esb2)| |].
  - rewrite (fr_used _ _ _ Fr12), Hu by lia. apply negb_true_iff, orb_false_intro; apply not_true_iff_false; rewrite among_true.
    + intros (_ & n & Hn & En). rewrite <- slot_direct with (s := s) in En by (change NDIRECT with 12; lia).
      assert (IND = n) by (apply (fo_inj s ip F); [done|unfold is_slot, IND; lia|done|done]). unfold IND in *. lia.
    + intros (_ & n & Hn & En). destruct (Hent n ltac:(lia)) as [Hs Em]. cbv beta in En. fold (entry s ip n) in En.
      rewrite Em in En. assert (IND = NDIRECT + n) by (apply (fo_inj s ip F); done). unfold IND in *. change NDIRECT with 12 in *. lia.
  - intros s3 Fr3 E3. eapply wp_upd_inode; [rewrite E3, E2, E1; by apply list_lookup_insert_eq|].
    apply HQ.
    + apply freeing_set_ino. eapply freeing_ext; [eapply freeing_trans; [exact Fr12|exact Fr3]|].
      intros x Hx. cbv beta. by apply owned_all.
    + simpl. rewrite E3, E2, E1. apply list_insert_insert_eq.
Qed.

Lemma itrunc_wp (Q : unit -> fsst D -> Prop) s i ip :
  finv s i ip -> 0 <= i_inum ip < sb_ninodes (sb s) ->
  (forall s' ip', truncated s i ip s' ip' -> Q tt (iupdated s' ip')) -> wp (itrunc i) Q s.
Proof.
  intros Fv Hn HQ. pose proof Fv as (O & Hi & F). assert (Hlt : (i < length (icache s))%nat) by (by eapply lookup_lt_Some).
  unfold itrunc. wp_steps. change (Z.to_nat NDIRECT) with 12%nat.
  assert (Hb : blocks s (addr_at ip) 0 12).
  { apply (file_blocks s ip _ _ _ (fun m => m)); [done| |done]. intros m Hm.
    split; [unfold is_slot, IND; lia|]. symmetry. apply slot_direct. change NDIRECT with 12. lia. }
  apply (trunc_direct_wp 12 _ s i ip); [done|done|apply F|apply F|lia|change NDIRECT with 12; lia|done|].
  intros s1 ip1 Fr C E1. destruct (C) as (C1 & C2 & C3 & C4). wp_steps.
  eapply wp_inode_at; [rewrite E1; by apply list_lookup_insert_eq|]. wp_steps.
  assert (Ea : addr_at ip1 NDIRECT = addr_at ip NDIRECT) by (by rewrite C4).
  assert (Hdone : forall s2 ip2, freeing s s2 (owned s ip) -> icache s2 = <[i := ip2]> (icache s) -> same_ino ip ip2 ->
    length (i_addrs ip2) = 13%nat -> (forall m, 0 <= m <= NDIRECT -> addr_at ip2 m = 0) ->
    wp (upd_inode i (set_size 0);; iupdate i) Q s2).
  { intros s2 ip2 Fr2 E2 Hs Hl Hz. wp_steps. eapply wp_upd_inode; [rewrite E2; by apply list_lookup_insert_eq|].
    destruct (fr_sb _ _ _ Fr2) as (Esb & _). destruct Hs as (Hs1 & Hs2 & Hs3).
    apply (wp_iupdate _ _ i (set_size 0 ip2)).
    - apply fs_ok_set_ino, Fr2.
    - simpl. rewrite E2. apply list_lookup_insert_eq. by rewrite length_insert.
    - simpl. rewrite Hs1. apply F.
    - simpl. by rewrite Esb, Hs2.
    - apply HQ. constructor; [by apply freeing_set_ino|split; [done|split; [done|by apply addrs_zero]]|].
      simpl. rewrite E2. apply list_insert_insert_eq. }
  destruct (Z.eqb_spec (addr_at ip1 NDIRECT) 0) as [Hz|Hz].
  - apply wp_ret. apply (Hdone s1 ip1); [|done|done|by rewrite C3; apply F|].
    + eapply freeing_ext; [exact Fr|]. intros x _. apply owned_direct. congruence.
    + intros m Hm. rewrite C4 by lia. change NDIRECT with 12 in *.
      destruct (Z.leb_spec 0 m), (Z.ltb_spec m (0 + Z.of_nat 12)); simpl; try done; try lia.
      replace m with 12 by lia. congruence.
  - apply (trunc_indirect_part _ s i ip s1 ip1); [done..|congruence|]. intros s2 Fr2 E2.
    assert (Hl1 : length (i_addrs ip1) = 13%nat) by (rewrite C3; apply F).
    apply (Hdone s2 (set_addr NDIRECT 0 ip1)); [done|done|done|simpl; by rewrite length_insert|].
    intros m Hm. destruct (decide (m = NDIRECT)) as [->|]; [apply addr_at_set_eq; by rewrite Hl1|].
    rewrite addr_at_set_ne, C4 by (done || lia). change NDIRECT with 12 in *.
    by destruct (Z.leb_spec 0 m), (Z.ltb_spec m (0 + Z.of_nat 12)); try lia.
Qed.

(** ** iput *)

(** What iput does to the last reference of an inode without links. *)
Record reclaimed s (i : nat) (ip : inode) s' : Prop := mkReclaimed {
  rc_ok : fs_ok s';
  rc_sb : sb s' = sb s /\ disksize s' = disksize s /\ devst s' = devst s;
  rc_used : forall x, 0 <= x < sb_size (sb s) -> used s' x = used s x && negb (owned s ip x);
  rc_blk : forall x, datastart s <= x -> rdb s' x = rdb s x;
  rc_ino : forall jp, i_type (disk_ino s' (i_inum ip) jp) = 0;
  rc_other : forall inum jp, 0 <= inum < sb_ninodes (sb s) -> inum <> i_inum ip ->
             disk_ino s' inum jp = disk_ino s inum jp;
  rc_entry : exists ip', icache s' = <[i := ip']> (icache s) /\ i_ref ip' = 0 /\ i_valid ip' = false /\
             i_locked ip' = false /\ i_dev ip' = i_dev ip /\ i_inum ip' = i_inum ip
}.

Lemma ino_ok_truncated ip ip' :
  ino_ok ip -> same_ino ip ip' -> i_size ip' = 0 -> i_addrs ip' = replicate 13 0 -> ino_ok ip'.
Proof.
  intros (H1 & H2 & H3 & H4 & _) (_&_&_&_&_&E1&E2&E3&E4) Es Ea. unfold ino_ok. rewrite E1, E2, E3, E4, Es, Ea.
  split; [done|]. split; [done|]. split; [done|]. split; [done|]. split; [lia|]. split; [done|].
  apply Forall_replicate. lia.
Qed.

Lemma iupdated_low s ip : fs_ok s -> 0 <= i_inum ip < sb_ninodes (sb s) -> ino_ok ip ->
  fs_ok (iupdated s ip) /\ (forall x, 0 <= x < sb_size (sb s) -> used (iupdated s ip) x = used s x) /\
  (forall x, datastart s <= x -> rdb (iupdated s ip) x = rdb s x).
Proof.
  intros O Hn Hok. destruct (IBLOCK_val s _ O Hn) as [_ Hb]. pose proof (datastart_bmap s O). unfold iupdated.
  split; [apply fs_ok_put_low; [done|by apply store_dinode_ok, rdb_ok|lia]|]. split.
  - intros x Hx. apply used_put_low; [done|lia|done].
  - intros x Hx. apply rdb_put_ne. lia.
Qed.

Lemma disk_ino_meta s s' inum jp :
  fs_ok s -> sb s' = sb s -> (forall x, x < sb_bmapstart (sb s) -> rdb s' x = rdb s x) ->
  0 <= inum < sb_ninodes (sb s) -> disk_ino s' inum jp = disk_ino s inum jp.
Proof.
  intros O E H Hn. unfold disk_ino. rewrite E, H; [done|]. destruct (IBLOCK_val s _ O Hn). lia.
Qed.

(** The disk after truncating [ip] and writing it out with type 0. *)
Lemma reclaim_disk s i ip s1 ip1 j jp :
  fs_ok s -> truncated s i ip s1 ip1 -> ino_ok ip -> 0 <= i_inum ip < sb_ninodes (sb s) ->
  let ip2 := set_type 0 ip1 in let s2 := iupdated (set_ino j jp (iupdated s1 ip1)) ip2 in
  fs_ok s2 /\ sb s2 = sb s /\ disksize s2 = disksize s /\ devst s2 = devst s /\
  (forall x, 0 <= x < sb_size (sb s) -> used s2 x = used s x && negb (owned s ip x)) /\
  (forall x, datastart s <= x -> rdb s2 x = rdb s x) /\
  (forall kp, i_type (disk_ino s2 (i_inum ip) kp) = 0) /\
  (forall inum kp, 0 <= inum < sb_ninodes (sb s) -> inum <> i_inum ip -> disk_ino s2 inum kp = disk_ino s inum kp).
Proof.
  intros O [Fr (Hs & Hz & Ha) E1] Hok Hn ip2 s2. pose proof Hs as (Hs1 & Hs2 & _).
  destruct (fr_sb _ _ _ Fr) as (Esb & Edk & Edv). pose proof (datastart_sb _ _ Esb) as Eds.
  assert (Hok1 : ino_ok ip1) by (by eapply ino_ok_truncated).
  assert (Hok2 : ino_ok ip2) by (destruct Hok1 as (?&?&?&?&?&?&?); split_and!; unfold s16_ok in *; simpl; try done; lia).
  assert (Hn1 : 0 <= i_inum ip1 < sb_ninodes (sb s1)) by (by rewrite Hs2, Esb).
  destruct (iupdated_low s1 ip1 (fr_ok _ _ _ Fr) Hn1 Hok1) as (O1 & Hu1 & Hb1).
  assert (O1' : fs_ok (set_ino j jp (iupdated s1 ip1))) by (by apply fs_ok_set_ino).
  destruct (iupdated_low (set_ino j jp (iupdated s1 ip1)) ip2 O1' Hn1 Hok2) as (O2 & Hu2 & Hb2).
  fold s2 in O2, Hu2, Hb2. split; [done|]. split; [done|]. split; [done|]. split; [done|].
  split; [|split; [|split]].
  - intros x Hx. rewrite Hu2 by (simpl; by rewrite Esb). rewrite <- (fr_used _ _ _ Fr) by done.
    apply (Hu1 x). by rewrite Esb.
  - intros x Hx. rewrite Hb2 by (change (datastart s1 <= x); by rewrite Eds).
    rewrite <- (fr_blk _ _ _ Fr) by (by right). apply (Hb1 x). by rewrite Eds.
  - intros kp. unfold s2. rewrite <- Hs2. change (i_inum ip1) with (i_inum ip2) at 1.
    rewrite disk_ino_iupdated by done. by rewrite Z.eqb_refl.
  - intros inum kp Hin Hne. unfold s2. rewrite <- Hs2 in Hne.
    rewrite disk_ino_iupdated by (done || (simpl; by rewrite Esb)).
    destruct (Z.eqb_spec inum (i_inum ip2)); [done|]. change (disk_ino (iupdated s1 ip1) inum kp = disk_ino s inum kp).
    rewrite disk_ino_iupdated by (apply Fr || done || by rewrite Esb).
    destruct (Z.eqb_spec inum (i_inum ip1)); [done|]. apply disk_ino_meta; [done|done| |done].
    intros x Hx. apply (fr_blk _ _ _ Fr). by left.
Qed.

Lemma iput_last_wp (Q : unit -> fsst D -> Prop) s i ip :
  finv s i ip -> ino_ok ip -> 0 <= i_inum ip < sb_ninodes (sb s) -> i_locked ip = false ->
  i_valid ip = true -> i_nlink ip = 0 -> i_ref ip = 1 ->
  (forall s', reclaimed s i ip s' -> Q tt s') -> wp (iput i) Q s.
Proof.
  intros (O & Hi & F) Hok Hn Hl Hv Hnl Hr HQ. assert (Hlt : (i < length (icache s))%nat) by (by eapply lookup_lt_Some).
  unfold iput, iacquire. wp_steps. eapply wp_inode_at; [done|]. rewrite Hl. eapply wp_upd_inode; [done|].
  set (ipL := set_locked true ip). set (s0 := set_ino i ipL s).
  assert (Hi0 : icache s0 !! i = Some ipL) by (by apply list_lookup_insert_eq).
  wp_steps. eapply wp_inode_at; [exact Hi0|]. change (i_valid ipL) with (i_valid ip).
  change (i_nlink ipL) with (i_nlink ip). change (i_ref ipL) with (i_ref ip). rewrite Hv, Hnl, Hr.
  change (true && (0 =? 0)) with true. change (1 =? 1) with true. cbv iota.
  assert (Fv0 : finv s0 i ipL) by (split; [by apply fs_ok_set_ino|split; [done|constructor; apply F]]).
  wp_steps. apply (itrunc_wp _ s0 i ipL); [done|done|]. intros s1 ip1 T. wp_steps.
  pose proof (tr_icache _ _ _ _ _ T) as E1. destruct (tr_ino _ _ _ _ _ T) as (Hs & Hz & Ha).
  assert (Ei1 : icache (iupdated s1 ip1) = <[i := ip1]> (icache s)) by (simpl; rewrite E1; apply list_insert_insert_eq).
  eapply wp_upd_inode; [rewrite Ei1; by apply list_lookup_insert_eq|]. wp_steps.
  set (s2 := set_ino i (set_type 0 ip1) (iupdated s1 ip1)).
  destruct (reclaim_disk s0 i ipL s1 ip1 i (set_type 0 ip1) (fs_ok_set_ino _ _ _ O) T Hok Hn)
    as (O3 & Esb & Edk & Edv & Hu & Hb & Ht & Ho). fold s2 in O3, Esb, Edk, Edv, Hu, Hb, Ht, Ho.
  assert (Ei2 : icache s2 = <[i := set_type 0 ip1]> (icache s))
    by (unfold s2; cbn [set_ino set_icache icache]; rewrite Ei1; apply list_insert_insert_eq).
  pose proof (fr_sb _ _ _ (tr_free _ _ _ _ _ T)) as (Esb1 & _). pose proof Hs as (Hs1 & Hs2 & Hs3 & Hs4 & Hs5).
  assert (O2 : fs_ok s2).
  { apply fs_ok_set_ino. apply (iupdated_low s1 ip1); [apply T|rewrite Hs2, Esb1; done|].
    eapply ino_ok_truncated; [|exact Hs|done|done]; exact Hok. }
  apply (wp_iupdate _ _ i (set_type 0 ip1)); [done|rewrite Ei2; by apply list_lookup_insert_eq|simpl; rewrite Hs1; apply F|
    simpl; rewrite Hs2, Esb1; done|].
  set (s3 := iupdated s2 (set_type 0 ip1)) in *.
  assert (Ei3 : icache s3 = <[i := set_type 0 ip1]> (icache s)) by exact Ei2. clearbody s3.
  eapply wp_upd_inode; [rewrite Ei3; by apply list_lookup_insert_eq|]. wp_steps.
  eapply wp_upd_inode; [simpl; apply list_lookup_insert_eq; rewrite Ei3; by rewrite length_insert|].
  eapply wp_upd_inode; [simpl; apply list_lookup_insert_eq; rewrite length_insert, Ei3; by rewrite length_insert|].
  apply HQ. constructor; [by do 3 apply fs_ok_set_ino|done|exact Hu|exact Hb|exact Ht|exact Ho|].
  eexists. split; [cbn [set_ino set_icache icache]; rewrite Ei3, !list_insert_insert_eq; reflexivity|].
  simpl. rewrite Hs3. simpl. split; [lia|]. done.
Qed.

(** Any other iput only drops the reference. *)
Lemma iput_drop s i ip :
  icache s !! i = Some ip -> i_locked ip = false ->
  i_valid ip && (i_nlink ip =? 0) && (i_ref ip =? 1) = false ->
  iput i s = Ret tt (set_ino i (set_ref (i_ref ip - 1) ip) s).
Proof.
  intros Hi Hl Hc. assert (Hlt : (i < length (icache s))%nat) by (by eapply lookup_lt_Some).
  assert (Hw : wp (iput i) (fun _ s' => s' = set_ino i (set_ref (i_ref ip - 1) ip) s) s).
  { unfold iput, iacquire. wp_steps. eapply wp_inode_at; [done|]. rewrite Hl. eapply wp_upd_inode; [done|]. wp_steps.
    eapply wp_inode_at; [by apply list_lookup_insert_eq|].
    change (i_valid (set_locked true ip)) with (i_valid ip). change (i_nlink (set_locked true ip)) with (i_nlink ip).
    change (i_ref (set_locked true ip)) with (i_ref ip).
    assert (Hrest : wp (upd_inode i (set_locked false);; upd_inode i (fun ip => set_ref (i_ref ip - 1) ip))
      (fun _ s' => s' = set_ino i (set_ref (i_ref ip - 1) ip) s) (set_ino i (set_locked true ip) s)).
    { wp_steps. eapply wp_upd_inode; [by apply list_lookup_insert_eq|].
      eapply wp_upd_inode; [simpl; apply list_lookup_insert_eq; by rewrite length_insert|].
      unfold set_ino. simpl. rewrite !list_insert_insert_eq. by destruct ip, s; simplify_eq/=. }
    destruct (i_valid ip && (i_nlink ip =? 0)); [|apply wp_ret; exact Hrest].
    destruct (i_ref ip =? 1); [done|]. apply wp_ret. exact Hrest. }
  destruct (wp_inv _ _ _ Hw) as ([]&?&E&->). exact E.
Qed.

(** iput of an unlocked inode drops one reference to it and no other.
    Unless the inode is valid, has no links and this was its last reference,
    nothing else changes.  Otherwise its content is truncated and the inode
    freed: exactly its blocks, with the indirect block, return to the bitmap, the
    inode on the disk has type 0, every other inode on the disk and the content
    of every data block are unchanged, and the cache entry is free. *)
Theorem iput_correct s i ip
    (Fv : finv s i ip) (Hc : icache_ok (icache s)) (Hok : ino_ok ip)
    (Hn : 0 <= i_inum ip < sb_ninodes (sb s)) (Hl : i_locked ip = false) (Hr : 0 < i_ref ip) :
  wp (iput i) (fun _ s' =>
    icache_ok (icache s') /\
    (forall d m, refcnt (icache s') d m =
       refcnt (icache s) d m - (if (d =? i_dev ip) && (m =? i_inum ip) then 1 else 0)) /\
    if i_valid ip && (i_nlink ip =? 0) && (i_ref ip =? 1) then reclaimed s i ip s'
    else s' = set_ino i (set_ref (i_ref ip - 1) ip) s) s.
Proof.
  pose proof Fv as (O & Hi & F).
  destruct (i_valid ip && (i_nlink ip =? 0) && (i_ref ip =? 1)) eqn:E.
  - b2p. apply (iput_last_wp _ s i ip); [done..|]. intros s' R.
    destruct (rc_entry _ _ _ _ R) as (ip' & Ei & Hr0 & Hv' & Hl' & Hd' & Hn'). split; [|split; [|done]].
    + rewrite Ei. apply (icache_ok_same _ i ip); [done|done|lia|lia|done|done].
    + intros d m. rewrite Ei, (refcnt_insert _ _ ip) by done. unfold is_ino. rewrite Hd', Hn', Hr0.
      rewrite (Z.eqb_sym (i_dev ip)), (Z.eqb_sym (i_inum ip)). destruct ((d =? i_dev ip) && (m =? i_inum ip)); lia.
  - eapply wp_intro; [by apply iput_drop|].
    pose proof (ref_add_counted s i ip (-1) Hc Hi Hr ltac:(lia)) as [_ Hok' _ Hrefs].
    split; [exact Hok'|]. split; [|done]. intros d m. etransitivity; [apply (Hrefs d m)|].
    destruct ((d =? i_dev ip) && (m =? i_inum ip)); lia.
Qed.
End Trunc.

(** ** Witness: a file of one block, without links, put for the last time *)
#[local] Instance no_devs : Devsw unit := {| dev_read := fun _ => None; dev_write := fun _ => None |}.

Definition dead_ino : inode := mkInode 1 1 1 false true T_FILE 0 0 0 0 (replicate 13 0).
Definition dead_file : fsst unit := set_ino 0 dead_ino demo_fs.

Lemma dead_finv : finv dead_file 0 dead_ino.
Proof.
  split; [apply fs_ok_set_ino, demo_fs_ok|]. split; [done|].
  constructor; [done|done|intros k _ []; by apply empty_slot|intros k j _ _ []; by apply empty_slot].
Qed.

Lemma single_icache_ok ip n : 0 <= i_ref ip -> icache_ok (ip :: replicate n inode0).
Proof.
  intros Hr. split; [constructor; [done|apply Forall_replicate; simpl; lia]|].
  assert (H0 : forall i jp, replicate n inode0 !! i = Some jp -> ~ 0 < i_ref jp)
    by (intros i jp [-> _]%lookup_replicate; simpl; lia).
  intros [|i] [|j] jp kp Hj Hk Hjr Hkr; simpl in *; try done; exfalso; by eapply H0.
Qed.

Lemma iput_correct_witness :
  wp (iput 0) (fun _ s' => refcnt (icache s') 1 1 = 0 /\ reclaimed dead_file 0 dead_ino s') dead_file.
Proof.
  assert (Hc : icache_ok (icache dead_file)) by (apply (single_icache_ok dead_ino 49); done).
  assert (Hok : ino_ok dead_ino)
    by (unfold ino_ok, s16_ok; simpl; split_and!; try lia; try done; repeat constructor; lia).
  assert (Hn : 0 <= i_inum dead_ino < sb_ninodes (sb dead_file)) by (by vm_compute).
  refine (wp_mono _ _ _ _ (iput_correct dead_file 0 dead_ino dead_finv Hc Hok Hn eq_refl ltac:(done)) _).
  intros _ s' (_ & Href & R). split; [by rewrite Href|exact R].
Defined.
