(* ===== verification/FsDir.v ===== *)
(** * Directories and path names (fs.c: namecmp, dirlookup, dirlink, skipelem)

    A directory as the list of its entries: dirlookup finds the first entry in
    use with the name, dirlink adds one.  skipelem against the list of the
    elements of a path. *)

From stdpp Require Import base numbers list gmap strings.
From Stdlib Require Import ZArith Lia Bool.
From S2P Require Import Prelude Block Mem Fs FsAlloc FsFile FsRw FsInode.

Local Open Scope Z_scope.
Local Open Scope kernel_scope.

(** ** Path names *)

(** The pieces of a path between slashes, and those that are not empty. *)
Fixpoint pieces (p : list Z) : list (list Z) :=
  match p with
  | [] => [[]]
  | c :: p' =>
      if c =? SLASH then [] :: pieces p'
      else match pieces p' with
           | h :: t => (c :: h) :: t
           | [] => [[c]]
           end
  end.

Definition is_nil (e : list Z) : bool := match e with [] => true | _ => false end.
Definition elems (p : list Z) : list (list Z) := List.filter (fun e => negb (is_nil e)) (pieces p).

Lemma elems_slash p : elems (SLASH :: p) = elems p.
Proof. done. Qed.

Lemma elems_skip p : elems (skip_slashes p) = elems p.
Proof.
  induction p as [|c p IH]; [done|]. cbn [skip_slashes]. destruct (Z.eqb_spec c SLASH) as [->|]; [|done].
  by rewrite elems_slash.
Qed.

Lemma skip_head p : match skip_slashes p with [] => True | c :: _ => c <> SLASH end.
Proof. induction p as [|c p IH]; [done|]. cbn [skip_slashes]. by destruct (Z.eqb_spec c SLASH). Qed.

Lemma skip_length p : (length (skip_slashes p) <= length p)%nat.
Proof. induction p as [|c p IH]; [done|]. cbn [skip_slashes]. destruct (c =? SLASH); simpl; lia. Qed.

Lemma pieces_nonempty p : pieces p <> [].
Proof. destruct p as [|c p]; [done|]. cbn [pieces]. destruct (c =? SLASH); [done|]. by destruct (pieces p). Qed.

Lemma span_spec p :
  let '(e, r) := span_elem p in
  match pieces p with h :: t => h = e /\ (t = [] /\ r = [] \/ exists r', r = SLASH :: r' /\ t = pieces r') | [] => False end /\
  (length e + length r = length p)%nat.
Proof.
  induction p as [|c p IH]; cbn [span_elem pieces]; [split; [|done]; split; [done|by left]|].
  destruct (Z.eqb_spec c SLASH) as [->|Hne]; [split; [|done]; split; [done|right; by exists p]|].
  destruct (span_elem p) as [e r]. destruct IH as [IH Hl]. destruct (pieces p) as [|h t]; [done|].
  destruct IH as [-> IH]. split; [by split|simpl; lia].
Qed.

Lemma elems_nil_head p : match p with [] => True | c :: _ => c <> SLASH end -> elems p = [] -> p = [].
Proof.
  destruct p as [|c p]; [done|]. intros Hc. unfold elems. cbn [pieces].
  destruct (Z.eqb_spec c SLASH); [done|]. by destruct (pieces p).
Qed.

(** skipelem takes a path apart the way its comment describes: it returns
    0 exactly when the path has no element; otherwise it sets name to the first
    element, cut to DIRSIZ bytes, and returns a path with the remaining
    elements, without a leading slash, shorter than the one it was given; that
    path is empty exactly when the element was the last one. *)
Theorem skipelem_correct (path : list Z) :
  match skipelem path with
  | None => elems path = []
  | Some (name, rest) =>
      exists e, elems path = e :: elems rest /\ name = take (Z.to_nat DIRSIZ) e /\ e <> [] /\
      (length rest < length path)%nat /\ head rest <> Some SLASH /\ (rest = [] <-> elems rest = [])
  end.
Proof.
  unfold skipelem. pose proof (elems_skip path) as Es. pose proof (skip_head path) as Hh. pose proof (skip_length path) as Hl.
  destruct (skip_slashes path) as [|c p]; [by rewrite <- Es|].
  pose proof (span_spec (c :: p)) as Hsp. destruct (span_elem (c :: p)) as [e r] eqn:Esp.
  destruct Hsp as [Hsp Hlen]. destruct (pieces (c :: p)) as [|h t] eqn:Ep; [done|]. destruct Hsp as [-> Ht].
  assert (He : e <> []).
  { intros ->. cbn [span_elem] in Esp. destruct (Z.eqb_spec c SLASH); [done|]. by destruct (span_elem p). }
  assert (Er : elems (skip_slashes r) = List.filter (fun e => negb (is_nil e)) t).
  { rewrite elems_skip. destruct Ht as [[-> ->]|(r' & -> & ->)]; done. }
  exists e. split; [|split; [|split; [done|split; [|split]]]].
  - rewrite <- Es, Er. unfold elems. rewrite Ep. simpl. by destruct e.
  - destruct (Z.of_nat (length e) >=? DIRSIZ) eqn:E; [done|]. b2p. rewrite take_ge; [done|].
    unfold DIRSIZ in *. lia.
  - pose proof (skip_length r). assert (0 < length e)%nat by (destruct e; simpl; [done|lia]). lia.
  - pose proof (skip_head r). destruct (skip_slashes r) as [|x y]; simpl; congruence.
  - split; [by intros ->|]. apply elems_nil_head, skip_head.
Qed.

(** ** Names *)

(** A name as namecmp sees it: at most DIRSIZ bytes, up to the first NUL. *)
Fixpoint upto_nul (l : list Z) : list Z :=
  match l with [] => [] | c :: l' => if c =? 0 then [] else c :: upto_nul l' end.
Definition cname (l : list Z) : list Z := upto_nul (take (Z.to_nat DIRSIZ) l).

Lemma strncmp_loop_eq (p q : list Z) i n :
  0 <= i ->
  strncmp_loop (cstr p) (cstr q) i n = 0 <->
  upto_nul (take n (drop (Z.to_nat i) p)) = upto_nul (take n (drop (Z.to_nat i) q)).
Proof.
  revert i. induction n as [|n IH]; intros i Hi; [done|]. cbn [strncmp_loop].
  assert (Hd : forall l : list Z, upto_nul (take (S n) (drop (Z.to_nat i) l)) =
    if cstr l i =? 0 then [] else cstr l i :: upto_nul (take n (drop (Z.to_nat (i + 1)) l))).
  { intros l. unfold cstr. replace (Z.to_nat (i + 1)) with (S (Z.to_nat i)) by lia.
    destruct (l !! Z.to_nat i) as [c|] eqn:E; simpl.
    - rewrite (drop_S l c) by done. simpl. done.
    - rewrite drop_ge by (by apply lookup_ge_None). done. }
  rewrite !Hd. specialize (IH (i + 1) ltac:(lia)).
  destruct (Z.eqb_spec (cstr p i) 0) as [Ep|Ep], (Z.eqb_spec (cstr q i) 0) as [Eq|Eq]; cbn [negb andb].
  - rewrite Ep, Eq. done.
  - split; [lia|done].
  - destruct (Z.eqb_spec (cstr p i) (cstr q i)); [congruence|]. split; [lia|done].
  - destruct (Z.eqb_spec (cstr p i) (cstr q i)) as [E|E].
    + rewrite IH, E. split; [by intros ->|by intros [= ->]].
    + split; [lia|]. intros [= ? ?]. done.
Qed.

Lemma namecmp_eq p q : namecmp p q = 0 <-> cname p = cname q.
Proof. unfold namecmp, strncmp, cname. by rewrite strncmp_loop_eq by lia. Qed.

Section Dir.
Context {D : Type} `{DV : Devsw D}.
Implicit Types s : fsst D.

(** ** The entries of a directory *)
Definition dirent_at s (ip : inode) (k : Z) : list Z := map (fbyte s ip) (seqZ (sizeof_dirent * k) sizeof_dirent).
Definition nents (ip : inode) : Z := i_size ip / sizeof_dirent.

Record dir_ok s (i : nat) (ip : inode) : Prop := mkDirOk {
  dir_file : finv s i ip;
  dir_nohole : nohole s ip;
  dir_type : i_type ip = T_DIR;
  dir_size : 0 <= i_size ip /\ i_size ip mod sizeof_dirent = 0
}.

Lemma dir_size_nents s i ip : dir_ok s i ip -> i_size ip = sizeof_dirent * nents ip /\ 0 <= nents ip /\
  i_size ip < 4294967296 - 16.
Proof.
  intros [Fv [Hm _] _ [Hs Hz]]. unfold nents. pose proof (Z.div_mod (i_size ip) sizeof_dirent ltac:(done)).
  assert (MAXFILE * BSIZE < 4294967296 - 16) by done.
  assert (0 <= i_size ip / sizeof_dirent) by (apply Z.div_pos; [lia|done]). lia.
Qed.

Definition hit s (ip : inode) (name : list Z) (k : Z) : bool :=
  negb (de_inum (dirent_at s ip k) =? 0) && (namecmp name (de_name (dirent_at s ip k)) =? 0).

(** The first entry in use with the name, from index [k] on. *)
Fixpoint find_from (f : Z -> bool) (k : Z) (n : nat) : option Z :=
  match n with
  | O => None
  | S n' => if f k then Some k else find_from f (k + 1) n'
  end.

Definition dir_find s (ip : inode) (name : list Z) : option Z := find_from (hit s ip name) 0 (Z.to_nat (nents ip)).

Lemma find_from_spec f k n :
  match find_from f k n with
  | Some j => k <= j < k + Z.of_nat n /\ f j = true /\ forall m, k <= m < j -> f m = false
  | None => forall m, k <= m < k + Z.of_nat n -> f m = false
  end.
Proof.
  revert k. induction n as [|n IH]; intros k; cbn [find_from]; [lia|].
  destruct (f k) eqn:E; [split; [lia|]; split; [done|lia]|]. specialize (IH (k + 1)).
  destruct (find_from f (k + 1) n) as [j|].
  - destruct IH as (Hj & Hf & Hm). split; [lia|]. split; [done|]. intros m Hmk.
    destruct (decide (m = k)) as [->|]; [done|]. apply Hm. lia.
  - intros m Hmk. destruct (decide (m = k)) as [->|]; [done|]. apply IH. lia.
Qed.

Lemma find_from_unique f k n j :
  k <= j < k + Z.of_nat n -> f j = true -> (forall m, k <= m < k + Z.of_nat n -> m <> j -> f m = false) ->
  find_from f k n = Some j.
Proof.
  intros Hj Hf Hu. pose proof (find_from_spec f k n) as H. destruct (find_from f k n) as [m|].
  - destruct H as (Hm & Hfm & _). destruct (decide (m = j)) as [->|Hne]; [done|]. rewrite Hu in Hfm by done. done.
  - rewrite H in Hf by done. done.
Qed.

Lemma read_dirent s i ip k :
  dir_ok s i ip -> 0 <= k < nents ip ->
  readi i (sizeof_dirent * k) sizeof_dirent s = Ret (Some (dirent_at s ip k)) s.
Proof.
  intros Hd Hk. destruct (dir_size_nents s i ip Hd) as (Es & Hn & Hmax). pose proof Hd as [Fv Hh Ht _].
  unfold sizeof_dirent in *. rewrite (readi_spec s i ip); [|done|done|by rewrite Ht|lia|lia|lia].
  rewrite Z.min_l by lia. done.
Qed.

Lemma length_dirent_at s ip k : Z.of_nat (length (dirent_at s ip k)) = sizeof_dirent.
Proof. unfold dirent_at. by rewrite length_map, length_seqZ. Qed.

Lemma run_inode_at s i ip : icache s !! i = Some ip -> inode_at i s = Ret ip s.
Proof. intros Hi. unfold inode_at. by rewrite bind_get, Hi. Qed.

Definition lookup_result (i : nat) (r : option Z) s (ip : inode) : M (fsst D) (option (nat * Z)) :=
  match r with
  | None => ret None
  | Some k => j <- iget (i_dev ip) (de_inum (dirent_at s ip k));; ret (Some (j, sizeof_dirent * k))
  end.

Lemma dirlookup_loop_spec n s i ip name k :
  dir_ok s i ip -> 0 <= k <= nents ip -> (nents ip - k < Z.of_nat n) ->
  dirlookup_loop n i name (sizeof_dirent * k) s =
  lookup_result i (find_from (hit s ip name) k (Z.to_nat (nents ip - k))) s ip s.
Proof.
  intros Hd. destruct (dir_size_nents s i ip Hd) as (Es & Hn & Hmax). pose proof Hd as [(O & Hi & F) _ _ _].
  revert k. induction n as [|n IH]; intros k Hk Hf; [lia|]. cbn [dirlookup_loop].
  rewrite (bind_run _ _ _ _ _ (run_inode_at s i ip Hi)).
  destruct (Z.ltb_spec (sizeof_dirent * k) (i_size ip)) as [Hlt|Hge].
  2: { replace (nents ip - k) with 0 by (unfold sizeof_dirent in *; lia). done. }
  assert (Hkn : k < nents ip) by (unfold sizeof_dirent in *; lia).
  rewrite (bind_run _ _ _ _ _ (read_dirent s i ip k Hd ltac:(lia))).
  rewrite length_dirent_at, Z.eqb_refl. cbn [negb].
  replace (Z.to_nat (nents ip - k)) with (S (Z.to_nat (nents ip - (k + 1)))) by lia. cbn [find_from].
  assert (Enext : u32 (sizeof_dirent * k + sizeof_dirent) = sizeof_dirent * (k + 1))
    by (rewrite u32_small; unfold sizeof_dirent in *; lia).
  rewrite Enext. unfold hit at 1. destruct (Z.eqb_spec (de_inum (dirent_at s ip k)) 0) as [Ez|Ez]; cbn [negb andb].
  { apply IH; lia. }
  destruct (namecmp name (de_name (dirent_at s ip k)) =? 0); [|apply IH; lia].
  rewrite (bind_run _ _ _ _ _ (run_inode_at s i ip Hi)). done.
Qed.

Lemma dirlookup_spec s i ip name :
  dir_ok s i ip -> dirlookup i name s = lookup_result i (dir_find s ip name) s ip s.
Proof.
  intros Hd. destruct (dir_size_nents s i ip Hd) as (Es & Hn & Hmax). pose proof Hd as [(O & Hi & F) _ Ht _].
  unfold dirlookup. rewrite (bind_run _ _ _ _ _ (run_inode_at s i ip Hi)). rewrite Ht. cbn [negb Z.eqb].
  change (T_DIR =? T_DIR) with true. cbn [negb]. fold (nents ip).
  pose proof (dirlookup_loop_spec (Z.to_nat (nents ip) + 2) s i ip name 0 Hd ltac:(lia) ltac:(lia)) as E.
  rewrite Z.sub_0_r in E. exact E.
Qed.

(** ** dirlink: the first free entry, or the end of the directory *)
Definition free_slot s (ip : inode) : Z :=
  default (nents ip) (find_from (fun k => de_inum (dirent_at s ip k) =? 0) 0 (Z.to_nat (nents ip))).

Lemma dirlink_loop_spec n s i ip k :
  dir_ok s i ip -> 0 <= k <= nents ip -> nents ip - k < Z.of_nat n ->
  dirlink_loop n i (sizeof_dirent * k) s =
  Ret (sizeof_dirent * default (nents ip) (find_from (fun k => de_inum (dirent_at s ip k) =? 0) k
        (Z.to_nat (nents ip - k)))) s.
Proof.
  intros Hd. destruct (dir_size_nents s i ip Hd) as (Es & Hn & Hmax). pose proof Hd as [(O & Hi & F) [Hmx _] _ _].
  assert (Hm31 : MAXFILE * BSIZE < 2147483648 - 16) by done.
  revert k. induction n as [|n IH]; intros k Hk Hf; [lia|]. cbn [dirlink_loop].
  rewrite (bind_run _ _ _ _ _ (run_inode_at s i ip Hi)). rewrite u32_small by (unfold sizeof_dirent in *; lia).
  destruct (Z.ltb_spec (sizeof_dirent * k) (i_size ip)) as [Hlt|Hge].
  2: { replace (nents ip - k) with 0 by (unfold sizeof_dirent in *; lia).
       assert (k = nents ip) as -> by (unfold sizeof_dirent in *; lia). done. }
  assert (Hkn : k < nents ip) by (unfold sizeof_dirent in *; lia).
  rewrite (bind_run _ _ _ _ _ (read_dirent s i ip k Hd ltac:(lia))).
  rewrite length_dirent_at, Z.eqb_refl. cbn [negb].
  replace (Z.to_nat (nents ip - k)) with (S (Z.to_nat (nents ip - (k + 1)))) by lia. cbn [find_from].
  destruct (de_inum (dirent_at s ip k) =? 0); [done|].
  assert (Enext : s32 (sizeof_dirent * k + sizeof_dirent) = sizeof_dirent * (k + 1))
    by (rewrite s32_small; unfold sizeof_dirent in *; lia).
  rewrite Enext. apply IH; lia.
Qed.

Lemma free_slot_range s i ip : dir_ok s i ip ->
  0 <= free_slot s ip <= nents ip /\
  (free_slot s ip < nents ip -> de_inum (dirent_at s ip (free_slot s ip)) = 0).
Proof.
  intros Hd. destruct (dir_size_nents s i ip Hd) as (_ & Hn & _). unfold free_slot.
  pose proof (find_from_spec (fun k => de_inum (dirent_at s ip k) =? 0) 0 (Z.to_nat (nents ip))) as H.
  destruct (find_from _ 0 (Z.to_nat (nents ip))) as [j|]; simpl; [|lia].
  destruct H as (Hj & Hf & _). split; [lia|]. intros _. by apply Z.eqb_eq.
Qed.

(** The entry dirlink writes. *)
Definition new_dirent (name : list Z) (inum : Z) : list Z :=
  mk_dirent inum (strncpy (cstr name) (Z.to_nat DIRSIZ)).

Lemma strncpy_loop_length t j n : length (strncpy_loop t j n) = n.
Proof.
  revert j. induction n as [|n IH]; intros j; cbn [strncpy_loop]; [done|].
  destruct (t j =? 0); [apply length_replicate|]. simpl. by rewrite IH.
Qed.

Lemma upto_nul_zeros n : upto_nul (replicate n 0) = [].
Proof. by destruct n. Qed.

Lemma strncpy_loop_upto (l : list Z) j n :
  0 <= j -> upto_nul (strncpy_loop (cstr l) j n) = upto_nul (take n (drop (Z.to_nat j) l)).
Proof.
  revert j. induction n as [|n IH]; intros j Hj; [done|]. cbn [strncpy_loop].
  specialize (IH (j + 1) ltac:(lia)). replace (Z.to_nat (j + 1)) with (S (Z.to_nat j)) in IH by lia.
  unfold cstr at 1 2. destruct (l !! Z.to_nat j) as [c|] eqn:E; simpl default.
  - rewrite (drop_S l c) by done. cbn [take upto_nul]. destruct (Z.eqb_spec c 0) as [->|Hne].
    + by rewrite upto_nul_zeros.
    + cbn [upto_nul]. destruct (Z.eqb_spec c 0); [done|]. by rewrite IH.
  - rewrite drop_ge by (by apply lookup_ge_None). cbn [Z.eqb]. by rewrite upto_nul_zeros.
Qed.

Lemma strncpy_bytes l j n :
  Forall (fun b => 0 <= b < 256) l -> Forall (fun b => 0 <= b < 256) (strncpy_loop (cstr l) j n).
Proof.
  intros Hl. revert j. induction n as [|n IH]; intros j; cbn [strncpy_loop]; [constructor|].
  destruct (cstr l j =? 0); [apply Forall_replicate; lia|]. constructor; [|apply IH].
  unfold cstr. destruct (l !! Z.to_nat j) eqn:E; simpl; [|lia]. by apply (Forall_lookup_1 _ _ _ _ Hl E).
Qed.

Lemma new_dirent_ok name inum :
  Forall (fun b => 0 <= b < 256) name -> 0 < inum < 65536 ->
  length (new_dirent name inum) = 16%nat /\ Forall (fun b => 0 <= b < 256) (new_dirent name inum) /\
  de_inum (new_dirent name inum) = inum /\ cname (de_name (new_dirent name inum)) = cname name.
Proof.
  intros Hn Hi. unfold new_dirent, mk_dirent, strncpy.
  pose proof (strncpy_loop_length (cstr name) 0 (Z.to_nat DIRSIZ)) as Hl. split; [|split; [|split]].
  - rewrite length_app, Hl. done.
  - apply Forall_app. split; [apply le16_ok|by apply strncpy_bytes].
  - change (inum mod 256 + 256 * (inum / 256 mod 256) = inum).
    rewrite le16_sum. apply Z.mod_small. lia.
  - set (l := strncpy_loop (cstr name) 0 (Z.to_nat DIRSIZ)) in *. change (cname l = cname name). unfold cname at 1.
    rewrite (take_ge l) by (rewrite Hl; lia). unfold l.
    by rewrite strncpy_loop_upto by lia.
Qed.

(** The entries after the write at the free slot. *)
Lemma dirent_written s i ip s' ip' k0 e :
  dir_ok s i ip -> 0 <= k0 <= nents ip -> length e = 16%nat -> wrote s i ip s' ip' (sizeof_dirent * k0) e ->
  dir_ok s' i ip' /\ nents ip' = Z.max (nents ip) (k0 + 1) /\ dirent_at s' ip' k0 = e /\
  forall k, 0 <= k < nents ip -> k <> k0 -> dirent_at s' ip' k = dirent_at s ip k.
Proof.
  intros Hd Hk He W. destruct (dir_size_nents s i ip Hd) as (Es & Hn & Hmax).
  pose proof (wo_size _ _ _ _ _ _ _ W) as Esz. rewrite He in Esz. change (Z.of_nat 16) with sizeof_dirent in Esz.
  assert (Esz' : i_size ip' = sizeof_dirent * Z.max (nents ip) (k0 + 1)) by (unfold sizeof_dirent in *; lia).
  assert (En : nents ip' = Z.max (nents ip) (k0 + 1))
    by (unfold nents at 1; rewrite Esz', Z.mul_comm; by apply Z.div_mul).
  split; [|split; [done|split]].
  - constructor; [exact (wo_inv _ _ _ _ _ _ _ W)|exact (wo_nohole _ _ _ _ _ _ _ W)| |].
    + destruct (wo_ino _ _ _ _ _ _ _ W) as (_&_&_&_&_&->&_). exact (dir_type _ _ _ Hd).
    + split; [unfold sizeof_dirent in *; lia|]. rewrite Esz', Z.mul_comm. by apply Z.mod_mul.
  - unfold dirent_at. apply list_eq. intros j. change (map ?f ?l) with (f <$> l). rewrite list_lookup_fmap.
    destruct (e !! j) as [b|] eqn:Ej.
    + pose proof (lookup_lt_Some _ _ _ Ej).
      rewrite (proj2 (lookup_seqZ (sizeof_dirent * k0) sizeof_dirent j _) ltac:(split; [reflexivity|unfold sizeof_dirent; lia])).
      simpl. by rewrite (wo_src _ _ _ _ _ _ _ W j b Ej).
    + apply lookup_ge_None in Ej. rewrite lookup_seqZ_ge by (unfold sizeof_dirent; lia). done.
  - intros k Hkn Hne. unfold dirent_at. apply map_ext_in. intros x Hx%list_elem_of_In%elem_of_seqZ.
    unfold sizeof_dirent in *. apply (wo_rest _ _ _ _ _ _ _ W); [lia|]. rewrite He. lia.
Qed.

(** Names other than the new one are found where they were. *)
Lemma dir_find_other s i ip s' ip' name n inum :
  dir_ok s i ip -> dir_ok s' i ip' -> nents ip' = Z.max (nents ip) (free_slot s ip + 1) ->
  dirent_at s' ip' (free_slot s ip) = new_dirent name inum ->
  (forall k, 0 <= k < nents ip -> k <> free_slot s ip -> dirent_at s' ip' k = dirent_at s ip k) ->
  Forall (fun b => 0 <= b < 256) name -> 0 < inum < 65536 -> cname n <> cname name ->
  dir_find s' ip' n = dir_find s ip n.
Proof.
  intros Hd Hd' En Enew Hkeep Hnb Hin Hne. destruct (free_slot_range s i ip Hd) as [Hr Hz].
  destruct (new_dirent_ok name inum Hnb Hin) as (_ & _ & _ & Ec). set (k0 := free_slot s ip) in *.
  assert (Hh : forall k, 0 <= k < nents ip -> hit s' ip' n k = hit s ip n k).
  { intros k Hk. destruct (decide (k = k0)) as [->|Hk0]; [|unfold hit; by rewrite Hkeep].
    unfold hit. rewrite Enew, (Hz ltac:(lia)). cbn [negb andb Z.eqb]. apply andb_false_intro2, Z.eqb_neq.
    rewrite namecmp_eq, Ec. done. }
  assert (Hk0h : hit s' ip' n k0 = false).
  { unfold hit. rewrite Enew. apply andb_false_intro2, Z.eqb_neq. rewrite namecmp_eq, Ec. done. }
  unfold dir_find. pose proof (find_from_spec (hit s ip n) 0 (Z.to_nat (nents ip))) as H1.
  pose proof (find_from_spec (hit s' ip' n) 0 (Z.to_nat (nents ip'))) as H2.
  destruct (dir_size_nents s i ip Hd) as (_ & Hn & _).
  assert (Hin' : forall m, 0 <= m < nents ip' -> hit s' ip' n m = true -> m < nents ip).
  { intros m Hm Hht. destruct (decide (m < nents ip)); [done|]. assert (m = k0) as -> by lia. congruence. }
  destruct (find_from (hit s ip n) 0 _) as [a|], (find_from (hit s' ip' n) 0 _) as [b|]; [|..|done].
  - destruct H1 as (Ha & Hta & Hba), H2 as (Hb & Htb & Hbb). pose proof (Hin' b ltac:(lia) Htb). f_equal.
    destruct (Z.lt_trichotomy a b) as [Hlt|[->|Hlt]]; [|done|].
    + rewrite <- Hh, Hbb in Hta by lia. done.
    + rewrite Hh, Hba in Htb by lia. done.
  - destruct H1 as (Ha & Hta & _). rewrite <- Hh, H2 in Hta by lia. done.
  - destruct H2 as (Hb & Htb & _). pose proof (Hin' b ltac:(lia) Htb). rewrite Hh, H1 in Htb by lia. done.
Qed.

(** Entry [k] is in use and has the name. *)
Definition names s (ip : inode) (name : list Z) (k : Z) : Prop :=
  de_inum (dirent_at s ip k) <> 0 /\ cname (de_name (dirent_at s ip k)) = cname name.

Lemma hit_names s ip name k : hit s ip name k = true <-> names s ip name k.
Proof.
  unfold hit, names. rewrite andb_true_iff, negb_true_iff, Z.eqb_neq, Z.eqb_eq, namecmp_eq. split; intros [? ?]; split; done.
Qed.

(** dirlookup in a well-formed directory returns the null pointer, and
    leaves the state alone, exactly when no entry in use has the name (the first
    DIRSIZ bytes up to a NUL); otherwise it finds the first one, returns the
    inode that entry names, with one more reference, and its offset. *)
Theorem dirlookup_correct s i ip name (Hd : dir_ok s i ip) :
  match dir_find s ip name with
  | Some k => 0 <= k < nents ip /\ names s ip name k /\ (forall m, 0 <= m < k -> ~ names s ip name m) /\
      dirlookup i name s =
      (j <- iget (i_dev ip) (de_inum (dirent_at s ip k));; ret (Some (j, sizeof_dirent * k))) s
  | None => (forall m, 0 <= m < nents ip -> ~ names s ip name m) /\ dirlookup i name s = Ret None s
  end.
Proof.
  rewrite (dirlookup_spec s i ip name Hd). destruct (dir_size_nents s i ip Hd) as (_ & Hn & _). unfold dir_find.
  pose proof (find_from_spec (hit s ip name) 0 (Z.to_nat (nents ip))) as H.
  destruct (find_from (hit s ip name) 0 (Z.to_nat (nents ip))) as [k|].
  - destruct H as (Hk & Hh & Hm). split; [lia|]. split; [by apply hit_names|]. split; [|done].
    intros m Hmk. rewrite <- hit_names, Hm by lia. done.
  - split; [|done]. intros m Hm. rewrite <- hit_names, H by lia. done.
Qed.

Lemma dirlink_spare_wp (Q : Z -> fsst D -> Prop) s i ip name inum N :
  dir_ok s i ip -> dir_find s ip name = None -> 0 <= i_inum ip < sb_ninodes (sb s) ->
  Forall (fun b => 0 <= b < 256) name -> 0 < inum < 65536 -> i_size ip + sizeof_dirent <= MAXFILE * BSIZE ->
  (missing s ip (wslots (sizeof_dirent * free_slot s ip) sizeof_dirent) + N <= nfree s)%nat ->
  (forall s' ip', wrote s i ip s' ip' (sizeof_dirent * free_slot s ip) (new_dirent name inum) ->
     (N <= nfree s')%nat -> Q 0 s') ->
  wp (dirlink i name inum) Q s.
Proof.
  intros Hd Hnone Hn Hnb Hin Hmax Hfree HQ. destruct (dir_size_nents s i ip Hd) as (Es & Hne & Hm32).
  destruct (free_slot_range s i ip Hd) as [Hr _]. pose proof Hd as [(O & Hi & F) Hh Ht _].
  destruct (new_dirent_ok name inum Hnb Hin) as (Hl & Hb & _ & _).
  unfold dirlink. wp_steps. eapply wp_intro; [by rewrite (dirlookup_spec s i ip name Hd), Hnone|].
  cbv beta iota. wp_steps. eapply wp_inode_at; [done|]. wp_steps. fold (nents ip).
  pose proof (dirlink_loop_spec (Z.to_nat (nents ip) + 2) s i ip 0 Hd ltac:(lia) ltac:(lia)) as El.
  rewrite Z.sub_0_r in El. fold (free_slot s ip) in El. eapply wp_intro; [exact El|]. wp_steps.
  rewrite u32_small by (unfold sizeof_dirent in *; lia). fold (new_dirent name inum).
  apply (writei_spare_wp _ s i ip _ _ N); [apply Hd|done|by rewrite Ht|done|done|unfold sizeof_dirent in *; lia| | |];
    rewrite ?Hl; change (Z.of_nat 16) with sizeof_dirent; [unfold sizeof_dirent in *; lia|done|].
  intros s' ip' W HN. rewrite bool_decide_true by done. wp_steps. by eapply HQ.
Qed.

Lemma dirlink_wp (Q : Z -> fsst D -> Prop) s i ip name inum :
  dir_ok s i ip -> dir_find s ip name = None -> 0 <= i_inum ip < sb_ninodes (sb s) ->
  Forall (fun b => 0 <= b < 256) name -> 0 < inum < 65536 -> i_size ip + sizeof_dirent <= MAXFILE * BSIZE ->
  (missing s ip (wslots (sizeof_dirent * free_slot s ip) sizeof_dirent) <= nfree s)%nat ->
  (forall s' ip', wrote s i ip s' ip' (sizeof_dirent * free_slot s ip) (new_dirent name inum) -> Q 0 s') ->
  wp (dirlink i name inum) Q s.
Proof.
  intros Hd Hnone Hn Hnb Hin Hmax Hfree HQ. apply (dirlink_spare_wp Q s i ip name inum 0); [done..|lia|].
  intros s' ip' W _. by eapply HQ.
Qed.

(** dirlink of a name that is not in the directory writes one entry, into
    the first free slot or at the end: afterwards looking the name up finds
    exactly that entry, with the inode number given, every other name is found
    where it was, every other entry is unchanged and the directory is still well
    formed.  When the name is there, dirlink takes the entry's inode and drops it
    again and returns -1. *)
Theorem dirlink_correct s i ip name inum
    (Hd : dir_ok s i ip) (Hn : 0 <= i_inum ip < sb_ninodes (sb s))
    (Hnb : Forall (fun b => 0 <= b < 256) name) (Hin : 0 < inum < 65536)
    (Hmax : i_size ip + sizeof_dirent <= MAXFILE * BSIZE)
    (Hfree : (missing s ip (wslots (sizeof_dirent * free_slot s ip) sizeof_dirent) <= nfree s)%nat) :
  match dir_find s ip name with
  | Some k => dirlink i name inum s =
      (j <- iget (i_dev ip) (de_inum (dirent_at s ip k));; iput j;; ret (-1)) s
  | None =>
      wp (dirlink i name inum) (fun r s' => r = 0 /\ exists ip', dir_ok s' i ip' /\
        dir_find s' ip' name = Some (free_slot s ip) /\ de_inum (dirent_at s' ip' (free_slot s ip)) = inum /\
        (forall n, cname n <> cname name -> dir_find s' ip' n = dir_find s ip n) /\
        (forall k, 0 <= k < nents ip -> k <> free_slot s ip -> dirent_at s' ip' k = dirent_at s ip k)) s
  end.
Proof.
  destruct (dir_find s ip name) as [k|] eqn:Ef.
  { unfold dirlink, bind at 1. rewrite (dirlookup_spec s i ip name Hd), Ef. unfold lookup_result, bind, ret.
    by destruct (iget _ _ s). }
  apply (dirlink_wp _ s i ip); [done..|]. intros s' ip' W. split; [done|]. exists ip'.
  destruct (free_slot_range s i ip Hd) as [Hr Hz]. destruct (new_dirent_ok name inum Hnb Hin) as (Hl & _ & Ei & Ec).
  destruct (dirent_written s i ip s' ip' _ _ Hd Hr Hl W) as (Hd' & En & Enew & Hkeep).
  assert (Hnone : forall m, 0 <= m < nents ip -> hit s ip name m = false).
  { intros m Hm. pose proof (find_from_spec (hit s ip name) 0 (Z.to_nat (nents ip))) as H.
    unfold dir_find in Ef. rewrite Ef in H. apply H. lia. }
  split; [done|]. split; [|split; [by rewrite Enew|split; [|done]]].
  - apply find_from_unique; [lia| |].
    + apply hit_names. unfold names. rewrite Enew, Ei, Ec. split; [lia|done].
    + intros m Hm Hne. unfold hit. rewrite Hkeep by lia. apply Hnone. lia.
  - intros n Hne. by eapply dir_find_other.
Qed.
End Dir.

(** ** Witness: an entry in an empty directory *)
#[local] Instance no_devs : Devsw unit := {| dev_read := fun _ => None; dev_write := fun _ => None |}.

Definition dir_ino : inode := mkInode 1 1 1 true true T_DIR 0 0 1 0 (replicate 13 0).
Definition dir_fs : fsst unit := set_ino 0 dir_ino demo_fs.

Lemma dir_fs_ok : dir_ok dir_fs 0 dir_ino.
Proof.
  constructor; [|split; [done|simpl; lia]|done|done].
  split; [apply fs_ok_set_ino, demo_fs_ok|]. split; [done|].
  constructor; [done|done|intros k _ []; by apply empty_slot|intros k j _ _ []; by apply empty_slot].
Qed.

Lemma dirlookup_correct_witness : dirlookup 0 [97] dir_fs = Ret None dir_fs.
Proof. exact (proj2 (dirlookup_correct dir_fs 0 dir_ino [97] dir_fs_ok)). Defined.

Lemma dirlink_correct_witness :
  wp (dirlink 0 [97] 5) (fun r s' => r = 0 /\ exists ip', dir_find s' ip' [97] = Some 0) dir_fs.
Proof.
  assert (Hf : (missing dir_fs dir_ino (wslots (sizeof_dirent * free_slot dir_fs dir_ino) sizeof_dirent) <= nfree dir_fs)%nat)
    by (vm_compute; lia).
  assert (Hn : 0 <= i_inum dir_ino < sb_ninodes (sb dir_fs)) by (by vm_compute).
  assert (Hb : Forall (fun b => 0 <= b < 256) [97]) by (repeat constructor; lia).
  pose proof (dirlink_correct dir_fs 0 dir_ino [97] 5 dir_fs_ok Hn Hb ltac:(lia) ltac:(done) Hf) as Hp.
  assert (E : dir_find dir_fs dir_ino [97] = None) by done. rewrite E in Hp.
  refine (wp_mono _ _ _ _ Hp _). intros r s' (-> & ip' & _ & Hfd & _). split; [done|]. exists ip'. exact Hfd.
Defined.
