(* ===== verification/Spinlock.v ===== *)
(** * Interrupt nesting and spin locks (spinlock.c, proc.c: mycpu, cpuid)

    The processors with their EFLAGS.IF, and one spin lock they compete for.
    [me] is the processor that executes, as lapicid() identifies it.  acquire is
    one turn of its loop: the exchange either takes the lock or finds it taken. *)

From stdpp Require Import base numbers list gmap strings.
From Stdlib Require Import ZArith Lia.
From S2P Require Import Prelude Mmu.

Local Open Scope Z_scope.
Local Open Scope kernel_scope.

(** ** struct cpu (proc.h) and struct spinlock (spinlock.h) *)
Record cpu := mkCpu {
  c_apicid : Z;
  c_if : bool;        (* the interrupt flag of EFLAGS *)
  c_ncli : Z;         (* depth of pushcli nesting *)
  c_intena : bool     (* were interrupts enabled before pushcli? *)
}.

Record spinlock := mkLock {
  lk_locked : bool;
  lk_cpu : option nat
}.

Record mach := mkMach { cpus : list cpu; lock : spinlock }.

Definition set_if (b : bool) (c : cpu) : cpu := mkCpu (c_apicid c) b (c_ncli c) (c_intena c).
Definition set_ncli (n : Z) (c : cpu) : cpu := mkCpu (c_apicid c) (c_if c) n (c_intena c).
Definition set_intena (b : bool) (c : cpu) : cpu := mkCpu (c_apicid c) (c_if c) (c_ncli c) b.

Section Cpu.
(** The processor that executes. *)
Context (me : nat).

Definition my : M mach cpu :=
  s <- get;;
  match cpus s !! me with Some c => ret c | None => undef end.
Definition upd (f : cpu -> cpu) : M mach unit :=
  c <- my;;
  modify (fun s => mkMach (<[me := f c]> (cpus s)) (lock s)).

Definition readeflags_IF : M mach bool := c <- my;; ret (c_if c).
Definition cli : M mach unit := upd (set_if false).
Definition sti : M mach unit := upd (set_if true).

(** The loop of mycpu over cpus[]. *)
Fixpoint find_apic (l : list cpu) (i : nat) (apicid : Z) : option nat :=
  match l with
  | [] => None
  | c :: l' => if c_apicid c =? apicid then Some i else find_apic l' (S i) apicid
  end.

Definition mycpu : M mach nat :=
  f <- readeflags_IF;;
  if f then panic "mycpu called with interrupts enabled"
  else
    c <- my;;
    s <- get;;
    match find_apic (cpus s) 0 (c_apicid c) with
    | Some i => ret i
    | None => panic "unknown apicid"
    end.

(** A field of mycpu(). *)
Definition mine {A} (f : cpu -> A) : M mach A :=
  i <- mycpu;;
  s <- get;;
  match cpus s !! i with Some c => ret (f c) | None => undef end.
Definition set_mine (f : cpu -> cpu) : M mach unit :=
  i <- mycpu;;
  s <- get;;
  match cpus s !! i with
  | Some c => modify (fun s => mkMach (<[i := f c]> (cpus s)) (lock s))
  | None => undef
  end.

Definition pushcli : M mach unit :=
  eflags <- readeflags_IF;;
  cli;;
  n <- mine c_ncli;;
  (if n =? 0 then set_mine (set_intena eflags) else ret tt);;
  set_mine (fun c => set_ncli (c_ncli c + 1) c).

Definition popcli : M mach unit :=
  eflags <- readeflags_IF;;
  if eflags then panic "popcli - interruptible"
  else
    set_mine (fun c => set_ncli (c_ncli c - 1) c);;
    n <- mine c_ncli;;
    if n <? 0 then panic "popcli"
    else
      e <- mine c_intena;;
      if (n =? 0) && e then sti else ret tt.

Definition holding : M mach bool :=
  pushcli;;
  i <- mycpu;;
  s <- get;;
  let r := lk_locked (lock s) && bool_decide (lk_cpu (lock s) = Some i) in
  popcli;;
  ret r.

Definition set_lock (l : spinlock) : M mach unit := modify (fun s => mkMach (cpus s) l).

Definition initlock : M mach unit := set_lock (mkLock false None).

(** pushcli and the test for recursion, before the loop. *)
Definition acquire_enter : M mach unit :=
  pushcli;;
  h <- holding;;
  if h then panic "acquire" else ret tt.

(** One turn of the loop: [true] when the lock was free and is now taken. *)
Definition acquire_try : M mach bool :=
  s <- get;;
  if lk_locked (lock s) then ret false
  else
    set_lock (mkLock true (lk_cpu (lock s)));;
    i <- mycpu;;
    set_lock (mkLock true (Some i));;
    ret true.

Definition release : M mach unit :=
  h <- holding;;
  if negb h then panic "release"
  else
    set_lock (mkLock true None);;
    set_lock (mkLock false None);;
    popcli.

(** getcallerpcs: [ld] reads the words of the kernel stacks, [v] is the address
    of the first argument of the caller. *)
Fixpoint follow_ebp (ld : Z -> Z) (ebp : Z) (n : nat) : list Z :=
  match n with
  | O => []
  | S n' =>
      if (ebp =? 0) || (ebp <? KERNBASE) || (ebp =? 4294967295) then replicate n 0
      else ld (ebp + 4) :: follow_ebp ld (ld ebp) n'
  end.
Definition getcallerpcs (ld : Z -> Z) (v : Z) : list Z := follow_ebp ld (u32 (v - 8)) 10.

(** ** Nesting *)

(** APIC ids identify the processors. *)
Definition apic_ok (l : list cpu) : Prop :=
  forall i j c d, l !! i = Some c -> l !! j = Some d -> c_apicid c = c_apicid d -> i = j.

Lemma find_apic_spec l k i c :
  (forall a b x y, l !! a = Some x -> l !! b = Some y -> c_apicid x = c_apicid y -> a = b) ->
  l !! i = Some c -> find_apic l k (c_apicid c) = Some (k + i)%nat.
Proof.
  revert k i. induction l as [|x l IH]; intros k i Hu Hi; [done|]. cbn [find_apic].
  destruct i as [|i]; simplify_eq/=.
  - rewrite Z.eqb_refl. f_equal. lia.
  - destruct (Z.eqb_spec (c_apicid x) (c_apicid c)) as [E|E].
    + pose proof (Hu 0%nat (S i) x c eq_refl Hi E). lia.
    + rewrite (IH (S k) i); [f_equal; lia| |done]. intros a b y z Ha Hb Eq.
      pose proof (Hu (S a) (S b) y z Ha Hb Eq). lia.
Qed.

(** What the nesting keeps: inside a pushcli interrupts are off. *)
Definition cpu_ok (c : cpu) : Prop := 0 <= c_ncli c /\ (0 < c_ncli c -> c_if c = false).

Definition mach_ok (s : mach) : Prop := apic_ok (cpus s) /\ exists c, cpus s !! me = Some c /\ cpu_ok c.

(** The processor after pushcli, and after the popcli that matches it. *)
Definition pushed (c : cpu) : cpu :=
  mkCpu (c_apicid c) false (c_ncli c + 1) (if c_ncli c =? 0 then c_if c else c_intena c).
Definition popped (c : cpu) : cpu :=
  mkCpu (c_apicid c) (if (c_ncli c - 1 =? 0) && c_intena c then true else c_if c) (c_ncli c - 1) (c_intena c).

Definition with_cpu (c : cpu) (s : mach) : mach := mkMach (<[me := c]> (cpus s)) (lock s).

Lemma apic_ok_insert l i c d : apic_ok l -> l !! i = Some c -> c_apicid d = c_apicid c -> apic_ok (<[i := d]> l).
Proof.
  intros H Hi Ed a b x y Ha Hb E.
  apply list_lookup_insert_Some in Ha as [(<- & <- & _)|[Hai Ha]], Hb as [(<- & <- & _)|[Hbi Hb]]; [done|..].
  - apply (H i b c y); congruence.
  - apply (H a i x c); congruence.
  - by apply (H a b x y).
Qed.

Lemma wp_my (Q : cpu -> mach -> Prop) s c : cpus s !! me = Some c -> Q c s -> wp my Q s.
Proof. intros Hc HQ. unfold my. wp_steps. rewrite Hc. by wp_steps. Qed.

Lemma wp_upd (Q : unit -> mach -> Prop) s c f : cpus s !! me = Some c -> Q tt (with_cpu (f c) s) -> wp (upd f) Q s.
Proof. intros Hc HQ. unfold upd. wp_steps. eapply wp_my; [done|]. by wp_steps. Qed.

Lemma wp_mycpu (Q : nat -> mach -> Prop) s c :
  apic_ok (cpus s) -> cpus s !! me = Some c -> c_if c = false -> Q me s -> wp mycpu Q s.
Proof.
  intros Ha Hc Hi HQ. unfold mycpu, readeflags_IF. wp_steps. eapply wp_my; [done|]. wp_steps. rewrite Hi.
  wp_steps. eapply wp_my; [done|]. wp_steps. rewrite (find_apic_spec _ 0 me c Ha Hc). by wp_steps.
Qed.

Lemma wp_mine {A} (f : cpu -> A) (Q : A -> mach -> Prop) s c :
  apic_ok (cpus s) -> cpus s !! me = Some c -> c_if c = false -> Q (f c) s -> wp (mine f) Q s.
Proof.
  intros Ha Hc Hi HQ. unfold mine. wp_steps. eapply wp_mycpu; [done..|]. wp_steps. rewrite Hc. by wp_steps.
Qed.

Lemma wp_set_mine f (Q : unit -> mach -> Prop) s c :
  apic_ok (cpus s) -> cpus s !! me = Some c -> c_if c = false -> Q tt (with_cpu (f c) s) -> wp (set_mine f) Q s.
Proof.
  intros Ha Hc Hi HQ. unfold set_mine. wp_steps. eapply wp_mycpu; [done..|]. wp_steps. rewrite Hc. by wp_steps.
Qed.

Lemma with_cpu_twice c d s : with_cpu c (with_cpu d s) = with_cpu c s.
Proof. unfold with_cpu. simpl. by rewrite list_insert_insert_eq. Qed.

Lemma lookup_with_cpu c d s : cpus s !! me = Some d -> cpus (with_cpu c s) !! me = Some c.
Proof. intros H. simpl. apply list_lookup_insert_eq. by eapply lookup_lt_Some. Qed.

Lemma apic_with_cpu c d s : apic_ok (cpus s) -> cpus s !! me = Some d -> c_apicid c = c_apicid d ->
  apic_ok (cpus (with_cpu c s)).
Proof. intros. simpl. by eapply apic_ok_insert. Qed.

Lemma pushcli_spec s c : apic_ok (cpus s) -> cpus s !! me = Some c -> pushcli s = Ret tt (with_cpu (pushed c) s).
Proof.
  intros Ha Hc. assert (Hw : wp pushcli (fun _ s' => s' = with_cpu (pushed c) s) s).
  { unfold pushcli, readeflags_IF, cli. wp_steps. eapply wp_my; [done|]. wp_steps. eapply wp_upd; [done|]. wp_steps.
    set (s1 := with_cpu (set_if false c) s).
    assert (Ha1 : apic_ok (cpus s1)) by (by eapply apic_with_cpu). assert (Hc1 := lookup_with_cpu (set_if false c) c s Hc).
    fold s1 in Hc1. eapply wp_mine; [done..|]. cbn [c_ncli set_if]. unfold pushed.
    destruct (Z.eqb_spec (c_ncli c) 0) as [E|E]; wp_steps.
    - eapply wp_set_mine; [done..|]. unfold s1. rewrite with_cpu_twice.
      eapply wp_set_mine; [by eapply apic_with_cpu|by eapply lookup_with_cpu|done|]. by rewrite with_cpu_twice.
    - eapply wp_set_mine; [done..|]. unfold s1. by rewrite with_cpu_twice. }
  destruct (wp_inv _ _ _ Hw) as ([]&?&E&->). exact E.
Qed.

Lemma popcli_spec s c : apic_ok (cpus s) -> cpus s !! me = Some c -> c_if c = false -> 0 < c_ncli c ->
  popcli s = Ret tt (with_cpu (popped c) s).
Proof.
  intros Ha Hc Hi Hn. assert (Hw : wp popcli (fun _ s' => s' = with_cpu (popped c) s) s).
  { unfold popcli, readeflags_IF, sti. wp_steps. eapply wp_my; [done|]. wp_steps. rewrite Hi. wp_steps.
    eapply wp_set_mine; [done..|]. wp_steps. set (c1 := set_ncli (c_ncli c - 1) c).
    assert (Ha1 : apic_ok (cpus (with_cpu c1 s))) by (by eapply apic_with_cpu).
    assert (Hc1 := lookup_with_cpu c1 c s Hc). eapply wp_mine; [done..|].
    change (c_ncli c1) with (c_ncli c - 1). destruct (Z.ltb_spec (c_ncli c - 1) 0); [lia|]. wp_steps.
    eapply wp_mine; [done..|]. change (c_intena c1) with (c_intena c). unfold popped.
    destruct ((c_ncli c - 1 =? 0) && c_intena c).
    - eapply wp_upd; [done|]. by rewrite with_cpu_twice.
    - wp_steps. by destruct c; simplify_eq/=. }
  destruct (wp_inv _ _ _ Hw) as ([]&?&E&->). exact E.
Qed.

(** Sequences of pushcli and popcli that match. *)
Inductive balanced : list bool -> Prop :=
| bal_nil : balanced []
| bal_wrap w : balanced w -> balanced ([true] ++ w ++ [false])
| bal_app w v : balanced w -> balanced v -> balanced (w ++ v).

Fixpoint run_cli (w : list bool) : M mach unit :=
  match w with
  | [] => ret tt
  | b :: w' => (if b then pushcli else popcli);; run_cli w'
  end.

Lemma run_cli_app w v s s' : run_cli w s = Ret tt s' -> run_cli (w ++ v) s = run_cli v s'.
Proof.
  revert s. induction w as [|b w IH]; intros s; simpl; [by intros [= ->]|]. unfold bind.
  destruct ((if b then pushcli else popcli) s) as [[] s1| | |]; [|done..]. apply IH.
Qed.

Lemma run_balanced w : balanced w -> forall s c, apic_ok (cpus s) -> cpus s !! me = Some c -> cpu_ok c ->
  exists c', run_cli w s = Ret tt (with_cpu c' s) /\ c_apicid c' = c_apicid c /\ c_if c' = c_if c /\
             c_ncli c' = c_ncli c /\ (0 < c_ncli c -> c_intena c' = c_intena c).
Proof.
  induction 1 as [|w Hw IH|w v Hw IHw Hv IHv]; intros s c Ha Hc [Hn Hi].
  - exists c. split; [|done]. simpl. unfold with_cpu, ret. rewrite list_insert_id by done. by destruct s.
  - cbn [app run_cli]. rewrite (bind_run _ _ _ _ _ (pushcli_spec s c Ha Hc)).
    destruct (IH (with_cpu (pushed c) s) (pushed c)) as (c' & E & Ea & Ei & En & Ein);
      [by eapply apic_with_cpu|by eapply lookup_with_cpu|split; simpl; [lia|done]|].
    rewrite (run_cli_app w [false] _ _ E). cbn [run_cli]. rewrite with_cpu_twice.
    simpl in En. rewrite (bind_run _ _ _ _ _ (popcli_spec (with_cpu c' s) c' ltac:(by eapply apic_with_cpu)
      ltac:(by eapply lookup_with_cpu) Ei ltac:(lia))).
    exists (popped c'). rewrite with_cpu_twice. split; [done|]. simpl in *. rewrite En, Ei, Ein by lia.
    split; [done|]. replace (c_ncli c + 1 - 1) with (c_ncli c) by lia.
    destruct (Z.eqb_spec (c_ncli c) 0) as [E0|E0]; simpl.
    + split; [by destruct (c_if c)|]. split; [done|lia].
    + split; [symmetry; apply Hi; lia|]. done.
  - destruct (IHw s c Ha Hc (conj Hn Hi)) as (c1 & E1 & Ea1 & Ei1 & En1 & Ein1).
    destruct (IHv (with_cpu c1 s) c1) as (c2 & E2 & Ea2 & Ei2 & En2 & Ein2);
      [by eapply apic_with_cpu|by eapply lookup_with_cpu|split; rewrite ?En1, ?Ei1; done|].
    exists c2. rewrite (run_cli_app w v _ _ E1), E2, with_cpu_twice. split; [done|].
    split; [congruence|]. split; [congruence|]. split; [congruence|]. intros Hp. rewrite Ein2, Ein1; [done|done|lia].
Qed.

(** pushcli and popcli match: after any properly nested sequence of them,
    started with interrupts off inside a pushcli or in any state outside one, the
    interrupt flag and the nesting depth are what they were before; between a
    pushcli and the popcli that matches it, whatever nested sequence runs there,
    interrupts are off. *)
Theorem cli_nesting w s c
    (Hw : balanced w) (Ha : apic_ok (cpus s)) (Hc : cpus s !! me = Some c) (Hok : cpu_ok c) :
  (exists c', run_cli w s = Ret tt (with_cpu c' s) /\ c_if c' = c_if c /\ c_ncli c' = c_ncli c) /\
  (exists c', run_cli (true :: w) s = Ret tt (with_cpu c' s) /\ c_if c' = false /\ c_ncli c' = c_ncli c + 1).
Proof.
  split.
  - destruct (run_balanced w Hw s c Ha Hc Hok) as (c' & E & _ & Ei & En & _). by exists c'.
  - destruct (run_balanced w Hw (with_cpu (pushed c) s) (pushed c)) as (c' & E & _ & Ei & En & _);
      [by eapply apic_with_cpu|by eapply lookup_with_cpu|destruct Hok; split; simpl; [lia|done]|].
    exists c'. cbn [run_cli]. rewrite (bind_run _ _ _ _ _ (pushcli_spec s c Ha Hc)), E, with_cpu_twice. done.
Qed.

(** ** The lock *)
Lemma popcli_lock s s' : apic_ok (cpus s) -> popcli s = Ret tt s' ->
  exists c c', cpus s !! me = Some c /\ s' = with_cpu c' s /\ c_apicid c' = c_apicid c.
Proof.
  intros Ha E. unfold popcli, readeflags_IF, bind at 1, bind at 1, my, bind at 1, get in E.
  destruct (cpus s !! me) as [c|] eqn:Hc; [|done]. unfold ret in E.
  destruct (c_if c) eqn:Hi; [done|]. destruct (decide (0 < c_ncli c)) as [Hn|Hn].
  - assert (E' := popcli_spec s c Ha Hc Hi Hn). unfold popcli, readeflags_IF, bind at 1, bind at 1, my, bind at 1, get in E'.
    rewrite Hc in E'. unfold ret in E'. rewrite Hi in E'. rewrite E in E'. injection E' as ->.
    exists c, (popped c). done.
  - assert (Em : set_mine (fun c => set_ncli (c_ncli c - 1) c) s = Ret tt (with_cpu (set_ncli (c_ncli c - 1) c) s)).
    { destruct (wp_inv _ _ _ (wp_set_mine (fun c => set_ncli (c_ncli c - 1) c)
        (fun _ s' => s' = with_cpu (set_ncli (c_ncli c - 1) c) s) s c Ha Hc Hi eq_refl)) as ([]&?&E0&->). exact E0. }
    rewrite (bind_run _ _ _ _ _ Em) in E. set (c1 := set_ncli (c_ncli c - 1) c) in *.
    assert (En : mine c_ncli (with_cpu c1 s) = Ret (c_ncli c - 1) (with_cpu c1 s)).
    { destruct (wp_inv _ _ _ (wp_mine c_ncli (fun n s' => n = c_ncli c - 1 /\ s' = with_cpu c1 s) (with_cpu c1 s) c1
        ltac:(by eapply apic_with_cpu) ltac:(by eapply lookup_with_cpu) Hi ltac:(done))) as (?&?&E0&->&->). exact E0. }
    rewrite (bind_run _ _ _ _ _ En) in E. destruct (Z.ltb_spec (c_ncli c - 1) 0); [done|lia].
Qed.

Lemma pushcli_lock s s' : apic_ok (cpus s) -> pushcli s = Ret tt s' ->
  exists c, cpus s !! me = Some c /\ s' = with_cpu (pushed c) s.
Proof.
  intros Ha E. destruct (cpus s !! me) as [c|] eqn:Hc.
  - rewrite (pushcli_spec s c Ha Hc) in E. injection E as <-. by exists c.
  - exfalso. unfold pushcli, readeflags_IF, my, bind at 1, bind at 1, bind at 1, get in E. by rewrite Hc in E.
Qed.

(** holding tells whether this processor has the lock, and leaves the lock. *)
Lemma holding_lock s r s' : apic_ok (cpus s) -> holding s = Ret r s' ->
  r = lk_locked (lock s) && bool_decide (lk_cpu (lock s) = Some me) /\ lock s' = lock s /\ apic_ok (cpus s').
Proof.
  intros Ha E. unfold holding in E. destruct (pushcli s) as [[] s1| | |] eqn:E1; unfold bind at 1 in E; rewrite E1 in E; try done.
  destruct (pushcli_lock s s1 Ha E1) as (c & Hc & ->).
  assert (Ha1 : apic_ok (cpus (with_cpu (pushed c) s))) by (by eapply apic_with_cpu).
  assert (Em : mycpu (with_cpu (pushed c) s) = Ret me (with_cpu (pushed c) s)).
  { destruct (wp_inv _ _ _ (wp_mycpu (fun i s' => i = me /\ s' = with_cpu (pushed c) s) (with_cpu (pushed c) s) (pushed c)
      Ha1 ltac:(by eapply lookup_with_cpu) eq_refl ltac:(done))) as (?&?&E0&->&->). exact E0. }
  rewrite (bind_run _ _ _ _ _ Em), bind_get in E. cbv zeta in E. cbn [lock with_cpu] in E.
  destruct (popcli (with_cpu (pushed c) s)) as [[] s2| | |] eqn:E2; unfold bind in E; rewrite E2 in E; try done.
  injection E as <- <-. destruct (popcli_lock _ _ Ha1 E2) as (d & d' & Hd & -> & Ed).
  split; [done|]. split; [done|]. by eapply apic_with_cpu.
Qed.

Lemma acquire_enter_lock s s' : apic_ok (cpus s) -> acquire_enter s = Ret tt s' ->
  (lk_locked (lock s) && bool_decide (lk_cpu (lock s) = Some me)) = false /\ lock s' = lock s /\ apic_ok (cpus s').
Proof.
  intros Ha E. unfold acquire_enter in E. destruct (pushcli s) as [[] s1| | |] eqn:E1; unfold bind at 1 in E; rewrite E1 in E; try done.
  destruct (pushcli_lock s s1 Ha E1) as (c & Hc & ->).
  destruct (holding (with_cpu (pushed c) s)) as [r s2| | |] eqn:E2; unfold bind in E; rewrite E2 in E; try done.
  assert (Ha1 : apic_ok (cpus (with_cpu (pushed c) s))) by (by eapply apic_with_cpu).
  destruct (holding_lock _ _ _ Ha1 E2) as (-> & El & Ha2).
  cbn [lock with_cpu] in *. destruct (lk_locked (lock s) && _); [done|]. injection E as <-. done.
Qed.

Lemma acquire_try_lock s r s' : apic_ok (cpus s) -> acquire_try s = Ret r s' ->
  cpus s' = cpus s /\ r = negb (lk_locked (lock s)) /\ lock s' = if r then mkLock true (Some me) else lock s.
Proof.
  intros Ha E. unfold acquire_try in E. rewrite bind_get in E.
  destruct (lk_locked (lock s)) eqn:El; [by injection E as <- <-|].
  unfold set_lock, bind at 1, modify in E.
  destruct (mycpu (mkMach (cpus s) (mkLock true (lk_cpu (lock s))))) as [i s1| | |] eqn:Em; unfold bind in E; rewrite Em in E; try done.
  injection E as <- <-. unfold mycpu, readeflags_IF, my, bind, get, ret in Em. cbn [cpus] in Em.
  destruct (cpus s !! me) as [c|] eqn:Hc; [|done]. destruct (c_if c); [done|].
  cbn [cpus] in Em. rewrite Hc in Em. cbn [cpus] in Em. rewrite (find_apic_spec _ 0 me c Ha Hc) in Em. injection Em as <- <-. done.
Qed.

Lemma release_lock s s' : apic_ok (cpus s) -> release s = Ret tt s' ->
  lk_locked (lock s) = true /\ lk_cpu (lock s) = Some me /\ lock s' = mkLock false None /\ apic_ok (cpus s').
Proof.
  intros Ha E. unfold release in E. destruct (holding s) as [r s1| | |] eqn:E1; unfold bind at 1 in E; rewrite E1 in E; try done.
  destruct (holding_lock _ _ _ Ha E1) as (-> & El & Ha1).
  destruct (lk_locked (lock s)) eqn:Ek; cbn [andb negb] in E; [|done].
  destruct (bool_decide (lk_cpu (lock s) = Some me)) eqn:Eb; cbn [negb] in E; [|done].
  apply bool_decide_eq_true in Eb. unfold set_lock, bind, modify in E. cbn [cpus] in E.
  destruct (popcli_lock (mkMach (cpus s1) (mkLock false None)) s' Ha1 E) as (c & c' & Hc & -> & Ed).
  split; [done|]. split; [done|]. split; [done|]. by eapply apic_with_cpu.
Qed.
End Cpu.

(** ** Mutual exclusion

    Processors run acquire and release in any order; [crit] is the set of
    processors that are past acquire and not yet past release. *)
Inductive lstep : mach * gset nat -> mach * gset nat -> Prop :=
| l_enter me s crit s' : acquire_enter me s = Ret tt s' -> lstep (s, crit) (s', crit)
| l_spin me s crit s' : acquire_try me s = Ret false s' -> lstep (s, crit) (s', crit)
| l_take me s crit s' : acquire_try me s = Ret true s' -> lstep (s, crit) (s', {[me]} ∪ crit)
| l_release me s crit s' : release me s = Ret tt s' -> lstep (s, crit) (s', crit ∖ {[me]}).

(** The lock names the one processor in its critical section. *)
Definition excl (x : mach * gset nat) : Prop :=
  apic_ok (cpus x.1) /\
  if lk_locked (lock x.1) then exists i, lk_cpu (lock x.1) = Some i /\ x.2 = {[i]} else x.2 = ∅.

Lemma excl_step x y : excl x -> lstep x y -> excl y.
Proof.
  intros [Ha Hx] St. destruct St as [me s crit s' E|me s crit s' E|me s crit s' E|me s crit s' E]; cbn [fst snd] in *; unfold excl; cbn [fst snd].
  - destruct (acquire_enter_lock me s s' Ha E) as (_ & -> & Ha'). done.
  - destruct (acquire_try_lock me s _ s' Ha E) as (-> & _ & ->). done.
  - destruct (acquire_try_lock me s _ s' Ha E) as (-> & El & ->). split; [done|]. cbn [lk_locked lk_cpu].
    exists me. split; [done|]. destruct (lk_locked (lock s)); [done|]. subst crit. set_solver.
  - destruct (release_lock me s s' Ha E) as (El & Ec & -> & Ha'). split; [done|]. cbn [lk_locked].
    rewrite El in Hx. destruct Hx as (i & Ei & ->). assert (i = me) as -> by congruence. set_solver.
Qed.


(** ** Witnesses: two processors *)
Definition two_cpus : mach := mkMach [mkCpu 4 true 0 false; mkCpu 6 true 0 false] (mkLock false None).

Lemma two_apic_ok : apic_ok (cpus two_cpus).
Proof. by intros [|[|i]] [|[|j]] c d; intros; simplify_eq/=. Qed.

Lemma cli_nesting_witness :
  exists c', run_cli 1 [true; true; false; true; false; false] two_cpus = Ret tt (with_cpu 1 c' two_cpus) /\
  c_if c' = true /\ c_ncli c' = 0.
Proof.
  assert (Hb : balanced ([true] ++ (([true] ++ [] ++ [false]) ++ ([true] ++ [] ++ [false])) ++ [false]))
    by (apply bal_wrap, bal_app; apply bal_wrap, bal_nil).
  exact (proj1 (cli_nesting 1 _ two_cpus (mkCpu 6 true 0 false) Hb two_apic_ok eq_refl ltac:(split; simpl; [lia|done]))).
Defined.

