(* ===== verification/Proc.v ===== *)
(** * Processes (proc.c, proc.h)

    The process table and the operations on it.  The sections under ptable.lock
    are atomic; the lock is held across swtch, so that a process that gives up
    its processor and the scheduler's step back to the loop are one section too.
    A process is the index of its slot in ptable.proc; its trap frame and
    context, which live on its kernel stack, are fields of it.

    The memory and file components that fork, exit and wait call are an
    interface, [ProcEnv], over a state of their own. *)

From stdpp Require Import base numbers list gmap strings.
From Stdlib Require Import ZArith Lia.
From S2P Require Import Prelude Mmu Mem Block.

Local Open Scope Z_scope.
Local Open Scope kernel_scope.

(** ** proc.h and struct trapframe (x86.h) *)
Inductive procstate := UNUSED | EMBRYO | SLEEPING | RUNNABLE | RUNNING | ZOMBIE.
#[global] Instance procstate_eq_dec : EqDecision procstate.
Proof. solve_decision. Defined.

(** What a process sleeps on: the address of a process, or another address. *)
Inductive chan := ChProc (i : nat) | ChAddr (a : Z).
#[global] Instance chan_eq_dec : EqDecision chan.
Proof. solve_decision. Defined.

Record context := mkContext { cx_edi : Z; cx_esi : Z; cx_ebx : Z; cx_ebp : Z; cx_eip : Z }.

Record trapframe := mkTf {
  tf_edi : Z; tf_esi : Z; tf_ebp : Z; tf_oesp : Z; tf_ebx : Z; tf_edx : Z; tf_ecx : Z; tf_eax : Z;
  tf_gs : Z; tf_fs : Z; tf_es : Z; tf_ds : Z; tf_trapno : Z;
  tf_err : Z; tf_eip : Z; tf_cs : Z; tf_eflags : Z; tf_esp : Z; tf_ss : Z
}.
Definition tf0 : trapframe := mkTf 0 0 0 0 0 0 0 0 0 0 0 0 0 0 0 0 0 0 0.
Definition set_eax (v : Z) (t : trapframe) : trapframe :=
  mkTf (tf_edi t) (tf_esi t) (tf_ebp t) (tf_oesp t) (tf_ebx t) (tf_edx t) (tf_ecx t) v
       (tf_gs t) (tf_fs t) (tf_es t) (tf_ds t) (tf_trapno t)
       (tf_err t) (tf_eip t) (tf_cs t) (tf_eflags t) (tf_esp t) (tf_ss t).

Record proc := mkProc {
  p_sz : Z; p_pgdir : Z; p_kstack : Z; p_state : procstate; p_pid : Z; p_parent : option nat;
  p_tf : trapframe; p_context : context; p_chan : option chan; p_killed : bool;
  p_ofile : list (option nat); p_cwd : option nat; p_name : list Z
}.

Definition proc0 : proc :=
  mkProc 0 0 0 UNUSED 0 None tf0 (mkContext 0 0 0 0 0) None false (replicate 16 None) None [].

Definition set_sz v p := mkProc v (p_pgdir p) (p_kstack p) (p_state p) (p_pid p) (p_parent p) (p_tf p) (p_context p) (p_chan p) (p_killed p) (p_ofile p) (p_cwd p) (p_name p).
Definition set_pgdir v p := mkProc (p_sz p) v (p_kstack p) (p_state p) (p_pid p) (p_parent p) (p_tf p) (p_context p) (p_chan p) (p_killed p) (p_ofile p) (p_cwd p) (p_name p).
Definition set_kstack v p := mkProc (p_sz p) (p_pgdir p) v (p_state p) (p_pid p) (p_parent p) (p_tf p) (p_context p) (p_chan p) (p_killed p) (p_ofile p) (p_cwd p) (p_name p).
Definition set_state v p := mkProc (p_sz p) (p_pgdir p) (p_kstack p) v (p_pid p) (p_parent p) (p_tf p) (p_context p) (p_chan p) (p_killed p) (p_ofile p) (p_cwd p) (p_name p).
Definition set_pid v p := mkProc (p_sz p) (p_pgdir p) (p_kstack p) (p_state p) v (p_parent p) (p_tf p) (p_context p) (p_chan p) (p_killed p) (p_ofile p) (p_cwd p) (p_name p).
Definition set_parent v p := mkProc (p_sz p) (p_pgdir p) (p_kstack p) (p_state p) (p_pid p) v (p_tf p) (p_context p) (p_chan p) (p_killed p) (p_ofile p) (p_cwd p) (p_name p).
Definition set_tf v p := mkProc (p_sz p) (p_pgdir p) (p_kstack p) (p_state p) (p_pid p) (p_parent p) v (p_context p) (p_chan p) (p_killed p) (p_ofile p) (p_cwd p) (p_name p).
Definition set_context v p := mkProc (p_sz p) (p_pgdir p) (p_kstack p) (p_state p) (p_pid p) (p_parent p) (p_tf p) v (p_chan p) (p_killed p) (p_ofile p) (p_cwd p) (p_name p).
Definition set_chan v p := mkProc (p_sz p) (p_pgdir p) (p_kstack p) (p_state p) (p_pid p) (p_parent p) (p_tf p) (p_context p) v (p_killed p) (p_ofile p) (p_cwd p) (p_name p).
Definition set_killed v p := mkProc (p_sz p) (p_pgdir p) (p_kstack p) (p_state p) (p_pid p) (p_parent p) (p_tf p) (p_context p) (p_chan p) v (p_ofile p) (p_cwd p) (p_name p).
Definition set_ofile v p := mkProc (p_sz p) (p_pgdir p) (p_kstack p) (p_state p) (p_pid p) (p_parent p) (p_tf p) (p_context p) (p_chan p) (p_killed p) v (p_cwd p) (p_name p).
Definition set_cwd v p := mkProc (p_sz p) (p_pgdir p) (p_kstack p) (p_state p) (p_pid p) (p_parent p) (p_tf p) (p_context p) (p_chan p) (p_killed p) (p_ofile p) v (p_name p).
Definition set_name v p := mkProc (p_sz p) (p_pgdir p) (p_kstack p) (p_state p) (p_pid p) (p_parent p) (p_tf p) (p_context p) (p_chan p) (p_killed p) (p_ofile p) (p_cwd p) v.

(** ** The process table *)
Record ptab := mkPtab {
  ptable : list proc;
  running : list (option nat);   (* cpus[c].proc *)
  initproc : option nat;
  nextpid : Z
}.

Definition set_ptable (l : list proc) (t : ptab) : ptab := mkPtab l (running t) (initproc t) (nextpid t).
Definition set_running (l : list (option nat)) (t : ptab) : ptab := mkPtab (ptable t) l (initproc t) (nextpid t).
Definition upd_proc (i : nat) (f : proc -> proc) (t : ptab) : ptab := set_ptable (alter f i (ptable t)) t.

(** allocproc: the section that finds a slot. *)
Fixpoint first_unused (l : list proc) (i : nat) : option nat :=
  match l with
  | [] => None
  | p :: l' => if decide (p_state p = UNUSED) then Some i else first_unused l' (S i)
  end.

Definition alloc_slot (t : ptab) : option (nat * ptab) :=
  match first_unused (ptable t) 0 with
  | None => None
  | Some i =>
      Some (i, let t := upd_proc i (fun p => set_pid (nextpid t) (set_state EMBRYO p)) t in
               mkPtab (ptable t) (running t) (initproc t) (s32 (nextpid t + 1)))
  end.

Definition wakeup1 (c : option chan) (l : list proc) : list proc :=
  map (fun p => if decide (p_state p = SLEEPING /\ p_chan p = c) then set_state RUNNABLE p else p) l.

Definition wakeup (c : option chan) (t : ptab) : ptab := set_ptable (wakeup1 c (ptable t)) t.

Fixpoint kill_scan (pid : Z) (l : list proc) (i : nat) : option nat :=
  match l with
  | [] => None
  | p :: l' => if p_pid p =? pid then Some i else kill_scan pid l' (S i)
  end.

Definition kill (pid : Z) (t : ptab) : Z * ptab :=
  match kill_scan pid (ptable t) 0 with
  | Some i =>
      (0, upd_proc i (fun p => let p := set_killed true p in
                               if decide (p_state p = SLEEPING) then set_state RUNNABLE p else p) t)
  | None => (-1, t)
  end.

(** exit: the loop that passes abandoned children to init, from slot [i] on. *)
Fixpoint reparent (n : nat) (cur : nat) (init : option nat) (l : list proc) (i : nat) : list proc :=
  match n with
  | O => l
  | S n' =>
      let l :=
        match l !! i with
        | Some p =>
            if decide (p_parent p = Some cur) then
              let l := alter (set_parent init) i l in
              if decide (p_state p = ZOMBIE) then wakeup1 (ChProc <$> init) l else l
            else l
        | None => l
        end in
      reparent n' cur init l (S i)
  end.

(** The section of exit under ptable.lock, up to the call of sched. *)
Definition exit_section (cur : nat) (t : ptab) : ptab :=
  match ptable t !! cur with
  | Some p =>
      let l := wakeup1 (ChProc <$> p_parent p) (ptable t) in
      let l := reparent (length l) cur (initproc t) l 0 in
      set_ptable (alter (set_state ZOMBIE) cur l) t
  | None => t
  end.

(** wait: the scan for an exited child; [inr] tells whether there are children. *)
Fixpoint wait_scan (cur : nat) (l : list proc) (i : nat) (havekids : bool) : nat + bool :=
  match l with
  | [] => inr havekids
  | p :: l' =>
      if decide (p_parent p = Some cur) then
        if decide (p_state p = ZOMBIE) then inl i else wait_scan cur l' (S i) true
      else wait_scan cur l' (S i) havekids
  end.

(** Freeing the slot of a reaped child. *)
Definition reap (i : nat) (t : ptab) : ptab :=
  upd_proc i (fun p => set_state UNUSED (set_killed false (set_name (<[0%nat := 0]> (p_name p))
                       (set_parent None (set_pid 0 (set_kstack 0 p)))))) t.

(** sleep up to the switch, and after it. *)
Definition sleep_on (cur : nat) (c : option chan) (t : ptab) : ptab :=
  upd_proc cur (fun p => set_state SLEEPING (set_chan c p)) t.
Definition sleep_done (cur : nat) (t : ptab) : ptab := upd_proc cur (set_chan None) t.

(** scheduler: taking slot [i] on processor [c], and the step back after swtch. *)
Definition sched_take (c i : nat) (t : ptab) : option ptab :=
  match ptable t !! i with
  | Some p =>
      if decide (p_state p = RUNNABLE) then
        Some (upd_proc i (set_state RUNNING) (set_running (<[c := Some i]> (running t)) t))
      else None
  | None => None
  end.
Definition sched_back (c : nat) (t : ptab) : ptab := set_running (<[c := None]> (running t)) t.

(** One pass of the scheduler's loop over the table, from slot [i] on, up to the
    first process it switches to. *)
Fixpoint sched_pass (n c i : nat) (t : ptab) : option (nat * ptab) :=
  match n with
  | O => None
  | S n' =>
      match sched_take c i t with
      | Some t' => Some (i, t')
      | None => sched_pass n' c (S i) t
      end
  end.

(** ** Operations over an environment *)
Class ProcEnv (E : Type) := {
  e_kalloc : M E (option Z);
  e_kfree : Z -> M E unit;
  e_setupkvm : M E (option Z);
  e_inituvm : Z -> M E unit;
  e_copyuvm : Z -> Z -> M E (option Z);
  e_freevm : Z -> M E unit;
  e_allocuvm : Z -> Z -> Z -> M E Z;
  e_deallocuvm : Z -> Z -> Z -> M E Z;
  e_filedup : nat -> M E nat;
  e_fileclose : nat -> M E unit;
  e_idup : nat -> M E nat;
  e_iput : nat -> M E unit;     (* begin_op(); iput(); end_op() *)
  e_root : M E nat              (* namei on the root path *)
}.

Section Ops.
Context {E : Type} `{EV : ProcEnv E}.

Record pst := mkPst { tab : ptab; env : E }.

Definition pget : M pst ptab := gets tab.
Definition pmod (f : ptab -> ptab) : M pst unit := modify (fun s => mkPst (f (tab s)) (env s)).
Definition call {A} (c : M E A) : M pst A := fun s =>
  match c (env s) with
  | Ret a e => Ret a (mkPst (tab s) e)
  | Panic msg => Panic msg
  | Undef => Undef
  | Hang => Hang
  end.
Definition proc_at (i : nat) : M pst proc :=
  t <- pget;;
  match ptable t !! i with Some p => ret p | None => undef end.

(** The address of forkret, where a new context starts. *)
Context (forkret : Z).

Definition allocproc : M pst (option nat) :=
  t <- pget;;
  match alloc_slot t with
  | None => ret None
  | Some (i, t') =>
      pmod (fun _ => t');;
      k <- call e_kalloc;;
      match k with
      | None =>
          pmod (upd_proc i (set_kstack 0));;
          pmod (upd_proc i (set_state UNUSED));;
          ret None
      | Some a =>
          pmod (upd_proc i (fun p => set_context (mkContext 0 0 0 0 forkret) (set_kstack a p)));;
          ret (Some i)
      end
  end.

Definition user_tf : trapframe :=
  let ds := Z.lor (Z.shiftl SEG_UDATA 3) DPL_USER in
  mkTf 0 0 0 0 0 0 0 0 0 0 ds ds 0 0 0 (Z.lor (Z.shiftl SEG_UCODE 3) DPL_USER) FL_IF PGSIZE ds.

(** What safestrcpy writes for initcode. *)
Definition initcode_name : list Z := [105; 110; 105; 116; 99; 111; 100; 101; 0].

Definition userinit : M pst unit :=
  r <- allocproc;;
  match r with
  | None => undef      (* p->pgdir through a null pointer *)
  | Some i =>
      pmod (fun t => mkPtab (ptable t) (running t) (Some i) (nextpid t));;
      g <- call e_setupkvm;;
      match g with
      | None => panic "userinit: out of memory?"
      | Some d =>
          pmod (upd_proc i (set_pgdir d));;
          call (e_inituvm d);;
          pmod (upd_proc i (fun p => set_name initcode_name (set_tf user_tf (set_sz PGSIZE p))));;
          w <- call e_root;;
          pmod (upd_proc i (set_cwd (Some w)));;
          pmod (upd_proc i (set_state RUNNABLE))
      end
  end.

Definition growproc (cur : nat) (n : Z) : M pst Z :=
  p <- proc_at cur;;
  let sz := p_sz p in
  r <- (if n >? 0 then call (e_allocuvm (p_pgdir p) sz (u32 (sz + n)))
        else if n <? 0 then call (e_deallocuvm (p_pgdir p) sz (u32 (sz + n)))
        else ret sz);;
  if negb (n =? 0) && (r =? 0) then ret (-1)
  else
    pmod (upd_proc cur (set_sz r));;
    ret 0.

(** The loop of fork over the open files. *)
Fixpoint dup_files (l : list (option nat)) : M pst (list (option nat)) :=
  match l with
  | [] => ret []
  | None :: l' => r <- dup_files l';; ret (None :: r)
  | Some f :: l' => g <- call (e_filedup f);; r <- dup_files l';; ret (Some g :: r)
  end.

(** The child keeps its own entry where the parent has none. *)
Fixpoint merge_files (child got : list (option nat)) : list (option nat) :=
  match child, got with
  | c :: child', g :: got' => (match g with Some _ => g | None => c end) :: merge_files child' got'
  | _, _ => child
  end.

Definition fork (cur : nat) : M pst Z :=
  r <- allocproc;;
  match r with
  | None => ret (-1)
  | Some i =>
      p <- proc_at cur;;
      g <- call (e_copyuvm (p_pgdir p) (p_sz p));;
      match g with
      | None =>
          np <- proc_at i;;
          call (e_kfree (p_kstack np));;
          pmod (upd_proc i (set_kstack 0));;
          pmod (upd_proc i (set_state UNUSED));;
          ret (-1)
      | Some d =>
          pmod (upd_proc i (fun np =>
            set_tf (set_eax 0 (p_tf p)) (set_parent (Some cur) (set_sz (p_sz p) (set_pgdir d np)))));;
          fs <- dup_files (p_ofile p);;
          pmod (upd_proc i (fun np => set_ofile (merge_files (p_ofile np) fs) np));;
          w <- match p_cwd p with Some w => call (e_idup w) | None => undef end;;
          pmod (upd_proc i (fun np => set_name (p_name p) (set_cwd (Some w) np)));;
          np <- proc_at i;;
          pmod (upd_proc i (set_state RUNNABLE));;
          ret (p_pid np)
      end
  end.

(** The loop of exit over the open files. *)
Fixpoint close_files (cur : nat) (n fd : nat) : M pst unit :=
  match n with
  | O => ret tt
  | S n' =>
      p <- proc_at cur;;
      match p_ofile p !! fd with
      | Some (Some f) => call (e_fileclose f);; pmod (upd_proc cur (fun p => set_ofile (<[fd := None]> (p_ofile p)) p))
      | _ => ret tt
      end;;
      close_files cur n' (S fd)
  end.

(** sched: the checks it makes on the process; the switch itself gives up the
    processor [c]. *)
Definition sched (cur c : nat) : M pst unit :=
  p <- proc_at cur;;
  if decide (p_state p = RUNNING) then panic "sched running"
  else pmod (sched_back c).

Definition exit (cur c : nat) : M pst unit :=
  t <- pget;;
  if decide (initproc t = Some cur) then panic "init exiting"
  else
    close_files cur (Z.to_nat NOFILE) 0;;
    p <- proc_at cur;;
    match p_cwd p with Some w => call (e_iput w) | None => undef end;;
    pmod (upd_proc cur (set_cwd None));;
    pmod (exit_section cur);;
    sched cur c.

(** One turn of wait: the child reaped, -1, or [None] when the caller has gone to
    sleep and its processor is free. *)
Definition wait (cur c : nat) : M pst (option Z) :=
  t <- pget;;
  match wait_scan cur (ptable t) 0 false with
  | inl i =>
      p <- proc_at i;;
      call (e_kfree (p_kstack p));;
      call (e_freevm (p_pgdir p));;
      pmod (reap i);;
      ret (Some (p_pid p))
  | inr havekids =>
      p <- proc_at cur;;
      if negb havekids || p_killed p then ret (Some (-1))
      else
        pmod (sleep_on cur (Some (ChProc cur)));;
        sched cur c;;
        ret None
  end.

Definition yield (cur c : nat) : M pst unit :=
  pmod (upd_proc cur (set_state RUNNABLE));;
  sched cur c.

Definition sleep (cur c : nat) (ch : option chan) : M pst unit :=
  pmod (sleep_on cur ch);;
  sched cur c.

(** procdump: the lines it prints, as the pid, the name of the state and the name. *)
Definition state_name (st : procstate) : string :=
  match st with
  | UNUSED => "unused" | EMBRYO => "embryo" | SLEEPING => "sleep " | RUNNABLE => "runble"
  | RUNNING => "run   " | ZOMBIE => "zombie"
  end.
Definition procdump (t : ptab) : list (Z * string * list Z) :=
  omap (fun p => if decide (p_state p = UNUSED) then None
                 else Some (p_pid p, state_name (p_state p), p_name p)) (ptable t).
End Ops.
Arguments pst E : clear implicits.
