(* ===== verification/ProcInv.v ===== *)
(** * The process table as a state machine

    Processes on any number of processors run the sections of proc.c in any
    interleaving, together with the scheduler, wakeups and kills.  The invariant
    ties processors to running processes, children to living parents, the slots
    being set up to the fork that owns them, and rules out lost wakeups in
    wait. *)

From stdpp Require Import base numbers list gmap strings.
From Stdlib Require Import ZArith Lia.
From S2P Require Import Prelude Proc.

Local Open Scope Z_scope.

(** Where a process is: in a fork that owns the slot [j], with its parent set or
    not, or anywhere else. *)
Inductive pc := PRun | PFork (j : nat) (filled : bool).

Definition on (t : ptab) (c i : nat) : Prop := running t !! c = Some (Some i).

Inductive pstep : ptab * list pc -> ptab * list pc -> Prop :=
| ps_take c i t k t' : running t !! c = Some None -> sched_take c i t = Some t' -> pstep (t, k) (t', k)
| ps_yield c i t k : on t c i -> pstep (t, k) (sched_back c (upd_proc i (set_state RUNNABLE) t), k)
| ps_alloc c i t k j t' : on t c i -> k !! i = Some PRun -> nextpid t < 2147483647 ->
    alloc_slot t = Some (j, t') -> pstep (t, k) (t', <[i := PFork j false]> k)
| ps_abort c i t k j : on t c i -> k !! i = Some (PFork j false) ->
    pstep (t, k) (upd_proc j (set_state UNUSED) (upd_proc j (set_kstack 0) t), <[i := PRun]> k)
| ps_kstack c i t k j b a cx : on t c i -> k !! i = Some (PFork j b) ->
    pstep (t, k) (upd_proc j (fun p => set_context cx (set_kstack a p)) t, k)
| ps_fill c i t k j tf sz d : on t c i -> k !! i = Some (PFork j false) ->
    pstep (t, k) (upd_proc j (fun np => set_tf tf (set_parent (Some i) (set_sz sz (set_pgdir d np)))) t,
                  <[i := PFork j true]> k)
| ps_child c i t k j b fs w nm : on t c i -> k !! i = Some (PFork j b) ->
    pstep (t, k) (upd_proc j (fun np => set_name nm (set_cwd w (set_ofile fs np))) t, k)
| ps_ready c i t k j : on t c i -> k !! i = Some (PFork j true) ->
    pstep (t, k) (upd_proc j (set_state RUNNABLE) t, <[i := PRun]> k)
| ps_exit c i t k : on t c i -> k !! i = Some PRun -> initproc t <> Some i ->
    pstep (t, k) (sched_back c (exit_section i t), k)
| ps_reap c i t k j : on t c i -> k !! i = Some PRun -> wait_scan i (ptable t) 0 false = inl j ->
    pstep (t, k) (reap j t, k)
| ps_wait c i t k : on t c i -> k !! i = Some PRun -> wait_scan i (ptable t) 0 false = inr true ->
    pstep (t, k) (sched_back c (sleep_on i (Some (ChProc i)) t), k)
| ps_sleep c i t k a : on t c i -> k !! i = Some PRun ->
    pstep (t, k) (sched_back c (sleep_on i (Some (ChAddr a)) t), k)
| ps_awake c i t k : on t c i -> pstep (t, k) (sleep_done i t, k)
| ps_own c i t k sz tf fs w nm : on t c i ->
    pstep (t, k) (upd_proc i (fun p => set_sz sz (set_tf tf (set_ofile fs (set_cwd w (set_name nm p))))) t, k)
| ps_wakeup ch t k : pstep (t, k) (wakeup ch t, k)
| ps_kill pid t k : pstep (t, k) ((kill pid t).2, k).

(** ** The invariant *)
Definition live (s : procstate) : Prop := s = SLEEPING \/ s = RUNNABLE \/ s = RUNNING.

Record pinv (t : ptab) (k : list pc) : Prop := mkPinv {
  (* a processor runs a RUNNING process, a RUNNING process is on one processor *)
  pi_len : length k = length (ptable t);
  pi_run : forall c i, on t c i -> exists p, ptable t !! i = Some p /\ p_state p = RUNNING;
  pi_inj : forall c d i, on t c i -> on t d i -> c = d;
  pi_on : forall i p, ptable t !! i = Some p -> p_state p = RUNNING -> exists c, on t c i;
  (* families *)
  pi_unused : forall i p, ptable t !! i = Some p -> p_state p = UNUSED -> p_parent p = None;
  pi_parent : forall i p j, ptable t !! i = Some p -> p_parent p = Some j ->
    j <> i /\ exists q, ptable t !! j = Some q /\ live (p_state q);
  pi_init : exists i p, initproc t = Some i /\ ptable t !! i = Some p /\ live (p_state p) /\ p_parent p = None;
  (* wait never misses a child *)
  pi_chan : forall i p j, ptable t !! i = Some p -> p_state p = SLEEPING -> p_chan p = Some (ChProc j) -> j = i;
  pi_wait : forall i p j q, ptable t !! i = Some p -> p_state p = SLEEPING -> p_chan p = Some (ChProc i) ->
    ptable t !! j = Some q -> p_parent q = Some i -> p_state q <> ZOMBIE;
  (* a slot being set up belongs to one fork *)
  pi_fork : forall i j b, k !! i = Some (PFork j b) ->
    (exists p, ptable t !! i = Some p /\ (p_state p = RUNNING \/ p_state p = RUNNABLE)) /\
    exists q, ptable t !! j = Some q /\ p_state q = EMBRYO /\ p_parent q = if b then Some i else None;
  pi_one : forall i i' j b b', k !! i = Some (PFork j b) -> k !! i' = Some (PFork j b') -> i = i';
  pi_embryo : forall j q, ptable t !! j = Some q -> p_state q = EMBRYO -> exists i b, k !! i = Some (PFork j b);
  (* process ids *)
  pi_pid : forall i p, ptable t !! i = Some p -> p_state p <> UNUSED -> 0 < p_pid p < nextpid t;
  pi_uniq : forall i j p q, ptable t !! i = Some p -> ptable t !! j = Some q -> p_state p <> UNUSED ->
    p_state q <> UNUSED -> p_pid p = p_pid q -> i = j
}.

(** ** Pointwise changes of the table *)
Definition pw (t t' : ptab) (g : nat -> proc -> proc) : Prop :=
  forall i, ptable t' !! i = g i <$> ptable t !! i.

Lemma pw_inv t t' g i q : pw t t' g -> ptable t' !! i = Some q -> exists p, ptable t !! i = Some p /\ q = g i p.
Proof. intros H E. rewrite H in E. destruct (ptable t !! i) as [p|]; simplify_eq/=. by exists p. Qed.

Lemma pw_fwd t t' g i p : pw t t' g -> ptable t !! i = Some p -> ptable t' !! i = Some (g i p).
Proof. intros H E. by rewrite H, E. Qed.

Lemma pw_upd t i f : pw t (upd_proc i f t) (fun j p => if decide (j = i) then f p else p).
Proof.
  intros j. simpl. destruct (decide (j = i)) as [->|Hne].
  - by rewrite list_lookup_alter_eq.
  - rewrite list_lookup_alter_ne by done. by destruct (ptable t !! j).
Qed.

Lemma pw_trans t1 t2 t3 g h : pw t1 t2 g -> pw t2 t3 h -> pw t1 t3 (fun i p => h i (g i p)).
Proof. intros H1 H2 i. rewrite H2, H1. by destruct (ptable t1 !! i). Qed.

Lemma pw_wakeup1 c t t' : ptable t' = wakeup1 c (ptable t) ->
  pw t t' (fun _ p => if decide (p_state p = SLEEPING /\ p_chan p = c) then set_state RUNNABLE p else p).
Proof. intros E i. rewrite E. unfold wakeup1. change (map ?f ?l) with (f <$> l). apply list_lookup_fmap. Qed.

Lemma pw_length t t' g : pw t t' g -> length (ptable t') = length (ptable t).
Proof.
  intros H. apply Nat.le_antisymm; apply Nat.nlt_ge; intros Hlt.
  - destruct (lookup_lt_is_Some_2 (ptable t') (length (ptable t)) Hlt) as [p E].
    rewrite H, lookup_ge_None_2 in E by lia. done.
  - destruct (lookup_lt_is_Some_2 (ptable t) (length (ptable t')) Hlt) as [p E].
    pose proof (pw_fwd _ _ _ _ _ H E) as E'. rewrite lookup_ge_None_2 in E' by lia. done.
Qed.

(** ** The loop of exit *)

(** [p'] is [p] with another parent, perhaps woken. *)
Definition woke (p p' : proc) : Prop :=
  p_chan p' = p_chan p /\ p_pid p' = p_pid p /\
  (p_state p' = p_state p \/ (p_state p = SLEEPING /\ p_state p' = RUNNABLE)).

Lemma woke_refl p : woke p p.
Proof. split; [done|]. split; [done|]. by left. Qed.

Lemma woke_trans p q r : woke p q -> woke q r -> woke p r.
Proof.
  intros (A1 & A2 & A3) (B1 & B2 & B3). split; [congruence|]. split; [congruence|].
  destruct A3 as [A3|[A3 A4]], B3 as [B3|[B3 B4]];
    [left; congruence|right; split; congruence|right; split; congruence|congruence].
Qed.

(** wakeup1 on the slots. *)
Lemma wakeup1_spec c l j p : l !! j = Some p ->
  exists p', wakeup1 c l !! j = Some p' /\ woke p p' /\ p_parent p' = p_parent p /\
             (p_state p = SLEEPING -> p_chan p = c -> p_state p' = RUNNABLE).
Proof.
  intros E. unfold wakeup1. change (map ?f ?l) with (f <$> l). rewrite list_lookup_fmap, E. simpl.
  eexists. split; [done|]. destruct (decide (p_state p = SLEEPING /\ p_chan p = c)) as [[E1 E2]|Hn].
  - split; [split; [done|]; split; [done|]; right; done|done].
  - split; [apply woke_refl|]. split; [done|]. tauto.
Qed.

Lemma length_wakeup1 c l : length (wakeup1 c l) = length l.
Proof. apply length_map. Qed.

(** A zombie child of [cur] among the slots from [i] to [i + n]. *)
Definition zombie_child (cur : nat) (l : list proc) (i n : nat) : Prop :=
  exists m q, (i <= m < i + n)%nat /\ l !! m = Some q /\ p_parent q = Some cur /\ p_state q = ZOMBIE.

(** One turn of the loop. *)
Definition reparent1 (cur : nat) (init : option nat) (l : list proc) (i : nat) : list proc :=
  match l !! i with
  | Some p =>
      if decide (p_parent p = Some cur) then
        let l := alter (set_parent init) i l in
        if decide (p_state p = ZOMBIE) then wakeup1 (ChProc <$> init) l else l
      else l
  | None => l
  end.

Lemma reparent1_spec cur init l i j p : l !! j = Some p ->
  exists p', reparent1 cur init l i !! j = Some p' /\ woke p p' /\
    p_parent p' = (if decide (j = i /\ p_parent p = Some cur) then init else p_parent p) /\
    (p_state p = SLEEPING -> p_chan p = ChProc <$> init -> zombie_child cur l i 1 -> p_state p' = RUNNABLE).
Proof.
  intros E. unfold reparent1. destruct (l !! i) as [q|] eqn:Ei.
  2: { exists p. split; [done|]. split; [apply woke_refl|]. split.
       - destruct (decide (j = i /\ p_parent p = Some cur)) as [[-> _]|]; [congruence|done].
       - intros _ _ (m & x & Hm & Hx & _). assert (m = i) as -> by lia. congruence. }
  assert (Hz : forall x, zombie_child cur l i 1 -> p_parent q = Some cur /\ p_state q = ZOMBIE \/ x).
  { intros x (m & y & Hm & Hy & ? & ?). assert (m = i) as -> by lia. left. by simplify_eq. }
  destruct (decide (p_parent q = Some cur)) as [Hp|Hp].
  2: { exists p. split; [done|]. split; [apply woke_refl|]. split.
       - destruct (decide (j = i /\ p_parent p = Some cur)) as [[-> ?]|]; [by simplify_eq|done].
       - intros _ _ H. by destruct (Hz False H) as [[? _]|]. }
  assert (Ea : exists p1, alter (set_parent init) i l !! j = Some p1 /\ p_state p1 = p_state p /\ p_chan p1 = p_chan p /\
    p_pid p1 = p_pid p /\ p_parent p1 = if decide (j = i /\ p_parent p = Some cur) then init else p_parent p).
  { destruct (decide (j = i)) as [->|Hne].
    - rewrite list_lookup_alter_eq, E. eexists. split; [done|]. simplify_eq. by rewrite decide_True.
    - rewrite list_lookup_alter_ne, E by done. eexists. split; [done|]. rewrite decide_False by tauto. done. }
  destruct Ea as (p1 & Ea & Es & Ec & Epid & Epar).
  destruct (decide (p_state q = ZOMBIE)) as [Hq|Hq].
  - destruct (wakeup1_spec (ChProc <$> init) _ _ _ Ea) as (p2 & E2 & (W1 & W2 & W3) & Ep2 & Hw).
    exists p2. split; [done|]. split; [|split; [congruence|]].
    + split; [congruence|]. split; [congruence|]. by rewrite Es in W3.
    + intros Hs Hc _. apply Hw; congruence.
  - exists p1. split; [done|]. split; [split; [done|]; split; [done|]; by left|]. split; [done|].
    intros _ _ H. by destruct (Hz False H) as [[_ ?]|].
Qed.

Lemma length_reparent1 cur init l i : length (reparent1 cur init l i) = length l.
Proof.
  unfold reparent1. destruct (l !! i); [|done]. destruct (decide _); [|done].
  destruct (decide _); [rewrite length_wakeup1|]; apply length_alter.
Qed.

Lemma reparent_spec n cur init l i j p : init <> Some cur -> l !! j = Some p ->
  exists p', reparent n cur init l i !! j = Some p' /\ woke p p' /\
    p_parent p' = (if decide ((i <= j < i + n)%nat /\ p_parent p = Some cur) then init else p_parent p) /\
    (p_state p = SLEEPING -> p_chan p = ChProc <$> init -> zombie_child cur l i n -> p_state p' = RUNNABLE).
Proof.
  intros Hi. revert l i p. induction n as [|n IH]; intros l i p E; cbn [reparent].
  { exists p. split; [done|]. split; [apply woke_refl|]. split; [by rewrite decide_False by lia|].
    intros _ _ (m & q & Hm & _). lia. }
  fold (reparent1 cur init l i). destruct (reparent1_spec cur init l i j p E) as (p1 & E1 & W1 & Ep1 & Hw1).
  destruct (IH (reparent1 cur init l i) (S i) p1 E1) as (p2 & E2 & W2 & Ep2 & Hw2).
  exists p2. split; [done|]. split; [by eapply woke_trans|]. split.
  - rewrite Ep2. destruct (decide (p_parent p = Some cur)) as [Hc|Hc]; [destruct (decide (j = i)) as [->|Hne]|].
    + rewrite decide_True in Ep1 by done. rewrite decide_False by lia. rewrite decide_True by (split; [lia|done]). done.
    + rewrite decide_False in Ep1 by tauto. rewrite Ep1. destruct (decide ((S i <= j < S i + n)%nat)).
      * rewrite !decide_True by (split; [lia|done]). done.
      * rewrite !decide_False by (intros [? _]; lia). done.
    + rewrite decide_False in Ep1 by tauto. rewrite Ep1, !decide_False by tauto. done.
  - intros Hs Hc (m & q & Hm & Hq & Hqp & Hqs). destruct (decide (m = i)) as [->|Hne].
    + assert (Hr : p_state p1 = RUNNABLE) by (apply Hw1; [done|done|exists i, q; split; [lia|done]]).
      destruct W2 as (_ & _ & [W2|[W2 _]]); congruence.
    + destruct W1 as (Wc & _ & [Ws|[_ Ws]]).
      * apply Hw2; [congruence|congruence|]. destruct (reparent1_spec cur init l i m q Hq) as (q1 & Eq1 & (_ & _ & Wq) & Epq & _).
        exists m, q1. split; [lia|]. split; [done|]. rewrite decide_False in Epq by tauto.
        split; [congruence|]. destruct Wq as [Wq|[Wq _]]; congruence.
      * destruct W2 as (_ & _ & [W2|[W2 _]]); congruence.
Qed.

Lemma length_reparent n cur init l i : length (reparent n cur init l i) = length l.
Proof.
  revert l i. induction n as [|n IH]; intros l i; cbn [reparent]; [done|].
  fold (reparent1 cur init l i). rewrite IH. apply length_reparent1.
Qed.

(** The section of exit, slot by slot. *)
Lemma exit_section_spec cur t c0 j p : ptable t !! cur = Some c0 -> initproc t <> Some cur -> ptable t !! j = Some p ->
  exists p', ptable (exit_section cur t) !! j = Some p' /\ p_chan p' = p_chan p /\ p_pid p' = p_pid p /\
    p_parent p' = (if decide (p_parent p = Some cur) then initproc t else p_parent p) /\
    (j = cur -> p_state p' = ZOMBIE) /\
    (j <> cur -> p_state p' = p_state p \/ (p_state p = SLEEPING /\ p_state p' = RUNNABLE)) /\
    (j <> cur -> p_state p = SLEEPING -> p_chan p = ChProc <$> p_parent c0 -> p_state p' = RUNNABLE) /\
    (j <> cur -> p_state p = SLEEPING -> p_chan p = ChProc <$> initproc t ->
       (exists m q, ptable t !! m = Some q /\ p_parent q = Some cur /\ p_state q = ZOMBIE) -> p_state p' = RUNNABLE).
Proof.
  intros Ec Hi E. unfold exit_section. rewrite Ec. cbn [ptable set_ptable].
  set (l1 := wakeup1 (ChProc <$> p_parent c0) (ptable t)).
  destruct (wakeup1_spec (ChProc <$> p_parent c0) (ptable t) j p E) as (p1 & E1 & W1 & Ep1 & Hw1). fold l1 in E1.
  destruct (reparent_spec (length l1) cur (initproc t) l1 0 j p1 Hi E1) as (p2 & E2 & W2 & Ep2 & Hw2).
  pose proof (woke_trans _ _ _ W1 W2) as (Wc & Wp & Ws). pose proof (lookup_lt_Some _ _ _ E1) as Hlt.
  assert (Epar : p_parent p2 = if decide (p_parent p = Some cur) then initproc t else p_parent p).
  { rewrite Ep2, Ep1. destruct (decide (p_parent p = Some cur)).
    - rewrite decide_True by (split; [lia|done]). done.
    - rewrite decide_False by tauto. done. }
  assert (Hst1 : p_state p1 = RUNNABLE -> p_state p2 = RUNNABLE)
    by (intros H; destruct W2 as (_ & _ & [W2|[W2 _]]); congruence).
  assert (Hboth : (p_state p = SLEEPING -> p_chan p = ChProc <$> p_parent c0 -> p_state p2 = RUNNABLE) /\
    (p_state p = SLEEPING -> p_chan p = ChProc <$> initproc t ->
       (exists m q, ptable t !! m = Some q /\ p_parent q = Some cur /\ p_state q = ZOMBIE) -> p_state p2 = RUNNABLE)).
  { split; [auto|]. intros Hs Hch (m & q & Hq & Hqp & Hqs). destruct W1 as (W1c & _ & [W1s|[_ W1s]]); [|auto].
    apply Hw2; [congruence|congruence|]. destruct (wakeup1_spec (ChProc <$> p_parent c0) (ptable t) m q Hq)
      as (q1 & Eq1 & (_ & _ & Wq) & Epq & _). exists m, q1. pose proof (lookup_lt_Some _ _ _ Eq1) as Hm. fold l1 in Hm.
    split; [lia|]. split; [done|]. split; [congruence|]. destruct Wq as [Wq|[Wq _]]; congruence. }
  destruct (decide (j = cur)) as [->|Hne].
  - exists (set_state ZOMBIE p2). rewrite list_lookup_alter_eq, E2. done.
  - exists p2. rewrite list_lookup_alter_ne by done. destruct Hboth. done.
Qed.

Lemma length_exit_section cur t : length (ptable (exit_section cur t)) = length (ptable t).
Proof.
  unfold exit_section. destruct (ptable t !! cur); [|done]. cbn [ptable set_ptable].
  by rewrite length_alter, length_reparent, length_wakeup1.
Qed.

(** ** Steps that only wake processes or change other fields *)
Lemma live_not_embryo s : live s -> s <> EMBRYO /\ s <> UNUSED /\ s <> ZOMBIE.
Proof. by intros [->|[->| ->]]. Qed.

(** [p'] has the family and the pid of [p]; it has the state of [p] or has been
    woken; if it sleeps, then where [p] did. *)
Definition quiet (p p' : proc) : Prop :=
  p_parent p' = p_parent p /\ p_pid p' = p_pid p /\
  (p_state p' = p_state p \/ (p_state p = SLEEPING /\ p_state p' = RUNNABLE)) /\
  (p_state p' = SLEEPING -> p_chan p' = p_chan p).

Lemma quiet_state p p' st : quiet p p' -> p_state p' = st -> st <> RUNNABLE -> p_state p = st.
Proof. intros (_ & _ & [->|[_ E]] & _) H Hn; congruence. Qed.

Lemma quiet_live p p' : quiet p p' -> live (p_state p) -> live (p_state p').
Proof. intros (_ & _ & [->|[_ ->]] & _) H; [done|right; by left]. Qed.

Lemma pinv_quiet t t' k g :
  pinv t k -> pw t t' g -> running t' = running t -> initproc t' = initproc t -> nextpid t' = nextpid t ->
  (forall i p, ptable t !! i = Some p -> quiet p (g i p)) -> pinv t' k.
Proof.
  intros I Hpw Er Ei En Hq.
  assert (Hi : forall i q, ptable t' !! i = Some q -> exists p, ptable t !! i = Some p /\ q = g i p /\ quiet p q).
  { intros i q E. destruct (pw_inv _ _ _ _ _ Hpw E) as (p & Ep & ->). exists p. eauto. }
  assert (Hf : forall i p, ptable t !! i = Some p -> exists q, ptable t' !! i = Some q /\ quiet p q).
  { intros i p E. exists (g i p). split; [by eapply pw_fwd|auto]. }
  assert (Hon : forall c i, on t' c i <-> on t c i) by (intros; unfold on; by rewrite Er).
  constructor.
  - rewrite (pw_length _ _ _ Hpw). apply I.
  - intros c i [p [E Hs]]%Hon%(pi_run t k I). destruct (Hf i p E) as (q & Eq & Hqu). exists q. split; [done|].
    destruct Hqu as (_ & _ & [->|[E' _]] & _); congruence.
  - intros c d i H1%Hon H2%Hon. by eapply (pi_inj t k I).
  - intros i q E Hs. destruct (Hi i q E) as (p & Ep & _ & Hqu).
    destruct (pi_on t k I i p Ep (quiet_state _ _ _ Hqu Hs ltac:(done))) as [c Hc]. exists c. by apply Hon.
  - intros i q E Hs. destruct (Hi i q E) as (p & Ep & _ & Hqu). destruct (Hqu) as (-> & _).
    apply (pi_unused t k I i p Ep). by eapply quiet_state.
  - intros i q j E Hp. destruct (Hi i q E) as (p & Ep & _ & Hqu). destruct (Hqu) as (Epar & _). rewrite Epar in Hp.
    destruct (pi_parent t k I i p j Ep Hp) as (Hne & r & Er' & Hl). split; [done|].
    destruct (Hf j r Er') as (r' & Er2 & Hqr). exists r'. split; [done|by eapply quiet_live].
  - destruct (pi_init t k I) as (i & p & Ein & Ep & Hl & Hp). destruct (Hf i p Ep) as (q & Eq & Hqu).
    exists i, q. split; [congruence|]. split; [done|]. split; [by eapply quiet_live|]. destruct Hqu as (-> & _). done.
  - intros i q j E Hs Hc. destruct (Hi i q E) as (p & Ep & _ & Hqu).
    apply (pi_chan t k I i p j Ep); [by eapply quiet_state|]. destruct Hqu as (_ & _ & _ & Hch). rewrite <- Hch; done.
  - intros i q j r E Hs Hc Er' Hp Hz. destruct (Hi i q E) as (p & Ep & _ & Hqu). destruct (Hi j r Er') as (r0 & Er0 & _ & Hqr).
    apply (pi_wait t k I i p j r0 Ep); [by eapply quiet_state| |done| |by eapply quiet_state].
    + destruct Hqu as (_ & _ & _ & Hch). rewrite <- Hch; done.
    + destruct Hqr as (<- & _). done.
  - intros i j b E. destruct (pi_fork t k I i j b E) as ((p & Ep & Hs) & q & Eq & Hqs & Hqp).
    destruct (Hf i p Ep) as (p' & Ep' & Hqu). destruct (Hf j q Eq) as (q' & Eq' & Hqu'). split.
    + exists p'. split; [done|]. destruct Hqu as (_ & _ & [->|[_ ->]] & _); [done|by right].
    + exists q'. split; [done|]. destruct Hqu' as (-> & _ & [->|[E' _]] & _); [done|congruence].
  - apply I.
  - intros j q E Hs. destruct (Hi j q E) as (p & Ep & _ & Hqu). apply (pi_embryo t k I j p Ep). by eapply quiet_state.
  - intros i q E Hs. destruct (Hi i q E) as (p & Ep & _ & Hqu). rewrite En. destruct (Hqu) as (_ & -> & Hst & _).
    apply (pi_pid t k I i p Ep). intros Hu. destruct Hst as [Hst|[Hst _]]; congruence.
  - intros i j q r E Er' Hs Hr Hpid. destruct (Hi i q E) as (p & Ep & _ & Hqu). destruct (Hi j r Er') as (r0 & Er0 & _ & Hqr).
    destruct (Hqu) as (_ & E1 & Hst & _), (Hqr) as (_ & E2 & Hst' & _).
    apply (pi_uniq t k I i j p r0 Ep Er0); [| |congruence];
      intros Hu; [destruct Hst as [Hst|[Hst _]]|destruct Hst' as [Hst'|[Hst' _]]]; congruence.
Qed.

(** ** Steps of the process on a processor *)
Lemma on_lookup t k c i : pinv t k -> on t c i -> exists p, ptable t !! i = Some p /\ p_state p = RUNNING.
Proof. intros I. apply I. Qed.

(** Slot [i] moves between live states; its processor may change. *)
Lemma pinv_switch t t' k i p p' :
  pinv t k -> ptable t !! i = Some p -> ptable t' = <[i := p']> (ptable t) ->
  initproc t' = initproc t -> nextpid t' = nextpid t ->
  live (p_state p) -> live (p_state p') -> p_parent p' = p_parent p -> p_pid p' = p_pid p ->
  (forall c j, on t' c j -> if decide (j = i) then p_state p' = RUNNING else on t c j) ->
  (forall c d j, on t' c j -> on t' d j -> c = d) ->
  (forall j, (j = i /\ p_state p' = RUNNING) \/ (j <> i /\ exists c, on t c j) -> exists c, on t' c j) ->
  (p_state p' = SLEEPING -> (forall j b, k !! i <> Some (PFork j b)) /\
     forall j, p_chan p' = Some (ChProc j) -> j = i /\
     forall m q, ptable t !! m = Some q -> p_parent q = Some i -> p_state q <> ZOMBIE) ->
  pinv t' k.
Proof.
  intros I Ep Et Ei En Hl Hl' Hpar Hpid Hon Hinj Hex Hsl.
  assert (Hlt : (i < length (ptable t))%nat) by (by eapply lookup_lt_Some).
  assert (Hi : forall j q, ptable t' !! j = Some q -> j = i /\ q = p' \/ j <> i /\ ptable t !! j = Some q).
  { intros j q. rewrite Et. intros [(<- & <- & _)|[? ?]]%list_lookup_insert_Some; [by left|by right]. }
  assert (Hself : ptable t' !! i = Some p') by (rewrite Et; by apply list_lookup_insert_eq).
  assert (Hf : forall j q, ptable t !! j = Some q -> exists q', ptable t' !! j = Some q' /\
    p_parent q' = p_parent q /\ (j = i /\ q' = p' \/ j <> i /\ q' = q)).
  { intros j q E. destruct (decide (j = i)) as [->|Hne].
    - exists p'. simplify_eq. split; [done|]. split; [done|]. by left.
    - exists q. split; [by rewrite Et, list_lookup_insert_ne|]. split; [done|]. by right. }
  pose proof (live_not_embryo _ Hl) as (L1 & L2 & L3). pose proof (live_not_embryo _ Hl') as (L1' & L2' & L3').
  constructor.
  - rewrite Et, length_insert. apply I.
  - intros c j H. specialize (Hon c j H). destruct (decide (j = i)) as [->|Hne]; [by exists p'|].
    destruct (pi_run t k I c j Hon) as (q & Eq & Hq). exists q. split; [|done]. by rewrite Et, list_lookup_insert_ne.
  - done.
  - intros j q E Hs. apply Hex. destruct (Hi j q E) as [[-> ->]|[Hne Eq]]; [by left|right]. split; [done|]. by eapply (pi_on t k I).
  - intros j q E Hs. destruct (Hi j q E) as [[-> ->]|[Hne Eq]]; [congruence|by eapply (pi_unused t k I)].
  - intros j q m E Hq. assert (Hold : exists q0, ptable t !! j = Some q0 /\ p_parent q0 = Some m).
    { destruct (Hi j q E) as [[-> ->]|[_ ?]]; [exists p; by rewrite <- Hpar|by exists q]. }
    destruct Hold as (q0 & Eq0 & Hq0). destruct (pi_parent t k I j q0 m Eq0 Hq0) as (Hne & r & Er & Hlr). split; [done|].
    destruct (Hf m r Er) as (r' & Er' & _ & [[_ ->]|[_ ->]]); eauto.
  - destruct (pi_init t k I) as (n & q & Ein & Eq & Hlq & Hpq). destruct (Hf n q Eq) as (q' & Eq' & Hpar' & Hor).
    exists n, q'. split; [congruence|]. split; [done|]. split; [|congruence]. destruct Hor as [[_ ->]|[_ ->]]; done.
  - intros j q m E Hs Hc. destruct (Hi j q E) as [[-> ->]|[_ Eq]]; [by apply (Hsl Hs)|by eapply (pi_chan t k I)].
  - intros j q m r E Hs Hc Er Hp. destruct (Hi m r Er) as [[-> ->]|[Hm Er0]]; [done|].
    destruct (Hi j q E) as [[-> ->]|[_ Eq]]; [|by eapply (pi_wait t k I j q m r)].
    destruct (Hsl Hs) as [_ H]. destruct (H i Hc) as [_ H']. by eapply H'.
  - intros j m b E. destruct (pi_fork t k I j m b E) as ((q & Eq & Hs) & r & Er & Hrs & Hrp). split.
    + destruct (Hf j q Eq) as (q' & Eq' & _ & [[-> ->]|[_ ->]]); [|eauto]. exists p'. split; [done|].
      destruct Hl' as [H|[H|H]]; [|by right|by left]. destruct (Hsl H) as [Hno _]. by destruct (Hno m b).
    + destruct (Hf m r Er) as (r' & Er' & Hpr & [[-> ->]|[_ ->]]); [simplify_eq; congruence|]. exists r. done.
  - apply I.
  - intros j q E Hs. destruct (Hi j q E) as [[-> ->]|[_ Eq]]; [congruence|by eapply (pi_embryo t k I)].
  - intros j q E Hs. rewrite En. destruct (Hi j q E) as [[-> ->]|[_ Eq]]; [|by eapply (pi_pid t k I)].
    rewrite Hpid. by apply (pi_pid t k I i p).
  - intros j m q r E Er Hs Hr Hpd.
    destruct (Hi j q E) as [[-> ->]|[Hj Eq]], (Hi m r Er) as [[-> ->]|[Hm Er0]]; [done|..].
    + apply (pi_uniq t k I i m p r); [done|done|done|done|congruence].
    + apply (pi_uniq t k I j i q p); [done|done|done|done|congruence].
    + by eapply (pi_uniq t k I).
Qed.

(** ** Steps that set up or free a slot *)
Lemma pinv_slot t t' k k' j q q' :
  pinv t k -> ptable t !! j = Some q -> ~ live (p_state q) -> ptable t' = <[j := q']> (ptable t) ->
  running t' = running t -> initproc t' = initproc t -> nextpid t <= nextpid t' -> length k' = length k ->
  p_state q' = UNUSED \/ p_state q' = EMBRYO \/ p_state q' = RUNNABLE ->
  (p_state q' = UNUSED -> p_parent q' = None) ->
  (forall i, p_parent q' = Some i -> exists p, ptable t !! i = Some p /\ live (p_state p)) ->
  (p_state q' <> UNUSED -> 0 < p_pid q' < nextpid t' /\
     forall i p, ptable t !! i = Some p -> i <> j -> p_state p <> UNUSED -> p_pid p <> p_pid q') ->
  (forall i m b, k' !! i = Some (PFork m b) ->
     m = j /\ p_state q' = EMBRYO /\ p_parent q' = (if b then Some i else None) /\
       (exists p, ptable t !! i = Some p /\ (p_state p = RUNNING \/ p_state p = RUNNABLE)) \/
     m <> j /\ k !! i = Some (PFork m b)) ->
  (forall i i' b b', k' !! i = Some (PFork j b) -> k' !! i' = Some (PFork j b') -> i = i') ->
  (forall i m b, m <> j -> k !! i = Some (PFork m b) -> k' !! i = Some (PFork m b)) ->
  (p_state q' = EMBRYO -> exists i b, k' !! i = Some (PFork j b)) ->
  pinv t' k'.
Proof.
  intros I Eq Hnl Et Er Ei En Hlen Hst Hun Hpar Hpid Hfk Hone Hkeep Hemb.
  assert (Hlt : (j < length (ptable t))%nat) by (by eapply lookup_lt_Some).
  assert (Hi : forall i p, ptable t' !! i = Some p -> i = j /\ p = q' \/ i <> j /\ ptable t !! i = Some p).
  { intros i p. rewrite Et. intros [(<- & <- & _)|[? ?]]%list_lookup_insert_Some; [by left|by right]. }
  assert (Hf : forall i p, ptable t !! i = Some p -> i <> j -> ptable t' !! i = Some p)
    by (intros i p E Hne; by rewrite Et, list_lookup_insert_ne).
  assert (Hself : ptable t' !! j = Some q') by (rewrite Et; by apply list_lookup_insert_eq).
  assert (Hlj : forall i p, ptable t !! i = Some p -> live (p_state p) -> i <> j) by (intros i p E Hl ->; simplify_eq; done).
  assert (Hq' : p_state q' <> RUNNING /\ p_state q' <> SLEEPING /\ p_state q' <> ZOMBIE) by (by destruct Hst as [->|[->| ->]]).
  destruct Hq' as (Hq1 & Hq2 & Hq3).
  constructor.
  - rewrite Et, length_insert, Hlen. apply I.
  - intros c i H. unfold on in H. rewrite Er in H. destruct (pi_run t k I c i H) as (p & Ep & Hp). exists p. split; [|done].
    apply Hf; [done|]. eapply Hlj; [done|]. rewrite Hp. right. by right.
  - intros c d i. unfold on. rewrite Er. apply I.
  - intros i p E Hs. unfold on. rewrite Er. destruct (Hi i p E) as [[-> ->]|[_ Ep]]; [done|]. by eapply (pi_on t k I).
  - intros i p E Hs. destruct (Hi i p E) as [[-> ->]|[_ Ep]]; [auto|by eapply (pi_unused t k I)].
  - intros i p m E Hp. destruct (Hi i p E) as [[-> ->]|[_ Ep]].
    + destruct (Hpar m Hp) as (r & Er' & Hl). assert (m <> j) by (by eapply Hlj). split; [done|]. exists r. auto.
    + destruct (pi_parent t k I i p m Ep Hp) as (Hne & r & Er' & Hl). split; [done|]. exists r. split; [|done]. apply Hf; [done|by eapply Hlj].
  - destruct (pi_init t k I) as (n & p & Ein & Ep & Hl & Hp). exists n, p. split; [congruence|].
    split; [apply Hf; [done|by eapply Hlj]|done].
  - intros i p m E Hs. destruct (Hi i p E) as [[-> ->]|[_ Ep]]; [done|by eapply (pi_chan t k I)].
  - intros i p m r E Hs Hc Er' Hp. destruct (Hi i p E) as [[-> ->]|[_ Ep]]; [done|].
    destruct (Hi m r Er') as [[-> ->]|[_ Er0]]; [done|by eapply (pi_wait t k I i p m r)].
  - intros i m b E. destruct (Hfk i m b E) as [(-> & Hs & Hp & p & Ep & Hps)|(Hne & Ek)].
    + split; [|by exists q']. exists p. split; [|done]. apply Hf; [done|]. eapply Hlj; [done|].
      destruct Hps as [->| ->]; [right; by right|right; by left].
    + destruct (pi_fork t k I i m b Ek) as ((p & Ep & Hps) & r & Er' & Hrs & Hrp). split; [|exists r; auto].
      exists p. split; [|done]. apply Hf; [done|]. eapply Hlj; [done|]. destruct Hps as [->| ->]; [right; by right|right; by left].
  - intros i i' m b b' E E'. destruct (decide (m = j)) as [->|Hm]; [by eapply Hone|].
    destruct (Hfk i m b E) as [(? & _)|[_ Ek]]; [done|]. destruct (Hfk i' m b' E') as [(? & _)|[_ Ek']]; [done|].
    by eapply (pi_one t k I).
  - intros m r E Hs. destruct (Hi m r E) as [[-> ->]|[Hne Er']]; [auto|].
    destruct (pi_embryo t k I m r Er' Hs) as (i & b & Ek). exists i, b. by apply Hkeep.
  - intros i p E Hs. destruct (Hi i p E) as [[-> ->]|[_ Ep]]; [by apply Hpid|].
    pose proof (pi_pid t k I i p Ep Hs). lia.
  - intros i m p r E Er' Hs Hr Hpd. destruct (Hi i p E) as [[-> ->]|[Hj Ep]], (Hi m r Er') as [[-> ->]|[Hm Er0]]; [done|..].
    + destruct (Hpid Hs) as [_ Hu]. by destruct (Hu m r Er0 Hm Hr).
    + destruct (Hpid Hr) as [_ Hu]. by destruct (Hu i p Ep Hj Hs).
    + by eapply (pi_uniq t k I).
Qed.

Lemma upd_ptable t i f p : ptable t !! i = Some p -> ptable (upd_proc i f t) = <[i := f p]> (ptable t).
Proof. apply alter_insert. Qed.

(** ** The steps *)
Lemma first_unused_spec l n i : first_unused l n = Some i -> exists j p, i = (n + j)%nat /\ l !! j = Some p /\ p_state p = UNUSED.
Proof.
  revert n. induction l as [|x l IH]; intros n; cbn [first_unused]; [done|].
  destruct (decide (p_state x = UNUSED)) as [E|E].
  - intros [= <-]. exists 0%nat, x. split; [lia|done].
  - intros H. destruct (IH (S n) H) as (j & p & -> & ?). exists (S j), p. split; [lia|done].
Qed.

Lemma wait_scan_inl cur l n h i : wait_scan cur l n h = inl i ->
  exists j p, i = (n + j)%nat /\ l !! j = Some p /\ p_parent p = Some cur /\ p_state p = ZOMBIE.
Proof.
  revert n h. induction l as [|x l IH]; intros n h; cbn [wait_scan]; [done|].
  destruct (decide (p_parent x = Some cur)); [destruct (decide (p_state x = ZOMBIE))|].
  - intros [= <-]. exists 0%nat, x. split; [lia|done].
  - intros H. destruct (IH _ _ H) as (j & p & -> & ?). exists (S j), p. split; [lia|done].
  - intros H. destruct (IH _ _ H) as (j & p & -> & ?). exists (S j), p. split; [lia|done].
Qed.

Lemma wait_scan_inr cur l n h b : wait_scan cur l n h = inr b ->
  forall j p, l !! j = Some p -> p_parent p = Some cur -> p_state p <> ZOMBIE.
Proof.
  revert n h. induction l as [|x l IH]; intros n h; cbn [wait_scan]; [done|].
  destruct (decide (p_parent x = Some cur)) as [E|E]; [destruct (decide (p_state x = ZOMBIE)) as [E'|E']|]; [done|..];
    intros H [|j] p Hj; simplify_eq/=; try done; by eapply IH.
Qed.

Lemma on_insert_ne t c d v j : running t !! c = Some v -> <[c := None]> (running t) !! d = Some (Some j) ->
  on t d j /\ d <> c.
Proof.
  intros Hc [(_ & ? & _)|[Hne H]]%list_lookup_insert_Some; [done|]. split; [exact H|]. by intros ->.
Qed.

(** Giving up the processor: the process on [c] becomes [p']. *)
Lemma pinv_giveup t k c i p p' t1 :
  pinv t k -> on t c i -> ptable t !! i = Some p -> ptable t1 = <[i := p']> (ptable t) ->
  running t1 = running t -> initproc t1 = initproc t -> nextpid t1 = nextpid t ->
  p_parent p' = p_parent p -> p_pid p' = p_pid p -> p_state p' = SLEEPING \/ p_state p' = RUNNABLE ->
  (p_state p' = SLEEPING -> (forall j b, k !! i <> Some (PFork j b)) /\
     forall j, p_chan p' = Some (ChProc j) -> j = i /\
     forall m q, ptable t !! m = Some q -> p_parent q = Some i -> p_state q <> ZOMBIE) ->
  pinv (sched_back c t1) k.
Proof.
  intros I Hon Ep Et Er Ei En Hpar Hpid Hst Hsl.
  destruct (pi_run t k I c i Hon) as (p0 & Ep0 & Hrun). assert (p0 = p) as -> by congruence.
  assert (Hone : forall d, on t d i -> d = c) by (intros d Hd; by eapply (pi_inj t k I)).
  assert (Honi : forall d j, on (sched_back c t1) d j -> on t d j /\ d <> c).
  { intros d j H. unfold on, sched_back in H. cbn [running set_running] in H. rewrite Er in H. by eapply on_insert_ne. }
  apply (pinv_switch t (sched_back c t1) k i p p'); try done.
  - rewrite Hrun. right. by right.
  - destruct Hst as [->| ->]; [by left|right; by left].
  - intros d j H. destruct (Honi d j H) as [H1 H2]. destruct (decide (j = i)) as [->|]; [|done]. by destruct H2; apply Hone.
  - intros d e j H1 H2. destruct (Honi d j H1), (Honi e j H2). by eapply (pi_inj t k I).
  - intros j [[-> Hr]|[Hne [d Hd]]]; [destruct Hst; congruence|]. exists d. unfold on, sched_back. cbn [running set_running]. rewrite Er.
    rewrite list_lookup_insert_ne; [exact Hd|]. intros ->. unfold on in *. congruence.
Qed.

Lemma step_take c i t k t' : pinv t k -> running t !! c = Some None -> sched_take c i t = Some t' -> pinv t' k.
Proof.
  intros I Hc E. unfold sched_take in E. destruct (ptable t !! i) as [p|] eqn:Ep; [|done].
  destruct (decide (p_state p = RUNNABLE)) as [Hs|]; [|done]. injection E as <-.
  assert (Hno : forall d, ~ on t d i) by (intros d Hd; destruct (pi_run t k I d i Hd) as (q & Eq & Hq); congruence).
  assert (Hclt : (c < length (running t))%nat) by (by eapply lookup_lt_Some).
  set (t1 := set_running (<[c := Some i]> (running t)) t).
  assert (Honi : forall d j, on (upd_proc i (set_state RUNNING) t1) d j -> (d = c /\ j = i) \/ (d <> c /\ on t d j)).
  { intros d j H. unfold on in H. cbn in H. apply list_lookup_insert_Some in H as [(<- & [= ->] & _)|[Hne H]]; [by left|right; done]. }
  apply (pinv_switch t _ k i p (set_state RUNNING p)); try done.
  - by apply (upd_ptable t1 i (set_state RUNNING) p).
  - rewrite Hs. right. by left.
  - right. by right.
  - intros d j H. destruct (Honi d j H) as [[-> ->]|[_ H']]; [by rewrite decide_True|].
    destruct (decide (j = i)) as [->|]; [by destruct (Hno d)|done].
  - intros d e j H1 H2. pose proof (Honi d j H1) as H1'. pose proof (Honi e j H2) as H2'.
    destruct H1' as [[-> Ej]|[Hd Hd']], H2' as [[-> Ej']|[He He']]; try done.
    + subst j. by destruct (Hno e).
    + subst j. by destruct (Hno d).
    + by eapply (pi_inj t k I).
  - intros j [[-> _]|[Hne [d Hd]]].
    + exists c. unfold on. cbn. by apply list_lookup_insert_eq.
    + exists d. unfold on. cbn. rewrite list_lookup_insert_ne; [done|]. intros ->. unfold on in Hd. congruence.
Qed.

Lemma fork_other t k i j b m b' : pinv t k -> k !! i = Some (PFork j b) -> k !! m = Some (PFork j b') -> m = i.
Proof. intros I E E'. by eapply (pi_one t k I). Qed.

(** The forks of a table with entry [i] set to [x]. *)
Lemma insert_fork (k : list pc) i x n m b :
  <[i := x]> k !! n = Some (PFork m b) -> n = i /\ x = PFork m b \/ n <> i /\ k !! n = Some (PFork m b).
Proof. intros [(<- & <- & _)|[? ?]]%list_lookup_insert_Some; [by left|by right]. Qed.

Lemma step_alloc c i t k j t' :
  pinv t k -> on t c i -> k !! i = Some PRun -> nextpid t < 2147483647 -> alloc_slot t = Some (j, t') ->
  pinv t' (<[i := PFork j false]> k).
Proof.
  intros I Hon Hk Hn E. unfold alloc_slot in E. destruct (first_unused (ptable t) 0) as [j0|] eqn:Ef; [|done].
  injection E as -> <-. destruct (first_unused_spec _ _ _ Ef) as (m & q & -> & Eq & Hs). change (0 + m)%nat with m in *. clear Ef.
  assert (Hn0 : 0 < nextpid t).
  { destruct (pi_run t k I c i Hon) as (p & Ep & Hp). pose proof (pi_pid t k I i p Ep ltac:(congruence)). lia. }
  assert (Ht : ptable (upd_proc m (fun p => set_pid (nextpid t) (set_state EMBRYO p)) t) =
    <[m := set_pid (nextpid t) (set_state EMBRYO q)]> (ptable t))
    by exact (upd_ptable t m (fun p => set_pid (nextpid t) (set_state EMBRYO p)) q Eq).
  assert (Hilt : (i < length k)%nat) by (by eapply lookup_lt_Some).
  assert (Hnom : forall n b, k !! n <> Some (PFork m b)).
  { intros n b Hkn. destruct (pi_fork t k I n m b Hkn) as (_ & r & Er & Hr & _). congruence. }
  apply (pinv_slot t _ k _ m q (set_pid (nextpid t) (set_state EMBRYO q))); try done.
  - rewrite Hs. by intros [?|[?|?]].
  - cbn [nextpid upd_proc set_ptable]. rewrite s32_small; lia.
  - by rewrite length_insert.
  - right. by left.
  - simpl. intros n. rewrite (pi_unused t k I m q Eq Hs). done.
  - intros _. cbn [nextpid upd_proc set_ptable p_pid set_pid]. rewrite s32_small by lia. split; [lia|].
    intros n p Ep _ Hp. pose proof (pi_pid t k I n p Ep Hp). lia.
  - intros n m' b Hkn. destruct (insert_fork _ _ _ _ _ _ Hkn) as [(-> & [= <- <-])|(Hne & Hk')].
    + left. split; [done|]. split; [done|]. split; [simpl; by eapply (pi_unused t k I)|].
      destruct (pi_run t k I c i Hon) as (p & Ep & Hp). exists p. split; [done|by left].
    + right. split; [|done]. intros ->. by destruct (Hnom n b).
  - intros n n' b b' H1 H2. destruct (insert_fork _ _ _ _ _ _ H1) as [(-> & _)|(_ & H1')]; [|by destruct (Hnom n b)].
    destruct (insert_fork _ _ _ _ _ _ H2) as [(-> & _)|(_ & H2')]; [done|by destruct (Hnom n' b')].
  - intros n m' b Hne Hkn. rewrite list_lookup_insert_ne; [done|]. intros ->. congruence.
  - intros _. exists i, false. by apply list_lookup_insert_eq.
Qed.

(** The fork of [i] leaves slot [j], or goes on with it. *)
Lemma step_forked c i t k j b q' x :
  pinv t k -> on t c i -> k !! i = Some (PFork j b) ->
  (forall q, ptable t !! j = Some q -> p_pid q' = p_pid q) ->
  match x with
  | PFork m b' => m = j /\ p_state q' = EMBRYO /\ p_parent q' = (if b' then Some i else None)
  | PRun => (p_state q' = UNUSED /\ p_parent q' = None) \/ (p_state q' = RUNNABLE /\ p_parent q' = Some i)
  end ->
  forall t', ptable t' = <[j := q']> (ptable t) -> running t' = running t -> initproc t' = initproc t ->
  nextpid t' = nextpid t -> pinv t' (<[i := x]> k).
Proof.
  intros I Hon Hk Hpid Hx t' Et Er Ei En. destruct (pi_fork t k I i j b Hk) as (_ & q & Eq & Hqs & Hqp).
  destruct (pi_run t k I c i Hon) as (p & Ep & Hp). assert (Hl : live (p_state p)) by (rewrite Hp; right; by right).
  assert (Hilt : (i < length k)%nat) by (by eapply lookup_lt_Some).
  assert (Hst : p_state q' = UNUSED \/ p_state q' = EMBRYO \/ p_state q' = RUNNABLE).
  { destruct x as [|m b']; [destruct Hx as [[-> _]|[-> _]]; auto|]. destruct Hx as (_ & -> & _). auto. }
  assert (Hpar : forall n, p_parent q' = Some n -> n = i).
  { intros n Hn. destruct x as [|m b']; [destruct Hx as [[_ Hx]|[_ Hx]]|destruct Hx as (_ & _ & Hx); destruct b']; congruence. }
  apply (pinv_slot t t' k _ j q q'); try done.
  - rewrite Hqs. by intros [?|[?|?]].
  - lia.
  - by rewrite length_insert.
  - intros Hu. destruct x as [|m b']; [destruct Hx as [[_ ?]|[? _]]; congruence|destruct Hx as (_ & ? & _); congruence].
  - intros n Hn. rewrite (Hpar n Hn). eauto.
  - intros _. rewrite En, (Hpid q Eq). split; [apply (pi_pid t k I j q Eq); congruence|].
    intros n r Er' Hne Hr Hpd. apply Hne. apply (pi_uniq t k I n j r q); [done|done|done|congruence|done].
  - intros n m b' Hkn. destruct (insert_fork _ _ _ _ _ _ Hkn) as [(-> & ->)|(Hne & Hk')].
    + left. destruct Hx as (-> & Hx1 & Hx2). split; [done|]. split; [done|]. split; [done|]. exists p. split; [done|by left].
    + right. split; [|done]. intros ->. apply Hne. by eapply (pi_one t k I).
  - intros n n' b1 b2 H1 H2. destruct (insert_fork _ _ _ _ _ _ H1) as [(-> & _)|(Hne & H1')].
    + destruct (insert_fork _ _ _ _ _ _ H2) as [(-> & _)|(Hne & H2')]; [done|]. by eapply (pi_one t k I).
    + destruct Hne. by eapply (pi_one t k I).
  - intros n m b' Hne Hkn. rewrite list_lookup_insert_ne; [done|]. intros ->. congruence.
  - intros Hs. destruct x as [|m b']; [destruct Hx as [[? _]|[? _]]; congruence|].
    destruct Hx as (-> & _). exists i, b'. by apply list_lookup_insert_eq.
Qed.

Lemma step_reap c i t k j :
  pinv t k -> on t c i -> wait_scan i (ptable t) 0 false = inl j -> pinv (reap j t) k.
Proof.
  intros I Hon E. destruct (wait_scan_inl _ _ _ _ _ E) as (m & q & -> & Eq & Hp & Hs). change (0 + m)%nat with m in *.
  unfold reap. set (f := fun p => set_state UNUSED _).
  assert (Hnom : forall n b, k !! n <> Some (PFork m b)).
  { intros n b Hkn. destruct (pi_fork t k I n m b Hkn) as (_ & r & Er & Hr & _). congruence. }
  apply (pinv_slot t _ k k m q (f q)); try done.
  - rewrite Hs. by intros [?|[?|?]].
  - exact (upd_ptable t m f q Eq).
  - by left.
  - intros n m' b Hkn. right. split; [|done]. intros ->. by destruct (Hnom n b).
  - intros n n' b b' H1 H2. by destruct (Hnom n b).
Qed.

(** ** exit, seen from each slot of the table *)
Section ExitStep.
Context (c i : nat) (t : ptab) (k : list pc) (p0 : proc).
Context (I : pinv t k) (Hon : on t c i) (Hk : k !! i = Some PRun) (Hni : initproc t <> Some i).
Context (Ep0 : ptable t !! i = Some p0).

#[local] Abbreviation t' := (sched_back c (exit_section i t)).

Lemma exit_rest : running (exit_section i t) = running t /\ initproc t' = initproc t /\ nextpid t' = nextpid t.
Proof. unfold exit_section. rewrite Ep0. done. Qed.

Lemma exit_fwd j p : ptable t !! j = Some p -> exists q, ptable t' !! j = Some q.
Proof. intros E. destruct (exit_section_spec i t p0 j p Ep0 Hni E) as (q & Eq & _). by exists q. Qed.

Lemma exit_back j q : ptable t' !! j = Some q -> exists p, ptable t !! j = Some p.
Proof.
  intros E. apply lookup_lt_is_Some. apply lookup_lt_Some in E.
  cbn [ptable sched_back set_running] in E. by rewrite length_exit_section in E.
Qed.

(** The slots other than [i] keep their state or wake up. *)
Lemma exit_slot j p q : ptable t !! j = Some p -> ptable t' !! j = Some q ->
  p_chan q = p_chan p /\ p_pid q = p_pid p /\ (j = i -> p_state q = ZOMBIE) /\
  (j <> i -> p_state q = p_state p \/ (p_state p = SLEEPING /\ p_state q = RUNNABLE)) /\
  p_parent q = (if decide (p_parent p = Some i) then initproc t else p_parent p).
Proof.
  intros E E'. destruct (exit_section_spec i t p0 j p Ep0 Hni E) as (q0 & Eq0 & H1 & H2 & H3 & H4 & H5 & _).
  change (ptable t' !! j = Some q0) in Eq0. simplify_eq. done.
Qed.

(** A state that is neither ZOMBIE nor RUNNABLE is an old one. *)
Lemma exit_state j p q : ptable t !! j = Some p -> ptable t' !! j = Some q ->
  p_state q <> ZOMBIE -> p_state q <> RUNNABLE -> j <> i /\ p_state p = p_state q.
Proof.
  intros E E' Hz Hr. destruct (exit_slot j p q E E') as (_ & _ & H3 & H4 & _).
  assert (Hne : j <> i) by tauto. split; [done|]. destruct (H4 Hne) as [H5|[_ H5]]; congruence.
Qed.

Lemma exit_used j p q : ptable t !! j = Some p -> ptable t' !! j = Some q ->
  p_state q <> UNUSED -> p_state p <> UNUSED.
Proof.
  intros E E' Hq Hp. destruct (exit_slot j p q E E') as (_ & _ & _ & H4 & _).
  destruct (decide (j = i)) as [->|Hne]; [|destruct (H4 Hne) as [H5|[H5 _]]; congruence].
  destruct (pi_run t k I c i Hon) as (r & Er & Hr). congruence.
Qed.

Lemma exit_on d j : on t' d j <-> on t d j /\ d <> c.
Proof.
  unfold on. cbn [running sched_back set_running]. rewrite (proj1 exit_rest). split.
  - intros H. exact (on_insert_ne t c d _ j Hon H).
  - intros [H Hne]. by rewrite list_lookup_insert_ne.
Qed.

Lemma exit_live j p : ptable t !! j = Some p -> live (p_state p) -> j <> i ->
  exists q, ptable t' !! j = Some q /\ live (p_state q).
Proof.
  intros E Hl Hne. destruct (exit_fwd j p E) as (q & Eq). exists q. split; [done|].
  destruct (exit_slot j p q E Eq) as (_ & _ & _ & H & _). destruct (H Hne) as [->|[_ ->]]; [done|right; by left].
Qed.

Lemma exit_parent j q m : ptable t' !! j = Some q -> p_parent q = Some m ->
  m <> j /\ exists r, ptable t' !! m = Some r /\ live (p_state r).
Proof.
  intros E Hp. destruct (exit_back j q E) as [p Ep]. destruct (exit_slot j p q Ep E) as (_ & _ & _ & _ & Hpar).
  rewrite Hpar in Hp. destruct (pi_init t k I) as (n & r & Ein & Er' & Hl & Hrp).
  destruct (decide (p_parent p = Some i)) as [Hpi|Hpi].
  - assert (m = n) as -> by congruence. split; [intros ->; congruence|]. eapply exit_live; eauto. congruence.
  - destruct (pi_parent t k I j p m Ep Hp) as (Hne & s & Es & Hls). split; [done|].
    eapply exit_live; [done|done|congruence].
Qed.

(** A process asleep in wait has no dead child: exit wakes the new parent. *)
Lemma exit_wait j q m r : ptable t' !! j = Some q -> p_state q = SLEEPING -> p_chan q = Some (ChProc j) ->
  ptable t' !! m = Some r -> p_parent r = Some j -> p_state r <> ZOMBIE.
Proof.
  intros E Hs Hc Er' Hrp Hz. destruct (exit_back j q E) as [p Ep]. destruct (exit_back m r Er') as [r0 Er0].
  destruct (exit_slot j p q Ep E) as (H1 & _). destruct (exit_slot m r0 r Er0 Er') as (_ & _ & _ & H4' & Hpar').
  destruct (exit_state j p q Ep E ltac:(congruence) ltac:(congruence)) as [Hne H5]. rewrite Hpar' in Hrp.
  destruct (exit_section_spec i t p0 j p Ep0 Hni Ep) as (q1 & Eq1 & _ & _ & _ & _ & _ & Hw1 & Hw2).
  change (ptable t' !! j = Some q1) in Eq1. assert (q1 = q) as -> by congruence.
  assert (Hnrun : p_state q <> RUNNABLE) by congruence.
  destruct (decide (m = i)) as [->|Hmi].
  - assert (r0 = p0) as -> by congruence. rewrite decide_False in Hrp.
    + apply Hnrun, Hw1; [done|congruence|]. rewrite Hrp. simpl. congruence.
    + intros Hpi. by destruct (pi_parent t k I i p0 i Ep0 Hpi) as [? _].
  - assert (Hz0 : p_state r0 = ZOMBIE) by (destruct (H4' Hmi) as [H6|[_ H6]]; congruence).
    destruct (decide (p_parent r0 = Some i)) as [Hpi|Hpi].
    + apply Hnrun, Hw2; [done|congruence| |by exists m, r0]. rewrite Hrp. simpl. congruence.
    + apply (pi_wait t k I j p m r0 Ep); [congruence|congruence|done|done|done].
Qed.

Lemma exit_fork n m b : k !! n = Some (PFork m b) ->
  (exists p, ptable t' !! n = Some p /\ (p_state p = RUNNING \/ p_state p = RUNNABLE)) /\
  exists q, ptable t' !! m = Some q /\ p_state q = EMBRYO /\ p_parent q = if b then Some n else None.
Proof.
  intros E. assert (n <> i) by congruence.
  destruct (pi_fork t k I n m b E) as ((p & Ep & Hp) & r & Er' & Hr & Hrp). split.
  - destruct (exit_fwd n p Ep) as (q & Eq). exists q. split; [done|].
    destruct (exit_slot n p q Ep Eq) as (_ & _ & _ & H4 & _).
    destruct (H4 ltac:(done)) as [->|[H5 _]]; [done|]. destruct Hp; congruence.
  - destruct (exit_fwd m r Er') as (q & Eq). exists q. split; [done|].
    destruct (exit_slot m r q Er' Eq) as (_ & _ & _ & H4 & ->).
    assert (m <> i). { intros ->. destruct (pi_run t k I c i Hon) as (x & Ex & Hx). congruence. }
    destruct (H4 ltac:(done)) as [->|[H5 _]]; [|congruence]. split; [done|].
    rewrite Hrp. destruct b; [|done]. by rewrite decide_False by congruence.
Qed.
End ExitStep.

Lemma step_exit c i t k :
  pinv t k -> on t c i -> k !! i = Some PRun -> initproc t <> Some i -> pinv (sched_back c (exit_section i t)) k.
Proof.
  intros I Hon Hk Hni. destruct (pi_run t k I c i Hon) as (p0 & Ep0 & Hp0).
  pose proof (exit_slot c i t p0 Hni Ep0) as Hst. pose proof (exit_state c i t p0 Hni Ep0) as Hold.
  pose proof (exit_on c i t p0 Hon Ep0) as Hons. pose proof (exit_used c i t k p0 I Hon Hni Ep0) as Hused.
  destruct (exit_rest c i t p0 Ep0) as (_ & Ei & En).
  constructor.
  - cbn [ptable sched_back set_running]. rewrite length_exit_section. apply I.
  - intros d j [H1 H2]%Hons. destruct (pi_run t k I d j H1) as (p & Ep & Hp).
    assert (j <> i) by (intros ->; destruct H2; by eapply (pi_inj t k I)).
    destruct (exit_fwd c i t p0 Hni Ep0 j p Ep) as (q & Eq). exists q. split; [done|].
    destruct (Hst j p q Ep Eq) as (_ & _ & _ & H3 & _). destruct (H3 ltac:(done)) as [->|[H4 _]]; congruence.
  - intros d e j [H1 _]%Hons [H2 _]%Hons. by eapply (pi_inj t k I).
  - intros j q E Hs. destruct (exit_back c i t j q E) as [p Ep].
    destruct (Hold j p q Ep E ltac:(congruence) ltac:(congruence)) as [Hne H5].
    destruct (pi_on t k I j p Ep ltac:(congruence)) as [d Hd].
    exists d. apply Hons. split; [done|]. intros ->. apply Hne. unfold on in *. congruence.
  - intros j q E Hs. destruct (exit_back c i t j q E) as [p Ep]. destruct (Hst j p q Ep E) as (_ & _ & _ & _ & ->).
    destruct (Hold j p q Ep E ltac:(congruence) ltac:(congruence)) as [_ H5].
    rewrite (pi_unused t k I j p Ep ltac:(congruence)). done.
  - exact (exit_parent c i t k p0 I Hni Ep0).
  - destruct (pi_init t k I) as (n & r & Ein & Er' & Hl & Hrp). assert (n <> i) by congruence.
    destruct (exit_live c i t p0 Hni Ep0 n r Er' Hl ltac:(done)) as (q & Eq & Hlq).
    exists n, q. split; [congruence|]. split; [done|]. split; [done|].
    destruct (Hst n r q Er' Eq) as (_ & _ & _ & _ & ->). by rewrite Hrp.
  - intros j q m E Hs Hc. destruct (exit_back c i t j q E) as [p Ep]. destruct (Hst j p q Ep E) as (H1 & _).
    destruct (Hold j p q Ep E ltac:(congruence) ltac:(congruence)) as [_ H5]. apply (pi_chan t k I j p m Ep); congruence.
  - exact (exit_wait c i t k p0 I Hni Ep0).
  - exact (exit_fork c i t k p0 I Hon Hk Hni Ep0).
  - apply I.
  - intros j q E Hs. destruct (exit_back c i t j q E) as [p Ep].
    destruct (Hold j p q Ep E ltac:(congruence) ltac:(congruence)) as [_ H5]. apply (pi_embryo t k I j p Ep). congruence.
  - intros j q E Hs. destruct (exit_back c i t j q E) as [p Ep]. destruct (Hst j p q Ep E) as (_ & -> & _). rewrite En.
    apply (pi_pid t k I j p Ep). by eapply Hused.
  - intros j m q r E Er' Hs Hr Hpd. destruct (exit_back c i t j q E) as [p Ep]. destruct (exit_back c i t m r Er') as [r0 Er0].
    destruct (Hst j p q Ep E) as (_ & E1 & _). destruct (Hst m r0 r Er0 Er') as (_ & E2 & _).
    apply (pi_uniq t k I j m p r0 Ep Er0); [by eapply Hused|by eapply Hused|congruence].
Qed.

Lemma quiet_same p p' : p_parent p' = p_parent p -> p_pid p' = p_pid p -> p_state p' = p_state p ->
  p_chan p' = p_chan p -> quiet p p'.
Proof. intros. split; [done|]. split; [done|]. split; [by left|done]. Qed.

(** An update of one slot that changes none of the fields of the invariant. *)
Lemma pinv_fields t k j f :
  pinv t k -> (forall p, p_parent (f p) = p_parent p /\ p_pid (f p) = p_pid p /\ p_state (f p) = p_state p /\
                         p_chan (f p) = p_chan p) -> pinv (upd_proc j f t) k.
Proof.
  intros I Hf. eapply (pinv_quiet t _ k _ I (pw_upd t j f)); [done..|]. intros i p _. cbv beta.
  destruct (decide (i = j)); [|by apply quiet_same]. destruct (Hf p) as (?&?&?&?). by apply quiet_same.
Qed.

Lemma kill_scan_spec pid l n i : kill_scan pid l n = Some i -> exists j p, i = (n + j)%nat /\ l !! j = Some p /\ p_pid p = pid.
Proof.
  revert n. induction l as [|x l IH]; intros n; cbn [kill_scan]; [done|].
  destruct (Z.eqb_spec (p_pid x) pid) as [E|E].
  - intros [= <-]. exists 0%nat, x. split; [lia|done].
  - intros H. destruct (IH (S n) H) as (j & p & -> & ?). exists (S j), p. split; [lia|done].
Qed.

Lemma step_kill pid t k : pinv t k -> pinv (kill pid t).2 k.
Proof.
  intros I. unfold kill. destruct (kill_scan pid (ptable t) 0) as [i|]; [|done]. cbn [snd].
  eapply (pinv_quiet t _ k _ I (pw_upd t i _)); [done..|]. intros j p _. cbv beta.
  destruct (decide (j = i)); [|by apply quiet_same]. cbn [p_state set_killed].
  destruct (decide (p_state p = SLEEPING)) as [E|E]; [|by apply quiet_same].
  split; [done|]. split; [done|]. split; [right; done|done].
Qed.

Lemma step_wakeup ch t k : pinv t k -> pinv (wakeup ch t) k.
Proof.
  intros I. eapply (pinv_quiet t _ k _ I (pw_wakeup1 ch t (wakeup ch t) eq_refl)); [done..|]. intros j p _. cbv beta.
  destruct (decide (p_state p = SLEEPING /\ p_chan p = ch)) as [[E _]|E]; [|by apply quiet_same].
  split; [done|]. split; [done|]. split; [right; done|done].
Qed.

Lemma step_awake c i t k : pinv t k -> on t c i -> pinv (sleep_done i t) k.
Proof.
  intros I Hon. destruct (pi_run t k I c i Hon) as (p0 & Ep0 & Hp0).
  eapply (pinv_quiet t _ k _ I (pw_upd t i _)); [done..|]. intros j p Ep. cbv beta.
  destruct (decide (j = i)) as [->|]; [|by apply quiet_same]. assert (p = p0) as -> by congruence.
  split; [done|]. split; [done|]. split; [by left|]. simpl. congruence.
Qed.

Lemma pinv_step x y : pinv x.1 x.2 -> pstep x y -> pinv y.1 y.2.
Proof.
  intros I St. destruct St; cbn [fst snd] in *.
  - by eapply step_take.
  - destruct (pi_run t k I c i H) as (p & Ep & Hp).
    eapply (pinv_giveup t k c i p (set_state RUNNABLE p)); try done; [exact (upd_ptable t i _ p Ep)|by right].
  - by eapply step_alloc.
  - destruct (pi_fork t k I i j false H0) as (_ & q & Eq & Hq & Hqp).
    eapply (step_forked c i t k j false (set_state UNUSED (set_kstack 0 q)) PRun); try done.
    + by intros q0 Eq0; simplify_eq.
    + by left.
    + rewrite (upd_ptable _ j _ (set_kstack 0 q)); [|simpl; by rewrite list_lookup_alter_eq, Eq].
      rewrite (upd_ptable t j _ q Eq). apply list_insert_insert_eq.
  - by apply pinv_fields.
  - destruct (pi_fork t k I i j false H0) as (_ & q & Eq & Hq & Hqp).
    eapply (step_forked c i t k j false (set_tf tf (set_parent (Some i) (set_sz sz (set_pgdir d q)))) (PFork j true)); try done.
    + by intros q0 Eq0; simplify_eq.
    + exact (upd_ptable t j _ q Eq).
  - by apply pinv_fields.
  - destruct (pi_fork t k I i j true H0) as (_ & q & Eq & Hq & Hqp).
    eapply (step_forked c i t k j true (set_state RUNNABLE q) PRun); try done.
    + by intros q0 Eq0; simplify_eq.
    + by right.
    + exact (upd_ptable t j _ q Eq).
  - by apply step_exit.
  - by eapply step_reap.
  - destruct (pi_run t k I c i H) as (p & Ep & Hp).
    eapply (pinv_giveup t k c i p (set_state SLEEPING (set_chan (Some (ChProc i)) p))); try done;
      [exact (upd_ptable t i _ p Ep)|by left|].
    intros _. split; [congruence|]. intros j [= ->]. split; [done|]. by eapply wait_scan_inr.
  - destruct (pi_run t k I c i H) as (p & Ep & Hp).
    eapply (pinv_giveup t k c i p (set_state SLEEPING (set_chan (Some (ChAddr a)) p))); try done;
      [exact (upd_ptable t i _ p Ep)|by left|].
    intros _. split; [congruence|]. done.
  - by eapply step_awake.
  - by apply pinv_fields.
  - by apply step_wakeup.
  - by apply step_kill.
Qed.

(** The table that userinit leaves: one process, ready to run, and idle
    processors. *)
Record booted (t : ptab) (k : list pc) : Prop := mkBooted {
  bt_pcs : k = replicate (length (ptable t)) PRun;
  bt_idle : forall c i, ~ on t c i;
  bt_init : exists i p, initproc t = Some i /\ ptable t !! i = Some p /\ p_state p = RUNNABLE /\ p_parent p = None /\
            0 < p_pid p < nextpid t /\ forall j q, ptable t !! j = Some q -> j <> i -> p_state q = UNUSED /\ p_parent q = None
}.

Lemma booted_pinv t k : booted t k -> pinv t k.
Proof.
  intros [Ek Hidle (i & p & Ei & Ep & Hs & Hp & Hpid & Hrest)].
  assert (Hno : forall n m b, k !! n <> Some (PFork m b)) by (intros n m b; rewrite Ek; by intros [? _]%lookup_replicate).
  assert (Hc : forall j q, ptable t !! j = Some q -> (j = i /\ q = p) \/ (p_state q = UNUSED /\ p_parent q = None)).
  { intros j q E. destruct (decide (j = i)) as [->|Hne]; [left; split; congruence|right; by eapply Hrest]. }
  constructor.
  - by rewrite Ek, length_replicate.
  - intros c j H. by destruct (Hidle c j).
  - intros c d j H. by destruct (Hidle c j).
  - intros j q E Hq. destruct (Hc j q E) as [[-> ->]|[? _]]; congruence.
  - intros j q E Hq. destruct (Hc j q E) as [[-> ->]|[_ ?]]; [congruence|done].
  - intros j q m E Hq. destruct (Hc j q E) as [[-> ->]|[_ ?]]; congruence.
  - exists i, p. split; [done|]. split; [done|]. split; [rewrite Hs; right; by left|done].
  - intros j q m E Hq. destruct (Hc j q E) as [[-> ->]|[? _]]; congruence.
  - intros j q m r E Hq _ Er Hr. destruct (Hc j q E) as [[-> ->]|[? _]]; congruence.
  - intros n m b H. by destruct (Hno n m b).
  - intros n n' m b b' H. by destruct (Hno n m b).
  - intros j q E Hq. destruct (Hc j q E) as [[-> ->]|[? _]]; congruence.
  - intros j q E Hq. destruct (Hc j q E) as [[-> ->]|[? _]]; [done|congruence].
  - intros j m q r E Er Hq Hr _. destruct (Hc j q E) as [[-> ->]|[? _]], (Hc m r Er) as [[-> ->]|[? _]]; congruence.
Qed.


(** C8.  No wakeup is lost in wait: whenever a process sleeps in wait, none of
    its children is a ZOMBIE, in any reachable state; so a child that exits
    finds its parent awake or wakes it, and abandoned children that have already
    exited wake init. *)
Theorem wait_no_lost_wakeup t0 k0 t k i p j q
    (Hb : booted t0 k0) (Hrun : star pstep (t0, k0) (t, k)) (Hi : ptable t !! i = Some p)
    (Hs : p_state p = SLEEPING) (Hc : p_chan p = Some (ChProc i)) (Hj : ptable t !! j = Some q)
    (Hp : p_parent q = Some i) :
  p_state q <> ZOMBIE.
Proof.
  assert (I : pinv t k) by (apply (star_inv pstep (fun x => pinv x.1 x.2) (t0, k0) (t, k) pinv_step Hrun), booted_pinv, Hb).
  by apply (pi_wait t k I i p j q).
Qed.

(** ** Free slots and kill *)
Lemma kill_scan_first pid l n j p :
  l !! j = Some p -> p_pid p = pid -> (forall m q, (m < j)%nat -> l !! m = Some q -> p_pid q <> pid) ->
  kill_scan pid l n = Some (n + j)%nat.
Proof.
  revert n j. induction l as [|x l IH]; intros n j Hj Hp Hbefore; [done|]. cbn [kill_scan].
  destruct j as [|j]; simplify_eq/=.
  - rewrite Z.eqb_refl. f_equal. lia.
  - destruct (Z.eqb_spec (p_pid x) (p_pid p)) as [E|E].
    + by destruct (Hbefore 0%nat x ltac:(lia) eq_refl).
    + rewrite (IH (S n) j); [f_equal; lia|done|done|]. intros m q Hm Hq. apply (Hbefore (S m)); [lia|done].
Qed.

Lemma first_unused_at l n j p :
  l !! j = Some p -> p_state p = UNUSED -> (forall m q, (m < j)%nat -> l !! m = Some q -> p_state q <> UNUSED) ->
  first_unused l n = Some (n + j)%nat.
Proof.
  revert n j. induction l as [|x l IH]; intros n j Hj Hp Hbefore; [done|]. cbn [first_unused].
  destruct j as [|j]; simplify_eq/=.
  - rewrite decide_True by done. f_equal. lia.
  - rewrite decide_False by (apply (Hbefore 0%nat x); [lia|done]). rewrite (IH (S n) j); [f_equal; lia|done|done|].
    intros m q Hm Hq. apply (Hbefore (S m)); [lia|done].
Qed.

(** kill with a pid of 0 does not fail: the slots of the table that are not
    in use have pid 0, so it marks the first of them as killed and returns 0.
    allocproc does not clear the mark, so the next process to get the slot is
    killed from the start. *)
Theorem kill_zero_hits_free_slot t j p
    (Hj : ptable t !! j = Some p) (Hs : p_state p = UNUSED) (Hz : p_pid p = 0)
    (Hbefore : forall m q, (m < j)%nat -> ptable t !! m = Some q -> p_state q <> UNUSED /\ p_pid q <> 0) :
  (kill 0 t).1 = 0 /\
  exists t' q, alloc_slot (kill 0 t).2 = Some (j, t') /\ ptable t' !! j = Some q /\
    p_state q = EMBRYO /\ p_pid q = nextpid t /\ p_killed q = true.
Proof.
  unfold kill. rewrite (kill_scan_first 0 (ptable t) 0 j p Hj Hz) by (intros m q Hm Hq; by apply (Hbefore m q)).
  cbn [fst snd Nat.add]. split; [done|]. set (f := fun p => let p := set_killed true p in _).
  assert (Ef : f p = set_killed true p) by (unfold f; cbn [p_state set_killed]; rewrite decide_False; [done|congruence]).
  assert (Hj' : ptable (upd_proc j f t) !! j = Some (set_killed true p)).
  { cbn [ptable upd_proc set_ptable]. rewrite list_lookup_alter_eq, Hj. simpl. by rewrite Ef. }
  unfold alloc_slot. rewrite (first_unused_at _ 0 j (set_killed true p) Hj' Hs).
  - cbn [Nat.add]. eexists _, _. split; [done|]. cbn [ptable upd_proc set_ptable].
    rewrite list_lookup_alter_eq. cbn [ptable upd_proc set_ptable] in Hj'. rewrite Hj'. simpl. done.
  - intros m q Hm. cbn [ptable upd_proc set_ptable]. rewrite list_lookup_alter_ne by lia.
    intros Hq. by apply (Hbefore m q).
Qed.

(** ** Witnesses *)

(** An environment that always succeeds. *)
#[local] Instance unit_env : ProcEnv unit := {|
  e_kalloc := ret (Some 4096); e_kfree := fun _ => ret tt; e_setupkvm := ret (Some 8192);
  e_inituvm := fun _ => ret tt; e_copyuvm := fun _ _ => ret (Some 12288); e_freevm := fun _ => ret tt;
  e_allocuvm := fun _ _ n => ret n; e_deallocuvm := fun _ _ n => ret n; e_filedup := fun f => ret f;
  e_fileclose := fun _ => ret tt; e_idup := fun i => ret i; e_iput := fun _ => ret tt; e_root := ret 0%nat |}.

Definition empty_tab : ptab := mkPtab (replicate 3 proc0) [None; None] None 1.
Definition boot_tab : ptab :=
  match userinit 0 (mkPst empty_tab tt) with Ret _ s => tab s | _ => empty_tab end.

Lemma boot_tab_booted : booted boot_tab [PRun; PRun; PRun].
Proof.
  constructor.
  - done.
  - intros [|[|c]] i; done.
  - eexists 0%nat, _. split; [done|]. split; [done|]. split; [done|]. split; [done|]. split; [done|].
    intros [|[|[|j]]] q Hq Hne; [done|by injection Hq as <-..|by destruct j].
Qed.

(** Init runs, forks a child and waits for it. *)
Lemma boot_run : exists t p q, star pstep (boot_tab, [PRun; PRun; PRun]) (t, [PRun; PRun; PRun]) /\
  ptable t !! 0%nat = Some p /\ p_state p = SLEEPING /\ p_chan p = Some (ChProc 0) /\
  ptable t !! 1%nat = Some q /\ p_parent q = Some 0%nat.
Proof.
  do 3 eexists. split.
  - eapply star_step; [apply (ps_take 0 0); done|]. eapply star_step; [apply (ps_alloc 0 0); done|].
    eapply star_step; [apply (ps_fill 0 0 _ _ 1 tf0 4096 12288); done|].
    eapply star_step; [apply (ps_ready 0 0 _ _ 1); done|].
    eapply star_step; [apply (ps_wait 0 0); done|]. apply star_refl.
  - done.
Qed.


Lemma wait_no_lost_wakeup_witness : exists q, p_parent q = Some 0%nat /\ p_state q <> ZOMBIE.
Proof.
  destruct boot_run as (t & p & q & Hr & Ep & Hs & Hc & Eq & Hq). exists q. split; [exact Hq|].
  exact (wait_no_lost_wakeup _ _ t _ 0 p 1 q boot_tab_booted Hr Ep Hs Hc Eq Hq).
Defined.

Lemma kill_zero_hits_free_slot_witness : (kill 0 boot_tab).1 = 0.
Proof.
  refine (proj1 (kill_zero_hits_free_slot boot_tab 1 proc0 eq_refl eq_refl eq_refl _)).
  intros [|m] q Hm Hq; [|lia]. by simplify_eq/=.
Defined.
