(* ===== verification/File.v ===== *)
(** * Open files (file.c) and the ends of a pipe (pipe.c)

    The state joins what a system call works on: the page allocator with its
    memory, the file system, the table of open files, the pipes by the address of
    their page, the number of transactions that are open (log.c's [outstanding])
    and the clock (trap.c's [ticks]).  A struct file pointer is its index in the table.  A call that
    would sleep ends in [hang]: nothing inside the call itself can wake it. *)

From stdpp Require Import base numbers list gmap strings.
From Stdlib Require Import ZArith Lia.
From S2P Require Import Prelude Mmu Mem Kalloc Vm VmInv VmOut Block Pipe Fs.

Local Open Scope Z_scope.
Local Open Scope kernel_scope.

Inductive ftype := FD_NONE | FD_PIPE | FD_INODE.
#[global] Instance ftype_eq_dec : EqDecision ftype.
Proof. solve_decision. Defined.

Record file := mkFile {
  f_type : ftype;
  f_ref : Z;
  f_readable : bool;
  f_writable : bool;
  f_pipe : Z;
  f_ip : nat;
  f_off : Z
}.

Definition file0 : file := mkFile FD_NONE 0 false false 0 0 0.
Definition set_fref (r : Z) (f : file) : file :=
  mkFile (f_type f) r (f_readable f) (f_writable f) (f_pipe f) (f_ip f) (f_off f).
Definition set_foff (o : Z) (f : file) : file :=
  mkFile (f_type f) (f_ref f) (f_readable f) (f_writable f) (f_pipe f) (f_ip f) o.
Definition set_ftype (t : ftype) (f : file) : file :=
  mkFile t (f_ref f) (f_readable f) (f_writable f) (f_pipe f) (f_ip f) (f_off f).

Section State.
Context {D : Type}.

Record kern := mkKern {
  kmem : kstate;
  fsys : fsst D;
  ftable : list file;
  pipes : gmap Z pipe;
  outstanding : Z;
  ticks : Z
}.

Definition set_kmem (k : kstate) (s : kern) : kern :=
  mkKern k (fsys s) (ftable s) (pipes s) (outstanding s) (ticks s).
Definition set_fsys (f : fsst D) (s : kern) : kern :=
  mkKern (kmem s) f (ftable s) (pipes s) (outstanding s) (ticks s).
Definition set_ftable (l : list file) (s : kern) : kern :=
  mkKern (kmem s) (fsys s) l (pipes s) (outstanding s) (ticks s).
Definition set_pipes (p : gmap Z pipe) (s : kern) : kern :=
  mkKern (kmem s) (fsys s) (ftable s) p (outstanding s) (ticks s).
Definition set_outstanding (n : Z) (s : kern) : kern :=
  mkKern (kmem s) (fsys s) (ftable s) (pipes s) n (ticks s).
Definition set_ticks (n : Z) (s : kern) : kern :=
  mkKern (kmem s) (fsys s) (ftable s) (pipes s) (outstanding s) n.
End State.
Arguments kern D : clear implicits.

(** Run a computation on a part of the state. *)
Definition zoom {S T A} (g : T -> S) (p : S -> T -> T) (c : M S A) : M T A := fun t =>
  match c (g t) with
  | Ret a s => Ret a (p s t)
  | Panic msg => Panic msg
  | Undef => Undef
  | Hang => Hang
  end.

Section File.
Context {D : Type} `{DV : Devsw D} {LS : LinkSyms}.

Definition onmem {A} (c : M kstate A) : M (kern D) A := zoom kmem set_kmem c.
Definition onfs {A} (c : M (fsst D) A) : M (kern D) A := zoom fsys set_fsys c.

(** begin_op and end_op as one operation sees them: when the last one ends, the
    blocks of the transaction are committed and the log is empty again. *)
Definition begin_op : M (kern D) unit := modify (fun s => set_outstanding (outstanding s + 1) s).
Definition end_op : M (kern D) unit :=
  modify (fun s => set_outstanding (outstanding s - 1) s);;
  s <- get;;
  if outstanding s =? 0 then onfs (modify (set_logged [])) else ret tt.

Definition file_at (f : nat) : M (kern D) file :=
  s <- get;;
  match ftable s !! f with Some x => ret x | None => undef end.
Definition upd_file (f : nat) (g : file -> file) : M (kern D) unit :=
  x <- file_at f;;
  modify (fun s => set_ftable (<[f := g x]> (ftable s)) s).

(** ** User memory

    A user address goes through the page table of the process; a page that is not
    there (or not writable, for a store) is a fault in the kernel, where trap()
    panics. *)
Definition uload8 (pgdir a : Z) : M (kern D) Z :=
  s <- get;;
  if present (lookup_pte (mem (kmem s)) pgdir a) then ret (uread (mem (kmem s)) pgdir a)
  else panic "trap".

Fixpoint uload (pgdir a : Z) (n : nat) : M (kern D) (list Z) :=
  match n with
  | O => ret []
  | S n' => b <- uload8 pgdir a;; l <- uload pgdir (a + 1) n';; ret (b :: l)
  end.

Definition ustore8 (pgdir a v : Z) : M (kern D) unit :=
  s <- get;;
  let m := mem (kmem s) in
  if present (lookup_pte m pgdir a) && negb (Z.land (lookup_pte m pgdir a) PTE_W =? 0)
  then onmem (modify (set_mem (fun m =>
         store8 m (frame m pgdir (4096 * (a / 4096)) + a mod 4096) v)))
  else panic "trap".

Fixpoint ustore (pgdir a : Z) (l : list Z) : M (kern D) unit :=
  match l with
  | [] => ret tt
  | b :: l' => ustore8 pgdir a b;; ustore pgdir (a + 1) l'
  end.

(** ** The table of open files *)
Fixpoint first_free (l : list file) (i : nat) : option nat :=
  match l with
  | [] => None
  | f :: l' => if f_ref f =? 0 then Some i else first_free l' (S i)
  end.

Definition filealloc : M (kern D) (option nat) :=
  s <- get;;
  match first_free (ftable s) 0 with
  | Some i => upd_file i (set_fref 1);; ret (Some i)
  | None => ret None
  end.

Definition filedup (f : nat) : M (kern D) nat :=
  x <- file_at f;;
  if f_ref x <? 1 then panic "filedup"
  else upd_file f (fun x => set_fref (s32 (f_ref x + 1)) x);; ret f.

(** pipeclose, with the release of the page. *)
Definition pipe_close (p : Z) (writable : bool) : M (kern D) unit :=
  s <- get;;
  match pipes s !! p with
  | None => undef
  | Some x =>
      let r := pipeclose x writable in
      if r.2 then
        modify (fun s => set_pipes (delete p (pipes s)) s);;
        onmem (kfree p)
      else modify (fun s => set_pipes (<[p := r.1]> (pipes s)) s)
  end.

Definition fileclose (f : nat) : M (kern D) unit :=
  x <- file_at f;;
  if f_ref x <? 1 then panic "fileclose"
  else
    upd_file f (set_fref (f_ref x - 1));;
    if f_ref x - 1 >? 0 then ret tt
    else
      ff <- file_at f;;
      upd_file f (fun x => set_ftype FD_NONE (set_fref 0 x));;
      match f_type ff with
      | FD_PIPE => pipe_close (f_pipe ff) (f_writable ff)
      | FD_INODE => begin_op;; onfs (iput (f_ip ff));; end_op
      | FD_NONE => ret tt
      end.

Definition filestat (f : nat) : M (kern D) (option stat) :=
  x <- file_at f;;
  match f_type x with
  | FD_INODE =>
      onfs (ilock (f_ip x));;
      st <- onfs (stati (f_ip x));;
      onfs (iunlock (f_ip x));;
      ret (Some st)
  | _ => ret None
  end.

(** ** Reading and writing, for a process with page table [pgdir]

    The bytes move between the kernel object and user memory in one piece: the
    caller has checked that the range lies below [sz], where every page is
    mapped. *)
Section Io.
Context (pgdir : Z) (killed : bool).

Definition piperead_to (p addr n : Z) : M (kern D) Z :=
  s <- get;;
  match pipes s !! p with
  | None => undef
  | Some x =>
      let '(x', l, r) := piperead x killed (Z.to_nat n) in
      modify (fun s => set_pipes (<[p := x']> (pipes s)) s);;
      ustore pgdir addr l;;
      match r with Returns v => ret v | Sleeps _ => hang end
  end.

Definition pipewrite_from (p addr n : Z) : M (kern D) Z :=
  l <- uload pgdir addr (Z.to_nat n);;
  s <- get;;
  match pipes s !! p with
  | None => undef
  | Some x =>
      let '(x', r) := pipewrite x killed n l in
      modify (fun s => set_pipes (<[p := x']> (pipes s)) s);;
      match r with Returns v => ret v | Sleeps _ => hang end
  end.

Definition fileread (f : nat) (addr n : Z) : M (kern D) Z :=
  x <- file_at f;;
  if negb (f_readable x) then ret (-1)
  else match f_type x with
       | FD_PIPE => piperead_to (f_pipe x) addr n
       | FD_INODE =>
           onfs (ilock (f_ip x));;
           r <- onfs (readi (f_ip x) (f_off x) (u32 n));;
           v <- match r with
                | None => ret (-1)
                | Some l =>
                    ustore pgdir addr l;;
                    (if 0 <? Z.of_nat (length l)
                     then upd_file f (fun x => set_foff (u32 (f_off x + Z.of_nat (length l))) x)
                     else ret tt);;
                    ret (Z.of_nat (length l))
                end;;
           onfs (iunlock (f_ip x));;
           ret v
       | FD_NONE => panic "fileread"
       end.

(** The most one transaction of filewrite writes. *)
Definition max_write : Z := ((MAXOPBLOCKS - 1 - 1 - 2) / 2) * 512.

Fixpoint filewrite_loop (k : nat) (f : nat) (ip : nat) (addr i n : Z) : M (kern D) Z :=
  match k with
  | O => hang
  | S k' =>
      if i <? n then
        let n1 := if n - i >? max_write then max_write else n - i in
        begin_op;;
        onfs (ilock ip);;
        l <- uload pgdir (addr + i) (Z.to_nat n1);;
        x <- file_at f;;
        r <- onfs (writei ip l (f_off x));;
        match r with
        | Some v => if v >? 0 then upd_file f (fun x => set_foff (u32 (f_off x + v)) x) else ret tt
        | None => ret tt
        end;;
        onfs (iunlock ip);;
        end_op;;
        match r with
        | None => ret i
        | Some v =>
            if negb (v =? n1) then panic "short filewrite"
            else filewrite_loop k' f ip addr (i + v) n
        end
      else ret i
  end.

Definition filewrite (f : nat) (addr n : Z) : M (kern D) Z :=
  x <- file_at f;;
  if negb (f_writable x) then ret (-1)
  else match f_type x with
       | FD_PIPE => pipewrite_from (f_pipe x) addr n
       | FD_INODE =>
           i <- filewrite_loop (S (Z.to_nat n)) f (f_ip x) addr 0 n;;
           ret (if i =? n then n else -1)
       | FD_NONE => panic "filewrite"
       end.
End Io.

(** ** pipealloc

    The data of the new pipe is whatever the page holds at the offset of [data]
    in struct pipe, after the spin lock. *)
Definition pipe_data_off : Z := 52.

Definition set_end (r w : bool) (p : Z) (x : file) : file :=
  mkFile FD_PIPE (f_ref x) r w p (f_ip x) (f_off x).

Definition close_opt (f : option nat) : M (kern D) unit :=
  match f with Some i => fileclose i | None => ret tt end.

Definition pipealloc : M (kern D) (option (nat * nat)) :=
  f0 <- filealloc;;
  f1 <- match f0 with Some _ => filealloc | None => ret None end;;
  p <- match f0, f1 with Some _, Some _ => onmem kalloc | _, _ => ret 0 end;;
  match f0, f1, negb (p =? 0) with
  | Some a, Some b, true =>
      modify (fun s => set_pipes (<[p := pipe_init
        (load_bytes (mem (kmem s)) (p + pipe_data_off) (Z.to_nat PIPESIZE))]> (pipes s)) s);;
      upd_file a (set_end true false p);;
      upd_file b (set_end false true p);;
      ret (Some (a, b))
  | _, _, _ =>
      (if negb (p =? 0) then onmem (kfree p) else ret tt);;
      close_opt f0;;
      close_opt f1;;
      ret None
  end.
End File.
