(* ===== verification/Syscall.v ===== *)
(** * System call arguments (syscall.c) and the kernel state they work on

    The process table of Proc.v joined with the kernel state of File.v.  The
    instance [kernel_env] gives process management the page tables of Vm.v and
    the files of File.v and Fs.v. *)

From stdpp Require Import base numbers list gmap strings.
From Stdlib Require Import ZArith Lia.
From S2P Require Import Prelude Mmu Mem Kalloc Vm VmInv VmOut Block Fs Proc File.

Local Open Scope Z_scope.
Local Open Scope kernel_scope.

Definition opt_ptr (p : Z) : option Z := if p =? 0 then None else Some p.

Section Env.
Context {D : Type} `{DV : Devsw D} {LS : LinkSyms}.
(** The bytes of initcode.S, linked into the kernel. *)
Context (initcode : list Z).

#[local] Instance kernel_env : ProcEnv (kern D) := {
  e_kalloc := p <- onmem kalloc;; ret (opt_ptr p);
  e_kfree p := onmem (kfree p);
  e_setupkvm := p <- onmem setupkvm;; ret (opt_ptr p);
  e_inituvm pgdir := onmem (inituvm pgdir initcode);
  e_copyuvm pgdir sz := p <- onmem (copyuvm pgdir sz);; ret (opt_ptr p);
  e_freevm pgdir := onmem (freevm pgdir);
  e_allocuvm pgdir old new := onmem (allocuvm pgdir old new);
  e_deallocuvm pgdir old new := onmem (deallocuvm pgdir old new);
  e_filedup f := filedup f;
  e_fileclose f := fileclose f;
  e_idup i := onfs (idup i);
  e_iput i := begin_op;; onfs (iput i);; end_op;
  e_root := r <- onfs (namei 0 [SLASH]);; match r with Some i => ret i | None => undef end
}.
End Env.

Section Args.
Context {D : Type} {LS : LinkSyms}.
(** The process that makes the call. *)
Context (cur : nat).

#[local] Abbreviation kst := (pst (kern D)).

Definition myproc : M kst proc := proc_at cur.

Definition fetchint (addr : Z) : M kst (option Z) :=
  p <- myproc;;
  if (addr >=? p_sz p) || (u32 (addr + 4) >? p_sz p) then ret None
  else
    l <- call (uload (p_pgdir p) addr 4);;
    ret (Some (s32 (get32 l 0))).

(** The scan of fetchstr from [s] up to [ep]. *)
Fixpoint fetchstr_loop (k : nat) (pgdir s ep : Z) : M kst (option (list Z)) :=
  match k with
  | O => hang
  | S k' =>
      if s <? ep then
        b <- call (uload8 pgdir s);;
        if b =? 0 then ret (Some [])
        else r <- fetchstr_loop k' pgdir (s + 1) ep;; ret (cons b <$> r)
      else ret None
  end.

(** The characters of the string at [addr]; their number is what fetchstr returns. *)
Definition fetchstr (addr : Z) : M kst (option (list Z)) :=
  p <- myproc;;
  if addr >=? p_sz p then ret None
  else fetchstr_loop (S (Z.to_nat (p_sz p - addr))) (p_pgdir p) addr (p_sz p).

Definition argint (n : Z) : M kst (option Z) :=
  p <- myproc;;
  fetchint (u32 (tf_esp (p_tf p) + 4 + 4 * n)).

Definition argptr (n size : Z) : M kst (option Z) :=
  p <- myproc;;
  r <- argint n;;
  match r with
  | None => ret None
  | Some i =>
      if (size <? 0) || (u32 i >=? p_sz p) || (u32 (u32 i + size) >? p_sz p) then ret None
      else ret (Some (u32 i))
  end.

Definition argstr (n : Z) : M kst (option (list Z)) :=
  r <- argint n;;
  match r with
  | None => ret None
  | Some addr => fetchstr (u32 addr)
  end.
End Args.

(** ** The checks keep the kernel inside the process

    The tests of syscall.c are on 32-bit unsigned values; for a process of at most
    [KERNBASE] bytes they are the tests on the numbers themselves. *)
Section ArgsProofs.
Context {D : Type} {LS : LinkSyms}.
Context (cur : nat) (p : proc) (s : pst (kern D)).
Context (Hcur : ptable (tab s) !! cur = Some p).
Context (Hsz : 0 <= p_sz p <= KERNBASE).

#[local] Abbreviation um := (mem (kmem (env s))).
#[local] Abbreviation ub := (uread um (p_pgdir p)).

Context (Hmapped : forall a, 0 <= a < p_sz p -> present (lookup_pte um (p_pgdir p) a) = true).

Lemma call_same {A} (c : M (kern D) A) a : c (env s) = Ret a (env s) -> call c s = Ret a s.
Proof. unfold call. intros ->. by destruct s. Qed.

Lemma myproc_run : myproc cur s = Ret p s.
Proof. unfold myproc, proc_at, pget. rewrite bind_gets, Hcur. done. Qed.

Lemma uload8_run a : 0 <= a < p_sz p -> uload8 (p_pgdir p) a (env s) = Ret (ub a) (env s).
Proof. intros Ha. unfold uload8. rewrite bind_get, (Hmapped a Ha). done. Qed.

Lemma uload_run n : forall a, 0 <= a -> a + Z.of_nat n <= p_sz p ->
  uload (p_pgdir p) a n (env s) = Ret (ub <$> seqZ a (Z.of_nat n)) (env s).
Proof.
  induction n as [|n IH]; intros a Ha Hn; [done|].
  cbn [uload]. rewrite (bind_run _ _ _ _ _ (uload8_run a ltac:(lia))).
  rewrite (bind_run _ _ _ _ _ (IH (a + 1) ltac:(lia) ltac:(lia))).
  rewrite (seqZ_cons a) by lia. replace (Z.pred (Z.of_nat (S n))) with (Z.of_nat n) by lia. done.
Qed.

(** The word at [a] of user memory. *)
Definition uword (a : Z) : Z := get32 (ub <$> seqZ a 4) 0.

Lemma fetchint_run a : 0 <= a < 4294967296 ->
  fetchint cur a s = Ret (if a + 4 <=? p_sz p then Some (s32 (uword a)) else None) s.
Proof.
  intros Ha. change KERNBASE with 2147483648 in Hsz.
  unfold fetchint. rewrite (bind_run _ _ _ _ _ myproc_run).
  destruct (Z.leb_spec (a + 4) (p_sz p)) as [Hle|Hgt].
  - rewrite u32_small by lia.
    destruct (Z.geb_spec a (p_sz p)); [lia|]. destruct (Z.gtb_spec (a + 4) (p_sz p)); [lia|]. cbn [orb].
    rewrite (bind_run _ _ _ _ _ (call_same _ _ (uload_run 4 a ltac:(lia) ltac:(lia)))). done.
  - destruct (Z.geb_spec a (p_sz p)); [done|]. rewrite u32_small by lia.
    destruct (Z.gtb_spec (a + 4) (p_sz p)); [done|lia].
Qed.

Definition arg_addr (n : Z) : Z := u32 (tf_esp (p_tf p) + 4 + 4 * n).

Lemma argint_run n :
  argint cur n s = Ret (if arg_addr n + 4 <=? p_sz p then Some (s32 (uword (arg_addr n))) else None) s.
Proof.
  unfold argint. rewrite (bind_run _ _ _ _ _ myproc_run). apply fetchint_run, u32_range.
Qed.

(** The address an argument points to: [i], when the word and the object of
    [size] bytes lie in the process. *)
Definition ptr_arg (n size : Z) : option Z :=
  let i := u32 (s32 (uword (arg_addr n))) in
  if (arg_addr n + 4 <=? p_sz p) && (0 <=? size) && (i <? p_sz p) && (i + size <=? p_sz p)
  then Some i else None.

Lemma argptr_run n size : -2147483648 <= size < 2147483648 ->
  argptr cur n size s = Ret (ptr_arg n size) s.
Proof.
  intros Hs. change KERNBASE with 2147483648 in Hsz.
  unfold argptr, ptr_arg. rewrite (bind_run _ _ _ _ _ myproc_run), (bind_run _ _ _ _ _ (argint_run n)).
  destruct (arg_addr n + 4 <=? p_sz p); [|done]. cbn [andb].
  set (i := u32 (s32 (uword (arg_addr n)))). assert (0 <= i < 4294967296) by apply u32_range.
  destruct (Z.ltb_spec size 0), (Z.leb_spec 0 size); try lia; [done|]. cbn [orb andb].
  destruct (Z.geb_spec i (p_sz p)), (Z.ltb_spec i (p_sz p)); try lia; [done|]. cbn [orb andb].
  rewrite u32_small by lia.
  destruct (Z.gtb_spec (i + size) (p_sz p)), (Z.leb_spec (i + size) (p_sz p)); try lia; done.
Qed.

(** [l] is the string at [a]: its characters, then a null, below [ep]. *)
Definition is_string (a ep : Z) (l : list Z) : Prop :=
  a + Z.of_nat (length l) < ep /\ l = (ub <$> seqZ a (Z.of_nat (length l))) /\
  (0 ∉ l) /\ ub (a + Z.of_nat (length l)) = 0.

Lemma fetchstr_loop_run k : forall a, 0 <= a -> (Z.to_nat (p_sz p - a) < k)%nat ->
  exists r, fetchstr_loop k (p_pgdir p) a (p_sz p) s = Ret r s /\
    match r with
    | Some l => is_string a (p_sz p) l
    | None => forall x, a <= x < p_sz p -> ub x <> 0
    end.
Proof.
  induction k as [|k IH]; intros a Ha Hk; [lia|]. cbn [fetchstr_loop].
  destruct (Z.ltb_spec a (p_sz p)) as [Hlt|Hge]; [|exists None; split; [done|lia]].
  rewrite (bind_run _ _ _ _ _ (call_same _ _ (uload8_run a ltac:(lia)))).
  destruct (Z.eqb_spec (ub a) 0) as [E|Hne].
  { exists (Some []). split; [done|]. unfold is_string. rewrite Z.add_0_r. split_and!; [lia|done|set_solver|done]. }
  destruct (IH (a + 1) ltac:(lia) ltac:(lia)) as (r & Hr & Hpost).
  rewrite (bind_run _ _ _ _ _ Hr). exists (cons (ub a) <$> r). split; [done|].
  destruct r as [l|]; cbn [fmap option_fmap option_map].
  - destruct Hpost as (H1 & H2 & H3 & H4). unfold is_string. cbn [length].
    rewrite (seqZ_cons a) by lia. replace (Z.pred (Z.of_nat (S (length l)))) with (Z.of_nat (length l)) by lia.
    cbn [fmap list_fmap]. replace (Z.succ a) with (a + 1) by lia. split_and!; [lia|by rewrite <- H2| |].
    + apply not_elem_of_cons. split; [by apply not_eq_sym|done].
    + rewrite <- H4. f_equal. lia.
  - intros x Hx. destruct (decide (x = a)) as [->|]; [done|]. apply Hpost. lia.
Qed.
End ArgsProofs.

(** C11.  For a process of at most [KERNBASE] bytes whose pages are mapped,
    fetching arguments changes nothing and never faults.  argint returns the word
    of the argument exactly when its four bytes lie below [sz]; argptr returns the
    pointer exactly when, over the integers (so with no wrap-around), the object of
    [size] bytes lies below [sz]; argstr returns the characters of a string that
    ends in a null below [sz], and fails only when there is none. *)
Theorem args_in_bounds {D : Type} (cur : nat) (p : proc) (s : pst (kern D)) n size
  (Hcur : ptable (tab s) !! cur = Some p) (Hsz : 0 <= p_sz p <= KERNBASE)
  (Hmapped : forall a, 0 <= a < p_sz p ->
     present (lookup_pte (mem (kmem (env s))) (p_pgdir p) a) = true)
  (Hsize : -2147483648 <= size < 2147483648) :
  let a := arg_addr p n in
  let w := uword p s a in
  argint cur n s = Ret (if a + 4 <=? p_sz p then Some (s32 w) else None) s /\
  argptr cur n size s = Ret (ptr_arg p s n size) s /\
  exists r, argstr cur n s = Ret r s /\
    match r with
    | Some l => a + 4 <= p_sz p /\ is_string p s (u32 (s32 w)) (p_sz p) l
    | None => a + 4 > p_sz p \/ forall x, u32 (s32 w) <= x < p_sz p ->
                uread (mem (kmem (env s))) (p_pgdir p) x <> 0
    end.
Proof.
  intros a w. assert (Hi := argint_run cur p s Hcur Hsz Hmapped n). fold a in Hi. fold w in Hi.
  split; [exact Hi|]. split; [exact (argptr_run cur p s Hcur Hsz Hmapped n size Hsize)|].
  unfold argstr. rewrite (bind_run _ _ _ _ _ Hi).
  destruct (Z.leb_spec (a + 4) (p_sz p)) as [Hle|Hgt]; [|exists None; split; [done|left; lia]].
  pose proof (u32_range (s32 w)) as Hu. unfold fetchstr. rewrite (bind_run _ _ _ _ _ (myproc_run cur p s Hcur)).
  destruct (Z.geb_spec (u32 (s32 w)) (p_sz p)); [exists None; split; [done|right; lia]|].
  destruct (fetchstr_loop_run cur p s Hcur Hsz Hmapped (S (Z.to_nat (p_sz p - u32 (s32 w)))) (u32 (s32 w))
    ltac:(lia) ltac:(lia)) as (r & Hr & Hpost).
  exists r. split; [exact Hr|]. destruct r; [by split|by right].
Qed.

(** A process of 16 bytes: one page, with the argument words 12 and 4 and the
    string at 12. *)
Definition demo_pgdir : Z := P2V 4194304.
Definition demo_mem : memory :=
  store_bytes (store32 (store32 (store32 (store32 ∅ demo_pgdir (4198400 + 7)) (P2V 4198400) (4202496 + 7))
    (P2V 4202496 + 4) 12) (P2V 4202496 + 8) 4) (P2V 4202496 + 12) [104; 105; 0; 0].
Definition demo_proc : proc := set_sz 16 (set_pgdir demo_pgdir proc0).
Definition demo_kern : kern unit :=
  mkKern (mkKstate demo_mem 0 false false) (mkFs ∅ 0 [] (mkSuperblock 0 0 0 0 0 0 0) [] tt) [] ∅ 0 0.
Definition demo_pst : pst (kern unit) := mkPst (mkPtab [demo_proc] [Some 0%nat] (Some 0%nat) 2) demo_kern.

Lemma demo_mapped a : 0 <= a < 16 -> present (lookup_pte demo_mem demo_pgdir a) = true.
Proof.
  intros Ha. assert (H : forallb (fun a => present (lookup_pte demo_mem demo_pgdir a)) (seqZ 0 16) = true)
    by (vm_compute; reflexivity).
  rewrite forallb_forall in H. apply H. apply list_elem_of_In, elem_of_seqZ. lia.
Qed.

Lemma args_in_bounds_witness :
  argptr 0%nat 0 4 demo_pst = Ret (Some 12) demo_pst /\ argptr 0%nat 0 5 demo_pst = Ret None demo_pst.
Proof.
  assert (Hs : 0 <= p_sz demo_proc <= KERNBASE) by (vm_compute; split; discriminate).
  destruct (args_in_bounds 0 demo_proc demo_pst 0 4 eq_refl Hs demo_mapped ltac:(lia)) as (_ & H4 & _).
  destruct (args_in_bounds 0 demo_proc demo_pst 0 5 eq_refl Hs demo_mapped ltac:(lia)) as (_ & H5 & _).
  rewrite H4, H5. split; vm_compute; reflexivity.
Defined.
