(* ===== verification/Exec.v ===== *)
(** * Running a program (exec.c, elf.h, loaduvm of vm.c) *)

From stdpp Require Import base numbers list gmap strings.
From Stdlib Require Import ZArith Lia.
From S2P Require Import Prelude Mmu Mem Kalloc Vm Block Fs Proc File Syscall.

Local Open Scope Z_scope.
Local Open Scope kernel_scope.

(** ** elf.h *)
Definition ELF_MAGIC : Z := 1179403647.
Definition ELF_PROG_LOAD : Z := 1.

Record elfhdr := mkElf {
  e_magic : Z; e_elf : list Z; e_type : Z; e_machine : Z; e_version : Z; e_entry : Z;
  e_phoff : Z; e_shoff : Z; e_flags : Z; e_ehsize : Z; e_phentsize : Z; e_phnum : Z;
  e_shentsize : Z; e_shnum : Z; e_shstrndx : Z
}.
Record proghdr := mkPh {
  ph_type : Z; ph_off : Z; ph_vaddr : Z; ph_paddr : Z;
  ph_filesz : Z; ph_memsz : Z; ph_flags : Z; ph_align : Z
}.
Definition sizeof_elfhdr : Z := 52.
Definition sizeof_proghdr : Z := 32.
Definition elf_of (d : list Z) : elfhdr :=
  mkElf (get32 d 0) (take 12 (drop 4 d)) (get16 d 16) (get16 d 18) (get32 d 20) (get32 d 24)
        (get32 d 28) (get32 d 32) (get32 d 36) (get16 d 40) (get16 d 42) (get16 d 44)
        (get16 d 46) (get16 d 48) (get16 d 50).
Definition ph_of (d : list Z) : proghdr :=
  mkPh (get32 d 0) (get32 d 4) (get32 d 8) (get32 d 12) (get32 d 16) (get32 d 20) (get32 d 24) (get32 d 28).

Definition set_eip_esp (eip esp : Z) (t : trapframe) : trapframe :=
  mkTf (tf_edi t) (tf_esi t) (tf_ebp t) (tf_oesp t) (tf_ebx t) (tf_edx t) (tf_ecx t) (tf_eax t)
       (tf_gs t) (tf_fs t) (tf_es t) (tf_ds t) (tf_trapno t)
       (tf_err t) eip (tf_cs t) (tf_eflags t) esp (tf_ss t).

(** The part of the path after its last slash. *)
Fixpoint last_elem (path acc : list Z) : list Z :=
  match path with
  | [] => acc
  | c :: path' => last_elem path' (if c =? SLASH then path' else acc)
  end.

Section Exec.
Context {D : Type} `{DV : Devsw D} {LS : LinkSyms}.

(** ** loaduvm *)
Fixpoint loaduvm_loop (k : nat) (pgdir addr : Z) (ip : nat) (offset i sz : Z) : M (kern D) Z :=
  match k with
  | O => hang
  | S k' =>
      if i <? sz then
        pte <- onmem (walkpgdir pgdir (u32 (addr + i)) false);;
        if pte =? 0 then panic "loaduvm: address should exist"
        else
          s <- get;;
          let pa := PTE_ADDR (load32 (mem (kmem s)) pte) in
          let n := if sz - i <? PGSIZE then sz - i else PGSIZE in
          r <- onfs (readi ip (u32 (offset + i)) n);;
          match r with
          | None => ret (-1)
          | Some l =>
              onmem (modify (set_mem (fun m => store_bytes m (P2V pa) l)));;
              if Z.of_nat (length l) =? n then loaduvm_loop k' pgdir addr ip offset (u32 (i + PGSIZE)) sz
              else ret (-1)
          end
      else ret 0
  end.

Definition loaduvm (pgdir addr : Z) (ip : nat) (offset sz : Z) : M (kern D) Z :=
  if negb (addr mod PGSIZE =? 0) then panic "loaduvm: addr must be page aligned"
  else loaduvm_loop (Z.to_nat (sz / PGSIZE) + 2) pgdir addr ip offset 0 sz.

(** readi of a structure of [n] bytes, [None] when it falls short. *)
Definition read_struct (ip : nat) (off n : Z) : M (kern D) (option (list Z)) :=
  r <- onfs (readi ip off n);;
  ret (match r with
       | Some l => if Z.of_nat (length l) =? n then Some l else None
       | None => None
       end).

(** The loop over the program headers: the size of the image, [None] for a jump
    to bad. *)
Fixpoint load_segments (k : nat) (pgdir : Z) (ip : nat) (off sz : Z) : M (kern D) (option Z) :=
  match k with
  | O => ret (Some sz)
  | S k' =>
      r <- read_struct ip (u32 off) sizeof_proghdr;;
      match r with
      | None => ret None
      | Some d =>
          let ph := ph_of d in
          let next := s32 (off + sizeof_proghdr) in
          if negb (ph_type ph =? ELF_PROG_LOAD) then load_segments k' pgdir ip next sz
          else if ph_memsz ph <? ph_filesz ph then ret None
          else if u32 (ph_vaddr ph + ph_memsz ph) <? ph_vaddr ph then ret None
          else
            sz' <- onmem (allocuvm pgdir sz (u32 (ph_vaddr ph + ph_memsz ph)));;
            if sz' =? 0 then ret None
            else if negb (ph_vaddr ph mod PGSIZE =? 0) then ret None
            else
              r <- loaduvm pgdir (ph_vaddr ph) ip (ph_off ph) (ph_filesz ph);;
              if r <? 0 then ret None else load_segments k' pgdir ip next sz'
      end
  end.

(** The loop that pushes the argument strings: the stack pointer and the
    addresses for ustack, [None] for a jump to bad. *)
Fixpoint push_args (pgdir argc sp : Z) (argv : list (list Z)) : M (kern D) (option (Z * list Z)) :=
  match argv with
  | [] => ret (Some (sp, []))
  | a :: argv' =>
      if argc >=? MAXARG then ret None
      else
        let sp := Z.land (u32 (sp - (Z.of_nat (length a) + 1))) (u32 (Z.lnot 3)) in
        r <- onmem (copyout pgdir sp (a ++ [0]));;
        if r <? 0 then ret None
        else
          r <- push_args pgdir (argc + 1) sp argv';;
          ret (prod_map id (cons sp) <$> r)
  end.

Definition ustack_of (sp : Z) (addrs : list Z) : list Z :=
  let argc := Z.of_nat (length addrs) in
  [4294967295; argc; u32 (sp - (argc + 1) * 4)] ++ addrs ++ [0].

(** What exec builds before it commits: page table, size, stack pointer, entry. *)
Record image := mkImage { im_pgdir : Z; im_sz : Z; im_sp : Z; im_entry : Z }.

(** From the second allocuvm to the last copyout, without the inode. *)
Definition build_stack (pgdir sz entry : Z) (argv : list (list Z)) : M (kern D) (option image) :=
  let sz := PGROUNDUP sz in
  sz <- onmem (allocuvm pgdir sz (u32 (sz + 2 * PGSIZE)));;
  if sz =? 0 then ret None
  else
    onmem (clearpteu pgdir (u32 (sz - 2 * PGSIZE)));;
    r <- push_args pgdir 0 sz argv;;
    match r with
    | None => ret None
    | Some (sp, addrs) =>
        let ustack := ustack_of sp addrs in
        let sp := u32 (sp - 4 * Z.of_nat (length ustack)) in
        r <- onmem (copyout pgdir sp (concat (map le32 ustack)));;
        if r <? 0 then ret None else ret (Some (mkImage pgdir sz sp entry))
    end.

Definition free_pgdir (pgdir : Z) : M (kern D) unit :=
  if negb (pgdir =? 0) then onmem (freevm pgdir) else ret tt.

(** bad, while the inode is held and after it has been let go. *)
Definition bad_ip (pgdir : Z) (ip : nat) : M (kern D) (option image) :=
  free_pgdir pgdir;; onfs (iunlockput ip);; end_op;; ret None.
Definition bad (pgdir : Z) : M (kern D) (option image) := free_pgdir pgdir;; ret None.

(** exec up to its commit point. *)
Definition exec_load (cwd : nat) (path : list Z) (argv : list (list Z)) : M (kern D) (option image) :=
  begin_op;;
  r <- onfs (namei cwd path);;
  match r with
  | None => end_op;; ret None
  | Some ip =>
      onfs (ilock ip);;
      r <- read_struct ip 0 sizeof_elfhdr;;
      match r with
      | None => bad_ip 0 ip
      | Some d =>
          let elf := elf_of d in
          if negb (e_magic elf =? ELF_MAGIC) then bad_ip 0 ip
          else
            pgdir <- onmem setupkvm;;
            if pgdir =? 0 then bad_ip 0 ip
            else
              r <- load_segments (Z.to_nat (e_phnum elf)) pgdir ip (s32 (e_phoff elf)) 0;;
              match r with
              | None => bad_ip pgdir ip
              | Some sz =>
                  onfs (iunlockput ip);;
                  end_op;;
                  r <- build_stack pgdir sz (e_entry elf) argv;;
                  match r with Some im => ret (Some im) | None => bad pgdir end
              end
      end
  end.

(** The tests of switchuvm; the rest of it loads the task register and %cr3. *)
Definition switchuvm_checks (p : proc) : M (pst (kern D)) unit :=
  if p_kstack p =? 0 then panic "switchuvm: no kstack"
  else if p_pgdir p =? 0 then panic "switchuvm: no pgdir"
  else ret tt.

Definition commit_image (path : list Z) (im : image) (p : proc) : proc :=
  set_tf (set_eip_esp (im_entry im) (im_sp im) (p_tf p))
    (set_sz (im_sz im) (set_pgdir (im_pgdir im)
      (set_name (safestrcpy (cstr (last_elem path path)) 16) p))).

Definition exec (cur : nat) (path : list Z) (argv : list (list Z)) : M (pst (kern D)) Z :=
  p <- proc_at cur;;
  match p_cwd p with
  | None => undef
  | Some cwd =>
      r <- call (exec_load cwd path argv);;
      match r with
      | None => ret (-1)
      | Some im =>
          pmod (upd_proc cur (commit_image path im));;
          q <- proc_at cur;;
          switchuvm_checks q;;
          call (onmem (freevm (p_pgdir p)));;
          ret 0
      end
  end.
End Exec.

(** ** exec is all or nothing *)
Lemma land_mask_mod x m k : 0 <= k -> Z.land m (Z.ones k) = 0 -> Z.land x m mod 2 ^ k = 0.
Proof. intros Hk Hm. rewrite <- Z.land_ones by done. by rewrite <- Z.land_assoc, Hm, Z.land_0_r. Qed.

Lemma mod4_sub a b : a mod 4 = 0 -> u32 (a - 4 * b) mod 4 = 0.
Proof.
  intros Ha. unfold u32. change 4294967296 with (4 * 1073741824). rewrite Z.rem_mul_r by lia.
  replace (a - 4 * b) with (a + (- b) * 4) by lia. rewrite Z.mod_add, Ha by lia.
  rewrite Z.add_0_l, Z.mul_comm. by apply Z.mod_mul.
Qed.

(** allocuvm returns 0 or one of the two sizes. *)
Lemma allocuvm_result {LS : LinkSyms} pgdir old new s r s' :
  allocuvm pgdir old new s = Ret r s' -> r = 0 \/ r = new \/ r = old.
Proof.
  assert (Hl : forall k a, tr (fun _ : kstate => tt) tt (allocuvm_loop k pgdir a old new) (fun r _ => r = 0 \/ r = new)).
  { induction k as [|k IH]; intros a; cbn [allocuvm_loop]; [apply tr_stop; done|].
    destruct (a <? new); [|apply tr_ret; by right].
    repeat first [apply IH | apply tr_ret; by left | match goal with
      | |- forall _, _ => intros ?
      | |- tr _ _ (bind _ _) _ => apply tr_bind
      | |- tr _ _ (if ?b then _ else _) _ => destruct b
      | |- _ => apply tr_keep; [by intros ????|]
      end]. }
  unfold allocuvm. destruct (new >=? KERNBASE); [intros [= <- _]; by left|].
  destruct (new <? old); [intros [= <- _]; by right; right|].
  intros H. destruct (Hl _ _ s r s' eq_refl H) as [->| ->]; auto.
Qed.

Section ExecProofs.
Context {D : Type} `{DV : Devsw D} {LS : LinkSyms}.

Lemma push_args_result pgdir argv : forall argc sp (s : kern D) sp' addrs s',
  argc <= MAXARG -> sp mod 4 = 0 -> push_args pgdir argc sp argv s = Ret (Some (sp', addrs)) s' ->
  sp' mod 4 = 0 /\ length addrs = length argv /\ argc + Z.of_nat (length argv) <= MAXARG.
Proof.
  induction argv as [|a argv IH]; intros argc sp s sp' addrs s' Hc Hsp H; cbn [push_args] in H.
  { injection H as <- <- _. simpl. split_and!; [done|done|lia]. }
  destruct (Z.geb_spec argc MAXARG); [done|]. unfold bind in H.
  set (sp1 := Z.land _ _) in H. destruct (onmem _ s) as [r s1| | |]; try done.
  destruct (r <? 0); [done|]. destruct (push_args pgdir (argc + 1) sp1 argv s1) as [[[q l]|] s2| | |] eqn:E; try done.
  injection H as <- <- _. apply IH in E as (E1 & E2 & E3); [|lia|by apply (land_mask_mod _ _ 2)].
  simpl. split_and!; [done|by rewrite E2|lia].
Qed.

Lemma build_stack_result pgdir sz entry argv (s : kern D) im s' :
  build_stack pgdir sz entry argv s = Ret (Some im) s' ->
  im_pgdir im = pgdir /\ im_entry im = entry /\ im_sp im mod 4 = 0 /\ Z.of_nat (length argv) <= MAXARG.
Proof.
  intros H. unfold build_stack, bind in H. destruct (onmem (allocuvm _ _ _) s) as [z s1| | |] eqn:E; try done.
  destruct (z =? 0) eqn:Ez; [done|]. destruct (onmem (clearpteu _ _) s1) as [u s2| | |]; try done.
  destruct (push_args pgdir 0 z argv s2) as [[[sp addrs]|] s3| | |] eqn:Ep; try done.
  destruct (onmem (copyout _ _ _) s3) as [r s4| | |]; try done. destruct (r <? 0); [done|]. injection H as <- _.
  assert (Hround : PGROUNDUP sz mod 4096 = 0) by (by apply (land_mask_mod _ _ 12)).
  assert (Hz : z mod 4 = 0).
  { unfold onmem, zoom in E. destruct (allocuvm _ _ _ (kmem s)) as [z' k'| | |] eqn:Ea; try done. injection E as -> _.
    assert (Hp : PGROUNDUP sz mod 4 = 0).
    { rewrite (Z.div_mod (PGROUNDUP sz) 4096), Hround, Z.add_0_r by lia. change 4096 with (4 * 1024).
      rewrite <- Z.mul_assoc, Z.mul_comm. by apply Z.mod_mul. }
    apply allocuvm_result in Ea as [->|[->| ->]]; [done| |done].
    change (2 * PGSIZE) with (4 * 2048). replace (PGROUNDUP sz + 4 * 2048) with (PGROUNDUP sz - 4 * (-2048)) by lia.
    by apply mod4_sub. }
  apply push_args_result in Ep as (E1 & E2 & E3); [|done|done]. simpl. split_and!; [done|done| |lia].
  by apply mod4_sub.
Qed.

(** An image exec may run: it has a page table, its stack is aligned, and the
    arguments fit. *)
Definition image_ok (argv : list (list Z)) (im : image) : Prop :=
  im_pgdir im <> 0 /\ im_sp im mod 4 = 0 /\ Z.of_nat (length argv) <= MAXARG.

Definition unit_measure {S : Type} (_ : S) : unit := tt.

Lemma exec_load_result cwd path argv x :
  tr unit_measure x (exec_load (D := D) cwd path argv) (fun r _ => forall im, r = Some im -> image_ok argv im).
Proof.
  assert (Hb : forall pgdir sz e y, pgdir <> 0 ->
    tr unit_measure y (build_stack (D := D) pgdir sz e argv) (fun r _ => forall im, r = Some im -> image_ok argv im)).
  { intros pgdir sz e y Hp s r s' _ H im ->. apply build_stack_result in H as (<- & _ & H1 & H2). done. }
  unfold exec_load, bad_ip, bad.
  repeat match goal with
  | |- forall _, _ => intros ?
  | |- tr _ _ (bind (build_stack _ _ _ _) _) _ =>
      apply tr_bind; eapply tr_mono; [apply Hb; by apply Z.eqb_neq|]; intros [im|] ? Him; cbn beta iota
  | |- tr _ _ (bind _ _) _ => apply tr_bind
  | |- tr _ _ (ret _) _ => apply tr_ret
  | |- tr _ _ (if ?b then _ else _) _ => destruct b eqn:?
  | |- tr _ _ (match ?x with _ => _ end) _ => destruct x
  | |- tr _ _ _ _ => apply tr_keep; [by intros ????|]
  end; solve [done | by apply Him].
Qed.
End ExecProofs.

Lemma proc_at_inv {E} i (s : pst E) p s' : proc_at i s = Ret p s' -> ptable (tab s) !! i = Some p /\ s' = s.
Proof. unfold proc_at, pget, bind, gets, ret. destruct (ptable (tab s) !! i); [|done]. by intros [= -> ->]. Qed.


(** exec of a file that is not there, from an empty directory. *)
Definition exec_dir : inode := mkInode 1 1 1 false true T_DIR 0 0 1 0 (replicate 13 0).
Definition exec_pst : pst (kern unit) :=
  mkPst (mkPtab [set_cwd (Some 0%nat) demo_proc] [Some 0%nat] (Some 0%nat) 2)
    (set_fsys (mkFs ∅ 0 [] (mkSuperblock 0 0 0 0 0 0 0) [exec_dir] tt) demo_kern).
#[local] Instance no_devs : Devsw unit := { dev_read _ := None; dev_write _ := None }.
#[local] Instance demo_syms : LinkSyms := { sym_end := KERNLINK + 8192; sym_data := KERNLINK + 4096 }.
Definition exec_done : pst (kern unit) := match exec 0 [115; 104] [] exec_pst with Ret _ s' => s' | _ => exec_pst end.
Lemma exec_run : exec 0 [115; 104] [] exec_pst = Ret (-1) exec_done.
Proof. vm_compute. reflexivity. Qed.

