(* ===== verification/Sysfile.v ===== *)
(** * File system calls (sysfile.c)

    Every handler runs for the process [cur] and returns what the system call
    leaves in %eax. *)

From stdpp Require Import base numbers list gmap strings.
From Stdlib Require Import ZArith Lia.
From S2P Require Import Prelude Mmu Mem Kalloc Vm Block Fs Proc File Syscall Exec.

Local Open Scope Z_scope.
Local Open Scope kernel_scope.

(** fcntl.h *)
Definition O_RDONLY : Z := 0.
Definition O_WRONLY : Z := 1.
Definition O_RDWR : Z := 2.
Definition O_CREATE : Z := 512.

(** Dot and dot dot. *)
Definition dot : list Z := [46].
Definition dotdot : list Z := [46; 46].

Definition sizeof_stat : Z := 20.
(** struct stat in memory: short type, int dev, uint ino, short nlink, uint size. *)
Definition stat_bytes (st : stat) (pad : list Z) : list Z :=
  le16 (st_type st) ++ take 2 pad ++ le32 (st_dev st) ++ le32 (st_ino st) ++
  le16 (st_nlink st) ++ take 2 (drop 2 pad) ++ le32 (st_size st).

Section Sysfile.
Context {D : Type} `{DV : Devsw D} {LS : LinkSyms}.
Context (cur : nat).

#[local] Abbreviation kst := (pst (kern D)).
#[local] Abbreviation fs c := (call (onfs c)).

Definition mycwd : M kst nat :=
  p <- myproc cur;;
  match p_cwd p with Some w => ret w | None => undef end.

(** ** Descriptors *)
Definition argfd (n : Z) : M kst (option (Z * nat)) :=
  r <- argint cur n;;
  match r with
  | None => ret None
  | Some fd =>
      if (fd <? 0) || (fd >=? NOFILE) then ret None
      else
        p <- myproc cur;;
        match p_ofile p !! Z.to_nat fd with
        | Some (Some f) => ret (Some (fd, f))
        | Some None => ret None
        | None => undef
        end
  end.

Fixpoint first_fd (l : list (option nat)) (i : nat) : option nat :=
  match l with
  | [] => None
  | None :: _ => Some i
  | Some _ :: l' => first_fd l' (S i)
  end.

Definition set_fd (fd : nat) (f : option nat) (p : proc) : proc :=
  set_ofile (<[fd := f]> (p_ofile p)) p.

Definition fdalloc (f : nat) : M kst (option nat) :=
  p <- myproc cur;;
  match first_fd (p_ofile p) 0 with
  | None => ret None
  | Some fd => pmod (upd_proc cur (set_fd fd (Some f)));; ret (Some fd)
  end.

Definition sys_dup : M kst Z :=
  r <- argfd 0;;
  match r with
  | None => ret (-1)
  | Some (_, f) =>
      r <- fdalloc f;;
      match r with
      | None => ret (-1)
      | Some fd => call (filedup f);; ret (Z.of_nat fd)
      end
  end.

(** The file, the count and the buffer of read and write. *)
Definition arg_io : M kst (option (nat * Z * Z)) :=
  r <- argfd 0;;
  match r with
  | None => ret None
  | Some (_, f) =>
      r <- argint cur 2;;
      match r with
      | None => ret None
      | Some n =>
          r <- argptr cur 1 n;;
          match r with
          | None => ret None
          | Some a => ret (Some (f, a, n))
          end
      end
  end.

Definition sys_read : M kst Z :=
  r <- arg_io;;
  match r with
  | None => ret (-1)
  | Some (f, a, n) => p <- myproc cur;; call (fileread (p_pgdir p) (p_killed p) f a n)
  end.

Definition sys_write : M kst Z :=
  r <- arg_io;;
  match r with
  | None => ret (-1)
  | Some (f, a, n) => p <- myproc cur;; call (filewrite (p_pgdir p) (p_killed p) f a n)
  end.

Definition sys_close : M kst Z :=
  r <- argfd 0;;
  match r with
  | None => ret (-1)
  | Some (fd, f) =>
      pmod (upd_proc cur (set_fd (Z.to_nat fd) None));;
      call (fileclose f);;
      ret 0
  end.

Definition sys_fstat : M kst Z :=
  r <- argfd 0;;
  match r with
  | None => ret (-1)
  | Some (_, f) =>
      r <- argptr cur 1 sizeof_stat;;
      match r with
      | None => ret (-1)
      | Some a =>
          st <- call (filestat f);;
          match st with
          | None => ret (-1)
          | Some st =>
              p <- myproc cur;;
              (* the padding of the structure keeps what it holds *)
              x <- call (uload (p_pgdir p) (a + 2) 2);;
              y <- call (uload (p_pgdir p) (a + 14) 2);;
              call (ustore (p_pgdir p) a (stat_bytes st (x ++ y)));;
              ret 0
          end
      end
  end.

(** ** link *)
Definition set_link (n : Z) (ip : inode) : inode := set_nlink (s16 n) ip.

Definition inode_of (i : nat) : M kst inode := fs (inode_at i).

(** The label bad of sys_link. *)
Definition link_bad (ip : nat) : M kst Z :=
  fs (ilock ip);;
  fs (upd_inode ip (fun x => set_link (i_nlink x - 1) x));;
  fs (iupdate ip);;
  fs (iunlockput ip);;
  call end_op;;
  ret (-1).

Definition sys_link : M kst Z :=
  r0 <- argstr cur 0;;
  match r0 with
  | None => ret (-1)
  | Some old =>
      r1 <- argstr cur 1;;
      match r1 with
      | None => ret (-1)
      | Some new =>
          call begin_op;;
          cwd <- mycwd;;
          r <- fs (namei cwd old);;
          match r with
          | None => call end_op;; ret (-1)
          | Some ip =>
              fs (ilock ip);;
              x <- inode_of ip;;
              if i_type x =? T_DIR then fs (iunlockput ip);; call end_op;; ret (-1)
              else
                fs (upd_inode ip (fun x => set_link (i_nlink x + 1) x));;
                fs (iupdate ip);;
                fs (iunlock ip);;
                r <- fs (nameiparent cwd new);;
                match r with
                | None => link_bad ip
                | Some (dp, name) =>
                    fs (ilock dp);;
                    d <- inode_of dp;;
                    x <- inode_of ip;;
                    e <- (if negb (i_dev d =? i_dev x) then ret (-1)
                          else fs (dirlink dp name (i_inum x)));;
                    fs (iunlockput dp);;
                    if e <? 0 then link_bad ip
                    else fs (iput ip);; call end_op;; ret 0
                end
          end
      end
  end.

(** ** unlink *)
Fixpoint isdirempty_loop (k : nat) (dp : nat) (off : Z) : M (fsst D) bool :=
  match k with
  | O => hang
  | S k' =>
      x <- inode_at dp;;
      if u32 off <? i_size x then
        r <- readi dp (u32 off) sizeof_dirent;;
        match r with
        | Some e =>
            if negb (Z.of_nat (length e) =? sizeof_dirent) then panic "isdirempty: readi"
            else if negb (de_inum e =? 0) then ret false
            else isdirempty_loop k' dp (s32 (off + sizeof_dirent))
        | None => panic "isdirempty: readi"
        end
      else ret true
  end.

Definition isdirempty (dp : nat) : M (fsst D) bool :=
  x <- inode_at dp;;
  isdirempty_loop (Z.to_nat (i_size x / sizeof_dirent) + 2) dp (2 * sizeof_dirent).

Definition unlink_bad (dp : nat) : M kst Z := fs (iunlockput dp);; call end_op;; ret (-1).

Definition sys_unlink : M kst Z :=
  r <- argstr cur 0;;
  match r with
  | None => ret (-1)
  | Some path =>
      call begin_op;;
      cwd <- mycwd;;
      r <- fs (nameiparent cwd path);;
      match r with
      | None => call end_op;; ret (-1)
      | Some (dp, name) =>
          fs (ilock dp);;
          if (namecmp name dot =? 0) || (namecmp name dotdot =? 0) then unlink_bad dp
          else
            r <- fs (dirlookup dp name);;
            match r with
            | None => unlink_bad dp
            | Some (ip, off) =>
                fs (ilock ip);;
                x <- inode_of ip;;
                if i_nlink x <? 1 then panic "unlink: nlink < 1"
                else
                  e <- (if i_type x =? T_DIR then fs (isdirempty ip) else ret true);;
                  if negb e then fs (iunlockput ip);; unlink_bad dp
                  else
                    w <- fs (writei dp (replicate (Z.to_nat sizeof_dirent) 0) off);;
                    if negb (bool_decide (w = Some sizeof_dirent)) then panic "unlink: writei"
                    else
                      (if i_type x =? T_DIR then
                         fs (upd_inode dp (fun d => set_link (i_nlink d - 1) d));;
                         fs (iupdate dp)
                       else ret tt);;
                      fs (iunlockput dp);;
                      fs (upd_inode ip (fun x => set_link (i_nlink x - 1) x));;
                      fs (iupdate ip);;
                      fs (iunlockput ip);;
                      call end_op;;
                      ret 0
            end
      end
  end.

(** ** create, open, mkdir, mknod *)
Definition create (cwd : nat) (path : list Z) (type major minor : Z) : M (fsst D) (option nat) :=
  r <- nameiparent cwd path;;
  match r with
  | None => ret None
  | Some (dp, name) =>
      ilock dp;;
      r <- dirlookup dp name;;
      match r with
      | Some (ip, _) =>
          iunlockput dp;;
          ilock ip;;
          x <- inode_at ip;;
          if (type =? T_FILE) && (i_type x =? T_FILE) then ret (Some ip)
          else iunlockput ip;; ret None
      | None =>
          d <- inode_at dp;;
          ip <- ialloc (i_dev d) type;;
          ilock ip;;
          upd_inode ip (fun x => set_nlink 1 (set_dev_nums major minor x));;
          iupdate ip;;
          (if type =? T_DIR then
             upd_inode dp (fun d => set_link (i_nlink d + 1) d);;
             iupdate dp;;
             x <- inode_at ip;;
             e <- dirlink ip dot (i_inum x);;
             if e <? 0 then panic "create dots"
             else
               d <- inode_at dp;;
               e <- dirlink ip dotdot (i_inum d);;
               if e <? 0 then panic "create dots" else ret tt
           else ret tt);;
          x <- inode_at ip;;
          e <- dirlink dp name (i_inum x);;
          if e <? 0 then panic "create: dirlink"
          else iunlockput dp;; ret (Some ip)
      end
  end.

Definition open_file (ip : nat) (omode : Z) (x : file) : file :=
  mkFile FD_INODE (f_ref x) (Z.land omode O_WRONLY =? 0)
    (negb (Z.land omode O_WRONLY =? 0) || negb (Z.land omode O_RDWR =? 0)) (f_pipe x) ip 0.

(** The inode open works on, locked; [None] when it does not get one. *)
Definition open_inode (cwd : nat) (path : list Z) (omode : Z) : M (fsst D) (option nat) :=
  if negb (Z.land omode O_CREATE =? 0) then create cwd path T_FILE 0 0
  else
    r <- namei cwd path;;
    match r with
    | None => ret None
    | Some ip =>
        ilock ip;;
        x <- inode_at ip;;
        if (i_type x =? T_DIR) && negb (omode =? O_RDONLY) then iunlockput ip;; ret None
        else ret (Some ip)
    end.

Definition sys_open : M kst Z :=
  r0 <- argstr cur 0;;
  match r0 with
  | None => ret (-1)
  | Some path =>
      r1 <- argint cur 1;;
      match r1 with
      | None => ret (-1)
      | Some omode =>
          call begin_op;;
          cwd <- mycwd;;
          r <- fs (open_inode cwd path omode);;
          match r with
          | None => call end_op;; ret (-1)
          | Some ip =>
              f <- call filealloc;;
              fd <- match f with Some f => fdalloc f | None => ret None end;;
              match f, fd with
              | Some f, Some fd =>
                  fs (iunlock ip);;
                  call end_op;;
                  call (upd_file f (open_file ip omode));;
                  ret (Z.of_nat fd)
              | _, _ =>
                  call (close_opt f);;
                  fs (iunlockput ip);;
                  call end_op;;
                  ret (-1)
              end
          end
      end
  end.

(** The end of mkdir and mknod. *)
Definition finish_create (r : option nat) : M kst Z :=
  match r with
  | None => call end_op;; ret (-1)
  | Some ip => fs (iunlockput ip);; call end_op;; ret 0
  end.

Definition sys_mkdir : M kst Z :=
  call begin_op;;
  r <- argstr cur 0;;
  r <- match r with
       | None => ret None
       | Some path => cwd <- mycwd;; fs (create cwd path T_DIR 0 0)
       end;;
  finish_create r.

Definition sys_mknod : M kst Z :=
  call begin_op;;
  path <- argstr cur 0;;
  major <- match path with Some _ => argint cur 1 | None => ret None end;;
  minor <- match major with Some _ => argint cur 2 | None => ret None end;;
  r <- match path, major, minor with
       | Some path, Some mj, Some mn => cwd <- mycwd;; fs (create cwd path T_DEV (s16 mj) (s16 mn))
       | _, _, _ => ret None
       end;;
  finish_create r.

Definition sys_chdir : M kst Z :=
  call begin_op;;
  r <- argstr cur 0;;
  r <- match r with None => ret None | Some path => cwd <- mycwd;; fs (namei cwd path) end;;
  match r with
  | None => call end_op;; ret (-1)
  | Some ip =>
      fs (ilock ip);;
      x <- inode_of ip;;
      if negb (i_type x =? T_DIR) then fs (iunlockput ip);; call end_op;; ret (-1)
      else
        fs (iunlock ip);;
        cwd <- mycwd;;
        fs (iput cwd);;
        call end_op;;
        pmod (upd_proc cur (set_cwd (Some ip)));;
        ret 0
  end.

(** ** exec, pipe *)
Fixpoint fetch_argv (k : nat) (uargv i : Z) : M kst (option (list (list Z))) :=
  match k with
  | O => ret None
  | S k' =>
      r <- fetchint cur (u32 (uargv + 4 * i));;
      match r with
      | None => ret None
      | Some uarg =>
          if uarg =? 0 then ret (Some [])
          else
            r <- fetchstr cur (u32 uarg);;
            match r with
            | None => ret None
            | Some a => r <- fetch_argv k' uargv (i + 1);; ret (cons a <$> r)
            end
      end
  end.

Definition sys_exec : M kst Z :=
  r0 <- argstr cur 0;;
  match r0 with
  | None => ret (-1)
  | Some path =>
      r1 <- argint cur 1;;
      match r1 with
      | None => ret (-1)
      | Some uargv =>
          r <- fetch_argv (Z.to_nat MAXARG) (u32 uargv) 0;;
          match r with
          | None => ret (-1)
          | Some argv => exec cur path argv
          end
      end
  end.

Definition sys_pipe : M kst Z :=
  r <- argptr cur 0 8;;
  match r with
  | None => ret (-1)
  | Some a =>
      r <- call pipealloc;;
      match r with
      | None => ret (-1)
      | Some (rf, wf) =>
          fd0 <- fdalloc rf;;
          fd1 <- match fd0 with Some _ => fdalloc wf | None => ret None end;;
          match fd0, fd1 with
          | Some x, Some y =>
              p <- myproc cur;;
              call (ustore (p_pgdir p) a (le32 (Z.of_nat x) ++ le32 (Z.of_nat y)));;
              ret 0
          | _, _ =>
              match fd0 with Some x => pmod (upd_proc cur (set_fd x None)) | None => ret tt end;;
              call (fileclose rf);;
              call (fileclose wf);;
              ret (-1)
          end
      end
  end.
End Sysfile.
