(* ===== verification/Trap.v ===== *)
(** * System call dispatch (syscall.c, syscall.h), sysproc.c and trap.c

    A handler that gives up the processor (sleep, wait, exit, a clock tick) ends
    its turn; the process goes on when the scheduler picks it again. *)

From stdpp Require Import base numbers list gmap strings.
From Stdlib Require Import ZArith Lia.
From S2P Require Import Prelude Mmu Mem Kalloc Vm Block Fs Proc File Syscall Exec Sysfile.

Local Open Scope Z_scope.
Local Open Scope kernel_scope.

(** ** traps.h *)
Definition T_SYSCALL : Z := 64.
Definition T_IRQ0 : Z := 32.
Definition IRQ_TIMER : Z := 0.
Definition IRQ_KBD : Z := 1.
Definition IRQ_COM1 : Z := 4.
Definition IRQ_IDE : Z := 14.
Definition IRQ_SPURIOUS : Z := 31.

(** ** syscall.h *)
Definition SYS_fork : Z := 1.
Definition SYS_exit : Z := 2.
Definition SYS_wait : Z := 3.
Definition SYS_pipe : Z := 4.
Definition SYS_read : Z := 5.
Definition SYS_kill : Z := 6.
Definition SYS_exec : Z := 7.
Definition SYS_fstat : Z := 8.
Definition SYS_chdir : Z := 9.
Definition SYS_dup : Z := 10.
Definition SYS_getpid : Z := 11.
Definition SYS_sbrk : Z := 12.
Definition SYS_sleep : Z := 13.
Definition SYS_uptime : Z := 14.
Definition SYS_open : Z := 15.
Definition SYS_write : Z := 16.
Definition SYS_mknod : Z := 17.
Definition SYS_unlink : Z := 18.
Definition SYS_link : Z := 19.
Definition SYS_mkdir : Z := 20.
Definition SYS_close : Z := 21.
Definition SYS_walkpt : Z := 22.

(** What a turn of a handler does: the system call returns a value, or the process
    has given up the processor. *)
Inductive turn := Done (r : Z) | Away.

(** Routines of device drivers that trap calls. *)
Class Irqs (S : Type) := { ideintr : M S unit; kbdintr : M S unit; uartintr : M S unit }.

Section Trap.
Context {D : Type} `{DV : Devsw D} {LS : LinkSyms} `{IR : !Irqs (kern D)}.
(** The bytes of initcode, the addresses of forkret and of the variable ticks. *)
Context (initcode : list Z) (forkret ticks_addr : Z).
#[local] Existing Instance kernel_env.
(** The process and the processor it runs on. *)
Context (cur c : nat).

#[local] Abbreviation kst := (pst (kern D)).
#[local] Instance env_of_kernel : ProcEnv (kern D) := kernel_env initcode.

Definition done (m : M kst Z) : M kst turn := r <- m;; ret (Done r).

(** ** sysproc.c *)
Definition sys_fork : M kst Z := fork forkret cur.

Definition sys_exit : M kst turn := exit cur c;; ret Away.

Definition sys_wait : M kst turn :=
  r <- wait cur c;;
  ret (match r with Some v => Done v | None => Away end).

Definition sys_kill : M kst Z :=
  r <- argint cur 0;;
  match r with
  | None => ret (-1)
  | Some pid => t <- pget;; pmod (fun t => (kill pid t).2);; ret (kill pid t).1
  end.

Definition sys_getpid : M kst Z := p <- myproc cur;; ret (p_pid p).

Definition sys_sbrk : M kst Z :=
  r <- argint cur 0;;
  match r with
  | None => ret (-1)
  | Some n =>
      p <- myproc cur;;
      let addr := s32 (p_sz p) in
      e <- growproc cur n;;
      ret (if e <? 0 then -1 else addr)
  end.

(** One turn of the loop of sys_sleep, which began at [ticks0]: the comparison is
    between unsigned values. *)
Definition sleep_turn (ticks0 n : Z) : M kst turn :=
  s <- get;;
  if u32 (ticks (env s) - ticks0) <? u32 n then
    p <- myproc cur;;
    if p_killed p then ret (Done (-1))
    else sleep cur c (Some (ChAddr ticks_addr));; ret Away
  else ret (Done 0).

Definition sys_sleep : M kst turn :=
  r <- argint cur 0;;
  match r with
  | None => ret (Done (-1))
  | Some n => s <- get;; sleep_turn (ticks (env s)) n
  end.

Definition sys_uptime : M kst Z := s <- get;; ret (s32 (ticks (env s))).

Definition sizeof_mem_struct : Z := 44.

Definition sys_walkpt : M kst Z :=
  r <- argptr cur 0 sizeof_mem_struct;;
  match r with
  | None => ret (-1)
  | Some a =>
      r <- argint cur 1;;
      match r with
      | None => ret (-1)
      | Some va => call (onmem (walkpt a (u32 va)))
      end
  end.

(** ** syscall.c *)
Definition syscalls : list (Z * M kst turn) :=
  [ (SYS_fork, done sys_fork); (SYS_exit, sys_exit); (SYS_wait, sys_wait);
    (SYS_pipe, done (sys_pipe cur)); (SYS_read, done (sys_read cur)); (SYS_kill, done sys_kill);
    (SYS_exec, done (sys_exec cur)); (SYS_fstat, done (sys_fstat cur)); (SYS_chdir, done (sys_chdir cur));
    (SYS_dup, done (sys_dup cur)); (SYS_getpid, done sys_getpid); (SYS_sbrk, done sys_sbrk);
    (SYS_sleep, sys_sleep); (SYS_uptime, done sys_uptime); (SYS_open, done (sys_open cur));
    (SYS_write, done (sys_write cur)); (SYS_mknod, done (sys_mknod cur)); (SYS_unlink, done (sys_unlink cur));
    (SYS_link, done (sys_link cur)); (SYS_mkdir, done (sys_mkdir cur)); (SYS_close, done (sys_close cur));
    (SYS_walkpt, done sys_walkpt) ].

Fixpoint handler (l : list (Z * M kst turn)) (num : Z) : option (M kst turn) :=
  match l with
  | [] => None
  | (n, h) :: l' => if n =? num then Some h else handler l' num
  end.

(** The result goes to %eax; an unknown number leaves -1 there. *)
Definition syscall : M kst turn :=
  p <- myproc cur;;
  r <- match handler syscalls (s32 (tf_eax (p_tf p))) with
       | Some h => h
       | None => ret (Done (-1))
       end;;
  match r with
  | Done v => pmod (upd_proc cur (fun p => set_tf (set_eax (u32 v) (p_tf p)) p));; ret r
  | Away => ret Away
  end.

(** ** trap.c *)
Definition is_killed : M kst bool := p <- myproc cur;; ret (p_killed p).

Definition exit_if (b : bool) : M kst bool := if b then exit cur c;; ret true else ret false.

(** A trap from the process [cur], which has [tf] on its kernel stack.  The
    result is whether it still has the processor. *)
Definition trap_syscall (tf : trapframe) : M kst bool :=
  k <- is_killed;;
  e <- exit_if k;;
  if e then ret false
  else
    pmod (upd_proc cur (set_tf tf));;
    r <- syscall;;
    match r with
    | Away => ret false
    | Done _ => k <- is_killed;; e <- exit_if k;; ret (negb e)
    end.

(** The switch of trap; [has] is whether the processor runs a process. *)
Definition trap_switch (tf : trapframe) (has : bool) : M kst unit :=
  let n := tf_trapno tf in
  if n =? T_IRQ0 + IRQ_TIMER then
    if (c =? 0)%nat then
      call (modify (fun s => set_ticks (u32 (ticks s + 1)) s));;
      pmod (wakeup (Some (ChAddr ticks_addr)))
    else ret tt
  else if n =? T_IRQ0 + IRQ_IDE then call ideintr
  else if n =? T_IRQ0 + IRQ_IDE + 1 then ret tt
  else if n =? T_IRQ0 + IRQ_KBD then call kbdintr
  else if n =? T_IRQ0 + IRQ_COM1 then call uartintr
  else if (n =? T_IRQ0 + 7) || (n =? T_IRQ0 + IRQ_SPURIOUS) then ret tt
  else if negb has || (Z.land (tf_cs tf) 3 =? 0) then panic "trap"
  else pmod (upd_proc cur (set_killed true)).

Definition in_user (tf : trapframe) : bool := Z.land (tf_cs tf) 3 =? DPL_USER.

(** The end of trap, for a processor that runs [cur]. *)
Definition trap_end (tf : trapframe) : M kst bool :=
  k <- is_killed;;
  e <- exit_if (k && in_user tf);;
  if e then ret false
  else
    p <- myproc cur;;
    if bool_decide (p_state p = RUNNING) && (tf_trapno tf =? T_IRQ0 + IRQ_TIMER)
    then yield cur c;; ret false
    else k <- is_killed;; e <- exit_if (k && in_user tf);; ret (negb e).

Definition trap (tf : trapframe) (has : bool) : M kst bool :=
  if tf_trapno tf =? T_SYSCALL then trap_syscall tf
  else
    trap_switch tf has;;
    if has then trap_end tf else ret true.
End Trap.
