(* ===== verification/SysInv.v ===== *)
(** * File-system calls keep transactions and inode locks balanced

    Every handler of sysfile.c, run on its own, closes the transactions it
    opens and releases the inode locks it takes, whatever path it returns
    through.  [held] is the set of inodes a process has locked. *)

From stdpp Require Import base numbers list gmap sets strings.
From Stdlib Require Import ZArith Lia.
From S2P Require Import Prelude Mmu Mem Kalloc Vm Block Fs Proc File Syscall Exec Sysfile Trap.

Local Open Scope Z_scope.
Local Open Scope kernel_scope.

(** ** The inodes a process has locked *)
Definition locked_at (l : list inode) (i : nat) : bool :=
  match l !! i with Some ip => i_locked ip | None => false end.
Definition held {D} (f : fsst D) : gset nat :=
  list_to_set (List.filter (locked_at (icache f)) (seq 0 (length (icache f)))).

Lemma elem_of_held {D} (f : fsst D) i :
  i ∈ held f <-> exists ip, icache f !! i = Some ip /\ i_locked ip = true.
Proof.
  unfold held. rewrite elem_of_list_to_set, list_elem_of_In, filter_In, in_seq.
  unfold locked_at. split.
  - intros [Hi Hl]. destruct (icache f !! i) as [ip|] eqn:E; [|done]. exists ip. split; [done|by destruct (i_locked ip)].
  - intros (ip & E & Hl). rewrite E, Hl. split; [|done]. split; [lia|].
    by apply lookup_lt_Some in E.
Qed.

Section Keeps.
Context {D : Type} `{DV : Devsw D}.
(** Devices keep inode locks unless a process calls ilock/iunlock through them. *)
Context (HDr : forall mj rd i n f r f', dev_read mj = Some rd -> rd i n f = Ret r f' -> held f' = held f).
Context (HDw : forall mj wr i src f r f', dev_write mj = Some wr -> wr i src f = Ret r f' -> held f' = held f).

#[local] Abbreviation HK := (@held D).

Lemma keep_check_blk dev b : keepsM HK (check_blk dev b).
Proof. unfold check_blk. keeps_tac. Qed.
Lemma keep_bread dev b : keepsM HK (bread dev b).
Proof. unfold bread. keeps_tac; apply keep_check_blk. Qed.
#[local] Hint Resolve keep_bread : keepsdb.
Lemma keep_bupdate dev b d : keepsM HK (bupdate dev b d).
Proof.
  unfold bupdate. apply keepsM_bind; [apply keep_check_blk|intros _].
  apply keepsM_modify. intros s. reflexivity.
Qed.
#[local] Hint Resolve keep_bupdate : keepsdb.
Lemma keep_bzero dev bno : keepsM HK (bzero dev bno).
Proof. unfold bzero. keeps_tac. Qed.
#[local] Hint Resolve keep_bzero : keepsdb.

Lemma keep_balloc_loop k : forall dev b, keepsM HK (balloc_loop k dev b).
Proof.
  induction k as [|k IH]; intros dev b; cbn [balloc_loop]; keeps_tac; auto.
Qed.
Lemma keep_balloc dev : keepsM HK (balloc dev).
Proof. unfold balloc. apply keepsM_bind; [apply keepsM_get|intros s]. apply keep_balloc_loop. Qed.
#[local] Hint Resolve keep_balloc : keepsdb.
Lemma keep_bfree dev b : keepsM HK (bfree dev b).
Proof. unfold bfree. keeps_tac. Qed.
#[local] Hint Resolve keep_bfree : keepsdb.

Lemma keep_inode_at i : keepsM HK (inode_at i).
Proof. unfold inode_at. keeps_tac. Qed.
#[local] Hint Resolve keep_inode_at : keepsdb.


Lemma upd_inode_inv i g (s : fsst D) a s' : upd_inode i g s = Ret a s' ->
  exists ip, icache s !! i = Some ip /\ s' = set_icache (<[i := g ip]> (icache s)) s.
Proof.
  unfold upd_inode, inode_at, bind, get. destruct (icache s !! i) as [ip|]; [|done].
  intros [= _ <-]. by exists ip.
Qed.

(** The locked inodes after one entry of the cache has changed. *)
Lemma held_insert (s : fsst D) i ip x : icache s !! i = Some ip ->
  held (set_icache (<[i := x]> (icache s)) s) =
  if i_locked x then {[i]} ∪ held s else held s ∖ {[i]}.
Proof.
  intros Ei. apply set_eq. intros j. rewrite elem_of_held. simpl.
  assert (Hlt : (i < length (icache s))%nat) by (by eapply lookup_lt_Some).
  destruct (decide (j = i)) as [->|Hne].
  - rewrite list_lookup_insert_eq by done. destruct (i_locked x) eqn:Ex.
    + split; [set_solver|]. intros _. eauto.
    + split; [intros (y & [= <-] & Hy); congruence|set_solver].
  - rewrite list_lookup_insert_ne by done. rewrite <- elem_of_held.
    destruct (i_locked x); set_solver.
Qed.

(** A change to an inode that does not touch [i_locked] keeps the set. *)
Lemma keep_upd_inode i g : (forall ip, i_locked (g ip) = i_locked ip) -> keepsM HK (upd_inode i g).
Proof.
  intros Hg s a s' (ip & Ei & ->)%upd_inode_inv. rewrite (held_insert s i ip) by done. rewrite Hg.
  assert (i ∈ held s <-> i_locked ip = true) as Hi.
  { rewrite elem_of_held. split; [intros (y & Ey & Hy); congruence|eauto]. }
  destruct (i_locked ip); [set_solver|]. apply set_eq. intros j.
  destruct (decide (j = i)) as [->|]; [|set_solver]. assert (i ∉ held s) by (intros ?; naive_solver).
  set_solver.
Qed.
#[local] Hint Extern 1 (keepsM _ (upd_inode _ _)) =>
  (apply keep_upd_inode; intros; reflexivity) : keepsdb.

Lemma keep_iget dev inum : keepsM HK (iget dev inum).
Proof. unfold iget. keeps_tac. Qed.
#[local] Hint Resolve keep_iget : keepsdb.

Lemma keep_ialloc dev type : keepsM HK (ialloc dev type).
Proof.
  unfold ialloc. keeps_step; [keeps_tac|]. intros s. generalize (Z.to_nat (sb_ninodes (sb s)) + 1)%nat 1.
  intros k. induction k as [|k IH]; intros inum; cbn [ialloc_loop]; keeps_tac.
Qed.
#[local] Hint Resolve keep_ialloc : keepsdb.

Lemma keep_iupdate i : keepsM HK (iupdate i).
Proof. unfold iupdate. keeps_tac. Qed.
#[local] Hint Resolve keep_iupdate : keepsdb.

Lemma keep_idup i : keepsM HK (idup i).
Proof. unfold idup. keeps_tac. Qed.
#[local] Hint Resolve keep_idup : keepsdb.

Lemma keep_bmap i bn : keepsM HK (bmap i bn).
Proof. unfold bmap. keeps_tac. Qed.
#[local] Hint Resolve keep_bmap : keepsdb.

Lemma keep_trunc_direct i k : forall j, keepsM HK (trunc_direct k i j).
Proof. induction k as [|k IH]; intros j; cbn [trunc_direct]; keeps_tac. Qed.
Lemma keep_trunc_indirect dev d k : forall j, keepsM HK (trunc_indirect k dev d j).
Proof. induction k as [|k IH]; intros j; cbn [trunc_indirect]; keeps_tac. Qed.
#[local] Hint Resolve keep_trunc_direct keep_trunc_indirect : keepsdb.
Lemma keep_itrunc i : keepsM HK (itrunc i).
Proof. unfold itrunc. keeps_tac. Qed.
#[local] Hint Resolve keep_itrunc : keepsdb.

Lemma keep_stati i : keepsM HK (stati i).
Proof. unfold stati. keeps_tac. Qed.
#[local] Hint Resolve keep_stati : keepsdb.

Lemma keep_readi_loop i n k : forall off tot, keepsM HK (readi_loop k i off tot n).
Proof. induction k as [|k IH]; intros off tot; cbn [readi_loop]; keeps_tac. Qed.
#[local] Hint Resolve keep_readi_loop : keepsdb.
Lemma keep_readi i off n : keepsM HK (readi i off n).
Proof.
  unfold readi. keeps_step; [keeps_tac|]. intros ip. keeps_step; [|keeps_tac].
  keeps_step; [keeps_tac|]. destruct (dev_read (i_major ip)) as [rd|] eqn:E; [|keeps_tac].
  intros f r f'. exact (HDr _ rd i n f r f' E).
Qed.
#[local] Hint Resolve keep_readi : keepsdb.

Lemma keep_writei_loop i n k : forall src off tot, keepsM HK (writei_loop k i src off tot n).
Proof. induction k as [|k IH]; intros src off tot; cbn [writei_loop]; keeps_tac. Qed.
#[local] Hint Resolve keep_writei_loop : keepsdb.
Lemma keep_writei i src off : keepsM HK (writei i src off).
Proof.
  unfold writei. keeps_step; [keeps_tac|]. intros ip. keeps_step; [|keeps_tac].
  keeps_step; [keeps_tac|]. destruct (dev_write (i_major ip)) as [wr|] eqn:E; [|keeps_tac].
  intros f r f'. exact (HDw _ wr i src f r f' E).
Qed.
#[local] Hint Resolve keep_writei : keepsdb.

Lemma keep_dirlookup i name : keepsM HK (dirlookup i name).
Proof.
  unfold dirlookup. keeps_step; [keeps_tac|]. intros ip. keeps_step; [keeps_tac|].
  generalize (Z.to_nat (i_size ip / sizeof_dirent) + 2)%nat 0. intros k.
  induction k as [|k IH]; intros off; cbn [dirlookup_loop]; keeps_tac.
Qed.
#[local] Hint Resolve keep_dirlookup : keepsdb.

(** ** The operations on locks *)
Lemma tr_set_locked h i b :
  tr HK h (upd_inode i (set_locked b)) (fun _ h' => h' = if b then {[i]} ∪ h else h ∖ {[i]}).
Proof.
  intros s a s' <- (ip & Ei & ->)%upd_inode_inv. by rewrite (held_insert s i ip).
Qed.

(** What inode_at finds tells whether the inode is locked. *)
Lemma tr_inode_at h i : tr HK h (inode_at i) (fun ip h' => h' = h /\ (i_locked ip = true <-> i ∈ h)).
Proof.
  intros s a s' <- H. unfold inode_at, bind, get in H.
  destruct (icache s !! i) as [ip|] eqn:Ei; [|done]. injection H as <- <-. split; [done|].
  rewrite elem_of_held. split; [eauto|]. intros (y & Ey & Hy). congruence.
Qed.

Lemma tr_iacquire h i : tr HK h (iacquire i) (fun _ h' => (i ∉ h) /\ h' = {[i]} ∪ h).
Proof.
  apply tr_bind. eapply tr_mono; [apply tr_inode_at|]. intros ip y [-> Hi].
  destruct (i_locked ip); [apply tr_stop; done|].
  eapply tr_mono; [apply tr_set_locked|]. intros _ y ->. split; [|done]. intros Hx. by apply Hi in Hx.
Qed.

Lemma tr_ilock h i : tr HK h (ilock i) (fun _ h' => (i ∉ h) /\ h' = {[i]} ∪ h).
Proof.
  unfold ilock. apply tr_bind, tr_keep; [keeps_tac|]. intros ip.
  destruct (i_ref ip <? 1); [apply tr_stop; done|].
  apply tr_bind. eapply tr_mono; [apply tr_iacquire|]. intros _ y [Hi ->]. tr_tac; done.
Qed.

Lemma tr_iunlock h i : tr HK h (iunlock i) (fun _ h' => i ∈ h /\ h' = h ∖ {[i]}).
Proof.
  unfold iunlock. apply tr_bind. eapply tr_mono; [apply tr_inode_at|]. intros ip y [-> Hi].
  destruct (i_locked ip); cbn [negb orb]; [|apply tr_stop; done].
  destruct (i_ref ip <? 1); [apply tr_stop; done|].
  eapply tr_mono; [apply tr_set_locked|]. intros _ y ->. split; [by apply Hi|done].
Qed.

Lemma tr_iput h i : tr HK h (iput i) (fun _ h' => (i ∉ h) /\ h' = h).
Proof.
  unfold iput. apply tr_bind. eapply tr_mono; [apply tr_iacquire|]. intros _ y [Hi ->].
  apply tr_bind, tr_keep; [keeps_tac|]. intros ip. apply tr_bind, tr_keep; [keeps_tac|]. intros _.
  apply tr_bind. eapply tr_mono; [apply tr_set_locked|]. intros _ y ->.
  apply tr_keep; [keeps_tac|]. intros _. split; [done|set_solver].
Qed.

Lemma tr_iunlockput h i : tr HK h (iunlockput i) (fun _ h' => i ∈ h /\ h' = h ∖ {[i]}).
Proof.
  unfold iunlockput. apply tr_bind. eapply tr_mono; [apply tr_iunlock|]. intros _ y [Hi ->].
  eapply tr_mono; [apply tr_iput|]. intros _ y [_ ->]. done.
Qed.

Lemma keep_iput i : keepsM HK (iput i).
Proof. apply keepsM_tr. intros h. eapply tr_mono; [apply tr_iput|]. by intros _ y [_ ->]. Qed.
#[local] Hint Resolve keep_iput : keepsdb.

Ltac lock_step :=
  match goal with
  | |- tr _ _ (ilock _) _ => eapply tr_mono; [apply tr_ilock|intros _ ? [? ->]]
  | |- tr _ _ (iunlock _) _ => eapply tr_mono; [apply tr_iunlock|intros _ ? [? ->]]
  | |- tr _ _ (iunlockput _) _ => eapply tr_mono; [apply tr_iunlockput|intros _ ? [? ->]]
  | |- tr _ _ (iput _) _ => eapply tr_mono; [apply tr_iput|intros _ ? [? ->]]
  | _ => tr_step
  end.
Ltac lock_tac := repeat lock_step.

Lemma keep_dirlink_loop i k : forall off, keepsM HK (dirlink_loop k i off).
Proof. induction k as [|k IH]; intros off; cbn [dirlink_loop]; keeps_tac. Qed.
#[local] Hint Resolve keep_dirlink_loop : keepsdb.
Lemma keep_dirlink i name inum : keepsM HK (dirlink i name inum).
Proof. unfold dirlink. keeps_tac. Qed.
#[local] Hint Resolve keep_dirlink : keepsdb.

Lemma keep_isdirempty_loop i k : forall off, keepsM HK (isdirempty_loop k i off).
Proof. induction k as [|k IH]; intros off; cbn [isdirempty_loop]; keeps_tac. Qed.
#[local] Hint Resolve keep_isdirempty_loop : keepsdb.
Lemma keep_isdirempty i : keepsM HK (isdirempty i).
Proof. unfold isdirempty. keeps_tac. Qed.
#[local] Hint Resolve keep_isdirempty : keepsdb.

(** A path is resolved with one inode locked at a time, and none at the end. *)
Lemma keep_namex_loop np k : forall i path name, keepsM HK (namex_loop k i path np name).
Proof.
  induction k as [|k IH]; intros i path name; cbn [namex_loop]; [keeps_tac|].
  apply keepsM_tr. intros h. lock_tac; try set_solver.
Qed.
#[local] Hint Resolve keep_namex_loop : keepsdb.
Lemma keep_namei cwd path : keepsM HK (namei cwd path).
Proof. unfold namei, namex. keeps_tac. Qed.
Lemma keep_nameiparent cwd path : keepsM HK (nameiparent cwd path).
Proof. unfold nameiparent, namex. keeps_tac. Qed.
#[local] Hint Resolve keep_namei keep_nameiparent : keepsdb.

(** create and the first half of open return the inode locked, or nothing. *)
Definition gives (h : gset nat) (r : option nat) (h' : gset nat) : Prop :=
  match r with Some i => (i ∉ h) /\ h' = {[i]} ∪ h | None => h' = h end.

Lemma tr_create h cwd path type mj mn : tr HK h (create cwd path type mj mn) (gives h).
Proof. unfold create. lock_tac; cbn [gives]; set_solver. Qed.

Lemma tr_open_inode h cwd path omode : tr HK h (open_inode cwd path omode) (gives h).
Proof.
  unfold open_inode. destruct (negb _); [apply tr_create|]. lock_tac; cbn [gives]; set_solver.
Qed.

(** ** Transactions and locks of the whole kernel *)
Definition open_txns (s : kern D) : Z * gset nat := (outstanding s, held (fsys s)).
Definition sys_txns (s : pst (kern D)) : Z * gset nat := open_txns (env s).

Context {LS : LinkSyms}.
#[local] Abbreviation KK := open_txns.
#[local] Abbreviation PK := sys_txns.

Lemma tr_onfs {A} o h (c : M (fsst D) A) Q :
  tr HK h c (fun a h' => Q a (o, h')) -> tr KK (o, h) (onfs c) Q.
Proof.
  intros Hc s a s' Hs H. unfold onfs, zoom in H. injection Hs as Ho Hh.
  destruct (c (fsys s)) as [b f| | |] eqn:E; try done. injection H as <- <-.
  unfold open_txns. simpl. rewrite Ho. exact (Hc _ _ _ Hh E).
Qed.
Lemma tr_call {A} x (c : M (kern D) A) Q : tr KK x c Q -> tr PK x (call c) Q.
Proof.
  intros Hc s a s' Hs H. unfold call in H. destruct (c (env s)) as [b e| | |] eqn:E; try done.
  injection H as <- <-. exact (Hc _ _ _ Hs E).
Qed.
Lemma keep_onfs {A} (c : M (fsst D) A) : keepsM HK c -> keepsM KK (onfs c).
Proof. intros Hc. apply keepsM_tr. intros [o h]. apply tr_onfs, tr_keep; done. Qed.
Lemma keep_onmem {A} (c : M kstate A) : keepsM KK (onmem c).
Proof. intros s a s' H. unfold onmem, zoom in H. destruct (c (kmem s)); try done. by injection H as <- <-. Qed.
Lemma keep_call {A} (c : M (kern D) A) : keepsM KK c -> keepsM PK (call c).
Proof. intros Hc. apply keepsM_tr. intros x. apply tr_call, tr_keep; done. Qed.
Lemma keep_pmod f : keepsM PK (pmod f).
Proof. apply keepsM_modify. done. Qed.
Lemma keep_proc_at i : keepsM PK (proc_at i).
Proof. unfold proc_at, pget. keeps_tac. Qed.
#[local] Hint Resolve keep_onfs keep_onmem keep_call keep_pmod keep_proc_at : keepsdb.

Lemma tr_begin_op o h : tr KK (o, h) begin_op (fun _ y => y = (o + 1, h)).
Proof. intros s a s' [= <- <-] [= _ <-]. done. Qed.
Lemma tr_end_op o h : tr KK (o, h) end_op (fun _ y => y = (o - 1, h)).
Proof.
  intros s a s' [= <- <-] H. unfold end_op, bind, modify, get, onfs, zoom in H. simpl in H.
  by destruct (outstanding s - 1 =? 0); injection H as _ <-.
Qed.

Ltac sys_step :=
  match goal with
  | |- tr _ _ begin_op _ => eapply tr_mono; [apply tr_begin_op|intros _ ? ->]
  | |- tr _ _ end_op _ => eapply tr_mono; [apply tr_end_op|intros _ ? ->]
  | |- tr _ _ (onfs (ilock _)) _ => apply tr_onfs
  | |- tr _ _ (onfs (iunlock _)) _ => apply tr_onfs
  | |- tr _ _ (onfs (iunlockput _)) _ => apply tr_onfs
  | |- tr _ _ (call (onfs (ilock _))) _ => apply tr_call
  | |- tr _ _ (call (onfs (iunlock _))) _ => apply tr_call
  | |- tr _ _ (call (onfs (iunlockput _))) _ => apply tr_call
  | |- tr _ _ (call begin_op) _ => apply tr_call
  | |- tr _ _ (call end_op) _ => apply tr_call
  | _ => lock_step
  end.
Ltac txn_eq := apply (f_equal2 pair); [lia | set_solver].
Ltac sys_tac := repeat sys_step; try txn_eq.

(** ** file.c *)
Lemma keep_file_at f : keepsM KK (file_at f).
Proof. unfold file_at. keeps_tac. Qed.
#[local] Hint Resolve keep_file_at : keepsdb.
Lemma keep_upd_file f g : keepsM KK (upd_file f g).
Proof. unfold upd_file. keeps_tac. Qed.
#[local] Hint Resolve keep_upd_file : keepsdb.
Lemma keep_uload8 pgdir a : keepsM KK (uload8 pgdir a).
Proof. unfold uload8. keeps_tac. Qed.
#[local] Hint Resolve keep_uload8 : keepsdb.
Lemma keep_uload pgdir n : forall a, keepsM KK (uload pgdir a n).
Proof. induction n as [|n IH]; intros a; cbn [uload]; keeps_tac. Qed.
#[local] Hint Resolve keep_uload : keepsdb.
Lemma keep_ustore pgdir l : forall a, keepsM KK (ustore pgdir a l).
Proof. induction l as [|b l IH]; intros a; cbn [ustore]; unfold ustore8; keeps_tac. Qed.
#[local] Hint Resolve keep_ustore : keepsdb.
Lemma keep_filealloc : keepsM KK filealloc.
Proof. unfold filealloc. keeps_tac. Qed.
Lemma keep_filedup f : keepsM KK (filedup f).
Proof. unfold filedup. keeps_tac. Qed.
Lemma keep_pipe_close p w : keepsM KK (pipe_close p w).
Proof. unfold pipe_close. keeps_tac. Qed.
#[local] Hint Resolve keep_filealloc keep_filedup keep_pipe_close : keepsdb.

Lemma keep_fileclose f : keepsM KK (fileclose f).
Proof. unfold fileclose. apply keepsM_tr. intros [o h]. sys_tac. Qed.
#[local] Hint Resolve keep_fileclose : keepsdb.
Lemma keep_close_opt f : keepsM KK (close_opt f).
Proof. unfold close_opt. keeps_tac. Qed.
#[local] Hint Resolve keep_close_opt : keepsdb.
Lemma keep_pipealloc : keepsM KK pipealloc.
Proof. unfold pipealloc. keeps_tac. Qed.
Lemma keep_filestat f : keepsM KK (filestat f).
Proof. unfold filestat. apply keepsM_tr. intros [o h]. sys_tac. Qed.
#[local] Hint Resolve keep_pipealloc keep_filestat : keepsdb.

Lemma keep_fileread pgdir killed f a n : keepsM KK (fileread pgdir killed f a n).
Proof. unfold fileread, piperead_to. apply keepsM_tr. intros [o h]. sys_tac. Qed.
Lemma keep_filewrite_loop pgdir f ip a n k : forall i, keepsM KK (filewrite_loop pgdir k f ip a i n).
Proof.
  induction k as [|k IH]; intros i; cbn [filewrite_loop]; [keeps_tac|].
  apply keepsM_tr. intros [o h]. sys_tac.
Qed.
#[local] Hint Resolve keep_fileread keep_filewrite_loop : keepsdb.
Lemma keep_filewrite pgdir killed f a n : keepsM KK (filewrite pgdir killed f a n).
Proof. unfold filewrite, pipewrite_from. keeps_tac. Qed.
#[local] Hint Resolve keep_filewrite : keepsdb.

(** ** exec.c *)
Lemma keep_read_struct ip off n : keepsM KK (read_struct ip off n).
Proof. unfold read_struct. keeps_tac. Qed.
#[local] Hint Resolve keep_read_struct : keepsdb.
Lemma keep_loaduvm_loop pgdir a ip off sz k : forall i, keepsM KK (loaduvm_loop k pgdir a ip off i sz).
Proof. induction k as [|k IH]; intros i; cbn [loaduvm_loop]; keeps_tac. Qed.
#[local] Hint Resolve keep_loaduvm_loop : keepsdb.
Lemma keep_load_segments pgdir ip k : forall off sz, keepsM KK (load_segments k pgdir ip off sz).
Proof. induction k as [|k IH]; intros off sz; cbn [load_segments]; unfold loaduvm; keeps_tac. Qed.
#[local] Hint Resolve keep_load_segments : keepsdb.
Lemma keep_push_args pgdir argv : forall argc sp, keepsM KK (push_args pgdir argc sp argv).
Proof. induction argv as [|a argv IH]; intros argc sp; cbn [push_args]; keeps_tac. Qed.
#[local] Hint Resolve keep_push_args : keepsdb.
Lemma keep_build_stack pgdir sz entry argv : keepsM KK (build_stack pgdir sz entry argv).
Proof. unfold build_stack. keeps_tac. Qed.
Lemma keep_free_pgdir pgdir : keepsM KK (free_pgdir pgdir).
Proof. unfold free_pgdir. keeps_tac. Qed.
#[local] Hint Resolve keep_build_stack keep_free_pgdir : keepsdb.
Lemma keep_exec_load cwd path argv : keepsM KK (exec_load cwd path argv).
Proof. unfold exec_load, bad_ip, bad. apply keepsM_tr. intros [o h]. sys_tac. Qed.
#[local] Hint Resolve keep_exec_load : keepsdb.
Lemma keep_exec cur path argv : keepsM PK (exec cur path argv).
Proof. unfold exec, switchuvm_checks. keeps_tac. Qed.
#[local] Hint Resolve keep_exec : keepsdb.

(** ** syscall.c and sysfile.c *)
Section Handlers.
Context (cur : nat).

Lemma keep_myproc : keepsM PK (myproc cur).
Proof. unfold myproc. keeps_tac. Qed.
#[local] Hint Resolve keep_myproc : keepsdb.
Lemma keep_fetchint a : keepsM PK (fetchint cur a).
Proof. unfold fetchint. keeps_tac. Qed.
#[local] Hint Resolve keep_fetchint : keepsdb.
Lemma keep_fetchstr_loop pgdir ep k : forall a, keepsM PK (fetchstr_loop k pgdir a ep).
Proof. induction k as [|k IH]; intros a; cbn [fetchstr_loop]; keeps_tac. Qed.
#[local] Hint Resolve keep_fetchstr_loop : keepsdb.
Lemma keep_fetchstr a : keepsM PK (fetchstr cur a).
Proof. unfold fetchstr. keeps_tac. Qed.
#[local] Hint Resolve keep_fetchstr : keepsdb.
Lemma keep_argint n : keepsM PK (argint cur n).
Proof. unfold argint. keeps_tac. Qed.
#[local] Hint Resolve keep_argint : keepsdb.
Lemma keep_argptr n size : keepsM PK (argptr cur n size).
Proof. unfold argptr. keeps_tac. Qed.
Lemma keep_argstr n : keepsM PK (argstr cur n).
Proof. unfold argstr. keeps_tac. Qed.
Lemma keep_argfd n : keepsM PK (argfd cur n).
Proof. unfold argfd. keeps_tac. Qed.
Lemma keep_fdalloc f : keepsM PK (fdalloc cur f).
Proof. unfold fdalloc. keeps_tac. Qed.
Lemma keep_mycwd : keepsM PK (mycwd cur).
Proof. unfold mycwd. keeps_tac. Qed.
#[local] Hint Resolve keep_argptr keep_argstr keep_argfd keep_fdalloc keep_mycwd : keepsdb.
Lemma keep_arg_io : keepsM PK (arg_io cur).
Proof. unfold arg_io. keeps_tac. Qed.
#[local] Hint Resolve keep_arg_io : keepsdb.
Lemma keep_fetch_argv uargv k : forall i, keepsM PK (fetch_argv cur k uargv i).
Proof. induction k as [|k IH]; intros i; cbn [fetch_argv]; keeps_tac. Qed.
#[local] Hint Resolve keep_fetch_argv : keepsdb.

Lemma keep_sys_dup : keepsM PK (sys_dup cur).
Proof. unfold sys_dup. keeps_tac. Qed.
Lemma keep_sys_read : keepsM PK (sys_read cur).
Proof. unfold sys_read. keeps_tac. Qed.
Lemma keep_sys_write : keepsM PK (sys_write cur).
Proof. unfold sys_write. keeps_tac. Qed.
Lemma keep_sys_close : keepsM PK (sys_close cur).
Proof. unfold sys_close. keeps_tac. Qed.
Lemma keep_sys_fstat : keepsM PK (sys_fstat cur).
Proof. unfold sys_fstat. keeps_tac. Qed.
Lemma keep_sys_exec : keepsM PK (sys_exec cur).
Proof. unfold sys_exec. keeps_tac. Qed.
Lemma keep_sys_pipe : keepsM PK (sys_pipe cur).
Proof. unfold sys_pipe. keeps_tac. Qed.
Lemma keep_sys_link : keepsM PK (sys_link cur).
Proof. unfold sys_link, link_bad, inode_of. apply keepsM_tr. intros [o h]. sys_tac. Qed.
Lemma keep_sys_unlink : keepsM PK (sys_unlink cur).
Proof. unfold sys_unlink, unlink_bad, inode_of. apply keepsM_tr. intros [o h]. sys_tac. Qed.
Lemma keep_sys_chdir : keepsM PK (sys_chdir cur).
Proof. unfold sys_chdir, inode_of. apply keepsM_tr. intros [o h]. sys_tac. Qed.

(** create and open_inode leave their inode to the caller. *)
Lemma tr_call_gives o h c Q : tr HK h c (gives h) ->
  (forall r h', gives h r h' -> Q r (o, h')) -> tr PK (o, h) (call (onfs c)) Q.
Proof. intros Hc HQ. apply tr_call, tr_onfs. eapply tr_mono; [exact Hc|]. intros r h'. apply HQ. Qed.

Lemma tr_finish o h r h' : gives h r h' ->
  tr PK (o + 1, h') (finish_create r) (fun _ y => y = (o, h)).
Proof. unfold finish_create, gives. intros Hg. destruct r; [destruct Hg as [? ->]|subst h']; sys_tac. Qed.

Lemma keep_sys_mkdir : keepsM PK (sys_mkdir cur).
Proof.
  unfold sys_mkdir. apply keepsM_tr. intros [o h]. repeat sys_step.
  - apply (tr_call_gives _ _ _ _ (tr_create h _ _ _ _ _)). intros r h'. apply tr_finish.
  - by apply tr_finish.
Qed.
Lemma keep_sys_mknod : keepsM PK (sys_mknod cur).
Proof.
  unfold sys_mknod. apply keepsM_tr. intros [o h].
  repeat match goal with |- tr _ _ (finish_create _) _ => fail 1 | _ => sys_step end;
    try (by apply tr_finish).
  apply (tr_call_gives _ _ _ _ (tr_create h _ _ _ _ _)). intros r h'. apply tr_finish.
Qed.
Lemma keep_sys_open : keepsM PK (sys_open cur).
Proof.
  unfold sys_open. apply keepsM_tr. intros [o h].
  repeat match goal with
  | |- tr _ _ (call (onfs (open_inode _ _ _))) _ =>
      eapply tr_call_gives; [apply tr_open_inode|intros [ip|] h' Hg; [destruct Hg as [? ->]|cbn in Hg; subst h']]
  | _ => sys_step
  end; txn_eq.
Qed.
#[local] Hint Resolve keep_sys_dup keep_sys_read keep_sys_write keep_sys_close keep_sys_fstat
  keep_sys_exec keep_sys_pipe keep_sys_link keep_sys_unlink keep_sys_chdir keep_sys_mkdir
  keep_sys_mknod keep_sys_open : keepsdb.

(** ** Process management on this kernel *)
Context (initcode : list Z) (forkret ticks_addr : Z) (cpu : nat).
#[local] Instance this_kernel : ProcEnv (kern D) := kernel_env initcode.

Lemma keep_e_iput i : keepsM KK (e_iput i).
Proof. apply keepsM_tr. intros [o h]. cbn [e_iput this_kernel kernel_env]. sys_tac. Qed.
#[local] Hint Resolve keep_e_iput : keepsdb.
Ltac env_tac := cbn [e_kalloc e_kfree e_setupkvm e_copyuvm e_freevm e_allocuvm e_deallocuvm
  e_filedup e_fileclose e_idup this_kernel kernel_env]; repeat first [keeps_step | apply keep_call].

Lemma keep_allocproc : keepsM PK (allocproc forkret).
Proof. unfold allocproc, pget. env_tac. Qed.
#[local] Hint Resolve keep_allocproc : keepsdb.
Lemma keep_dup_files l : keepsM PK (dup_files l).
Proof. induction l as [|[f|] l IH]; cbn [dup_files]; env_tac. Qed.
#[local] Hint Resolve keep_dup_files : keepsdb.
Lemma keep_fork : keepsM PK (fork forkret cur).
Proof. unfold fork. env_tac. Qed.
Lemma keep_close_files n : forall fd, keepsM PK (close_files cur n fd).
Proof. induction n as [|n IH]; intros fd; cbn [close_files]; env_tac. Qed.
Lemma keep_sched : keepsM PK (sched cur cpu).
Proof. unfold sched. env_tac. Qed.
#[local] Hint Resolve keep_fork keep_close_files keep_sched : keepsdb.
Lemma keep_exit : keepsM PK (exit cur cpu).
Proof. unfold exit, pget. env_tac. Qed.
Lemma keep_wait : keepsM PK (wait cur cpu).
Proof. unfold wait, pget. env_tac. Qed.
Lemma keep_growproc n : keepsM PK (growproc cur n).
Proof. unfold growproc. env_tac. Qed.
#[local] Hint Resolve keep_exit keep_wait keep_growproc : keepsdb.

Lemma handler_elem (l : list (Z * M (pst (kern D)) turn)) num h : handler l num = Some h -> h ∈ l.*2.
Proof.
  induction l as [|[n g] l IH]; [done|]. cbn [handler]. destruct (n =? num); [intros [= ->]; left|].
  intros H. right. by apply IH.
Qed.

Lemma keep_handlers h : h ∈ (syscalls initcode forkret ticks_addr cur cpu).*2 -> keepsM PK h.
Proof.
  intros Hh. cbn [syscalls fmap list_fmap snd] in Hh. rewrite !elem_of_cons, elem_of_nil in Hh.
  unfold done, sys_fork, sys_exit, sys_wait, sys_kill, sys_getpid, sys_sbrk, sys_sleep, sleep_turn, sleep,
    sys_uptime, sys_walkpt, pget in Hh.
  destruct_or! Hh; subst h; env_tac.
Qed.

Lemma keep_syscall : keepsM PK (syscall initcode forkret ticks_addr cur cpu).
Proof.
  unfold syscall. keeps_step; [keeps_tac|]. intros p. keeps_step; [|keeps_tac].
  destruct (handler _ _) as [h|] eqn:E; [|keeps_tac].
  apply handler_elem in E. by apply keep_handlers.
Qed.
End Handlers.
End Keeps.

(** C9.  Whatever system call a process makes, and whatever path its handler
    returns through (bad arguments, a missing file, a full table, success, the
    process gone to sleep or dead), it has ended every transaction it began and
    released every inode it locked: the number of open transactions and the set of
    locked inodes are what they were. *)
Theorem syscall_balanced {D : Type} `{DV : Devsw D} {LS : LinkSyms}
  (HDr : forall mj rd i n f r f', dev_read mj = Some rd -> rd i n f = Ret r f' -> held f' = held f)
  (HDw : forall mj wr i src f r f', dev_write mj = Some wr -> wr i src f = Ret r f' -> held f' = held f)
  initcode forkret ticks_addr cur cpu (s s' : pst (kern D)) r
  (Hrun : syscall initcode forkret ticks_addr cur cpu s = Ret r s') :
  outstanding (env s') = outstanding (env s) /\ held (fsys (env s')) = held (fsys (env s)).
Proof.
  pose proof (keep_syscall HDr HDw cur initcode forkret ticks_addr cpu s r s' Hrun) as H.
  by injection H as H1 H2.
Qed.

(** unlink of a file that is not there, in an empty root directory. *)
Definition root_dir : inode := mkInode 1 1 1 false true T_DIR 0 0 1 0 (replicate 13 0).
Definition unlink_proc : proc := set_cwd (Some 0%nat) (set_tf (set_eax SYS_unlink tf0) demo_proc).
Definition unlink_pst : pst (kern unit) :=
  mkPst (mkPtab [unlink_proc] [Some 0%nat] (Some 0%nat) 2)
    (set_fsys (mkFs ∅ 0 [] (mkSuperblock 0 0 0 0 0 0 0) [root_dir] tt) demo_kern).
#[local] Instance no_devs : Devsw unit := { dev_read _ := None; dev_write _ := None }.
#[local] Instance demo_syms : LinkSyms := { sym_end := KERNLINK + 8192; sym_data := KERNLINK + 4096 }.

Definition unlinked : pst (kern unit) :=
  match syscall [] 0 0 0 0 unlink_pst with Ret _ s' => s' | _ => unlink_pst end.

Lemma no_devs_read mj (rd : nat -> Z -> M (fsst unit) (option (list Z))) i n f r f' :
  dev_read mj = Some rd -> rd i n f = Ret r f' -> held f' = held f.
Proof. done. Qed.
Lemma no_devs_write mj (wr : nat -> list Z -> M (fsst unit) (option Z)) i src f r f' :
  dev_write mj = Some wr -> wr i src f = Ret r f' -> held f' = held f.
Proof. done. Qed.

Lemma unlink_run : syscall [] 0 0 0 0 unlink_pst = Ret (Done (-1)) unlinked.
Proof. vm_compute. reflexivity. Qed.

Lemma syscall_balanced_witness :
  outstanding (env unlinked) = outstanding (env unlink_pst) /\
  held (fsys (env unlinked)) = held (fsys (env unlink_pst)).
Proof.
  exact (syscall_balanced no_devs_read no_devs_write [] 0 0 0 0 unlink_pst unlinked (Done (-1)) unlink_run).
Defined.
