(* ===== verification/SysRefs.v ===== *)
(** * System calls keep the reference counts of open files right

    The count of a struct file is the number of descriptors that name it, those of
    the calling process and those of the others.  [owed] is the count less the
    caller's own descriptors; no handler of sysfile.c changes it. *)

From stdpp Require Import base numbers list gmap strings.
From Stdlib Require Import ZArith Lia.
From S2P Require Import Prelude Mmu Mem Kalloc Vm Block Pipe Fs Proc File Syscall Exec Sysfile.

Local Open Scope Z_scope.
Local Open Scope kernel_scope.

(** The descriptors of [o] that name [f]. *)
Fixpoint fd_count (f : nat) (o : list (option nat)) : Z :=
  match o with
  | [] => 0
  | x :: o' => (if bool_decide (x = Some f) then 1 else 0) + fd_count f o'
  end.

Lemma fd_count_insert f o : forall fd x y, o !! fd = Some x ->
  fd_count f (<[fd := y]> o) =
  fd_count f o - (if bool_decide (x = Some f) then 1 else 0) + (if bool_decide (y = Some f) then 1 else 0).
Proof.
  induction o as [|z o IH]; intros [|fd] x y H; simpl in *; simplify_eq; [lia|].
  rewrite (IH fd x y H). lia.
Qed.

Definition owed_of (x : list (option nat) * list Z) (f : nat) : Z := default 0 (x.2 !! f) - fd_count f x.1.

Lemma owed_ref o (l : list Z) g v w f : l !! g = Some v ->
  owed_of (o, <[g := w]> l) f = owed_of (o, l) f + (if bool_decide (f = g) then w - v else 0).
Proof.
  intros Hg. unfold owed_of. simpl. case_bool_decide as E.
  - subst g. rewrite list_lookup_insert_eq, Hg by (by eapply lookup_lt_Some). simpl. lia.
  - rewrite list_lookup_insert_ne by done. lia.
Qed.

Lemma owed_fd o (l : list Z) fd x y f : o !! fd = Some x ->
  owed_of (<[fd := y]> o, l) f =
  owed_of (o, l) f + (if bool_decide (x = Some f) then 1 else 0) - (if bool_decide (y = Some f) then 1 else 0).
Proof. intros Hx. unfold owed_of. simpl. rewrite (fd_count_insert f o fd x y Hx). lia. Qed.

Section Refs.
Context {D : Type} `{DV : Devsw D} {LS : LinkSyms}.

(** ** The counts *)
Definition refs (s : kern D) : list Z := f_ref <$> ftable s.

Lemma kr_onfs {A} (c : M (fsst D) A) : keepsM refs (onfs c).
Proof. intros s a s' H. unfold onfs, zoom in H. destruct (c (fsys s)); try done. by injection H as <- <-. Qed.
Lemma kr_onmem {A} (c : M kstate A) : keepsM refs (onmem c).
Proof. intros s a s' H. unfold onmem, zoom in H. destruct (c (kmem s)); try done. by injection H as <- <-. Qed.
Lemma kr_file_at f : keepsM refs (file_at f).
Proof. unfold file_at. keeps_tac. Qed.
Lemma kr_begin_op : keepsM refs begin_op.
Proof. unfold begin_op. keeps_tac. Qed.
#[local] Hint Resolve kr_onfs kr_onmem kr_file_at kr_begin_op : keepsdb.
Lemma kr_end_op : keepsM refs end_op.
Proof. unfold end_op. keeps_tac. Qed.
#[local] Hint Resolve kr_end_op : keepsdb.

Lemma upd_file_inv f g (s : kern D) a s' : upd_file f g s = Ret a s' ->
  exists x, ftable s !! f = Some x /\ s' = set_ftable (<[f := g x]> (ftable s)) s.
Proof.
  unfold upd_file, file_at, bind, get. destruct (ftable s !! f) as [x|]; [|done].
  intros [= _ <-]. by exists x.
Qed.

Lemma tr_upd_file l f g : tr refs l (upd_file f g)
  (fun _ l' => exists x, l !! f = Some (f_ref x) /\ l' = <[f := f_ref (g x)]> l).
Proof.
  intros s a s' <- (x & Hx & ->)%upd_file_inv. exists x. unfold refs. simpl.
  rewrite list_lookup_fmap, Hx, list_fmap_insert. done.
Qed.
Lemma kr_upd_file f g : (forall x, f_ref (g x) = f_ref x) -> keepsM refs (upd_file f g).
Proof.
  intros Hg. apply keepsM_tr. intros l. eapply tr_mono; [apply tr_upd_file|].
  intros _ y (x & Hx & ->). rewrite Hg. by apply list_insert_id.
Qed.
#[local] Hint Extern 1 (keepsM _ (upd_file _ _)) => (apply kr_upd_file; intros; reflexivity) : keepsdb.

Lemma tr_file_at l f : tr refs l (file_at f) (fun x l' => l' = l /\ l !! f = Some (f_ref x)).
Proof.
  intros s a s' <- H. unfold file_at, bind, get in H. destruct (ftable s !! f) as [x|] eqn:E; [|done].
  injection H as <- <-. split; [done|]. unfold refs. by rewrite list_lookup_fmap, E.
Qed.

Lemma first_free_ref (t : list file) i n : first_free t i = Some n ->
  (i <= n)%nat /\ exists x, t !! (n - i)%nat = Some x /\ f_ref x = 0.
Proof.
  revert i. induction t as [|f t IH]; intros i H; [done|]. cbn [first_free] in H.
  destruct (Z.eqb_spec (f_ref f) 0); [injection H as <-; split; [lia|]; rewrite Nat.sub_diag; by exists f|].
  destruct (IH (S i) H) as (Hle & x & Hx & H0). split; [lia|]. exists x.
  replace (n - i)%nat with (S (n - S i)) by lia. done.
Qed.

Lemma tr_filealloc l : tr refs l filealloc
  (fun r l' => match r with Some f => l !! f = Some 0 /\ l' = <[f := 1]> l | None => l' = l end).
Proof.
  intros s a s' <- H. unfold filealloc in H. rewrite bind_get in H.
  destruct (first_free (ftable s) 0) as [f|] eqn:E; [|by injection H as <- <-].
  apply first_free_ref in E as (_ & x & Hx & H0). rewrite Nat.sub_0_r in Hx.
  unfold bind in H. destruct (upd_file f (set_fref 1) s) as [u s1| | |] eqn:E1; try done. injection H as <- <-.
  apply upd_file_inv in E1 as (y & Hy & ->). unfold refs. simpl.
  rewrite list_lookup_fmap, Hx, list_fmap_insert. simpl. rewrite H0. done.
Qed.

Lemma tr_filedup l f : tr refs l (filedup f)
  (fun _ l' => exists v, l !! f = Some v /\ 1 <= v /\ l' = <[f := s32 (v + 1)]> l).
Proof.
  unfold filedup. apply tr_bind. eapply tr_mono; [apply tr_file_at|]. intros x y [-> Hx].
  destruct (Z.ltb_spec (f_ref x) 1); [apply tr_stop; done|]. apply tr_bind.
  eapply tr_mono; [apply tr_upd_file|]. intros _ y (z & Hz & ->). apply tr_ret. exists (f_ref x).
  split_and!; [done|lia|]. cbn [f_ref set_fref]. congruence.
Qed.

Lemma kr_pipe_close p w : keepsM refs (pipe_close p w).
Proof. unfold pipe_close. keeps_tac. Qed.
#[local] Hint Resolve kr_pipe_close : keepsdb.

Lemma tr_fileclose l f : tr refs l (fileclose f)
  (fun _ l' => exists v, l !! f = Some v /\ 1 <= v /\ l' = <[f := v - 1]> l).
Proof.
  unfold fileclose. apply tr_bind. eapply tr_mono; [apply tr_file_at|]. intros x y [-> Hx].
  destruct (Z.ltb_spec (f_ref x) 1); [apply tr_stop; done|]. apply tr_bind.
  eapply tr_mono; [apply tr_upd_file|]. intros _ y (z & Hz & ->). cbn [f_ref set_fref].
  destruct (Z.gtb_spec (f_ref x - 1) 0); [apply tr_ret; eauto|].
  apply tr_bind, tr_keep; [keeps_tac|]. intros ff. apply tr_bind.
  eapply tr_mono; [apply tr_upd_file|]. intros _ y (w & Hw & ->). cbn [f_ref set_fref set_ftype].
  rewrite list_insert_insert_eq. apply tr_keep; [keeps_tac|]. intros _. exists (f_ref x).
  split_and!; [done|lia|]. f_equal. lia.
Qed.

Lemma tr_close_opt l f : tr refs l (close_opt f)
  (fun _ l' => match f with
               | Some i => exists v, l !! i = Some v /\ 1 <= v /\ l' = <[i := v - 1]> l
               | None => l' = l
               end).
Proof. unfold close_opt. destruct f; [apply tr_fileclose|by apply tr_ret]. Qed.

(** Closing a file that filealloc has just given gives it back. *)
Lemma insert_back (l : list Z) i v : l !! i = Some 0 -> <[i := 1]> l !! i = Some v -> <[i := v - 1]> (<[i := 1]> l) = l.
Proof.
  intros H0 Hv. rewrite list_lookup_insert_eq in Hv by (by eapply lookup_lt_Some). injection Hv as <-.
  rewrite list_insert_insert_eq. by apply list_insert_id.
Qed.

Lemma tr_pipealloc l : tr refs l pipealloc
  (fun r l' => match r with
               | Some (a, b) => a <> b /\ l !! a = Some 0 /\ l !! b = Some 0 /\ l' = <[b := 1]> (<[a := 1]> l)
               | None => l' = l
               end).
Proof.
  unfold pipealloc. apply tr_bind. eapply tr_mono; [apply tr_filealloc|]. intros [a|] y Ha; cbn beta iota.
  2: { subst y. by do 5 (apply tr_bind, tr_ret); apply tr_ret. }
  destruct Ha as [Ha ->]. apply tr_bind. eapply tr_mono; [apply tr_filealloc|]. intros [b|] y Hb; cbn beta iota.
  2: { subst y. do 2 (apply tr_bind, tr_ret). apply tr_bind. eapply tr_mono; [apply tr_close_opt|]. intros _ y (v & Hv & _ & ->).
       apply tr_bind, tr_ret, tr_ret. by apply insert_back. }
  destruct Hb as [Hb ->]. assert (Hne : a <> b).
  { intros ->. rewrite list_lookup_insert_eq in Hb by (by eapply lookup_lt_Some). done. }
  assert (Hb' := Hb). rewrite list_lookup_insert_ne in Hb' by done.
  apply tr_bind, tr_keep; [keeps_tac|]. intros p. destruct (negb (p =? 0)).
  - apply tr_bind, tr_keep; [keeps_tac|]. intros _. apply tr_bind, tr_keep; [keeps_tac|]. intros _.
    apply tr_bind, tr_keep; [keeps_tac|]. intros _. by apply tr_ret.
  - apply tr_bind, tr_ret, tr_bind. eapply tr_mono; [apply tr_close_opt|]. intros _ y (v & Hv & _ & ->).
    apply tr_bind. eapply tr_mono; [apply tr_close_opt|]. intros _ y (w & Hw & _ & ->). apply tr_ret.
    rewrite list_lookup_insert_ne in Hv, Hw by done.
    rewrite list_lookup_insert_eq in Hw by (rewrite length_insert; by eapply lookup_lt_Some). injection Hw as <-.
    rewrite (list_insert_insert_ne _ a b) by done. rewrite (insert_back l a v) by done.
    rewrite list_insert_insert_eq. by apply list_insert_id.
Qed.

Lemma kr_uload pgdir n : forall a, keepsM refs (uload pgdir a n).
Proof. induction n as [|n IH]; intros a; cbn [uload]; unfold uload8; keeps_tac. Qed.
Lemma kr_uload8 pgdir a : keepsM refs (uload8 pgdir a).
Proof. unfold uload8. keeps_tac. Qed.
Lemma kr_ustore pgdir l : forall a, keepsM refs (ustore pgdir a l).
Proof. induction l as [|b l IH]; intros a; cbn [ustore]; unfold ustore8; keeps_tac. Qed.
#[local] Hint Resolve kr_uload kr_uload8 kr_ustore : keepsdb.
Lemma kr_fileread pgdir killed f a n : keepsM refs (fileread pgdir killed f a n).
Proof. unfold fileread, piperead_to. keeps_tac. Qed.
Lemma kr_filewrite_loop pgdir f ip a n k : forall i, keepsM refs (filewrite_loop pgdir k f ip a i n).
Proof. induction k as [|k IH]; intros i; cbn [filewrite_loop]; keeps_tac. Qed.
#[local] Hint Resolve kr_fileread kr_filewrite_loop : keepsdb.
Lemma kr_filewrite pgdir killed f a n : keepsM refs (filewrite pgdir killed f a n).
Proof. unfold filewrite, pipewrite_from. keeps_tac. Qed.
Lemma kr_filestat f : keepsM refs (filestat f).
Proof. unfold filestat. keeps_tac. Qed.
#[local] Hint Resolve kr_filewrite kr_filestat : keepsdb.

Lemma kr_loaduvm_loop pgdir a ip off sz k : forall i, keepsM refs (loaduvm_loop k pgdir a ip off i sz).
Proof. induction k as [|k IH]; intros i; cbn [loaduvm_loop]; keeps_tac. Qed.
#[local] Hint Resolve kr_loaduvm_loop : keepsdb.
Lemma kr_load_segments pgdir ip k : forall off sz, keepsM refs (load_segments k pgdir ip off sz).
Proof. induction k as [|k IH]; intros off sz; cbn [load_segments]; unfold read_struct, loaduvm; keeps_tac. Qed.
Lemma kr_push_args pgdir argv : forall argc sp, keepsM refs (push_args pgdir argc sp argv).
Proof. induction argv as [|a argv IH]; intros argc sp; cbn [push_args]; keeps_tac. Qed.
#[local] Hint Resolve kr_load_segments kr_push_args : keepsdb.
Lemma kr_exec_load cwd path argv : keepsM refs (exec_load cwd path argv).
Proof. unfold exec_load, build_stack, bad_ip, bad, free_pgdir, read_struct. keeps_tac. Qed.
#[local] Hint Resolve kr_exec_load : keepsdb.

(** ** The counts and the descriptors of the caller *)
Section Caller.
Context (cur : nat).

Definition fds (s : pst (kern D)) : list (option nat) * list Z :=
  (match ptable (tab s) !! cur with Some p => p_ofile p | None => [] end, refs (env s)).

Lemma tr_call_refs {A} o l (c : M (kern D) A) Q :
  tr refs l c (fun a l' => Q a (o, l')) -> tr fds (o, l) (call c) Q.
Proof.
  intros Hc s a s' Hs H. injection Hs as Ho Hl. unfold call in H.
  destruct (c (env s)) as [b e| | |] eqn:E; try done. injection H as <- <-.
  unfold fds. simpl. rewrite Ho. exact (Hc _ _ _ Hl E).
Qed.
Lemma kr_call {A} (c : M (kern D) A) : keepsM refs c -> keepsM fds (call c).
Proof. intros Hc. apply keepsM_tr. intros [o l]. apply tr_call_refs, tr_keep; done. Qed.
Lemma kr_pmod g : (forall p, p_ofile (g p) = p_ofile p) -> keepsM fds (pmod (upd_proc cur g)).
Proof.
  intros Hg. apply keepsM_modify. intros s. unfold fds. simpl. rewrite list_lookup_alter_eq.
  by destruct (ptable (tab s) !! cur) as [p|]; simpl; rewrite ?Hg.
Qed.
Lemma kr_proc_at i : keepsM fds (proc_at i).
Proof. unfold proc_at, pget. keeps_tac. Qed.
#[local] Hint Resolve kr_call kr_proc_at : keepsdb.
#[local] Hint Extern 1 (keepsM _ (pmod _)) => (apply kr_pmod; intros; reflexivity) : keepsdb.

Lemma tr_myproc x : tr fds x (myproc cur) (fun p y => y = x /\ x.1 = p_ofile p).
Proof.
  intros s p s' <- H. unfold myproc, proc_at, pget in H. rewrite bind_gets in H. unfold fds.
  destruct (ptable (tab s) !! cur) as [q|] eqn:E; [|done]. injection H as <- <-. by rewrite E.
Qed.
Lemma kr_myproc : keepsM fds (myproc cur).
Proof. apply kr_proc_at. Qed.
#[local] Hint Resolve kr_myproc : keepsdb.

Lemma kr_fetchstr_loop pgdir ep k : forall a, keepsM fds (fetchstr_loop k pgdir a ep).
Proof. induction k as [|k IH]; intros a; cbn [fetchstr_loop]; keeps_tac. Qed.
#[local] Hint Resolve kr_fetchstr_loop : keepsdb.
Lemma kr_fetchint a : keepsM fds (fetchint cur a).
Proof. unfold fetchint. keeps_tac. Qed.
Lemma kr_fetchstr a : keepsM fds (fetchstr cur a).
Proof. unfold fetchstr. keeps_tac. Qed.
#[local] Hint Resolve kr_fetchint kr_fetchstr : keepsdb.
Lemma kr_argint n : keepsM fds (argint cur n).
Proof. unfold argint. keeps_tac. Qed.
#[local] Hint Resolve kr_argint : keepsdb.
Lemma kr_argptr n size : keepsM fds (argptr cur n size).
Proof. unfold argptr. keeps_tac. Qed.
Lemma kr_argstr n : keepsM fds (argstr cur n).
Proof. unfold argstr. keeps_tac. Qed.
Lemma kr_mycwd : keepsM fds (mycwd cur).
Proof. unfold mycwd. keeps_tac. Qed.
Lemma kr_fetch_argv uargv k : forall i, keepsM fds (fetch_argv cur k uargv i).
Proof. induction k as [|k IH]; intros i; cbn [fetch_argv]; keeps_tac. Qed.
Lemma kr_argfd n : keepsM fds (argfd cur n).
Proof. unfold argfd. keeps_tac. Qed.
#[local] Hint Resolve kr_argptr kr_argstr kr_mycwd kr_fetch_argv kr_argfd : keepsdb.
Lemma kr_arg_io : keepsM fds (arg_io cur).
Proof. unfold arg_io. keeps_tac. Qed.
Lemma kr_exec path argv : keepsM fds (exec cur path argv).
Proof. unfold exec, switchuvm_checks. keeps_tac. Qed.
#[local] Hint Resolve kr_arg_io kr_exec : keepsdb.

(** ** What the descriptor operations do *)
Lemma tr_argfd x n : tr fds x (argfd cur n) (fun r y => y = x /\
  match r with Some (fd, f) => x.1 !! Z.to_nat fd = Some (Some f) | None => True end).
Proof.
  unfold argfd. apply tr_bind, tr_keep; [keeps_tac|]. intros [fd|]; [|by apply tr_ret].
  destruct (_ || _); [by apply tr_ret|]. apply tr_bind. eapply tr_mono; [apply tr_myproc|].
  intros p y [-> Hp]. rewrite Hp. destruct (p_ofile p !! Z.to_nat fd) as [[f|]|] eqn:E; [| |apply tr_stop; done];
    by apply tr_ret.
Qed.

Lemma first_fd_none o i n : first_fd o i = Some n -> (i <= n)%nat /\ o !! (n - i)%nat = Some None.
Proof.
  revert i. induction o as [|[f|] o IH]; intros i H; simpl in H; [done| |].
  - destruct (IH (S i) H) as [Hle Hn]. split; [lia|]. by replace (n - i)%nat with (S (n - S i)) by lia.
  - injection H as <-. by rewrite Nat.sub_diag.
Qed.

Lemma tr_set_fd o l fd f : tr fds (o, l) (pmod (upd_proc cur (set_fd fd f))) (fun _ y => y = (<[fd := f]> o, l)).
Proof.
  intros s a s' Hs H. injection Hs as Ho Hl. injection H as _ <-. unfold fds. simpl.
  rewrite list_lookup_alter_eq, Hl. rewrite <- Ho.
  destruct (ptable (tab s) !! cur) as [p|]; done.
Qed.

Lemma tr_fdalloc o l f : tr fds (o, l) (fdalloc cur f) (fun r y =>
  match r with Some fd => o !! fd = Some None /\ y = (<[fd := Some f]> o, l) | None => y = (o, l) end).
Proof.
  unfold fdalloc. apply tr_bind. eapply tr_mono; [apply tr_myproc|]. intros p y [-> Hp]. simpl in Hp. rewrite <- Hp.
  destruct (first_fd o 0) as [fd|] eqn:E; [|by apply tr_ret].
  apply first_fd_none in E as [_ E]. rewrite Nat.sub_0_r in E. apply tr_bind.
  eapply tr_mono; [apply tr_set_fd|]. intros _ y ->. by apply tr_ret.
Qed.

(** ** The handlers *)
Definition same_owed (x y : list (option nat) * list Z) : Prop := forall f, owed_of y f = owed_of x f.

Lemma owed_sys_dup x : Forall (fun v => v < 2147483647) x.2 -> tr fds x (sys_dup cur) (fun _ y => same_owed x y).
Proof.
  destruct x as [o l]. intros Hl. unfold sys_dup. apply tr_bind, tr_keep; [keeps_tac|].
  intros [[fd f]|]; [|by apply tr_ret]. apply tr_bind. eapply tr_mono; [apply tr_fdalloc|].
  intros [n|] y; [intros [Hn ->]|intros ->; by apply tr_ret]. apply tr_bind, tr_call_refs.
  eapply tr_mono; [apply tr_filedup|]. intros _ y (v & Hv & H1 & ->). apply tr_ret. intros g.
  assert (v < 2147483647) by (by apply (Forall_lookup_1 _ _ _ _ Hl Hv)).
  rewrite (owed_ref _ _ _ _ _ _ Hv), (owed_fd _ _ _ _ _ _ Hn), s32_small by lia.
  repeat case_bool_decide; first [congruence | lia].
Qed.

Lemma owed_sys_close x : tr fds x (sys_close cur) (fun _ y => same_owed x y).
Proof.
  destruct x as [o l]. unfold sys_close. apply tr_bind. eapply tr_mono; [apply tr_argfd|].
  intros [[fd f]|] y [-> Hfd]; [|by apply tr_ret]. cbn [fst] in Hfd. apply tr_bind. eapply tr_mono; [apply tr_set_fd|].
  intros _ y ->. apply tr_bind, tr_call_refs. eapply tr_mono; [apply tr_fileclose|].
  intros _ y (v & Hv & H1 & ->). apply tr_ret. intros g.
  rewrite (owed_ref _ _ _ _ _ _ Hv), (owed_fd _ _ _ _ _ _ Hfd).
  repeat case_bool_decide; first [congruence | lia].
Qed.

Lemma owed_sys_open x : tr fds x (sys_open cur) (fun _ y => same_owed x y).
Proof.
  destruct x as [o l]. unfold sys_open. apply tr_bind, tr_keep; [keeps_tac|]. intros [path|]; [|by apply tr_ret].
  apply tr_bind, tr_keep; [keeps_tac|]. intros [omode|]; [|by apply tr_ret].
  do 3 (apply tr_bind, tr_keep; [keeps_tac|]; intros ?). destruct a1 as [ip|]; [|tr_tac; done].
  apply tr_bind, tr_call_refs. eapply tr_mono; [apply tr_filealloc|].
  intros [f|] y; [intros [Hf ->]|intros ->]; cbn beta iota.
  2: { apply tr_bind, tr_ret, tr_bind, tr_call_refs, tr_ret. tr_tac. done. }
  apply tr_bind. eapply tr_mono; [apply tr_fdalloc|]. intros [n|] y; [intros [Hn ->]|intros ->]; cbn beta iota.
  - tr_tac. intros g. rewrite (owed_ref _ _ _ _ _ _ Hf), (owed_fd _ _ _ _ _ _ Hn).
    repeat case_bool_decide; first [congruence | lia].
  - apply tr_bind, tr_call_refs. eapply tr_mono; [apply tr_close_opt|]. intros _ y (v & Hv & _ & ->).
    rewrite insert_back by done. tr_tac. done.
Qed.

(** The failure paths of sys_pipe close both ends. *)
Lemma tr_close_both o l a b (c : M (pst (kern D)) Z) Q : a <> b -> l !! a = Some 0 -> l !! b = Some 0 ->
  tr fds (o, l) c Q ->
  tr fds (o, <[b := 1]> (<[a := 1]> l)) (call (fileclose a);; call (fileclose b);; c) Q.
Proof.
  intros Hne Ha Hb Hc. apply tr_bind, tr_call_refs. eapply tr_mono; [apply tr_fileclose|].
  intros _ y (v & Hv & _ & ->). apply tr_bind, tr_call_refs. eapply tr_mono; [apply tr_fileclose|].
  intros _ y (w & Hw & _ & ->). rewrite list_lookup_insert_ne in Hv, Hw by done.
  rewrite list_lookup_insert_eq in Hw by (rewrite length_insert; by eapply lookup_lt_Some). injection Hw as <-.
  rewrite (list_insert_insert_ne _ a b), (insert_back l a v), list_insert_insert_eq by done.
  by rewrite list_insert_id.
Qed.

Lemma owed_sys_pipe x : tr fds x (sys_pipe cur) (fun _ y => same_owed x y).
Proof.
  destruct x as [o l]. unfold sys_pipe. apply tr_bind, tr_keep; [keeps_tac|]. intros [a|]; [|by apply tr_ret].
  apply tr_bind, tr_call_refs. eapply tr_mono; [apply tr_pipealloc|].
  intros [[rf wf]|] y; [intros (Hne & Hr & Hw & ->)|intros ->; by apply tr_ret].
  apply tr_bind. eapply tr_mono; [apply tr_fdalloc|]. intros [n|] y; [intros [Hn ->]|intros ->]; cbn beta iota.
  2: { apply tr_bind, tr_ret, tr_bind, tr_ret. apply tr_close_both; [done..|]. by apply tr_ret. }
  apply tr_bind. eapply tr_mono; [apply tr_fdalloc|]. intros [m|] y; [intros [Hm ->]|intros ->]; cbn beta iota.
  - tr_tac. assert (Hw' : <[rf := 1]> l !! wf = Some 0) by (by rewrite list_lookup_insert_ne).
    intros g. rewrite (owed_ref _ _ _ _ _ _ Hw'), (owed_ref _ _ _ _ _ _ Hr), (owed_fd _ _ _ _ _ _ Hm),
      (owed_fd _ _ _ _ _ _ Hn).
    repeat case_bool_decide; first [congruence | lia].
  - apply tr_bind. eapply tr_mono; [apply tr_set_fd|]. intros _ y ->. rewrite list_insert_insert_eq.
    rewrite (list_insert_id o n) by done. apply tr_close_both; [done..|]. by apply tr_ret.
Qed.

(** Every handler of sysfile.c. *)
Definition sysfile_handlers : list (M (pst (kern D)) Z) :=
  [ sys_dup cur; sys_read cur; sys_write cur; sys_close cur; sys_fstat cur; sys_link cur; sys_unlink cur;
    sys_open cur; sys_mkdir cur; sys_mknod cur; sys_chdir cur; sys_exec cur; sys_pipe cur ].

Lemma owed_handlers x h : Forall (fun v => v < 2147483647) x.2 -> h ∈ sysfile_handlers ->
  tr fds x h (fun _ y => same_owed x y).
Proof.
  intros Hx Hh. unfold sysfile_handlers in Hh. rewrite !elem_of_cons, elem_of_nil in Hh.
  destruct_or! Hh; subst h; [by apply owed_sys_dup| | |apply owed_sys_close| | | |apply owed_sys_open| | | |
    |apply owed_sys_pipe]; (apply tr_keep; [|done]).
  all: unfold sys_read, sys_write, sys_fstat, sys_link, link_bad, sys_unlink, unlink_bad, sys_mkdir,
    sys_mknod, finish_create, sys_chdir, sys_exec, inode_of; keeps_tac.
Qed.
End Caller.
End Refs.

Definition owed {D} (cur : nat) (s : pst (kern D)) (f : nat) : Z := owed_of (fds cur s) f.

(** C12.  Reference counts.  For every handler of sysfile.c, on every path it
    returns through, the count of each struct file less the number of the caller's
    descriptors that name it is unchanged: dup, open, pipe and close adjust both
    together, and nothing else touches either.  So a count that was the number of
    descriptors in the system stays that number. *)
Theorem file_refcounts {D : Type} `{DV : Devsw D} {LS : LinkSyms} cur h (s s' : pst (kern D)) r
  (Hsmall : Forall (fun x => f_ref x < 2147483647) (ftable (env s)))
  (Hh : h ∈ sysfile_handlers cur) (Hrun : h s = Ret r s') :
  forall f, owed cur s' f = owed cur s f.
Proof.
  refine (owed_handlers cur (fds cur s) h _ Hh s r s' eq_refl Hrun). by apply Forall_fmap.
Qed.

(** dup of descriptor 12, the only one in use. *)
Definition dup_proc : proc := set_ofile (<[12%nat := Some 0%nat]> (replicate 16 None)) demo_proc.
Definition dup_pst : pst (kern unit) :=
  mkPst (mkPtab [dup_proc] [Some 0%nat] (Some 0%nat) 2)
    (set_ftable [mkFile FD_INODE 1 true true 0 0 0] demo_kern).
Definition dup_done : pst (kern unit) := match sys_dup 0 dup_pst with Ret _ s' => s' | _ => dup_pst end.
Lemma dup_run : sys_dup 0 dup_pst = Ret 0 dup_done.
Proof. vm_compute. reflexivity. Qed.

#[local] Instance no_devs : Devsw unit := { dev_read _ := None; dev_write _ := None }.
#[local] Instance demo_syms : LinkSyms := { sym_end := KERNLINK + 8192; sym_data := KERNLINK + 4096 }.

Lemma file_refcounts_witness : refs (env dup_done) = [2] /\ owed 0 dup_done 0 = owed 0 dup_pst 0.
Proof.
  split; [vm_compute; reflexivity|].
  refine (file_refcounts 0 (sys_dup 0) dup_pst dup_done 0 _ _ dup_run 0%nat).
  - repeat constructor.
  - left.
Defined.
