(* ===== verification/Grep.v ===== *)
(** * grep (grep.c): the pattern matcher and the loop over the lines

    A C string is the list of its characters.  The matcher is compared with the
    language of the pattern; the loop over the lines with the filter of the lines
    of the whole input. *)

From stdpp Require Import base numbers list.
From Stdlib Require Import ZArith Lia.
From S2P Require Import Prelude.

Local Open Scope Z_scope.

(** The characters ^ . * $ and newline. *)
Definition CARET : Z := 94.
Definition DOT : Z := 46.
Definition STAR : Z := 42.
Definition DOLLAR : Z := 36.
Definition NL : Z := 10.

(** ** The matcher *)
Definition is_nil {A} (l : list A) : bool := match l with [] => true | _ => false end.

(** matchstar, over the matcher [m] of the rest of the pattern. *)
Fixpoint matchstar (m : list Z -> bool) (c : Z) (text : list Z) : bool :=
  if m text then true
  else match text with
       | [] => false
       | x :: text' => if (x =? c) || (c =? DOT) then matchstar m c text' else false
       end.

Fixpoint matchhere (re text : list Z) : bool :=
  match re with
  | [] => true
  | c :: re1 =>
      let one :=
        if (c =? DOLLAR) && is_nil re1 then is_nil text
        else match text with
             | x :: text' => if (c =? DOT) || (c =? x) then matchhere re1 text' else false
             | [] => false
             end in
      match re1 with
      | d :: re2 => if d =? STAR then matchstar (matchhere re2) c text else one
      | [] => one
      end
  end.

(** match's loop over the starting points. *)
Fixpoint match_any (re text : list Z) : bool :=
  if matchhere re text then true
  else match text with
       | [] => false
       | _ :: text' => match_any re text'
       end.

Definition match_ (re text : list Z) : bool :=
  match re with
  | c :: re' => if c =? CARET then matchhere re' text else match_any re text
  | [] => match_any re text
  end.

(** ** The loop over the lines *)

(** strchr(p, newline): the characters before the newline and those after it; a
    null ends the search. *)
Fixpoint strchr_nl (p : list Z) : option (list Z * list Z) :=
  match p with
  | [] => None
  | c :: p' =>
      if c =? 0 then None
      else if c =? NL then Some ([], p')
      else match strchr_nl p' with
           | Some (l, r) => Some (c :: l, r)
           | None => None
           end
  end.

(** The inner loop of grep from [p] on: what it writes and the new [p]. *)
Fixpoint grep_lines (k : nat) (pattern p : list Z) : list Z * list Z :=
  match k with
  | O => ([], p)
  | S k' =>
      match strchr_nl p with
      | None => ([], p)
      | Some (l, q) =>
          let r := grep_lines k' pattern q in
          ((if match_ pattern l then l ++ [NL] else []) ++ r.1, r.2)
      end
  end.

(** The outer loop: [buf] holds the [m] bytes kept, [chunks] what the calls of
    read return until one returns nothing. *)
Fixpoint grep (pattern buf : list Z) (chunks : list (list Z)) : list Z :=
  match chunks with
  | [] => []
  | [] :: _ => []
  | chunk :: chunks' =>
      let buf := buf ++ chunk in
      let '(out, p) := grep_lines (length buf) pattern buf in
      let kept := if (length p =? length buf)%nat then [] else p in
      out ++ grep pattern kept chunks'
  end.

(** ** The language of a pattern *)
Inductive item := One (c : Z) | Many (c : Z).

Definition accepts (c x : Z) : Prop := c = DOT \/ c = x.

(** The items of a pattern, and whether it ends in a dollar sign. *)
Fixpoint parse (re : list Z) : list item * bool :=
  match re with
  | [] => ([], false)
  | c :: re1 =>
      let one := if (c =? DOLLAR) && is_nil re1 then ([], true)
                 else (One c :: (parse re1).1, (parse re1).2) in
      match re1 with
      | d :: re2 => if d =? STAR then (Many c :: (parse re2).1, (parse re2).2) else one
      | [] => one
      end
  end.

Inductive lang : list item -> list Z -> Prop :=
| lang_nil : lang [] []
| lang_one c x r w : accepts c x -> lang r w -> lang (One c :: r) (x :: w)
| lang_many c u r w : Forall (accepts c) u -> lang r w -> lang (Many c :: r) (u ++ w).

(** A word of the pattern at the start of [text]; all of [text] when the pattern
    ends in a dollar sign. *)
Definition matches_here (re text : list Z) : Prop :=
  exists w rest, text = w ++ rest /\ lang (parse re).1 w /\ ((parse re).2 = true -> rest = []).

Definition matches (re text : list Z) : Prop :=
  match re with
  | c :: re' =>
      if c =? CARET then matches_here re' text
      else exists pre t, text = pre ++ t /\ matches_here re t
  | [] => exists pre t, text = pre ++ t /\ matches_here re t
  end.

Lemma accepts_bool c x : ((c =? DOT) || (c =? x)) = true <-> accepts c x.
Proof. unfold accepts. rewrite orb_true_iff, !Z.eqb_eq. done. Qed.

Lemma matchstar_correct m (P : list Z -> Prop) c text : (forall t, m t = true <-> P t) ->
  matchstar m c text = true <-> exists u t, text = u ++ t /\ Forall (accepts c) u /\ P t.
Proof.
  intros Hm. induction text as [|x text IH]; cbn [matchstar].
  - destruct (m []) eqn:E.
    + split; [|done]. intros _. exists [], []. split_and!; [done|constructor|by apply Hm].
    + split; [done|]. intros (u & t & Ht & _ & HP). symmetry in Ht. apply app_nil in Ht as [-> ->].
      apply Hm in HP. congruence.
  - destruct (m (x :: text)) eqn:E.
    { split; [|done]. intros _. exists [], (x :: text). split_and!; [done|constructor|by apply Hm]. }
    destruct ((x =? c) || (c =? DOT)) eqn:Ec.
    + rewrite IH. assert (Hx : accepts c x).
      { unfold accepts. rewrite orb_true_iff, !Z.eqb_eq in Ec. naive_solver. }
      split; intros (u & t & Ht & Hu & HP).
      * exists (x :: u), t. split_and!; [by rewrite Ht|by constructor|done].
      * destruct u as [|y u]; simpl in Ht; [subst t; apply Hm in HP; congruence|].
        injection Ht as <- ->. inversion Hu; subst. by exists u, t.
    + split; [done|]. intros (u & t & Ht & Hu & HP). destruct u as [|y u]; simpl in Ht.
      * subst t. apply Hm in HP. congruence.
      * injection Ht as <- ->. inversion Hu as [|? ? Hx]; subst. unfold accepts in Hx.
        rewrite orb_false_iff, !Z.eqb_neq in Ec. naive_solver.
Qed.

(** The case of matchhere that is not a star. *)
Lemma one_correct c re1 text : (forall t, matchhere re1 t = true <-> matches_here re1 t) ->
  (if (c =? DOLLAR) && is_nil re1 then is_nil text
   else match text with
        | x :: text' => if (c =? DOT) || (c =? x) then matchhere re1 text' else false
        | [] => false
        end) = true <->
  exists w rest, text = w ++ rest /\
    lang (if (c =? DOLLAR) && is_nil re1 then ([], true) else (One c :: (parse re1).1, (parse re1).2)).1 w /\
    ((if (c =? DOLLAR) && is_nil re1 then ([], true) else (One c :: (parse re1).1, (parse re1).2)).2 = true -> rest = []).
Proof.
  intros IH. destruct ((c =? DOLLAR) && is_nil re1); simpl.
  - split.
    + destruct text; [|done]. intros _. exists [], []. split_and!; [done|constructor|done].
    + intros (w & rest & -> & Hw & Hr). inversion Hw; subst. by rewrite Hr.
  - destruct text as [|x text].
    + split; [done|]. intros (w & rest & Ht & Hw & _). inversion Hw; subst. done.
    + destruct ((c =? DOT) || (c =? x)) eqn:Ec.
      * rewrite IH. apply accepts_bool in Ec. split; intros (w & rest & Ht & Hw & Hr).
        -- exists (x :: w), rest. split_and!; [by rewrite Ht|by constructor|done].
        -- inversion Hw as [|? y ? w' Hy Hw'|]; subst. injection Ht as -> ->. by exists w', rest.
      * split; [done|]. intros (w & rest & Ht & Hw & _). inversion Hw as [|? y ? w' Hy Hw'|]; subst.
        injection Ht as <- _. apply accepts_bool in Hy. congruence.
Qed.

Lemma star_language c re2 text :
  (exists u t, text = u ++ t /\ Forall (accepts c) u /\ matches_here re2 t) <->
  exists w rest, text = w ++ rest /\ lang (Many c :: (parse re2).1) w /\ ((parse re2).2 = true -> rest = []).
Proof.
  split.
  - intros (u & t & -> & Hu & w & rest & -> & Hw & Hr). exists (u ++ w), rest.
    rewrite app_assoc. split_and!; [done|by constructor|done].
  - intros (w & rest & -> & Hw & Hr). inversion Hw as [| |? u ? w' Hu Hw']; subst.
    exists u, (w' ++ rest). rewrite app_assoc. split_and!; [done|done|]. by exists w', rest.
Qed.

Lemma matchhere_correct n : forall re, (length re <= n)%nat ->
  forall text, matchhere re text = true <-> matches_here re text.
Proof.
  induction n as [|n IH]; intros [|c re1] Hn text; simpl in Hn; try lia.
  1,2: split; [|done]; intros _; exists [], text; split_and!; [done|constructor|done].
  assert (IH1 : forall t, matchhere re1 t = true <-> matches_here re1 t) by (apply IH; lia).
  pose proof (one_correct c re1 text IH1) as H1. unfold matches_here.
  destruct re1 as [|d re2]; [exact H1|]. cbn [matchhere parse]. destruct (d =? STAR); [|exact H1].
  cbn [fst snd]. rewrite <- star_language. apply matchstar_correct. apply IH. simpl in Hn. lia.
Qed.

Lemma match_any_correct re text :
  match_any re text = true <-> exists pre t, text = pre ++ t /\ matches_here re t.
Proof.
  assert (Hh := fun t => matchhere_correct (length re) re (le_n _) t).
  induction text as [|x text IH]; cbn [match_any].
  - destruct (matchhere re []) eqn:E.
    + split; [|done]. intros _. exists [], []. split; [done|by apply Hh].
    + split; [done|]. intros (pre & t & Ht & H). symmetry in Ht. apply app_nil in Ht as [-> ->].
      apply Hh in H. congruence.
  - destruct (matchhere re (x :: text)) eqn:E.
    { split; [|done]. intros _. exists [], (x :: text). split; [done|by apply Hh]. }
    rewrite IH. split; intros (pre & t & Ht & H).
    + exists (x :: pre), t. by rewrite Ht.
    + destruct pre as [|y pre]; simpl in Ht; [subst t; apply Hh in H; congruence|].
      injection Ht as <- ->. by exists pre, t.
Qed.

(** C15.  The matcher of grep decides the language of the pattern: [match_] returns
    true exactly when some part of the text (the start, if the pattern begins with
    a caret; up to the end, if it ends in a dollar sign) is a word of the
    pattern's items, where a dot stands for any character and a star for any
    number of the character before it. *)
Theorem match_correct re text : match_ re text = true <-> matches re text.
Proof.
  unfold match_, matches. destruct re as [|c re]; [apply match_any_correct|].
  destruct (c =? CARET); [|apply match_any_correct]. by apply (matchhere_correct (length re)).
Qed.

(** ** The lines of the input *)

(** The complete lines of [data], the first of which begins with [cur]; and what
    comes after the last newline. *)
Fixpoint lines (cur data : list Z) : list (list Z) :=
  match data with
  | [] => []
  | c :: data' => if c =? NL then cur :: lines [] data' else lines (cur ++ [c]) data'
  end.
Fixpoint last_part (cur data : list Z) : list Z :=
  match data with
  | [] => cur
  | c :: data' => if c =? NL then last_part [] data' else last_part (cur ++ [c]) data'
  end.

Definition wanted (pattern : list Z) (ls : list (list Z)) : list Z :=
  concat (map (fun l => l ++ [NL]) (List.filter (match_ pattern) ls)).

Lemma lines_app d e : forall cur, lines cur (d ++ e) = lines cur d ++ lines (last_part cur d) e.
Proof.
  induction d as [|c d IH]; intros cur; [done|]. cbn [lines last_part app].
  destruct (c =? NL); [by rewrite IH|apply IH].
Qed.
Lemma last_part_app d e : forall cur, last_part cur (d ++ e) = last_part (last_part cur d) e.
Proof.
  induction d as [|c d IH]; intros cur; [done|]. cbn [last_part app]. destruct (c =? NL); apply IH.
Qed.
Lemma no_newline d : forall cur, NL ∉ d -> lines cur d = [] /\ last_part cur d = cur ++ d.
Proof.
  induction d as [|c d IH]; intros cur Hd; [by rewrite app_nil_r|]. apply not_elem_of_cons in Hd as [Hc Hd].
  cbn [lines last_part]. destruct (Z.eqb_spec c NL); [congruence|].
  destruct (IH (cur ++ [c]) Hd) as [-> ->]. by rewrite <- app_assoc.
Qed.
Lemma last_part_no_newline d : forall cur, NL ∉ cur -> NL ∉ last_part cur d.
Proof.
  induction d as [|c d IH]; intros cur Hc; [done|]. cbn [last_part].
  destruct (Z.eqb_spec c NL); [apply IH, not_elem_of_nil|]. apply IH.
  rewrite elem_of_app, list_elem_of_singleton. intros [?|?]; [done|congruence].
Qed.
Lemma last_part_elem x d : forall cur, x ∈ last_part cur d -> x ∈ cur \/ x ∈ d.
Proof.
  induction d as [|c d IH]; intros cur Hx; [by left|]. cbn [last_part] in Hx. rewrite elem_of_cons.
  destruct (c =? NL); apply IH in Hx; rewrite ?elem_of_app, ?list_elem_of_singleton, ?elem_of_nil in Hx; tauto.
Qed.
Lemma last_part_shorter d cur : NL ∈ d -> (length (last_part cur d) < length d)%nat.
Proof.
  intros (d1 & d2 & ->)%list_elem_of_split. rewrite last_part_app. cbn [last_part]. rewrite Z.eqb_refl.
  rewrite length_app. cbn [length]. enough (forall d cur, (length (last_part cur d) <= length cur + length d)%nat) as H.
  { pose proof (H d2 []). simpl in *. lia. }
  clear. induction d as [|c d IH]; intros cur; cbn [last_part length]; [lia|].
  destruct (c =? NL); [pose proof (IH []); simpl in *; lia|]. pose proof (IH (cur ++ [c])) as H.
  rewrite length_app in H. simpl in H. lia.
Qed.

Lemma strchr_nl_spec p : 0 ∉ p ->
  match strchr_nl p with
  | Some (l, q) => p = l ++ NL :: q /\ NL ∉ l
  | None => NL ∉ p
  end.
Proof.
  induction p as [|c p IH]; intros Hp; [apply not_elem_of_nil|]. apply not_elem_of_cons in Hp as [Hc Hp].
  cbn [strchr_nl]. destruct (Z.eqb_spec c 0); [congruence|].
  destruct (Z.eqb_spec c NL) as [->|Hn]; [split; [done|apply not_elem_of_nil]|].
  specialize (IH Hp). destruct (strchr_nl p) as [[l q]|].
  - destruct IH as [-> Hl]. split; [done|]. apply not_elem_of_cons. split; [congruence|done].
  - apply not_elem_of_cons. split; [congruence|done].
Qed.

Lemma grep_lines_spec pattern k : forall p, (length p <= k)%nat -> 0 ∉ p ->
  grep_lines k pattern p = (wanted pattern (lines [] p), last_part [] p).
Proof.
  induction k as [|k IH]; intros p Hk Hp.
  { destruct p; [done|simpl in Hk; lia]. }
  cbn [grep_lines]. pose proof (strchr_nl_spec p Hp) as H. destruct (strchr_nl p) as [[l q]|].
  - destruct H as [-> Hl]. rewrite length_app in Hk. simpl in Hk.
    rewrite elem_of_app, elem_of_cons in Hp.
    rewrite (IH q) by (try lia; tauto). rewrite lines_app, last_part_app.
    destruct (no_newline l [] Hl) as [-> ->]. cbn [lines last_part app fst snd]. rewrite Z.eqb_refl.
    unfold wanted. cbn [List.filter]. destruct (match_ pattern l); done.
  - by destruct (no_newline p [] H) as [-> ->].
Qed.

Lemma grep_spec pattern chunks : forall buf, 0 ∉ buf -> NL ∉ buf ->
  Forall (fun c => NL ∈ c /\ 0 ∉ c) chunks ->
  grep pattern buf chunks = wanted pattern (lines buf (concat chunks)).
Proof.
  induction chunks as [|c chunks IH]; intros buf H0 Hn Hc; [done|].
  inversion Hc as [|? ? [Hnl Hz] Hc']; subst. destruct c as [|x c]; [by apply elem_of_nil in Hnl|].
  assert (H0' : 0 ∉ buf ++ x :: c) by (rewrite elem_of_app; tauto).
  cbn [grep concat]. rewrite grep_lines_spec by done. cbn beta iota zeta.
  rewrite last_part_app, lines_app. destruct (no_newline buf [] Hn) as [-> ->]. rewrite !app_nil_l.
  pose proof (last_part_shorter (x :: c) buf Hnl) as Hlt.
  destruct (Nat.eqb_spec (length (last_part buf (x :: c))) (length (buf ++ x :: c))) as [E|_];
    [rewrite length_app in E; lia|].
  rewrite IH; [|intros [?|?]%last_part_elem; tauto|by apply last_part_no_newline|done].
  rewrite lines_app. unfold wanted. by rewrite List.filter_app, map_app, concat_app.
Qed.

(** When every read returns at least one newline (and no null byte), grep
    writes the lines of the whole input that match the pattern, in order, each
    once, whether or not the reads split lines. *)
Theorem grep_filters_lines pattern chunks
  (Hchunks : Forall (fun c => NL ∈ c /\ 0 ∉ c) chunks) :
  grep pattern [] chunks = wanted pattern (lines [] (concat chunks)).
Proof. apply grep_spec; [apply not_elem_of_nil..|done]. Qed.

(** The lines ab and b arrive as [ab, newline, b] and [newline]: the second chunk
    completes a line that the first one began. *)
Lemma grep_filters_lines_witness : grep [98] [] [[97; 98; 10; 98]; [10]] = [97; 98; 10; 98; 10].
Proof.
  rewrite (grep_filters_lines [98] [[97; 98; 10; 98]; [10]]); [vm_compute; reflexivity|].
  assert (H1 : NL ∈ [97; 98; 10; 98]) by (right; right; left).
  assert (H2 : NL ∈ [10]) by left.
  repeat constructor; try assumption; rewrite ?elem_of_cons, elem_of_nil; lia.
Defined.

(** A read without a newline throws away what is in the buffer, so a line that
    comes in pieces can be lost: of the line xb, only b is looked at. *)
Lemma grep_loses_a_split_line :
  grep [120] [] [[120]; [98; 10]] = [] /\ wanted [120] (lines [] (concat [[120]; [98; 10]])) = [120; 98; 10].
Proof. split; reflexivity. Qed.
