(* ===== verification/Ulib.v ===== *)
(** * The C library of user programs (ulib.c, printf.c)

    A C string is the list of its characters, without the null.  Output is the list
    of the bytes written. *)

From stdpp Require Import base numbers list gmap.
From Stdlib Require Import ZArith Lia.
From S2P Require Import Prelude Mem.

Local Open Scope Z_scope.

(** ** ulib.c *)

(** strcpy: the bytes it stores. *)
Fixpoint strcpy (t : list Z) : list Z :=
  match t with [] => [0] | c :: t' => c :: strcpy t' end.

Fixpoint strcmp (p q : list Z) : Z :=
  match p, q with
  | x :: p', y :: q' => if x =? y then strcmp p' q' else x - y
  | x :: _, [] => x
  | [], y :: _ => 0 - y
  | [], [] => 0
  end.

Fixpoint strlen (s : list Z) : Z := match s with [] => 0 | _ :: s' => 1 + strlen s' end.

(** strchr: what follows from the first [c] on; [None] is the null pointer. *)
Fixpoint strchr (s : list Z) (c : Z) : option (list Z) :=
  match s with
  | [] => None
  | x :: s' => if x =? c then Some s else strchr s' c
  end.

(** gets: [input] is what read(0, &c, 1) yields, a character at a time.  The line,
    and the input that is left. *)
Fixpoint gets_loop (k : nat) (input : list Z) : list Z * list Z :=
  match k with
  | O => ([], input)
  | S k' =>
      match input with
      | [] => ([], [])
      | c :: input' =>
          if (c =? 10) || (c =? 13) then ([c], input')
          else let r := gets_loop k' input' in (c :: r.1, r.2)
      end
  end.
Definition gets (max : Z) (input : list Z) : list Z * list Z := gets_loop (Z.to_nat (max - 1)) input.

Definition isdigit (c : Z) : bool := (48 <=? c) && (c <=? 57).

Fixpoint atoi_loop (n : Z) (s : list Z) : Z :=
  match s with
  | [] => n
  | c :: s' => if isdigit c then atoi_loop (s32 (n * 10 + c - 48)) s' else n
  end.
Definition atoi (s : list Z) : Z := atoi_loop 0 s.

(** ** printf.c *)
Definition digit (d : Z) : Z := if d <? 10 then 48 + d else 55 + d.

(** The loop of printint that fills buf, of which [k] bytes are free; [None] is a
    store past its end. *)
Fixpoint digits_loop (k : nat) (x base : Z) : option (list Z) :=
  match k with
  | O => None
  | S k' =>
      if x / base =? 0 then Some [digit (x mod base)]
      else cons (digit (x mod base)) <$> digits_loop k' (x / base) base
  end.

Definition bufsize : nat := 16.

Definition printint (xx base : Z) (sgn : bool) : option (list Z) :=
  let neg := sgn && (xx <? 0) in
  let x := if neg then u32 (- xx) else u32 xx in
  match digits_loop bufsize x base with
  | None => None
  | Some b =>
      let b := if neg then b ++ [45] else b in
      if (bufsize <? length b)%nat then None else Some (rev b)
  end.

(** The string (null). *)
Definition null_str : list Z := [40; 110; 117; 108; 108; 41].

Section Printf.
(** The string a pointer argument points to. *)
Context (str : Z -> list Z).

(** printf from [fmt] on, with [pct] for the state; [None] when it runs past the
    arguments or past buf. *)
Fixpoint printf (pct : bool) (fmt : list Z) (ap : list Z) : option (list Z) :=
  match fmt with
  | [] => Some []
  | c :: fmt' =>
      if negb pct then
        if c =? 37 then printf true fmt' ap
        else cons c <$> printf false fmt' ap
      else if c =? 100 then
        match ap with
        | [] => None
        | a :: ap' =>
            match printint (s32 a) 10 true with
            | None => None
            | Some o => app o <$> printf false fmt' ap'
            end
        end
      else if (c =? 120) || (c =? 112) then
        match ap with
        | [] => None
        | a :: ap' =>
            match printint (s32 a) 16 false with
            | None => None
            | Some o => app o <$> printf false fmt' ap'
            end
        end
      else if c =? 115 then
        match ap with
        | [] => None
        | a :: ap' => app (if a =? 0 then null_str else str a) <$> printf false fmt' ap'
        end
      else if c =? 99 then
        match ap with
        | [] => None
        | a :: ap' => cons (a mod 256) <$> printf false fmt' ap'
        end
      else if c =? 37 then cons c <$> printf false fmt' ap
      else app [37; c] <$> printf false fmt' ap
  end.
End Printf.

(** ** printint and atoi *)

(** The value of digits in buf, least significant first. *)
Fixpoint value (b : list Z) : Z :=
  match b with [] => 0 | c :: b' => (c - 48) + 10 * value b' end.

Lemma digits_loop_10 n : forall k x, 0 <= x < 10 ^ Z.of_nat n -> (0 < n <= k)%nat ->
  exists b, digits_loop k x 10 = Some b /\ value b = x /\ Forall (fun c => 48 <= c <= 57) b /\
    (length b <= n)%nat.
Proof.
  induction n as [|n IH]; intros [|k] x Hx Hk; try lia. cbn [digits_loop].
  pose proof (Z.mod_pos_bound x 10 ltac:(lia)) as Hm. pose proof (Z.div_mod x 10 ltac:(lia)) as Hd.
  assert (Hdig : digit (x mod 10) = 48 + x mod 10) by (unfold digit; destruct (Z.ltb_spec (x mod 10) 10); lia).
  destruct (Z.eqb_spec (x / 10) 0) as [E|E].
  { eexists. split; [done|]. rewrite Hdig. cbn [value length]. split_and!; [lia| |lia]. repeat constructor; lia. }
  rewrite Nat2Z.inj_succ, Z.pow_succ_r in Hx by lia.
  assert (Hx' : 0 <= x / 10 < 10 ^ Z.of_nat n).
  { split; [apply Z.div_pos; lia|apply Z.div_lt_upper_bound; lia]. }
  destruct n as [|n]; [simpl in Hx'; lia|].
  destruct (IH k (x / 10) Hx' ltac:(lia)) as (b & -> & Hv & Hb & Hlen).
  eexists. split; [done|]. rewrite Hdig. cbn [value length]. split_and!; [lia| |lia]. constructor; [lia|done].
Qed.

(** The value of digits, most significant first, after those of [n]. *)
Lemma atoi_loop_rev b : forall n, Forall (fun c => 48 <= c <= 57) b -> 0 <= n ->
  n * 10 ^ Z.of_nat (length b) + value b < 2147483648 ->
  atoi_loop n (rev b) = n * 10 ^ Z.of_nat (length b) + value b.
Proof.
  enough (H : forall b rest n, Forall (fun c => 48 <= c <= 57) b -> 0 <= n ->
    n * 10 ^ Z.of_nat (length b) + value b < 2147483648 ->
    atoi_loop n (rev b ++ rest) = atoi_loop (n * 10 ^ Z.of_nat (length b) + value b) rest).
  { intros n Hb Hn Hlt. rewrite <- (app_nil_r (rev b)). by rewrite H. }
  clear b. induction b as [|c b IH]; intros rest n Hb Hn Hlt.
  { cbn [length value rev app]. f_equal. simpl. lia. }
  inversion Hb as [|? ? Hc Hb']; subst. cbn [rev length value] in *. rewrite <- app_assoc.
  rewrite Nat2Z.inj_succ, Z.pow_succ_r in * by lia.
  assert (0 <= value b). { clear -Hb'. induction Hb' as [|x b Hx _ IH]; cbn [value]; lia. }
  set (q := n * 10 ^ Z.of_nat (length b)) in *.
  assert (0 <= q) by (apply Z.mul_nonneg_nonneg; [lia|apply Z.pow_nonneg; lia]).
  assert (Eq : n * (10 * 10 ^ Z.of_nat (length b)) = 10 * q) by (unfold q; lia). rewrite Eq in *.
  rewrite IH by (try done; fold q; lia). fold q. cbn [app atoi_loop].
  unfold isdigit. destruct (Z.leb_spec 48 c); [|lia]. destruct (Z.leb_spec c 57); [|lia]. cbn [andb].
  f_equal. rewrite s32_small by lia. lia.
Qed.

Lemma printint_dec (xx : Z) (Hxx : -2147483648 <= xx < 2147483648) :
  exists out, printint xx 10 true = Some out /\ (length out <= 11)%nat /\ (0 <= xx -> atoi out = xx).
Proof.
  unfold printint. cbn [andb].
  assert (Hx : 0 <= (if xx <? 0 then u32 (- xx) else u32 xx) < 10 ^ Z.of_nat 10).
  { destruct (Z.ltb_spec xx 0); rewrite u32_small by lia; simpl; lia. }
  destruct (digits_loop_10 10 bufsize _ Hx ltac:(unfold bufsize; lia)) as (b & -> & Hv & Hb & Hlen).
  destruct (Z.ltb_spec xx 0) as [Hneg|Hpos].
  - destruct (Nat.ltb_spec bufsize (length (b ++ [45]))) as [Hl|_];
      [rewrite length_app in Hl; unfold bufsize in Hl; simpl in Hl; lia|].
    eexists. split; [done|]. rewrite length_rev, length_app. simpl. split; [lia|]. lia.
  - destruct (Nat.ltb_spec bufsize (length b)) as [Hl|_]; [unfold bufsize in Hl; lia|].
    eexists. split; [done|]. rewrite length_rev. split; [lia|]. intros _. rewrite u32_small in Hv by lia.
    unfold atoi. rewrite atoi_loop_rev; [lia|done|lia|lia].
Qed.

(** Numbers.  For every int, printint in base ten stays within its buffer of
    sixteen bytes (eleven are enough), and for a number that is not negative what
    it prints reads back as that number with atoi. *)
Theorem printint_atoi_roundtrip (xx : Z) (Hxx : -2147483648 <= xx < 2147483648) :
  exists out, printint xx 10 true = Some out /\ (length out <= 11)%nat /\ (0 <= xx -> atoi out = xx).
Proof. by apply printint_dec. Qed.

Lemma printint_atoi_roundtrip_witness : exists out, printint 2024 10 true = Some out /\ atoi out = 2024.
Proof.
  destruct (printint_atoi_roundtrip 2024 ltac:(lia)) as (out & H1 & _ & H2). exists out. split; [exact H1|].
  apply H2. lia.
Defined.

(** ** memset and memmove, on byte memory *)
Definition ulib_memset (m : memory) (dst c n : Z) : memory := stosb m dst c (Z.to_nat n).

(** The loop copies upwards, whether or not the ranges overlap. *)
Definition ulib_memmove (m : memory) (vdst vsrc n : Z) : memory := memmove_fwd m vdst vsrc (Z.to_nat n).

(** It is the memmove of string.c unless the destination starts inside the source. *)
Lemma ulib_memmove_spec m dst src n b : 0 <= n -> ~ src < dst < src + n ->
  load8 (ulib_memmove m dst src n) b = load8 (memmove m dst src n) b.
Proof.
  intros Hn Ho. rewrite load8_memmove by done. unfold ulib_memmove.
  rewrite load8_memmove_fwd by lia. by rewrite Z2Nat.id by lia.
Qed.

(** There it repeats the first bytes. *)
Lemma ulib_memmove_overlap :
  load_bytes (ulib_memmove (store_bytes ∅ 100 [1; 2; 3; 4]) 101 100 4) 100 5 = [1; 1; 1; 1; 1] /\
  load_bytes (memmove (store_bytes ∅ 100 [1; 2; 3; 4]) 101 100 4) 100 5 = [1; 1; 2; 3; 4].
Proof. by split; vm_compute. Qed.

Lemma ulib_memset_spec m dst c n b : 0 <= n -> load8 (ulib_memset m dst c n) b = load8 (memset m dst c n) b.
Proof. intros Hn. rewrite load8_memset by done. unfold ulib_memset. by rewrite load8_stosb, Z2Nat.id by lia. Qed.
