(* ===== verification/Kbd.v ===== *)
(** * The keyboard (kbd.c, kbd.h): from scan codes to characters *)

From stdpp Require Import base numbers list.
From Stdlib Require Import ZArith Lia.
From S2P Require Import Prelude.

Local Open Scope Z_scope.

(** ** kbd.h *)
Definition NO : Z := 0.
Definition SHIFT : Z := 1.
Definition CTL : Z := 2.
Definition ALT : Z := 4.
Definition CAPSLOCK : Z := 8.
Definition NUMLOCK : Z := 16.
Definition SCROLLLOCK : Z := 32.
Definition E0ESC : Z := 64.
Definition KEY_HOME : Z := 224.
Definition KEY_END : Z := 225.
Definition KEY_UP : Z := 226.
Definition KEY_DN : Z := 227.
Definition KEY_LF : Z := 228.
Definition KEY_RT : Z := 229.
Definition KEY_PGUP : Z := 230.
Definition KEY_PGDN : Z := 231.
Definition KEY_INS : Z := 232.
Definition KEY_DEL : Z := 233.
Definition C (x : Z) : Z := x - 64.

(** A table of 256 entries: the first ones in order, the others by index. *)
Definition table (dense : list Z) (others : list (nat * Z)) : list Z :=
  foldr (fun e t => <[e.1 := e.2]> t) (dense ++ replicate (256 - length dense) 0) others.

Definition shiftcode : list Z :=
  table [] [(29%nat, CTL); (42%nat, SHIFT); (54%nat, SHIFT); (56%nat, ALT); (157%nat, CTL); (184%nat, ALT)].

Definition togglecode : list Z := table [] [(58%nat, CAPSLOCK); (69%nat, NUMLOCK); (70%nat, SCROLLLOCK)].

(** The keys after an E0 code that all maps share. *)
Definition e0_keys : list (nat * Z) :=
  [(200%nat, KEY_UP); (208%nat, KEY_DN); (201%nat, KEY_PGUP); (209%nat, KEY_PGDN); (203%nat, KEY_LF);
   (205%nat, KEY_RT); (151%nat, KEY_HOME); (207%nat, KEY_END); (210%nat, KEY_INS); (211%nat, KEY_DEL)].

Definition normalmap : list Z := table
  [ NO; 27; 49; 50; 51; 52; 53; 54;
    55; 56; 57; 48; 45; 61; 8; 9;
    113; 119; 101; 114; 116; 121; 117; 105;
    111; 112; 91; 93; 10; NO; 97; 115;
    100; 102; 103; 104; 106; 107; 108; 59;
    39; 96; NO; 92; 122; 120; 99; 118;
    98; 110; 109; 44; 46; 47; NO; 42;
    NO; 32; NO; NO; NO; NO; NO; NO;
    NO; NO; NO; NO; NO; NO; NO; 55;
    56; 57; 45; 52; 53; 54; 43; 49;
    50; 51; 48; 46; NO; NO; NO; NO ]
  ([(156%nat, 10); (181%nat, 47)] ++ e0_keys).

Definition shiftmap : list Z := table
  [ NO; 27; 33; 64; 35; 36; 37; 94;
    38; 42; 40; 41; 95; 43; 8; 9;
    81; 87; 69; 82; 84; 89; 85; 73;
    79; 80; 123; 125; 10; NO; 65; 83;
    68; 70; 71; 72; 74; 75; 76; 58;
    34; 126; NO; 124; 90; 88; 67; 86;
    66; 78; 77; 60; 62; 63; NO; 42;
    NO; 32; NO; NO; NO; NO; NO; NO;
    NO; NO; NO; NO; NO; NO; NO; 55;
    56; 57; 45; 52; 53; 54; 43; 49;
    50; 51; 48; 46; NO; NO; NO; NO ]
  ([(156%nat, 10); (181%nat, 47)] ++ e0_keys).

(** C of a character below @ is negative; a uchar keeps it modulo 256. *)
Definition ctlmap : list Z := table
  [ NO; NO; NO; NO; NO; NO; NO; NO;
    NO; NO; NO; NO; NO; NO; NO; NO;
    C 81; C 87; C 69; C 82; C 84; C 89; C 85; C 73;
    C 79; C 80; NO; NO; 13; NO; C 65; C 83;
    C 68; C 70; C 71; C 72; C 74; C 75; C 76; NO;
    NO; NO; NO; C 92; C 90; C 88; C 67; C 86;
    C 66; C 78; C 77; NO; NO; (C 47) mod 256; NO; NO ]
  ([(156%nat, 13); (181%nat, (C 47) mod 256)] ++ e0_keys).

Definition entry (t : list Z) (i : Z) : Z := default 0 (t !! Z.to_nat i).

(** ** kbd.c *)

(** charcode[i] *)
Definition charcode (i : Z) : list Z :=
  if i =? 0 then normalmap else if i =? 1 then shiftmap else ctlmap.

Definition caps (c : Z) : Z :=
  if (97 <=? c) && (c <=? 122) then c + 65 - 97
  else if (65 <=? c) && (c <=? 90) then c + 97 - 65
  else c.

(** kbdgetc, with the static [shift]; [port] is the byte the controller has. *)
Definition kbdgetc (shift : Z) (port : option Z) : Z * Z :=
  match port with
  | None => (-1, shift)
  | Some data =>
      if data =? 224 then (0, Z.lor shift E0ESC)
      else if negb (Z.land data 128 =? 0) then
        let data := if negb (Z.land shift E0ESC =? 0) then data else Z.land data 127 in
        (0, Z.land shift (u32 (Z.lnot (Z.lor (entry shiftcode data) E0ESC))))
      else
        let esc := negb (Z.land shift E0ESC =? 0) in
        let data := if esc then Z.lor data 128 else data in
        let shift := if esc then Z.land shift (u32 (Z.lnot E0ESC)) else shift in
        let shift := Z.lxor (Z.lor shift (entry shiftcode data)) (entry togglecode data) in
        let c := entry (charcode (Z.land shift (Z.lor CTL SHIFT))) data in
        (if negb (Z.land shift CAPSLOCK =? 0) then caps c else c, shift)
  end.

(** ** What kbdgetc returns *)
Definition is_byte (x : Z) : Prop := 0 <= x < 256.

Lemma entry_byte t i : forallb (fun x => (0 <=? x) && (x <? 256)) t = true -> is_byte (entry t i).
Proof.
  intros H. unfold entry, is_byte. destruct (t !! Z.to_nat i) as [x|] eqn:E; simpl; [|lia].
  apply list_elem_of_lookup_2, list_elem_of_In in E. rewrite forallb_forall in H. specialize (H x E).
  rewrite andb_true_iff, Z.leb_le, Z.ltb_lt in H. lia.
Qed.

Lemma charcode_byte i j : is_byte (entry (charcode i) j).
Proof.
  unfold charcode. destruct (i =? 0); [|destruct (i =? 1)]; apply entry_byte; vm_compute; reflexivity.
Qed.

Lemma caps_byte c : is_byte c -> is_byte (caps c).
Proof.
  unfold is_byte, caps. intros Hc. destruct (Z.leb_spec 97 c), (Z.leb_spec c 122); cbn [andb]; try lia;
  destruct (Z.leb_spec 65 c), (Z.leb_spec c 90); cbn [andb]; lia.
Qed.

(** With no byte waiting the result is -1, which ends consoleintr's loop; with one it
    is a character, or 0 for none. *)
Lemma kbdgetc_byte shift data : is_byte (kbdgetc shift (Some data)).1 /\ kbdgetc shift None = (-1, shift).
Proof.
  split; [|done]. unfold kbdgetc. destruct (data =? 224); [split; simpl; lia|].
  destruct (negb (Z.land data 128 =? 0)); [split; simpl; lia|]. cbv zeta. cbn [fst].
  destruct (negb (Z.land _ CAPSLOCK =? 0)); [apply caps_byte|]; apply charcode_byte.
Qed.
