(* ===== verification/Console.v ===== *)
(** * The console (console.c)

    The state is the ring buffer of the input with its three indices, the bytes sent
    to the serial port and the screen.  [intr] is the line discipline that the
    interrupt handler runs for one character; [committed] and [editing] are what it
    means: the input a read may take, and the line being typed. *)

From stdpp Require Import base numbers list gmap strings.
From Stdlib Require Import ZArith Lia.
From S2P Require Import Prelude Mmu Kalloc Block Fs File Trap SysInv.

Local Open Scope Z_scope.
Local Open Scope kernel_scope.

Definition BACKSPACE : Z := 256.
Definition INPUT_BUF : Z := 128.
Definition CONSOLE : Z := 1.
Definition Ctl (x : Z) : Z := x - 64.
Definition NEWLINE : Z := 10.

Record console := mkConsole {
  c_buf : list Z;
  c_r : Z;           (* read index *)
  c_w : Z;           (* write index *)
  c_e : Z;           (* edit index *)
  c_out : list Z;    (* bytes given to uartputc *)
  c_pos : Z;         (* the cursor, as the CRT controller holds it *)
  c_crt : gmap Z Z;  (* cells of the screen *)
  c_panicked : bool
}.

Definition set_out (o : list Z) (s : console) : console :=
  mkConsole (c_buf s) (c_r s) (c_w s) (c_e s) o (c_pos s) (c_crt s) (c_panicked s).
Definition set_screen (p : Z) (m : gmap Z Z) (s : console) : console :=
  mkConsole (c_buf s) (c_r s) (c_w s) (c_e s) (c_out s) p m (c_panicked s).
Definition set_input (b : list Z) (r w e : Z) (s : console) : console :=
  mkConsole b r w e (c_out s) (c_pos s) (c_crt s) (c_panicked s).

(** ** Output *)
Definition cell_at (m : gmap Z Z) (i : Z) : Z := default 0 (m !! i).

(** memmove of [n] cells from 80 up, and memset of [n] cells from [p]. *)
Definition scroll_cells (n : Z) (m : gmap Z Z) : gmap Z Z :=
  foldl (fun m i => <[i := cell_at m (i + 80)]> m) m (seqZ 0 n).
Definition clear_cells (p n : Z) (m : gmap Z Z) : gmap Z Z :=
  foldl (fun m i => <[i := 0]> m) m (seqZ p n).

Definition cgaputc (c : Z) : M console unit :=
  s <- get;;
  let pos := c_pos s in
  let '(pos, m) :=
    if c =? NEWLINE then (pos + (80 - pos mod 80), c_crt s)
    else if c =? BACKSPACE then ((if pos >? 0 then pos - 1 else pos), c_crt s)
    else (pos + 1, <[pos := Z.lor (Z.land c 255) 1792]> (c_crt s)) in
  if (pos <? 0) || (pos >? 25 * 80) then panic "pos under/overflow"
  else
    let '(pos, m) :=
      if pos / 80 >=? 24 then
        let m := scroll_cells (23 * 80) m in
        (pos - 80, clear_cells (pos - 80) (24 * 80 - (pos - 80)) m)
      else (pos, m) in
    put (set_screen pos (<[pos := Z.lor 32 1792]> m) s).

Definition uartputc (c : Z) : M console unit := modify (fun s => set_out (c_out s ++ [c mod 256]) s).

Definition consputc (c : Z) : M console unit :=
  s <- get;;
  if c_panicked s then hang
  else
    (if c =? BACKSPACE then uartputc 8;; uartputc 32;; uartputc 8 else uartputc c);;
    cgaputc c.

Fixpoint consputs (l : list Z) : M console unit :=
  match l with [] => ret tt | c :: l' => consputc c;; consputs l' end.

(** ** cprintf *)
Definition hexdigit (d : Z) : Z := if d <? 10 then 48 + d else 87 + d.

(** The digits, least significant first; [None] is a store past buf. *)
Fixpoint fill_digits (k : nat) (x base : Z) : option (list Z) :=
  match k with
  | O => None
  | S k' =>
      if x / base =? 0 then Some [hexdigit (x mod base)]
      else cons (hexdigit (x mod base)) <$> fill_digits k' (x / base) base
  end.

Definition printint (xx base : Z) (sign : bool) : M console unit :=
  let sign := sign && (xx <? 0) in
  match fill_digits 16 (if sign then u32 (- xx) else u32 xx) base with
  | None => undef
  | Some b =>
      let b := if sign then b ++ [45] else b in
      if (16 <? length b)%nat then undef else consputs (rev b)
  end.

Section Cprintf.
(** The string a pointer argument points to. *)
Context (str : Z -> list Z).

Definition null_string : list Z := [40; 110; 117; 108; 108; 41].

Fixpoint cprintf_loop (fmt argp : list Z) : M console unit :=
  match fmt with
  | [] => ret tt
  | c :: fmt' =>
      if negb (c =? 37) then consputc c;; cprintf_loop fmt' argp
      else
        match fmt' with
        | [] => ret tt
        | d :: fmt'' =>
            if d =? 100 then
              match argp with
              | [] => undef
              | a :: argp' => printint (s32 a) 10 true;; cprintf_loop fmt'' argp'
              end
            else if (d =? 120) || (d =? 112) then
              match argp with
              | [] => undef
              | a :: argp' => printint (s32 a) 16 false;; cprintf_loop fmt'' argp'
              end
            else if d =? 115 then
              match argp with
              | [] => undef
              | a :: argp' => consputs (if a =? 0 then null_string else str a);; cprintf_loop fmt'' argp'
              end
            else if d =? 37 then consputc 37;; cprintf_loop fmt'' argp
            else consputc 37;; consputc d;; cprintf_loop fmt'' argp
        end
  end.
End Cprintf.

(** ** Input *)
Definition slot (i : Z) : nat := Z.to_nat (i mod INPUT_BUF).

(** e-- *)
Definition unput : M console unit :=
  modify (fun s => set_input (c_buf s) (c_r s) (c_w s) (u32 (c_e s - 1)) s);;
  consputc BACKSPACE.

Fixpoint kill_line (k : nat) : M console unit :=
  match k with
  | O => hang
  | S k' =>
      s <- get;;
      if negb (c_e s =? c_w s) && negb (default 0 (c_buf s !! slot (u32 (c_e s - 1))) =? NEWLINE)
      then unput;; kill_line k'
      else ret tt
  end.

(** The body of consoleintr's loop for the character [c]: whether to run procdump. *)
Definition intr (c : Z) : M console bool :=
  if c =? Ctl 80 then ret true
  else if c =? Ctl 85 then kill_line (Z.to_nat INPUT_BUF + 1);; ret false
  else if (c =? Ctl 72) || (c =? 127) then
    s <- get;;
    (if negb (c_e s =? c_w s) then unput else ret tt);;
    ret false
  else
    s <- get;;
    if negb (c =? 0) && (u32 (c_e s - c_r s) <? INPUT_BUF) then
      let c := if c =? 13 then NEWLINE else c in
      put (set_input (<[slot (c_e s) := c mod 256]> (c_buf s)) (c_r s) (c_w s) (u32 (c_e s + 1)) s);;
      consputc c;;
      s <- get;;
      (if (c =? NEWLINE) || (c =? Ctl 68) || (c_e s =? u32 (c_r s + INPUT_BUF))
       then put (set_input (c_buf s) (c_r s) (c_e s) (c_e s) s)
       else ret tt);;
      ret false
    else ret false.

Fixpoint consoleintr (cs : list Z) (doprocdump : bool) : M console bool :=
  match cs with
  | [] => ret doprocdump
  | c :: cs' => if c <? 0 then ret doprocdump else d <- intr c;; consoleintr cs' (doprocdump || d)
  end.

(** The loop of consoleread, with [n] bytes wanted of [target]: the bytes copied,
    [None] for -1.  An empty buffer puts the reader to sleep. *)
Fixpoint read_chars (killed : bool) (n : nat) (target : Z) : M console (option (list Z)) :=
  match n with
  | O => ret (Some [])
  | S n' =>
      s <- get;;
      if c_r s =? c_w s then if killed then ret None else hang
      else
        let c := default 0 (c_buf s !! slot (c_r s)) in
        put (set_input (c_buf s) (u32 (c_r s + 1)) (c_w s) (c_e s) s);;
        if c =? Ctl 68 then
          (if Z.of_nat n <? target
           then modify (fun s => set_input (c_buf s) (u32 (c_r s - 1)) (c_w s) (c_e s) s)
           else ret tt);;
          ret (Some [])
        else if c =? NEWLINE then ret (Some [c])
        else r <- read_chars killed n' target;; ret (cons c <$> r)
  end.

(** ** The console as a device *)
Definition ondev {A} (c : M console A) : M (fsst console) A := zoom devst set_devst c.

Definition consoleread (killed : bool) (i : nat) (n : Z) : M (fsst console) (option (list Z)) :=
  iunlock i;;
  r <- ondev (read_chars killed (Z.to_nat (s32 n)) (u32 n));;
  ilock i;;
  ret r.

Definition consolewrite (i : nat) (buf : list Z) : M (fsst console) (option Z) :=
  iunlock i;;
  ondev (consputs (map (fun b => Z.land b 255) buf));;
  ilock i;;
  ret (Some (Z.of_nat (length buf))).

(** consoleinit's entries of devsw. *)
Definition console_devsw (killed : bool) : Devsw console := {|
  dev_read mj := if mj =? CONSOLE then Some (consoleread killed) else None;
  dev_write mj := if mj =? CONSOLE then Some consolewrite else None
|}.

(** ** The line discipline *)
Definition cell (s : console) (i : Z) : Z := default 0 (c_buf s !! slot i).

(** What the buffer holds from the read index on. *)
Definition pending (s : console) : list Z := (fun j => cell s (c_r s + j)) <$> seqZ 0 (u32 (c_e s - c_r s)).
Definition ncommit (s : console) : Z := u32 (c_w s - c_r s).
Definition committed (s : console) : list Z := take (Z.to_nat (ncommit s)) (pending s).
Definition editing (s : console) : list Z := drop (Z.to_nat (ncommit s)) (pending s).

(** [m] characters committed and [n] in all, after [r]. *)
Record ring (s : console) (m n : Z) : Prop := mkRing {
  rg_len : length (c_buf s) = 128%nat;
  rg_r : 0 <= c_r s < 4294967296;
  rg_w : c_w s = u32 (c_r s + m);
  rg_e : c_e s = u32 (c_r s + n);
  rg_le : 0 <= m <= n /\ n <= 128;
  rg_edit : NEWLINE ∉ editing s
}.
Definition screen_ok (s : console) : Prop := 0 <= c_pos s < 1920 /\ c_panicked s = false.

Lemma slot_u32 x : slot (u32 x) = slot x.
Proof. unfold slot, u32, INPUT_BUF. f_equal. apply Z.mod_mod_divide. by exists 33554432. Qed.

Lemma u32_dist r n : 0 <= n < 4294967296 -> u32 (u32 (r + n) - r) = n.
Proof. intros Hn. rewrite u32_sub_l. replace (r + n - r) with n by lia. by apply u32_small. Qed.

Lemma ring_count s m n : ring s m n -> u32 (c_e s - c_r s) = n /\ ncommit s = m.
Proof.
  intros [_ _ Hw He Hle _]. unfold ncommit. rewrite He, Hw. split; apply u32_dist; lia.
Qed.

Lemma ring_pending s m n : ring s m n -> pending s = (fun j => cell s (c_r s + j)) <$> seqZ 0 n.
Proof. intros H. unfold pending. by rewrite (proj1 (ring_count s m n H)). Qed.

Lemma ring_length s m n : ring s m n -> length (pending s) = Z.to_nat n.
Proof. intros H. by rewrite (ring_pending s m n H), length_fmap, length_seqZ. Qed.

Lemma committed_editing s : committed s ++ editing s = pending s.
Proof. apply take_drop. Qed.

Lemma ring_lengths s m n : ring s m n ->
  length (committed s) = Z.to_nat m /\ length (editing s) = Z.to_nat (n - m).
Proof.
  intros H. destruct (ring_count s m n H) as [_ Hm]. pose proof (rg_le s m n H).
  unfold committed, editing. rewrite Hm, length_take, length_drop, (ring_length s m n H). lia.
Qed.

(** The indices as the code compares them. *)
Lemma ring_e_w s m n : ring s m n -> (c_e s =? c_w s) = (n =? m).
Proof.
  intros H. pose proof (rg_le s m n H). pose proof (rg_e s m n H) as He. pose proof (rg_w s m n H) as Hw.
  destruct (Z.eqb_spec n m) as [->|Hne]; [rewrite He, Hw; apply Z.eqb_refl|].
  apply Z.eqb_neq. intros E. apply Hne. rewrite <- (u32_dist (c_r s) n), <- (u32_dist (c_r s) m) by lia. congruence.
Qed.
Lemma ring_r_w s m n : ring s m n -> (c_r s =? c_w s) = (m =? 0).
Proof.
  intros H. pose proof (rg_le s m n H). pose proof (rg_r s m n H). pose proof (rg_w s m n H) as Hw.
  destruct (Z.eqb_spec m 0) as [->|Hne]; [rewrite Hw, Z.add_0_r, u32_small by lia; apply Z.eqb_refl|].
  apply Z.eqb_neq. intros E. apply Hne. rewrite <- (u32_dist (c_r s) m) by lia.
  rewrite <- Hw, <- E, Z.sub_diag. done.
Qed.

(** Two places of the ring less than 128 apart are different cells. *)
Lemma slot_ne r j k : 0 <= j < 128 -> 0 <= k < 128 -> j <> k -> slot (r + j) <> slot (r + k).
Proof.
  intros Hj Hk Hne E. unfold slot, INPUT_BUF in E.
  pose proof (Z.mod_pos_bound (r + j) 128 ltac:(lia)). pose proof (Z.mod_pos_bound (r + k) 128 ltac:(lia)).
  apply Z2Nat.inj in E; [|lia..].
  pose proof (Z.div_mod (r + j) 128 ltac:(lia)). pose proof (Z.div_mod (r + k) 128 ltac:(lia)). lia.
Qed.

Section Moves.
Context (s : console) (m n : Z) (H : ring s m n).

Lemma seqZ_last k : 0 <= k -> seqZ 0 (k + 1) = seqZ 0 k ++ [k].
Proof. intros Hk. rewrite seqZ_app by lia. done. Qed.

(** A character is added at the edit index. *)
Lemma pending_push v : n < 128 ->
  pending (set_input (<[slot (c_e s) := v]> (c_buf s)) (c_r s) (c_w s) (u32 (c_e s + 1)) s) = pending s ++ [v].
Proof.
  intros Hn. pose proof (rg_le s m n H). rewrite (ring_pending s m n H). unfold pending. cbn [c_e c_r set_input].
  rewrite (rg_e s m n H), u32_add_l, slot_u32. rewrite <- Z.add_assoc, u32_dist by lia.
  rewrite seqZ_last, fmap_app by lia. f_equal.
  - apply list_fmap_ext. intros i x Hx. apply lookup_seqZ in Hx as [-> Hi]. unfold cell. cbn [c_buf set_input].
    rewrite list_lookup_insert_ne; [done|]. apply not_eq_sym, slot_ne; lia.
  - cbn [fmap list_fmap]. unfold cell. cbn [c_buf set_input]. rewrite list_lookup_insert_eq; [done|].
    rewrite (rg_len s m n H). unfold slot, INPUT_BUF. pose proof (Z.mod_pos_bound (c_r s + n) 128 ltac:(lia)). lia.
Qed.

(** The last character is taken back. *)
Lemma pending_pop : 0 < n ->
  pending (set_input (c_buf s) (c_r s) (c_w s) (u32 (c_e s - 1)) s) = take (Z.to_nat (n - 1)) (pending s).
Proof.
  intros Hn. pose proof (rg_le s m n H). rewrite (ring_pending s m n H). unfold pending. cbn [c_e c_r set_input].
  rewrite (rg_e s m n H), u32_sub_l. replace (c_r s + n - 1) with (c_r s + (n - 1)) by lia.
  rewrite u32_dist by lia. replace n with (n - 1 + 1) at 3 by lia. rewrite seqZ_last, fmap_app by lia.
  rewrite take_app_length' by (rewrite length_fmap, length_seqZ; lia). done.
Qed.

(** The first character is read. *)
Lemma pending_read : 0 < n ->
  pending s = cell s (c_r s) :: pending (set_input (c_buf s) (u32 (c_r s + 1)) (c_w s) (c_e s) s).
Proof.
  intros Hn. pose proof (rg_le s m n H). rewrite (ring_pending s m n H) at 1. unfold pending. cbn [c_e c_r set_input].
  rewrite (rg_e s m n H). replace (c_r s + n) with (c_r s + 1 + (n - 1)) by lia.
  rewrite u32_sub_r, u32_sub_l. replace (c_r s + 1 + (n - 1) - (c_r s + 1)) with (n - 1) by lia.
  rewrite (u32_small (n - 1)) by lia. rewrite (seqZ_cons 0 n) by lia. cbn [fmap list_fmap]. rewrite Z.add_0_r. f_equal.
  replace (Z.pred n) with (n - 1) by lia. change (Z.succ 0) with (1 + 0).
  rewrite <- (fmap_add_seqZ 1 0 (n - 1)), <- list_fmap_compose. apply list_fmap_ext. intros i x Hx.
  simpl. unfold cell. cbn [c_buf set_input]. f_equal. f_equal.
  rewrite <- (slot_u32 (u32 (c_r s + 1) + x)), u32_add_l, slot_u32. f_equal. lia.
Qed.
End Moves.

(** ** Output leaves the input alone *)
Record same_input (s s' : console) : Prop := mkSame {
  si_buf : c_buf s' = c_buf s;
  si_r : c_r s' = c_r s;
  si_w : c_w s' = c_w s;
  si_e : c_e s' = c_e s
}.

Lemma same_pending s s' : same_input s s' -> pending s' = pending s /\ ncommit s' = ncommit s.
Proof. intros [E1 E2 E3 E4]. unfold pending, ncommit, cell. by rewrite E1, E2, E3, E4. Qed.

Lemma same_lines s s' : same_input s s' -> committed s' = committed s /\ editing s' = editing s.
Proof. intros [E1 E2]%same_pending. unfold committed, editing. by rewrite E1, E2. Qed.

Lemma same_ring s s' m n : same_input s s' -> ring s m n -> ring s' m n.
Proof.
  intros Hs [H1 H2 H3 H4 H5 H6]. destruct (same_lines s s' Hs) as [_ He]. destruct Hs as [E1 E2 E3 E4].
  constructor; rewrite ?E1, ?E2, ?E3, ?E4, ?He; done.
Qed.

(** The cursor stays on the first 24 lines, so the test in cgaputc never fails. *)
Lemma cgaputc_wp s c (Q : unit -> console -> Prop) : screen_ok s ->
  (forall s', same_input s s' -> screen_ok s' -> c_out s' = c_out s -> Q tt s') -> wp (cgaputc c) Q s.
Proof.
  intros [Hp Hk] HQ. unfold cgaputc. apply wp_bind, wp_get. cbv zeta beta.
  set (pm := if c =? NEWLINE then _ else _).
  assert (Hb : 0 <= pm.1 <= 1920).
  { unfold pm. pose proof (Z.div_mod (c_pos s) 80 ltac:(lia)). pose proof (Z.mod_pos_bound (c_pos s) 80 ltac:(lia)).
    destruct (c =? NEWLINE); [simpl; lia|]. destruct (c =? BACKSPACE); [|simpl; lia].
    destruct (Z.gtb_spec (c_pos s) 0); simpl; lia. }
  clearbody pm. destruct pm as [p mm]. cbn [fst] in Hb.
  destruct (Z.ltb_spec p 0); [lia|]. destruct (Z.gtb_spec p (25 * 80)); [lia|]. cbn [orb].
  destruct (Z.geb_spec (p / 80) 24) as [Hg|Hg].
  - assert (p = 1920) as -> by (pose proof (Z.div_mod p 80 ltac:(lia)); pose proof (Z.mod_pos_bound p 80 ltac:(lia)); lia).
    apply HQ; [done|split; [cbn [c_pos set_screen]; lia|done]|done].
  - assert (p < 1920) by (pose proof (Z.div_mod p 80 ltac:(lia)); pose proof (Z.mod_pos_bound p 80 ltac:(lia)); lia).
    apply HQ; [done|split; [cbn [c_pos set_screen]; lia|done]|done].
Qed.

Lemma consputc_wp s c (Q : unit -> console -> Prop) : screen_ok s ->
  (forall s', same_input s s' -> screen_ok s' -> Q tt s') -> wp (consputc c) Q s.
Proof.
  intros Hs HQ. unfold consputc. apply wp_bind, wp_get. rewrite (proj2 Hs). apply wp_bind.
  assert (Hu : wp (if c =? BACKSPACE then uartputc 8;; uartputc 32;; uartputc 8 else uartputc c)
    (fun _ s' => same_input s s' /\ screen_ok s') s) by (destruct (c =? BACKSPACE); split; try done; exact Hs).
  refine (wp_mono _ _ _ _ Hu _). intros _ s1 [[E1 E2 E3 E4] Hs1]. apply cgaputc_wp; [done|].
  intros s2 [F1 F2 F3 F4] Hs2 _. apply HQ; [|done]. constructor; congruence.
Qed.

(** ** The line discipline on lists *)
Definition type_char (c : Z) (l : list Z * list Z) : list Z * list Z :=
  if c =? Ctl 80 then l
  else if c =? Ctl 85 then (l.1, [])
  else if (c =? Ctl 72) || (c =? 127) then (l.1, take (length l.2 - 1) l.2)
  else if negb (c =? 0) && (Z.of_nat (length (l.1 ++ l.2)) <? INPUT_BUF) then
    let c := if c =? 13 then NEWLINE else c in
    if (c =? NEWLINE) || (c =? Ctl 68) || (Z.of_nat (length (l.1 ++ l.2)) + 1 =? INPUT_BUF)
    then (l.1 ++ l.2 ++ [c], [])
    else (l.1, l.2 ++ [c])
  else l.

Definition input_lines (s : console) : list Z * list Z := (committed s, editing s).

Lemma unput_wp s m n (Q : unit -> console -> Prop) : ring s m n -> screen_ok s -> m < n ->
  (forall s', ring s' m (n - 1) -> screen_ok s' -> committed s' = committed s ->
     editing s' = take (length (editing s) - 1) (editing s) -> Q tt s') -> wp unput Q s.
Proof.
  intros H Hs Hlt HQ. pose proof (rg_le s m n H) as Hle. unfold unput. apply wp_bind, wp_modify.
  set (s1 := set_input _ _ _ _ s). assert (Hs1 : screen_ok s1) by exact Hs.
  destruct (ring_count s m n H) as [_ Hm]. destruct (ring_lengths s m n H) as [_ Hlen].
  assert (Hm1 : ncommit s1 = m) by exact Hm.
  assert (Hp : pending s1 = take (Z.to_nat (n - 1)) (pending s)) by (apply (pending_pop s m n H); lia).
  assert (Hc1 : committed s1 = committed s).
  { unfold committed. rewrite Hp, Hm1, Hm, take_take. f_equal. lia. }
  assert (He1 : editing s1 = take (length (editing s) - 1) (editing s)).
  { rewrite Hlen. unfold editing. rewrite Hp, Hm1, Hm.
    replace (Z.to_nat (n - 1)) with (Z.to_nat m + (Z.to_nat (n - m) - 1))%nat by lia.
    by rewrite <- take_drop_commute. }
  assert (H1 : ring s1 m (n - 1)).
  { destruct H as [R1 R2 R3 R4 R5 R6]. constructor; [done|done|done| |lia|].
    - unfold s1. cbn [c_e c_r set_input]. rewrite R4, u32_sub_l. f_equal. lia.
    - rewrite He1. intros (j & Hj & _)%elem_of_take. apply R6. by eapply list_elem_of_lookup_2. }
  apply consputc_wp; [done|]. intros s2 Hsame Hs2. destruct (same_lines s1 s2 Hsame) as [Ec Ee].
  apply HQ; [by eapply same_ring|done|congruence|congruence].
Qed.

Lemma last_editing s m n : ring s m n -> m < n -> cell s (c_e s - 1) ∈ editing s.
Proof.
  intros H Hlt. pose proof (rg_le s m n H) as Hle. destruct (ring_count s m n H) as [_ Hm].
  assert (E : cell s (c_e s - 1) = cell s (c_r s + (n - 1))).
  { unfold cell. rewrite (rg_e s m n H), <- (slot_u32 (_ - 1)), u32_sub_l, slot_u32. do 2 f_equal. f_equal. lia. }
  rewrite E. apply (list_elem_of_lookup_2 _ (Z.to_nat (n - 1 - m))). unfold editing. rewrite Hm, lookup_drop.
  rewrite (ring_pending s m n H), list_lookup_fmap.
  assert (Es : seqZ 0 n !! (Z.to_nat m + Z.to_nat (n - 1 - m))%nat = Some (n - 1)) by (apply lookup_seqZ; lia).
  by rewrite Es.
Qed.

Lemma kill_line_wp k : forall s m n (Q : unit -> console -> Prop), ring s m n -> screen_ok s -> n - m < Z.of_nat k ->
  (forall s', ring s' m m -> screen_ok s' -> committed s' = committed s -> editing s' = [] -> Q tt s') ->
  wp (kill_line k) Q s.
Proof.
  induction k as [|k IH]; intros s m n Q H Hs Hk HQ; pose proof (rg_le s m n H) as Hle; [lia|].
  cbn [kill_line]. apply wp_bind, wp_get. rewrite (ring_e_w s m n H). destruct (ring_lengths s m n H) as [_ Hlen].
  destruct (Z.eqb_spec n m) as [->|Hne]; cbn [negb andb].
  { apply HQ; [done|done|done|]. apply nil_length_inv. lia. }
  assert (Hin : cell s (c_e s - 1) ∈ editing s) by (apply (last_editing s m n H); lia).
  assert (Hb : (default 0 (c_buf s !! slot (u32 (c_e s - 1))) =? NEWLINE) = false).
  { rewrite slot_u32. apply Z.eqb_neq. intros E. apply (rg_edit s m n H). rewrite <- E. exact Hin. }
  rewrite Hb. cbn [negb]. apply wp_bind, (unput_wp s m n); [done|done|lia|]. intros s1 H1 Hs1 Ec Ee.
  apply (IH s1 m (n - 1)); [done|done|lia|]. intros s2 H2 Hs2 Ec2 Ee2. apply HQ; [done|done|congruence|done].
Qed.

(** Everything typed is committed: the write index moves to the edit index. *)
Lemma ring_commit s m n : ring s m n ->
  let s' := set_input (c_buf s) (c_r s) (c_e s) (c_e s) s in
  ring s' n n /\ committed s' = committed s ++ editing s /\ editing s' = [].
Proof.
  intros H s'. pose proof (rg_le s m n H) as Hle. destruct (ring_count s m n H) as [Hn _].
  assert (Hp : pending s' = pending s) by done. assert (Hc : ncommit s' = n) by exact Hn.
  pose proof (ring_length s m n H) as Hlen.
  assert (He : editing s' = []) by (unfold editing; rewrite Hp, Hc; apply drop_ge; lia).
  split; [|split; [|done]].
  - destruct H as [R1 R2 R3 R4 R5 R6]. constructor; [done|done|done|done|lia|]. rewrite He. apply not_elem_of_nil.
  - unfold committed at 1. rewrite Hp, Hc, take_ge by lia. by rewrite committed_editing.
Qed.

(** A character goes into the line being typed; a newline only to be committed. *)
Lemma ring_push s m n v : ring s m n -> n < 128 ->
  let s' := set_input (<[slot (c_e s) := v]> (c_buf s)) (c_r s) (c_w s) (u32 (c_e s + 1)) s in
  committed s' = committed s /\ editing s' = editing s ++ [v] /\ (v <> NEWLINE -> ring s' m (n + 1)) /\
  ring (set_input (c_buf s') (c_r s') (c_e s') (c_e s') s') (n + 1) (n + 1) /\ c_e s' = u32 (c_r s + (n + 1)).
Proof.
  intros H Hn s'. pose proof (rg_le s m n H) as Hle. destruct (ring_count s m n H) as [_ Hm].
  pose proof (ring_length s m n H) as Hlen.
  assert (Hp : pending s' = pending s ++ [v]) by (by apply (pending_push s m n H)).
  assert (Hm' : ncommit s' = m) by exact Hm.
  assert (Ec : committed s' = committed s) by (unfold committed; rewrite Hp, Hm', Hm; apply take_app_le; lia).
  assert (Ee : editing s' = editing s ++ [v]) by (unfold editing; rewrite Hp, Hm', Hm; apply drop_app_le; lia).
  assert (Hb : length (c_buf s') = 128%nat) by (simpl; rewrite length_insert; apply H).
  assert (Heq : c_e s' = u32 (c_r s + (n + 1))).
  { unfold s'. cbn [c_e set_input]. rewrite (rg_e s m n H), u32_add_l. f_equal. lia. }
  split_and!; [done|done| | |done].
  - intros Hv. constructor; [done|apply H|apply H|done|lia|]. rewrite Ee, elem_of_app, list_elem_of_singleton.
    intros [?|?]; [by apply (rg_edit s m n H)|congruence].
  - constructor; [done|apply H|done|done|lia|]. unfold editing.
    assert (E : ncommit (set_input (c_buf s') (c_r s') (c_e s') (c_e s') s') = n + 1).
    { unfold ncommit. cbn [c_w c_r set_input]. rewrite Heq. apply u32_dist. lia. }
    rewrite E. change (pending (set_input _ _ _ _ s')) with (pending s'). rewrite Hp, drop_ge; [apply not_elem_of_nil|].
    rewrite length_app. simpl. lia.
Qed.

(** The default case of the switch, for a character that fits. *)
Lemma store_char_wp s m n c (Q : bool -> console -> Prop) : ring s m n -> screen_ok s -> n < 128 -> 0 <= c < 256 ->
  (forall s', (exists m' n', ring s' m' n') -> screen_ok s' ->
     input_lines s' = (if (c =? NEWLINE) || (c =? Ctl 68) || (n + 1 =? INPUT_BUF)
                       then (committed s ++ editing s ++ [c], []) else (committed s, editing s ++ [c])) -> Q false s') ->
  wp (put (set_input (<[slot (c_e s) := c mod 256]> (c_buf s)) (c_r s) (c_w s) (u32 (c_e s + 1)) s);;
      consputc c;;
      s <- get;;
      (if (c =? NEWLINE) || (c =? Ctl 68) || (c_e s =? u32 (c_r s + INPUT_BUF))
       then put (set_input (c_buf s) (c_r s) (c_e s) (c_e s) s)
       else ret tt);;
      ret false) Q s.
Proof.
  intros H Hs Hn Hc HQ. pose proof (rg_le s m n H) as Hle. rewrite Z.mod_small by lia.
  destruct (ring_push s m n c H Hn) as (Ec & Ee & Hr & Hrc & Hce). set (s1 := set_input _ _ _ _ s) in *.
  apply wp_bind. unfold put at 1. unfold wp at 1. apply wp_bind, consputc_wp; [exact Hs|].
  intros s2 Hsame Hs2. apply wp_bind, wp_get. destruct (same_lines s1 s2 Hsame) as [Ec2 Ee2].
  destruct Hsame as [E1 E2 E3 E4].
  assert (Hfull : (c_e s2 =? u32 (c_r s2 + INPUT_BUF)) = (n + 1 =? INPUT_BUF)).
  { rewrite E4, E2, Hce. change (c_r s1) with (c_r s). unfold INPUT_BUF.
    destruct (Z.eqb_spec (n + 1) 128) as [->|Hne]; [apply Z.eqb_refl|]. apply Z.eqb_neq. intros E. apply Hne.
    rewrite <- (u32_dist (c_r s) (n + 1)), <- (u32_dist (c_r s) 128) by lia. congruence. }
  rewrite Hfull. set (full := (_ || _ || _)) in *. destruct full eqn:Ef; unfold full in Ef.
  - apply wp_bind. unfold put, wp. apply HQ; [|exact Hs2|].
    + exists (n + 1), (n + 1). apply (same_ring (set_input (c_buf s1) (c_r s1) (c_e s1) (c_e s1) s1)); [|exact Hrc].
      by constructor.
    + set (s3 := set_input _ _ _ _ s2).
      assert (Hp : pending s3 = pending s ++ [c]).
      { transitivity (pending s1); [|exact (pending_push s m n H c Hn)].
        unfold pending, cell, s3. cbn [c_e c_r c_buf set_input]. by rewrite E1, E2, E4. }
      assert (Hnc : ncommit s3 = n + 1).
      { unfold ncommit, s3. cbn [c_w c_r set_input]. rewrite E4, E2, Hce. apply u32_dist. lia. }
      unfold input_lines, committed at 1, editing at 1.
      rewrite Hp, Hnc, take_ge, drop_ge by (rewrite length_app, (ring_length s m n H); simpl; lia).
      by rewrite <- (committed_editing s), <- app_assoc.
  - apply wp_bind, wp_ret, wp_ret. rewrite !orb_false_iff, Z.eqb_neq in Ef. destruct Ef as [[Hnl _] _].
    apply HQ; [|done|unfold input_lines; by rewrite Ec2, Ee2, Ec, Ee].
    exists m, (n + 1). apply (same_ring s1); [by constructor|by apply Hr].
Qed.

(** C36.  The line discipline.  Whatever character arrives, the interrupt handler
    neither panics nor loops, the ring stays well formed, and the input is changed
    as on two lists: ^U clears the line being typed and ^H takes its last
    character, neither ever touching committed input; any other character is added
    if there is room, and newline, ^D or a full buffer commits the line. *)
Theorem console_line_discipline s m n c (Hring : ring s m n) (Hscreen : screen_ok s) (Hc : 0 <= c < 256) :
  wp (intr c) (fun _ s' => (exists m' n', ring s' m' n') /\ screen_ok s' /\
    input_lines s' = type_char c (input_lines s)) s.
Proof.
  pose proof (rg_le s m n Hring) as Hle. destruct (ring_lengths s m n Hring) as [Hl1 Hl2].
  unfold intr, type_char. destruct (c =? Ctl 80); [apply wp_ret; eauto|].
  destruct (c =? Ctl 85).
  { apply wp_bind, (kill_line_wp _ s m n); [done|done|unfold INPUT_BUF; lia|].
    intros s' H' Hs' Ec Ee. apply wp_ret. split_and!; [eauto|done|unfold input_lines; cbn [fst]; by rewrite Ec, Ee]. }
  destruct ((c =? Ctl 72) || (c =? 127)).
  { apply wp_bind, wp_get. rewrite (ring_e_w s m n Hring). apply wp_bind.
    destruct (Z.eqb_spec n m) as [->|Hne]; cbn [negb].
    - apply wp_ret, wp_ret. split_and!; [eauto|done|]. unfold input_lines. cbn [fst snd].
      f_equal. assert (editing s = []) as -> by (apply nil_length_inv; lia). done.
    - apply (unput_wp s m n); [done|done|lia|]. intros s' H' Hs' Ec Ee. apply wp_ret.
      split_and!; [eauto|done|unfold input_lines; cbn [fst snd]; by rewrite Ec, Ee]. }
  apply wp_bind, wp_get. destruct (ring_count s m n Hring) as [Hn _]. rewrite Hn.
  assert (Hlen : Z.of_nat (length ((input_lines s).1 ++ (input_lines s).2)) = n).
  { cbn [input_lines fst snd]. rewrite committed_editing, (ring_length s m n Hring). lia. }
  rewrite Hlen. destruct (negb (c =? 0) && (n <? INPUT_BUF)) eqn:Eb; [|apply wp_ret; eauto].
  apply andb_true_iff in Eb as [_ Eb%Z.ltb_lt]. cbv zeta.
  apply (store_char_wp s m n); [done|done|done|destruct (c =? 13); unfold NEWLINE; lia|].
  intros s' H' Hs' E. split_and!; [done|done|exact E].
Qed.

(** An empty console, and the letter a typed on it. *)
Definition console0 : console := mkConsole (replicate 128 0) 4294967295 4294967295 4294967295 [] 0 ∅ false.

Lemma console_line_discipline_witness :
  wp (intr 97) (fun _ s' => input_lines s' = ([], [97])) console0.
Proof.
  assert (Hr : ring console0 0 0).
  { constructor; [done|simpl; lia|done|done|lia|apply not_elem_of_nil]. }
  assert (Hs : screen_ok console0) by (split; [simpl; lia|done]).
  refine (wp_mono _ _ _ _ (console_line_discipline console0 0 0 97 Hr Hs ltac:(lia)) _).
  intros _ s' (_ & _ & E). rewrite E. vm_compute. reflexivity.
Defined.

(** ** Reading *)
Lemma ring_read s m n : ring s m n -> 0 < m ->
  let s' := set_input (c_buf s) (u32 (c_r s + 1)) (c_w s) (c_e s) s in
  ring s' (m - 1) (n - 1) /\ committed s = cell s (c_r s) :: committed s' /\ editing s' = editing s.
Proof.
  intros H Hm s'. pose proof (rg_le s m n H) as Hle. destruct (ring_count s m n H) as [_ Hc].
  assert (Hp : pending s = cell s (c_r s) :: pending s') by (apply (pending_read s m n H); lia).
  assert (Hw : c_w s' = u32 (c_r s' + (m - 1))).
  { unfold s'. cbn [c_w c_r set_input]. rewrite (rg_w s m n H), u32_add_l. f_equal. lia. }
  assert (Hc' : ncommit s' = m - 1) by (unfold ncommit; rewrite Hw; apply u32_dist; lia).
  assert (Hmm : Z.to_nat m = S (Z.to_nat (m - 1))) by lia.
  assert (Ee : editing s' = editing s) by (unfold editing; rewrite Hc, Hc', Hmm, Hp; done).
  split_and!; [|unfold committed; rewrite Hc, Hc', Hmm, Hp; done|done].
  constructor; [apply H|apply u32_range|done| |lia|rewrite Ee; apply H].
  unfold s'. cbn [c_e c_r set_input]. rewrite (rg_e s m n H), u32_add_l. f_equal. lia.
Qed.

(** A read that asks for enough gets one line, with its newline, and leaves the rest
    of the input as it was. *)
Lemma read_line killed target l : forall k s m n rest, ring s m n -> committed s = l ++ NEWLINE :: rest ->
  NEWLINE ∉ l -> Ctl 68 ∉ l -> (length l < k)%nat ->
  wp (read_chars killed k target) (fun r s' => r = Some (l ++ [NEWLINE]) /\ input_lines s' = (rest, editing s) /\
    exists m' n', ring s' m' n') s.
Proof.
  induction l as [|x l IH]; intros [|k] s m n rest H E Hnl Heof Hk; simpl in Hk; try lia;
    cbn [read_chars]; apply wp_bind, wp_get; rewrite (ring_r_w s m n H);
    destruct (ring_lengths s m n H) as [Hlen _]; rewrite E in Hlen; simpl in Hlen;
    (destruct (Z.eqb_spec m 0) as [->|Hm]; [simpl in Hlen; lia|]);
    pose proof (rg_le s m n H); destruct (ring_read s m n H ltac:(lia)) as (H1 & Ec & Ee);
    rewrite E in Ec; injection Ec as Ex Er; cbv zeta;
    change (default 0 (c_buf s !! slot (c_r s))) with (cell s (c_r s)); rewrite <- Ex; apply wp_bind;
    unfold put at 1; unfold wp at 1.
  - apply wp_ret. split_and!; [done|unfold input_lines; by rewrite <- Er, Ee|eauto].
  - apply not_elem_of_cons in Hnl as [Hx Hnl]. apply not_elem_of_cons in Heof as [Hx' Heof].
    destruct (Z.eqb_spec x (Ctl 68)); [congruence|]. destruct (Z.eqb_spec x NEWLINE); [congruence|].
    apply wp_bind. refine (wp_mono _ _ _ _ (IH k _ _ _ rest H1 (eq_sym Er) Hnl Heof ltac:(lia)) _).
    intros r s' (-> & E' & Hr). apply wp_ret. rewrite E', Ee. done.
Qed.

(** ** The console keeps the inode locks, as the file system expects of a device *)
Lemma ondev_keeps {A} (c : M console A) : keepsM held (ondev c).
Proof. intros s a s' H. unfold ondev, zoom in H. destruct (c (devst s)); try done. by injection H as <- <-. Qed.

(** ilock and iunlock do not depend on the devices. *)
Definition no_devsw : Devsw console := {| dev_read _ := None; dev_write _ := None |}.
Lemma no_devsw_read mj (rd : nat -> Z -> M (fsst console) (option (list Z))) i n f r f' :
  @dev_read console (no_devsw) mj = Some rd -> rd i n f = Ret r f' -> held f' = held f.
Proof. done. Qed.
Lemma no_devsw_write mj (wr : nat -> list Z -> M (fsst console) (option Z)) i src f r f' :
  @dev_write console (no_devsw) mj = Some wr -> wr i src f = Ret r f' -> held f' = held f.
Proof. done. Qed.

Lemma relock_keeps {A} i (c : M console A) : keepsM held (iunlock i;; r <- ondev c;; ilock i;; ret r).
Proof.
  apply keepsM_tr. intros h. apply tr_bind. eapply tr_mono; [apply (tr_iunlock no_devsw_read no_devsw_write)|]. intros _ y [Hi ->].
  apply tr_bind, tr_keep; [apply ondev_keeps|]. intros r. apply tr_bind.
  eapply tr_mono; [apply (tr_ilock no_devsw_read no_devsw_write)|]. intros _ y [_ ->]. apply tr_ret.
  apply set_eq. intros x. destruct (decide (x = i)); set_solver.
Qed.

Lemma console_read_keeps killed mj rd i n f r f' :
  @dev_read console (console_devsw killed) mj = Some rd -> rd i n f = Ret r f' -> held f' = held f.
Proof.
  cbn [dev_read console_devsw]. destruct (mj =? CONSOLE); [|done]. intros [= <-]. apply relock_keeps.
Qed.

Lemma console_write_keeps killed mj wr i src f r f' :
  @dev_write console (console_devsw killed) mj = Some wr -> wr i src f = Ret r f' -> held f' = held f.
Proof.
  cbn [dev_write console_devsw]. destruct (mj =? CONSOLE); [|done]. intros [= <-] H. unfold consolewrite in H.
  assert (Hk : keepsM held (iunlock i;; u <- ondev (consputs (map (fun b => Z.land b 255) src));; ilock i;; ret u)) by apply relock_keeps.
  unfold bind in H, Hk. specialize (Hk f). cbv beta in Hk.
  destruct (iunlock i f) as [[] f1| | |]; try done. destruct (ondev _ f1) as [[] f2| | |]; try done.
  destruct (ilock i f2) as [[] f3| | |]; try done. injection H as _ <-. by apply (Hk tt f3).
Qed.

(** The whole kernel with its console: system calls are balanced, reads and writes of
    the console included. *)
Lemma console_kernel_balanced {LS : LinkSyms} killed initcode forkret ticks_addr cur cpu :
  keepsM sys_txns (@syscall console (console_devsw killed) LS initcode forkret ticks_addr cur cpu).
Proof. apply keep_syscall; [apply console_read_keeps|apply console_write_keeps]. Qed.
