(* ===== verification/FsLog.v ===== *)
(** * The file system over the log (fs.c on log.c and bio.c)

    Fs.v runs on the blocks as the current transaction sees them.  Here every
    routine of fs.c is shown to reach the disk only through reads and logged
    updates of single blocks, its result depending on nothing else of the disk, and
    those calls are run on the log of Log.v over any buffer cache: between begin_op
    and end_op they leave on the disk what Fs.v computes, all of it or, when the
    machine stops on the way, none of it. *)

From stdpp Require Import base numbers list gmap strings.
From Stdlib Require Import ZArith Lia.
From S2P Require Import Prelude Block BlockCache Bio Log LogInv LogCommit LogCrash LogOps Mem Fs FsRw FsDir File Console.

Local Open Scope Z_scope.
Local Open Scope kernel_scope.

(** ** Calls on blocks *)

(** A bread that found [d], and a log_write of the content [d]. *)
Inductive bop := Rd (b : Z) (d : block) | Wr (b : Z) (d : block).

(** The blocks and the list of those that are logged. *)
Abbreviation dview := (gmap Z block * list Z)%type.

Definition rd (x : dview) (b : Z) : block := default zero_block (x.1 !! b).
Definition log_add (b : Z) (l : list Z) : list Z := if decide (b ∈ l) then l else l ++ [b].

(** The effect of the calls on a disk of [n] blocks; [None] when a block is out of
    range or a read finds something else. *)
Fixpoint play (n : Z) (ops : list bop) (x : dview) : option dview :=
  match ops with
  | [] => Some x
  | Rd b d :: ops' => if decide (0 <= b < n /\ rd x b = d) then play n ops' x else None
  | Wr b d :: ops' => if decide (0 <= b < n) then play n ops' (<[b := d]> x.1, log_add b x.2) else None
  end.

Definition bop_ok (o : bop) : Prop := match o with Rd _ _ => True | Wr _ d => block_ok d end.
Definition view_ok (x : dview) : Prop := forall b, block_ok (rd x b).

Lemma play_app n ops1 ops2 x : play n (ops1 ++ ops2) x = play n ops1 x ≫= play n ops2.
Proof.
  revert x. induction ops1 as [|[b d|b d] ops1 IH]; intros x; simpl; [done| |]; destruct (decide _); auto.
Qed.

Lemma rd_insert x b d l b' : rd (<[b := d]> x.1, l) b' = if b' =? b then d else rd x b'.
Proof.
  unfold rd. simpl. destruct (Z.eqb_spec b' b) as [->|]; [by rewrite lookup_insert_eq|by rewrite lookup_insert_ne].
Qed.

Lemma play_ok n ops x y : play n ops x = Some y -> Forall bop_ok ops -> view_ok x -> view_ok y.
Proof.
  revert x. induction ops as [|[b d|b d] ops IH]; intros x H Hf Hx; simpl in H; [by injection H as <-| |];
    (destruct (decide _); [|done]); apply Forall_cons in Hf as [Ho Hf]; eapply IH; eauto.
  intros b'. rewrite rd_insert. by destruct (b' =? b).
Qed.

Section Traced.
Context {D : Type}.
Implicit Types f : fsst D.

Definition disk f : dview := (blk f, Fs.logged f).
Definition with_disk (x : dview) f : fsst D := set_blk x.1 (set_logged x.2 f).

Lemma with_disk_id f : with_disk (disk f) f = f.
Proof. by destruct f. Qed.

(** [c] reaches the disk by calls alone: what it did is the effect of a list of
    calls, and on any other disk where the reads find the same it returns the same
    and does the same. *)
Definition traced {A} (c : M (fsst D) A) : Prop := forall f a f',
  view_ok (disk f) -> c f = Ret a f' ->
  exists ops, play (disksize f) ops (disk f) = Some (disk f') /\ Forall bop_ok ops /\
    disksize f' = disksize f /\
    forall x y, play (disksize f) ops x = Some y -> c (with_disk x f) = Ret a (with_disk y f').

Lemma traced_local {A} (c : M (fsst D) A) :
  (forall f a f', c f = Ret a f' -> disk f' = disk f /\ disksize f' = disksize f /\
     forall x, c (with_disk x f) = Ret a (with_disk x f')) -> traced c.
Proof.
  intros H f a f' _ E. destruct (H f a f' E) as (H1 & H2 & H3). exists []. rewrite H1. split_and!; try done.
  intros x y [= <-]. apply H3.
Qed.

Lemma traced_ret {A} (a : A) : traced (ret a).
Proof. apply traced_local. by intros f b f' [= <- <-]. Qed.

Lemma traced_stop {A} (c : M (fsst D) A) : (forall f, match c f with Ret _ _ => False | _ => True end) -> traced c.
Proof. intros H f a f' _ E. specialize (H f). by rewrite E in H. Qed.

Lemma traced_bind {A B} (c : M (fsst D) A) (k : A -> M (fsst D) B) :
  traced c -> (forall a, traced (k a)) -> traced (bind c k).
Proof.
  intros Hc Hk f b f' Hf E. unfold bind in E. destruct (c f) as [a f1| | |] eqn:E1; try done.
  destruct (Hc f a f1 Hf E1) as (ops1 & P1 & O1 & N1 & R1).
  destruct (Hk a f1 b f' (play_ok _ _ _ _ P1 O1 Hf) E) as (ops2 & P2 & O2 & N2 & R2). rewrite N1 in P2, N2, R2.
  exists (ops1 ++ ops2). split_and!; [by rewrite play_app, P1|by apply Forall_app|done|].
  intros x y H. rewrite play_app in H. destruct (play (disksize f) ops1 x) as [z|] eqn:Ez; [|done].
  unfold bind. by rewrite (R1 x z Ez), (R2 z y H).
Qed.

(** Code that looks at the state, other than its blocks. *)
Lemma traced_get {B} (k : fsst D -> M (fsst D) B) :
  (forall f x, k (with_disk x f) = k f) -> (forall f, traced (k f)) -> traced (bind get k).
Proof.
  intros He Hk f b f' Hf E. rewrite bind_get in E. destruct (Hk f f b f' Hf E) as (ops & P & O & N & R).
  exists ops. split_and!; try done. intros x y H. rewrite bind_get, He. by apply R.
Qed.

Lemma traced_modify (g : fsst D -> fsst D) :
  (forall f, disk (g f) = disk f /\ disksize (g f) = disksize f) ->
  (forall f x, g (with_disk x f) = with_disk x (g f)) -> traced (modify g).
Proof.
  intros H1 H2. apply traced_local. intros f [] f' [= <-]. destruct (H1 f). split_and!; try done.
  intros x. unfold modify. by rewrite H2.
Qed.

Lemma check_blk_ret dev b f a f' : check_blk dev b f = Ret a f' ->
  0 <= b < disksize f /\ f' = f /\ forall g : fsst D, disksize g = disksize f -> check_blk dev b g = Ret a g.
Proof.
  unfold check_blk. rewrite bind_get. destruct (dev =? 1) eqn:Ed; [|done]. cbn [negb].
  destruct (Z.leb_spec 0 b), (Z.ltb_spec b (disksize f)); simpl; try done. intros [= <- <-]. split; [done|].
  split; [done|]. intros g Hg. rewrite bind_get, Hg.
  destruct (Z.leb_spec 0 b), (Z.ltb_spec b (disksize f)); try lia. done.
Qed.

(** A block that was read is the new content of nothing else. *)
Lemma traced_bread {B} dev b (k : block -> M (fsst D) B) :
  (forall d, block_ok d -> traced (k d)) -> traced (bind (bread dev b) k).
Proof.
  intros Hk f a f' Hf E. unfold bread, bind in E. destruct (check_blk dev b f) as [[] f1| | |] eqn:E1; try done.
  apply check_blk_ret in E1 as (Hb & -> & Hg). cbn in E. fold (rd (disk f) b) in E.
  destruct (Hk _ (Hf b) f a f' Hf E) as (ops & P & O & N & R).
  exists (Rd b (rd (disk f) b) :: ops). cbn [play]. rewrite decide_True by done.
  split_and!; [done|by constructor|done|]. intros x y H. destruct (decide _) as [[_ Ex]|]; [|done].
  unfold bread, bind. rewrite Hg by done. cbn. change (default zero_block (x.1 !! b)) with (rd x b). rewrite Ex.
  by apply R.
Qed.

Lemma traced_bupdate dev b d : block_ok d -> traced (bupdate dev b d).
Proof.
  intros Hd f a f' Hf E. unfold bupdate, bind in E. destruct (check_blk dev b f) as [[] f1| | |] eqn:E1; try done.
  apply check_blk_ret in E1 as (Hb & -> & Hg). injection E as <- <-.
  exists [Wr b d]. cbn [play]. rewrite decide_True by done. split_and!; [done|by apply Forall_singleton|done|].
  intros x y H. rewrite decide_True in H by done. injection H as <-. unfold bupdate, bind. by rewrite Hg.
Qed.
End Traced.

Create HintDb traceddb discriminated.

(** The structure of a routine: sequencing, branches, reads of the state. *)
Ltac traced_step :=
  match goal with
  | |- forall _, _ => intros ?
  | |- traced (bind get _) => apply traced_get; [intros; reflexivity|]
  | |- traced (bind (bread _ _) _) => apply traced_bread
  | |- traced (bind _ _) => apply traced_bind
  | |- traced (ret _) => apply traced_ret
  | |- traced (panic _) => apply traced_stop; done
  | |- traced undef => apply traced_stop; done
  | |- traced hang => apply traced_stop; done
  | |- traced (modify _) => apply traced_modify; intros; done
  | |- traced (let _ := _ in _) => cbv zeta
  | |- traced (match ?x with _ => _ end) => destruct x
  | |- traced _ => solve [auto with traceddb]
  end.
Ltac traced_tac := repeat traced_step.

(** ** The routines of fs.c *)
Section Routines.
Context {D : Type} `{DV : Devsw D}.

Lemma traced_readsb dev : traced (D := D) (readsb dev).
Proof. unfold readsb. traced_tac. Qed.

Lemma traced_bzero dev b : traced (D := D) (bzero dev b).
Proof. unfold bzero. traced_tac. apply traced_bupdate, puts_ok; [done|apply zero_block_ok]. Qed.
Hint Resolve traced_readsb traced_bzero : traceddb.

Lemma traced_balloc dev : traced (D := D) (balloc dev).
Proof.
  unfold balloc. apply traced_get; [done|]. intros f. generalize 0. generalize (Z.to_nat (sb_size (sb f) / BPB) + 2)%nat.
  intros k. induction k as [|k IH]; intros b; cbn [balloc_loop]; traced_tac.
  by apply traced_bupdate, putb_ok.
Qed.

Lemma traced_bfree dev b : traced (D := D) (bfree dev b).
Proof. unfold bfree. traced_tac. by apply traced_bupdate, putb_ok. Qed.

Lemma traced_inode_at i : traced (D := D) (inode_at i).
Proof. unfold inode_at. traced_tac. Qed.
Hint Resolve traced_balloc traced_bfree traced_inode_at : traceddb.

Lemma traced_upd_inode i g : traced (D := D) (upd_inode i g).
Proof. unfold upd_inode. traced_tac. Qed.
Hint Resolve traced_upd_inode : traceddb.

Lemma traced_iget dev inum : traced (D := D) (iget dev inum).
Proof. unfold iget. traced_tac. Qed.
Hint Resolve traced_iget : traceddb.

Lemma traced_ialloc dev type : traced (D := D) (ialloc dev type).
Proof.
  unfold ialloc. apply traced_get; [done|]. intros f. generalize 1. generalize (Z.to_nat (sb_ninodes (sb f)) + 1)%nat.
  intros k. induction k as [|k IH]; intros inum; cbn [ialloc_loop]; traced_tac.
  apply traced_bupdate, put16_ok, puts_ok; [done|]. by apply Forall_replicate.
Qed.

Lemma traced_iupdate i : traced (D := D) (iupdate i).
Proof. unfold iupdate. traced_tac. by apply traced_bupdate, store_dinode_ok. Qed.

Lemma traced_idup i : traced (D := D) (idup i).
Proof. unfold idup. traced_tac. Qed.

Lemma traced_iacquire i : traced (D := D) (iacquire i).
Proof. unfold iacquire. traced_tac. Qed.
Hint Resolve traced_ialloc traced_iupdate traced_idup traced_iacquire : traceddb.

Lemma traced_ilock i : traced (D := D) (ilock i).
Proof. unfold ilock. traced_tac. Qed.

Lemma traced_iunlock i : traced (D := D) (iunlock i).
Proof. unfold iunlock. traced_tac. Qed.

Lemma traced_bmap i bn : traced (D := D) (bmap i bn).
Proof. unfold bmap. traced_tac; by apply traced_bupdate, put32_ok. Qed.
Hint Resolve traced_ilock traced_iunlock traced_bmap : traceddb.

Lemma traced_trunc_direct k i : forall j, traced (D := D) (trunc_direct k i j).
Proof. induction k as [|k IH]; intros j; cbn [trunc_direct]; traced_tac. Qed.

Lemma traced_trunc_indirect k dev d : forall j, traced (D := D) (trunc_indirect k dev d j).
Proof. induction k as [|k IH]; intros j; cbn [trunc_indirect]; traced_tac. Qed.
Hint Resolve traced_trunc_direct traced_trunc_indirect : traceddb.

Lemma traced_itrunc i : traced (D := D) (itrunc i).
Proof. unfold itrunc. traced_tac. Qed.
Hint Resolve traced_itrunc : traceddb.

Lemma traced_iput i : traced (D := D) (iput i).
Proof. unfold iput. traced_tac. Qed.
Hint Resolve traced_iput : traceddb.

Lemma traced_iunlockput i : traced (D := D) (iunlockput i).
Proof. unfold iunlockput. traced_tac. Qed.
Hint Resolve traced_iunlockput : traceddb.

Lemma traced_iinit dev : traced (D := D) (iinit dev).
Proof. unfold iinit. traced_tac. Qed.

Lemma traced_stati i : traced (D := D) (stati i).
Proof. unfold stati. traced_tac. Qed.
Hint Resolve traced_iinit traced_stati : traceddb.

(** The routines of the devices do not touch the disk but by calls. *)
Class DevTraced : Prop := {
  traced_dev_read k r : dev_read k = Some r -> forall i n, traced (r i n);
  traced_dev_write k w : dev_write k = Some w -> forall i l, traced (w i l)
}.
Context `{DT : DevTraced}.

Lemma traced_readi_loop k i n : forall off tot, traced (D := D) (readi_loop k i off tot n).
Proof. induction k as [|k IH]; intros off tot; cbn [readi_loop]; traced_tac. Qed.
Hint Resolve traced_readi_loop : traceddb.

Lemma traced_readi i off n : traced (readi i off n).
Proof.
  unfold readi. apply traced_bind; [apply traced_inode_at|]. intros ip.
  destruct (dev_read (i_major ip)) eqn:E; traced_tac. by eapply traced_dev_read.
Qed.

Lemma traced_writei_loop k i n : forall src off tot, Forall (fun b => 0 <= b < 256) src ->
  traced (D := D) (writei_loop k i src off tot n).
Proof.
  induction k as [|k IH]; intros src off tot Hs; cbn [writei_loop]; traced_tac.
  - apply traced_bupdate, puts_ok; [done|]. by apply Forall_take.
  - by apply IH, Forall_drop.
Qed.

Lemma traced_writei i src off : Forall (fun b => 0 <= b < 256) src -> traced (writei i src off).
Proof.
  intros Hs. unfold writei. apply traced_bind; [apply traced_inode_at|]. intros ip.
  destruct (dev_write (i_major ip)) eqn:E; traced_tac; first [by apply traced_writei_loop|by eapply traced_dev_write].
Qed.
Hint Resolve traced_readi : traceddb.

Lemma traced_dirlookup i name : traced (dirlookup i name).
Proof.
  unfold dirlookup. apply traced_bind; [apply traced_inode_at|]. intros ip. destruct (negb _); traced_tac.
  generalize 0. generalize (Z.to_nat (i_size ip / sizeof_dirent) + 2)%nat. intros k.
  induction k as [|k IH]; intros off; cbn [dirlookup_loop]; traced_tac.
Qed.

Lemma traced_dirlink_loop k i : forall off, traced (dirlink_loop k i off).
Proof. induction k as [|k IH]; intros off; cbn [dirlink_loop]; traced_tac. Qed.
Hint Resolve traced_dirlookup traced_dirlink_loop : traceddb.

Lemma traced_dirlink i name inum : Forall (fun b => 0 <= b < 256) name -> traced (dirlink i name inum).
Proof.
  intros Hn. unfold dirlink. traced_tac. apply traced_writei. unfold mk_dirent. apply Forall_app.
  split; [apply le16_ok|by apply strncpy_bytes].
Qed.

Lemma traced_namex cwd path np : traced (namex cwd path np).
Proof.
  unfold namex. apply traced_bind; [traced_tac|]. intros i. generalize (@nil Z). generalize (S (length path)).
  intros k. revert i path. induction k as [|k IH]; intros i path name; cbn [namex_loop]; traced_tac.
Qed.

(** Code put together from calls of fs.c and assignments to the fields of an
    inode: what runs between a begin_op and its end_op. *)
Inductive fs_code : forall {A}, M (fsst D) A -> Prop :=
| fc_ret A (a : A) : fs_code (ret a)
| fc_bind A B (c : M (fsst D) A) (k : A -> M (fsst D) B) : fs_code c -> (forall a, fs_code (k a)) -> fs_code (bind c k)
| fc_balloc dev : fs_code (balloc dev)
| fc_bfree dev b : fs_code (bfree dev b)
| fc_iget dev inum : fs_code (iget dev inum)
| fc_ialloc dev type : fs_code (ialloc dev type)
| fc_iupdate i : fs_code (iupdate i)
| fc_idup i : fs_code (idup i)
| fc_ilock i : fs_code (ilock i)
| fc_iunlock i : fs_code (iunlock i)
| fc_iput i : fs_code (iput i)
| fc_stati i : fs_code (stati i)
| fc_readi i off n : fs_code (readi i off n)
| fc_writei i src off : Forall (fun b => 0 <= b < 256) src -> fs_code (writei i src off)
| fc_dirlookup i name : fs_code (dirlookup i name)
| fc_dirlink i name inum : Forall (fun b => 0 <= b < 256) name -> fs_code (dirlink i name inum)
| fc_namex cwd path np : fs_code (namex cwd path np)
| fc_field i : fs_code (inode_at i)
| fc_assign i g : fs_code (upd_inode i g).

Lemma fs_code_traced {A} (c : M (fsst D) A) : fs_code c -> traced c.
Proof.
  induction 1; auto using traced_ret, traced_bind, traced_writei, traced_dirlink, traced_namex with traceddb.
Qed.
End Routines.

(** ** The calls on the log *)
Section OnLog.
Context {S : Type} {BC : BlockCache S} {BL : BlockCacheLaws S}.
Implicit Types s : logst S.

(** bread and brelse of a block that is only read; bread, the stores, log_write and
    brelse of a block that is changed. *)
Definition disk_call (o : bop) : M (logst S) unit :=
  match o with
  | Rd b d =>
      i <- lift (bc_read ROOTDEV b);;
      d' <- lift (bc_data i);;
      lift (bc_relse i);;
      if decide (d' = d) then ret tt else undef
  | Wr b d =>
      i <- lift (bc_read ROOTDEV b);;
      lift (bc_set i d);;
      log_write i;;
      lift (bc_relse i)
  end.

Fixpoint disk_calls (ops : list bop) : M (logst S) unit :=
  match ops with
  | [] => ret tt
  | o :: ops' => disk_call o;; disk_calls ops'
  end.

(** begin_op, the calls, end_op. *)
Definition transaction (ops : list bop) : M (logst S) unit :=
  ok <- Log.begin_op;;
  if ok : bool then disk_calls ops;; Log.end_op else hang.

(** In the middle of a transaction: the cache shows the blocks [x.1], and those of
    [x.2] are logged and pinned. *)
Record backed (x : dview) s : Prop := mkBacked {
  bk_ok : log_ok s x.2;
  bk_dirty : forall b, b ∈ x.2 -> dirty (bc s) b = true;
  bk_view : forall b, 0 <= b < nblk (bc s) -> view (bc s) b = rd x b;
  bk_open : 1 <= Log.outstanding s
}.

(** Nothing has reached the disk. *)
Record quiet s s' : Prop := mkQuiet {
  q_trace : trace (bc s') = trace (bc s);
  q_disk : forall b, ondisk (bc s') b = ondisk (bc s) b;
  q_nblk : nblk (bc s') = nblk (bc s);
  q_place : log_place s' = log_place s;
  q_open : Log.outstanding s' = Log.outstanding s
}.

Lemma quiet_trans s1 s2 s3 : quiet s1 s2 -> quiet s2 s3 -> quiet s1 s3.
Proof. intros [] []. split; [congruence| |congruence..]. intros b. by transitivity (ondisk (bc s2) b). Qed.

Lemma read_wp {A} s l b (K : nat -> M (logst S) A) Q :
  log_ok s l -> 0 <= b < nblk (bc s) ->
  (forall i c', bc_inv c' -> nblk c' = nblk (bc s) -> owns c' i b -> trace c' = trace (bc s) ->
     (forall x, view c' x = view (bc s) x) -> (forall x, ondisk c' x = ondisk (bc s) x) ->
     (forall x, dirty c' x = dirty (bc s) x) -> (forall x, held c' x = (x =? b)) ->
     wp (K i) Q (set_bc c' s)) ->
  wp (i <- lift (bc_read ROOTDEV b);; K i) Q s.
Proof.
  intros Hok Hb HK. apply wp_bind, wp_lift. eapply wp_mono.
  - apply (law_read (bc s) b l); [apply Hok|done|apply Hok|by apply log_reads|]. right. apply Hok.
  - intros i c' ([Hi Hn] & Ho & Ht & Hv & Hd & Hdt & Hh & _). apply HK; try done.
    intros x. rewrite Hh. destruct (x =? b); [done|apply (lo_held _ _ Hok)].
Qed.

Lemma log_ok_same s c' l : log_ok s l -> bc_inv c' -> nblk c' = nblk (bc s) ->
  (forall x, held c' x = false) -> (forall x, dirty c' x = dirty (bc s) x) -> log_ok (set_bc c' s) l.
Proof.
  intros [] Hi Hn Hh Hd. split; simpl; rewrite ?Hn; try done. intros b. rewrite Hd. auto.
Qed.

Lemma disk_read_wp x s b :
  backed x s -> 0 <= b < nblk (bc s) -> wp (disk_call (Rd b (rd x b))) (fun _ s' => backed x s' /\ quiet s s') s.
Proof.
  intros [Hok Hdt Hv Ho] Hb. cbn [disk_call]. apply (read_wp s x.2); [done..|].
  intros i c1 Hi1 Hn1 Ho1 Ht1 Hv1 Hd1 Hdt1 Hh1.
  apply wp_bind, wp_lift. eapply wp_mono; [by apply (law_data c1 i b)|]. intros d c [-> ->].
  apply wp_bind, wp_lift. cbn [bc set_bc]. eapply wp_mono; [apply (law_relse c1 i b); [done..|]|].
  { rewrite Hdt1, Hv1, Hd1. destruct (dirty (bc s) b) eqn:E; [by left|right].
    apply law_clean; [apply Hok|done|apply Hok]. }
  intros _ c2 ([Hi2 Hn2] & Ht2 & Hv2 & Hd2 & Hdt2 & Hh2 & _). rewrite Hv1, Hv, decide_True by done. apply wp_ret.
  assert (Hh : forall y, held c2 y = false) by (intros y; rewrite Hh2, Hh1; by destruct (y =? b)).
  split; [split|split]; simpl; try done; try congruence.
  - apply (log_ok_same _ c2 _ Hok); [done|congruence|done|]. intros y. by rewrite Hdt2, Hdt1.
  - intros y Hy. rewrite Hdt2, Hdt1. by apply Hdt.
  - intros y Hy. rewrite Hv2, Hv1. apply Hv. congruence.
Qed.

Lemma log_ok_logged s l : log_ok s l -> LogOps.logged s l.
Proof. intros []. by split. Qed.

(** The log after one more block, which lies outside it. *)
Lemma log_ok_add s l b s' : log_ok s l -> 0 <= b < nblk (bc s) -> ~ in_log s b ->
  Z.of_nat (length (log_add b l)) < lsize s -> Z.of_nat (length (log_add b l)) < NBUF ->
  LogOps.logged s' (log_add b l) -> bc_inv (bc s') -> nblk (bc s') = nblk (bc s) -> log_place s' = log_place s ->
  (forall x, held (bc s') x = false) -> (forall x, dirty (bc s') x = if x =? b then true else dirty (bc s) x) ->
  log_ok s' (log_add b l).
Proof.
  intros [] Hb Hl Hs Hn [] Hi En [= E1 E2 E3 _] Hh Hd. unfold in_log in *. split; rewrite ?En, ?E1, ?E2, ?E3; try done.
  - unfold in_log. rewrite E1, E2. unfold log_add. destruct (decide _); [done|]. apply Forall_app. split; [done|].
    by apply Forall_singleton.
  - intros x. rewrite Hd. unfold log_add. destruct (Z.eqb_spec x b) as [->|]; intros Hx.
    + destruct (decide _); [done|]. apply elem_of_app. right. by apply list_elem_of_singleton.
    + destruct (decide _); [auto|]. apply elem_of_app. left. auto.
Qed.

Lemma disk_write_wp x s b d :
  backed x s -> 0 <= b < nblk (bc s) -> ~ in_log s b -> block_ok d ->
  Z.of_nat (length (log_add b x.2)) < lsize s - 1 -> Z.of_nat (length (log_add b x.2)) < NBUF ->
  wp (disk_call (Wr b d)) (fun _ s' => backed (<[b := d]> x.1, log_add b x.2) s' /\ quiet s s') s.
Proof.
  intros [Hok Hdt Hv Ho] Hb Hl Hd Hs Hn. cbn [disk_call]. apply (read_wp s x.2); [done..|].
  intros i c1 Hi1 Hn1 Ho1 Ht1 Hv1 Hd1 Hdt1 Hh1.
  apply wp_bind, wp_lift. cbn [bc set_bc]. eapply wp_mono; [by apply (law_set c1 i b d)|].
  intros _ c2 ([Hi2 Hn2] & Ht2 & Hv2 & Hd2 & Hdt2 & Hh2 & Ho2).
  assert (Hlen : (length x.2 <= length (log_add b x.2))%nat)
    by (unfold log_add; destruct (decide _); [done|]; rewrite length_app; lia).
  pose proof (lo_n _ _ Hok) as En. unfold NBUF, LOGSIZE, MAXOPBLOCKS in *.
  apply wp_bind. eapply wp_mono; [apply (log_write_wp (set_bc c2 (set_bc c1 s)) x.2 i b)|]; simpl; try done.
  { by apply Ho2. }
  { by destruct (log_ok_logged s x.2 Hok). }
  { unfold LOGSIZE, MAXOPBLOCKS. lia. }
  { lia. }
  intros _ s3 (Hlg & Hi3 & Ho3 & Ht3 & Hv3 & Hd3 & Hdt3 & Hh3 & Hw3 & Hn3 & Hp3). simpl in *.
  apply wp_lift. eapply wp_mono; [apply (law_relse (bc s3) i b); [done|by apply Hw3, Ho2|]|].
  { left. by rewrite Hdt3, Z.eqb_refl. }
  intros _ c4 ([Hi4 Hn4] & Ht4 & Hv4 & Hd4 & Hdt4 & Hh4 & _).
  assert (Edt : forall y, dirty c4 y = if y =? b then true else dirty (bc s) y).
  { intros y. rewrite Hdt4, Hdt3. destruct (y =? b); [done|]. by rewrite Hdt2, Hdt1. }
  split; [split|split]; simpl; try congruence.
  - apply (log_ok_add s); simpl; try done; try lia; try congruence; [by destruct Hlg|].
    intros y. rewrite Hh4, Hh3, Hh2, Hh1. by destruct (y =? b).
  - intros y Hy. rewrite Edt. destruct (Z.eqb_spec y b); [done|]. apply Hdt.
    unfold log_add in Hy. destruct (decide _); [done|]. apply elem_of_app in Hy as [|Hy]; [done|].
    by apply list_elem_of_singleton in Hy.
  - intros y Hy. rewrite Hv4, Hv3, Hv2, rd_insert. destruct (y =? b); [done|]. rewrite Hv1. apply Hv. congruence.
  - exact Hp3.
Qed.

Lemma play_logs n ops x y : play n ops x = Some y -> x.2 `prefix_of` y.2.
Proof.
  revert x. induction ops as [|[b d|b d] ops IH]; intros x H; simpl in H; [by injection H as <-| |];
    (destruct (decide _); [|done]); apply IH in H; [done|]. simpl in H. etransitivity; [|exact H].
  unfold log_add. destruct (decide _); [done|]. by apply prefix_app_r.
Qed.

Lemma quiet_same_log s s' b : quiet s s' -> in_log s' b <-> in_log s b.
Proof. intros [_ _ _ [= E1 E2 _ _] _]. unfold in_log. by rewrite E1, E2. Qed.

Lemma disk_calls_wp ops : forall x y s,
  backed x s -> play (nblk (bc s)) ops x = Some y -> Forall bop_ok ops ->
  (forall b, b ∈ y.2 -> ~ in_log s b) ->
  Z.of_nat (length y.2) < lsize s - 1 -> Z.of_nat (length y.2) < NBUF ->
  wp (disk_calls ops) (fun _ s' => backed y s' /\ quiet s s') s.
Proof.
  induction ops as [|o ops IH]; intros x y s Hb Hp Hf Hl Hs Hn; cbn [disk_calls].
  { injection Hp as <-. by apply wp_ret. }
  apply Forall_cons in Hf as [Hok Hf]. apply wp_bind.
  assert (Hgo : forall z, wp (disk_call o) (fun _ s' => backed z s' /\ quiet s s') s ->
    play (nblk (bc s)) ops z = Some y ->
    wp (disk_call o) (fun _ s' => wp (disk_calls ops) (fun _ s' => backed y s' /\ quiet s s') s') s).
  { intros z H Hz. eapply wp_mono; [exact H|]. intros _ s' [Hb' Q]. pose proof Q as [_ _ En [= _ Es _ _] _].
    eapply wp_mono; [apply (IH z y s'); rewrite ?En, ?Es; try done|].
    - intros b Hy Hin. apply (Hl b Hy). by apply (quiet_same_log s s').
    - intros _ s2 [? ?]. split; [done|]. by eapply quiet_trans. }
  destruct o as [b d|b d]; cbn [play] in Hp; (destruct (decide _) as [H|]; [|done]).
  - destruct H as [H <-]. apply (Hgo x); [by apply disk_read_wp|done].
  - pose proof (play_logs _ _ _ _ Hp) as Hpre. simpl in Hpre. pose proof (prefix_length _ _ Hpre).
    refine (Hgo _ _ Hp). apply disk_write_wp; try done; try lia. apply Hl.
    destruct Hpre as [k ->]. apply elem_of_app. left. unfold log_add. destruct (decide _); [done|].
    apply elem_of_app. right. by apply list_elem_of_singleton.
Qed.

(** Between transactions. *)
Record idle s : Prop := mkIdle {
  id_ok : log_ok s [];
  id_hdr : is_hdr (ondisk (bc s) (lstart s)) [];
  id_open : Log.outstanding s = 0;
  id_committing : committing s = false
}.

Lemma idle_clean s b : idle s -> view (bc s) b = ondisk (bc s) b.
Proof.
  intros [Hok _ _ _]. apply law_clean; [apply Hok| |apply Hok].
  destruct (dirty (bc s) b) eqn:E; [|done]. by apply (lo_dirty _ _ Hok), elem_of_nil in E.
Qed.

(** After a crash with the disk [D], recovery leaves every block outside the log as
    [x] has it, or every one as [y] has it. *)
Definition recovers s (D : Z -> block) (x y : dview) : Prop :=
  forall r, reboot s D r -> wp recover_from_log (fun _ r' => log_ok r' [] /\ is_hdr (ondisk (bc r') (lstart s)) [] /\
    ((forall b, 0 <= b < nblk (bc s) -> ~ in_log s b -> ondisk (bc r') b = rd x b) \/
     (forall b, 0 <= b < nblk (bc s) -> ~ in_log s b -> ondisk (bc r') b = rd y b))) r.

Lemma begin_op_run s : idle s -> Log.begin_op s = Ret true (Log.set_outstanding 1 s).
Proof.
  intros [Hok _ Ho Hc]. unfold Log.begin_op. rewrite bind_get, Hc, Ho, (lo_n _ _ Hok). done.
Qed.

Lemma end_op_last s l :
  log_ok s l -> (forall b, b ∈ l -> dirty (bc s) b = true) -> is_hdr (ondisk (bc s) (lstart s)) [] ->
  Log.outstanding s = 1 -> committing s = false ->
  wp Log.end_op (fun _ s' => idle s' /\ lstart s' = lstart s /\ lsize s' = lsize s /\ nblk (bc s') = nblk (bc s) /\
    exists tr, trace (bc s') = trace (bc s) ++ tr /\
    (forall b, ~ in_log s b -> ondisk (bc s') b = view (bc s) b) /\
    forall p r, p `prefix_of` tr -> reboot s (after (ondisk (bc s)) p) r ->
      wp recover_from_log (fun _ r' => old_or_new s r') r) s.
Proof.
  intros Hok Hd Hh Ho Hc. unfold Log.end_op. apply wp_bind, wp_modify, wp_bind, wp_get. simpl.
  rewrite Hc, Ho. cbn [Z.sub Z.add Z.opp Z.pos_sub Z.eqb]. apply wp_bind, wp_modify, wp_bind.
  set (s1 := set_committing true _). assert (Hok1 : log_ok s1 l) by (destruct Hok; by split).
  eapply wp_mono; [by apply (commit_atomic s1 l)|].
  intros _ s2 (Hok2 & (E1 & E2 & E3 & E4 & E5) & Hh2 & tr & Ht & Hdisk & Hcr). apply wp_modify. simpl in *.
  split; [split; simpl|]; [by destruct Hok2; split|by rewrite E1|done|done|]. split_and!; try done.
  exists tr. by split_and!.
Qed.

Lemma transaction_wp s x y ops :
  idle s -> x.2 = [] -> (forall b, 0 <= b < nblk (bc s) -> view (bc s) b = rd x b) ->
  play (nblk (bc s)) ops x = Some y -> Forall bop_ok ops -> (forall b, b ∈ y.2 -> ~ in_log s b) ->
  Z.of_nat (length y.2) < lsize s - 1 -> Z.of_nat (length y.2) < NBUF ->
  wp (transaction ops) (fun _ s' => idle s' /\ exists tr, trace (bc s') = trace (bc s) ++ tr /\
    (forall b, 0 <= b < nblk (bc s) -> ~ in_log s b -> ondisk (bc s') b = rd y b) /\
    forall p, p `prefix_of` tr -> recovers s (after (ondisk (bc s)) p) x y) s.
Proof.
  intros Hid Hx Hv Hp Hf Hl Hs Hn. pose proof Hid as [Hok Hh Ho Hc]. unfold transaction.
  apply wp_bind. eapply wp_intro; [by apply begin_op_run|]. set (s1 := Log.set_outstanding 1 s).
  apply wp_bind. eapply wp_mono; [apply (disk_calls_wp ops x y s1); try done|].
  { split; [by destruct Hok; rewrite Hx; split|rewrite Hx; by intros b ?%elem_of_nil|done|done]. }
  intros _ s2 [[Hok2 Hd2 Hv2 Ho2] [Q1 Q2 Q3 [= Q4 Q5 _ Q6] Q7]]. simpl in *.
  eapply wp_mono; [apply (end_op_last s2 y.2); try done; [by rewrite Q2, Q4|by rewrite Q6]|].
  intros _ s3 (Hid3 & E1 & E2 & E3 & tr & Ht & Hdisk & Hcr). split; [done|]. exists tr.
  assert (Hin : forall b, in_log s2 b <-> in_log s b) by (intros b; unfold in_log; by rewrite Q4, Q5).
  split; [by rewrite Ht, Q1|]. split.
  - intros b Hb Hnl. rewrite Hdisk by (by rewrite Hin). apply Hv2. by rewrite Q3.
  - intros p Hpre r (R1 & R2 & R3 & R4 & R5).
    eapply wp_mono; [apply (Hcr p r Hpre)|].
    + split_and!; try done; try congruence. intros b. rewrite R5. apply after_ext. by rewrite Q2.
    + intros _ r' (G1 & G2 & G3). split; [done|]. split; [by rewrite <- Q4|].
      destruct G3 as [G|G]; [left|right]; intros b Hb Hnl; rewrite G by (by rewrite Hin).
      * by rewrite Q2, <- (idle_clean s b Hid), Hv.
      * apply Hv2. by rewrite Q3.
Qed.
End OnLog.

(** ** A call of the file system, from begin_op to end_op *)
Section Atomic.
Context {D : Type} {DV : Devsw D} {DT : DevTraced}.
Context {S : Type} {BC : BlockCache S} {BL : BlockCacheLaws S}.

(** C1.  A file-system call is atomic with respect to crashes.  Let [c] be any code made of
    the routines of fs.c, run on the blocks that are on the disk.  It reaches the disk
    through a list of block calls only, which its result depends on and nothing else;
    and if the blocks it logs lie outside the log and fit in it, then those calls, between
    begin_op and end_op on the log of log.c over any buffer cache, return, leave on
    the disk every block outside the log as [c] left it, and if the machine stops
    after any number of the disk writes made on the way, recovery returns and finds
    every block as it was before [c] or every block as it was after [c]. *)
Theorem fs_call_crash_atomic {A} (c : M (fsst D) A) f a f' (s : logst S) :
  fs_code c -> c f = Ret a f' -> view_ok (disk f) -> Fs.logged f = [] -> disksize f = nblk (bc s) ->
  idle s -> (forall b, 0 <= b < nblk (bc s) -> ondisk (bc s) b = rd (disk f) b) ->
  (forall b, b ∈ Fs.logged f' -> ~ in_log s b) ->
  Z.of_nat (length (Fs.logged f')) < lsize s - 1 -> Z.of_nat (length (Fs.logged f')) < NBUF ->
  exists ops, play (disksize f) ops (disk f) = Some (disk f') /\
    (forall x y, play (disksize f) ops x = Some y -> c (with_disk x f) = Ret a (with_disk y f')) /\
    wp (transaction ops) (fun _ s' => idle s' /\ exists tr, trace (bc s') = trace (bc s) ++ tr /\
      (forall b, 0 <= b < nblk (bc s) -> ~ in_log s b -> ondisk (bc s') b = rd (disk f') b) /\
      forall p, p `prefix_of` tr -> recovers s (after (ondisk (bc s)) p) (disk f) (disk f')) s.
Proof.
  intros Hc Hrun Hok Hl Hn Hid Hd Hlog Hs Hb.
  destruct (fs_code_traced c Hc f a f' Hok Hrun) as (ops & P & O & _ & R).
  exists ops. split; [done|]. split; [done|]. rewrite Hn in P.
  apply (transaction_wp s (disk f) (disk f') ops); try done. intros b Hr. rewrite idle_clean by done. by apply Hd.
Qed.
End Atomic.

(** ** The console is a device that keeps to its rules *)
Lemma traced_ondev {A} (c : M console A) : traced (ondev c).
Proof.
  apply traced_local. intros f a f'. unfold ondev, zoom.
  destruct (c (devst f)) as [a0 d| | |] eqn:E; try done. intros [= <- <-]. split_and!; [done|done|].
  intros x. change (devst (with_disk x f)) with (devst f). by rewrite E.
Qed.

#[export] Instance console_dev_traced killed : @DevTraced console (console_devsw killed).
Proof.
  split.
  - intros k r. cbn [dev_read console_devsw]. destruct (k =? CONSOLE); [|done]. intros [= <-] i n. unfold consoleread.
    apply traced_bind; [apply traced_iunlock|]. intros _. apply traced_bind; [apply traced_ondev|]. intros r.
    apply traced_bind; [apply traced_ilock|]. intros _. apply traced_ret.
  - intros k w. cbn [dev_write console_devsw]. destruct (k =? CONSOLE); [|done]. intros [= <-] i l. unfold consolewrite.
    apply traced_bind; [apply traced_iunlock|]. intros _. apply traced_bind; [apply traced_ondev|]. intros _.
    apply traced_bind; [apply traced_ilock|]. intros _. apply traced_ret.
Qed.

(** ** Example: two bytes written to block 100 of an empty disk *)
Definition crash_ino : inode := mkInode 1 1 1 true true T_FILE 0 0 1 0 (100 :: replicate 12 0).
Definition crash_fs : fsst console :=
  mkFs ∅ 1000 [] (mkSuperblock 1000 941 200 30 2 32 58) [crash_ino] console0.
Definition crash_log : logst bstate := mkLog (binit ∅ 1000 1) 2 30 0 false 1 0 (replicate 30 0).

Definition crash_code : M (fsst console) (option Z) := @writei console (console_devsw false) 0 [7; 8] 0.
Definition crash_fs' : fsst console := match crash_code crash_fs with Ret _ f => f | _ => crash_fs end.

Lemma crash_run : crash_code crash_fs = Ret (Some 2) crash_fs'.
Proof. vm_compute. reflexivity. Qed.

Lemma crash_logged : Fs.logged crash_fs' = [100; 32].
Proof. vm_compute. reflexivity. Qed.

Lemma crash_idle : idle crash_log.
Proof.
  split; [|simpl; rewrite dread_empty; apply zero_hdr|done|done].
  apply example_reboot_ok. intros b. rewrite dread_empty. apply zero_block_ok.
Qed.

Lemma crash_bytes : Forall (fun b => 0 <= b < 256) [7; 8].
Proof. by repeat apply Forall_cons_2. Qed.

Lemma crash_view : view_ok (disk crash_fs).
Proof. intros b. unfold rd. simpl. rewrite lookup_empty. apply zero_block_ok. Qed.

Lemma crash_home b : b ∈ Fs.logged crash_fs' -> ~ in_log crash_log b.
Proof. rewrite crash_logged. unfold in_log. simpl. rewrite !elem_of_cons, elem_of_nil. lia. Qed.

Lemma crash_disk b : 0 <= b < nblk (bc crash_log) -> ondisk (bc crash_log) b = rd (disk crash_fs) b.
Proof. intros _. unfold rd. simpl. by rewrite dread_empty, lookup_empty. Qed.

Lemma crash_size : disksize crash_fs = nblk (bc crash_log).
Proof. reflexivity. Qed.

Lemma crash_fits : Z.of_nat (length (Fs.logged crash_fs')) < 29.
Proof. by rewrite crash_logged. Qed.

Lemma crash_new : take 3 (rd (disk crash_fs') 100) = [7; 8; 0].
Proof. vm_compute. reflexivity. Qed.

Lemma fs_call_crash_atomic_witness :
  exists ops, wp (transaction ops) (fun _ s' => take 3 (ondisk (bc s') 100) = [7; 8; 0]) crash_log.
Proof.
  destruct (fs_call_crash_atomic (DV := console_devsw false) crash_code crash_fs (Some 2) crash_fs' crash_log
    (fc_writei 0 [7; 8] 0 crash_bytes) crash_run crash_view eq_refl crash_size crash_idle crash_disk crash_home crash_fits
    (Z.lt_trans _ 29 NBUF crash_fits eq_refl)) as (ops & _ & _ & H).
  exists ops. eapply wp_mono; [exact H|]. intros _ s' (_ & tr & _ & Hd & _). cbv beta.
  rewrite (Hd 100); [exact crash_new|split; [discriminate|reflexivity]|unfold in_log; simpl; lia].
Defined.
