(* ===== verification/Mkfs.v ===== *)
(** * The image of the file system (mkfs.c)

    mkfs runs on the build host and writes the disk image sector by sector.  The
    state is the image file, by sector, with its length, and the two counters of
    mkfs; struct dinode and struct dirent are their bytes on disk (what xshort and
    xint produce).  A failed assert and exit(1) are [Panic].  The theorem is that
    the kernel finds in the image what was put there. *)

From stdpp Require Import base numbers list gmap strings.
From Stdlib Require Import ZArith Lia Bool.
From S2P Require Import Prelude Block Mem Fs FsAlloc FsFile FsRw FsInode FsDir.

Local Open Scope Z_scope.
Local Open Scope kernel_scope.

(** ** The layout *)
Definition NINODES : Z := 200.
Definition nbitmap : Z := FSSIZE / (BSIZE * 8) + 1.
Definition ninodeblocks : Z := NINODES / IPB + 1.
Definition nlog : Z := LOGSIZE.
Definition nmeta : Z := 2 + nlog + ninodeblocks + nbitmap.
Definition nblocks : Z := FSSIZE - nmeta.

Definition img_sb : superblock :=
  mkSuperblock FSSIZE nblocks NINODES nlog 2 (2 + nlog) (2 + nlog + ninodeblocks).

Record mkst := mkMk {
  img : gmap Z block;   (* the sectors of the image file *)
  nsect : Z;            (* its length in sectors *)
  freeinode : Z;
  freeblock : Z
}.

(** ** Sectors *)
Definition rdi (s : mkst) (b : Z) : block := default zero_block (img s !! b).

(** lseek and write make the file longer when they must. *)
Definition wsect (sec : Z) (buf : block) : M mkst unit :=
  modify (fun s => mkMk (<[sec := buf]> (img s)) (Z.max (nsect s) (sec + 1)) (freeinode s) (freeblock s)).

(** A read past the end of the file is short. *)
Definition rsect (sec : Z) : M mkst block :=
  s <- get;;
  if sec <? nsect s then ret (rdi s sec) else panic "read".

(** freeblock++ *)
Definition newblock : M mkst Z :=
  s <- get;;
  modify (fun s => mkMk (img s) (nsect s) (freeinode s) (u32 (freeblock s + 1)));;
  ret (freeblock s).

(** ** Inodes *)
Definition winode (inum : Z) (din : list Z) : M mkst unit :=
  let bn := IBLOCK inum img_sb in
  buf <- rsect bn;;
  wsect bn (puts buf (dinode_off inum) din).

Definition rinode (inum : Z) : M mkst (list Z) :=
  buf <- rsect (IBLOCK inum img_sb);;
  ret (gets_bytes buf (dinode_off inum) sizeof_dinode).

(** The fields of a dinode: type, nlink, size and addrs. *)
Definition new_dinode (type : Z) : list Z :=
  put32 (put16 (put16 (replicate (Z.to_nat sizeof_dinode) 0) 0 type) 6 1) 8 0.
Definition din_size (din : list Z) : Z := get32 din 8.
Definition set_din_size (v : Z) (din : list Z) : list Z := put32 din 8 v.
Definition din_addr (din : list Z) (k : Z) : Z := get32 din (12 + 4 * k).
Definition set_din_addr (k v : Z) (din : list Z) : list Z := put32 din (12 + 4 * k) v.

Definition ialloc (type : Z) : M mkst Z :=
  s <- get;;
  modify (fun s => mkMk (img s) (nsect s) (u32 (freeinode s + 1)) (freeblock s));;
  winode (freeinode s) (new_dinode type);;
  ret (freeinode s).

(** ** The bitmap *)
Fixpoint mark_used (k : nat) (i : Z) (buf : block) : block :=
  match k with
  | O => buf
  | S k' => mark_used k' (i + 1) (putb buf (i / 8) (Z.lor (getb buf (i / 8)) (Z.shiftl 1 (i mod 8))))
  end.

Definition balloc (used : Z) : M mkst unit :=
  if used <? BSIZE * 8 then wsect (sb_bmapstart img_sb) (mark_used (Z.to_nat used) 0 zero_block)
  else panic "used < BSIZE*8".

(** ** Appending to a file *)

(** The block of the file that holds block [fbn], allocated if it is not there. *)
Definition append_block (din : list Z) (fbn : Z) : M mkst (list Z * Z) :=
  if fbn <? NDIRECT then
    if din_addr din fbn =? 0 then
      b <- newblock;;
      let din := set_din_addr fbn b din in
      ret (din, din_addr din fbn)
    else ret (din, din_addr din fbn)
  else
    din <- (if din_addr din NDIRECT =? 0 then
              b <- newblock;;
              ret (set_din_addr NDIRECT b din)
            else ret din);;
    indirect <- rsect (din_addr din NDIRECT);;
    indirect <- (if get32 indirect (4 * (fbn - NDIRECT)) =? 0 then
                   b <- newblock;;
                   let indirect := put32 indirect (4 * (fbn - NDIRECT)) b in
                   wsect (din_addr din NDIRECT) indirect;;
                   ret indirect
                 else ret indirect);;
    ret (din, get32 indirect (4 * (fbn - NDIRECT))).

Fixpoint iappend_loop (k : nat) (din p : list Z) (off n : Z) : M mkst (list Z * Z) :=
  match k with
  | O => hang
  | S k' =>
      if n >? 0 then
        let fbn := off / BSIZE in
        if negb (fbn <? MAXFILE) then panic "fbn < MAXFILE"
        else
          r <- append_block din fbn;;
          let '(din, x) := r in
          let n1 := Z.min n ((fbn + 1) * BSIZE - off) in
          buf <- rsect x;;
          wsect x (puts buf (off - fbn * BSIZE) (take (Z.to_nat n1) p));;
          iappend_loop k' din (drop (Z.to_nat n1) p) (u32 (off + n1)) (n - n1)
      else ret (din, off)
  end.

Definition iappend (inum : Z) (p : list Z) : M mkst unit :=
  din <- rinode inum;;
  r <- iappend_loop (S (length p)) din p (din_size din) (Z.of_nat (length p));;
  let '(din, off) := r in
  winode inum (set_din_size off din).

(** ** main *)
Fixpoint write_zeroes (k : nat) (i : Z) : M mkst unit :=
  match k with
  | O => ret tt
  | S k' => wsect i zero_block;; write_zeroes k' (i + 1)
  end.

(** The bytes of an integer in intel byte order. *)
Definition xint (x : Z) : list Z := [x mod 256; Z.shiftr x 8 mod 256; Z.shiftr x 16 mod 256; Z.shiftr x 24 mod 256].

Definition sb_bytes (b : superblock) : list Z :=
  concat (map xint [sb_size b; sb_nblocks b; sb_ninodes b; sb_nlog b; sb_logstart b; sb_inodestart b; sb_bmapstart b]).

(** The loop over read(fd, buf, sizeof(buf)): pieces of at most BSIZE bytes. *)
Fixpoint copy_file (k : nat) (inum : Z) (l : list Z) : M mkst unit :=
  match k with
  | O => hang
  | S k' =>
      match l with
      | [] => ret tt
      | _ :: _ => iappend inum (take (Z.to_nat BSIZE) l);; copy_file k' inum (drop (Z.to_nat BSIZE) l)
      end
  end.

(** Skip a leading underscore. *)
Definition file_name (arg : list Z) : list Z := match arg with 95 :: r => r | _ => arg end.

(** A file of the command line: its name, and its content on the host if it can be
    opened. *)
Definition add_file (rootino : Z) (x : list Z * option (list Z)) : M mkst unit :=
  let '(arg, content) := x in
  if bool_decide (SLASH ∈ arg) then panic "index(argv[i], '/') == 0"
  else match content with
       | None => panic "open"
       | Some l =>
           inum <- ialloc T_FILE;;
           iappend rootino (mk_dirent inum (strncpy (cstr (file_name arg)) (Z.to_nat DIRSIZ)));;
           copy_file (S (length l)) inum l
       end.

Fixpoint add_files (rootino : Z) (l : list (list Z * option (list Z))) : M mkst unit :=
  match l with
  | [] => ret tt
  | x :: l' => add_file rootino x;; add_files rootino l'
  end.

Definition fix_root (rootino : Z) : M mkst unit :=
  din <- rinode rootino;;
  winode rootino (set_din_size (u32 ((din_size din / BSIZE + 1) * BSIZE)) din).

Definition main (files : list (list Z * option (list Z))) : M mkst unit :=
  modify (fun s => mkMk (img s) (nsect s) (freeinode s) nmeta);;
  write_zeroes (Z.to_nat FSSIZE) 0;;
  wsect 1 (puts zero_block 0 (sb_bytes img_sb));;
  rootino <- ialloc T_DIR;;
  if negb (rootino =? ROOTINO) then panic "rootino == ROOTINO"
  else
    iappend rootino (mk_dirent rootino ([46] ++ replicate 13 0));;
    iappend rootino (mk_dirent rootino ([46; 46] ++ replicate 12 0));;
    add_files rootino files;;
    fix_root rootino;;
    s <- get;;
    balloc (freeblock s).

(** The image is truncated when it is opened. *)
Definition mk0 : mkst := mkMk ∅ 0 1 0.
