(* ===== verification/MkfsInv.v ===== *)
(** * The image that mkfs makes is the file system it was asked for

    [core] says where each block of each file lies while mkfs runs: the blocks
    after the metadata are handed out in order, [own] lists the file and the slot
    of each.  [dn] are the inodes, which iappend keeps in memory until it is done,
    and [C] their contents. *)

From stdpp Require Import base numbers list gmap strings.
From Stdlib Require Import ZArith Lia Bool.
From S2P Require Import Prelude Block Mem Fs FsAlloc FsFile FsRw FsInode FsDir Mkfs.

Local Open Scope Z_scope.
Local Open Scope kernel_scope.

(** ** Addresses *)
Definition daddr (s : mkst) (din : list Z) (j : Z) : Z :=
  if j <? NDIRECT then din_addr din j
  else if j <? MAXFILE then
    if din_addr din NDIRECT =? 0 then 0 else get32 (rdi s (din_addr din NDIRECT)) (4 * (j - NDIRECT))
  else din_addr din NDIRECT.

Definition din_ok (din : list Z) : Prop := length din = 64%nat /\ Forall (fun b => 0 <= b < 256) din.

Definition sb_block : block := puts zero_block 0 (sb_bytes img_sb).

Record core (s : mkst) (C : Z -> list Z) (n : Z) (own : list (Z * Z)) (dn : Z -> list Z) : Prop := mkCore {
  co_sect : nsect s = FSSIZE;
  co_free : freeblock s = nmeta + Z.of_nat (length own);
  co_max : freeblock s <= FSSIZE;
  co_ok : forall b, block_ok (rdi s b);
  co_zero : forall b, freeblock s <= b -> rdi s b = zero_block;
  co_sb : rdi s 1 = sb_block;
  co_din : forall k, 1 <= k <= n -> din_ok (dn k);
  co_own : forall k j b, 1 <= k <= n -> is_slot j -> b <> 0 ->
    daddr s (dn k) j = b <-> nmeta <= b /\ own !! Z.to_nat (b - nmeta) = Some (k, j);
  co_in : forall k j, (k, j) ∈ own -> 1 <= k <= n /\ is_slot j;
  co_byte : forall k x, 1 <= k <= n -> 0 <= x < MAXFILE * BSIZE -> (k, x / BSIZE) ∈ own ->
    getb (rdi s (daddr s (dn k) (x / BSIZE))) (x mod BSIZE) = default 0 (C k !! Z.to_nat x)
}.

Section Core.
Variables (s : mkst) (C : Z -> list Z) (n : Z) (own : list (Z * Z)) (dn : Z -> list Z).
Hypothesis Co : core s C n own dn.

Lemma addr_in k j : (k, j) ∈ own ->
  nmeta <= daddr s (dn k) j < freeblock s /\ own !! Z.to_nat (daddr s (dn k) j - nmeta) = Some (k, j).
Proof.
  intros Hin. destruct (co_in _ _ _ _ _ Co k j Hin) as [Hk Hj]. apply list_elem_of_lookup in Hin as [i Hi].
  pose proof (lookup_lt_Some _ _ _ Hi). pose proof (co_free _ _ _ _ _ Co). assert (Hm : nmeta = 59) by done.
  assert (E : daddr s (dn k) j = nmeta + Z.of_nat i).
  { apply (co_own _ _ _ _ _ Co); [done|done|lia|]. split; [lia|]. rewrite <- Hi. f_equal. lia. }
  rewrite E. split; [lia|]. rewrite <- Hi. f_equal. lia.
Qed.

Lemma addr_out k j : 1 <= k <= n -> is_slot j -> (k, j) ∉ own -> daddr s (dn k) j = 0.
Proof.
  intros Hk Hj Hout. destruct (decide (daddr s (dn k) j = 0)) as [|Hne]; [done|]. destruct Hout.
  destruct (proj1 (co_own _ _ _ _ _ Co k j _ Hk Hj Hne) eq_refl) as [_ Hl]. by eapply list_elem_of_lookup_2.
Qed.

Lemma addr_inj k j k' j' : (k, j) ∈ own -> (k', j') ∈ own ->
  daddr s (dn k) j = daddr s (dn k') j' -> k = k' /\ j = j'.
Proof.
  intros [_ H]%addr_in [_ H']%addr_in E. rewrite E, H' in H. by injection H as -> ->.
Qed.

(** One more slot of file [k], in the first free block. *)
Lemma core_alloc k j s' dn' :
  1 <= k <= n -> is_slot j -> (k, j) ∉ own -> freeblock s < FSSIZE ->
  nsect s' = nsect s -> freeblock s' = freeblock s + 1 ->
  (forall b, block_ok (rdi s' b)) -> (forall b, freeblock s <= b -> rdi s' b = rdi s b) -> rdi s' 1 = rdi s 1 ->
  (forall k', 1 <= k' <= n -> din_ok (dn' k')) ->
  daddr s' (dn' k) j = freeblock s ->
  (forall k' j', 1 <= k' <= n -> is_slot j' -> (k', j') <> (k, j) -> daddr s' (dn' k') j' = daddr s (dn k') j') ->
  (forall k' j', (k', j') ∈ own -> j' <> IND -> rdi s' (daddr s (dn k') j') = rdi s (daddr s (dn k') j')) ->
  (j <> IND -> Z.of_nat (length (C k)) <= j * BSIZE) ->
  core s' C n (own ++ [(k, j)]) dn'.
Proof.
  intros Hk Hj Hout Hlt Es Ef Hok Hz H1 Hdin Hnew Hold Hdata Hlen.
  pose proof (co_free _ _ _ _ _ Co) as Efree. assert (Hm : nmeta = 59) by done.
  split; [by rewrite Es, (co_sect _ _ _ _ _ Co)|rewrite Ef, Efree, length_app; simpl; lia|lia|done| |by rewrite H1, (co_sb _ _ _ _ _ Co)|done| | |].
  - intros b Hb. rewrite Hz by lia. apply (co_zero _ _ _ _ _ Co). lia.
  - intros k' j' b Hk' Hj' Hb. destruct (decide ((k', j') = (k, j))) as [[= -> ->]|Hne].
    + rewrite Hnew. split.
      * intros <-. split; [lia|]. replace (Z.to_nat (freeblock s - nmeta)) with (length own) by lia.
        by rewrite lookup_app_r, Nat.sub_diag by lia.
      * intros [Hn [Hl|[Hge Hl]]%lookup_app_Some]; [destruct Hout; by eapply list_elem_of_lookup_2|].
        destruct (Z.to_nat (b - nmeta) - length own)%nat eqn:E; [lia|done].
    + rewrite Hold, (co_own _ _ _ _ _ Co) by done. split; intros [Hn Hl]; (split; [done|]).
      * by apply lookup_app_l_Some.
      * apply lookup_app_Some in Hl as [Hl|[_ Hl]]; [done|]. destruct (_ - _)%nat; [|done]. simplify_eq/=.
  - intros k' j' [Hin|Hin]%elem_of_app; [by apply (co_in _ _ _ _ _ Co)|].
    apply list_elem_of_singleton in Hin. by simplify_eq.
  - intros k' x Hk' Hx Hin. pose proof (off_block x Hx) as [Hb _]. pose proof (is_slot_bn _ Hb) as Hs.
    assert (HI : x / BSIZE <> IND) by (unfold IND; change MAXFILE with 140 in Hb; lia).
    destruct (decide ((k', x / BSIZE) = (k, j))) as [[= -> <-]|Hne].
    + rewrite Hnew, Hz, (co_zero _ _ _ _ _ Co) by lia. rewrite lookup_ge_None_2.
      * unfold getb, zero_block. destruct (_ !! _) eqn:E; [|done]. by apply lookup_replicate in E as [-> _].
      * specialize (Hlen HI). pose proof (Z.div_mod x BSIZE ltac:(done)). pose proof (Z.mod_pos_bound x BSIZE ltac:(done)). lia.
    + apply elem_of_app in Hin as [Hin|Hin]; [|by apply list_elem_of_singleton in Hin].
      rewrite Hold, Hdata by done. by apply (co_byte _ _ _ _ _ Co).
Qed.
End Core.

(** ** Writing the image *)
Definition put_sect (b : Z) (d : block) (s : mkst) : mkst :=
  mkMk (<[b := d]> (img s)) (Z.max (nsect s) (b + 1)) (freeinode s) (freeblock s).
Definition bump (s : mkst) : mkst := mkMk (img s) (nsect s) (freeinode s) (freeblock s + 1).
Definition fupd {A} (f : Z -> A) (k : Z) (v : A) : Z -> A := fun x => if x =? k then v else f x.

Lemma fupd_eq {A} (f : Z -> A) k v : fupd f k v k = v.
Proof. unfold fupd. by rewrite Z.eqb_refl. Qed.
Lemma fupd_ne {A} (f : Z -> A) k v x : x <> k -> fupd f k v x = f x.
Proof. unfold fupd. by intros ?%Z.eqb_neq; rewrite H. Qed.

Lemma rdi_put b d s x : rdi (put_sect b d s) x = if x =? b then d else rdi s x.
Proof.
  unfold rdi, put_sect. simpl. destruct (Z.eqb_spec x b) as [->|]; [by rewrite lookup_insert_eq|by rewrite lookup_insert_ne].
Qed.

Lemma wp_rsect (Q : block -> mkst -> Prop) s b : b < nsect s -> Q (rdi s b) s -> wp (rsect b) Q s.
Proof. intros Hb HQ. unfold rsect. wp_steps. destruct (Z.ltb_spec b (nsect s)); [|lia]. by wp_steps. Qed.

Lemma wp_newblock (Q : Z -> mkst -> Prop) s : 0 <= freeblock s < FSSIZE -> Q (freeblock s) (bump s) -> wp newblock Q s.
Proof.
  intros Hb HQ. unfold newblock. wp_steps. rewrite u32_small by (unfold FSSIZE in Hb; lia). exact HQ.
Qed.

Lemma daddr_congr s s' din j :
  (din_addr din NDIRECT <> 0 -> rdi s' (din_addr din NDIRECT) = rdi s (din_addr din NDIRECT)) ->
  daddr s' din j = daddr s din j.
Proof.
  intros H. unfold daddr. destruct (j <? NDIRECT); [done|]. destruct (j <? MAXFILE); [|done].
  destruct (Z.eqb_spec (din_addr din NDIRECT) 0); [done|]. by rewrite H.
Qed.

Lemma din_set_len k v din : length (set_din_addr k v din) = length din.
Proof. apply length_puts. Qed.

Lemma din_set_ok k v din : din_ok din -> din_ok (set_din_addr k v din).
Proof.
  intros [Hl Hf]. split; [by rewrite din_set_len|]. unfold set_din_addr, put32, puts.
  generalize (Z.to_nat (12 + 4 * k)). pose proof (le32_ok v) as Hv. revert Hv. generalize (le32 v). clear Hl.
  induction l as [|x l IH]; intros Hv i; simpl; [done|]. apply Forall_cons in Hv as [Hx Hv].
  apply Forall_insert; [|done]. by apply IH.
Qed.

Lemma din_addr_eq k v din : din_ok din -> 0 <= k < 13 -> 0 <= v < 4294967296 -> din_addr (set_din_addr k v din) k = v.
Proof.
  intros [Hl _] Hk Hv. unfold din_addr, set_din_addr. rewrite get32_put32_eq by lia. by apply Z.mod_small.
Qed.

Lemma din_addr_ne k v din k' : din_ok din -> 0 <= k < 13 -> 0 <= k' -> k' <> k ->
  din_addr (set_din_addr k v din) k' = din_addr din k'.
Proof. intros [Hl _] Hk Hk' Hne. unfold din_addr, set_din_addr. apply get32_put32_ne; lia. Qed.

(** The header of a dinode: type, major, minor, nlink and size. *)
Definition same_hdr (din din' : list Z) : Prop := forall o, 0 <= o < 12 -> getb din' o = getb din o.

Lemma same_hdr_set k v din : din_ok din -> 0 <= k < 13 -> same_hdr din (set_din_addr k v din).
Proof.
  intros [Hl _] Hk o Ho. unfold set_din_addr, put32. rewrite getb_puts by (simpl; lia).
  destruct (Z.leb_spec (12 + 4 * k) o); [lia|]. done.
Qed.

(** The metadata blocks and the inode counter are not touched. *)
Definition meta_same (s s' : mkst) : Prop := freeinode s' = freeinode s /\ forall b, b < nmeta -> rdi s' b = rdi s b.

Lemma meta_same_trans s1 s2 s3 : meta_same s1 s2 -> meta_same s2 s3 -> meta_same s1 s3.
Proof. intros [? H1] [? H2]. split; [congruence|]. intros b Hb. by rewrite H2, H1. Qed.

Section Append.
Variables (s : mkst) (C : Z -> list Z) (n : Z) (own : list (Z * Z)) (dn : Z -> list Z).
Hypothesis Co : core s C n own dn.

Lemma ind_addr k : daddr s (dn k) IND = din_addr (dn k) NDIRECT.
Proof. done. Qed.

Lemma free_range : nmeta <= freeblock s <= FSSIZE.
Proof. pose proof (co_free _ _ _ _ _ Co). pose proof (co_max _ _ _ _ _ Co). lia. Qed.

(** Slot [j] is the address [a] of the inode itself. *)
Lemma core_alloc_addr k j a :
  1 <= k <= n -> (0 <= j < NDIRECT /\ a = j) \/ (j = IND /\ a = NDIRECT) -> (k, j) ∉ own -> freeblock s < FSSIZE ->
  (j <> IND -> Z.of_nat (length (C k)) <= j * BSIZE) ->
  core (bump s) C n (own ++ [(k, j)]) (fupd dn k (set_din_addr a (freeblock s) (dn k))) /\
  meta_same s (bump s).
Proof.
  intros Hk Hja Hout Hlt Hlen. pose proof free_range as Hf. assert (Hm : nmeta = 59) by done.
  pose proof (co_din _ _ _ _ _ Co k Hk) as Hdin. unfold FSSIZE in *.
  assert (Hj : is_slot j) by (unfold is_slot, IND, NDIRECT in *; lia).
  assert (Ha : 0 <= a < 13) by (unfold NDIRECT in *; lia). split; [|done].
  pose proof (addr_out _ _ _ _ _ Co k j Hk Hj Hout) as H0.
  apply (core_alloc s C n own dn Co k j); try done.
  - apply (co_ok _ _ _ _ _ Co).
  - intros k' Hk'. unfold fupd. destruct (Z.eqb_spec k' k); [by apply din_set_ok|by apply (co_din _ _ _ _ _ Co)].
  - rewrite fupd_eq. destruct Hja as [[Hj' ->]|[-> ->]].
    + unfold daddr. destruct (Z.ltb_spec j NDIRECT); [|lia]. apply din_addr_eq; [done|done|lia].
    + change (daddr (bump s) ?d IND) with (din_addr d NDIRECT). apply din_addr_eq; [done|done|lia].
  - intros k' j' Hk' Hj' Hne. destruct (decide (k' = k)) as [->|]; [|by rewrite fupd_ne].
    rewrite fupd_eq. unfold is_slot, IND in Hj'. unfold daddr. change (rdi (bump s)) with (rdi s).
    destruct Hja as [[Hjr ->]|[-> ->]].
    + rewrite (din_addr_ne j _ _ NDIRECT) by (done || unfold NDIRECT in *; lia).
      destruct (Z.ltb_spec j' NDIRECT); [|done]. apply din_addr_ne; [done|done|lia|congruence].
    + destruct (Z.ltb_spec j' NDIRECT); [apply din_addr_ne; done || lia|].
      destruct (Z.ltb_spec j' MAXFILE); [|change MAXFILE with 140 in *; unfold IND in Hne; assert (j' = 140) by lia; congruence].
      rewrite din_addr_eq by (done || lia). change (daddr s (dn k) IND) with (din_addr (dn k) NDIRECT) in H0.
      rewrite H0, (co_zero _ _ _ _ _ Co), get32_zero by lia. by destruct (_ =? 0).
Qed.

(** Slot [j] is an entry of the indirect block. *)
Lemma core_alloc_entry k j :
  let a := din_addr (dn k) NDIRECT in
  let s' := put_sect a (put32 (rdi s a) (4 * (j - NDIRECT)) (freeblock s)) (bump s) in
  1 <= k <= n -> NDIRECT <= j < MAXFILE -> (k, IND) ∈ own -> (k, j) ∉ own -> freeblock s < FSSIZE ->
  Z.of_nat (length (C k)) <= j * BSIZE ->
  core s' C n (own ++ [(k, j)]) dn /\ meta_same s s'.
Proof.
  intros a s' Hk Hj Hind Hout Hlt Hlen. pose proof free_range as Hf. assert (Hm : nmeta = 59) by done.
  destruct (addr_in _ _ _ _ _ Co _ _ Hind) as [Hr _]. rewrite ind_addr in Hr. fold a in Hr.
  pose proof (co_sect _ _ _ _ _ Co) as Es. unfold NDIRECT, FSSIZE in *. change MAXFILE with 140 in Hj.
  pose proof (co_ok _ _ _ _ _ Co a) as Hok. pose proof (proj1 Hok) as Hl. change (Z.to_nat BSIZE) with 512%nat in Hl.
  assert (Erd : forall b, rdi s' b = if b =? a then put32 (rdi s a) (4 * (j - 12)) (freeblock s) else rdi s b)
    by (intros b; exact (rdi_put a _ (bump s) b)).
  assert (Hother : forall k', 1 <= k' <= n -> k' <> k -> din_addr (dn k') NDIRECT <> 0 -> din_addr (dn k') NDIRECT <> a).
  { intros k' Hk' Hne Hnz E. destruct (decide ((k', IND) ∈ own)) as [Hin|Hin].
    - destruct (addr_inj _ _ _ _ _ Co _ _ _ _ Hin Hind) as [-> _]; [by rewrite !ind_addr|done].
    - apply (addr_out _ _ _ _ _ Co) in Hin; [|done|done]. by rewrite ind_addr in Hin. }
  assert (Hent : forall j', 12 <= j' < 140 -> daddr s' (dn k) j' = get32 (put32 (rdi s a) (4 * (j - 12)) (freeblock s)) (4 * (j' - 12))).
  { intros j' Hj'. unfold daddr, NDIRECT. change MAXFILE with 140. destruct (Z.ltb_spec j' 12), (Z.ltb_spec j' 140); try lia.
    fold a. destruct (Z.eqb_spec a 0); [lia|]. by rewrite Erd, Z.eqb_refl. }
  split.
  2: { split; [done|]. intros b Hb. rewrite Erd. destruct (Z.eqb_spec b a); [lia|done]. }
  apply (core_alloc s C n own dn Co k j); try done.
  - unfold is_slot, IND. lia.
  - simpl. rewrite Es. lia.
  - intros b. rewrite Erd. destruct (b =? a); [by apply put32_ok|apply (co_ok _ _ _ _ _ Co)].
  - intros b Hb. rewrite Erd. destruct (Z.eqb_spec b a); [lia|done].
  - rewrite Erd. destruct (Z.eqb_spec 1 a); [lia|done].
  - apply (co_din _ _ _ _ _ Co).
  - rewrite Hent, get32_put32_eq by lia. apply Z.mod_small. lia.
  - intros k' j' Hk' Hj' Hne. destruct (decide (k' = k)) as [->|Hk0].
    + unfold is_slot, IND in Hj'. destruct (decide (12 <= j' < 140)) as [Hr'|Hr'].
      * rewrite Hent, get32_put32_ne by (lia || (assert (j' <> j) by congruence; lia)). unfold daddr, NDIRECT. change MAXFILE with 140.
        destruct (Z.ltb_spec j' 12), (Z.ltb_spec j' 140); try lia. fold a. destruct (Z.eqb_spec a 0); [lia|done].
      * unfold daddr, NDIRECT. change MAXFILE with 140. destruct (Z.ltb_spec j' 12), (Z.ltb_spec j' 140); try lia; done.
    + apply daddr_congr. intros Hnz. rewrite Erd. destruct (Z.eqb_spec (din_addr (dn k') NDIRECT) a); [|done].
      by destruct (Hother k' Hk' Hk0 Hnz).
  - intros k' j' Hin Hne. rewrite Erd. destruct (Z.eqb_spec (daddr s (dn k') j') a) as [E|]; [|done].
    destruct (addr_inj _ _ _ _ _ Co k' j' k IND Hin Hind) as [_ ->]; done.
Qed.
End Append.

Lemma core_ext s C n own dn C' dn' : core s C n own dn ->
  (forall k, C' k = C k) -> (forall k, dn' k = dn k) -> core s C' n own dn'.
Proof.
  intros [] HC Hd. split; try done.
  - intros k Hk. rewrite Hd. auto.
  - intros k j b. rewrite Hd. auto.
  - intros k x. rewrite Hd, HC. auto.
Qed.

Lemma fupd_same {A} (f : Z -> A) k x : fupd f k (f k) x = f x.
Proof. unfold fupd. by destruct (Z.eqb_spec x k) as [->|]. Qed.

Lemma fupd_twice {A} (f : Z -> A) k v w x : fupd (fupd f k v) k w x = fupd f k w x.
Proof. unfold fupd. by destruct (x =? k). Qed.

(** The slots that appending to block [fbn] of file [k] fills. *)
Definition ind_slots (own : list (Z * Z)) (k fbn : Z) : list (Z * Z) :=
  if fbn <? NDIRECT then [] else if decide ((k, IND) ∈ own) then [] else [(k, IND)].
Definition blk_slots (own : list (Z * Z)) (k fbn : Z) : list (Z * Z) :=
  if decide ((k, fbn) ∈ own) then [] else [(k, fbn)].

Section AppendBlock.
Variables (C : Z -> list Z) (n : Z) (k : Z).
Hypothesis Hk : 1 <= k <= n.

Lemma core_present s own dn j : core s C n own dn -> is_slot j -> (k, j) ∈ own <-> daddr s (dn k) j <> 0.
Proof.
  intros Co Hj. split.
  - intros Hin. destruct (addr_in _ _ _ _ _ Co _ _ Hin) as [Hr _]. assert (nmeta = 59) by done. lia.
  - intros Hne. destruct (decide ((k, j) ∈ own)) as [|Hout]; [done|]. destruct Hne. by apply (addr_out _ _ _ _ _ Co).
Qed.

Lemma append_direct_wp (Q : list Z * Z -> mkst -> Prop) s own dn fbn :
  core s C n own dn -> 0 <= fbn < NDIRECT -> ((k, fbn) ∉ own -> Z.of_nat (length (C k)) <= fbn * BSIZE) ->
  freeblock s + Z.of_nat (length (blk_slots own k fbn)) <= FSSIZE ->
  (forall din' s', core s' C n (own ++ blk_slots own k fbn) (fupd dn k din') -> meta_same s s' ->
     same_hdr (dn k) din' -> Q (din', daddr s' din' fbn) s') ->
  wp (append_block (dn k) fbn) Q s.
Proof.
  intros Co Hf Hlen Hfree HQ. unfold append_block. destruct (Z.ltb_spec fbn NDIRECT); [|lia].
  assert (Hs : is_slot fbn) by (unfold is_slot, IND, NDIRECT in *; lia).
  pose proof (core_present s own dn fbn Co Hs) as Hp.
  assert (Ed : forall s d, daddr s d fbn = din_addr d fbn) by (intros; unfold daddr; destruct (Z.ltb_spec fbn NDIRECT); [done|lia]).
  rewrite Ed in Hp. unfold blk_slots in *.
  destruct (Z.eqb_spec (din_addr (dn k) fbn) 0) as [Hz|Hz]; destruct (decide ((k, fbn) ∈ own)) as [Hin|Hin]; [tauto| | |tauto]; simpl in Hfree.
  - wp_steps. pose proof (free_range _ _ _ _ _ Co). assert (nmeta = 59) by done. apply wp_newblock; [lia|]. wp_steps.
    destruct (core_alloc_addr s C n own dn Co k fbn fbn) as [Hc1 Hc2]; [done|by left|done|lia|by intros _; apply Hlen|].
    rewrite <- (Ed (bump s)). apply HQ; [done|done|]. apply same_hdr_set; [by apply (co_din _ _ _ _ _ Co)|unfold NDIRECT in *; lia].
  - wp_steps. rewrite <- (Ed s). apply HQ; [|done|done]. rewrite app_nil_r. eapply core_ext; [exact Co|done|apply fupd_same].
Qed.

Lemma append_ind_wp (Q : list Z -> mkst -> Prop) s own dn fbn :
  core s C n own dn -> NDIRECT <= fbn < MAXFILE ->
  freeblock s + Z.of_nat (length (ind_slots own k fbn)) <= FSSIZE ->
  (forall din' s', core s' C n (own ++ ind_slots own k fbn) (fupd dn k din') -> meta_same s s' ->
     same_hdr (dn k) din' -> Q din' s') ->
  wp (if din_addr (dn k) NDIRECT =? 0 then b <- newblock;; ret (set_din_addr NDIRECT b (dn k)) else ret (dn k)) Q s.
Proof.
  intros Co Hf Hfree HQ. pose proof (core_present s own dn IND Co ltac:(done)) as Hp. rewrite ind_addr in Hp.
  unfold ind_slots in *. destruct (Z.ltb_spec fbn NDIRECT); [lia|].
  destruct (Z.eqb_spec (din_addr (dn k) NDIRECT) 0) as [Hz|Hz]; destruct (decide ((k, IND) ∈ own)) as [Hin|Hin]; [tauto| | |tauto]; simpl in Hfree.
  - wp_steps. pose proof (free_range _ _ _ _ _ Co). assert (nmeta = 59) by done. apply wp_newblock; [lia|]. wp_steps.
    destruct (core_alloc_addr s C n own dn Co k IND NDIRECT) as [Hc1 Hc2]; [done|by right|done|lia|done|].
    apply HQ; [done|done|]. by apply same_hdr_set; [apply (co_din _ _ _ _ _ Co)|].
  - wp_steps. apply HQ; [|done|done]. rewrite app_nil_r. eapply core_ext; [exact Co|done|apply fupd_same].
Qed.

Lemma append_entry_wp (Q : block -> mkst -> Prop) s own dn fbn :
  let a := din_addr (dn k) NDIRECT in
  core s C n own dn -> NDIRECT <= fbn < MAXFILE -> (k, IND) ∈ own ->
  ((k, fbn) ∉ own -> Z.of_nat (length (C k)) <= fbn * BSIZE) ->
  freeblock s + Z.of_nat (length (blk_slots own k fbn)) <= FSSIZE ->
  (forall s', core s' C n (own ++ blk_slots own k fbn) dn -> meta_same s s' ->
     Q (rdi s' a) s') ->
  wp (if get32 (rdi s a) (4 * (fbn - NDIRECT)) =? 0 then
        b <- newblock;;
        let indirect := put32 (rdi s a) (4 * (fbn - NDIRECT)) b in
        wsect a indirect;;
        ret indirect
      else ret (rdi s a)) Q s.
Proof.
  intros a Co Hf Hind Hlen Hfree HQ. destruct (addr_in _ _ _ _ _ Co _ _ Hind) as [Hr _]. rewrite ind_addr in Hr. fold a in Hr.
  assert (Hs : is_slot fbn) by (unfold is_slot, IND, NDIRECT in *; change MAXFILE with 140 in *; lia).
  pose proof (core_present s own dn fbn Co Hs) as Hp. assert (nmeta = 59) by done.
  assert (Ed : daddr s (dn k) fbn = get32 (rdi s a) (4 * (fbn - NDIRECT))).
  { unfold daddr. fold a. destruct (Z.ltb_spec fbn NDIRECT), (Z.ltb_spec fbn MAXFILE), (Z.eqb_spec a 0); lia || done. }
  rewrite Ed in Hp. unfold blk_slots in *.
  destruct (Z.eqb_spec (get32 (rdi s a) (4 * (fbn - NDIRECT))) 0); destruct (decide ((k, fbn) ∈ own)) as [Hin|Hin]; [tauto| | |tauto]; simpl in Hfree.
  - wp_steps. pose proof (free_range _ _ _ _ _ Co). apply wp_newblock; [lia|]. cbv zeta. unfold wsect. wp_steps.
    destruct (core_alloc_entry s C n own dn Co k fbn) as [Hc1 Hc2]; [done|done|done|done|lia|by apply Hlen|]. fold a in Hc1, Hc2.
    pose proof (HQ _ Hc1 Hc2) as H3. rewrite rdi_put, Z.eqb_refl in H3. exact H3.
  - wp_steps. apply HQ; [|done]. by rewrite app_nil_r.
Qed.

Definition new_slots (own : list (Z * Z)) (fbn : Z) : list (Z * Z) := ind_slots own k fbn ++ blk_slots own k fbn.

Lemma blk_slots_ind own fbn : fbn < MAXFILE -> blk_slots (own ++ ind_slots own k fbn) k fbn = blk_slots own k fbn.
Proof.
  intros Hf. unfold blk_slots, ind_slots. destruct (fbn <? NDIRECT); [by rewrite app_nil_r|].
  destruct (decide ((k, IND) ∈ own)); [by rewrite app_nil_r|].
  assert (H : (k, fbn) ∈ own ++ [(k, IND)] <-> (k, fbn) ∈ own).
  { rewrite elem_of_app, list_elem_of_singleton. split; [|by left]. intros [|[= E]]; [done|].
    unfold IND in E. change MAXFILE with 140 in Hf. lia. }
  by destruct (decide _), (decide _); try tauto.
Qed.

Lemma ind_slots_in own fbn : NDIRECT <= fbn -> (k, IND) ∈ own ++ ind_slots own k fbn.
Proof.
  intros Hf. unfold ind_slots. destruct (Z.ltb_spec fbn NDIRECT); [lia|]. rewrite elem_of_app.
  destruct (decide _); [by left|right]. by apply list_elem_of_singleton.
Qed.

Lemma append_block_wp (Q : list Z * Z -> mkst -> Prop) s own dn fbn :
  core s C n own dn -> 0 <= fbn < MAXFILE -> ((k, fbn) ∉ own -> Z.of_nat (length (C k)) <= fbn * BSIZE) ->
  freeblock s + Z.of_nat (length (new_slots own fbn)) <= FSSIZE ->
  (forall din' s', core s' C n (own ++ new_slots own fbn) (fupd dn k din') -> meta_same s s' ->
     same_hdr (dn k) din' -> Q (din', daddr s' din' fbn) s') ->
  wp (append_block (dn k) fbn) Q s.
Proof.
  intros Co Hf Hlen Hfree HQ. unfold new_slots in *. rewrite length_app in Hfree.
  destruct (Z.ltb_spec fbn NDIRECT) as [Hd|Hd].
  { assert (E : ind_slots own k fbn = []) by (unfold ind_slots; destruct (Z.ltb_spec fbn NDIRECT); [done|lia]).
    rewrite E in *. apply (append_direct_wp Q s own dn fbn); done || lia. }
  unfold append_block. destruct (Z.ltb_spec fbn NDIRECT); [lia|]. apply wp_bind.
  apply (append_ind_wp _ s own dn fbn); [done|lia|lia|]. intros din1 s1 Co1 M1 H1.
  pose proof (ind_slots_in own fbn Hd) as Hind. pose proof (blk_slots_ind own fbn (proj2 Hf)) as Eb.
  destruct (addr_in _ _ _ _ _ Co1 _ _ Hind) as [Hr _]. rewrite ind_addr, fupd_eq in Hr.
  pose proof (co_sect _ _ _ _ _ Co1) as Es. pose proof (co_max _ _ _ _ _ Co1) as Em. assert (Hm : nmeta = 59) by done.
  apply wp_bind, wp_rsect; [lia|]. apply wp_bind.
  pose proof (append_entry_wp (fun ind s2 => wp (ret (din1, get32 ind (4 * (fbn - NDIRECT)))) Q s2) s1 _ _ fbn Co1) as He.
  cbv zeta in He. rewrite fupd_eq, Eb in He. apply He; [lia|done| | |].
  - intros Hout. apply Hlen. intros Hin. apply Hout. apply elem_of_app. by left.
  - rewrite (co_free _ _ _ _ _ Co1), length_app. rewrite (co_free _ _ _ _ _ Co) in Hfree. lia.
  - intros s2 Co2 M2. rewrite <- app_assoc in Co2. wp_steps.
    assert (E : daddr s2 din1 fbn = get32 (rdi s2 (din_addr din1 NDIRECT)) (4 * (fbn - NDIRECT))).
    { unfold daddr. destruct (Z.ltb_spec fbn NDIRECT), (Z.ltb_spec fbn MAXFILE), (Z.eqb_spec (din_addr din1 NDIRECT) 0); lia || done. }
    rewrite <- E. apply HQ; [done| |done]. by eapply meta_same_trans.
Qed.

(** ** Writing a piece of a file into the block where it belongs *)
Lemma core_write s own dn q :
  let off := Z.of_nat (length (C k)) in
  let x := daddr s (dn k) (off / BSIZE) in
  core s C n own dn -> off < MAXFILE * BSIZE -> (k, off / BSIZE) ∈ own ->
  off mod BSIZE + Z.of_nat (length q) <= BSIZE -> Forall (fun b => 0 <= b < 256) q ->
  core (put_sect x (puts (rdi s x) (off mod BSIZE) q) s) (fupd C k (C k ++ q)) n own dn /\
  meta_same s (put_sect x (puts (rdi s x) (off mod BSIZE) q) s).
Proof.
  intros off x Co Hoff Hin Hq Hqb. set (s' := put_sect _ _ s).
  destruct (addr_in _ _ _ _ _ Co _ _ Hin) as [Hr _]. fold x in Hr. assert (Hm : nmeta = 59) by done.
  pose proof (co_max _ _ _ _ _ Co) as Hmax. pose proof (co_sect _ _ _ _ _ Co) as Es. unfold FSSIZE in *.
  destruct (off_block off ltac:(lia)) as [Hb Hmod].
  assert (Erd : forall b, rdi s' b = if b =? x then puts (rdi s x) (off mod BSIZE) q else rdi s b) by (intros; apply rdi_put).
  assert (Ha : forall k' j, 1 <= k' <= n -> daddr s' (dn k') j = daddr s (dn k') j).
  { intros k' j Hk'. apply daddr_congr. intros Hnz. rewrite Erd. destruct (Z.eqb_spec (din_addr (dn k') NDIRECT) x) as [E|]; [|done].
    destruct (decide ((k', IND) ∈ own)) as [Hi|Hi].
    - destruct (addr_inj _ _ _ _ _ Co _ _ _ _ Hi Hin) as [_ Ej]; [done|]. change MAXFILE with 140 in Hb. unfold IND in Ej. lia.
    - by apply (addr_out _ _ _ _ _ Co) in Hi. }
  split.
  2: { split; [done|]. intros b Hbm. rewrite Erd. destruct (Z.eqb_spec b x); [lia|done]. }
  split; try apply Co.
  - simpl. unfold FSSIZE. lia.
  - intros b. rewrite Erd. destruct (b =? x); [|apply Co]. apply puts_ok; [apply Co|done].
  - intros b Hbf. simpl in Hbf. rewrite Erd. destruct (Z.eqb_spec b x); [lia|]. by apply Co.
  - rewrite Erd. destruct (Z.eqb_spec 1 x); [lia|apply Co].
  - intros k' j b Hk'. rewrite Ha by done. by apply Co.
  - intros k' y Hk' Hy Hyi. rewrite Ha, Erd by done. destruct (off_block y Hy) as [Hyb Hym].
    pose proof (co_byte _ _ _ _ _ Co k' y Hk' Hy Hyi) as Hbyte.
    destruct (Z.eqb_spec (daddr s (dn k') (y / BSIZE)) x) as [E|Hne].
    + destruct (addr_inj _ _ _ _ _ Co _ _ _ _ Hyi Hin E) as [-> Ey]. rewrite fupd_eq. rewrite E in Hbyte.
      pose proof (proj1 (co_ok _ _ _ _ _ Co x)) as Hl. rewrite getb_puts by (rewrite ?Hl; lia).
      pose proof (Z.div_mod y BSIZE ltac:(done)). pose proof (Z.div_mod off BSIZE ltac:(done)). rewrite Ey in *.
      destruct (Z.leb_spec (off mod BSIZE) (y mod BSIZE)), (Z.ltb_spec (y mod BSIZE) (off mod BSIZE + Z.of_nat (length q))); cbn [andb].
      * rewrite lookup_app_r by lia. do 2 f_equal. lia.
      * rewrite Hbyte, !lookup_ge_None_2; [done|rewrite length_app; lia|lia].
      * rewrite Hbyte, lookup_app_l by lia. done.
      * rewrite Hbyte, lookup_app_l by lia. done.
    + rewrite Hbyte. destruct (decide (k' = k)) as [->|]; [|by rewrite fupd_ne]. rewrite fupd_eq.
      destruct (decide (y < off)); [by rewrite lookup_app_l by lia|].
      assert (y / BSIZE <> off / BSIZE) by (intros E; apply Hne; unfold x; by rewrite E).
      assert (off / BSIZE < y / BSIZE) by (pose proof (Z.div_le_mono off y BSIZE ltac:(done) ltac:(lia)); lia).
      rewrite !lookup_ge_None_2; [done|rewrite length_app|lia].
      pose proof (Z.div_mod y BSIZE ltac:(done)). pose proof (Z.div_mod off BSIZE ltac:(done)). unfold BSIZE in *. lia.
Qed.
End AppendBlock.

(** ** The blocks a file of [len] bytes needs *)
Definition nb (len : Z) : Z := (len + 511) / 512.
Definition needs (len j : Z) : Prop := 0 <= j < nb len \/ (j = IND /\ NDIRECT < nb len).
Definition blocks (len : Z) : Z := nb len + (if NDIRECT <? nb len then 1 else 0).
Definition complete (own : list (Z * Z)) (k len : Z) : Prop := forall j, is_slot j -> (k, j) ∈ own <-> needs len j.

Lemma nb_split off : 0 <= off -> nb off = off / BSIZE + (if off mod BSIZE =? 0 then 0 else 1).
Proof.
  intros Ho. unfold nb, BSIZE. pose proof (Z.div_mod off 512 ltac:(done)). pose proof (Z.mod_pos_bound off 512 ltac:(done)).
  symmetry. apply (Z.div_unique _ _ _ (off + 511 - 512 * (off / 512 + (if off mod 512 =? 0 then 0 else 1)))).
  - left. destruct (Z.eqb_spec (off mod 512) 0); lia.
  - lia.
Qed.

Lemma nb_chunk off m : 0 <= off -> 0 < m -> off mod BSIZE + m <= BSIZE -> nb (off + m) = off / BSIZE + 1.
Proof.
  intros Ho Hm Hle. unfold nb, BSIZE in *. pose proof (Z.div_mod off 512 ltac:(done)). pose proof (Z.mod_pos_bound off 512 ltac:(done)).
  symmetry. apply (Z.div_unique _ _ _ (off + m + 511 - 512 * (off / 512 + 1))); [left|]; lia.
Qed.

Lemma nb_mono a b : a <= b -> nb a <= nb b.
Proof. intros H. unfold nb. apply Z.div_le_mono; lia. Qed.

Lemma blocks_mono a b : a <= b -> blocks a <= blocks b.
Proof. intros H%nb_mono. unfold blocks. destruct (Z.ltb_spec NDIRECT (nb a)), (Z.ltb_spec NDIRECT (nb b)); lia. Qed.

Lemma blocks_0 : blocks 0 = 0.
Proof. done. Qed.

Lemma pair_snd (k i j : Z) : (k, i) = (k, j) <-> i = j.
Proof. split; [by intros [= ->]|by intros ->]. Qed.

(** What one piece adds. *)
Lemma complete_chunk own k off m :
  0 <= off -> 0 < m -> off mod BSIZE + m <= BSIZE -> off / BSIZE < MAXFILE -> complete own k off ->
  complete (own ++ new_slots k own (off / BSIZE)) k (off + m) /\
  Z.of_nat (length (new_slots k own (off / BSIZE))) = blocks (off + m) - blocks off.
Proof.
  intros Ho Hm Hle Hmax Hc. set (fbn := off / BSIZE) in *.
  assert (Hf : 0 <= fbn < 140) by (change MAXFILE with 140 in Hmax; split; [apply Z.div_pos; [done|done]|done]).
  pose proof (nb_split off Ho) as E0. pose proof (nb_chunk off m Ho Hm Hle) as E1. fold fbn in E0, E1.
  pose proof (Hc fbn ltac:(unfold is_slot, IND; lia)) as Hb. pose proof (Hc IND ltac:(done)) as Hi.
  unfold needs in *. unfold new_slots, ind_slots, blk_slots, blocks, complete. rewrite E1. unfold IND, NDIRECT in *.
  assert (Hbi : (k, fbn) ∈ own <-> off mod BSIZE <> 0).
  { rewrite Hb, E0. destruct (Z.eqb_spec (off mod BSIZE) 0); lia. }
  assert (Hii : (k, 140) ∈ own <-> 12 < nb off) by (rewrite Hi; lia).
  split.
  - intros j Hj. unfold is_slot, IND in Hj. rewrite !elem_of_app, (Hc j Hj). unfold needs, IND, NDIRECT. rewrite E0 in *.
    destruct (Z.ltb_spec fbn 12), (decide ((k, 140) ∈ own)), (decide ((k, fbn) ∈ own)), (Z.eqb_spec (off mod BSIZE) 0);
      rewrite ?list_elem_of_singleton, ?elem_of_nil, ?pair_snd; rewrite ?Hbi, ?Hii in *; lia.
  - rewrite E0 in *. destruct (Z.ltb_spec fbn 12), (decide ((k, 140) ∈ own)), (decide ((k, fbn) ∈ own)), (Z.eqb_spec (off mod BSIZE) 0);
      rewrite ?Hbi, ?Hii in *; simpl; destruct (Z.ltb_spec 12 (fbn + 1)); try lia;
      repeat match goal with |- context [if ?a <? ?b then _ else _] => destruct (Z.ltb_spec a b) end; lia.
Qed.

(** The slots of the other files stay. *)
Definition others (k : Z) (own own' : list (Z * Z)) : Prop := forall k' j, k' <> k -> (k', j) ∈ own' <-> (k', j) ∈ own.

Lemma others_new k own fbn : others k own (own ++ new_slots k own fbn).
Proof.
  intros k' j Hne. rewrite elem_of_app. split; [|by left]. intros [|Hin]; [done|]. exfalso.
  unfold new_slots, ind_slots, blk_slots in Hin. apply elem_of_app in Hin.
  repeat case_match; rewrite ?list_elem_of_singleton, ?elem_of_nil in Hin; naive_solver.
Qed.

(** ** The loop of iappend *)
Section IappendLoop.
Variables (n k : Z).
Hypothesis Hk : 1 <= k <= n.

(** The state after [p] has been appended to file [k]. *)
Record appended (s s' : mkst) (C : Z -> list Z) (own own' : list (Z * Z)) (dn : Z -> list Z) (din' p : list Z) : Prop := mkAppended {
  ap_core : core s' (fupd C k (C k ++ p)) n own' (fupd dn k din');
  ap_complete : complete own' k (Z.of_nat (length (C k)) + Z.of_nat (length p));
  ap_others : others k own own';
  ap_count : Z.of_nat (length own') = Z.of_nat (length own) +
    (blocks (Z.of_nat (length (C k)) + Z.of_nat (length p)) - blocks (Z.of_nat (length (C k))));
  ap_meta : meta_same s s';
  ap_hdr : same_hdr (dn k) din'
}.

(** One turn: a piece [q] that ends in the block where the file ends. *)
Lemma append_chunk_wp (K : list Z -> M mkst (list Z * Z)) Q s C own dn q :
  let len := Z.of_nat (length (C k)) in
  core s C n own dn -> complete own k len -> len < MAXFILE * BSIZE ->
  0 < Z.of_nat (length q) -> len mod BSIZE + Z.of_nat (length q) <= BSIZE -> Forall (fun b => 0 <= b < 256) q ->
  freeblock s + (blocks (len + Z.of_nat (length q)) - blocks len) <= FSSIZE ->
  (forall s' own' din', appended s s' C own own' dn din' q -> wp (K din') Q s') ->
  wp (r <- append_block (dn k) (len / BSIZE);;
      let '(din, x) := r in
      buf <- rsect x;;
      wsect x (puts buf (len mod BSIZE) q);;
      K din) Q s.
Proof.
  intros len Co Hc Hmax Hpos Hfit Hq Hfree HK. destruct (off_block len ltac:(lia)) as [Hb Hmod].
  assert (Hs : is_slot (len / BSIZE)) by (by apply is_slot_bn).
  destruct (complete_chunk own k len (Z.of_nat (length q)) ltac:(lia) Hpos Hfit ltac:(lia) Hc) as [Hc1 Hl1].
  apply wp_bind. apply (append_block_wp C n k Hk _ s own dn (len / BSIZE)); [done|lia| |lia|].
  { intros Hout. rewrite (Hc _ Hs) in Hout. unfold needs in Hout. rewrite nb_split in Hout by lia. fold len.
    pose proof (Z.div_mod len BSIZE ltac:(done)). destruct (Z.eqb_spec (len mod BSIZE) 0); lia. }
  intros din1 s1 Co1 M1 H1. apply wp_bind.
  assert (Hin : (k, len / BSIZE) ∈ own ++ new_slots k own (len / BSIZE)).
  { apply Hc1; [done|]. left. rewrite nb_chunk by lia. lia. }
  destruct (addr_in _ _ _ _ _ Co1 _ _ Hin) as [Hr _]. rewrite fupd_eq in Hr.
  pose proof (co_sect _ _ _ _ _ Co1). pose proof (co_max _ _ _ _ _ Co1).
  apply wp_rsect; [lia|]. unfold wsect at 1. apply wp_bind, wp_modify.
  destruct (core_write C n k s1 _ _ q Co1 Hmax Hin Hfit Hq) as [Co2 M2]. fold len in Co2, M2. rewrite fupd_eq in Co2, M2.
  apply (HK _ (own ++ new_slots k own (len / BSIZE))). split; [exact Co2|done|apply others_new| | |done].
  - rewrite length_app. fold len. lia.
  - by eapply meta_same_trans.
Qed.

Lemma appended_trans s s1 s2 C own own1 own2 dn din1 din2 p q :
  appended s s1 C own own1 dn din1 p -> appended s1 s2 (fupd C k (C k ++ p)) own1 own2 (fupd dn k din1) din2 q ->
  appended s s2 C own own2 dn din2 (p ++ q).
Proof.
  intros [A1 A2 A3 A4 A5 A6] [B1 B2 B3 B4 B5 B6]. rewrite !fupd_eq in *. rewrite !length_app in *.
  rewrite Nat2Z.inj_add in *. split; rewrite ?length_app, ?Nat2Z.inj_add, ?Z.add_assoc; [|done| |lia|by eapply meta_same_trans|].
  - eapply core_ext; [exact B1| |intros k'; symmetry; apply fupd_twice]. intros k'. by rewrite fupd_twice, app_assoc.
  - intros k' j Hne. transitivity ((k', j) ∈ own1); [by apply B3|by apply A3].
  - intros o Ho. by rewrite B6, A6.
Qed.

Lemma iappend_loop_wp fuel : forall (Q : list Z * Z -> mkst -> Prop) s C own dn p,
  let len := Z.of_nat (length (C k)) in
  let m := Z.of_nat (length p) in
  core s C n own dn -> complete own k len -> len + m <= MAXFILE * BSIZE ->
  freeblock s + (blocks (len + m) - blocks len) <= FSSIZE -> Forall (fun b => 0 <= b < 256) p -> (length p < fuel)%nat ->
  (forall s' own' din', appended s s' C own own' dn din' p -> Q (din', len + m) s') ->
  wp (iappend_loop fuel (dn k) p len m) Q s.
Proof.
  induction fuel as [|fuel IH]; intros Q s C own dn p len m Co Hc Hmax Hfree Hp Hfuel HQ; [lia|].
  cbn [iappend_loop]. destruct (Z.gtb_spec m 0) as [Hm|Hm].
  2: { assert (Ep : p = []) by (destruct p; [done|unfold m in Hm; simpl in Hm; lia]). subst p. change m with 0 in *.
       apply wp_ret. replace len with (len + 0) at 1 by lia. apply (HQ s own (dn k)).
       split; try done; simpl; rewrite ?Z.add_0_r; [|done|lia]. eapply core_ext; [exact Co| |apply fupd_same].
       intros k'. rewrite app_nil_r. apply fupd_same. }
  cbv zeta. change (MAXFILE * BSIZE) with 71680 in *.
  destruct (off_block len ltac:(change (MAXFILE * BSIZE) with 71680; lia)) as [Hb Hmod].
  destruct (Z.ltb_spec (len / BSIZE) MAXFILE); [|lia]. cbn [negb]. pose proof (Z.div_mod len BSIZE ltac:(done)) as Hdm.
  set (n1 := Z.min m ((len / BSIZE + 1) * BSIZE - len)).
  assert (Hn1 : 0 < n1 <= m /\ len mod BSIZE + n1 <= BSIZE) by (unfold n1, BSIZE in *; lia).
  set (q := take (Z.to_nat n1) p). assert (Hq : Z.of_nat (length q) = n1) by (unfold q; rewrite length_take, Nat2Z.inj_min, Z2Nat.id by lia; fold m; lia).
  pose proof (blocks_mono (len + n1) (len + m) ltac:(lia)) as Hmono.
  replace (len - len / BSIZE * BSIZE) with (len mod BSIZE) by lia.
  apply append_chunk_wp with (C := C) (own := own);
    [done|done|change (MAXFILE * BSIZE) with 71680; fold len; lia|lia|fold len; lia|by apply Forall_take|fold len; fold q; rewrite Hq; lia|].
  intros s1 own1 din1 A1. rewrite u32_small by lia. pose proof (ap_core _ _ _ _ _ _ _ _ A1) as Co1.
  assert (El : Z.of_nat (length (fupd C k (C k ++ q) k)) = len + n1) by (rewrite fupd_eq, length_app; lia).
  assert (Ed : Z.of_nat (length (drop (Z.to_nat n1) p)) = m - n1) by (rewrite length_drop, Nat2Z.inj_sub, Z2Nat.id by (unfold m in *; lia); done).
  assert (Ef : freeblock s1 = freeblock s + (blocks (len + n1) - blocks len)).
  { rewrite (co_free _ _ _ _ _ Co1), (co_free _ _ _ _ _ Co), (ap_count _ _ _ _ _ _ _ _ A1). fold len; fold q; rewrite Hq; lia. }
  pose proof (IH Q s1 (fupd C k (C k ++ q)) own1 (fupd dn k din1) (drop (Z.to_nat n1) p) Co1) as IHq.
  cbv zeta in IHq. rewrite El, Ed, fupd_eq in IHq. replace (len + n1 + (m - n1)) with (len + m) in IHq by lia.
  apply IHq; [rewrite <- Hq; apply A1|change (MAXFILE * BSIZE) with 71680; lia|lia|by apply Forall_drop|rewrite length_drop; unfold m in *; lia|].
  intros s' own' din' A'. apply (HQ s' own' din'). rewrite <- (take_drop (Z.to_nat n1) p). by eapply appended_trans.
Qed.
End IappendLoop.
