(* ===== verification/MkfsMain.v ===== *)
(** * mkfs between two calls of iappend, and its main program

    [rest] is the image with every inode written: inode [k] has the type [T k] and
    the content [C k].  Each routine of mkfs that changes the image is shown to
    keep it, and main to end in the image of the files it was given. *)

From stdpp Require Import base numbers list gmap strings.
From Stdlib Require Import ZArith Lia Bool.
From S2P Require Import Prelude Block Mem Fs FsAlloc FsFile FsRw FsInode FsDir Mkfs MkfsInv.

Local Open Scope Z_scope.
Local Open Scope kernel_scope.

(** ** Inodes on the image *)
Definition din_of (s : mkst) (k : Z) : list Z := gets_bytes (rdi s (IBLOCK k img_sb)) (dinode_off k) sizeof_dinode.

Lemma img_IBLOCK k : 0 <= k < NINODES -> IBLOCK k img_sb = k / IPB + 32 /\ 32 <= IBLOCK k img_sb < 58.
Proof.
  intros Hk. unfold IBLOCK, NINODES in *. change (sb_inodestart img_sb) with 32. change IPB with 8.
  assert (0 <= k / 8 < 26) by (split; [apply Z.div_pos|apply Z.div_lt_upper_bound]; lia).
  rewrite u32_small by lia. lia.
Qed.

Lemma dinode_off_range k : 0 <= dinode_off k /\ dinode_off k + 64 <= 512.
Proof. unfold dinode_off, sizeof_dinode. change IPB with 8. pose proof (Z.mod_pos_bound k 8 ltac:(done)). lia. Qed.

(** What is read at an offset is a field of the block. *)
Lemma getb_gets d o n x : 0 <= o -> 0 <= x < n -> o + n <= Z.of_nat (length d) -> getb (gets_bytes d o n) x = getb d (o + x).
Proof.
  intros Ho Hx Hl. unfold getb, gets_bytes. rewrite lookup_take_lt, lookup_drop by lia. do 2 f_equal. lia.
Qed.

Lemma gets_puts d o l : 0 <= o -> o + Z.of_nat (length l) <= Z.of_nat (length d) ->
  gets_bytes (puts d o l) o (Z.of_nat (length l)) = l.
Proof.
  intros Ho Hl. apply list_eq. intros i. unfold gets_bytes, puts. destruct (decide (i < length l)%nat).
  - rewrite lookup_take_lt, lookup_drop, list_lookup_inserts by lia. f_equal. lia.
  - rewrite lookup_take_ge by lia. symmetry. apply lookup_ge_None. lia.
Qed.

Lemma gets_puts_ne d o l o' n : 0 <= o -> o + Z.of_nat (length l) <= Z.of_nat (length d) -> 0 <= o' -> 0 <= n ->
  o' + n <= o \/ o + Z.of_nat (length l) <= o' -> gets_bytes (puts d o l) o' n = gets_bytes d o' n.
Proof.
  intros Ho Hl Ho' Hn Hd. apply list_eq. intros i. unfold gets_bytes, puts. destruct (decide (i < Z.to_nat n)%nat).
  - rewrite !lookup_take_lt, !lookup_drop by lia. destruct Hd; [by rewrite list_lookup_inserts_lt by lia|].
    by rewrite list_lookup_inserts_ge by lia.
  - by rewrite !lookup_take_ge by lia.
Qed.

(** The state after winode. *)
Definition winoded (k : Z) (din : list Z) (s : mkst) : mkst :=
  put_sect (IBLOCK k img_sb) (puts (rdi s (IBLOCK k img_sb)) (dinode_off k) din) s.

Lemma winode_wp (Q : unit -> mkst -> Prop) s k din : nsect s = FSSIZE -> 0 <= k < NINODES -> Q tt (winoded k din s) ->
  wp (winode k din) Q s.
Proof.
  intros Hs Hk HQ. destruct (img_IBLOCK k Hk). unfold winode. apply wp_bind, wp_rsect; [unfold FSSIZE in *; lia|].
  unfold wsect. by apply wp_modify.
Qed.

Lemma rinode_wp (Q : list Z -> mkst -> Prop) s k : nsect s = FSSIZE -> 0 <= k < NINODES -> Q (din_of s k) s ->
  wp (rinode k) Q s.
Proof.
  intros Hs Hk HQ. destruct (img_IBLOCK k Hk). unfold rinode. apply wp_bind, wp_rsect; [unfold FSSIZE in *; lia|].
  by apply wp_ret.
Qed.

Lemma din_of_winoded s k din k' : 0 <= k < NINODES -> 0 <= k' < NINODES -> (forall b, block_ok (rdi s b)) ->
  length din = 64%nat -> din_of (winoded k din s) k' = if k' =? k then din else din_of s k'.
Proof.
  intros Hk Hk' Hok Hl. unfold din_of, winoded. rewrite rdi_put. destruct (img_IBLOCK k Hk) as [E _], (img_IBLOCK k' Hk') as [E' _].
  pose proof (proj1 (Hok (IBLOCK k img_sb))) as Hlen. change (Z.to_nat BSIZE) with 512%nat in Hlen.
  destruct (dinode_off_range k), (dinode_off_range k'). destruct (Z.eqb_spec k' k) as [->|Hne].
  - rewrite Z.eqb_refl. change sizeof_dinode with (Z.of_nat 64). rewrite <- Hl. apply gets_puts; lia.
  - destruct (Z.eqb_spec (IBLOCK k' img_sb) (IBLOCK k img_sb)) as [Ei|]; [|done]. rewrite Ei.
    apply gets_puts_ne; try done; try lia. unfold sizeof_dinode in *.
    destruct (dinode_off_disjoint k' k ltac:(lia) Hne); unfold sizeof_dinode in *; lia.
Qed.

(** A metadata block other than the superblock is not part of [core]. *)
Lemma core_meta s C n own dn b d : core s C n own dn -> 1 < b < nmeta -> block_ok d -> core (put_sect b d s) C n own dn.
Proof.
  intros Co Hb Hd. assert (Hm : nmeta = 59) by done. pose proof (co_sect _ _ _ _ _ Co) as Es. unfold FSSIZE in Es.
  pose proof (free_range _ _ _ _ _ Co) as Hf.
  assert (Ha : forall k j, 1 <= k <= n -> daddr (put_sect b d s) (dn k) j = daddr s (dn k) j).
  { intros k j Hk. apply daddr_congr. intros Hnz. rewrite rdi_put. destruct (Z.eqb_spec (din_addr (dn k) NDIRECT) b); [|done].
    destruct (addr_in _ _ _ _ _ Co k IND) as [Hr _]; [by apply (core_present C n k Hk s own dn IND Co)|].
    rewrite ind_addr in Hr. lia. }
  split; try apply Co.
  - simpl. unfold FSSIZE. lia.
  - intros x. rewrite rdi_put. destruct (x =? b); [done|apply Co].
  - intros x Hx. simpl in Hx. rewrite rdi_put. destruct (Z.eqb_spec x b); [lia|by apply Co].
  - rewrite rdi_put. destruct (Z.eqb_spec 1 b); [lia|apply Co].
  - intros k j x Hk. rewrite Ha by done. by apply Co.
  - intros k x Hk Hx Hin. rewrite Ha, rdi_put by done. destruct (addr_in _ _ _ _ _ Co _ _ Hin) as [Hr _].
    destruct (Z.eqb_spec (daddr s (dn k) (x / BSIZE)) b); [lia|]. by apply Co.
Qed.

(** Only the addresses of the inodes matter to it. *)
Lemma core_dn s C n own dn dn' : core s C n own dn ->
  (forall k, 1 <= k <= n -> din_ok (dn' k) /\ forall a, 0 <= a < 13 -> din_addr (dn' k) a = din_addr (dn k) a) ->
  core s C n own dn'.
Proof.
  intros Co H. assert (Ha : forall k j, 1 <= k <= n -> 0 <= j -> daddr s (dn' k) j = daddr s (dn k) j).
  { intros k j Hk Hj. unfold daddr. destruct (H k Hk) as [_ Hd]. rewrite (Hd NDIRECT) by done.
    destruct (Z.ltb_spec j NDIRECT); [|done]. apply Hd. unfold NDIRECT in *. lia. }
  split; try apply Co.
  - intros k Hk. by apply H.
  - intros k j b Hk Hj. rewrite Ha; [by apply Co|done|]. unfold is_slot in Hj. lia.
  - intros k x Hk Hx Hin. rewrite Ha; [by apply Co|done|]. apply Z.div_pos; [lia|done].
Qed.

(** ** The image between two calls *)

(** The blocks of the first [n] files. *)
Fixpoint total (C : Z -> list Z) (n : nat) : Z :=
  match n with
  | O => 0
  | S n' => total C n' + blocks (Z.of_nat (length (C (Z.of_nat n))))
  end.

Lemma total_out C n k c : Z.of_nat n < k -> total (fupd C k c) n = total C n.
Proof.
  induction n as [|n IH]; intros Hk; cbn [total]; [done|]. rewrite IH, fupd_ne by lia. done.
Qed.

Lemma total_upd C n k c : 1 <= k <= Z.of_nat n ->
  total (fupd C k c) n = total C n + (blocks (Z.of_nat (length c)) - blocks (Z.of_nat (length (C k)))).
Proof.
  induction n as [|n IH]; intros Hk; [lia|]. cbn [total]. destruct (decide (k = Z.of_nat (S n))) as [->|Hne].
  - rewrite total_out, fupd_eq by lia. lia.
  - rewrite IH, fupd_ne by lia. lia.
Qed.

Definition hdr (din : list Z) (t len : Z) : Prop :=
  get16 din 0 = t /\ get16 din 2 = 0 /\ get16 din 4 = 0 /\ get16 din 6 = 1 /\ din_size din = len.

Record rest (s : mkst) (n : Z) (T : Z -> Z) (C : Z -> list Z) (own : list (Z * Z)) (dn : Z -> list Z) : Prop := mkRest {
  r_core : core s C n own dn;
  r_ino : freeinode s = n + 1;
  r_din : forall k, 1 <= k <= n -> din_of s k = dn k;
  r_hdr : forall k, 1 <= k <= n -> hdr (dn k) (T k) (Z.of_nat (length (C k)));
  r_complete : forall k, 1 <= k <= n -> complete own k (Z.of_nat (length (C k)));
  r_max : forall k, 1 <= k <= n -> Z.of_nat (length (C k)) <= MAXFILE * BSIZE;
  r_count : Z.of_nat (length own) = total C (Z.to_nat n)
}.

Lemma new_dinode_bytes t : new_dinode t = [t mod 256; t / 256 mod 256; 0; 0; 0; 0; 1] ++ replicate 57 0.
Proof. done. Qed.

Lemma new_dinode_addr t a : 0 <= a < 13 -> din_addr (new_dinode t) a = 0.
Proof.
  intros Ha. unfold din_addr, get32, getb. rewrite new_dinode_bytes, !lookup_app_r by (cbn [length]; lia). cbn [length].
  by rewrite !lookup_replicate_2 by lia.
Qed.

Lemma new_dinode_ok t : 0 <= t < 65536 -> din_ok (new_dinode t) /\ hdr (new_dinode t) t 0.
Proof.
  intros Ht. rewrite new_dinode_bytes. split; [split; [done|]|].
  - repeat (apply Forall_cons; split; [apply byte_range || lia|]). done.
  - unfold hdr. split; [|done]. unfold get16, getb. simpl. rewrite le16_sum. by apply Z.mod_small.
Qed.

Lemma daddr_none s din j : (forall a, 0 <= a < 13 -> din_addr din a = 0) -> 0 <= j -> daddr s din j = 0.
Proof.
  intros H Hj. unfold daddr. rewrite (H NDIRECT) by done. destruct (Z.ltb_spec j NDIRECT); [apply H; unfold NDIRECT in *; lia|].
  by destruct (j <? MAXFILE).
Qed.

(** A new inode without blocks. *)
Lemma core_new s C n own dn din : core s C n own dn -> 0 <= n -> din_ok din -> (forall a, 0 <= a < 13 -> din_addr din a = 0) ->
  core s (fupd C (n + 1) []) (n + 1) own (fupd dn (n + 1) din).
Proof.
  intros Co Hn Hok Hz. assert (Hout : forall j, (n + 1, j) ∉ own) by (intros j Hin; apply (co_in _ _ _ _ _ Co) in Hin; lia).
  split; try apply Co.
  - intros k Hk. destruct (decide (k = n + 1)) as [->|]; [by rewrite fupd_eq|]. rewrite fupd_ne by done. apply Co. lia.
  - intros k j b Hk Hj Hb. destruct (decide (k = n + 1)) as [->|]; [|rewrite fupd_ne by done; apply Co; [lia|done|done]].
    rewrite fupd_eq, daddr_none by (done || unfold is_slot in Hj; lia). split; [congruence|].
    intros [_ Hl]. destruct (Hout j). by eapply list_elem_of_lookup_2.
  - intros k j Hin. apply (co_in _ _ _ _ _ Co) in Hin. split; [lia|tauto].
  - intros k x Hk Hx Hin. destruct (decide (k = n + 1)) as [->|]; [by apply Hout in Hin|].
    rewrite !fupd_ne by done. apply Co; [lia|done|done].
Qed.

Lemma core_ino s C n own dn v : core s C n own dn -> core (mkMk (img s) (nsect s) v (freeblock s)) C n own dn.
Proof. intros []. by split. Qed.

Lemma core_winoded s C n own dn k din : core s C n own dn -> 0 <= k < NINODES -> din_ok din ->
  core (winoded k din s) C n own dn.
Proof.
  intros Co Hk [_ Hd]. destruct (img_IBLOCK k Hk) as [_ Hb]. assert (nmeta = 59) by done.
  apply core_meta; [done|lia|]. apply puts_ok; [apply Co|done].
Qed.

(** ** ialloc *)
Lemma ialloc_wp (Q : Z -> mkst -> Prop) s n T C own dn t :
  rest s n T C own dn -> 0 <= n -> n + 1 < NINODES -> 0 <= t < 65536 ->
  (forall s', rest s' (n + 1) (fupd T (n + 1) t) (fupd C (n + 1) []) own (fupd dn (n + 1) (new_dinode t)) ->
     freeblock s' = freeblock s -> Q (n + 1) s') ->
  wp (ialloc t) Q s.
Proof.
  intros [Co Hi Hd Hh Hc Hm Hct] Hn Hmax Ht HQ. destruct (new_dinode_ok t Ht) as [Hok Hhd]. unfold NINODES in *.
  unfold ialloc. wp_steps. rewrite Hi, u32_small by lia. set (s1 := mkMk _ _ _ _).
  assert (Co1 : core s1 C n own dn) by (by apply core_ino).
  apply winode_wp; [apply Co1|unfold NINODES; lia|]. wp_steps. apply HQ; [|done].
  assert (Ed : forall k, 1 <= k <= n + 1 -> din_of (winoded (n + 1) (new_dinode t) s1) k = fupd dn (n + 1) (new_dinode t) k).
  { intros k Hk. rewrite din_of_winoded; [|unfold NINODES; lia|unfold NINODES; lia|apply Co1|apply Hok].
    unfold fupd. destruct (Z.eqb_spec k (n + 1)); [done|]. apply Hd. lia. }
  split; [apply core_new; [apply core_winoded; [done|unfold NINODES; lia|done]|done|done|apply new_dinode_addr]|simpl; lia|done| | | |].
  - intros k Hk. unfold fupd. destruct (Z.eqb_spec k (n + 1)); [done|]. apply Hh. lia.
  - intros k Hk j Hj. unfold fupd. destruct (Z.eqb_spec k (n + 1)) as [->|]; [|apply Hc; [lia|done]].
    split; [intros Hin; apply (co_in _ _ _ _ _ Co) in Hin; lia|]. unfold needs. change (nb (Z.of_nat (length []))) with 0. unfold NDIRECT. lia.
  - intros k Hk. unfold fupd. destruct (Z.eqb_spec k (n + 1)); [done|]. apply Hm. lia.
  - replace (Z.to_nat (n + 1)) with (S (Z.to_nat n)) by lia. cbn [total]. rewrite total_out by lia.
    replace (Z.of_nat (S (Z.to_nat n))) with (n + 1) by lia. rewrite fupd_eq. change (blocks (Z.of_nat (length []))) with 0. lia.
Qed.

(** ** iappend *)
Lemma hdr_same din din' t len : same_hdr din din' -> hdr din t len -> hdr din' t len.
Proof. intros H (H0 & H2 & H4 & H6 & H8). unfold hdr, din_size, get16, get32 in *. rewrite !H by lia. done. Qed.

Lemma set_size_ok v din t len : din_ok din -> hdr din t len -> 0 <= v < 4294967296 ->
  din_ok (set_din_size v din) /\ hdr (set_din_size v din) t v /\
  forall a, 0 <= a < 13 -> din_addr (set_din_size v din) a = din_addr din a.
Proof.
  intros Hok (H0 & H2 & H4 & H6 & H8) Hv. assert (E : set_din_size v din = set_din_addr (-1) v din) by done.
  pose proof (din_set_ok (-1) v din Hok) as Hok'. destruct Hok as [Hl _]. split; [by rewrite E|]. split.
  - unfold hdr, din_size, set_din_size, put32.
    rewrite !get16_puts_ne by (change (Z.of_nat (length (le32 v))) with 4; lia). fold (put32 din 8 v).
    rewrite get32_put32_eq by lia. rewrite Z.mod_small by lia. done.
  - intros a Ha. unfold din_addr, set_din_size. apply get32_put32_ne; lia.
Qed.

Lemma iappend_wp (Q : unit -> mkst -> Prop) s n T C own dn k p :
  let len := Z.of_nat (length (C k)) in
  let m := Z.of_nat (length p) in
  rest s n T C own dn -> 1 <= k <= n -> n < NINODES -> Forall (fun b => 0 <= b < 256) p ->
  len + m <= MAXFILE * BSIZE -> freeblock s + (blocks (len + m) - blocks len) <= FSSIZE ->
  (forall s' own' dn', rest s' n T (fupd C k (C k ++ p)) own' dn' ->
     freeblock s' = freeblock s + (blocks (len + m) - blocks len) -> Q tt s') ->
  wp (iappend k p) Q s.
Proof.
  intros len m R Hk Hn Hp Hmax Hfree HQ. pose proof R as [Co Hi Hd Hh Hc Hm Hct]. unfold NINODES in Hn.
  change (MAXFILE * BSIZE) with 71680 in Hmax.
  unfold iappend. apply wp_bind, rinode_wp; [apply Co|unfold NINODES; lia|]. rewrite Hd by done.
  pose proof (Hh k Hk) as Hhk. assert (Es : din_size (dn k) = len) by (apply Hhk). rewrite Es. apply wp_bind.
  apply (iappend_loop_wp n k Hk _ _ s C own dn p); [done|by apply Hc|done|done|done|lia|]. fold len m.
  intros s1 own1 din1 [Co1 Hc1 Ho1 Hl1 [Mi Mb] H1]. fold len m in Hc1, Hl1.
  assert (Hd1 : din_ok din1) by (pose proof (co_din _ _ _ _ _ Co1 k Hk) as X; by rewrite fupd_eq in X).
  destruct (set_size_ok (len + m) din1 (T k) len Hd1 ltac:(by eapply hdr_same) ltac:(lia)) as (Hok2 & Hh2 & Ha2).
  apply winode_wp; [apply Co1|unfold NINODES; lia|]. set (din2 := set_din_size (len + m) din1) in *.
  assert (El : Z.of_nat (length (C k ++ p)) = len + m) by (rewrite length_app; lia).
  apply (HQ _ own1 (fupd dn k din2)).
  2: { simpl. rewrite (co_free _ _ _ _ _ Co1), (co_free _ _ _ _ _ Co). lia. }
  split; [apply core_winoded; [|unfold NINODES; lia|done]|simpl; lia| | | | |].
  - eapply core_dn; [exact Co1|]. intros k' Hk'. unfold fupd. destruct (Z.eqb_spec k' k); [done|]. split; [by apply Co|done].
  - intros k' Hk'. rewrite din_of_winoded; [|unfold NINODES; lia|unfold NINODES; lia|apply Co1|apply Hok2].
    unfold fupd. destruct (Z.eqb_spec k' k); [done|]. rewrite <- Hd by done. unfold din_of.
    destruct (img_IBLOCK k' ltac:(unfold NINODES; lia)) as [_ ?]. assert (nmeta = 59) by done. by rewrite Mb by lia.
  - intros k' Hk'. unfold fupd. destruct (Z.eqb_spec k' k) as [->|]; [by rewrite El|by apply Hh].
  - intros k' Hk' j Hj. unfold fupd. destruct (Z.eqb_spec k' k) as [->|]; [rewrite El; by apply Hc1|].
    transitivity ((k', j) ∈ own); [by apply Ho1|by apply Hc].
  - intros k' Hk'. unfold fupd. destruct (Z.eqb_spec k' k) as [->|]; [rewrite El; change (MAXFILE * BSIZE) with 71680; lia|by apply Hm].
  - rewrite total_upd, El by lia. fold len. lia.
Qed.

(** ** Copying a file in *)
Lemma copy_file_wp n k fuel : forall (Q : unit -> mkst -> Prop) s T C own dn l,
  let len := Z.of_nat (length (C k)) in
  let m := Z.of_nat (length l) in
  rest s n T C own dn -> 1 <= k <= n -> n < NINODES -> Forall (fun b => 0 <= b < 256) l ->
  len + m <= MAXFILE * BSIZE -> freeblock s + (blocks (len + m) - blocks len) <= FSSIZE -> (length l < fuel)%nat ->
  (forall s' C' own' dn', rest s' n T C' own' dn' -> C' k = C k ++ l -> (forall k', k' <> k -> C' k' = C k') ->
     freeblock s' = freeblock s + (blocks (len + m) - blocks len) -> Q tt s') ->
  wp (copy_file fuel k l) Q s.
Proof.
  induction fuel as [|fuel IH]; intros Q s T C own dn l len m R Hk Hn Hl Hmax Hfree Hfuel HQ; [lia|].
  set (q := take (Z.to_nat BSIZE) l). set (r := drop (Z.to_nat BSIZE) l).
  enough (Hgo : l <> [] -> wp (iappend k q;; copy_file fuel k r) Q s).
  { cbn [copy_file]. destruct l as [|b l0]; [|by apply Hgo].
    apply wp_ret. apply (HQ s C own dn); [done|by rewrite app_nil_r|done|]. unfold m. simpl. rewrite Z.add_0_r. lia. }
  intros Hne.
  assert (Eqr : q ++ r = l) by apply take_drop. assert (Em : Z.of_nat (length q) + Z.of_nat (length r) = m)
    by (unfold m; rewrite <- Eqr, length_app; lia).
  pose proof (blocks_mono (len + Z.of_nat (length q)) (len + m) ltac:(lia)).
  apply wp_bind, (iappend_wp _ s n T C own dn); [done|done|done|by apply Forall_take|lia|fold len; lia|].
  intros s1 own1 dn1 R1 Ef. fold len in Ef.
  assert (E1 : Z.of_nat (length (fupd C k (C k ++ q) k)) = len + Z.of_nat (length q)) by (rewrite fupd_eq, length_app; lia).
  assert (Hlt : (length r < length l)%nat).
  { unfold r. rewrite length_drop. destruct l; [done|]. simpl. change (Z.to_nat BSIZE) with 512%nat. lia. }
  apply (IH Q s1 T (fupd C k (C k ++ q)) own1 dn1 r R1); rewrite ?E1; [done|done|by apply Forall_drop|lia| |lia|].
  { rewrite <- Z.add_assoc, Em. lia. }
  rewrite <- Z.add_assoc, Em. intros s' C' own' dn' R' E' Eo' Ef'. apply (HQ s' C' own' dn'); [done| | |lia].
  - by rewrite E', fupd_eq, <- app_assoc, Eqr.
  - intros k' Hk'. by rewrite Eo', fupd_ne.
Qed.

(** ** The files of the image *)

(** The entry of the root directory for inode [i]. *)
Definition entry (i : Z) (arg : list Z) : list Z := mk_dirent i (strncpy (cstr (file_name arg)) (Z.to_nat DIRSIZ)).

Fixpoint entries (i : Z) (l : list (list Z * list Z)) : list Z :=
  match l with
  | [] => []
  | (arg, _) :: l' => entry i arg ++ entries (i + 1) l'
  end.

Definition dot : list Z := mk_dirent ROOTINO ([46] ++ replicate 13 0).
Definition dotdot : list Z := mk_dirent ROOTINO ([46; 46] ++ replicate 12 0).
Definition root_bytes (l : list (list Z * list Z)) : list Z := (dot ++ dotdot) ++ entries 2 l.

Lemma entries_app i l1 l2 : entries i (l1 ++ l2) = entries i l1 ++ entries (i + Z.of_nat (length l1)) l2.
Proof.
  revert i. induction l1 as [|[arg c] l1 IH]; intros i; cbn [entries length app]; [by rewrite Z.add_0_r|]. rewrite IH, <- app_assoc.
  by replace (i + 1 + Z.of_nat (length l1)) with (i + Z.of_nat (S (length l1))) by lia.
Qed.

Lemma entry_length i arg : length (entry i arg) = 16%nat.
Proof. unfold entry, mk_dirent, strncpy. by rewrite length_app, strncpy_loop_length. Qed.

Lemma entry_bytes i arg : Forall (fun b => 0 <= b < 256) arg -> Forall (fun b => 0 <= b < 256) (entry i arg).
Proof.
  intros Ha. unfold entry, mk_dirent. apply Forall_app. split; [apply le16_ok|]. apply strncpy_bytes.
  unfold file_name. repeat case_match; try done. by apply Forall_cons in Ha as [_ Ha].
Qed.

Lemma entries_length i l : Z.of_nat (length (entries i l)) = 16 * Z.of_nat (length l).
Proof. revert i. induction l as [|[arg c] l IH]; intros i; cbn [entries length]; [done|]. rewrite length_app, entry_length. specialize (IH (i + 1)). lia. Qed.

Lemma root_length l : Z.of_nat (length (root_bytes l)) = 32 + 16 * Z.of_nat (length l).
Proof. unfold root_bytes. rewrite length_app, Nat2Z.inj_add, entries_length. done. Qed.

Fixpoint files_need (l : list (list Z * list Z)) : Z :=
  match l with
  | [] => 0
  | (_, c) :: l' => blocks (Z.of_nat (length c)) + files_need l'
  end.

(** The data blocks that the root directory and the files take. *)
Definition need (l : list (list Z * list Z)) : Z := blocks (32 + 16 * Z.of_nat (length l)) + files_need l.

Lemma blocks_nonneg a : 0 <= a -> 0 <= blocks a.
Proof. intros H%blocks_mono. by rewrite blocks_0 in H. Qed.

Lemma files_need_app l1 l2 : files_need (l1 ++ l2) = files_need l1 + files_need l2.
Proof. induction l1 as [|[a c] l1 IH]; simpl; lia. Qed.

Lemma files_need_nonneg l : 0 <= files_need l.
Proof. induction l as [|[a c] l IH]; simpl; [done|]. pose proof (blocks_nonneg (Z.of_nat (length c)) ltac:(lia)). lia. Qed.

Lemma need_app l1 l2 : need l1 <= need (l1 ++ l2).
Proof.
  unfold need. rewrite files_need_app, length_app. pose proof (files_need_nonneg l2).
  pose proof (blocks_mono (32 + 16 * Z.of_nat (length l1)) (32 + 16 * Z.of_nat (length l1 + length l2)) ltac:(lia)). lia.
Qed.

(** What mkfs needs of its arguments. *)
Record file_arg (x : list Z * list Z) : Prop := mkFileArg {
  fa_slash : SLASH ∉ x.1;
  fa_name : Forall (fun b => 0 <= b < 256) x.1;
  fa_bytes : Forall (fun b => 0 <= b < 256) x.2;
  fa_size : Z.of_nat (length x.2) <= MAXFILE * BSIZE
}.

Definition on_host (x : list Z * list Z) : list Z * option (list Z) := (x.1, Some x.2).

(** The image holds the files [l]. *)
Definition holds (s : mkst) (l : list (list Z * list Z)) : Prop :=
  exists T C own dn, rest s (1 + Z.of_nat (length l)) T C own dn /\ T 1 = T_DIR /\ C 1 = root_bytes l /\
    freeblock s = nmeta + need l /\
    forall i arg c, l !! i = Some (arg, c) -> T (2 + Z.of_nat i) = T_FILE /\ C (2 + Z.of_nat i) = c.

Lemma add_file_wp (Q : unit -> mkst -> Prop) s l x :
  holds s l -> file_arg x -> 2 + Z.of_nat (length l) < NINODES -> nmeta + need (l ++ [x]) <= FSSIZE ->
  (forall s', holds s' (l ++ [x]) -> Q tt s') -> wp (add_file ROOTINO (on_host x)) Q s.
Proof.
  intros (T & C & own & dn & R & HT & HC & Hf & Hl) [Hs Hna Hb Hz] Hn Hfit HQ. destruct x as [arg c].
  unfold add_file, on_host. cbn [fst snd] in *. unfold NINODES in Hn. rewrite bool_decide_eq_false_2 by done.
  assert (Ex : need (l ++ [(arg, c)]) = need l + (blocks (32 + 16 * Z.of_nat (length l) + 16) - blocks (32 + 16 * Z.of_nat (length l)))
    + blocks (Z.of_nat (length c))).
  { unfold need. rewrite files_need_app, length_app. simpl. replace (32 + 16 * Z.of_nat (length l + 1)) with (32 + 16 * Z.of_nat (length l) + 16) by lia. lia. }
  pose proof (blocks_nonneg (Z.of_nat (length c)) ltac:(lia)) as Hc0.
  set (n := 1 + Z.of_nat (length l)) in *.
  apply wp_bind, (ialloc_wp _ s n T C own dn); [done|lia|unfold NINODES; lia|done|]. intros s1 R1 Ef1.
  assert (EC : fupd C (n + 1) [] ROOTINO = root_bytes l) by (rewrite fupd_ne by (unfold ROOTINO; lia); exact HC).
  pose proof (root_length l) as Hrl.
  apply wp_bind, (iappend_wp _ s1 (n + 1) _ _ own _ ROOTINO (entry (n + 1) arg) R1);
    [unfold ROOTINO; lia|unfold NINODES; lia|by apply entry_bytes| | |];
    rewrite ?EC, ?entry_length, ?Hrl; change (Z.of_nat 16) with 16.
  { change (MAXFILE * BSIZE) with 71680. lia. }
  { lia. }
  intros s2 own2 dn2 R2 Ef2. set (C2 := fupd _ ROOTINO _) in R2.
  assert (E2 : C2 (n + 1) = []) by (unfold C2; rewrite fupd_ne by (unfold ROOTINO; lia); apply fupd_eq).
  assert (E1 : C2 ROOTINO = root_bytes (l ++ [(arg, c)])).
  { unfold C2. rewrite fupd_eq. unfold root_bytes. rewrite entries_app, <- app_assoc. cbn [entries]. rewrite app_nil_r.
    by replace (2 + Z.of_nat (length l)) with (n + 1) by lia. }
  apply (copy_file_wp (n + 1) (n + 1) _ _ s2 _ C2 own2 dn2 c R2); rewrite ?E2; change (Z.of_nat (length [])) with 0;
    rewrite ?Z.add_0_l, ?blocks_0, ?Z.sub_0_r; [lia|unfold NINODES; lia|done|done|lia|lia|].
  intros s3 C3 own3 dn3 R3 E3 Eo3 Ef3. apply HQ.
  exists (fupd T (n + 1) T_FILE), C3, own3, dn3. rewrite length_app. simpl.
  replace (1 + Z.of_nat (length l + 1)) with (n + 1) by lia. split; [done|].
  split; [rewrite fupd_ne by lia; done|]. split; [rewrite Eo3 by lia; exact E1|]. split; [lia|].
  intros i a c' [Hi|[Hi Hx]]%lookup_app_Some.
  - pose proof (lookup_lt_Some _ _ _ Hi). destruct (Hl i a c' Hi) as [H1 H2].
    rewrite fupd_ne, Eo3 by lia. unfold C2. rewrite !fupd_ne by (unfold ROOTINO; lia). done.
  - apply list_lookup_singleton_Some in Hx as [Hx [= <- <-]]. replace (2 + Z.of_nat i) with (n + 1) by lia. by rewrite fupd_eq.
Qed.

Lemma add_files_wp (Q : unit -> mkst -> Prop) l2 : forall s l1,
  holds s l1 -> Forall file_arg l2 -> 1 + Z.of_nat (length (l1 ++ l2)) < NINODES -> nmeta + need (l1 ++ l2) <= FSSIZE ->
  (forall s', holds s' (l1 ++ l2) -> Q tt s') -> wp (add_files ROOTINO (map on_host l2)) Q s.
Proof.
  induction l2 as [|x l2 IH]; intros s l1 H Hf Hn Hfit HQ; cbn [add_files map].
  { apply wp_ret, HQ. by rewrite app_nil_r. }
  apply Forall_cons in Hf as [Hx Hf]. rewrite length_app in Hn. simpl in Hn.
  assert (E : l1 ++ x :: l2 = (l1 ++ [x]) ++ l2) by (by rewrite <- app_assoc). rewrite E in Hfit, HQ.
  pose proof (need_app (l1 ++ [x]) l2).
  apply wp_bind, (add_file_wp _ s l1 x); [done|done|lia|lia|]. intros s1 H1.
  apply (IH s1 (l1 ++ [x])); [done|done| |done|done]. rewrite !length_app. simpl. lia.
Qed.

(** ** The empty image *)
Lemma write_zeroes_wp (Q : unit -> mkst -> Prop) k : forall i s,
  (forall b, rdi s b = zero_block) -> nsect s = i -> 0 <= i ->
  (forall s', (forall b, rdi s' b = zero_block) -> nsect s' = i + Z.of_nat k -> freeinode s' = freeinode s ->
     freeblock s' = freeblock s -> Q tt s') ->
  wp (write_zeroes k i) Q s.
Proof.
  induction k as [|k IH]; intros i s Hz Hn Hi HQ; cbn [write_zeroes].
  { apply wp_ret, HQ; done || lia. }
  unfold wsect at 1. apply wp_bind, wp_modify. fold (put_sect i zero_block s). apply IH; simpl; [|lia|lia|].
  - intros b. rewrite rdi_put. by destruct (b =? i).
  - intros s' Hz' Hn' Hi' Hf'. apply HQ; [done|lia|done|done].
Qed.

Lemma xint_le32 x : xint x = le32 x.
Proof. unfold xint, le32. by rewrite !Z.shiftr_div_pow2 by done. Qed.

Lemma sb_block_ok : block_ok sb_block.
Proof.
  apply puts_ok; [apply zero_block_ok|]. unfold sb_bytes. apply Forall_concat, Forall_map, Forall_true. intros v. rewrite xint_le32. apply le32_ok.
Qed.

Lemma rest_empty s : (forall b, rdi s b = if b =? 1 then sb_block else zero_block) -> nsect s = FSSIZE ->
  freeinode s = 1 -> freeblock s = nmeta -> rest s 0 (fun _ => 0) (fun _ => []) [] (fun _ => []).
Proof.
  intros Hr Hn Hi Hf. assert (Hm : nmeta = 59) by done.
  assert (Hok : forall b, block_ok (rdi s b)) by (intros b; rewrite Hr; destruct (b =? 1); [apply sb_block_ok|apply zero_block_ok]).
  assert (Co : core s (fun _ => []) 0 [] (fun _ => [])).
  { apply mkCore; try (intros; lia); try done; [by rewrite Hf| |by intros k j ?%elem_of_nil].
    intros b Hb. rewrite Hr. destruct (Z.eqb_spec b 1); [lia|done]. }
  apply mkRest; try (intros; lia); done.
Qed.

(** ** The end of main *)
Lemma mark_used_spec k : forall i buf, block_ok buf -> 0 <= i -> i + Z.of_nat k <= BPB ->
  block_ok (mark_used k i buf) /\
  forall x, 0 <= x < BPB -> bit (mark_used k i buf) x = ((i <=? x) && (x <? i + Z.of_nat k)) || bit buf x.
Proof.
  induction k as [|k IH]; intros i buf Hok Hi Hk; cbn [mark_used].
  { split; [done|]. intros x Hx. destruct (Z.leb_spec i x), (Z.ltb_spec x (i + Z.of_nat 0)); simpl; done || lia. }
  destruct (IH (i + 1) (putb buf (i / 8) (Z.lor (getb buf (i / 8)) (Z.shiftl 1 (i mod 8))))) as [H1 H2]; [by apply putb_ok|lia|lia|].
  split; [done|]. intros x Hx. rewrite H2 by done. fold (bit_mask i). rewrite bit_set by (done || lia).
  destruct (Z.eqb_spec x i), (Z.leb_spec (i + 1) x), (Z.leb_spec i x), (Z.ltb_spec x (i + 1 + Z.of_nat k)), (Z.ltb_spec x (i + Z.of_nat (S k)));
    simpl; done || lia.
Qed.

(** The size fix_root gives the root directory. *)
Definition root_size (l : list (list Z * list Z)) : Z := (Z.of_nat (length (root_bytes l)) / BSIZE + 1) * BSIZE.

(** The image that main leaves. *)
Record imaged (s : mkst) (l : list (list Z * list Z)) (T : Z -> Z) (C : Z -> list Z) (own : list (Z * Z)) (dn : Z -> list Z) : Prop := mkImaged {
  im_core : core s C (1 + Z.of_nat (length l)) own dn;
  im_din : forall k, 1 <= k <= 1 + Z.of_nat (length l) -> din_of s k = dn k;
  im_hdr : forall k, 1 <= k <= 1 + Z.of_nat (length l) ->
    hdr (dn k) (T k) (if k =? 1 then root_size l else Z.of_nat (length (C k)));
  im_complete : forall k, 1 <= k <= 1 + Z.of_nat (length l) -> complete own k (Z.of_nat (length (C k)));
  im_max : forall k, 1 <= k <= 1 + Z.of_nat (length l) -> Z.of_nat (length (C k)) <= MAXFILE * BSIZE;
  im_bitmap : rdi s (sb_bmapstart img_sb) = mark_used (Z.to_nat (freeblock s)) 0 zero_block;
  im_free : freeblock s = nmeta + need l;
  im_root : T 1 = T_DIR /\ C 1 = root_bytes l;
  im_file : forall i arg c, l !! i = Some (arg, c) -> T (2 + Z.of_nat i) = T_FILE /\ C (2 + Z.of_nat i) = c
}.

Lemma finish_wp (Q : unit -> mkst -> Prop) s l :
  holds s l -> 1 + Z.of_nat (length l) < NINODES ->
  (forall s' T C own dn, imaged s' l T C own dn -> Q tt s') ->
  wp (fix_root ROOTINO;; s <- get;; balloc (freeblock s)) Q s.
Proof.
  intros (T & C & own & dn & [Co Hi Hd Hh Hc Hm Hct] & HT & HC & Hf & Hl) Hn HQ. unfold NINODES in Hn.
  set (n := 1 + Z.of_nat (length l)) in *. assert (H1 : 1 <= 1 <= n) by lia.
  apply wp_bind. unfold fix_root. apply wp_bind, rinode_wp; [apply Co|done|]. unfold ROOTINO. rewrite Hd by done.
  pose proof (Hh 1 H1) as Hh1. destruct Hh1 as (? & ? & ? & ? & Es). rewrite Es. rewrite HC. fold (root_size l).
  pose proof (root_length l) as Hrl. assert (Hrs : 0 <= root_size l < 4294967296).
  { unfold root_size. rewrite Hrl. unfold BSIZE. pose proof (Z.div_mod (32 + 16 * Z.of_nat (length l)) 512 ltac:(done)).
    pose proof (Z.mod_pos_bound (32 + 16 * Z.of_nat (length l)) 512 ltac:(done)). lia. }
  rewrite u32_small by done.
  destruct (set_size_ok (root_size l) (dn 1) (T 1) _ (co_din _ _ _ _ _ Co 1 H1) (Hh 1 H1) Hrs) as (Hok2 & Hh2 & Ha2).
  apply winode_wp; [apply Co|done|]. set (din2 := set_din_size _ _) in *. apply wp_bind, wp_get. unfold balloc.
  set (s1 := winoded 1 din2 s). pose proof (free_range _ _ _ _ _ Co) as Hfr. change (freeblock s1) with (freeblock s).
  unfold FSSIZE, BSIZE in *. destruct (Z.ltb_spec (freeblock s) (512 * 8)); [|lia]. unfold wsect. apply wp_modify.
  fold (put_sect (sb_bmapstart img_sb) (mark_used (Z.to_nat (freeblock s)) 0 zero_block) s1).
  assert (Hmm : nmeta = 59) by done.
  destruct (mark_used_spec (Z.to_nat (freeblock s)) 0 zero_block zero_block_ok) as [Hbk _]; [done|change BPB with 4096; lia|].
  assert (Co1 : core s1 C n own (fupd dn 1 din2)).
  { apply core_winoded; [|done|done]. eapply core_dn; [exact Co|]. intros k Hk. unfold fupd.
    destruct (Z.eqb_spec k 1) as [->|]; [done|]. split; [by apply Co|done]. }
  apply (HQ _ T C own (fupd dn 1 din2)). split; try done.
  - by apply core_meta.
  - intros k Hk. assert (Hkn : 0 <= k < NINODES) by (unfold NINODES; lia). unfold din_of.
    destruct (img_IBLOCK k Hkn) as [_ Hb]. rewrite rdi_put. destruct (Z.eqb_spec (IBLOCK k img_sb) (sb_bmapstart img_sb)) as [E|_].
    { change (sb_bmapstart img_sb) with 58 in E. lia. }
    fold (din_of s1 k). unfold s1. rewrite din_of_winoded; [|done|done|apply Co|apply Hok2]. unfold fupd.
    destruct (Z.eqb_spec k 1); [done|by apply Hd].
  - intros k Hk. unfold fupd. destruct (Z.eqb_spec k 1) as [->|]; [done|by apply Hh].
  - by rewrite rdi_put, Z.eqb_refl.
Qed.

Lemma main_wp (Q : unit -> mkst -> Prop) l :
  Forall file_arg l -> 1 + Z.of_nat (length l) < NINODES -> nmeta + need l <= FSSIZE ->
  (forall s T C own dn, imaged s l T C own dn -> Q tt s) ->
  wp (main (map on_host l)) Q mk0.
Proof.
  intros Hl Hn Hfit HQ. pose proof (need_app [] l) as Hneed. change (need []) with 1 in Hneed. rewrite app_nil_l in Hneed.
  assert (Hm : nmeta = 59) by done. unfold main. apply wp_bind, wp_modify, wp_bind.
  apply write_zeroes_wp; [done|done|done|]. intros s0 Hz Hs0 Hi0 Hf0. change (0 + Z.of_nat (Z.to_nat FSSIZE)) with FSSIZE in Hs0.
  unfold wsect. apply wp_bind, wp_modify. fold sb_block. fold (put_sect 1 sb_block s0). set (s1 := put_sect 1 sb_block s0).
  assert (R1 : rest s1 0 (fun _ => 0) (fun _ => []) [] (fun _ => [])).
  { apply rest_empty; [|simpl; rewrite Hs0; done|done|done]. intros b. unfold s1. rewrite rdi_put. by rewrite Hz. }
  apply wp_bind, (ialloc_wp _ _ _ _ _ _ _ _ R1); [done|done|done|]. simpl Z.add. intros s2 R2 Ef2.
  change (freeblock s1) with (freeblock s0) in Ef2. rewrite Hf0 in Ef2. simpl freeblock in Ef2.
  change (1 =? ROOTINO) with true. cbn [negb].
  apply wp_bind, (iappend_wp _ _ _ _ _ _ _ 1 dot R2); [done|done|by repeat apply Forall_cons_2| done | |].
  { rewrite Ef2. done. }
  intros s3 own3 dn3 R3 Ef3. rewrite fupd_eq in R3. rewrite fupd_eq in Ef3.
  apply wp_bind, (iappend_wp _ _ _ _ _ _ _ 1 dotdot R3); rewrite ?fupd_eq; [done|done|by repeat apply Forall_cons_2|done| |].
  { rewrite Ef3, Ef2. done. }
  intros s4 own4 dn4 R4 Ef4. apply wp_bind.
  apply (add_files_wp _ l s4 []); [|done|done|done|].
  - eexists _, _, own4, dn4. split; [exact R4|]. split; [done|]. split; [by rewrite fupd_eq|].
    split; [rewrite Ef4, Ef3, Ef2; done|done].
  - intros s5 H5. by apply (finish_wp _ s5 l).
Qed.
