(* ===== verification/MkfsImage.v ===== *)
(** * The kernel on the image that mkfs made

    [boot] is the file system of the kernel on the image.  It is well formed, its
    bitmap marks what is in use, ilock and readi find the content of each file, and
    dirlookup finds each file by its name. *)

From stdpp Require Import base numbers list gmap strings.
From Stdlib Require Import ZArith Lia Bool.
From S2P Require Import Prelude Block Mem Log Fs FsAlloc FsFile FsRw FsInode FsDir Mkfs MkfsInv MkfsMain.

Local Open Scope Z_scope.
Local Open Scope kernel_scope.

(** ** The entries of the root directory *)
Definition root_ent (l : list (list Z * list Z)) (k : Z) : list Z :=
  if k =? 0 then dot else if k =? 1 then dotdot
  else match l !! Z.to_nat (k - 2) with Some (arg, _) => entry k arg | None => replicate 16 0 end.

Lemma entries_lookup l : forall i k o, (o < 16)%nat ->
  default 0 (entries i l !! (16 * k + o)%nat) =
  default 0 (match l !! k with Some (arg, _) => entry (i + Z.of_nat k) arg | None => replicate 16 0 end !! o).
Proof.
  induction l as [|[arg c] l IH]; intros i k o Ho; cbn [entries].
  { by rewrite !lookup_nil, lookup_replicate_2. }
  destruct k as [|k].
  - rewrite lookup_app_l by (rewrite entry_length; lia). simpl lookup. by rewrite Z.add_0_r.
  - rewrite lookup_app_r, entry_length by (rewrite entry_length; lia).
    replace (16 * S k + o - 16)%nat with (16 * k + o)%nat by lia. rewrite IH by done. simpl lookup.
    by replace (i + 1 + Z.of_nat k) with (i + Z.of_nat (S k)) by lia.
Qed.

Lemma root_lookup l k o : 0 <= k -> 0 <= o < 16 ->
  default 0 (root_bytes l !! Z.to_nat (16 * k + o)) = default 0 (root_ent l k !! Z.to_nat o).
Proof.
  intros Hk Ho. unfold root_bytes, root_ent. destruct (Z.eqb_spec k 0) as [->|].
  { rewrite lookup_app_l by (simpl; lia). rewrite lookup_app_l by (simpl; lia). done. }
  destruct (Z.eqb_spec k 1) as [->|].
  { rewrite lookup_app_l by (simpl; lia). rewrite lookup_app_r by (simpl; lia).
    replace (Z.to_nat (16 * 1 + o) - length dot)%nat with (Z.to_nat o) by (simpl; lia). done. }
  rewrite lookup_app_r by (simpl; lia).
  replace (Z.to_nat (16 * k + o) - length (dot ++ dotdot))%nat with (16 * Z.to_nat (k - 2) + Z.to_nat o)%nat by (simpl; lia).
  rewrite entries_lookup by lia. by replace (2 + Z.of_nat (Z.to_nat (k - 2))) with k by lia.
Qed.

Lemma root_ent_length l k : length (root_ent l k) = 16%nat.
Proof. unfold root_ent. repeat case_match; try done. apply entry_length. Qed.

(** The names of the files differ from each other, in the bytes that count, and
    from those of the directory itself. *)
Record names_ok (l : list (list Z * list Z)) : Prop := mkNamesOk {
  nm_inj : forall i j x y, l !! i = Some x -> l !! j = Some y -> cname (file_name x.1) = cname (file_name y.1) -> i = j;
  nm_dot : forall x, x ∈ l -> cname (file_name x.1) <> [46] /\ cname (file_name x.1) <> [46; 46]
}.

Lemma entry_names i arg : Forall (fun b => 0 <= b < 256) arg -> 0 < i < 65536 ->
  de_inum (entry i arg) = i /\ cname (de_name (entry i arg)) = cname (file_name arg).
Proof.
  intros Ha Hi. assert (Hf : Forall (fun b => 0 <= b < 256) (file_name arg)).
  { unfold file_name. repeat case_match; try done. by apply Forall_cons in Ha as [_ Ha]. }
  by destruct (new_dirent_ok (file_name arg) i Hf Hi) as (_ & _ & H1 & H2).
Qed.

Lemma find_names l i arg c (e : Z -> bool) N : names_ok l -> Forall file_arg l -> l !! i = Some (arg, c) ->
  2 + Z.of_nat (length l) < 65536 -> 2 + Z.of_nat (length l) <= Z.of_nat N ->
  (forall k, 0 <= k < Z.of_nat N -> e k = negb (de_inum (root_ent l k) =? 0) && (namecmp (file_name arg) (de_name (root_ent l k)) =? 0)) ->
  find_from e 0 N = Some (2 + Z.of_nat i).
Proof.
  intros [Hinj Hdot] Hfa Hi Hlen HN He. pose proof (lookup_lt_Some _ _ _ Hi) as Hlt.
  pose proof (Forall_lookup_1 _ _ _ _ Hfa Hi) as [_ Hb _ _]. destruct (Hdot (arg, c)) as [Hd1 Hd2]; [by eapply list_elem_of_lookup_2|]. simpl in *.
  apply find_from_unique; [lia| |].
  - rewrite He by lia. unfold root_ent. destruct (Z.eqb_spec (2 + Z.of_nat i) 0), (Z.eqb_spec (2 + Z.of_nat i) 1); try lia.
    replace (Z.to_nat (2 + Z.of_nat i - 2)) with i by lia. rewrite Hi. destruct (entry_names (2 + Z.of_nat i) arg Hb ltac:(lia)) as [-> E].
    destruct (Z.eqb_spec (2 + Z.of_nat i) 0); [lia|]. simpl. apply Z.eqb_eq, namecmp_eq. done.
  - intros k Hk Hne. rewrite He by lia. unfold root_ent.
    destruct (Z.eqb_spec k 0) as [->|]; [apply andb_false_iff; right; apply Z.eqb_neq; rewrite namecmp_eq; done|].
    destruct (Z.eqb_spec k 1) as [->|]; [apply andb_false_iff; right; apply Z.eqb_neq; rewrite namecmp_eq; done|].
    destruct (l !! Z.to_nat (k - 2)) as [[arg' c']|] eqn:E; [|done].
    apply andb_false_iff. right. apply Z.eqb_neq. rewrite namecmp_eq. pose proof (lookup_lt_Some _ _ _ E).
    pose proof (Forall_lookup_1 _ _ _ _ Hfa E) as [_ Hb' _ _]. simpl in Hb'.
    destruct (entry_names k arg' Hb' ltac:(lia)) as [_ ->]. intros En. pose proof (Hinj _ _ _ _ Hi E En). lia.
Qed.

Section Image.
Context {D : Type} {DV : Devsw D}.
Variables (ic : list inode) (dv : D).

(** The file system as iinit finds it, with some inode cache. *)
Definition boot (s : mkst) : fsst D := mkFs (img s) FSSIZE [] img_sb ic dv.

Variables (s : mkst) (l : list (list Z * list Z)) (T : Z -> Z) (C : Z -> list Z) (own : list (Z * Z)) (dn : Z -> list Z).
Hypothesis Im : imaged s l T C own dn.
Hypothesis Hn : 1 + Z.of_nat (length l) < NINODES.
Let f := boot s.
Let n := 1 + Z.of_nat (length l).

Lemma boot_core : core s C n own dn.
Proof. apply Im. Qed.

Lemma boot_sb : sb_of (rdb f 1) = img_sb.
Proof. change (rdb f 1) with (rdi s 1). rewrite (co_sb _ _ _ _ _ boot_core). reflexivity. Qed.

Lemma boot_free : nmeta <= freeblock s <= FSSIZE.
Proof. apply (free_range _ _ _ _ _ boot_core). Qed.

Lemma boot_used b : 0 <= b < FSSIZE -> used f b = (b <? freeblock s).
Proof.
  intros Hb. unfold used. assert (E : BBLOCK b (sb f) = 58 /\ b mod BPB = b).
  { unfold BBLOCK, FSSIZE in *. change BPB with 4096. rewrite Z.div_small, Z.mod_small by lia. done. }
  destruct E as [-> ->]. change (rdb f 58) with (rdi s (sb_bmapstart img_sb)). rewrite (im_bitmap _ _ _ _ _ _ Im).
  pose proof boot_free. unfold FSSIZE in *.
  destruct (mark_used_spec (Z.to_nat (freeblock s)) 0 zero_block zero_block_ok) as [_ Hx]; [done|change BPB with 4096; lia|].
  rewrite Hx by (change BPB with 4096; lia). assert (Ez : bit zero_block b = false).
  { unfold bit, getb, zero_block. destruct (replicate _ _ !! _) eqn:E; [|apply Z.bits_0]. apply lookup_replicate in E as [-> _]. apply Z.bits_0. }
  rewrite Ez, orb_false_r. destruct (Z.leb_spec 0 b), (Z.ltb_spec b (0 + Z.of_nat (Z.to_nat (freeblock s)))), (Z.ltb_spec b (freeblock s)); done || lia.
Qed.

Lemma boot_ok : fs_ok f.
Proof.
  assert (Hm : nmeta = 59) by done. pose proof boot_free. assert (Hds : datastart f = 59) by done.
  split; try done.
  - intros b d Hb. pose proof (co_ok _ _ _ _ _ boot_core b) as Hok. unfold rdi in Hok. change (blk f !! b) with (img s !! b) in Hb. by rewrite Hb in Hok.
  - intros b Hb. rewrite Hds in Hb. rewrite boot_used by (unfold FSSIZE; lia). apply Z.ltb_lt. lia.
Qed.

(** ** Inodes *)
Section Inode.
Variables (k : Z) (jp : inode).
Hypothesis Hk : 1 <= k <= n.
Hypothesis Hdev : i_dev jp = ROOTDEV.
Let ip := disk_ino f k jp.

Lemma boot_byte o : 0 <= o < 64 -> getb (rdb f (IBLOCK k (sb f))) (dinode_off k + o) = getb (dn k) o.
Proof.
  intros Ho. rewrite <- (im_din _ _ _ _ _ _ Im k Hk). unfold din_of. destruct (dinode_off_range k) as [Hd1 Hd2].
  pose proof (proj1 (co_ok _ _ _ _ _ boot_core (IBLOCK k img_sb))) as Hl. change (Z.to_nat BSIZE) with 512%nat in Hl.
  rewrite getb_gets; [done|done|exact Ho|]. unfold sizeof_dinode. lia.
Qed.

Lemma boot_get16 o : 0 <= o < 63 -> get16 (rdb f (IBLOCK k (sb f))) (dinode_off k + o) = get16 (dn k) o.
Proof. intros Ho. unfold get16. rewrite <- Z.add_assoc, !boot_byte by lia. done. Qed.

Lemma boot_get32 o : 0 <= o < 61 -> get32 (rdb f (IBLOCK k (sb f))) (dinode_off k + o) = get32 (dn k) o.
Proof. intros Ho. unfold get32. rewrite <- !Z.add_assoc, !boot_byte by lia. done. Qed.

Lemma boot_fields : i_type ip = s16 (T k) /\ i_nlink ip = 1 /\
  i_size ip = (if k =? 1 then root_size l else Z.of_nat (length (C k))).
Proof.
  destruct (im_hdr _ _ _ _ _ _ Im k Hk) as (H0 & _ & _ & H6 & H8). unfold din_size in H8.
  unfold ip, disk_ino, load_dinode. cbn [i_type i_nlink i_size].
  rewrite <- (Z.add_0_r (dinode_off k)) at 1. rewrite !boot_get16, boot_get32, H0, H6, H8 by lia. done.
Qed.

Lemma boot_addr a : 0 <= a < 13 -> addr_at ip a = din_addr (dn k) a.
Proof.
  intros Ha. unfold addr_at, ip, disk_ino, load_dinode. cbn [i_addrs]. change (map ?g ?x) with (g <$> x).
  rewrite list_lookup_fmap, (proj2 (lookup_seqZ 0 13 (Z.to_nat a) a)) by lia. simpl.
  rewrite <- Z.add_assoc, boot_get32 by lia. done.
Qed.

Lemma boot_slot j : is_slot j -> slot f ip j = daddr s (dn k) j.
Proof.
  intros Hj. unfold is_slot in Hj. unfold slot, daddr. rewrite (boot_addr NDIRECT) by done.
  destruct (Z.ltb_spec j NDIRECT); [|done]. apply boot_addr. unfold NDIRECT in *. lia.
Qed.

Lemma boot_in j : is_slot j -> slot f ip j <> 0 <-> (k, j) ∈ own.
Proof. intros Hj. rewrite boot_slot by done. symmetry. by apply (core_present C n k Hk s own dn j boot_core). Qed.

Lemma boot_file_ok : file_ok f ip.
Proof.
  split; [done|done| |].
  - intros j Hj Hin. pose proof (proj1 (boot_in j Hj) Hin) as Ho. rewrite boot_slot by done.
    destruct (addr_in _ _ _ _ _ boot_core _ _ Ho) as [Hr _]. pose proof boot_free. assert (datastart f = nmeta) as -> by done.
    assert (nmeta = 59) by done. change (sb_size (sb f)) with FSSIZE. split; [lia|]. rewrite boot_used by lia. apply Z.ltb_lt. lia.
  - intros i j Hi Hj Hne E. pose proof (proj1 (boot_in i Hi) Hne) as Ho. rewrite E in Hne.
    pose proof (proj1 (boot_in j Hj) Hne) as Ho'. rewrite !boot_slot in E by done. by destruct (addr_inj _ _ _ _ _ boot_core _ _ _ _ Ho Ho' E).
Qed.

Lemma boot_fbyte x : 0 <= x < nb (Z.of_nat (length (C k))) * BSIZE ->
  slot f ip (x / BSIZE) <> 0 /\ fbyte f ip x = default 0 (C k !! Z.to_nat x).
Proof.
  intros Hx. assert (Hb : 0 <= x / BSIZE < nb (Z.of_nat (length (C k)))).
  { split; [apply Z.div_pos; [lia|done]|]. apply Z.div_lt_upper_bound; [done|]. lia. }
  pose proof (im_max _ _ _ _ _ _ Im k Hk) as Hm. apply nb_mono in Hm. change (nb (MAXFILE * BSIZE)) with 140 in Hm.
  assert (Hs : is_slot (x / BSIZE)) by (unfold is_slot, IND; lia).
  assert (Ho : (k, x / BSIZE) ∈ own) by (apply (im_complete _ _ _ _ _ _ Im k Hk); [done|by left]).
  split; [by apply boot_in|]. unfold fbyte. rewrite boot_slot by done. apply (co_byte _ _ _ _ _ boot_core); [done| |done].
  change (MAXFILE * BSIZE) with 71680. unfold BSIZE in *. lia.
Qed.
End Inode.

(** ** Reading a file *)

(** An entry of the inode cache that iget has just made for inode [k]. *)
Definition fresh_entry (k : Z) (jp : inode) : Prop :=
  i_dev jp = ROOTDEV /\ i_inum jp = k /\ 1 <= i_ref jp /\ i_locked jp = false /\ i_valid jp = false.

Lemma file_ok_set_ino j jp ip : file_ok f ip -> file_ok (set_ino j jp f) ip.
Proof. intros []. by split. Qed.

Lemma boot_readi i arg c j jp : l !! i = Some (arg, c) -> ic !! j = Some jp -> fresh_entry (2 + Z.of_nat i) jp ->
  wp (ilock j;; readi j 0 (Z.of_nat (length c))) (fun r _ => r = Some c) f.
Proof.
  intros Hi Hj (Hdv & Hin & Hr & Hlk & Hv). pose proof (lookup_lt_Some _ _ _ Hi) as Hlt. unfold NINODES in Hn.
  destruct (im_file _ _ _ _ _ _ Im i arg c Hi) as [HT HC]. set (k := 2 + Z.of_nat i) in *.
  assert (Hk : 1 <= k <= n) by (unfold n; lia). set (jp' := set_locked true jp).
  destruct (boot_fields k jp' Hk) as (Ht & _ & Hs). rewrite HT in Ht. destruct (Z.eqb_spec k 1) as [|_]; [lia|]. rewrite HC in Hs.
  apply wp_bind, (ilock_load_wp _ f j jp); [apply boot_ok|done|done|done|done|done| | |].
  { rewrite Hin. change (sb_ninodes (sb f)) with 200. lia. }
  { rewrite Hin. fold jp'. by rewrite Ht. }
  rewrite Hin. fold jp'. set (ip := disk_ino f k jp') in *. set (f1 := set_ino j ip f).
  pose proof (im_max _ _ _ _ _ _ Im k Hk) as Hmx. rewrite HC in Hmx. change (MAXFILE * BSIZE) with 71680 in Hmx.
  assert (Hfb : forall x, 0 <= x < Z.of_nat (length c) -> slot f ip (x / BSIZE) <> 0 /\ fbyte f ip x = default 0 (c !! Z.to_nat x)).
  { intros x Hx. rewrite <- HC. apply (boot_fbyte k jp' Hk). rewrite HC. unfold nb, BSIZE.
    pose proof (Z.div_mod (Z.of_nat (length c) + 511) 512 ltac:(done)).
    pose proof (Z.mod_pos_bound (Z.of_nat (length c) + 511) 512 ltac:(done)). lia. }
  eapply wp_intro; [apply (readi_spec f1 j ip)|].
  - split; [apply fs_ok_set_ino, boot_ok|]. split; [apply list_lookup_insert_eq; by eapply lookup_lt_Some|].
    by apply file_ok_set_ino, (boot_file_ok k jp' Hk).
  - split; [rewrite Hs; change (MAXFILE * BSIZE) with 71680; lia|]. rewrite Hs. intros x Hx. by apply Hfb.
  - by rewrite Ht.
  - rewrite Hs. lia.
  - lia.
  - lia.
  - cbv beta. f_equal. rewrite Hs, Z.sub_0_r, Z.min_id. apply list_eq. intros o. change (map ?g ?x) with (g <$> x).
    rewrite list_lookup_fmap. destruct (c !! o) as [b|] eqn:Eo.
    + pose proof (lookup_lt_Some _ _ _ Eo). rewrite (proj2 (lookup_seqZ 0 (Z.of_nat (length c)) o (Z.of_nat o))) by lia.
      simpl. change (fbyte f1 ip) with (fbyte f ip). destruct (Hfb (Z.of_nat o) ltac:(lia)) as [_ ->]. by rewrite Nat2Z.id, Eo.
    + apply lookup_ge_None in Eo. by rewrite lookup_seqZ_ge by lia.
Qed.

(** ** Looking a file up *)
Lemma root_size_nb : (2 + Z.of_nat (length l)) mod 32 <> 0 -> root_size l = nb (Z.of_nat (length (root_bytes l))) * BSIZE.
Proof.
  intros Hh. unfold root_size. rewrite root_length, nb_split by lia. unfold BSIZE.
  destruct (Z.eqb_spec ((32 + 16 * Z.of_nat (length l)) mod 512) 0) as [E|]; [|done]. destruct Hh.
  replace (32 + 16 * Z.of_nat (length l)) with (16 * (2 + Z.of_nat (length l))) in E by lia.
  change 512 with (16 * 32) in E. rewrite Z.mul_mod_distr_l in E by done. lia.
Qed.

Lemma boot_root jp : i_dev jp = ROOTDEV -> (2 + Z.of_nat (length l)) mod 32 <> 0 ->
  let rip := disk_ino f ROOTINO jp in
  i_type rip = T_DIR /\ file_ok f rip /\ nohole f rip /\ i_size rip mod sizeof_dirent = 0 /\
  2 + Z.of_nat (length l) <= nents rip /\
  forall k, 0 <= k < nents rip -> dirent_at f rip k = root_ent l k.
Proof.
  intros Hdv Hh rip. destruct (im_root _ _ _ _ _ _ Im) as [HT HC]. unfold NINODES in Hn.
  assert (Hk : 1 <= 1 <= n) by (unfold n; lia). destruct (boot_fields 1 jp Hk) as (Ht & _ & Hs). change (disk_ino f 1 jp) with rip in Ht, Hs. rewrite HT in Ht.
  change (1 =? 1) with true in Hs. cbv iota in Hs. pose proof (root_size_nb Hh) as En. rewrite En in Hs.
  pose proof (im_max _ _ _ _ _ _ Im 1 Hk) as Hmx. rewrite HC in Hmx. apply nb_mono in Hmx. change (nb (MAXFILE * BSIZE)) with 140 in Hmx.
  pose proof (root_length l) as Hrl. set (N := nb (Z.of_nat (length (root_bytes l)))) in *.
  assert (HN : 32 + 16 * Z.of_nat (length l) <= N * 512).
  { unfold N, nb. rewrite Hrl. pose proof (Z.div_mod (32 + 16 * Z.of_nat (length l) + 511) 512 ltac:(done)).
    pose proof (Z.mod_pos_bound (32 + 16 * Z.of_nat (length l) + 511) 512 ltac:(done)). lia. }
  assert (Hne : nents rip = N * 32).
  { unfold nents, sizeof_dirent. rewrite Hs. unfold BSIZE. replace (N * 512) with (N * 32 * 16) by lia. by rewrite Z.div_mul. }
  split; [done|]. split; [by apply boot_file_ok|]. split.
  - split; [rewrite Hs; change (MAXFILE * BSIZE) with 71680; unfold BSIZE; lia|]. rewrite Hs. intros x Hx.
    apply (boot_fbyte 1 jp Hk). by rewrite HC.
  - split; [|split; [lia|]].
    + rewrite Hs. unfold BSIZE, sizeof_dirent. replace (N * 512) with (N * 32 * 16) by lia. by apply Z.mod_mul.
    + rewrite Hne. intros k Hkk. unfold dirent_at, sizeof_dirent. apply list_eq. intros o. change (map ?g ?x) with (g <$> x).
      rewrite list_lookup_fmap. destruct (decide (o < 16)%nat) as [Ho|Ho].
      * rewrite (proj2 (lookup_seqZ (16 * k) 16 o (16 * k + Z.of_nat o))) by lia. simpl.
        destruct (boot_fbyte 1 jp Hk (16 * k + Z.of_nat o)) as [_ Eb]; [rewrite HC; fold N; unfold BSIZE; lia|]. change (disk_ino f 1 jp) with rip in Eb.
        rewrite Eb, HC, root_lookup, Nat2Z.id by lia. destruct (root_ent l k !! o) eqn:E; [done|].
        apply lookup_ge_None in E. rewrite root_ent_length in E. lia.
      * rewrite lookup_seqZ_ge by lia. symmetry. apply lookup_ge_None. rewrite root_ent_length. lia.
Qed.

(** When the entries end on a block boundary, the size of the root directory covers a
    block that it does not have. *)
Lemma boot_root_hole jp : i_dev jp = ROOTDEV -> (2 + Z.of_nat (length l)) mod 32 = 0 ->
  ~ nohole f (disk_ino f ROOTINO jp).
Proof.
  intros Hdv Hz [_ Hh]. destruct (im_root _ _ _ _ _ _ Im) as [_ HC]. assert (Hk : 1 <= 1 <= n) by (unfold n; lia).
  destruct (boot_fields 1 jp Hk) as (_ & _ & Hs). change (1 =? 1) with true in Hs. cbv iota in Hs. unfold ROOTINO in *.
  pose proof (root_length l) as Hrl. set (len := Z.of_nat (length (root_bytes l))) in *. assert (E512 : len mod BSIZE = 0).
  { rewrite Hrl. unfold BSIZE. replace (32 + 16 * Z.of_nat (length l)) with (16 * (2 + Z.of_nat (length l))) by lia.
    change 512 with (16 * 32). rewrite Z.mul_mod_distr_l by done. lia. }
  pose proof (Z.div_mod len BSIZE ltac:(done)) as Hdm. pose proof (nb_split len ltac:(lia)) as En. rewrite E512 in En. simpl in En.
  pose proof (im_max _ _ _ _ _ _ Im 1 Hk) as Hmx. rewrite HC in Hmx. apply nb_mono in Hmx. fold len in Hmx. change (nb (MAXFILE * BSIZE)) with 140 in Hmx.
  assert (0 <= len / BSIZE) by (apply Z.div_pos; [lia|done]).
  assert (Hsl : is_slot (len / BSIZE)) by (unfold is_slot, IND; lia).
  apply (Hh len); [rewrite Hs; unfold root_size; fold len; unfold BSIZE in *; lia|].
  destruct (decide (slot f (disk_ino f 1 jp) (len / BSIZE) = 0)) as [|Hne]; [done|].
  apply (boot_in 1 jp Hk _ Hsl) in Hne. apply (im_complete _ _ _ _ _ _ Im 1 Hk _ Hsl) in Hne. rewrite HC in Hne. fold len in Hne.
  unfold needs, IND, NDIRECT, BSIZE, NINODES in *. lia.
Qed.
End Image.

Section Correct.
Context {D : Type} {DV : Devsw D}.

(** C19.  mkfs makes the file system it was asked for.  When the files fit on the disk,
    are not too large and their names have no slash, main ends, and the kernel finds
    on the image: the superblock of the layout, a well-formed file system whose
    bitmap marks exactly the blocks in use, and in inode 2 + i the i-th file, which
    ilock and readi return byte for byte.  If the names differ and the entries of the
    root directory do not end on a block boundary, the root is a well-formed directory
    in which each file is found under its name. *)
Theorem mkfs_correct (l : list (list Z * list Z)) (ic : list inode) (dv : D) :
  Forall file_arg l -> 1 + Z.of_nat (length l) < NINODES -> nmeta + need l <= FSSIZE ->
  wp (main (map on_host l)) (fun _ s =>
    let f := boot ic dv s in
    sb_of (rdb f 1) = img_sb /\ fs_ok f /\ (forall b, 0 <= b < FSSIZE -> used f b = (b <? nmeta + need l)) /\
    (forall i arg c j jp, l !! i = Some (arg, c) -> ic !! j = Some jp -> fresh_entry (2 + Z.of_nat i) jp ->
       wp (ilock j;; readi j 0 (Z.of_nat (length c))) (fun r _ => r = Some c) f) /\
    (names_ok l -> (2 + Z.of_nat (length l)) mod 32 <> 0 -> forall jp, i_dev jp = ROOTDEV ->
       let rip := disk_ino f ROOTINO jp in
       i_type rip = T_DIR /\ file_ok f rip /\ nohole f rip /\
       forall i arg c, l !! i = Some (arg, c) ->
         dir_find f rip (file_name arg) = Some (2 + Z.of_nat i) /\ de_inum (dirent_at f rip (2 + Z.of_nat i)) = 2 + Z.of_nat i)) mk0.
Proof.
  intros Hl Hn Hfit. apply main_wp; [done..|]. intros s T C own dn Im f.
  split; [by eapply boot_sb|]. split; [by eapply boot_ok|]. split.
  { intros b Hb. rewrite <- (im_free _ _ _ _ _ _ Im). by eapply boot_used. }
  split; [intros; by eapply boot_readi|]. intros Hnm Hh jp Hdv rip.
  destruct (boot_root ic dv s l T C own dn Im jp Hdv Hh) as (Ht & Hf & Hno & _ & Hents & He). fold f rip in Ht, Hf, Hno, Hents, He.
  split; [done|]. split; [done|]. split; [done|]. intros i arg c Hi. pose proof (lookup_lt_Some _ _ _ Hi). unfold NINODES in Hn. split.
  - unfold dir_find. apply (find_names l i arg c); [done|done|done|lia|lia|]. intros k Hk. unfold hit. by rewrite He by lia.
  - rewrite He by lia. unfold root_ent. destruct (Z.eqb_spec (2 + Z.of_nat i) 0), (Z.eqb_spec (2 + Z.of_nat i) 1); try lia.
    replace (Z.to_nat (2 + Z.of_nat i - 2)) with i by lia. rewrite Hi.
    apply entry_names; [|lia]. by destruct (Forall_lookup_1 _ _ _ _ Hl Hi).
Qed.
End Correct.

(** ** Example: one file of three bytes, read by the kernel *)
#[local] Instance img_no_devs : Devsw unit := {| dev_read := fun _ => None; dev_write := fun _ => None |}.

Definition demo_files : list (list Z * list Z) := [([95; 97], [1; 2; 3])].
Definition demo_entry : inode := mkInode 1 2 1 false false 0 0 0 0 0 [].

Lemma demo_args : Forall file_arg demo_files.
Proof.
  apply Forall_singleton. split; simpl; [|by repeat apply Forall_cons_2|by repeat apply Forall_cons_2|done].
  unfold SLASH. rewrite !elem_of_cons, elem_of_nil. lia.
Qed.

Lemma demo_fits : nmeta + need demo_files <= FSSIZE.
Proof. discriminate. Qed.

Lemma mkfs_correct_witness :
  wp (main (map on_host demo_files)) (fun _ s =>
    wp (ilock 0;; readi 0 0 3) (fun r _ => r = Some [1; 2; 3]) (boot [demo_entry] tt s)) mk0.
Proof.
  eapply wp_mono; [exact (mkfs_correct demo_files [demo_entry] tt demo_args eq_refl demo_fits)|].
  intros _ s (_ & _ & _ & H & _). apply (H 0%nat [95; 97] [1; 2; 3] 0%nat demo_entry eq_refl eq_refl).
  split; [reflexivity|]. split; [reflexivity|]. split; [discriminate|]. split; reflexivity.
Defined.
