(* ===== verification/Ide.v ===== *)
(** * The IDE disk driver (ide.c)

    The queue of requests and the registers of the disk controller.  The controller
    is hardware: [IdeHw] are its ports and what is seen of it from outside, and
    [IdeLaws] what the driver relies on, the behaviour of a PIO disk.  The sections
    under idelock are atomic; a request sleeps until the interrupt handler has
    served it. *)

From stdpp Require Import base numbers list gmap strings.
From Stdlib Require Import ZArith Lia.
From S2P Require Import Prelude Block BlockCache Bio.

Local Open Scope Z_scope.
Local Open Scope kernel_scope.

Definition IDE_BSY : Z := 128.
Definition IDE_DRDY : Z := 64.
Definition IDE_DF : Z := 32.
Definition IDE_ERR : Z := 1.
Definition IDE_CMD_READ : Z := 32.
Definition IDE_CMD_WRITE : Z := 48.
Definition IDE_CMD_RDMUL : Z := 196.
Definition IDE_CMD_WRMUL : Z := 197.
Definition SECTOR_SIZE : Z := 512.

(** ** The controller *)
Class IdeHw (H : Type) := {
  (** the ports: inb and outb, and insl and outsl of BSIZE/4 words *)
  hw_inb : Z -> H -> Z * H;
  hw_outb : Z -> Z -> H -> H;
  hw_insl : H -> list Z * H;
  hw_outsl : list Z -> H -> H;
  (** how often the status is polled before the disk is ready *)
  hw_patience : nat;
  (** the registers, the command the disk works on (is it a write, the drive, the
      sector) and the sectors *)
  hw_reg : H -> Z -> Z;
  hw_cmd : H -> option (bool * Z * Z);
  hw_sectors : H -> Z -> Z -> block
}.

Section Ide.
Context {H : Type} {HW : IdeHw H}.

Record idest := mkIde {
  ibufs : list buf;       (* the buffers of the cache *)
  idequeue : list nat;    (* idequeue and the qnext links *)
  havedisk1 : bool;
  hw : H;
  wakeups : list nat;     (* the buffers that wakeup was called on *)
  imypid : Z              (* myproc()->pid *)
}.

Definition set_hw (h : H) (s : idest) : idest := mkIde (ibufs s) (idequeue s) (havedisk1 s) h (wakeups s) (imypid s).
Definition set_queue (q : list nat) (s : idest) : idest := mkIde (ibufs s) q (havedisk1 s) (hw s) (wakeups s) (imypid s).
Definition set_ibufs (l : list buf) (s : idest) : idest := mkIde l (idequeue s) (havedisk1 s) (hw s) (wakeups s) (imypid s).

Definition inb (p : Z) : M idest Z := fun s => let '(v, h) := hw_inb p (hw s) in Ret v (set_hw h s).
Definition outb (p v : Z) : M idest unit := modify (fun s => set_hw (hw_outb p v (hw s)) s).
Definition insl : M idest (list Z) := fun s => let '(v, h) := hw_insl (hw s) in Ret v (set_hw h s).
Definition outsl (d : list Z) : M idest unit := modify (fun s => set_hw (hw_outsl d (hw s)) s).

Definition ibuf_at (i : nat) : M idest buf :=
  s <- get;;
  match ibufs s !! i with Some b => ret b | None => undef end.
Definition upd_ibuf (i : nat) (f : buf -> buf) : M idest unit := modify (fun s => set_ibufs (alter f i (ibufs s)) s).

(** ** ide.c *)
Fixpoint idewait_loop (k : nat) : M idest Z :=
  match k with
  | O => hang
  | S k' =>
      r <- inb 503;;
      if Z.land r (Z.lor IDE_BSY IDE_DRDY) =? IDE_DRDY then ret r else idewait_loop k'
  end.

Definition idewait (checkerr : bool) : M idest Z :=
  r <- idewait_loop hw_patience;;
  if checkerr && negb (Z.land r (Z.lor IDE_DF IDE_ERR) =? 0) then ret (-1) else ret 0.

(** The loop of ideinit over at most [k] reads of the status. *)
Fixpoint probe_disk1 (k : nat) : M idest bool :=
  match k with
  | O => ret false
  | S k' => r <- inb 503;; if negb (r =? 0) then ret true else probe_disk1 k'
  end.

(** The call of ioapicenable is in Startup.v, which has the interrupt controller. *)
Definition ideinit : M idest unit :=
  idewait false;;
  outb 502 (Z.lor 224 (Z.shiftl 1 4));;
  d <- probe_disk1 1000;;
  modify (fun s => mkIde (ibufs s) (idequeue s) (if d : bool then true else havedisk1 s) (hw s) (wakeups s) (imypid s));;
  outb 502 (Z.lor 224 (Z.shiftl 0 4)).

Definition idestart (i : nat) : M idest unit :=
  b <- ibuf_at i;;
  if blockno b >=? FSSIZE then panic "incorrect blockno"
  else
    let sector_per_block := BSIZE / SECTOR_SIZE in
    let sector := blockno b * sector_per_block in
    let read_cmd := if sector_per_block =? 1 then IDE_CMD_READ else IDE_CMD_RDMUL in
    let write_cmd := if sector_per_block =? 1 then IDE_CMD_WRITE else IDE_CMD_WRMUL in
    if sector_per_block >? 7 then panic "idestart"
    else
      idewait false;;
      outb 1014 0;;
      outb 498 sector_per_block;;
      outb 499 (Z.land sector 255);;
      outb 500 (Z.land (Z.shiftr sector 8) 255);;
      outb 501 (Z.land (Z.shiftr sector 16) 255);;
      outb 502 (Z.lor (Z.lor 224 (Z.shiftl (Z.land (dev b) 1) 4)) (Z.land (Z.shiftr sector 24) 15));;
      if negb (Z.land (flags b) B_DIRTY =? 0) then
        outb 503 write_cmd;;
        outsl (data b)
      else outb 503 read_cmd.

Definition ideintr : M idest unit :=
  s <- get;;
  match idequeue s with
  | [] => ret tt
  | i :: q =>
      modify (set_queue q);;
      b <- ibuf_at i;;
      (if Z.land (flags b) B_DIRTY =? 0 then
         r <- idewait true;;
         if r >=? 0 then d <- insl;; upd_ibuf i (set_data d) else ret tt
       else ret tt);;
      upd_ibuf i (fun b => set_flags (Z.lor (flags b) B_VALID) b);;
      upd_ibuf i (fun b => set_flags (Z.land (flags b) (Z.lnot B_DIRTY)) b);;
      modify (fun s => mkIde (ibufs s) (idequeue s) (havedisk1 s) (hw s) (wakeups s ++ [i]) (imypid s));;
      match q with
      | [] => ret tt
      | j :: _ => idestart j
      end
  end.

(** The condition of the loop in which iderw sleeps. *)
Definition ide_waiting (b : buf) : bool := negb (Z.land (flags b) (Z.lor B_VALID B_DIRTY) =? B_VALID).

(** iderw up to its loop: the request is in the queue.  It sleeps while
    [ide_waiting] holds of its buffer. *)
Definition ide_submit (i : nat) : M idest unit :=
  b <- ibuf_at i;;
  me <- gets imypid;;
  if negb (locked (lock b) && (pid (lock b) =? me)) then panic "iderw: buf not locked"
  else if Z.land (flags b) (Z.lor B_VALID B_DIRTY) =? B_VALID then panic "iderw: nothing to do"
  else
    h1 <- gets havedisk1;;
    if negb (dev b =? 0) && negb h1 then panic "iderw: ide disk 1 not present"
    else
      q <- gets idequeue;;
      (* a buffer that is queued twice is linked to itself *)
      if bool_decide (i ∈ q) then undef
      else
        modify (set_queue (q ++ [i]));;
        match q with
        | [] => idestart i
        | _ :: _ => ret tt
        end.
End Ide.
Arguments idest : clear implicits.

(** ** What the driver relies on *)

(** The sector and the drive that the registers name. *)
Definition lba {H} {HW : IdeHw H} (h : H) : Z :=
  hw_reg h 499 + 256 * hw_reg h 500 + 65536 * hw_reg h 501 + 16777216 * Z.land (hw_reg h 502) 15.
Definition drive {H} {HW : IdeHw H} (h : H) : Z := Z.land (Z.shiftr (hw_reg h 502) 4) 1.

Definition ready (v : Z) : bool := Z.land v (Z.lor IDE_BSY IDE_DRDY) =? IDE_DRDY.

(** The controller after [k] reads of the status. *)
Fixpoint polls {H} {HW : IdeHw H} (k : nat) (h : H) : H :=
  match k with O => h | S k' => polls k' (snd (hw_inb 503 h)) end.

(** Nothing but what a poll may change. *)
Definition same_hw {H} {HW : IdeHw H} (h h' : H) : Prop :=
  (forall p, hw_reg h' p = hw_reg h p) /\ hw_cmd h' = hw_cmd h /\ forall d x, hw_sectors h' d x = hw_sectors h d x.

Class IdeLaws (H : Type) {HW : IdeHw H} : Prop := {
  (** a register keeps what is written to it *)
  law_outb p v h : p <> 503 -> hw_cmd (hw_outb p v h) = hw_cmd h /\
    (forall p', hw_reg (hw_outb p v h) p' = if p' =? p then v else hw_reg h p') /\
    forall d x, hw_sectors (hw_outb p v h) d x = hw_sectors h d x;
  (** a command of one sector is about the sector in the registers *)
  law_command w h : hw_reg h 498 = 1 ->
    let h' := hw_outb 503 (if w : bool then IDE_CMD_WRITE else IDE_CMD_READ) h in
    hw_cmd h' = Some (w, drive h, lba h) /\ forall d x, hw_sectors h' d x = hw_sectors h d x;
  (** polling changes nothing, the disk gets ready, and has no errors *)
  law_inb h : same_hw h (snd (hw_inb 503 h));
  law_ready h : exists k, (k < hw_patience)%nat /\ ready (fst (hw_inb 503 (polls k h))) = true;
  law_noerr h : ready (fst (hw_inb 503 h)) = true -> Z.land (fst (hw_inb 503 h)) (Z.lor IDE_DF IDE_ERR) = 0;
  (** the data port *)
  law_insl h d x : hw_cmd h = Some (false, d, x) -> fst (hw_insl h) = hw_sectors h d x /\
    forall d' x', hw_sectors (snd (hw_insl h)) d' x' = hw_sectors h d' x';
  law_outsl h d x v : hw_cmd h = Some (true, d, x) -> hw_cmd (hw_outsl v h) = hw_cmd h /\
    forall d' x', hw_sectors (hw_outsl v h) d' x' = if (d' =? d) && (x' =? x) then v else hw_sectors h d' x'
}.

Lemma lba_decode x d : 0 <= x < FSSIZE -> d = 0 \/ d = 1 ->
  Z.land x 255 + 256 * Z.land (Z.shiftr x 8) 255 + 65536 * Z.land (Z.shiftr x 16) 255 +
    16777216 * Z.land (Z.lor (Z.lor 224 (Z.shiftl d 4)) (Z.land (Z.shiftr x 24) 15)) 15 = x /\
  Z.land (Z.shiftr (Z.lor (Z.lor 224 (Z.shiftl d 4)) (Z.land (Z.shiftr x 24) 15)) 4) 1 = d.
Proof.
  intros Hx Hd. unfold FSSIZE in Hx. change 255 with (Z.ones 8). rewrite !Z.land_ones by done.
  rewrite !Z.shiftr_div_pow2 by done. change (2 ^ 8) with 256. change (2 ^ 16) with 65536. change (2 ^ 24) with 16777216.
  rewrite (Z.div_small x 65536), (Z.div_small x 16777216) by lia.
  rewrite (Z.mod_small (x / 256)) by (split; [apply Z.div_pos; lia|apply Z.div_lt_upper_bound; lia]).
  pose proof (Z.div_mod x 256 ltac:(lia)). destruct Hd as [-> | ->]; (split; [|done]).
  - change (Z.land (Z.lor (Z.lor 224 (Z.shiftl 0 4)) (Z.land 0 15)) 15) with 0. change (0 mod 256) with 0. lia.
  - change (Z.land (Z.lor (Z.lor 224 (Z.shiftl 1 4)) (Z.land 0 15)) 15) with 0. change (0 mod 256) with 0. lia.
Qed.

Lemma land_1 x : Z.land x 1 = 0 \/ Z.land x 1 = 1.
Proof. change (Z.land x 1) with (Z.land x (Z.ones 1)). rewrite Z.land_ones by done. change (2 ^ 1) with 2. pose proof (Z.mod_pos_bound x 2 ltac:(done)). lia. Qed.

Section Driver.
Context {H : Type} {HW : IdeHw H} {HL : IdeLaws H}.
Implicit Types s : idest H.

Definition dirty (b : buf) : bool := negb (Z.land (flags b) B_DIRTY =? 0).
Definition drv (b : buf) : Z := Z.land (dev b) 1.

Lemma polls_same k : forall h, same_hw h (polls k h).
Proof.
  induction k as [|k IH]; intros h; [done|]. cbn [polls]. destruct (IH (snd (hw_inb 503 h))) as (I1 & I2 & I3).
  destruct (law_inb h) as (J1 & J2 & J3). split; [intros p; by rewrite I1|]. split; [congruence|]. intros d x. by rewrite I3.
Qed.

Lemma idewait_loop_wp (Q : Z -> idest H -> Prop) k n : forall s,
  (k < n)%nat -> ready (fst (hw_inb 503 (polls k (hw s)))) = true ->
  (forall h, same_hw (hw s) h -> forall r, ready r = true -> (Z.land r (Z.lor IDE_DF IDE_ERR) = 0) -> Q r (set_hw h s)) ->
  wp (idewait_loop n) Q s.
Proof.
  revert k. induction n as [|n IH]; intros k s Hk Hr HQ; [lia|]. cbn [idewait_loop]. apply wp_bind. unfold wp at 1, inb.
  pose proof (law_inb (hw s)) as Hs. pose proof (law_noerr (hw s)) as Hne. destruct (hw_inb 503 (hw s)) as [v h1] eqn:E. simpl in Hs, Hne.
  fold (ready v). destruct (ready v) eqn:Ev; [apply wp_ret, HQ; auto|].
  destruct k as [|k]; [by simpl in Hr; rewrite E in Hr; simpl in Hr; congruence|].
  apply (IH k); [lia|simpl in Hr; by rewrite E in Hr|]. intros h Hh r Hrr He.
  change (set_hw h (set_hw h1 s)) with (set_hw h s). apply HQ; [|done|done]. simpl in Hh.
  destruct Hs as (A1 & A2 & A3), Hh as (B1 & B2 & B3). split; [intros p; by rewrite B1|]. split; [congruence|]. intros d x. by rewrite B3.
Qed.

Lemma idewait_wp (Q : Z -> idest H -> Prop) s e : (forall h, same_hw (hw s) h -> Q 0 (set_hw h s)) -> wp (idewait e) Q s.
Proof.
  intros HQ. unfold idewait. destruct (law_ready (hw s)) as (k & Hk & Hr). apply wp_bind, (idewait_loop_wp _ k); [done|done|].
  intros h Hh r _ He. rewrite He. cbn [Z.eqb negb]. rewrite andb_false_r. by apply wp_ret, HQ.
Qed.

(** ** Starting a request *)

Lemma outb_wp (Q : unit -> idest H -> Prop) p v s : p <> 503 ->
  (forall h, (forall p', hw_reg h p' = if p' =? p then v else hw_reg (hw s) p') ->
     (forall d x, hw_sectors h d x = hw_sectors (hw s) d x) -> Q tt (set_hw h s)) ->
  wp (outb p v) Q s.
Proof. intros Hp HQ. apply wp_modify. destruct (law_outb p v (hw s) Hp) as (_ & R & S). by apply HQ. Qed.

Definition after_start (b : buf) (h h' : H) : Prop :=
  hw_cmd h' = Some (dirty b, drv b, blockno b) /\
  forall d x, hw_sectors h' d x = if dirty b && ((d =? drv b) && (x =? blockno b)) then data b else hw_sectors h d x.

Lemma command_wp (Q : unit -> idest H -> Prop) b s h0 :
  hw_reg (hw s) 498 = 1 -> drive (hw s) = drv b -> lba (hw s) = blockno b ->
  (forall d x, hw_sectors (hw s) d x = hw_sectors h0 d x) ->
  (forall h, after_start b h0 h -> Q tt (set_hw h s)) ->
  wp (if negb (Z.land (flags b) B_DIRTY =? 0) then outb 503 IDE_CMD_WRITE;; outsl (data b) else outb 503 IDE_CMD_READ) Q s.
Proof.
  intros Hc Hd Hl Hs HQ. unfold after_start, dirty in HQ. destruct (negb (Z.land (flags b) B_DIRTY =? 0)) eqn:E; cbn [andb] in HQ.
  - destruct (law_command true (hw s) Hc) as (C1 & C2). apply wp_bind. apply wp_modify, wp_modify.
    destruct (law_outsl _ _ _ (data b) C1) as (D1 & D2). apply (HQ (hw_outsl (data b) (hw_outb 503 IDE_CMD_WRITE (hw s)))).
    rewrite D1, C1, Hd, Hl. split; [done|]. intros d x. rewrite D2, C2, Hs, Hd, Hl. done.
  - destruct (law_command false (hw s) Hc) as (C1 & C2). apply wp_modify. apply HQ. rewrite C1, Hd, Hl. split; [done|].
    intros d x. by rewrite C2.
Qed.

Lemma idestart_wp (Q : unit -> idest H -> Prop) i b s : ibufs s !! i = Some b -> 0 <= blockno b < FSSIZE ->
  (forall h, after_start b (hw s) h -> Q tt (set_hw h s)) -> wp (idestart i) Q s.
Proof.
  intros Hi Hb HQ. unfold idestart. apply wp_bind. unfold ibuf_at. apply wp_bind, wp_get. rewrite Hi. apply wp_ret.
  destruct (Z.geb_spec (blockno b) FSSIZE); [lia|]. change (BSIZE / SECTOR_SIZE) with 1. rewrite Z.mul_1_r.
  change (1 =? 1) with true. change (1 >? 7) with false. cbv iota.
  apply wp_bind, idewait_wp. intros h0 (_ & _ & S0).
  apply wp_bind, outb_wp; [done|]. intros h1 R1 S1.
  apply wp_bind, outb_wp; [done|]. intros h2 R2 S2.
  apply wp_bind, outb_wp; [done|]. intros h3 R3 S3.
  apply wp_bind, outb_wp; [done|]. intros h4 R4 S4.
  apply wp_bind, outb_wp; [done|]. intros h5 R5 S5.
  apply wp_bind, outb_wp; [done|]. intros h6 R6 S6.
  destruct (lba_decode (blockno b) (drv b) Hb (land_1 _)) as (L1 & L2).
  apply (command_wp _ b _ (hw s)); cbn [hw set_hw] in *.
  - by rewrite R6, R5, R4, R3, R2.
  - unfold drive. rewrite R6. exact L2.
  - unfold lba. rewrite !R6, !R5, !R4, !R3. exact L1.
  - intros d x. by rewrite S6, S5, S4, S3, S2, S1, S0.
  - intros h Hh. by apply (HQ h).
Qed.

(** ** The disk as its clients see it *)

(** What serving a request makes of the sectors and of the buffer. *)
Definition served_flags (b : buf) : Z := Z.land (Z.lor (flags b) B_VALID) (Z.lnot B_DIRTY).
Definition served_buf (A : Z -> Z -> block) (b : buf) : buf :=
  set_flags (served_flags b) (if dirty b then b else set_data (A (drv b) (blockno b)) b).
Definition served_sectors (A : Z -> Z -> block) (b : buf) : Z -> Z -> block :=
  fun d x => if dirty b && ((d =? drv b) && (x =? blockno b)) then data b else A d x.

(** The requests [q] served in order. *)
Fixpoint serve (q : list nat) (A : Z -> Z -> block) (l : list buf) : (Z -> Z -> block) * list buf :=
  match q with
  | [] => (A, l)
  | i :: q' =>
      match l !! i with
      | Some b => serve q' (served_sectors A b) (<[i := served_buf A b]> l)
      | None => (A, l)
      end
  end.

(** The driver with the sectors [A] before its queue is served: the first request
    is the one the controller works on, and its data is at the disk if it is a
    write. *)
Record ide_ok (s : idest H) (A : Z -> Z -> block) : Prop := {
  io_nodup : NoDup (idequeue s);
  io_request : forall i, i ∈ idequeue s -> exists b, ibufs s !! i = Some b /\ 0 <= blockno b < FSSIZE;
  io_idle : idequeue s = [] -> forall d x, hw_sectors (hw s) d x = A d x;
  io_head : forall i q b, idequeue s = i :: q -> ibufs s !! i = Some b ->
    hw_cmd (hw s) = Some (dirty b, drv b, blockno b) /\ forall d x, hw_sectors (hw s) d x = served_sectors A b d x
}.

Lemma served_flags_done b A : ide_waiting (served_buf A b) = false.
Proof.
  unfold ide_waiting, served_buf, served_flags. cbn [flags set_flags].
  rewrite <- Z.land_assoc. change (Z.land (Z.lnot B_DIRTY) (Z.lor B_VALID B_DIRTY)) with B_VALID.
  rewrite (Z.land_comm _ B_VALID), Z.lor_comm.
  replace (Z.land B_VALID (Z.lor B_VALID (flags b))) with B_VALID; [done|].
  apply Z.bits_inj'. intros n _. rewrite Z.land_spec, Z.lor_spec. by destruct (Z.testbit B_VALID n).
Qed.

Lemma submit_wp i b s A : ide_ok s A -> i ∉ idequeue s -> ibufs s !! i = Some b ->
  locked (lock b) = true -> pid (lock b) = imypid s -> ide_waiting b = true ->
  dev b = 0 \/ havedisk1 s = true -> 0 <= blockno b < FSSIZE ->
  wp (ide_submit i) (fun _ s' => ide_ok s' A /\ exists h, s' = set_queue (idequeue s ++ [i]) (set_hw h s)) s.
Proof.
  intros [O1 O2 O3 O4] Hn Hi Hl Hp Hw Hd Hb. unfold ide_submit. apply wp_bind. unfold ibuf_at. apply wp_bind, wp_get. rewrite Hi.
  apply wp_ret, wp_bind, wp_gets. rewrite Hl, Hp, Z.eqb_refl. cbn [negb andb]. unfold ide_waiting in Hw.
  destruct (Z.land (flags b) (Z.lor B_VALID B_DIRTY) =? B_VALID); [done|]. apply wp_bind, wp_gets.
  replace (negb (dev b =? 0) && negb (havedisk1 s)) with false by (destruct Hd as [-> | ->]; [done|by rewrite andb_false_r]).
  apply wp_bind, wp_gets. rewrite bool_decide_eq_false_2 by done. apply wp_bind, wp_modify.
  assert (O2' : forall j, j ∈ idequeue s ++ [i] -> exists b, ibufs s !! j = Some b /\ 0 <= blockno b < FSSIZE).
  { intros j [Hj | ->%list_elem_of_singleton]%elem_of_app; eauto. }
  assert (O1' : NoDup (idequeue s ++ [i])) by (apply NoDup_app; split; [done|split; [|apply NoDup_singleton]]; set_solver).
  destruct (idequeue s) as [|j q] eqn:Eq.
  - apply (idestart_wp _ i b); [done|done|]. intros h (C1 & C2). split; [|by exists h]. split; [done|done|done|].
    intros j q c [= <- <-] [= <-]%(fun e : _ = Some c => eq_trans (eq_sym Hi) e). split; [done|].
    intros d x. cbn [hw set_hw set_queue]. rewrite C2. cbn [hw set_queue]. unfold served_sectors. by rewrite O3.
  - apply wp_ret. split; [|exists (hw s); by destruct s]. split; [done|done|done|].
    intros j' q' c [= <- <-] Hc. exact (O4 j q c eq_refl Hc).
Qed.

Definition same_env (s s' : idest H) : Prop := havedisk1 s' = havedisk1 s /\ imypid s' = imypid s.

(** The end of the handler: the request is served and the next one is started. *)
Lemma start_next_wp i q b s A h w : ide_ok s A -> idequeue s = i :: q -> ibufs s !! i = Some b ->
  (forall d x, hw_sectors h d x = served_sectors A b d x) ->
  wp (match q with [] => ret tt | j :: _ => idestart j end)
    (fun _ s' => ide_ok s' (served_sectors A b) /\ idequeue s' = q /\
      ibufs s' = <[i := served_buf A b]> (ibufs s) /\ wakeups s' = w /\ same_env s s')
    (mkIde (<[i := served_buf A b]> (ibufs s)) q (havedisk1 s) h w (imypid s)).
Proof.
  intros [O1 O2 O3 O4] Eq Hi Hh. rewrite Eq in O1, O2. apply NoDup_cons in O1 as [Hni O1].
  assert (Hlk : forall j, j ∈ q -> <[i := served_buf A b]> (ibufs s) !! j = ibufs s !! j)
    by (intros j Hj; apply list_lookup_insert_ne; set_solver).
  destruct q as [|j q'].
  - apply wp_ret. split; [|done]. split; [done|by intros ? ?%elem_of_nil|done|done].
  - destruct (O2 j ltac:(set_solver)) as (c & Hc & Hbc). apply (idestart_wp _ j c); [by cbn [ibufs]; rewrite Hlk by set_solver|done|].
    intros h' (D1 & D2). split; [|done]. split; [done| |done|].
    + intros k Hk. cbn [ibufs set_hw idequeue] in *. rewrite Hlk by done. apply O2. set_solver.
    + intros k q2 c' [= <- <-]. cbn [ibufs set_hw hw]. rewrite Hlk, Hc by set_solver. intros [= <-]. split; [done|].
      intros d x. rewrite D2. cbn [hw]. unfold served_sectors at 2. by rewrite Hh.
Qed.

(** The handler: the first request is served and the next is started. *)
Lemma ideintr_wp i q b s A : ide_ok s A -> idequeue s = i :: q -> ibufs s !! i = Some b ->
  wp ideintr (fun _ s' => ide_ok s' (served_sectors A b) /\ idequeue s' = q /\
    ibufs s' = <[i := served_buf A b]> (ibufs s) /\ wakeups s' = wakeups s ++ [i] /\ same_env s s') s.
Proof.
  intros Hok Eq Hi. destruct (io_head _ _ Hok _ _ _ Eq Hi) as (C1 & C2). unfold ideintr. apply wp_bind, wp_get. rewrite Eq.
  apply wp_bind, wp_modify, wp_bind. unfold ibuf_at. apply wp_bind, wp_get. cbn [ibufs set_queue]. rewrite Hi. apply wp_ret, wp_bind.
  destruct (Z.land (flags b) B_DIRTY =? 0) eqn:Ed.
  - assert (Hd : dirty b = false) by (unfold dirty; by rewrite Ed). apply wp_bind, idewait_wp. intros h (_ & S1 & S2).
    cbn [Z.geb Z.compare]. apply wp_bind. unfold wp at 1, insl. cbn [hw set_hw set_queue].
    cbn [hw set_queue] in S1, S2. rewrite C1, Hd in S1. destruct (law_insl h _ _ S1) as (I1 & I2).
    destruct (hw_insl h) as [v h'] eqn:Ev. cbn [fst snd] in I1, I2. subst v.
    apply wp_modify, wp_bind, wp_modify, wp_bind, wp_modify, wp_bind, wp_modify.
    cbn [ibufs idequeue havedisk1 hw wakeups imypid set_ibufs set_hw set_queue].
    replace (alter _ i (alter _ i (alter _ i (ibufs s)))) with (<[i := served_buf A b]> (ibufs s)).
    { apply start_next_wp; [done|done|done|]. intros d x. by rewrite I2, S2. }
    rewrite !list_alter_alter_eq. rewrite (alter_insert _ _ _ b Hi). unfold served_buf, served_flags, compose.
    rewrite Hd, S2, C2. unfold served_sectors. by rewrite Hd.
  - assert (Hd : dirty b = true) by (unfold dirty; by rewrite Ed).
    apply wp_ret, wp_bind, wp_modify, wp_bind, wp_modify, wp_bind, wp_modify.
    cbn [ibufs idequeue havedisk1 hw wakeups imypid set_ibufs set_hw set_queue].
    replace (alter _ i (alter _ i (ibufs s))) with (<[i := served_buf A b]> (ibufs s)); [by apply start_next_wp|].
    rewrite !list_alter_alter_eq. rewrite (alter_insert _ _ _ b Hi). unfold served_buf, served_flags, compose. by rewrite Hd.
Qed.

(** [n] interrupts of the disk. *)
Fixpoint interrupts (n : nat) : M (idest H) unit :=
  match n with O => ret tt | S n' => ideintr;; interrupts n' end.

Lemma interrupts_wp q : forall s A, ide_ok s A -> idequeue s = q ->
  wp (interrupts (length q)) (fun _ s' => ide_ok s' (fst (serve q A (ibufs s))) /\ idequeue s' = [] /\
    ibufs s' = snd (serve q A (ibufs s)) /\ wakeups s' = wakeups s ++ q) s.
Proof.
  induction q as [|i q IH]; intros s A Hok Eq; cbn [length interrupts serve].
  - apply wp_ret. rewrite app_nil_r. done.
  - destruct (io_request _ _ Hok i) as (b & Hi & _); [rewrite Eq; set_solver|]. rewrite Hi.
    apply wp_bind. eapply wp_mono; [by apply ideintr_wp|]. intros _ s1 (Hok1 & Eq1 & Hb1 & Hw1 & _).
    eapply wp_mono; [by apply IH|]. rewrite Hb1, Hw1, <- app_assoc. done.
Qed.

Lemma serve_others q : forall A l i, i ∉ q -> snd (serve q A l) !! i = l !! i.
Proof.
  induction q as [|j q IH]; intros A l i Hi; [done|]. cbn [serve]. destruct (l !! j); [|done].
  rewrite IH by set_solver. apply list_lookup_insert_ne. set_solver.
Qed.

Lemma serve_done q : forall A l i, NoDup q -> (forall j, j ∈ q -> is_Some (l !! j)) -> i ∈ q ->
  exists b, snd (serve q A l) !! i = Some b /\ ide_waiting b = false.
Proof.
  induction q as [|j q IH]; intros A l i Hnd Hl Hi; cbn [serve]; [by apply elem_of_nil in Hi|]. apply NoDup_cons in Hnd as [Hj Hn].
  destruct (Hl j ltac:(set_solver)) as (b & Hb). rewrite Hb. pose proof (lookup_lt_Some _ _ _ Hb).
  apply elem_of_cons in Hi as [-> | Hi].
  - rewrite serve_others by done. rewrite list_lookup_insert_eq by done. eexists. split; [done|]. apply served_flags_done.
  - apply IH; [done| |done]. intros k Hk. apply lookup_lt_is_Some. rewrite length_insert. apply lookup_lt_is_Some, Hl. set_solver.
Qed.

(** One request of an idle driver. *)
Definition ide_rw (i : nat) : M (idest H) unit := ide_submit i;; ideintr.

Lemma ide_rw_wp i b s A : ide_ok s A -> idequeue s = [] -> ibufs s !! i = Some b ->
  locked (lock b) = true -> pid (lock b) = imypid s -> ide_waiting b = true ->
  dev b = 0 \/ havedisk1 s = true -> 0 <= blockno b < FSSIZE ->
  wp (ide_rw i) (fun _ s' => ide_ok s' (served_sectors A b) /\ idequeue s' = [] /\
    ibufs s' = <[i := served_buf A b]> (ibufs s) /\ wakeups s' = wakeups s ++ [i] /\ same_env s s') s.
Proof.
  intros Hok Eq Hi Hl Hp Hw Hd Hb. apply wp_bind. eapply wp_mono; [apply (submit_wp i b s A); auto; rewrite Eq; set_solver|].
  intros _ s1 (Hok1 & h & ->). rewrite Eq in *. by apply (ideintr_wp i [] b (set_queue [i] (set_hw h s)) A).
Qed.
End Driver.

(** ** The memory disk *)

Lemma served_flags_dirty f : Z.lor (Z.land f (Z.lnot B_DIRTY)) B_VALID = Z.land (Z.lor f B_VALID) (Z.lnot B_DIRTY).
Proof.
  rewrite Z.land_lor_distr_l. done.
Qed.

Lemma served_flags_clean f : Z.land f B_DIRTY = 0 -> Z.lor f B_VALID = Z.land (Z.lor f B_VALID) (Z.lnot B_DIRTY).
Proof.
  intros Hf. rewrite Z.land_lor_distr_l. change (Z.land B_VALID (Z.lnot B_DIRTY)) with B_VALID. f_equal.
  apply Z.bits_inj'. intros n Hn. rewrite Z.land_spec, Z.lnot_spec by done.
  assert (Z.testbit (Z.land f B_DIRTY) n = false) as E by (rewrite Hf; apply Z.bits_0). rewrite Z.land_spec in E.
  destruct (Z.testbit f n), (Z.testbit B_DIRTY n); done.
Qed.

Definition mem_sectors (m : bstate) : Z -> Z -> block := fun _ x => dread (disk m) x.

(** What memide.c's iderw has done when it returns. *)
Lemma memide_run i m m' : iderw i m = Ret tt m' -> exists b, bufs m !! i = Some b /\
  locked (lock b) = true /\ pid (lock b) = mypid m /\ ide_waiting b = true /\ dev b = 1 /\ blockno b < disksize m /\
  bufs m' = <[i := served_buf (mem_sectors m) b]> (bufs m) /\
  disk m' = (if dirty b then <[blockno b := data b]> (disk m) else disk m) /\ disksize m' = disksize m /\ mypid m' = mypid m.
Proof.
  unfold iderw, holdingsleep. intros E. destruct (bufs m !! i) as [b|] eqn:Hi.
  2:{ unfold bind, get_buf, get in E. simpl in E. unfold bind in E. by rewrite Hi in E. }
  erewrite bind_run in E by (erewrite bind_run; [|by apply get_buf_run]; reflexivity).
  destruct (locked (lock b)) eqn:Hl; [|done]. destruct (Z.eqb_spec (pid (lock b)) (mypid m)) as [Hp|]; [|done]. cbn [negb andb] in E.
  erewrite bind_run in E by (by apply get_buf_run).
  destruct (Z.land (flags b) (Z.lor B_VALID B_DIRTY) =? B_VALID) eqn:Ew; [done|].
  destruct (Z.eqb_spec (dev b) 1) as [Hd|]; [|done]. cbn [negb] in E. rewrite bind_gets in E.
  destruct (Z.geb_spec (blockno b) (disksize m)) as [|Hb]; [done|]. exists b. unfold ide_waiting. rewrite Ew.
  do 6 (split; [done|]). assert (Hlt : (i < length (bufs m))%nat) by (by eapply lookup_lt_Some).
  unfold served_buf, served_flags, dirty. destruct (negb (Z.land (flags b) B_DIRTY =? 0)) eqn:Edirty.
  - erewrite bind_run in E; [|erewrite bind_run; [reflexivity|by apply (upd_buf_run i _ m b)]].
    erewrite upd_buf_run in E by (simpl; by apply list_lookup_insert_eq). injection E as <-. simpl.
    rewrite list_insert_insert_eq. unfold set_flags. simpl. by rewrite served_flags_dirty.
  - erewrite bind_run in E; [|rewrite bind_gets; by apply (upd_buf_run i _ m b)].
    erewrite upd_buf_run in E by (simpl; by apply list_lookup_insert_eq). injection E as <-. simpl.
    rewrite list_insert_insert_eq. unfold set_flags. simpl. rewrite <- served_flags_clean; [done|].
    by apply negb_false_iff, Z.eqb_eq in Edirty.
Qed.

(** An idle driver whose second disk holds what the memory disk does. *)
Record ide_mem {H} {HW : IdeHw H} (s : idest H) (m : bstate) : Prop := {
  im_idle : idequeue s = [];
  im_disk1 : havedisk1 s = true;
  im_bufs : ibufs s = bufs m;
  im_pid : imypid s = mypid m;
  im_size : disksize m <= FSSIZE;
  im_uint : forall i b, bufs m !! i = Some b -> 0 <= blockno b;
  im_sectors : forall x, 0 <= x < disksize m -> hw_sectors (hw s) 1 x = dread (disk m) x
}.

(** The IDE driver serves its requests in order.  Where the queue is in order
    with the sectors [A], a new request of a held buffer that needs the disk goes to
    the end of the queue and changes no buffer; and one interrupt per request
    empties the queue, has done to the sectors and to the buffers what the requests
    do one after the other, wakes every request in turn, and leaves none of them
    waiting. *)
Theorem ide_serves_in_order {H} {HW : IdeHw H} {HL : IdeLaws H} (s : idest H) (A : Z -> Z -> block) :
  ide_ok s A ->
  (forall i b, i ∉ idequeue s -> ibufs s !! i = Some b -> locked (lock b) = true -> pid (lock b) = imypid s ->
     ide_waiting b = true -> dev b = 0 \/ havedisk1 s = true -> 0 <= blockno b < FSSIZE ->
     wp (ide_submit i) (fun _ s' => ide_ok s' A /\ idequeue s' = idequeue s ++ [i] /\ ibufs s' = ibufs s) s) /\
  wp (interrupts (length (idequeue s))) (fun _ s' =>
     idequeue s' = [] /\ ibufs s' = snd (serve (idequeue s) A (ibufs s)) /\
     (forall d x, hw_sectors (hw s') d x = fst (serve (idequeue s) A (ibufs s)) d x) /\
     wakeups s' = wakeups s ++ idequeue s /\
     forall i, i ∈ idequeue s -> exists b, ibufs s' !! i = Some b /\ ide_waiting b = false) s.
Proof.
  intros Hok. split.
  - intros i b Hn Hi Hl Hp Hw Hd Hb. eapply wp_mono; [by apply (submit_wp i b s A)|]. by intros _ s' (Hok' & h & ->).
  - eapply wp_mono; [by apply interrupts_wp|]. intros _ s' (Hok' & Eq & Hb & Hw). repeat split; [done|done|by apply Hok'|done|].
    rewrite Hb. intros i Hi. apply serve_done; [apply Hok| |done]. intros j (b & Hj & _)%(io_request _ _ Hok). by exists b.
Qed.

(** C20.  The IDE driver does what the memory disk does.  Where its second disk holds
    the blocks of the memory disk, whatever iderw of memide.c makes of the buffers
    and of the blocks, a request of the driver and the interrupt that ends it make
    of the buffers and of the sectors, and the request is woken: the buffer cache
    runs on either. *)
Theorem ide_refines_memide {H} {HW : IdeHw H} {HL : IdeLaws H} (s : idest H) (m m' : bstate) (i : nat) :
  ide_mem s m -> iderw i m = Ret tt m' ->
  wp (ide_rw i) (fun _ s' => ide_mem s' m' /\ wakeups s' = wakeups s ++ [i]) s.
Proof.
  intros [I1 I2 I3 I4 I5 I6 I7] E. destruct (memide_run i m m' E) as (b & Hi & Hl & Hp & Hw & Hd & Hb & E1 & E2 & E3 & E4).
  pose proof (I6 _ _ Hi). assert (Hdrv : drv b = 1) by (unfold drv; by rewrite Hd).
  assert (Hok : ide_ok s (hw_sectors (hw s))) by (split; rewrite ?I1; [by apply NoDup_nil|by intros ? ?%elem_of_nil|done|done]).
  assert (Ebuf : served_buf (hw_sectors (hw s)) b = served_buf (mem_sectors m) b).
  { unfold served_buf. destruct (dirty b); [done|]. rewrite Hdrv, I7 by lia. done. }
  eapply wp_mono; [apply (ide_rw_wp i b s _ Hok I1); [by rewrite I3|done|congruence|done|by right|lia]|].
  intros _ s' (Hok' & Q1 & Q2 & Q3 & Q4 & Q5). split; [|done]. split; [done|congruence| |congruence|congruence| |].
  - rewrite Q2, Ebuf, I3. done.
  - rewrite E1. intros j c. rewrite list_lookup_insert. destruct (decide _) as [[-> _]|]; [|apply I6]. intros [= <-].
    unfold served_buf. by destruct (dirty b).
  - rewrite E2, E3. intros x Hx. rewrite (io_idle _ _ Hok' Q1). unfold served_sectors. rewrite Hdrv, I7 by done.
    destruct (dirty b); cbn [andb]; [|done]. unfold dread. change (1 =? 1) with true. cbn [andb].
    destruct (Z.eqb_spec x (blockno b)) as [-> | Hne]; [by rewrite lookup_insert_eq|by rewrite lookup_insert_ne].
Qed.

(** ** A simulated controller *)

(** Registers, a command, the sectors, and whether the disk is busy: it is so for
    one poll after a command. *)
Record simhw := mkSim { sreg : Z -> Z; scmd : option (bool * Z * Z); ssect : Z -> Z -> block; sbusy : bool }.

Definition sim_lba (r : Z -> Z) : Z := r 499 + 256 * r 500 + 65536 * r 501 + 16777216 * Z.land (r 502) 15.
Definition sim_outb (p v : Z) (h : simhw) : simhw :=
  if p =? 503 then
    mkSim (sreg h) (Some (v =? IDE_CMD_WRITE, Z.land (Z.shiftr (sreg h 502) 4) 1, sim_lba (sreg h))) (ssect h) true
  else mkSim (fun p' => if p' =? p then v else sreg h p') (scmd h) (ssect h) (sbusy h).
Definition sim_outsl (v : list Z) (h : simhw) : simhw :=
  match scmd h with
  | Some (true, d, x) =>
      mkSim (sreg h) (scmd h) (fun d' x' => if (d' =? d) && (x' =? x) then v else ssect h d' x') (sbusy h)
  | _ => h
  end.
Definition sim_insl (h : simhw) : list Z * simhw :=
  match scmd h with Some (false, d, x) => (ssect h d x, h) | _ => ([], h) end.

#[export] Instance simhw_hw : IdeHw simhw := {
  hw_inb p h := (if sbusy h then IDE_BSY else IDE_DRDY, mkSim (sreg h) (scmd h) (ssect h) false);
  hw_outb := sim_outb; hw_insl := sim_insl; hw_outsl := sim_outsl; hw_patience := 2;
  hw_reg := sreg; hw_cmd := scmd; hw_sectors := ssect
}.

#[export] Instance simhw_laws : IdeLaws simhw.
Proof.
  split.
  - intros p v h Hp. cbn. unfold sim_outb. rewrite (proj2 (Z.eqb_neq p 503)) by done. done.
  - intros w h _. cbn. by destruct w.
  - done.
  - intros h. destruct (sbusy h) eqn:E; [exists 1%nat|exists 0%nat]; cbn; rewrite ?E; (split; [lia|done]).
  - intros h. cbn. by destruct (sbusy h).
  - intros h d x E. cbn in *. unfold sim_insl. by rewrite E.
  - intros h d x v E. cbn in *. unfold sim_outsl. rewrite E. done.
Qed.

(** Block 3 of the second disk is written and then read back into another buffer. *)
Definition sim_writer : buf := mkBuf B_DIRTY 1 3 (mkSleeplock true 5) 1 [7].
Definition sim_reader : buf := mkBuf 0 1 3 (mkSleeplock true 5) 1 [].
Definition sim_state : idest simhw :=
  mkIde [sim_writer; sim_reader; sim_reader] [0%nat; 1%nat] true
    (mkSim (fun _ => 0) (Some (true, 1, 3)) (fun d x => if (d =? 1) && (x =? 3) then [7] else []) true) [] 5.

Lemma sim_ok : ide_ok sim_state (fun _ _ => []).
Proof.
  split.
  - repeat constructor; set_solver.
  - intros i Hi. assert (i = 0 \/ i = 1)%nat as [-> | ->] by set_solver; (eexists; split; [reflexivity|by vm_compute]).
  - done.
  - intros i q b [= <- <-] [= <-]. done.
Qed.

Lemma ide_serves_in_order_witness :
  ide_ok sim_state (fun _ _ => []) /\
  snd (serve [0%nat; 1%nat] (fun _ _ => []) (ibufs sim_state)) !! 1%nat = Some (set_flags B_VALID (set_data [7] sim_reader)) /\
  wp (interrupts 2) (fun _ s' => idequeue s' = [] /\ wakeups s' = [0%nat; 1%nat]) sim_state.
Proof.
  split; [exact sim_ok|]. split; [reflexivity|].
  eapply wp_mono; [apply (proj2 (ide_serves_in_order sim_state (fun _ _ => []) sim_ok))|].
  intros _ s' (E1 & _ & _ & E2 & _). split; [exact E1|exact E2].
Defined.

Definition sim_idle : idest simhw :=
  mkIde [sim_writer; sim_reader] [] true (mkSim (fun _ => 0) None (fun _ _ => zero_block) false) [] 5.
Definition sim_mem : bstate := mkBstate [sim_writer; sim_reader] [0%nat; 1%nat] ∅ 1000 [] 5.
Definition sim_mem' : bstate :=
  mkBstate [set_flags B_VALID sim_writer; sim_reader] [0%nat; 1%nat] (<[3 := [7]]> ∅) 1000 [(3, [7])] 5.

Lemma sim_mem_ok : ide_mem sim_idle sim_mem.
Proof.
  split; [done|done|done|done|by vm_compute| |].
  - intros i b [-> | [-> | []%elem_of_nil]%elem_of_cons]%list_elem_of_lookup_2%elem_of_cons; by vm_compute.
  - intros x _. unfold dread. change (disk sim_mem) with (∅ : gmap Z block). by rewrite lookup_empty.
Qed.

Lemma ide_refines_memide_witness :
  ide_mem sim_idle sim_mem /\ iderw 0 sim_mem = Ret tt sim_mem' /\
  wp (ide_rw 0) (fun _ s' => ide_mem s' sim_mem' /\ wakeups s' = [0%nat]) sim_idle.
Proof.
  split; [exact sim_mem_ok|]. split; [reflexivity|].
  exact (ide_refines_memide sim_idle sim_mem sim_mem' 0 sim_mem_ok eq_refl).
Defined.
