(* ===== verification/Sh.v ===== *)
(** * The parser of the shell (sh.c)

    The input line is a buffer of characters without nulls; a pointer into it is an
    offset, and the offset [*ps] that the parsing functions advance is the state of
    the monad.  A parsed command keeps the offsets of its words; [nulterminate]
    writes the nulls that end them.  malloc is taken to succeed. *)

From stdpp Require Import base numbers list strings.
From Stdlib Require Import ZArith Lia.
From S2P Require Import Prelude Sysfile Ulib.

Local Open Scope Z_scope.
Local Open Scope kernel_scope.

Definition MAXARGS : nat := 10.

(** A word of the line: where it starts and where it ends. *)
Record word := mkWord { w_q : nat; w_eq : nat }.

Inductive cmd :=
| EXEC (argv : list word)
| REDIR (c : cmd) (file : word) (mode : Z) (fd : Z)
| PIPE (left right : cmd)
| LIST (left right : cmd)
| BACK (c : cmd).

(** space, tab, return, newline, vertical tab; and < | > & ; ( ) *)
Definition whitespace : list Z := [32; 9; 13; 10; 11].
Definition symbols : list Z := [60; 124; 62; 38; 59; 40; 41].

Definition inset (l : list Z) (c : Z) : bool :=
  match strchr l c with Some _ => true | None => false end.
Definition is_word_char (c : Z) : bool := negb (inset whitespace c) && negb (inset symbols c).

Section Parser.
Context (buf : list Z).

Definition es : nat := length buf.
Definition chr (s : nat) : Z := default 0 (buf !! s).

(** The loop that advances [s] below [es] while [p] holds of the character there. *)
Fixpoint skip (p : Z -> bool) (k s : nat) : nat :=
  match k with
  | O => s
  | S k' => if p (chr s) then skip p k' (S s) else s
  end.
Definition skip_while (p : Z -> bool) (s : nat) : nat := skip p (es - s) s.
Definition skip_space (s : nat) : nat := skip_while (inset whitespace) s.

(** The token at [s], past its white space, and where it ends. *)
Definition token_at (s : nat) : Z * nat :=
  let c := chr s in
  if c =? 0 then (0, s)
  else if (c =? 124) || (c =? 40) || (c =? 41) || (c =? 59) || (c =? 38) || (c =? 60) then (c, S s)
  else if c =? 62 then if chr (S s) =? 62 then (43, S (S s)) else (62, S s)
  else (97, skip_while is_word_char s).

Definition gettoken : M nat (Z * word) :=
  s <- get;;
  let q := skip_space s in
  let '(tok, eq) := token_at q in
  put (skip_space eq);;
  ret (tok, mkWord q eq).

Definition peek (toks : list Z) : M nat bool :=
  s <- get;;
  let s := skip_space s in
  put s;;
  ret (negb (chr s =? 0) && inset toks (chr s)).

(** parseredirs: the redirections it adds, in order. *)
Fixpoint parseredirs (k : nat) : M nat (list (word * Z * Z)) :=
  match k with
  | O => hang
  | S k' =>
      p <- peek [60; 62];;
      if p then
        t <- gettoken;;
        f <- gettoken;;
        if negb (f.1 =? 97) then panic "missing file for redirection"
        else
          rest <- parseredirs k';;
          ret ((if t.1 =? 60 then (f.2, O_RDONLY, 0) else (f.2, Z.lor O_WRONLY O_CREATE, 1)) :: rest)
      else ret []
  end.

(** redircmd around [c] for each of them: the later ones are outside. *)
Definition add_redirs (c : cmd) (rs : list (word * Z * Z)) : cmd :=
  foldl (fun c r => REDIR c r.1.1 r.1.2 r.2) c rs.

(** The loop of parseexec over the words: the words, and the redirections between
    them.  [cmd] is filled in place, so all the words go to the one EXEC inside. *)
Fixpoint parse_words (k : nat) (argc : nat) : M nat (list word * list (word * Z * Z)) :=
  match k with
  | O => hang
  | S k' =>
      p <- peek [124; 41; 38; 59];;
      if p then ret ([], [])
      else
        t <- gettoken;;
        if t.1 =? 0 then ret ([], [])
        else if negb (t.1 =? 97) then panic "syntax"
        else if (MAXARGS <=? S argc)%nat then panic "too many args"
        else
          rs <- parseredirs k';;
          r <- parse_words k' (S argc);;
          ret (t.2 :: r.1, rs ++ r.2)
  end.

Fixpoint parseback (k : nat) (c : cmd) : M nat cmd :=
  match k with
  | O => hang
  | S k' =>
      p <- peek [38];;
      if p then gettoken;; parseback k' (BACK c) else ret c
  end.

Fixpoint parseline (k : nat) : M nat cmd :=
  match k with
  | O => hang
  | S k' =>
      c <- parsepipe k';;
      c <- parseback k' c;;
      p <- peek [59];;
      if p then gettoken;; r <- parseline k';; ret (LIST c r) else ret c
  end
with parsepipe (k : nat) : M nat cmd :=
  match k with
  | O => hang
  | S k' =>
      c <- parseexec k';;
      p <- peek [124];;
      if p then gettoken;; r <- parsepipe k';; ret (PIPE c r) else ret c
  end
with parseexec (k : nat) : M nat cmd :=
  match k with
  | O => hang
  | S k' =>
      p <- peek [40];;
      if p then parseblock k'
      else
        rs <- parseredirs k';;
        r <- parse_words k' 0;;
        ret (add_redirs (EXEC r.1) (rs ++ r.2))
  end
with parseblock (k : nat) : M nat cmd :=
  match k with
  | O => hang
  | S k' =>
      p <- peek [40];;
      if negb p then panic "parseblock"
      else
        gettoken;;
        c <- parseline k';;
        p <- peek [41];;
        if negb p then panic "syntax - missing )"
        else
          gettoken;;
          rs <- parseredirs k';;
          ret (add_redirs c rs)
  end.

(** Fuel that is always enough: four calls for every character. *)
Definition fuel : nat := 4 * es + 4.

Definition parsecmd : M nat cmd :=
  c <- parseline fuel;;
  peek [];;
  s <- get;;
  if (s =? es)%nat then ret c else panic "syntax".
End Parser.

(** ** nulterminate *)
Fixpoint nul_words (ws : list word) (buf : list Z) : list Z :=
  match ws with [] => buf | w :: ws' => nul_words ws' (<[w_eq w := 0]> buf) end.

Fixpoint nulterminate (c : cmd) (buf : list Z) : list Z :=
  match c with
  | EXEC argv => nul_words argv buf
  | REDIR c' file _ _ => <[w_eq file := 0]> (nulterminate c' buf)
  | PIPE l r => nulterminate r (nulterminate l buf)
  | LIST l r => nulterminate r (nulterminate l buf)
  | BACK c' => nulterminate c' buf
  end.

(** The words of a command: arguments and file names. *)
Fixpoint words (c : cmd) : list word :=
  match c with
  | EXEC argv => argv
  | REDIR c' file _ _ => words c' ++ [file]
  | PIPE l r => words l ++ words r
  | LIST l r => words l ++ words r
  | BACK c' => words c'
  end.

(** The characters of a word, and the string a C program sees at an offset. *)
Definition text (buf : list Z) (w : word) : list Z := take (w_eq w - w_q w) (drop (w_q w) buf).
Fixpoint c_string (l : list Z) : list Z :=
  match l with
  | [] => []
  | c :: l' => if c =? 0 then [] else c :: c_string l'
  end.

(** ** The parser ends, and its words are words

    [safe]: the parser returns and [Q] holds, or it gives up with a message. *)
Definition safe {A} (c : M nat A) (Q : A -> nat -> Prop) (s : nat) : Prop :=
  match c s with Ret a s' => Q a s' | Panic _ => True | _ => False end.

Lemma safe_bind {A B} (c : M nat A) (k : A -> M nat B) Q s :
  safe c (fun a => safe (k a) Q) s -> safe (bind c k) Q s.
Proof. unfold safe, bind. by destruct (c s). Qed.
Lemma safe_mono {A} (c : M nat A) (P Q : A -> nat -> Prop) s :
  safe c P s -> (forall a s', P a s' -> Q a s') -> safe c Q s.
Proof. unfold safe. destruct (c s); eauto. Qed.

Section Proofs.
Context (buf : list Z) (Hnul : 0 ∉ buf).

#[local] Abbreviation len := (es buf).

Lemma chr_nz s : (s < len)%nat -> chr buf s <> 0.
Proof.
  intros Hs E. unfold chr in E. destruct (lookup_lt_is_Some_2 buf s Hs) as [x Hx]. rewrite Hx in E. simpl in E.
  subst x. by apply Hnul, (list_elem_of_lookup_2 _ s).
Qed.
Lemma chr_end s : (len <= s)%nat -> chr buf s = 0.
Proof. intros Hs. unfold chr. by rewrite lookup_ge_None_2. Qed.

Lemma skip_spec p k : forall s,
  (s <= skip buf p k s <= s + k)%nat /\ (forall i, (s <= i < skip buf p k s)%nat -> p (chr buf i) = true) /\
  (skip buf p k s = (s + k)%nat \/ p (chr buf (skip buf p k s)) = false).
Proof.
  induction k as [|k IH]; intros s; cbn [skip]; [split_and!; [lia|lia|lia|left; lia]|].
  destruct (p (chr buf s)) eqn:E; [|split_and!; [lia|lia|lia|by right]].
  destruct (IH (S s)) as (H1 & H2 & H3). split_and!; [lia|lia| |destruct H3; [left; lia|by right]].
  intros i Hi. destruct (decide (i = s)) as [->|]; [done|apply H2; lia].
Qed.

Lemma skip_while_spec p s : (s <= len)%nat ->
  (s <= skip_while buf p s <= len)%nat /\
  (forall i, (s <= i < skip_while buf p s)%nat -> p (chr buf i) = true) /\
  (skip_while buf p s = len \/ p (chr buf (skip_while buf p s)) = false).
Proof.
  intros Hs. unfold skip_while. destruct (skip_spec p (len - s) s) as (H1 & H2 & H3).
  split_and!; [lia|lia|done|destruct H3; [left; lia|by right]].
Qed.

(** Past its white space, a position is the end or not white. *)
Lemma skip_space_idem s : (s <= len)%nat -> skip_space buf (skip_space buf s) = skip_space buf s.
Proof.
  intros Hs. destruct (skip_while_spec (inset whitespace) s Hs) as (H1 & _ & H3). fold (skip_space buf s) in *.
  unfold skip_space at 1. unfold skip_while. destruct H3 as [->|H3]; [by rewrite Nat.sub_diag|].
  destruct (len - skip_space buf s)%nat; [done|]. cbn [skip]. by rewrite H3.
Qed.

(** A word: characters that are neither white nor symbols, as many as there are. *)
Definition good (w : word) : Prop :=
  (w_q w < w_eq w <= len)%nat /\
  (forall i, (w_q w <= i < w_eq w)%nat -> is_word_char (chr buf i) = true) /\
  (w_eq w = len \/ is_word_char (chr buf (w_eq w)) = false).

Lemma token_at_spec q : (q <= len)%nat -> (q = len \/ inset whitespace (chr buf q) = false) ->
  let t := token_at buf q in
  (q <= t.2 <= len)%nat /\ (t.1 <> 0 -> (q < t.2)%nat) /\ (t.1 = 97 -> good (mkWord q t.2)).
Proof.
  intros Hq Hw. unfold token_at. destruct (Z.eqb_spec (chr buf q) 0) as [E|Hnz]; [simpl; lia|].
  assert (Hlt : (q < len)%nat) by (destruct (decide (q < len)%nat); [done|]; destruct Hnz; apply chr_end; lia).
  destruct Hw as [?|Hw]; [lia|].
  destruct (_ || (chr buf q =? 60)) eqn:Es.
  { simpl. split_and!; [lia|lia|lia|]. intros E. rewrite E in Es. done. }
  destruct (Z.eqb_spec (chr buf q) 62) as [E62|H62].
  { destruct (Z.eqb_spec (chr buf (S q)) 62) as [E|_]; simpl; [|split_and!; [lia|lia|lia|done]].
    assert ((S q < len)%nat) by (destruct (decide (S q < len)%nat); [done|]; rewrite chr_end in E by lia; done).
    split_and!; [lia|lia|lia|done]. }
  assert (Hc : is_word_char (chr buf q) = true).
  { unfold is_word_char. rewrite Hw. cbn [negb andb]. rewrite !orb_false_iff, !Z.eqb_neq in Es.
    unfold inset, symbols. cbn [strchr].
    repeat match goal with |- context [?a =? chr buf q] => destruct (Z.eqb_spec a (chr buf q)); [lia|] end. done. }
  destruct (skip_while_spec is_word_char q Hq) as (H1 & H2 & H3). cbn [fst snd].
  assert (Hadv : (q < skip_while buf is_word_char q)%nat).
  { destruct (decide (q = skip_while buf is_word_char q)) as [E|]; [|lia]. rewrite <- E in H3.
    destruct H3; [lia|congruence]. }
  split_and!; [lia|lia|done|]. intros _. split_and!; simpl; [lia|lia|done|done].
Qed.

Lemma gettoken_safe s (Q : Z * word -> nat -> Prop) : (s <= len)%nat ->
  (forall tok w s', (s <= s' <= len)%nat -> (tok <> 0 -> (skip_space buf s < s')%nat) -> (tok = 97 -> good w) ->
     Q (tok, w) s') -> safe (gettoken buf) Q s.
Proof.
  intros Hs HQ. unfold gettoken. apply safe_bind. unfold safe at 1, get at 1. cbv zeta.
  destruct (skip_while_spec (inset whitespace) s Hs) as (H1 & _ & H3). fold (skip_space buf s) in *.
  destruct (token_at_spec (skip_space buf s) ltac:(lia) H3) as (T1 & T2 & T3).
  destruct (token_at buf (skip_space buf s)) as [tok eq]. cbn [fst snd] in *.
  destruct (skip_while_spec (inset whitespace) eq ltac:(lia)) as (E1 & _).
  apply safe_bind. unfold safe, put, ret. apply HQ; [unfold skip_space; lia| |done].
  intros Ht. specialize (T2 Ht). unfold skip_space in *. lia.
Qed.

Lemma peek_safe toks s (Q : bool -> nat -> Prop) : (s <= len)%nat ->
  (forall p s', (s <= s' <= len)%nat -> skip_space buf s' = s' ->
     (p = true -> (s' < len)%nat /\ inset toks (chr buf s') = true) -> Q p s') -> safe (peek buf toks) Q s.
Proof.
  intros Hs HQ. unfold peek. apply safe_bind. unfold safe at 1, get at 1. cbv zeta.
  apply safe_bind. unfold safe, put, ret.
  destruct (skip_while_spec (inset whitespace) s Hs) as (H1 & _). fold (skip_space buf s) in *.
  apply HQ; [lia|by apply skip_space_idem|]. intros [Hz Hi]%andb_true_iff. split; [|done].
  destruct (decide (skip_space buf s < len)%nat); [done|]. rewrite chr_end in Hz by lia. done.
Qed.

(** A token that peek has seen is consumed. *)
Lemma peeked_safe toks s (Q : Z * word -> nat -> Prop) : (s < len)%nat -> skip_space buf s = s ->
  inset toks (chr buf s) = true -> (forall tok w s', (s < s' <= len)%nat -> (tok = 97 -> good w) -> Q (tok, w) s') ->
  safe (gettoken buf) Q s.
Proof.
  intros Hs Hsk Hin HQ. assert (Hnz := chr_nz s Hs).
  assert (Ht : (token_at buf s).1 <> 0).
  { unfold token_at. destruct (Z.eqb_spec (chr buf s) 0); [done|].
    destruct (_ || _); [done|]. destruct (chr buf s =? 62); [|done]. by destruct (chr buf (S s) =? 62). }
  unfold gettoken. apply safe_bind. unfold safe at 1, get at 1. cbv zeta. rewrite Hsk.
  destruct (skip_while_spec (inset whitespace) s ltac:(lia)) as (H1 & _ & H3). fold (skip_space buf s) in *.
  rewrite Hsk in H3. destruct (token_at_spec s ltac:(lia) H3) as (T1 & T2 & T3).
  destruct (token_at buf s) as [tok eq]. cbn [fst snd] in *. specialize (T2 Ht).
  destruct (skip_while_spec (inset whitespace) eq ltac:(lia)) as (E1 & _).
  apply safe_bind. unfold safe, put, ret. apply HQ; [unfold skip_space; lia|done].
Qed.

(** What a parsing function leaves: an offset further on, and good words. *)
Definition goes (s : nat) (ws : list word) (s' : nat) : Prop := (s <= s' <= len)%nat /\ Forall good ws.

Definition redir_words (rs : list (word * Z * Z)) : list word := map (fun r => r.1.1) rs.

Lemma words_add_redirs rs : forall c, words (add_redirs c rs) = words c ++ redir_words rs.
Proof.
  induction rs as [|[[w m] f] rs IH]; intros c; [by rewrite app_nil_r|].
  unfold add_redirs. cbn [foldl]. fold (add_redirs (REDIR c w m f) rs). rewrite IH. cbn [words redir_words map fst].
  by rewrite <- app_assoc.
Qed.

Lemma parseredirs_safe k : forall s, (s <= len)%nat -> (len - s < k)%nat ->
  safe (parseredirs buf k) (fun rs s' => goes s (redir_words rs) s') s.
Proof.
  induction k as [|k IH]; intros s Hs Hk; [lia|]. cbn [parseredirs].
  apply safe_bind, peek_safe; [done|]. intros p s1 H1 Hsk Hp. destruct p; [|split; [lia|constructor]].
  destruct (Hp eq_refl) as [Hlt Hin]. apply safe_bind, (peeked_safe [60; 62]); [done|done|done|].
  intros tok w s2 H2 _. apply safe_bind, gettoken_safe; [lia|]. intros tok' f s3 H3 _ Hf.
  cbn [fst snd]. destruct (Z.eqb_spec tok' 97) as [Ht|]; cbn [negb]; [|done].
  apply safe_bind. eapply safe_mono; [apply IH; lia|]. intros rs s4 [H4 Hrs].
  split; [lia|]. cbn [redir_words map]. constructor; [|done]. destruct (tok =? 60); by apply Hf.
Qed.

Lemma parse_words_safe k : forall s argc, (s <= len)%nat -> (len - s < k)%nat ->
  safe (parse_words buf k argc) (fun r s' => goes s (r.1 ++ redir_words r.2) s') s.
Proof.
  induction k as [|k IH]; intros s argc Hs Hk; [lia|]. cbn [parse_words].
  apply safe_bind, peek_safe; [done|]. intros p s1 H1 Hsk _. destruct p; [split; [lia|constructor]|].
  apply safe_bind, gettoken_safe; [lia|]. intros tok w s2 H2 Hadv Hw. cbn [fst snd].
  destruct (Z.eqb_spec tok 0) as [|Ht]; [split; [lia|constructor]|].
  destruct (Z.eqb_spec tok 97) as [Ha|]; cbn [negb]; [|done]. specialize (Hadv Ht). rewrite Hsk in Hadv.
  destruct (MAXARGS <=? S argc)%nat; [done|].
  apply safe_bind. eapply safe_mono; [apply parseredirs_safe; lia|]. intros rs s3 [H3 Hrs].
  apply safe_bind. eapply safe_mono; [apply IH; lia|]. intros [ws rs'] s4 [H4 Hws]. cbn [fst snd] in *.
  split; [lia|]. cbn [app fst snd]. constructor; [by apply Hw|]. unfold redir_words. rewrite map_app.
  apply Forall_app in Hws as [Hws1 Hws2]. apply Forall_app. split; [done|]. by apply Forall_app.
Qed.

Lemma parseback_safe k : forall s c, (s <= len)%nat -> (len - s < k)%nat -> Forall good (words c) ->
  safe (parseback buf k c) (fun c' s' => goes s (words c') s') s.
Proof.
  induction k as [|k IH]; intros s c Hs Hk Hc; [lia|]. cbn [parseback].
  apply safe_bind, peek_safe; [done|]. intros p s1 H1 Hsk Hp. destruct p; [|split; [lia|done]].
  destruct (Hp eq_refl) as [Hlt Hin]. apply safe_bind, (peeked_safe [38]); [done|done|done|].
  intros tok w s2 H2 _. eapply safe_mono; [apply IH; [lia|lia|done]|]. intros c' s3 [H3 Hc']. split; [lia|done].
Qed.

(** The four mutually recursive functions, with the fuel each needs at [s]. *)
Lemma parse_safe k : forall s, (s <= len)%nat ->
  ((4 * (len - s) + 4 <= k)%nat -> safe (parseline buf k) (fun c s' => goes s (words c) s') s) /\
  ((4 * (len - s) + 3 <= k)%nat -> safe (parsepipe buf k) (fun c s' => goes s (words c) s') s) /\
  ((4 * (len - s) + 2 <= k)%nat -> safe (parseexec buf k) (fun c s' => goes s (words c) s') s) /\
  ((4 * (len - s) + 1 <= k)%nat -> safe (parseblock buf k) (fun c s' => goes s (words c) s') s).
Proof.
  induction k as [|k IH]; intros s Hs; [split_and!; lia|]. split_and!; intros Hk.
  - cbn [parseline]. apply safe_bind. eapply safe_mono; [apply IH; lia|]. intros c s1 [H1 Hc].
    apply safe_bind. eapply safe_mono; [apply parseback_safe; [lia|lia|done]|]. intros c' s2 [H2 Hc'].
    apply safe_bind, peek_safe; [lia|]. intros p s3 H3 Hsk Hp. destruct p; [|split; [lia|done]].
    destruct (Hp eq_refl) as [Hlt Hin]. apply safe_bind, (peeked_safe [59]); [done|done|done|].
    intros tok w s4 H4 _. apply safe_bind. eapply safe_mono; [apply IH; lia|]. intros r s5 [H5 Hr].
    split; [lia|]. by apply Forall_app.
  - cbn [parsepipe]. apply safe_bind. eapply safe_mono; [apply IH; lia|]. intros c s1 [H1 Hc].
    apply safe_bind, peek_safe; [lia|]. intros p s3 H3 Hsk Hp. destruct p; [|split; [lia|done]].
    destruct (Hp eq_refl) as [Hlt Hin]. apply safe_bind, (peeked_safe [124]); [done|done|done|].
    intros tok w s4 H4 _. apply safe_bind. eapply safe_mono; [apply IH; lia|]. intros r s5 [H5 Hr].
    split; [lia|]. by apply Forall_app.
  - cbn [parseexec]. apply safe_bind, peek_safe; [lia|]. intros p s1 H1 Hsk _. destruct p.
    { eapply safe_mono; [apply IH; lia|]. intros c s2 [H2 Hc]. split; [lia|done]. }
    apply safe_bind. eapply safe_mono; [apply parseredirs_safe; lia|]. intros rs s2 [H2 Hrs].
    apply safe_bind. eapply safe_mono; [apply parse_words_safe; lia|]. intros [ws rs'] s3 [H3 Hws]. cbn [fst snd] in *.
    split; [lia|]. rewrite words_add_redirs. unfold redir_words. rewrite map_app.
    apply Forall_app in Hws as [Hw1 Hw2]. apply Forall_app. split; [done|]. by apply Forall_app.
  - cbn [parseblock]. apply safe_bind, peek_safe; [lia|]. intros p s1 H1 Hsk Hp. destruct p; cbn [negb]; [|done].
    destruct (Hp eq_refl) as [Hlt Hin]. apply safe_bind, (peeked_safe [40]); [done|done|done|].
    intros tok w s2 H2 _. apply safe_bind. eapply safe_mono; [apply IH; lia|]. intros c s3 [H3 Hc].
    apply safe_bind, peek_safe; [lia|]. intros p' s4 H4 Hsk' Hp'. destruct p'; cbn [negb]; [|done].
    destruct (Hp' eq_refl) as [Hlt' Hin']. apply safe_bind, (peeked_safe [41]); [done|done|done|].
    intros tok' w' s5 H5 _. apply safe_bind. eapply safe_mono; [apply parseredirs_safe; lia|]. intros rs s6 [H6 Hrs].
    split; [lia|]. rewrite words_add_redirs. by apply Forall_app.
Qed.

Lemma parsecmd_safe : safe (parsecmd buf) (fun c s' => s' = len /\ Forall good (words c)) 0%nat.
Proof.
  unfold parsecmd. apply safe_bind. eapply safe_mono; [apply parse_safe; unfold fuel; lia|]. intros c s1 [H1 Hc].
  apply safe_bind, peek_safe; [lia|]. intros p s2 H2 _ _. apply safe_bind. unfold safe at 1, get at 1.
  destruct (Nat.eqb_spec s2 len) as [->|]; done.
Qed.

(** ** The strings after nulterminate *)
Lemma nul_words_lookup ws i : forall b,
  nul_words ws b !! i = if decide (i ∈ w_eq <$> ws /\ (i < length b)%nat) then Some 0 else b !! i.
Proof.
  induction ws as [|w ws IH]; intros b; cbn [nul_words].
  { rewrite decide_False; [done|]. by intros [?%elem_of_nil _]. }
  rewrite IH, length_insert. cbn [fmap list_fmap]. destruct (decide (i = w_eq w)) as [->|Hne].
  - destruct (decide (w_eq w < length b)%nat) as [Hlt|Hge].
    + rewrite list_lookup_insert_eq by done. rewrite (decide_True (P := w_eq w ∈ w_eq w :: _ /\ _)) by (split; [left|done]).
      by destruct (decide _).
    + rewrite !decide_False by tauto. by rewrite list_insert_ge by lia.
  - rewrite list_lookup_insert_ne by done. apply decide_ext. rewrite elem_of_cons. tauto.
Qed.

Lemma nul_words_app ws ws' b : nul_words (ws ++ ws') b = nul_words ws' (nul_words ws b).
Proof. revert b. induction ws as [|w ws IH]; intros b; [done|]. cbn [app nul_words]. apply IH. Qed.

Lemma nulterminate_words c : forall b, nulterminate c b = nul_words (words c) b.
Proof.
  induction c as [argv|c IH f m d|l IHl r IHr|l IHl r IHr|c IH]; intros b; cbn [nulterminate words]; [done| | | |apply IH].
  - by rewrite IH, nul_words_app.
  - by rewrite IHr, IHl, nul_words_app.
  - by rewrite IHr, IHl, nul_words_app.
Qed.

Lemma c_string_app p r : 0 ∉ p -> (r = [] \/ head r = Some 0) -> c_string (p ++ r) = p.
Proof.
  intros Hp Hr. induction p as [|c p IH]; cbn [app c_string].
  - destruct r as [|x r]; [done|]. destruct Hr as [?|[= ->]]; done.
  - apply not_elem_of_cons in Hp as [Hc Hp]. destruct (Z.eqb_spec c 0); [congruence|]. by rewrite IH.
Qed.

(** The end of a word is not inside another one, so the nulls fall between words. *)
Lemma text_kept ws w : Forall good ws -> good w -> text (nul_words ws buf) w = text buf w.
Proof.
  intros Hws (Hw1 & Hw2 & _). unfold text. apply list_eq. intros j.
  destruct (decide (j < w_eq w - w_q w)%nat) as [Hj|Hj]; [|by rewrite !lookup_take_ge by lia].
  rewrite !lookup_take_lt, !lookup_drop, nul_words_lookup by lia. rewrite decide_False; [done|].
  intros [(v & Hv & Hin)%list_elem_of_fmap _]. rewrite Forall_forall in Hws. destruct (Hws v Hin) as (V1 & _ & V3).
  unfold es in *. destruct V3 as [V3|V3]; [lia|]. rewrite <- Hv, Hw2 in V3 by lia. done.
Qed.

Lemma word_string ws w : Forall good ws -> w ∈ ws ->
  c_string (drop (w_q w) (nul_words ws buf)) = text buf w /\ text buf w <> [].
Proof.
  intros Hws Hin. assert (Hw : good w) by (rewrite Forall_forall in Hws; by apply Hws).
  pose proof Hw as (W1 & W2 & _). split.
  - rewrite <- (text_kept ws w Hws Hw) at 1. rewrite <- (take_drop (w_eq w - w_q w) (drop (w_q w) (nul_words ws buf))).
    fold (text (nul_words ws buf) w). rewrite (text_kept ws w Hws Hw). apply c_string_app.
    + unfold text. intros (j & Hj & _)%elem_of_take. apply Hnul. rewrite lookup_drop in Hj.
      by apply list_elem_of_lookup_2 in Hj.
    + rewrite drop_drop. replace (w_q w + (w_eq w - w_q w))%nat with (w_eq w) by lia.
      destruct (decide (w_eq w < length buf)%nat) as [Hlt|Hge].
      * right. rewrite head_lookup, lookup_drop, Nat.add_0_r, nul_words_lookup, decide_True; [done|].
        split; [|done]. by apply (list_elem_of_fmap_2 w_eq).
      * left. apply drop_ge. rewrite <- (length_insert buf 0 0) in Hge.
        assert (Hlen : forall vs b, length (nul_words vs b) = length b).
        { induction vs as [|v vs IH]; intros b; [done|]. cbn [nul_words]. by rewrite IH, length_insert. }
        rewrite Hlen. rewrite length_insert in Hge. lia.
  - intros E. apply (f_equal length) in E. unfold text in E. rewrite length_take, length_drop in E.
    unfold es in *. simpl in E. lia.
Qed.
End Proofs.

(** C35.  Parsing a line ends: the parser returns a command that accounts for the
    whole line, or gives up with a message; it never loops.  After [nulterminate],
    every word of the command (argument or file name) is, as a C string, the
    characters of that word of the line, and none is empty. *)
Theorem parsecmd_correct buf (Hnul : 0 ∉ buf) :
  match parsecmd buf 0%nat with
  | Ret c s => s = length buf /\ forall w, w ∈ words c ->
      c_string (drop (w_q w) (nulterminate c buf)) = text buf w /\ text buf w <> []
  | Panic _ => True
  | Undef => False
  | Hang => False
  end.
Proof.
  pose proof (parsecmd_safe buf Hnul) as H. unfold safe in H.
  destruct (parsecmd buf 0%nat) as [c s| | |]; try done. destruct H as [-> Hc].
  split; [done|]. intros w Hw. rewrite nulterminate_words. by apply word_string.
Qed.

(** The line a>b|c: two words and a file name, with no space between them. *)
Definition demo_line : list Z := [97; 62; 98; 124; 99; 10].

Lemma parsecmd_correct_witness :
  exists c, parsecmd demo_line 0%nat = Ret c 6%nat /\
    map (fun w => c_string (drop (w_q w) (nulterminate c demo_line))) (words c) = [[97]; [98]; [99]].
Proof.
  assert (Hn : 0 ∉ demo_line) by (unfold demo_line; rewrite !elem_of_cons, elem_of_nil; lia).
  pose proof (parsecmd_correct demo_line Hn) as H.
  assert (E : parsecmd demo_line 0%nat = Ret (PIPE (REDIR (EXEC [mkWord 0 1]) (mkWord 2 3) 513 1) (EXEC [mkWord 4 5])) 6%nat)
    by (vm_compute; reflexivity).
  rewrite E in H. destruct H as [_ H]. eexists. split; [exact E|].
  cbn [words app map]. rewrite !(fun w Hw => proj1 (H w Hw)); [reflexivity|..]; cbn [words app]; rewrite !elem_of_cons; tauto.
Defined.
