(* ===== verification/User.v ===== *)
(** * User programs as interaction trees (user.h, usys.S, printf.c)

    A user program is an interaction tree whose events are the system calls of
    user.h, and those accesses to memory and ports that a test makes to see what
    happens: what it does next depends on what the kernel answers, and a loop that
    may not end is one of the tree.  [ok] is total correctness of such a program:
    whatever the kernel answers, the program ends, by returning or by exit, in a
    state that is as required.  A buffer that a call fills is part of its answer. *)

From stdpp Require Import base numbers list gmap strings.
From Stdlib Require Import ZArith Lia Ascii String.
From S2P Require Import Prelude Ulib Fs.
From ITree Require Import ITree.

Declare Scope prog_scope.
Delimit Scope prog_scope with prog.
Notation "x <- c ;; k" := (ITree.bind c (fun x => k))
  (at level 100, c at next level, right associativity) : prog_scope.
Notation "c ;; k" := (ITree.bind c (fun _ => k)) (at level 100, right associativity) : prog_scope.

Local Open Scope Z_scope.
Local Open Scope prog_scope.

(** ** The system calls *)
Inductive sysE : Type -> Type :=
| Fork : sysE Z
| Exit : sysE Empty_set
| Wait : sysE Z
| Pipe : sysE (Z * (Z * Z))
| Write (fd : Z) (b : list Z) : sysE Z
| Read (fd n : Z) : sysE (Z * list Z)
| Close (fd : Z) : sysE Z
| Kill (pid : Z) : sysE Z
| Exec (path : list Z) (argv : list (list Z)) : sysE Z
| Open (path : list Z) (mode : Z) : sysE Z
| Mknod (path : list Z) (major minor : Z) : sysE Z
| Unlink (path : list Z) : sysE Z
| Fstat (fd : Z) : sysE (Z * stat)
| Link (old new : list Z) : sysE Z
| Mkdir (path : list Z) : sysE Z
| Chdir (path : list Z) : sysE Z
| Dup (fd : Z) : sysE Z
| Getpid : sysE Z
| Sbrk (n : Z) : sysE Z
| Sleep (n : Z) : sysE Z
| Uptime : sysE Z
| Walkpt (va : Z) : sysE (Z * list Z)
(* calls that are given a bad address on purpose, and instructions that may trap *)
| ReadAt (fd p n : Z) : sysE Z
| LinkAt (old : list Z) (new : Z) : sysE Z
| SleepAt (esp : Z) : sysE Z
| Load (a n : Z) : sysE (list Z)
| Store (a : Z) (b : list Z) : sysE unit
| Inb (port : Z) : sysE Z
| Outb (port v : Z) : sysE unit.

Abbreviation prog := (itree sysE).

Definition exit {R} : prog R := Vis Exit (fun x : Empty_set => match x with end).
Definition fork : prog Z := ITree.trigger Fork.
Definition wait : prog Z := ITree.trigger Wait.
Definition pipe : prog (Z * (Z * Z)) := ITree.trigger Pipe.
Definition write (fd : Z) (b : list Z) : prog Z := ITree.trigger (Write fd b).
Definition read (fd n : Z) : prog (Z * list Z) := ITree.trigger (Read fd n).
Definition close (fd : Z) : prog Z := ITree.trigger (Close fd).
Definition kill (pid : Z) : prog Z := ITree.trigger (Kill pid).
Definition exec (path : list Z) (argv : list (list Z)) : prog Z := ITree.trigger (Exec path argv).
Definition open (path : list Z) (mode : Z) : prog Z := ITree.trigger (Open path mode).
Definition mknod (path : list Z) (major minor : Z) : prog Z := ITree.trigger (Mknod path major minor).
Definition unlink (path : list Z) : prog Z := ITree.trigger (Unlink path).
Definition fstat (fd : Z) : prog (Z * stat) := ITree.trigger (Fstat fd).
Definition link (old new : list Z) : prog Z := ITree.trigger (Link old new).
Definition mkdir (path : list Z) : prog Z := ITree.trigger (Mkdir path).
Definition chdir (path : list Z) : prog Z := ITree.trigger (Chdir path).
Definition dup (fd : Z) : prog Z := ITree.trigger (Dup fd).
Definition sleep (n : Z) : prog Z := ITree.trigger (Sleep n).
Definition getpid : prog Z := ITree.trigger Getpid.
Definition sbrk (n : Z) : prog Z := ITree.trigger (Sbrk n).
Definition walkpt (va : Z) : prog (Z * list Z) := ITree.trigger (Walkpt va).
Definition load (a n : Z) : prog (list Z) := ITree.trigger (Load a n).
Definition store (a : Z) (b : list Z) : prog unit := ITree.trigger (Store a b).

(** ** printf *)

(** The bytes of a string literal. *)
Definition chars (s : string) : list Z := map (fun c => Z.of_N (N_of_ascii c)) (list_ascii_of_string s).
Definition line (s : string) : list Z := chars s ++ [10].

Inductive arg := AInt (z : Z) | AStr (s : list Z).

(** The arguments as words on the stack: a string is a pointer, here its place
    among the arguments, from 1. *)
Definition arg_word (i : nat) (a : arg) : Z := match a with AInt z => z | AStr _ => Z.of_nat i + 1 end.
Definition arg_str (args : list arg) (p : Z) : list Z :=
  match args !! Z.to_nat (p - 1) with Some (AStr s) => s | _ => [] end.
Definition format (fmt : list Z) (args : list arg) : option (list Z) :=
  Ulib.printf (arg_str args) false fmt (imap arg_word args).

Definition putc (fd c : Z) : prog unit := write fd [c];; Ret tt.

Fixpoint put_chars (fd : Z) (o : list Z) : prog unit :=
  match o with [] => Ret tt | c :: o' => putc fd c;; put_chars fd o' end.

(** A call whose format asks for more than its arguments has no meaning. *)
Definition printf (fd : Z) (fmt : list Z) (args : list arg) : prog unit :=
  match format fmt args with Some o => put_chars fd o | None => ITree.spin end.

(** ** Total correctness *)
Section Logic.
Context {world : Type}.

(** What the kernel may answer to a call, and the state it leaves. *)
Context (os : forall X, world -> sysE X -> X -> world -> Prop).

Inductive ok {R} (Q : option R -> world -> Prop) (t : prog R) (w : world) : Prop :=
| ok_ret r : observe t = RetF r -> Q (Some r) w -> ok Q t w
| ok_tau t' : observe t = TauF t' -> ok Q t' w -> ok Q t w
| ok_exit k : observe t = VisF Exit k -> Q None w -> ok Q t w
| ok_call X (e : sysE X) k : observe t = VisF e k -> (exists a w', os X w e a w') ->
    (forall a w', os X w e a w' -> ok Q (k a) w') -> ok Q t w.

Lemma ok_observe {R} (Q : option R -> world -> Prop) t t' w : observe t = observe t' -> ok Q t w -> ok Q t' w.
Proof.
  intros E [r E1 H|t1 E1 H|k E1 H|X e k E1 H1 H2]; rewrite E in E1;
    [eapply ok_ret|eapply ok_tau|eapply ok_exit|eapply ok_call]; eauto.
Qed.

Lemma ok_mono {R} (P Q : option R -> world -> Prop) t w : ok P t w -> (forall o w', P o w' -> Q o w') -> ok Q t w.
Proof.
  intros H HPQ. induction H; [eapply ok_ret|eapply ok_tau|eapply ok_exit|eapply ok_call]; eauto.
Qed.

Lemma observe_bind {R S} (t : prog R) (k : R -> prog S) :
  observe (ITree.bind t k) = observe
  match observe t with
  | RetF r => k r
  | TauF t' => Tau (ITree.bind t' k)
  | VisF e h => Vis e (fun x => ITree.bind (h x) k)
  end.
Proof. reflexivity. Qed.

Lemma observe_bind_ret {R S} (t : prog R) (k : R -> prog S) r :
  observe t = RetF r -> observe (ITree.bind t k) = observe (k r).
Proof. intros E. by rewrite observe_bind, E. Qed.

Lemma observe_bind_tau {R S} (t : prog R) (k : R -> prog S) t' :
  observe t = TauF t' -> observe (ITree.bind t k) = TauF (ITree.bind t' k).
Proof. intros E. by rewrite observe_bind, E. Qed.

Lemma observe_bind_vis {R S X} (t : prog R) (k : R -> prog S) (e : sysE X) h :
  observe t = VisF e h -> observe (ITree.bind t k) = VisF e (fun x => ITree.bind (h x) k).
Proof. intros E. by rewrite observe_bind, E. Qed.

Lemma ok_bind {R S} (Q : option S -> world -> Prop) (t : prog R) (k : R -> prog S) w :
  ok (fun o w' => match o with Some r => ok Q (k r) w' | None => Q None w' end) t w -> ok Q (ITree.bind t k) w.
Proof.
  intros H. induction H as [t w r E H|t w t' E H IH|t w h E H|t w X e h E H1 H2 IH].
  - eapply ok_observe; [|exact H]. by rewrite (observe_bind_ret _ _ _ E).
  - eapply ok_tau; [by apply observe_bind_tau|done].
  - eapply ok_exit; [by apply observe_bind_vis|done].
  - eapply ok_call; [by apply observe_bind_vis|done|done].
Qed.

Lemma ok_Ret {R} (Q : option R -> world -> Prop) r w : Q (Some r) w -> ok Q (Ret r) w.
Proof. intros H. by eapply ok_ret. Qed.

Lemma ok_Exit {R} (Q : option R -> world -> Prop) w : Q None w -> ok Q exit w.
Proof. intros H. by eapply ok_exit. Qed.

Lemma ok_trigger {X} (Q : option X -> world -> Prop) (e : sysE X) w :
  (exists a w', os X w e a w') -> (forall a w', os X w e a w' -> Q (Some a) w') -> ok Q (ITree.trigger e) w.
Proof. intros H1 H2. eapply ok_call; [reflexivity|done|]. intros a w' H. by apply ok_Ret, H2. Qed.

(** One round of a loop. *)
Lemma ok_iter_round {I R} (Q : option R -> world -> Prop) (step : I -> prog (I + R)) i w :
  ok (fun o w' => match o with
     | Some (inl i') => ok Q (ITree.iter step i') w'
     | Some (inr r) => Q (Some r) w'
     | None => Q None w' end) (step i) w -> ok Q (ITree.iter step i) w.
Proof.
  intros H. eapply (ok_observe _ (ITree.bind (step i) (fun lr => match lr with inl l => Tau (ITree.iter step l) | inr r => Ret r end))); [reflexivity|].
  apply ok_bind. eapply ok_mono; [exact H|]. intros [[i'|r]|] w'; [|by apply ok_Ret|done]. intros H'. by eapply ok_tau.
Qed.

(** A loop, with an invariant and a measure. *)
Lemma ok_iter {I R} (Q : option R -> world -> Prop) (step : I -> prog (I + R)) (Inv : I -> world -> Prop)
    (m : I -> world -> nat) :
  (forall i w, Inv i w -> ok (fun o w' => match o with
     | Some (inl i') => Inv i' w' /\ (m i' w' < m i w)%nat
     | Some (inr r) => Q (Some r) w'
     | None => Q None w' end) (step i) w) ->
  forall i w, Inv i w -> ok Q (ITree.iter step i) w.
Proof.
  intros Hstep i w. remember (m i w) as n eqn:En. revert i w En. induction (lt_wf n) as [n _ IH]. intros i w -> Hi.
  apply ok_iter_round. eapply ok_mono; [by apply Hstep|]. intros [[i'|r]|] w'; [|done..].
  intros [Hi' Hm]. by eapply (IH (m i' w')).
Qed.
End Logic.
