(* ===== verification/Filters.v ===== *)
(** * cat, wc, echo and grep (cat.c, wc.c, echo.c, grep.c)

    The programs as trees of system calls, and what they write, whatever pieces
    their input comes in. *)

From stdpp Require Import base numbers list gmap strings.
From Stdlib Require Import ZArith Lia.
From S2P Require Import Prelude Ulib Grep Fs User.
From ITree Require Import ITree.

Local Open Scope Z_scope.
Local Open Scope prog_scope.

(** ** cat.c *)
Definition cat_step (fd : Z) : prog (unit + Z) :=
  r <- read fd 512;;
  let '(n, b) := r in
  if 0 <? n then
    (m <- write 1 b;;
     if negb (m =? n) then printf 1 (line "cat: write error") [];; exit else Ret (inl tt))
  else Ret (inr n).

Definition cat (fd : Z) : prog unit :=
  n <- ITree.iter (fun _ : unit => cat_step fd) tt;;
  if n <? 0 then printf 1 (line "cat: read error") [];; exit else Ret tt.

(** The loop of main over the files, the same in cat, wc and grep: [fmt] is the
    message of the program for a file that cannot be opened. *)
Fixpoint for_files (fmt : list Z) (body : Z -> list Z -> prog unit) (args : list (list Z)) : prog unit :=
  match args with
  | [] => exit
  | arg :: args' =>
      fd <- open arg 0;;
      if fd <? 0 then printf 1 fmt [AStr arg];; exit
      else body fd arg;; close fd;; for_files fmt body args'
  end.

Definition cat_main (argv : list (list Z)) : prog unit :=
  if (length argv <=? 1)%nat then cat 0;; exit
  else for_files (line "cat: cannot open %s") (fun fd _ => cat fd) (tail argv).

(** ** wc.c *)

(** l, w, c and inword. *)
Record counts := mkCounts { wc_l : Z; wc_w : Z; wc_c : Z; inword : bool }.

Definition wc_char (s : counts) (x : Z) : counts :=
  let c := wc_c s + 1 in
  let l := if x =? 10 then wc_l s + 1 else wc_l s in
  match strchr [32; 13; 9; 10; 11] x with
  | Some _ => mkCounts l (wc_w s) c false
  | None => if inword s then mkCounts l (wc_w s) c true else mkCounts l (wc_w s + 1) c true
  end.

Definition wc_step (fd : Z) (s : counts) : prog (counts + Z * counts) :=
  r <- read fd 512;;
  let '(n, b) := r in
  if 0 <? n then Ret (inl (foldl wc_char s b)) else Ret (inr (n, s)).

Definition wc (fd : Z) (name : list Z) : prog unit :=
  r <- ITree.iter (wc_step fd) (mkCounts 0 0 0 false);;
  let '(n, s) := r in
  if n <? 0 then printf 1 (line "wc: read error") [];; exit
  else printf 1 (line "%d %d %d %s") [AInt (wc_l s); AInt (wc_w s); AInt (wc_c s); AStr name].

Definition wc_main (argv : list (list Z)) : prog unit :=
  if (length argv <=? 1)%nat then wc 0 [];; exit
  else for_files (line "wc: cannot open %s") wc (tail argv).

(** ** echo.c *)
Fixpoint echo_args (args : list (list Z)) : prog unit :=
  match args with
  | [] => exit
  | arg :: args' =>
      printf 1 (chars "%s%s") [AStr arg; AStr (match args' with [] => [10] | _ => [32] end)];;
      echo_args args'
  end.

Definition echo_main (argv : list (list Z)) : prog unit := echo_args (tail argv).

(** ** grep.c *)

(** The inner loop from [p] on; the result is the new [p]. *)
Fixpoint grep_lines_prog (k : nat) (pattern p : list Z) : prog (list Z) :=
  match k with
  | O => Ret p
  | S k' =>
      match strchr_nl p with
      | None => Ret p
      | Some (l, q) =>
          (if match_ pattern l then write 1 (l ++ [NL]);; Ret tt else Ret tt);;
          grep_lines_prog k' pattern q
      end
  end.

(** One round of the outer loop; [buf] are the [m] bytes kept. *)
Definition grep_step (pattern : list Z) (fd : Z) (buf : list Z) : prog (list Z + unit) :=
  r <- read fd (1024 - Z.of_nat (length buf) - 1);;
  let '(n, b) := r in
  if 0 <? n then
    let buf' := (buf ++ b)%list in
    p <- grep_lines_prog (length buf') pattern buf';;
    Ret (inl (if (length p =? length buf')%nat then [] else p))
  else Ret (inr tt).

Definition grep_fd (pattern : list Z) (fd : Z) : prog unit := ITree.iter (grep_step pattern fd) [].

Definition grep_main (argv : list (list Z)) : prog unit :=
  match argv with
  | _ :: pattern :: args =>
      match args with
      | [] => grep_fd pattern 0;; exit
      | _ => for_files (line "grep: cannot open %s") (fun fd _ => grep_fd pattern fd) args
      end
  | _ => printf 2 (line "usage: grep pattern [file ...]") [];; exit
  end.

(** ** The files and descriptors that a filter sees

    A descriptor is an input, with what is still to be read, or an output.  A read
    returns some of what is left, at least one character: a file gives all that is
    asked for, a pipe or the console may give less.  [log] is what was written,
    with the descriptor, in order. *)
Inductive desc := In (rest : list Z) | Out.

Record world := mkWorld { files : list Z -> option (list Z); fds : gmap Z desc; log : list (Z * Z) }.

Definition set_fds (t : gmap Z desc) (w : world) : world := mkWorld (files w) t (log w).
Definition emit (fd : Z) (b : list Z) (w : world) : world := mkWorld (files w) (fds w) (log w ++ map (pair fd) b).

(** fdalloc: the lowest descriptor that is free. *)
Definition lowest {A} (t : gmap Z A) : option Z :=
  head (filter (fun fd => t !! fd = None) (seqZ 0 16)).

Definition files_os (X : Type) (w : world) (e : sysE X) : X -> world -> Prop :=
  match e in sysE X return X -> world -> Prop with
  | Read fd n => fun a w' =>
      match fds w !! fd with
      | Some (In rest) =>
          if is_nil rest || (n =? 0) then a = (0, []) /\ w' = w
          else exists k, (0 < k)%nat /\ Z.of_nat k <= n /\ (k <= length rest)%nat /\
                 a = (Z.of_nat k, take k rest) /\ w' = set_fds (<[fd := In (drop k rest)]> (fds w)) w
      | _ => a = (-1, []) /\ w' = w
      end
  | Write fd b => fun a w' =>
      match fds w !! fd with
      | Some Out => a = Z.of_nat (length b) /\ w' = emit fd b w
      | _ => a = -1 /\ w' = w
      end
  | Open path mode => fun a w' =>
      mode = 0 /\
      match files w path, lowest (fds w) with
      | Some c, Some fd => a = fd /\ w' = set_fds (<[fd := In c]> (fds w)) w
      | _, _ => a = -1 /\ w' = w
      end
  | Close fd => fun a w' =>
      match fds w !! fd with
      | Some _ => a = 0 /\ w' = set_fds (delete fd (fds w)) w
      | None => a = -1 /\ w' = w
      end
  | _ => fun _ _ => False
  end.

Abbreviation fok := (ok files_os).

Lemma read_ok (Q : option (Z * list Z) -> world -> Prop) fd n w rest : fds w !! fd = Some (In rest) -> 0 < n ->
  (rest = [] -> Q (Some (0, [])) w) ->
  (forall k, (0 < k <= length rest)%nat -> Z.of_nat k <= n ->
     Q (Some (Z.of_nat k, take k rest)) (set_fds (<[fd := In (drop k rest)]> (fds w)) w)) ->
  fok Q (read fd n) w.
Proof.
  intros Hfd Hn H0 H1. apply ok_trigger; cbn [files_os]; rewrite Hfd; rewrite (proj2 (Z.eqb_neq n 0)) by lia; rewrite orb_false_r;
    destruct rest as [|x rest]; cbn [is_nil].
  - eauto.
  - do 2 eexists. exists 1%nat. simpl. repeat split; lia.
  - intros a w' [-> ->]. by apply H0.
  - intros a w' (k & Hk1 & Hk2 & Hk3 & -> & ->). apply H1; lia.
Qed.

Lemma write_ok (Q : option Z -> world -> Prop) fd b w : fds w !! fd = Some Out ->
  Q (Some (Z.of_nat (length b))) (emit fd b w) -> fok Q (write fd b) w.
Proof. intros Hfd HQ. apply ok_trigger; cbn [files_os]; rewrite Hfd; [eauto|]. by intros a w' [-> ->]. Qed.

Lemma close_ok (Q : option Z -> world -> Prop) fd w d : fds w !! fd = Some d ->
  Q (Some 0) (set_fds (delete fd (fds w)) w) -> fok Q (close fd) w.
Proof. intros Hfd HQ. apply ok_trigger; cbn [files_os]; rewrite Hfd; [eauto|]. by intros a w' [-> ->]. Qed.

Lemma emit_emit fd b b' w : emit fd b' (emit fd b w) = emit fd (b ++ b') w.
Proof. unfold emit. cbn. by rewrite map_app, app_assoc. Qed.

Lemma emit_nil fd w : emit fd [] w = w.
Proof. unfold emit. cbn. rewrite app_nil_r. by destruct w. Qed.

Lemma put_chars_ok (Q : option unit -> world -> Prop) fd o : forall w, fds w !! fd = Some Out ->
  Q (Some tt) (emit fd o w) -> fok Q (put_chars fd o) w.
Proof.
  induction o as [|c o IH]; intros w Hfd HQ; cbn [put_chars].
  - apply ok_Ret. by rewrite emit_nil in HQ.
  - apply ok_bind. unfold putc. apply ok_bind, write_ok; [done|]. apply ok_Ret, IH; [done|]. by rewrite emit_emit.
Qed.

Lemma printf_ok (Q : option unit -> world -> Prop) fd fmt args o w : format fmt args = Some o -> fds w !! fd = Some Out ->
  Q (Some tt) (emit fd o w) -> fok Q (printf fd fmt args) w.
Proof. intros E Hfd HQ. unfold printf. rewrite E. by apply put_chars_ok. Qed.

Lemma lowest_free {A} (t : gmap Z A) fd : lowest t = Some fd -> t !! fd = None /\ 0 <= fd.
Proof.
  unfold lowest. intros E. assert (Hin : fd ∈ filter (fun fd => t !! fd = None) (seqZ 0 16)).
  { destruct (filter _ _); [done|]. injection E as ->. set_solver. }
  apply list_elem_of_filter in Hin as [H1 H2]. apply elem_of_seqZ in H2. split; [done|lia].
Qed.

(** open of a file to read, with the two ways it ends. *)
Lemma open_ok (Q : option Z -> world -> Prop) p w fd : lowest (fds w) = Some fd ->
  match files w p with
  | Some c => Q (Some fd) (set_fds (<[fd := In c]> (fds w)) w)
  | None => Q (Some (-1)) w
  end -> fok Q (open p 0) w.
Proof.
  intros Hfd HQ. apply ok_trigger; cbn [files_os]; rewrite Hfd; destruct (files w p) as [c|]; eauto.
  - by intros a w' (_ & -> & ->).
  - by intros a w' (_ & -> & ->).
Qed.

(** ** cat *)
Definition drained (fd : Z) (rest : list Z) (w : world) : world := set_fds (<[fd := In rest]> (fds w)) w.

Lemma drained_drained fd r r' w : drained fd r' (drained fd r w) = drained fd r' w.
Proof. unfold drained, set_fds. cbn. by rewrite insert_insert_eq. Qed.

Lemma emit_drained fd r b w : drained fd r (emit 1 b w) = emit 1 b (drained fd r w).
Proof. done. Qed.

Lemma drained_out fd r w d : fds w !! fd = Some (In d) -> fds w !! 1 = Some Out -> fds (drained fd r w) !! 1 = Some Out.
Proof. intros H1 H2. unfold drained. cbn. rewrite lookup_insert_ne; [done|]. intros ->. congruence. Qed.

Lemma cat_ok (Q : option unit -> world -> Prop) fd c w : fds w !! fd = Some (In c) -> fds w !! 1 = Some Out ->
  Q (Some tt) (emit 1 c (drained fd [] w)) -> fok Q (cat fd) w.
Proof.
  intros Hc H1 HQ. unfold cat. apply ok_bind.
  apply (ok_iter _ _ _ (fun _ w' => exists b rest, c = b ++ rest /\ w' = emit 1 b (drained fd rest w))
    (fun _ w' => match fds w' !! fd with Some (In rest) => length rest | _ => O end)).
  2:{ exists [], c. split; [done|]. rewrite emit_nil. unfold drained. rewrite insert_id by done. by destruct w. }
  intros _ w' (b & rest & -> & ->). unfold cat_step.
  assert (Hfd : fds (emit 1 b (drained fd rest w)) !! fd = Some (In rest)) by (cbn; apply lookup_insert_eq).
  apply ok_bind, (read_ok _ _ _ _ rest); [done|lia| |].
  - intros ->. cbn [Z.ltb Z.compare]. apply ok_Ret, ok_Ret. by rewrite app_nil_r in HQ.
  - intros k Hk Hk2. rewrite (proj2 (Z.ltb_lt 0 (Z.of_nat k))) by lia.
    apply ok_bind, write_ok; [by apply (drained_out fd (drop k rest) (emit 1 b (drained fd rest w)) rest), (drained_out _ _ _ _ Hc)|].
    rewrite length_take, Nat.min_l, Z.eqb_refl by lia. apply ok_Ret. rewrite Hfd. split.
    + exists (b ++ take k rest), (drop k rest). rewrite <- app_assoc, take_drop. split; [done|].
      rewrite <- emit_emit. f_equal. apply (drained_drained fd rest (drop k rest) (emit 1 b w)).
    + cbn. rewrite lookup_insert_eq, length_drop. lia.
Qed.

(** ** The loop over the files *)

(** [o] is what is written for [args], with [R] for the output of one file. *)
Fixpoint files_out (fs : list Z -> option (list Z)) (pre : list Z) (R : list Z -> list Z -> list Z -> Prop)
    (args : list (list Z)) (o : list Z) : Prop :=
  match args with
  | [] => o = []
  | p :: args' =>
      match fs p with
      | Some c => exists o1 o2, R p c o1 /\ files_out fs pre R args' o2 /\ o = o1 ++ o2
      | None => o = pre ++ p ++ [10]
      end
  end.

(** A program that reads [fd] to its end, if [P] holds of the characters there, and
    writes what [R] says. *)
Definition filters (P : list Z -> Prop) (R : list Z -> list Z -> list Z -> Prop) (body : Z -> list Z -> prog unit) : Prop :=
  forall (Q : option unit -> world -> Prop) fd p c w, P c -> fds w !! fd = Some (In c) -> fds w !! 1 = Some Out ->
    (forall o, R p c o -> Q (Some tt) (emit 1 o (drained fd [] w))) -> fok Q (body fd p) w.

(** A file is opened, read to its end and closed: only the output has changed. *)
Lemma reopened fd c w : fds w !! fd = None ->
  set_fds (delete fd (fds (drained fd [] (drained fd c w)))) (drained fd [] (drained fd c w)) = w.
Proof. intros H. unfold drained, set_fds. cbn. rewrite insert_insert_eq, delete_insert_id by done. by destruct w. Qed.

Lemma for_files_ok fmt pre P R body args : filters P R body ->
  (forall p, format fmt [AStr p] = Some (pre ++ p ++ [10])) ->
  forall w fd, (forall p c, files w p = Some c -> P c) -> fds w !! 1 = Some Out -> lowest (fds w) = Some fd ->
  fok (fun o w' => o = None /\ exists out, files_out (files w) pre R args out /\ w' = emit 1 out w) (for_files fmt body args) w.
Proof.
  intros Hbody Hfmt. induction args as [|p args IH]; intros w fd HP H1 Hlow; cbn [for_files files_out].
  - apply ok_Exit. split; [done|]. exists []. by rewrite emit_nil.
  - destruct (lowest_free _ _ Hlow) as [Hnone Hpos]. apply ok_bind, (open_ok _ _ _ fd Hlow).
    destruct (files w p) as [c|] eqn:Ep.
    + rewrite (proj2 (Z.ltb_ge fd 0)) by done. fold (drained fd c w).
      assert (Hout : fds (drained fd c w) !! 1 = Some Out) by (unfold drained; cbn; rewrite lookup_insert_ne; [done|congruence]).
      apply ok_bind, (Hbody _ _ _ c); [by eapply HP|cbn; apply lookup_insert_eq|done|]. intros o1 Ho1.
      apply ok_bind, (close_ok _ _ _ (In [])); [cbn; apply lookup_insert_eq|].
      change (set_fds _ _) with (emit 1 o1 (set_fds (delete fd (fds (drained fd [] (drained fd c w)))) (drained fd [] (drained fd c w)))).
      rewrite reopened by done. eapply ok_mono; [by apply (IH (emit 1 o1 w) fd)|].
      intros o w' (-> & o2 & Ho2 & ->). split; [done|]. exists (o1 ++ o2). rewrite emit_emit. eauto 10.
    + cbn [Z.ltb Z.compare]. apply ok_bind, (printf_ok _ _ _ _ _ _ (Hfmt p)); [done|]. apply ok_Exit. eauto.
Qed.

(** ** wc *)
Definition blank (x : Z) : bool := match strchr [32; 13; 9; 10; 11] x with Some _ => true | None => false end.

(** The words: the longest runs of characters that are not blank. *)
Fixpoint words (c : list Z) : list (list Z) :=
  match c with
  | [] => []
  | x :: c' =>
      if blank x then words c'
      else match c' with
           | y :: _ => if blank y then [x] :: words c'
                       else match words c' with r :: rs => (x :: r) :: rs | [] => [[x]] end
           | [] => [[x]]
           end
  end.

Definition newlines (c : list Z) : list Z := filter (fun x => x = 10) c.
Definition starts_word (c : list Z) : bool := match c with [] => false | x :: _ => negb (blank x) end.

Lemma words_nonempty c : starts_word c = true -> words c <> [].
Proof.
  destruct c as [|x c]; [done|]. cbn [starts_word words]. intros ->%negb_true_iff. destruct c as [|y c]; [done|].
  destruct (blank y); [done|]. by destruct (words (y :: c)).
Qed.

Lemma words_length x c : blank x = false ->
  Z.of_nat (length (words (x :: c))) = Z.of_nat (length (words c)) + (if starts_word c then 0 else 1).
Proof.
  intros Hx. cbn [words]. rewrite Hx. destruct c as [|y c]; [done|]. cbn [starts_word].
  pose proof (words_nonempty (y :: c)) as Hne. cbn [starts_word] in Hne. destruct (blank y); cbn [negb] in *; cbn [length].
  - lia.
  - specialize (Hne eq_refl). destruct (words (y :: c)); [done|]. cbn [length]. lia.
Qed.

Lemma wc_char_eq s x : wc_char s x =
  mkCounts (wc_l s + (if x =? 10 then 1 else 0))
    (wc_w s + (if blank x || inword s then 0 else 1)) (wc_c s + 1) (negb (blank x)).
Proof.
  unfold wc_char, blank. destruct (strchr [32; 13; 9; 10; 11] x), (x =? 10), (inword s); cbn; f_equal; lia.
Qed.

Lemma wc_counts c : forall s, exists e, foldl wc_char s c =
  mkCounts (wc_l s + Z.of_nat (length (newlines c)))
    (wc_w s + Z.of_nat (length (words c)) - (if inword s && starts_word c then 1 else 0))
    (wc_c s + Z.of_nat (length c)) e.
Proof.
  induction c as [|x c IH]; intros s.
  { exists (inword s). cbn. rewrite andb_false_r. destruct s. cbn. f_equal; lia. }
  destruct (IH (wc_char s x)) as (e & E). exists e. cbn [foldl]. rewrite E, wc_char_eq. cbn [wc_l wc_w wc_c inword length starts_word].
  unfold newlines at 2. rewrite filter_cons. fold (newlines c). f_equal; [| |lia].
  - destruct (Z.eqb_spec x 10); [rewrite decide_True by done; cbn [length]|rewrite decide_False by done]; lia.
  - destruct (blank x) eqn:Eb; cbn [negb orb andb].
    + cbn [words]. rewrite Eb, andb_false_r. lia.
    + rewrite words_length by done. rewrite andb_true_r. destruct (inword s), (starts_word c); lia.
Qed.

Definition decimal (z : Z) : list Z := default [] (printint z 10 true).

Lemma decimal_eq z : 0 <= z < 2147483648 -> printint (s32 z) 10 true = Some (decimal z).
Proof.
  intros Hz. rewrite s32_small by lia. destruct (printint_dec z ltac:(lia)) as (o & E & _). unfold decimal. by rewrite E.
Qed.

(** The line that wc prints for the characters [c]. *)
Definition wc_line (name c : list Z) : list Z :=
  decimal (Z.of_nat (length (newlines c))) ++ [32] ++ decimal (Z.of_nat (length (words c))) ++ [32] ++
  decimal (Z.of_nat (length c)) ++ [32] ++ name ++ [10].

Lemma words_le c : (length (words c) <= length c)%nat.
Proof.
  induction c as [|x c IH]; [done|]. destruct (blank x) eqn:Eb; [cbn [words]; rewrite Eb; cbn [length]; lia|].
  pose proof (words_length x c Eb). cbn [length] in *. destruct (starts_word c); lia.
Qed.

Lemma wc_format l w c name : 0 <= l < 2147483648 -> 0 <= w < 2147483648 -> 0 <= c < 2147483648 ->
  format (line "%d %d %d %s") [AInt l; AInt w; AInt c; AStr name] =
    Some (decimal l ++ [32] ++ decimal w ++ [32] ++ decimal c ++ [32] ++ name ++ [10]).
Proof.
  intros Hl Hw Hc. unfold format. change (line "%d %d %d %s") with [37; 100; 32; 37; 100; 32; 37; 100; 32; 37; 115; 10].
  cbn [imap arg_word]. cbn -[decimal s32 printint app]. rewrite (decimal_eq l), (decimal_eq w), (decimal_eq c) by done.
  cbn -[decimal app]. done.
Qed.

Lemma wc_ok : filters (fun c => Z.of_nat (length c) < 2147483648) (fun p c o => o = wc_line p c) wc.
Proof.
  intros Q fd p c w Hlen Hc H1 HQ. unfold wc. apply ok_bind.
  apply (ok_iter _ _ _ (fun s w' => exists b rest, c = b ++ rest /\ s = foldl wc_char (mkCounts 0 0 0 false) b /\ w' = drained fd rest w)
    (fun _ w' => match fds w' !! fd with Some (In rest) => length rest | _ => O end)).
  2:{ exists [], c. split; [done|]. split; [done|]. unfold drained. rewrite insert_id by done. by destruct w. }
  intros s w' (b & rest & -> & -> & ->). unfold wc_step.
  assert (Hfd : fds (drained fd rest w) !! fd = Some (In rest)) by (cbn; apply lookup_insert_eq).
  apply ok_bind, (read_ok _ _ _ _ rest); [done|lia| |].
  - intros ->. cbn [Z.ltb Z.compare]. apply ok_Ret. rewrite app_nil_r in *.
    destruct (wc_counts b (mkCounts 0 0 0 false)) as (e & ->). cbn [wc_l wc_w wc_c inword andb].
    assert (length (newlines b) <= length b)%nat by apply length_filter. pose proof (words_le b).
    eapply printf_ok; [apply wc_format; lia|by apply (drained_out _ _ _ _ Hc)|]. apply HQ. unfold wc_line. by rewrite !Z.add_0_l, Z.sub_0_r.
  - intros k Hk Hk2. rewrite (proj2 (Z.ltb_lt 0 (Z.of_nat k))) by lia. apply ok_Ret. rewrite Hfd. split.
    + exists (b ++ take k rest), (drop k rest). rewrite <- app_assoc, take_drop, foldl_app. split; [done|]. split; [done|].
      apply (drained_drained fd rest (drop k rest) w).
    + cbn. rewrite lookup_insert_eq, length_drop. lia.
Qed.

Lemma cat_filters : filters (fun _ => True) (fun _ c o => o = c) (fun fd _ => cat fd).
Proof. intros Q fd p c w _ Hc H1 HQ. by apply (cat_ok _ _ c), HQ. Qed.

(** ** grep *)
Lemma grep_lines_ok (Q : option (list Z) -> world -> Prop) pattern k : forall p w, fds w !! 1 = Some Out ->
  Q (Some (snd (grep_lines k pattern p))) (emit 1 (fst (grep_lines k pattern p)) w) ->
  fok Q (grep_lines_prog k pattern p) w.
Proof.
  induction k as [|k IH]; intros p w H1 HQ; cbn [grep_lines_prog grep_lines] in *; [apply ok_Ret; by rewrite emit_nil in HQ|].
  destruct (strchr_nl p) as [[l q]|]; [|apply ok_Ret; by rewrite emit_nil in HQ]. cbn [fst snd] in HQ. apply ok_bind.
  destruct (match_ pattern l).
  - apply ok_bind, write_ok; [done|]. apply ok_Ret, IH; [done|]. by rewrite emit_emit.
  - by apply ok_Ret, IH.
Qed.

(** What is kept is at most what was there, and less than it when a line was found. *)
Lemma grep_lines_short pattern k : forall p, (length (snd (grep_lines k pattern p)) <= length p)%nat.
Proof.
  assert (Hnl : forall p l q, strchr_nl p = Some (l, q) -> (length q < length p)%nat).
  { induction p as [|c p IH]; intros l q; cbn [strchr_nl]; [done|]. destruct (c =? 0); [done|].
    destruct (c =? NL); [intros [= <- <-]; cbn; lia|]. destruct (strchr_nl p) as [[l' q']|]; [|done].
    intros [= <- <-]. specialize (IH _ _ eq_refl). cbn. lia. }
  induction k as [|k IH]; intros p; cbn [grep_lines]; [done|]. destruct (strchr_nl p) as [[l q]|] eqn:E; [|done].
  cbn [snd]. specialize (IH q). specialize (Hnl _ _ _ E). lia.
Qed.

(** The pieces that the reads return, none of them empty. *)
Definition grep_out (pattern c o : list Z) : Prop :=
  exists chunks, concat chunks = c /\ Forall (fun b => b <> []) chunks /\ o = grep pattern [] chunks.

Lemma grep_ok pattern : filters (fun _ => True) (fun _ => grep_out pattern) (fun fd _ => grep_fd pattern fd).
Proof.
  intros Q fd p c w _ Hc H1 HQ. unfold grep_fd.
  apply (ok_iter _ _ _ (fun buf w' => exists chunks o rest, c = concat chunks ++ rest /\ Forall (fun b => b <> []) chunks /\
      (forall more, grep pattern [] (chunks ++ more) = o ++ grep pattern buf more) /\ (length buf <= 1022)%nat /\
      w' = emit 1 o (drained fd rest w))
    (fun _ w' => match fds w' !! fd with Some (In rest) => length rest | _ => O end)).
  2:{ exists [], [], c. do 3 (split; [done|]). split; [cbn; lia|]. rewrite emit_nil. unfold drained. rewrite insert_id by done. by destruct w. }
  intros buf w' (chunks & o & rest & -> & Hne & Hg & Hb & ->). unfold grep_step.
  assert (Hfd : fds (emit 1 o (drained fd rest w)) !! fd = Some (In rest)) by (cbn; apply lookup_insert_eq).
  apply ok_bind, (read_ok _ _ _ _ rest); [done|lia| |].
  - intros ->. cbn [Z.ltb Z.compare]. apply ok_Ret, HQ. exists chunks. rewrite app_nil_r. split; [done|]. split; [done|].
    specialize (Hg []). by rewrite !app_nil_r in Hg.
  - intros k Hk Hk2. rewrite (proj2 (Z.ltb_lt 0 (Z.of_nat k))) by lia. apply ok_bind.
    apply grep_lines_ok; [by apply (drained_out fd (drop k rest) (emit 1 o (drained fd rest w)) rest), (drained_out _ _ _ _ Hc)|].
    apply ok_Ret. rewrite Hfd. set (buf' := buf ++ take k rest).
    assert (Hk' : (length (take k rest) = k)%nat) by (rewrite length_take; lia).
    split; [|cbn; rewrite lookup_insert_eq, length_drop; lia].
    exists (chunks ++ [take k rest]), (o ++ fst (grep_lines (length buf') pattern buf')), (drop k rest).
    rewrite concat_app. cbn [concat]. rewrite app_nil_r, <- app_assoc, take_drop. split; [done|]. split; [|split; [|split]].
    + apply Forall_app. split; [done|]. repeat constructor. intros E. rewrite E in Hk'. cbn in Hk'. lia.
    + intros more. rewrite <- app_assoc, Hg. cbn [app grep]. rewrite <- app_assoc. f_equal.
      destruct (take k rest) as [|x b] eqn:Ek; [cbn in Hk'; lia|]. fold buf'. by destruct (grep_lines (length buf') pattern buf').
    + pose proof (grep_lines_short pattern (length buf') buf') as Hs.
      assert (length buf' <= 1023)%nat by (unfold buf'; rewrite length_app; lia).
      destruct (Nat.eqb_spec (length (snd (grep_lines (length buf') pattern buf'))) (length buf')); [cbn; lia|lia].
    + rewrite <- emit_emit. f_equal. apply (drained_drained fd rest (drop k rest) (emit 1 o w)).
Qed.

(** ** The programs *)

(** [p] ends by exit and has written [out] to its output for some [out] that is as
    required; the descriptors and the files are as before. *)
Definition writes (p : prog unit) (R : list Z -> Prop) (w : world) : Prop :=
  fok (fun o w' => o = None /\ exists out, R out /\ w' = emit 1 out w) p w.

(** C25.  cat, wc and grep.  For any files, none of 2 GB or more, and however the
    reads cut them into pieces, the programs end, with every file closed again, and
    have written for their arguments in order: cat the contents; wc the numbers of
    newlines, of words (the longest runs of characters that are not blank) and of
    characters, and the name; grep what its loop makes of some pieces of the
    contents.  At the first name that is not a file they stop with the message. *)
Theorem filters_correct (w : world) (fd : Z) (me pattern : list Z) (args : list (list Z)) :
  fds w !! 1 = Some Out -> lowest (fds w) = Some fd -> args <> [] ->
  (forall p c, files w p = Some c -> Z.of_nat (length c) < 2147483648) ->
  writes (cat_main (me :: args)) (files_out (files w) (chars "cat: cannot open ") (fun _ c o => o = c) args) w /\
  writes (wc_main (me :: args)) (files_out (files w) (chars "wc: cannot open ") (fun p c o => o = wc_line p c) args) w /\
  writes (grep_main (me :: pattern :: args))
    (files_out (files w) (chars "grep: cannot open ") (fun _ => grep_out pattern) args) w.
Proof.
  intros H1 Hlow Hargs Hsmall. destruct args as [|arg args]; [done|]. unfold cat_main, wc_main, grep_main, writes. cbn [length Nat.leb tail].
  split; [|split].
  - by apply (for_files_ok _ _ _ _ _ _ cat_filters) with (fd := fd).
  - by apply (for_files_ok _ _ _ _ _ _ wc_ok) with (fd := fd).
  - by apply (for_files_ok _ _ _ _ _ _ (grep_ok pattern)) with (fd := fd).
Qed.

(** Without arguments they read descriptor 0. *)
Lemma filters_stdin w me pattern c : fds w !! 1 = Some Out -> fds w !! 0 = Some (In c) ->
  Z.of_nat (length c) < 2147483648 ->
  fok (fun o w' => o = None /\ w' = emit 1 c (drained 0 [] w)) (cat_main [me]) w /\
  fok (fun o w' => o = None /\ w' = emit 1 (wc_line [] c) (drained 0 [] w)) (wc_main [me]) w /\
  fok (fun o w' => o = None /\ exists out, grep_out pattern c out /\ w' = emit 1 out (drained 0 [] w)) (grep_main [me; pattern]) w.
Proof.
  intros H1 H0 Hlen. unfold cat_main, wc_main, grep_main. cbn [length Nat.leb]. split; [|split]; apply ok_bind.
  - apply (cat_filters _ _ [] c); [done|done|done|]. intros o ->. by apply ok_Exit.
  - apply (wc_ok _ _ [] c); [done|done|done|]. intros o ->. by apply ok_Exit.
  - apply (grep_ok pattern _ _ [] c); [done|done|done|]. intros o Ho. apply ok_Exit. eauto.
Qed.

(** echo writes its arguments with spaces between them and a newline. *)
Fixpoint echo_out (args : list (list Z)) : list Z :=
  match args with
  | [] => []
  | arg :: args' => arg ++ (match args' with [] => [10] | _ => [32] end) ++ echo_out args'
  end.

Lemma echo_correct args : forall w, fds w !! 1 = Some Out ->
  fok (fun o w' => o = None /\ w' = emit 1 (echo_out args) w) (echo_args args) w.
Proof.
  induction args as [|arg args IH]; intros w H1; cbn [echo_args echo_out].
  - apply ok_Exit. by rewrite emit_nil.
  - set (sep := match args with [] => [10] | _ => [32] end).
    apply ok_bind, (printf_ok _ _ _ _ (arg ++ sep)); [unfold format; cbn; by rewrite app_nil_r|done|].
    eapply ok_mono; [by apply IH|]. intros o w' [-> ->]. by rewrite emit_emit, <- app_assoc.
Qed.

(** Files a, with the line ab, and b, with the words c and d: the third file is not
    there. *)
Definition demo_world : world :=
  mkWorld (fun p => if decide (p = [97]) then Some [97; 98; 10] else if decide (p = [98]) then Some [99; 32; 100] else None)
    {[ 0 := In []; 1 := Out; 2 := Out ]} [].

Lemma filters_correct_witness :
  writes (wc_main [[119]; [97]; [98]; [99]]) (fun out =>
    out = chars "1 1 3 a" ++ [10] ++ chars "0 2 3 b" ++ [10] ++ chars "wc: cannot open c" ++ [10]) demo_world.
Proof.
  assert (Hs : forall p c, files demo_world p = Some c -> Z.of_nat (length c) < 2147483648).
  { intros p c. cbn. repeat case_decide; intros [= <-]; cbn; lia. }
  destruct (filters_correct demo_world 3 [119] [97] [[97]; [98]; [99]] ltac:(reflexivity) ltac:(reflexivity) ltac:(discriminate) Hs)
    as (_ & Hwc & _).
  eapply ok_mono; [exact Hwc|]. intros o w' (Ho & out & Hout & Hw). split; [exact Ho|]. exists out. split; [|exact Hw].
  vm_compute in Hout. destruct Hout as (o1 & o2 & H1 & (o3 & o4 & H2 & H3 & H4) & H5). subst. reflexivity.
Defined.
