(* ===== verification/ShRun.v ===== *)
(** * Running commands (sh.c)

    [runcmd] and [main] of the shell as trees of system calls, and a kernel for
    them: descriptor tables that are private to a process and copied by fork, pipes,
    the console input.  A child runs to its end before its parent goes on; the
    tables are private, so that another order changes no table.  Any call that can
    fail may fail, as a list of answers says. *)

From stdpp Require Import base numbers list gmap strings.
From Stdlib Require Import ZArith Lia.
From S2P Require Import Prelude Ulib Fs Sysfile Sh User Filters.
From ITree Require Import ITree.

Local Open Scope Z_scope.
Local Open Scope prog_scope.

(** ** sh.c *)
Definition sh_panic {R} (s : list Z) : prog R := printf 2 (line "%s") [AStr s];; exit.

Definition fork1 : prog Z :=
  pid <- fork;;
  if pid =? -1 then sh_panic (chars "fork") else Ret pid.

(** The string at a word of the line, which [nulterminate] has ended. *)
Definition word_str (buf : list Z) (w : word) : list Z := c_string (drop (w_q w) buf).

Fixpoint runcmd (buf : list Z) (c : cmd) : prog unit :=
  match c with
  | EXEC argv =>
      match argv with
      | [] => exit
      | w :: _ =>
          exec (word_str buf w) (map (word_str buf) argv);;
          printf 2 (line "exec %s failed") [AStr (word_str buf w)];;
          exit
      end
  | REDIR c' file mode fd =>
      close fd;;
      r <- open (word_str buf file) mode;;
      if r <? 0 then printf 2 (line "open %s failed") [AStr (word_str buf file)];; exit
      else runcmd buf c';; exit
  | LIST lc rc =>
      pid <- fork1;;
      (if pid =? 0 then runcmd buf lc else Ret tt);;
      wait;;
      runcmd buf rc;;
      exit
  | PIPE lc rc =>
      r <- pipe;;
      let '(r, (p0, p1)) := r in
      (if r <? 0 then sh_panic (chars "pipe") else Ret tt);;
      pid <- fork1;;
      (if pid =? 0 then close 1;; dup p1;; close p0;; close p1;; runcmd buf lc else Ret tt);;
      pid <- fork1;;
      (if pid =? 0 then close 0;; dup p0;; close p0;; close p1;; runcmd buf rc else Ret tt);;
      close p0;;
      close p1;;
      wait;;
      wait;;
      exit
  | BACK c' =>
      pid <- fork1;;
      (if pid =? 0 then runcmd buf c' else Ret tt);;
      exit
  end.

(** gets(buf, max) with [k] for max - 1: the characters read. *)
Fixpoint gets_prog (k : nat) : prog (list Z) :=
  match k with
  | O => Ret []
  | S k' =>
      r <- read 0 1;;
      let '(cc, b) := r in
      if cc <? 1 then Ret []
      else
        let c := default 0 (head b) in
        if (c =? 10) || (c =? 13) then Ret [c] else rest <- gets_prog k';; Ret (c :: rest)
  end.

(** The result and the string in buf, which was cleared. *)
Definition getcmd (nbuf : Z) : prog (Z * list Z) :=
  printf 2 (chars "$ ") [];;
  l <- gets_prog (Z.to_nat (nbuf - 1));;
  let buf := c_string l in
  match buf with [] => Ret (-1, buf) | _ => Ret (0, buf) end.

(** The parser up to the test for what is left over. *)
Definition parse (buf : list Z) : outcome nat cmd :=
  Prelude.bind (parseline buf (fuel buf)) (fun c => Prelude.bind (peek buf []) (fun _ => Prelude.ret c)) 0%nat.

(** parsecmd, with its message about what is left of the line. *)
Definition parsecmd_prog (buf : list Z) : prog (cmd * list Z) :=
  match parse buf with
  | Prelude.Ret c s =>
      if (s =? length buf)%nat then Ret (c, nulterminate c buf)
      else printf 2 (line "leftovers: %s") [AStr (drop s buf)];; sh_panic (chars "syntax")
  | Panic msg => sh_panic (chars msg)
  | Undef => ITree.spin
  | Hang => ITree.spin
  end.

(** The loop that opens descriptors up to 2. *)
Definition open_console : prog unit :=
  ITree.iter (fun _ : unit =>
    fd <- open (chars "console") O_RDWR;;
    if fd >=? 0 then if fd >=? 3 then close fd;; Ret (inr tt) else Ret (inl tt) else Ret (inr tt)) tt.

Definition is_cd (buf : list Z) : bool := bool_decide (take 3 buf = [99; 100; 32]).

(** One round of the loop over the lines; [inr] ends it. *)
Definition sh_step : prog (unit + unit) :=
  r <- getcmd 100;;
  let '(r, buf) := r in
  if r >=? 0 then
    if is_cd buf then
      let buf := removelast buf in
      r <- chdir (drop 3 buf);;
      ((if r <? 0 then printf 2 (line "cannot cd %s") [AStr (drop 3 buf)] else Ret tt);; Ret (inl tt))
    else
      pid <- fork1;;
      (if pid =? 0 then r <- parsecmd_prog buf;; let '(c, buf') := r in runcmd buf' c else Ret tt);;
      wait;;
      Ret (inl tt)
  else Ret (inr tt).

Definition sh_main : prog unit :=
  open_console;;
  ITree.iter (fun _ : unit => sh_step) tt;;
  exit.

(** ** A kernel for the shell *)

(** What a descriptor stands for. *)
Inductive ofile := Console | FileAt (path : list Z) (mode : Z) | PipeR (id : nat) | PipeW (id : nat).

Abbreviation fdtab := (gmap Z ofile).

(** A process: its descriptors and the children it has not waited for. *)
Record proc := mkProc { p_fds : fdtab; p_kids : list Z }.

(** The programs that were started, with their descriptors, and the changes of
    directory. *)
Inductive event := EvExec (path : list Z) (argv : list (list Z)) (t : fdtab) | EvChdir (path : list Z).

(** What the processes share: fresh names for pipes and processes, the input of the
    console, which of the next calls that may fail do, and the events. *)
Record glob := mkGlob { g_pipe : nat; g_pid : Z; g_input : list Z; g_fails : list bool; g_log : list event }.

Definition fails (g : glob) : bool := default false (head (g_fails g)).
Definition tick (g : glob) : glob := mkGlob (g_pipe g) (g_pid g) (g_input g) (tail (g_fails g)) (g_log g).
Definition add_event (e : event) (g : glob) : glob := mkGlob (g_pipe g) (g_pid g) (g_input g) (g_fails g) (g_log g ++ [e]).
Definition new_pid (g : glob) : glob := mkGlob (g_pipe g) (g_pid g + 1) (g_input g) (g_fails g) (g_log g).
Definition new_pipe (g : glob) : glob := mkGlob (S (g_pipe g)) (g_pid g) (g_input g) (g_fails g) (g_log g).
Definition set_input (l : list Z) (g : glob) : glob := mkGlob (g_pipe g) (g_pid g) l (g_fails g) (g_log g).
Definition set_tab (t : fdtab) (p : proc) : proc := mkProc t (p_kids p).

Definition install (f : ofile) (p : proc) : option (Z * proc) :=
  match lowest (p_fds p) with Some fd => Some (fd, set_tab (<[fd := f]> (p_fds p)) p) | None => None end.

(** The calls that concern one process only. *)
Definition sys {X} (e : sysE X) (p : proc) (g : glob) : option (X * proc * glob) :=
  match e in sysE X return option (X * proc * glob) with
  | Wait =>
      match p_kids p with
      | [] => Some (-1, p, g)
      | pid :: kids => Some (pid, mkProc (p_fds p) kids, g)
      end
  | Pipe =>
      if fails g then Some ((-1, (0, 0)), p, tick g)
      else match install (PipeR (g_pipe g)) p with
           | Some (r, p1) =>
               match install (PipeW (g_pipe g)) p1 with
               | Some (w, p2) => Some ((0, (r, w)), p2, new_pipe (tick g))
               | None => Some ((-1, (0, 0)), p, tick g)
               end
           | None => Some ((-1, (0, 0)), p, tick g)
           end
  | Write fd b => Some (match p_fds p !! fd with Some _ => Z.of_nat (length b) | None => -1 end, p, g)
  | Read fd n =>
      match p_fds p !! fd with
      | Some Console =>
          let k := Z.to_nat n in
          Some ((Z.of_nat (length (take k (g_input g))), take k (g_input g)), p, set_input (drop k (g_input g)) g)
      | Some _ => None
      | None => Some ((-1, []), p, g)
      end
  | Close fd =>
      match p_fds p !! fd with
      | Some _ => Some (0, set_tab (delete fd (p_fds p)) p, g)
      | None => Some (-1, p, g)
      end
  | Open path mode =>
      if fails g then Some (-1, p, tick g)
      else match install (if bool_decide (path = chars "console") then Console else FileAt path mode) p with
           | Some (fd, p') => Some (fd, p', tick g)
           | None => Some (-1, p, tick g)
           end
  | Dup fd =>
      match p_fds p !! fd with
      | Some f => match install f p with Some (fd', p') => Some (fd', p', g) | None => Some (-1, p, g) end
      | None => Some (-1, p, g)
      end
  | Chdir path => if fails g then Some (-1, p, tick g) else Some (0, p, add_event (EvChdir path) (tick g))
  | _ => None
  end.

(** A process and the processes it starts.  exec returns only when it fails; the
    program it starts is not followed. *)
Fixpoint run {R} (k : nat) (t : prog R) (p : proc) (g : glob) : option (option (R * proc) * glob) :=
  match k with
  | O => None
  | S k' =>
      match observe t with
      | RetF r => Some (Some (r, p), g)
      | TauF t' => run k' t' p g
      | VisF e h =>
          match e in sysE X return (X -> prog R) -> option (option (R * proc) * glob) with
          | Exit => fun _ => Some (None, g)
          | Fork => fun h =>
              if fails g then run k' (h (-1)) p (tick g)
              else
                match run k' (h 0) (mkProc (p_fds p) []) (new_pid (tick g)) with
                | Some (None, g1) => run k' (h (g_pid g)) (mkProc (p_fds p) (p_kids p ++ [g_pid g])) g1
                | _ => None
                end
          | Exec path argv => fun h =>
              let g' := add_event (EvExec path argv (p_fds p)) (tick g) in
              if fails g then run k' (h (-1)) p g' else Some (None, g')
          | e => fun h =>
              match sys e p g with Some (x, p', g') => run k' (h x) p' g' | None => None end
          end h
      end
  end.

(** ** Rules *)

(** The case of a call of [sys]. *)
Ltac case_sys := match goal with H : context [sys ?e ?p ?g] |- _ => destruct (sys e p g) as [[[? ?] ?]|]; [|done] end.

Lemma run_observe {R} k (t t' : prog R) p g : observe t = observe t' -> run k t p g = run k t' p g.
Proof. intros E. destruct k; [done|]. cbn [run]. by rewrite E. Qed.

Lemma run_more {R} k : forall (t : prog R) p g res, run k t p g = Some res -> run (S k) t p g = Some res.
Proof.
  induction k as [|k IH]; intros t p g res H; [done|]. remember (S k) as k1. cbn [run]. rewrite Heqk1 in H. cbn [run] in H.
  destruct (observe t) as [r|t'|X e h]; [done|by subst k1; apply IH|]. subst k1.
  destruct e; cbv beta iota in H |- *; try (case_sys; by apply IH); [|done|].
  - destruct (fails g); [by apply IH|].
    destruct (run k (h 0) _ _) as [[[?|] g1]|] eqn:E; [done| |done]. apply IH in E. rewrite E. by apply IH.
  - destruct (fails g); [by apply IH|done].
Qed.

Lemma run_mono {R} j k (t : prog R) p g res : (j <= k)%nat -> run j t p g = Some res -> run k t p g = Some res.
Proof. intros Hle H. induction Hle as [|k Hle IH]; [done|]. by apply run_more. Qed.

(** A process that exits does so whatever would follow. *)
Lemma run_bind_exit {R T} (K : R -> prog T) k : forall (t : prog R) p g g',
  run k t p g = Some (None, g') -> run k (ITree.bind t K) p g = Some (None, g').
Proof.
  induction k as [|k IH]; intros t p g g' H; [done|]. cbn [run] in *.
  destruct (observe t) as [r|t'|X e h] eqn:Et; [done|rewrite (observe_bind_tau _ _ _ Et); by apply IH|].
  rewrite (observe_bind_vis _ _ _ _ Et). destruct e; cbv beta iota in H |- *; try (case_sys; by apply IH); [|by injection H as ->|].
  - destruct (fails g); [by apply IH|].
    destruct (run k (h 0) _ _) as [[[?|] g1]|] eqn:E; [done| |done]. apply IH in E. rewrite E. by apply IH.
  - destruct (fails g); [by apply IH|by injection H as ->].
Qed.

Lemma run_bind {R T} (K : R -> prog T) j res k : forall (t : prog R) p g r p1 g1,
  run k t p g = Some (Some (r, p1), g1) -> run j (K r) p1 g1 = Some res -> run (k + j) (ITree.bind t K) p g = Some res.
Proof.
  induction k as [|k IH]; intros t p g r p1 g1 H HK; [done|]. cbn [run Nat.add] in *.
  destruct (observe t) as [r'|t'|X e h] eqn:Et.
  - rewrite (observe_bind_ret _ _ _ Et). injection H as -> -> ->. change (run (S (k + j)%nat) (K r) p1 g1 = Some res). eapply run_mono; [|exact HK]. lia.
  - rewrite (observe_bind_tau _ _ _ Et). by eapply IH.
  - rewrite (observe_bind_vis _ _ _ _ Et). destruct e; cbv beta iota in H |- *; try (case_sys; by eapply IH); [|done|].
    + destruct (fails g); [by eapply IH|].
      destruct (run k (h 0) _ _) as [[[?|] g2]|] eqn:E; [done| |done].
      apply (run_bind_exit K) in E. eapply (run_mono k (k + j)) in E; [|lia]. rewrite E. by eapply IH.
    + destruct (fails g); [by eapply IH|done].
Qed.

(** [t] ends, with a result and a state as [Q] requires; [None] when it exits. *)
Definition rwp {R} (t : prog R) (Q : option (R * proc) -> glob -> Prop) (p : proc) (g : glob) : Prop :=
  exists k o g', run k t p g = Some (o, g') /\ Q o g'.

Lemma rwp_mono {R} (t : prog R) (P Q : option (R * proc) -> glob -> Prop) p g :
  rwp t P p g -> (forall o g', P o g' -> Q o g') -> rwp t Q p g.
Proof. intros (k & o & g' & E & H) HPQ. exists k, o, g'. auto. Qed.

Lemma rwp_ret {R} (r : R) (Q : option (R * proc) -> glob -> Prop) p g : Q (Some (r, p)) g -> rwp (Ret r) Q p g.
Proof. intros H. by exists 1%nat, (Some (r, p)), g. Qed.

Lemma rwp_exit {R} (Q : option (R * proc) -> glob -> Prop) p g : Q None g -> rwp exit Q p g.
Proof. intros H. by exists 1%nat, None, g. Qed.

Lemma rwp_bind {R T} (t : prog R) (K : R -> prog T) (Q : option (T * proc) -> glob -> Prop) p g :
  rwp t (fun o g1 => match o with Some (r, p1) => rwp (K r) Q p1 g1 | None => Q None g1 end) p g ->
  rwp (ITree.bind t K) Q p g.
Proof.
  intros (k & [[r p1]|] & g1 & E & H).
  - destruct H as (j & o & g' & E' & HQ). exists (k + j)%nat, o, g'. split; [|done]. by eapply run_bind.
  - exists k, None, g1. split; [|done]. by apply run_bind_exit.
Qed.

Lemma rwp_sys {X} (e : sysE X) (Q : option (X * proc) -> glob -> Prop) p g x p' g' :
  sys e p g = Some (x, p', g') -> Q (Some (x, p')) g' -> rwp (ITree.trigger e) Q p g.
Proof.
  intros E HQ. exists 2%nat, (Some (x, p')), g'. split; [|done].
  transitivity (match sys e p g with Some (x, p', g') => run 1 (Ret x : prog X) p' g' | None => None end); [|by rewrite E].
  destruct e; first [discriminate E|reflexivity].
Qed.

Lemma rwp_printf (Q : option (unit * proc) -> glob -> Prop) fd fmt args o p g : format fmt args = Some o ->
  Q (Some (tt, p)) g -> rwp (printf fd fmt args) Q p g.
Proof.
  intros E HQ. unfold printf. rewrite E. clear E. induction o as [|c o IH]; cbn [put_chars]; [by apply rwp_ret|].
  apply rwp_bind. unfold putc. apply rwp_bind. eapply rwp_sys; [reflexivity|]. by apply rwp_ret.
Qed.

Lemma rwp_panic {R} (Q : option (R * proc) -> glob -> Prop) s p g : Q None g -> rwp (sh_panic s) Q p g.
Proof.
  intros HQ. apply rwp_bind. apply (rwp_printf _ _ _ _ (s ++ [10])); [reflexivity|]. by apply rwp_exit.
Qed.

(** The two ways on from [fork1]. *)
Lemma run_fork1 {R} (K : Z -> prog R) k p g :
  run (S k) (ITree.bind fork1 K) p g =
  if fails g then run k (ITree.bind (sh_panic (chars "fork")) K) p (tick g)
  else match run k (K 0) (mkProc (p_fds p) []) (new_pid (tick g)) with
       | Some (None, g1) =>
           run k (ITree.bind (if g_pid g =? -1 then sh_panic (chars "fork") else Ret (g_pid g)) K)
             (mkProc (p_fds p) (p_kids p ++ [g_pid g])) g1
       | _ => None
       end.
Proof.
  unfold fork1, fork, ITree.trigger.
  set (f := fun pid : Z => if pid =? -1 then sh_panic (chars "fork") else Ret pid).
  change (run (S k) (ITree.bind (ITree.bind (Vis Fork (fun x => Ret x)) f) K) p g) with
    (if fails g then run k (ITree.bind (ITree.bind (Ret (-1)) f) K) p (tick g)
     else match run k (ITree.bind (ITree.bind (Ret 0) f) K) (mkProc (p_fds p) []) (new_pid (tick g)) with
          | Some (None, g1) => run k (ITree.bind (ITree.bind (Ret (g_pid g)) f) K) (mkProc (p_fds p) (p_kids p ++ [g_pid g])) g1
          | _ => None
          end).
  assert (Ef : forall n p g, run k (ITree.bind (ITree.bind (Ret n) f) K) p g = run k (ITree.bind (f n) K) p g)
    by (intros n q h; by apply run_observe).
  rewrite !Ef. assert (E0 : forall p g, run k (ITree.bind (f 0) K) p g = run k (K 0) p g) by (intros q h; by apply run_observe).
  rewrite E0. destruct (fails g); [done|]. destruct (run k (K 0) _ _) as [[[?|] g1]|]; [done|apply Ef|done].
Qed.

Lemma rwp_fork1 {R} (K : Z -> prog R) (Q : option (R * proc) -> glob -> Prop) p g : 0 < g_pid g ->
  (fails g = true -> Q None (tick g)) ->
  (fails g = false -> rwp (K 0) (fun o g1 => o = None /\
     rwp (K (g_pid g)) Q (mkProc (p_fds p) (p_kids p ++ [g_pid g])) g1) (mkProc (p_fds p) []) (new_pid (tick g))) ->
  rwp (ITree.bind fork1 K) Q p g.
Proof.
  intros Hpid Hf Hs. destruct (fails g) eqn:Ef.
  - assert (Hp : rwp (ITree.bind (sh_panic (chars "fork")) K) Q p (tick g)) by (apply rwp_bind, rwp_panic; auto).
    destruct Hp as (k & o & g' & E & HQ). exists (S k), o, g'. split; [|done]. by rewrite run_fork1, Ef.
  - destruct (Hs eq_refl) as (k & o & g1 & E & -> & k2 & o2 & g2 & E2 & HQ). clear Hs Hf.
    exists (S (k + k2)%nat), o2, g2. split; [|done]. rewrite run_fork1, Ef.
    rewrite (run_mono k (k + k2) _ _ _ _ ltac:(lia) E). rewrite (proj2 (Z.eqb_neq (g_pid g) (-1))) by lia.
    rewrite (run_observe _ _ (K (g_pid g))) by done. by apply (run_mono k2); [lia|].
Qed.

(** ** What a command means *)

(** The descriptors of a program: its input, its output, its errors, nothing else. *)
Definition tab (a b d : ofile) : fdtab := {[ 0 := a; 1 := b; 2 := d ]}.

Definition opened (path : list Z) (mode : Z) : ofile :=
  if bool_decide (path = chars "console") then Console else FileAt path mode.

Fixpoint redirs_ok (c : cmd) : Prop :=
  match c with
  | EXEC _ => True
  | REDIR c' _ _ fd => (fd = 0 \/ fd = 1) /\ redirs_ok c'
  | PIPE l r | LIST l r => redirs_ok l /\ redirs_ok r
  | BACK c' => redirs_ok c'
  end.

(** The programs to start, in order, each with its descriptors, and the next name
    for a pipe after [n]. *)
Fixpoint plan (buf : list Z) (c : cmd) (a b d : ofile) (n : nat) : list event * nat :=
  match c with
  | EXEC argv =>
      match argv with
      | [] => ([], n)
      | w :: _ => ([EvExec (word_str buf w) (map (word_str buf) argv) (tab a b d)], n)
      end
  | REDIR c' file mode fd =>
      let f := opened (word_str buf file) mode in
      if fd =? 0 then plan buf c' f b d n else plan buf c' a f d n
  | PIPE l r =>
      let p1 := plan buf l a (PipeW n) d (S n) in
      let p2 := plan buf r (PipeR n) b d (snd p1) in
      (fst p1 ++ fst p2, snd p2)
  | LIST l r =>
      let p1 := plan buf l a b d n in
      let p2 := plan buf r a b d (snd p1) in
      (fst p1 ++ fst p2, snd p2)
  | BACK c' => plan buf c' a b d n
  end.

(** [e] starts a program of the command, with the descriptors it should have. *)
Fixpoint allowed (buf : list Z) (c : cmd) (a b d : ofile) (e : event) : Prop :=
  match c with
  | EXEC argv =>
      match argv with
      | [] => False
      | w :: _ => e = EvExec (word_str buf w) (map (word_str buf) argv) (tab a b d)
      end
  | REDIR c' file mode fd =>
      let f := opened (word_str buf file) mode in
      if fd =? 0 then allowed buf c' f b d e else allowed buf c' a f d e
  | PIPE l r => exists n, allowed buf l a (PipeW n) d e \/ allowed buf r (PipeR n) b d e
  | LIST l r => allowed buf l a b d e \/ allowed buf r a b d e
  | BACK c' => allowed buf c' a b d e
  end.

Definition no_fail (g : glob) : Prop := Forall (fun b => b = false) (g_fails g).

(** What happened from [g] to [g']: events that [A] allows, and exactly those of
    [P] when no call failed. *)
Definition went (A : event -> Prop) (P : nat -> list event * nat) (g g' : glob) : Prop :=
  g_input g' = g_input g /\ g_pid g <= g_pid g' /\
  exists l, g_log g' = g_log g ++ l /\ Forall A l /\ (no_fail g -> no_fail g' /\ P (g_pipe g) = (l, g_pipe g')).

Lemma fails_no_fail g : no_fail g -> fails g = false.
Proof. unfold no_fail, fails. destruct (g_fails g) as [|x l]; [done|]. by intros [-> _]%Forall_cons. Qed.

Lemma no_fail_tick g : no_fail g -> no_fail (tick g).
Proof. unfold no_fail, tick. cbn. destruct (g_fails g) as [|x l]; [done|]. by intros [_ ?]%Forall_cons. Qed.

(** Nothing was started because a call failed. *)
Lemma went_fail A P g : fails g = true -> went A P g (tick g).
Proof.
  intros Hf. split; [done|]. split; [done|]. exists []. rewrite app_nil_r. do 2 (split; [done|]).
  intros Hn%fails_no_fail. congruence.
Qed.

Lemma went_weaken (A B : event -> Prop) P g g' : (forall e, A e -> B e) -> went A P g g' -> went B P g g'.
Proof.
  intros HAB (H1 & H2 & l & H3 & H4 & H5). split; [done|]. split; [done|]. exists l. split; [done|]. split; [|done].
  eapply Forall_impl; [exact H4|]. done.
Qed.

(** A step that starts nothing, then [P]. *)
Lemma went_after A P g0 g g' : g_input g = g_input g0 -> g_pid g0 <= g_pid g -> g_log g = g_log g0 ->
  g_pipe g = g_pipe g0 -> (no_fail g0 -> no_fail g) -> went A P g g' -> went A P g0 g'.
Proof.
  intros E1 E2 E3 E4 Hn (H1 & H2 & l & H3 & H4 & H5). split; [congruence|]. split; [lia|]. exists l. rewrite <- E3, <- E4. auto.
Qed.

Lemma went_seq A P1 P2 g g1 g' : went A P1 g g1 -> went A P2 g1 g' ->
  went A (fun n => let p1 := P1 n in let p2 := P2 (snd p1) in (fst p1 ++ fst p2, snd p2)) g g'.
Proof.
  intros (H1 & H2 & l1 & H3 & H4 & H5) (K1 & K2 & l2 & K3 & K4 & K5).
  split; [congruence|]. split; [lia|]. exists (l1 ++ l2). rewrite K3, H3, app_assoc. split; [done|].
  split; [by apply Forall_app|]. intros Hn. destruct (H5 Hn) as [Hn1 E1]. destruct (K5 Hn1) as [Hn2 E2].
  split; [done|]. cbn. rewrite E1. cbn. by rewrite E2.
Qed.

(** ** Descriptors *)
Lemma rwp_close (Q : option (Z * proc) -> glob -> Prop) fd f p g : p_fds p !! fd = Some f ->
  Q (Some (0, set_tab (delete fd (p_fds p)) p)) g -> rwp (close fd) Q p g.
Proof. intros E HQ. eapply rwp_sys; [cbn; by rewrite E|done]. Qed.

Lemma rwp_dup (Q : option (Z * proc) -> glob -> Prop) fd f fd' p g : p_fds p !! fd = Some f -> lowest (p_fds p) = Some fd' ->
  Q (Some (fd', set_tab (<[fd' := f]> (p_fds p)) p)) g -> rwp (dup fd) Q p g.
Proof. intros E El HQ. eapply rwp_sys; [cbn; rewrite E; unfold install; by rewrite El|done]. Qed.

Lemma rwp_open (Q : option (Z * proc) -> glob -> Prop) path mode fd p g : lowest (p_fds p) = Some fd ->
  (fails g = true -> Q (Some (-1, p)) (tick g)) ->
  (fails g = false -> Q (Some (fd, set_tab (<[fd := opened path mode]> (p_fds p)) p)) (tick g)) ->
  rwp (open path mode) Q p g.
Proof.
  intros El Hf Hs. destruct (fails g) eqn:Ef.
  - eapply rwp_sys; [cbn; by rewrite Ef|auto].
  - eapply rwp_sys; [cbn; rewrite Ef; unfold install; by rewrite El|auto].
Qed.

Lemma rwp_wait (Q : option (Z * proc) -> glob -> Prop) p g :
  (forall pid kids, Q (Some (pid, mkProc (p_fds p) kids)) g) -> rwp wait Q p g.
Proof.
  intros HQ. destruct (p_kids p) as [|pid kids] eqn:Ek.
  - eapply rwp_sys; [cbn; by rewrite Ek|]. destruct p as [t k]. apply (HQ (-1) k).
  - eapply rwp_sys; [cbn; by rewrite Ek|]. apply HQ.
Qed.

(** The table while a pipe is being set up. *)
Definition tab5 (a b d : ofile) (n : nat) : fdtab := <[4 := PipeW n]> (<[3 := PipeR n]> (tab a b d)).

Lemma rwp_pipe (Q : option (Z * (Z * Z) * proc) -> glob -> Prop) a b d kids g :
  (fails g = true -> Q (Some ((-1, (0, 0)), mkProc (tab a b d) kids)) (tick g)) ->
  (fails g = false -> Q (Some ((0, (3, 4)), mkProc (tab5 a b d (g_pipe g)) kids)) (new_pipe (tick g))) ->
  rwp pipe Q (mkProc (tab a b d) kids) g.
Proof.
  intros Hf Hs. destruct (fails g) eqn:Ef; (eapply rwp_sys; [cbn; by rewrite Ef|auto]).
Qed.

(** The four calls of each side of a pipe: the end of the pipe takes the place of
    the output or of the input, and no other end is left open. *)
Lemma left_side a b d n (t : prog unit) (Q : option (unit * proc) -> glob -> Prop) g :
  rwp t Q (mkProc (tab a (PipeW n) d) []) g ->
  rwp (close 1;; dup 4;; close 3;; close 4;; t) Q (mkProc (tab5 a b d n) []) g.
Proof.
  intros H. apply rwp_bind, (rwp_close _ _ b); [reflexivity|]. apply rwp_bind, (rwp_dup _ _ (PipeW n) 1); [reflexivity|reflexivity|].
  apply rwp_bind, (rwp_close _ _ (PipeR n)); [reflexivity|]. apply rwp_bind, (rwp_close _ _ (PipeW n)); [reflexivity|]. exact H.
Qed.

Lemma right_side a b d n (t : prog unit) (Q : option (unit * proc) -> glob -> Prop) g :
  rwp t Q (mkProc (tab (PipeR n) b d) []) g ->
  rwp (close 0;; dup 3;; close 3;; close 4;; t) Q (mkProc (tab5 a b d n) []) g.
Proof.
  intros H. apply rwp_bind, (rwp_close _ _ a); [reflexivity|]. apply rwp_bind, (rwp_dup _ _ (PipeR n) 0); [reflexivity|reflexivity|].
  apply rwp_bind, (rwp_close _ _ (PipeR n)); [reflexivity|]. apply rwp_bind, (rwp_close _ _ (PipeW n)); [reflexivity|]. exact H.
Qed.

Lemma redirect a b d fd path mode (Q : option (unit * proc) -> glob -> Prop) kids g (K : Z -> prog unit) : fd = 0 \/ fd = 1 ->
  (fails g = true -> forall t, rwp (K (-1)) Q (mkProc t kids) (tick g)) ->
  (fails g = false -> let f := opened path mode in
     rwp (K fd) Q (mkProc (if fd =? 0 then tab f b d else tab a f d) kids) (tick g)) ->
  rwp (close fd;; r <- open path mode;; K r) Q (mkProc (tab a b d) kids) g.
Proof.
  intros Hfd Hf Hs. apply rwp_bind. destruct Hfd as [-> | ->].
  - apply (rwp_close _ _ a); [reflexivity|]. apply rwp_bind, (rwp_open _ _ _ 0); [reflexivity|intros E; by apply Hf|exact Hs].
  - apply (rwp_close _ _ b); [reflexivity|]. apply rwp_bind, (rwp_open _ _ _ 1); [reflexivity|intros E; by apply Hf|exact Hs].
Qed.

Lemma rwp_exec (Q : option (Z * proc) -> glob -> Prop) path argv p g :
  let g' := add_event (EvExec path argv (p_fds p)) (tick g) in
  (fails g = true -> Q (Some (-1, p)) g') -> (fails g = false -> Q None g') -> rwp (exec path argv) Q p g.
Proof.
  intros g' Hf Hs. destruct (fails g) eqn:Ef.
  - exists 2%nat, (Some (-1, p)), g'. split; [|auto]. cbn. by rewrite Ef.
  - exists 2%nat, None, g'. split; [|auto]. cbn. by rewrite Ef.
Qed.

Lemma went_exec (A : event -> Prop) e g : A e -> went A (fun n => ([e], n)) g (add_event e (tick g)).
Proof.
  intros He. split; [done|]. split; [done|]. exists [e]. split; [done|]. split; [by repeat constructor|].
  intros Hn. split; [by apply no_fail_tick|done].
Qed.

(** A child that ends, and what the parent does after it; [k] is what both would do
    after the branch. *)
Lemma child {R} (t : prog unit) (k : unit -> prog R) (Q : option (R * proc) -> glob -> Prop) p g :
  0 < g_pid g -> (fails g = true -> Q None (tick g)) ->
  (fails g = false -> rwp t (fun o g1 => o = None /\
     rwp (k tt) Q (mkProc (p_fds p) (p_kids p ++ [g_pid g])) g1) (mkProc (p_fds p) []) (new_pid (tick g))) ->
  rwp (pid <- fork1;; x <- (if pid =? 0 then t else Ret tt);; k x) Q p g.
Proof.
  intros Hpid Hf Hs. apply rwp_fork1; [done|done|]. intros Ef. apply rwp_bind. eapply rwp_mono; [by apply Hs|].
  intros o g1 [-> H]. split; [done|]. rewrite (proj2 (Z.eqb_neq (g_pid g) 0)) by lia. by apply rwp_bind, rwp_ret.
Qed.

Lemma went_pid A P g g' : went A P g g' -> 0 < g_pid g -> 0 < g_pid g'.
Proof. intros (_ & H & _). lia. Qed.

Lemma went_forked A P g g' : went A P (new_pid (tick g)) g' -> went A P g g'.
Proof. apply went_after; try done; [cbn; lia|]. apply no_fail_tick. Qed.

Lemma pipe_runs A P1 P2 a b d kids g (lt rt : prog unit) : 0 < g_pid g ->
  (forall n g, 0 < g_pid g -> rwp lt (fun o g' => o = None /\ went A (P1 n) g g') (mkProc (tab a (PipeW n) d) []) g) ->
  (forall n g, 0 < g_pid g -> rwp rt (fun o g' => o = None /\ went A (P2 n) g g') (mkProc (tab (PipeR n) b d) []) g) ->
  let n := g_pipe g in
  rwp (pid <- fork1;;
       (if pid =? 0 then close 1;; dup 4;; close 3;; close 4;; lt else Ret tt);;
       pid <- fork1;;
       (if pid =? 0 then close 0;; dup 3;; close 3;; close 4;; rt else Ret tt);;
       close 3;; close 4;; wait;; wait;; exit)
    (fun (o : option (unit * proc)) g' => o = None /\ went A (fun m =>
       let p1 := P1 n m in let p2 := P2 n (snd p1) in (fst p1 ++ fst p2, snd p2)) (new_pipe g) g')
    (mkProc (tab5 a b d n) kids) (new_pipe g).
Proof.
  intros Hpid Hl Hr n. apply child; [done| |].
  { intros Ef. split; [done|]. by apply went_fail. }
  intros Ef. apply left_side. eapply rwp_mono; [apply Hl; cbn; lia|]. intros o g1 [-> Hw1]. split; [done|].
  pose proof (went_pid _ _ _ _ Hw1 ltac:(cbn; lia)) as Hp1. apply went_forked in Hw1.
  apply child; [done| |].
  { intros Ef1. split; [done|]. eapply went_seq; [exact Hw1|by apply went_fail]. }
  intros Ef1. apply right_side. eapply rwp_mono; [apply Hr; cbn; lia|]. intros o g2 [-> Hw2]. split; [done|].
  apply rwp_bind, (rwp_close _ _ (PipeR n)); [reflexivity|]. apply rwp_bind, (rwp_close _ _ (PipeW n)); [reflexivity|].
  apply rwp_bind, rwp_wait. intros ? ?. apply rwp_bind, rwp_wait. intros ? ?. apply rwp_exit. split; [done|].
  eapply went_seq; [exact Hw1|by apply went_forked].
Qed.

Lemma went_piped A P (P' : nat -> list event * nat) g g' : P' (g_pipe g) = P (S (g_pipe g)) ->
  went A P (new_pipe (tick g)) g' -> went A P' g g'.
Proof.
  intros EP (H1 & H2 & l & H3 & H4 & H5). split; [done|]. split; [done|]. exists l. split; [done|]. split; [done|].
  intros Hn. rewrite EP. by apply H5, no_fail_tick.
Qed.

Lemma runcmd_runs buf c : redirs_ok c -> forall a b d kids g, 0 < g_pid g ->
  rwp (runcmd buf c) (fun o g' => o = None /\ went (allowed buf c a b d) (plan buf c a b d) g g') (mkProc (tab a b d) kids) g.
Proof.
  induction c as [argv|c IH file mode fd|l IHl r IHr|l IHl r IHr|c IH]; intros Hok a b d kids g Hpid; cbn [redirs_ok] in Hok.
  - cbn [runcmd allowed plan]. destruct argv as [|w argv].
    { apply rwp_exit. split; [done|]. split; [done|]. split; [done|]. exists []. rewrite app_nil_r. split_and!; [done|by constructor|done]. }
    apply rwp_bind, rwp_exec; intros _.
    + apply rwp_bind. apply (rwp_printf _ _ _ _ (chars "exec " ++ word_str buf w ++ chars " failed" ++ [10])); [reflexivity|].
      apply rwp_exit. split; [done|]. by apply went_exec.
    + split; [done|]. by apply went_exec.
  - destruct Hok as [Hfd Hok]. cbn [runcmd]. apply redirect; [done| |].
    + intros Ef t. cbn [Z.ltb Z.compare]. apply rwp_bind.
      apply (rwp_printf _ _ _ _ (chars "open " ++ word_str buf file ++ chars " failed" ++ [10])); [reflexivity|].
      apply rwp_exit. split; [done|]. by apply went_fail.
    + intros Ef f. rewrite (proj2 (Z.ltb_ge fd 0)) by lia. apply rwp_bind. cbn [plan allowed]. fold f.
      destruct (fd =? 0); (eapply rwp_mono; [by apply IH|]); intros o g' [-> Hw]; (split; [done|]);
        (eapply went_after; [..|exact Hw]; try done; apply no_fail_tick).
  - destruct Hok as [Hl Hr]. cbn [runcmd]. apply rwp_bind, rwp_pipe; intros Ef.
    + apply rwp_bind. cbn [Z.ltb Z.compare]. apply rwp_panic. split; [done|]. by apply went_fail.
    + cbn [Z.ltb Z.compare]. apply rwp_bind, rwp_ret.
      eapply rwp_mono; [apply (pipe_runs (allowed buf (PIPE l r) a b d) (fun n => plan buf l a (PipeW n) d) (fun n => plan buf r (PipeR n) b d) a b d kids (tick g))|].
      * done.
      * intros n g1 Hg1. eapply rwp_mono; [by apply IHl|]. intros o g' [-> Hw]. split; [done|].
        eapply went_weaken; [|exact Hw]. intros e He. exists n. by left.
      * intros n g1 Hg1. eapply rwp_mono; [by apply IHr|]. intros o g' [-> Hw]. split; [done|].
        eapply went_weaken; [|exact Hw]. intros e He. exists n. by right.
      * intros o g' [-> Hw]. split; [done|]. by eapply went_piped; [|exact Hw].
  - destruct Hok as [Hl Hr]. cbn [runcmd]. apply child; [done|intros Ef; split; [done|]; by apply went_fail|].
    intros Ef. eapply rwp_mono; [apply IHl; [done|cbn; lia]|]. intros o g1 [-> Hw1]. split; [done|].
    pose proof (went_pid _ _ _ _ Hw1 ltac:(cbn; lia)) as Hp1. apply went_forked in Hw1.
    apply rwp_bind, rwp_wait. intros pid kids'. apply rwp_bind. eapply rwp_mono; [by apply IHr|]. intros o g2 [-> Hw2]. split; [done|].
    eapply went_seq; (eapply went_weaken; [|done]); intros e He; [by left|by right].
  - cbn [runcmd]. apply child; [done|intros Ef; split; [done|]; by apply went_fail|].
    intros Ef. eapply rwp_mono; [apply IH; [done|cbn; lia]|]. intros o g1 [-> Hw1]. split; [done|].
    apply rwp_exit. split; [done|]. by apply went_forked.
Qed.

(** ** The parser redirects only the input and the output *)
Definition yields {A} (c : M nat A) (P : A -> Prop) : Prop := forall s a s', c s = Prelude.Ret a s' -> P a.

Lemma yields_bind {A B} (c : M nat A) (k : A -> M nat B) (P : A -> Prop) (Q : B -> Prop) :
  yields c P -> (forall a, P a -> yields (k a) Q) -> yields (Prelude.bind c k) Q.
Proof.
  intros Hc Hk s b s' E. unfold Prelude.bind in E. destruct (c s) as [a s1| | |] eqn:E1; try done. by apply (Hk a (Hc _ _ _ E1) s1 b s').
Qed.

Lemma yields_any {A} (c : M nat A) : yields c (fun _ => True).
Proof. done. Qed.

Lemma yields_ret {A} (a : A) (P : A -> Prop) : P a -> yields (Prelude.ret a) P.
Proof. by intros H s a' s' [= <- <-]. Qed.

Definition good_redirs (rs : list (word * Z * Z)) : Prop := Forall (fun r => snd r = 0 \/ snd r = 1) rs.

Lemma redirs_yields buf k : yields (parseredirs buf k) good_redirs.
Proof.
  induction k as [|k IH]; [by intros s a s'|]. cbn [parseredirs]. eapply yields_bind; [apply yields_any|]. intros p _.
  destruct p; [|apply yields_ret; constructor]. eapply yields_bind; [apply yields_any|]. intros x _.
  eapply yields_bind; [apply yields_any|]. intros f _. destruct (negb _); [by intros s a s'|].
  eapply yields_bind; [exact IH|]. intros rest Hrest. apply yields_ret. constructor; [|done]. destruct (_ =? 60); cbn; auto.
Qed.

Lemma add_redirs_ok rs : forall c, good_redirs rs -> redirs_ok c -> redirs_ok (add_redirs c rs).
Proof.
  induction rs as [|x rs IH]; intros c Hr Hc; [done|]. apply Forall_cons in Hr as [Hx Hr]. cbn. by apply IH.
Qed.

Lemma words_yields buf k : forall argc, yields (parse_words buf k argc) (fun r => good_redirs (snd r)).
Proof.
  induction k as [|k IH]; intros argc; [by intros s a s'|]. cbn [parse_words]. eapply yields_bind; [apply yields_any|]. intros p _.
  destruct p; [apply yields_ret; constructor|]. eapply yields_bind; [apply yields_any|]. intros x _.
  destruct (_ =? 0); [apply yields_ret; constructor|]. destruct (negb _); [by intros s a s'|]. destruct (_ <=? _)%nat; [by intros s a s'|].
  eapply yields_bind; [apply redirs_yields|]. intros rs Hrs. eapply yields_bind; [apply IH|]. intros r Hr.
  apply yields_ret. cbn. by apply Forall_app.
Qed.

Lemma back_yields buf k : forall c, redirs_ok c -> yields (parseback buf k c) redirs_ok.
Proof.
  induction k as [|k IH]; intros c Hc; [by intros s a s'|]. cbn [parseback]. eapply yields_bind; [apply yields_any|]. intros p _.
  destruct p; [|by apply yields_ret]. eapply yields_bind; [apply yields_any|]. intros _ _. by apply IH.
Qed.

Lemma parse_yields buf k :
  yields (parseline buf k) redirs_ok /\ yields (parsepipe buf k) redirs_ok /\
  yields (parseexec buf k) redirs_ok /\ yields (parseblock buf k) redirs_ok.
Proof.
  induction k as [|k (IHl & IHp & IHe & IHb)]; [split_and!; by intros s a s'|].
  split_and!; cbn [parseline parsepipe parseexec parseblock].
  - eapply yields_bind; [exact IHp|]. intros c Hc. eapply yields_bind; [by apply back_yields|]. intros c' Hc'.
    eapply yields_bind; [apply yields_any|]. intros p _. destruct p; [|by apply yields_ret].
    eapply yields_bind; [apply yields_any|]. intros _ _. eapply yields_bind; [exact IHl|]. intros r Hr. by apply yields_ret.
  - eapply yields_bind; [exact IHe|]. intros c Hc. eapply yields_bind; [apply yields_any|]. intros p _. destruct p; [|by apply yields_ret].
    eapply yields_bind; [apply yields_any|]. intros _ _. eapply yields_bind; [exact IHp|]. intros r Hr. by apply yields_ret.
  - eapply yields_bind; [apply yields_any|]. intros p _. destruct p; [exact IHb|].
    eapply yields_bind; [apply redirs_yields|]. intros rs Hrs. eapply yields_bind; [apply words_yields|]. intros r Hr.
    apply yields_ret, add_redirs_ok; [by apply Forall_app|done].
  - eapply yields_bind; [apply yields_any|]. intros p _. destruct (negb p); [by intros s a s'|].
    eapply yields_bind; [apply yields_any|]. intros _ _. eapply yields_bind; [exact IHl|]. intros c Hc.
    eapply yields_bind; [apply yields_any|]. intros q _. destruct (negb q); [by intros s a s'|].
    eapply yields_bind; [apply yields_any|]. intros _ _. eapply yields_bind; [apply redirs_yields|]. intros rs Hrs.
    by apply yields_ret, add_redirs_ok.
Qed.

Lemma parsecmd_parse buf : parsecmd buf 0%nat =
  match parse buf with Prelude.Ret c s => if (s =? length buf)%nat then Prelude.Ret c s else Panic "syntax" | o => o end.
Proof.
  unfold parsecmd, parse, Prelude.bind. destruct (parseline buf (fuel buf) 0%nat) as [c s| | |]; [|done..].
  destruct (peek buf [] s) as [p s'| | |]; [|done..]. unfold es. cbn. by destruct (s' =? length buf)%nat.
Qed.

Lemma parse_ends buf : 0 ∉ buf -> match parse buf with Prelude.Ret c _ => redirs_ok c | Panic _ => True | _ => False end.
Proof.
  intros Hn. pose proof (parsecmd_safe buf Hn) as H. unfold safe in H. rewrite parsecmd_parse in H.
  destruct (parse buf) as [c s| | |] eqn:E; try done.
  unfold parse in E. revert E. apply (yields_bind _ _ redirs_ok redirs_ok); [apply parse_yields|].
  intros a Ha. eapply yields_bind; [apply yields_any|]. intros _ _. by apply yields_ret.
Qed.

Lemma c_string_no_nul l : 0 ∉ c_string l.
Proof.
  induction l as [|c l IH]; cbn [c_string]; [apply not_elem_of_nil|]. destruct (Z.eqb_spec c 0); [apply not_elem_of_nil|].
  apply not_elem_of_cons. split; [congruence|done].
Qed.

(** ** A session *)

(** What the shell starts for a line. *)
Definition line_plan (buf : list Z) (n : nat) : list event * nat :=
  match parsecmd buf 0%nat with
  | Prelude.Ret c _ => plan (nulterminate c buf) c Console Console Console n
  | _ => ([], n)
  end.

(** What it does for an input, of at most [k] lines. *)
Fixpoint session (k : nat) (input : list Z) (n : nat) : list event * nat :=
  match k with
  | O => ([], n)
  | S k' =>
      let r := gets 100 input in
      let buf := c_string (fst r) in
      match buf with
      | [] => ([], n)
      | _ =>
          if is_cd buf then
            let rest := session k' (snd r) n in (EvChdir (drop 3 (removelast buf)) :: fst rest, snd rest)
          else
            let p := line_plan buf n in
            let rest := session k' (snd r) (snd p) in (fst p ++ fst rest, snd rest)
      end
  end.

Lemma gets_runs (Q : option (list Z * proc) -> glob -> Prop) a b kids k : forall g,
  Q (Some (fst (gets_loop k (g_input g)), mkProc (tab Console a b) kids)) (set_input (snd (gets_loop k (g_input g))) g) ->
  rwp (gets_prog k) Q (mkProc (tab Console a b) kids) g.
Proof.
  assert (Hset : forall g, set_input (g_input g) g = g) by (by intros []).
  revert Q. induction k as [|k IH]; intros Q g HQ; cbn [gets_prog gets_loop] in *.
  - apply rwp_ret. cbn [fst snd] in HQ. by rewrite Hset in HQ.
  - apply rwp_bind. eapply rwp_sys; [reflexivity|]. change (Z.to_nat 1) with 1%nat.
    destruct (g_input g) as [|c input] eqn:Ei; cbn [take drop length Z.of_nat head default Z.ltb Z.compare].
    { apply rwp_ret. done. }
    rewrite take_0, drop_0. change (Z.of_nat (S (length [])) <? 1) with false. change (id c) with c. cbv iota.
    destruct ((c =? 10) || (c =? 13)); [by apply rwp_ret|]. apply rwp_bind, IH. by apply rwp_ret.
Qed.

Lemma rwp_iter {I R} (step : I -> prog (I + R)) (Q : option (R * proc) -> glob -> Prop) (Inv : I -> proc -> glob -> Prop)
    (m : glob -> nat) :
  (forall i p g, Inv i p g -> rwp (step i) (fun o g' => match o with
     | Some (inl i', p') => Inv i' p' g' /\ (m g' < m g)%nat
     | Some (inr r, p') => Q (Some (r, p')) g'
     | None => Q None g' end) p g) ->
  forall i p g, Inv i p g -> rwp (ITree.iter step i) Q p g.
Proof.
  intros Hstep i p g. remember (m g) as n eqn:En. revert i p g En. induction (lt_wf n) as [n _ IH]. intros i p g -> Hi.
  assert (Hb : rwp (ITree.bind (step i) (fun lr => match lr with inl l => Tau (ITree.iter step l) | inr r => Ret r end)) Q p g).
  { apply rwp_bind. eapply rwp_mono; [by apply Hstep|]. intros [[[i'|r] p']|] g'; [|by apply rwp_ret|done].
    intros [Hi' Hm]. destruct (IH _ Hm i' p' g' eq_refl Hi') as (k & o & g2 & E & HQ). by exists (S k), o, g2. }
  destruct Hb as (k & o & g' & E & HQ). exists k, o, g'. split; [|done]. rewrite <- E. by apply run_observe.
Qed.

Lemma line_runs buf g : 0 ∉ buf -> 0 < g_pid g ->
  rwp (r <- parsecmd_prog buf;; let '(c, buf') := r in runcmd buf' c)
    (fun o g' => o = None /\ went (fun _ => True) (line_plan buf) g g') (mkProc (tab Console Console Console) []) g.
Proof.
  intros Hn Hpid. apply rwp_bind. unfold parsecmd_prog, line_plan. rewrite parsecmd_parse. pose proof (parse_ends buf Hn) as Hp.
  assert (Hnone : went (fun _ => True) (fun n => ([], n)) g g).
  { split; [done|]. split; [done|]. exists []. rewrite app_nil_r. split_and!; [done|by constructor|done]. }
  destruct (parse buf) as [c s|msg| |]; [|by apply rwp_panic|done|done]. destruct (s =? length buf)%nat.
  - apply rwp_ret. eapply rwp_mono; [by apply runcmd_runs|]. intros o g' [-> Hw]. split; [done|]. by eapply went_weaken; [|exact Hw].
  - apply rwp_bind. apply (rwp_printf _ _ _ _ (chars "leftovers: " ++ drop s buf ++ [10])); [reflexivity|]. by apply rwp_panic.
Qed.

Lemma gets_split k : forall input, fst (gets_loop k input) ++ snd (gets_loop k input) = input.
Proof.
  induction k as [|k IH]; intros input; cbn [gets_loop]; [done|]. destruct input as [|c input]; [done|].
  destruct ((c =? 10) || (c =? 13)); [done|]. cbn. by rewrite IH.
Qed.

(** The loop of main, at a point from which it is to make the events [L]. *)
Definition at_prompt (L : list event) (p : proc) (g : glob) : Prop :=
  p_fds p = tab Console Console Console /\ 0 < g_pid g /\ no_fail g /\
  exists k, (length (g_input g) < k)%nat /\ g_log g ++ fst (session k (g_input g) (g_pipe g)) = L.

Lemma getcmd_runs (Q : option (Z * list Z * proc) -> glob -> Prop) a b kids g :
  let r := gets 100 (g_input g) in
  let buf := c_string (fst r) in
  Q (Some ((match buf with [] => -1 | _ => 0 end, buf), mkProc (tab Console a b) kids)) (set_input (snd r) g) ->
  rwp (getcmd 100) Q (mkProc (tab Console a b) kids) g.
Proof.
  intros r buf HQ. unfold getcmd. apply rwp_bind, (rwp_printf _ _ _ _ (chars "$ ")); [reflexivity|].
  apply rwp_bind, gets_runs. fold (gets 100 (g_input g)). fold r. fold buf. by destruct buf; apply rwp_ret.
Qed.

Lemma sh_step_runs L p g : at_prompt L p g ->
  rwp sh_step (fun o g' => match o with
    | Some (inl _, p') => at_prompt L p' g' /\ (length (g_input g') < length (g_input g))%nat
    | Some (inr _, _) => g_log g' = L
    | None => g_log g' = L end) p g.
Proof.
  destruct p as [t kids]. intros (Ht & Hpid & Hnf & k & Hk & HL). cbn in Ht. subst t. unfold sh_step. apply rwp_bind, getcmd_runs.
  destruct k as [|k]; [lia|]. cbn [session] in HL. pose proof (gets_split (Z.to_nat (100 - 1)) (g_input g)) as Hsplit.
  fold (gets 100 (g_input g)) in Hsplit.
  pose proof (c_string_no_nul (fst (gets 100 (g_input g)))) as Hnul.
  destruct (gets 100 (g_input g)) as [l rest]. cbn [fst snd] in *. destruct (c_string l) as [|c buf] eqn:Ebuf.
  { apply rwp_ret. cbn [fst] in HL. by rewrite app_nil_r in HL. }
  assert (Hlen : (length rest < length (g_input g))%nat).
  { rewrite <- Hsplit, length_app. destruct l; [done|]. cbn. lia. }
  assert (Hf : fails (set_input rest g) = false) by exact (fails_no_fail g Hnf).
  change (0 >=? 0) with true. cbv iota. remember (c :: buf) as line eqn:El. destruct (is_cd line).
  - apply rwp_bind. eapply rwp_sys; [cbn [sys]; by rewrite Hf|]. change (0 <? 0) with false. cbv iota.
    apply rwp_bind, rwp_ret, rwp_ret. split; [|done]. split; [done|]. split; [done|]. split; [by apply no_fail_tick|].
    exists k. cbn. split; [lia|]. by rewrite <- app_assoc.
  - apply child; [done|intros Ef; congruence|]. intros Ef.
    eapply rwp_mono; [apply line_runs; [done|cbn; lia]|]. intros o g1 [-> Hw]. split; [done|].
    apply rwp_bind, rwp_wait. intros pid kids'. apply rwp_ret.
    pose proof (went_pid _ _ _ _ Hw ltac:(cbn; lia)) as Hp1. destruct Hw as (W1 & _ & ev & W2 & _ & W3).
    destruct (W3 (no_fail_tick g Hnf)) as [Hn1 Ep]. cbn in W1, W2, Ep. rewrite W1. split; [|done].
    split; [done|]. split; [done|]. split; [done|]. exists k. rewrite W1. split; [cbn; lia|]. rewrite Ep in HL. cbn in HL.
    by rewrite W2, <- app_assoc.
Qed.

Lemma open_console_runs (Q : option (unit * proc) -> glob -> Prop) kids g : no_fail g ->
  Q (Some (tt, mkProc (tab Console Console Console) kids)) (tick g) ->
  rwp open_console Q (mkProc (tab Console Console Console) kids) g.
Proof.
  intros Hnf HQ. unfold open_console.
  apply (rwp_iter _ _ (fun _ p g' => p = mkProc (tab Console Console Console) kids /\ g' = g) (fun _ => O)); [|done].
  intros _ p g' [-> ->]. apply rwp_bind, (rwp_open _ _ _ 3); [reflexivity|intros Ef; by rewrite (fails_no_fail g Hnf) in Ef|].
  intros _. change (3 >=? 0) with true. change (3 >=? 3) with true. cbv iota. apply rwp_bind, (rwp_close _ _ Console); [reflexivity|].
  apply rwp_ret. exact HQ.
Qed.

(** Running a command.  Whatever calls fail, runcmd ends by exit, and every
    program it starts is one of the command with the descriptors it should have:
    those of the shell, except that a redirection puts the file in the place of its
    descriptor, and that the two sides of a pipe have the end of one pipe as output
    and as input, and no other end of a pipe (so that the reader sees the end of the
    file when the writer is gone).  When no call fails, exactly the programs of the
    command are started. *)
Theorem runcmd_correct (buf : list Z) (c : cmd) (a b d : ofile) (kids : list Z) (g : glob) :
  redirs_ok c -> 0 < g_pid g ->
  exists k g' l, run k (runcmd buf c) (mkProc (tab a b d) kids) g = Some (None, g') /\
    g_log g' = g_log g ++ l /\ Forall (allowed buf c a b d) l /\
    (no_fail g -> l = fst (plan buf c a b d (g_pipe g))).
Proof.
  intros Hok Hpid. destruct (runcmd_runs buf c Hok a b d kids g Hpid) as (k & o & g' & E & -> & _ & _ & l & Hl & HA & HP).
  exists k, g', l. split; [done|]. split; [done|]. split; [done|]. intros Hn. by destruct (HP Hn) as [_ ->].
Qed.


(** The line a<f|b and the line cd x. *)
Definition demo_glob : glob := mkGlob 0 2 [97; 60; 102; 124; 98; 10; 99; 100; 32; 120; 10] [] [].
Definition demo_events : list event :=
  [EvExec [97] [[97]] (tab (FileAt [102] 0) (PipeW 0) Console); EvExec [98] [[98]] (tab (PipeR 0) Console Console); EvChdir [120]].

Lemma demo_session : fst (session 12 (g_input demo_glob) 0) = demo_events.
Proof. vm_compute. reflexivity. Qed.


(** The words of the line a>b;c, where the second fork fails. *)
Definition demo_cmd : cmd := LIST (REDIR (EXEC [mkWord 0 1]) (mkWord 2 3) 513 1) (LIST (EXEC [mkWord 4 5]) (EXEC [])).
Definition demo_buf : list Z := [97; 0; 98; 0; 99; 0].

Lemma runcmd_correct_witness :
  (exists k g', run k (runcmd demo_buf demo_cmd) (mkProc (tab Console Console Console) []) (mkGlob 0 2 [] [] []) = Some (None, g') /\
     g_log g' = [EvExec [97] [[97]] (tab Console (FileAt [98] 513) Console); EvExec [99] [[99]] (tab Console Console Console)]) /\
  match run 100 (runcmd demo_buf demo_cmd) (mkProc (tab Console Console Console) []) (mkGlob 0 2 [] [false; false; false; true] []) with
  | Some (None, g') => g_log g' = [EvExec [97] [[97]] (tab Console (FileAt [98] 513) Console)]
  | _ => False
  end.
Proof.
  split; [|reflexivity].
  destruct (runcmd_correct demo_buf demo_cmd Console Console Console [] (mkGlob 0 2 [] [] [])) as (k & g' & l & E & HL & _ & HP);
    [cbn; tauto|reflexivity|]. exists k, g'. split; [exact E|]. rewrite HL, HP by constructor. reflexivity.
Defined.
