(* ===== verification/UserCmds.v ===== *)
(** * The other user programs (kill.c, ln.c, mkdir.c, rm.c, ls.c, zombie.c, init.c)

    The programs as trees of system calls; init never ends. *)

From stdpp Require Import base numbers list gmap strings.
From Stdlib Require Import ZArith Lia.
From S2P Require Import Prelude Ulib Block Fs FsDir Sysfile User.
From ITree Require Import ITree.

Local Open Scope Z_scope.
Local Open Scope prog_scope.

(** ** kill.c, ln.c, mkdir.c, rm.c *)
Fixpoint kill_args (args : list (list Z)) : prog unit :=
  match args with [] => exit | arg :: args' => kill (atoi arg);; kill_args args' end.

Definition kill_main (argv : list (list Z)) : prog unit :=
  if (length argv <? 2)%nat then printf 2 (line "usage: kill pid...") [];; exit else kill_args (tail argv).

Definition ln_main (argv : list (list Z)) : prog unit :=
  match argv with
  | [_; old; new] =>
      r <- link old new;;
      ((if r <? 0 then printf 2 (line "link %s %s: failed") [AStr old; AStr new] else Ret tt);; exit)
  | _ => printf 2 (line "Usage: ln old new") [];; exit
  end.

Fixpoint mkdir_args (args : list (list Z)) : prog unit :=
  match args with
  | [] => exit
  | arg :: args' =>
      r <- mkdir arg;;
      if r <? 0 then printf 2 (line "mkdir: %s failed to create") [AStr arg];; exit else mkdir_args args'
  end.

Definition mkdir_main (argv : list (list Z)) : prog unit :=
  if (length argv <? 2)%nat then printf 2 (line "Usage: mkdir files...") [];; exit else mkdir_args (tail argv).

Fixpoint rm_args (args : list (list Z)) : prog unit :=
  match args with
  | [] => exit
  | arg :: args' =>
      r <- unlink arg;;
      if r <? 0 then printf 2 (line "rm: %s failed to delete") [AStr arg];; exit else rm_args args'
  end.

Definition rm_main (argv : list (list Z)) : prog unit :=
  if (length argv <? 2)%nat then printf 2 (line "Usage: rm files...") [];; exit else rm_args (tail argv).

(** ** zombie.c and init.c *)
Definition zombie_main : prog unit :=
  pid <- fork;;
  (if 0 <? pid then sleep 5;; Ret tt else Ret tt);;
  exit.

Definition sh_argv : list (list Z) := [chars "sh"].

(** The loop that waits for the shell, and for orphans on the way. *)
Definition init_wait (pid : Z) : prog unit :=
  ITree.iter (fun _ : unit =>
    wpid <- wait;;
    if (wpid >=? 0) && negb (wpid =? pid) then printf 1 (line "zombie!") [];; Ret (inl tt) else Ret (inr tt)) tt.

Definition init_round : prog unit :=
  printf 1 (line "init: starting sh") [];;
  pid <- fork;;
  (if pid <? 0 then printf 1 (line "init: fork failed") [];; exit else Ret tt);;
  (if pid =? 0 then exec (chars "sh") sh_argv;; printf 1 (line "init: exec sh failed") [];; exit else Ret tt);;
  init_wait pid.

Definition init_main : prog unit :=
  fd <- open (chars "console") O_RDWR;;
  (if fd <? 0 then mknod (chars "console") 1 1;; open (chars "console") O_RDWR;; Ret tt else Ret tt);;
  dup 0;;
  dup 0;;
  ITree.iter (fun _ : unit => init_round;; Ret (inl tt)) tt.

(** ** ls.c *)

(** stat of ulib.c. *)
Definition ustat (path : list Z) : prog (Z * stat) :=
  fd <- open path O_RDONLY;;
  if fd <? 0 then Ret (-1, mkStat 0 0 0 0 0)
  else r <- fstat fd;; close fd;; Ret r.

(** The loop of fmtname, backwards to the last slash: what follows it. *)
Fixpoint back_to_slash (r p : list Z) : list Z :=
  match r with [] => p | c :: r' => if c =? 47 then p else back_to_slash r' (c :: p) end.
Definition after_slash (path : list Z) : list Z := back_to_slash (rev path) [].

Definition fmtname (path : list Z) : list Z :=
  let p := after_slash path in
  if strlen p >=? DIRSIZ then p else p ++ replicate (Z.to_nat (DIRSIZ - strlen p)) 32.

Definition ls_line (name : list Z) (st : stat) : prog unit :=
  printf 1 (line "%s %d %d %d") [AStr (fmtname name); AInt (st_type st); AInt (st_ino st); AInt (st_size st)].

(** One round of the loop over the directory; [buf] is the path with its slash. *)
Definition ls_entry (fd : Z) (buf : list Z) : prog (unit + unit) :=
  r <- read fd 16;;
  let '(n, de) := r in
  if negb (n =? 16) then Ret (inr tt)
  else if de_inum de =? 0 then Ret (inl tt)
  else
    let path := (buf ++ upto_nul (de_name de))%list in
    r <- ustat path;;
    let '(r, st) := r in
    ((if r <? 0 then printf 1 (line "ls: cannot stat %s") [AStr path] else ls_line path st);; Ret (inl tt)).

Definition ls (path : list Z) : prog unit :=
  fd <- open path 0;;
  if fd <? 0 then printf 2 (line "ls: cannot open %s") [AStr path]
  else
    r <- fstat fd;;
    let '(r, st) := r in
    if r <? 0 then printf 2 (line "ls: cannot stat %s") [AStr path];; close fd;; Ret tt
    else
      (if st_type st =? T_FILE then ls_line path st
       else if st_type st =? T_DIR then
         if strlen path + 1 + DIRSIZ + 1 >? 512 then printf 1 (line "ls: path too long") []
         else ITree.iter (fun _ : unit => ls_entry fd (path ++ [47])) tt
       else Ret tt);;
      close fd;;
      Ret tt.

Fixpoint ls_args (args : list (list Z)) : prog unit :=
  match args with [] => exit | arg :: args' => ls arg;; ls_args args' end.

Definition ls_main (argv : list (list Z)) : prog unit :=
  if (length argv <? 2)%nat then ls [46];; exit else ls_args (tail argv).

(** ** Properties *)
Lemma back_to_slash_spec r : forall p, 47 ∉ p -> exists pre, rev r ++ p = pre ++ back_to_slash r p /\
  (47 ∉ back_to_slash r p) /\ (pre = [] \/ last pre = Some 47).
Proof.
  induction r as [|c r IH]; intros p Hp; cbn [back_to_slash rev].
  - exists []. auto.
  - destruct (Z.eqb_spec c 47) as [-> | Hc].
    + exists (rev r ++ [47]). split; [done|]. split; [done|]. right. apply last_snoc.
    + destruct (IH (c :: p)) as (pre & E & H); [rewrite not_elem_of_cons; auto|]. exists pre. rewrite <- app_assoc. auto.
Qed.

Lemma strlen_length s : strlen s = Z.of_nat (length s).
Proof. induction s as [|c s IH]; cbn [strlen length]; lia. Qed.

(** fmtname: the last element of the path, filled up with blanks to DIRSIZ. *)
Lemma fmtname_spec path : exists pre, path = pre ++ after_slash path /\ (47 ∉ after_slash path) /\
  (pre = [] \/ last pre = Some 47) /\
  (exists k, fmtname path = after_slash path ++ replicate k 32) /\ DIRSIZ <= Z.of_nat (length (fmtname path)).
Proof.
  destruct (back_to_slash_spec (rev path) [] ltac:(set_solver)) as (pre & E & Hs & Hpre). exists pre.
  rewrite rev_involutive, app_nil_r in E. fold (after_slash path) in *. split; [done|]. split; [done|]. split; [done|].
  unfold fmtname. rewrite strlen_length. destruct (Z.geb_spec (Z.of_nat (length (after_slash path))) DIRSIZ) as [H|H].
  - split; [|lia]. exists O. by rewrite app_nil_r.
  - split; [eauto|]. rewrite length_app, length_replicate. unfold DIRSIZ in *. lia.
Qed.

(** rm and mkdir stop at the first name for which the call fails.  The kernel answers
    [f] to a name; the state is the calls so far. *)
Section Stop.
Context (f : list Z -> Z).

Definition names_os (X : Type) (w : list (list Z)) (e : sysE X) : X -> list (list Z) -> Prop :=
  match e in sysE X return X -> list (list Z) -> Prop with
  | Unlink p => fun a w' => a = f p /\ w' = w ++ [p]
  | Mkdir p => fun a w' => a = f p /\ w' = w ++ [p]
  | Write _ b => fun a w' => a = Z.of_nat (length b) /\ w' = w
  | _ => fun _ _ => False
  end.

Fixpoint to_failure (args : list (list Z)) : list (list Z) :=
  match args with [] => [] | p :: args' => p :: (if f p <? 0 then [] else to_failure args') end.

Lemma names_printf (Q : option unit -> list (list Z) -> Prop) fd fmt args o w : format fmt args = Some o ->
  Q (Some tt) w -> ok names_os Q (printf fd fmt args) w.
Proof.
  intros E HQ. unfold printf. rewrite E. clear E. induction o as [|c o IH]; cbn [put_chars]; [by apply ok_Ret|].
  apply ok_bind, ok_bind, ok_trigger; cbn; [eauto|]. intros a w' [-> ->]. by apply ok_Ret.
Qed.

Lemma stop_at_failure args : forall w,
  ok names_os (fun o w' => o = None /\ w' = w ++ to_failure args) (rm_args args) w /\
  ok names_os (fun o w' => o = None /\ w' = w ++ to_failure args) (mkdir_args args) w.
Proof.
  induction args as [|p args IH]; intros w; cbn [rm_args mkdir_args to_failure].
  - rewrite app_nil_r. split; by apply ok_Exit.
  - destruct (IH (w ++ [p])) as [IH1 IH2]. rewrite <- app_assoc in IH1, IH2.
    split; (apply ok_bind, ok_trigger; cbn [names_os]; [eauto|]); intros a w' [-> ->]; destruct (f p <? 0); try done.
    + apply ok_bind, (names_printf _ _ _ _ (chars "rm: " ++ p ++ chars " failed to delete" ++ [10])); [reflexivity|]. by apply ok_Exit.
    + apply ok_bind, (names_printf _ _ _ _ (chars "mkdir: " ++ p ++ chars " failed to create" ++ [10])); [reflexivity|]. by apply ok_Exit.
Qed.
End Stop.
