(* ===== verification/TestProgs.v ===== *)
(** * Test programs (forktest.c, stressfs.c, test_1.c, test_2.c)

    The programs as trees of system calls, with the heap of umalloc.c, and loops and
    checks that usertests.c uses too. *)

From stdpp Require Import base numbers list gmap strings.
From Stdlib Require Import ZArith Lia.
From S2P Require Import Prelude Ulib Block Umalloc Fs Sysfile User Filters.
From ITree Require Import ITree.

Local Open Scope Z_scope.
Local Open Scope prog_scope.

(** ** Loops and checks *)

(** for(i = from; i < from + k; i++) *)
Fixpoint for_ (k : nat) (from : Z) (body : Z -> prog unit) : prog unit :=
  match k with
  | O => Ret tt
  | S k' => body from;; for_ k' (from + 1) body
  end.

(** The same, with variables that the body changes. *)
Fixpoint for_acc {A} (k : nat) (from : Z) (body : Z -> A -> prog A) (a : A) : prog A :=
  match k with
  | O => Ret a
  | S k' => a' <- body from a;; for_acc k' (from + 1) body a'
  end.

(** if(b){ printf(1, msg, ...); exit(); } *)
Definition fail_with (b : bool) (msg : list Z) (args : list arg) : prog unit :=
  if b then printf 1 msg args;; exit else Ret tt.
Definition fail_if (b : bool) (msg : list Z) : prog unit := fail_with b msg [].

Definition say (s : list Z) : prog unit := printf 1 s [].

(** Copying [d] to the start of the array [buf]. *)
Definition fill (buf d : list Z) : list Z := d ++ drop (length d) buf.

(** ** The heap of a program *)

(** The answers that sbrk has given during a call of malloc; [Asked n] when it needs
    one more, for sbrk(n). *)
Inductive brks := Answers (l : list Z) | Asked (n : Z).

Abbreviation heap := (@ustate brks).

Definition next_brk (n : Z) (e : brks) : Z * brks :=
  match e with
  | Answers (a :: l) => (a, Answers l)
  | Answers [] => (4294967295, Asked n)
  | Asked m => (4294967295, Asked m)
  end.

(** The address of base; two turns round the free list. *)
Definition base_addr : Z := 4096.
Definition heap_fuel (u : heap) : nat := (2 * size (hdrs u) + 10)%nat.
Definition heap0 : heap := mkUstate ∅ 0 (Answers []).
Definition with_brks (l : list Z) (u : heap) : heap := mkUstate (hdrs u) (freep u) (Answers l).

Definition malloc_prog (n : Z) (u : heap) : prog (Z * heap) :=
  ITree.iter (fun brks : list Z =>
    match Umalloc.malloc base_addr next_brk (heap_fuel u) n (with_brks brks u) with
    | Prelude.Ret p u' =>
        match env u' with
        | Asked m => a <- sbrk m;; Ret (inl (brks ++ [u32 a])%list)
        | Answers _ => Ret (inr (p, u'))
        end
    | _ => ITree.spin
    end) [].

Definition free_prog (p : Z) (u : heap) : prog heap :=
  match Umalloc.free (heap_fuel u) p u with
  | Prelude.Ret _ u' => Ret u'
  | _ => ITree.spin
  end.

Definition malloc_wf_prog (n : Z) (u : heap) : prog (Z * heap) :=
  match Umalloc.malloc_wf n u with
  | Prelude.Ret p u' => Ret (p, u')
  | _ => ITree.spin
  end.

(** print_free_list of umalloc.c. *)
Definition print_free_list (u : heap) : prog unit :=
  say (chars "Header -> ");;
  if freep u =? 0 then say (line "NULL")
  else
    ITree.iter (fun p : Z =>
      if p =? base_addr then Ret (inr tt)
      else printf 1 (chars "%d -> ") [AInt (hsize u p)];; Ret (inl (hptr u p))) (hptr u base_addr);;
    say (line "NULL").

(** It prints the sizes of the free blocks in their order. *)
Definition free_list_text (l : list (Z * Z)) : list Z :=
  chars "Header -> " ++ concat (map (fun b => decimal b.2 ++ chars " -> ") l) ++ line "NULL".

Lemma size_format n : 0 <= n < 2147483648 -> format (chars "%d -> ") [AInt n] = Some (decimal n ++ chars " -> ").
Proof.
  intros Hn. unfold format. change (chars "%d -> ") with [37; 100; 32; 45; 62; 32].
  cbn [imap arg_word]. cbn -[decimal s32 printint app]. rewrite (decimal_eq n) by done. cbn -[decimal app]. done.
Qed.

Lemma print_free_list_correct (u : heap) (l : list (Z * Z)) w : ring base_addr u l -> Forall (fun b => b.2 < 2147483648) l ->
  fds w !! 1 = Some Out ->
  fok (fun o w' => o = Some tt /\ w' = emit 1 (free_list_text l) w) (print_free_list u) w.
Proof.
  intros [Hb Hl Hg Hf] Hs H1. unfold print_free_list. apply ok_bind. apply (printf_ok _ _ _ _ (chars "Header -> ")); [reflexivity|done|].
  assert (Hf0 : freep u <> 0).
  { rewrite fmap_cons, elem_of_cons in Hf. destruct Hf as [->|([a n] & -> & Hin)%list_elem_of_fmap]; [done|].
    destruct (gaps_elem _ _ _ _ Hg Hin). cbn [fst]. unfold base_addr in *. lia. }
  rewrite (proj2 (Z.eqb_neq _ _) Hf0). apply ok_bind. destruct (hptr_linked _ _ _ _ _ Hl) as [-> _]. destruct Hl as [_ Hl].
  unfold free_list_text. rewrite <- emit_emit. generalize (emit 1 (chars "Header -> ") w) (H1 : fds (emit 1 (chars "Header -> ") w) !! 1 = Some Out).
  clear w H1 Hf Hf0. induction l as [|[a n] l IH]; intros w H1; apply ok_iter_round.
  - cbn [hd_or]. rewrite Z.eqb_refl. apply ok_Ret. apply (printf_ok _ _ _ _ (line "NULL")); [reflexivity|done|]. done.
  - apply Forall_cons in Hs as [Hn Hs]. cbn [hd_or linked gaps fst snd] in *. destruct Hl as [Ha Hl], Hg as (Hea & Hpos & Hg).
    rewrite (proj2 (Z.eqb_neq a base_addr)) by lia. unfold hsize, hptr. rewrite Ha. cbn [default fst snd].
    apply ok_bind. eapply printf_ok; [apply (size_format n); lia|done|]. apply ok_Ret. cbn [map concat].
    eapply ok_mono; [apply IH; [done|eapply gaps_weaken; [|exact Hg]; lia|done|done]|]. intros o w' H. destruct o as [[]|]; [|by destruct H].
    eapply ok_mono; [exact H|]. intros o w2 [-> ->]. split; [done|]. by rewrite !emit_emit, <- !app_assoc.
Qed.

(** ** forktest.c *)
Module Forktest.

Definition N : Z := 1000.

(** Its own printf, with one write. *)
Definition printf (fd : Z) (s : list Z) : prog unit := write fd s;; Ret tt.

Definition check (b : bool) (msg : list Z) : prog unit := if b then printf 1 msg;; exit else Ret tt.

(** The loop that forks: how many children there are. *)
Fixpoint fork_loop (k : nat) (n : Z) : prog Z :=
  match k with
  | O => Ret n
  | S k' =>
      pid <- fork;;
      if pid <? 0 then Ret n
      else if pid =? 0 then exit
      else fork_loop k' (n + 1)
  end.

Definition forktest : prog unit :=
  printf 1 (line "fork test");;
  n <- fork_loop (Z.to_nat N) 0;;
  check (n =? N) (line "fork claimed to work N times!");;
  for_ (Z.to_nat n) 0 (fun _ => w <- wait;; check (w <? 0) (line "wait stopped early"));;
  w <- wait;;
  check (negb (w =? -1)) (line "wait got too many");;
  printf 1 (line "fork test OK").

Definition main : prog unit := forktest;; exit.

End Forktest.

(** ** stressfs.c *)
Module Stressfs.

(** The loop that forks until a parent leaves it: the value of i. *)
Fixpoint fork_chain (k : nat) (i : Z) : prog Z :=
  match k with
  | O => Ret i
  | S k' => pid <- fork;; if pid >? 0 then Ret i else fork_chain k' (i + 1)
  end.

Definition main : prog unit :=
  say (line "stressfs starting");;
  let data := replicate 512 97 in
  i <- fork_chain 4 0;;
  printf 1 (line "write %d") [AInt i];;
  let path := (chars "stressfs" ++ [48 + i])%list in
  fd <- open path (Z.lor O_CREATE O_RDWR);;
  for_ 20 0 (fun _ => write fd data;; Ret tt);;
  close fd;;
  say (line "read");;
  fd <- open path O_RDONLY;;
  for_ 20 0 (fun _ => read fd 512;; Ret tt);;
  close fd;;
  wait;;
  exit.

End Stressfs.

(** ** test_1.c *)
Module Test1.

Definition ELEMENTS : Z := Z.shiftl 1 22.

(** The ten fields of struct mem_struct (vm.h) after va, in order. *)
Definition field (m : list Z) (k : nat) : arg := AInt (default 0 (m !! k)).

(** What is printed of a struct mem_struct, with the quoted name in the title. *)
Definition report (title : list Z) (m : list Z) : prog unit :=
  say title;;
  printf 1 (9 :: line "Virtual address: 0x%x") [field m 0];;
  printf 1 (9 :: line "Page directory index: 0x%x, Page table index: 0x%x, Page offset: 0x%x") [field m 1; field m 2; field m 3];;
  printf 1 (9 :: line "Base address of page directory: 0x%x") [field m 4];;
  printf 1 (9 :: line "Address of PDE: 0x%x") [field m 5];;
  printf 1 (9 :: line "PPN inside PDE: 0x%x") [field m 6];;
  printf 1 (9 :: line "Base address of page table (virtual): 0x%x") [field m 7];;
  printf 1 (9 :: line "Address of PTE: 0x%x") [field m 8];;
  printf 1 (9 :: line "PPN inside PTE: 0x%x") [field m 9];;
  printf 1 (9 :: line "Physical address: 0x%x") [field m 10].

Definition quote : Z := 34.

(** walkpt of an address. *)
Definition walk (va : Z) : prog (list Z) :=
  r <- walkpt va;;
  let '(status, m) := r in
  ((if negb (status =? 0) then say (line "systemcall error...") else Ret tt);; Ret m).

(** [a_addr] is the address of the local variable a. *)
Definition main (a_addr : Z) : prog unit :=
  r <- malloc_prog (u32 (ELEMENTS * 4)) heap0;;
  let '(b, u) := r in
  for_ (Z.to_nat ELEMENTS) 0 (fun i => store (u32 (b + 4 * i)) (le32 0));;
  m <- walk a_addr;;
  report (chars "Address translation parameters for local variable " ++ [quote] ++ chars "a" ++ [quote; 10]) m;;
  m <- walk (u32 (b + 4 * (ELEMENTS - 1)));;
  report (chars "Address translation parameters for heap variable " ++ [quote] ++ chars "b[ELEMENTS-1]" ++ [quote; 32; 10]) m;;
  free_prog b u;;
  exit.

End Test1.

(** ** test_2.c *)
Module Test2.

Definition size_array : list Z := [600; 5; 100; 5; 1300; 5; 300; 5; 800; 5].
Definition size_array2 : list Z := [200; 900; 300; 100; 700].
Definition size_array3 : list Z := [500; 200; 300; 200; 400].

(** The ten calls of malloc: the array of pointers. *)
Fixpoint malloc_all (sizes : list Z) (u : heap) : prog (list Z * heap) :=
  match sizes with
  | [] => Ret ([], u)
  | n :: sizes' =>
      r <- malloc_prog (u32 (n * 8 - 8)) u;;
      let '(p, u) := r in
      store p (le32 0);;
      r <- malloc_all sizes' u;;
      let '(ps, u) := r in
      Ret (p :: ps, u)
  end.

(** The five calls of free, of the pointers with even index. *)
Fixpoint free_even (ps : list Z) (u : heap) : prog heap :=
  match ps with
  | p :: _ :: ps' => u <- free_prog p u;; free_even ps' u
  | _ => Ret u
  end.

(** printf of the call, and the call. *)
Fixpoint malloc_each (fmt : list Z) (mall : Z -> heap -> prog (Z * heap)) (sizes : list Z) (u : heap) : prog heap :=
  match sizes with
  | [] => Ret u
  | n :: sizes' =>
      printf 1 fmt [AInt n];;
      r <- mall (u32 (n * 8 - 8)) u;;
      malloc_each fmt mall sizes' (snd r)
  end.

Definition main : prog unit :=
  say (line "----------------malloc 10 times-----------------");;
  r <- malloc_all size_array heap0;;
  let '(ps, u) := r in
  print_free_list u;;
  say (line "-----------------free 5 times-------------------");;
  u <- free_even ps u;;
  print_free_list u;;
  say (line "------------------first fit---------------------");;
  u <- malloc_each (line "malloc(%d)") malloc_prog size_array2 u;;
  print_free_list u;;
  say (line "------------------worst fit---------------------");;
  u <- malloc_each (line "malloc_wf(%d)") malloc_wf_prog size_array3 u;;
  print_free_list u;;
  exit.

End Test2.
