(* ===== verification/Usertests.v ===== *)
(** * The tests of the kernel (usertests.c)

    The tests as trees of system calls.  A test that changes the global array buf
    takes and returns what it holds; the output goes to descriptor 1, stdout. *)

From stdpp Require Import base numbers list gmap strings.
From Stdlib Require Import ZArith Lia.
From S2P Require Import Prelude Mmu Ulib Block Umalloc Fs FsDir Sysfile User TestProgs.
From ITree Require Import ITree.

Local Open Scope Z_scope.
Local Open Scope prog_scope.

Definition sizeof_buf : Z := 8192.
Definition buf0 : list Z := replicate (Z.to_nat sizeof_buf) 0.
Definition echoargv : list (list Z) := [chars "echo"; chars "ALL"; chars "TESTS"; chars "PASSED"].

(** A read into the array [b]: the result and the array. *)
Definition read_into (b : list Z) (fd n : Z) : prog (Z * list Z) :=
  r <- read fd n;;
  let '(cc, d) := r in Ret (cc, fill b d).

Definition O_CREATE_RDWR : Z := Z.lor O_CREATE O_RDWR.

(** ** iput in a transaction *)
Definition iputtest : prog unit :=
  say (line "iput test");;
  r <- mkdir (chars "iputdir");;
  fail_if (r <? 0) (line "mkdir failed");;
  r <- chdir (chars "iputdir");;
  fail_if (r <? 0) (line "chdir iputdir failed");;
  r <- unlink (chars "../iputdir");;
  fail_if (r <? 0) (line "unlink ../iputdir failed");;
  r <- chdir (chars "/");;
  fail_if (r <? 0) (line "chdir / failed");;
  say (line "iput test ok").

Definition exitiputtest : prog unit :=
  say (line "exitiput test");;
  pid <- fork;;
  fail_if (pid <? 0) (line "fork failed");;
  (if pid =? 0 then
     r <- mkdir (chars "iputdir");;
     fail_if (r <? 0) (line "mkdir failed");;
     r <- chdir (chars "iputdir");;
     fail_if (r <? 0) (line "child chdir failed");;
     r <- unlink (chars "../iputdir");;
     fail_if (r <? 0) (line "unlink ../iputdir failed");;
     exit
   else Ret tt);;
  wait;;
  say (line "exitiput test ok").

Definition openiputtest : prog unit :=
  say (line "openiput test");;
  r <- mkdir (chars "oidir");;
  fail_if (r <? 0) (line "mkdir oidir failed");;
  pid <- fork;;
  fail_if (pid <? 0) (line "fork failed");;
  (if pid =? 0 then
     fd <- open (chars "oidir") O_RDWR;;
     fail_if (fd >=? 0) (line "open directory for write succeeded");;
     exit
   else Ret tt);;
  sleep 1;;
  r <- unlink (chars "oidir");;
  fail_if (negb (r =? 0)) (line "unlink failed");;
  wait;;
  say (line "openiput test ok").

(** ** Simple file system tests *)
Definition opentest : prog unit :=
  say (line "open test");;
  fd <- open (chars "echo") 0;;
  fail_if (fd <? 0) (line "open echo failed!");;
  close fd;;
  fd <- open (chars "doesnotexist") 0;;
  fail_if (fd >=? 0) (line "open doesnotexist succeeded!");;
  say (line "open test ok").

Definition writetest (buf : list Z) : prog (list Z) :=
  say (line "small file test");;
  fd <- open (chars "small") O_CREATE_RDWR;;
  (if fd >=? 0 then say (line "creat small succeeded; ok")
   else say (line "error: creat small failed!");; exit);;
  for_ 100 0 (fun i =>
    r <- write fd (chars "aaaaaaaaaa");;
    fail_with (negb (r =? 10)) (line "error: write aa %d new file failed") [AInt i];;
    r <- write fd (chars "bbbbbbbbbb");;
    fail_with (negb (r =? 10)) (line "error: write bb %d new file failed") [AInt i]);;
  say (line "writes ok");;
  close fd;;
  fd <- open (chars "small") O_RDONLY;;
  (if fd >=? 0 then say (line "open small succeeded ok")
   else say (line "error: open small failed!");; exit);;
  r <- read_into buf fd 2000;;
  let '(i, buf) := r in
  (if i =? 2000 then say (line "read succeeded ok")
   else say (line "read failed");; exit);;
  close fd;;
  r <- unlink (chars "small");;
  fail_if (r <? 0) (line "unlink small failed");;
  say (line "small file test ok");;
  Ret buf.

(** The loop of writetest1 that reads: [n] blocks so far. *)
Definition read_blocks (fd : Z) (st : Z * list Z) : prog (Z * list Z + list Z) :=
  let '(n, buf) := st in
  r <- read_into buf fd 512;;
  let '(i, buf) := r in
  if i =? 0 then
    fail_with (n =? MAXFILE - 1) (chars "read only %d blocks from big") [AInt n];;
    Ret (inr buf)
  else
    fail_with (negb (i =? 512)) (line "read failed %d") [AInt i];;
    fail_with (negb (s32 (get32 buf 0) =? n)) (line "read content of block %d is %d") [AInt n; AInt (s32 (get32 buf 0))];;
    Ret (inl (n + 1, buf)).

Definition writetest1 (buf : list Z) : prog (list Z) :=
  say (line "big files test");;
  fd <- open (chars "big") O_CREATE_RDWR;;
  fail_if (fd <? 0) (line "error: creat big failed!");;
  buf <- for_acc (Z.to_nat MAXFILE) 0 (fun i buf =>
    let buf := fill buf (le32 i) in
    r <- write fd (take 512 buf);;
    fail_with (negb (r =? 512)) (line "error: write big file failed") [AInt i];;
    Ret buf) buf;;
  close fd;;
  fd <- open (chars "big") O_RDONLY;;
  fail_if (fd <? 0) (line "error: open big failed!");;
  buf <- ITree.iter (read_blocks fd) (0, buf);;
  close fd;;
  r <- unlink (chars "big");;
  fail_if (r <? 0) (line "unlink big failed");;
  say (line "big files ok");;
  Ret buf.

(** The names a0, a1, ... *)
Definition createtest : prog unit :=
  say (line "many creates, followed by unlink test");;
  for_ 52 0 (fun i => fd <- open [97; 48 + i] O_CREATE_RDWR;; close fd;; Ret tt);;
  for_ 52 0 (fun i => unlink [97; 48 + i];; Ret tt);;
  say (line "many creates, followed by unlink; ok").

Definition dirtest : prog unit :=
  say (line "mkdir test");;
  r <- mkdir (chars "dir0");;
  fail_if (r <? 0) (line "mkdir failed");;
  r <- chdir (chars "dir0");;
  fail_if (r <? 0) (line "chdir dir0 failed");;
  r <- chdir (chars "..");;
  fail_if (r <? 0) (line "chdir .. failed");;
  r <- unlink (chars "dir0");;
  fail_if (r <? 0) (line "unlink dir0 failed");;
  say (line "mkdir test ok").

Definition exectest : prog unit :=
  say (line "exec test");;
  r <- exec (chars "echo") echoargv;;
  fail_if (r <? 0) (line "exec echo failed").

(** ** Processes and pipes *)

(** The bytes from, from + 1, ... as chars. *)
Definition seq_bytes (n : nat) (from : Z) : list Z := map (fun k => (from + Z.of_nat k) mod 256) (seq 0 n).

(** The parent's loop of pipe1, with total, cc, seq and buf; the result is total, or
    none when a byte was wrong. *)
Definition pipe1_read (fd : Z) (st : Z * Z * Z * list Z) : prog (Z * Z * Z * list Z + option Z * list Z) :=
  let '(total, cc, seq, buf) := st in
  r <- read_into buf fd cc;;
  let '(n, buf) := r in
  if n >? 0 then
    if bool_decide (take (Z.to_nat n) buf = seq_bytes (Z.to_nat n) seq) then
      Ret (inl (total + n, if cc * 2 >? sizeof_buf then sizeof_buf else cc * 2, seq + n, buf))
    else say (line "pipe1 oops 2");; Ret (inr (None, buf))
  else Ret (inr (Some total, buf)).

(** The child's loop. *)
Definition pipe1_write (fd : Z) (buf : list Z) : prog unit :=
  for_ 5 0 (fun n =>
    r <- write fd (take 1033 (fill buf (seq_bytes 1033 (1033 * n))));;
    fail_if (negb (r =? 1033)) (line "pipe1 oops 1"));;
  exit.

Definition pipe1 (buf : list Z) : prog (list Z) :=
  r <- pipe;;
  let '(r, (fds0, fds1)) := r in
  fail_if (negb (r =? 0)) (line "pipe() failed");;
  pid <- fork;;
  if pid =? 0 then close fds0;; pipe1_write fds1 buf;; Ret buf
  else if pid >? 0 then
    close fds1;;
    r <- ITree.iter (pipe1_read fds0) (0, 1, 0, buf);;
    let '(r, buf) := r in
    match r with
    | None => Ret buf
    | Some total =>
        fail_with (negb (total =? 5 * 1033)) (line "pipe1 oops 3 total %d") [AInt total];;
        close fds0;;
        wait;;
        say (line "pipe1 ok");;
        Ret buf
    end
  else say (line "fork() failed");; exit.

Definition preempt (buf : list Z) : prog (list Z) :=
  say (chars "preempt: ");;
  pid1 <- fork;;
  (if pid1 =? 0 then ITree.spin else Ret tt);;
  pid2 <- fork;;
  (if pid2 =? 0 then ITree.spin else Ret tt);;
  r <- pipe;;
  let '(_, (pfds0, pfds1)) := r in
  pid3 <- fork;;
  (if pid3 =? 0 then
     close pfds0;;
     r <- write pfds1 (chars "x");;
     (if negb (r =? 1) then say (chars "preempt write error") else Ret tt);;
     close pfds1;;
     ITree.spin
   else Ret tt);;
  close pfds1;;
  r <- read_into buf pfds0 sizeof_buf;;
  let '(n, buf) := r in
  if negb (n =? 1) then say (chars "preempt read error");; Ret buf
  else
    close pfds0;;
    say (chars "kill... ");;
    kill pid1;;
    kill pid2;;
    kill pid3;;
    say (chars "wait... ");;
    wait;;
    wait;;
    wait;;
    say (line "preempt ok");;
    Ret buf.

(** The loop of exitwait; [false] when the test returns early. *)
Fixpoint exitwait_loop (k : nat) : prog bool :=
  match k with
  | O => Ret true
  | S k' =>
      pid <- fork;;
      if pid <? 0 then say (line "fork failed");; Ret false
      else if negb (pid =? 0) then
        w <- wait;;
        if negb (w =? pid) then say (line "wait wrong pid");; Ret false else exitwait_loop k'
      else exit
  end.

Definition exitwait : prog unit :=
  r <- exitwait_loop 100;;
  if r then say (line "exitwait ok") else Ret tt.

(** ** Memory *)

(** mem's loop that takes all memory, keeping the blocks in a list through their first
    words; [m1] is the last block. *)
Definition mem_take (st : Z * heap) : prog (Z * heap + Z * heap) :=
  let '(m1, u) := st in
  r <- malloc_prog 10001 u;;
  let '(m2, u) := r in
  if negb (m2 =? 0) then store m2 (le32 m1);; Ret (inl (m2, u)) else Ret (inr (m1, u)).

(** The loop that frees the list. *)
Definition mem_give (st : Z * heap) : prog (Z * heap + heap) :=
  let '(m1, u) := st in
  if negb (m1 =? 0) then
    d <- load m1 4;;
    u <- free_prog m1 u;;
    Ret (inl (get32 d 0, u))
  else Ret (inr u).

Definition mem : prog unit :=
  say (line "mem test");;
  ppid <- getpid;;
  pid <- fork;;
  if pid =? 0 then
    r <- ITree.iter mem_take (0, heap0);;
    u <- ITree.iter mem_give r;;
    r <- malloc_prog (1024 * 20) u;;
    let '(m1, u) := r in
    (if m1 =? 0 then say (line "couldn't allocate mem?!!");; kill ppid;; exit else Ret tt);;
    free_prog m1 u;;
    say (line "mem ok");;
    exit
  else wait;; Ret tt.

(** ** More file system tests *)

(** How often [c] is in the array. *)
Definition count_char (c : Z) (b : list Z) : Z := Z.of_nat (length (filter (fun x => x = c) b)).

(** sharedfd's loop that writes, which stops when a write fails. *)
Fixpoint write_records (k : nat) (fd : Z) (b : list Z) : prog unit :=
  match k with
  | O => Ret tt
  | S k' =>
      r <- write fd b;;
      if negb (r =? Z.of_nat (length b)) then say (line "fstests: write sharedfd failed") else write_records k' fd b
  end.

(** The loop that counts, with nc, np and the array. *)
Definition count_records (fd : Z) (st : Z * Z * list Z) : prog (Z * Z * list Z + Z * Z) :=
  let '(nc, np, b) := st in
  r <- read_into b fd 10;;
  let '(n, b) := r in
  if n >? 0 then Ret (inl (nc + count_char 99 b, np + count_char 112 b, b)) else Ret (inr (nc, np)).

Definition sharedfd : prog unit :=
  say (line "sharedfd test");;
  unlink (chars "sharedfd");;
  fd <- open (chars "sharedfd") O_CREATE_RDWR;;
  if fd <? 0 then say (chars "fstests: cannot open sharedfd for writing")
  else
    pid <- fork;;
    let b := replicate 10 (if pid =? 0 then 99 else 112) in
    write_records (Z.to_nat 1000) fd b;;
    (if pid =? 0 then exit else wait;; Ret tt);;
    close fd;;
    fd <- open (chars "sharedfd") 0;;
    if fd <? 0 then say (line "fstests: cannot open sharedfd for reading")
    else
      r <- ITree.iter (count_records fd) (0, 0, b);;
      let '(nc, np) := r in
      close fd;;
      unlink (chars "sharedfd");;
      if (nc =? 10000) && (np =? 10000) then say (line "sharedfd ok")
      else printf 1 (line "sharedfd oops %d %d") [AInt nc; AInt np];; exit.

(** The names f0, f1, f2, f3. *)
Definition fname (i : Z) : list Z := [102; 48 + i].

(** The child [pi] of fourfiles. *)
Definition fourfiles_child (pi : Z) (buf : list Z) : prog unit :=
  fd <- open (fname pi) O_CREATE_RDWR;;
  fail_if (fd <? 0) (line "create failed");;
  let buf := fill buf (replicate 512 (48 + pi)) in
  for_ 12 0 (fun _ =>
    n <- write fd (take 500 buf);;
    fail_with (negb (n =? 500)) (line "write failed %d") [AInt n]);;
  exit.

(** The loop that reads file [i], with total and buf. *)
Definition fourfiles_read (i fd : Z) (st : Z * list Z) : prog (Z * list Z + Z * list Z) :=
  let '(total, buf) := st in
  r <- read_into buf fd sizeof_buf;;
  let '(n, buf) := r in
  if n >? 0 then
    fail_if (negb (forallb (Z.eqb (48 + i)) (take (Z.to_nat n) buf))) (line "wrong char");;
    Ret (inl (total + n, buf))
  else Ret (inr (total, buf)).

Definition fourfiles (buf : list Z) : prog (list Z) :=
  say (line "fourfiles test");;
  for_ 4 0 (fun pi =>
    unlink (fname pi);;
    pid <- fork;;
    fail_if (pid <? 0) (line "fork failed");;
    if pid =? 0 then fourfiles_child pi buf else Ret tt);;
  for_ 4 0 (fun _ => wait;; Ret tt);;
  buf <- for_acc 2 0 (fun i buf =>
    fd <- open (fname i) 0;;
    r <- ITree.iter (fourfiles_read i fd) (0, buf);;
    let '(total, buf) := r in
    close fd;;
    fail_with (negb (total =? 12 * 500)) (line "wrong length %d") [AInt total];;
    unlink (fname i);;
    Ret buf) buf;;
  say (line "fourfiles ok");;
  Ret buf.

Definition createdelete_N : Z := 20.

(** The child [pi] of createdelete. *)
Definition createdelete_child (pi : Z) : prog unit :=
  for_ (Z.to_nat createdelete_N) 0 (fun i =>
    fd <- open [112 + pi; 48 + i] O_CREATE_RDWR;;
    fail_if (fd <? 0) (line "create failed");;
    close fd;;
    if (i >? 0) && (i mod 2 =? 0) then
      r <- unlink [112 + pi; 48 + i / 2];;
      fail_if (r <? 0) (line "unlink failed")
    else Ret tt);;
  exit.

(** What is expected of the file [i] of child [pi]. *)
Definition createdelete_check (i pi : Z) : prog unit :=
  let name := [112 + pi; 48 + i] in
  fd <- open name 0;;
  (if ((i =? 0) || (i >=? createdelete_N / 2)) && (fd <? 0)
   then printf 1 (line "oops createdelete %s didn't exist") [AStr name];; exit
   else if ((i >=? 1) && (i <? createdelete_N / 2)) && (fd >=? 0)
   then printf 1 (line "oops createdelete %s did exist") [AStr name];; exit
   else Ret tt);;
  if fd >=? 0 then close fd;; Ret tt else Ret tt.

Definition createdelete : prog unit :=
  say (line "createdelete test");;
  for_ 4 0 (fun pi =>
    pid <- fork;;
    fail_if (pid <? 0) (line "fork failed");;
    if pid =? 0 then createdelete_child pi else Ret tt);;
  for_ 4 0 (fun _ => wait;; Ret tt);;
  for_ (Z.to_nat createdelete_N) 0 (fun i => for_ 4 0 (fun pi => createdelete_check i pi));;
  for_ (Z.to_nat createdelete_N) 0 (fun i => for_ 4 0 (fun _ => unlink [112 + i; 48 + i];; Ret tt));;
  say (line "createdelete ok").

Definition unlinkread (buf : list Z) : prog (list Z) :=
  say (line "unlinkread test");;
  fd <- open (chars "unlinkread") O_CREATE_RDWR;;
  fail_if (fd <? 0) (line "create unlinkread failed");;
  write fd (chars "hello");;
  close fd;;
  fd <- open (chars "unlinkread") O_RDWR;;
  fail_if (fd <? 0) (line "open unlinkread failed");;
  r <- unlink (chars "unlinkread");;
  fail_if (negb (r =? 0)) (line "unlink unlinkread failed");;
  fd1 <- open (chars "unlinkread") O_CREATE_RDWR;;
  write fd1 (chars "yyy");;
  close fd1;;
  r <- read_into buf fd sizeof_buf;;
  let '(n, buf) := r in
  fail_if (negb (n =? 5)) (chars "unlinkread read failed");;
  fail_if (negb (getb buf 0 =? 104)) (line "unlinkread wrong data");;
  r <- write fd (take 10 buf);;
  fail_if (negb (r =? 10)) (line "unlinkread write failed");;
  close fd;;
  unlink (chars "unlinkread");;
  say (line "unlinkread ok");;
  Ret buf.

Definition linktest (buf : list Z) : prog (list Z) :=
  say (line "linktest");;
  unlink (chars "lf1");;
  unlink (chars "lf2");;
  fd <- open (chars "lf1") O_CREATE_RDWR;;
  fail_if (fd <? 0) (line "create lf1 failed");;
  r <- write fd (chars "hello");;
  fail_if (negb (r =? 5)) (line "write lf1 failed");;
  close fd;;
  r <- link (chars "lf1") (chars "lf2");;
  fail_if (r <? 0) (line "link lf1 lf2 failed");;
  unlink (chars "lf1");;
  r <- open (chars "lf1") 0;;
  fail_if (r >=? 0) (line "unlinked lf1 but it is still there!");;
  fd <- open (chars "lf2") 0;;
  fail_if (fd <? 0) (line "open lf2 failed");;
  r <- read_into buf fd sizeof_buf;;
  let '(n, buf) := r in
  fail_if (negb (n =? 5)) (line "read lf2 failed");;
  close fd;;
  r <- link (chars "lf2") (chars "lf2");;
  fail_if (r >=? 0) (line "link lf2 lf2 succeeded! oops");;
  unlink (chars "lf2");;
  r <- link (chars "lf2") (chars "lf1");;
  fail_if (r >=? 0) (line "link non-existant succeeded! oops");;
  r <- link (chars ".") (chars "lf1");;
  fail_if (r >=? 0) (line "link . lf1 succeeded! oops");;
  say (line "linktest ok");;
  Ret buf.

(** The names C0, C1, ... *)
Definition cfile (i : Z) : list Z := [67; 48 + i].

(** concreate's first loop, for one file. *)
Definition concreate_make (i : Z) : prog unit :=
  unlink (cfile i);;
  pid <- fork;;
  (if negb (pid =? 0) && (i mod 3 =? 1) then link (chars "C0") (cfile i);; Ret tt
   else if (pid =? 0) && (i mod 5 =? 1) then link (chars "C0") (cfile i);; Ret tt
   else
     fd <- open (cfile i) O_CREATE_RDWR;;
     fail_with (fd <? 0) (line "concreate create %s failed") [AStr (cfile i)];;
     close fd;; Ret tt);;
  if pid =? 0 then exit else wait;; Ret tt.

(** A char as a signed byte. *)
Definition s8 (x : Z) : Z := if x <? 128 then x else x - 256.

(** The loop over the directory, with n, fa and de; the string de.name. *)
Definition concreate_read (fd : Z) (st : Z * list bool * list Z) : prog (Z * list bool * list Z + Z) :=
  let '(n, fa, de) := st in
  r <- read_into de fd 16;;
  let '(r, de) := r in
  if r >? 0 then
    if de_inum de =? 0 then Ret (inl (n, fa, de))
    else if (getb (de_name de) 0 =? 67) && (getb (de_name de) 2 =? 0) then
      let i := s8 (getb (de_name de) 1) - 48 in
      let name := AStr (upto_nul (de_name de)) in
      fail_with ((i <? 0) || (i >=? 40)) (line "concreate weird file %s") [name];;
      fail_with (default false (fa !! Z.to_nat i)) (line "concreate duplicate file %s") [name];;
      Ret (inl (n + 1, <[Z.to_nat i := true]> fa, de))
    else Ret (inl (n, fa, de))
  else Ret (inr n).

(** The last loop, for one file. *)
Definition concreate_clean (i : Z) : prog unit :=
  pid <- fork;;
  fail_if (pid <? 0) (line "fork failed");;
  (if ((i mod 3 =? 0) && (pid =? 0)) || ((i mod 3 =? 1) && negb (pid =? 0))
   then for_ 4 0 (fun _ => fd <- open (cfile i) 0;; close fd;; Ret tt)
   else for_ 4 0 (fun _ => unlink (cfile i);; Ret tt));;
  if pid =? 0 then exit else wait;; Ret tt.

Definition concreate : prog unit :=
  say (line "concreate test");;
  for_ 40 0 concreate_make;;
  fd <- open (chars ".") 0;;
  n <- ITree.iter (concreate_read fd) (0, replicate 40 false, replicate 16 0);;
  close fd;;
  fail_if (negb (n =? 40)) (line "concreate not enough files in directory listing");;
  for_ 40 0 concreate_clean;;
  say (line "concreate ok").

Definition linkunlink : prog unit :=
  say (line "linkunlink test");;
  unlink (chars "x");;
  pid <- fork;;
  fail_if (pid <? 0) (line "fork failed");;
  for_acc 100 0 (fun _ x =>
    let x := u32 (x * 1103515245 + 12345) in
    (if x mod 3 =? 0 then fd <- open (chars "x") (Z.lor O_RDWR O_CREATE);; close fd;; Ret tt
     else if x mod 3 =? 1 then link (chars "cat") (chars "x");; Ret tt
     else unlink (chars "x");; Ret tt);;
    Ret x) (if negb (pid =? 0) then 1 else 97);;
  (if negb (pid =? 0) then wait;; Ret tt else exit);;
  say (line "linkunlink ok").

(** The name of entry [i] of bigdir. *)
Definition bigdir_name (i : Z) : list Z := [120; 48 + i / 64; 48 + i mod 64].

Definition bigdir : prog unit :=
  say (line "bigdir test");;
  unlink (chars "bd");;
  fd <- open (chars "bd") O_CREATE;;
  fail_if (fd <? 0) (line "bigdir create failed");;
  close fd;;
  for_ 500 0 (fun i =>
    r <- link (chars "bd") (bigdir_name i);;
    fail_if (negb (r =? 0)) (line "bigdir link failed"));;
  unlink (chars "bd");;
  for_ 500 0 (fun i =>
    r <- unlink (bigdir_name i);;
    fail_if (negb (r =? 0)) (chars "bigdir unlink failed"));;
  say (line "bigdir ok").

(** subdir: a directory in a directory, and a link in it. *)
Definition subdir_make (buf : list Z) : prog (list Z) :=
  say (line "subdir test");;
  unlink (chars "ff");;
  r <- mkdir (chars "dd");;
  fail_if (negb (r =? 0)) (line "subdir mkdir dd failed");;
  fd <- open (chars "dd/ff") O_CREATE_RDWR;;
  fail_if (fd <? 0) (line "create dd/ff failed");;
  write fd (chars "ff");;
  close fd;;
  r <- unlink (chars "dd");;
  fail_if (r >=? 0) (line "unlink dd (non-empty dir) succeeded!");;
  r <- mkdir (chars "/dd/dd");;
  fail_if (negb (r =? 0)) (line "subdir mkdir dd/dd failed");;
  fd <- open (chars "dd/dd/ff") O_CREATE_RDWR;;
  fail_if (fd <? 0) (line "create dd/dd/ff failed");;
  write fd (chars "FF");;
  close fd;;
  fd <- open (chars "dd/dd/../ff") 0;;
  fail_if (fd <? 0) (line "open dd/dd/../ff failed");;
  r <- read_into buf fd sizeof_buf;;
  let '(cc, buf) := r in
  fail_if (negb (cc =? 2) || negb (getb buf 0 =? 102)) (line "dd/dd/../ff wrong content");;
  close fd;;
  r <- link (chars "dd/dd/ff") (chars "dd/dd/ffff");;
  fail_if (negb (r =? 0)) (line "link dd/dd/ff dd/dd/ffff failed");;
  r <- unlink (chars "dd/dd/ff");;
  fail_if (negb (r =? 0)) (line "unlink dd/dd/ff failed");;
  r <- open (chars "dd/dd/ff") O_RDONLY;;
  fail_if (r >=? 0) (line "open (unlinked) dd/dd/ff succeeded");;
  Ret buf.

(** Changes of directory, back to the root. *)
Definition subdir_walk (buf : list Z) : prog (list Z) :=
  r <- chdir (chars "dd");;
  fail_if (negb (r =? 0)) (line "chdir dd failed");;
  r <- chdir (chars "dd/../../dd");;
  fail_if (negb (r =? 0)) (line "chdir dd/../../dd failed");;
  r <- chdir (chars "dd/../../../dd");;
  fail_if (negb (r =? 0)) (line "chdir dd/../../dd failed");;
  r <- chdir (chars "./..");;
  fail_if (negb (r =? 0)) (line "chdir ./.. failed");;
  fd <- open (chars "dd/dd/ffff") 0;;
  fail_if (fd <? 0) (line "open dd/dd/ffff failed");;
  r <- read_into buf fd sizeof_buf;;
  let '(n, buf) := r in
  fail_if (negb (n =? 2)) (line "read dd/dd/ffff wrong len");;
  close fd;;
  r <- open (chars "dd/dd/ff") O_RDONLY;;
  fail_if (r >=? 0) (line "open (unlinked) dd/dd/ff succeeded!");;
  Ret buf.

(** Calls that must be refused. *)
Definition subdir_refused : prog unit :=
  r <- open (chars "dd/ff/ff") O_CREATE_RDWR;;
  fail_if (r >=? 0) (line "create dd/ff/ff succeeded!");;
  r <- open (chars "dd/xx/ff") O_CREATE_RDWR;;
  fail_if (r >=? 0) (line "create dd/xx/ff succeeded!");;
  r <- open (chars "dd") O_CREATE;;
  fail_if (r >=? 0) (line "create dd succeeded!");;
  r <- open (chars "dd") O_RDWR;;
  fail_if (r >=? 0) (line "open dd rdwr succeeded!");;
  r <- open (chars "dd") O_WRONLY;;
  fail_if (r >=? 0) (line "open dd wronly succeeded!");;
  r <- link (chars "dd/ff/ff") (chars "dd/dd/xx");;
  fail_if (r =? 0) (line "link dd/ff/ff dd/dd/xx succeeded!");;
  r <- link (chars "dd/xx/ff") (chars "dd/dd/xx");;
  fail_if (r =? 0) (line "link dd/xx/ff dd/dd/xx succeeded!");;
  r <- link (chars "dd/ff") (chars "dd/dd/ffff");;
  fail_if (r =? 0) (line "link dd/ff dd/dd/ffff succeeded!");;
  r <- mkdir (chars "dd/ff/ff");;
  fail_if (r =? 0) (line "mkdir dd/ff/ff succeeded!");;
  r <- mkdir (chars "dd/xx/ff");;
  fail_if (r =? 0) (line "mkdir dd/xx/ff succeeded!");;
  r <- mkdir (chars "dd/dd/ffff");;
  fail_if (r =? 0) (line "mkdir dd/dd/ffff succeeded!");;
  r <- unlink (chars "dd/xx/ff");;
  fail_if (r =? 0) (line "unlink dd/xx/ff succeeded!");;
  r <- unlink (chars "dd/ff/ff");;
  fail_if (r =? 0) (line "unlink dd/ff/ff succeeded!");;
  r <- chdir (chars "dd/ff");;
  fail_if (r =? 0) (line "chdir dd/ff succeeded!");;
  r <- chdir (chars "dd/xx");;
  fail_if (r =? 0) (line "chdir dd/xx succeeded!");;
  Ret tt.

Definition subdir_remove : prog unit :=
  r <- unlink (chars "dd/dd/ffff");;
  fail_if (negb (r =? 0)) (line "unlink dd/dd/ff failed");;
  r <- unlink (chars "dd/ff");;
  fail_if (negb (r =? 0)) (line "unlink dd/ff failed");;
  r <- unlink (chars "dd");;
  fail_if (r =? 0) (line "unlink non-empty dd succeeded!");;
  r <- unlink (chars "dd/dd");;
  fail_if (r <? 0) (line "unlink dd/dd failed");;
  r <- unlink (chars "dd");;
  fail_if (r <? 0) (line "unlink dd failed");;
  Ret tt.

Definition subdir (buf : list Z) : prog (list Z) :=
  buf <- subdir_make buf;;
  buf <- subdir_walk buf;;
  subdir_refused;;
  subdir_remove;;
  say (line "subdir ok");;
  Ret buf.

(** The body of bigwrite's loop. *)
Definition bigwrite_one (sz : Z) (buf : list Z) : prog unit :=
  fd <- open (chars "bigwrite") O_CREATE_RDWR;;
  fail_if (fd <? 0) (line "cannot create bigwrite");;
  for_ 2 0 (fun _ =>
    cc <- write fd (take (Z.to_nat sz) buf);;
    fail_with (negb (cc =? sz)) (line "write(%d) ret %d") [AInt sz; AInt cc]);;
  close fd;;
  unlink (chars "bigwrite");;
  Ret tt.

Definition bigwrite (buf : list Z) : prog unit :=
  say (line "bigwrite test");;
  unlink (chars "bigwrite");;
  ITree.iter (fun sz =>
    if sz <? 12 * 512 then bigwrite_one sz buf;; Ret (inl (sz + 471)) else Ret (inr tt)) 499;;
  say (line "bigwrite ok").

(** The loop of bigfile that reads, with i, total and buf. *)
Definition bigfile_read (fd : Z) (st : Z * Z * list Z) : prog (Z * Z * list Z + Z * list Z) :=
  let '(i, total, buf) := st in
  r <- read_into buf fd 300;;
  let '(cc, buf) := r in
  fail_if (cc <? 0) (line "read bigfile failed");;
  if cc =? 0 then Ret (inr (total, buf))
  else
    fail_if (negb (cc =? 300)) (line "short read bigfile");;
    fail_if (negb (getb buf 0 =? i / 2) || negb (getb buf 299 =? i / 2)) (line "read bigfile wrong data");;
    Ret (inl (i + 1, total + cc, buf)).

Definition bigfile (buf : list Z) : prog (list Z) :=
  say (line "bigfile test");;
  unlink (chars "bigfile");;
  fd <- open (chars "bigfile") O_CREATE_RDWR;;
  fail_if (fd <? 0) (chars "cannot create bigfile");;
  buf <- for_acc 20 0 (fun i buf =>
    let buf := fill buf (replicate 600 i) in
    r <- write fd (take 600 buf);;
    fail_if (negb (r =? 600)) (line "write bigfile failed");;
    Ret buf) buf;;
  close fd;;
  fd <- open (chars "bigfile") 0;;
  fail_if (fd <? 0) (line "cannot open bigfile");;
  r <- ITree.iter (bigfile_read fd) (0, 0, buf);;
  let '(total, buf) := r in
  close fd;;
  fail_if (negb (total =? 20 * 600)) (line "read bigfile wrong total");;
  unlink (chars "bigfile");;
  say (line "bigfile test ok");;
  Ret buf.

Definition fourteen : prog unit :=
  say (line "fourteen test");;
  r <- mkdir (chars "12345678901234");;
  fail_if (negb (r =? 0)) (line "mkdir 12345678901234 failed");;
  r <- mkdir (chars "12345678901234/123456789012345");;
  fail_if (negb (r =? 0)) (line "mkdir 12345678901234/123456789012345 failed");;
  fd <- open (chars "123456789012345/123456789012345/123456789012345") O_CREATE;;
  fail_if (fd <? 0) (line "create 123456789012345/123456789012345/123456789012345 failed");;
  close fd;;
  fd <- open (chars "12345678901234/12345678901234/12345678901234") 0;;
  fail_if (fd <? 0) (line "open 12345678901234/12345678901234/12345678901234 failed");;
  close fd;;
  r <- mkdir (chars "12345678901234/12345678901234");;
  fail_if (r =? 0) (line "mkdir 12345678901234/12345678901234 succeeded!");;
  r <- mkdir (chars "123456789012345/12345678901234");;
  fail_if (r =? 0) (line "mkdir 12345678901234/123456789012345 succeeded!");;
  say (line "fourteen ok").

Definition rmdot : prog unit :=
  say (line "rmdot test");;
  r <- mkdir (chars "dots");;
  fail_if (negb (r =? 0)) (line "mkdir dots failed");;
  r <- chdir (chars "dots");;
  fail_if (negb (r =? 0)) (line "chdir dots failed");;
  r <- unlink (chars ".");;
  fail_if (r =? 0) (line "rm . worked!");;
  r <- unlink (chars "..");;
  fail_if (r =? 0) (line "rm .. worked!");;
  r <- chdir (chars "/");;
  fail_if (negb (r =? 0)) (line "chdir / failed");;
  r <- unlink (chars "dots/.");;
  fail_if (r =? 0) (line "unlink dots/. worked!");;
  r <- unlink (chars "dots/..");;
  fail_if (r =? 0) (line "unlink dots/.. worked!");;
  r <- unlink (chars "dots");;
  fail_if (negb (r =? 0)) (line "unlink dots failed!");;
  say (line "rmdot ok").

Definition dirfile : prog unit :=
  say (line "dir vs file");;
  fd <- open (chars "dirfile") O_CREATE;;
  fail_if (fd <? 0) (line "create dirfile failed");;
  close fd;;
  r <- chdir (chars "dirfile");;
  fail_if (r =? 0) (line "chdir dirfile succeeded!");;
  fd <- open (chars "dirfile/xx") 0;;
  fail_if (fd >=? 0) (line "create dirfile/xx succeeded!");;
  fd <- open (chars "dirfile/xx") O_CREATE;;
  fail_if (fd >=? 0) (line "create dirfile/xx succeeded!");;
  r <- mkdir (chars "dirfile/xx");;
  fail_if (r =? 0) (line "mkdir dirfile/xx succeeded!");;
  r <- unlink (chars "dirfile/xx");;
  fail_if (r =? 0) (line "unlink dirfile/xx succeeded!");;
  r <- link (chars "README") (chars "dirfile/xx");;
  fail_if (r =? 0) (line "link to dirfile/xx succeeded!");;
  r <- unlink (chars "dirfile");;
  fail_if (negb (r =? 0)) (line "unlink dirfile failed!");;
  fd <- open (chars ".") O_RDWR;;
  fail_if (fd >=? 0) (line "open . for writing succeeded!");;
  fd <- open (chars ".") 0;;
  r <- write fd (chars "x");;
  fail_if (r >? 0) (line "write . succeeded!");;
  close fd;;
  say (line "dir vs file OK").

(** The body of iref's loop. *)
Definition iref_one : prog unit :=
  r <- mkdir (chars "irefd");;
  fail_if (negb (r =? 0)) (line "mkdir irefd failed");;
  r <- chdir (chars "irefd");;
  fail_if (negb (r =? 0)) (line "chdir irefd failed");;
  mkdir [];;
  link (chars "README") [];;
  fd <- open [] O_CREATE;;
  (if fd >=? 0 then close fd;; Ret tt else Ret tt);;
  fd <- open (chars "xx") O_CREATE;;
  (if fd >=? 0 then close fd;; Ret tt else Ret tt);;
  unlink (chars "xx");;
  Ret tt.

Definition iref : prog unit :=
  say (line "empty file name");;
  for_ (50 + 1) 0 (fun _ => iref_one);;
  chdir (chars "/");;
  say (line "empty file name OK").

Definition forktest : prog unit :=
  say (line "fork test");;
  n <- Forktest.fork_loop (Z.to_nat 1000) 0;;
  fail_if (n =? 1000) (line "fork claimed to work 1000 times!");;
  for_ (Z.to_nat n) 0 (fun _ => w <- wait;; fail_if (w <? 0) (line "wait stopped early"));;
  w <- wait;;
  fail_if (negb (w =? -1)) (line "wait got too many");;
  say (line "fork test OK").

(** ** sbrk *)

(** Its result as a pointer. *)
Definition sbrk_ptr (n : Z) : prog Z := r <- sbrk (s32 n);; Ret (u32 r).

Definition BIG : Z := 100 * 1024 * 1024.

(** Less than a page at a time, and a fork. *)
Definition sbrk_small : prog unit :=
  a <- sbrk_ptr 0;;
  a <- for_acc (Z.to_nat 5000) 0 (fun i a =>
    b <- sbrk_ptr 1;;
    fail_with (negb (b =? a)) (line "sbrk test failed %d %x %x") [AInt i; AInt a; AInt b];;
    store b [1];;
    Ret (u32 (b + 1))) a;;
  pid <- fork;;
  fail_if (pid <? 0) (line "sbrk test fork failed");;
  sbrk_ptr 1;;
  c <- sbrk_ptr 1;;
  fail_if (negb (c =? u32 (a + 1))) (line "sbrk test failed post-fork");;
  (if pid =? 0 then exit else Ret tt);;
  wait;;
  Ret tt.

(** To something big, and back to [oldbrk]. *)
Definition sbrk_big (oldbrk : Z) : prog unit :=
  a <- sbrk_ptr 0;;
  p <- sbrk_ptr (u32 (BIG - a));;
  fail_if (negb (p =? a)) (line "sbrk test failed to grow big address space; enough phys mem?");;
  let lastaddr := BIG - 1 in
  store lastaddr [99];;
  a <- sbrk_ptr 0;;
  c <- sbrk_ptr (-4096);;
  fail_if (c =? 4294967295) (line "sbrk could not deallocate");;
  c <- sbrk_ptr 0;;
  fail_with (negb (c =? u32 (a - 4096))) (line "sbrk deallocation produced wrong address, a %x c %x") [AInt a; AInt c];;
  a <- sbrk_ptr 0;;
  c <- sbrk_ptr 4096;;
  bad <- (if negb (c =? a) then Ret true else r <- sbrk_ptr 0;; Ret (negb (r =? u32 (a + 4096))));;
  fail_with bad (line "sbrk re-allocation failed, a %x c %x") [AInt a; AInt c];;
  d <- load lastaddr 1;;
  fail_if (getb d 0 =? 99) (line "sbrk de-allocation didn't really deallocate");;
  a <- sbrk_ptr 0;;
  r <- sbrk_ptr 0;;
  c <- sbrk_ptr (- s32 (r - oldbrk));;
  fail_with (negb (c =? a)) (line "sbrk downsize failed, a %x c %x") [AInt a; AInt c].

(** Reading the kernel's memory at [a]. *)
Definition sbrk_kernel (a : Z) : prog (Z + unit) :=
  if a <? KERNBASE + 2000000 then
    ppid <- getpid;;
    pid <- fork;;
    fail_if (pid <? 0) (line "fork failed");;
    (if pid =? 0 then
       d <- load a 1;;
       printf 1 (line "oops could read %x = %x") [AInt a; AInt (s8 (getb d 0))];;
       kill ppid;;
       exit
     else Ret tt);;
    wait;;
    Ret (inl (u32 (a + 50000)))
  else Ret (inr tt).

(** The child that takes a lot of memory and sits around until killed. *)
Definition sbrk_hog (fd : Z) : prog unit :=
  a <- sbrk_ptr 0;;
  sbrk_ptr (u32 (BIG - a));;
  write fd (chars "x");;
  ITree.iter (fun _ : unit => sleep 1000;; Ret (inl tt)) tt.

(** Does a failed allocation give its pages back? *)
Definition sbrk_exhaust : prog unit :=
  r <- pipe;;
  let '(r, (fds0, fds1)) := r in
  fail_if (negb (r =? 0)) (line "pipe() failed");;
  pids <- for_acc 10 0 (fun _ pids =>
    pid <- fork;;
    (if pid =? 0 then sbrk_hog fds1 else Ret tt);;
    (if negb (pid =? -1) then read fds0 1;; Ret tt else Ret tt);;
    Ret (pids ++ [pid])%list) [];;
  c <- sbrk_ptr 4096;;
  for_ 10 0 (fun i =>
    let pid := default 0 (pids !! Z.to_nat i) in
    if pid =? -1 then Ret tt else kill pid;; wait;; Ret tt);;
  fail_if (c =? 4294967295) (line "failed sbrk leaked memory").

Definition sbrktest : prog unit :=
  say (line "sbrk test");;
  oldbrk <- sbrk_ptr 0;;
  sbrk_small;;
  sbrk_big oldbrk;;
  ITree.iter sbrk_kernel KERNBASE;;
  sbrk_exhaust;;
  b <- sbrk_ptr 0;;
  (if b >? oldbrk then b <- sbrk_ptr 0;; sbrk_ptr (- s32 (b - oldbrk));; Ret tt else Ret tt);;
  say (line "sbrk test OK").

(** ** Bad addresses *)

(** A sleep whose argument is to be found at the stack pointer [p]. *)
Definition validateint (p : Z) : prog unit := ITree.trigger (SleepAt p);; Ret tt.

(** The body of validatetest's loop. *)
Definition validate_one (p : Z) : prog unit :=
  pid <- fork;;
  (if pid =? 0 then validateint p;; exit else Ret tt);;
  sleep 0;;
  sleep 0;;
  kill pid;;
  wait;;
  r <- ITree.trigger (LinkAt (chars "nosuchfile") p);;
  fail_if (negb (r =? -1)) (line "link should not succeed").

Definition validatetest : prog unit :=
  say (line "validate test");;
  let hi := 1100 * 1024 in
  ITree.iter (fun p => if p <=? hi then validate_one p;; Ret (inl (u32 (p + 4096))) else Ret (inr tt)) 0;;
  say (line "validate ok").

(** [uninit] is the address of the array of that name. *)
Definition bsstest (uninit : Z) : prog unit :=
  say (line "bss test");;
  for_ (Z.to_nat 10000) 0 (fun i =>
    d <- load (u32 (uninit + i)) 1;;
    fail_if (negb (getb d 0 =? 0)) (line "bss test failed"));;
  say (line "bss test ok").

Definition MAXARG : nat := 32.
Definition bigarg : list Z := line "bigargs test: failed" ++ replicate 199 32.

Definition bigargtest : prog unit :=
  unlink (chars "bigarg-ok");;
  pid <- fork;;
  (if pid =? 0 then
     say (line "bigarg test");;
     exec (chars "echo") (replicate (MAXARG - 1) bigarg);;
     say (line "bigarg test ok");;
     fd <- open (chars "bigarg-ok") O_CREATE;;
     close fd;;
     exit
   else fail_if (pid <? 0) (line "bigargtest: fork failed"));;
  wait;;
  fd <- open (chars "bigarg-ok") 0;;
  fail_if (fd <? 0) (line "bigarg test failed!");;
  close fd;;
  unlink (chars "bigarg-ok");;
  Ret tt.

(** ** Running out of blocks *)
Definition full_name (n : Z) : list Z :=
  [102; 48 + n / 1000; 48 + n mod 1000 / 100; 48 + n mod 100 / 10; 48 + n mod 10].

(** Writing one file until a write is short: how many bytes. *)
Definition full_write (fd : Z) (buf : list Z) (total : Z) : prog (Z + Z) :=
  cc <- write fd (take 512 buf);;
  if cc <? 512 then Ret (inr total) else Ret (inl (total + cc)).

(** File after file, until one cannot be opened or gets nothing: the last number. *)
Definition full_files (buf : list Z) (nfiles : Z) : prog (Z + Z) :=
  let name := full_name nfiles in
  printf 1 (line "writing %s") [AStr name];;
  fd <- open name O_CREATE_RDWR;;
  if fd <? 0 then printf 1 (line "open %s failed") [AStr name];; Ret (inr nfiles)
  else
    total <- ITree.iter (full_write fd buf) 0;;
    printf 1 (line "wrote %d bytes") [AInt total];;
    close fd;;
    if total =? 0 then Ret (inr nfiles) else Ret (inl (nfiles + 1)).

Definition fsfull (buf : list Z) : prog unit :=
  say (line "fsfull test");;
  nfiles <- ITree.iter (full_files buf) 0;;
  ITree.iter (fun n => if n >=? 0 then unlink (full_name n);; Ret (inl (n - 1)) else Ret (inr tt)) nfiles;;
  say (line "fsfull test finished").

(** ** Ports, arguments, and main *)
Definition RTC_ADDR : Z := 112.
Definition RTC_DATA : Z := 113.

Definition uio : prog unit :=
  say (line "uio test");;
  pid <- fork;;
  (if pid =? 0 then
     ITree.trigger (Outb RTC_ADDR 9);;
     ITree.trigger (Inb RTC_DATA);;
     say (line "uio: uio succeeded; test FAILED");;
     exit
   else fail_if (pid <? 0) (line "fork failed"));;
  wait;;
  say (line "uio test done").

Definition argptest : prog unit :=
  fd <- open (chars "init") O_RDONLY;;
  (if fd <? 0 then printf 2 (line "open failed") [];; exit else Ret tt);;
  b <- sbrk_ptr 0;;
  ITree.trigger (ReadAt fd (u32 (b - 1)) (-1));;
  close fd;;
  say (line "arg test passed").

(** The next state of rand, which is its result. *)
Definition rand (randstate : Z) : Z := u32 (randstate * 1664525 + 1013904223).

Definition main (uninit : Z) : prog unit :=
  say (line "usertests starting");;
  r <- open (chars "usertests.ran") 0;;
  fail_if (r >=? 0) (line "already ran user tests -- rebuild fs.img");;
  fd <- open (chars "usertests.ran") O_CREATE;;
  close fd;;
  argptest;;
  createdelete;;
  linkunlink;;
  concreate;;
  buf <- fourfiles buf0;;
  sharedfd;;
  bigargtest;;
  bigwrite buf;;
  bigargtest;;
  bsstest uninit;;
  sbrktest;;
  validatetest;;
  opentest;;
  buf <- writetest buf;;
  buf <- writetest1 buf;;
  createtest;;
  openiputtest;;
  exitiputtest;;
  iputtest;;
  mem;;
  buf <- pipe1 buf;;
  buf <- preempt buf;;
  exitwait;;
  rmdot;;
  fourteen;;
  buf <- bigfile buf;;
  buf <- subdir buf;;
  buf <- linktest buf;;
  buf <- unlinkread buf;;
  dirfile;;
  iref;;
  forktest;;
  bigdir;;
  uio;;
  exectest;;
  exit.
