(* ===== verification/Tree.v ===== *)
(** * The tree of names

    What a file system is to its users: nodes by number, directories that give nodes
    names, and the calls that look names up and change them.  A directory is the
    list of its slots, in order, with number 0 in a free one. *)

From stdpp Require Import base numbers list gmap strings.
From Stdlib Require Import ZArith Lia.
From S2P Require Import Prelude Block Fs FsDir Sysfile.

Local Open Scope Z_scope.

Abbreviation name := (list Z).

Inductive node := NFile (data : list Z) | NDir (slots : list (Z * name)) | NDev (major minor : Z).

Abbreviation tree := (gmap Z node).

(** ** Directories *)
Fixpoint find_name (l : list (Z * name)) (n : name) : option Z :=
  match l with
  | [] => None
  | (i, m) :: l' => if negb (i =? 0) && bool_decide (m = n) then Some i else find_name l' n
  end.

(** Into the first free slot, or at the end. *)
Fixpoint add_name (l : list (Z * name)) (n : name) (i : Z) : list (Z * name) :=
  match l with
  | [] => [(i, n)]
  | (j, m) :: l' => if j =? 0 then (i, n) :: l' else (j, m) :: add_name l' n i
  end.

Fixpoint del_name (l : list (Z * name)) (n : name) : list (Z * name) :=
  match l with
  | [] => []
  | (j, m) :: l' => if negb (j =? 0) && bool_decide (m = n) then (0, []) :: l' else (j, m) :: del_name l' n
  end.

(** Nothing but the first two slots is in use. *)
Definition only_dots (l : list (Z * name)) : bool := forallb (fun e => e.1 =? 0) (drop 2 l).

Definition dots (self parent : Z) : list (Z * name) := [(self, dot); (parent, dotdot)].

(** ** Path names *)
Definition path_elems (path : list Z) : list name := map (take (Z.to_nat DIRSIZ)) (elems path).

Section Tree.
Implicit Types t : tree.

Definition slots_of t (d : Z) : option (list (Z * name)) :=
  match t !! d with Some (NDir l) => Some l | _ => None end.

Definition child t (d : Z) (n : name) : option Z := l ← slots_of t d; find_name l n.

Fixpoint walk t (d : Z) (ns : list name) : option Z :=
  match ns with
  | [] => Some d
  | n :: ns' => d' ← child t d n; walk t d' ns'
  end.

Definition start (cwd : Z) (path : list Z) : Z := if bool_decide (head path = Some SLASH) then ROOTINO else cwd.

Definition t_namei t (cwd : Z) (path : list Z) : option Z := walk t (start cwd path) (path_elems path).

(** The directory and the last element. *)
Definition t_parent t (cwd : Z) (path : list Z) : option (Z * list (Z * name) * name) :=
  n ← last (path_elems path);
  d ← walk t (start cwd path) (removelast (path_elems path));
  l ← slots_of t d;
  Some (d, l, n).

(** ** The calls; [None] is the return value -1 *)
Definition t_link t (cwd : Z) (old new : list Z) : option tree :=
  i ← t_namei t cwd old;
  if decide (is_Some (slots_of t i)) then None
  else
    '(d, l, n) ← t_parent t cwd new;
    match find_name l n with
    | Some _ => None
    | None => Some (<[d := NDir (add_name l n i)]> t)
    end.

Definition t_unlink t (cwd : Z) (path : list Z) : option tree :=
  '(d, l, n) ← t_parent t cwd path;
  if bool_decide (n = dot) || bool_decide (n = dotdot) then None
  else
    i ← find_name l n;
    match slots_of t i with
    | Some li => if only_dots li then Some (<[d := NDir (del_name l n)]> t) else None
    | None => Some (<[d := NDir (del_name l n)]> t)
    end.

(** A new node [x] with the number [i], which is not in use. *)
Definition t_new t (d i : Z) (l : list (Z * name)) (n : name) (x : node) : tree :=
  <[d := NDir (add_name l n i)]> (<[i := match x with NDir _ => NDir (dots i d) | _ => x end]> t).

(** mkdir and mknod; open with O_CREATE, which takes a file that is there. *)
Definition t_make t (cwd : Z) (path : list Z) (i : Z) (x : node) : option tree :=
  '(d, l, n) ← t_parent t cwd path;
  match find_name l n with
  | Some _ => None
  | None => Some (t_new t d i l n x)
  end.

Definition t_create t (cwd : Z) (path : list Z) (i : Z) : option (Z * tree) :=
  '(d, l, n) ← t_parent t cwd path;
  match find_name l n with
  | Some j => match t !! j with Some (NFile _) => Some (j, t) | _ => None end
  | None => Some (i, t_new t d i l n (NFile []))
  end.

(** open: the node, and the tree. *)
Definition t_open t (cwd : Z) (path : list Z) (mode i : Z) : option (Z * tree) :=
  if negb (Z.land mode O_CREATE =? 0) then t_create t cwd path i
  else
    j ← t_namei t cwd path;
    if decide (is_Some (slots_of t j)) then if mode =? O_RDONLY then Some (j, t) else None
    else Some (j, t).

Definition t_chdir t (cwd : Z) (path : list Z) : option Z :=
  i ← t_namei t cwd path;
  if decide (is_Some (slots_of t i)) then Some i else None.

(** ** Contents *)

(** The bytes of a slot, as read sees them. *)
Definition slot_bytes (e : Z * name) : list Z :=
  le16 e.1 ++ e.2 ++ replicate (Z.to_nat DIRSIZ - length e.2) 0.
Definition bytes_of (x : node) : list Z :=
  match x with NFile d => d | NDir l => concat (map slot_bytes l) | NDev _ _ => [] end.

Definition splice (d : list Z) (off : nat) (b : list Z) : list Z := take off d ++ b ++ drop (off + length b) d.
End Tree.
