(* ===== verification/TreeInv.v ===== *)
(** * Well-formed trees of names

    The shape of the tree that the calls on names rely on and keep: every directory
    has its dots, no directory has two names, and the link count of a node is the
    number of names it has.  Link counts are a function of their own, [lk]; a node
    whose count is 0 has no name, and lives only while it is open. *)

From stdpp Require Import base numbers list gmap strings.
From Stdlib Require Import ZArith Lia Bool.
From S2P Require Import Prelude Block Fs Sysfile Tree.

Local Open Scope Z_scope.

(** ** Sums over a tree *)
Definition msum (f : Z -> node -> Z) (t : tree) : Z := map_fold (fun k x n => f k x + n) 0 t.
Definition val (f : Z -> node -> Z) (t : tree) (a : Z) : Z := match t !! a with Some x => f a x | None => 0 end.

Lemma msum_insert f t a x : t !! a = None -> msum f (<[a := x]> t) = f a x + msum f t.
Proof. intros Ha. unfold msum. rewrite map_fold_insert_L; [done|lia|done]. Qed.

Lemma msum_zero t : msum (fun _ _ => 0) t = 0.
Proof. induction t as [|a x t Ha IH] using map_ind; [done|]. by rewrite msum_insert. Qed.

Lemma msum_delete f t a : msum f t = val f t a + msum f (delete a t).
Proof.
  unfold val. destruct (t !! a) as [x|] eqn:E; [|by rewrite delete_id].
  rewrite <- (insert_delete_id t a x E) at 1. by rewrite msum_insert by (by rewrite lookup_delete_eq).
Qed.

Lemma msum_ext f g t : (forall k x, t !! k = Some x -> f k x = g k x) -> msum f t = msum g t.
Proof.
  induction t as [|a x t Ha IH] using map_ind; intros H; [done|]. rewrite !msum_insert by done.
  rewrite IH.
  - by rewrite (H a x) by apply lookup_insert_eq.
  - intros k y Hk. apply H. rewrite lookup_insert_ne; [done|]. congruence.
Qed.

(** The sum changes by what changes at one number. *)
Lemma msum_change f g t t' a :
  (forall k, k <> a -> t' !! k = t !! k) -> (forall k x, k <> a -> t !! k = Some x -> g k x = f k x) ->
  msum g t' = msum f t - val f t a + val g t' a.
Proof.
  intros Ht Hf. rewrite (msum_delete g t' a), (msum_delete f t a).
  assert (E : delete a t' = delete a t).
  { apply map_eq. intros k. destruct (decide (k = a)) as [->|]; [by rewrite !lookup_delete_eq|].
    rewrite !lookup_delete_ne by done. by apply Ht. }
  rewrite E, (msum_ext g f (delete a t)); [lia|]. intros k x Hk.
  destruct (decide (k = a)) as [->|]; [by rewrite lookup_delete_eq in Hk|]. rewrite lookup_delete_ne in Hk by done.
  by apply Hf.
Qed.

(** ** Counting names *)
Fixpoint cnt (n : Z) (l : list (Z * name)) : Z :=
  match l with [] => 0 | e :: l' => (if e.1 =? n then 1 else 0) + cnt n l' end.

Lemma cnt_nonneg n l : 0 <= cnt n l.
Proof. induction l as [|e l IH]; simpl; [done|]. destruct (e.1 =? n); lia. Qed.

Lemma cnt_elem n nm l : (n, nm) ∈ l -> 0 < cnt n l.
Proof.
  induction l as [|e l IH]; [set_solver|]. intros [<-|H]%elem_of_cons; simpl.
  - rewrite Z.eqb_refl. pose proof (cnt_nonneg n l). lia.
  - specialize (IH H). destruct (e.1 =? n); lia.
Qed.

Lemma cnt_none n l : (forall e, e ∈ l -> e.1 <> n) -> cnt n l = 0.
Proof.
  induction l as [|e l IH]; intros H; [done|]. simpl. destruct (Z.eqb_spec e.1 n) as [E|_].
  - by destruct (H e ltac:(left)).
  - apply IH. intros e' He'. apply H. by right.
Qed.

Lemma cnt_add n l nm i : n <> 0 -> cnt n (add_name l nm i) = cnt n l + if i =? n then 1 else 0.
Proof.
  intros Hn. induction l as [|[j m] l IH]; cbn [add_name cnt fst]; [lia|].
  destruct (Z.eqb_spec j 0) as [->|]; cbn [cnt fst]; [|rewrite IH; lia].
  destruct (Z.eqb_spec 0 n); [done|]. lia.
Qed.

Lemma cnt_del n l nm i : n <> 0 -> find_name l nm = Some i -> cnt n (del_name l nm) = cnt n l - if i =? n then 1 else 0.
Proof.
  intros Hn. induction l as [|[j m] l IH]; cbn [find_name del_name cnt fst]; [done|].
  destruct (negb (j =? 0) && bool_decide (m = nm)); cbn [cnt fst].
  - intros [= ->]. destruct (Z.eqb_spec 0 n); [done|]. lia.
  - intros H. rewrite IH by done. lia.
Qed.

Lemma add_name_elem e l nm i : e ∈ add_name l nm i -> e = (i, nm) \/ e ∈ l.
Proof.
  induction l as [|[j m] l IH]; simpl; [set_solver|]. destruct (j =? 0); [set_solver|].
  intros [->|H]%elem_of_cons; [right; left|]. destruct (IH H); [by left|right; by right].
Qed.

Lemma add_name_keep e l nm i : e ∈ l -> e.1 <> 0 -> e ∈ add_name l nm i.
Proof.
  induction l as [|[j m] l IH]; simpl; [set_solver|]. intros [->|H]%elem_of_cons Hz; simpl in *.
  - destruct (Z.eqb_spec j 0); [done|left].
  - destruct (j =? 0); [by right|right; by apply IH].
Qed.

Lemma add_name_new l nm i : (i, nm) ∈ add_name l nm i.
Proof. induction l as [|[j m] l IH]; simpl; [set_solver|]. destruct (j =? 0); [left|by right]. Qed.

Lemma del_name_elem e l nm : e ∈ del_name l nm -> e.1 <> 0 -> e ∈ l.
Proof.
  induction l as [|[j m] l IH]; simpl; [done|]. destruct (negb (j =? 0) && bool_decide (m = nm)).
  - intros [->|H]%elem_of_cons Hz; [done|by right].
  - intros [->|H]%elem_of_cons Hz; [left|right; by apply IH].
Qed.

Lemma find_name_elem l nm m : find_name l nm = Some m -> (m, nm) ∈ l /\ m <> 0.
Proof.
  induction l as [|[j n] l IH]; [done|]. simpl. destruct (Z.eqb_spec j 0); simpl.
  - intros H%IH. set_solver.
  - destruct (bool_decide_reflect (n = nm)) as [->|].
    + intros [= ->]. set_solver.
    + intros H%IH. set_solver.
Qed.

Lemma find_name_none l nm e : find_name l nm = None -> e ∈ l -> e.1 <> 0 -> e.2 <> nm.
Proof.
  induction l as [|[j n] l IH]; simpl; [set_solver|]. destruct (Z.eqb_spec j 0); simpl.
  - intros H [->|He]%elem_of_cons Hz; [done|by apply IH].
  - destruct (bool_decide_reflect (n = nm)); [done|]. intros H [->|He]%elem_of_cons Hz; [done|by apply IH].
Qed.

(** ** Link counts and the shape of directories *)
Definition named (t : tree) (lk : Z -> Z) (n : Z) : bool := bool_decide (is_Some (t !! n)) && (0 <? lk n).

(** The names that directory [d] gives to [n], its dot apart; none when it has no name
    itself. *)
Definition names_in (lk : Z -> Z) (n : Z) (d : Z) (x : node) : Z :=
  match x with NDir l => if 0 <? lk d then cnt n (drop 1 l) else 0 | _ => 0 end.
Definition links (t : tree) (lk : Z -> Z) (n : Z) : Z := msum (names_in lk n) t.

Record wf (t : tree) (lk : Z -> Z) : Prop := mkWf {
  w_zero : t !! 0 = None;
  w_root : named t lk ROOTINO = true /\ exists r, slots_of t ROOTINO = Some (dots ROOTINO ROOTINO ++ r);
  w_dir : forall d l, named t lk d = true -> slots_of t d = Some l ->
          exists p r, l = dots d p ++ r /\ named t lk p = true /\ is_Some (slots_of t p) /\
          forall e, e ∈ r -> e.1 <> 0 ->
            named t lk e.1 = true /\ e.2 <> dot /\ e.2 <> dotdot /\ e.1 <> d /\ e.1 <> ROOTINO;
  w_up : forall d p r c nm q rc, named t lk d = true -> slots_of t d = Some (dots d p ++ r) ->
         (c, nm) ∈ r -> c <> 0 -> slots_of t c = Some (dots c q ++ rc) -> q = d /\ cnt c r = 1;
  w_back : forall c p r, named t lk c = true -> c <> ROOTINO -> slots_of t c = Some (dots c p ++ r) ->
           exists q rp nm, slots_of t p = Some (dots p q ++ rp) /\ (c, nm) ∈ rp;
  w_links : forall n, named t lk n = true -> lk n = links t lk n
}.

Lemma named_in t lk n : named t lk n = true -> is_Some (t !! n) /\ 0 < lk n.
Proof. unfold named. intros H. apply andb_true_iff in H as [H%bool_decide_eq_true H']. b2p. done. Qed.

Lemma named_nonzero t lk n : wf t lk -> named t lk n = true -> n <> 0.
Proof. intros W [[x Hx] _]%named_in ->. by rewrite (w_zero t lk W) in Hx. Qed.

Lemma slots_of_insert t d x n :
  slots_of (<[d := x]> t) n = if decide (n = d) then match x with NDir l => Some l | _ => None end else slots_of t n.
Proof.
  unfold slots_of. destruct (decide (n = d)) as [->|]; [by rewrite lookup_insert_eq|by rewrite lookup_insert_ne].
Qed.

Lemma slots_of_lookup t n l : slots_of t n = Some l <-> t !! n = Some (NDir l).
Proof. unfold slots_of. split; [|by intros ->]. destruct (t !! n) as [[]|]; naive_solver. Qed.

(** A node without a name is named nowhere. *)
Lemma links_unnamed t lk n : wf t lk -> n <> 0 -> named t lk n = false -> links t lk n = 0.
Proof.
  intros W Hn Hu. unfold links. rewrite (msum_ext _ (fun _ _ => 0)).
  - apply msum_zero.
  - intros d x Hx. destruct x as [|l|]; [done| |done]. simpl. destruct (Z.ltb_spec 0 (lk d)) as [Hlk|]; [|done].
    assert (Hd : named t lk d = true) by (unfold named; rewrite bool_decide_true by (by rewrite Hx); by apply Z.ltb_lt).
    destruct (w_dir t lk W d l Hd ltac:(by apply slots_of_lookup)) as (p & r & -> & Hp & _ & Hr).
    simpl. destruct (Z.eqb_spec p n) as [->|]; [congruence|]. rewrite cnt_none; [done|].
    intros e He <-. destruct (Hr e He Hn) as [Hen _]. congruence.
Qed.

Lemma find_dots d p r nm i :
  d <> 0 -> p <> 0 -> find_name (dots d p ++ r) nm = None ->
  nm <> dot /\ nm <> dotdot /\ find_name r nm = None /\ add_name (dots d p ++ r) nm i = dots d p ++ add_name r nm i.
Proof.
  intros Hd Hp. cbn [dots app find_name add_name].
  destruct (Z.eqb_spec d 0); [done|]. destruct (Z.eqb_spec p 0); [done|]. cbn [negb andb].
  destruct (bool_decide_reflect (dot = nm)); [done|]. destruct (bool_decide_reflect (dotdot = nm)); [done|].
  intros H. split_and!; congruence.
Qed.

(** ** A new name *)
Definition is_dir (x : node) : bool := match x with NDir _ => true | _ => false end.

Section Add.
Context (t : tree) (lk : Z -> Z) (d : Z) (l : list (Z * name)) (nm : name) (i : Z) (x : node).
Context (W : wf t lk) (Hd : named t lk d = true) (Hl : slots_of t d = Some l) (Hf : find_name l nm = None)
        (Hi : t !! i = Some x) (Hx : is_dir x = true -> x = NDir (dots i d) /\ lk i = 0) (Hpos : 0 <= lk i).

Definition add_lk (n : Z) : Z := lk n + (if n =? i then 1 else 0) + (if is_dir x && (n =? d) then 1 else 0).
Definition add_t : tree := <[d := NDir (add_name l nm i)]> t.

Lemma add_neq : i <> 0 /\ d <> 0 /\ i <> d /\ i <> ROOTINO.
Proof.
  pose proof (named_nonzero t lk d W Hd). destruct (w_root t lk W) as [Hr (rr & Er)].
  assert (Hdir : forall n, named t lk n = true -> is_Some (slots_of t n) -> i <> n).
  { intros n [_ Hn]%named_in [ln Hs] ->. apply slots_of_lookup in Hs. rewrite Hi in Hs. injection Hs as ->.
    destruct (Hx eq_refl). lia. }
  split_and!; [intros ->; by rewrite (w_zero t lk W) in Hi|done|by apply Hdir; [|rewrite Hl]|by apply Hdir; [|rewrite Er]].
Qed.

Lemma add_named n : named add_t add_lk n = named t lk n || (n =? i).
Proof.
  destruct add_neq as (_ & _ & Hid & _). unfold named, add_t, add_lk. apply slots_of_lookup in Hl.
  destruct (Z.eqb_spec n i) as [->|Hni].
  - rewrite lookup_insert_ne, Hi by done. rewrite bool_decide_true by done. rewrite orb_true_r.
    destruct (Z.eqb_spec i d); [done|]. rewrite andb_false_r. apply Z.ltb_lt. lia.
  - rewrite orb_false_r. destruct (decide (n = d)) as [->|Hnd].
    + rewrite lookup_insert_eq, Hl, !bool_decide_true by done. apply named_in in Hd as [_ Hd].
      destruct (is_dir x && (d =? d)); cbn [andb]; rewrite ?(proj2 (Z.ltb_lt _ _)); (done || lia).
    + rewrite lookup_insert_ne by done. destruct (Z.eqb_spec n d); [done|]. rewrite andb_false_r. by rewrite !Z.add_0_r.
Qed.

Lemma add_links n : n <> 0 -> links add_t add_lk n = links t lk n + (if n =? i then 1 else 0) + (if is_dir x && (n =? d) then 1 else 0).
Proof.
  intros Hn. destruct add_neq as (_ & _ & Hid & _). pose proof Hl as Hl'. apply slots_of_lookup in Hl'.
  destruct (w_dir t lk W d l Hd Hl) as (p & r & El & Hp & _ & _).
  pose proof (named_nonzero t lk d W Hd) as Hd0. pose proof (named_nonzero t lk p W Hp) as Hp0.
  destruct (find_dots d p r nm i Hd0 Hp0 ltac:(by rewrite <- El)) as (_ & _ & _ & Ea). apply named_in in Hd as [_ Hdl].
  unfold links.
  rewrite (msum_change (names_in add_lk n) (names_in add_lk n) t add_t d); [|intros k Hk; unfold add_t; by rewrite lookup_insert_ne|done].
  rewrite (msum_change (names_in lk n) (names_in add_lk n) t t i); [|done|].
  2: { intros k y Hk _. destruct y; [done| |done]. simpl. unfold add_lk. destruct (Z.eqb_spec k i); [done|].
       destruct (Z.eqb_spec k d) as [->|]; [|rewrite andb_false_r; by rewrite !Z.add_0_r].
       destruct (is_dir x); cbn [andb]; rewrite !(proj2 (Z.ltb_lt _ _)); (done || lia). }
  assert (Hdl' : (0 <? add_lk d) = true)
    by (apply Z.ltb_lt; unfold add_lk; destruct (d =? i), (is_dir x && (d =? d)); lia).
  unfold val. unfold add_t at 1. rewrite lookup_insert_eq, Hl', Hi, El, Ea. cbn [names_in]. rewrite Hdl'.
  cbn [dots app drop cnt fst]. rewrite cnt_add by done. rewrite (Z.eqb_sym n i).
  enough (names_in add_lk n i x - names_in lk n i x = if is_dir x && (n =? d) then 1 else 0) by lia.
  destruct (is_dir x) eqn:Ed; [|by destruct x]. destruct (Hx eq_refl) as [-> E0]. cbn [names_in dots drop cnt fst].
  assert (E1 : (0 <? add_lk i) = true)
    by (apply Z.ltb_lt; unfold add_lk; rewrite Z.eqb_refl, E0; destruct (_ && _); lia).
  rewrite E1, E0. cbn [andb]. rewrite (Z.eqb_sym d n). by destruct (n =? d).
Qed.

Lemma add_slots n : slots_of add_t n = if decide (n = d) then Some (add_name l nm i) else slots_of t n.
Proof. apply slots_of_insert. Qed.

(** The directories of the new tree: the old ones, with one more slot in [d], and the
    new node when it is one. *)
Lemma add_shape n p' r' :
  named add_t add_lk n = true -> slots_of add_t n = Some (dots n p' ++ r') ->
  (n = i /\ p' = d /\ r' = [] /\ is_dir x = true) \/
  (n <> i /\ exists r, named t lk n = true /\ slots_of t n = Some (dots n p' ++ r) /\
   r' = if decide (n = d) then add_name r nm i else r).
Proof.
  destruct add_neq as (_ & Hd0 & Hid & _). intros Hn Hs. rewrite add_named in Hn. rewrite add_slots in Hs.
  destruct (decide (n = i)) as [->|Hni].
  - left. destruct (decide (i = d)); [done|]. apply slots_of_lookup in Hs. rewrite Hi in Hs. injection Hs as ->.
    destruct (Hx eq_refl) as [E _]. unfold dots in E. simpl in E. by simplify_eq.
  - right. split; [done|]. destruct (Z.eqb_spec n i); [done|]. rewrite orb_false_r in Hn.
    destruct (decide (n = d)) as [->|]; [|by exists r'].
    destruct (w_dir t lk W d l Hd Hl) as (p & r & El & Hp & _). pose proof (named_nonzero t lk p W Hp) as Hp0.
    destruct (find_dots d p r nm i Hd0 Hp0 ltac:(by rewrite <- El)) as (_ & _ & _ & Ea). rewrite El, Ea in Hs. rewrite Hl, El.
    unfold dots in Hs. simpl in Hs. simplify_eq. by exists r.
Qed.

Lemma add_old n p r : slots_of t n = Some (dots n p ++ r) -> named t lk n = true ->
  exists r', slots_of add_t n = Some (dots n p ++ r') /\ (forall e, e ∈ r -> e.1 <> 0 -> e ∈ r') /\
             (n = d -> (i, nm) ∈ r') /\ forall e, e ∈ r' -> e ∈ r \/ n = d /\ e = (i, nm).
Proof.
  intros Hs Hn. rewrite add_slots. destruct (decide (n = d)) as [->|Hnd]; [|exists r; split_and!; [done|done|done|by left]].
  destruct add_neq as (_ & Hd0 & _ & _). assert (El : l = dots d p ++ r) by congruence.
  destruct (w_dir t lk W d l Hd Hl) as (p0 & r0 & El0 & Hp & _). pose proof (named_nonzero t lk p0 W Hp) as Hp0.
  assert (p = p0) as -> by (rewrite El in El0; unfold dots in El0; simpl in El0; by simplify_eq).
  destruct (find_dots d p0 r nm i Hd0 Hp0 ltac:(by rewrite <- El)) as (_ & _ & _ & Ea).
  exists (add_name r nm i). split; [by rewrite El, Ea|]. split; [intros e; apply add_name_keep|].
  split; [intros _; apply add_name_new|]. intros e [->|He]%add_name_elem; [by right|by left].
Qed.

Lemma add_unnamed : is_dir x = true -> named t lk i = false.
Proof. intros [_ E]%Hx. unfold named. rewrite E. apply andb_false_r. Qed.

Lemma add_dir n l' : named add_t add_lk n = true -> slots_of add_t n = Some l' ->
  exists p r, l' = dots n p ++ r /\ named add_t add_lk p = true /\ is_Some (slots_of add_t p) /\
  forall e, e ∈ r -> e.1 <> 0 ->
    named add_t add_lk e.1 = true /\ e.2 <> dot /\ e.2 <> dotdot /\ e.1 <> n /\ e.1 <> ROOTINO.
Proof.
  destruct add_neq as (Hi0 & Hd0 & Hid & Hir). intros Hn Hs.
  assert (Hmono : forall m, named t lk m = true -> named add_t add_lk m = true) by (intros m Hm; by rewrite add_named, Hm).
  assert (Hsome : forall m, is_Some (slots_of t m) -> is_Some (slots_of add_t m))
    by (intros m Hm; rewrite add_slots; by destruct (decide (m = d))).
  rewrite add_named in Hn. destruct (Z.eqb_spec n i) as [->|Hni].
  - rewrite add_slots in Hs. destruct (decide (i = d)); [done|]. apply slots_of_lookup in Hs. rewrite Hi in Hs.
    injection Hs as ->. destruct (Hx eq_refl) as [[= ->] _]. exists d, [].
    split; [done|]. split; [by apply Hmono|]. split; [apply Hsome; by rewrite Hl|]. intros e He. by apply elem_of_nil in He.
  - rewrite orb_false_r in Hn. destruct (slots_of t n) as [ln|] eqn:En.
    2: { rewrite add_slots, En in Hs. destruct (decide (n = d)) as [->|]; [by rewrite Hl in En|done]. }
    destruct (w_dir t lk W n ln Hn En) as (p & r & -> & Hp & Hps & Hr).
    destruct (add_old n p r En Hn) as (r' & Es & _ & _ & Hin). rewrite Hs in Es. injection Es as ->.
    exists p, r'. split; [done|]. split; [by apply Hmono|]. split; [by apply Hsome|]. intros e He Hz.
    destruct (Hin e He) as [He'|[-> ->]].
    + destruct (Hr e He' Hz) as (Hen & ? & ? & ? & ?). split; [by apply Hmono|done].
    + simpl. assert (El : dots d p ++ r = l) by congruence.
      destruct (find_dots d p r nm i Hd0 (named_nonzero t lk p W Hp) ltac:(by rewrite El)) as (H1 & H2 & _).
      split; [by rewrite add_named, Z.eqb_refl, orb_true_r|done].
Qed.

Lemma add_up d1 p r c nm1 q rc : named add_t add_lk d1 = true -> slots_of add_t d1 = Some (dots d1 p ++ r) ->
  (c, nm1) ∈ r -> c <> 0 -> slots_of add_t c = Some (dots c q ++ rc) -> q = d1 /\ cnt c r = 1.
Proof.
  intros Hn Hs Hc Hc0 Hcs. destruct add_neq as (Hi0 & Hd0 & Hid & Hir).
  assert (Hcn : named add_t add_lk c = true).
  { destruct (add_dir d1 _ Hn Hs) as (p1 & r1 & E & _ & _ & Hr). unfold dots in E. simpl in E. simplify_eq.
    by apply (Hr (c, nm1)). }
  destruct (add_shape d1 p r Hn Hs) as [(-> & -> & -> & _)|(Hd1i & r0 & Hn0 & Hs0 & ->)]; [by apply elem_of_nil in Hc|].
  destruct (w_dir t lk W d1 _ Hn0 Hs0) as (p1 & r1 & E & _ & _ & Hr). unfold dots in E. simpl in E. simplify_eq.
  destruct (add_shape c q rc Hcn Hcs) as [(-> & -> & -> & Hxd)|(Hci & r2 & Hcn0 & Hcs0 & _)].
  - pose proof (add_unnamed Hxd) as Hun.
    assert (Hno : forall e, e ∈ r1 -> e.1 <> i).
    { intros e He Ee. destruct (Hr e He ltac:(by rewrite Ee)) as [Hen _]. rewrite Ee in Hen. congruence. }
    destruct (decide (d1 = d)) as [->|]; [|by destruct (Hno _ Hc)].
    split; [done|]. rewrite cnt_add, Z.eqb_refl, cnt_none; done.
  - assert (Hc1 : (c, nm1) ∈ r1).
    { destruct (decide (d1 = d)); [|done]. apply add_name_elem in Hc as [[= ]|]; done. }
    destruct (w_up t lk W d1 p1 r1 c nm1 q r2 Hn0 Hs0 Hc1 Hc0 Hcs0) as [-> E1]. split; [done|].
    destruct (decide (d1 = d)); [|done]. rewrite cnt_add by done. destruct (Z.eqb_spec i c); [done|lia].
Qed.

Lemma wf_add : wf add_t add_lk.
Proof.
  destruct add_neq as (Hi0 & Hd0 & Hid & Hir). constructor.
  - unfold add_t. rewrite lookup_insert_ne by done. apply W.
  - destruct (w_root t lk W) as [Hr (rr & Er)]. split; [by rewrite add_named, Hr|].
    destruct (add_old _ _ _ Er Hr) as (r' & Es & _). by exists r'.
  - exact add_dir.
  - exact add_up.
  - intros c p r Hn Hcr Hs. destruct (add_shape c p r Hn Hs) as [(-> & -> & -> & _)|(Hci & r0 & Hn0 & Hs0 & _)].
    + destruct (w_dir t lk W d l Hd Hl) as (p0 & r0 & El & _). pose proof Hl as Hl0. rewrite El in Hl0.
      destruct (add_old d p0 r0 Hl0 Hd) as (r' & Es & _ & Hnew & _). exists p0, r', nm. split; [done|by apply Hnew].
    + destruct (w_back t lk W c p r0 Hn0 Hcr Hs0) as (q & rp & nm1 & Hp & Hin).
      destruct (w_dir t lk W c _ Hn0 Hs0) as (p1 & r1 & E & Hpn & _). unfold dots in E. simpl in E. simplify_eq.
      destruct (add_old p1 q rp Hp Hpn) as (r' & Es & Hk & _). exists q, r', nm1. split; [done|].
      apply Hk; [done|]. by eapply named_nonzero.
  - intros n Hn. assert (Hn0 : n <> 0).
    { intros ->. apply named_in in Hn as [[y Hy] _]. unfold add_t in Hy. rewrite lookup_insert_ne in Hy by done.
      by rewrite (w_zero t lk W) in Hy. }
    rewrite add_links by done. unfold add_lk. rewrite add_named in Hn.
    enough (lk n = links t lk n) by lia. destruct (named t lk n) eqn:E; [by apply W|].
    rewrite links_unnamed by done. simpl in Hn. apply Z.eqb_eq in Hn as ->. unfold named in E. rewrite Hi in E.
    rewrite bool_decide_true in E by done. cbn [andb] in E. apply Z.ltb_ge in E. lia.
Qed.
End Add.

(** ** Changes at a node without a name *)
Lemma names_in_nonneg lk n k x : 0 <= names_in lk n k x.
Proof. destruct x; simpl; [done| |done]. destruct (0 <? lk k); [apply cnt_nonneg|done]. Qed.

Lemma msum_nonneg f t : (forall k x, 0 <= f k x) -> 0 <= msum f t.
Proof.
  intros Hf. induction t as [|a x t Ha IH] using map_ind; [done|]. rewrite msum_insert by done. pose proof (Hf a x). lia.
Qed.

Lemma links_ge t lk n k l : slots_of t k = Some l -> 0 < lk k -> cnt n (drop 1 l) <= links t lk n.
Proof.
  intros Hl%slots_of_lookup Hk. unfold links. rewrite (msum_delete _ t k). unfold val. rewrite Hl. cbn [names_in].
  apply Z.ltb_lt in Hk. rewrite Hk. pose proof (msum_nonneg (names_in lk n) (delete k t) (names_in_nonneg lk n)). lia.
Qed.

Lemma wf_outside t lk t' lk' i :
  wf t lk -> (forall k, k <> i -> t' !! k = t !! k) -> (forall k, k <> i -> lk' k = lk k) ->
  named t lk i = false -> named t' lk' i = false -> t' !! 0 = None -> wf t' lk'.
Proof.
  intros W Ht Hlk Hu Hu' H0.
  assert (Hn : forall n, named t' lk' n = named t lk n).
  { intros n. destruct (decide (n = i)) as [->|]; [congruence|]. unfold named. by rewrite Ht, Hlk. }
  assert (Hs : forall n, named t lk n = true -> slots_of t' n = slots_of t n).
  { intros n Hnn. unfold slots_of. rewrite Ht; [done|]. intros ->. congruence. }
  assert (Hv : forall u lu n, named u lu i = false -> val (names_in lu n) u i = 0).
  { intros u lu n Hui. unfold val. unfold named in Hui. destruct (u !! i) as [x|]; [|done].
    rewrite bool_decide_true in Hui by done. cbn [andb] in Hui. destruct x; [done| |done]. simpl. by rewrite Hui. }
  assert (Hl : forall n, links t' lk' n = links t lk n).
  { intros n. unfold links. rewrite (msum_change (names_in lk n) (names_in lk' n) t t' i); [rewrite !Hv; [lia|done|done]|done|].
    intros k x Hk _. destruct x; [done| |done]. simpl. by rewrite Hlk. }
  constructor; [done|..].
  - destruct (w_root t lk W) as [Hr (r & Er)]. rewrite Hn, (Hs _ Hr). eauto.
  - intros d l Hd Hdl. rewrite Hn in Hd. rewrite Hs in Hdl by done. destruct (w_dir t lk W d l Hd Hdl) as (p & r & -> & Hp & Hps & Hr).
    exists p, r. rewrite Hn, (Hs p) by done. split_and!; [done..|]. intros e. rewrite Hn. apply Hr.
  - intros d p r c nm q rc Hd Hds Hc Hc0 Hcs. rewrite Hn in Hd. rewrite Hs in Hds by done.
    destruct (w_dir t lk W d _ Hd Hds) as (p1 & r1 & E & _ & _ & Hr). unfold dots in E. simpl in E. simplify_eq.
    rewrite Hs in Hcs by (by apply (Hr (c, nm))). by apply (w_up t lk W d p1 r1 c nm q rc).
  - intros c p r Hc Hcr Hcs. rewrite Hn in Hc. rewrite Hs in Hcs by done.
    destruct (w_back t lk W c p r Hc Hcr Hcs) as (q & rp & nm & Hp & Hin).
    destruct (w_dir t lk W c _ Hc Hcs) as (p1 & r1 & E & Hpn & _). unfold dots in E. simpl in E. simplify_eq.
    exists q, rp, nm. by rewrite Hs.
  - intros n Hnn. rewrite Hn in Hnn. rewrite Hl. destruct (decide (n = i)) as [->|]; [congruence|]. rewrite Hlk by done. by apply W.
Qed.

(** Only the counts of the nodes of the tree matter. *)
Lemma wf_ext t lk lk' : (forall n, is_Some (t !! n) -> lk' n = lk n) -> wf t lk -> wf t lk'.
Proof.
  intros E W. assert (Hn : forall n, named t lk' n = named t lk n).
  { intros n. unfold named. destruct (bool_decide_reflect (is_Some (t !! n))) as [H|]; [|done]. by rewrite E. }
  assert (Hl : forall n, links t lk' n = links t lk n).
  { intros n. apply msum_ext. intros k x Hk. destruct x; [done| |done]. simpl. by rewrite E by (by rewrite Hk). }
  destruct W as [H0 Hr Hd Hu Hb Hk]. constructor; [done|by rewrite Hn|..].
  - intros d l Hdn Hs. rewrite Hn in Hdn. destruct (Hd d l Hdn Hs) as (p & r & -> & Hp & Hps & He).
    exists p, r. rewrite Hn. split_and!; [done..|]. intros e. rewrite Hn. apply He.
  - intros d p r c nm q rc Hdn. rewrite Hn in Hdn. by apply Hu.
  - intros c p r Hcn. rewrite Hn in Hcn. by apply Hb.
  - intros n Hnn. rewrite Hn in Hnn. rewrite Hl, E by (by apply named_in in Hnn as [? _]). by apply Hk.
Qed.

(** ** Removing a name *)
Lemma del_name_keep l nm i e : find_name l nm = Some i -> e ∈ l -> e.1 <> i -> e ∈ del_name l nm.
Proof.
  induction l as [|[j m] l IH]; cbn [find_name del_name]; [done|].
  destruct (negb (j =? 0) && bool_decide (m = nm)).
  - intros [= ->] [->|He]%elem_of_cons Hne; [done|by right].
  - intros Hf [->|He]%elem_of_cons Hne; [left|right; by apply IH].
Qed.

Lemma find_dots_some d p r nm i :
  nm <> dot -> nm <> dotdot -> find_name (dots d p ++ r) nm = Some i ->
  find_name r nm = Some i /\ del_name (dots d p ++ r) nm = dots d p ++ del_name r nm.
Proof.
  intros H1 H2. cbn [dots app find_name del_name]. rewrite !bool_decide_false by congruence. rewrite !andb_false_r. done.
Qed.

Lemma only_dots_zero a b r e : only_dots (a :: b :: r) = true -> e ∈ r -> e.1 = 0.
Proof. unfold only_dots. simpl. rewrite forallb_forall. intros H He%list_elem_of_In. by apply Z.eqb_eq, H. Qed.

Section Del.
Context (t : tree) (lk : Z -> Z) (d : Z) (l : list (Z * name)) (nm : name) (i : Z) (x : node).
Context (W : wf t lk) (Hd : named t lk d = true) (Hl : slots_of t d = Some l) (Hf : find_name l nm = Some i)
        (Hdot : nm <> dot) (Hdotdot : nm <> dotdot)
        (Hi : t !! i = Some x) (Hx : forall li, x = NDir li -> only_dots li = true).

Definition del_lk (n : Z) : Z := lk n - (if n =? i then 1 else 0) - (if is_dir x && (n =? d) then 1 else 0).
Definition del_t : tree := <[d := NDir (del_name l nm)]> t.

Lemma del_facts : exists p r,
  l = dots d p ++ r /\ find_name r nm = Some i /\ del_name l nm = dots d p ++ del_name r nm /\ (i, nm) ∈ r /\
  named t lk i = true /\ i <> 0 /\ i <> d /\ i <> ROOTINO /\ d <> 0 /\ named t lk p = true.
Proof.
  destruct (w_dir t lk W d l Hd Hl) as (p & r & El & Hp & _ & Hr). exists p, r.
  destruct (find_dots_some d p r nm i Hdot Hdotdot ltac:(by rewrite <- El)) as [Hfr Hdel].
  destruct (find_name_elem r nm i Hfr) as [Hin Hi0]. destruct (Hr (i, nm) Hin Hi0) as (Hn & _ & _ & Hid & Hir).
  pose proof (named_nonzero t lk d W Hd). split_and!; try done. congruence.
Qed.

(** The directory that goes away: its parent, and no other name. *)
Lemma del_dir_shape : is_dir x = true -> exists ri, x = NDir (dots i d ++ ri) /\ (forall e, e ∈ ri -> e.1 = 0) /\
  forall c p r, named t lk c = true -> slots_of t c = Some (dots c p ++ r) -> p <> i.
Proof.
  intros Hxd. destruct x as [|li|] eqn:Ex; [done| |done]. destruct del_facts as (p & r & El & Hfr & _ & Hin & Hn & Hi0 & Hid & Hir & _ & _).
  assert (Hli : slots_of t i = Some li) by (by apply slots_of_lookup).
  destruct (w_dir t lk W i li Hn Hli) as (q & ri & -> & _). pose proof Hl as Hl'. rewrite El in Hl'.
  destruct (w_up t lk W d p r i nm q ri Hd Hl' Hin Hi0 Hli) as [-> _].
  assert (Hz : forall e, e ∈ ri -> e.1 = 0) by (intros e; apply (only_dots_zero (i, dot) (d, dotdot)); by apply Hx).
  exists ri. split; [done|]. split; [done|]. intros c p' r' Hc Hcs ->.
  destruct (decide (c = ROOTINO)) as [->|Hcr].
  - destruct (w_root t lk W) as [_ (rr & Er)]. rewrite Er in Hcs. unfold dots in Hcs. simpl in Hcs. by simplify_eq.
  - destruct (w_back t lk W c i r' Hc Hcr Hcs) as (q' & rp & nm' & Hp & Hcin). rewrite Hli in Hp. unfold dots in Hp.
    simpl in Hp. simplify_eq. apply Hz in Hcin. simpl in Hcin. by apply (named_nonzero t lk c W Hc).
Qed.

Lemma del_dir_links : is_dir x = true -> lk i = 1.
Proof.
  intros Hxd. destruct (del_dir_shape Hxd) as (ri & Ex & Hz & Hp).
  destruct del_facts as (p & r & El & Hfr & _ & Hin & Hn & Hi0 & Hid & Hir & _ & Hpn).
  assert (Hli : slots_of t i = Some (dots i d ++ ri)) by (apply slots_of_lookup; by rewrite Hi, Ex).
  pose proof Hl as Hl'. rewrite El in Hl'.
  destruct (w_up t lk W d p r i nm d ri Hd Hl' Hin Hi0 Hli) as [_ Hone].
  rewrite (w_links t lk W i Hn). unfold links. rewrite (msum_delete _ t d). unfold val.
  pose proof Hl' as Hl''. apply slots_of_lookup in Hl''. rewrite Hl''. cbn [names_in]. destruct (named_in t lk d Hd) as [_ Hdl].
  apply Z.ltb_lt in Hdl. rewrite Hdl. cbn [dots app drop cnt fst]. rewrite Hone.
  destruct (Z.eqb_spec p i) as [Epi|_]; [by destruct (Hp d p r Hd Hl')|].
  rewrite (msum_ext _ (fun _ _ => 0)), msum_zero; [done|]. intros k y Hk.
  destruct (decide (k = d)) as [->|Hkd]; [by rewrite lookup_delete_eq in Hk|]. rewrite lookup_delete_ne in Hk by done.
  destruct y as [|ly|]; [done| |done]. simpl. destruct (Z.ltb_spec 0 (lk k)) as [Hlk|]; [|done].
  assert (Hkn : named t lk k = true) by (unfold named; rewrite bool_decide_true by (by rewrite Hk); by apply Z.ltb_lt).
  assert (Hks : slots_of t k = Some ly) by (by apply slots_of_lookup).
  destruct (w_dir t lk W k ly Hkn Hks) as (pk & rk & -> & _ & _ & Hrk). simpl.
  destruct (Z.eqb_spec pk i) as [Epk|_]; [by destruct (Hp k pk rk Hkn Hks)|]. apply cnt_none.
  intros [c nc] He Ec. simpl in Ec. subst c. destruct (w_up t lk W k pk rk i nc d ri Hkn Hks He Hi0 Hli) as [E _]. congruence.
Qed.

(** The directory keeps a name of its own. *)
Lemma del_parent_pos : 0 < del_lk d.
Proof.
  destruct del_facts as (p & r & El & Hfr & _ & Hin & Hn & Hi0 & Hid & Hir & Hd0 & Hpn).
  destruct (named_in t lk d Hd) as [_ Hdl]. unfold del_lk. destruct (Z.eqb_spec d i); [congruence|]. rewrite Z.eqb_refl, andb_true_r.
  destruct (is_dir x) eqn:Hxd; [|lia]. destruct (del_dir_shape Hxd) as (ri & Ex & Hz & Hp).
  pose proof Hl as Hl'. rewrite El in Hl'. rewrite (w_links t lk W d Hd).
  enough (exists k lk' nk, k <> i /\ slots_of t k = Some lk' /\ 0 < lk k /\ (d, nk) ∈ drop 1 lk') as (k & l' & nk & Hki & Hk & Hkl & Hkin).
  { unfold links. rewrite (msum_delete _ t i), (msum_delete _ (delete i t) k). unfold val.
    rewrite lookup_delete_ne by done. apply slots_of_lookup in Hk. rewrite Hk, Hi, Ex. cbn [names_in].
    destruct (named_in t lk i Hn) as [_ Hil]. apply Z.ltb_lt in Hkl, Hil. rewrite Hkl, Hil. cbn [dots app drop cnt fst].
    rewrite Z.eqb_refl. pose proof (cnt_elem d nk _ Hkin). pose proof (cnt_nonneg d ri).
    pose proof (msum_nonneg (names_in lk d) (delete k (delete i t)) (names_in_nonneg lk d)). lia. }
  destruct (decide (d = ROOTINO)) as [E|Hdr].
  - destruct (w_root t lk W) as [_ (rr & Er)]. exists d, (dots d d ++ rr), dotdot. rewrite E. split; [congruence|]. split; [done|].
    split; [congruence|]. simpl. left.
  - destruct (w_back t lk W d p r Hd Hdr Hl') as (q & rp & nk & Hps & Hpin). exists p, (dots p q ++ rp), nk.
    split; [by apply (Hp d p r)|]. split; [done|]. split; [by apply (named_in t lk p)|]. simpl. by right.
Qed.

Lemma del_lk_dir : is_dir x = true -> del_lk i = 0.
Proof.
  intros Hxd. destruct del_facts as (_ & _ & _ & _ & _ & _ & _ & _ & Hid & _). unfold del_lk.
  rewrite Z.eqb_refl, (del_dir_links Hxd). destruct (Z.eqb_spec i d); [done|]. by rewrite andb_false_r.
Qed.

Lemma del_links n : n <> 0 ->
  links del_t del_lk n = links t lk n - (if n =? i then 1 else 0) - (if is_dir x && (n =? d) then 1 else 0).
Proof.
  intros Hn0. destruct del_facts as (p & r & El & Hfr & Edel & Hin & Hn & Hi0 & Hid & Hir & Hd0 & Hpn).
  pose proof Hl as Hl'. apply slots_of_lookup in Hl'. pose proof del_parent_pos as Hpos. destruct (named_in t lk d Hd) as [_ Hdl].
  unfold links.
  rewrite (msum_change (names_in del_lk n) (names_in del_lk n) t del_t d); [|intros k Hk; unfold del_t; by rewrite lookup_insert_ne|done].
  rewrite (msum_change (names_in lk n) (names_in del_lk n) t t i); [|done|].
  2: { intros k y Hk _. destruct y; [done| |done]. simpl. destruct (decide (k = d)) as [->|].
       - by rewrite !(proj2 (Z.ltb_lt _ _)).
       - unfold del_lk. destruct (Z.eqb_spec k i); [done|]. destruct (Z.eqb_spec k d); [done|].
         rewrite andb_false_r. by rewrite !Z.sub_0_r. }
  unfold val. unfold del_t at 1. rewrite lookup_insert_eq, Hl', Hi. cbn [names_in].
  apply Z.ltb_lt in Hpos. rewrite Hpos, Edel, El. cbn [dots app drop cnt fst]. rewrite (cnt_del n r nm i) by done.
  rewrite (Z.eqb_sym n i).
  enough (names_in lk n i x - names_in del_lk n i x = if is_dir x && (n =? d) then 1 else 0) by lia.
  destruct (is_dir x) eqn:Hxd; [|by destruct x]. pose proof (del_lk_dir Hxd) as E0. pose proof (del_dir_links Hxd) as E1.
  destruct (del_dir_shape Hxd) as (ri & Ex & Hz & _). rewrite Ex. cbn [names_in dots app drop cnt fst]. rewrite E0, E1.
  rewrite (cnt_none n ri) by (intros e He; rewrite (Hz e He); congruence). rewrite (Z.eqb_sym d n). simpl. by destruct (n =? d).
Qed.

Lemma del_slots n : slots_of del_t n = if decide (n = d) then Some (del_name l nm) else slots_of t n.
Proof. apply slots_of_insert. Qed.

Lemma del_named n : named del_t del_lk n = true <-> named t lk n = true /\ 0 < del_lk n.
Proof.
  assert (Hle : del_lk n <= lk n) by (unfold del_lk; destruct (n =? i), (is_dir x && (n =? d)); lia).
  assert (Hin : is_Some (del_t !! n) <-> is_Some (t !! n)).
  { unfold del_t. destruct (decide (n = d)) as [->|]; [|by rewrite lookup_insert_ne]. rewrite lookup_insert_eq.
    apply slots_of_lookup in Hl. by rewrite Hl. }
  unfold named. rewrite !andb_true_iff, !bool_decide_eq_true, Hin, !Z.ltb_lt. intuition lia.
Qed.

Lemma del_named_other n : n <> i -> named t lk n = true -> named del_t del_lk n = true.
Proof.
  intros Hni Hn. apply del_named. split; [done|]. destruct (decide (n = d)) as [->|]; [apply del_parent_pos|].
  unfold del_lk. destruct (Z.eqb_spec n i); [done|]. destruct (Z.eqb_spec n d); [done|]. rewrite andb_false_r.
  apply named_in in Hn as [_ Hn]. lia.
Qed.

Lemma del_inv n p r' : named del_t del_lk n = true -> slots_of del_t n = Some (dots n p ++ r') ->
  exists r, named t lk n = true /\ slots_of t n = Some (dots n p ++ r) /\ r' = if decide (n = d) then del_name r nm else r.
Proof.
  intros [Hn _]%del_named Hs. rewrite del_slots in Hs. destruct (decide (n = d)) as [->|]; [|by exists r'].
  destruct del_facts as (p0 & r0 & El & _ & Edel & _). rewrite Edel in Hs. injection Hs as Ep Er.
  exists r0. rewrite Hl, El, Er, Ep. done.
Qed.

(** What is still named has a name that counts. *)
Lemma del_target n l' e : named del_t del_lk n = true -> slots_of del_t n = Some l' -> e ∈ drop 1 l' ->
  named t lk e.1 = true -> named del_t del_lk e.1 = true.
Proof.
  intros Hn Hs He Hen. destruct (decide (e.1 = i)) as [E|]; [|by apply del_named_other]. apply del_named. split; [done|].
  destruct del_facts as (_ & _ & _ & _ & _ & _ & Hin & Hi0 & Hid & _). destruct (named_in _ _ _ Hn) as [_ Hpos].
  pose proof (links_ge del_t del_lk i n l' Hs Hpos) as Hge. rewrite (del_links i Hi0), <- (w_links t lk W i Hin) in Hge.
  destruct e as [c nc]. simpl in *. subst c. pose proof (cnt_elem i nc _ He). unfold del_lk. lia.
Qed.

Lemma del_dir n l' : named del_t del_lk n = true -> slots_of del_t n = Some l' ->
  exists p r, l' = dots n p ++ r /\ named del_t del_lk p = true /\ is_Some (slots_of del_t p) /\
  forall e, e ∈ r -> e.1 <> 0 ->
    named del_t del_lk e.1 = true /\ e.2 <> dot /\ e.2 <> dotdot /\ e.1 <> n /\ e.1 <> ROOTINO.
Proof.
  intros Hn Hs. pose proof (proj1 (del_named n) Hn) as [Hn0 _].
  assert (exists p r r0, l' = dots n p ++ r /\ slots_of t n = Some (dots n p ++ r0) /\ forall e, e ∈ r -> e.1 <> 0 -> e ∈ r0)
    as (p & r & r0 & -> & Hs0 & Hsub).
  { pose proof Hs as Hs1. rewrite del_slots in Hs1. destruct (decide (n = d)) as [->|].
    - destruct del_facts as (p & r & El & _ & Edel & _). exists p, (del_name r nm), r. split; [congruence|].
      split; [by rewrite Hl, El|]. intros e. apply del_name_elem.
    - destruct (w_dir t lk W n l' Hn0 Hs1) as (p & r & -> & _). by exists p, r, r. }
  destruct (w_dir t lk W n _ Hn0 Hs0) as (p1 & r1 & E & Hp & Hps & Hr). unfold dots in E. simpl in E. simplify_eq.
  exists p1, r. split; [done|]. split; [apply (del_target n _ (p1, dotdot) Hn Hs); [left|done]|].
  split; [rewrite del_slots; by destruct (decide (p1 = d))|]. intros e He Hz. specialize (Hr e (Hsub e He Hz) Hz) as (Hen & Hr).
  split; [|done]. apply (del_target n _ e Hn Hs); [by right|done].
Qed.

Lemma wf_del : wf del_t del_lk.
Proof.
  destruct del_facts as (p & r & El & Hfr & Edel & Hin & Hni & Hi0 & Hid & Hir & Hd0 & Hpn). constructor.
  - unfold del_t. rewrite lookup_insert_ne by done. apply W.
  - destruct (w_root t lk W) as [Hr (rr & Er)]. split; [by apply del_named_other|]. rewrite del_slots.
    destruct (decide (ROOTINO = d)) as [E|]; [|by exists rr]. rewrite Edel. exists (del_name r nm).
    rewrite E, Hl, El in Er. unfold dots in Er |- *. simpl in Er |- *. by simplify_eq.
  - exact del_dir.
  - intros d1 p1 r1 c nc q rc Hn1 Hs1 Hc Hc0 Hcs. destruct (del_inv d1 p1 r1 Hn1 Hs1) as (r0 & Hn0 & Hs0 & ->).
    assert (Hc' : (c, nc) ∈ r0) by (destruct (decide (d1 = d)); [by apply del_name_elem in Hc|done]).
    destruct (del_dir d1 _ Hn1 Hs1) as (p2 & r2 & E2 & _ & _ & Hr2). unfold dots in E2. simpl in E2. injection E2 as -> <-.
    destruct (Hr2 (c, nc) Hc Hc0) as [Hcn _]. simpl in Hcn.
    destruct (del_inv c q rc Hcn Hcs) as (rc0 & Hcn0 & Hcs0 & _).
    destruct (w_up t lk W d1 p2 r0 c nc q rc0 Hn0 Hs0 Hc' Hc0 Hcs0) as [-> E1]. split; [done|].
    pose proof (cnt_elem c nc _ Hc) as Hpos. destruct (decide (d1 = d)) as [->|]; [|done].
    assert (r0 = r) as -> by (rewrite Hl, El in Hs0; unfold dots in Hs0; simpl in Hs0; by simplify_eq).
    rewrite (cnt_del c r nm i) in * by done. destruct (i =? c); lia.
  - intros c p1 r1 Hc Hcr Hcs. destruct (del_inv c p1 r1 Hc Hcs) as (r0 & Hc0 & Hcs0 & _).
    destruct (w_back t lk W c p1 r0 Hc0 Hcr Hcs0) as (q & rp & nc & Hps & Hcin). rewrite del_slots.
    destruct (decide (p1 = d)) as [->|]; [|by exists q, rp, nc]. rewrite Edel. exists p, (del_name r nm), nc.
    split; [done|]. assert (rp = r) as -> by (rewrite Hl, El in Hps; unfold dots in Hps; simpl in Hps; by simplify_eq).
    apply (del_name_keep r nm i); [done|done|]. intros E. simpl in E. subst c.
    apply slots_of_lookup in Hcs0. rewrite Hi in Hcs0. injection Hcs0 as Ex. apply del_named in Hc as [_ Hc].
    rewrite del_lk_dir in Hc; [lia|]. by rewrite Ex.
  - intros n [Hn _]%del_named. rewrite del_links by (by eapply named_nonzero). unfold del_lk. by rewrite (w_links t lk W n Hn) at 1.
Qed.
End Del.
