(* ===== verification/FsTree.v ===== *)
(** * The file system as a tree of names (fs.c: namex, namei, nameiparent)

    What the blocks of the disk say as a tree of names (Tree.v), an invariant of the
    disk and of the inode cache, rules for iget, idup, ilock, iunlock and iput that
    keep it, and the walk of a path as the kernel does it, with its locks and its
    references, against the walk in the tree. *)

From stdpp Require Import base numbers list gmap strings.
From Stdlib Require Import ZArith Lia Bool.
From S2P Require Import Prelude Block Mem Fs FsAlloc FsFile FsRw FsInode FsTrunc FsDir Sysfile Tree TreeInv.

Local Open Scope Z_scope.
Local Open Scope kernel_scope.

(** ** Reference counts *)
Lemma refcnt_nonneg l d m : Forall (fun ip => 0 <= i_ref ip) l -> 0 <= refcnt l d m.
Proof. induction 1 as [|x l Hx _ IH]; [done|]. simpl. destruct (is_ino d m x); lia. Qed.

(** The only live entry of an inode has all its references. *)
Lemma refcnt_entry l i ip :
  icache_ok l -> l !! i = Some ip -> 0 < i_ref ip -> refcnt l (i_dev ip) (i_inum ip) = i_ref ip.
Proof.
  revert i. induction l as [|x l IH]; intros i [Hp Hu] Hi Hr; [done|]. apply Forall_cons in Hp as [Hx Hp].
  assert (Hok : icache_ok l).
  { split; [done|]. intros a b ap bp Ha Hb ? ? ? ?.
    by injection (Hu (S a) (S b) ap bp Ha Hb ltac:(done) ltac:(done) ltac:(done) ltac:(done)). }
  simpl. destruct i as [|i]; simplify_eq/=.
  - rewrite (proj2 (is_ino_true _ _ _)) by done. enough (refcnt l (i_dev ip) (i_inum ip) = 0) by lia.
    assert (Hn : forall j jp, l !! j = Some jp -> is_ino (i_dev ip) (i_inum ip) jp = true -> i_ref jp = 0).
    { intros j jp Hj [Ed En]%is_ino_true. pose proof (Forall_lookup_1 _ _ _ _ Hp Hj). simpl in *.
      destruct (decide (i_ref jp = 0)); [done|]. by pose proof (Hu 0%nat (S j) ip jp eq_refl Hj Hr ltac:(lia) ltac:(done) ltac:(done)). }
    clear -Hn. induction l as [|y l IH]; [done|]. simpl.
    rewrite IH by (intros j jp Hj; by apply (Hn (S j))). destruct (is_ino _ _ y) eqn:E; [|done].
    by rewrite (Hn 0%nat y).
  - rewrite (IH i Hok Hi Hr). destruct (is_ino (i_dev ip) (i_inum ip) x) eqn:E; [|done].
    apply is_ino_true in E as [Ed En]. destruct (decide (i_ref x = 0)); [lia|].
    by pose proof (Hu 0%nat (S i) x ip eq_refl Hi ltac:(lia) Hr Ed En).
Qed.

Lemma refcnt_pos l d m : Forall (fun ip => 0 <= i_ref ip) l -> 0 < refcnt l d m ->
  exists i ip, l !! i = Some ip /\ 0 < i_ref ip /\ i_dev ip = d /\ i_inum ip = m.
Proof.
  induction 1 as [|x l Hx Hl IH]; [done|]. simpl. intros Hp.
  destruct (is_ino d m x) eqn:E.
  - destruct (decide (0 < i_ref x)).
    + apply is_ino_true in E as [??]. by exists 0%nat, x.
    + destruct IH as (i & ip & ?); [lia|]. by exists (S i), ip.
  - destruct IH as (i & ip & ?); [lia|]. by exists (S i), ip.
Qed.

(** The entries that are free. *)
Definition room (l : list inode) : nat := length (List.filter (fun ip => i_ref ip =? 0) l).

Definition taken (l : list inode) : list inode := List.filter (fun ip => negb (i_ref ip =? 0)) l.

Lemma room_taken l : (room l + length (taken l))%nat = length l.
Proof. unfold room, taken. induction l as [|x l IH]; [done|]. simpl. destruct (i_ref x =? 0); simpl; lia. Qed.

Lemma taken_nodup (l : list inode) :
  (forall i j ip jp, l !! i = Some ip -> l !! j = Some jp -> i_ref ip <> 0 -> i_ref jp <> 0 -> i_inum ip = i_inum jp -> i = j) ->
  NoDup (i_inum <$> taken l).
Proof.
  induction l as [|x l IH]; intros Hl; [constructor|]. unfold taken. simpl.
  assert (Hl' : NoDup (i_inum <$> taken l)) by (apply IH; intros i j ip jp Ha Hb ? ? ?; by injection (Hl (S i) (S j) ip jp Ha Hb)).
  destruct (Z.eqb_spec (i_ref x) 0) as [|Hx]; [done|]. simpl. constructor; [|done].
  rewrite list_elem_of_fmap. intros (y & Ey & [Hy%list_elem_of_In Hz]%list_elem_of_In%filter_In).
  apply list_elem_of_lookup in Hy as [k Hk]. apply negb_true_iff, Z.eqb_neq in Hz.
  by pose proof (Hl 0%nat (S k) x y eq_refl Hk Hx Hz Ey).
Qed.

(** ** Names and paths *)
Lemma cname_plain e : Forall (fun c => c <> 0) e -> cname (take (Z.to_nat DIRSIZ) e) = take (Z.to_nat DIRSIZ) e.
Proof.
  intros He. unfold cname. rewrite take_take, Nat.min_id. generalize (Z.to_nat DIRSIZ) as n. intros n.
  revert n. induction He as [|c e Hc _ IH]; intros [|n]; [done..|]. simpl.
  destruct (Z.eqb_spec c 0); [done|]. by rewrite IH.
Qed.

Lemma elems_all (P : Z -> Prop) p : Forall P p -> Forall (Forall P) (elems p).
Proof.
  intros Hp. assert (Hps : Forall (Forall P) (pieces p)).
  { induction Hp as [|c p Hc _ IH]; [by repeat constructor|]. cbn [pieces].
    destruct (c =? SLASH); [by repeat constructor|]. destruct (pieces p) as [|e t]; [by repeat constructor|].
    apply Forall_cons in IH as [He Ht]. by repeat constructor. }
  unfold elems. induction Hps as [|e t He _ IH]; [constructor|]. simpl. destruct (negb (is_nil e)); [by constructor|done].
Qed.

Lemma last_elem_all (P : Z -> Prop) path nm : Forall P path -> last (path_elems path) = Some nm ->
  exists e, Forall P e /\ nm = take (Z.to_nat DIRSIZ) e.
Proof.
  intros Hp El. apply last_Some_elem_of in El. unfold path_elems in El. apply list_elem_of_In, in_map_iff in El as (e & <- & Hin).
  exists e. split; [|done]. pose proof (elems_all P path Hp) as H. rewrite Forall_forall in H. apply H. by apply list_elem_of_In.
Qed.

(** The directory of the last element, step by step. *)
Fixpoint walkp (t : tree) (d : Z) (ns : list name) : option (Z * name) :=
  match ns with
  | [] => None
  | n :: ns' =>
      match ns' with
      | [] => match slots_of t d with Some _ => Some (d, n) | None => None end
      | _ :: _ => d' ← child t d n; walkp t d' ns'
      end
  end.

Lemma walkp_walk t d ns :
  walkp t d ns = n ← last ns; d' ← walk t d (removelast ns); _ ← slots_of t d'; Some (d', n).
Proof.
  revert d. induction ns as [|n ns IH]; intros d; [done|]. destruct ns as [|m ns].
  - simpl. by destruct (slots_of t d).
  - cbn [walkp removelast walk]. change (last (n :: m :: ns)) with (last (m :: ns)).
    destruct (child t d n) as [d'|].
    + exact (IH d').
    + by destruct (last (m :: ns)).
Qed.

Definition target (t : tree) (par : bool) (d : Z) (ns : list name) : option (Z * name) :=
  if par then walkp t d ns else (fun m => (m, [])) <$> walk t d ns.

Lemma target_step t par d n ns :
  (par = true -> ns <> []) -> target t par d (n :: ns) = d' ← child t d n; target t par d' ns.
Proof.
  intros Hp. unfold target. destruct par.
  - by destruct ns; [destruct Hp|].
  - cbn [walk]. by destruct (child t d n).
Qed.

Lemma target_stop t par d n ns : slots_of t d = None -> target t par d (n :: ns) = None.
Proof. intros E. unfold target, child. destruct par; simpl; unfold child; rewrite E; [by destruct ns|done]. Qed.

Section FsTree.
Context {D : Type} `{DV : Devsw D}.
Implicit Types s : fsst D.

(** ** The disk as a tree *)
Definition blank (n : Z) : inode := mkInode ROOTDEV n 0 false false 0 0 0 0 0 [].
Definition dino s (n : Z) : inode := disk_ino s n (blank n).

Definition alloc s (n : Z) : bool := (0 <? n) && (n <? sb_ninodes (sb s)) && negb (i_type (dino s n) =? 0).

Definition slots s (ip : inode) : list (Z * name) :=
  map (fun k => (de_inum (dirent_at s ip k), cname (de_name (dirent_at s ip k)))) (seqZ 0 (nents ip)).

Definition node_of s (ip : inode) : node :=
  if i_type ip =? T_DIR then NDir (slots s ip)
  else if i_type ip =? T_DEV then NDev (i_major ip) (i_minor ip)
  else NFile (map (fbyte s ip) (seqZ 0 (i_size ip))).

Definition node_at s (n : Z) : option node := if alloc s n then Some (node_of s (dino s n)) else None.

Definition tree_of s : tree :=
  list_to_map (omap (fun n => pair n <$> node_at s n) (seqZ 1 (sb_ninodes (sb s)))).

Lemma tree_of_lookup s n : tree_of s !! n = node_at s n.
Proof.
  unfold tree_of. destruct (node_at s n) as [x|] eqn:E.
  - apply elem_of_list_to_map_1.
    + assert (Hf : forall l : list Z, (omap (fun n => pair n <$> node_at s n) l).*1 = omap (fun n => (fun _ => n) <$> node_at s n) l).
      { induction l as [|m l IH]; [done|]. simpl. destruct (node_at s m); simpl; [by f_equal|done]. }
      rewrite Hf. assert (Hn := NoDup_seqZ 1 (sb_ninodes (sb s))). revert Hn. generalize (seqZ 1 (sb_ninodes (sb s))).
      induction l as [|m l IH]; intros Hn; [constructor|]. apply NoDup_cons in Hn as [Hm Hn]. simpl.
      destruct (node_at s m); simpl; [|by apply IH]. constructor; [|by apply IH].
      rewrite list_elem_of_omap. intros (y & Hy & Ey). destruct (node_at s y); by simplify_eq/=.
    + apply list_elem_of_omap. exists n. split; [|by rewrite E]. apply elem_of_seqZ.
      unfold node_at, alloc in E. destruct (Z.ltb_spec 0 n), (Z.ltb_spec n (sb_ninodes (sb s))); simplify_eq/=; lia.
  - apply not_elem_of_list_to_map_1. rewrite list_elem_of_fmap. intros ([m x] & -> & Hm).
    apply list_elem_of_omap in Hm as (y & _ & Ey). simpl in *. destruct (node_at s y) eqn:Ey'; by simplify_eq/=.
Qed.

Lemma slots_of_tree s n :
  slots_of (tree_of s) n =
  if alloc s n && (i_type (dino s n) =? T_DIR) then Some (slots s (dino s n)) else None.
Proof.
  unfold slots_of. rewrite tree_of_lookup. unfold node_at, node_of.
  destruct (alloc s n); [|done]. destruct (i_type (dino s n) =? T_DIR); [done|]. by destruct (_ =? T_DEV).
Qed.

(** ** The invariant *)
Record ino_inv s (n : Z) : Prop := mkInoInv {
  ii_type : i_type (dino s n) = T_DIR \/ i_type (dino s n) = T_FILE \/ i_type (dino s n) = T_DEV;
  ii_ok : ino_ok (dino s n);
  ii_file : file_ok s (dino s n);
  ii_hole : nohole s (dino s n);
  ii_dir : i_type (dino s n) = T_DIR -> i_size (dino s n) mod sizeof_dirent = 0
}.

(** Every inode that the cache refers to is allocated, and a valid entry is what the
    disk says; every allocated inode has a well-formed file, in blocks of its own. *)
Record pinv s : Prop := mkPinv {
  fi_fs : fs_ok s;
  fi_small : sb_ninodes (sb s) <= 65536;
  fi_cache : icache_ok (icache s);
  fi_ref : forall i ip, icache s !! i = Some ip -> 0 < i_ref ip ->
           i_dev ip = ROOTDEV /\ alloc s (i_inum ip) = true /\
           (i_valid ip = true -> disk_ino s (i_inum ip) ip = ip);
  fi_ino : forall n, alloc s n = true -> ino_inv s n;
  fi_disj : forall n m k j, alloc s n = true -> alloc s m = true -> n <> m -> is_slot k -> is_slot j ->
            slot s (dino s n) k <> 0 -> slot s (dino s n) k <> slot s (dino s m) j
}.

(** The inodes that have a name, and that names lead to such inodes only. *)
Definition nlink_of s (n : Z) : Z := i_nlink (dino s n).
Definition linked s (n : Z) : bool := alloc s n && (0 <? nlink_of s n).

Record walkable s : Prop := mkWalkable {
  wk_root : linked s ROOTINO = true;
  wk_names : forall d l e, linked s d = true -> slots_of (tree_of s) d = Some l -> e ∈ l -> e.1 <> 0 ->
             linked s e.1 = true
}.

Lemma linked_alloc s n : linked s n = true -> alloc s n = true /\ 0 < i_nlink (dino s n).
Proof. unfold linked, nlink_of. intros H. by b2p. Qed.

Lemma walkable_child s d nm m :
  walkable s -> linked s d = true -> child (tree_of s) d nm = Some m -> linked s m = true.
Proof.
  intros W Hd Hc. unfold child in Hc. destruct (slots_of (tree_of s) d) as [l|] eqn:E; [|done]. simpl in Hc.
  apply find_name_elem in Hc as [Hin Hm]. by apply (wk_names s W d l (m, nm)).
Qed.

Lemma walkable_walk s d ns m :
  walkable s -> linked s d = true -> walk (tree_of s) d ns = Some m -> linked s m = true.
Proof.
  intros W. revert d. induction ns as [|n ns IH]; intros d Hd Hk; simpl in Hk; [by injection Hk as <-|].
  destruct (child (tree_of s) d n) as [d'|] eqn:E; [|done]. apply (IH d'); [by eapply walkable_child|done].
Qed.

(** The disk, with what the cache does not change. *)
Definition same_disk s s' : Prop :=
  blk s' = blk s /\ sb s' = sb s /\ disksize s' = disksize s /\ logged s' = logged s /\ devst s' = devst s.

Lemma same_disk_set_ino s i ip : same_disk s (set_ino i ip s).
Proof. done. Qed.

Lemma same_disk_trans s1 s2 s3 : same_disk s1 s2 -> same_disk s2 s3 -> same_disk s1 s3.
Proof. unfold same_disk. intros (->&->&->&->&->) (->&->&->&->&->). done. Qed.

Lemma same_disk_cache s s' : same_disk s s' -> exists l, s' = set_icache l s.
Proof.
  intros (E1 & E2 & E3 & E4 & E5). exists (icache s'). destruct s, s'; simpl in *. by subst.
Qed.

(** What the invariant says does not depend on the cache, its second and third parts
    apart. *)
Lemma pinv_cache s l :
  pinv s -> icache_ok l ->
  (forall i ip, l !! i = Some ip -> 0 < i_ref ip ->
     i_dev ip = ROOTDEV /\ alloc s (i_inum ip) = true /\ (i_valid ip = true -> disk_ino s (i_inum ip) ip = ip)) ->
  pinv (set_icache l s).
Proof.
  intros [O Hsm _ _ Hino Hdj] Hok Hl. constructor; [by destruct O|done|done|exact Hl| |exact Hdj].
  intros n Hn. destruct (Hino n Hn) as [?? [????] ??]. by constructor.
Qed.

Lemma tree_of_same s s' : same_disk s s' -> tree_of s' = tree_of s.
Proof. by intros [l ->]%same_disk_cache. Qed.
Lemma alloc_same s s' n : same_disk s s' -> alloc s' n = alloc s n.
Proof. by intros [l ->]%same_disk_cache. Qed.
Lemma dino_same s s' n : same_disk s s' -> dino s' n = dino s n.
Proof. by intros [l ->]%same_disk_cache. Qed.
Lemma linked_same s s' n : same_disk s s' -> linked s' n = linked s n.
Proof. by intros [l ->]%same_disk_cache. Qed.
Lemma walkable_same s s' : same_disk s s' -> walkable s -> walkable s'.
Proof. intros [l ->]%same_disk_cache [??]. by constructor. Qed.

(** ** References and locks *)

(** Entry [i] of the cache is for inode [n], and referenced. *)
Definition at_ino s (i : nat) (n : Z) : Prop :=
  exists ip, icache s !! i = Some ip /\ 0 < i_ref ip /\ i_dev ip = ROOTDEV /\ i_inum ip = n.

Definition refs s (n : Z) : Z := refcnt (icache s) ROOTDEV n.

Definition occ (n : Z) (l : list Z) : Z := foldr (fun m k => (if m =? n then 1 else 0) + k) 0 l.

Lemma occ_nonneg n l : 0 <= occ n l.
Proof. induction l as [|m l IH]; simpl; [done|]. destruct (m =? n); lia. Qed.

Lemma occ_elem n l : n ∈ l -> 0 < occ n l.
Proof.
  induction 1 as [n l|n m l _ IH]; simpl.
  - rewrite Z.eqb_refl. pose proof (occ_nonneg n l). lia.
  - destruct (m =? n); lia.
Qed.

Lemma occ_none n l : n ∉ l -> occ n l = 0.
Proof.
  induction l as [|m l IH]; [done|]. intros [Hne Hl]%not_elem_of_cons. simpl. destruct (Z.eqb_spec m n); [done|]. by rewrite IH.
Qed.

Lemma at_ino_refs s i n ip :
  icache_ok (icache s) -> icache s !! i = Some ip -> 0 < i_ref ip -> i_dev ip = ROOTDEV -> i_inum ip = n ->
  refs s n = i_ref ip.
Proof. intros Hok Hi Hr Hd <-. unfold refs. rewrite <- Hd. by apply (refcnt_entry _ i). Qed.

Lemma at_ino_pos s i n : icache_ok (icache s) -> at_ino s i n -> 0 < refs s n.
Proof. intros Hok (ip & Hi & Hr & Hd & Hn). by rewrite (at_ino_refs s i n ip). Qed.

(** [s] has the references of [s0] and one more for each member of [l]; the entries
    of [s0] stay where they are; the locks that are held are those of the entries [h]. *)
Record got s0 s (l : list Z) (h : list nat) : Prop := mkGot {
  g_base : icache_ok (icache s0);
  g_inv : pinv s;
  g_refs : forall m, refs s m = refs s0 m + occ m l;
  g_keep : forall i m, at_ino s0 i m -> at_ino s i m;
  g_held : forall j jp, icache s !! j = Some jp -> i_locked jp = bool_decide (j ∈ h);
  g_len : length (icache s) = length (icache s0)
}.

Lemma got_start s : pinv s -> (forall j jp, icache s !! j = Some jp -> i_locked jp = false) -> got s s [] [].
Proof. intros Hi Hh. constructor; [apply Hi|done|intros m; simpl; lia|done| |done]. intros j jp Hj. by rewrite (Hh j jp). Qed.

(** The entry [i] of the cache has inode [n], referenced and read in. *)
Definition has s (i : nat) (n : Z) (ip : inode) : Prop :=
  icache s !! i = Some ip /\ 0 < i_ref ip /\ i_inum ip = n /\ i_valid ip = true.
Definition read_in s (i : nat) (n : Z) : Prop := exists ip, has s i n ip.

(** A step of the cache: the disk is the same, and an entry that is still referenced
    stays where it is, and stays read in. *)
Definition stay s s' : Prop :=
  (forall i m, at_ino s i m -> 0 < refs s' m -> at_ino s' i m) /\
  (forall i m, read_in s i m -> 0 < refs s' m -> read_in s' i m).
Definition cstep s s' : Prop := same_disk s s' /\ stay s s'.

(** The step that changes an entry but not what it is for. *)
Lemma got_upd s0 s l l' h h' i ip ip' :
  got s0 s l h -> icache s !! i = Some ip -> 0 < i_ref ip ->
  i_dev ip' = i_dev ip -> i_inum ip' = i_inum ip -> 0 <= i_ref ip' ->
  (forall m, occ m l' = occ m l + if i_inum ip =? m then i_ref ip' - i_ref ip else 0) ->
  (i_valid ip = true -> i_valid ip' = true) -> (i_valid ip' = true -> disk_ino s (i_inum ip) ip' = ip') ->
  (forall j, bool_decide (j ∈ h') = if decide (j = i) then i_locked ip' else bool_decide (j ∈ h)) ->
  got s0 (set_ino i ip' s) l' h' /\ cstep s (set_ino i ip' s).
Proof.
  intros [Hbase Hinv Hrefs Hkeep Hheld Hlen] Hi Hr Ed En Hr' Hocc Hvv Hv Hh. pose proof (fi_cache s Hinv) as Hok.
  assert (Hlt : (i < length (icache s))%nat) by (by eapply lookup_lt_Some).
  destruct (fi_ref s Hinv i ip Hi Hr) as (Hdev & Hall & _).
  assert (Hr2 : forall m, refs (set_ino i ip' s) m = refs s0 m + occ m l').
  { intros m. unfold refs. cbn [set_ino set_icache icache]. rewrite (refcnt_insert _ _ ip) by done.
    unfold is_ino. rewrite Ed, En, Hdev, Z.eqb_refl. cbn [andb]. change (refcnt (icache s) ROOTDEV m) with (refs s m).
    rewrite Hrefs, Hocc. change (refcnt (icache s0) ROOTDEV m) with (refs s0 m). destruct (i_inum ip =? m); lia. }
  assert (Hi' : icache (set_ino i ip' s) !! i = Some ip') by (by apply list_lookup_insert_eq).
  assert (Hne : forall j, j <> i -> icache (set_ino i ip' s) !! j = icache s !! j)
    by (intros j Hj; simpl; by rewrite list_lookup_insert_ne).
  assert (Hok' : icache_ok (icache (set_ino i ip' s))) by (by apply (icache_ok_same _ i ip)).
  assert (Hn : refs (set_ino i ip' s) (i_inum ip) = i_ref ip').
  { rewrite Hr2, Hocc, Z.eqb_refl. pose proof (Hrefs (i_inum ip)) as E.
    rewrite (at_ino_refs s i (i_inum ip) ip) in E by done. lia. }
  assert (Hst : forall j m, at_ino s j m -> 0 < refs (set_ino i ip' s) m -> at_ino (set_ino i ip' s) j m).
  { intros j m (jp & Hj & Hjr & Hjd & Hjn) Hp. destruct (decide (j = i)) as [->|Hji].
    - exists ip'. rewrite Hi in Hj. injection Hj as <-. rewrite Hjn in *. split_and!; [done|lia|congruence|congruence].
    - exists jp. by rewrite Hne. }
  assert (Hst2 : forall j m, read_in s j m -> 0 < refs (set_ino i ip' s) m -> read_in (set_ino i ip' s) j m).
  { intros j m (jp & Hj & Hjr & Hjn & Hjv) Hp. destruct (decide (j = i)) as [->|Hji].
    - exists ip'. rewrite Hi in Hj. injection Hj as <-. rewrite <- Hjn in *. split_and!; [done|lia|congruence|auto].
    - exists jp. unfold has. by rewrite Hne. }
  split; [constructor; [done|..]|done].
  - apply pinv_cache; [done|done|]. intros j jp Hj Hp. destruct (decide (j = i)) as [->|Hji].
    + cbn [set_ino set_icache icache] in Hi'. rewrite Hi' in Hj. injection Hj as <-. rewrite Ed, En. done.
    + rewrite list_lookup_insert_ne in Hj by done. by apply (fi_ref s Hinv j jp).
  - done.
  - intros j m Hj. apply Hst; [by apply Hkeep|]. rewrite Hr2. pose proof (occ_nonneg m l'). pose proof (at_ino_pos s0 j m Hbase Hj). lia.
  - intros j jp Hj. rewrite Hh. destruct (decide (j = i)) as [->|Hji]; [congruence|].
    rewrite Hne in Hj by done. by apply Hheld.
  - simpl. by rewrite length_insert.
Qed.

(** ** The rules *)
Lemma agree_ref s n ip r : disk_ino s n ip = ip -> disk_ino s n (set_ref r ip) = set_ref r ip.
Proof. intros E. rewrite <- E at 2. done. Qed.
Lemma agree_locked s n ip b : disk_ino s n ip = ip -> disk_ino s n (set_locked b ip) = set_locked b ip.
Proof. intros E. rewrite <- E at 2. done. Qed.

Lemma got_idup s0 s l h i n :
  got s0 s l h -> at_ino s i n ->
  wp (idup i) (fun j s' => j = i /\ got s0 s' (n :: l) h /\ cstep s s' /\ at_ino s' i n) s.
Proof.
  intros G Hat. pose proof Hat as (ip & Hi & Hr & Hd & <-). unfold idup. wp_steps. eapply wp_upd_inode; [done|]. wp_steps.
  destruct (got_upd s0 s l (i_inum ip :: l) h h i ip (set_ref (i_ref ip + 1) ip) G Hi Hr) as [G' C]; try done.
  - simpl; lia.
  - intros m. simpl. destruct (i_inum ip =? m); lia.
  - intros Hv. destruct (fi_ref s (g_inv _ _ _ _ G) i ip Hi Hr) as (_ & _ & E). by apply agree_ref, E.
  - intros j. destruct (decide (j = i)) as [->|]; [|done]. simpl. by rewrite (g_held _ _ _ _ G i ip).
  - split; [done|]. split; [exact G'|]. split; [exact C|]. apply C; [done|].
    rewrite (g_refs _ _ _ _ G'). pose proof (occ_nonneg (i_inum ip) l). simpl. rewrite Z.eqb_refl.
    pose proof (refcnt_nonneg (icache s0) ROOTDEV (i_inum ip) (proj1 (g_base _ _ _ _ G))).
    change (refcnt (icache s0) ROOTDEV (i_inum ip)) with (refs s0 (i_inum ip)) in *. lia.
Qed.

Lemma got_pos s0 s l h n : got s0 s l h -> n ∈ l -> 0 < refs s n.
Proof.
  intros G Hn. rewrite (g_refs _ _ _ _ G). pose proof (occ_elem n l Hn).
  pose proof (refcnt_nonneg (icache s0) ROOTDEV n (proj1 (g_base _ _ _ _ G))). unfold refs. lia.
Qed.

Lemma got_ilock s0 s l h i n :
  got s0 s l h -> at_ino s i n -> i ∉ h ->
  wp (ilock i) (fun _ s' => got s0 s' l (i :: h) /\ cstep s s' /\
    exists ip, icache s' !! i = Some ip /\ 0 < i_ref ip /\ i_inum ip = n /\ i_valid ip = true /\ i_locked ip = true) s.
Proof.
  intros G (ip & Hi & Hr & Hd & <-) Hh. pose proof (g_inv _ _ _ _ G) as Hinv. pose proof (fi_fs s Hinv) as O.
  destruct (fi_ref s Hinv i ip Hi Hr) as (_ & Hall & Hval).
  assert (Hl : i_locked ip = false) by (rewrite (g_held _ _ _ _ G i ip Hi); by apply bool_decide_eq_false).
  assert (Hlt : (i < length (icache s))%nat) by (by eapply lookup_lt_Some).
  assert (Hstep : forall ip', i_dev ip' = i_dev ip -> i_inum ip' = i_inum ip -> i_ref ip' = i_ref ip ->
    i_valid ip' = true -> i_locked ip' = true -> disk_ino s (i_inum ip) ip' = ip' ->
    got s0 (set_ino i ip' s) l (i :: h) /\ cstep s (set_ino i ip' s) /\
    exists ip0, icache (set_ino i ip' s) !! i = Some ip0 /\ 0 < i_ref ip0 /\ i_inum ip0 = i_inum ip /\
      i_valid ip0 = true /\ i_locked ip0 = true).
  { intros ip' E1 E2 E3 E4 E5 E6.
    destruct (got_upd s0 s l l h (i :: h) i ip ip' G Hi Hr) as [G' C]; try done; [lia| | |].
    - intros m. destruct (i_inum ip =? m); lia.
    - intros j. destruct (decide (j = i)) as [->|]; [rewrite E5; apply bool_decide_eq_true; set_solver|].
      apply bool_decide_ext. set_solver.
    - split; [done|]. split; [done|]. exists ip'. split; [by apply list_lookup_insert_eq|].
      split_and!; [lia|done|done|done]. }
  destruct (i_valid ip) eqn:Ev.
  - apply (ilock_valid_wp _ s i ip); [done|lia|done|done|]. apply Hstep; try done. by apply agree_locked, Hval.
  - assert (Hn : 0 <= i_inum ip < sb_ninodes (sb s)) by (unfold alloc in Hall; b2p; lia).
    apply (ilock_load_wp _ s i ip); [done|done|lia|done|done|done|done| |apply Hstep; done].
    unfold alloc in Hall. b2p. done.
Qed.

Lemma got_iunlock s0 s l h i n :
  got s0 s l (i :: h) -> at_ino s i n -> i ∉ h ->
  wp (iunlock i) (fun _ s' => got s0 s' l h /\ cstep s s') s.
Proof.
  intros G (ip & Hi & Hr & Hd & <-) Hh. unfold iunlock. wp_steps. eapply wp_inode_at; [done|].
  rewrite (g_held _ _ _ _ G i ip Hi), bool_decide_true by set_solver. destruct (Z.ltb_spec (i_ref ip) 1); [lia|].
  cbn [negb orb]. eapply wp_upd_inode; [done|]. apply (got_upd s0 s l l (i :: h) h i ip); try done.
  - simpl; lia.
  - intros m. simpl. destruct (i_inum ip =? m); lia.
  - intros Hv. destruct (fi_ref s (g_inv _ _ _ _ G) i ip Hi Hr) as (_ & _ & E). by apply agree_locked, E.
  - intros j. destruct (decide (j = i)) as [->|]; [by apply bool_decide_eq_false|]. apply bool_decide_ext. set_solver.
Qed.

(** A step that leaves the references as they are leaves the entries where they are. *)
Lemma cstep_keep s0 s s' l h h' j m : got s0 s l h -> got s0 s' l h' -> cstep s s' -> at_ino s j m -> at_ino s' j m.
Proof.
  intros G G' [_ K] Hat. apply K; [done|]. rewrite (g_refs _ _ _ _ G'), <- (g_refs _ _ _ _ G).
  by apply (at_ino_pos s j m); [apply G|].
Qed.

Lemma read_in_at s j m : pinv s -> read_in s j m -> at_ino s j m.
Proof. intros Inv (ip & Hi & Hr & Hn & _). exists ip. split_and!; try done. by apply (fi_ref s Inv j ip). Qed.

Lemma cstep_read s0 s s' l h h' j m : got s0 s l h -> got s0 s' l h' -> cstep s s' -> read_in s j m -> read_in s' j m.
Proof.
  intros G G' [_ K] Hin. apply K; [done|]. rewrite (g_refs _ _ _ _ G'), <- (g_refs _ _ _ _ G).
  apply (at_ino_pos s j m); [apply G|]. apply read_in_at; [apply G|done].
Qed.

(** And a step that adds a reference. *)
Lemma cstep_more s0 s s' l h h' n j m : got s0 s l h -> got s0 s' (n :: l) h' -> cstep s s' ->
  (at_ino s j m -> at_ino s' j m) /\ (read_in s j m -> read_in s' j m).
Proof.
  intros G G' [_ K]. assert (Hp : at_ino s j m -> 0 < refs s' m).
  { intros Hat. pose proof (at_ino_pos s j m (fi_cache _ (g_inv _ _ _ _ G)) Hat). rewrite (g_refs _ _ _ _ G') , (g_refs _ _ _ _ G) in *.
    simpl. destruct (n =? m); lia. }
  split; intros H; (apply K; [done|]); apply Hp; [done|]. apply read_in_at; [apply G|done].
Qed.

(** A reference to a node that has a link, or is not the last one. *)
Lemma got_iput s0 s l h i n :
  got s0 s (n :: l) h -> at_ino s i n -> i ∉ h -> 0 < i_nlink (dino s n) \/ 1 < refs s n ->
  wp (iput i) (fun _ s' => got s0 s' l h /\ cstep s s') s.
Proof.
  intros G (ip & Hi & Hr & Hd & <-) Hh Hlive. pose proof (g_inv _ _ _ _ G) as Hinv.
  assert (Hl : i_locked ip = false) by (rewrite (g_held _ _ _ _ G i ip Hi); by apply bool_decide_eq_false).
  destruct (fi_ref s Hinv i ip Hi Hr) as (_ & _ & Hval).
  rewrite (at_ino_refs s i (i_inum ip) ip (fi_cache s Hinv) Hi Hr Hd eq_refl) in Hlive.
  eapply wp_intro; [apply (iput_drop s i ip); [done|done|]|].
  - destruct (i_valid ip); [|done]. specialize (Hval eq_refl). cbn [andb].
    destruct (Z.eqb_spec (i_nlink ip) 0) as [E0|]; [|done]. destruct (Z.eqb_spec (i_ref ip) 1); [|done].
    assert (i_nlink (dino s (i_inum ip)) = i_nlink ip) by (rewrite <- Hval at 2; done). lia.
  - apply (got_upd s0 s (i_inum ip :: l) l h h i ip); try done.
    + simpl; lia.
    + intros m. simpl. destruct (i_inum ip =? m); lia.
    + intros Hv. by apply agree_ref, Hval.
    + intros j. destruct (decide (j = i)) as [->|]; [|done]. simpl. rewrite Hl. by apply bool_decide_eq_false.
Qed.

(** iget finds the entry of the inode or takes a free one. *)
Definition fresh_entry (dev inum : Z) (ip : inode) : inode :=
  mkInode dev inum 1 (i_locked ip) false (i_type ip) (i_major ip) (i_minor ip) (i_nlink ip) (i_size ip) (i_addrs ip).

Lemma iget_cases s dev inum :
  match iget dev inum s with
  | Ret i s' => exists ip, icache s !! i = Some ip /\
      (0 < i_ref ip /\ i_dev ip = dev /\ i_inum ip = inum /\ s' = set_ino i (set_ref (i_ref ip + 1) ip) s \/
       i_ref ip = 0 /\ s' = set_ino i (fresh_entry dev inum ip) s /\
       forall j jp, icache s !! j = Some jp -> 0 < i_ref jp -> ~ (i_dev jp = dev /\ i_inum jp = inum))
  | Panic _ => forall j jp, icache s !! j = Some jp -> i_ref jp <> 0
  | _ => False
  end.
Proof.
  unfold iget. rewrite bind_get. pose proof (iget_scan_spec dev inum (icache s) 0 None) as H.
  destruct (iget_scan dev inum (icache s) 0 None) as [k|[k|]]; [| |exact (proj2 H)].
  - destruct H as (j & ip & -> & Hj & Hr & Hd & Hn). simpl. unfold upd_inode, inode_at, bind, get, modify, ret.
    rewrite Hj. exists ip. split; [done|]. by left.
  - destruct H as (Hno & j & ip & -> & Hj & Hr). simpl. unfold upd_inode, inode_at, bind, get, modify, ret.
    rewrite Hj. exists ip. split; [done|]. right. done.
Qed.

(** The live entries of [s] are for the live inodes of [s0] and for those of [l]. *)
Lemma got_taken s0 s l h :
  got s0 s l h -> (length (taken (icache s)) <= length (taken (icache s0)) + length l)%nat.
Proof.
  intros G. pose proof (g_inv _ _ _ _ G) as Hinv. destruct (fi_cache s Hinv) as [Hpos Huniq].
  assert (Hin : forall ip, ip ∈ taken (icache s) -> exists j, icache s !! j = Some ip /\ 0 < i_ref ip).
  { intros ip Hip. apply list_elem_of_In, filter_In in Hip as [[j Hj]%list_elem_of_In%list_elem_of_lookup Hz].
    exists j. split; [done|]. pose proof (Forall_lookup_1 _ _ _ _ Hpos Hj). simpl in *.
    apply negb_true_iff, Z.eqb_neq in Hz. lia. }
  assert (Hnd : NoDup (i_inum <$> taken (icache s))).
  { apply taken_nodup. intros i j ip jp Ha Hb Hai Hbj En. pose proof (Forall_lookup_1 _ _ _ _ Hpos Ha). pose proof (Forall_lookup_1 _ _ _ _ Hpos Hb).
    simpl in *. apply (Huniq i j ip jp); [done|done|lia|lia| |done].
    by rewrite (proj1 (fi_ref s Hinv i ip Ha ltac:(lia))), (proj1 (fi_ref s Hinv j jp Hb ltac:(lia))). }
  assert (Hincl : incl (i_inum <$> taken (icache s)) ((i_inum <$> taken (icache s0)) ++ l)).
  { intros n Hn. apply in_map_iff in Hn as (ip & <- & (j & Hj & Hr)%list_elem_of_In%Hin).
    destruct (fi_ref s Hinv j ip Hj Hr) as (Hd & _). apply in_app_iff.
    destruct (decide (i_inum ip ∈ l)) as [Hl|Hl]; [right; by apply list_elem_of_In|left].
    pose proof (g_refs _ _ _ _ G (i_inum ip)) as E. rewrite (occ_none _ _ Hl) in E.
    rewrite (at_ino_refs s j (i_inum ip) ip (fi_cache s Hinv) Hj Hr Hd eq_refl) in E.
    destruct (refcnt_pos (icache s0) ROOTDEV (i_inum ip)) as (k & kp & Hk & Hkr & _ & Hkn);
      [apply (g_base _ _ _ _ G)|unfold refs in E; lia|].
    rewrite <- Hkn. apply in_map, filter_In. split; [apply list_elem_of_In; by eapply list_elem_of_lookup_2|].
    destruct (Z.eqb_spec (i_ref kp) 0); [lia|done]. }
  pose proof (NoDup_incl_length (proj1 (NoDup_ListNoDup _) Hnd) Hincl) as Hlen. by rewrite length_app, !length_fmap in Hlen.
Qed.

Lemma got_rooms s0 s l h : got s0 s l h -> (room (icache s0) <= room (icache s) + length l)%nat.
Proof.
  intros G. pose proof (got_taken s0 s l h G). pose proof (room_taken (icache s0)). pose proof (room_taken (icache s)).
  pose proof (g_len _ _ _ _ G). lia.
Qed.

Lemma got_room s0 s l h :
  got s0 s l h -> (length l < room (icache s0))%nat -> ~ forall j jp, icache s !! j = Some jp -> i_ref jp <> 0.
Proof.
  intros G Hroom Hfull. pose proof (got_rooms s0 s l h G) as H. enough (room (icache s) = 0)%nat by lia.
  clear -Hfull. unfold room. induction (icache s) as [|x L IH]; [done|]. simpl.
  destruct (Z.eqb_spec (i_ref x) 0) as [E|]; [by destruct (Hfull 0%nat x eq_refl)|]. apply IH. intros j jp. by apply (Hfull (S j)).
Qed.

(** What a call gets on top of what its caller has. *)
Lemma got_trans s0 s s' l l' h h' : got s0 s l h -> got s s' l' h' -> got s0 s' (l' ++ l) h'.
Proof.
  intros [B0 I0 R0 K0 H0 L0] [B1 I1 R1 K1 H1 L1]. constructor; [done|done| |auto|done|congruence].
  intros m. rewrite R1, R0. enough (occ m (l' ++ l) = occ m l' + occ m l) by lia. clear. induction l' as [|x l' IH]; [done|].
  simpl. rewrite IH. lia.
Qed.

Lemma got_rebase s0 s l h : got s0 s l h -> got s s [] h.
Proof. intros [B0 I0 R0 K0 H0 L0]. constructor; [apply I0|done|intros m; simpl; lia|done|done|done]. Qed.

Lemma got_iget s0 s l h n :
  got s0 s l h -> alloc s n = true -> (length l < room (icache s0))%nat ->
  wp (iget ROOTDEV n) (fun i s' => got s0 s' (n :: l) h /\ cstep s s' /\ at_ino s' i n) s.
Proof.
  intros G Hall Hroom. pose proof (g_inv _ _ _ _ G) as Hinv. pose proof (iget_cases s ROOTDEV n) as H. unfold wp.
  destruct (iget ROOTDEV n s) as [i s'|msg| |]; [|by destruct (got_room s0 s l h G Hroom)|done|done].
  destruct H as (ip & Hi & [(Hr & Hd & <- & ->)|(Hr & -> & Hno)]).
  - pose proof (got_idup s0 s l h i (i_inum ip) G ltac:(by exists ip)) as W. unfold idup in W.
    apply wp_bind_inv, wp_inv in W as ([] & s1 & E & W). unfold upd_inode, inode_at, bind, get, modify, ret in E.
    rewrite Hi in E. injection E as <-. by destruct W as (_ & W).
  - assert (Hlt : (i < length (icache s))%nat) by (by eapply lookup_lt_Some).
    set (ip' := fresh_entry ROOTDEV n ip). set (s' := set_ino i ip' s).
    assert (Hi' : icache s' !! i = Some ip') by (by apply list_lookup_insert_eq).
    assert (Hne : forall j, j <> i -> icache s' !! j = icache s !! j) by (intros j Hj; simpl; by rewrite list_lookup_insert_ne).
    assert (Hst : forall j m, at_ino s j m -> at_ino s' j m).
    { intros j m (jp & Hj & Hjr & Hjd & Hjn). exists jp. rewrite Hne; [done|]. intros ->. rewrite Hi in Hj. injection Hj as <-. lia. }
    assert (Hok' : icache_ok (icache s')).
    { apply (icache_ok_update _ i ip); [apply Hinv|done|simpl; lia|]. intros _ j jp _ Hj Hp. by apply (Hno j). }
    split; [constructor|].
    + apply (g_base _ _ _ _ G).
    + apply pinv_cache; [done|done|]. intros j jp Hj Hp. destruct (decide (j = i)) as [->|Hji].
      * change (icache s' !! i = Some jp) in Hj. rewrite Hi' in Hj. by injection Hj as <-.
      * change (icache s' !! j = Some jp) in Hj. rewrite Hne in Hj by done. by apply (fi_ref s Hinv j jp).
    + intros m. pose proof (g_refs _ _ _ _ G m) as E. unfold refs in *. simpl. rewrite (refcnt_insert _ _ ip) by done.
      rewrite E, Hr. unfold is_ino. simpl. destruct ((i_dev ip =? ROOTDEV) && (i_inum ip =? m)), (n =? m); lia.
    + intros j m Hj. by apply Hst, G.
    + intros j jp Hj. destruct (decide (j = i)) as [->|Hji].
      * rewrite Hi' in Hj. injection Hj as <-. simpl. by apply (g_held _ _ _ _ G).
      * rewrite Hne in Hj by done. by apply (g_held _ _ _ _ G).
    + simpl. rewrite length_insert. apply G.
    + split; [split; [done|split; [by intros j m Hj _; apply Hst|]]|].
      { intros j m (jp & Hj & Hjr & Hjn) _. exists jp. unfold has. rewrite Hne; [done|]. intros ->.
        rewrite Hi in Hj. injection Hj as <-. lia. }
      exists ip'. split; [done|]. split; [simpl; lia|done].
Qed.

(** ** A locked directory *)

(** What a valid entry says of its inode. *)
Lemma valid_entry s i ip :
  pinv s -> icache s !! i = Some ip -> 0 < i_ref ip -> i_valid ip = true ->
  disk_ino s (i_inum ip) ip = ip /\ ino_ok ip /\ finv s i ip /\ nohole s ip /\ 0 <= i_inum ip < sb_ninodes (sb s) /\
  i_type ip = i_type (dino s (i_inum ip)) /\ node_of s ip = node_of s (dino s (i_inum ip)) /\
  (i_type ip = T_DIR -> dir_ok s i ip).
Proof.
  intros Hinv Hi Hr Hv. destruct (fi_ref s Hinv i ip Hi Hr) as (Hd & Hall & Hag). specialize (Hag Hv).
  destruct (fi_ino s Hinv _ Hall) as [_ Hok [_ Hlen Hslot Hinj] Hhole Hdir].
  assert (Efl : file_ok s ip).
  { constructor; [done| |..].
    - rewrite <- Hag. exact Hlen.
    - rewrite <- Hag. exact Hslot.
    - rewrite <- Hag. exact Hinj. }
  assert (Hho : nohole s ip) by (rewrite <- Hag; exact Hhole).
  assert (Hio : ino_ok ip) by (rewrite <- Hag; exact Hok).
  assert (Ety : i_type ip = i_type (dino s (i_inum ip))) by (rewrite <- Hag at 1; done).
  assert (Fv : finv s i ip) by (split; [apply Hinv|done]).
  split; [done|]. split; [done|]. split; [done|]. split; [done|].
  split; [unfold alloc in Hall; b2p; lia|]. split; [done|]. split; [rewrite <- Hag at 1; done|].
  intros Ht. constructor; [done|done|done|]. split; [apply Hio|]. rewrite Ety in Ht. specialize (Hdir Ht).
  rewrite <- Hag. exact Hdir.
Qed.

Lemma find_slots s ip nm k n :
  cname nm = nm ->
  find_name (map (fun k => (de_inum (dirent_at s ip k), cname (de_name (dirent_at s ip k)))) (seqZ k (Z.of_nat n))) nm =
  (fun k => de_inum (dirent_at s ip k)) <$> find_from (hit s ip nm) k n.
Proof.
  intros Hnm. revert k. induction n as [|n IH]; intros k; [done|].
  rewrite seqZ_cons by lia. replace (Z.pred (Z.of_nat (S n))) with (Z.of_nat n) by lia. cbn [map find_name find_from].
  replace (Z.succ k) with (k + 1) by lia. rewrite IH. unfold hit at 2.
  destruct (negb (de_inum (dirent_at s ip k) =? 0)); [|done]. cbn [andb].
  pose proof (namecmp_eq nm (de_name (dirent_at s ip k))) as E. rewrite Hnm in E.
  destruct (Z.eqb_spec (namecmp nm (de_name (dirent_at s ip k))) 0) as [E0|E0].
  - rewrite bool_decide_true; [done|]. symmetry. by apply E.
  - rewrite bool_decide_false; [done|]. intros E1. apply E0, E. done.
Qed.

Lemma find_name_dir s ip nm : cname nm = nm -> 0 <= nents ip ->
  find_name (slots s ip) nm = (fun k => de_inum (dirent_at s ip k)) <$> dir_find s ip nm.
Proof.
  intros Hnm Hn. unfold slots, dir_find. rewrite <- (find_slots s ip nm 0 (Z.to_nat (nents ip)) Hnm).
  by rewrite Z2Nat.id.
Qed.

Lemma valid_dir s i ip :
  pinv s -> icache s !! i = Some ip -> 0 < i_ref ip -> i_valid ip = true ->
  slots_of (tree_of s) (i_inum ip) = if i_type ip =? T_DIR then Some (slots s ip) else None.
Proof.
  intros Hinv Hi Hr Hv. destruct (valid_entry s i ip Hinv Hi Hr Hv) as (_ & _ & _ & _ & _ & Ety & En & _).
  destruct (fi_ref s Hinv i ip Hi Hr) as (_ & Hall & _). rewrite slots_of_tree, Hall, <- Ety. cbn [andb].
  unfold node_of in En. rewrite <- Ety in En. destruct (i_type ip =? T_DIR); [|done]. by injection En as ->.
Qed.

(** dirlookup in a locked directory that has a path: a reference to the child. *)
Lemma got_dirlookup s0 s l h i ip nm :
  got s0 s l h -> icache s !! i = Some ip -> 0 < i_ref ip -> i_valid ip = true -> i_type ip = T_DIR ->
  walkable s -> linked s (i_inum ip) = true -> cname nm = nm -> (length l < room (icache s0))%nat ->
  wp (dirlookup i nm) (fun r s' =>
    match child (tree_of s) (i_inum ip) nm with
    | None => r = None /\ s' = s /\ dir_find s ip nm = None
    | Some m => exists j k, r = Some (j, sizeof_dirent * k) /\ got s0 s' (m :: l) h /\ cstep s s' /\ at_ino s' j m /\
                dir_find s ip nm = Some k /\ m = de_inum (dirent_at s ip k)
    end) s.
Proof.
  intros G Hi Hr Hv Ht Hw Hre Hnm Hroom. pose proof (g_inv _ _ _ _ G) as Hinv.
  destruct (valid_entry s i ip Hinv Hi Hr Hv) as (_ & _ & Fv & _ & _ & _ & _ & Hdir). specialize (Hdir Ht).
  destruct (dir_size_nents s i ip Hdir) as (_ & Hn & _).
  assert (Ec : child (tree_of s) (i_inum ip) nm = (fun k => de_inum (dirent_at s ip k)) <$> dir_find s ip nm).
  { unfold child. rewrite (valid_dir s i ip) by done. rewrite Ht, Z.eqb_refl. by apply find_name_dir. }
  pose proof (dirlookup_spec s i ip nm Hdir) as E. unfold wp. rewrite E. rewrite Ec.
  destruct (dir_find s ip nm) as [k|]; simpl; [|done].
  assert (Hm : linked s (de_inum (dirent_at s ip k)) = true) by (by eapply walkable_child).
  destruct (linked_alloc s _ Hm) as [Hall _].
  destruct Fv as (_ & _ & [Hd _ _ _]). rewrite Hd.
  pose proof (got_iget s0 s l h _ G Hall Hroom) as W. apply wp_inv in W as (j & s' & Eg & G' & C & Hat).
  rewrite (bind_run _ _ _ _ _ Eg). simpl. exists j, k. done.
Qed.

(** iunlockput of a directory that was locked: the rules together. *)
Lemma got_iunlockput s0 s l h i n :
  got s0 s (n :: l) (i :: h) -> at_ino s i n -> i ∉ h -> 0 < i_nlink (dino s n) ->
  wp (iunlockput i) (fun _ s' => got s0 s' l h /\ cstep s s') s.
Proof.
  intros G Hat Hh Hl. unfold iunlockput. wp_steps.
  eapply wp_mono; [exact (got_iunlock s0 s _ h i n G Hat Hh)|]. intros _ s1 [G1 [C1 K1]].
  assert (Hat1 : at_ino s1 i n) by (apply K1; [done|apply (got_pos s0 s1 _ _ n G1); left]).
  eapply wp_mono; [apply (got_iput s0 s1 l h i n G1 Hat1 Hh); left; by rewrite (dino_same s s1)|].
  intros _ s2 [G2 [C2 K2]]. split; [done|]. split; [by eapply same_disk_trans|].
  assert (Hle : forall m, 0 < refs s2 m -> 0 < refs s1 m).
  { intros m Hp. pose proof (g_refs _ _ _ _ G1 m) as E1. pose proof (g_refs _ _ _ _ G2 m) as E2. simpl in E1.
    destruct (n =? m); lia. }
  split; intros j m Hj Hp; (apply K2; [|done]); (apply K1; [done|by apply Hle]).
Qed.

Definition reached s0 sd (l : list Z) s' (par : bool) (x : option (Z * name)) (r : option (nat * list Z)) : Prop :=
  same_disk sd s' /\
  match x with
  | Some (m, nm) => exists j nm', r = Some (j, nm') /\ (par = true -> nm' = nm) /\
                    got s0 s' (m :: l) [] /\ at_ino s' j m
  | None => r = None /\ got s0 s' l []
  end.

Lemma got_perm s0 s l l' h : got s0 s l h -> (forall m, occ m l' = occ m l) -> got s0 s l' h.
Proof. intros [????] E. constructor; try done. intros m. rewrite E. done. Qed.

Lemma got_held s0 s l h h' : got s0 s l h -> (forall j, j ∈ h' <-> j ∈ h) -> got s0 s l h'.
Proof. intros [? ? ? ? Hh ?] E. constructor; try done. intros j jp Hj. rewrite (Hh j jp Hj). by apply bool_decide_ext. Qed.

Lemma leave_wp s0 sd l s i n par :
  got s0 s (n :: l) [i] -> at_ino s i n -> same_disk sd s -> 0 < i_nlink (dino s n) ->
  wp (iunlockput i;; ret None) (fun r s' => reached s0 sd l s' par None r) s.
Proof.
  intros G Hat Hsd Hl. wp_steps. eapply wp_mono; [by apply (got_iunlockput s0 s l [] i n); [..|set_solver|]|].
  intros _ s2 (G2 & C2 & _). wp_steps. split; [by eapply same_disk_trans|done].
Qed.

(** One step down from a locked directory. *)
Lemma descend_wp s0 sd l s i ip nm par (K : nat -> M (fsst D) (option (nat * list Z))) (x : Z -> option (Z * name)) :
  got s0 s (i_inum ip :: l) [i] -> icache s !! i = Some ip -> 0 < i_ref ip -> i_valid ip = true -> i_type ip = T_DIR ->
  same_disk sd s -> walkable s -> linked s (i_inum ip) = true -> cname nm = nm -> (S (length l) < room (icache s0))%nat ->
  (forall s' j m, child (tree_of s) (i_inum ip) nm = Some m -> same_disk sd s' -> got s0 s' (m :: l) [] -> at_ino s' j m ->
     wp (K j) (fun r s' => reached s0 sd l s' par (x m) r) s') ->
  wp (r <- dirlookup i nm;; match r with None => iunlockput i;; ret None | Some (next, _) => iunlockput i;; K next end)
     (fun r s' => reached s0 sd l s' par (child (tree_of s) (i_inum ip) nm ≫= x) r) s.
Proof.
  intros G Hi Hr Hv Ht Hsd Hw Hre Hnm Hroom HK. pose proof (g_inv _ _ _ _ G) as Hinv.
  assert (Hat : at_ino s i (i_inum ip)) by (exists ip; split_and!; try done; by apply (fi_ref s Hinv i ip)).
  destruct (linked_alloc s _ Hre) as [_ Hlink]. wp_steps.
  eapply wp_mono; [by apply (got_dirlookup s0 s (i_inum ip :: l) [i] i ip nm)|]. intros r s1 H1. cbv beta in H1.
  destruct (child (tree_of s) (i_inum ip) nm) as [m|]; [|destruct H1 as (-> & -> & _); by eapply leave_wp].
  destruct H1 as (j & q & -> & G1 & [C1 K1] & Hat1 & _). wp_steps. eapply wp_mono.
  { apply (got_iunlockput s0 s1 (m :: l) [] i (i_inum ip)); [|apply K1; [done|]|set_solver|].
    - apply (got_perm _ _ _ _ _ G1). intros y. simpl. lia.
    - apply (got_pos s0 s1 _ _ _ G1). set_solver.
    - by rewrite (dino_same s s1). }
  intros _ s2 (G2 & C2 & K2). simpl. apply HK; [done| |done|].
  - eapply same_disk_trans; [exact Hsd|]. by eapply same_disk_trans.
  - apply K2; [done|]. apply (got_pos s0 s2 _ _ _ G2). left.
Qed.

Lemma namex_loop_wp k s0 sd l s i n path par nm :
  got s0 s (n :: l) [] -> at_ino s i n -> same_disk sd s -> walkable sd -> linked sd n = true ->
  Forall (Forall (fun c => c <> 0)) (elems path) -> (length path < k)%nat -> (S (length l) < room (icache s0))%nat ->
  wp (namex_loop k i path par nm) (fun r s' => reached s0 sd l s' par (target (tree_of sd) par n (path_elems path)) r) s.
Proof.
  revert s i n path nm. induction k as [|k IH]; intros s i n path nm G Hat Hsd Hw Hre Hel Hk Hroom; [lia|].
  cbn [namex_loop]. pose proof (skipelem_correct path) as Hse.
  assert (Hlink : 0 < i_nlink (dino s n)).
  { rewrite (dino_same sd s) by done. by apply linked_alloc. }
  destruct (skipelem path) as [[nm1 rest]|].
  2: { unfold path_elems, target. rewrite Hse. cbn [map walkp walk fmap option_fmap option_map]. destruct par.
       - wp_steps. eapply wp_mono; [apply (got_iput s0 s l [] i n G Hat); [set_solver|by left]|].
         intros _ s1 [G1 [C1 _]]. wp_steps. split; [by eapply same_disk_trans|done].
       - wp_steps. split; [done|]. exists i, nm. done. }
  destruct Hse as (e & Ee & -> & Hne & Hlr & _ & Hrest). rewrite Ee in Hel. apply Forall_cons in Hel as [Hpe Hel].
  unfold path_elems. rewrite Ee. cbn [map]. fold (path_elems rest).
  pose proof (cname_plain e Hpe) as Hcn. set (nm1 := take (Z.to_nat DIRSIZ) e) in *. wp_steps.
  eapply wp_mono; [apply (got_ilock s0 s (n :: l) [] i n G Hat); set_solver|].
  intros _ s1 (G1 & [C1 _] & ip & Hi & Hr & <- & Hv & _). wp_steps. eapply wp_inode_at; [done|].
  assert (Hsd1 : same_disk sd s1) by (by eapply same_disk_trans). pose proof (tree_of_same sd s1 Hsd1) as Et.
  pose proof (g_inv _ _ _ _ G1) as Hinv1. pose proof (valid_dir s1 i ip Hinv1 Hi Hr Hv) as Hsl. rewrite Et in Hsl.
  assert (Hat1 : at_ino s1 i (i_inum ip)) by (exists ip; split_and!; try done; by apply (fi_ref s1 Hinv1 i ip)).
  rewrite <- (dino_same s s1 _ C1) in Hlink.
  destruct (Z.eqb_spec (i_type ip) T_DIR) as [Ht|Ht]; cbn [negb]; [|rewrite target_stop by done; by eapply leave_wp].
  destruct (par && bool_decide (rest = [])) eqn:Elast.
  - apply andb_true_iff in Elast as [-> ->%bool_decide_eq_true].
    unfold target, path_elems. cbn [elems map pieces List.filter is_nil negb walkp]. rewrite Hsl.
    wp_steps. eapply wp_mono; [apply (got_iunlock s0 s1 (i_inum ip :: l) [] i (i_inum ip) G1 Hat1); set_solver|].
    intros _ s2 [G2 [C2 K2]]. wp_steps. split; [by eapply same_disk_trans|]. exists i, nm1. split_and!; [done..|].
    apply K2; [done|]. apply (got_pos s0 s2 _ _ _ G2). left.
  - rewrite target_step by (intros ->; apply bool_decide_eq_false in Elast; intros E%map_eq_nil; by apply Elast, Hrest).
    rewrite <- Et. apply (descend_wp s0 sd l s1 i ip nm1 par
      (fun j => namex_loop k j rest par nm1) (fun m => target (tree_of s1) par m (path_elems rest))); try done.
    { by eapply walkable_same. } { by rewrite (linked_same sd s1). }
    intros s2 j m Hch Hsd2 G2 Hat2. rewrite Et in *. apply IH; [done..| |done|lia|done]. by eapply walkable_child.
Qed.

Lemma namex_wp s0 s l cwd d path par :
  got s0 s l [] -> walkable s -> (S (length l) < room (icache s0))%nat ->
  at_ino s cwd d -> linked s d = true -> Forall (fun c => c <> 0) path ->
  wp (namex cwd path par)
     (fun r s' => reached s0 s l s' par (target (tree_of s) par (start d path) (path_elems path)) r) s.
Proof.
  intros G Hw Hroom Hat Hre Hp%elems_all. unfold namex, start. wp_steps.
  destruct (bool_decide (head path = Some SLASH)).
  - pose proof (wk_root s Hw) as Hroot. destruct (linked_alloc s _ Hroot) as [Hall _].
    eapply wp_mono; [apply (got_iget s0 s l [] ROOTINO G Hall); lia|]. intros i s1 (G1 & [C1 _] & Hat1).
    apply namex_loop_wp; [done..|lia|done].
  - eapply wp_mono; [apply (got_idup s0 s l [] cwd d G Hat)|]. intros i s1 (-> & G1 & [C1 _] & Hat1).
    apply namex_loop_wp; [done..|lia|done].
Qed.

(** namei and nameiparent as the tree has them. *)
Lemma namei_wp s0 s l cwd d path :
  got s0 s l [] -> walkable s -> (S (length l) < room (icache s0))%nat ->
  at_ino s cwd d -> linked s d = true -> Forall (fun c => c <> 0) path ->
  wp (namei cwd path) (fun r s' => same_disk s s' /\
    match t_namei (tree_of s) d path with
    | Some m => exists i, r = Some i /\ got s0 s' (m :: l) [] /\ at_ino s' i m /\ linked s m = true
    | None => r = None /\ got s0 s' l []
    end) s.
Proof.
  intros G Hw Hroom Hat Hre Hp. unfold namei. wp_steps.
  eapply wp_mono; [by apply (namex_wp s0 s l cwd d path false)|]. intros r s' [Hsd H]. wp_steps.
  unfold target in H. unfold t_namei. split; [done|].
  assert (Hst : linked s (start d path) = true) by (unfold start; destruct (bool_decide _); [apply Hw|done]).
  destruct (walk (tree_of s) (start d path) (path_elems path)) as [m|] eqn:Ew; simpl in H.
  - destruct H as (j & nm & -> & _ & G' & Hat'). exists j. split_and!; [done..|]. by eapply walkable_walk.
  - by destruct H as [-> H].
Qed.

Lemma nameiparent_wp s0 s l cwd d path :
  got s0 s l [] -> walkable s -> (S (length l) < room (icache s0))%nat ->
  at_ino s cwd d -> linked s d = true -> Forall (fun c => c <> 0) path ->
  wp (nameiparent cwd path) (fun r s' => same_disk s s' /\
    match t_parent (tree_of s) d path with
    | Some (m, sl, nm) => exists i, r = Some (i, nm) /\ got s0 s' (m :: l) [] /\ at_ino s' i m /\ linked s m = true /\
                          slots_of (tree_of s) m = Some sl /\ cname nm = nm
    | None => r = None /\ got s0 s' l []
    end) s.
Proof.
  intros G Hw Hroom Hat Hre Hp. unfold nameiparent.
  eapply wp_mono; [by apply (namex_wp s0 s l cwd d path true)|]. intros r s' [Hsd H]. split; [done|].
  unfold target in H. rewrite walkp_walk in H. unfold t_parent.
  assert (Hst : linked s (start d path) = true) by (unfold start; destruct (bool_decide _); [apply Hw|done]).
  destruct (last (path_elems path)) as [nm|] eqn:El; simpl in *; [|done].
  destruct (walk (tree_of s) (start d path) (removelast (path_elems path))) as [m|] eqn:Ew; simpl in *; [|done].
  destruct (slots_of (tree_of s) m) as [sl|] eqn:Es; simpl in *; [|done].
  destruct H as (j & nm' & -> & Enm & G' & Hat'). rewrite Enm by done. exists j. split_and!; [done..| |done|].
  - by eapply walkable_walk.
  - destruct (last_elem_all _ path nm Hp El) as (e & He & ->). by apply cname_plain.
Qed.
End FsTree.
