(* ===== verification/FsNames.v ===== *)
(** * Changes to the tree of names (fs.c: dirlink, ialloc, iupdate, iput)

    What the operations that change an inode on the disk do to the tree that the disk
    stands for: one node changes, and every other inode keeps its blocks, its content
    and its links. *)

From stdpp Require Import base numbers list gmap strings.
From Stdlib Require Import ZArith Lia Bool.
From S2P Require Import Prelude Block Mem Fs FsAlloc FsFile FsRw FsInode FsTrunc FsDir Sysfile Tree TreeInv FsTree.

Local Open Scope Z_scope.
Local Open Scope kernel_scope.

(** ** Lists of slots by index *)
Lemma add_name_at (l : list (Z * name)) (nm : name) (i : Z) (k : nat) :
  (forall j e, (j < k)%nat -> l !! j = Some e -> e.1 <> 0) -> (k <= length l)%nat -> (forall e, l !! k = Some e -> e.1 = 0) ->
  add_name l nm i = take k l ++ (i, nm) :: drop (S k) l.
Proof.
  revert k. induction l as [|[j m] l IH]; intros k Hb Hk He.
  - simpl in Hk. by assert (k = 0%nat) as -> by lia.
  - destruct k as [|k]; cbn [add_name take drop app].
    + specialize (He (j, m) eq_refl). simpl in He. subst j. done.
    + pose proof (Hb 0%nat (j, m) ltac:(lia) eq_refl) as Hj. simpl in Hj. destruct (Z.eqb_spec j 0); [done|].
      rewrite (IH k); [done| |simpl in Hk; lia|exact He]. intros a e Ha Hl. by apply (Hb (S a) e); [lia|].
Qed.

Lemma del_name_at (l : list (Z * name)) (nm : name) (k : nat) (i : Z) :
  (forall j e, (j < k)%nat -> l !! j = Some e -> e.1 = 0 \/ e.2 <> nm) -> l !! k = Some (i, nm) -> i <> 0 ->
  del_name l nm = take k l ++ (0, []) :: drop (S k) l.
Proof.
  revert k. induction l as [|[j m] l IH]; intros k Hb Hk Hi; [done|]. destruct k as [|k]; cbn [del_name take drop app].
  - injection Hk as -> ->. destruct (Z.eqb_spec i 0); [done|]. by rewrite bool_decide_true.
  - assert (E : negb (j =? 0) && bool_decide (m = nm) = false).
    { destruct (Hb 0%nat (j, m) ltac:(lia) eq_refl) as [Hj|Hj]; simpl in Hj; [by subst|]. rewrite bool_decide_false by done.
      apply andb_false_r. }
    rewrite E, (IH k); [done| |done|done]. intros a e Ha Hl. by apply (Hb (S a) e); [lia|].
Qed.

(** The addresses of a well-formed file fit the disk inode. *)
Lemma ino_ok_file {D} `{DV : Devsw D} (s : fsst D) (i : nat) (ip ip' : inode) :
  ino_ok ip -> same_ino ip ip' -> finv s i ip' -> 0 <= i_size ip' <= MAXFILE * BSIZE -> ino_ok ip'.
Proof.
  intros (H1 & H2 & H3 & H4 & _) (_&_&_&_&_&E1&E2&E3&E4) (O & _ & F) Hs. unfold ino_ok. rewrite E1, E2, E3, E4.
  assert (MAXFILE * BSIZE < 4294967296) by done. pose proof (fo_len s ip' F) as Hl.
  split_and!; try done; try lia. apply Forall_lookup_2. intros j a Hj. pose proof (lookup_lt_Some _ _ _ Hj).
  assert (Ha : addr_at ip' (Z.of_nat j) = a) by (unfold addr_at; by rewrite Nat2Z.id, Hj).
  destruct (decide (a = 0)) as [->|Ha0]; [lia|].
  pose proof (ok_size s O). pose proof (ok_disk s O). pose proof (datastart_pos s O).
  assert (exists k, is_slot k /\ slot s ip' k = a) as (k & Hk & Ek).
  { destruct (decide (j < 12)%nat).
    - exists (Z.of_nat j). split; [unfold is_slot, IND; change MAXFILE with 140; lia|].
      unfold slot. destruct (Z.ltb_spec (Z.of_nat j) NDIRECT); [done|change NDIRECT with 12 in *; lia].
    - exists IND. split; [done|]. assert (j = 12%nat) as -> by lia. exact Ha. }
  subst a. destruct (fo_slot s ip' F k Hk ltac:(congruence)) as [Hrg _]. lia.
Qed.

Section FsNames.
Context {D : Type} `{DV : Devsw D}.
Implicit Types s : fsst D.

(** ** A step that changes inode [n] only *)
Record istep s s' (n : Z) : Prop := mkIstep {
  is_sb : sb s' = sb s /\ disksize s' = disksize s /\ devst s' = devst s;
  is_fs : fs_ok s';
  is_other : forall m jp, 0 <= m < sb_ninodes (sb s) -> m <> n -> disk_ino s' m jp = disk_ino s m jp;
  is_blk : forall m k, m <> n -> alloc s m = true -> is_slot k -> slot s (dino s m) k <> 0 ->
           rdb s' (slot s (dino s m) k) = rdb s (slot s (dino s m) k) /\ used s' (slot s (dino s m) k) = true
}.

Lemma alloc_range s m : alloc s m = true -> 0 < m < sb_ninodes (sb s).
Proof. unfold alloc. intros H. b2p. lia. Qed.

Section Istep.
Context (s s' : fsst D) (n : Z) (Inv : pinv s) (I : istep s s' n).

Lemma is_dino m : 0 <= m < sb_ninodes (sb s) -> m <> n -> dino s' m = dino s m.
Proof. intros Hm Hne. by apply (is_other s s' n I). Qed.

Lemma is_alloc m : m <> n -> alloc s' m = alloc s m.
Proof.
  intros Hne. unfold alloc. destruct (is_sb s s' n I) as (-> & _).
  destruct (Z.ltb_spec 0 m), (Z.ltb_spec m (sb_ninodes (sb s))); try done. cbn [andb]. rewrite is_dino by (done || lia). done.
Qed.

Lemma is_slots m k : m <> n -> alloc s m = true -> is_slot k -> slot s' (dino s' m) k = slot s (dino s m) k.
Proof.
  intros Hne Hm Hk. pose proof (alloc_range s m Hm). rewrite is_dino by (done || lia). apply slot_congr; [done|done|done|].
  intros Hi. by apply (is_blk s s' n I m IND).
Qed.

Lemma is_fbyte m x : m <> n -> alloc s m = true -> 0 <= x < i_size (dino s m) ->
  fbyte s' (dino s' m) x = fbyte s (dino s m) x.
Proof.
  intros Hne Hm Hx. destruct (ii_hole s m (fi_ino s Inv m Hm)) as [Hmax Hh].
  destruct (off_block x ltac:(lia)) as [Hb _]. unfold fbyte. rewrite is_slots by (done || by apply is_slot_bn).
  by rewrite (proj1 (is_blk s s' n I m (x / BSIZE) Hne Hm (is_slot_bn _ Hb) (Hh x Hx))).
Qed.

Lemma is_node m : m <> n -> alloc s m = true -> node_of s' (dino s' m) = node_of s (dino s m).
Proof.
  intros Hne Hm. pose proof (alloc_range s m Hm). pose proof (fi_ino s Inv m Hm) as [_ Hok _ _ Hdir].
  pose proof (is_dino m ltac:(lia) Hne) as Ed. unfold node_of. rewrite Ed.
  assert (Hs : 0 <= i_size (dino s m)) by apply Hok.
  destruct (Z.eqb_spec (i_type (dino s m)) T_DIR) as [Ht|Ht].
  - f_equal. specialize (Hdir Ht). unfold slots. apply map_ext_in. intros k Hk%list_elem_of_In%elem_of_seqZ.
    assert (Ek : dirent_at s' (dino s m) k = dirent_at s (dino s m) k); [|by rewrite Ek].
    unfold dirent_at. apply map_ext_in. intros x Hx%list_elem_of_In%elem_of_seqZ. rewrite <- Ed at 1.
    apply is_fbyte; [done|done|]. unfold nents in Hk.
    pose proof (Z.div_mod (i_size (dino s m)) sizeof_dirent ltac:(done)). unfold sizeof_dirent in *. lia.
  - destruct (i_type (dino s m) =? T_DEV); [done|]. f_equal. apply map_ext_in. intros x Hx%list_elem_of_In%elem_of_seqZ.
    rewrite <- Ed at 1. apply is_fbyte; [done|done|lia].
Qed.

Lemma is_tree m : m <> n -> tree_of s' !! m = tree_of s !! m.
Proof.
  intros Hne. rewrite !tree_of_lookup. unfold node_at. rewrite is_alloc by done. destruct (alloc s m) eqn:E; [|done].
  by rewrite is_node.
Qed.

Lemma is_nlink m : 0 <= m < sb_ninodes (sb s) -> m <> n -> nlink_of s' m = nlink_of s m.
Proof. intros Hm Hne. unfold nlink_of. by rewrite is_dino. Qed.

Lemma is_inv m : m <> n -> alloc s m = true -> ino_inv s' m.
Proof.
  intros Hne Hm. destruct (fi_ino s Inv m Hm) as [Hty Hok [Hd Hl Hs Hi] [Hmax Hh] Hdir]. pose proof (alloc_range s m Hm).
  pose proof (is_dino m ltac:(lia) Hne) as Ed. destruct (is_sb s s' n I) as (Esb & _).
  constructor; [by rewrite Ed|by rewrite Ed| | |by rewrite Ed].
  - constructor; [by rewrite Ed|by rewrite Ed|..].
    + intros k Hk. rewrite is_slots by done. intros Hk0. rewrite (datastart_sb s s' Esb), Esb. split; [by apply Hs|].
      by apply (is_blk s s' n I).
    + intros k j Hk Hj. rewrite !is_slots by done. by apply Hi.
  - split; [by rewrite Ed|]. rewrite Ed. intros x Hx. rewrite <- Ed. rewrite is_slots; [by apply Hh|done|done|].
    apply is_slot_bn, off_block. lia.
Qed.

(** What the step gives to inode [n] was its own before, or free. *)
Definition own_slots : Prop :=
  forall k, is_slot k -> slot s' (dino s' n) k <> 0 ->
    (alloc s n = true /\ exists k', is_slot k' /\ slot s (dino s n) k' = slot s' (dino s' n) k) \/
    used s (slot s' (dino s' n) k) = false.

Lemma is_pinv :
  icache_ok (icache s') ->
  (forall i ip, icache s' !! i = Some ip -> 0 < i_ref ip ->
     i_dev ip = ROOTDEV /\ alloc s' (i_inum ip) = true /\ (i_valid ip = true -> disk_ino s' (i_inum ip) ip = ip)) ->
  (alloc s' n = true -> ino_inv s' n) -> (alloc s' n = true -> own_slots) -> pinv s'.
Proof.
  intros Hc Hr Hn Hown. constructor; [apply I|destruct (is_sb s s' n I) as (-> & _); apply Inv|done|done| |].
  - intros m Hm. destruct (decide (m = n)) as [->|Hne]; [by apply Hn|]. rewrite is_alloc in Hm by done. by apply is_inv.
  - assert (Hx : forall m k j, m <> n -> alloc s m = true -> alloc s' n = true -> is_slot k -> is_slot j ->
      slot s' (dino s' n) k <> 0 -> slot s' (dino s' n) k <> slot s (dino s m) j).
    { intros m k j Hne Hm Hn' Hk Hj Hk0 E. destruct (Hown Hn' k Hk Hk0) as [(Hna & k' & Hk' & E')|Hu].
      - apply (fi_disj s Inv n m k' j); [done|done|congruence|done|done|congruence|congruence].
      - rewrite E in Hu, Hk0. destruct (ii_file s m (fi_ino s Inv m Hm)) as [_ _ Hs _].
        destruct (Hs j Hj Hk0) as [_ Hu']. congruence. }
    intros a b k j Ha Hb Hab Hk Hj Hk0 E. destruct (decide (a = n)) as [->|Han].
    + rewrite is_alloc in Hb by congruence. rewrite (is_slots b j) in E by congruence. by apply (Hx b k j); [congruence|..].
    + rewrite is_alloc in Ha by done. rewrite (is_slots a k) in E, Hk0 by done. destruct (decide (b = n)) as [->|Hbn].
      * apply (Hx a j k); [done..|congruence|congruence].
      * rewrite is_alloc in Hb by done. rewrite (is_slots b j) in E by done. by apply (fi_disj s Inv a b k j).
Qed.
End Istep.

(** The same inode in the cache, before and after. *)
Definition same_entry (ip ip' : inode) : Prop :=
  i_dev ip' = i_dev ip /\ i_inum ip' = i_inum ip /\ i_ref ip' = i_ref ip /\ i_locked ip' = i_locked ip.

Lemma at_ino_entry s s' i ip ip' j m :
  icache s !! i = Some ip -> icache s' = <[i := ip']> (icache s) -> same_entry ip ip' -> at_ino s j m -> at_ino s' j m.
Proof.
  intros Hi Ei (Ed & En & Er & _) (jp & Hj & Hr & Hd & Hn). assert (Hlt : (i < length (icache s))%nat) by (by eapply lookup_lt_Some).
  destruct (decide (j = i)) as [->|Hji].
  - rewrite Hi in Hj. injection Hj as <-. exists ip'. rewrite Ei, list_lookup_insert_eq by done. split_and!; congruence || lia.
  - exists jp. by rewrite Ei, list_lookup_insert_ne.
Qed.

(** A step that writes the cached inode [ip] out as [ip']. *)
Lemma is_got s0 s s' l h i ip ip' :
  got s0 s l h -> istep s s' (i_inum ip) -> icache s !! i = Some ip -> 0 < i_ref ip ->
  icache s' = <[i := ip']> (icache s) -> same_entry ip ip' ->
  disk_ino s' (i_inum ip) ip' = ip' -> i_type ip' <> 0 -> ino_inv s' (i_inum ip) -> own_slots s s' (i_inum ip) ->
  got s0 s' l h /\ tree_of s' = <[i_inum ip := node_of s' ip']> (tree_of s) /\ nlink_of s' (i_inum ip) = i_nlink ip'.
Proof.
  intros G I Hi Hr Ei Hse Hag Ht Hinv Hown. pose proof (g_inv _ _ _ _ G) as Inv. pose proof Hse as (Ed & En & Er & El).
  assert (Hlt : (i < length (icache s))%nat) by (by eapply lookup_lt_Some).
  destruct (fi_ref s Inv i ip Hi Hr) as (Hdev & Hall & _). destruct (is_sb _ _ _ I) as (Esb & _).
  assert (Ety : i_type (dino s' (i_inum ip)) = i_type ip') by (rewrite <- Hag; done).
  assert (Hall' : alloc s' (i_inum ip) = true).
  { unfold alloc in *. rewrite Esb, Ety. b2p. repeat (apply andb_true_iff; split); [by apply Z.ltb_lt..|].
    by apply negb_true_iff, Z.eqb_neq. }
  assert (Hi' : icache s' !! i = Some ip') by (by rewrite Ei, list_lookup_insert_eq).
  split; [constructor|split].
  - apply G.
  - apply (is_pinv s s' (i_inum ip)); [done|done| | |done|done].
    + rewrite Ei. apply (icache_ok_same _ i ip); [apply Inv|done|lia|lia|done|done].
    + intros j jp Hj Hjr. destruct (decide (j = i)) as [->|Hji].
      { rewrite Hi' in Hj. injection Hj as <-. rewrite Ed, En. done. }
      rewrite Ei, list_lookup_insert_ne in Hj by done. destruct (fi_ref s Inv j jp Hj Hjr) as (Hjd & Hja & Hjv).
      assert (Hne : i_inum jp <> i_inum ip).
      { intros E. apply Hji. apply (proj2 (fi_cache s Inv) j i jp ip); [done..|congruence|done]. }
      rewrite (is_alloc s s' (i_inum ip)) by done. split; [done|]. split; [done|]. intros Hv.
      rewrite (is_other s s' _ I); [by apply Hjv|pose proof (alloc_range s _ Hja); lia|done].
  - intros m. rewrite <- (g_refs _ _ _ _ G m). unfold refs. rewrite Ei, (refcnt_insert _ _ ip) by done.
    unfold is_ino. rewrite Ed, En, Er. lia.
  - intros j m Hj. apply (at_ino_entry s s' i ip ip'); [done..|]. by apply G.
  - intros j jp Hj. destruct (decide (j = i)) as [->|Hji].
    + rewrite Hi' in Hj. injection Hj as <-. rewrite El. by apply G.
    + rewrite Ei, list_lookup_insert_ne in Hj by done. by apply G.
  - rewrite Ei, length_insert. apply G.
  - apply map_eq. intros m. destruct (decide (m = i_inum ip)) as [->|Hne].
    + rewrite lookup_insert_eq, tree_of_lookup. unfold node_at. rewrite Hall'. f_equal. rewrite <- Hag at 1. done.
    + rewrite lookup_insert_ne by done. by apply (is_tree s s' (i_inum ip)).
  - unfold nlink_of. rewrite <- Hag. done.
Qed.

(** ** iupdate of an inode whose content is as it was *)
Record same_content (ip ip' : inode) : Prop := mkSameContent {
  sc_entry : same_entry ip ip';
  sc_valid : i_valid ip' = true;
  sc_type : i_type ip' = i_type ip;
  sc_size : i_size ip' = i_size ip;
  sc_addrs : i_addrs ip' = i_addrs ip;
  sc_ok : ino_ok ip'
}.

Section Update.
Context (s : fsst D) (i : nat) (ip ip' : inode) (Inv : pinv s) (Hi : icache s !! i = Some ip) (Hr : 0 < i_ref ip)
        (Hv : i_valid ip = true) (C : same_content ip ip').
Let s' := iupdated (set_ino i ip' s) ip'.

Lemma up_range : 0 <= i_inum ip' < sb_ninodes (sb s).
Proof.
  destruct (sc_entry _ _ C) as (_ & -> & _). destruct (fi_ref s Inv i ip Hi Hr) as (_ & Hall & _).
  pose proof (alloc_range s _ Hall). lia.
Qed.

Lemma up_low : fs_ok s' /\ (forall x, 0 <= x < sb_size (sb s) -> used s' x = used s x) /\
  (forall x, datastart s <= x -> rdb s' x = rdb s x).
Proof.
  apply (iupdated_low (set_ino i ip' s) ip'); [apply fs_ok_set_ino, Inv|exact up_range|apply C].
Qed.

Lemma up_istep : istep s s' (i_inum ip).
Proof.
  destruct up_low as (O' & Hu & Hb). pose proof (fi_fs s Inv) as O. constructor; [done|done| |].
  - intros m jp Hm Hne. unfold s'. rewrite disk_ino_iupdated; [|by apply fs_ok_set_ino|exact up_range|done|apply C].
    destruct (sc_entry _ _ C) as (_ & -> & _). by destruct (Z.eqb_spec m (i_inum ip)).
  - intros m k Hne Hm Hk Hk0. destruct (ii_file s m (fi_ino s Inv m Hm)) as [_ _ Hs _].
    destruct (Hs k Hk Hk0) as [Hrg Hus]. pose proof (datastart_pos s O). rewrite Hu by lia. split; [apply Hb; lia|done].
Qed.

Lemma up_slots jp k : i_addrs jp = i_addrs ip -> is_slot k -> slot s' jp k = slot s ip k.
Proof.
  intros Ha Hk. destruct (valid_entry s i ip Inv Hi Hr Hv) as (_ & _ & (_ & _ & F) & _). destruct up_low as (_ & _ & Hb).
  apply slot_congr; [done|unfold addr_at; by rewrite Ha..|]. intros Hn. apply Hb.
  destruct (fo_slot s ip F IND ltac:(done) Hn) as [Hrg _]. change (slot s ip IND) with (addr_at ip NDIRECT) in Hrg. lia.
Qed.

Lemma up_fbyte jp x : i_addrs jp = i_addrs ip -> 0 <= x < i_size ip -> fbyte s' jp x = fbyte s ip x.
Proof.
  intros Ha Hx. destruct (valid_entry s i ip Inv Hi Hr Hv) as (_ & _ & (_ & _ & F) & [Hmax Hh] & _).
  destruct up_low as (_ & _ & Hb). destruct (off_block x ltac:(lia)) as [Hbn _].
  unfold fbyte. rewrite up_slots by (done || by apply is_slot_bn). rewrite Hb; [done|].
  by apply (fo_slot s ip F _ (is_slot_bn _ Hbn)), Hh.
Qed.

Lemma up_node : node_of s' ip' = match node_of s ip with NDev _ _ => NDev (i_major ip') (i_minor ip') | x => x end.
Proof.
  destruct (valid_entry s i ip Inv Hi Hr Hv) as (_ & Hok & _ & _ & _ & _ & _ & Hdir).
  destruct C as [_ _ Ht Hsz Ha _]. unfold node_of. rewrite Ht. assert (0 <= i_size ip) by apply Hok.
  destruct (Z.eqb_spec (i_type ip) T_DIR) as [E|E].
  - f_equal. destruct (dir_size_nents s i ip (Hdir E)) as (Es & Hn & _).
    unfold slots, nents at 1. rewrite Hsz. apply map_ext_in. intros k Hk%list_elem_of_In%elem_of_seqZ. fold (nents ip) in Hk.
    assert (Ek : dirent_at s' ip' k = dirent_at s ip k); [|by rewrite Ek].
    unfold dirent_at. apply map_ext_in. intros x Hx%list_elem_of_In%elem_of_seqZ. apply up_fbyte; [done|].
    unfold sizeof_dirent in *. lia.
  - destruct (i_type ip =? T_DEV); [done|]. f_equal. rewrite Hsz. apply map_ext_in.
    intros x Hx%list_elem_of_In%elem_of_seqZ. apply up_fbyte; [done|lia].
Qed.

Lemma up_agree jp : disk_ino s' (i_inum ip) jp = with_fields ip' jp.
Proof.
  pose proof up_range as Hn. unfold s'. destruct (sc_entry _ _ C) as (_ & En & _). rewrite En in Hn.
  rewrite disk_ino_iupdated; [|apply fs_ok_set_ino, Inv|by rewrite En|done|apply C]. by rewrite En, Z.eqb_refl.
Qed.

Lemma up_inv : ino_inv s' (i_inum ip).
Proof.
  destruct (valid_entry s i ip Inv Hi Hr Hv) as (_ & _ & (_ & _ & F) & [Hmax Hh] & _ & _ & _ & Hdir).
  destruct C as [(Ed & En & _) _ Ht Hsz Ha Hok]. unfold s' in *. pose proof (up_agree (blank (i_inum ip))) as E.
  fold s' in E |- *. change (dino s' (i_inum ip) = with_fields ip' (blank (i_inum ip))) in E. destruct up_low as (_ & Hu & _).
  assert (Es : forall k, is_slot k -> slot s' (dino s' (i_inum ip)) k = slot s ip k) by (intros k Hk; apply up_slots; [by rewrite E|done]).
  destruct (fi_ref s Inv i ip Hi Hr) as (_ & Hall & Hag). specialize (Hag Hv).
  constructor; [|by rewrite E|constructor|split|].
  - rewrite E. simpl. rewrite Ht, <- Hag. apply (ii_type s _ (fi_ino s Inv _ Hall)).
  - by rewrite E.
  - rewrite E. simpl. rewrite Ha. apply F.
  - intros k Hk. rewrite Es by done. intros Hk0. destruct (fo_slot s ip F k Hk Hk0) as [Hrg Hus].
    split; [done|]. pose proof (datastart_pos s (fi_fs s Inv)). by rewrite Hu by lia.
  - intros k j Hk Hj. rewrite !Es by done. by apply F.
  - rewrite E. simpl. lia.
  - intros x Hx. rewrite Es; [apply Hh|apply is_slot_bn, off_block]; rewrite E in Hx; simpl in Hx; lia.
  - rewrite E. simpl. rewrite Ht, Hsz. intros E'. by apply (dir_size _ _ _ (Hdir E')).
Qed.

Lemma up_got s0 l h :
  got s0 s l h ->
  got s0 s' l h /\
  tree_of s' = <[i_inum ip := match node_of s ip with NDev _ _ => NDev (i_major ip') (i_minor ip') | x => x end]> (tree_of s) /\
  nlink_of s' (i_inum ip) = i_nlink ip'.
Proof.
  intros G. pose proof (up_agree ip') as Ea. rewrite <- up_node.
  destruct (valid_entry s i ip Inv Hi Hr Hv) as (Hag & _ & _ & _ & _ & Ety & _).
  apply (is_got s0 s s' l h i ip ip'); [done|exact up_istep|done|done|done|apply C| | |exact up_inv|].
  - rewrite Ea. pose proof (sc_valid _ _ C) as V. destruct ip'; simpl in *. by subst.
  - rewrite (sc_type _ _ C), Ety. destruct (fi_ref s Inv i ip Hi Hr) as (_ & Hall & _). unfold alloc in Hall. b2p. done.
  - intros k Hk _. left. destruct (fi_ref s Inv i ip Hi Hr) as (_ & Hall & _). split; [done|]. exists k. split; [done|].
    transitivity (slot s ip k); [rewrite <- Hag at 2; done|]. symmetry. apply up_slots; [|done].
    change (dino s' (i_inum ip)) with (disk_ino s' (i_inum ip) (blank (i_inum ip))). rewrite up_agree. apply C.
Qed.
End Update.

Lemma slots_lookup s ip a : slots s ip !! a = if decide (Z.of_nat a < nents ip)
    then Some (de_inum (dirent_at s ip (Z.of_nat a)), cname (de_name (dirent_at s ip (Z.of_nat a)))) else None.
Proof.
  unfold slots. change (map ?f ?l) with (f <$> l). rewrite list_lookup_fmap. destruct (decide (Z.of_nat a < nents ip)).
  - rewrite (proj2 (lookup_seqZ 0 (nents ip) a (Z.of_nat a))) by lia. done.
  - by rewrite lookup_seqZ_ge by lia.
Qed.

(** ** A directory entry written *)
Section Entry.
Context (s : fsst D) (i : nat) (ip : inode) (s' : fsst D) (ip' : inode) (k0 : Z) (e : list Z).
Context (Inv : pinv s) (Hi : icache s !! i = Some ip) (Hr : 0 < i_ref ip) (Hv : i_valid ip = true)
        (Ht : i_type ip = T_DIR) (Hk : 0 <= k0 <= nents ip) (He : length e = 16%nat)
        (W : wrote s i ip s' ip' (sizeof_dirent * k0) e).

Lemma we_ok : ino_ok ip'.
Proof.
  destruct (valid_entry s i ip Inv Hi Hr Hv) as (_ & Hok & _). apply (ino_ok_file s' i ip); [done|apply W|apply W|].
  split; [|apply (wo_nohole _ _ _ _ _ _ _ W)]. rewrite (wo_size _ _ _ _ _ _ _ W). assert (0 <= i_size ip) by apply Hok. lia.
Qed.

Lemma we_disk m jp : 0 <= m < sb_ninodes (sb s) ->
  disk_ino s' m jp = if m =? i_inum ip then with_fields ip' jp else disk_ino s m jp.
Proof.
  intros Hm. pose proof (fi_fs s Inv) as O. destruct (valid_entry s i ip Inv Hi Hr Hv) as (Hag & _ & _ & _ & Hn & _).
  destruct (wo_sb _ _ _ _ _ _ _ W) as (Esb & _). destruct (wo_ino _ _ _ _ _ _ _ W) as (_ & En & _).
  destruct (IBLOCK_val s m O Hm) as [_ Hbm].
  pose proof (wo_disk _ _ _ _ _ _ _ W) as Hd. destruct (Z.ltb_spec (i_size ip) (sizeof_dirent * k0 + Z.of_nat (length e))) as [Hg|Hng].
  - rewrite <- En, <- (disk_ino_iupdated s ip' jp m O); [|by rewrite En|done|exact we_ok]. unfold disk_ino. rewrite Esb.
    change (sb (iupdated s ip')) with (sb s). f_equal.
    destruct (decide (IBLOCK m (sb s) = IBLOCK (i_inum ip) (sb s))) as [E|E].
    + rewrite E, Hd. unfold iupdated. rewrite En, rdb_put_eq. done.
    + rewrite (wo_meta _ _ _ _ _ _ _ W) by (done || lia). unfold iupdated. rewrite En, rdb_put_ne by done. done.
  - pose proof (wo_same _ _ _ _ _ _ _ W Hng) as E. rewrite E in *.
    assert (E1 : disk_ino s' m jp = disk_ino s m jp).
    { unfold disk_ino. rewrite Esb. f_equal. destruct (decide (IBLOCK m (sb s) = IBLOCK (i_inum ip) (sb s))) as [E1|E1].
      - by rewrite E1, Hd.
      - apply (wo_meta _ _ _ _ _ _ _ W); [lia|done]. }
    rewrite E1. destruct (Z.eqb_spec m (i_inum ip)) as [->|]; [|done]. rewrite <- Hag at 2. done.
Qed.

Lemma we_dino : dino s' (i_inum ip) = with_fields ip' (blank (i_inum ip)).
Proof.
  destruct (valid_entry s i ip Inv Hi Hr Hv) as (_ & _ & _ & _ & Hn & _). unfold dino. by rewrite we_disk, Z.eqb_refl.
Qed.

Lemma we_slots k : is_slot k -> slot s' (dino s' (i_inum ip)) k = slot s' ip' k.
Proof. intros _. rewrite we_dino. done. Qed.

Lemma we_istep : istep s s' (i_inum ip).
Proof.
  pose proof (fi_fs s Inv) as O. destruct (wo_sb _ _ _ _ _ _ _ W) as (Esb & Edk & Edv & _).
  destruct (valid_entry s i ip Inv Hi Hr Hv) as (Hag & _). destruct (fi_ref s Inv i ip Hi Hr) as (_ & Hall & _).
  constructor; [done|apply (wo_inv _ _ _ _ _ _ _ W)| |].
  - intros m jp Hm Hne. rewrite we_disk by done. by destruct (Z.eqb_spec m (i_inum ip)).
  - intros m k Hne Hm Hks Hk0. destruct (ii_file s m (fi_ino s Inv m Hm)) as [_ _ Hs _].
    destruct (Hs k Hks Hk0) as [Hrg Hus]. pose proof (datastart_pos s O).
    split; [|apply (wo_used _ _ _ _ _ _ _ W); [lia|done]]. apply (wo_frame _ _ _ _ _ _ _ W); [done|done|].
    intros j Hj E. apply (fi_disj s Inv m (i_inum ip) k j); [done|done|done|done|done|done|].
    rewrite <- E. rewrite <- Hag at 1. done.
Qed.

Lemma we_dir : dir_ok s' i ip' /\
  slots s' ip' = take (Z.to_nat k0) (slots s ip) ++ (de_inum e, cname (de_name e)) :: drop (S (Z.to_nat k0)) (slots s ip).
Proof.
  destruct (valid_entry s i ip Inv Hi Hr Hv) as (_ & _ & _ & _ & _ & _ & _ & Hdir). specialize (Hdir Ht).
  destruct (dirent_written s i ip s' ip' k0 e Hdir Hk He W) as (Hd' & En & Ek & Hkeep). split; [done|].
  apply list_eq. intros a. rewrite slots_lookup, En.
  assert (Hlen : length (take (Z.to_nat k0) (slots s ip)) = Z.to_nat k0).
  { rewrite length_take. unfold slots. rewrite length_map, length_seqZ. lia. }
  destruct (Nat.lt_trichotomy a (Z.to_nat k0)) as [Ha|[->|Ha]].
  - rewrite lookup_app_l by lia. rewrite lookup_take_lt by done. rewrite slots_lookup, !decide_True by lia. by rewrite Hkeep by lia.
  - rewrite lookup_app_r by lia. rewrite Hlen, Nat.sub_diag. rewrite decide_True by lia. rewrite Z2Nat.id by lia. by rewrite Ek.
  - rewrite lookup_app_r by lia. rewrite Hlen. destruct (a - Z.to_nat k0)%nat as [|b] eqn:Eb; [lia|].
    change (((de_inum e, cname (de_name e)) :: drop (S (Z.to_nat k0)) (slots s ip)) !! S b) with (drop (S (Z.to_nat k0)) (slots s ip) !! b).
    rewrite lookup_drop, slots_lookup. replace (S (Z.to_nat k0) + b)%nat with a by lia.
    destruct (decide (Z.of_nat a < nents ip)); [rewrite decide_True by lia; by rewrite Hkeep by lia|].
    by rewrite decide_False by lia.
Qed.

Lemma we_inv : ino_inv s' (i_inum ip).
Proof.
  destruct we_dir as [[(_ & _ & F) [Hmax Hh] Ht' [_ Hz]] _]. pose proof we_dino as E.
  constructor; [left; by rewrite E|rewrite E; exact we_ok|constructor|split|].
  - by rewrite E.
  - rewrite E. apply F.
  - intros k Hks. rewrite we_slots by done. by apply F.
  - intros k j Hks Hjs. rewrite !we_slots by done. by apply F.
  - by rewrite E.
  - rewrite E. intros x Hx. by apply Hh.
  - by rewrite E.
Qed.

Lemma we_got s0 l h :
  got s0 s l h ->
  got s0 s' l h /\
  tree_of s' = <[i_inum ip := NDir (take (Z.to_nat k0) (slots s ip) ++
    (de_inum e, cname (de_name e)) :: drop (S (Z.to_nat k0)) (slots s ip))]> (tree_of s) /\
  nlink_of s' (i_inum ip) = i_nlink ip.
Proof.
  intros G. destruct we_dir as [[_ _ Ht' _] Es]. destruct (wo_sb _ _ _ _ _ _ _ W) as (_ & _ & _ & Ei).
  destruct (wo_ino _ _ _ _ _ _ _ W) as (E1 & E2 & E3 & E4 & E5 & _ & _ & _ & E9).
  destruct (valid_entry s i ip Inv Hi Hr Hv) as (Hag & _ & _ & _ & Hn & _).
  assert (En : node_of s' ip' = NDir (slots s' ip')) by (unfold node_of; by rewrite Ht').
  rewrite <- Es, <- En, <- E9.
  apply (is_got s0 s s' l h i ip ip'); [done|exact we_istep|done|done|done|done| |by rewrite Ht'|exact we_inv|].
  - rewrite we_disk, Z.eqb_refl by done. rewrite Hv in E5. destruct ip'; simpl in *. by subst.
  - intros k Hks. rewrite we_slots by done. intros Hk0. destruct (decide (slot s ip k = 0)) as [Hz|Hz].
    + right. by apply (wo_fresh _ _ _ _ _ _ _ W).
    + left. destruct (fi_ref s Inv i ip Hi Hr) as (_ & Hall & _). split; [done|]. exists k. split; [done|].
      rewrite (wo_keep _ _ _ _ _ _ _ W) by done. rewrite <- Hag at 2. done.
Qed.
End Entry.

(** ** dirlink and the name it adds *)

(** A write inside one block needs at most one data block and the indirect block. *)
Lemma missing_dirent s ip k : 0 <= k -> (missing s ip (wslots (sizeof_dirent * k) sizeof_dirent) <= 2)%nat.
Proof.
  intros Hk. unfold missing, count. etransitivity; [apply List.filter_length_le|]. unfold wslots. rewrite length_app.
  assert (E : (sizeof_dirent * k + sizeof_dirent - 1) / BSIZE = sizeof_dirent * k / BSIZE).
  { unfold sizeof_dirent, BSIZE. Z.to_euclidean_division_equations. lia. }
  rewrite E, Z.sub_diag, length_seqZ. destruct (NDIRECT <=? _); simpl; lia.
Qed.

Lemma length_slots s ip : 0 <= nents ip -> Z.of_nat (length (slots s ip)) = nents ip.
Proof. intros H. unfold slots. rewrite length_map, length_seqZ. lia. Qed.

(** The first free slot is where add_name puts the name. *)
Lemma slots_add s i ip nm n :
  dir_ok s i ip ->
  add_name (slots s ip) nm n =
  take (Z.to_nat (free_slot s ip)) (slots s ip) ++ (n, nm) :: drop (S (Z.to_nat (free_slot s ip))) (slots s ip).
Proof.
  intros Hd. destruct (free_slot_range s i ip Hd) as [Hr Hz]. destruct (dir_size_nents s i ip Hd) as (_ & Hn & _).
  pose proof (length_slots s ip Hn). apply add_name_at; [|lia|].
  - intros j e Hj He. rewrite slots_lookup in He. destruct (decide (Z.of_nat j < nents ip)) as [Hjn|]; [|done].
    injection He as <-. simpl. unfold free_slot in Hj.
    pose proof (find_from_spec (fun k => de_inum (dirent_at s ip k) =? 0) 0 (Z.to_nat (nents ip))) as Hf.
    destruct (find_from _ 0 _) as [a|]; simpl in Hj.
    + destruct Hf as (Ha & _ & Hlt). apply Z.eqb_neq. apply (Hlt (Z.of_nat j)). lia.
    + apply Z.eqb_neq. apply (Hf (Z.of_nat j)). lia.
  - intros e He. rewrite slots_lookup in He. destruct (decide _) as [Hjn|]; [|done]. injection He as <-. simpl.
    rewrite Z2Nat.id in * by lia. by apply Hz.
Qed.

(** The directory [d] after a change to its slots. *)
Record dir_step s0 s s' l h (i : nat) (d : Z) (ip : inode) (sl : list (Z * name)) : Prop := mkDirStep {
  ds_got : got s0 s' l h;
  ds_istep : istep s s' d;
  ds_tree : tree_of s' = <[d := NDir sl]> (tree_of s);
  ds_nlink : nlink_of s' d = nlink_of s d;
  ds_entry : exists ip', icache s' = <[i := ip']> (icache s) /\ same_ino ip ip' /\ slots s' ip' = sl
}.

Lemma has_nlink s i n ip : pinv s -> has s i n ip -> nlink_of s n = i_nlink ip.
Proof.
  intros Inv (Hi & Hr & <- & Hv). destruct (fi_ref s Inv i ip Hi Hr) as (_ & _ & Hag). specialize (Hag Hv).
  unfold nlink_of. rewrite <- Hag at 2. done.
Qed.

Lemma got_dirlink s0 s l h i d ip nm m N :
  got s0 s l h -> has s i d ip -> i_type ip = T_DIR -> find_name (slots s ip) nm = None -> cname nm = nm ->
  Forall (fun b => 0 <= b < 256) nm -> 0 < m < 65536 -> (sizeof_dirent * (nents ip + 1) <= MAXFILE * BSIZE) ->
  (2 + N <= nfree s)%nat ->
  wp (dirlink i nm m) (fun r s' => r = 0 /\ (N <= nfree s')%nat /\
    dir_step s0 s s' l h i d ip (add_name (slots s ip) nm m)) s.
Proof.
  intros G Hh Ht Hf Hc Hb Hm Hmax Hfree. pose proof (g_inv _ _ _ _ G) as Inv. pose proof Hh as (Hi & Hr & <- & Hv).
  destruct (valid_entry s i ip Inv Hi Hr Hv) as (_ & _ & _ & _ & Hn & _ & _ & Hdir). specialize (Hdir Ht).
  destruct (dir_size_nents s i ip Hdir) as (Es & Hne & _). destruct (free_slot_range s i ip Hdir) as [Hk _].
  destruct (new_dirent_ok nm m Hb Hm) as (Hl & _ & Em & Ec). rewrite Hc in Ec.
  rewrite (find_name_dir s ip nm Hc Hne) in Hf.
  apply (dirlink_spare_wp _ s i ip nm m N); [done| |done|done|done|unfold sizeof_dirent in *; lia| |].
  - by destruct (dir_find s ip nm).
  - pose proof (missing_dirent s ip (free_slot s ip)). lia.
  - intros s' ip' W HN. split; [done|]. split; [done|].
    destruct (we_got s i ip s' ip' _ _ Inv Hi Hr Hv Ht Hk Hl W s0 l h G) as (G' & Et & En).
    destruct (we_dir s i ip s' ip' _ _ Inv Hi Hr Hv Ht Hk Hl W) as [_ Esl]. rewrite Em, Ec in Et, Esl.
    rewrite <- (slots_add s i ip nm m Hdir) in Et, Esl. constructor; [done| |done| |].
    + exact (we_istep s i ip s' ip' _ _ Inv Hi Hr Hv Hl W).
    + rewrite En. symmetry. by apply (has_nlink s i).
    + exists ip'. split; [apply W|]. split; [apply W|done].
Qed.

(** dirlink of a name that is there: the inode found is put again. *)
Lemma got_dirlink_exists s0 s l i d ip nm m n :
  got s0 s l [i] -> has s i d ip -> i_type ip = T_DIR -> walkable s -> linked s d = true ->
  find_name (slots s ip) nm = Some n -> cname nm = nm -> n <> d -> (length l < room (icache s0))%nat ->
  wp (dirlink i nm m) (fun r s' => r = -1 /\ got s0 s' l [i] /\ cstep s s') s.
Proof.
  intros G (Hi & Hr & <- & Hv) Ht Hw Hl Hf Hc Hnd Hroom. pose proof (g_inv _ _ _ _ G) as Inv.
  assert (Ech : child (tree_of s) (i_inum ip) nm = Some n).
  { unfold child. rewrite (valid_dir s i ip) by done. by rewrite Ht. }
  unfold dirlink. wp_steps. eapply wp_mono; [by apply (got_dirlookup s0 s l [i] i ip nm)|].
  intros r s1 H1. cbv beta in H1. rewrite Ech in H1. destruct H1 as (j & k & -> & G1 & [C1 K1] & Hat & _). wp_steps.
  assert (Hn : linked s n = true) by (by eapply walkable_child).
  assert (Hj : j ∉ [i]).
  { rewrite list_elem_of_singleton. intros ->. destruct Hat as (jp & Hj & _ & _ & Hjn).
    destruct (proj1 K1 i (i_inum ip)) as (kp & Hk & _ & _ & Hkn); [| |congruence].
    - exists ip. split_and!; try done. by apply (fi_ref s Inv i ip).
    - pose proof (g_refs _ _ _ _ G (i_inum ip)) as E0. pose proof (g_refs _ _ _ _ G1 (i_inum ip)) as E1. simpl in E1.
      rewrite (at_ino_refs s i (i_inum ip) ip) in E0; try done; [|apply Inv|by apply (fi_ref s Inv i ip)].
      destruct (n =? i_inum ip); lia. }
  eapply wp_mono; [apply (got_iput s0 s1 l [i] j n G1 Hat Hj); left; rewrite (dino_same s s1) by done; by apply linked_alloc|].
  intros _ s2 [G2 [C2 K2]]. wp_steps. split; [done|]. split; [done|]. split; [by eapply same_disk_trans|].
  assert (Hle : forall b, 0 < refs s2 b -> 0 < refs s1 b).
  { intros b Hp. pose proof (g_refs _ _ _ _ G1 b) as E1. pose proof (g_refs _ _ _ _ G2 b) as E2. simpl in E1. destruct (n =? b); lia. }
  split; intros a b Hab Hp; (apply K2; [|done]); (apply K1; [done|by apply Hle]).
Qed.

(** ** Well-formed file systems *)
Lemma tree_alloc s n : is_Some (tree_of s !! n) <-> alloc s n = true.
Proof. rewrite tree_of_lookup. unfold node_at. destruct (alloc s n); [naive_solver|]. split; [by intros []|done]. Qed.

Lemma named_linked s n : named (tree_of s) (nlink_of s) n = linked s n.
Proof.
  unfold named, linked. f_equal. pose proof (tree_alloc s n) as H. destruct (alloc s n).
  - apply bool_decide_eq_true. by apply H.
  - apply bool_decide_eq_false. intros H'. by apply H in H'.
Qed.

(** ** The tree and the link counts of a file system *)
Definition fupd (lk : Z -> Z) (n v : Z) : Z -> Z := fun m => if m =? n then v else lk m.

Definition view s (t : tree) (lk : Z -> Z) : Prop :=
  tree_of s = t /\ forall m, is_Some (t !! m) -> nlink_of s m = lk m.

Lemma view_start s : view s (tree_of s) (nlink_of s).
Proof. done. Qed.

Lemma view_same s s' t lk : same_disk s s' -> view s t lk -> view s' t lk.
Proof. intros [l ->]%same_disk_cache V. exact V. Qed.

Lemma view_linked s t lk n : view s t lk -> linked s n = named t lk n.
Proof.
  intros [<- Hl]. rewrite <- named_linked. unfold named. destruct (bool_decide_reflect (is_Some (tree_of s !! n))); [|done].
  by rewrite Hl.
Qed.

Lemma view_wf s t lk : view s t lk -> wf t lk <-> wf (tree_of s) (nlink_of s).
Proof. intros [<- Hl]. split; apply wf_ext; [|intros n Hn; symmetry]; auto. Qed.

(** Names lead to named nodes. *)
Record twalk (t : tree) (lk : Z -> Z) : Prop := mkTwalk {
  tw_root : named t lk ROOTINO = true;
  tw_names : forall d l e, named t lk d = true -> slots_of t d = Some l -> e ∈ l -> e.1 <> 0 -> named t lk e.1 = true
}.

Lemma view_walkable s t lk : view s t lk -> twalk t lk -> walkable s.
Proof.
  intros V [Hr Hn]. constructor; [by rewrite (view_linked s t lk)|]. intros d l e. rewrite !(view_linked s t lk) by done.
  destruct V as [-> _]. apply Hn.
Qed.

Lemma wf_twalk t lk : wf t lk -> twalk t lk.
Proof.
  intros W. constructor; [apply W|].
  intros d l e Hd Hl He Hz. destruct (w_dir _ _ W d l Hd Hl) as (p & r & -> & Hp & _ & Hr).
  unfold dots in He. simpl in He. apply elem_of_cons in He as [->|He]; [done|].
  apply elem_of_cons in He as [->|He]; [done|]. by apply Hr.
Qed.

Lemma twalk_more t lk n v : twalk t lk -> named t lk n = true -> 0 < v -> twalk t (fupd lk n v).
Proof.
  intros [Hr Hn] Hnn Hv. assert (E : forall m, named t (fupd lk n v) m = named t lk m).
  { intros m. unfold named, fupd. destruct (Z.eqb_spec m n) as [->|]; [|done]. apply named_in in Hnn as [_ Hk].
    apply Z.ltb_lt in Hv, Hk. by rewrite Hv, Hk. }
  constructor; [by rewrite E|]. intros d l e. rewrite !E. apply Hn.
Qed.

(** ** The steps on the view *)
Lemma view_istep s s' n t lk x :
  pinv s -> istep s s' n -> view s t lk -> tree_of s' = <[n := x]> t -> view s' (<[n := x]> t) (fupd lk n (nlink_of s' n)).
Proof.
  intros Inv I [<- Hl] Et. split; [done|]. intros m Hm. unfold fupd. destruct (Z.eqb_spec m n) as [->|Hne]; [done|].
  rewrite lookup_insert_ne in Hm by done. rewrite (is_nlink s s' n I); [by apply Hl| |done].
  apply tree_alloc, alloc_range in Hm. lia.
Qed.

Lemma view_ext s t lk lk' : view s t lk -> (forall m, is_Some (t !! m) -> lk' m = lk m) -> view s t lk'.
Proof. intros [E Hl] H. split; [done|]. intros m Hm. rewrite H by done. by apply Hl. Qed.

Lemma view_dir_step s0 s s' l h i d ip sl t lk :
  pinv s -> view s t lk -> is_Some (t !! d) -> dir_step s0 s s' l h i d ip sl -> view s' (<[d := NDir sl]> t) lk.
Proof.
  intros Inv V Hd [_ I Et En _]. eapply view_ext.
  - apply (view_istep s s' d t lk); [done|done|done|]. rewrite Et. by destruct V as [-> _].
  - intros m _. unfold fupd. destruct (Z.eqb_spec m d) as [->|]; [|done]. rewrite En. symmetry. by apply V.
Qed.

(** ** A link count written out *)
Lemma has_node s i n ip : pinv s -> has s i n ip -> tree_of s !! n = Some (node_of s ip).
Proof.
  intros Inv (Hi & Hr & <- & Hv). destruct (valid_entry s i ip Inv Hi Hr Hv) as (_ & _ & _ & _ & _ & _ & En & _).
  destruct (fi_ref s Inv i ip Hi Hr) as (_ & Hall & _). rewrite tree_of_lookup. unfold node_at. by rewrite Hall, En.
Qed.

Lemma ino_ok_set_nlink v ip : s16_ok v -> ino_ok ip -> ino_ok (set_nlink v ip).
Proof. unfold ino_ok. simpl. intros Hv (?&?&?&?&?&?&?). done. Qed.

Definition with_nums (mj mn : Z) (x : node) : node := match x with NDev _ _ => NDev mj mn | _ => x end.

Lemma wp_update s0 s l h i n ip ip' t lk (g : inode -> inode) :
  got s0 s l h -> has s i n ip -> view s t lk -> g ip = ip' -> same_content ip ip' ->
  wp (upd_inode i g;; iupdate i) (fun _ s' => got s0 s' l h /\
    view s' (<[n := with_nums (i_major ip') (i_minor ip') (node_of s ip)]> t) (fupd lk n (i_nlink ip')) /\ has s' i n ip' /\
    icache s' = <[i := ip']> (icache s) /\ nfree s' = nfree s) s.
Proof.
  intros G Hh V Eg C. pose proof (g_inv _ _ _ _ G) as Inv.
  pose proof Hh as (Hi & Hr & <- & Hv). destruct (valid_entry s i ip Inv Hi Hr Hv) as (_ & Hok & _ & _ & Hn & _).
  assert (Hlt : (i < length (icache s))%nat) by (by eapply lookup_lt_Some). destruct (sc_entry _ _ C) as (Ed & En & Er & El).
  wp_steps. eapply wp_upd_inode; [done|]. rewrite Eg. pose proof (fi_fs s Inv) as O.
  assert (O1 : fs_ok (set_ino i ip' s)) by (by apply fs_ok_set_ino).
  apply (wp_iupdate _ _ i ip'); [done|by apply list_lookup_insert_eq|rewrite Ed; by apply (fi_ref s Inv i ip)|by rewrite En|].
  destruct (up_got s i ip ip' Inv Hi Hr Hv C s0 l h G) as (G' & Et & Enl). split; [done|].
  split; [|split; [|split; [done|by rewrite nfree_iupdated by (done || by rewrite En)]]].
  - eapply view_ext; [apply (view_istep s); [done|exact (up_istep s i ip _ Inv Hi Hr C)|done|]|].
    + rewrite Et. destruct V as [-> _]. f_equal. by destruct (node_of s ip).
    + intros m _. unfold fupd. by rewrite Enl.
  - unfold has. change (icache (iupdated (set_ino i ip' s) ip')) with (<[i := ip']> (icache s)).
    rewrite list_lookup_insert_eq by done. split_and!; [done|lia|done|apply C].
Qed.

Lemma wp_setlink s0 s l h i n ip v t lk (g : inode -> inode) :
  got s0 s l h -> has s i n ip -> view s t lk -> g ip = set_nlink v ip -> s16_ok v ->
  wp (upd_inode i g;; iupdate i) (fun _ s' => got s0 s' l h /\ view s' t (fupd lk n v) /\ has s' i n (set_nlink v ip) /\
    icache s' = <[i := set_nlink v ip]> (icache s) /\ nfree s' = nfree s) s.
Proof.
  intros G Hh V Eg Hs. pose proof (g_inv _ _ _ _ G) as Inv. pose proof (has_node s i n ip Inv Hh) as Hnode.
  pose proof Hh as (Hi & Hr & Hn & Hv). destruct (valid_entry s i ip Inv Hi Hr Hv) as (_ & Hok & _).
  assert (C : same_content ip (set_nlink v ip)) by (constructor; try done; by apply ino_ok_set_nlink).
  eapply wp_mono; [apply (wp_update s0 s l h i n ip (set_nlink v ip) t lk g G Hh V Eg C)|].
  intros _ s' (G' & V' & H'). split; [done|]. split; [|done].
  assert (Ex : with_nums (i_major (set_nlink v ip)) (i_minor (set_nlink v ip)) (node_of s ip) = node_of s ip).
  { unfold with_nums, node_of. destruct (i_type ip =? T_DIR); [done|]. by destruct (i_type ip =? T_DEV). }
  rewrite Ex in V'. destruct V as [<- _]. by rewrite (insert_id _ _ _ Hnode) in V'.
Qed.

(** ** The last reference to an inode without links *)
Section Reclaim.
Context (s : fsst D) (i : nat) (ip : inode) (s' : fsst D).
Context (Inv : pinv s) (Hi : icache s !! i = Some ip) (Hr : 0 < i_ref ip) (Hv : i_valid ip = true) (R : reclaimed s i ip s').

Lemma rc_istep : istep s s' (i_inum ip).
Proof.
  destruct (fi_ref s Inv i ip Hi Hr) as (_ & Hall & Hag). specialize (Hag Hv). pose proof (datastart_pos s (fi_fs s Inv)).
  constructor; [apply R|apply R|apply R|]. intros m k Hne Hm Hk Hk0.
  destruct (fo_slot s _ (ii_file s m (fi_ino s Inv m Hm)) k Hk Hk0) as [Hrg Hu]. split; [apply R; lia|].
  rewrite (rc_used _ _ _ _ R) by lia. rewrite Hu. cbn [andb]. apply negb_true_iff.
  destruct (owned s ip (slot s (dino s m) k)) eqn:E; [|done]. apply among_true in E as (_ & j & Hj & Ej).
  destruct (fi_disj s Inv m (i_inum ip) k j); try done; [unfold is_slot, IND; lia|]. rewrite <- Ej. rewrite <- Hag at 1. done.
Qed.

Lemma rc_alloc : alloc s' (i_inum ip) = false.
Proof. unfold alloc, dino. rewrite (rc_ino _ _ _ _ R). apply andb_false_r. Qed.

Lemma rc_pinv : pinv s'.
Proof.
  destruct (rc_entry _ _ _ _ R) as (ip' & Ei & Hr' & _ & _ & Ed & En).
  assert (Hlt : (i < length (icache s))%nat) by (by eapply lookup_lt_Some).
  apply (is_pinv s s' (i_inum ip) Inv rc_istep); [| |rewrite rc_alloc; done..].
  - rewrite Ei. apply (icache_ok_same _ i ip); [apply Inv|done|lia|lia|done|done].
  - intros j jp Hj Hjr. rewrite Ei in Hj. destruct (decide (j = i)) as [->|Hji].
    { rewrite list_lookup_insert_eq in Hj by done. injection Hj as <-. lia. }
    rewrite list_lookup_insert_ne in Hj by done. destruct (fi_ref s Inv j jp Hj Hjr) as (Hjd & Hja & Hjv).
    destruct (fi_ref s Inv i ip Hi Hr) as (Hdev & _).
    assert (Hne : i_inum jp <> i_inum ip).
    { intros E. apply Hji. apply (proj2 (fi_cache s Inv) j i jp ip); [done..|congruence|done]. }
    rewrite (is_alloc s s' (i_inum ip) rc_istep) by done. split; [done|]. split; [done|]. intros Hjvv.
    rewrite (is_other s s' _ rc_istep); [by apply Hjv|pose proof (alloc_range s _ Hja); lia|done].
Qed.
End Reclaim.

Lemma got_reclaim s0 s l h i n ip t lk :
  got s0 s (n :: l) h -> has s i n ip -> i ∉ h -> view s t lk -> lk n = 0 -> refs s n = 1 ->
  wp (iput i) (fun _ s' => got s0 s' l h /\ view s' (delete n t) lk) s.
Proof.
  intros G Hh Hih V Hlk Hrefs. pose proof (g_inv _ _ _ _ G) as Inv. pose proof (has_nlink s i n ip Inv Hh) as Enl.
  pose proof (has_node s i n ip Inv Hh) as Hnode. pose proof Hh as (Hi & Hr & <- & Hv).
  destruct (valid_entry s i ip Inv Hi Hr Hv) as (_ & Hok & Fv & _ & Hn & _). destruct (fi_ref s Inv i ip Hi Hr) as (Hdev & _).
  assert (Hlt : (i < length (icache s))%nat) by (by eapply lookup_lt_Some).
  rewrite (at_ino_refs s i (i_inum ip) ip (fi_cache s Inv) Hi Hr Hdev eq_refl) in Hrefs.
  assert (Hl : i_locked ip = false) by (rewrite (g_held _ _ _ _ G i ip Hi); by apply bool_decide_eq_false).
  destruct V as [<- Hlks]. rewrite Hlks, Hlk in Enl by (by rewrite Hnode).
  apply (iput_last_wp _ s i ip); [done..|]. intros s' R. pose proof (rc_istep s i ip s' Inv Hi Hr Hv R) as I.
  pose proof (rc_pinv s i ip s' Inv Hi Hr Hv R) as Inv'. destruct (rc_entry _ _ _ _ R) as (ip' & Ei & Hr' & _ & Hl' & Ed & En).
  assert (Hrf : forall m, refs s' m = refs s m - if i_inum ip =? m then 1 else 0).
  { intros m. unfold refs. rewrite Ei, (refcnt_insert _ _ ip) by done. unfold is_ino. rewrite Ed, En, Hr', Hdev, Hrefs, Z.eqb_refl.
    cbn [andb]. destruct (i_inum ip =? m); lia. }
  assert (Hrf0 : forall m, refs s' m = refs s0 m + occ m l).
  { intros m. rewrite Hrf, (g_refs _ _ _ _ G m). simpl. destruct (i_inum ip =? m); lia. }
  split; [constructor; [apply G|done|done| | |]|split].
  - intros j m Hj. pose proof (g_keep _ _ _ _ G j m Hj) as (jp & Hjl & Hjr & Hjd & Hjn). exists jp. rewrite Ei.
    destruct (decide (j = i)) as [->|]; [|by rewrite list_lookup_insert_ne]. exfalso. rewrite Hi in Hjl. injection Hjl as <-.
    pose proof (at_ino_pos s0 i m (g_base _ _ _ _ G) Hj). pose proof (g_refs _ _ _ _ G m) as E. subst m.
    rewrite (at_ino_refs s i (i_inum ip) ip (fi_cache s Inv) Hi Hr Hdev eq_refl) in E. simpl in E. rewrite Z.eqb_refl in E.
    pose proof (occ_nonneg (i_inum ip) l). lia.
  - intros j jp Hj. rewrite Ei in Hj. destruct (decide (j = i)) as [->|].
    + rewrite list_lookup_insert_eq in Hj by done. injection Hj as <-. rewrite Hl'. symmetry. by apply bool_decide_eq_false.
    + rewrite list_lookup_insert_ne in Hj by done. by apply G.
  - rewrite Ei, length_insert. apply G.
  - apply map_eq. intros m. destruct (decide (m = i_inum ip)) as [->|Hne].
    + rewrite lookup_delete_eq, tree_of_lookup. unfold node_at. by rewrite (rc_alloc s i ip s' R).
    + rewrite lookup_delete_ne by done. by apply (is_tree s s' (i_inum ip) Inv I).
  - intros m Hm. destruct (decide (m = i_inum ip)) as [->|Hne]; [by rewrite lookup_delete_eq in Hm; destruct Hm|].
    rewrite lookup_delete_ne in Hm by done. rewrite (is_nlink s s' (i_inum ip) I); [by apply Hlks| |done].
    apply tree_alloc, alloc_range in Hm. lia.
Qed.

(** ** The steps of unlink *)
Lemma isdirempty_loop_spec n s i ip k :
  dir_ok s i ip -> 0 <= k -> nents ip - k < Z.of_nat n -> k <= nents ip + 2 -> (0 < n)%nat ->
  isdirempty_loop n i (sizeof_dirent * k) s = Ret (forallb (fun e => e.1 =? 0) (drop (Z.to_nat k) (slots s ip))) s.
Proof.
  intros Hd. destruct (dir_size_nents s i ip Hd) as (Es & Hne & Hmax). pose proof Hd as [(O & Hi & F) [Hmx _] _ _].
  pose proof (length_slots s ip Hne) as Hlen. assert (Hm31 : MAXFILE * BSIZE < 2147483648 - 64) by done.
  revert k. induction n as [|n IH]; intros k Hk Hf Hk2 Hn; [lia|]. cbn [isdirempty_loop].
  rewrite (bind_run _ _ _ _ _ (run_inode_at s i ip Hi)). rewrite u32_small by (unfold sizeof_dirent in *; lia).
  destruct (Z.ltb_spec (sizeof_dirent * k) (i_size ip)) as [Hlt|Hge].
  2: { rewrite drop_ge by (unfold sizeof_dirent in *; lia). done. }
  assert (Hkn : k < nents ip) by (unfold sizeof_dirent in *; lia).
  rewrite (bind_run _ _ _ _ _ (read_dirent s i ip k Hd ltac:(lia))).
  rewrite length_dirent_at, Z.eqb_refl. cbn [negb].
  assert (El : slots s ip !! Z.to_nat k = Some (de_inum (dirent_at s ip k), cname (de_name (dirent_at s ip k)))).
  { rewrite slots_lookup, decide_True by lia. by rewrite Z2Nat.id by lia. }
  rewrite (drop_S _ _ _ El). cbn [forallb fst]. destruct (de_inum (dirent_at s ip k) =? 0); cbn [negb andb]; [|done].
  assert (Enext : s32 (sizeof_dirent * k + sizeof_dirent) = sizeof_dirent * (k + 1))
    by (rewrite s32_small; unfold sizeof_dirent in *; lia).
  rewrite Enext, IH by lia. by replace (Z.to_nat (k + 1)) with (S (Z.to_nat k)) by lia.
Qed.

Lemma isdirempty_spec s i ip : dir_ok s i ip -> isdirempty i s = Ret (only_dots (slots s ip)) s.
Proof.
  intros Hd. destruct (dir_size_nents s i ip Hd) as (Es & Hne & _). pose proof Hd as [(_ & Hi & _) _ _ _].
  unfold isdirempty. rewrite (bind_run _ _ _ _ _ (run_inode_at s i ip Hi)). fold (nents ip).
  rewrite (Z.mul_comm 2). by rewrite (isdirempty_loop_spec _ s i ip 2) by (done || lia).
Qed.

(** The blocks of an entry that is there are there. *)
Lemma missing_within s i ip k : dir_ok s i ip -> 0 <= k < nents ip ->
  missing s ip (wslots (sizeof_dirent * k) sizeof_dirent) = 0%nat.
Proof.
  intros Hd Hk. destruct (dir_size_nents s i ip Hd) as (Es & Hn & _). pose proof Hd as [_ [Hmax Hh] _ _].
  assert (E : (sizeof_dirent * k + sizeof_dirent - 1) / BSIZE = sizeof_dirent * k / BSIZE).
  { unfold sizeof_dirent, BSIZE. Z.to_euclidean_division_equations. lia. }
  assert (Hs : slot s ip (sizeof_dirent * k / BSIZE) <> 0) by (apply Hh; unfold sizeof_dirent in *; lia).
  apply count_none. intros x Hx. apply Z.eqb_neq. unfold wslots in Hx. rewrite E, Z.sub_diag in Hx.
  apply elem_of_app in Hx as [Hx|Hx].
  - apply elem_of_seqZ in Hx. by replace x with (sizeof_dirent * k / BSIZE) by lia.
  - destruct (Z.leb_spec NDIRECT (sizeof_dirent * k / BSIZE)); [|by apply elem_of_nil in Hx].
    apply list_elem_of_singleton in Hx as ->. intros E0. apply Hs. unfold slot.
    destruct (Z.ltb_spec (sizeof_dirent * k / BSIZE) NDIRECT); [lia|].
    change (slot s ip IND) with (addr_at ip NDIRECT) in E0. rewrite E0. cbn [Z.eqb].
    by destruct (sizeof_dirent * k / BSIZE <? MAXFILE).
Qed.

(** The slot that dirlookup finds is the one del_name clears. *)
Lemma slots_del s i ip nm k :
  dir_ok s i ip -> cname nm = nm -> dir_find s ip nm = Some k ->
  0 <= k < nents ip /\
  del_name (slots s ip) nm = take (Z.to_nat k) (slots s ip) ++ (0, []) :: drop (S (Z.to_nat k)) (slots s ip).
Proof.
  intros Hd Hc Hf. unfold dir_find in Hf. destruct (dir_size_nents s i ip Hd) as (_ & Hn & _).
  pose proof (find_from_spec (hit s ip nm) 0 (Z.to_nat (nents ip))) as H. rewrite Hf in H. destruct H as (Hk & Hh & Hb).
  split; [lia|]. apply hit_names in Hh as [Hz Hnm]. apply (del_name_at _ nm _ (de_inum (dirent_at s ip k))); [| |done].
  - intros j e Hj He. rewrite slots_lookup in He. destruct (decide (Z.of_nat j < nents ip)); [|done]. injection He as <-. simpl.
    pose proof (Hb (Z.of_nat j) ltac:(lia)) as Hhj. destruct (decide (de_inum (dirent_at s ip (Z.of_nat j)) = 0)) as [|Hz']; [by left|right].
    intros E. assert (hit s ip nm (Z.of_nat j) = true) by (apply hit_names; split; [done|by rewrite Hc]). congruence.
  - rewrite slots_lookup, decide_True by lia. rewrite Z2Nat.id by lia. by rewrite Hnm, Hc.
Qed.

Lemma got_clear s0 s l h i d ip nm k :
  got s0 s l h -> has s i d ip -> i_type ip = T_DIR -> cname nm = nm -> dir_find s ip nm = Some k ->
  wp (writei i (replicate (Z.to_nat sizeof_dirent) 0) (sizeof_dirent * k)) (fun r s' => r = Some sizeof_dirent /\
    dir_step s0 s s' l h i d ip (del_name (slots s ip) nm)) s.
Proof.
  intros G Hh Ht Hc Hf. pose proof (g_inv _ _ _ _ G) as Inv. pose proof Hh as (Hi & Hr & <- & Hv).
  destruct (valid_entry s i ip Inv Hi Hr Hv) as (_ & _ & Fv & Hhole & Hn & _ & _ & Hdir). specialize (Hdir Ht).
  destruct (dir_size_nents s i ip Hdir) as (Es & Hne & Hmax). destruct (slots_del s i ip nm k Hdir Hc Hf) as [Hk Edel].
  assert (Hl : length (replicate (Z.to_nat sizeof_dirent) 0) = 16%nat) by done.
  apply (writei_wp _ s i ip); [done|done|by rewrite Ht|done|apply Forall_replicate; lia| | | |].
  - unfold sizeof_dirent in *. lia.
  - rewrite Hl. destruct Hhole. unfold sizeof_dirent in *. lia.
  - change (Z.of_nat (length (replicate (Z.to_nat sizeof_dirent) 0))) with sizeof_dirent. rewrite (missing_within s i ip k) by done. lia.
  - intros s' ip' W. split; [done|]. assert (Hk0 : 0 <= k <= nents ip) by lia.
    destruct (we_got s i ip s' ip' k _ Inv Hi Hr Hv Ht Hk0 Hl W s0 l h G) as (G' & Et & En).
    destruct (we_dir s i ip s' ip' k _ Inv Hi Hr Hv Ht Hk0 Hl W) as [_ Esl].
    change (de_inum (replicate (Z.to_nat sizeof_dirent) 0), cname (de_name (replicate (Z.to_nat sizeof_dirent) 0))) with (0, @nil Z) in Et, Esl.
    rewrite <- Edel in Et, Esl. constructor; [done| |done| |].
    + exact (we_istep s i ip s' ip' _ _ Inv Hi Hr Hv Hl W).
    + rewrite En. symmetry. by apply (has_nlink s i).
    + exists ip'. split; [apply W|]. split; [apply W|done].
Qed.

(** ** ialloc *)

(** The block of inode [n] once ialloc has claimed it. *)
Definition claimed s (n type : Z) : fsst D :=
  put_blk (IBLOCK n (sb s))
    (put16 (puts (rdb s (IBLOCK n (sb s))) (dinode_off n) (replicate (Z.to_nat sizeof_dinode) 0)) (dinode_off n) type) s.

Definition fresh_ino (type : Z) (jp : inode) : inode :=
  mkInode (i_dev jp) (i_inum jp) (i_ref jp) (i_locked jp) true type 0 0 0 0 (replicate 13 0).

Lemma getb_zeros d o x :
  length d = Z.to_nat BSIZE -> 0 <= o -> o + sizeof_dinode <= BSIZE -> o <= x < o + sizeof_dinode ->
  getb (puts d o (replicate (Z.to_nat sizeof_dinode) 0)) x = 0.
Proof.
  intros Hd Ho Hm Hx. assert (Hl : Z.of_nat (length (replicate (Z.to_nat sizeof_dinode) 0)) = sizeof_dinode) by done.
  rewrite getb_puts by (rewrite ?Hl, ?Hd; lia). rewrite Hl.
  destruct (Z.leb_spec o x), (Z.ltb_spec x (o + sizeof_dinode)); try lia. cbn [andb].
  destruct (replicate _ 0 !! _) as [b|] eqn:E; [|done]. by apply lookup_replicate in E as [-> _].
Qed.

Lemma load_claimed d o type jp :
  length d = Z.to_nat BSIZE -> 0 <= o -> o + sizeof_dinode <= BSIZE -> s16_ok type ->
  load_dinode (put16 (puts d o (replicate (Z.to_nat sizeof_dinode) 0)) o type) o jp = fresh_ino type jp.
Proof.
  intros Hd Ho Hm Ht. set (z := puts d o (replicate (Z.to_nat sizeof_dinode) 0)).
  assert (Hz : Z.of_nat (length z) = BSIZE) by (unfold z; rewrite length_puts, Hd; done).
  assert (Z16 : forall x, o + 2 <= x -> x + 2 <= o + sizeof_dinode -> get16 (put16 z o type) x = 0).
  { intros x H1 H2. unfold sizeof_dinode in *. rewrite get16_put16_ne by (rewrite ?Hz; lia). unfold get16.
    unfold z. by rewrite !getb_zeros by (done || (unfold sizeof_dinode; lia)). }
  assert (Z32 : forall x, o + 2 <= x -> x + 4 <= o + sizeof_dinode -> get32 (put16 z o type) x = 0).
  { intros x H1 H2. unfold sizeof_dinode in *. rewrite get32_put16_ne by (rewrite ?Hz; lia). unfold get32.
    unfold z. by rewrite !getb_zeros by (done || (unfold sizeof_dinode; lia)). }
  unfold sizeof_dinode in *. unfold load_dinode, fresh_ino. rewrite get16_put16_eq by (rewrite ?Hz; lia).
  rewrite s16_get16_put16 by done. rewrite (Z16 (o + 2)), (Z16 (o + 4)), (Z16 (o + 6)), Z32 by lia. f_equal.
  change (replicate 13 0) with (map (fun _ : Z => 0) (seqZ 0 13)). apply map_ext_in.
  intros j Hj%list_elem_of_In%elem_of_seqZ. apply Z32; lia.
Qed.

Section Claim.
Context (s : fsst D) (n type : Z) (Inv : pinv s) (Hn : 0 < n < sb_ninodes (sb s)) (Hfree : alloc s n = false)
        (Hty : type = T_DIR \/ type = T_FILE \/ type = T_DEV).
Let s' := claimed s n type.

Lemma cl_type : s16_ok type.
Proof. unfold s16_ok. destruct Hty as [->|[->| ->]]; done. Qed.

Lemma cl_disk m jp : 0 <= m < sb_ninodes (sb s) ->
  disk_ino s' m jp = if m =? n then fresh_ino type jp else disk_ino s m jp.
Proof.
  intros Hm. pose proof (fi_fs s Inv) as O. unfold disk_ino, s', claimed. cbn [sb put_blk set_logged set_blk].
  destruct (IBLOCK_val s m O Hm) as [Em _], (IBLOCK_val s n O ltac:(lia)) as [En _].
  pose proof (proj1 (rdb_ok s (IBLOCK n (sb s)) O)) as Hlen. destruct (dinode_off_bound n) as [Ho Hmax].
  destruct (Z.eqb_spec m n) as [->|Hne]; [rewrite rdb_put_eq; by apply load_claimed, cl_type|].
  destruct (decide (IBLOCK m (sb s) = IBLOCK n (sb s))) as [E|E]; [|by rewrite rdb_put_ne].
  rewrite E, rdb_put_eq. apply load_dinode_ext. intros x Hx. destruct (dinode_off_bound m) as [Ho' _].
  assert (Hzl : Z.of_nat (length (replicate (Z.to_nat sizeof_dinode) 0)) = sizeof_dinode) by done.
  assert (Hout : x < dinode_off n \/ dinode_off n + sizeof_dinode <= x) by (destruct (dinode_off_disjoint m n ltac:(lia) Hne); lia).
  unfold put16. rewrite getb_puts_out by (rewrite ?length_puts, ?Hlen; simpl; unfold sizeof_dinode, BSIZE in *; lia).
  rewrite getb_puts_out by (rewrite ?Hzl, ?Hlen; unfold sizeof_dinode, BSIZE in *; lia). done.
Qed.

Lemma cl_low : fs_ok s' /\ (forall x, 0 <= x < sb_size (sb s) -> used s' x = used s x) /\
  (forall x, datastart s <= x -> rdb s' x = rdb s x).
Proof.
  pose proof (fi_fs s Inv) as O. destruct (IBLOCK_val s n O ltac:(lia)) as [_ Hb]. pose proof (datastart_bmap s O). unfold s', claimed. split.
  - apply fs_ok_put_low; [done| |lia]. apply put16_ok, puts_ok; [by apply rdb_ok|]. apply Forall_replicate. lia.
  - split; [intros x Hx; apply used_put_low; [done|lia|done]|]. intros x Hx. apply rdb_put_ne. lia.
Qed.

Lemma cl_istep : istep s s' n.
Proof.
  destruct cl_low as (O' & Hu & Hb). pose proof (datastart_pos s (fi_fs s Inv)). constructor; [done|done| |].
  - intros m jp Hm Hne. rewrite cl_disk by done. by destruct (Z.eqb_spec m n).
  - intros m k Hne Hm Hk Hk0. destruct (fo_slot s _ (ii_file s m (fi_ino s Inv m Hm)) k Hk Hk0) as [Hrg Hus].
    rewrite Hu by lia. split; [apply Hb; lia|done].
Qed.

Lemma cl_dino : dino s' n = fresh_ino type (blank n).
Proof. unfold dino. by rewrite cl_disk, Z.eqb_refl by lia. Qed.

Lemma fresh_slot (u : fsst D) jp k : slot u (fresh_ino type jp) k = 0.
Proof. by apply empty_slot. Qed.

Lemma cl_inv : ino_inv s' n.
Proof.
  pose proof cl_type as Ht. constructor; rewrite cl_dino; [done| |constructor|split|done].
  - unfold ino_ok, s16_ok in *. simpl. split_and!; try lia; try done. repeat constructor; lia.
  - done.
  - done.
  - intros k Hk []. apply fresh_slot.
  - intros k j Hk Hj []. apply fresh_slot.
  - simpl. done.
  - simpl. lia.
Qed.

Lemma cl_alloc : alloc s' n = true.
Proof.
  unfold alloc. rewrite cl_dino. change (sb s') with (sb s). repeat (apply andb_true_iff; split); [apply Z.ltb_lt; lia..|].
  apply negb_true_iff, Z.eqb_neq. destruct Hty as [->|[->| ->]]; done.
Qed.

Definition fresh_node : node := if type =? T_DIR then NDir [] else if type =? T_DEV then NDev 0 0 else NFile [].

Lemma cl_got s0 l h t lk : got s0 s l h -> view s t lk -> got s0 s' l h /\ view s' (<[n := fresh_node]> t) (fupd lk n 0).
Proof.
  intros G V. pose proof cl_istep as I. split.
  - destruct G as [B _ R K H L]. constructor; [done| |done|exact K|done|done].
    apply (is_pinv s s' n Inv I); [apply Inv| |intros _; exact cl_inv|].
    + intros i ip Hi Hr. destruct (fi_ref s Inv i ip Hi Hr) as (Hd & Ha & Hv). assert (Hne : i_inum ip <> n) by congruence.
      rewrite (is_alloc s s' n I) by done. split; [done|]. split; [done|]. intros Hvv.
      rewrite (is_other s s' n I); [by apply Hv|pose proof (alloc_range s _ Ha); lia|done].
    + intros _ k Hk []. rewrite cl_dino. apply fresh_slot.
  - assert (En : nlink_of s' n = 0) by (unfold nlink_of; by rewrite cl_dino). rewrite <- En. apply (view_istep s s' n t lk); [done|done|done|].
    apply map_eq. intros m. destruct (decide (m = n)) as [->|Hne].
    + rewrite lookup_insert_eq, tree_of_lookup. unfold node_at. rewrite cl_alloc, cl_dino. done.
    + rewrite lookup_insert_ne by done. destruct V as [<- _]. by apply (is_tree s s' n).
Qed.
End Claim.

Lemma alloc_type s n : 0 < n < sb_ninodes (sb s) -> alloc s n = negb (dinode_type (rdb s (IBLOCK n (sb s))) (dinode_off n) =? 0).
Proof.
  intros Hn. unfold alloc. rewrite (proj2 (Z.ltb_lt 0 n)), (proj2 (Z.ltb_lt n _)) by lia. done.
Qed.

Lemma got_ialloc s0 s l h t lk type :
  got s0 s l h -> view s t lk -> type = T_DIR \/ type = T_FILE \/ type = T_DEV -> (length l < room (icache s0))%nat ->
  (exists n, 0 < n < sb_ninodes (sb s) /\ t !! n = None) ->
  wp (ialloc ROOTDEV type) (fun i s' => exists n, 0 < n /\ t !! n = None /\ got s0 s' (n :: l) h /\
    view s' (<[n := fresh_node type]> t) (fupd lk n 0) /\ at_ino s' i n /\ nfree s' = nfree s /\
    forall a q, (at_ino s a q -> at_ino s' a q) /\ (read_in s a q -> read_in s' a q)) s.
Proof.
  intros G V Hty Hroom (z & Hz & Hzt). pose proof (g_inv _ _ _ _ G) as Inv. pose proof (fi_fs s Inv) as O.
  unfold ialloc. wp_steps. assert (Hloop : forall k inum, 0 < inum <= z -> z < inum + Z.of_nat k ->
    wp (ialloc_loop k ROOTDEV type inum) (fun i s' => exists n, 0 < n /\ t !! n = None /\ got s0 s' (n :: l) h /\
    view s' (<[n := fresh_node type]> t) (fupd lk n 0) /\ at_ino s' i n /\ nfree s' = nfree s /\
    forall a q, (at_ino s a q -> at_ino s' a q) /\ (read_in s a q -> read_in s' a q)) s); [|apply Hloop; lia].
  induction k as [|k IH]; intros inum Hi Hk; [lia|]. cbn [ialloc_loop]. wp_steps.
  destruct (Z.ltb_spec inum (sb_ninodes (sb s))); [|lia].
  destruct (IBLOCK_val s inum O ltac:(lia)) as [_ Hb]. pose proof (datastart_bmap s O). pose proof (ok_bmap s O). pose proof (ok_size s O).
  wp_steps. apply wp_bread; [lia|]. cbv zeta.
  assert (Halloc : alloc s inum = negb (dinode_type (rdb s (IBLOCK inum (sb s))) (dinode_off inum) =? 0)) by (apply alloc_type; lia).
  assert (Htree : forall q, t !! q = None <-> alloc s q = false).
  { intros q. destruct V as [<- _]. rewrite tree_of_lookup. unfold node_at. by destruct (alloc s q). }
  destruct (dinode_type _ _ =? 0); cbn [negb] in Halloc.
  2: { apply IH; [|lia]. destruct (decide (inum = z)) as [->|]; [|lia]. apply Htree in Hzt. congruence. }
  wp_steps. apply wp_bupdate; [lia|].
  change (put_blk _ _ s) with (claimed s inum type). assert (Hn : 0 < inum < sb_ninodes (sb s)) by lia.
  destruct (cl_got s inum type Inv Hn Halloc Hty s0 l h t lk G V) as [G1 V1].
  eapply wp_mono; [by apply (got_iget s0 (claimed s inum type) l h inum G1 (cl_alloc s inum type Inv Hn Hty))|].
  intros i s' (G2 & C2 & Hat). exists inum. split; [lia|]. split; [by apply Htree|]. split; [done|].
  split; [eapply view_same; [apply C2|done]|]. split; [done|]. split.
  - destruct (same_disk_cache _ _ (proj1 C2)) as [lc ->]. change (nfree (claimed s inum type) = nfree s).
    apply count_ext. intros x Hx%elem_of_seqZ. by rewrite (proj1 (proj2 (cl_low s inum type Inv Hn))) by (simpl in Hx; lia).
  - intros a q. exact (cstep_more s0 (claimed s inum type) s' l h h inum a q G1 G2 C2).
Qed.
End FsNames.
