(* ===== verification/FsDemo.v ===== *)
(** * A small file system

    A disk with a root directory and one empty file, and a process in the root
    directory: a state in which the hypotheses of the theorems about the calls on
    files hold. *)

From stdpp Require Import base numbers list gmap strings.
From Stdlib Require Import ZArith Lia Bool.
From S2P Require Import Prelude Block Mem Mmu Kalloc Vm Fs FsAlloc FsFile FsRw FsInode FsTrunc FsDir Proc File Syscall Sysfile.
From S2P Require Import Tree TreeInv FsTree FsNames.

Local Open Scope Z_scope.

(** ** The disk *)
Definition small_sb : superblock := mkSuperblock 48 13 7 30 2 32 34.

Definition small_inodes : block :=
  replicate 64 0 ++
  [1; 0; 0; 0; 0; 0; 1; 0; 48; 0; 0; 0; 35; 0; 0; 0] ++ replicate 48 0 ++
  [2; 0; 0; 0; 0; 0; 1; 0; 0; 0; 0; 0] ++ replicate 52 0 ++ replicate 320 0.
Definition small_bitmap : block := [255; 255; 255; 255; 15] ++ replicate 507 0.
Definition small_root : block :=
  [1; 0; 46] ++ replicate 13 0 ++ [1; 0; 46; 46] ++ replicate 12 0 ++ [2; 0; 102] ++ replicate 13 0 ++ replicate 464 0.

(** The root directory is entry 0 of the cache, with one reference. *)
Definition small_cache : list inode := mkInode 1 1 1 false false 0 0 0 0 0 (replicate 13 0) :: replicate 7 inode0.
Definition small_fs : fsst unit :=
  mkFs {[32 := small_inodes; 34 := small_bitmap; 35 := small_root]} 48 [] small_sb small_cache tt.

Lemma small_blk b d : blk small_fs !! b = Some d -> d = small_inodes \/ d = small_bitmap \/ d = small_root.
Proof.
  simpl. rewrite !lookup_insert_Some, lookup_singleton_Some. naive_solver.
Qed.

Lemma bytes_ok (d : block) : forallb (fun x => (0 <=? x) && (x <? 256)) d = true -> Forall (fun x => 0 <= x < 256) d.
Proof. rewrite forallb_forall, Forall_forall. intros H x Hx%list_elem_of_In%H. b2p. lia. Qed.

Lemma small_fs_ok : fs_ok small_fs.
Proof.
  constructor; [|done|done|done|done|done|done|].
  - intros b d [->|[->| ->]]%small_blk; (split; [done|apply bytes_ok; vm_compute; done]).
  - intros b Hb. assert (Hd : datastart small_fs = 35) by done. rewrite Hd in Hb.
    assert (Hall : forallb (used small_fs) (seqZ 0 35) = true) by (vm_compute; done).
    rewrite forallb_forall in Hall. apply Hall, list_elem_of_In, elem_of_seqZ. lia.
Qed.

Definition small_1 : inode := mkInode 1 1 0 false true T_DIR 0 0 1 48 (35 :: replicate 12 0).
Definition small_2 : inode := mkInode 1 2 0 false true T_FILE 0 0 1 0 (replicate 13 0).

Lemma small_alloc n : alloc small_fs n = true -> n = 1 \/ n = 2.
Proof.
  intros H. pose proof (alloc_range small_fs n H) as Hn. change (sb_ninodes (sb small_fs)) with 7 in Hn.
  assert (Hc : n = 1 \/ n = 2 \/ n = 3 \/ n = 4 \/ n = 5 \/ n = 6) by lia.
  destruct_or! Hc; subst; (by left) || (by right) || (vm_compute in H; discriminate).
Qed.

Lemma small_dino_1 : dino small_fs 1 = small_1.
Proof. vm_compute. reflexivity. Qed.
Lemma small_dino_2 : dino small_fs 2 = small_2.
Proof. vm_compute. reflexivity. Qed.

Lemma small_slot_1 k : is_slot k -> slot small_fs small_1 k = if k =? 0 then 35 else 0.
Proof.
  intros Hk. unfold slot, NDIRECT. destruct (Z.ltb_spec k 12) as [H|H].
  - assert (Hc : k = 0 \/ 1 <= k < 12) by (unfold is_slot in Hk; lia). destruct Hc as [->|Hk1]; [done|].
    destruct (Z.eqb_spec k 0); [lia|]. unfold addr_at, small_1. simpl i_addrs. replace (Z.to_nat k) with (S (Z.to_nat (k - 1))) by lia.
    change (default 0 (replicate 12 0 !! Z.to_nat (k - 1)) = 0). by rewrite lookup_replicate_2 by lia.
  - destruct (Z.eqb_spec k 0); [lia|]. by destruct (k <? MAXFILE).
Qed.

Lemma small_slot_2 k : slot small_fs small_2 k = 0.
Proof. by apply empty_slot. Qed.

Lemma small_ino n : alloc small_fs n = true -> ino_inv small_fs n.
Proof.
  intros [->| ->]%small_alloc; constructor; rewrite ?small_dino_1, ?small_dino_2; try done; try (by left); try (by right; left).
  - unfold ino_ok, s16_ok. simpl. split_and!; try lia; try done. repeat constructor; lia.
  - constructor; [done|done| |].
    + intros k Hk. rewrite small_slot_1 by done. destruct (k =? 0); [|done]. intros _. by vm_compute.
    + intros k j Hk Hj. rewrite !small_slot_1 by done. destruct (Z.eqb_spec k 0), (Z.eqb_spec j 0); (done || congruence).
  - split; [done|]. intros x Hx. simpl in Hx. rewrite Z.div_small by (unfold BSIZE; lia). done.
  - unfold ino_ok, s16_ok. simpl. split_and!; try lia; try done. repeat constructor; lia.
  - constructor; [done|done|intros k Hk []; by apply small_slot_2|intros k j Hk Hj []; by apply small_slot_2].
  - split; [done|]. simpl. lia.
Qed.

Lemma small_cached i ip : icache small_fs !! i = Some ip -> i_locked ip = false /\ (i_ref ip = 0 \/ i = 0%nat /\ i_ref ip = 1 /\ i_dev ip = 1 /\ i_inum ip = 1 /\ i_valid ip = false).
Proof.
  destruct i as [|i]; [intros [= <-]; naive_solver|]. simpl. intros H. change (replicate 7 inode0 !! i = Some ip) in H.
  apply lookup_replicate in H as [-> _]. naive_solver.
Qed.

Lemma small_pinv : pinv small_fs.
Proof.
  constructor; [exact small_fs_ok|by vm_compute| | |exact small_ino|].
  - split; [repeat constructor; simpl; lia|]. intros i j ip jp Hi Hj Hr Hr' _ _.
    destruct (small_cached i ip Hi) as [_ [|(-> & _)]]; [lia|]. destruct (small_cached j jp Hj) as [_ [|(-> & _)]]; [lia|done].
  - intros i ip Hi Hr. destruct (small_cached i ip Hi) as [_ [|(_ & _ & Hd & -> & ->)]]; [lia|]. by vm_compute.
  - intros n m k j [->| ->]%small_alloc [->| ->]%small_alloc Hne Hk Hj; try done; rewrite small_dino_1, small_dino_2.
    + rewrite small_slot_1, small_slot_2 by done. by destruct (k =? 0).
    + by rewrite small_slot_2.
Qed.

(** ** The tree *)
Definition small_tree : tree := {[1 := NDir (dots 1 1 ++ [(2, [102])]); 2 := NFile []]}.

Lemma small_tree_of : tree_of small_fs = small_tree.
Proof. vm_compute. reflexivity. Qed.

Lemma small_nlink n : alloc small_fs n = true -> nlink_of small_fs n = 1.
Proof. intros [->| ->]%small_alloc; unfold nlink_of; [by rewrite small_dino_1|by rewrite small_dino_2]. Qed.

(** The tree of a root directory alone. *)
Lemma wf_root lk : lk 1 = 1 -> wf {[1 := NDir (dots 1 1)]} lk.
Proof.
  intros H1. assert (Hn : forall n, named {[1 := NDir (dots 1 1)]} lk n = true -> n = 1).
  { intros n [[x Hx] _]%named_in. by apply lookup_singleton_Some in Hx as [<- _]. }
  assert (Hs : forall n l, slots_of {[1 := NDir (dots 1 1)]} n = Some l -> n = 1 /\ l = dots 1 1).
  { intros n l Hl%slots_of_lookup. apply lookup_singleton_Some in Hl as [<- E]. by injection E. }
  assert (Hr : named {[1 := NDir (dots 1 1)]} lk 1 = true) by (unfold named; by rewrite H1).
  constructor.
  - done.
  - split; [done|]. by exists [].
  - intros d l _ [-> ->]%Hs. exists 1, []. split; [done|]. split; [done|]. split; [by exists (dots 1 1)|]. set_solver.
  - intros d p r c nm q rc _ [-> E]%Hs. assert (r = []) as -> by (by injection E). set_solver.
  - intros c p r ->%Hn. done.
  - intros n ->%Hn. rewrite H1. vm_compute. rewrite H1.  done.
Qed.

Lemma wf_small lk : lk 1 = 1 -> lk 2 = 1 -> wf small_tree lk.
Proof.
  intros H1 H2. pose proof (wf_root (fupd lk 2 0) H1) as W0. set (t0 := {[1 := NDir (dots 1 1)]} : tree) in W0.
  assert (W1 : wf (<[2 := NFile []]> t0) (fupd lk 2 0)).
  { apply (wf_outside t0 (fupd lk 2 0) _ _ 2 W0); [|done|done|done|done]. intros k Hk. by rewrite lookup_insert_ne. }
  assert (Hroot : named (<[2 := NFile []]> t0) (fupd lk 2 0) 1 = true) by (unfold named, fupd; simpl; by rewrite H1).
  pose proof (wf_add _ _ 1 (dots 1 1) [102] 2 (NFile []) W1 Hroot ltac:(done) ltac:(done) ltac:(done) ltac:(done) ltac:(done)) as W2.
  assert (Et : add_t (<[2 := NFile []]> t0) 1 (dots 1 1) [102] 2 = small_tree) by (vm_compute; reflexivity).
  rewrite Et in W2. eapply wf_ext; [|exact W2]. intros n (x & Hx). unfold small_tree in Hx.
  rewrite lookup_insert_Some, lookup_singleton_Some in Hx.
  destruct Hx as [[<- _]|[_ [<- _]]]; unfold add_lk, fupd; simpl; lia.
Qed.

Lemma small_wf : wf (tree_of small_fs) (nlink_of small_fs).
Proof. rewrite small_tree_of. apply wf_small; by apply small_nlink. Qed.

(** ** A process in the root directory

    Its arguments are the words at 4, 8 and 12; the strings f, g, / and . are at 16,
    18, 20 and 22. *)
Definition small_mem (a b c : Z) : memory :=
  store_bytes (store32 (store32 (store32 (store32 (store32 ∅ demo_pgdir (4198400 + 7)) (P2V 4198400) (4202496 + 7))
    (P2V 4202496 + 4) a) (P2V 4202496 + 8) b) (P2V 4202496 + 12) c)
    (P2V 4202496 + 16) [102; 0; 103; 0; 47; 0; 46; 0].
Definition small_proc : proc := set_ofile (replicate 16 None) (set_cwd (Some 0%nat) (set_sz 24 (set_pgdir demo_pgdir proc0))).
Definition small_kern (a b c : Z) : kern unit :=
  mkKern (mkKstate (small_mem a b c) 0 false false) small_fs (replicate 2 (mkFile FD_NONE 0 false false 0 0 0)) ∅ 0 0.
Definition small_pst (a b c : Z) : pst (kern unit) := mkPst (mkPtab [small_proc] [Some 0%nat] (Some 0%nat) 2) (small_kern a b c).

Definition no_device : Devsw unit := {| dev_read := fun _ => None; dev_write := fun _ => None |}.

(** The name g is free in the root directory. *)
Lemma small_parent m sl nm :
  t_parent small_tree 1 [103] = Some (m, sl, nm) -> m = 1 /\ sl = dots 1 1 ++ [(2, [102])] /\ nm = [103].
Proof.
  assert (E : t_parent small_tree 1 [103] = Some (1, dots 1 1 ++ [(2, [102])], [103])) by (vm_compute; reflexivity).
  rewrite E. by intros [= <- <- <-].
Qed.

Lemma small_namei n : t_namei small_tree 1 [102] = Some n -> n = 2.
Proof.
  assert (E : t_namei small_tree 1 [102] = Some 2) by (vm_compute; reflexivity). rewrite E. by intros [= <-].
Qed.
