(* ===== verification/FsCalls.v ===== *)
(** * link and unlink as calls on the tree (sysfile.c)

    The handlers of the calls that change names, with their locks, their references
    and their transactions, against the calls on the tree of names: what they return,
    the tree they leave on the disk, and that the tree stays well formed. *)

From stdpp Require Import base numbers list gmap strings.
From Stdlib Require Import ZArith Lia Bool.
From S2P Require Import Prelude Block Mem Mmu Kalloc Vm Fs FsAlloc FsFile FsRw FsInode FsTrunc FsDir Proc File Syscall Exec Sysfile.
From S2P Require Import Tree TreeInv FsTree FsNames FsDemo.

Local Open Scope Z_scope.
Local Open Scope kernel_scope.

Section FsCalls.
Context {D : Type} `{DV : Devsw D} {LS : LinkSyms}.
Context (cur : nat).

#[local] Abbreviation kst := (pst (kern D)).
#[local] Abbreviation fs c := (call (onfs c)).

(** ** The file system inside the kernel *)
Definition fs_of (s : kst) : fsst D := fsys (env s).
Definition put_fs (f : fsst D) (s : kst) : kst := mkPst (tab s) (set_fsys f (env s)).

(** Inside a transaction that the call began in [s]. *)
Definition in_op (f : fsst D) (s : kst) : kst :=
  mkPst (tab s) (set_outstanding (outstanding (env s) + 1) (set_fsys f (env s))).

Lemma wp_op {A} (c : M (fsst D) A) (Q : A -> kst -> Prop) f s :
  wp c (fun a f' => Q a (in_op f' s)) f -> wp (fs c) Q (in_op f s).
Proof. unfold wp, call, onfs, zoom. simpl. by destruct (c f). Qed.

Lemma wp_op2 {A B C} (c1 : M (fsst D) A) (c2 : M (fsst D) B) (k : M kst C) (Q : C -> kst -> Prop) f s :
  wp (c1;; c2) (fun _ f' => wp k Q (in_op f' s)) f -> wp (fs c1;; fs c2;; k) Q (in_op f s).
Proof.
  intros H. apply wp_bind, wp_op. apply wp_bind_inv in H. eapply wp_mono; [exact H|]. intros a f' H'.
  apply wp_bind, wp_op. exact H'.
Qed.

Lemma wp_op_pair {A B} (c1 : M (fsst D) A) (c2 : M (fsst D) B) (Q : B -> kst -> Prop) f s :
  wp (c1;; c2) (fun b f' => Q b (in_op f' s)) f -> wp (fs c1;; fs c2) Q (in_op f s).
Proof.
  intros H. apply wp_bind, wp_op. apply wp_bind_inv in H. eapply wp_mono; [exact H|]. intros a f' H'. by apply wp_op.
Qed.

(** The blocks of the transaction do not matter. *)
Lemma pinv_logged (s : fsst D) l : pinv s -> pinv (set_logged l s).
Proof.
  intros [O Hs Hc Hr Hi Hd]. constructor; [by destruct O|done|done|exact Hr| |exact Hd].
  intros n Hn. destruct (Hi n Hn) as [?? [????] ??]. by constructor.
Qed.

Lemma got_logged (s0 s : fsst D) l h lg : got s0 s l h -> got s0 (set_logged lg s) l h.
Proof. intros [Hb Hi Hr Hk Hh Hl]. constructor; [done|by apply pinv_logged|done|exact Hk|done|done]. Qed.

Lemma wp_end (Q : unit -> kst -> Prop) (s : kst) f0 (f : fsst D) l h t lk :
  got f0 f l h -> view f t lk -> (forall f', got f0 f' l h -> view f' t lk -> icache f' = icache f -> Q tt (put_fs f' s)) ->
  wp (call end_op) Q (in_op f s).
Proof.
  intros G V HQ. destruct s as [tb [km fy ft pp os tk]]. unfold wp, bind, call, end_op, in_op. simpl. unfold bind, modify, get. simpl.
  rewrite Z.add_simpl_r. destruct (os =? 0); simpl.
  - unfold onfs, zoom, modify. simpl. apply (HQ (set_logged [] f)); [by apply got_logged|exact V|done].
  - by apply (HQ f).
Qed.

(** The end of the call: the kernel is what it was, but for the file system. *)
Lemma wp_finish (Q : Z -> kst -> Prop) (s : kst) f0 (f : fsst D) l h t lk (r : Z) :
  got f0 f l h -> view f t lk -> (forall f', got f0 f' l h -> view f' t lk -> Q r (put_fs f' s)) ->
  wp (call end_op;; ret r) Q (in_op f s).
Proof. intros G V HQ. apply wp_bind. eapply wp_end; [done|done|]. intros f' G' V' _. apply wp_ret. by apply HQ. Qed.

(** ** The rules on the view *)
Lemma s16_small x : s16_ok x -> s16 x = x.
Proof. intros Hx. rewrite <- (s16_get16_put16 x Hx) at 2. unfold s16. by rewrite Z.mod_mod. Qed.

Lemma lock_view (s0 f : fsst D) l h i n t lk :
  got s0 f l h -> view f t lk -> at_ino f i n -> i ∉ h ->
  wp (ilock i) (fun _ f' => got s0 f' l (i :: h) /\ view f' t lk /\ read_in f' i n /\
    same_disk f f' /\ (forall j m, at_ino f j m -> at_ino f' j m) /\ forall j m, read_in f j m -> read_in f' j m) f.
Proof.
  intros G V Hat Hh. eapply wp_mono; [by apply (got_ilock s0 f l h i n)|].
  intros _ f' (G' & C & ip & Hi & Hr & Hn & Hv & _). split; [done|]. split; [eapply view_same; [apply C|done]|].
  split; [by exists ip|]. split; [apply C|]. split; intros j m; [by apply (cstep_keep s0 f f' l h (i :: h))|by apply (cstep_read s0 f f' l h (i :: h))].
Qed.

Lemma has_at (f : fsst D) i n ip : pinv f -> has f i n ip -> at_ino f i n.
Proof. intros Inv (Hi & Hr & Hn & _). exists ip. split_and!; try done. by apply (fi_ref f Inv i ip). Qed.

Lemma unlockput_view (s0 f : fsst D) l h i n t lk :
  got s0 f (n :: l) (i :: h) -> view f t lk -> at_ino f i n -> i ∉ h -> named t lk n = true ->
  wp (iunlockput i) (fun _ f' => got s0 f' l h /\ view f' t lk /\ cstep f f') f.
Proof.
  intros G V Hat Hh Hl. rewrite <- (view_linked f t lk n V) in Hl.
  eapply wp_mono; [apply (got_iunlockput s0 f l h i n); [done..|by apply linked_alloc]|].
  intros _ f' (G' & C). split; [done|]. split; [eapply view_same; [apply C|done]|done].
Qed.

Definition plain (path : list Z) : Prop := Forall (fun c => 0 < c < 256) path.

Lemma plain_nonzero path : plain path -> Forall (fun c => c <> 0) path.
Proof. intros H. eapply Forall_impl; [exact H|]. intros c Hc. simpl in Hc. lia. Qed.

Lemma namei_view (s0 f : fsst D) l w d path t lk :
  got s0 f l [] -> view f t lk -> twalk t lk -> at_ino f w d -> named t lk d = true -> plain path ->
  (S (length l) < room (icache s0))%nat ->
  wp (namei w path) (fun r f' => same_disk f f' /\ view f' t lk /\ (forall j m, at_ino f j m -> at_ino f' j m) /\
    match t_namei t d path with
    | Some m => exists i, r = Some i /\ got s0 f' (m :: l) [] /\ at_ino f' i m /\ named t lk m = true
    | None => r = None /\ got s0 f' l []
    end) f.
Proof.
  intros G V Hw Hat Hd Hp Hroom. pose proof (got_rooms _ _ _ _ G). pose proof (got_rebase _ _ _ _ G) as Gf.
  eapply wp_mono; [apply (namei_wp f f [] w d path Gf); [by eapply view_walkable|simpl; lia|done|by rewrite (view_linked f t lk)|by apply plain_nonzero]|].
  intros r f' [Hsd H']. split; [done|]. split; [by eapply view_same|]. destruct V as [Et Hl]. rewrite Et in H'.
  destruct (t_namei t d path) as [m|].
  - destruct H' as (i & -> & G' & Hi & Hm). split; [apply G'|]. exists i. split; [done|]. split; [exact (got_trans _ _ _ _ _ _ _ G G')|].
    split; [done|]. by rewrite <- (view_linked f t lk).
  - destruct H' as [-> G']. split; [apply G'|]. split; [done|]. exact (got_trans _ _ _ _ _ _ _ G G').
Qed.

Lemma nameiparent_view (s0 f : fsst D) l w d path t lk :
  got s0 f l [] -> view f t lk -> twalk t lk -> at_ino f w d -> named t lk d = true -> plain path ->
  (S (length l) < room (icache s0))%nat ->
  wp (nameiparent w path) (fun r f' => same_disk f f' /\ view f' t lk /\ (forall j m, at_ino f j m -> at_ino f' j m) /\
    match t_parent t d path with
    | Some (m, sl, nm) => exists i, r = Some (i, nm) /\ got s0 f' (m :: l) [] /\ at_ino f' i m /\ named t lk m = true /\
                          slots_of t m = Some sl /\ cname nm = nm /\ Forall (fun b => 0 <= b < 256) nm
    | None => r = None /\ got s0 f' l []
    end) f.
Proof.
  intros G V Hw Hat Hd Hp Hroom. pose proof (got_rooms _ _ _ _ G). pose proof (got_rebase _ _ _ _ G) as Gf.
  eapply wp_mono; [apply (nameiparent_wp f f [] w d path Gf); [by eapply view_walkable|simpl; lia|done|by rewrite (view_linked f t lk)|by apply plain_nonzero]|].
  intros r f' [Hsd H']. split; [done|]. split; [by eapply view_same|]. pose proof V as [Et Hl]. rewrite Et in H'.
  destruct (t_parent t d path) as [[[m sl] nm]|] eqn:Ep.
  - destruct H' as (i & -> & G' & Hi & Hm & Hs & Hc). split; [apply G'|]. exists i. split; [done|].
    split; [exact (got_trans _ _ _ _ _ _ _ G G')|]. split; [done|]. split; [by rewrite <- (view_linked f t lk)|]. split; [done|].
    split; [done|]. unfold t_parent in Ep. destruct (last (path_elems path)) as [n|] eqn:El; [|done]. simpl in Ep.
    destruct (walk _ _ _); [|done]. simpl in Ep. destruct (slots_of _ _); [|done]. simpl in Ep. injection Ep as <- <- <-.
    destruct (last_elem_all _ path n Hp El) as (e & He & ->). apply Forall_take. eapply Forall_impl; [exact He|]. simpl. lia.
  - destruct H' as [-> G']. split; [apply G'|]. split; [done|]. exact (got_trans _ _ _ _ _ _ _ G G').
Qed.

(** ** link *)
Lemma link_bad_wp (Q : Z -> kst -> Prop) s0 f s i n t lk :
  got s0 f [n] [] -> view f t lk -> at_ino f i n -> is_Some (t !! n) -> 1 < lk n < 32768 ->
  (forall f', got s0 f' [] [] -> view f' t (fupd lk n (lk n - 1)) -> Q (-1) (put_fs f' s)) ->
  wp (link_bad i) Q (in_op f s).
Proof.
  intros G V Hat Hn Hlk HQ. unfold link_bad. apply wp_bind, wp_op.
  eapply wp_mono; [by apply (lock_view s0 f [n] [] i n t lk); [..|set_solver]|].
  intros _ f1 (G1 & V1 & (ip & Hh) & _). apply wp_op2.
  assert (Enl : i_nlink ip = lk n).
  { rewrite <- (has_nlink f1 i n ip (g_inv _ _ _ _ G1) Hh). by apply V1. }
  eapply wp_mono; [apply (wp_setlink s0 f1 [n] [i] i n ip (lk n - 1) t lk); [done..| |]|].
  - unfold set_link. rewrite Enl. f_equal. apply s16_small. unfold s16_ok. lia.
  - unfold s16_ok. lia.
  - intros _ f2 (G2 & V2 & Hh2 & _). apply wp_bind, wp_op.
    eapply wp_mono; [apply (unlockput_view s0 f2 [] [] i n t _ G2 V2); [|set_solver|]|].
    + eapply has_at; [apply G2|done].
    + unfold named, fupd. rewrite Z.eqb_refl, bool_decide_true by done. apply Z.ltb_lt. lia.
    + intros _ f3 (G3 & V3 & _). by apply (wp_finish Q s s0 f3 [] [] t (fupd lk n (lk n - 1)) (-1)).
Qed.

Lemma has_slots (f : fsst D) i d ip t lk sl :
  pinv f -> view f t lk -> has f i d ip -> slots_of t d = Some sl ->
  i_type ip = T_DIR /\ slots f ip = sl /\ nents ip = Z.of_nat (length sl).
Proof.
  intros Inv [<- _] (Hi & Hr & <- & Hv) Hs. rewrite (valid_dir f i ip Inv Hi Hr Hv) in Hs.
  destruct (Z.eqb_spec (i_type ip) T_DIR) as [Ht|]; [|done]. injection Hs as <-. split; [done|]. split; [done|].
  destruct (valid_entry f i ip Inv Hi Hr Hv) as (_ & _ & _ & _ & _ & _ & _ & Hdir).
  destruct (dir_size_nents f i ip (Hdir Ht)) as (_ & Hn & _). by rewrite length_slots.
Qed.

Lemma nfree_same (f f' : fsst D) : same_disk f f' -> nfree f' = nfree f.
Proof. by intros [l ->]%same_disk_cache. Qed.

(** The most entries a directory has. *)
Definition MAXENTS : Z := MAXFILE * BSIZE / sizeof_dirent.

(** A new name in the directory [d]. *)
Lemma dirlink_new (s0 f : fsst D) l h i d nm m N t lk sl :
  got s0 f l h -> view f t lk -> read_in f i d -> slots_of t d = Some sl -> find_name sl nm = None -> cname nm = nm ->
  Forall (fun b => 0 <= b < 256) nm -> 0 < m < 65536 -> Z.of_nat (length sl) < MAXENTS -> (2 + N <= nfree f)%nat ->
  wp (dirlink i nm m) (fun r f' => r = 0 /\ got s0 f' l h /\ (N <= nfree f')%nat /\
    view f' (<[d := NDir (add_name sl nm m)]> t) lk /\
    forall a q, (at_ino f a q -> at_ino f' a q) /\ (read_in f a q -> read_in f' a q)) f.
Proof.
  intros G V (ip & Hh) Hs Hf Hc Hb Hm Hlen Hfree. pose proof (g_inv _ _ _ _ G) as Inv.
  destruct (has_slots f i d ip t lk sl Inv V Hh Hs) as (Ht & Es & En).
  assert (Hmax : sizeof_dirent * (nents ip + 1) <= MAXFILE * BSIZE).
  { rewrite En. unfold MAXENTS in Hlen. change (MAXFILE * BSIZE / sizeof_dirent) with 4480 in Hlen.
    change (MAXFILE * BSIZE) with 71680. unfold sizeof_dirent. lia. }
  eapply wp_mono; [apply (got_dirlink s0 f l h i d ip nm m N G Hh Ht); [by rewrite Es|done..]|].
  intros r f' (-> & HN & DS). rewrite Es in DS. pose proof DS as [G' _ _ _ (ip' & Ei & (E1 & E2 & E3 & E4 & E5 & _) & _)].
  split; [done|]. split; [done|]. split; [done|].
  split; [eapply view_dir_step; [done|done| |done]; apply slots_of_lookup in Hs; by rewrite Hs|].
  destruct Hh as (Hi & Hr & Hin & Hv). assert (Hlt : (i < length (icache f))%nat) by (by eapply lookup_lt_Some).
  intros a q. split; [by apply (at_ino_entry f f' i ip ip')|]. intros (ap & Ha & Har & Haq & Hav).
  destruct (decide (a = i)) as [->|Hai].
  - rewrite Hi in Ha. injection Ha as <-. exists ip'. split; [by rewrite Ei, list_lookup_insert_eq|]. split_and!; [lia|congruence|congruence].
  - exists ap. split; [by rewrite Ei, list_lookup_insert_ne|done].
Qed.

(** dirlink into the directory [d], as the tree has it. *)
Lemma dirlink_view (s0 f : fsst D) l i d ip nm m N t lk sl :
  got s0 f l [i] -> view f t lk -> twalk t lk -> has f i d ip -> named t lk d = true -> slots_of t d = Some sl ->
  cname nm = nm -> Forall (fun b => 0 <= b < 256) nm -> 0 < m < 65536 -> Z.of_nat (length sl) < MAXENTS ->
  find_name sl nm <> Some d -> (length l < room (icache s0))%nat -> (2 + N <= nfree f)%nat ->
  wp (dirlink i nm m) (fun r f' => got s0 f' l [i] /\ (N <= nfree f')%nat /\ (forall j m, at_ino f j m -> at_ino f' j m) /\
    match find_name sl nm with
    | Some _ => r = -1 /\ view f' t lk
    | None => r = 0 /\ view f' (<[d := NDir (add_name sl nm m)]> t) lk
    end) f.
Proof.
  intros G V Hw Hh Hd Hs Hc Hb Hm Hlen Hself Hroom Hfree. pose proof (g_inv _ _ _ _ G) as Inv.
  destruct (has_slots f i d ip t lk sl Inv V Hh Hs) as (Ht & Es & En). destruct (find_name sl nm) as [n|] eqn:Ef.
  - eapply wp_mono; [apply (got_dirlink_exists s0 f l i d ip nm m n G Hh Ht); [by eapply view_walkable|by rewrite (view_linked f t lk)|
      by rewrite Es|done|congruence|done]|].
    intros r f' (-> & G' & C). split; [done|]. split; [rewrite (nfree_same f f') by apply C; lia|].
    split; [intros j q; by apply (cstep_keep s0 f f' l [i] [i])|]. split; [done|eapply view_same; [apply C|done]].
  - eapply wp_mono; [apply (dirlink_new s0 f l [i] i d nm m N t lk sl); try done; by exists ip|].
    intros r f' (-> & G' & HN & V' & K). split; [done|]. split; [done|]. split; [intros j q; apply K|done].
Qed.

(** The second half of sys_link, once the link count of inode [n] is raised. *)
Definition link_rest (cwd ip : nat) (new : list Z) : M kst Z :=
  r <- fs (nameiparent cwd new);;
  match r with
  | None => link_bad ip
  | Some (dp, name) =>
      fs (ilock dp);;
      d <- inode_of dp;;
      x <- inode_of ip;;
      e <- (if negb (i_dev d =? i_dev x) then ret (-1)
            else fs (dirlink dp name (i_inum x)));;
      fs (iunlockput dp);;
      if e <? 0 then link_bad ip
      else fs (iput ip);; call end_op;; ret 0
  end.

Definition t_enter (t : tree) (d : Z) (new : list Z) (n : Z) : option tree :=
  '(m, sl, nm) ← t_parent t d new;
  match find_name sl nm with
  | Some _ => None
  | None => Some (<[m := NDir (add_name sl nm n)]> t)
  end.

Section LinkRest.
Context (s0 : fsst D) (s : kst) (t : tree) (lk : Z -> Z) (n : Z) (i : nat).
Context (W : wf t lk) (Hn : named t lk n = true) (Hnd : slots_of t n = None) (Hmax : lk n < 32767).
Let lk1 := fupd lk n (lk n + 1).

Lemma lk1_back : forall m, is_Some (t !! m) -> lk m = fupd lk1 n (lk1 n - 1) m.
Proof. intros m _. unfold lk1, fupd. rewrite Z.eqb_refl. destruct (Z.eqb_spec m n) as [->|]; [lia|done]. Qed.

Lemma lk1_named t' m : is_Some (t' !! m) -> named t lk m = true -> named t' lk1 m = true.
Proof.
  intros Hm [_ Hp]%named_in. unfold named, lk1, fupd. rewrite bool_decide_true by done. apply Z.ltb_lt.
  destruct (m =? n); [|done]. apply named_in in Hn as [_ ?]. lia.
Qed.

(** Undoing the count. *)
Lemma link_undo (Q : Z -> kst -> Prop) f :
  got s0 f [n] [] -> view f t lk1 -> at_ino f i n ->
  (forall f', got s0 f' [] [] -> view f' t lk -> Q (-1) (put_fs f' s)) -> wp (link_bad i) Q (in_op f s).
Proof.
  intros G V Hat HQ. destruct (named_in t lk n Hn) as [Hin Hp].
  apply (link_bad_wp Q s0 f s i n t lk1 G V Hat Hin); [unfold lk1, fupd; rewrite Z.eqb_refl; lia|].
  intros f' G' V'. apply HQ; [done|]. eapply view_ext; [done|exact lk1_back].
Qed.

(** The entry is in: what is left is to give the two inodes back. *)
Lemma link_done (Q : Z -> kst -> Prop) f j m sl nm :
  let t' := <[m := NDir (add_name sl nm n)]> t in
  got s0 f [m; n] [j] -> view f t' lk1 -> at_ino f j m -> at_ino f i n -> named t lk m = true -> m <> n ->
  (forall f', got s0 f' [] [] -> view f' t' lk1 -> Q 0 (put_fs f' s)) ->
  wp (fs (iunlockput j);; fs (iput i);; call end_op;; ret 0) Q (in_op f s).
Proof.
  intros t' G V Hj Hi Hm Hmn HQ. destruct (named_in t lk n Hn) as [Hin _].
  assert (Hn' : named t' lk1 n = true) by (apply lk1_named; [unfold t'; by rewrite lookup_insert_ne|done]).
  assert (Hm' : named t' lk1 m = true) by (apply lk1_named; [unfold t'; by rewrite lookup_insert_eq|done]).
  apply wp_bind, wp_op. eapply wp_mono; [by apply (unlockput_view s0 f [n] [] j m t' lk1); [..|set_solver|]|].
  intros _ f1 (G1 & V1 & _ & K1). apply wp_bind, wp_op.
  assert (Hi1 : at_ino f1 i n) by (apply K1; [done|apply (got_pos _ _ _ _ _ G1); left]).
  eapply wp_mono; [apply (got_iput s0 f1 [] [] i n G1 Hi1); [set_solver|left]|].
  - rewrite <- (view_linked f1 t' lk1 n V1) in Hn'. by apply linked_alloc.
  - intros _ f2 [G2 [C2 _]]. apply (wp_finish Q s s0 f2 [] [] t' lk1 0); [done|by eapply view_same|done].
Qed.

Lemma link_rest_wp (Q : Z -> kst -> Prop) f w d new :
  got s0 f [n] [] -> view f t lk1 -> at_ino f i n -> at_ino f w d -> named t lk d = true -> plain new ->
  (2 < room (icache s0))%nat -> (2 <= nfree f)%nat ->
  (forall m sl nm, t_parent t d new = Some (m, sl, nm) -> Z.of_nat (length sl) < MAXENTS /\ find_name sl nm <> Some m) ->
  (forall f', got s0 f' [] [] ->
     match t_enter t d new n with Some t' => view f' t' lk1 -> Q 0 (put_fs f' s) | None => view f' t lk -> Q (-1) (put_fs f' s) end) ->
  wp (link_rest w i new) Q (in_op f s).
Proof.
  intros G V Hi Hw Hd Hp Hroom Hfree Hdir HQ. destruct (named_in t lk n Hn) as [Hin Hlkn].
  assert (Htw : twalk t lk1) by (apply twalk_more; [by apply wf_twalk|done|lia]).
  assert (Hd1 : named t lk1 d = true) by (apply lk1_named; [apply (named_in t lk d Hd)|done]).
  unfold link_rest, t_enter in *. apply wp_bind, wp_op. eapply wp_mono; [by apply (nameiparent_view s0 f [n] w d new t lk1)|].
  intros r f1 (Hsd1 & V1 & K1 & H1). destruct (t_parent t d new) as [[[m sl] nm]|] eqn:Ep; simpl in HQ.
  2: { destruct H1 as [-> G1]. apply (link_undo Q f1); [done|done|by apply K1|exact HQ]. }
  destruct H1 as (j & -> & G1 & Hj & Hm1 & Hs & Hc & Hb). destruct (Hdir m sl nm eq_refl) as [Hlen Hself].
  assert (Hmn : m <> n) by (intros ->; congruence).
  assert (Hm : named t lk m = true).
  { unfold named, lk1, fupd in Hm1 |- *. by destruct (Z.eqb_spec m n). }
  apply wp_bind, wp_op. eapply wp_mono; [by apply (lock_view s0 f1 [m; n] [] j m t lk1); [..|set_solver]|].
  intros _ f2 (G2 & V2 & (jp & Hjp) & Hsd2 & K2 & _). pose proof (g_inv _ _ _ _ G2) as Inv2.
  apply wp_bind, wp_op. eapply wp_inode_at; [apply Hjp|].
  destruct (K2 i n (K1 i n Hi)) as (xp & Hx & Hxr & Hxd & Hxn). apply wp_bind, wp_op. eapply wp_inode_at; [done|].
  assert (Hjd : i_dev jp = ROOTDEV) by (by apply (fi_ref f2 Inv2 j jp); apply Hjp).
  rewrite Hjd, Hxd, Hxn, Z.eqb_refl. cbn [negb]. apply wp_bind, wp_op.
  assert (Hn0 : 0 < n < 65536).
  { destruct (fi_ref f2 Inv2 i xp Hx Hxr) as (_ & Hall & _). pose proof (alloc_range f2 _ Hall). pose proof (fi_small f2 Inv2). lia. }
  eapply wp_mono; [apply (dirlink_view s0 f2 [m; n] j m jp nm n 0 t lk1 sl); try done|].
  { rewrite (nfree_same f1 f2), (nfree_same f f1) by done. lia. }
  intros e f3 (G3 & _ & K3 & H3). assert (Hi3 : at_ino f3 i n) by (apply K3, K2, K1, Hi).
  assert (Hj3 : at_ino f3 j m) by (apply K3; by eapply has_at).
  destruct (find_name sl nm) as [q|].
  - destruct H3 as [-> V3]. apply wp_bind, wp_op. eapply wp_mono; [by apply (unlockput_view s0 f3 [n] [] j m t lk1); [..|set_solver|]|].
    intros _ f4 (G4 & V4 & _ & K4). cbn [Z.ltb Z.compare]. apply (link_undo Q f4); [done|done| |exact HQ].
    apply K4; [done|]. apply (got_pos _ _ _ _ _ G4). left.
  - destruct H3 as [-> V3]. by apply (link_done Q f3 j m sl nm).
Qed.
End LinkRest.

(** ** The kernel at the start of a call *)

(** The process [cur] runs with the directory [d], entry [w] of the cache, as its
    current directory; nobody holds the lock of an inode; the file system is well
    formed. *)
Record caller (s : kst) (w : nat) (d : Z) : Prop := mkCaller {
  ca_proc : exists p, ptable (tab s) !! cur = Some p /\ p_cwd p = Some w;
  ca_inv : pinv (fs_of s);
  ca_wf : wf (tree_of (fs_of s)) (nlink_of (fs_of s));
  ca_idle : forall j jp, icache (fs_of s) !! j = Some jp -> i_locked jp = false;
  ca_cwd : at_ino (fs_of s) w d;
  ca_named : linked (fs_of s) d = true
}.

(** After the call: the kernel is as before but for the file system, every inode has
    the references it had, no lock is held, and the tree is well formed. *)
Record called (s s' : kst) (t' : tree) : Prop := mkCalled {
  cd_rest : s' = put_fs (fs_of s') s;
  cd_got : got (fs_of s) (fs_of s') [] [];
  cd_tree : tree_of (fs_of s') = t';
  cd_wf : wf (tree_of (fs_of s')) (nlink_of (fs_of s'))
}.

Lemma wp_begin {A} (k : M kst A) Q s : wp k Q (in_op (fs_of s) s) -> wp (call begin_op;; k) Q s.
Proof. destruct s as [tb [km fy ft pp os tk]]. done. Qed.

Lemma wp_mycwd {A} (k : nat -> M kst A) Q f s w d :
  caller s w d -> wp (k w) Q (in_op f s) -> wp (w <- mycwd cur;; k w) Q (in_op f s).
Proof.
  intros [(p & Hp & Hc) _ _ _ _ _] H. unfold mycwd, myproc, proc_at, pget. wp_steps. simpl. rewrite Hp. wp_steps. rewrite Hc.
  by wp_steps.
Qed.

Lemma wp_begin0 s : wp (call begin_op) (fun _ s' => s' = in_op (fs_of s) s) s.
Proof. by destruct s as [tb [km fy ft pp os tk]]. Qed.

Lemma wp_mycwd0 f s w d : caller s w d -> wp (mycwd cur) (fun r s' => r = w /\ s' = in_op f s) (in_op f s).
Proof.
  intros C.
  exact (wp_bind_inv _ _ _ _ (wp_mycwd (fun r => ret r) (fun r s' => r = w /\ s' = in_op f s) f s w d C (conj eq_refl eq_refl))).
Qed.

Lemma called_intro s f' t' lk' : got (fs_of s) f' [] [] -> view f' t' lk' -> wf t' lk' -> called s (put_fs f' s) t'.
Proof. intros G V W'. constructor; [done|done|apply V|]. by apply (view_wf f' t' lk'). Qed.

(** The next call finds what this one found, while the directory has a name. *)
Lemma called_caller s s' t' w d : caller s w d -> called s s' t' -> linked (fs_of s') d = true -> caller s' w d.
Proof.
  intros [(p & Hp & Hw) Inv W Hidle Hat Hd] [Er G Et W'] Hd'. constructor; [|apply G|done| |by apply G|done].
  - exists p. split; [|done]. by rewrite Er.
  - intros j jp Hj. by rewrite (g_held _ _ _ _ G j jp Hj).
Qed.

(** A name for a node that is not a directory. *)
Lemma wf_enter t lk d new n t' :
  wf t lk -> named t lk n = true -> slots_of t n = None -> named t lk d = true ->
  (forall m sl nm, t_parent t d new = Some (m, sl, nm) -> named t lk m = true /\ slots_of t m = Some sl) ->
  t_enter t d new n = Some t' -> wf t' (fupd lk n (lk n + 1)).
Proof.
  intros W Hn Hnd Hd Hpar E. unfold t_enter in E. destruct (t_parent t d new) as [[[m sl] nm]|]; [|done]. simpl in E.
  destruct (find_name sl nm) eqn:Ef; [done|]. injection E as <-. destruct (Hpar m sl nm eq_refl) as [Hm Hs].
  destruct (named_in t lk n Hn) as [[x Hx] Hp].
  assert (Hxd : is_dir x = false) by (unfold slots_of in Hnd; rewrite Hx in Hnd; by destruct x).
  eapply wf_ext; [|apply (wf_add t lk m sl nm n x W Hm Hs Ef Hx); [congruence|lia]].
  intros k _. unfold fupd, add_lk. rewrite Hxd. cbn [andb]. destruct (Z.eqb_spec k n) as [->|]; lia.
Qed.

Lemma walk_named t lk d ns m : twalk t lk -> named t lk d = true -> walk t d ns = Some m -> named t lk m = true.
Proof.
  intros [_ Hn]. revert d. induction ns as [|n ns IH]; intros d Hd Hw; simpl in Hw; [by injection Hw as <-|].
  destruct (child t d n) as [d'|] eqn:E; [|done]. apply (IH d'); [|done]. unfold child in E.
  destruct (slots_of t d) as [l|] eqn:El; [|done]. simpl in E. apply find_name_elem in E as [He Hz].
  by apply (Hn d l (d', n)).
Qed.

Lemma parent_named t lk d path m sl nm :
  twalk t lk -> named t lk d = true -> t_parent t d path = Some (m, sl, nm) -> named t lk m = true /\ slots_of t m = Some sl.
Proof.
  intros Hw Hd E. unfold t_parent in E. destruct (last (path_elems path)) as [n|]; [|done]. simpl in E.
  destruct (walk t (start d path) _) as [m'|] eqn:Ew; [|done]. simpl in E.
  destruct (slots_of t m') as [l|] eqn:El; [|done]. simpl in E. injection E as <- <- <-. split; [|done].
  eapply walk_named; [done| |done]. unfold start. destruct (bool_decide _); [apply Hw|done].
Qed.

(** sys_link from the lock of the old node on. *)
Lemma link_locked_wp s f w d n i new :
  caller s w d -> let t := tree_of (fs_of s) in let lk := nlink_of (fs_of s) in
  got (fs_of s) f [n] [i] -> view f t lk -> at_ino f w d -> read_in f i n -> named t lk n = true ->
  plain new -> (2 < room (icache (fs_of s)))%nat -> (2 <= nfree f)%nat -> lk n < 32767 ->
  (forall m sl nm, t_parent t d new = Some (m, sl, nm) -> Z.of_nat (length sl) < MAXENTS /\ find_name sl nm <> Some m) ->
  wp (x <- inode_of i;;
      if i_type x =? T_DIR then fs (iunlockput i);; call end_op;; ret (-1)
      else
        fs (upd_inode i (fun x => set_link (i_nlink x + 1) x));;
        fs (iupdate i);;
        fs (iunlock i);;
        link_rest w i new)
     (fun r s' => match (if decide (is_Some (slots_of t n)) then None else t_enter t d new n) with
                  | Some t' => r = 0 /\ called s s' t'
                  | None => r = -1 /\ called s s' t
                  end) (in_op f s).
Proof.
  intros C t lk G V Hat (ip & Hip) Hn Hp Hroom Hfree Hlk Hdir. pose proof C as [_ _ W _ _ Hd]. fold t lk in W.
  pose proof (g_inv _ _ _ _ G) as Inv. pose proof Hip as (Hi & Hr & Hin & Hv).
  assert (Hdn : named t lk d = true) by (by rewrite <- (view_linked _ t lk d (view_start (fs_of s)))).
  assert (Hs : slots_of t n = if i_type ip =? T_DIR then Some (slots f ip) else None).
  { rewrite <- (proj1 V), <- Hin. by apply (valid_dir f i ip). }
  apply wp_bind, wp_op. eapply wp_inode_at; [done|]. destruct (i_type ip =? T_DIR).
  - rewrite decide_True by (by rewrite Hs). apply wp_bind, wp_op.
    eapply wp_mono; [by apply (unlockput_view (fs_of s) f [] [] i n t lk G V); [eapply has_at|set_solver|]|].
    intros _ f1 (G1 & V1 & _). apply (wp_finish _ s (fs_of s) f1 [] [] t lk); [done|done|]. intros f' G' V'.
    split; [done|]. by eapply called_intro.
  - rewrite decide_False by (rewrite Hs; by intros []). apply wp_op2. destruct (named_in t lk n Hn) as [Hsome Hpos].
    assert (Enl : i_nlink ip = lk n) by (rewrite <- (has_nlink f i n ip Inv Hip); by apply V).
    eapply wp_mono; [apply (wp_setlink (fs_of s) f [n] [i] i n ip (lk n + 1) t lk); [done..| |unfold s16_ok; lia]|].
    { unfold set_link. rewrite Enl. f_equal. apply s16_small. unfold s16_ok. lia. }
    intros _ f1 (G1 & V1 & Hh1 & Ei1 & Ef1). apply wp_bind, wp_op.
    assert (K1 : forall j m, at_ino f j m -> at_ino f1 j m) by (intros j m; by apply (at_ino_entry f f1 i ip (set_nlink (lk n + 1) ip))).
    eapply wp_mono; [apply (got_iunlock (fs_of s) f1 [n] [] i n G1); [by eapply has_at; [apply G1|]|set_solver]|].
    intros _ f2 [G2 C2]. assert (V2 : view f2 t (fupd lk n (lk n + 1))) by (eapply view_same; [apply C2|done]).
    assert (K2 : forall j m, at_ino f j m -> at_ino f2 j m) by (intros j m Hj; by eapply (cstep_keep (fs_of s) f1 f2 [n] [i] []); [..|apply K1]).
    apply (link_rest_wp (fs_of s) s t lk n i W Hn Hs Hlk _ f2 w d new); try done; [by apply K2, (has_at f i n ip)|by apply K2| |].
    { rewrite (nfree_same f1 f2), Ef1 by apply C2. done. }
    intros f' G'. destruct (t_enter t d new n) as [t'|] eqn:Et; intros V'; (split; [done|]); [|by eapply called_intro].
    eapply called_intro; [done|done|]. apply (wf_enter t lk d new n t'); try done.
    intros m sl nm. apply parent_named; [by apply wf_twalk|done].
Qed.

(** C4.  link does what the tree of names says.  From a well-formed file system, with
    no inode locked, three free entries of the inode cache, two free blocks, a link
    count that can grow and a directory that can, sys_link returns 0 and leaves on the
    disk the tree that link makes, or returns -1 and leaves the tree as it was, when
    the old path leads nowhere or to a directory, when the directory of the new one is
    not there, or when the new name is taken.  Either way nothing of the kernel but the
    file system changes, every inode has the references it had, no lock is held, the
    transaction is over, and the tree is well formed: the dots, the parents and the
    link count of every inode are right.  The new name is not one that its directory
    has for itself. *)
Theorem sys_link_correct s w d old new
    (C : caller s w d) (Ha0 : argstr cur 0 s = Ret (Some old) s) (Ha1 : argstr cur 1 s = Ret (Some new) s)
    (Hp0 : plain old) (Hp1 : plain new) (Hroom : (2 < room (icache (fs_of s)))%nat) (Hfree : (2 <= nfree (fs_of s))%nat)
    (Hlk : forall n, t_namei (tree_of (fs_of s)) d old = Some n -> nlink_of (fs_of s) n < 32767)
    (Hdir : forall m sl nm, t_parent (tree_of (fs_of s)) d new = Some (m, sl, nm) ->
              Z.of_nat (length sl) < MAXENTS /\ find_name sl nm <> Some m) :
  wp (sys_link cur) (fun r s' =>
    match t_link (tree_of (fs_of s)) d old new with
    | Some t' => r = 0 /\ called s s' t'
    | None => r = -1 /\ called s s' (tree_of (fs_of s))
    end) s.
Proof.
  pose proof C as [_ Inv W Hidle Hat Hd]. set (f := fs_of s) in *. set (t := tree_of f) in *.
  pose proof (got_start f Inv Hidle) as G. pose proof (view_start f) as V. fold t in V.
  assert (Hdn : named t (nlink_of f) d = true) by (by rewrite <- (view_linked f t (nlink_of f))).
  pose proof (wf_twalk _ _ W) as Htw.
  unfold sys_link. apply wp_bind. eapply wp_intro; [exact Ha0|]. cbv beta iota. apply wp_bind. eapply wp_intro; [exact Ha1|]. cbv beta iota.
  apply wp_begin. apply (wp_mycwd _ _ _ _ w d C). apply wp_bind, wp_op.
  eapply wp_mono; [by apply (namei_view f f [] w d old t (nlink_of f)); [..|simpl; lia]|].
  intros r f1 (Hsd1 & V1 & K1 & H1). unfold t_link. destruct (t_namei t d old) as [n|] eqn:En; simpl.
  2: { destruct H1 as [-> G1]. apply (wp_finish _ s f f1 [] [] t (nlink_of f)); [done|done|]. intros f' G' V'.
       split; [done|]. by eapply called_intro. }
  destruct H1 as (i & -> & G1 & Hi & Hn). apply wp_bind, wp_op.
  eapply wp_mono; [by apply (lock_view f f1 [n] [] i n t (nlink_of f)); [..|set_solver]|].
  intros _ f2 (G2 & V2 & Hip & Hsd2 & K2 & _).
  apply (link_locked_wp s f2 w d n i new C); try done; [by apply K2, K1|rewrite (nfree_same f1 f2), (nfree_same f f1) by done; lia|].
  by apply Hlk.
Qed.

(** A link count changed in the cache and on the disk, on the view. *)
Lemma setlink_view (s0 f : fsst D) l h i n t lk v (g : inode -> inode) :
  got s0 f l h -> view f t lk -> read_in f i n -> s16_ok v -> (forall x, i_nlink x = lk n -> g x = set_nlink v x) ->
  wp (upd_inode i g;; iupdate i) (fun _ f' => got s0 f' l h /\ view f' t (fupd lk n v) /\ nfree f' = nfree f /\
    forall a q, (at_ino f a q -> at_ino f' a q) /\ (read_in f a q -> read_in f' a q)) f.
Proof.
  intros G V (ip & Hip) Hv Hg. pose proof (g_inv _ _ _ _ G) as Inv.
  assert (Enl : i_nlink ip = lk n).
  { rewrite <- (has_nlink f i n ip Inv Hip). apply V. rewrite <- (proj1 V), (has_node f i n ip Inv Hip). done. }
  eapply wp_mono; [apply (wp_setlink s0 f l h i n ip v t lk g G Hip V (Hg ip Enl) Hv)|].
  intros _ f' (G' & V' & Hh' & Ei & Ef). split; [done|]. split; [done|]. split; [done|]. intros a q.
  split; [by apply (at_ino_entry f f' i ip (set_nlink v ip)); [apply Hip|..]|].
  intros (ap & Ha & Hr & Hq & Hva). destruct (decide (a = i)) as [->|Hai].
  - destruct Hip as (Hi & _). rewrite Hi in Ha. injection Ha as <-. exists (set_nlink v ip). split; [apply Hh'|done].
  - exists ap. unfold has. rewrite Ei, list_lookup_insert_ne by done. done.
Qed.

Lemma set_link_eq x v d : i_nlink x = v -> s16_ok (v + d) -> set_link (i_nlink x + d) x = set_nlink (v + d) x.
Proof. intros <- H. unfold set_link. by rewrite s16_small. Qed.

(** ** Directories looked up *)
Lemma at_ino_inj (f : fsst D) i a b : at_ino f i a -> at_ino f i b -> a = b.
Proof. intros (x & Hx & _ & _ & <-) (y & Hy & _ & _ & <-). congruence. Qed.

Lemma has_dir_find (f : fsst D) j m jp nm : pinv f -> has f j m jp -> dir_find f jp nm = dir_find f (dino f m) nm.
Proof.
  intros Inv (Hi & Hr & <- & Hv). destruct (fi_ref f Inv j jp Hi Hr) as (_ & _ & Hag). specialize (Hag Hv).
  rewrite <- Hag at 1. done.
Qed.

Lemma same_dir_find (f f' : fsst D) m nm : same_disk f f' -> dir_find f' (dino f' m) nm = dir_find f (dino f m) nm.
Proof. by intros [l ->]%same_disk_cache. Qed.

Lemma dirlookup_view (s0 f : fsst D) l h j m nm t lk sl :
  got s0 f l h -> view f t lk -> twalk t lk -> read_in f j m -> named t lk m = true -> slots_of t m = Some sl ->
  cname nm = nm -> (length l < room (icache s0))%nat ->
  wp (dirlookup j nm) (fun r f' =>
    match find_name sl nm with
    | None => r = None /\ f' = f
    | Some n => exists i k, r = Some (i, sizeof_dirent * k) /\ got s0 f' (n :: l) h /\ view f' t lk /\ same_disk f f' /\
                at_ino f' i n /\ dir_find f' (dino f' m) nm = Some k /\
                forall a q, (at_ino f a q -> at_ino f' a q) /\ (read_in f a q -> read_in f' a q)
    end) f.
Proof.
  intros G V Hw (jp & Hjp) Hm Hs Hc Hroom. pose proof (g_inv _ _ _ _ G) as Inv.
  destruct (has_slots f j m jp t lk sl Inv V Hjp Hs) as (Ht & Es & _). pose proof Hjp as (Hj & Hr & Hin & Hv). subst m.
  eapply wp_mono; [apply (got_dirlookup s0 f l h j jp nm G Hj Hr Hv Ht); [by eapply view_walkable|by rewrite (view_linked f t lk)|done|done]|].
  intros r f' H. cbv beta in H. unfold child in H. destruct V as [Et Hlk]. rewrite Et, Hs in H. cbn [mbind option_bind] in H.
  destruct (find_name sl nm) as [n|]; [|by destruct H as (-> & -> & _)].
  destruct H as (i & k & -> & G' & C & Hat & Hf & _). exists i, k. split; [done|]. split; [done|].
  split; [eapply view_same; [apply C|done]|]. split; [apply C|]. split; [done|]. split; [|by intros a q; eapply cstep_more].
  rewrite (same_dir_find f f') by apply C. by rewrite <- (has_dir_find f j _ jp nm Inv Hjp).
Qed.

(** ** link of a name that is the directory itself *)
Lemma hang_bind {S A B} (c : M S A) (k : A -> M S B) (s : S) : wp c (fun a s' => k a s' = Hang) s -> bind c k s = Hang.
Proof. intros (a & s' & E & H)%wp_inv. by rewrite (bind_run _ _ _ _ _ E). Qed.

Lemma hang_now {S A B} (c : M S A) (k : A -> M S B) (s : S) : c s = Hang -> bind c k s = Hang.
Proof. unfold bind. by intros ->. Qed.

Lemma hang_op {A} (c : M (fsst D) A) f s : c f = Hang -> fs c (in_op f s) = Hang.
Proof. unfold call, onfs, zoom. simpl. by intros ->. Qed.

Lemma hang_op2 {A B C} (c1 : M (fsst D) A) (c2 : M (fsst D) B) (k : M kst C) f s :
  wp (c1;; c2) (fun _ f' => k (in_op f' s) = Hang) f -> (fs c1;; fs c2;; k) (in_op f s) = Hang.
Proof.
  intros H. apply hang_bind, wp_op. apply wp_bind_inv in H. eapply wp_mono; [exact H|]. intros a f' H'. by apply hang_bind, wp_op.
Qed.

(** An inode has one entry in the cache. *)
Lemma at_ino_one (f : fsst D) i j n : pinv f -> at_ino f i n -> at_ino f j n -> i = j.
Proof.
  intros Inv (x & Hx & Hxr & Hxd & Hxn) (y & Hy & Hyr & Hyd & Hyn).
  apply (proj2 (fi_cache f Inv) i j x y); [done..|congruence|congruence].
Qed.

(** dirlink finds the directory itself under the name, and puts an inode whose lock
    it holds. *)
Lemma dirlink_self_hangs (s0 f : fsst D) l h j m nm q t lk sl :
  got s0 f l (j :: h) -> view f t lk -> twalk t lk -> read_in f j m -> named t lk m = true -> slots_of t m = Some sl ->
  cname nm = nm -> find_name sl nm = Some m -> (length l < room (icache s0))%nat -> dirlink j nm q f = Hang.
Proof.
  intros G V Hw Hj Hm Hs Hc Hf Hroom. unfold dirlink. apply hang_bind.
  eapply wp_mono; [by apply (dirlookup_view s0 f l (j :: h) j m nm t lk sl)|].
  intros r f1 H. cbv beta in H. rewrite Hf in H. destruct H as (i & k & -> & G1 & _ & _ & Hi & _ & K).
  assert (Hj1 : at_ino f1 j m) by (apply read_in_at; [apply G1|by apply K]).
  rewrite (at_ino_one f1 i j m (g_inv _ _ _ _ G1) Hi Hj1). destruct Hj1 as (x & Hx & _).
  apply hang_now. unfold iput, iacquire. apply hang_now, hang_bind. eapply wp_inode_at; [done|].
  rewrite (g_held _ _ _ _ G1 j x Hx), bool_decide_true by set_solver. done.
Qed.

Lemma link_rest_hangs s0 s t lk n i f w d new m sl nm :
  wf t lk -> named t lk n = true -> slots_of t n = None -> named t lk d = true ->
  let lk1 := fupd lk n (lk n + 1) in
  got s0 f [n] [] -> view f t lk1 -> at_ino f i n -> at_ino f w d -> plain new -> (2 < room (icache s0))%nat ->
  t_parent t d new = Some (m, sl, nm) -> find_name sl nm = Some m ->
  link_rest w i new (in_op f s) = Hang.
Proof.
  intros W Hn Hnd Hd lk1 G V Hi Hw Hp Hroom Ep Ef. destruct (named_in t lk n Hn) as [_ Hpos].
  assert (Htw : twalk t lk1) by (apply twalk_more; [by apply wf_twalk|done|lia]).
  assert (Hd1 : named t lk1 d = true) by (apply (lk1_named t lk n Hn); [apply (named_in t lk d Hd)|done]).
  unfold link_rest. apply hang_bind, wp_op. eapply wp_mono; [by apply (nameiparent_view s0 f [n] w d new t lk1); [..|simpl; lia]|].
  intros r f1 (_ & V1 & K1 & H1). rewrite Ep in H1. destruct H1 as (j & -> & G1 & Hj & Hm & Hs & Hc & _).
  apply hang_bind, wp_op. eapply wp_mono; [by apply (lock_view s0 f1 [m; n] [] j m t lk1); [..|set_solver]|].
  intros _ f2 (G2 & V2 & Hj2 & _ & K2 & _). pose proof Hj2 as (jp & Hjp). apply hang_bind, wp_op. eapply wp_inode_at; [apply Hjp|].
  destruct (K2 i n (K1 i n Hi)) as (xp & Hx & Hxr & Hxd & Hxn). apply hang_bind, wp_op. eapply wp_inode_at; [done|].
  assert (Hjd : i_dev jp = ROOTDEV) by (by apply (fi_ref f2 (g_inv _ _ _ _ G2) j jp); apply Hjp).
  rewrite Hjd, Hxd, Z.eqb_refl. cbn [negb]. apply hang_now, hang_op.
  by apply (dirlink_self_hangs s0 f2 [m; n] [] j m nm _ t lk1 sl).
Qed.

(** C39.  link to a name of the directory itself never returns.  When the old path
    leads to a file and the new name is one that its directory has for itself (a dot,
    or the dots of the root), dirlink finds the directory, whose lock sys_link holds,
    and puts it: iput waits for that lock, with the transaction open. *)
Theorem link_dot_hangs s w d old new n m sl nm
    (C : caller s w d) (Ha0 : argstr cur 0 s = Ret (Some old) s) (Ha1 : argstr cur 1 s = Ret (Some new) s)
    (Hp0 : plain old) (Hp1 : plain new) (Hroom : (2 < room (icache (fs_of s)))%nat)
    (Hn : t_namei (tree_of (fs_of s)) d old = Some n) (Hnd : slots_of (tree_of (fs_of s)) n = None) (Hlk : nlink_of (fs_of s) n < 32767)
    (Hm : t_parent (tree_of (fs_of s)) d new = Some (m, sl, nm)) (Hself : find_name sl nm = Some m) :
  sys_link cur s = Hang.
Proof.
  pose proof C as [_ Inv W Hidle Hat Hd]. set (f := fs_of s) in *. set (t := tree_of f) in *. set (lk := nlink_of f) in *.
  pose proof (got_start f Inv Hidle) as G. pose proof (view_start f) as V. fold t lk in V.
  assert (Hdn : named t lk d = true) by (by rewrite <- (view_linked f t lk)).
  unfold sys_link. rewrite (bind_run _ _ _ _ _ Ha0), (bind_run _ _ _ _ _ Ha1).
  apply hang_bind. eapply wp_mono; [apply wp_begin0|]. intros _ s1 ->. fold f. apply hang_bind. eapply wp_mono; [by apply (wp_mycwd0 f s w d)|].
  intros w' s1 [-> ->]. apply hang_bind, wp_op.
  eapply wp_mono; [by apply (namei_view f f [] w d old t lk G V (wf_twalk t lk W)); [..|simpl; lia]|].
  intros r f1 (_ & V1 & K1 & H1). rewrite Hn in H1. destruct H1 as (i & -> & G1 & Hi & Hnn). apply hang_bind, wp_op.
  eapply wp_mono; [by apply (lock_view f f1 [n] [] i n t lk); [..|set_solver]|].
  intros _ f2 (G2 & V2 & Hi2 & _ & K2 & _). pose proof Hi2 as (ip & Hip). apply hang_bind, wp_op. eapply wp_inode_at; [apply Hip|].
  assert (Hty : (i_type ip =? T_DIR) = false).
  { destruct Hip as (Hil & Hir & Hin & Hiv). pose proof (valid_dir f2 i ip (g_inv _ _ _ _ G2) Hil Hir Hiv) as E.
    rewrite (proj1 V2), Hin, Hnd in E. by destruct (i_type ip =? T_DIR). }
  rewrite Hty. apply hang_op2. destruct (named_in t lk n Hnn) as [_ Hpos].
  eapply wp_mono; [apply (setlink_view f f2 [n] [i] i n t lk (lk n + 1)); [done|done|done|unfold s16_ok; lia|]|].
  { intros y Hy. by apply set_link_eq; [|unfold s16_ok; lia]. }
  intros _ f3 (G3 & V3 & _ & K3). apply hang_bind, wp_op.
  eapply wp_mono; [apply (got_iunlock f f3 [n] [] i n G3); [apply K3, read_in_at; [apply G2|done]|set_solver]|].
  intros _ f4 [G4 C4]. assert (K4 : forall j q, at_ino f3 j q -> at_ino f4 j q) by (intros j q; by apply (cstep_keep f f3 f4 [n] [i] [])).
  eapply (link_rest_hangs f s t lk n i f4 w d new m sl nm); try done.
  - eapply view_same; [apply C4|done].
  - apply K4, K3, read_in_at; [apply G2|done].
  - by apply K4, K3, K2, K1.
Qed.

(** ** unlink *)
Lemma unlink_bad_wp (Q : Z -> kst -> Prop) s0 f s j m t lk :
  got s0 f [m] [j] -> view f t lk -> at_ino f j m -> named t lk m = true ->
  (forall f', got s0 f' [] [] -> view f' t lk -> Q (-1) (put_fs f' s)) -> wp (unlink_bad j) Q (in_op f s).
Proof.
  intros G V Hat Hm HQ. unfold unlink_bad. apply wp_bind, wp_op.
  eapply wp_mono; [by apply (unlockput_view s0 f [] [] j m t lk G V); [..|set_solver|]|].
  intros _ f1 (G1 & V1 & _). by apply (wp_finish Q s s0 f1 [] [] t lk (-1)).
Qed.

(** iunlockput of a node that may have lost its last name. *)
Definition reap (f0 : fsst D) (lk : Z -> Z) (n : Z) (t : tree) : tree :=
  if (lk n =? 0) && (refs f0 n =? 0) then delete n t else t.

Lemma unlockput_last (s0 f : fsst D) i n t lk :
  got s0 f [n] [i] -> view f t lk -> read_in f i n -> is_Some (t !! n) -> 0 <= lk n ->
  wp (iunlockput i) (fun _ f' => got s0 f' [] [] /\ view f' (reap s0 lk n t) lk) f.
Proof.
  intros G V Hin Hn Hlk. unfold iunlockput. wp_steps.
  assert (Hat : at_ino f i n) by (apply read_in_at; [apply G|done]).
  eapply wp_mono; [apply (got_iunlock s0 f [n] [] i n G Hat); set_solver|]. intros _ f1 [G1 C1].
  assert (V1 : view f1 t lk) by (eapply view_same; [apply C1|done]).
  assert (Hin1 : read_in f1 i n) by (by apply (cstep_read s0 f f1 [n] [i] [])).
  assert (Hat1 : at_ino f1 i n) by (apply read_in_at; [apply G1|done]).
  pose proof (g_refs _ _ _ _ G1 n) as Er. simpl in Er. rewrite Z.eqb_refl in Er.
  pose proof (refcnt_nonneg (icache s0) ROOTDEV n (proj1 (g_base _ _ _ _ G))) as Hr0. fold (refs s0 n) in Hr0. unfold reap.
  destruct (Z.eqb_spec (lk n) 0) as [E0|E0], (Z.eqb_spec (refs s0 n) 0) as [R0|R0]; cbn [andb].
  1: { destruct Hin1 as [ip Hip]. apply (got_reclaim s0 f1 [] [] i n ip t lk); try done; [set_solver|lia]. }
  all: eapply wp_mono; [apply (got_iput s0 f1 [] [] i n G1 Hat1); [set_solver|]|].
  all: try (intros _ f2 [G2 C2]; split; [done|]; eapply view_same; [apply C2|done]).
  - right. lia.
  - left. destruct V1 as [_ Hl1]. change (i_nlink (dino f1 n)) with (nlink_of f1 n). rewrite Hl1 by done. lia.
  - right. lia.
Qed.

Lemma nlink_range (f : fsst D) t lk n : pinv f -> view f t lk -> is_Some (t !! n) -> s16_ok (lk n).
Proof.
  intros Inv [<- Hl] Hn. rewrite <- Hl by done. apply tree_alloc in Hn. by destruct (ii_ok f n (fi_ino f Inv n Hn)) as (_&_&_&?&_).
Qed.

Section Unlink.
Context (s0 : fsst D) (s : kst) (t : tree) (lk : Z -> Z) (m : Z) (sl : list (Z * name)) (nm : name) (n : Z) (x : node).
Context (W : wf t lk) (Hm : named t lk m = true) (Hs : slots_of t m = Some sl) (Hf : find_name sl nm = Some n)
        (Hdot : nm <> dot) (Hdotdot : nm <> dotdot) (Hx : t !! n = Some x)
        (He : forall li, x = NDir li -> only_dots li = true) (Hcn : cname nm = nm).
Let t' := del_t t m sl nm.
Let lk' := del_lk lk m n x.

Lemma clear_view f i j k :
  got s0 f [n; m] [i; j] -> i <> j -> view f t lk -> read_in f j m -> read_in f i n -> dir_find f (dino f m) nm = Some k ->
  wp (writei j (replicate (Z.to_nat sizeof_dirent) 0) (sizeof_dirent * k)) (fun r f' => r = Some sizeof_dirent /\
    got s0 f' [n; m] [i; j] /\ view f' t' lk /\ read_in f' j m /\ read_in f' i n) f.
Proof.
  intros G Hij V (jp & Hjp) (ip & Hi & Hip) Hk. pose proof (g_inv _ _ _ _ G) as Inv.
  destruct (has_slots f j m jp t lk sl Inv V Hjp Hs) as (Ht & Es & _). rewrite <- (has_dir_find f j m jp nm Inv Hjp) in Hk.
  eapply wp_mono; [by apply (got_clear s0 f [n; m] [i; j] j m jp nm k)|]. intros r f1 [-> DS]. rewrite Es in DS.
  pose proof DS as [G1 _ _ _ (jp' & Ei & (E1 & E2 & E3 & E4 & E5 & _) & _)]. split; [done|]. split; [done|].
  split; [eapply view_dir_step; [done|done| |done]; apply slots_of_lookup in Hs; by rewrite Hs|].
  destruct Hjp as (Hj & Hr & Hjn & Hv). assert (Hlt : (j < length (icache f))%nat) by (by eapply lookup_lt_Some). split.
  - exists jp'. split; [by rewrite Ei, list_lookup_insert_eq|]. split_and!; [lia|congruence|congruence].
  - exists ip. split; [|done]. by rewrite Ei, list_lookup_insert_ne.
Qed.

Lemma unlink_facts : n <> m /\ named t lk n = true /\ is_Some (t' !! n) /\ is_Some (t' !! m) /\ 0 < lk' m /\ 0 <= lk' n.
Proof.
  destruct (del_facts t lk m sl nm n W Hm Hs Hf Hdot Hdotdot) as (p & r & _ & _ & _ & _ & Hn & _ & Hnm & _).
  split; [done|]. split; [done|]. unfold t', del_t. rewrite lookup_insert_ne, lookup_insert_eq by done.
  split; [by rewrite Hx|]. split; [done|]. split; [by eapply del_parent_pos|].
  unfold lk', del_lk. rewrite Z.eqb_refl. destruct (Z.eqb_spec n m); [done|]. rewrite andb_false_r. apply named_in in Hn as [_ Hn]. lia.
Qed.

(** The counts once the parent has lost the dots of a directory. *)
Definition parent_lk : Z -> Z := fun q => lk q - if is_dir x && (q =? m) then 1 else 0.

Lemma parent_step (Q : unit -> kst -> Prop) f i j (isdir : bool) :
  got s0 f [n; m] [i; j] -> view f t' lk -> read_in f j m -> read_in f i n -> isdir = is_dir x ->
  (forall f', got s0 f' [n; m] [i; j] -> view f' t' parent_lk -> read_in f' j m -> read_in f' i n -> Q tt (in_op f' s)) ->
  wp (if isdir then fs (upd_inode j (fun d => set_link (i_nlink d - 1) d));; fs (iupdate j) else ret tt) Q (in_op f s).
Proof.
  intros G V Hj Hi Hd HQ. rewrite Hd. destruct unlink_facts as (Hnm & _ & _ & Hm' & Hpos & _). unfold parent_lk in HQ.
  destruct (is_dir x) eqn:Hxd.
  - pose proof (nlink_range f t' lk m (g_inv _ _ _ _ G) V Hm') as Hrg.
    assert (Hlm : 0 < lk m) by (apply named_in in Hm as [_ ?]; done).
    apply wp_op_pair. eapply wp_mono; [apply (setlink_view s0 f [n; m] [i; j] j m t' lk (lk m + -1)); [done|done|done|unfold s16_ok in *; lia|]|].
    + intros y Hy. by apply set_link_eq; [|unfold s16_ok in *; lia].
    + intros [] f' (G' & V' & _ & K). apply HQ; [done| |by apply K|by apply K].
      eapply view_ext; [done|]. intros q _. unfold fupd. cbn [andb]. destruct (Z.eqb_spec q m) as [->|]; lia.
  - wp_steps. apply HQ; try done. eapply view_ext; [done|]. intros q _. cbn [andb]. lia.
Qed.

Lemma unlink_remove_wp (Q : Z -> kst -> Prop) f i j k (isdir : bool) :
  got s0 f [n; m] [i; j] -> i <> j -> view f t lk -> read_in f j m -> read_in f i n -> dir_find f (dino f m) nm = Some k ->
  isdir = is_dir x ->
  (forall f', got s0 f' [] [] -> view f' (reap s0 lk' n t') lk' -> Q 0 (put_fs f' s)) ->
  wp (w <- fs (writei j (replicate (Z.to_nat sizeof_dirent) 0) (sizeof_dirent * k));;
      if negb (bool_decide (w = Some sizeof_dirent)) then panic "unlink: writei"
      else
        (if isdir then
           fs (upd_inode j (fun d => set_link (i_nlink d - 1) d));;
           fs (iupdate j)
         else ret tt);;
        fs (iunlockput j);;
        fs (upd_inode i (fun x => set_link (i_nlink x - 1) x));;
        fs (iupdate i);;
        fs (iunlockput i);;
        call end_op;;
        ret 0) Q (in_op f s).
Proof.
  intros G Hij V Hj Hi Hk Hisdir HQ. destruct unlink_facts as (Hnm & Hn & Hn' & Hm' & Hpos & Hpos').
  apply wp_bind, wp_op. eapply wp_mono; [by apply (clear_view f i j k)|]. intros r f1 (-> & G1 & V1 & Hj1 & Hi1).
  rewrite bool_decide_true by done. cbn [negb]. apply wp_bind. apply (parent_step _ f1 i j isdir); try done.
  intros f2 G2 V2 Hj2 Hi2. apply wp_bind, wp_op.
  assert (G2' : got s0 f2 [m; n] [j; i]).
  { apply (got_held _ _ _ [i; j]); [|set_solver]. apply (got_perm _ _ _ _ _ G2). intros y. simpl. lia. }
  assert (Elk : forall q, parent_lk q = lk' q + if q =? n then 1 else 0) by (intros q; unfold parent_lk, lk', del_lk; destruct (q =? n); lia).
  assert (Hnn : parent_lk n - 1 = lk' n) by (rewrite Elk, Z.eqb_refl; lia).
  eapply wp_mono; [apply (unlockput_view s0 f2 [n] [i] j m t' parent_lk G2' V2); [apply read_in_at; [apply G2|done]|set_solver|]|].
  { unfold named. rewrite bool_decide_true by done. apply Z.ltb_lt. rewrite Elk. destruct (m =? n); lia. }
  intros _ f3 (G3 & V3 & _ & K3). assert (Hi3 : read_in f3 i n) by (apply K3; [done|apply (got_pos _ _ _ _ _ G3); left]).
  apply wp_op2. pose proof (nlink_range f3 t' parent_lk n (g_inv _ _ _ _ G3) V3 Hn') as Hrg.
  eapply wp_mono; [apply (setlink_view s0 f3 [n] [i] i n t' parent_lk (parent_lk n + -1)); [done|done|done|unfold s16_ok in *; lia|]|].
  { intros y Hy. by apply set_link_eq; [|unfold s16_ok in *; lia]. }
  intros _ f4 (G4 & V4 & _ & K4). apply wp_bind, wp_op.
  assert (V4' : view f4 t' lk').
  { eapply view_ext; [done|]. intros q _. unfold fupd. destruct (Z.eqb_spec q n) as [->|Hq]; [lia|].
    rewrite Elk. destruct (Z.eqb_spec q n); [done|lia]. }
  eapply wp_mono; [by apply (unlockput_last s0 f4 i n t' lk' G4 V4'); [apply K4|..]|].
  intros _ f5 [G5 V5]. by apply (wp_finish Q s s0 f5 [] [] (reap s0 lk' n t') lk' 0).
Qed.
End Unlink.

(** The node that a path names, and the tree once it is given up by those who have it
    open. *)
Definition t_target (t : tree) (d : Z) (path : list Z) : option Z :=
  '(_, sl, nm) ← t_parent t d path; find_name sl nm.

Definition t_gone (f : fsst D) (t' : tree) (n : option Z) : tree :=
  match n with
  | Some n => if (nlink_of f n =? 1) && (refs f n =? 0) then delete n t' else t'
  | None => t'
  end.

(** sys_unlink from the lock of the node on. *)
Definition unlink_found (dp ip : nat) (off : Z) : M kst Z :=
  x <- inode_of ip;;
  if i_nlink x <? 1 then panic "unlink: nlink < 1"
  else
    e <- (if i_type x =? T_DIR then fs (isdirempty ip) else ret true);;
    if negb e then fs (iunlockput ip);; unlink_bad dp
    else
      w <- fs (writei dp (replicate (Z.to_nat sizeof_dirent) 0) off);;
      if negb (bool_decide (w = Some sizeof_dirent)) then panic "unlink: writei"
      else
        (if i_type x =? T_DIR then
           fs (upd_inode dp (fun d => set_link (i_nlink d - 1) d));;
           fs (iupdate dp)
         else ret tt);;
        fs (iunlockput dp);;
        fs (upd_inode ip (fun x => set_link (i_nlink x - 1) x));;
        fs (iupdate ip);;
        fs (iunlockput ip);;
        call end_op;;
        ret 0.

Definition unlink_name (dp : nat) (name : list Z) : M kst Z :=
  r <- fs (dirlookup dp name);;
  match r with
  | None => unlink_bad dp
  | Some (ip, off) => fs (ilock ip);; unlink_found dp ip off
  end.

Section UnlinkFound.
Context (s : kst) (w : nat) (d : Z) (path : list Z) (m : Z) (sl : list (Z * name)) (nm : name) (j : nat).
Let t := tree_of (fs_of s).
Let lk := nlink_of (fs_of s).
Context (C : caller s w d) (Ep : t_parent t d path = Some (m, sl, nm)) (Hd1 : nm <> dot) (Hd2 : nm <> dotdot) (Hc : cname nm = nm)
        (Hm : named t lk m = true) (Hs : slots_of t m = Some sl) (Hroom : (1 < room (icache (fs_of s)))%nat).

Definition unlinked (r : Z) (s' : kst) : Prop :=
  match t_unlink t d path with
  | Some t' => r = 0 /\ called s s' (t_gone (fs_of s) t' (t_target t d path))
  | None => r = -1 /\ called s s' t
  end.

Lemma unlink_refused f :
  t_unlink t d path = None -> got (fs_of s) f [m] [j] -> view f t lk -> at_ino f j m -> wp (unlink_bad j) unlinked (in_op f s).
Proof.
  intros E G V Hj. unfold unlinked. rewrite E. apply (unlink_bad_wp _ (fs_of s) f s j m t lk); try done.
  intros f' G' V'. split; [done|]. eapply called_intro; [done|done|apply C].
Qed.

Lemma unlink_tree n : find_name sl nm = Some n ->
  t_target t d path = Some n /\
  t_unlink t d path = match slots_of t n with
                      | Some li => if only_dots li then Some (del_t t m sl nm) else None
                      | None => Some (del_t t m sl nm)
                      end.
Proof.
  intros Ef. unfold t_unlink, t_target. rewrite Ep. cbn [mbind option_bind]. rewrite !bool_decide_false by done. cbn [orb].
  by rewrite Ef.
Qed.

(** The tree after the removal is well formed, with the node or without it. *)
Lemma unlink_result n x f' :
  find_name sl nm = Some n -> t !! n = Some x -> (forall li, x = NDir li -> only_dots li = true) ->
  let lk' := del_lk lk m n x in let t' := del_t t m sl nm in
  got (fs_of s) f' [] [] -> view f' (reap (fs_of s) lk' n t') lk' ->
  called s (put_fs f' s) (t_gone (fs_of s) t' (t_target t d path)).
Proof.
  intros Ef Hx He lk' t' G' V'. pose proof (ca_wf _ _ _ C) as W. fold t lk in W.
  destruct (del_facts t lk m sl nm n W Hm Hs Ef Hd1 Hd2) as (_ & _ & _ & _ & _ & _ & _ & Hn0 & Hnm & _).
  pose proof (wf_del t lk m sl nm n x W Hm Hs Ef Hd1 Hd2 Hx He) as W'. fold t' lk' in W'.
  assert (Elk : lk' n = lk n - 1).
  { unfold lk', del_lk. rewrite Z.eqb_refl. destruct (Z.eqb_spec n m); [done|]. rewrite andb_false_r. lia. }
  assert (Eg : t_gone (fs_of s) t' (t_target t d path) = reap (fs_of s) lk' n t').
  { destruct (unlink_tree n Ef) as [-> _]. unfold t_gone, reap. rewrite Elk. fold lk. change (nlink_of (fs_of s) n) with (lk n).
    destruct (Z.eqb_spec (lk n) 1), (Z.eqb_spec (lk n - 1) 0); (done || lia). }
  rewrite Eg. apply (called_intro s f' _ lk'); [done|done|]. unfold reap.
  destruct (Z.eqb_spec (lk' n) 0) as [E0|]; [|done]. destruct (refs (fs_of s) n =? 0); [|done]. cbn [andb].
  assert (Hun : forall u, named u lk' n = false) by (intros u; unfold named; rewrite E0; apply andb_false_r).
  apply (wf_outside t' lk' _ lk' n W'); [|done|apply Hun|apply Hun|].
  - intros q Hq. by rewrite lookup_delete_ne.
  - rewrite lookup_delete_ne by done. apply W'.
Qed.

Lemma unlink_found_wp f i k n :
  find_name sl nm = Some n -> got (fs_of s) f [n; m] [i; j] -> i <> j -> view f t lk -> read_in f j m -> read_in f i n ->
  dir_find f (dino f m) nm = Some k -> wp (unlink_found j i (sizeof_dirent * k)) unlinked (in_op f s).
Proof.
  intros Ef G Hij V Hj Hi Hk. pose proof (ca_wf _ _ _ C) as W. fold t lk in W. pose proof (g_inv _ _ _ _ G) as Inv.
  destruct (del_facts t lk m sl nm n W Hm Hs Ef Hd1 Hd2) as (_ & _ & _ & _ & _ & _ & Hn & _).
  destruct (named_in t lk n Hn) as [[x Hx] Hpos]. pose proof Hi as [ip Hip]. pose proof Hip as (Hil & Hir & Hin & Hiv).
  assert (Enl : i_nlink ip = lk n) by (rewrite <- (has_nlink f i n ip Inv Hip); apply V; by rewrite Hx).
  destruct (unlink_tree n Ef) as [_ Eun].
  assert (Hsn : slots_of t n = if i_type ip =? T_DIR then Some (slots f ip) else None).
  { rewrite <- (proj1 V), <- Hin. by apply (valid_dir f i ip). }
  assert (Hty : (i_type ip =? T_DIR) = is_dir x) by (unfold slots_of in Hsn; rewrite Hx in Hsn; by destruct x, (i_type ip =? T_DIR)).
  unfold unlink_found. apply wp_bind, wp_op. eapply wp_inode_at; [done|]. destruct (Z.ltb_spec (i_nlink ip) 1); [lia|].
  destruct (i_type ip =? T_DIR) eqn:Etd; apply wp_bind.
  - apply wp_op. destruct (valid_entry f i ip Inv Hil Hir Hiv) as (_ & _ & _ & _ & _ & _ & _ & Hdir). apply Z.eqb_eq in Etd.
    eapply wp_intro; [exact (isdirempty_spec f i ip (Hdir Etd))|]. rewrite Hsn in Eun.
    destruct (only_dots (slots f ip)) eqn:Eo; cbn [negb].
    + assert (He : forall li, x = NDir li -> only_dots li = true) by (intros li ->; apply slots_of_lookup in Hx; congruence).
      apply (unlink_remove_wp (fs_of s) s t lk m sl nm n x W Hm Hs Ef Hd1 Hd2 Hx He Hc _ f i j k true); try done.
      intros f' G' V'. unfold unlinked. rewrite Eun. split; [done|]. by apply (unlink_result n x).
    + apply wp_bind, wp_op. eapply wp_mono; [apply (unlockput_view (fs_of s) f [m] [j] i n t lk G V); [by apply read_in_at|set_solver|done]|].
      intros _ f1 (G1 & V1 & _ & K1). apply unlink_refused; [done|done|done|].
      apply K1; [by apply read_in_at|]. apply (got_pos _ _ _ _ _ G1). left.
  - apply wp_ret. cbn [negb]. rewrite Hsn in Eun. assert (He : forall li, x = NDir li -> only_dots li = true) by (by intros li ->).
    apply (unlink_remove_wp (fs_of s) s t lk m sl nm n x W Hm Hs Ef Hd1 Hd2 Hx He Hc _ f i j k false); try done.
    intros f' G' V'. unfold unlinked. rewrite Eun. split; [done|]. by apply (unlink_result n x).
Qed.

Lemma unlink_name_wp f :
  got (fs_of s) f [m] [j] -> view f t lk -> read_in f j m -> wp (unlink_name j nm) unlinked (in_op f s).
Proof.
  intros G V Hj. pose proof (ca_wf _ _ _ C) as W. fold t lk in W. unfold unlink_name. apply wp_bind, wp_op.
  eapply wp_mono; [apply (dirlookup_view (fs_of s) f [m] [j] j m nm t lk sl); try done; by apply wf_twalk|].
  intros r f1 H1. cbv beta in H1. destruct (find_name sl nm) as [n|] eqn:Ef.
  2: { destruct H1 as [-> ->]. apply unlink_refused; [|done|done|apply read_in_at; [apply G|done]].
       unfold t_unlink. rewrite Ep. cbn [mbind option_bind]. rewrite !bool_decide_false by done. cbn [orb]. by rewrite Ef. }
  destruct H1 as (i & k & -> & G1 & V1 & Hsd1 & Hi1 & Hk & K1). pose proof (proj2 (K1 j m) Hj) as Hj1.
  assert (Hij : i <> j).
  { intros ->. destruct (del_facts t lk m sl nm n W Hm Hs Ef Hd1 Hd2) as (_ & _ & _ & _ & _ & _ & _ & _ & Hnm & _). apply Hnm.
    apply (at_ino_inj f1 j); [done|]. apply read_in_at; [apply G1|done]. }
  apply wp_bind, wp_op. eapply wp_mono; [by apply (lock_view (fs_of s) f1 [n; m] [j] i n t lk); [..|set_solver]|].
  intros _ f2 (G2 & V2 & Hi2 & Hsd2 & _ & K2). apply (unlink_found_wp f2 i k n); try done; [by apply K2|].
  by rewrite (same_dir_find f1 f2).
Qed.
End UnlinkFound.

Lemma namecmp_plain nm q : cname nm = nm -> cname q = q -> (namecmp nm q =? 0) = bool_decide (nm = q).
Proof.
  intros H1 H2. pose proof (namecmp_eq nm q) as E. rewrite H1, H2 in E.
  destruct (Z.eqb_spec (namecmp nm q) 0) as [E0|E0]; symmetry; [by apply bool_decide_eq_true, E|].
  apply bool_decide_eq_false. intros Eq. by apply E0, E.
Qed.

End FsCalls.

(** ** Witnesses: the small file system *)
#[local] Existing Instance no_device.
#[local] Existing Instance example_syms.

Lemma small_caller a b c : caller 0 (small_pst a b c) 0 1.
Proof.
  constructor.
  - by exists small_proc.
  - exact small_pinv.
  - exact small_wf.
  - intros j jp Hj. by apply (small_cached j).
  - by exists (mkInode 1 1 1 false false 0 0 0 0 0 (replicate 13 0)).
  - vm_compute. reflexivity.
Qed.

Lemma small_plain c : 0 < c < 256 -> plain [c].
Proof. intros Hc. by constructor; [|constructor]. Qed.

(** link of f to g. *)
Lemma sys_link_correct_witness :
  wp (sys_link 0) (fun r s' => r = 0 /\
    tree_of (fs_of s') = {[1 := NDir (dots 1 1 ++ [(2, [102]); (2, [103])]); 2 := NFile []]}) (small_pst 16 18 0).
Proof.
  pose proof (sys_link_correct 0 (small_pst 16 18 0) 0 1 [102] [103] (small_caller 16 18 0) ltac:(vm_compute; reflexivity)
    ltac:(vm_compute; reflexivity) (small_plain 102 ltac:(lia)) (small_plain 103 ltac:(lia)) ltac:(vm_compute; lia) ltac:(vm_compute; lia)) as H.
  change (fs_of (small_pst 16 18 0)) with small_fs in H. rewrite small_tree_of in H.
  assert (H0 : forall n, t_namei small_tree 1 [102] = Some n -> nlink_of small_fs n < 32767)
    by (intros n ->%small_namei; rewrite small_nlink; [lia|vm_compute; reflexivity]).
  assert (H1 : forall m sl nm, t_parent small_tree 1 [103] = Some (m, sl, nm) -> Z.of_nat (length sl) < MAXENTS /\ find_name sl nm <> Some m)
    by (intros m sl nm (-> & -> & ->)%small_parent; split; vm_compute; [reflexivity|discriminate]).
  specialize (H H0 H1). eapply wp_mono; [exact H|]. intros r s' H'.
  assert (E : t_link small_tree 1 [102] [103] = Some {[1 := NDir (dots 1 1 ++ [(2, [102]); (2, [103])]); 2 := NFile []]}) by (vm_compute; reflexivity).
  rewrite E in H'. destruct H' as [-> [_ _ Ht _]]. split; [reflexivity|exact Ht].
Defined.

(** link of f to the dot of the root directory. *)
Lemma link_dot_hangs_witness : sys_link 0 (small_pst 16 22 0) = Hang.
Proof.
  apply (link_dot_hangs 0 (small_pst 16 22 0) 0 1 [102] [46] 2 1 (dots 1 1 ++ [(2, [102])]) [46] (small_caller 16 22 0)
    ltac:(vm_compute; reflexivity) ltac:(vm_compute; reflexivity) (small_plain 102 ltac:(lia)) (small_plain 46 ltac:(lia)) ltac:(vm_compute; lia)).
  all: change (fs_of (small_pst 16 22 0)) with small_fs; rewrite ?small_tree_of; vm_compute; reflexivity.
Defined.

