(* ===== verification/FsCreate.v ===== *)
(** * create, mkdir and mknod as calls on the tree (sysfile.c)

    create makes a file, a directory with its dots or a device, under a name that is
    not taken, with its locks, its references and its link counts. *)

From stdpp Require Import base numbers list gmap strings.
From Stdlib Require Import ZArith Lia Bool.
From S2P Require Import Prelude Block Mem Mmu Kalloc Vm Fs FsAlloc FsFile FsRw FsInode FsTrunc FsDir Proc File Syscall Exec Sysfile.
From S2P Require Import Tree TreeInv FsTree FsNames FsDemo FsCalls.

Local Open Scope Z_scope.
Local Open Scope kernel_scope.

Section FsCreate.
Context {D : Type} `{DV : Devsw D}.
Implicit Types f : fsst D.

Lemma wp_seq2 {A B C} (c1 : M (fsst D) A) (c2 : M (fsst D) B) (k : M (fsst D) C) (Q : C -> fsst D -> Prop) f :
  wp (c1;; c2) (fun _ f' => wp k Q f') f -> wp (c1;; c2;; k) Q f.
Proof. intros H. apply wp_bind_inv in H. apply wp_bind. eapply wp_mono; [exact H|]. intros a f' H'. by apply wp_bind. Qed.

Lemma read_in_small f i n : pinv f -> read_in f i n -> 0 < n < 65536.
Proof.
  intros Inv (ip & Hi & Hr & <- & _). destruct (fi_ref f Inv i ip Hi Hr) as (_ & Ha & _).
  pose proof (alloc_range f _ Ha). pose proof (fi_small f Inv). lia.
Qed.

Lemma has_type f i n ip : pinv f -> has f i n ip -> i_type ip = T_DIR \/ i_type ip = T_FILE \/ i_type ip = T_DEV.
Proof.
  intros Inv (Hi & Hr & <- & Hv). destruct (fi_ref f Inv i ip Hi Hr) as (_ & Ha & Hag). rewrite <- (Hag Hv).
  exact (ii_type f _ (fi_ino f Inv _ Ha)).
Qed.

(** What create makes, before it has a name. *)
Definition new_node (type mj mn : Z) : node :=
  if type =? T_DIR then NDir [] else if type =? T_DEV then NDev mj mn else NFile [].

Definition with_dots (n m : Z) (x : node) : node := match x with NDir _ => NDir (dots n m) | _ => x end.

Section New.
Context (s0 : fsst D) (t : tree) (lk : Z -> Z) (m : Z) (sl : list (Z * name)) (nm : name) (type mj mn : Z).
Context (W : wf t lk) (Hm : named t lk m = true) (Hs : slots_of t m = Some sl) (Hf : find_name sl nm = None)
        (Hc : cname nm = nm) (Hb : Forall (fun b => 0 <= b < 256) nm) (Hlen : Z.of_nat (length sl) < MAXENTS)
        (Hty : type = T_DIR \/ type = T_FILE \/ type = T_DEV) (Hmj : s16_ok mj) (Hmn : s16_ok mn)
        (Hmax : type = T_DIR -> lk m < 32767).

(** The counts: one name for the new node, and its dots for the parent. *)
Definition new_lk (n : Z) : Z -> Z :=
  fun q => if q =? n then 1 else if (type =? T_DIR) && (q =? m) then lk m + 1 else lk q.

(** The dots of a new directory. *)
Lemma dots_wp f i j n N :
  t !! n = None -> 0 < n < 65536 -> 0 < m < 65536 -> got s0 f [n; m] [i; j] ->
  view f (<[n := new_node type mj mn]> t) (fupd lk n 1) -> read_in f i n -> read_in f j m -> (4 + N <= nfree f)%nat ->
  wp (if type =? T_DIR then
        upd_inode j (fun d => set_link (i_nlink d + 1) d);;
        iupdate j;;
        x <- inode_at i;;
        e <- dirlink i dot (i_inum x);;
        if e <? 0 then panic "create dots"
        else
          d <- inode_at j;;
          e <- dirlink i dotdot (i_inum d);;
          if e <? 0 then panic "create dots" else ret tt
      else ret tt)
     (fun _ f' => got s0 f' [n; m] [i; j] /\ (N <= nfree f')%nat /\ read_in f' i n /\ read_in f' j m /\
        view f' (<[n := with_dots n m (new_node type mj mn)]> t) (new_lk n)) f.
Proof.
  intros Hn Hn0 Hm0 G V Hi Hj Hfree. unfold new_lk, new_node in *. destruct (type =? T_DIR) eqn:Etd.
  2: { wp_steps. split; [done|]. split; [lia|]. split; [done|]. split; [done|]. cbn [andb].
       assert (E : with_dots n m (if type =? T_DEV then NDev mj mn else NFile []) =
                   if type =? T_DEV then NDev mj mn else NFile []) by (by destruct (type =? T_DEV)).
       rewrite E. eapply view_ext; [exact V|]. intros q _. done. }
  assert (Hmn' : m <> n) by (intros ->; apply slots_of_lookup in Hs; congruence).
  apply Z.eqb_eq in Etd. specialize (Hmax Etd). destruct (named_in t lk m Hm) as [_ Hp].
  assert (Elm : fupd lk n 1 m = lk m) by (unfold fupd; by destruct (Z.eqb_spec m n)).
  apply wp_seq2. eapply wp_mono; [apply (setlink_view s0 f [n; m] [i; j] j m (<[n := NDir []]> t) (fupd lk n 1) (lk m + 1)); [done|done|done|unfold s16_ok; lia|]|].
  { rewrite Elm. intros y Hy. apply set_link_eq; [done|unfold s16_ok; lia]. }
  intros _ f1 (G1 & V1 & Ef1 & K1). pose proof (proj2 (K1 i n) Hi) as Hi1. pose proof (proj2 (K1 j m) Hj) as Hj1.
  pose proof Hi1 as (ip & Hip & _ & Hin & _). wp_steps. eapply wp_inode_at; [done|]. rewrite Hin. wp_steps.
  eapply wp_mono; [apply (dirlink_new s0 f1 [n; m] [i; j] i n dot n (2 + N) _ _ [] G1 V1 Hi1); try done|].
  { by rewrite slots_of_insert, decide_True. } { repeat constructor; lia. } { lia. }
  intros e f2 (-> & G2 & HN2 & V2 & K2). cbn [Z.ltb Z.compare]. pose proof (proj2 (K2 j m) Hj1) as (jp & Hjp & _ & Hjn & _).
  wp_steps. eapply wp_inode_at; [done|]. rewrite Hjn. wp_steps.
  eapply wp_mono; [apply (dirlink_new s0 f2 [n; m] [i; j] i n dotdot m N _ _ [(n, dot)] G2 V2); try done|].
  { by apply K2. } { by rewrite slots_of_insert, decide_True. } { cbn [find_name]. by destruct (n =? 0). } { repeat constructor; lia. }
  intros e f3 (-> & G3 & HN3 & V3 & K3). cbn [Z.ltb Z.compare]. wp_steps. split; [done|]. split; [done|].
  split; [by apply K3, K2|]. split; [by apply K3, K2|].
  assert (Ed : add_name [(n, dot)] dotdot m = dots n m) by (cbn [add_name]; destruct (Z.eqb_spec n 0); [lia|done]).
  rewrite Ed, !insert_insert_eq in V3. eapply view_ext; [exact V3|]. intros q _. unfold fupd. cbn [andb].
  destruct (Z.eqb_spec q m) as [->|]; [by destruct (Z.eqb_spec m n)|done].
Qed.

Definition new_tree (n : Z) : tree := t_new t m n sl nm (new_node type mj mn).

(** create from the allocation on. *)
Definition create_new (dp : nat) : M (fsst D) (option nat) :=
  d <- inode_at dp;;
  ip <- ialloc (i_dev d) type;;
  ilock ip;;
  upd_inode ip (fun x => set_nlink 1 (set_dev_nums mj mn x));;
  iupdate ip;;
  (if type =? T_DIR then
     upd_inode dp (fun d => set_link (i_nlink d + 1) d);;
     iupdate dp;;
     x <- inode_at ip;;
     e <- dirlink ip dot (i_inum x);;
     if e <? 0 then panic "create dots"
     else
       d <- inode_at dp;;
       e <- dirlink ip dotdot (i_inum d);;
       if e <? 0 then panic "create dots" else ret tt
   else ret tt);;
  x <- inode_at ip;;
  e <- dirlink dp nm (i_inum x);;
  if e <? 0 then panic "create: dirlink"
  else iunlockput dp;; ret (Some ip).

Lemma with_nums_fresh : with_nums mj mn (fresh_node type) = new_node type mj mn.
Proof. unfold with_nums, fresh_node, new_node. destruct (type =? T_DIR); [done|]. by destruct (type =? T_DEV). Qed.

(** The new inode gets its numbers and its first link. *)
Lemma birth_wp f h i n :
  got s0 f [n; m] h -> view f (<[n := fresh_node type]> t) (fupd lk n 0) -> read_in f i n ->
  wp (upd_inode i (fun x => set_nlink 1 (set_dev_nums mj mn x));; iupdate i) (fun _ f' =>
    got s0 f' [n; m] h /\ view f' (<[n := new_node type mj mn]> t) (fupd lk n 1) /\ nfree f' = nfree f /\
    forall a q, (at_ino f a q -> at_ino f' a q) /\ (read_in f a q -> read_in f' a q)) f.
Proof.
  intros G V (ip & Hip). pose proof (g_inv _ _ _ _ G) as Inv. pose proof Hip as (Hi & Hr & Hn & Hv).
  destruct (valid_entry f i ip Inv Hi Hr Hv) as (_ & Hok & _). set (ip' := set_nlink 1 (set_dev_nums mj mn ip)).
  assert (C : same_content ip ip').
  { constructor; try done. apply ino_ok_set_nlink; [unfold s16_ok; lia|]. unfold ino_ok in *. simpl.
    destruct Hok as (?&?&?&?&?&?&?). done. }
  eapply wp_mono; [apply (wp_update s0 f [n; m] h i n ip ip' _ _ (fun x => set_nlink 1 (set_dev_nums mj mn x)) G Hip V eq_refl C)|].
  intros _ f' (G' & V' & Hh' & Ei & Ef). split; [done|].
  assert (En : node_of f ip = fresh_node type).
  { pose proof (has_node f i n ip Inv Hip) as E. rewrite (proj1 V), lookup_insert_eq in E. by injection E. }
  rewrite En in V'. change (with_nums (i_major ip') (i_minor ip') (fresh_node type)) with (with_nums mj mn (fresh_node type)) in V'.
  rewrite with_nums_fresh, insert_insert_eq in V'.
  split; [eapply view_ext; [exact V'|]; intros q _; unfold fupd; by destruct (q =? n)|]. split; [done|]. intros a q.
  split; [by apply (at_ino_entry f f' i ip ip')|]. intros (ap & Ha & Har & Hq & Hva). destruct (decide (a = i)) as [->|Hai].
  - rewrite Hi in Ha. injection Ha as <-. exists ip'. split; [apply Hh'|done].
  - exists ap. unfold has. by rewrite Ei, list_lookup_insert_ne.
Qed.

Lemma new_wf n : t !! n = None -> n <> 0 -> wf (new_tree n) (new_lk n).
Proof.
  intros Hn Hn0. unfold new_tree, t_new. set (x := with_dots n m (new_node type mj mn)).
  assert (Hnm : m <> n) by (intros ->; apply slots_of_lookup in Hs; congruence).
  assert (W0 : wf (<[n := x]> t) (fupd lk n 0)).
  { apply (wf_outside t lk _ _ n W).
    - intros k Hk. by rewrite lookup_insert_ne.
    - intros k Hk. unfold fupd. by destruct (Z.eqb_spec k n).
    - unfold named. by rewrite Hn.
    - unfold named, fupd. rewrite Z.eqb_refl. apply andb_false_r.
    - rewrite lookup_insert_ne by done. apply W. }
  assert (Hxd : is_dir x = (type =? T_DIR)).
  { unfold x, with_dots, new_node. destruct (type =? T_DIR); [done|]. by destruct (type =? T_DEV). }
  eapply wf_ext; [|apply (wf_add (<[n := x]> t) (fupd lk n 0) m sl nm n x W0)].
  - intros k _. unfold new_lk, add_lk, fupd. rewrite Hxd. destruct (Z.eqb_spec k n) as [->|].
    + destruct (Z.eqb_spec n m); [congruence|]. rewrite andb_false_r. lia.
    + destruct ((type =? T_DIR) && (k =? m)) eqn:E; [|lia]. apply andb_true_iff in E as [_ ->%Z.eqb_eq]. lia.
  - destruct (named_in t lk m Hm) as [Hin Hp]. unfold named, fupd. rewrite lookup_insert_ne, bool_decide_true by done.
    destruct (Z.eqb_spec m n); [done|]. by apply Z.ltb_lt.
  - by rewrite slots_of_insert, decide_False.
  - done.
  - by rewrite lookup_insert_eq.
  - intros Hd. split; [|unfold fupd; by rewrite Z.eqb_refl]. unfold x, with_dots, new_node in *. destruct (type =? T_DIR); [done|]. by destruct (type =? T_DEV).
  - unfold fupd. rewrite Z.eqb_refl. lia.
Qed.

Lemma new_named n : t !! n = None -> named (new_tree n) (new_lk n) n = true.
Proof.
  intros Hn. assert (Hnm : m <> n) by (intros ->; apply slots_of_lookup in Hs; congruence).
  unfold named, new_tree, t_new, new_lk. by rewrite lookup_insert_ne, lookup_insert_eq, Z.eqb_refl, bool_decide_true by done.
Qed.

Lemma create_new_wp f j :
  got s0 f [m] [j] -> view f t lk -> read_in f j m -> (1 < room (icache s0))%nat -> (6 <= nfree f)%nat ->
  (exists n, 0 < n < sb_ninodes (sb f) /\ t !! n = None) ->
  wp (create_new j) (fun r f' => exists i n, r = Some i /\ t !! n = None /\ got s0 f' [n] [i] /\ read_in f' i n /\
    view f' (new_tree n) (new_lk n) /\ wf (new_tree n) (new_lk n)) f.
Proof.
  intros G V Hj Hroom Hfree Hino. unfold create_new. pose proof Hj as (jp & Hjp). pose proof (g_inv _ _ _ _ G) as Inv.
  assert (Hm0 : 0 < m < 65536) by (by apply (read_in_small f j)).
  wp_steps. eapply wp_inode_at; [apply Hjp|]. rewrite (proj1 (fi_ref f Inv j jp (proj1 Hjp) (proj1 (proj2 Hjp)))). wp_steps.
  eapply wp_mono; [by apply (got_ialloc s0 f [m] [j] t lk type)|].
  intros i f1 (n & Hn0 & Hn & G1 & V1 & Hi1 & Ef1 & K1). wp_steps. pose proof (proj2 (K1 j m) Hj) as Hj1.
  assert (Hnm : n <> m) by (intros ->; apply slots_of_lookup in Hs; congruence).
  assert (Hij : i <> j).
  { intros ->. apply Hnm. apply (at_ino_inj f1 j); [done|]. apply read_in_at; [apply G1|done]. }
  eapply wp_mono; [by apply (lock_view s0 f1 [n; m] [j] i n _ _ G1 V1 Hi1); set_solver|].
  intros _ f2 (G2 & V2 & Hi2 & Hsd2 & _ & K2). pose proof (K2 j m Hj1) as Hj2.
  assert (Hn1 : 0 < n < 65536) by (apply (read_in_small f2 i); [apply G2|done]).
  apply wp_seq2. eapply wp_mono; [by apply (birth_wp f2 [i; j] i n)|]. intros _ f3 (G3 & V3 & Ef3 & K3). wp_steps.
  eapply wp_mono; [apply (dots_wp f3 i j n 2); try done; [by apply K3|by apply K3|]|].
  { rewrite Ef3, (nfree_same f1 f2), Ef1 by done. lia. }
  intros _ f4 (G4 & Hf4 & Hi4 & Hj4 & V4). pose proof Hi4 as (ip & Hip). wp_steps. eapply wp_inode_at; [apply Hip|].
  rewrite (proj1 (proj2 (proj2 Hip))). wp_steps.
  eapply wp_mono; [apply (dirlink_new s0 f4 [n; m] [i; j] j m nm n 0 _ _ sl G4 V4 Hj4); try done|].
  { by rewrite slots_of_insert, decide_False. }
  intros e f5 (-> & G5 & _ & V5 & K5). cbn [Z.ltb Z.compare]. wp_steps. fold (t_new t m n sl nm (new_node type mj mn)) in V5.
  fold (new_tree n) in V5. pose proof (new_wf n Hn ltac:(lia)) as W5.
  assert (G5' : got s0 f5 [m; n] [j; i]).
  { apply (got_held _ _ _ [i; j]); [|set_solver]. apply (got_perm _ _ _ _ _ G5). intros y. simpl. lia. }
  eapply wp_mono; [apply (unlockput_view s0 f5 [n] [i] j m _ _ G5' V5); [|set_solver|]|].
  - apply read_in_at; [apply G5|by apply K5].
  - unfold named, new_tree, t_new, new_lk. rewrite lookup_insert_eq, bool_decide_true by done. apply Z.ltb_lt.
    apply named_in in Hm as [_ Hp]. destruct (Z.eqb_spec m n); [lia|]. destruct (_ && _); lia.
  - intros _ f6 (G6 & V6 & _ & K6). wp_steps. exists i, n. split; [done|]. split; [done|]. split; [done|]. split; [|done].
    apply K6; [by apply K5|]. apply (got_pos _ _ _ _ _ G6). left.
Qed.
End New.

(** ** create as a call on the tree: the node it gives, and the tree *)
Definition t_creat (t : tree) (cwd : Z) (path : list Z) (i : Z) (x : node) : option (Z * tree) :=
  '(d, l, n) ← t_parent t cwd path;
  match find_name l n with
  | Some j => match x, t !! j with NFile _, Some (NFile _) => Some (j, t) | _, _ => None end
  | None => Some (i, t_new t d i l n x)
  end.

Lemma t_creat_file t cwd path i : t_creat t cwd path i (NFile []) = t_create t cwd path i.
Proof. done. Qed.

Lemma t_creat_make t cwd path i x : (forall data, x <> NFile data) ->
  t_creat t cwd path i x = (fun t' => (i, t')) <$> t_make t cwd path i x.
Proof.
  intros Hx. unfold t_creat, t_make. destruct (t_parent t cwd path) as [[[d l] n]|]; [|done]. simpl.
  destruct (find_name l n) as [j|]; [|done]. destruct x; [|done..]. by destruct (Hx data).
Qed.

Section Create.
Context (s0 f : fsst D) (w : nat) (d : Z) (path : list Z) (type mj mn : Z) (t : tree) (lk : Z -> Z).
Context (G : got s0 f [] []) (V : view f t lk) (W : wf t lk) (Hw : at_ino f w d) (Hd : named t lk d = true) (Hp : plain path)
        (Hty : type = T_DIR \/ type = T_FILE \/ type = T_DEV) (Hmj : s16_ok mj) (Hmn : s16_ok mn)
        (Hroom : (1 < room (icache s0))%nat) (Hfree : (6 <= nfree f)%nat)
        (Hino : exists n, 0 < n < sb_ninodes (sb f) /\ t !! n = None)
        (Hdir : forall m sl nm, t_parent t d path = Some (m, sl, nm) ->
                  Z.of_nat (length sl) < MAXENTS /\ (type = T_DIR -> lk m < 32767)).

(** [n0] is the number of the inode that is free. *)
Definition created (r : option nat) f' : Prop :=
  exists n0, t !! n0 = None /\
    match t_creat t d path n0 (new_node type mj mn) with
    | Some (n, t') => exists i lk', r = Some i /\ got s0 f' [n] [i] /\ read_in f' i n /\ view f' t' lk' /\ wf t' lk' /\
                      named t' lk' n = true
    | None => r = None /\ got s0 f' [] [] /\ view f' t lk
    end.

(** The name is there. *)
Lemma create_found f1 i j m sl nm n :
  t_parent t d path = Some (m, sl, nm) -> find_name sl nm = Some n -> named t lk m = true -> named t lk n = true ->
  got s0 f1 [n; m] [j] -> view f1 t lk -> at_ino f1 i n -> read_in f1 j m ->
  wp (iunlockput j;;
      ilock i;;
      x <- inode_at i;;
      if (type =? T_FILE) && (i_type x =? T_FILE) then ret (Some i)
      else iunlockput i;; ret None) created f1.
Proof.
  clear Hdir. intros Ep Ef Hm Hn G1 V1 Hi Hj. wp_steps.
  assert (G1' : got s0 f1 [m; n] [j]) by (apply (got_perm _ _ _ _ _ G1); intros y; simpl; lia).
  eapply wp_mono; [apply (unlockput_view s0 f1 [n] [] j m t lk G1' V1); [apply read_in_at; [apply G1|done]|set_solver|done]|].
  intros _ f2 (G2 & V2 & _ & K2). wp_steps.
  assert (Hi2 : at_ino f2 i n) by (apply K2; [done|apply (got_pos _ _ _ _ _ G2); left]).
  eapply wp_mono; [by apply (lock_view s0 f2 [n] [] i n t lk G2 V2 Hi2); set_solver|].
  intros _ f3 (G3 & V3 & Hi3 & _). pose proof Hi3 as (ip & Hip). wp_steps. eapply wp_inode_at; [apply Hip|].
  pose proof (has_node f3 i n ip (g_inv _ _ _ _ G3) Hip) as Hx. rewrite (proj1 V3) in Hx.
  assert (Ht : i_type ip = T_DIR \/ i_type ip = T_FILE \/ i_type ip = T_DEV) by (by apply (has_type f3 i n); [apply G3|]).
  destruct Hino as (z & _ & Hz). unfold created.
  destruct ((type =? T_FILE) && (i_type ip =? T_FILE)) eqn:E; wp_steps.
  - apply andb_true_iff in E as [->%Z.eqb_eq Hit%Z.eqb_eq]. exists z. split; [done|]. unfold t_creat. rewrite Ep. simpl. rewrite Ef.
    rewrite Hx. unfold node_of. rewrite Hit. simpl. by exists i, lk.
  - eapply wp_mono; [apply (unlockput_view s0 f3 [] [] i n t lk G3 V3); [apply read_in_at; [apply G3|done]|set_solver|done]|].
    intros _ f4 (G4 & V4 & _). wp_steps. exists z. split; [done|]. unfold t_creat. rewrite Ep. simpl. rewrite Ef, Hx.
    unfold new_node, node_of. apply andb_false_iff in E.
    destruct Hty as [->|[->| ->]], Ht as [Et|[Et|Et]]; rewrite Et in E |- *; simpl; try done. by destruct E.
Qed.

Lemma create_wp : wp (create w path type mj mn) created f.
Proof.
  pose proof (wf_twalk t lk W) as Htw. unfold create. wp_steps.
  eapply wp_mono; [by apply (nameiparent_view s0 f [] w d path t lk)|]. intros r f1 (Hsd1 & V1 & K1 & H1).
  destruct (t_parent t d path) as [[[m sl] nm]|] eqn:Ep.
  2: { destruct H1 as [-> G1]. wp_steps. destruct Hino as (z & _ & Hz). exists z. unfold t_creat. by rewrite Ep. }
  destruct H1 as (j & -> & G1 & Hj & Hm & Hs & Hc & Hb). wp_steps. destruct (Hdir m sl nm eq_refl) as [Hlen Hmax].
  eapply wp_mono; [by apply (lock_view s0 f1 [m] [] j m t lk G1 V1 Hj); set_solver|].
  intros _ f2 (G2 & V2 & Hj2 & Hsd2 & _). wp_steps.
  eapply wp_mono; [by apply (dirlookup_view s0 f2 [m] [j] j m nm t lk sl)|]. intros r f3 H3. cbv beta in H3.
  destruct (find_name sl nm) as [n|] eqn:Ef.
  - destruct H3 as (i & k & -> & G3 & V3 & _ & Hi3 & _ & K3). apply (create_found f3 i j m sl nm n); try done; [|by apply K3].
    apply find_name_elem in Ef as [He Hz]. by apply (tw_names t lk Htw m sl (n, nm)).
  - destruct H3 as [-> ->]. assert (Hsd : same_disk f f2) by (by eapply same_disk_trans).
    eapply wp_mono; [apply (create_new_wp s0 t lk m sl nm type mj mn W Hm Hs Ef Hc Hb Hlen Hty Hmj Hmn Hmax f2 j G2 V2 Hj2 Hroom)|].
    + by rewrite (nfree_same f f2).
    + apply same_disk_cache in Hsd as [lc ->]. exact Hino.
    + intros r f4 (i & n & -> & Hn & G4 & Hi4 & V4 & W4). exists n. split; [done|]. unfold t_creat. rewrite Ep. simpl. rewrite Ef.
      exists i, (new_lk lk m type n). split_and!; try done. by eapply new_named.
Qed.
End Create.
End FsCreate.

(** ** mkdir and mknod *)
Section Make.
Context {D : Type} `{DV : Devsw D} {LS : LinkSyms}.
Context (cur : nat).

#[local] Abbreviation kst := (pst (kern D)).
#[local] Abbreviation fs c := (call (onfs c)).

(** The arguments of a call are read in the same way inside a transaction. *)
Definition reads {A} (c : M kst A) : Prop :=
  forall s f a s', c s = Ret a s' -> s' = s /\ c (in_op f s) = Ret a (in_op f s).

Lemma reads_ret {A} (a : A) : reads (ret a).
Proof. intros s f b s' [= <- <-]. done. Qed.

Lemma reads_bind {A B} (c : M kst A) (k : A -> M kst B) : reads c -> (forall a, reads (k a)) -> reads (bind c k).
Proof.
  intros Hc Hk s f b s' E. unfold bind in E |- *. destruct (c s) as [a s1| | |] eqn:Ec; [|done..].
  destruct (Hc s f a s1 Ec) as [-> ->]. by apply Hk.
Qed.

Lemma reads_myproc : reads (myproc cur).
Proof.
  intros s f a s'. unfold myproc, proc_at, pget. rewrite !bind_gets. simpl. destruct (ptable (tab s) !! cur); [|done].
  intros [= <- <-]. done.
Qed.

Lemma reads_uload8 pgdir a : reads (call (uload8 pgdir a)).
Proof.
  intros s f b s'. unfold call, uload8. rewrite !bind_get. simpl. destruct (present _); [|done].
  intros [= <- <-]. by destruct s.
Qed.

Lemma call_bind {A B} (c : M (kern D) A) (k : A -> M (kern D) B) (s : kst) :
  call (bind c k) s = bind (call c) (fun a => call (k a)) s.
Proof. unfold call, bind. simpl. by destruct (c (env s)). Qed.

Lemma reads_ext {A} (c c' : M kst A) : (forall s, c s = c' s) -> reads c' -> reads c.
Proof. intros E R s f a s'. rewrite !E. apply R. Qed.

Lemma reads_uload pgdir n : forall a, reads (call (uload pgdir a n)).
Proof.
  induction n as [|n IH]; intros a; [intros s f b s' [= <- <-]; by destruct s|]. cbn [uload].
  eapply reads_ext; [intros s; apply call_bind|]. apply reads_bind; [apply reads_uload8|]. intros b.
  eapply reads_ext; [intros s; apply call_bind|]. apply reads_bind; [apply IH|]. intros l s f x s' [= <- <-]. by destruct s.
Qed.

Lemma reads_argint n : reads (argint cur n).
Proof.
  unfold argint, fetchint. apply reads_bind; [apply reads_myproc|]. intros p. apply reads_bind; [apply reads_myproc|]. intros q.
  destruct (_ || _); [apply reads_ret|]. apply reads_bind; [apply reads_uload|]. intros l. apply reads_ret.
Qed.

Lemma reads_argstr n : reads (argstr cur n).
Proof.
  unfold argstr, fetchstr. apply reads_bind; [apply reads_argint|]. intros [a|]; [|apply reads_ret].
  apply reads_bind; [apply reads_myproc|]. intros p. destruct (_ >=? _); [apply reads_ret|].
  generalize (u32 a) at 2. generalize (S (Z.to_nat (p_sz p - u32 a))). intros k. induction k as [|k IH]; intros x; [done|]. cbn [fetchstr_loop]. destruct (x <? _); [|apply reads_ret].
  apply reads_bind; [apply reads_uload8|]. intros b. destruct (b =? 0); [apply reads_ret|].
  apply reads_bind; [apply IH|]. intros r. apply reads_ret.
Qed.

Lemma wp_reads {A B} (c : M kst A) (k : A -> M kst B) Q s f a :
  reads c -> c s = Ret a s -> wp (k a) Q (in_op f s) -> wp (bind c k) Q (in_op f s).
Proof. intros R E H. apply wp_bind. eapply wp_intro; [apply (R s f a s E)|done]. Qed.

Lemma finish_create_wp s f r n t' lk' (Q : Z -> kst -> Prop) i :
  r = Some i -> got (fs_of s) f [n] [i] -> read_in f i n -> view f t' lk' -> wf t' lk' -> named t' lk' n = true ->
  (forall f', called s (put_fs f' s) t' -> Q 0 (put_fs f' s)) -> wp (finish_create r) Q (in_op f s).
Proof.
  intros -> G Hi V W Hn HQ. unfold finish_create. apply wp_bind, wp_op.
  eapply wp_mono; [apply (unlockput_view (fs_of s) f [] [] i n t' lk' G V); [apply read_in_at; [apply G|done]|set_solver|done]|].
  intros _ f1 (G1 & V1 & _). apply (wp_finish Q s (fs_of s) f1 [] [] t' lk' 0); [done|done|]. intros f' G' V'.
  apply HQ. by eapply called_intro.
Qed.

(** What create needs: an entry of the cache, blocks for three directory entries, a
    free inode, and room for a name and a count in the directory. *)
Record can_create (s : kst) (d : Z) (path : list Z) (type : Z) : Prop := mkCan {
  cc_path : plain path;
  cc_room : (1 < room (icache (fs_of s)))%nat;
  cc_free : (6 <= nfree (fs_of s))%nat;
  cc_ino : exists n, 0 < n < sb_ninodes (sb (fs_of s)) /\ tree_of (fs_of s) !! n = None;
  cc_dir : forall m sl nm, t_parent (tree_of (fs_of s)) d path = Some (m, sl, nm) ->
             Z.of_nat (length sl) < MAXENTS /\ (type = T_DIR -> nlink_of (fs_of s) m < 32767)
}.

Lemma create_op s w d path type mj mn :
  caller cur s w d -> can_create s d path type -> type = T_DIR \/ type = T_FILE \/ type = T_DEV -> s16_ok mj -> s16_ok mn ->
  wp (create w path type mj mn)
    (created (fs_of s) d path type mj mn (tree_of (fs_of s)) (nlink_of (fs_of s))) (fs_of s).
Proof.
  intros [_ Inv W Hidle Hat Hd] [Hp Hr Hf Hi Hdir] Hty Hmj Hmn.
  apply create_wp; try done; [by apply got_start|]. by rewrite <- (view_linked _ _ _ d (view_start (fs_of s))).
Qed.

Lemma make_wp s w d path type mj mn :
  caller cur s w d -> can_create s d path type -> type = T_DIR \/ type = T_DEV -> s16_ok mj -> s16_ok mn ->
  wp (r <- fs (create w path type mj mn);; finish_create r) (fun r s' => exists n, tree_of (fs_of s) !! n = None /\
    match t_make (tree_of (fs_of s)) d path n (new_node type mj mn) with
    | Some t' => r = 0 /\ called s s' t'
    | None => r = -1 /\ called s s' (tree_of (fs_of s))
    end) (in_op (fs_of s) s).
Proof.
  intros C CC Hty Hmj Hmn. apply wp_bind, wp_op.
  eapply wp_mono; [apply (create_op s w d path type mj mn C CC); [naive_solver|done|done]|].
  intros r f1 (n & Hn & H). rewrite t_creat_make in H by (intros data; destruct Hty as [-> | ->]; done).
  destruct (t_make _ _ _ _ _) as [t'|] eqn:Et; simpl in H.
  - destruct H as (i & lk' & Hr & G & Hi & V & W & Hnn). apply (finish_create_wp s f1 r n t' lk' _ i); try done.
    intros f' Hc. exists n. split; [done|]. by rewrite Et.
  - destruct H as (-> & G & V). unfold finish_create. apply (wp_finish _ s (fs_of s) f1 [] [] _ _ (-1) G V). intros f' G' V'.
    exists n. split; [done|]. rewrite Et. split; [done|]. eapply called_intro; [done|done|apply C].
Qed.

Lemma s16_range x : s16_ok (s16 x).
Proof. unfold s16_ok, s16. pose proof (Z.mod_pos_bound x 65536 ltac:(lia)). destruct (Z.ltb_spec (x mod 65536) 32768); lia. Qed.

(** C5.  mkdir and mknod do what the tree of names says.  With a free inode, six free
    blocks and a directory that can grow, sys_mkdir returns 0 and leaves the tree with
    a new directory, its dots in it, under the name, and sys_mknod the tree with a new
    device of the numbers, as signed 16-bit values; both return -1 and leave the tree
    as it was when the directory is not there or the name is taken.  The number of the
    new node is one that was free.  Nothing of the kernel but the file system changes,
    the references and the locks are as they were, and the tree is well formed, with
    the link of the dots in the count of the parent. *)
Theorem make_correct s w d path mj mn (C : caller cur s w d) (Ha : argstr cur 0 s = Ret (Some path) s) :
  (can_create s d path T_DIR ->
   wp (sys_mkdir cur) (fun r s' => exists n, tree_of (fs_of s) !! n = None /\
     match t_make (tree_of (fs_of s)) d path n (NDir []) with
     | Some t' => r = 0 /\ called s s' t'
     | None => r = -1 /\ called s s' (tree_of (fs_of s))
     end) s) /\
  (can_create s d path T_DEV -> argint cur 1 s = Ret (Some mj) s -> argint cur 2 s = Ret (Some mn) s ->
   wp (sys_mknod cur) (fun r s' => exists n, tree_of (fs_of s) !! n = None /\
     match t_make (tree_of (fs_of s)) d path n (NDev (s16 mj) (s16 mn)) with
     | Some t' => r = 0 /\ called s s' t'
     | None => r = -1 /\ called s s' (tree_of (fs_of s))
     end) s).
Proof.
  split.
  - intros CC. unfold sys_mkdir. apply wp_begin. apply (wp_reads _ _ _ _ _ _ (reads_argstr 0) Ha).
    apply wp_bind, (wp_mycwd cur _ _ _ _ w d C). apply wp_bind_inv.
    apply (make_wp s w d path T_DIR 0 0 C CC); [by left|unfold s16_ok; lia..].
  - intros CC H1 H2. unfold sys_mknod. apply wp_begin. apply (wp_reads _ _ _ _ _ _ (reads_argstr 0) Ha).
    apply (wp_reads _ _ _ _ _ _ (reads_argint 1) H1). apply (wp_reads _ _ _ _ _ _ (reads_argint 2) H2).
    apply wp_bind, (wp_mycwd cur _ _ _ _ w d C). apply wp_bind_inv.
    apply (make_wp s w d path T_DEV (s16 mj) (s16 mn) C CC); [by right|apply s16_range..].
Qed.
End Make.

(** ** Witnesses: the small file system *)
#[local] Existing Instance no_device.
#[local] Existing Instance example_syms.

Lemma small_can a b c type : can_create (small_pst a b c) 1 [103] type.
Proof.
  constructor; [by apply small_plain|vm_compute; lia|vm_compute; lia| |].
  - exists 3. split; [split; vm_compute; reflexivity|]. vm_compute. reflexivity.
  - change (fs_of (small_pst a b c)) with small_fs. rewrite small_tree_of. intros m sl nm (-> & -> & ->)%small_parent.
    split; [vm_compute; reflexivity|]. intros _. rewrite small_nlink; [lia|vm_compute; reflexivity].
Qed.

(** A node made under the name g. *)
Lemma small_make n x : t_make small_tree 1 [103] n x = Some (t_new small_tree 1 n (dots 1 1 ++ [(2, [102])]) [103] x).
Proof.
  unfold t_make. assert (E : t_parent small_tree 1 [103] = Some (1, dots 1 1 ++ [(2, [102])], [103])) by (vm_compute; reflexivity).
  by rewrite E.
Qed.

(** mkdir of g, and mknod of g with the numbers 1 and 1. *)
Lemma make_correct_witness :
  let made x s' := exists n, small_tree !! n = None /\
    tree_of (fs_of s') = t_new small_tree 1 n (dots 1 1 ++ [(2, [102])]) [103] x in
  wp (sys_mkdir 0) (fun r s' => r = 0 /\ made (NDir []) s') (small_pst 18 1 1) /\
  wp (sys_mknod 0) (fun r s' => r = 0 /\ made (NDev 1 1) s') (small_pst 18 1 1).
Proof.
  destruct (make_correct 0 (small_pst 18 1 1) 0 1 [103] 1 1 (small_caller 18 1 1) ltac:(vm_compute; reflexivity)) as [H1 H2].
  specialize (H1 (small_can 18 1 1 T_DIR)).
  specialize (H2 (small_can 18 1 1 T_DEV) ltac:(vm_compute; reflexivity) ltac:(vm_compute; reflexivity)).
  change (fs_of (small_pst 18 1 1)) with small_fs in H1, H2. rewrite small_tree_of in H1, H2.
  split; [eapply wp_mono; [exact H1|]|eapply wp_mono; [exact H2|]]; intros r s' (n & Hn & H'); rewrite small_make in H';
    destruct H' as [-> [_ _ Ht _]]; (split; [reflexivity|]); exists n; (split; [exact Hn|exact Ht]).
Defined.
