(* ===== verification/FsOpen.v ===== *)
(** * open and chdir as calls on the tree (sysfile.c)

    open finds or makes a node and gives the process a descriptor for it; chdir moves
    the process to another directory of the tree. *)

From stdpp Require Import base numbers list gmap strings.
From Stdlib Require Import ZArith Lia Bool.
From S2P Require Import Prelude Block Mem Mmu Kalloc Vm Fs FsAlloc FsFile FsRw FsInode FsTrunc FsDir Proc File Syscall Exec Sysfile SysRefs.
From S2P Require Import Tree TreeInv FsTree FsNames FsDemo FsCalls FsCreate.

Local Open Scope Z_scope.
Local Open Scope kernel_scope.

Section FsOpen.
Context {D : Type} `{DV : Devsw D} {LS : LinkSyms}.
Context (cur : nat).

#[local] Abbreviation kst := (pst (kern D)).
#[local] Abbreviation fs c := (call (onfs c)).

(** ** The inode that open works on *)

(** [n0] is the number of a free inode. *)
Definition opened_ino (s0 : fsst D) (t : tree) (lk : Z -> Z) (d : Z) (path : list Z) (omode n0 : Z) (r : option nat) (f : fsst D) : Prop :=
  match t_open t d path omode n0 with
  | Some (n, t') => exists i lk', r = Some i /\ got s0 f [n] [i] /\ read_in f i n /\ view f t' lk' /\ wf t' lk' /\ named t' lk' n = true
  | None => r = None /\ got s0 f [] [] /\ view f t lk
  end.

Lemma open_inode_wp (s : kst) w d path omode :
  caller cur s w d -> plain path -> (1 < room (icache (fs_of s)))%nat ->
  (Z.land omode O_CREATE <> 0 -> can_create s d path T_FILE) ->
  wp (open_inode w path omode) (fun r f => exists n0, (Z.land omode O_CREATE <> 0 -> tree_of (fs_of s) !! n0 = None) /\
    opened_ino (fs_of s) (tree_of (fs_of s)) (nlink_of (fs_of s)) d path omode n0 r f) (fs_of s).
Proof.
  intros C Hp Hroom CC. pose proof C as [_ Inv W Hidle Hat Hd]. set (f := fs_of s) in *. set (t := tree_of f) in *. set (lk := nlink_of f) in *.
  pose proof (got_start f Inv Hidle) as G. pose proof (view_start f) as V. fold t lk in V.
  assert (Hdn : named t lk d = true) by (by rewrite <- (view_linked f t lk)).
  unfold open_inode, opened_ino, t_open. destruct (Z.eqb_spec (Z.land omode O_CREATE) 0) as [E0|E0]; cbn [negb].
  2: { specialize (CC E0). eapply wp_mono; [apply (create_op cur s w d path T_FILE 0 0 C CC); [naive_solver|unfold s16_ok; lia..]|].
       intros r f1 (n & Hn & H). exists n. split; [done|]. by rewrite <- t_creat_file. }
  wp_steps. eapply wp_mono; [by apply (namei_view f f [] w d path t lk G V (wf_twalk t lk W))|].
  intros r f1 (_ & V1 & K1 & H1). destruct (t_namei t d path) as [n|]; simpl.
  2: { destruct H1 as [-> G1]. wp_steps. by exists 0. }
  destruct H1 as (i & -> & G1 & Hi & Hn). wp_steps.
  eapply wp_mono; [by apply (lock_view f f1 [n] [] i n t lk G1 V1 Hi); set_solver|].
  intros _ f2 (G2 & V2 & Hi2 & _). pose proof Hi2 as (ip & Hip). wp_steps. eapply wp_inode_at; [apply Hip|].
  assert (Hs : slots_of t n = if i_type ip =? T_DIR then Some (slots f2 ip) else None).
  { destruct Hip as (Hil & Hir & Hin & Hiv). rewrite <- (proj1 V2), <- Hin. by apply (valid_dir f2 i ip); [apply G2|..]. }
  destruct (i_type ip =? T_DIR); cbn [andb].
  - rewrite decide_True by (by rewrite Hs). destruct (omode =? O_RDONLY); cbn [negb]; wp_steps.
    + exists 0. split; [done|]. by exists i, lk.
    + eapply wp_mono; [apply (unlockput_view f f2 [] [] i n t lk G2 V2); [apply read_in_at; [apply G2|done]|set_solver|done]|].
      intros _ f3 (G3 & V3 & _). wp_steps. by exists 0.
  - rewrite decide_False by (rewrite Hs; by intros []). wp_steps. exists 0. split; [done|]. by exists i, lk.
Qed.

(** ** Files and descriptors *)
Definition put_files (l : list file) (s : kst) : kst := mkPst (tab s) (set_ftable l (env s)).
Definition put_fd (fd fi : nat) (s : kst) : kst := mkPst (upd_proc cur (set_fd fd (Some fi)) (tab s)) (env s).

Lemma first_free_file l i : first_free l 0 = Some i -> exists x, l !! i = Some x /\ f_ref x = 0.
Proof. intros (_ & x & Hx & Hr)%first_free_ref. rewrite Nat.sub_0_r in Hx. by exists x. Qed.

(** filealloc takes the first file of the table that is free. *)
Lemma wp_filealloc (Q : option nat -> kst -> Prop) f s :
  (match first_free (ftable (env s)) 0 with
   | None => Q None (in_op f s)
   | Some i => forall x, ftable (env s) !! i = Some x -> f_ref x = 0 ->
                 Q (Some i) (in_op f (put_files (<[i := set_fref 1 x]> (ftable (env s))) s))
   end) -> wp (call filealloc) Q (in_op f s).
Proof.
  intros H. unfold wp, call, filealloc. rewrite bind_get. simpl. destruct (first_free (ftable (env s)) 0) as [i|] eqn:E; [|done].
  destruct (first_free_file _ _ E) as (x & Hx & Hr). unfold upd_file, file_at, bind, get, modify. simpl. rewrite Hx. simpl. by apply H.
Qed.

Lemma wp_fdalloc (Q : option nat -> kst -> Prop) f s fi p :
  ptable (tab s) !! cur = Some p ->
  (match first_fd (p_ofile p) 0 with
   | None => Q None (in_op f s)
   | Some fd => Q (Some fd) (in_op f (put_fd fd fi s))
   end) -> wp (fdalloc cur fi) Q (in_op f s).
Proof.
  intros Hp H. unfold fdalloc, myproc, proc_at, pget. wp_steps. simpl. rewrite Hp. wp_steps.
  destruct (first_fd (p_ofile p) 0) as [fd|]; by wp_steps.
Qed.

(** Closing a file that was just taken: the table is as before. *)
Lemma wp_fileclose (Q : unit -> kst -> Prop) f s i x :
  ftable (env s) !! i = Some x -> f_ref x = 0 -> f_type x = FD_NONE -> Q tt (in_op f s) ->
  wp (call (fileclose i)) Q (in_op f (put_files (<[i := set_fref 1 x]> (ftable (env s))) s)).
Proof.
  intros Hi Hr Ht HQ. assert (Hlt : (i < length (ftable (env s)))%nat) by (by eapply lookup_lt_Some).
  unfold wp, call, fileclose, upd_file, file_at, bind, get, modify. simpl. rewrite list_lookup_insert_eq by done. simpl.
  rewrite !list_lookup_insert_eq by (by rewrite ?length_insert). simpl.
  rewrite !list_lookup_insert_eq by (by rewrite ?length_insert). simpl. rewrite Ht. simpl.
  assert (Ex : set_ftype FD_NONE (set_fref 0 (set_fref (1 - 1) (set_fref 1 x))) = x) by (destruct x; simpl in *; by subst).
  rewrite !list_lookup_insert_eq by (by rewrite ?length_insert). simpl. rewrite !list_insert_insert_eq, Ex, list_insert_id by done.
  by destruct s as [tb []].
Qed.

(** ** open *)

(** After open: descriptor [fd] of the process is the file [fi], open on entry [i]
    of the cache, which is inode [n] and has one reference more; the tree is [t']. *)
Record opened (s s' : kst) (omode : Z) (fd fi : nat) (n : Z) (t' : tree) : Prop := mkOpened {
  op_rest : exists x i, ftable (env s) !! fi = Some x /\ f_ref x = 0 /\ at_ino (fs_of s') i n /\
    s' = put_fs (fs_of s') (put_fd fd fi (put_files (<[fi := open_file i omode (set_fref 1 x)]> (ftable (env s))) s));
  op_got : got (fs_of s) (fs_of s') [n] [];
  op_tree : tree_of (fs_of s') = t';
  op_wf : wf (tree_of (fs_of s')) (nlink_of (fs_of s'))
}.

(** The end of open, with the inode in hand. *)
Definition open_finish (ip : nat) (omode : Z) : M kst Z :=
  f <- call filealloc;;
  fd <- match f with Some f => fdalloc cur f | None => ret None end;;
  match f, fd with
  | Some f, Some fd =>
      fs (iunlock ip);;
      call end_op;;
      call (upd_file f (open_file ip omode));;
      ret (Z.of_nat fd)
  | _, _ =>
      call (close_opt f);;
      fs (iunlockput ip);;
      call end_op;;
      ret (-1)
  end.

Section Finish.
Context (s : kst) (f : fsst D) (i : nat) (n : Z) (t' : tree) (lk' : Z -> Z).
Context (G : got (fs_of s) f [n] [i]) (Hi : read_in f i n) (V : view f t' lk') (W : wf t' lk') (Hn : named t' lk' n = true).

(** No file or no descriptor: the inode is put. *)
Lemma open_full : wp (fs (iunlockput i);; call end_op;; ret (-1)) (fun r s' => r = -1 /\ called s s' t') (in_op f s).
Proof.
  apply wp_bind, wp_op.
  eapply wp_mono; [apply (unlockput_view (fs_of s) f [] [] i n t' lk' G V); [apply read_in_at; [apply G|done]|set_solver|done]|].
  intros _ f1 (G1 & V1 & _). apply (wp_finish _ s (fs_of s) f1 [] [] t' lk' (-1)); [done|done|]. intros f' G' V'.
  split; [done|]. by eapply called_intro.
Qed.

Context (p : proc) (omode : Z) (Hp : ptable (tab s) !! cur = Some p)
        (Hft : Forall (fun x => f_ref x = 0 -> f_type x = FD_NONE) (ftable (env s))).

Lemma open_finish_wp : wp (open_finish i omode) (fun r s' =>
  match first_free (ftable (env s)) 0, first_fd (p_ofile p) 0 with
  | Some fi, Some fd => r = Z.of_nat fd /\ opened s s' omode fd fi n t'
  | _, _ => r = -1 /\ called s s' t'
  end) (in_op f s).
Proof.
  unfold open_finish. apply wp_bind, wp_filealloc. destruct (first_free (ftable (env s)) 0) as [fi|] eqn:Ef.
  2: { wp_steps. exact open_full. }
  intros x Hx Hr. apply wp_bind. apply (wp_fdalloc _ _ _ fi p); [done|]. destruct (first_fd (p_ofile p) 0) as [fd|].
  2: { apply wp_bind. unfold close_opt. apply wp_fileclose; [done|done| |exact open_full].
       rewrite Forall_lookup in Hft. by apply (Hft fi). }
  apply wp_bind, wp_op. eapply wp_mono; [apply (got_iunlock (fs_of s) f [n] [] i n G); [apply read_in_at; [apply G|done]|set_solver]|].
  intros _ f1 [G1 C1]. assert (V1 : view f1 t' lk') by (eapply view_same; [apply C1|done]).
  assert (Hi1 : at_ino f1 i n) by (apply (cstep_keep (fs_of s) f f1 [n] [i] []); [done..|apply read_in_at; [apply G|done]]).
  apply wp_bind. eapply wp_end; [done|done|]. intros f' G' V' Ei. apply wp_bind.
  assert (Hlt : (fi < length (ftable (env s)))%nat) by (by eapply lookup_lt_Some).
  eapply wp_intro; [unfold call, upd_file, file_at, bind, get, modify; simpl; rewrite list_lookup_insert_eq by done; reflexivity|].
  apply wp_ret. split; [done|]. constructor; [|done|apply V'|by apply (view_wf f' t' lk')].
  exists x, i. split; [done|]. split; [done|]. 
  split; [destruct Hi1 as (y & Hy & Hy'); exists y; split; [change (icache f' !! i = Some y); by rewrite Ei|done]|].
  simpl. by rewrite list_insert_insert_eq.
Qed.
End Finish.


(** ** chdir *)

(** A reference that was there before counts like one that was taken since. *)
Definition less (w : nat) (f : fsst D) : fsst D :=
  match icache f !! w with Some x => set_ino w (set_ref (i_ref x - 1) x) f | None => f end.

Lemma got_less s0 f l h w d : at_ino s0 w d -> got s0 f l h -> got (less w s0) f (d :: l) h.
Proof.
  intros (x & Hx & Hr & Hd & Hn) [B I R K H L]. unfold less. rewrite Hx.
  assert (E : forall m, refs s0 m = refs (set_ino w (set_ref (i_ref x - 1) x) s0) m + if d =? m then 1 else 0).
  { intros m. unfold refs. simpl. rewrite (refcnt_insert _ _ x) by done. unfold is_ino. simpl. rewrite Hd, Hn, Z.eqb_refl. cbn [andb].
    destruct (d =? m); lia. }
  constructor; [|done| | |done|by simpl; rewrite length_insert].
  - simpl. by apply (icache_ok_same _ w x); simpl; [..|lia|lia| |].
  - intros m. rewrite R, E. simpl. lia.
  - intros j m (y & Hy & Hyr & Hyd & Hyn). apply K. simpl in Hy. destruct (decide (j = w)) as [->|].
    + rewrite list_lookup_insert_eq in Hy by (by eapply lookup_lt_Some). injection Hy as <-. by exists x.
    + rewrite list_lookup_insert_ne in Hy by done. by exists y.
Qed.

(** After chdir: the directory of the process is inode [n], entry [i] of the cache,
    which has a reference more, and [d] has one less. *)
Record moved (s s' : kst) (d n : Z) : Prop := mkMoved {
  mv_caller : exists i, caller cur s' i n /\ s' = put_fs (fs_of s') (mkPst (upd_proc cur (set_cwd (Some i)) (tab s)) (env s));
  mv_tree : tree_of (fs_of s') = tree_of (fs_of s);
  mv_refs : forall m, refs (fs_of s') m = refs (fs_of s) m + (if n =? m then 1 else 0) - (if d =? m then 1 else 0)
}.

Lemma moved_intro s w d f n i :
  caller cur s w d -> got (less w (fs_of s)) f [n] [] -> view f (tree_of (fs_of s)) (nlink_of (fs_of s)) -> at_ino f i n ->
  named (tree_of (fs_of s)) (nlink_of (fs_of s)) n = true ->
  moved s (mkPst (upd_proc cur (set_cwd (Some i)) (tab s)) (set_fsys f (env s))) d n.
Proof.
  intros [(p & Hp & _) Inv W Hidle Hat Hd] G V Hi Hn. constructor.
  - exists i. split; [|by destruct s as [tb []]]. constructor; [|apply G| |by apply G|done|].
    + exists (set_cwd (Some i) p). simpl. by rewrite list_lookup_alter_eq, Hp.
    + by apply (view_wf f _ _ V).
    + change (linked f n = true). by rewrite (view_linked f _ _ n V).
  - apply V.
  - intros m. pose proof (g_refs _ _ _ _ G m) as E. simpl in E.
    pose proof (g_refs _ _ _ _ (got_less _ _ _ _ w d Hat (got_start _ Inv Hidle)) m) as E0. simpl in E0.
    change (refs f m = refs (fs_of s) m + (if n =? m then 1 else 0) - (if d =? m then 1 else 0)). lia.
Qed.

(** C7.  chdir does what the tree of names says.  When the path leads to a directory,
    sys_chdir returns 0, the process has that directory as its current one, with a
    reference more, and the old one has a reference less; otherwise it returns -1 and
    nothing changes but the cache.  The tree is the same, no lock is held, and the
    process may make its next call. *)
Theorem sys_chdir_correct s w d path
    (C : caller cur s w d) (Ha : argstr cur 0 s = Ret (Some path) s) (Hp : plain path) (Hroom : (1 < room (icache (fs_of s)))%nat) :
  wp (sys_chdir cur) (fun r s' =>
    match t_chdir (tree_of (fs_of s)) d path with
    | Some n => r = 0 /\ moved s s' d n
    | None => r = -1 /\ called s s' (tree_of (fs_of s))
    end) s.
Proof.
  pose proof C as [_ Inv W Hidle Hat Hd]. set (f := fs_of s) in *. set (t := tree_of f) in *. set (lk := nlink_of f) in *.
  pose proof (got_start f Inv Hidle) as G. pose proof (view_start f) as V. fold t lk in V.
  assert (Hdn : named t lk d = true) by (by rewrite <- (view_linked f t lk)).
  unfold sys_chdir, t_chdir. apply wp_begin. apply (wp_reads _ _ _ _ _ _ (reads_argstr cur 0) Ha). apply wp_bind.
  apply (wp_mycwd cur _ _ _ _ w d C). apply wp_op. eapply wp_mono; [by apply (namei_view f f [] w d path t lk G V (wf_twalk t lk W))|].
  intros r f1 (_ & V1 & K1 & H1). destruct (t_namei t d path) as [n|]; simpl.
  2: { destruct H1 as [-> G1]. apply (wp_finish _ s f f1 [] [] t lk); [done|done|]. intros f' G' V'. split; [done|]. by eapply called_intro. }
  destruct H1 as (i & -> & G1 & Hi & Hn). apply wp_bind, wp_op.
  eapply wp_mono; [by apply (lock_view f f1 [n] [] i n t lk G1 V1 Hi); set_solver|].
  intros _ f2 (G2 & V2 & Hi2 & _ & K2 & _). pose proof Hi2 as (ip & Hip). apply wp_bind, wp_op. eapply wp_inode_at; [apply Hip|].
  assert (Hs : slots_of t n = if i_type ip =? T_DIR then Some (slots f2 ip) else None).
  { destruct Hip as (Hil & Hir & Hin & Hiv). rewrite <- (proj1 V2), <- Hin. by apply (valid_dir f2 i ip); [apply G2|..]. }
  destruct (i_type ip =? T_DIR); cbn [negb].
  2: { rewrite decide_False by (rewrite Hs; by intros []). by apply (open_full s f2 i n t lk). }
  rewrite decide_True by (by rewrite Hs). apply wp_bind, wp_op.
  eapply wp_mono; [apply (got_iunlock f f2 [n] [] i n G2); [apply read_in_at; [apply G2|done]|set_solver]|].
  intros _ f3 [G3 C3]. assert (V3 : view f3 t lk) by (eapply view_same; [apply C3|done]).
  assert (K3 : forall j m, at_ino f2 j m -> at_ino f3 j m) by (intros j m; by apply (cstep_keep f f2 f3 [n] [i] [])).
  pose proof (got_less f f3 [n] [] w d Hat G3) as G4. apply (wp_mycwd cur _ _ _ _ w d C). apply wp_bind, wp_op.
  eapply wp_mono; [apply (got_iput (less w f) f3 [n] [] w d G4); [by apply K3, K2, K1|set_solver|left]|].
  { apply linked_alloc. by rewrite (view_linked f3 t lk). }
  intros _ f5 [G5 C5]. assert (V5 : view f5 t lk) by (eapply view_same; [apply C5|done]).
  assert (Hi5 : at_ino f5 i n).
  { apply C5; [apply K3, read_in_at; [apply G2|done]|]. apply (got_pos _ _ _ _ _ G5). left. }
  apply wp_bind. eapply wp_end; [done|done|]. intros f' G' V' Ei. wp_steps. split; [done|]. apply (moved_intro s w d f' n i); try done.
  destruct Hi5 as (y & Hy & Hy'). exists y. by rewrite Ei.
Qed.
End FsOpen.

(** ** Witnesses: the small file system *)
#[local] Existing Instance no_device.
#[local] Existing Instance example_syms.


(** chdir to the root directory. *)
Lemma sys_chdir_correct_witness :
  wp (sys_chdir 0) (fun r s' => r = 0 /\ moved 0 (small_pst 20 0 0) s' 1 1) (small_pst 20 0 0).
Proof.
  pose proof (sys_chdir_correct 0 (small_pst 20 0 0) 0 1 [47] (small_caller 20 0 0) ltac:(vm_compute; reflexivity)
    (small_plain 47 ltac:(lia)) ltac:(vm_compute; lia)) as H.
  change (fs_of (small_pst 20 0 0)) with small_fs in H. rewrite small_tree_of in H.
  eapply wp_mono; [exact H|]. intros r s' H'.
  assert (E : t_chdir small_tree 1 [47] = Some 1) by (vm_compute; reflexivity). rewrite E in H'. exact H'.
Defined.

(** ** A file in a directory that is gone *)

(** The memory of the process, with other arguments, and the string /g at 24. *)
Definition with_args (a b c : Z) (s : pst (kern unit)) : pst (kern unit) :=
  mkPst (tab s) (set_kmem (mkKstate (store_bytes (small_mem a b c) (P2V 4202496 + 24) [47; 103; 0; 0]) 0 false false) (env s)).

Definition lost_start : pst (kern unit) :=
  mkPst (mkPtab [set_sz 28 small_proc] [Some 0%nat] (Some 0%nat) 2) (small_kern 0 0 0).

(** mkdir g, chdir g, unlink /g, open f with O_CREATE, close, chdir /. *)
Definition lost_calls : M (pst (kern unit)) (list Z) :=
  modify (with_args 18 0 0);;
  r1 <- sys_mkdir 0;;
  r2 <- sys_chdir 0;;
  modify (with_args 24 0 0);;
  r3 <- sys_unlink 0;;
  modify (with_args 16 513 0);;
  r4 <- sys_open 0;;
  modify (with_args 0 0 0);;
  r5 <- sys_close 0;;
  modify (with_args 20 0 0);;
  r6 <- sys_chdir 0;;
  ret [r1; r2; r3; r4; r5; r6].

(** What the calls return, the nodes that are left, and the links of inode 4: its
    count, and the names that lead to it. *)
Definition report (o : outcome (pst (kern unit)) (list Z)) : option (list Z * tree * Z * Z) :=
  match o with
  | Ret l s => let f := fs_of s in Some (l, tree_of f, nlink_of f 4, links (tree_of f) (nlink_of f) 4)
  | _ => None
  end.

