(* ===== verification/Unix.v ===== *)
(** * A specification of the system calls

    What user programs may expect of the kernel, as a machine: processes that run
    their programs (User.v) over a tree of names (Tree.v), open files that processes
    share, pipes, and memory by the page.  A step is one event of one process;
    which process goes next is free.  [None] is a process that cannot go on now. *)

From stdpp Require Import base numbers list gmap strings sorting.
From Stdlib Require Import ZArith Lia.
From S2P Require Import Prelude Mmu Ulib Block Fs Sysfile User Tree.
From ITree Require Import ITree.

Local Open Scope Z_scope.

(** ** The state *)
Inductive ofile :=
| OFile (inum off : Z) (readable writable : bool)
| OPipe (id : nat) (writable : bool).

(** A process: its program, the open files of its descriptors, its directory, its
    parent, its memory (the size, and the bytes that are not 0). *)
Record proc := mkProc {
  p_prog : prog unit; p_fds : gmap Z nat; p_cwd : Z; p_parent : Z;
  p_size : Z; p_mem : gmap Z Z; p_killed : bool; p_zombie : bool
}.

Record world := mkWorld {
  w_tree : tree; w_files : gmap nat ofile; w_pipes : gmap nat (list Z);
  w_procs : gmap Z proc; w_next : Z;    (* numbers above it are new *)
  w_pages : Z;                          (* free pages of memory *)
  w_out : list Z                        (* what was written to devices *)
}.

Definition NPROC : Z := 64.
Definition NOFILE : Z := 16.
Definition PIPESIZE : nat := 512.
Definition pages (sz : Z) : Z := (sz + 4095) / 4096.

Definition set_prog (t : prog unit) (p : proc) : proc :=
  mkProc t (p_fds p) (p_cwd p) (p_parent p) (p_size p) (p_mem p) (p_killed p) (p_zombie p).
Definition set_fds (f : gmap Z nat) (p : proc) : proc :=
  mkProc (p_prog p) f (p_cwd p) (p_parent p) (p_size p) (p_mem p) (p_killed p) (p_zombie p).
Definition set_cwd (d : Z) (p : proc) : proc :=
  mkProc (p_prog p) (p_fds p) d (p_parent p) (p_size p) (p_mem p) (p_killed p) (p_zombie p).
Definition set_mem (sz : Z) (m : gmap Z Z) (p : proc) : proc :=
  mkProc (p_prog p) (p_fds p) (p_cwd p) (p_parent p) sz m (p_killed p) (p_zombie p).
Definition set_parent (pp : Z) (p : proc) : proc :=
  mkProc (p_prog p) (p_fds p) (p_cwd p) pp (p_size p) (p_mem p) (p_killed p) (p_zombie p).
Definition set_killed (p : proc) : proc :=
  mkProc (p_prog p) (p_fds p) (p_cwd p) (p_parent p) (p_size p) (p_mem p) true (p_zombie p).
Definition set_zombie (p : proc) : proc :=
  mkProc (p_prog p) ∅ (p_cwd p) (p_parent p) (p_size p) (p_mem p) (p_killed p) true.

Definition set_tree (t : tree) (w : world) : world :=
  mkWorld t (w_files w) (w_pipes w) (w_procs w) (w_next w) (w_pages w) (w_out w).
Definition set_files (f : gmap nat ofile) (w : world) : world :=
  mkWorld (w_tree w) f (w_pipes w) (w_procs w) (w_next w) (w_pages w) (w_out w).
Definition set_pipes (f : gmap nat (list Z)) (w : world) : world :=
  mkWorld (w_tree w) (w_files w) f (w_procs w) (w_next w) (w_pages w) (w_out w).
Definition set_procs (f : gmap Z proc) (w : world) : world :=
  mkWorld (w_tree w) (w_files w) (w_pipes w) f (w_next w) (w_pages w) (w_out w).
Definition add_pages (n : Z) (w : world) : world :=
  mkWorld (w_tree w) (w_files w) (w_pipes w) (w_procs w) (w_next w) (w_pages w + n) (w_out w).
Definition put (b : list Z) (w : world) : world :=
  mkWorld (w_tree w) (w_files w) (w_pipes w) (w_procs w) (w_next w) (w_pages w) (w_out w ++ b).
(** A new number. *)
Definition bump (w : world) : world :=
  mkWorld (w_tree w) (w_files w) (w_pipes w) (w_procs w) (w_next w + 1) (w_pages w) (w_out w).

Definition upd_proc (pid : Z) (f : proc -> proc) (w : world) : world := set_procs (alter f pid (w_procs w)) w.

(** ** Descriptors *)
Definition lowest_fd (t : gmap Z nat) : option Z := head (filter (fun fd => t !! fd = None) (seqZ 0 NOFILE)).

Definition file_of (p : proc) (w : world) (fd : Z) : option (nat * ofile) :=
  k ← p_fds p !! fd; f ← w_files w !! k; Some (k, f).

(** Some process has the end [wr] of pipe [id] open. *)
Definition end_open (id : nat) (wr : bool) (w : world) : bool :=
  existsb (fun x : Z * proc => existsb (fun y : Z * nat =>
      match w_files w !! y.2 with Some (OPipe i b) => (i =? id)%nat && Bool.eqb b wr | _ => false end)
    (map_to_list (p_fds x.2))) (map_to_list (w_procs w)).

(** A new descriptor of [pid] for the open file [k]. *)
Definition give_fd (pid : Z) (k : nat) (w : world) : option (Z * world) :=
  p ← w_procs w !! pid;
  fd ← lowest_fd (p_fds p);
  Some (fd, upd_proc pid (set_fds (<[fd := k]> (p_fds p))) w).

Definition new_file (f : ofile) (w : world) : nat * world :=
  let k := Z.to_nat (w_next w) in (k, bump (set_files (<[k := f]> (w_files w)) w)).

Definition open_fd (pid : Z) (f : ofile) (w : world) : option (Z * world) :=
  let '(k, w') := new_file f w in give_fd pid k w'.

(** ** Calls that one process makes *)
Section Calls.
Context (pid : Z) (p : proc).

Definition put_file (k : nat) (f : ofile) (w : world) : world := set_files (<[k := f]> (w_files w)) w.

(** read; a read of an empty pipe waits while there is a writer. *)
Definition do_read (fd n : Z) (w : world) : option (Z * list Z * world) :=
  match file_of p w fd with
  | None => Some (-1, [], w)
  | Some (k, OFile i off r wr) =>
      if negb r then Some (-1, [], w)
      else
        x ← w_tree w !! i;
        match x with
        | NDev _ _ => None
        | _ =>
            let b := take (Z.to_nat n) (drop (Z.to_nat off) (bytes_of x)) in
            Some (Z.of_nat (length b), b, put_file k (OFile i (off + Z.of_nat (length b)) r wr) w)
        end
  | Some (_, OPipe id wr) =>
      if wr then Some (-1, [], w)
      else
        match default [] (w_pipes w !! id) with
        | [] => if end_open id true w then None else Some (0, [], w)
        | d =>
            let b := take (Z.to_nat n) d in
            Some (Z.of_nat (length b), b, set_pipes (<[id := drop (Z.to_nat n) d]> (w_pipes w)) w)
        end
  end.

(** write to a file or a device; past the largest size nothing is specified. *)
Definition do_write (fd : Z) (b : list Z) (w : world) : option (Z * world) :=
  let n := Z.of_nat (length b) in
  match file_of p w fd with
  | Some (k, OFile i off r true) =>
      x ← w_tree w !! i;
      match x with
      | NDev _ _ => Some (n, put b w)
      | NFile d =>
          if off + n <=? MAXFILE * BSIZE then
            Some (n, put_file k (OFile i (off + n) r true) (set_tree (<[i := NFile (splice d (Z.to_nat off) b)]> (w_tree w)) w))
          else None
      | NDir _ => None
      end
  | _ => Some (-1, w)
  end.

Definition do_close (fd : Z) (w : world) : Z * world :=
  match p_fds p !! fd with
  | Some _ => (0, upd_proc pid (set_fds (delete fd (p_fds p))) w)
  | None => (-1, w)
  end.

Definition do_open (path : list Z) (mode : Z) (w : world) : Z * world :=
  match t_open (w_tree w) (p_cwd p) path mode (w_next w) with
  | None => (-1, w)
  | Some (i, t) =>
      let w := set_tree t (bump w) in
      match open_fd pid (OFile i 0 (Z.land mode O_WRONLY =? 0)
                (negb (Z.land mode O_WRONLY =? 0) || negb (Z.land mode O_RDWR =? 0))) w with
      | Some r => r
      | None => (-1, w)
      end
  end.

Definition do_pipe (w : world) : Z * (Z * Z) * world :=
  let id := Z.to_nat (w_next w) in
  let w0 := bump (set_pipes (<[id := []]> (w_pipes w)) w) in
  match open_fd pid (OPipe id false) w0 with
  | None => ((-1, (0, 0)), w)
  | Some (r, w1) =>
      match open_fd pid (OPipe id true) w1 with
      | None => ((-1, (0, 0)), w)
      | Some (wr, w2) => ((0, (r, wr)), w2)
      end
  end.

(** A change of the tree; [None] is -1. *)
Definition do_tree (r : option tree) (w : world) : Z * world :=
  match r with Some t => (0, set_tree t (bump w)) | None => (-1, w) end.

Definition do_sbrk (n : Z) (w : world) : Z * world :=
  let sz := p_size p in
  if n =? 0 then (sz, w)
  else if (sz + n <? 0) || (sz + n >=? KERNBASE) || (pages (sz + n) - pages sz >? w_pages w) then (-1, w)
  else
    (sz, add_pages (pages sz - pages (sz + n))
           (upd_proc pid (set_mem (sz + n)
              (if n <? 0 then filter (fun x => x.1 < 4096 * pages (sz + n)) (p_mem p) else p_mem p)) w)).

(** The children of the process. *)
Definition children (w : world) : list (Z * proc) :=
  filter (fun x => p_parent x.2 = pid) (map_to_list (w_procs w)).

Definition do_wait (w : world) : option (Z * world) :=
  match children w with
  | [] => Some (-1, w)
  | l =>
      '(c, q) ← head (filter (fun x : Z * proc => p_zombie x.2 = true) l);
      Some (c, set_procs (delete c (w_procs w)) w)
  end.

Definition do_kill (c : Z) (w : world) : Z * world :=
  match w_procs w !! c with Some _ => (0, upd_proc c set_killed w) | None => (-1, w) end.

(** The calls and accesses that return to the program; an access that traps is one to
    which there is no answer. *)
Definition in_memory (a n : Z) : bool := (0 <=? a) && (a + n <=? 4096 * pages (p_size p)).

Definition answer {X} (e : sysE X) (w : world) : option (X * world) :=
  match e in sysE X return option (X * world) with
  | Wait => do_wait w
  | Pipe => Some (do_pipe w)
  | Read fd n => '(r, b, w') ← do_read fd n w; Some ((r, b), w')
  | Write fd b => do_write fd b w
  | Close fd => Some (do_close fd w)
  | Kill c => Some (do_kill c w)
  | Open path mode => Some (do_open path mode w)
  | Mknod path major minor => Some (do_tree (t_make (w_tree w) (p_cwd p) path (w_next w) (NDev major minor)) w)
  | Unlink path => Some (do_tree (t_unlink (w_tree w) (p_cwd p) path) w)
  | Link old new => Some (do_tree (t_link (w_tree w) (p_cwd p) old new) w)
  | Mkdir path => Some (do_tree (t_make (w_tree w) (p_cwd p) path (w_next w) (NDir [])) w)
  | Chdir path =>
      match t_chdir (w_tree w) (p_cwd p) path with
      | Some d => Some (0, upd_proc pid (set_cwd d) w)
      | None => Some (-1, w)
      end
  | Dup fd =>
      match p_fds p !! fd with
      | Some k => match give_fd pid k w with Some r => Some r | None => Some (-1, w) end
      | None => Some (-1, w)
      end
  | Getpid => Some (pid, w)
  | Sbrk n => Some (do_sbrk n w)
  | Sleep _ => Some (0, w)
  | Uptime => Some (0, w)
  | ReadAt fd a n => if n <? 0 then Some (-1, w) else None
  | LinkAt old _ => match t_namei (w_tree w) (p_cwd p) old with None => Some (-1, w) | Some _ => None end
  | SleepAt _ => Some (0, w)
  | Load a n =>
      if in_memory a n then Some (map (fun x => default 0 (p_mem p !! x)) (seqZ a n), w) else None
  | Store a b =>
      if in_memory a (Z.of_nat (length b)) then
        Some (tt, upd_proc pid (set_mem (p_size p) (foldr (fun x m => <[x.1 := x.2]> m) (p_mem p) (zip (seqZ a (Z.of_nat (length b))) b))) w)
      else None
  | _ => None
  end.
End Calls.

(** ** Steps *)
Section Steps.
(** The program that a file holds. *)
Context (image : list Z -> option (list (list Z) -> prog unit)).

Definition INIT : Z := 1.
Definition MAXARG : nat := 32.

(** The bytes that the arguments take on the stack of the new program. *)
Definition arg_space (argv : list (list Z)) : Z :=
  foldr (fun a n => (Z.of_nat (length a) + 4) / 4 * 4 + n) (4 * (Z.of_nat (length argv) + 4)) argv.

Definition do_exit (pid : Z) (p : proc) (w : world) : world :=
  add_pages (pages (p_size p))
    (upd_proc pid set_zombie
       (set_procs ((fun q => if p_parent q =? pid then set_parent INIT q else q) <$> w_procs w) w)).

Definition do_fork (pid : Z) (p : proc) (k : Z -> prog unit) (w : world) : world :=
  if (Z.of_nat (size (w_procs w)) >=? NPROC) || (pages (p_size p) >? w_pages w)
  then upd_proc pid (set_prog (k (-1))) w
  else
    let c := w_next w in
    add_pages (- pages (p_size p))
      (bump (set_procs (<[c := mkProc (k 0) (p_fds p) (p_cwd p) pid (p_size p) (p_mem p) false false]>
                          (alter (set_prog (k c)) pid (w_procs w))) w)).

(** exec with the pages of the process as they are. *)
Definition do_exec (pid : Z) (p : proc) (path : list Z) (argv : list (list Z)) (k : Z -> prog unit) (w : world) : world :=
  let start :=
    if (length argv <? MAXARG)%nat && (arg_space argv <=? 4096) then
      i ← t_namei (w_tree w) (p_cwd p) path;
      x ← w_tree w !! i;
      match x with NFile d => image d | _ => None end
    else None in
  match start with
  | Some f => upd_proc pid (fun p => set_prog (f argv) (set_mem (p_size p) ∅ p)) w
  | None => upd_proc pid (set_prog (k (-1))) w
  end.

(** A write to a pipe takes what fits, and goes on with the rest. *)
Definition do_pipe_write (pid : Z) (fd : Z) (id : nat) (b : list Z) (k : Z -> prog unit) (w : world) : option world :=
  if negb (end_open id false w) then Some (upd_proc pid (set_prog (k (-1))) w)
  else
    let d := default [] (w_pipes w !! id) in
    let room := (PIPESIZE - length d)%nat in
    let w' := set_pipes (<[id := d ++ take room b]> (w_pipes w)) w in
    if (length b <=? room)%nat then Some (upd_proc pid (set_prog (k (Z.of_nat (length b)))) w')
    else if (room =? 0)%nat then None
    else Some (upd_proc pid (set_prog (Vis (Write fd (drop room b))
                 (fun r => k (if r <? 0 then r else Z.of_nat (length b))))) w').

Definition on_pipe (p : proc) (w : world) (fd : Z) : option nat :=
  match file_of p w fd with Some (_, OPipe id true) => Some id | _ => None end.

(** The accesses that end a process when there is no answer. *)
Definition traps {X} (e : sysE X) : bool :=
  match e with Load _ _ | Store _ _ | Inb _ | Outb _ _ => true | _ => false end.

Definition step (pid : Z) (w : world) : option world :=
  p ← w_procs w !! pid;
  if p_zombie p then None
  else if p_killed p then Some (do_exit pid p w)
  else
    match observe (p_prog p) with
    | RetF _ => None
    | TauF t => Some (upd_proc pid (set_prog t) w)
    | VisF e k =>
        match e in sysE X return (X -> prog unit) -> option world with
        | Exit => fun _ => Some (do_exit pid p w)
        | Fork => fun k => Some (do_fork pid p k w)
        | Exec path argv => fun k => Some (do_exec pid p path argv k w)
        | e => fun k =>
            match e in sysE X return (X -> prog unit) -> option world with
            | Write fd b => fun k =>
                match on_pipe p w fd with
                | Some id => do_pipe_write pid fd id b k w
                | None => '(n, w') ← do_write p fd b w; Some (upd_proc pid (set_prog (k n)) w')
                end
            | e => fun k =>
                match answer pid p e w with
                | Some (x, w') => Some (upd_proc pid (set_prog (k x)) w')
                | None => if traps e then Some (do_exit pid p w) else None
                end
            end k
        end k
    end.

(** Any process may go next. *)
Inductive steps : world -> world -> Prop :=
| steps_refl w : steps w w
| steps_one w pid w1 w2 : step pid w = Some w1 -> steps w1 w2 -> steps w w2.

(** One schedule: each in turn. *)
Fixpoint first_step (pids : list Z) (w : world) : option (Z * world) :=
  match pids with
  | [] => None
  | pid :: pids' => match step pid w with Some w' => Some (pid, w') | None => first_step pids' w end
  end.

Definition pids (w : world) : list Z := merge_sort Z.le (map fst (map_to_list (w_procs w))).

Definition turn (last : Z) (w : world) : option (Z * world) :=
  let l := pids w in first_step (filter (fun p => last < p) l ++ filter (fun p => p <= last) l) w.

Fixpoint run (n : nat) (last : Z) (w : world) : world :=
  match n with
  | O => w
  | S n' => match turn last w with Some (pid, w') => run n' pid w' | None => w end
  end.

Lemma first_step_steps l w pid w' : first_step l w = Some (pid, w') -> step pid w = Some w'.
Proof.
  induction l as [|p l IH]; [done|]. cbn [first_step]. destruct (step p w) eqn:E; [by intros [= <- <-]|done].
Qed.

Lemma run_steps n : forall last w, steps w (run n last w).
Proof.
  induction n as [|n IH]; intros last w; cbn [run]; [constructor|]. destruct (turn last w) as [[pid w']|] eqn:E; [|constructor].
  eapply steps_one; [by eapply first_step_steps|apply IH].
Qed.
End Steps.
