(* ===== verification/UsertestsRun.v ===== *)
(** * The tests on the specification (usertests.c)

    Tests of usertests.c run on the machine of Unix.v: whichever process goes next,
    they end, with the output that says so and with the directory as expected. *)

From stdpp Require Import base numbers list gmap strings.
From Stdlib Require Import ZArith Lia.
From S2P Require Import Prelude Block Fs Sysfile User Filters TestProgs Usertests Tree Unix.
From ITree Require Import ITree.

Local Open Scope Z_scope.
Local Open Scope prog_scope.

(** ** All schedules *)
Section Schedules.
Context (image : list Z -> option (list (list Z) -> prog unit)).

(** Whichever process goes next, nothing goes on for ever, and at the end [Q] holds. *)
Inductive ends (Q : world -> Prop) (w : world) : Prop :=
| ends_now : (forall pid, step image pid w = None) -> Q w -> ends Q w
| ends_step : (exists pid w', step image pid w = Some w') ->
    (forall pid w', step image pid w = Some w' -> ends Q w') -> ends Q w.

(** The processes that can go on. *)
Definition ready (w : world) : list Z :=
  filter (fun pid => is_Some (step image pid w)) (map fst (map_to_list (w_procs w))).

Lemma ready_spec w pid : is_Some (step image pid w) <-> pid ∈ ready w.
Proof.
  unfold ready. rewrite list_elem_of_filter. split.
  - intros [w' E]. split; [by eexists|]. unfold step in E. destruct (w_procs w !! pid) as [p|] eqn:Ep; [|done].
    apply list_elem_of_fmap. exists (pid, p). split; [done|]. by apply elem_of_map_to_list.
  - by intros [H _].
Qed.

(** All schedules, by evaluation: [Q] at the end of each of them. *)
Fixpoint explore (Q : world -> bool) (n : nat) (w : world) : bool :=
  match n with
  | O => false
  | S n' =>
      match ready w with
      | [] => Q w
      | l => forallb (fun pid => match step image pid w with Some w' => explore Q n' w' | None => false end) l
      end
  end.

Lemma explore_ends (Q : world -> bool) n : forall w, explore Q n w = true -> ends (fun w' => Q w' = true) w.
Proof.
  induction n as [|n IH]; intros w E; [done|]. cbn [explore] in E. destruct (ready w) as [|p l] eqn:Er.
  - apply ends_now; [|done]. intros pid. apply eq_None_not_Some. rewrite ready_spec, Er. apply not_elem_of_nil.
  - assert (is_Some (step image p w)) as [w1 E1] by (rewrite ready_spec, Er; by left).
    apply ends_step; [by exists p, w1|]. intros pid w2 E2. apply IH.
    assert (pid ∈ p :: l) as Hin by (rewrite <- Er; apply ready_spec; by eexists).
    rewrite forallb_forall in E. specialize (E pid (proj1 (list_elem_of_In _ _) Hin)). by rewrite E2 in E.
Qed.
End Schedules.

(** ** A fresh file system *)
Definition echo_image : list Z := [1].
Definition image (d : list Z) : option (list (list Z) -> prog unit) :=
  if bool_decide (d = echo_image) then Some echo_main else None.

Definition root_dir : list (Z * name) :=
  [(1, dot); (1, dotdot); (2, chars "README"); (3, chars "cat"); (4, chars "echo"); (5, chars "init"); (6, chars "console")].
Definition fresh_tree : tree :=
  list_to_map [(1, NDir root_dir); (2, NFile (chars "README")); (3, NFile [2]); (4, NFile echo_image); (5, NFile [3]); (6, NDev 1 1)].

(** The three descriptors are the console; the test is a child of process 1, which
    waits for it. *)
Definition std_fds : gmap Z nat := list_to_map [(0, 0%nat); (1, 0%nat); (2, 0%nat)].
Definition start_test (t : prog unit) : world :=
  mkWorld fresh_tree {[ 0%nat := OFile 6 0 true true ]} ∅
    (list_to_map [(1, mkProc (wait;; Ret tt) std_fds 1 0 4096 ∅ false false);
                  (7, mkProc (t;; exit) std_fds 1 1 65536 ∅ false false)]) 100 50000 [].

(** The output, and what has come to the root directory. *)
Definition passes (out : list Z) (new : list name) (w : world) : bool :=
  bool_decide (w_out w = out) && bool_decide (map fst (map_to_list (w_procs w)) = [1]) &&
  match w_tree w !! 1 with
  | Some (NDir l) => bool_decide (map snd (filter (fun e => e.1 <> 0) l) = map snd root_dir ++ new)
  | _ => false
  end.

(** The tests, with their output and what they leave behind. *)
Definition tests : list (prog unit * list Z * list name) :=
  [ (iputtest, line "iput test" ++ line "iput test ok", []);
    (exitiputtest, line "exitiput test" ++ line "exitiput test ok", []);
    (opentest, line "open test" ++ line "open test ok", []);
    (createtest, line "many creates, followed by unlink test" ++ line "many creates, followed by unlink; ok", []);
    (dirtest, line "mkdir test" ++ line "mkdir test ok", []);
    (rmdot, line "rmdot test" ++ line "rmdot ok", []);
    (fourteen, line "fourteen test" ++ line "fourteen ok", [chars "12345678901234"]);
    (linktest buf0;; Ret tt, line "linktest" ++ line "linktest ok", []);
    (unlinkread buf0;; Ret tt, line "unlinkread test" ++ line "unlinkread ok", []);
    (writetest buf0;; Ret tt, line "small file test" ++ line "creat small succeeded; ok" ++ line "writes ok" ++
       line "open small succeeded ok" ++ line "read succeeded ok" ++ line "small file test ok", []);
    (bigwrite buf0, line "bigwrite test" ++ line "bigwrite ok", []);
    (bigfile buf0;; Ret tt, line "bigfile test" ++ line "bigfile test ok", []);
    (openiputtest, line "openiput test" ++ line "openiput test ok", []);
    (dirfile, line "dir vs file" ++ line "dir vs file OK", []);
    (subdir buf0;; Ret tt, line "subdir test" ++ line "subdir ok", []);
    (iref, line "empty file name" ++ line "empty file name OK", [chars "irefd"]);
    (bigargtest, line "bigarg test" ++ line "bigarg test ok", []);
    (argptest, line "arg test passed", []);
    (exitwait, line "exitwait ok", []);
    (uio, line "uio test" ++ line "uio test done", []);
    (exectest, line "exec test" ++ line "ALL TESTS PASSED", []) ].


(** What test_2.c prints.  After five blocks are freed the free list is 971, 800, 300,
    1300, 100, 600; malloc goes on from where it stopped, and not from the start, so
    that 200, 900, 300, 100 and 700 do not come from the first blocks that fit. *)
Definition test_2_output : list Z :=
  line "----------------malloc 10 times-----------------" ++ free_list_text [(0, 971)] ++
  line "-----------------free 5 times-------------------" ++
  free_list_text [(0, 971); (0, 800); (0, 300); (0, 1300); (0, 100); (0, 600)] ++
  line "------------------first fit---------------------" ++
  line "malloc(200)" ++ line "malloc(900)" ++ line "malloc(300)" ++ line "malloc(100)" ++ line "malloc(700)" ++
  free_list_text [(0, 271); (0, 600); (0, 300); (0, 100); (0, 600)] ++
  line "------------------worst fit---------------------" ++
  line "malloc_wf(500)" ++ line "malloc_wf(200)" ++ line "malloc_wf(300)" ++ line "malloc_wf(200)" ++ line "malloc_wf(400)" ++
  free_list_text [(0, 271); (0, 600); (0, 300); (0, 100); (0, 600)].

Lemma test_2_run : ends image (fun w => passes test_2_output [] w = true) (start_test Test2.main).
Proof. apply (explore_ends image _ 700). vm_compute. reflexivity. Qed.
