(* ===== verification/Mp.v ===== *)
(** * Multiprocessor tables (mp.c, mp.h)

    Physical memory is a function from addresses to bytes, through which the BIOS
    has left its tables; a pointer P2V(a) is the address [a].  The state is what
    mpinit finds: the local APIC, the processors, the I/O APIC; and the writes to
    the ports of the IMCR. *)

From stdpp Require Import base numbers list strings.
From Stdlib Require Import ZArith Lia.
From S2P Require Import Prelude.

Local Open Scope Z_scope.
Local Open Scope kernel_scope.

Definition NCPU : nat := 8.
Definition MPPROC : Z := 0.
Definition MPBUS : Z := 1.
Definition MPIOAPIC : Z := 2.
Definition MPIOINTR : Z := 3.
Definition MPLINTR : Z := 4.
Definition sizeof_mp : Z := 16.
Definition sizeof_mpconf : Z := 44.
Definition sizeof_mpproc : Z := 20.
Definition sizeof_mpioapic : Z := 8.

Record mpst := mkMpst {
  lapic : Z;
  cpus : list Z;            (* cpus[i].apicid for i < ncpu *)
  ioapicid : Z;
  ports : list (Z * Z)      (* outb *)
}.

Section Mp.
Context (mem : Z -> Z).     (* uchar at a physical address *)
Context (in23 : Z).         (* what inb(0x23) returns *)

Definition u16_at (a : Z) : Z := mem a + 256 * mem (a + 1).
Definition u32_at (a : Z) : Z := u16_at a + 65536 * u16_at (a + 2).

(** memcmp(p, s, 4) == 0. *)
Definition has_sig (p : Z) (s : Z * Z * Z * Z) : bool :=
  let '(a, b, c, d) := s in (mem p =? a) && (mem (p + 1) =? b) && (mem (p + 2) =? c) && (mem (p + 3) =? d).
Definition sig_mp : Z * Z * Z * Z := (95, 77, 80, 95).      (* _MP_ *)
Definition sig_pcmp : Z * Z * Z * Z := (80, 67, 77, 80).    (* PCMP *)

Fixpoint sum_loop (k : nat) (addr : Z) : Z :=
  match k with O => 0 | S k' => mem addr + sum_loop k' (addr + 1) end.
Definition sum (addr len : Z) : Z := sum_loop (Z.to_nat len) addr mod 256.

(** The loop of mpsearch1 over [k] structures from [p] on. *)
Fixpoint mpsearch_loop (k : nat) (p : Z) : option Z :=
  match k with
  | O => None
  | S k' =>
      if has_sig p sig_mp && (sum p sizeof_mp =? 0) then Some p else mpsearch_loop k' (p + sizeof_mp)
  end.
Definition mpsearch1 (a len : Z) : option Z := mpsearch_loop (Z.to_nat ((len + sizeof_mp - 1) / sizeof_mp)) a.

Definition mpsearch : option Z :=
  let bda := 1024 in
  let p := Z.shiftl (Z.lor (Z.shiftl (mem (bda + 15)) 8) (mem (bda + 14))) 4 in
  let r :=
    if negb (p =? 0) then mpsearch1 p 1024
    else mpsearch1 (u32 (Z.lor (Z.shiftl (mem (bda + 20)) 8) (mem (bda + 19)) * 1024 - 1024)) 1024 in
  match r with Some mp => Some mp | None => mpsearch1 983040 65536 end.

(** The fields of struct mp and of struct mpconf that are read. *)
Definition physaddr (mp : Z) : Z := u32_at (mp + 4).
Definition imcrp (mp : Z) : Z := mem (mp + 12).
Definition conf_length (conf : Z) : Z := u16_at (conf + 4).
Definition conf_version (conf : Z) : Z := mem (conf + 6).
Definition conf_lapicaddr (conf : Z) : Z := u32_at (conf + 36).

(** The structure and the table. *)
Definition mpconfig : option (Z * Z) :=
  match mpsearch with
  | None => None
  | Some mp =>
      if physaddr mp =? 0 then None
      else
        let conf := physaddr mp in
        if negb (has_sig conf sig_pcmp) then None
        else if negb (conf_version conf =? 1) && negb (conf_version conf =? 4) then None
        else if negb (sum conf (conf_length conf) =? 0) then None
        else Some (mp, conf)
  end.

Definition add_cpu (apicid : Z) : M mpst unit :=
  modify (fun s => if (length (cpus s) <? NCPU)%nat then mkMpst (lapic s) (cpus s ++ [apicid]) (ioapicid s) (ports s) else s).
Definition set_ioapic (no : Z) : M mpst unit := modify (fun s => mkMpst (lapic s) (cpus s) no (ports s)).
Definition outb (p v : Z) : M mpst unit := modify (fun s => mkMpst (lapic s) (cpus s) (ioapicid s) (ports s ++ [(p, v)])).

(** The loop over the entries from [p] to [e], [k] rounds of it; the result is ismp.
    An entry of another type leaves the switch, not the loop. *)
Fixpoint entries (k : nat) (p e : Z) (ismp : bool) : M mpst bool :=
  match k with
  | O => hang
  | S k' =>
      if p <? e then
        let type := mem p in
        if type =? MPPROC then add_cpu (mem (p + 1));; entries k' (p + sizeof_mpproc) e ismp
        else if type =? MPIOAPIC then set_ioapic (mem (p + 1));; entries k' (p + sizeof_mpioapic) e ismp
        else if (type =? MPBUS) || (type =? MPIOINTR) || (type =? MPLINTR) then entries k' (p + 8) e ismp
        else entries k' p e false
      else ret ismp
  end.

Definition mpinit (k : nat) : M mpst unit :=
  match mpconfig with
  | None => panic "Expect to run on an SMP"
  | Some (mp, conf) =>
      modify (fun s => mkMpst (conf_lapicaddr conf) (cpus s) (ioapicid s) (ports s));;
      ismp <- entries k (conf + sizeof_mpconf) (conf + conf_length conf) true;;
      if negb ismp then panic "Didn't find a suitable machine"
      else if negb (imcrp mp =? 0) then outb 34 112;; outb 35 (Z.lor in23 1)
      else ret tt
  end.

(** ** Searching *)
Definition is_mp (p : Z) : bool := has_sig p sig_mp && (sum p sizeof_mp =? 0).

Lemma mpsearch_loop_find k : forall p, mpsearch_loop k p = List.find is_mp (map (fun i => p + sizeof_mp * Z.of_nat i) (seq 0 k)).
Proof.
  induction k as [|k IH]; intros p; [done|]. cbn [mpsearch_loop seq map List.find]. rewrite Z.mul_0_r, Z.add_0_r. fold (is_mp p).
  destruct (is_mp p); [done|]. rewrite IH, <- seq_shift, map_map. f_equal. apply map_ext. intros i. lia.
Qed.

(** The candidates of mpsearch: in the first KB of the EBDA or, without one, in the
    last KB of base memory, and then in the BIOS. *)
Definition ebda : Z := Z.shiftl (Z.lor (Z.shiftl (mem 1039) 8) (mem 1038)) 4.
Definition base_end : Z := u32 (Z.lor (Z.shiftl (mem 1044) 8) (mem 1043) * 1024 - 1024).
Definition candidates : list Z :=
  map (fun i => (if negb (ebda =? 0) then ebda else base_end) + sizeof_mp * Z.of_nat i) (seq 0 64) ++
  map (fun i => 983040 + sizeof_mp * Z.of_nat i) (seq 0 4096).

(** mpsearch returns the first candidate with the signature and a checksum of 0. *)
Lemma mpsearch_first : mpsearch = List.find is_mp candidates.
Proof.
  unfold mpsearch, candidates, mpsearch1. change (Z.to_nat ((1024 + sizeof_mp - 1) / sizeof_mp)) with 64%nat.
  change (Z.to_nat ((65536 + sizeof_mp - 1) / sizeof_mp)) with (64 * 64)%nat. change 4096%nat with (64 * 64)%nat.
  change (1024 + 15) with 1039. change (1024 + 14) with 1038. change (1024 + 20) with 1044. change (1024 + 19) with 1043.
  fold ebda. fold base_end. rewrite !mpsearch_loop_find. remember (64 * 64)%nat as big.
  assert (Happ : forall l l', List.find is_mp (l ++ l') = match List.find is_mp l with Some x => Some x | None => List.find is_mp l' end).
  { induction l as [|x l IH]; intros l'; [done|]. cbn [app List.find]. by destruct (is_mp x). }
  rewrite Happ. by destruct (negb (ebda =? 0)).
Qed.

(** ** The entries of a table *)
Inductive entry :=
| EProc (apicid : Z) (rest : list Z)
| EIoapic (no : Z) (rest : list Z)
| EOther (type : Z) (rest : list Z).

Definition entry_ok (e : entry) : Prop :=
  match e with
  | EProc _ rest => length rest = 18%nat
  | EIoapic _ rest => length rest = 6%nat
  | EOther type rest => (type = MPBUS \/ type = MPIOINTR \/ type = MPLINTR) /\ length rest = 7%nat
  end.

Definition encode (e : entry) : list Z :=
  match e with
  | EProc apicid rest => MPPROC :: apicid :: rest
  | EIoapic no rest => MPIOAPIC :: no :: rest
  | EOther type rest => type :: rest
  end.

Definition table (es : list entry) : list Z := concat (map encode es).

(** The processors and the last I/O APIC of a table. *)
Definition procs (es : list entry) : list Z := concat (map (fun e => match e with EProc id _ => [id] | _ => [] end) es).
Definition last_ioapic (old : Z) (es : list entry) : Z :=
  foldl (fun old e => match e with EIoapic no _ => no | _ => old end) old es.

(** The bytes [l] are in memory from [p] on. *)
Definition laid (p : Z) (l : list Z) : Prop := forall i x, l !! i = Some x -> mem (p + Z.of_nat i) = x.

Lemma laid_app p l l' : laid p (l ++ l') -> laid p l /\ laid (p + Z.of_nat (length l)) l'.
Proof.
  intros H. split.
  - intros i x E. apply H. by apply lookup_app_l_Some.
  - intros i x E. rewrite <- Z.add_assoc, <- Nat2Z.inj_add. apply H. rewrite lookup_app_r by lia. by rewrite Nat.add_comm, Nat.add_sub.
Qed.

Lemma laid_1 p x l : laid p (x :: l) -> mem p = x.
Proof. intros H. specialize (H O x eq_refl). by rewrite Z.add_0_r in H. Qed.

Lemma laid_2 p x y l : laid p (x :: y :: l) -> mem p = x /\ mem (p + 1) = y.
Proof. intros H. split; [by eapply laid_1|by apply (H 1%nat y)]. Qed.

Definition found (es : list entry) (s : mpst) : mpst :=
  mkMpst (lapic s) (take NCPU (cpus s ++ procs es)) (last_ioapic (ioapicid s) es) (ports s).

(** One entry. *)
Lemma entries_step k p e en s : entry_ok en -> laid p (encode en) -> p + Z.of_nat (length (encode en)) <= e ->
  (length (cpus s) <= NCPU)%nat ->
  entries (S k) p e true s = entries k (p + Z.of_nat (length (encode en))) e true (found [en] s).
Proof.
  intros Hok Hl He Hn. cbn [entries]. destruct (Z.ltb_spec p e); [|destruct en; cbn in He; lia].
  assert (Htake : take NCPU (cpus s ++ []) = cpus s) by (rewrite app_nil_r; by apply take_ge).
  destruct en as [id rest|no rest|type rest]; cbn [encode entry_ok] in *.
  - apply laid_2 in Hl as [-> ->]. cbn [Z.eqb MPPROC]. unfold add_cpu, Prelude.bind, modify, found. cbn [procs map concat last_ioapic foldl app].
    cbn [length]. rewrite Hok. change (Z.of_nat (S (S 18))) with sizeof_mpproc. f_equal.
    destruct (Nat.ltb_spec (length (cpus s)) NCPU) as [Hlt|Hge].
    + f_equal. rewrite take_ge; [done|]. rewrite length_app. cbn. lia.
    + destruct s as [la cs io po]. cbn [cpus lapic ioapicid ports] in *. f_equal. rewrite take_app_le by done. by rewrite take_ge.
  - apply laid_2 in Hl as [-> ->]. change (MPIOAPIC =? MPPROC) with false. change (MPIOAPIC =? MPIOAPIC) with true. cbv iota.
    unfold set_ioapic, Prelude.bind, modify, found. cbn [procs map concat last_ioapic foldl app length]. rewrite Hok, Htake. done.
  - destruct Hok as [Ht Hr]. apply laid_1 in Hl as ->.
    cbn [length]. rewrite Hr. unfold found. cbn [procs map concat last_ioapic foldl app]. rewrite Htake.
    destruct s; destruct Ht as [-> | [-> | ->]]; done.
Qed.

Lemma found_app e es s : (length (cpus s) <= NCPU)%nat -> found es (found [e] s) = found (e :: es) s.
Proof.
  intros Hn. unfold found. cbn [lapic cpus ioapicid ports]. f_equal. unfold procs. cbn [map concat]. rewrite app_nil_r.
  set (x := match e with EProc id _ => [id] | _ => [] end). rewrite app_assoc. set (l := cpus s ++ x).
  destruct (decide (length l <= NCPU)%nat) as [H|H]; [by rewrite (take_ge l)|].
  rewrite !take_app_le; [by rewrite take_take, Nat.min_id|lia|rewrite length_take; lia].
Qed.

Lemma entries_table es : forall p e s k, Forall entry_ok es -> laid p (table es) -> p + Z.of_nat (length (table es)) <= e ->
  (length (cpus s) <= NCPU)%nat ->
  entries (length es + k) p e true s = entries k (p + Z.of_nat (length (table es))) e true (found es s).
Proof.
  induction es as [|en es IH]; intros p e s k Hok Hl He Hn.
  - cbn [length Nat.add table map concat]. rewrite Z.add_0_r. unfold found. cbn [procs map concat last_ioapic foldl].
    rewrite app_nil_r, take_ge by done. by destruct s.
  - apply Forall_cons in Hok as [Hen Hok]. unfold table in Hl, He. cbn [map concat] in Hl, He. apply laid_app in Hl as [Hl1 Hl2].
    rewrite length_app in He. cbn [length Nat.add]. rewrite (entries_step _ _ _ en) by (done || lia).
    rewrite IH; [|done|done|fold (table es) in *; lia|].
    + rewrite found_app by done. f_equal. unfold table. cbn [map concat]. rewrite length_app. lia.
    + unfold found. cbn [cpus]. rewrite length_take. lia.
Qed.

(** An entry of another type: the loop stays where it is. *)
Lemma entries_unknown k : forall p e b s, p < e -> 5 <= mem p -> entries k p e b s = Hang.
Proof.
  induction k as [|k IH]; intros p e b s Hp Ht; [done|]. cbn [entries]. destruct (Z.ltb_spec p e); [|lia].
  unfold MPPROC, MPIOAPIC, MPBUS, MPIOINTR, MPLINTR. rewrite !(proj2 (Z.eqb_neq (mem p) _)) by lia. cbn [orb]. by apply IH.
Qed.

Lemma entries_stuck es : forall p e s k, Forall entry_ok es -> laid p (table es) -> p + Z.of_nat (length (table es)) < e ->
  5 <= mem (p + Z.of_nat (length (table es))) -> (length (cpus s) <= NCPU)%nat -> entries k p e true s = Hang.
Proof.
  intros p e s k Hok Hl He Ht Hn. destruct (decide (length es <= k)%nat) as [Hk|Hk].
  - replace k with (length es + (k - length es))%nat by lia. rewrite entries_table by (done || lia). by apply entries_unknown.
  - revert p s k Hok Hl He Ht Hn Hk. induction es as [|en es IH]; intros p s k Hok Hl He Ht Hn Hk; [cbn in Hk; lia|].
    destruct k as [|k]; [done|]. apply Forall_cons in Hok as [Hen Hok]. unfold table in Hl, He, Ht. cbn [map concat] in Hl, He, Ht.
    apply laid_app in Hl as [Hl1 Hl2]. rewrite length_app in He, Ht. fold (table es) in *. rewrite (entries_step _ _ _ en) by (done || lia).
    apply IH; [done|done|lia| |unfold found; cbn [cpus]; rewrite length_take; lia|cbn in Hk; lia].
    by rewrite <- Z.add_assoc, <- Nat2Z.inj_add.
Qed.
End Mp.

Lemma mpinit_run (mem : Z -> Z) (in23 mp conf : Z) (es : list entry) (s : mpst) (k : nat) :
  mpconfig mem = Some (mp, conf) -> Forall entry_ok es -> laid mem (conf + sizeof_mpconf) (table es) -> cpus s = [] ->
  conf_length mem conf = sizeof_mpconf + Z.of_nat (length (table es)) -> (length es < k)%nat ->
  mpinit mem in23 k s = Ret tt (mkMpst (conf_lapicaddr mem conf) (take NCPU (procs es)) (last_ioapic (ioapicid s) es)
     (ports s ++ if imcrp mem mp =? 0 then [] else [(34, 112); (35, Z.lor in23 1)])).
Proof.
  intros Hc Hok Hl Hs He Hk. unfold mpinit. rewrite Hc, He. unfold bind, modify. replace k with (length es + S (k - S (length es)))%nat by lia.
  rewrite entries_table; [|done|done|lia|cbn; rewrite Hs; cbn; lia]. cbn [entries].
  destruct (Z.ltb_spec (conf + sizeof_mpconf + Z.of_nat (length (table es))) (conf + (sizeof_mpconf + Z.of_nat (length (table es))))); [lia|].
  unfold found, ret. cbn [lapic cpus ioapicid ports negb]. rewrite Hs, app_nil_l. destruct (imcrp mem mp =? 0); cbn [negb].
  - by rewrite app_nil_r.
  - unfold outb, modify. cbn. by rewrite <- app_assoc.
Qed.

(** ** Tables in low memory *)
Section Low.
Context (m m' : Z -> Z) (lim : Z).
Context (Hm : forall a, 0 <= a < lim -> m' a = m a) (Hb : forall a, 0 <= m a < 256) (Hlim : 1048576 <= lim).

Lemma has_sig_low p s : 0 <= p -> p + 4 <= lim -> has_sig m' p s = has_sig m p s.
Proof. intros H1 H2. unfold has_sig. destruct s as [[[a b] c] d]. by rewrite !Hm by lia. Qed.

Lemma sum_loop_low k : forall p, 0 <= p -> p + Z.of_nat k <= lim -> sum_loop m' k p = sum_loop m k p.
Proof. induction k as [|k IH]; intros p H1 H2; [done|]. cbn [sum_loop]. rewrite Hm, IH by lia. done. Qed.

Lemma sum_low p n : 0 <= p -> 0 <= n -> p + n <= lim -> sum m' p n = sum m p n.
Proof. intros H1 Hn H2. unfold sum. by rewrite sum_loop_low by lia. Qed.

Lemma u16_low p : 0 <= p -> p + 2 <= lim -> u16_at m' p = u16_at m p.
Proof. intros H1 H2. unfold u16_at. by rewrite !Hm by lia. Qed.
Lemma u32_low p : 0 <= p -> p + 4 <= lim -> u32_at m' p = u32_at m p.
Proof. intros H1 H2. unfold u32_at. by rewrite !u16_low by lia. Qed.

Lemma mpsearch_loop_low k : forall p, 0 <= p -> p + sizeof_mp * Z.of_nat k <= lim -> mpsearch_loop m' k p = mpsearch_loop m k p.
Proof.
  unfold sizeof_mp. induction k as [|k IH]; intros p H1 H2; [done|]. cbn [mpsearch_loop]. unfold sizeof_mp.
  rewrite has_sig_low, sum_low, IH by lia. done.
Qed.

Lemma mpsearch_loop_in k : forall p mp, mpsearch_loop m k p = Some mp -> p <= mp /\ mp + sizeof_mp <= p + sizeof_mp * Z.of_nat k.
Proof.
  unfold sizeof_mp. induction k as [|k IH]; intros p mp; [done|]. cbn [mpsearch_loop]. unfold sizeof_mp.
  destruct (_ && _); [intros [= <-]; lia|]. intros E. apply IH in E. lia.
Qed.

Lemma u16_range p : 0 <= u16_at m p < 65536.
Proof. unfold u16_at. pose proof (Hb p). pose proof (Hb (p + 1)). lia. Qed.
Lemma u32_at_range p : 0 <= u32_at m p.
Proof. unfold u32_at. pose proof (u16_range p). pose proof (u16_range (p + 2)). lia. Qed.

Lemma ebda_pos : 0 <= ebda m.
Proof. unfold ebda. apply Z.shiftl_nonneg, Z.lor_nonneg. split; [apply Z.shiftl_nonneg|]; apply Hb. Qed.

Lemma ebda_low : ebda m' = ebda m.
Proof. unfold ebda. by rewrite !Hm by lia. Qed.

(** With an EBDA the search stays below 1 MB. *)
Lemma mpsearch_low : ebda m <> 0 -> ebda m + 1024 <= lim ->
  mpsearch m' = mpsearch m /\ forall mp, mpsearch m = Some mp -> 0 <= mp /\ mp + sizeof_mp <= lim.
Proof.
  intros He Hl. pose proof ebda_pos. unfold mpsearch, mpsearch1.
  change (Z.to_nat ((1024 + sizeof_mp - 1) / sizeof_mp)) with 64%nat.
  change (Z.to_nat ((65536 + sizeof_mp - 1) / sizeof_mp)) with (64 * 64)%nat.
  change (1024 + 15) with 1039. change (1024 + 14) with 1038. fold (ebda m) (ebda m'). rewrite ebda_low.
  rewrite (proj2 (Z.eqb_neq _ _) He). cbn [negb]. remember (64 * 64)%nat as big eqn:Ebig.
  assert (Hbig : sizeof_mp * Z.of_nat big = 65536) by (subst big; reflexivity).
  rewrite !mpsearch_loop_low by (unfold sizeof_mp in *; lia). split; [done|]. intros mp.
  destruct (mpsearch_loop m 64 (ebda m)) as [x|] eqn:E.
  - intros [= <-]. apply mpsearch_loop_in in E. unfold sizeof_mp in *. lia.
  - intros E'. apply mpsearch_loop_in in E'. unfold sizeof_mp in *. lia.
Qed.

Lemma mpconfig_low mp conf : ebda m <> 0 -> ebda m + 1024 <= lim -> mpconfig m = Some (mp, conf) ->
  sizeof_mpconf <= conf_length m conf -> conf + conf_length m conf <= lim ->
  mpconfig m' = Some (mp, conf) /\ 0 <= conf /\ conf_length m' conf = conf_length m conf /\
  conf_lapicaddr m' conf = conf_lapicaddr m conf /\ imcrp m' mp = imcrp m mp.
Proof.
  intros He Hl Hc Hlen Hend. unfold sizeof_mpconf in Hlen. destruct (mpsearch_low He Hl) as (Es & Hin).
  unfold mpconfig in *. rewrite Es. destruct (mpsearch m) as [x|]; [|done]. destruct (Hin x eq_refl) as [H1 H2]. unfold sizeof_mp in H2.
  assert (Ep : physaddr m' x = physaddr m x) by (unfold physaddr; apply u32_low; lia). rewrite Ep.
  destruct (physaddr m x =? 0); [done|]. set (cf := physaddr m x) in *. cbv zeta in *.
  assert (Hcf : cf = conf /\ x = mp).
  { destruct (negb (has_sig m cf sig_pcmp)); [done|]. destruct (_ && _); [done|]. destruct (negb _); [done|]. by injection Hc as -> ->. }
  assert (0 <= cf) by (apply u32_at_range). destruct Hcf as [-> ->]. 
  assert (E1 : conf_length m' conf = conf_length m conf) by (unfold conf_length; apply u16_low; lia).
  assert (E2 : conf_version m' conf = conf_version m conf) by (unfold conf_version; apply Hm; lia).
  rewrite E1, E2, has_sig_low, sum_low by lia. split; [exact Hc|]. split; [done|]. split; [done|].
  split; [unfold conf_lapicaddr; apply u32_low; lia|unfold imcrp; apply Hm; lia].
Qed.
End Low.

(** C37.  Finding the processors.  The structure that mpinit uses is the first one
    with the signature and a right checksum, in the EBDA (or, without one, at the
    end of base memory) and in the BIOS.  For every table of entries that it leads
    to, mpinit ends with the address of the local APIC, the processors of the table
    in order, the first NCPU of them, and its last I/O APIC; the IMCR is switched
    where there is one.  A table with an entry of an unknown type makes it loop for
    ever: the message that the machine is not suitable is never printed. *)
Theorem mpinit_correct (mem : Z -> Z) (in23 mp conf : Z) (es : list entry) (s : mpst) :
  mpconfig mem = Some (mp, conf) -> Forall entry_ok es -> laid mem (conf + sizeof_mpconf) (table es) -> cpus s = [] ->
  List.find (is_mp mem) (candidates mem) = Some mp /\
  (conf_length mem conf = sizeof_mpconf + Z.of_nat (length (table es)) ->
   forall k, (length es < k)%nat ->
   mpinit mem in23 k s = Ret tt (mkMpst (conf_lapicaddr mem conf) (take NCPU (procs es)) (last_ioapic (ioapicid s) es)
     (ports s ++ if imcrp mem mp =? 0 then [] else [(34, 112); (35, Z.lor in23 1)]))) /\
  (sizeof_mpconf + Z.of_nat (length (table es)) < conf_length mem conf ->
   5 <= mem (conf + sizeof_mpconf + Z.of_nat (length (table es))) -> forall k, mpinit mem in23 k s = Hang).
Proof.
  intros Hc Hok Hl Hs. split; [|split].
  - rewrite <- mpsearch_first. unfold mpconfig in Hc. destruct (mpsearch mem) as [m|]; [|done].
    destruct (physaddr mem m =? 0); [done|]. cbv zeta in Hc. destruct (negb (has_sig _ _ _)); [done|].
    destruct (_ && _); [done|]. destruct (negb _); [done|]. by injection Hc as -> _.
  - intros He k Hk. by apply mpinit_run.
  - intros He Ht k. unfold mpinit. rewrite Hc. unfold bind, modify. rewrite (entries_stuck _ es); [done|done|done|lia|done|cbn; rewrite Hs; cbn; lia].
Qed.

(** A structure in the BIOS, and a table at 0x9000 with two processors and an I/O
    APIC. *)
Definition demo_mp : list Z := [95; 77; 80; 95; 0; 144; 0; 0; 1; 4; 144; 0; 128; 0; 0; 0].
Definition demo_es : list entry := [EProc 0 (replicate 18 0); EProc 1 (replicate 18 0); EIoapic 2 (replicate 6 0)].
Definition demo_conf : list Z :=
  [80; 67; 77; 80; 92; 0; 4; 141] ++ replicate 28 0 ++ [0; 0; 224; 254; 0; 0; 0; 0] ++ table demo_es.
Definition demo_mem (a : Z) : Z :=
  if (983040 <=? a) && (a <? 983056) then default 0 (demo_mp !! Z.to_nat (a - 983040))
  else if (36864 <=? a) && (a <? 36956) then default 0 (demo_conf !! Z.to_nat (a - 36864)) else 0.

Lemma demo_laid : laid demo_mem (36864 + sizeof_mpconf) (table demo_es).
Proof.
  intros i x E. pose proof (lookup_lt_Some _ _ _ E) as Hi. change (length (table demo_es)) with 48%nat in Hi.
  unfold demo_mem, sizeof_mpconf. destruct (Z.leb_spec 983040 (36864 + 44 + Z.of_nat i)); [lia|].
  destruct (Z.leb_spec 36864 (36864 + 44 + Z.of_nat i)); [|lia]. destruct (Z.ltb_spec (36864 + 44 + Z.of_nat i) 36956); [|lia]. cbn [andb].
  replace (Z.to_nat (36864 + 44 + Z.of_nat i - 36864)) with (44 + i)%nat by lia.
  change demo_conf with (take 44 demo_conf ++ table demo_es).
  rewrite lookup_app_r by (rewrite length_take; cbn; lia). replace (44 + i - length (take 44 demo_conf))%nat with i by (cbn; lia).
  by rewrite E.
Qed.

Lemma demo_config : mpconfig demo_mem = Some (983040, 36864).
Proof. vm_compute. reflexivity. Qed.

Lemma mpinit_correct_witness :
  mpinit demo_mem 0 4 (mkMpst 0 [] 0 []) = Ret tt (mkMpst 4276092928 [0; 1] 2 [(34, 112); (35, 1)]).
Proof.
  destruct (mpinit_correct demo_mem 0 983040 36864 demo_es (mkMpst 0 [] 0 []) demo_config ltac:(repeat constructor) demo_laid eq_refl)
    as (_ & H & _).
  exact (H eq_refl 4%nat ltac:(cbn; lia)).
Defined.
