(* ===== verification/Rtc.v ===== *)
(** * The real-time clock (lapic.c: cmos_read, fill_rtcdate, cmostime)

    The clock runs while it is read: a read of a register takes some time, and the
    registers show the date of the moment.  [cmostime] reads the date until it gets
    the same one twice. *)

From stdpp Require Import base numbers list strings.
From Stdlib Require Import ZArith Lia.
From S2P Require Import Prelude.

Local Open Scope Z_scope.
Local Open Scope kernel_scope.

Definition CMOS_PORT : Z := 112.
Definition CMOS_RETURN : Z := 113.
Definition CMOS_STATA : Z := 10.
Definition CMOS_STATB : Z := 11.
Definition CMOS_UIP : Z := 128.
Definition SECS : Z := 0.
Definition MINS : Z := 2.
Definition HOURS : Z := 4.
Definition DAY : Z := 7.
Definition MONTH : Z := 8.
Definition YEAR : Z := 9.

Record rtcdate := mkDate { second : Z; minute : Z; hour : Z; day : Z; month : Z; year : Z }.
#[export] Instance rtcdate_eq_dec : EqDecision rtcdate.
Proof. solve_decision. Defined.

(** The clock: the time, the register selected, and how long the next reads take. *)
Record rtc := mkRtc { now : nat; selected : Z; waits : list nat }.

Section Rtc.
(** What register [r] shows at time [n]. *)
Context (shows : Z -> nat -> Z).

Definition outb (port v : Z) : M rtc unit :=
  modify (fun s => if port =? CMOS_PORT then mkRtc (now s) v (waits s) else s).
Definition inb (port : Z) : M rtc Z :=
  s <- get;;
  put (mkRtc (now s + default O (head (waits s))) (selected s) (tail (waits s)));;
  ret (if port =? CMOS_RETURN then shows (selected s) (now s) else 0).

Definition cmos_read (reg : Z) : M rtc Z :=
  outb CMOS_PORT reg;;
  inb CMOS_RETURN.

Definition fill_rtcdate : M rtc rtcdate :=
  s <- cmos_read SECS;;
  mi <- cmos_read MINS;;
  h <- cmos_read HOURS;;
  d <- cmos_read DAY;;
  mo <- cmos_read MONTH;;
  y <- cmos_read YEAR;;
  ret (mkDate s mi h d mo y).

(** The loop, [k] rounds of it. *)
Fixpoint cmostime_loop (k : nat) : M rtc rtcdate :=
  match k with
  | O => hang
  | S k' =>
      t1 <- fill_rtcdate;;
      a <- cmos_read CMOS_STATA;;
      if negb (Z.land a CMOS_UIP =? 0) then cmostime_loop k'
      else
        t2 <- fill_rtcdate;;
        if bool_decide (t1 = t2) then ret t1 else cmostime_loop k'
  end.

Definition conv (x : Z) : Z := Z.shiftr x 4 * 10 + Z.land x 15.
Definition conv_date (t : rtcdate) : rtcdate :=
  mkDate (conv (second t)) (conv (minute t)) (conv (hour t)) (conv (day t)) (conv (month t)) (conv (year t)).

Definition cmostime (k : nat) : M rtc rtcdate :=
  sb <- cmos_read CMOS_STATB;;
  let bcd := Z.land sb (Z.shiftl 1 2) =? 0 in
  t1 <- cmostime_loop k;;
  let t1 := if bcd then conv_date t1 else t1 in
  ret (mkDate (second t1) (minute t1) (hour t1) (day t1) (month t1) (u32 (year t1 + 2000))).

End Rtc.

(** ** A clock *)

(** A second counter that does not go back, the date of each second, and whether the
    registers are in BCD: what a clock chip shows. *)
Definition enc (bcd : bool) (x : Z) : Z := if bcd then 16 * (x / 10) + x mod 10 else x.

Definition encoded (bcd : bool) (t : rtcdate) : rtcdate :=
  mkDate (enc bcd (second t)) (enc bcd (minute t)) (enc bcd (hour t)) (enc bcd (day t)) (enc bcd (month t)) (enc bcd (year t)).

Definition two_digits (t : rtcdate) : Prop :=
  0 <= second t < 60 /\ 0 <= minute t < 100 /\ 0 <= hour t < 100 /\ 0 <= day t < 100 /\ 0 <= month t < 100 /\ 0 <= year t < 100.

Class Clock (shows : Z -> nat -> Z) (sec : nat -> Z) (date : Z -> rtcdate) (bcd : bool) : Prop := {
  sec_mono n m : (n <= m)%nat -> sec n <= sec m;
  date_digits t : two_digits (date t);
  date_second t : second (date t) = t mod 60;
  shows_date n : mkDate (shows SECS n) (shows MINS n) (shows HOURS n) (shows DAY n) (shows MONTH n) (shows YEAR n) =
    encoded bcd (date (sec n));
  shows_statb n : (Z.land (shows CMOS_STATB n) 4 =? 0) = bcd
}.

Lemma conv_enc x : 0 <= x < 100 -> conv (enc true x) = x.
Proof.
  intros Hx. unfold conv, enc. rewrite Z.shiftr_div_pow2 by done. change 15 with (Z.ones 4). rewrite Z.land_ones by done.
  change (2 ^ 4) with 16. pose proof (Z.div_mod x 10 ltac:(done)). pose proof (Z.mod_pos_bound x 10 ltac:(done)).
  rewrite (Z.mul_comm 16), Z.div_add_l, (Z.div_small (x mod 10)) by lia.
  rewrite (Z.add_comm (_ * 16)), Z.mod_add, (Z.mod_small (x mod 10)) by lia. lia.
Qed.

Lemma conv_encoded t : two_digits t -> conv_date (encoded true t) = t.
Proof.
  intros (H1 & H2 & H3 & H4 & H5 & H6). unfold conv_date, encoded. cbn [second minute hour day month year].
  rewrite !conv_enc by lia. by destruct t.
Qed.

Lemma enc_inj bcd x y : 0 <= x < 100 -> 0 <= y < 100 -> enc bcd x = enc bcd y -> x = y.
Proof.
  intros Hx Hy E. destruct bcd; [|done]. rewrite <- (conv_enc x), <- (conv_enc y) by done. by rewrite E.
Qed.

Section Clock.
Context {shows : Z -> nat -> Z} {sec : nat -> Z} {date : Z -> rtcdate} {bcd : bool} {CL : Clock shows sec date bcd}.

(** No read takes as long as eight seconds. *)
Definition quick (w : nat) : Prop := forall n, sec (n + w) < sec n + 8.

Definition finish (s : rtc) : nat := (now s + list_sum (waits s))%nat.

(** From [s] to [s'] there were [k] reads. *)
Definition later (k : nat) (s s' : rtc) : Prop :=
  (now s <= now s')%nat /\ finish s' = finish s /\ waits s' = drop k (waits s) /\ Forall quick (waits s') /\
  sec (now s') <= sec (now s) + 7 * Z.of_nat k.

Lemma later_refl s : Forall quick (waits s) -> later 0 s s.
Proof. intros H. split; [done|]. split; [done|]. split; [by rewrite drop_0|]. split; [done|]. lia. Qed.

Lemma later_trans j k s1 s2 s3 : later j s1 s2 -> later k s2 s3 -> later (j + k) s1 s3.
Proof.
  intros (A1 & A2 & A3 & A4 & A5) (B1 & B2 & B3 & B4 & B5). split; [lia|]. split; [congruence|].
  split; [by rewrite B3, A3, drop_drop|]. split; [done|]. lia.
Qed.

Lemma read_later r s : Forall quick (waits s) -> exists s', cmos_read shows r s = Ret (shows r (now s)) s' /\ later 1 s s'.
Proof.
  intros Hq. eexists. split; [reflexivity|]. destruct s as [n x [|w ws]]; unfold later, finish; cbn in *.
  - rewrite Nat.add_0_r. repeat split; (done || lia).
  - apply Forall_cons in Hq as [Hw Hq]. specialize (Hw n). repeat split; try (done || lia).
Qed.

Lemma later_quick k s s' : later k s s' -> Forall quick (waits s').
Proof. by intros (_ & _ & _ & H & _). Qed.

(** A reading of the date: each register at a moment, in order. *)
Lemma fill_later s : Forall quick (waits s) -> exists n1 n2 n3 n4 n5 s',
  fill_rtcdate shows s =
    Ret (mkDate (shows SECS (now s)) (shows MINS n1) (shows HOURS n2) (shows DAY n3) (shows MONTH n4) (shows YEAR n5)) s' /\
  (now s <= n1 <= now s')%nat /\ (now s <= n2 <= now s')%nat /\ (now s <= n3 <= now s')%nat /\ (now s <= n4 <= now s')%nat /\
  (now s <= n5 <= now s')%nat /\ later 6 s s'.
Proof.
  intros Hq. destruct (read_later SECS s Hq) as (s1 & E1 & L1). destruct (read_later MINS s1 (later_quick _ _ _ L1)) as (s2 & E2 & L2).
  destruct (read_later HOURS s2 (later_quick _ _ _ L2)) as (s3 & E3 & L3). destruct (read_later DAY s3 (later_quick _ _ _ L3)) as (s4 & E4 & L4).
  destruct (read_later MONTH s4 (later_quick _ _ _ L4)) as (s5 & E5 & L5). destruct (read_later YEAR s5 (later_quick _ _ _ L5)) as (s6 & E6 & L6).
  exists (now s1), (now s2), (now s3), (now s4), (now s5), s6.
  pose proof (proj1 L1). pose proof (proj1 L2). pose proof (proj1 L3). pose proof (proj1 L4). pose proof (proj1 L5). pose proof (proj1 L6).
  split; [|split_and!; try lia].
  - unfold fill_rtcdate. by rewrite (bind_run _ _ _ _ _ E1), (bind_run _ _ _ _ _ E2), (bind_run _ _ _ _ _ E3), (bind_run _ _ _ _ _ E4),
      (bind_run _ _ _ _ _ E5), (bind_run _ _ _ _ _ E6).
  - apply (later_trans 1 5 _ _ _ L1), (later_trans 1 4 _ _ _ L2), (later_trans 1 3 _ _ _ L3), (later_trans 1 2 _ _ _ L4), (later_trans 1 1 _ _ _ L5), L6.
Qed.

Lemma same_second n m : sec n <= sec m < sec n + 60 -> shows SECS n = shows SECS m -> sec n = sec m.
Proof.
  intros Hs E. pose proof (f_equal second (shows_date n)) as En. pose proof (f_equal second (shows_date m)) as Em.
  cbn in En, Em. rewrite En, Em, !date_second in E.
  pose proof (Z.mod_pos_bound (sec n) 60 ltac:(done)). pose proof (Z.mod_pos_bound (sec m) 60 ltac:(done)).
  apply enc_inj in E; [|lia|lia]. pose proof (Z.div_mod (sec n) 60 ltac:(done)). pose proof (Z.div_mod (sec m) 60 ltac:(done)). lia.
Qed.

(** While the second is the same, the registers show one date. *)
Lemma same_date n n1 n2 n3 n4 n5 : sec n1 = sec n -> sec n2 = sec n -> sec n3 = sec n -> sec n4 = sec n -> sec n5 = sec n ->
  mkDate (shows SECS n) (shows MINS n1) (shows HOURS n2) (shows DAY n3) (shows MONTH n4) (shows YEAR n5) = encoded bcd (date (sec n)).
Proof.
  intros E1 E2 E3 E4 E5.
  pose proof (f_equal second (shows_date n)) as F0. pose proof (f_equal minute (shows_date n1)) as F1.
  pose proof (f_equal hour (shows_date n2)) as F2. pose proof (f_equal day (shows_date n3)) as F3.
  pose proof (f_equal month (shows_date n4)) as F4. pose proof (f_equal year (shows_date n5)) as F5.
  cbn in F0, F1, F2, F3, F4, F5. unfold encoded. by rewrite F0, F1, F2, F3, F4, F5, E1, E2, E3, E4, E5.
Qed.

Lemma between n j m : (n <= j <= m)%nat -> sec n = sec m -> sec j = sec n.
Proof. intros Hj E. pose proof (sec_mono n j ltac:(lia)). pose proof (sec_mono j m ltac:(lia)). lia. Qed.

(** The loop ends once the reads are quick and the clock is not in an update, with
    the date of one moment. *)
Lemma loop_ends k : forall s, Forall quick (waits s) -> (length (waits s) < k)%nat -> Z.land (shows CMOS_STATA (finish s)) CMOS_UIP = 0 ->
  exists n s', cmostime_loop shows k s = Ret (encoded bcd (date (sec n))) s' /\ (now s <= n <= now s')%nat.
Proof.
  induction k as [|k IH]; intros s Hq Hk Hu; [lia|]. cbn [cmostime_loop].
  destruct (fill_later s Hq) as (n1 & n2 & n3 & n4 & n5 & s1 & E1 & B1 & B2 & B3 & B4 & B5 & L1). rewrite (bind_run _ _ _ _ _ E1).
  destruct (read_later CMOS_STATA s1 (later_quick _ _ _ L1)) as (s2 & E2 & L2). rewrite (bind_run _ _ _ _ _ E2).
  pose proof (later_trans _ _ _ _ _ L1 L2) as L12.
  assert (Hagain : forall j s3, later j s s3 -> waits s <> [] -> (0 < j)%nat ->
    exists n s', cmostime_loop shows k s3 = Ret (encoded bcd (date (sec n))) s' /\ (now s <= n <= now s')%nat).
  { intros j s3 L Hne Hj. destruct L as (A1 & A2 & A3 & A4 & _). destruct (IH s3 A4) as (n & s' & E & Hn).
    - rewrite A3, length_drop. destruct (waits s); [done|]. cbn in *. lia.
    - by rewrite A2.
    - exists n, s'. split; [done|]. lia. }
  assert (Hempty : waits s = [] -> now s1 = now s /\ finish s = now s).
  { intros Ew. destruct L1 as (_ & A2 & A3 & _). unfold finish in *. rewrite Ew in *. cbn in A3. rewrite A3 in A2. cbn in A2. cbn. lia. }
  destruct (Z.land (shows CMOS_STATA (now s1)) CMOS_UIP =? 0) eqn:Eu; cbn [negb].
  2:{ apply (Hagain 7%nat); [done| |lia]. intros Ew. destruct (Hempty Ew) as [F1 F2]. rewrite F1, <- F2, Hu in Eu. done. }
  destruct (fill_later s2 (later_quick _ _ _ L2)) as (m1 & m2 & m3 & m4 & m5 & s3 & E3 & C1 & C2 & C3 & C4 & C5 & L3). rewrite (bind_run _ _ _ _ _ E3).
  pose proof (sec_mono (now s) (now s2) (proj1 L12)) as Hle. pose proof L12 as (A1 & A2 & A3 & A4 & A5).
  pose proof (proj1 L2). pose proof (proj1 L3).
  case_bool_decide as Eq.
  - injection Eq as Es _ _ _ _ _. pose proof (same_second (now s) (now s2) ltac:(lia) Es) as Esec.
    exists (now s), s3. split; [|lia]. unfold ret. f_equal. apply same_date; eapply (between _ _ (now s2)); (lia || done).
  - apply (Hagain 13%nat _ (later_trans 7 6 _ _ _ L12 L3)); [|lia]. intros Ew. apply Eq.
    pose proof (later_trans 7 6 _ _ _ L12 L3) as (_ & F2 & F3 & _). rewrite Ew in F3. cbn in F3. unfold finish in F2. rewrite Ew, F3 in F2.
    cbn in F2. destruct (Hempty Ew) as [F1 _].
    replace n1 with (now s) by lia. replace n2 with (now s) by lia. replace n3 with (now s) by lia. replace n4 with (now s) by lia.
    replace n5 with (now s) by lia. replace m1 with (now s) by lia. replace m2 with (now s) by lia. replace m3 with (now s) by lia.
    replace m4 with (now s) by lia. replace m5 with (now s) by lia. by replace (now s2) with (now s) by lia.
Qed.

(** The date.  However the clock runs while cmostime reads it, in BCD or in
    binary, if no single read takes eight seconds and the reads are quick in the end,
    at a moment when the clock is not in an update, cmostime returns, and what it
    returns is the whole date of one moment between its start and its end, never a
    mixture of two, with the year counted from 2000. *)
Theorem cmostime_correct (s : rtc) (k : nat) : Forall quick (waits s) -> (length (waits s) < k)%nat ->
  Z.land (shows CMOS_STATA (finish s)) CMOS_UIP = 0 ->
  exists n s', (now s <= n <= now s')%nat /\
    let d := date (sec n) in
    cmostime shows k s = Ret (mkDate (second d) (minute d) (hour d) (day d) (month d) (year d + 2000)) s'.
Proof.
  intros Hq Hk Hu. unfold cmostime. destruct (read_later CMOS_STATB s Hq) as (s1 & E1 & L1). rewrite (bind_run _ _ _ _ _ E1).
  destruct L1 as (A1 & A2 & A3 & A4 & _).
  destruct (loop_ends k s1) as (n & s2 & E2 & Hn); [done|rewrite A3, length_drop; lia|by rewrite A2|].
  exists n, s2. split; [lia|]. cbv zeta. rewrite (bind_run _ _ _ _ _ E2). change (Z.shiftl 1 2) with 4. rewrite shows_statb.
  assert (Et : (if bcd then conv_date (encoded bcd (date (sec n))) else encoded bcd (date (sec n))) = date (sec n)).
  { destruct bcd; [apply conv_encoded, date_digits|by destruct (date (sec n))]. }
  rewrite Et. pose proof (date_digits (sec n)) as (_ & _ & _ & _ & _ & Hy). by rewrite u32_small by lia.
Qed.
End Clock.

(** A clock that counts tenths of a second in its time, in BCD, on 16 November 26. *)
Definition demo_sec (n : nat) : Z := Z.of_nat n / 10.
Definition demo_date (t : Z) : rtcdate := mkDate (t mod 60) (t / 60 mod 60) (t / 3600 mod 24) 16 11 26.
Definition demo_shows (r : Z) (n : nat) : Z :=
  let d := encoded true (demo_date (demo_sec n)) in
  if r =? SECS then second d else if r =? MINS then minute d else if r =? HOURS then hour d
  else if r =? DAY then day d else if r =? MONTH then month d else if r =? YEAR then year d
  else if r =? CMOS_STATB then 2 else 0.

#[export] Instance demo_clock : Clock demo_shows demo_sec demo_date true.
Proof.
  split.
  - intros n m H. apply Z.div_le_mono; lia.
  - intros t. unfold two_digits, demo_date. cbn. pose proof (Z.mod_pos_bound t 60 ltac:(done)).
    pose proof (Z.mod_pos_bound (t / 60) 60 ltac:(done)). pose proof (Z.mod_pos_bound (t / 3600) 24 ltac:(done)). lia.
  - done.
  - done.
  - done.
Qed.

Lemma cmostime_correct_witness : exists n s', (59 <= n <= now s')%nat /\
  let d := demo_date (demo_sec n) in
  cmostime demo_shows 4 (mkRtc 59 0 [3; 70; 0]%nat) = Ret (mkDate (second d) (minute d) (hour d) (day d) (month d) (year d + 2000)) s'.
Proof.
  assert (Hq : forall w, (w <= 70)%nat -> quick (sec := demo_sec) w).
  { intros w Hw n. unfold demo_sec. assert (Z.of_nat (n + w) / 10 <= (Z.of_nat n + 7 * 10) / 10) by (apply Z.div_le_mono; lia).
    rewrite Z.div_add in * by done. lia. }
  apply (cmostime_correct (shows := demo_shows) (sec := demo_sec) (date := demo_date) (bcd := true) (mkRtc 59 0 [3; 70; 0]%nat) 4%nat);
    [repeat constructor; apply Hq; lia|cbn; lia|reflexivity].
Defined.
