(* ===== verification/Apic.v ===== *)
(** * Interrupt controllers and the serial port (lapic.c, ioapic.c, picirq.c, uart.c)

    The code that sets up devices is a sequence of reads and writes of ports and of
    memory-mapped registers.  The state is the history of these; what a read returns
    is a function of the history, the hardware. *)

From stdpp Require Import base numbers list strings.
From Stdlib Require Import ZArith Lia.
From S2P Require Import Prelude Trap.

Local Open Scope Z_scope.
Local Open Scope kernel_scope.

(** ** Registers of the local APIC, as indices *)
Definition ID : Z := 8.
Definition VER : Z := 12.
Definition TPR : Z := 32.
Definition EOI : Z := 44.
Definition SVR : Z := 60.
Definition ENABLE : Z := 256.
Definition ESR : Z := 160.
Definition ICRLO : Z := 192.
Definition INIT : Z := 1280.
Definition STARTUP : Z := 1536.
Definition DELIVS : Z := 4096.
Definition ASSERT : Z := 16384.
Definition LEVEL : Z := 32768.
Definition BCAST : Z := 524288.
Definition ICRHI : Z := 196.
Definition TIMER : Z := 200.
Definition X1 : Z := 11.
Definition PERIODIC : Z := 131072.
Definition PCINT : Z := 208.
Definition LINT0 : Z := 212.
Definition LINT1 : Z := 216.
Definition ERROR : Z := 220.
Definition MASKED : Z := 65536.
Definition TICR : Z := 224.
Definition TDCR : Z := 248.

(** ** ioapic.c and uart.c *)
Definition REG_ID : Z := 0.
Definition REG_VER : Z := 1.
Definition REG_TABLE : Z := 16.
Definition INT_DISABLED : Z := 65536.
Definition COM1 : Z := 1016.
Definition IRQ_ERROR : Z := 19.

(** ** Device accesses *)
Inductive io :=
| InB (port : Z)
| OutB (port v : Z)
| LapicR (reg : Z)
| LapicW (reg v : Z)
| IoapicSel (reg : Z)
| IoapicR
| IoapicW (v : Z)
| PhysW (addr v : Z)      (* a store of 16 bits to physical memory *)
| Cprintf (s : string).

Record dev := mkDev {
  hist : list io;
  lapic_on : bool;        (* lapic != 0 *)
  ioapicid : Z;
  uart : bool
}.

Section Dev.
(** What a read returns after a history, and how often a status is polled. *)
Context (answer : list io -> io -> Z) (patience : nat).

Definition access (e : io) : M dev unit :=
  modify (fun s => mkDev (hist s ++ [e]) (lapic_on s) (ioapicid s) (uart s)).
Definition ask (e : io) : M dev Z :=
  v <- gets (fun s => answer (hist s) e);;
  access e;;
  ret v.

Definition inb (port : Z) : M dev Z := ask (InB port).
Definition outb (port v : Z) : M dev unit := access (OutB port v).

(** ** lapic.c *)
Definition lapicw (index value : Z) : M dev unit :=
  access (LapicW index value);;
  ask (LapicR ID);;
  ret tt.

Fixpoint wait_delivered (k : nat) : M dev unit :=
  match k with
  | O => hang
  | S k' => v <- ask (LapicR ICRLO);; if negb (Z.land v DELIVS =? 0) then wait_delivered k' else ret tt
  end.

Definition lapicinit : M dev unit :=
  on <- gets lapic_on;;
  if negb on then ret tt
  else
    lapicw SVR (Z.lor ENABLE (T_IRQ0 + IRQ_SPURIOUS));;
    lapicw TDCR X1;;
    lapicw TIMER (Z.lor PERIODIC (T_IRQ0 + IRQ_TIMER));;
    lapicw TICR 10000000;;
    lapicw LINT0 MASKED;;
    lapicw LINT1 MASKED;;
    ver <- ask (LapicR VER);;
    (if Z.land (Z.shiftr ver 16) 255 >=? 4 then lapicw PCINT MASKED else ret tt);;
    lapicw ERROR (T_IRQ0 + IRQ_ERROR);;
    lapicw ESR 0;;
    lapicw ESR 0;;
    lapicw EOI 0;;
    lapicw ICRHI 0;;
    lapicw ICRLO (Z.lor (Z.lor BCAST INIT) LEVEL);;
    wait_delivered patience;;
    lapicw TPR 0.

Definition lapicid : M dev Z :=
  on <- gets lapic_on;;
  if negb on then ret 0 else v <- ask (LapicR ID);; ret (Z.shiftr v 24).

Definition lapiceoi : M dev unit :=
  on <- gets lapic_on;;
  if on : bool then lapicw EOI 0 else ret tt.

(** The loop of lapicstartap that sends the startup interrupt [k] times. *)
Fixpoint send_startup (k : nat) (apicid addr : Z) : M dev unit :=
  match k with
  | O => ret tt
  | S k' =>
      lapicw ICRHI (u32 (Z.shiftl apicid 24));;
      lapicw ICRLO (Z.lor STARTUP (Z.shiftr addr 12));;
      send_startup k' apicid addr
  end.

Definition lapicstartap (apicid addr : Z) : M dev unit :=
  outb 112 15;;
  outb 113 10;;
  access (PhysW 1127 0);;
  access (PhysW 1129 (Z.shiftr addr 4 mod 65536));;
  lapicw ICRHI (u32 (Z.shiftl apicid 24));;
  lapicw ICRLO (Z.lor (Z.lor INIT LEVEL) ASSERT);;
  lapicw ICRLO (Z.lor INIT LEVEL);;
  send_startup 2 apicid addr.

(** ** ioapic.c *)
Definition ioapicread (reg : Z) : M dev Z :=
  access (IoapicSel reg);;
  ask IoapicR.
Definition ioapicwrite (reg data : Z) : M dev unit :=
  access (IoapicSel reg);;
  access (IoapicW data).

(** The loop of ioapicinit from [i] on, [k] interrupts. *)
Fixpoint disable_from (k : nat) (i : Z) : M dev unit :=
  match k with
  | O => ret tt
  | S k' =>
      ioapicwrite (REG_TABLE + 2 * i) (Z.lor INT_DISABLED (T_IRQ0 + i));;
      ioapicwrite (REG_TABLE + 2 * i + 1) 0;;
      disable_from k' (i + 1)
  end.

Definition ioapicinit : M dev unit :=
  ver <- ioapicread REG_VER;;
  let maxintr := Z.land (Z.shiftr ver 16) 255 in
  id <- ioapicread REG_ID;;
  want <- gets ioapicid;;
  (if negb (Z.shiftr id 24 =? want) then access (Cprintf "ioapicinit: id isn't equal to ioapicid; not a MP") else ret tt);;
  disable_from (S (Z.to_nat maxintr)) 0.

Definition ioapicenable (irq cpunum : Z) : M dev unit :=
  ioapicwrite (REG_TABLE + 2 * irq) (T_IRQ0 + irq);;
  ioapicwrite (REG_TABLE + 2 * irq + 1) (u32 (Z.shiftl cpunum 24)).

(** ** picirq.c *)
Definition picinit : M dev unit :=
  outb 33 255;;
  outb 161 255.

(** ** uart.c *)
Fixpoint uart_wait (k : nat) : M dev unit :=
  match k with
  | O => ret tt
  | S k' => v <- inb (COM1 + 5);; if Z.land v 32 =? 0 then uart_wait k' else ret tt
  end.

Definition uartputc (c : Z) : M dev unit :=
  u <- gets uart;;
  if negb u then ret tt
  else
    uart_wait 128;;
    outb (COM1 + 0) (c mod 256).

Fixpoint uartputs (s : list Z) : M dev unit :=
  match s with [] => ret tt | c :: s' => uartputc c;; uartputs s' end.

Definition uartinit : M dev unit :=
  outb (COM1 + 2) 0;;
  outb (COM1 + 3) 128;;
  outb (COM1 + 0) (115200 / 9600);;
  outb (COM1 + 1) 0;;
  outb (COM1 + 3) 3;;
  outb (COM1 + 4) 0;;
  outb (COM1 + 1) 1;;
  st <- inb (COM1 + 5);;
  if st =? 255 then ret tt
  else
    modify (fun s => mkDev (hist s) (lapic_on s) (ioapicid s) true);;
    inb (COM1 + 2);;
    inb (COM1 + 0);;
    ioapicenable IRQ_COM1 0;;
    uartputs [120; 118; 54; 46; 46; 46; 10].

Definition uartgetc : M dev Z :=
  u <- gets uart;;
  if negb u then ret (-1)
  else
    st <- inb (COM1 + 5);;
    if Z.land st 1 =? 0 then ret (-1) else inb (COM1 + 0).

(** ** The redirection table *)

(** The register selected and the registers, as a history leaves them. *)
Definition ioapic_step (r : Z * (Z -> Z)) (e : io) : Z * (Z -> Z) :=
  match e with
  | IoapicSel n => (n, snd r)
  | IoapicW v => (fst r, fun n => if n =? fst r then v else snd r n)
  | _ => r
  end.
Definition ioapic_regs (f : Z -> Z) (h : list io) : Z -> Z := snd (foldl ioapic_step (0, f) h).

(** The entry of an interrupt: the vector and the flags, and the processor. *)
Definition redir (f : Z -> Z) (h : list io) (i : Z) : Z * Z :=
  (ioapic_regs f h (REG_TABLE + 2 * i), ioapic_regs f h (REG_TABLE + 2 * i + 1)).

(** [c] returns, and makes [g] of the table. *)
Definition routes {A} (c : M dev A) (g : (Z -> Z * Z) -> Z -> Z * Z) : Prop :=
  forall s, exists a s', c s = Ret a s' /\ ioapicid s' = ioapicid s /\
    forall f i, redir f (hist s') i = g (redir f (hist s)) i.

Lemma routes_bind {A B} (c : M dev A) (k : A -> M dev B) g1 g2 :
  (forall f1 f2 n, (forall m, f1 m = f2 m) -> g2 f1 n = g2 f2 n) ->
  routes c g1 -> (forall a, routes (k a) g2) -> routes (bind c k) (fun f => g2 (g1 f)).
Proof.
  intros Hext Hc Hk s. destruct (Hc s) as (a & s1 & E1 & I1 & H1). destruct (Hk a s1) as (b & s2 & E2 & I2 & H2).
  exists b, s2. split; [by rewrite (bind_run _ _ _ _ _ E1)|]. split; [congruence|]. intros f n. rewrite H2. apply Hext. intros m. apply H1.
Qed.

(** Both registers of an entry. *)
Lemma entry_routes i lo hi :
  routes (ioapicwrite (REG_TABLE + 2 * i) lo;; ioapicwrite (REG_TABLE + 2 * i + 1) hi) (fun f j => if j =? i then (lo, hi) else f j).
Proof.
  intros s. do 2 eexists. split; [reflexivity|]. split; [done|]. intros f j. unfold redir, ioapic_regs. cbn. rewrite !foldl_app. cbn.
  destruct (Z.eqb_spec j i) as [-> | Hj].
  - rewrite !Z.eqb_refl. by rewrite (proj2 (Z.eqb_neq (REG_TABLE + 2 * i) (REG_TABLE + 2 * i + 1))) by lia.
  - by rewrite !(proj2 (Z.eqb_neq _ _)) by lia.
Qed.

Definition disabled (i : Z) : Z * Z := (Z.lor INT_DISABLED (T_IRQ0 + i), 0).
Definition enabled (irq cpunum : Z) : Z * Z := (T_IRQ0 + irq, u32 (Z.shiftl cpunum 24)).

Lemma disable_routes k : forall i, routes (disable_from k i) (fun f j => if (i <=? j) && (j <? i + Z.of_nat k) then disabled j else f j).
Proof.
  induction k as [|k IH]; intros i s; cbn [disable_from].
  - exists tt, s. split; [done|]. split; [done|]. intros f j.
    destruct (Z.leb_spec i j), (Z.ltb_spec j (i + Z.of_nat 0)); cbn; (lia || done).
  - destruct (entry_routes i (Z.lor INT_DISABLED (T_IRQ0 + i)) 0 s) as (a & s1 & E1 & I1 & H1).
    destruct (IH (i + 1) s1) as (b & s2 & E2 & I2 & H2). exists b, s2. split; [|split; [congruence|]].
    + rewrite <- E2. unfold bind in *. destruct (ioapicwrite (REG_TABLE + 2 * i) _ s) as [[] s'| | |]; try done. by rewrite E1.
    + intros f j. rewrite H2, H1. destruct (Z.eqb_spec j i) as [-> | Hj].
      * destruct (Z.leb_spec (i + 1) i); [lia|]. destruct (Z.leb_spec i i); [|lia]. destruct (Z.ltb_spec i (i + Z.of_nat (S k))); [done|lia].
      * destruct (Z.leb_spec (i + 1) j), (Z.leb_spec i j), (Z.ltb_spec j (i + 1 + Z.of_nat k)), (Z.ltb_spec j (i + Z.of_nat (S k))); cbn; (lia || done).
Qed.

(** The calls of ioapicenable, in order. *)
Fixpoint enable_all (l : list (Z * Z)) : M dev unit :=
  match l with [] => ret tt | (irq, cpunum) :: l' => ioapicenable irq cpunum;; enable_all l' end.

Definition enable_in (l : list (Z * Z)) (f : Z -> Z * Z) : Z -> Z * Z :=
  foldl (fun f e => fun j => if j =? fst e then enabled (fst e) (snd e) else f j) f l.

Lemma enable_in_ext l : forall f1 f2 n, (forall m, f1 m = f2 m) -> enable_in l f1 n = enable_in l f2 n.
Proof.
  induction l as [|e l IH]; intros f1 f2 n H; cbn; [apply H|]. apply IH. intros m. destruct (m =? fst e); [done|apply H].
Qed.

Lemma enable_routes l : routes (enable_all l) (enable_in l).
Proof.
  induction l as [|[irq cpu] l IH]; cbn [enable_all].
  - intros s. by exists tt, s.
  - apply (routes_bind _ _ (fun f j => if j =? irq then enabled irq cpu else f j) (enable_in l)); [apply enable_in_ext|apply entry_routes|done].
Qed.

(** The processor that an interrupt was last routed to. *)
Definition routed (l : list (Z * Z)) (i : Z) : option Z :=
  foldl (fun o e => if i =? fst e then Some (snd e) else o) None l.

Lemma enable_in_routed l i : forall f, enable_in l f i = match routed l i with Some cpu => enabled i cpu | None => f i end.
Proof.
  enough (H : forall f o, (match o with Some cpu => f i = enabled i cpu | None => True end) ->
    enable_in l f i = match foldl (fun o e => if i =? fst e then Some (snd e) else o) o l with
                      | Some cpu => enabled i cpu | None => f i end) by (intros f; by apply (H f None)).
  induction l as [|[irq cpu] l IH]; intros f o Ho; cbn [enable_in foldl].
  - by destruct o.
  - cbn [fst snd]. unfold enable_in in IH. destruct (Z.eqb_spec i irq) as [-> | Hi].
    + erewrite (IH _ (Some cpu)); [|by rewrite Z.eqb_refl].
      assert (Hs : forall l, exists c, foldl (fun (o : option Z) (e : Z * Z) => if irq =? fst e then Some (snd e) else o) (Some cpu) l = Some c).
      { clear. intros l. revert cpu. induction l as [|e l IH]; intros cpu; [eauto|]. cbn. destruct (irq =? fst e); apply IH. }
      by destruct (Hs l) as (c & ->).
    + erewrite (IH _ o).
      * destruct (foldl _ o l); [done|]. by rewrite (proj2 (Z.eqb_neq i irq)).
      * destruct o; [|done]. by rewrite (proj2 (Z.eqb_neq i irq)).
Qed.

Definition vector (e : Z * Z) : Z := Z.land (fst e) 255.
Definition masked (e : Z * Z) : bool := Z.testbit (fst e) 16.
Definition destination (e : Z * Z) : Z := Z.shiftr (snd e) 24.

Lemma enabled_decode irq cpu : 0 <= irq < 224 -> 0 <= cpu < 256 ->
  vector (enabled irq cpu) = T_IRQ0 + irq /\ masked (enabled irq cpu) = false /\ destination (enabled irq cpu) = cpu.
Proof.
  intros Hi Hc. unfold vector, masked, destination, enabled, T_IRQ0. cbn [fst snd]. split; [|split].
  - change 255 with (Z.ones 8). rewrite Z.land_ones by done. apply Z.mod_small. change (2 ^ 8) with 256. lia.
  - rewrite Z.testbit_eqb by done. change (2 ^ 16) with 65536. by rewrite Z.div_small by lia.
  - rewrite Z.shiftl_mul_pow2, Z.shiftr_div_pow2 by done. change (2 ^ 24) with 16777216. rewrite u32_small by lia. by apply Z.div_mul.
Qed.

Lemma disabled_masked i : masked (disabled i) = true.
Proof. unfold masked, disabled. cbn [fst]. by rewrite Z.lor_spec. Qed.

Lemma print_if (b : bool) m s : exists s', (if b then access (Cprintf m) else ret tt) s = Ret tt s' /\
  forall f i, redir f (hist s') i = redir f (hist s) i.
Proof.
  destruct b; eexists; (split; [reflexivity|]); [|done]. intros f i. unfold redir, ioapic_regs. cbn. by rewrite !foldl_app.
Qed.

Lemma ioapicinit_routes s :
  let maxintr := Z.land (Z.shiftr (answer (hist s ++ [IoapicSel REG_VER]) IoapicR) 16) 255 in
  exists s', ioapicinit s = Ret tt s' /\
    forall f i, redir f (hist s') i = if (0 <=? i) && (i <? 0 + Z.of_nat (S (Z.to_nat maxintr))) then disabled i else redir f (hist s) i.
Proof.
  intros maxintr. unfold ioapicinit. erewrite bind_run by reflexivity. cbn [hist]. fold maxintr. erewrite bind_run by reflexivity.
  rewrite bind_gets. match goal with |- context [bind (if ?b then access (Cprintf ?m) else _) _ ?st] => destruct (print_if b m st) as (s2 & E2 & H2) end.
  destruct (disable_routes (S (Z.to_nat maxintr)) 0 s2) as ([] & s3 & E3 & _ & H3).
  exists s3. rewrite (bind_run _ _ _ _ _ E2). split; [exact E3|]. intros f i. rewrite H3, H2. destruct (_ && _); [done|].
  unfold redir, ioapic_regs. cbn [hist]. by rewrite !foldl_app.
Qed.

(** Routing interrupts.  After ioapicinit and calls of ioapicenable, every
    interrupt of the I/O APIC that was enabled has its own vector, from 32 on, and
    goes to the processor it was last enabled for; every other one is masked. *)
Lemma ioapic_correct (s : dev) (l : list (Z * Z)) (f : Z -> Z) (i : Z) :
  let maxintr := Z.land (Z.shiftr (answer (hist s ++ [IoapicSel REG_VER]) IoapicR) 16) 255 in
  0 <= i <= maxintr -> i < 224 -> Forall (fun e => 0 <= snd e < 256) l ->
  exists s', (ioapicinit;; enable_all l) s = Ret tt s' /\
    let e := redir f (hist s') i in
    match routed l i with
    | Some cpu => masked e = false /\ vector e = T_IRQ0 + i /\ destination e = cpu
    | None => masked e = true
    end.
Proof.
  intros maxintr Hi Hi2 Hl. destruct (ioapicinit_routes s) as (s1 & E1 & H1). destruct (enable_routes l s1) as ([] & s2 & E2 & _ & H2).
  exists s2. split; [by rewrite (bind_run _ _ _ _ _ E1)|]. cbv zeta. rewrite H2, enable_in_routed, H1. fold maxintr.
  assert (Hr : match routed l i with Some cpu => 0 <= cpu < 256 | None => True end).
  { unfold routed. enough (forall o, match o with Some cpu => 0 <= cpu < 256 | None => True end ->
      match foldl (fun o e => if i =? fst e then Some (snd e) else o) o l with Some cpu => 0 <= cpu < 256 | None => True end) as H by by apply (H None).
    clear H1 H2 E1 E2. induction Hl as [|e l He Hl IH]; intros o Ho; [exact Ho|]. cbn. apply IH. destruct (i =? fst e); [exact He|exact Ho]. }
  destruct (routed l i) as [cpu|].
  - destruct (enabled_decode i cpu ltac:(lia) Hr) as (D1 & D2 & D3). done.
  - destruct (Z.leb_spec 0 i); [|lia]. destruct (Z.ltb_spec i (0 + Z.of_nat (S (Z.to_nat maxintr)))); [|lia]. apply disabled_masked.
Qed.

(** ** Starting a processor *)

(** The startup interrupt names the page of the code, and the warm reset vector is
    its address as a segment. *)
Lemma startup_decode addr : 0 <= addr < 1048576 -> addr mod 4096 = 0 ->
  let v := Z.lor STARTUP (Z.shiftr addr 12) in
  Z.land v 255 * 4096 = addr /\ Z.land v 1792 = STARTUP /\ (Z.shiftr addr 4 mod 65536) * 16 = addr.
Proof.
  intros Ha Hm v. unfold v. rewrite !Z.shiftr_div_pow2 by done. change (2 ^ 12) with 4096. change (2 ^ 4) with 16.
  set (q := addr / 4096). assert (Hq : 0 <= q < 256) by (split; [apply Z.div_pos; lia|apply Z.div_lt_upper_bound; lia]).
  assert (E : addr = q * 4096) by (pose proof (Z.div_mod addr 4096 ltac:(done)); lia).
  assert (Hall : forallb (fun q => (Z.land (Z.lor STARTUP q) 255 =? q) && (Z.land (Z.lor STARTUP q) 1792 =? STARTUP)) (seqZ 0 256) = true)
    by (vm_compute; reflexivity).
  rewrite forallb_forall in Hall. specialize (Hall q). rewrite <- list_elem_of_In, elem_of_seqZ in Hall.
  specialize (Hall ltac:(lia)). apply andb_true_iff in Hall as [H1%Z.eqb_eq H2%Z.eqb_eq].
  rewrite H1, H2. split; [lia|]. split; [done|].
  replace (addr / 16) with (q * 256) by (rewrite E; apply (Z.div_unique_exact _ 16); lia). rewrite Z.mod_small by lia. lia.
Qed.

(** ** The serial port *)

(** What was sent: the bytes written to the data port. *)
Definition sent (h : list io) : list Z := omap (fun e => match e with OutB p v => if p =? COM1 then Some v else None | _ => None end) h.

Lemma uart_wait_run k : forall s, exists h, uart_wait k s = Ret tt (mkDev (hist s ++ h) (lapic_on s) (ioapicid s) (uart s)) /\ sent h = [].
Proof.
  induction k as [|k IH]; intros s; cbn [uart_wait].
  - exists []. rewrite app_nil_r. by destruct s.
  - erewrite bind_run by reflexivity. destruct (Z.land _ 32 =? 0).
    + destruct (IH (mkDev (hist s ++ [InB (COM1 + 5)]) (lapic_on s) (ioapicid s) (uart s))) as (h & E & Hh).
      exists (InB (COM1 + 5) :: h). split; [|done]. rewrite E. cbn. by rewrite <- app_assoc.
    + by exists [InB (COM1 + 5)].
Qed.

(** uartputc sends its character, also to a port that never gets ready, and nothing
    where there is no port. *)
Lemma uartputs_sends l : forall s, exists s', uartputs l s = Ret tt s' /\ uart s' = uart s /\
  sent (hist s') = sent (hist s) ++ (if uart s then map (fun c => c mod 256) l else []).
Proof.
  induction l as [|c l IH]; intros s; cbn [uartputs].
  - exists s. split; [done|]. split; [done|]. destruct (uart s); cbn; by rewrite app_nil_r.
  - destruct (uart s) eqn:Eu.
    + destruct (uart_wait_run 128 s) as (h & E & Hh).
      assert (Ec : uartputc c s = Ret tt (mkDev ((hist s ++ h) ++ [OutB (COM1 + 0) (c mod 256)]) (lapic_on s) (ioapicid s) (uart s))).
      { unfold uartputc. rewrite bind_gets, Eu. cbn [negb]. by rewrite (bind_run _ _ _ _ _ E), Eu. }
      rewrite (bind_run _ _ _ _ _ Ec). destruct (IH (mkDev ((hist s ++ h) ++ [OutB (COM1 + 0) (c mod 256)]) (lapic_on s) (ioapicid s) (uart s))) as (s' & E' & U & Hs).
      exists s'. split; [done|]. cbn [uart hist] in *. rewrite Eu in *. split; [congruence|]. rewrite Hs. unfold sent in *.
      rewrite !omap_app, Hh, app_nil_r. cbn. by rewrite <- app_assoc.
    + erewrite bind_run by (unfold uartputc; rewrite bind_gets, Eu; reflexivity). destruct (IH s) as (s' & E' & U & Hs).
      exists s'. rewrite Eu in *. auto.
Qed.
End Dev.

(** A controller with 24 interrupts: the keyboard goes to processor 0 and the disk to
    processor 1. *)
Definition demo_answer (h : list io) (e : io) : Z := match e with IoapicR => 1507328 | _ => 0 end.

Lemma ioapic_correct_witness :
  exists s', (ioapicinit demo_answer;; enable_all [(IRQ_KBD, 0); (IRQ_IDE, 1)]) (mkDev [] true 0 false) = Ret tt s' /\
    let e := redir (fun _ => 0) (hist s') IRQ_IDE in
    masked e = false /\ vector e = T_IRQ0 + IRQ_IDE /\ destination e = 1.
Proof.
  apply (ioapic_correct demo_answer (mkDev [] true 0 false) [(IRQ_KBD, 0); (IRQ_IDE, 1)] (fun _ => 0) IRQ_IDE);
    [vm_compute; split; discriminate|reflexivity|repeat constructor; cbn; lia].
Defined.
