(* ===== verification/Boot.v ===== *)
(** * The boot loader (bootmain.c)

    The boot loader reads the kernel from the disk, sector by sector, to the
    addresses that its ELF headers give.  Memory is that of Mem.v, the disk that of
    Ide.v; the kernel is the sectors of the first drive from 1 on. *)

From stdpp Require Import base numbers list gmap strings.
From Stdlib Require Import ZArith Lia.
From S2P Require Import Prelude Mem Block Exec Ide.

Local Open Scope Z_scope.
Local Open Scope kernel_scope.

Definition SECTSIZE : Z := 512.
Definition scratch : Z := 65536.

Section Boot.
Context {H : Type} {HW : IdeHw H}.

Record bootst := mkBoot { bmem : memory; bhw : H }.

Definition inb (p : Z) : M bootst Z := fun s => let '(v, h) := hw_inb p (bhw s) in Ret v (mkBoot (bmem s) h).
Definition outb (p v : Z) : M bootst unit := modify (fun s => mkBoot (bmem s) (hw_outb p (v mod 256) (bhw s))).
Definition insl (dst : Z) : M bootst unit :=
  fun s => let '(d, h) := hw_insl (bhw s) in Ret tt (mkBoot (store_bytes (bmem s) dst d) h).

Fixpoint waitdisk_loop (k : nat) : M bootst unit :=
  match k with
  | O => hang
  | S k' => v <- inb 503;; if Z.land v 192 =? 64 then ret tt else waitdisk_loop k'
  end.
Definition waitdisk : M bootst unit := waitdisk_loop hw_patience.

Definition readsect (dst offset : Z) : M bootst unit :=
  waitdisk;;
  outb 498 1;;
  outb 499 offset;;
  outb 500 (Z.shiftr offset 8);;
  outb 501 (Z.shiftr offset 16);;
  outb 502 (Z.lor (Z.shiftr offset 24) 224);;
  outb 503 32;;
  waitdisk;;
  insl dst.

(** The loop of readseg, [k] rounds of it. *)
Fixpoint readseg_loop (k : nat) (pa epa offset : Z) : M bootst unit :=
  match k with
  | O => hang
  | S k' =>
      if pa <? epa then readsect pa offset;; readseg_loop k' (u32 (pa + SECTSIZE)) epa (u32 (offset + 1))
      else ret tt
  end.

Definition readseg (pa count offset : Z) : M bootst unit :=
  let epa := u32 (pa + count) in
  let pa := u32 (pa - offset mod SECTSIZE) in
  let offset := offset / SECTSIZE + 1 in
  readseg_loop (Z.to_nat (count / SECTSIZE) + 3) pa epa offset.

Definition ph_at (m : memory) (ph : Z) : proghdr := ph_of (load_bytes m ph (Z.to_nat sizeof_proghdr)).
Definition elf_at (m : memory) : elfhdr := elf_of (load_bytes m scratch (Z.to_nat sizeof_elfhdr)).

(** The body of the loop over the program headers. *)
Definition load_seg (h : proghdr) : M bootst unit :=
  readseg (ph_paddr h) (ph_filesz h) (ph_off h);;
  if ph_memsz h >? ph_filesz h
  then modify (fun s => mkBoot (stosb (bmem s) (u32 (ph_paddr h + ph_filesz h)) 0 (Z.to_nat (ph_memsz h - ph_filesz h))) (bhw s))
  else ret tt.

(** The loop over [k] program headers from [ph] on. *)
Fixpoint load_kernel (k : nat) (ph : Z) : M bootst unit :=
  match k with
  | O => ret tt
  | S k' =>
      h <- gets (fun s => ph_at (bmem s) ph);;
      load_seg h;;
      load_kernel k' (u32 (ph + sizeof_proghdr))
  end.

(** The result is the entry point that is called; [None] when it returns. *)
Definition bootmain : M bootst (option Z) :=
  readseg scratch 4096 0;;
  elf <- gets (fun s => elf_at (bmem s));;
  if negb (e_magic elf =? ELF_MAGIC) then ret None
  else
    load_kernel (Z.to_nat (e_phnum elf)) (u32 (scratch + e_phoff elf));;
    elf <- gets (fun s => elf_at (bmem s));;
    ret (Some (e_entry elf)).
End Boot.
Arguments bootst : clear implicits.

(** ** One sector *)
Section Proofs.
Context {H : Type} {HW : IdeHw H} {HL : IdeLaws H}.
Implicit Types s : bootst H.

(** What is on the disk; its sectors have 512 bytes. *)
Context (disk : Z -> Z -> block).
Context (Hsize : forall d x, length (disk d x) = 512%nat).

Definition on_disk (h : H) : Prop := forall d x, hw_sectors h d x = disk d x.

(** A byte of the kernel. *)
Definition image (k : Z) : Z := default 0 (disk 0 (k / SECTSIZE + 1) !! Z.to_nat (k mod SECTSIZE)) mod 256.

Lemma waitdisk_wp (Q : unit -> bootst H -> Prop) s :
  (forall h, same_hw (bhw s) h -> Q tt (mkBoot (bmem s) h)) -> wp waitdisk Q s.
Proof.
  intros HQ. unfold waitdisk. destruct (law_ready (bhw s)) as (k & Hk & Hr). revert k s HQ Hk Hr.
  induction (@hw_patience H HW) as [|n IH]; intros k s HQ Hk Hr; [lia|]. cbn [waitdisk_loop]. apply wp_bind. unfold wp at 1, inb.
  pose proof (law_inb (bhw s)) as Hs. destruct (hw_inb 503 (bhw s)) as [v h1] eqn:E. cbn in Hs.
  change (Z.land v 192 =? 64) with (ready v). destruct (ready v) eqn:Ev; [by apply wp_ret, HQ|].
  destruct k as [|k]; [by simpl in Hr; rewrite E in Hr; simpl in Hr; congruence|].
  apply (IH k); [|lia|simpl in Hr; by rewrite E in Hr]. intros h (B1 & B2 & B3). destruct Hs as (A1 & A2 & A3). apply (HQ h).
  cbn in B1, B2, B3. split; [intros p; by rewrite B1|]. split; [congruence|]. intros d x. by rewrite B3.
Qed.

Lemma boot_outb_wp (Q : unit -> bootst H -> Prop) p v s : p <> 503 ->
  (forall h, (forall p', hw_reg h p' = if p' =? p then v mod 256 else hw_reg (bhw s) p') ->
     (forall d x, hw_sectors h d x = hw_sectors (bhw s) d x) -> Q tt (mkBoot (bmem s) h)) ->
  wp (outb p v) Q s.
Proof. intros Hp HQ. apply wp_modify. destruct (law_outb p (v mod 256) (bhw s) Hp) as (_ & R & S). by apply HQ. Qed.

Lemma boot_lba x : 0 <= x < 16777216 ->
  x mod 256 + 256 * (Z.shiftr x 8 mod 256) + 65536 * (Z.shiftr x 16 mod 256) +
    16777216 * Z.land (Z.lor (Z.shiftr x 24) 224 mod 256) 15 = x /\
  Z.land (Z.shiftr (Z.lor (Z.shiftr x 24) 224 mod 256) 4) 1 = 0.
Proof.
  intros Hx. rewrite !Z.shiftr_div_pow2 by done. change (2 ^ 8) with 256. change (2 ^ 16) with 65536. change (2 ^ 24) with 16777216.
  rewrite (Z.div_small x 16777216) by lia. split; [|done]. change (Z.land (Z.lor 0 224 mod 256) 15) with 0.
  rewrite (Z.mod_small (x / 65536)) by (split; [apply Z.div_pos; lia|apply Z.div_lt_upper_bound; lia]).
  pose proof (Z.div_mod x 256 ltac:(done)). pose proof (Z.div_mod (x / 256) 256 ltac:(done)).
  rewrite Z.div_div in * by done. change (256 * 256) with 65536 in *. lia.
Qed.

Lemma readsect_wp (Q : unit -> bootst H -> Prop) dst x s : on_disk (bhw s) -> 0 <= x < 16777216 ->
  (forall h, on_disk h -> Q tt (mkBoot (store_bytes (bmem s) dst (disk 0 x)) h)) -> wp (readsect dst x) Q s.
Proof.
  intros Hd Hx HQ. unfold readsect.
  apply wp_bind, waitdisk_wp. intros h0 (_ & _ & S0).
  apply wp_bind, boot_outb_wp; [done|]. intros h2 R2 S2. apply wp_bind, boot_outb_wp; [done|]. intros h3 R3 S3.
  apply wp_bind, boot_outb_wp; [done|]. intros h4 R4 S4. apply wp_bind, boot_outb_wp; [done|]. intros h5 R5 S5.
  apply wp_bind, boot_outb_wp; [done|]. intros h6 R6 S6. cbn [bhw bmem] in *.
  destruct (boot_lba x Hx) as (L1 & L2).
  assert (Hcount : hw_reg h6 498 = 1) by (by rewrite R6, R5, R4, R3, R2).
  destruct (law_command false h6 Hcount) as (C1 & C2).
  assert (Ed : drive h6 = 0) by (unfold drive; rewrite R6; exact L2).
  assert (El : lba h6 = x) by (unfold lba; rewrite !R6, !R5, !R4, !R3; exact L1).
  apply wp_bind, wp_modify. cbn [bhw bmem]. change (32 mod 256) with IDE_CMD_READ. rewrite Ed, El in C1.
  apply wp_bind, waitdisk_wp. cbn [bhw bmem]. intros h7 (_ & C7 & S7). rewrite C1 in C7.
  unfold wp, insl. cbn [bhw bmem]. destruct (law_insl h7 0 x C7) as (I1 & I2). destruct (hw_insl h7) as [v h8]. cbn in I1, I2.
  assert (Hsec : forall d y, hw_sectors h7 d y = disk d y).
  { intros d y. rewrite S7, C2, S6, S5, S4, S3, S2, S0. apply Hd. }
  rewrite I1, Hsec. apply HQ. intros d y. by rewrite I2, Hsec.
Qed.

(** ** A segment *)

(** Memory after [n] sectors from [x] on. *)
Fixpoint copied (m : memory) (pa x : Z) (n : nat) : memory :=
  match n with O => m | S n' => copied (store_bytes m pa (disk 0 x)) (pa + SECTSIZE) (x + 1) n' end.

Lemma image_sector x i : 0 <= i < 512 -> image (512 * (x - 1) + i) = default 0 (disk 0 x !! Z.to_nat i) mod 256.
Proof.
  intros Hi. unfold image, SECTSIZE. rewrite (Z.mul_comm 512), Z.div_add_l, (Z.div_small i), (Z.add_comm (_ * 512)), Z.mod_add, (Z.mod_small i) by lia.
  by replace (x - 1 + 0 + 1) with x by lia.
Qed.

Lemma load8_copied n : forall m pa x a, load8 (copied m pa x n) a =
  if (pa <=? a) && (a <? pa + 512 * Z.of_nat n) then image (512 * (x - 1) + (a - pa)) else load8 m a.
Proof.
  induction n as [|n IH]; intros m pa x a; cbn [copied].
  - destruct (Z.leb_spec pa a), (Z.ltb_spec a (pa + 512 * Z.of_nat 0)); cbn; (lia || done).
  - unfold SECTSIZE. rewrite IH, load8_store_bytes, Hsize. change (Z.of_nat 512) with 512.
    destruct (decide (a < pa)); [|destruct (decide (a < pa + 512))].
    + destruct (Z.leb_spec (pa + 512) a); [lia|]. destruct (Z.leb_spec pa a); [lia|]. done.
    + destruct (Z.leb_spec (pa + 512) a); [lia|]. destruct (Z.leb_spec pa a); [|lia]. destruct (Z.ltb_spec a (pa + 512)); [|lia].
      destruct (Z.ltb_spec a (pa + 512 * Z.of_nat (S n))); [|lia]. cbn [andb]. by rewrite image_sector by lia.
    + destruct (Z.leb_spec (pa + 512) a); [|lia]. destruct (Z.leb_spec pa a); [|lia]. destruct (Z.ltb_spec a (pa + 512)); [lia|]. cbn [andb].
      destruct (Z.ltb_spec a (pa + 512 + 512 * Z.of_nat n)), (Z.ltb_spec a (pa + 512 * Z.of_nat (S n))); try lia. f_equal. lia.
Qed.

(** The sectors of a segment. *)
Definition low (pa offset : Z) : Z := pa - offset mod SECTSIZE.
Definition nsect (count offset : Z) : Z := (count + offset mod SECTSIZE + 511) / 512.
Definition high (pa count offset : Z) : Z := low pa offset + 512 * nsect count offset.

Lemma readseg_loop_wp n : forall (Q : unit -> bootst H -> Prop) k pa epa x s, on_disk (bhw s) -> (n < k)%nat ->
  0 <= pa -> pa + 512 * Z.of_nat n < 4294967296 -> 0 <= x -> x + Z.of_nat n < 16777216 ->
  pa + 512 * (Z.of_nat n - 1) < epa <= pa + 512 * Z.of_nat n ->
  (forall h, on_disk h -> Q tt (mkBoot (copied (bmem s) pa x n) h)) -> wp (readseg_loop k pa epa x) Q s.
Proof.
  induction n as [|n IH]; intros Q [|k] pa epa x s Hd Hk Hpa Hpa2 Hx Hx2 He HQ; try lia; cbn [readseg_loop].
  - destruct (Z.ltb_spec pa epa); [lia|]. apply wp_ret. destruct s as [m h]. by apply (HQ h).
  - destruct (Z.ltb_spec pa epa); [|lia]. apply wp_bind, readsect_wp; [done|lia|]. intros h Hh. unfold SECTSIZE.
    rewrite !u32_small by lia. apply IH; try (done || lia).
Qed.

Lemma readseg_wp (Q : unit -> bootst H -> Prop) pa count offset s : on_disk (bhw s) ->
  0 <= count -> 0 <= offset -> 0 <= low pa offset -> high pa count offset < 4294967296 ->
  offset + count < 4294967296 ->
  (forall m h, on_disk h -> (forall a, load8 m a =
     if (low pa offset <=? a) && (a <? high pa count offset) then image (offset + (a - pa)) else load8 (bmem s) a) -> Q tt (mkBoot m h)) ->
  wp (readseg pa count offset) Q s.
Proof.
  intros Hd Hc Ho Hlo Hhi Hsz HQ. unfold readseg, SECTSIZE.
  pose proof (Z.mod_pos_bound offset 512 ltac:(done)) as Hm. pose proof (Z.div_mod offset 512 ltac:(done)) as Hdm.
  unfold high, nsect, low, SECTSIZE in *. set (r := offset mod 512) in *. set (n := (count + r + 511) / 512) in *.
  pose proof (Z.div_mod (count + r + 511) 512 ltac:(done)) as Hn. fold n in Hn. pose proof (Z.mod_pos_bound (count + r + 511) 512 ltac:(done)).
  assert (Hn0 : 0 <= n) by (apply Z.div_pos; lia). assert (Hq : 0 <= offset / 512) by (apply Z.div_pos; lia).
  assert (Hcd : n <= count / 512 + 2).
  { unfold n. rewrite <- (Z.div_add count 2 512) by done. apply Z.div_le_mono; lia. }
  assert (0 <= count / 512) by (apply Z.div_pos; lia).
  rewrite !u32_small by lia. apply (readseg_loop_wp (Z.to_nat n)); try (done || lia).
  intros h Hh. apply HQ; [done|]. intros a. rewrite load8_copied, Z2Nat.id by done.
  destruct (_ && _); [|done]. f_equal. lia.
Qed.

(** ** The kernel *)
Definition extent (h : proghdr) : Z := Z.max (ph_filesz h) (ph_memsz h).
Definition seg_low (h : proghdr) : Z := low (ph_paddr h) (ph_off h).
Definition seg_top (h : proghdr) : Z := Z.max (high (ph_paddr h) (ph_filesz h) (ph_off h)) (ph_paddr h + ph_memsz h).

(** The segment is in memory: what is in the file, and zeroes after it. *)
Definition seg_loaded (m : memory) (h : proghdr) : Prop :=
  forall j, 0 <= j < extent h -> load8 m (ph_paddr h + j) = if j <? ph_filesz h then image (ph_off h + j) else 0.

(** The segment is in the address space and not where the headers are. *)
Definition seg_fits (h : proghdr) : Prop :=
  0 <= ph_filesz h /\ 0 <= ph_memsz h /\ 0 <= ph_off h /\ ph_off h + ph_filesz h < 4294967296 /\
  0 <= seg_low h /\ seg_top h < 4294967296 /\ (seg_top h <= scratch \/ scratch + 4096 <= seg_low h).

Lemma seg_range h : 0 <= ph_filesz h -> seg_low h <= ph_paddr h /\ ph_paddr h + ph_filesz h <= high (ph_paddr h) (ph_filesz h) (ph_off h).
Proof.
  intros Hf. unfold seg_low, high, low, nsect, SECTSIZE. pose proof (Z.mod_pos_bound (ph_off h) 512 ltac:(done)).
  pose proof (Z.div_mod (ph_filesz h + ph_off h mod 512 + 511) 512 ltac:(done)).
  pose proof (Z.mod_pos_bound (ph_filesz h + ph_off h mod 512 + 511) 512 ltac:(done)). lia.
Qed.

Lemma load_seg_wp (Q : unit -> bootst H -> Prop) h s : on_disk (bhw s) -> seg_fits h ->
  (forall m g, on_disk g -> seg_loaded m h -> (forall a, a < seg_low h \/ seg_top h <= a -> load8 m a = load8 (bmem s) a) -> Q tt (mkBoot m g)) ->
  wp (load_seg h) Q s.
Proof.
  intros Hd (F1 & F2 & F3 & F4 & F5 & F6 & _) HQ. destruct (seg_range h F1) as [R1 R2]. unfold seg_top in *.
  apply wp_bind, readseg_wp; [done|done|done|done|lia|lia|]. intros m g Hg Hm. fold (seg_low h) in Hm.
  set (hi := high (ph_paddr h) (ph_filesz h) (ph_off h)) in *.
  destruct (Z.gtb_spec (ph_memsz h) (ph_filesz h)) as [Hgt|Hle].
  - apply wp_modify. cbn [bmem bhw]. rewrite u32_small by lia. apply HQ; [done| |].
    + intros j Hj. unfold extent in Hj. rewrite load8_stosb, Z2Nat.id by lia. destruct (Z.ltb_spec j (ph_filesz h)).
      * destruct (Z.leb_spec (ph_paddr h + ph_filesz h) (ph_paddr h + j)); [lia|]. cbn [andb]. rewrite Hm.
        destruct (Z.leb_spec (seg_low h) (ph_paddr h + j)); [|lia]. destruct (Z.ltb_spec (ph_paddr h + j) hi); [|lia]. cbn [andb]. f_equal. lia.
      * destruct (Z.leb_spec (ph_paddr h + ph_filesz h) (ph_paddr h + j)); [|lia].
        destruct (Z.ltb_spec (ph_paddr h + j) (ph_paddr h + ph_filesz h + (ph_memsz h - ph_filesz h))); [done|lia].
    + intros a Ha. rewrite load8_stosb, Z2Nat.id by lia.
      destruct (Z.leb_spec (ph_paddr h + ph_filesz h) a), (Z.ltb_spec a (ph_paddr h + ph_filesz h + (ph_memsz h - ph_filesz h))); cbn [andb]; try lia;
        rewrite Hm; (destruct (Z.leb_spec (seg_low h) a), (Z.ltb_spec a hi); cbn [andb]; try lia; done).
  - apply wp_ret. apply HQ; [done| |].
    + intros j Hj. unfold extent in Hj. destruct (Z.ltb_spec j (ph_filesz h)); [|lia]. rewrite Hm.
      destruct (Z.leb_spec (seg_low h) (ph_paddr h + j)); [|lia]. destruct (Z.ltb_spec (ph_paddr h + j) hi); [|lia]. cbn [andb]. f_equal. lia.
    + intros a Ha. rewrite Hm. destruct (Z.leb_spec (seg_low h) a), (Z.ltb_spec a hi); cbn [andb]; (lia || done).
Qed.

(** The headers where bootmain has put them. *)
Definition headers (m : memory) : Prop := forall j, 0 <= j < 4096 -> load8 m (scratch + j) = image j.
Definition bytes_of (o : Z) (n : nat) : list Z := map image (seqZ o (Z.of_nat n)).

Lemma load_headers m o n : headers m -> 0 <= o -> o + Z.of_nat n <= 4096 -> load_bytes m (scratch + o) n = bytes_of o n.
Proof.
  intros Hh Ho Hn. apply list_eq. intros j. unfold bytes_of. change (map image ?l) with (image <$> l). rewrite list_lookup_fmap.
  destruct (decide (j < n)%nat) as [Hj|Hj].
  - rewrite load_bytes_lookup by done. rewrite lookup_seqZ_lt by lia. cbn. f_equal. rewrite <- Z.add_assoc. apply Hh. lia.
  - rewrite lookup_ge_None_2 by (rewrite load_bytes_length; lia). by rewrite lookup_seqZ_ge by lia.
Qed.

Definition kelf : elfhdr := elf_of (bytes_of 0 52).
Definition kph (i : nat) : proghdr := ph_of (bytes_of (e_phoff kelf + 32 * Z.of_nat i) 32).

(** A later segment does not reach back into an earlier one. *)
Fixpoint ordered (hs : list proghdr) : Prop :=
  match hs with [] => True | h :: hs' => Forall (fun h' => ph_paddr h + extent h <= seg_low h') hs' /\ ordered hs' end.

Lemma headers_kept m m' h : seg_fits h -> headers m -> (forall a, a < seg_low h \/ seg_top h <= a -> load8 m' a = load8 m a) -> headers m'.
Proof.
  intros (_ & _ & _ & _ & _ & _ & Hs) Hh Hsame j Hj. rewrite Hsame by lia. by apply Hh.
Qed.

Lemma load_kernel_wp n : forall i s (Q : unit -> bootst H -> Prop),
  let hs := map kph (seq i n) in
  on_disk (bhw s) -> headers (bmem s) -> Forall seg_fits hs -> ordered hs ->
  0 <= e_phoff kelf -> e_phoff kelf + 32 * Z.of_nat (i + n) <= 4096 ->
  (forall m g, on_disk g -> headers m -> Forall (seg_loaded m) hs ->
     (forall a, Forall (fun h => a < seg_low h \/ seg_top h <= a) hs -> load8 m a = load8 (bmem s) a) -> Q tt (mkBoot m g)) ->
  wp (load_kernel n (scratch + e_phoff kelf + 32 * Z.of_nat i)) Q s.
Proof.
  induction n as [|n IH]; intros i s Q hs Hd Hh Hf Ho Hp Hn HQ; cbn [load_kernel].
  - apply wp_ret. destruct s as [m g]. by apply (HQ m g).
  - unfold hs in *. cbn [seq map ordered] in Hf, Ho. apply Forall_cons in Hf as [Hf1 Hf]. destruct Ho as [Ho1 Ho].
    apply wp_bind, wp_gets. unfold ph_at. rewrite <- Z.add_assoc. change (Z.to_nat sizeof_proghdr) with 32%nat.
    rewrite load_headers by (done || lia). fold (kph i).
    apply wp_bind, load_seg_wp; [done|done|]. intros m g Hg Hl Hsame.
    unfold sizeof_proghdr. rewrite u32_small by (unfold scratch; lia).
    replace (scratch + (e_phoff kelf + 32 * Z.of_nat i) + 32) with (scratch + e_phoff kelf + 32 * Z.of_nat (S i)) by lia.
    apply IH; [done|by eapply headers_kept|done|done|done|lia|]. intros m' g' Hg' Hh' Hl' Hsame'. cbn [bmem] in Hsame'.
    apply HQ; [done|done| |].
    + constructor; [|done]. intros j Hj. rewrite Hsame'; [by apply Hl|]. eapply Forall_impl; [exact Ho1|]. intros h' Hh''. left. cbv beta in Hh''. lia.
    + intros a Ha. apply Forall_cons in Ha as [Ha1 Ha]. rewrite Hsame' by done. by apply Hsame.
Qed.

(** C23.  Loading the kernel.  If the sectors from 1 on hold an ELF file whose program
    headers are in its first 4096 bytes, and whose segments are in the address space,
    not where those are read to, and in increasing order, then bootmain jumps to the
    entry point of the file with every segment in memory: the bytes of the file and
    zeroes up to the size of the segment.  (A segment is read in whole sectors, and
    may be written below and above; the order and the zeroes make up for it.)
    Without the magic number bootmain returns. *)
Theorem bootmain_correct (s : bootst H) : on_disk (bhw s) ->
  (e_magic kelf <> ELF_MAGIC -> wp bootmain (fun r _ => r = None) s) /\
  (e_magic kelf = ELF_MAGIC ->
   let hs := map kph (seq 0 (Z.to_nat (e_phnum kelf))) in
   0 <= e_phoff kelf -> e_phoff kelf + 32 * Z.of_nat (Z.to_nat (e_phnum kelf)) <= 4096 -> Forall seg_fits hs -> ordered hs ->
   wp bootmain (fun r s' => r = Some (e_entry kelf) /\ Forall (seg_loaded (bmem s')) hs) s).
Proof.
  intros Hd.
  assert (Hread : forall (Q : unit -> bootst H -> Prop),
    (forall m g, on_disk g -> headers m -> Q tt (mkBoot m g)) -> wp (readseg scratch 4096 0) Q s).
  { intros Q HQ. apply readseg_wp; [done|done|done|done|done|done|]. intros m g Hg Hm. apply HQ; [done|]. intros j Hj. rewrite Hm.
    change (low scratch 0) with 65536. change (high scratch 4096 0) with 69632. unfold scratch.
    destruct (Z.leb_spec 65536 (65536 + j)); [|lia]. destruct (Z.ltb_spec (65536 + j) 69632); [|lia]. cbn [andb]. f_equal. lia. }
  assert (Helf : forall m, headers m -> elf_at m = kelf).
  { intros m Hh. unfold elf_at, kelf. rewrite <- (Z.add_0_r scratch). change (Z.to_nat sizeof_elfhdr) with 52%nat. by rewrite load_headers by (done || lia). }
  split; intros Hmag.
  - apply wp_bind, Hread. intros m g Hg Hh. apply wp_bind, wp_gets. cbn [bmem]. rewrite (Helf m Hh).
    rewrite (proj2 (Z.eqb_neq _ _)) by done. by apply wp_ret.
  - intros hs Hp Hn Hf Ho. apply wp_bind, Hread. intros m g Hg Hh. apply wp_bind, wp_gets. cbn [bmem]. rewrite (Helf m Hh), Hmag, Z.eqb_refl. cbn [negb].
    rewrite u32_small by (unfold scratch; lia).
    replace (scratch + e_phoff kelf) with (scratch + e_phoff kelf + 32 * Z.of_nat 0) by lia.
    apply wp_bind, load_kernel_wp; [done|done|done|done|done|lia|]. intros m' g' Hg' Hh' Hl _.
    apply wp_bind, wp_gets. cbn [bmem]. rewrite (Helf m' Hh'). by apply wp_ret.
Qed.
End Proofs.

(** A kernel of one segment, four bytes of the file and two zeroes at 0x100000, on
    the disk of Ide.v. *)
Definition boot_header : block :=
  [127; 69; 76; 70] ++ replicate 20 0 ++ [12; 0; 16; 0] ++ [52; 0; 0; 0] ++ replicate 12 0 ++ [1; 0] ++ replicate 6 0 ++
  [1; 0; 0; 0; 0; 2; 0; 0; 0; 0; 0; 0; 0; 0; 16; 0; 4; 0; 0; 0; 6; 0; 0; 0] ++ replicate 436 0.
Definition boot_disk (d x : Z) : block :=
  if x =? 1 then boot_header else if x =? 2 then replicate 512 7 else replicate 512 0.
Definition boot_state : bootst simhw := mkBoot ∅ (mkSim (fun _ => 0) None boot_disk false).

Lemma boot_disk_size d x : length (boot_disk d x) = 512%nat.
Proof. unfold boot_disk. destruct (x =? 1); [done|]. by destruct (x =? 2). Qed.

Lemma boot_on_disk : on_disk boot_disk (bhw boot_state).
Proof. by intros d x. Qed.

Lemma boot_kelf : e_magic (kelf boot_disk) = ELF_MAGIC /\ e_phoff (kelf boot_disk) = 52 /\ e_phnum (kelf boot_disk) = 1 /\
  e_entry (kelf boot_disk) = 1048588.
Proof. vm_compute. done. Qed.

Lemma boot_kph : kph boot_disk 0 = mkPh 1 512 0 1048576 4 6 0 0.
Proof. vm_compute. done. Qed.

Lemma bootmain_correct_witness :
  wp bootmain (fun r s' => r = Some 1048588 /\ Forall (seg_loaded boot_disk (bmem s')) [mkPh 1 512 0 1048576 4 6 0 0]) boot_state.
Proof.
  destruct boot_kelf as (E1 & E2 & E3 & E4).
  destruct (bootmain_correct boot_disk boot_disk_size boot_state boot_on_disk) as (_ & Hb).
  specialize (Hb E1). rewrite E2, E3, E4 in Hb. change (Z.to_nat 1) with 1%nat in Hb. cbn [seq map] in Hb. rewrite boot_kph in Hb.
  apply Hb; [lia|cbn; lia| |cbn; split; [constructor|exact I]].
  constructor; [|constructor]. unfold seg_fits, scratch. cbn -[Z.lt Z.le].
  change (seg_low (mkPh 1 512 0 1048576 4 6 0 0)) with 1048576. change (seg_top (mkPh 1 512 0 1048576 4 6 0 0)) with 1049088. lia.
Defined.
