(* ===== verification/Seg.v ===== *)
(** * Privilege: segments, gates and the task state (vm.c, trap.c, mmu.h, x86.h)

    The tables through which the processor decides what user code may do, as
    seginit, tvinit, idtinit and switchuvm set them up, and what the processor makes
    of them.  A table is loaded by address and used as it is at the time. *)

From stdpp Require Import base numbers list strings.
From Stdlib Require Import ZArith Lia.
From S2P Require Import Prelude Mmu Trap.

Local Open Scope Z_scope.
Local Open Scope kernel_scope.

(** ** mmu.h, proc.h *)
Record taskstate := mkTs {
  ts_link : Z; ts_esp0 : Z; ts_ss0 : Z; ts_esp1 : Z; ts_ss1 : Z; ts_esp2 : Z; ts_ss2 : Z; ts_cr3 : Z; ts_eip : Z;
  ts_eflags : Z; ts_eax : Z; ts_ecx : Z; ts_edx : Z; ts_ebx : Z; ts_esp : Z; ts_ebp : Z; ts_esi : Z; ts_edi : Z;
  ts_es : Z; ts_cs : Z; ts_ss : Z; ts_ds : Z; ts_fs : Z; ts_gs : Z; ts_ldt : Z; ts_t : Z; ts_iomb : Z }.
Definition sizeof_taskstate : Z := 104.
Definition sizeof_segdesc : Z := 8.
Definition sizeof_gatedesc : Z := 8.
Definition KSTACKSIZE : Z := 4096.

(** struct cpu, the part that concerns protection, and where it is. *)
Record cpu := mkCpu { c_ts : taskstate; c_gdt : list segdesc; c_ts_addr : Z; c_gdt_addr : Z }.

(** The registers: for lgdt and lidt the limit and the address, for ltr the selector
    and the descriptor that it loads. *)
Record segst := mkSegst {
  s_cpu : cpu;
  s_idt : list gatedesc;
  s_idt_addr : Z;
  s_kpgdir : Z;
  gdtr : Z * Z;
  idtr : Z * Z;
  tr : Z * option segdesc;
  cr3 : Z
}.

Definition set_cpu (c : cpu) (s : segst) : segst :=
  mkSegst c (s_idt s) (s_idt_addr s) (s_kpgdir s) (gdtr s) (idtr s) (tr s) (cr3 s).

(** ** x86.h *)

(** The three halves of the operand: the limit and the address. *)
Definition pseudo_desc (p size : Z) : Z * Z :=
  let pd0 := (size - 1) mod 65536 in
  let pd1 := u32 p mod 65536 in
  let pd2 := Z.shiftr (u32 p) 16 mod 65536 in
  (pd0, pd1 + 65536 * pd2).
Definition lgdt (p size : Z) : M segst unit :=
  modify (fun s => mkSegst (s_cpu s) (s_idt s) (s_idt_addr s) (s_kpgdir s) (pseudo_desc p size) (idtr s) (tr s) (cr3 s)).
Definition lidt (p size : Z) : M segst unit :=
  modify (fun s => mkSegst (s_cpu s) (s_idt s) (s_idt_addr s) (s_kpgdir s) (gdtr s) (pseudo_desc p size) (tr s) (cr3 s)).
Definition ltr (sel : Z) : M segst unit :=
  modify (fun s => mkSegst (s_cpu s) (s_idt s) (s_idt_addr s) (s_kpgdir s) (gdtr s) (idtr s)
                     (sel, c_gdt (s_cpu s) !! Z.to_nat (sel / 8)) (cr3 s)).
Definition lcr3 (v : Z) : M segst unit :=
  modify (fun s => mkSegst (s_cpu s) (s_idt s) (s_idt_addr s) (s_kpgdir s) (gdtr s) (idtr s) (tr s) v).

(** ** vm.c *)
Definition set_gdt (i : Z) (d : segdesc) : M segst unit :=
  modify (fun s => let c := s_cpu s in set_cpu (mkCpu (c_ts c) (<[Z.to_nat i := d]> (c_gdt c)) (c_ts_addr c) (c_gdt_addr c)) s).

Definition seginit : M segst unit :=
  set_gdt SEG_KCODE (SEG (Z.lor STA_X STA_R) 0 4294967295 0);;
  set_gdt SEG_KDATA (SEG STA_W 0 4294967295 0);;
  set_gdt SEG_UCODE (SEG (Z.lor STA_X STA_R) 0 4294967295 DPL_USER);;
  set_gdt SEG_UDATA (SEG STA_W 0 4294967295 DPL_USER);;
  c <- gets s_cpu;;
  lgdt (c_gdt_addr c) (NSEGS * sizeof_segdesc).

Definition switchkvm : M segst unit :=
  k <- gets s_kpgdir;;
  lcr3 (V2P k).

(** kvmalloc, with the directory that setupkvm returns. *)
Definition kvmalloc (setupkvm : Z) : M segst unit :=
  modify (fun s => mkSegst (s_cpu s) (s_idt s) (s_idt_addr s) setupkvm (gdtr s) (idtr s) (tr s) (cr3 s));;
  switchkvm.

(** [gdt\[SEG_TSS\].s = 0]. *)
Definition clear_s (d : segdesc) : segdesc :=
  mkSegdesc (lim_15_0 d) (base_15_0 d) (base_23_16 d) (seg_type d) 0 (seg_dpl d) (seg_p d) (lim_19_16 d) (seg_avl d) (seg_rsv1 d)
    (seg_db d) (seg_g d) (base_31_24 d).

Definition set_stack (ss0 esp0 iomb : Z) (t : taskstate) : taskstate :=
  mkTs (ts_link t) esp0 ss0 (ts_esp1 t) (ts_ss1 t) (ts_esp2 t) (ts_ss2 t) (ts_cr3 t) (ts_eip t) (ts_eflags t) (ts_eax t) (ts_ecx t)
    (ts_edx t) (ts_ebx t) (ts_esp t) (ts_ebp t) (ts_esi t) (ts_edi t) (ts_es t) (ts_cs t) (ts_ss t) (ts_ds t) (ts_fs t) (ts_gs t)
    (ts_ldt t) (ts_t t) iomb.

(** switchuvm(p) with the kstack and the pgdir of [p]; between pushcli and popcli the
    processor stays the same. *)
Definition switchuvm (p : option (Z * Z)) : M segst unit :=
  match p with
  | None => panic "switchuvm: no process"
  | Some (kstack, pgdir) =>
      if kstack =? 0 then panic "switchuvm: no kstack"
      else if pgdir =? 0 then panic "switchuvm: no pgdir"
      else
        c <- gets s_cpu;;
        set_gdt SEG_TSS (SEG16 STS_T32A (c_ts_addr c) (sizeof_taskstate - 1) 0);;
        modify (fun s => let c := s_cpu s in
          set_cpu (mkCpu (c_ts c) (alter clear_s (Z.to_nat SEG_TSS) (c_gdt c)) (c_ts_addr c) (c_gdt_addr c)) s);;
        modify (fun s => let c := s_cpu s in
          set_cpu (mkCpu (set_stack (Z.shiftl SEG_KDATA 3) (u32 (kstack + KSTACKSIZE)) 65535 (c_ts c)) (c_gdt c) (c_ts_addr c) (c_gdt_addr c)) s);;
        ltr (Z.shiftl SEG_TSS 3);;
        lcr3 (V2P pgdir)
  end.

(** ** trap.c *)
Section Vectors.
Context (vectors : nat -> Z).     (* vectors.S: the entry points *)

Fixpoint set_gates (k : nat) (idt : list gatedesc) : list gatedesc :=
  match k with
  | O => idt
  | S k' => <[k' := SETGATE false (Z.shiftl SEG_KCODE 3) (vectors k') 0]> (set_gates k' idt)
  end.

Definition tvinit : M segst unit :=
  modify (fun s =>
    let idt := set_gates 256 (s_idt s) in
    let idt := <[Z.to_nat T_SYSCALL := SETGATE true (Z.shiftl SEG_KCODE 3) (vectors (Z.to_nat T_SYSCALL)) DPL_USER]> idt in
    mkSegst (s_cpu s) idt (s_idt_addr s) (s_kpgdir s) (gdtr s) (idtr s) (tr s) (cr3 s)).
End Vectors.

Definition idtinit : M segst unit :=
  a <- gets s_idt_addr;;
  lidt a (256 * sizeof_gatedesc).

(** ** What the processor does with the tables (Intel SDM, vol. 3, 6.12 and 5.5) *)

(** Interrupt [n] at privilege level [cpl], by an int instruction or not: the code
    segment and the address to go to, the privilege level there, the stack (from the
    task state when the level changes) and whether interrupts stay enabled; [None] is
    a protection fault. *)
Record entry := mkEntry { en_cs : Z; en_eip : Z; en_cpl : Z; en_stack : option (Z * Z); en_if : bool }.

Definition deliver (s : segst) (cpl : Z) (soft : bool) (n : nat) : option entry :=
  match s_idt s !! n with
  | None => None
  | Some g =>
      if negb (gate_p g =? 1) || (soft && (gate_dpl g <? cpl)) then None
      else
        match c_gdt (s_cpu s) !! Z.to_nat (gate_cs g / 8) with
        | None => None
        | Some d =>
            if negb (seg_p d =? 1) || (cpl <? seg_dpl d) then None
            else Some (mkEntry (gate_cs g) (gate_offset g) (seg_dpl d)
                         (if seg_dpl d <? cpl then Some (ts_ss0 (c_ts (s_cpu s)), ts_esp0 (c_ts (s_cpu s))) else None)
                         (gate_type g =? STS_TG32))
        end
  end.

(** Level [cpl] may load segment [i]. *)
Definition loadable (s : segst) (cpl : Z) (i : nat) : bool :=
  match c_gdt (s_cpu s) !! i with Some d => (seg_p d =? 1) && (seg_s d =? 1) && (cpl <=? seg_dpl d) | None => false end.

(** A port instruction above the I/O privilege level looks at the bitmap, if the
    task state reaches that far. *)
Definition io_allowed (s : segst) : bool :=
  match snd (tr s) with Some d => ts_iomb (c_ts (s_cpu s)) + 1 <=? seg_limit d | None => false end.

(** ** Well-formed tables: every field fits its bit-field *)
Definition bits (n : Z) (v : Z) : Prop := 0 <= v < 2 ^ n.
Definition seg_fits (d : segdesc) : Prop :=
  bits 16 (lim_15_0 d) /\ bits 16 (base_15_0 d) /\ bits 8 (base_23_16 d) /\ bits 4 (seg_type d) /\ bits 1 (seg_s d) /\
  bits 2 (seg_dpl d) /\ bits 1 (seg_p d) /\ bits 4 (lim_19_16 d) /\ bits 1 (seg_avl d) /\ bits 1 (seg_rsv1 d) /\
  bits 1 (seg_db d) /\ bits 1 (seg_g d) /\ bits 8 (base_31_24 d).
Definition gate_fits (g : gatedesc) : Prop :=
  bits 16 (off_15_0 g) /\ bits 16 (gate_cs g) /\ bits 5 (gate_args g) /\ bits 3 (gate_rsv1 g) /\ bits 4 (gate_type g) /\
  bits 1 (gate_s g) /\ bits 2 (gate_dpl g) /\ bits 1 (gate_p g) /\ bits 16 (off_31_16 g).

Record well_typed (s : segst) : Prop := {
  wt_gdt : length (c_gdt (s_cpu s)) = 6%nat;
  wt_segs : Forall seg_fits (c_gdt (s_cpu s));
  wt_idt : length (s_idt s) = 256%nat;
  wt_gates : Forall gate_fits (s_idt s);
  wt_esp0 : bits 32 (ts_esp0 (c_ts (s_cpu s)));
  wt_ss0 : bits 16 (ts_ss0 (c_ts (s_cpu s)));
  wt_iomb : bits 16 (ts_iomb (c_ts (s_cpu s)));
  wt_gdtr : bits 16 (fst (gdtr s)) /\ bits 32 (snd (gdtr s));
  wt_idtr : bits 16 (fst (idtr s)) /\ bits 32 (snd (idtr s));
  wt_tr : match snd (tr s) with Some d => seg_fits d | None => True end
}.

Lemma bits_mod n v : 0 <= n -> bits n (v mod 2 ^ n).
Proof. intros Hn. apply Z.mod_pos_bound. by apply Z.pow_pos_nonneg. Qed.

Lemma bits_land n v : 0 <= n -> bits n (Z.land v (Z.ones n)).
Proof. intros Hn. rewrite Z.land_ones by done. by apply bits_mod. Qed.

Lemma bits_u32_high v : bits 16 (Z.shiftr (u32 v) 16).
Proof.
  unfold bits. pose proof (u32_range v). rewrite Z.shiftr_div_pow2 by done. change (2 ^ 16) with 65536.
  split; [apply Z.div_pos; lia|apply Z.div_lt_upper_bound; lia].
Qed.

Lemma SEG_fits type base lim dpl : seg_fits (SEG type base lim dpl).
Proof.
  unfold seg_fits, SEG. cbn -[Z.land Z.shiftr Z.modulo u32].
  split_and!; first [by apply (bits_land 16)|by apply (bits_land 8)|by apply (bits_mod 4)|by apply (bits_mod 2)|by apply (bits_mod 8)|by vm_compute].
Qed.

Lemma SEG16_fits type base lim dpl : seg_fits (SEG16 type base lim dpl).
Proof.
  unfold seg_fits, SEG16. cbn -[Z.land Z.shiftr Z.modulo u32].
  split_and!; first [by apply (bits_land 16)|by apply (bits_land 8)|by apply (bits_mod 4)|by apply (bits_mod 2)|by apply (bits_mod 8)|by vm_compute].
Qed.

Lemma SETGATE_fits istrap sel off d : gate_fits (SETGATE istrap sel off d).
Proof.
  unfold gate_fits, SETGATE. cbn -[Z.land Z.shiftr Z.modulo u32].
  split_and!; first [by apply (bits_land 16)|by apply (bits_mod 16)|by apply (bits_mod 2)|by apply bits_u32_high|by destruct istrap; vm_compute|by vm_compute].
Qed.

Lemma pseudo_desc_fits p size : bits 16 (fst (pseudo_desc p size)) /\ bits 32 (snd (pseudo_desc p size)).
Proof.
  unfold pseudo_desc. cbn [fst snd]. split; [by apply (bits_mod 16)|].
  pose proof (Z.mod_pos_bound (u32 p) 65536 ltac:(done)). pose proof (Z.mod_pos_bound (Z.shiftr (u32 p) 16) 65536 ltac:(done)).
  unfold bits. change (2 ^ 32) with 4294967296. lia.
Qed.

(** lgdt and lidt take the address apart and the processor puts it together. *)
Lemma pseudo_desc_addr p size : 0 <= p < 4294967296 -> 0 < size <= 65536 -> pseudo_desc p size = (size - 1, p).
Proof.
  intros Hp Hs. unfold pseudo_desc. rewrite u32_small, Z.mod_small by lia. f_equal. rewrite Z.shiftr_div_pow2 by done. change (2 ^ 16) with 65536.
  rewrite (Z.mod_small (p / 65536)) by (split; [apply Z.div_pos; lia|apply Z.div_lt_upper_bound; lia]).
  pose proof (Z.div_mod p 65536 ltac:(done)). lia.
Qed.

Lemma clear_s_fits d : seg_fits d -> seg_fits (clear_s d).
Proof. intros (H1 & H2 & H3 & H4 & _ & H). do 4 (split; [done|]). split; [by vm_compute|done]. Qed.

Lemma set_gdt_typed i d s : well_typed s -> seg_fits d -> wp (set_gdt i d) (fun _ s' => well_typed s') s.
Proof.
  intros [W1 W2 W3 W4 W5 W6 W7 W8 W9 W10] Hd. apply wp_modify. split; cbn; try done.
  - by rewrite length_insert.
  - by apply Forall_insert.
Qed.

Lemma seginit_typed s : well_typed s -> wp seginit (fun _ s' => well_typed s') s.
Proof.
  intros Hs. unfold seginit.
  apply wp_bind. eapply wp_mono; [apply set_gdt_typed; [exact Hs|apply SEG_fits]|]. intros [] s1 Hs1.
  apply wp_bind. eapply wp_mono; [apply set_gdt_typed; [exact Hs1|apply SEG_fits]|]. intros [] s2 Hs2.
  apply wp_bind. eapply wp_mono; [apply set_gdt_typed; [exact Hs2|apply SEG_fits]|]. intros [] s3 Hs3.
  apply wp_bind. eapply wp_mono; [apply set_gdt_typed; [exact Hs3|apply SEG_fits]|]. intros [] s4 Hs4.
  apply wp_bind, wp_gets, wp_modify. destruct Hs4 as [W1 W2 W3 W4 W5 W6 W7 W8 W9 W10]. split; try done. apply pseudo_desc_fits.
Qed.

Lemma switchuvm_typed kstack pgdir s : kstack <> 0 -> pgdir <> 0 -> well_typed s ->
  wp (switchuvm (Some (kstack, pgdir))) (fun _ s' => well_typed s') s.
Proof.
  intros Hk Hp Hs. unfold switchuvm. rewrite (proj2 (Z.eqb_neq _ _) Hk), (proj2 (Z.eqb_neq _ _) Hp). apply wp_bind, wp_gets.
  apply wp_bind. eapply wp_mono; [apply set_gdt_typed; [done|apply SEG16_fits]|]. intros [] s1 [W1 W2 W3 W4 W5 W6 W7 W8 W9 W10].
  assert (Hf : Forall seg_fits (alter clear_s (Z.to_nat SEG_TSS) (c_gdt (s_cpu s1)))).
  { apply Forall_alter; [done|]. intros d _ Hd. by apply clear_s_fits. }
  apply wp_bind, wp_modify, wp_bind, wp_modify, wp_bind, wp_modify, wp_modify. split; cbn -[u32]; try done.
  - by rewrite length_alter.
  - unfold bits. change (2 ^ 32) with 4294967296. apply u32_range.
  - destruct (alter _ _ _ !! _) as [d|] eqn:E; [|done]. rewrite Forall_lookup in Hf. by eapply Hf.
Qed.

Lemma set_gates_fits vectors k : forall idt, Forall gate_fits idt -> Forall gate_fits (set_gates vectors k idt).
Proof. induction k as [|k IH]; intros idt H; cbn [set_gates]; [done|]. apply Forall_insert; [by apply IH|apply SETGATE_fits]. Qed.

Lemma length_set_gates vectors k idt : length (set_gates vectors k idt) = length idt.
Proof. induction k as [|k IH]; cbn [set_gates]; [done|]. by rewrite length_insert. Qed.


(** ** Protection *)
Definition zero_seg : segdesc := mkSegdesc 0 0 0 0 0 0 0 0 0 0 0 0 0.

(** The state that the kernel runs a process in. *)
Definition enter_user (vectors : nat -> Z) (kstack pgdir : Z) : M segst unit :=
  seginit;; tvinit vectors;; idtinit;; switchuvm (Some (kstack, pgdir)).

Lemma set_gates_lookup vectors k n idt : (n < k)%nat -> (k <= length idt)%nat ->
  set_gates vectors k idt !! n = Some (SETGATE false (Z.shiftl SEG_KCODE 3) (vectors n) 0).
Proof.
  induction k as [|k IH]; intros Hn Hk; [lia|]. cbn [set_gates]. destruct (decide (n = k)) as [-> | Hne].
  - apply list_lookup_insert_eq. rewrite length_set_gates. lia.
  - rewrite list_lookup_insert_ne by done. apply IH; lia.
Qed.

Definition user_gdt (ts_addr : Z) : list segdesc :=
  [zero_seg; SEG (Z.lor STA_X STA_R) 0 4294967295 0; SEG STA_W 0 4294967295 0; SEG (Z.lor STA_X STA_R) 0 4294967295 DPL_USER;
   SEG STA_W 0 4294967295 DPL_USER; clear_s (SEG16 STS_T32A ts_addr (sizeof_taskstate - 1) 0)].

Lemma enter_user_run vectors kstack pgdir s : kstack <> 0 -> pgdir <> 0 -> c_gdt (s_cpu s) = replicate 6 zero_seg ->
  let c := s_cpu s in
  enter_user vectors kstack pgdir s = Ret tt
    (mkSegst (mkCpu (set_stack 16 (u32 (kstack + KSTACKSIZE)) 65535 (c_ts c)) (user_gdt (c_ts_addr c)) (c_ts_addr c) (c_gdt_addr c))
       (<[64%nat := SETGATE true 8 (vectors 64%nat) DPL_USER]> (set_gates vectors 256 (s_idt s))) (s_idt_addr s) (s_kpgdir s)
       (pseudo_desc (c_gdt_addr c) 48) (pseudo_desc (s_idt_addr s) 2048)
       (40, Some (clear_s (SEG16 STS_T32A (c_ts_addr c) (sizeof_taskstate - 1) 0))) (V2P pgdir)).
Proof.
  intros Hk Hp Hg c. destruct s as [[ts g ta ga] idt ia kp gr ir t3 c3]. cbn in Hg, c. subst g.
  unfold enter_user, switchuvm. rewrite (proj2 (Z.eqb_neq _ _) Hk), (proj2 (Z.eqb_neq _ _) Hp). reflexivity.
Qed.

Lemma gate_decode istrap off d : 0 <= off < 4294967296 -> gate_offset (SETGATE istrap 8 off d) = off.
Proof.
  intros Ho. unfold gate_offset, SETGATE. cbn [off_15_0 off_31_16]. rewrite u32_small by done. rewrite (land_ones_mod _ 16), Z.shiftr_div_pow2 by lia.
  change (2 ^ 16) with 65536. pose proof (Z.div_mod off 65536 ltac:(lia)). lia.
Qed.

(** C22.  What user code may do.  In the state that seginit, tvinit, idtinit and
    switchuvm make: an int instruction of user code enters the kernel only with the
    number of the system call, every other one is a protection fault; every interrupt
    goes to its own entry in the kernel's code segment, at level 0, on the kernel
    stack of the process, with interrupts disabled except for the system call; user
    code can load only its own two segments; it has no access to ports; and the page
    table is that of the process. *)
Theorem protection_correct (vectors : nat -> Z) (kstack pgdir : Z) (s : segst) :
  kstack <> 0 -> pgdir <> 0 -> 0 <= kstack < 4294967296 - KSTACKSIZE -> (forall n, 0 <= vectors n < 4294967296) ->
  c_gdt (s_cpu s) = replicate 6 zero_seg -> length (s_idt s) = 256%nat ->
  0 <= c_gdt_addr (s_cpu s) < 4294967296 -> 0 <= s_idt_addr s < 4294967296 ->
  exists s', enter_user vectors kstack pgdir s = Ret tt s' /\
    (forall n, (n < 256)%nat ->
       let e := mkEntry (SEG_KCODE * 8) (vectors n) 0 (Some (SEG_KDATA * 8, kstack + KSTACKSIZE)) (n =? 64)%nat in
       deliver s' 3 true n = (if (n =? 64)%nat then Some e else None) /\ deliver s' 3 false n = Some e) /\
    (forall i, loadable s' 3 i = true <-> i = Z.to_nat SEG_UCODE \/ i = Z.to_nat SEG_UDATA) /\
    io_allowed s' = false /\ cr3 s' = V2P pgdir /\
    gdtr s' = (47, c_gdt_addr (s_cpu s)) /\ idtr s' = (2047, s_idt_addr s).
Proof.
  intros Hk Hp Hks Hv Hg Hi Hga Hia. unfold KSTACKSIZE in *. eexists. split; [by apply enter_user_run|].
  split; [|split; [|split; [done|split; [done|split; by apply pseudo_desc_addr]]]].
  - intros n Hn. cbv zeta. unfold deliver. cbn [s_idt s_cpu c_gdt c_ts ts_ss0 ts_esp0 set_stack].
    rewrite u32_small by (unfold KSTACKSIZE; lia). unfold KSTACKSIZE. destruct (Nat.eqb_spec n 64) as [-> | Hne].
    + rewrite list_lookup_insert_eq by (rewrite length_set_gates; lia).
      cbn -[gate_offset set_gates]. by rewrite gate_decode by done.
    + rewrite list_lookup_insert_ne by done. rewrite set_gates_lookup by lia. change (Z.shiftl SEG_KCODE 3) with 8.
      cbn -[gate_offset set_gates]. by rewrite gate_decode by done.
  - intros i. unfold loadable. cbn [s_cpu c_gdt]. change (Z.to_nat SEG_UCODE) with 3%nat. change (Z.to_nat SEG_UDATA) with 4%nat.
    do 6 (destruct i as [|i]; [cbn; split; [intros E; (discriminate || auto)|intros [E|E]; (discriminate || auto)]|]).
    cbn. split; [done|intros [E|E]; discriminate].
Qed.

Definition demo_segst : segst :=
  mkSegst (mkCpu (mkTs 0 0 0 0 0 0 0 0 0 0 0 0 0 0 0 0 0 0 0 0 0 0 0 0 0 0 0) (replicate 6 zero_seg) 2148532224 2148532400)
    (replicate 256 (mkGatedesc 0 0 0 0 0 0 0 0 0)) 2148540416 0 (0, 0) (0, 0) (0, None) 0.

Lemma demo_typed : well_typed demo_segst.
Proof.
  assert (Hz : forall n, 0 <= n -> bits n 0) by (intros n Hn; split; [done|by apply Z.pow_pos_nonneg]).
  split; try done; try (by apply Hz); try (split; by apply Hz).
  - apply (Forall_replicate seg_fits 6). unfold seg_fits. cbn. split_and!; by apply Hz.
  - apply (Forall_replicate gate_fits 256). unfold gate_fits. cbn. split_and!; by apply Hz.
Qed.


Lemma protection_correct_witness : exists s', enter_user (fun _ => 2148540416) 2149580800 2149584896 demo_segst = Ret tt s' /\
  deliver s' 3 true 14 = None /\ deliver s' 3 true 64 = Some (mkEntry 8 2148540416 0 (Some (16, 2149584896)) true).
Proof.
  destruct (protection_correct (fun _ => 2148540416) 2149580800 2149584896 demo_segst) as (s' & E & H & _);
    [discriminate|discriminate|unfold KSTACKSIZE; lia|lia|reflexivity|reflexivity|cbn; lia|cbn; lia|].
  exists s'. split; [exact E|]. split; [exact (proj1 (H 14%nat ltac:(lia)))|exact (proj1 (H 64%nat ltac:(lia)))].
Defined.
