(* ===== verification/Startup.v ===== *)
(** * Starting up (main.c)

    The parts of the kernel side by side, and main, which initialises them one after
    the other on the boot processor.  startothers writes the entry code and, for each
    other processor in turn, the words below it that the code reads: a stack, where to
    enter, and the page directory.  The processor starts with what is there when it
    gets its startup interrupt; its entry code, in assembly, goes on to mpenter. *)

From stdpp Require Import base numbers list gmap strings.
From Stdlib Require Import ZArith Lia.
From S2P Require Import Prelude Mmu Mem Kalloc Vm Block BlockCache Bio Fs Proc File Syscall Trap Console Ide Mp Apic Seg.

Local Open Scope Z_scope.
Local Open Scope kernel_scope.

(** ** The page table of entry.S *)
Definition entrypgdir (i : Z) : Z :=
  if (i =? 0) || (i =? Z.shiftr KERNBASE PDXSHIFT) then Z.lor (Z.lor (Z.lor 0 PTE_P) PTE_W) PTE_PS else 0.

(** The translation of an address by 4 MB pages. *)
Definition big_translate (dir : Z -> Z) (va : Z) : option Z :=
  let e := dir (PDX va) in
  if (Z.land e PTE_P =? 0) || (Z.land e PTE_PS =? 0) then None else Some (e / 4194304 * 4194304 + va mod 4194304).

Lemma entrypgdir_maps va : 0 <= va < 4294967296 -> big_translate entrypgdir va =
  if va <? 4194304 then Some va
  else if (KERNBASE <=? va) && (va <? KERNBASE + 4194304) then Some (va - KERNBASE) else None.
Proof.
  intros Hva. unfold big_translate, entrypgdir. rewrite PDX_div by lia. change (Z.shiftr KERNBASE PDXSHIFT) with 512.
  unfold KERNBASE. pose proof (Z.div_mod va 4194304 ltac:(done)) as E. pose proof (Z.mod_pos_bound va 4194304 ltac:(done)) as Hm.
  set (q := va / 4194304) in *. set (r := va mod 4194304) in *.
  destruct (Z.eqb_spec q 0); cbn [orb].
  - rewrite (proj2 (Z.ltb_lt va 4194304)) by lia. transitivity (Some r); [reflexivity|]. f_equal. lia.
  - rewrite (proj2 (Z.ltb_ge va 4194304)) by lia. destruct (Z.eqb_spec q 512).
    + rewrite (proj2 (Z.leb_le _ va)), (proj2 (Z.ltb_lt va _)) by lia. transitivity (Some r); [reflexivity|]. f_equal. lia.
    + destruct (Z.leb_spec 2147483648 va); [|done]. rewrite (proj2 (Z.ltb_ge va _)) by lia. done.
Qed.

(** ** The state *)

(** What a processor starts with: its id, the address, and the three words. *)
Record start := mkStart { st_apicid : Z; st_addr : Z; st_stack : Z; st_enter : Z; st_pgdir : Z }.

Section Startup.
Context {H : Type} {HW : IdeHw H} {LS : LinkSyms}.

(** The processor that runs is [y_apic], with its segments and its local APIC. *)
Record sys := mkSys {
  y_kern : pst (kern console);  (* processes, memory, files, console *)
  y_bc : bstate;                     (* bcache *)
  y_ide : idest H;
  y_mp : mpst;
  y_apic : Z;
  y_seg : segst;
  y_dev : dev;
  y_started : list nat;              (* cpus\[i\].started *)
  y_starts : list start;
  y_aps : list segst                 (* of the other processors, when they are up *)
}.

Definition set_kern v y := mkSys v (y_bc y) (y_ide y) (y_mp y) (y_apic y) (y_seg y) (y_dev y) (y_started y) (y_starts y) (y_aps y).
Definition set_bc v y := mkSys (y_kern y) v (y_ide y) (y_mp y) (y_apic y) (y_seg y) (y_dev y) (y_started y) (y_starts y) (y_aps y).
Definition set_ide v y := mkSys (y_kern y) (y_bc y) v (y_mp y) (y_apic y) (y_seg y) (y_dev y) (y_started y) (y_starts y) (y_aps y).
Definition set_mp v y := mkSys (y_kern y) (y_bc y) (y_ide y) v (y_apic y) (y_seg y) (y_dev y) (y_started y) (y_starts y) (y_aps y).
Definition set_seg v y := mkSys (y_kern y) (y_bc y) (y_ide y) (y_mp y) (y_apic y) v (y_dev y) (y_started y) (y_starts y) (y_aps y).
Definition set_dev v y := mkSys (y_kern y) (y_bc y) (y_ide y) (y_mp y) (y_apic y) (y_seg y) v (y_started y) (y_starts y) (y_aps y).
Definition add_started i y := mkSys (y_kern y) (y_bc y) (y_ide y) (y_mp y) (y_apic y) (y_seg y) (y_dev y) (y_started y ++ [i]) (y_starts y) (y_aps y).
Definition add_start st y := mkSys (y_kern y) (y_bc y) (y_ide y) (y_mp y) (y_apic y) (y_seg y) (y_dev y) (y_started y) (y_starts y ++ [st]) (y_aps y).

Definition y_mem (y : sys) : kstate := kmem (env (y_kern y)).
Definition set_mem_of (k : kstate) (y : sys) : sys :=
  set_kern (mkPst (tab (y_kern y)) (set_kmem k (env (y_kern y)))) y.
Definition y_cons (y : sys) : console := devst (fsys (env (y_kern y))).
Definition set_cons (c : console) (y : sys) : sys :=
  set_kern (mkPst (tab (y_kern y)) (set_fsys (set_devst c (fsys (env (y_kern y)))) (env (y_kern y)))) y.

(** The registers of the local APIC [id], as a history leaves them; how often they are
    polled; inb(0x23); the vectors; the entry code; addresses of the kernel; the cpus. *)
Context (answer : Z -> list io -> io -> Z) (patience : nat) (in23 : Z) (vectors : nat -> Z).
Context (entryother initcode : list Z) (mpenter_addr entrypgdir_addr forkret : Z) (cpu_at : nat -> cpu).

Definition onmem {A} (c : M kstate A) : M sys A := zoom y_mem set_mem_of c.
Definition oncons {A} (c : M console A) : M sys A := zoom y_cons set_cons c.
Definition onseg {A} (c : M segst A) : M sys A := zoom y_seg set_seg c.
Definition ondev {A} (c : (list io -> io -> Z) -> M dev A) : M sys A := fun y => zoom y_dev set_dev (c (answer (y_apic y))) y.

(** mycpu() - cpus; interrupts are off until the scheduler enables them. *)
Fixpoint find_apic (l : list Z) (i : nat) (apicid : Z) : option nat :=
  match l with
  | [] => None
  | a :: l' => if a =? apicid then Some i else find_apic l' (S i) apicid
  end.
Definition cpuid : M sys nat :=
  id <- ondev (fun answer => lapicid answer);;
  y <- get;;
  match find_apic (cpus (y_mp y)) 0 id with
  | Some i => ret i
  | None => panic "unknown apicid"
  end.

(** cpu%d: starting %d *)
Definition starting : list Z :=
  [99; 112; 117; 37; 100; 58; 32; 115; 116; 97; 114; 116; 105; 110; 103; 32; 37; 100; 10].

(** mpmain, up to the call of scheduler. *)
Definition mpmain : M sys unit :=
  i <- cpuid;;
  j <- cpuid;;
  oncons (cprintf_loop (fun _ => []) starting [Z.of_nat i; Z.of_nat j]);;
  onseg idtinit;;
  c <- cpuid;;
  modify (add_started c).

Definition mpenter : M sys unit :=
  onseg switchkvm;;
  onseg seginit;;
  ondev (fun answer => lapicinit answer patience);;
  mpmain.

(** ** startothers *)
Definition code : Z := P2V 28672.

Definition store (a v : Z) : M sys unit := onmem (modify (set_mem (fun m => store32 m a v))).

Definition started_with (apicid : Z) (y : sys) : start :=
  let m := mem (y_mem y) in
  mkStart apicid (V2P code) (load32 m (code - 4)) (load32 m (code - 8)) (load32 m (code - 12)).

(** Another processor: its own registers and local APIC, with the same tables. *)
Definition ap_of (i : nat) (st : start) (y : sys) : sys :=
  mkSys (y_kern y) (y_bc y) (y_ide y) (y_mp y) (st_apicid st)
    (mkSegst (cpu_at i) (s_idt (y_seg y)) (s_idt_addr (y_seg y)) (s_kpgdir (y_seg y)) (0, 0) (0, 0) (0, None) (st_pgdir st))
    (mkDev [] (lapic_on (y_dev y)) (Apic.ioapicid (y_dev y)) (uart (y_dev y)))
    (y_started y) (y_starts y) (y_aps y).
Definition ap_back (y y' : sys) : sys :=
  mkSys (y_kern y') (y_bc y') (y_ide y') (y_mp y') (y_apic y) (y_seg y) (y_dev y) (y_started y') (y_starts y') (y_aps y' ++ [y_seg y']).

(** Run [c] on that processor. *)
Definition on_ap (i : nat) (st : start) (c : M sys unit) : M sys unit := fun y =>
  match c (ap_of i st y) with
  | Ret _ y' => Ret tt (ap_back y y')
  | Panic msg => Panic msg
  | Undef => Undef
  | Hang => Hang
  end.

(** The startup interrupt: the processor begins with the words it finds. *)
Definition startap (i : nat) (apicid : Z) : M sys unit :=
  ondev (fun answer => lapicstartap answer apicid (V2P code));;
  y <- get;;
  let st := started_with apicid y in
  modify (add_start st);;
  if st_enter st =? mpenter_addr then on_ap i st mpenter else undef.

(** while(c->started == 0) *)
Definition wait_started (i : nat) : M sys unit :=
  y <- get;;
  if bool_decide (i ∈ y_started y) then ret tt else hang.

Definition start_cpu (i : nat) (apicid : Z) : M sys unit :=
  stack <- onmem kalloc;;
  store (code - 4) (u32 (stack + KSTACKSIZE));;
  store (code - 8) mpenter_addr;;
  store (code - 12) (V2P entrypgdir_addr);;
  startap i apicid;;
  wait_started i.

(** The loop over the processors from number [i] on. *)
Fixpoint start_cpus (ids : list Z) (i : nat) : M sys unit :=
  match ids with
  | [] => ret tt
  | apicid :: ids' =>
      me <- cpuid;;
      (if (i =? me)%nat then ret tt else start_cpu i apicid);;
      start_cpus ids' (S i)
  end.

Definition startothers : M sys unit :=
  onmem (modify (set_mem (fun m => store_bytes m code entryother)));;
  y <- get;;
  start_cpus (cpus (y_mp y)) 0.

(** ** main *)
Definition kvmalloc : M sys unit :=
  g <- onmem setupkvm;;
  onseg (Seg.kvmalloc g).

(** mpinit reads physical memory through the kernel's mapping of it, and sets lapic
    and ioapicid, which lapic.c and ioapic.c use. *)
Definition mpinit (k : nat) : M sys unit := fun y =>
  match Mp.mpinit (fun a => load8 (mem (y_mem y)) (P2V a)) in23 k (y_mp y) with
  | Ret _ m => Ret tt (set_dev (mkDev (hist (y_dev y)) (negb (Mp.lapic m =? 0)) (Mp.ioapicid m) (uart (y_dev y))) (set_mp m y))
  | Panic msg => Panic msg
  | Undef => Undef
  | Hang => Hang
  end.

(** The table of devices is the instance console_devsw; consoleinit fills it in. *)
Definition consoleinit : M sys unit := ondev (fun _ => ioapicenable IRQ_KBD 0).

Definition binit : M sys unit :=
  modify (fun y => set_bc (Bio.binit (disk (y_bc y)) (Bio.disksize (y_bc y)) (mypid (y_bc y))) y).

Definition ideinit : M sys unit :=
  y <- get;;
  ondev (fun _ => ioapicenable IRQ_IDE (Z.of_nat (length (cpus (y_mp y))) - 1));;
  zoom y_ide set_ide Ide.ideinit.

Definition userinit : M sys unit := zoom y_kern set_kern (Proc.userinit (EV := kernel_env (DV := console_devsw false) initcode) forkret).

(** main's calls between mpinit and startothers; pinit and fileinit name locks. *)
Definition init_devices : M sys unit :=
  ondev (fun answer => lapicinit answer patience);;
  onseg seginit;;
  ondev (fun _ => picinit);;
  ondev (fun answer => ioapicinit answer);;
  consoleinit;;
  ondev (fun answer => uartinit answer);;
  onseg (tvinit vectors);;
  binit;;
  ideinit.

(** main, up to mpmain's call of scheduler; [k] bounds the rounds of mpinit's loop. *)
Definition main (k : nat) : M sys unit :=
  onmem (kinit1 sym_end (P2V (4 * 1024 * 1024)));;
  kvmalloc;;
  mpinit k;;
  init_devices;;
  startothers;;
  onmem (kinit2 (P2V (4 * 1024 * 1024)) (P2V PHYSTOP));;
  userinit;;
  mpmain.
End Startup.
