(* ===== verification/Main.v ===== *)
(** * Booting (main.c)

    main runs the initialisers of all parts on one state.  The theorem is that it
    reaches the scheduler, and what the memory, the page tables, the processors, the
    interrupts and the process table are then. *)

From stdpp Require Import base numbers list gmap strings.
From Stdlib Require Import ZArith Lia.
From S2P Require Import Prelude Mmu Mem Kalloc Vm VmInv VmWalk VmUser VmGrow VmFree VmInit Block BlockCache Bio Fs Proc ProcInv File.
From S2P Require Import Syscall Trap Console Ide Mp Apic Seg Startup.

Local Open Scope Z_scope.
Local Open Scope kernel_scope.

Lemma wp_zoom {S T A} (g : T -> S) (p : S -> T -> T) (c : M S A) (Q : A -> T -> Prop) t :
  wp c (fun a s => Q a (p s t)) (g t) -> wp (zoom g p c) Q t.
Proof. unfold wp, zoom. by destruct (c (g t)). Qed.

(** ** Devices *)
Section Devices.
Context (answer : list io -> io -> Z) (patience : nat).

(** [c] returns, and leaves the redirection entries of the interrupts in [P] alone. *)
Definition keeps (P : Z -> Prop) {A} (c : M dev A) : Prop :=
  forall d, exists a d', c d = Ret a d' /\ lapic_on d' = lapic_on d /\
    forall f i, P i -> redir f (hist d') i = redir f (hist d) i.

Lemma dev_keeps_ret P {A} (a : A) : keeps P (ret a).
Proof. intros d. by exists a, d. Qed.
Lemma dev_keeps_gets P {A} (f : dev -> A) : keeps P (gets f).
Proof. intros d. by exists (f d), d. Qed.
Lemma dev_keeps_bind P {A B} (c : M dev A) (k : A -> M dev B) : keeps P c -> (forall a, keeps P (k a)) -> keeps P (bind c k).
Proof.
  intros Hc Hk d. destruct (Hc d) as (a & d1 & E1 & L1 & H1). destruct (Hk a d1) as (b & d2 & E2 & L2 & H2).
  exists b, d2. split; [by rewrite (bind_run _ _ _ _ _ E1)|]. split; [congruence|]. intros f i Hi. by rewrite H2, H1.
Qed.

Definition ioapic_ev (e : io) : bool := match e with IoapicSel _ | IoapicW _ => true | _ => false end.
Lemma keeps_access P e : ioapic_ev e = false -> keeps P (access e).
Proof.
  intros He d. exists tt. eexists. split; [reflexivity|]. split; [done|]. intros f i _. unfold redir, ioapic_regs. cbn [hist].
  rewrite !foldl_app. cbn. by destruct e.
Qed.
Lemma keeps_ask P e : ioapic_ev e = false -> keeps P (ask answer e).
Proof. intros He. apply dev_keeps_bind; [apply dev_keeps_gets|]. intros v. apply dev_keeps_bind; [by apply keeps_access|]. intros _. apply dev_keeps_ret. Qed.
Lemma keeps_lapicw P reg v : keeps P (lapicw answer reg v).
Proof. apply dev_keeps_bind; [by apply keeps_access|]. intros _. apply dev_keeps_bind; [by apply keeps_ask|]. intros _. apply dev_keeps_ret. Qed.

Create HintDb keepsdb.
Lemma keeps_if P {A} (b : bool) (c1 c2 : M dev A) : keeps P c1 -> keeps P c2 -> keeps P (if b then c1 else c2).
Proof. by destruct b. Qed.

Ltac keeps_tac := repeat first [solve [auto 1 with keepsdb nocore] | apply dev_keeps_bind; [|intros ?] | apply keeps_if | apply dev_keeps_ret | apply dev_keeps_gets
  | apply keeps_lapicw | apply keeps_ask; reflexivity | apply keeps_access; reflexivity].

Lemma keeps_enable irq cpu : keeps (fun i => i <> irq) (ioapicenable irq cpu).
Proof.
  intros d. destruct (entry_routes irq (T_IRQ0 + irq) (u32 (Z.shiftl cpu 24)) d) as (a & d' & E & _ & Hr).
  exists a, d'. split; [exact E|]. split; [|intros f i Hi; rewrite Hr; by rewrite (proj2 (Z.eqb_neq i irq))].
  unfold ioapicwrite, bind, access, modify in E. by injection E as _ <-.
Qed.

Lemma enable_sets irq cpu d : exists d', ioapicenable irq cpu d = Ret tt d' /\ lapic_on d' = lapic_on d /\
  (forall f, redir f (hist d') irq = enabled irq cpu) /\ forall f i, i <> irq -> redir f (hist d') i = redir f (hist d) i.
Proof.
  destruct (entry_routes irq (T_IRQ0 + irq) (u32 (Z.shiftl cpu 24)) d) as ([] & d' & E & _ & Hr).
  destruct (keeps_enable irq cpu d) as ([] & d1 & E1 & L1 & H1). unfold ioapicenable in E1. rewrite E in E1. injection E1 as <-.
  exists d'. split; [exact E|]. split; [done|]. split; [|done]. intros f. by rewrite Hr, Z.eqb_refl.
Qed.

(** The delivery status of an interrupt command clears before it has been read
    [patience] times. *)
Definition delivers : Prop := forall h, exists k, (k < patience)%nat /\
  Z.land (answer (h ++ replicate k (LapicR ICRLO)) (LapicR ICRLO)) DELIVS = 0.

Lemma wait_delivered_keeps (P : Z -> Prop) n : forall k d, (k < n)%nat ->
  Z.land (answer (hist d ++ replicate k (LapicR ICRLO)) (LapicR ICRLO)) DELIVS = 0 ->
  exists a d', wait_delivered answer n d = Ret a d' /\ lapic_on d' = lapic_on d /\
    forall f i, P i -> redir f (hist d') i = redir f (hist d) i.
Proof.
  induction n as [|n IH]; intros k d Hk Hd; [lia|]. cbn [wait_delivered].
  destruct (keeps_ask P (LapicR ICRLO) eq_refl d) as (a & d1 & E1 & L1 & H1). rewrite (bind_run _ _ _ _ _ E1).
  assert (Ea : a = answer (hist d) (LapicR ICRLO) /\ hist d1 = hist d ++ [LapicR ICRLO]).
  { unfold ask, bind, gets, access, modify, ret in E1. by injection E1 as <- <-. }
  destruct Ea as [-> Eh]. destruct (Z.eqb_spec (Z.land (answer (hist d) (LapicR ICRLO)) DELIVS) 0) as [E|E]; cbn [negb].
  - by exists tt, d1.
  - destruct k as [|k]; [cbn in Hd; by rewrite app_nil_r in Hd|].
    destruct (IH k d1) as (b & d2 & E2 & L2 & H2); [lia|by rewrite Eh, <- app_assoc|].
    exists b, d2. split; [done|]. split; [congruence|]. intros f i Hi. by rewrite H2, H1.
Qed.

Lemma keeps_lapicinit P : delivers -> keeps P (lapicinit answer patience).
Proof.
  intros Hd. unfold lapicinit. apply dev_keeps_bind; [apply dev_keeps_gets|]. intros on. destruct on; cbn [negb]; [|apply dev_keeps_ret].
  assert (Hw : keeps P (wait_delivered answer patience)) by (intros d; destruct (Hd (hist d)) as (k & Hk & E); by apply (wait_delivered_keeps P _ k)).
  repeat first [exact Hw|apply dev_keeps_bind; [|intros ?]|keeps_tac].
Qed.
#[local] Hint Resolve keeps_lapicinit : keepsdb.
Lemma keeps_picinit P : keeps P picinit.
Proof. unfold picinit, outb. keeps_tac. Qed.
Lemma keeps_send_startup P k id addr : keeps P (send_startup answer k id addr).
Proof. induction k as [|k IH]; cbn [send_startup]; [apply dev_keeps_ret|]. keeps_tac. all: exact IH. Qed.
#[local] Hint Resolve keeps_send_startup : keepsdb.
Lemma keeps_lapicstartap P id addr : keeps P (lapicstartap answer id addr).
Proof. unfold lapicstartap, outb. keeps_tac. Qed.
Lemma keeps_uart_wait P k : keeps P (uart_wait answer k).
Proof. induction k as [|k IH]; cbn [uart_wait]; [apply dev_keeps_ret|]. unfold inb. keeps_tac. all: exact IH. Qed.
#[local] Hint Resolve keeps_uart_wait keeps_enable : keepsdb.
Lemma keeps_uartputs P l : keeps P (uartputs answer l).
Proof.
  induction l as [|c l IH]; cbn [uartputs]; [apply dev_keeps_ret|]. apply dev_keeps_bind; [|by intros _].
  unfold uartputc, outb. keeps_tac.
Qed.
#[local] Hint Resolve keeps_uartputs : keepsdb.
Lemma keeps_uartinit : keeps (fun i => i <> IRQ_COM1) (uartinit answer).
Proof.
  unfold uartinit, outb, inb. keeps_tac. intros d. exists tt. by eexists.
Qed.

Lemma returns_access e : keeps (fun _ => False) (access e).
Proof. intros d. exists tt. by eexists. Qed.
Lemma returns_disable k : forall i, keeps (fun _ => False) (disable_from k i).
Proof.
  induction k as [|k IH]; intros i; cbn [disable_from]; [apply dev_keeps_ret|]. unfold ioapicwrite.
  repeat (apply dev_keeps_bind; [|intros _]); try apply returns_access. apply IH.
Qed.
#[local] Hint Resolve returns_access returns_disable : keepsdb.
Lemma returns_ioapicinit : keeps (fun _ => False) (ioapicinit answer).
Proof.
  unfold ioapicinit, ioapicread, ask. keeps_tac.
Qed.
End Devices.

(** ** The console *)
Definition prints {A} (c : M console A) : Prop :=
  forall s, screen_ok s -> wp c (fun _ s' => same_input s s' /\ screen_ok s') s.

Lemma prints_bind {A B} (c : M console A) (k : A -> M console B) : prints c -> (forall a, prints (k a)) -> prints (bind c k).
Proof.
  intros Hc Hk s Hs. apply wp_bind. eapply wp_mono; [by apply Hc|]. intros a s1 [[I1 I2 I3 I4] S1].
  eapply wp_mono; [by apply Hk|]. intros b s2 [[J1 J2 J3 J4] S2]. split; [split; congruence|done].
Qed.
Lemma prints_ret {A} (a : A) : prints (ret a).
Proof. intros s Hs. apply wp_ret. by split. Qed.
Lemma prints_consputc c : prints (consputc c).
Proof. intros s Hs. by apply consputc_wp. Qed.
Lemma prints_consputs l : prints (consputs l).
Proof. induction l as [|c l IH]; cbn [consputs]; [apply prints_ret|]. apply prints_bind; [apply prints_consputc|by intros _]. Qed.
Lemma prints_number i : (i < NCPU)%nat -> prints (printint (s32 (Z.of_nat i)) 10 true).
Proof. intros Hi. unfold NCPU in Hi. do 8 (destruct i as [|i]; [exact (prints_consputs _)|]). lia. Qed.

Lemma prints_starting i : (i < NCPU)%nat -> prints (cprintf_loop (fun _ => []) starting [Z.of_nat i; Z.of_nat i]).
Proof.
  intros Hi. unfold starting. cbn [cprintf_loop Z.eqb Pos.eqb negb orb].
  repeat first [apply prints_bind; [|intros _] | apply prints_consputc | apply prints_ret | by apply prints_number].
Qed.

(** ** Segments *)
Definition kernel_segs (g : list segdesc) : Prop :=
  g !! Z.to_nat SEG_KCODE = Some (SEG (Z.lor STA_X STA_R) 0 4294967295 0) /\
  g !! Z.to_nat SEG_KDATA = Some (SEG STA_W 0 4294967295 0) /\
  g !! Z.to_nat SEG_UCODE = Some (SEG (Z.lor STA_X STA_R) 0 4294967295 DPL_USER) /\
  g !! Z.to_nat SEG_UDATA = Some (SEG STA_W 0 4294967295 DPL_USER).

(** A processor with the kernel's page table and its tables loaded. *)
Definition seg_up (s : segst) : Prop :=
  kernel_segs (c_gdt (s_cpu s)) /\ cr3 s = V2P (s_kpgdir s) /\
  gdtr s = (47, c_gdt_addr (s_cpu s)) /\ idtr s = (2047, s_idt_addr s).

(** Its tables are where they can be. *)
Definition tables_at (s : segst) : Prop :=
  length (c_gdt (s_cpu s)) = 6%nat /\ 0 <= c_gdt_addr (s_cpu s) < 4294967296 /\ 0 <= s_idt_addr s < 4294967296 /\ length (s_idt s) = 256%nat.

(** What seginit and the other loads keep. *)
Definition same_tables (s s' : segst) : Prop :=
  s_idt s' = s_idt s /\ s_idt_addr s' = s_idt_addr s /\ s_kpgdir s' = s_kpgdir s /\ c_gdt_addr (s_cpu s') = c_gdt_addr (s_cpu s) /\
  length (c_gdt (s_cpu s')) = length (c_gdt (s_cpu s)).

Lemma seginit_wp s : tables_at s -> wp seginit (fun _ s' => same_tables s s' /\ kernel_segs (c_gdt (s_cpu s')) /\
  gdtr s' = (47, c_gdt_addr (s_cpu s)) /\ cr3 s' = cr3 s /\ idtr s' = idtr s) s.
Proof.
  intros (Hg & Ha & _). unfold wp, seginit. destruct (s_cpu s) as [ts g ta ga] eqn:Ec. cbn [c_gdt c_gdt_addr] in *.
  do 7 (destruct g as [|? g]; [try done|]); [|done]. unfold set_gdt, lgdt, bind, modify, gets. rewrite Ec. cbn -[pseudo_desc].
  split; [split_and!; try done; by rewrite Ec|]. split; [split_and!; done|]. split; [|done]. by apply pseudo_desc_addr.
Qed.

Lemma wp_switchkvm (Q : unit -> segst -> Prop) s :
  Q tt (mkSegst (s_cpu s) (s_idt s) (s_idt_addr s) (s_kpgdir s) (gdtr s) (idtr s) (tr s) (V2P (s_kpgdir s))) -> wp switchkvm Q s.
Proof. done. Qed.

Lemma wp_idtinit (Q : unit -> segst -> Prop) s : 0 <= s_idt_addr s < 4294967296 ->
  Q tt (mkSegst (s_cpu s) (s_idt s) (s_idt_addr s) (s_kpgdir s) (gdtr s) (2047, s_idt_addr s) (tr s) (cr3 s)) -> wp idtinit Q s.
Proof. intros Ha. rewrite <- (pseudo_desc_addr _ 2048) by (done || lia). done. Qed.

(** ** Who owns which page *)
Definition disjoint_pages (P Q : Z -> Prop) : Prop := forall p, P p -> ~ Q p.

(** The pages split up: those below some limit are given to [fl1] and [K], [fl1] to
    [st] and [fl2], those of [fl2] and above the limit to [kst], [fl4] and [D1], and
    the last two to [pg], [fl5] and [D2]. *)
Lemma pages_partition (all low K D1 D2 : Z -> Prop) (fl0 fl1 fl2 fl3 fl4 fl5 st : list Z) (kst pg : Z) :
  (forall p, low p \/ ~ low p) -> (forall p, p ∈ fl0 <-> all p /\ low p) -> (forall p, p ∈ fl0 <-> p ∈ fl1 \/ K p) ->
  (forall p, K p -> p ∉ fl1) -> fl1 = st ++ fl2 -> NoDup fl1 -> (forall p, p ∈ fl3 <-> p ∈ fl2 \/ all p /\ ~ low p) ->
  (forall p, p ∈ fl3 <-> p = kst \/ p ∈ fl4 \/ D1 p) -> (kst ∉ fl4) -> ~ D1 kst ->
  (forall p, p ∈ fl4 \/ D1 p <-> p = pg \/ p ∈ fl5 \/ D2 p) -> (pg ∉ fl5) -> ~ D2 pg -> (forall p, D2 p -> p ∉ fl5) ->
  (forall p, all p <-> p ∈ fl5 \/ p ∈ st \/ p = kst \/ p = pg \/ K p \/ D2 p) /\
  ForallOrdPairs disjoint_pages [(.∈ fl5); (.∈ st); (.= kst); (.= pg); K; D2].
Proof.
  intros Hlow H0 H1 HK -> Hnd H3 H4 Hk1 Hk2 H5 Hp1 Hp2 HD. apply NoDup_app in Hnd as (_ & Hst & _).
  assert (Hin : forall p, p ∈ st ++ fl2 <-> p ∈ st \/ p ∈ fl2) by (intros p; apply elem_of_app).
  assert (A : forall p, p = kst \/ p = pg \/ p ∈ fl5 \/ D2 p <-> p ∈ fl3) by (intros p; rewrite H4, H5; tauto).
  assert (B : forall p, p ∈ st \/ K p -> p ∉ fl3).
  { intros p. specialize (H0 p). specialize (H1 p). specialize (HK p). specialize (H3 p). specialize (Hst p). specialize (Hin p). tauto. }
  split.
  - intros p. transitivity (p ∈ st \/ K p \/ p ∈ fl3); [|rewrite <- A; tauto].
    rewrite H3. transitivity (p ∈ fl0 \/ all p /\ ~ low p); [|rewrite H1, Hin; tauto].
    rewrite H0. destruct (Hlow p); tauto.
  - assert (A1 : forall p, p ∈ fl5 -> p ∈ fl3) by (intros p Hp; apply A; auto). assert (A2 : kst ∈ fl3) by (apply A; auto).
    assert (A3 : pg ∈ fl3) by (apply A; auto). assert (A4 : forall p, D2 p -> p ∈ fl3) by (intros p Hp; apply A; auto).
    assert (B1 : forall p, p ∈ st -> p ∉ fl3) by auto. assert (B2 : forall p, K p -> p ∉ fl3) by auto.
    assert (C : ~ (kst = pg \/ kst ∈ fl5 \/ D2 kst)) by (rewrite <- H5; by intros [|]).
    assert (S1 : forall p, p ∈ st -> ~ K p) by (intros p Hp Hk; apply (HK p Hk), Hin; by left).
    clear A B H0 H1 H3 H4 H5 Hin Hlow. repeat constructor; intros p; try (intros ->); naive_solver.
Qed.

Section Boot.
Context {H : Type} {HW : IdeHw H} {HL : IdeLaws H} {LS : LinkSyms} {LSOk : LinkSymsOk}.
Context (answer : Z -> list io -> io -> Z) (patience : nat) (in23 : Z) (vectors : nat -> Z).
Context (entryother initcode : list Z) (mpenter_addr entrypgdir_addr forkret : Z) (cpu_at : nat -> cpu).

(** The local APICs know their ids and deliver; the processors' tables are in memory. *)
Context (Hid : forall id h, 0 <= id < 256 -> Z.shiftr (answer id h (LapicR ID)) 24 = id).
Context (Hdel : forall id, delivers (answer id) patience).
Context (Hcpu : forall i, length (c_gdt (cpu_at i)) = 6%nat /\ 0 <= c_gdt_addr (cpu_at i) < 4294967296).
Context (Henter : 0 <= mpenter_addr < 4294967296).

#[local] Abbreviation sys := (sys (H := H)).
Implicit Types y : sys.
#[local] Abbreviation mpmain := (mpmain (H := H) answer).
#[local] Abbreviation mpenter := (mpenter (H := H) answer patience).
#[local] Abbreviation startap := (startap (H := H) answer patience mpenter_addr cpu_at).
#[local] Abbreviation start_cpu := (start_cpu (H := H) answer patience mpenter_addr entrypgdir_addr cpu_at).
#[local] Abbreviation start_cpus := (start_cpus (H := H) answer patience mpenter_addr entrypgdir_addr cpu_at).
#[local] Abbreviation startothers := (startothers (H := H) answer patience entryother mpenter_addr entrypgdir_addr cpu_at).

Lemma wp_ondev (P : Z -> Prop) {A} (c : (list io -> io -> Z) -> M dev A) (Q : A -> sys -> Prop) y : keeps P (c (answer (y_apic y))) ->
  (forall a d, lapic_on d = lapic_on (y_dev y) -> (forall f i, P i -> redir f (hist d) i = redir f (hist (y_dev y)) i) -> Q a (set_dev d y)) ->
  wp (ondev answer c) Q y.
Proof.
  intros Hc HQ. unfold wp, ondev, zoom. destruct (Hc (y_dev y)) as (a & d & -> & L & R). by apply HQ.
Qed.

Lemma wp_cpuid i (Q : nat -> sys -> Prop) y : lapic_on (y_dev y) = true -> 0 <= y_apic y < 256 ->
  find_apic (cpus (y_mp y)) 0 (y_apic y) = Some i ->
  (forall d, lapic_on d = true -> (forall f j, redir f (hist d) j = redir f (hist (y_dev y)) j) -> Q i (set_dev d y)) ->
  wp (cpuid answer) Q y.
Proof.
  intros Hon Hr Hf HQ. set (d := mkDev (hist (y_dev y) ++ [LapicR ID]) (lapic_on (y_dev y)) (Apic.ioapicid (y_dev y)) (uart (y_dev y))).
  assert (E : lapicid (answer (y_apic y)) (y_dev y) = Ret (y_apic y) d).
  { unfold lapicid. rewrite bind_gets, Hon. cbn -[Z.shiftr]. by rewrite Hid. }
  unfold cpuid. apply wp_bind. unfold wp, ondev, zoom. rewrite E. unfold bind, get. cbn [y_mp set_dev]. rewrite Hf.
  apply HQ; [done|]. intros f j. unfold redir, ioapic_regs. cbn [hist d]. by rewrite !foldl_app.
Qed.

(** A processor that can run mpmain: number [i], with the tables loaded but for the
    interrupts. *)
Record ready (i : nat) (y : sys) : Prop := mkReady {
  rd_on : lapic_on (y_dev y) = true;
  rd_id : 0 <= y_apic y < 256;
  rd_cpu : find_apic (cpus (y_mp y)) 0 (y_apic y) = Some i;
  rd_n : (i < NCPU)%nat;
  rd_screen : screen_ok (y_cons y);
  rd_tables : tables_at (y_seg y)
}.

(** What else may have changed. *)
Record same_kernel (y y' : sys) : Prop := mkSameKernel {
  sk_tab : tab (y_kern y') = tab (y_kern y);
  sk_env : exists c, env (y_kern y') = set_fsys (set_devst c (fsys (env (y_kern y)))) (env (y_kern y)) /\ screen_ok c;
  sk_bc : y_bc y' = y_bc y;
  sk_ide : y_ide y' = y_ide y;
  sk_mp : y_mp y' = y_mp y;
  sk_apic : y_apic y' = y_apic y
}.

Lemma mpmain_wp i y : ready i y -> wp mpmain (fun _ y' => same_kernel y y' /\ same_tables (y_seg y) (y_seg y') /\
  kernel_segs (c_gdt (s_cpu (y_seg y'))) = kernel_segs (c_gdt (s_cpu (y_seg y))) /\
  gdtr (y_seg y') = gdtr (y_seg y) /\ cr3 (y_seg y') = cr3 (y_seg y) /\ idtr (y_seg y') = (2047, s_idt_addr (y_seg y)) /\
  y_started y' = y_started y ++ [i] /\ y_starts y' = y_starts y /\ y_aps y' = y_aps y /\ lapic_on (y_dev y') = true /\
  forall f j, redir f (hist (y_dev y')) j = redir f (hist (y_dev y)) j) y.
Proof.
  intros [Hon Hr Hf Hn Hs (T1 & T2 & T3 & T4)]. unfold Startup.mpmain. apply wp_bind. apply (wp_cpuid i); [done..|]. intros d Hd Hred.
  apply wp_bind. apply (wp_cpuid i); [done..|]. intros d' Hd' Hred'.
  apply wp_bind, wp_zoom. eapply wp_mono; [apply (prints_starting i Hn); exact Hs|]. intros [] c [_ Hc].
  apply wp_bind, wp_zoom, wp_idtinit; [done|]. cbn [y_dev set_dev] in Hd', Hred'.
  apply wp_bind. apply (wp_cpuid i); [done..|]. intros d3 Hd3 Hred3. apply wp_modify. cbn in Hd3, Hred3.
  split; [split; try done; by exists c|]. do 9 (split; [done|]). intros f j. cbn. by rewrite Hred3, Hred', Hred.
Qed.

Lemma mpenter_wp i y : ready i y -> wp mpenter (fun _ y' => same_kernel y y' /\ same_tables (y_seg y) (y_seg y') /\ seg_up (y_seg y') /\
  y_started y' = y_started y ++ [i] /\ y_starts y' = y_starts y /\ y_aps y' = y_aps y) y.
Proof.
  intros [Hon Hr Hf Hn Hs HT]. unfold Startup.mpenter. apply wp_bind, wp_zoom, wp_switchkvm.
  set (s1 := mkSegst _ _ _ _ _ _ _ _). assert (HT1 : tables_at s1) by exact HT.
  apply wp_bind, wp_zoom. eapply wp_mono; [apply (seginit_wp s1 HT1)|]. intros [] s2 ((S1 & S2 & S3 & S4 & S5) & K2 & G2 & C2 & _).
  apply wp_bind. apply (wp_ondev (fun _ => False)); [by apply keeps_lapicinit|]. intros [] d Hd _.
  eapply wp_mono; [apply (mpmain_wp i)|].
  - split; try done; [cbn [y_dev set_dev]; by rewrite Hd|]. destruct HT as (T1 & T2 & T3 & T4). cbn [y_seg set_dev set_seg].
    split; [by rewrite S5|]. split; [by rewrite S4|]. split; [by rewrite S2|by rewrite S1].
  - intros [] y' (SK & (Q1 & Q2 & Q3 & Q4 & Q5) & EK & EG & EC & EI & E1 & E2 & E3 & _). cbn in *. split; [destruct SK; by split|].
    split; [split_and!; congruence|]. split; [|done]. split; [by rewrite EK|]. split; [rewrite EC, C2, Q3, S3; done|].
    split; [by rewrite EG, G2, Q4, S4|]. by rewrite EI, Q2.
Qed.

(** ** Starting a processor *)
Definition env_with (k : kstate) (c : console) (e : kern console) : kern console := set_kmem k (set_fsys (set_devst c (fsys e)) e).

(** From [y] to [y'] the memory has become [k] and the console has been written to. *)
Record moved (y y' : sys) (k : kstate) : Prop := mkMoved {
  mv_tab : tab (y_kern y') = tab (y_kern y);
  mv_env : exists c, screen_ok c /\ env (y_kern y') = env_with k c (env (y_kern y));
  mv_bc : y_bc y' = y_bc y;
  mv_ide : y_ide y' = y_ide y;
  mv_mp : y_mp y' = y_mp y;
  mv_apic : y_apic y' = y_apic y;
  mv_seg : y_seg y' = y_seg y;
  mv_on : lapic_on (y_dev y') = true;
  mv_redir : forall f j, redir f (hist (y_dev y')) j = redir f (hist (y_dev y)) j
}.

Lemma moved_mem y y' k : moved y y' k -> y_mem y' = k.
Proof. intros [_ (c & _ & E) _ _ _ _ _ _ _]. unfold y_mem. by rewrite E. Qed.
Lemma moved_screen y y' k : moved y y' k -> screen_ok (y_cons y').
Proof. intros [_ (c & Hc & E) _ _ _ _ _ _ _]. unfold y_cons. by rewrite E. Qed.

Lemma moved_trans y1 y2 y3 k2 k3 : moved y1 y2 k2 -> moved y2 y3 k3 -> moved y1 y3 k3.
Proof.
  intros [A1 (c & A2 & A2') A3 A4 A5 A6 A7 A8 A9] [B1 (c' & B2 & B2') B3 B4 B5 B6 B7 B8 B9]. split; try congruence.
  exists c'. split; [done|]. by rewrite B2', A2'.
Qed.

(** The page below the entry code; no free page. *)
Definition low_page : Z := KERNBASE + 24576.
(** With the page of the entry code. *)
Definition low_pages (p : Z) : Prop := p = low_page \/ p = low_page + 4096.

Lemma low_pages_used p : page_ok p -> ~ low_pages p.
Proof.
  intros (_ & He & _) Hl. unfold low_pages in Hl. pose proof sym_end_after_data. pose proof sym_data_after_text. unfold low_page, KERNLINK, KERNBASE, EXTMEM in *. lia.
Qed.
Lemma low_page_used p : page_ok p -> low_page <> p.
Proof. intros Hp <-. apply (low_pages_used _ Hp). by left. Qed.

Lemma store_wp a v (Q : unit -> sys -> Prop) y : Q tt (set_mem_of (set_mem (fun m => store32 m a v) (y_mem y)) y) -> wp (store a v) Q y.
Proof. done. Qed.

Lemma started_words id y m stack enter pgdir :
  mem (y_mem y) = store32 (store32 (store32 m (code - 4) stack) (code - 8) enter) (code - 12) pgdir ->
  started_with id y = mkStart id 28672 (stack mod 4294967296) (enter mod 4294967296) (pgdir mod 4294967296).
Proof.
  intros E. unfold started_with. rewrite E. cbv zeta. f_equal.
  - rewrite 2 load32_store32_ne by lia. apply load32_store32_eq.
  - rewrite load32_store32_ne by lia. apply load32_store32_eq.
  - apply load32_store32_eq.
Qed.

Lemma wp_on_ap i st (c : M sys unit) (Q : unit -> sys -> Prop) y :
  wp c (fun _ y' => Q tt (ap_back y y')) (ap_of cpu_at i st y) -> wp (on_ap cpu_at i st c) Q y.
Proof. unfold wp, on_ap. by destruct (c (ap_of cpu_at i st y)). Qed.

(** The startup interrupt of a processor with the right words before it. *)
Lemma startap_wp i apicid y st : started_with apicid y = st -> st_enter st = mpenter_addr -> st_apicid st = apicid ->
  lapic_on (y_dev y) = true -> screen_ok (y_cons y) -> tables_at (y_seg y) -> 0 <= apicid < 256 ->
  find_apic (cpus (y_mp y)) 0 apicid = Some i -> (i < NCPU)%nat ->
  wp (startap i apicid) (fun _ y' => moved y y' (y_mem y) /\ y_started y' = y_started y ++ [i] /\ y_starts y' = y_starts y ++ [st] /\
    exists g, y_aps y' = y_aps y ++ [g] /\ seg_up g /\ s_kpgdir g = s_kpgdir (y_seg y) /\ s_idt g = s_idt (y_seg y)) y.
Proof.
  intros Hst He Hsa Hon Hs HT Ha Hfi Hi. unfold Startup.startap.
  apply wp_bind, (wp_ondev (fun _ => True)); [apply keeps_lapicstartap|]. intros [] d Hd Hred.
  apply wp_bind, wp_get. cbv zeta. apply wp_bind, wp_modify.
  replace (started_with apicid (set_dev d y)) with st by (rewrite <- Hst; reflexivity). rewrite (proj2 (Z.eqb_eq _ _) He). apply wp_on_ap.
  set (y1 := add_start st (set_dev d y)).
  assert (Hrd : ready i (ap_of cpu_at i st y1)).
  { destruct (Hcpu i) as [C1 C2]. destruct HT as (T1 & T2 & T3 & T4).
    split; [cbn; by rewrite Hd|cbn; by rewrite Hsa|cbn; by rewrite Hsa|done|exact Hs|done]. }
  eapply wp_mono; [exact (mpenter_wp i _ Hrd)|].
  intros [] y' ([K1 (c & K2 & Kc) K3 K4 K5 K6] & (T1 & T2 & T3 & T4 & T5) & Hup & E1 & E2 & E3).
  split; [|split; [exact E1|split; [exact E2|]]].
  - split; try done; [|cbn; by rewrite Hd|intros f j; by apply Hred]. exists c. split; [done|]. cbn. rewrite K2. cbn.
    unfold env_with, set_kmem, set_fsys, y_mem. done.
  - exists (y_seg y'). split; [cbn; by rewrite E3|]. split; [done|]. done.
Qed.

Lemma start_cpu_wp i apicid me page rest y : kinv (y_mem y) (page :: rest) -> ready me y -> 0 <= apicid < 256 ->
  find_apic (cpus (y_mp y)) 0 apicid = Some i -> (i < NCPU)%nat ->
  wp (start_cpu i apicid) (fun _ y' => exists k, moved y y' k /\ kinv k rest /\ use_lock k = use_lock (y_mem y) /\
    same_except (eq low_page) (mem (y_mem y)) (mem k) /\ y_started y' = y_started y ++ [i] /\
    y_starts y' = y_starts y ++ [mkStart apicid 28672 (page + KSTACKSIZE) mpenter_addr (V2P entrypgdir_addr)] /\
    exists g, y_aps y' = y_aps y ++ [g] /\ seg_up g /\ s_kpgdir g = s_kpgdir (y_seg y) /\ s_idt g = s_idt (y_seg y)) y.
Proof.
  intros Hk [Hon Hr Hf Hn Hs HT] Ha Hfi Hi. pose proof (kinv_ok _ _ Hk) as [Hok Hrest]%Forall_cons.
  unfold Startup.start_cpu. apply wp_bind, wp_zoom. eapply wp_mono; [by apply kalloc_wp|]. intros pg k1 (-> & Hk1 & Hm1 & Hu1).
  do 3 (apply wp_bind, store_wp). set (y1 := set_mem_of _ _). set (k2 := y_mem y1).
  assert (Hst : started_with apicid y1 = mkStart apicid 28672 (page + KSTACKSIZE) mpenter_addr (V2P entrypgdir_addr)).
  { rewrite (started_words apicid y1 (mem k1) (u32 (page + KSTACKSIZE)) mpenter_addr (V2P entrypgdir_addr)) by done.
    pose proof (page_ok_range _ Hok). unfold KSTACKSIZE, KERNBASE, PHYSTOP in *. rewrite (u32_small (page + 4096)) by lia.
    rewrite !Z.mod_small; [done|unfold V2P; apply u32_range|done|lia]. }
  assert (Hse : same_except (eq low_page) (mem k1) (mem k2)).
  { assert (Hsw : forall m o x, 0 <= o -> o + 4 <= 4096 -> same_except (eq low_page) m (store32 m (low_page + o) x))
      by (intros m o x H1 H2; by apply same_except_store32).
    eapply same_except_trans; [|eapply same_except_trans]; [apply (Hsw _ 4092)|apply (Hsw _ 4088)|apply (Hsw _ 4084)]; lia. }
  assert (Hk2 : kinv k2 rest).
  { apply (kinv_same k1 k2 rest (eq low_page)); try done. intros q Hq. rewrite Forall_forall in Hrest. by apply low_page_used, Hrest. }
  assert (Em : moved y y1 k2).
  { split; try done. exists (y_cons y). split; [done|]. unfold k2, y1, env_with, y_cons. cbn -[set_mem]. unfold set_kmem, set_fsys. cbn -[set_mem]. f_equal. by destruct (fsys (env (y_kern y))). }
  apply wp_bind. eapply wp_mono; [apply (startap_wp i apicid y1 _ Hst); try done; exact HT|].
  intros [] y2 (M2 & S1 & S2 & g & S3 & S4). unfold wait_started. apply wp_bind, wp_get. rewrite S1.
  rewrite bool_decide_eq_true_2 by (apply elem_of_app; right; by left). apply wp_ret. exists k2.
  split; [eapply moved_trans; [exact Em|]; destruct M2; by split|]. split; [done|]. split; [exact Hu1|].
  split; [by rewrite <- Hm1|]. split; [done|]. split; [done|]. exists g. done.
Qed.

(** ** All the other processors *)

(** The processors but number [me]. *)
Fixpoint others (ids : list Z) (i me : nat) : list Z :=
  match ids with
  | [] => []
  | id :: ids' => if (i =? me)%nat then others ids' (S i) me else id :: others ids' (S i) me
  end.

(** Their starts, each with a page for a stack. *)
Definition expected (ids pages : list Z) : list start :=
  zip_with (fun id page => mkStart id 28672 (page + KSTACKSIZE) mpenter_addr (V2P entrypgdir_addr)) ids pages.

Lemma others_length ids me : (length ids <= NCPU)%nat -> (length (others ids 0 me) <= NCPU)%nat.
Proof.
  enough (H' : forall i, (length (others ids i me) <= length ids)%nat) by (specialize (H' 0%nat); lia).
  induction ids as [|id ids IH]; intros i; cbn [others]; [done|]. specialize (IH (S i)). destruct (i =? me)%nat; cbn [length]; lia.
Qed.

Lemma find_apic_at l i id : forall j, NoDup l -> l !! i = Some id -> find_apic l j id = Some (j + i)%nat.
Proof.
  revert i. induction l as [|x l IH]; intros i j Hnd Hi; [done|]. apply NoDup_cons in Hnd as [Hn Hnd]. cbn [find_apic].
  destruct i as [|i]; cbn in Hi.
  - injection Hi as ->. rewrite Z.eqb_refl. f_equal. lia.
  - rewrite (proj2 (Z.eqb_neq x id)).
    + rewrite (IH i (S j)) by done. f_equal. lia.
    + intros ->. apply Hn. by apply list_elem_of_lookup_2 in Hi.
Qed.

(** A table of processors that mycpu finds its way in. *)
Record cpus_ok (ids : list Z) : Prop := mkCpusOk {
  co_nodup : NoDup ids;
  co_bytes : Forall (fun id => 0 <= id < 256) ids;
  co_len : (length ids <= NCPU)%nat
}.

Lemma cpus_ok_at ids i id : cpus_ok ids -> ids !! i = Some id -> find_apic ids 0 id = Some i /\ 0 <= id < 256 /\ (i < NCPU)%nat.
Proof.
  intros [H1 H2 H3] Hi. split; [by rewrite (find_apic_at _ i)|]. rewrite Forall_forall in H2.
  split; [by apply H2, (list_elem_of_lookup_2 _ i)|]. apply lookup_lt_Some in Hi. lia.
Qed.

(** The processors of [ids] are up, but for number [me]. *)
Definition all_up (ids : list Z) (i me : nat) (fl : list Z) (y y' : sys) : Prop := exists k taken fl' gs,
  moved y y' k /\ fl = taken ++ fl' /\ length taken = length (others ids i me) /\ kinv k fl' /\ use_lock k = use_lock (y_mem y) /\
  same_except low_pages (mem (y_mem y)) (mem k) /\
  y_starts y' = y_starts y ++ expected (others ids i me) taken /\ y_aps y' = y_aps y ++ gs /\
  length gs = length (others ids i me) /\
  Forall (fun g => seg_up g /\ s_kpgdir g = s_kpgdir (y_seg y) /\ s_idt g = s_idt (y_seg y)) gs.

Lemma moved_ready me y y' k : moved y y' k -> ready me y -> ready me y'.
Proof.
  intros Hm [R1 R2 R3 R4 R5 R6]. pose proof (moved_screen _ _ _ Hm). destruct Hm as [M1 M2 M3 M4 M5 M6 M7 M8 M9].
  split; try done; [by rewrite M6|by rewrite M5, M6|by rewrite M7].
Qed.

Lemma start_cpus_wp me ids : forall i y fl, kinv (y_mem y) fl -> ready me y -> cpus_ok (cpus (y_mp y)) ->
  (forall j id, ids !! j = Some id -> cpus (y_mp y) !! (i + j)%nat = Some id) -> (length (others ids i me) <= length fl)%nat ->
  wp (start_cpus ids i) (fun _ y' => all_up ids i me fl y y') y.
Proof.
  induction ids as [|id ids IH]; intros i y fl Hk Hrd Hok Hids Hlen; cbn [Startup.start_cpus others] in *.
  - apply wp_ret. exists (y_mem y), [], fl, []. split_and!; try (by rewrite ?app_nil_r).
    destruct Hrd as [R1 R2 R3 R4 R5 R6]. split; try done. exists (y_cons y). split; [done|]. unfold env_with, y_mem, y_cons, set_kmem, set_fsys.
    destruct (env (y_kern y)) as [km fs ft pp ou ti]. cbn. f_equal. by destruct fs.
  - apply wp_bind. destruct Hrd as [R1 R2 R3 R4 R5 R6]. apply (wp_cpuid me); [done..|]. intros d Hd Hred.
    assert (Hrd : ready me (set_dev d y)) by done. assert (Hids' : forall j id, ids !! j = Some id -> cpus (y_mp y) !! (S i + j)%nat = Some id).
    { intros j id' Hj. rewrite <- (Hids (S j) id' Hj). f_equal. lia. }
    destruct (Nat.eqb_spec i me) as [->|Hne]; apply wp_bind.
    + apply wp_ret. eapply wp_mono; [by apply (IH (S me) (set_dev d y) fl)|].
      intros [] y' (k & tk & fl' & gs & HM & H'). unfold all_up. cbn [others]. rewrite Nat.eqb_refl.
      exists k, tk, fl', gs. split; [|done].
      destruct HM as [M1 M2 M3 M4 M5 M6 M7 M8 M9]. split; try done. intros f j. rewrite M9. apply Hred.
    + destruct fl as [|page fl]; [cbn in Hlen; lia|].
      destruct (cpus_ok_at _ i id Hok) as (F1 & F2 & F3); [rewrite <- (Hids 0%nat id eq_refl); f_equal; lia|].
      eapply wp_mono; [by apply (start_cpu_wp i id me page fl)|].
      intros [] y1 (k1 & M1 & K1 & U1 & S1 & _ & E1 & g & G1 & G2). pose proof (moved_mem _ _ _ M1) as Em. subst k1.
      eapply wp_mono; [apply (IH (S i) y1 fl); [done|by apply (moved_ready me _ _ _ M1)|by rewrite (mv_mp _ _ _ M1)|
        rewrite (mv_mp _ _ _ M1); exact Hids'|cbn in Hlen; lia]|].
      intros [] y2 (k & tk & fl' & gs & M2 & -> & L2 & K2 & U2 & S2 & E2 & G3 & G4 & G5). unfold all_up. cbn [others].
      rewrite (proj2 (Nat.eqb_neq i me) Hne). exists k, (page :: tk), fl', (g :: gs).
      split; [eapply moved_trans; [|exact M2]|].
      { destruct M1 as [N1 N2 N3 N4 N5 N6 N7 N8 N9]. split; try done. intros f j. rewrite N9. apply Hred. }
      split_and!; try done; [cbn; by rewrite L2|by rewrite U2, U1|
        eapply same_except_trans; [eapply same_except_mono; [|exact S1]; intros p <-; by left|exact S2]|by rewrite E2, E1, <- app_assoc|
        by rewrite G3, G1, <- app_assoc|cbn; by rewrite G4|].
      constructor; [done|]. by rewrite (mv_seg _ _ _ M1) in G5.
Qed.

Context (Hentry : Z.of_nat (length entryother) <= 4096).

Lemma startothers_wp me y fl : kinv (y_mem y) fl -> ready me y -> cpus_ok (cpus (y_mp y)) ->
  (length (others (cpus (y_mp y)) 0 me) <= length fl)%nat ->
  wp startothers (fun _ y' => all_up (cpus (y_mp y)) 0 me fl y y') y.
Proof.
  intros Hk Hrd Hok Hlen. unfold Startup.startothers. apply wp_bind, wp_zoom, wp_set_mem. intros k1 Em Ef Eu El. apply wp_bind, wp_get.
  set (y1 := set_mem_of k1 y). change (cpus (y_mp y1)) with (cpus (y_mp y)).
  assert (Hse : same_except low_pages (mem (y_mem y)) (mem k1)).
  { intros a Ha. rewrite Em, load8_store_bytes. change code with (low_page + 4096).
    destruct (out_of_page (low_page + 4096) a eq_refl), (Z.leb_spec (low_page + 4096) a), (Z.ltb_spec a (low_page + 4096 + Z.of_nat (length entryother)));
      try done; try lia; try (intros E; apply Ha; rewrite E; by right). }
  assert (M1 : moved y y1 k1).
  { destruct Hrd as [R1 R2 R3 R4 R5 R6]. split; try done. exists (y_cons y). split; [done|]. unfold y1, env_with, y_cons. cbn.
    unfold set_kmem, set_fsys. cbn. f_equal. by destruct (fsys (env (y_kern y))). }
  assert (Hk1 : kinv k1 fl).
  { apply (kinv_same (y_mem y) k1 fl low_pages); try done. intros q Hq. apply low_pages_used. pose proof (kinv_ok _ _ Hk) as Hf.
    rewrite Forall_forall in Hf. by apply Hf. }
  eapply wp_mono; [apply (start_cpus_wp me _ 0 y1 fl); [done|by apply (moved_ready me y y1 k1)|done|done|done]|].
  intros [] y2 (k & tk & fl' & gs & M2 & H1 & H2 & H3 & H4 & H5 & H6). exists k, tk, fl', gs.
  split; [by eapply moved_trans|]. split_and!; try done; try apply H6; [by rewrite H4|by eapply same_except_trans].
Qed.

(** ** The first process *)
Lemma wp_call {E A} (c : M E A) (Q : A -> pst E -> Prop) s : wp c (fun a e => Q a (mkPst (tab s) e)) (env s) -> wp (call c) Q s.
Proof. unfold wp, call. by destruct (c (env s)). Qed.
Lemma wp_pmod {E} f (Q : unit -> pst E -> Prop) s : Q tt (mkPst (f (tab s)) (env s)) -> wp (pmod f) Q s.
Proof. done. Qed.

Definition first_proc (kstack pgdir : Z) : proc :=
  mkProc PGSIZE pgdir kstack RUNNABLE 1 None user_tf (mkContext 0 0 0 0 forkret) None false (replicate 16 None) (Some 0%nat) initcode_name.

(** The root directory, in the first entry of the inode cache. *)
Definition root_ref (ip : inode) : inode :=
  mkInode ROOTDEV ROOTINO 1 (i_locked ip) false (i_type ip) (i_major ip) (i_minor ip) (i_nlink ip) (i_size ip) (i_addrs ip).

Lemma iget_scan_none dev inum l : forall i e, Forall (fun ip => i_ref ip = 0) l -> iget_scan dev inum l i (Some e) = inr (Some e).
Proof.
  induction l as [|ip l IH]; intros i e Hl; [done|]. apply Forall_cons in Hl as [H1 H2]. cbn [iget_scan]. rewrite H1. by apply IH.
Qed.

Lemma iget_root_wp ip l (Q : nat -> fsst console -> Prop) f : icache f = ip :: l -> Forall (fun ip => i_ref ip = 0) (ip :: l) ->
  Q 0%nat (set_icache (root_ref ip :: l) f) -> wp (iget ROOTDEV ROOTINO) Q f.
Proof.
  intros E Hl HQ. apply Forall_cons in Hl as [H1 H2]. unfold iget. apply wp_bind, wp_get. rewrite E. cbn [iget_scan]. rewrite H1.
  cbn [Z.gtb Z.compare andb Z.eqb]. rewrite iget_scan_none by done. apply wp_bind. unfold wp, upd_inode, inode_at, bind, get. rewrite E. cbn. by rewrite E.
Qed.

Lemma e_root_wp ip l (Q : nat -> kern console -> Prop) f : icache (fsys f) = ip :: l -> Forall (fun ip => i_ref ip = 0) (ip :: l) ->
  Q 0%nat (set_fsys (set_icache (root_ref ip :: l) (fsys f)) f) ->
  wp (@e_root _ (kernel_env (DV := console_devsw false) initcode)) Q f.
Proof.
  intros E Hl HQ. cbn [e_root kernel_env]. apply wp_bind. unfold onfs. apply wp_zoom. unfold namei, namex. apply wp_bind, wp_bind.
  apply (iget_root_wp ip l); [done..|]. apply wp_ret. done.
Qed.

(** What userinit makes: the first process, and its memory. *)
Definition first_user (t : ptab) (n : nat) (fl : list Z) (e : kern console) (s' : pst (kern console)) : Prop :=
  exists kst d k1 fl1 k2 fl2 ip l, icache (fsys e) = ip :: l /\
    tab s' = mkPtab (first_proc kst d :: replicate n proc0) (running t) (Some 0%nat) 2 /\
    env s' = set_fsys (set_icache (root_ref ip :: l) (fsys e)) (set_kmem k2 e) /\
    kst ∈ fl /\ (kst ∉ fl1) /\ ~ pt_page (mem k1) d kst /\ d <> 0 /\ as_inv k1 fl1 d /\
    (forall p, p ∈ fl <-> p = kst \/ p ∈ fl1 \/ pt_page (mem k1) d p) /\
    (forall va, paligned va -> lookup_pte (mem k1) d va = default 0 (kmap_pte kmap va)) /\
    same_except (fun p => p ∈ fl) (mem (kmem e)) (mem k1) /\ inited k1 fl1 d initcode k2 fl2 /\ use_lock k2 = use_lock (kmem e).

Context (Hinit : Z.of_nat (length initcode) < PGSIZE).

(** The table and the kernel's state after a step of userinit. *)
Ltac tidy := cbn [tab env ptable running initproc nextpid upd_proc set_ptable alter list_alter
  kmem set_kmem fsys ftable pipes outstanding ticks].

Lemma userinit_wp n fl ip l s : ptable (tab s) = replicate (S n) proc0 -> nextpid (tab s) = 1 ->
  icache (fsys (env s)) = ip :: l -> Forall (fun ip => i_ref ip = 0) (ip :: l) ->
  kinv (kmem (env s)) fl -> (70 <= length fl)%nat ->
  wp (@Proc.userinit _ (kernel_env (DV := console_devsw false) initcode) forkret) (fun _ s' => first_user (tab s) n fl (env s) s') s.
Proof.
  intros Ht Hp Hic Hil Hk Hlen. destruct s as [[pt run ini np] e]. cbn [ptable nextpid tab env] in *. subst pt np.
  unfold Proc.userinit, allocproc. apply wp_bind, wp_bind, wp_gets. cbn [alloc_slot first_unused ptable replicate tab].
  destruct (decide (p_state proc0 = UNUSED)) as [_|Hx]; [|done]. apply wp_bind, wp_pmod. tidy. apply wp_bind, wp_call. cbn [e_kalloc kernel_env].
  apply wp_bind. unfold File.onmem at 1. apply wp_zoom. eapply wp_mono; [by apply kalloc_wp|]. intros kst k1.
  destruct fl as [|kst' fl]; [cbn in Hlen; lia|]. intros (-> & Hk1 & Hm1 & Hu1).
  change (mem k1 = mem (kmem e)) in Hm1. change (use_lock k1 = use_lock (kmem e)) in Hu1.
  pose proof (kinv_ok _ _ Hk) as [Hok _]%Forall_cons. pose proof (kinv_nodup _ _ Hk) as [Hnk _]%NoDup_cons.
  apply wp_ret. unfold opt_ptr. rewrite (proj2 (Z.eqb_neq kst' 0)) by (by apply page_ok_nonzero).
  apply wp_bind, wp_pmod, wp_ret. tidy. apply wp_bind, wp_pmod. tidy. apply wp_bind, wp_call. cbn [e_setupkvm kernel_env].
  apply wp_bind. unfold File.onmem at 1. apply wp_zoom.
  eapply wp_mono; [apply (setupkvm_correct k1 fl Hk1)|].
  intros d k2 [(fl2 & Hu2 & Hs2 & [(Hd & Has & (tk & Etk & Htk) & Hpp & Hl)|(-> & _ & _ & Hsm)]) Hnone]; [|cbn in Hlen; lia].
  apply wp_ret. unfold opt_ptr. rewrite (proj2 (Z.eqb_neq d 0)) by done. apply wp_bind, wp_pmod. tidy. apply wp_bind, wp_call. cbn [e_inituvm kernel_env].
  unfold File.onmem at 1. apply wp_zoom. eapply wp_mono; [apply (inituvm_wp k2 fl2 d initcode)|].
  { done. } { rewrite Etk, length_cons, length_app in Hlen. lia. } { done. } { rewrite Hnone; [done|done|split; [done|unfold KERNBASE; lia]]. }
  intros [] k3 (fl3 & Hin). apply wp_bind, wp_pmod. tidy. apply wp_bind, wp_call. apply (e_root_wp ip l); [done..|].
  apply wp_bind, wp_pmod, wp_pmod.
  exists kst', d, k2, fl2, k3, fl3, ip, l. split; [done|]. split; [done|]. split; [done|]. split; [left|].
  assert (Hsub : forall p, p ∈ fl2 \/ pt_page (mem k2) d p -> p ∈ fl) by (intros p; apply Hpp).
  split; [intros E; apply Hnk, Hsub; by left|]. split; [intros E; apply Hnk, Hsub; by right|]. split; [done|]. split; [done|].
  split; [intros p; rewrite elem_of_cons, Hpp; tauto|]. split; [done|].
  split; [rewrite <- Hm1; eapply same_except_mono; [|exact Hs2]; intros p Hp; by right|]. split; [done|].
  rewrite (in_lock _ _ _ _ _ _ Hin). congruence.
Qed.

(** ** The devices *)
#[local] Abbreviation init_devices := (init_devices (H := H) answer patience vectors).

(** All gates lead to the vectors. *)
Definition kernel_gates (idt : list gatedesc) : Prop := forall n, (n < 256)%nat -> idt !! n =
  Some (if (n =? 64)%nat then SETGATE true (Z.shiftl SEG_KCODE 3) (vectors n) DPL_USER else SETGATE false (Z.shiftl SEG_KCODE 3) (vectors n) 0).

Lemma tvinit_wp (Q : unit -> segst -> Prop) s : length (s_idt s) = 256%nat ->
  (forall idt, kernel_gates idt -> length idt = 256%nat ->
     Q tt (mkSegst (s_cpu s) idt (s_idt_addr s) (s_kpgdir s) (gdtr s) (idtr s) (tr s) (cr3 s))) -> wp (tvinit vectors) Q s.
Proof.
  intros Hl HQ. apply wp_modify, HQ; [|by rewrite length_insert, length_set_gates]. intros n Hn. change (Z.to_nat T_SYSCALL) with 64%nat.
  destruct (Nat.eqb_spec n 64) as [->|Hne].
  - by rewrite list_lookup_insert_eq by (rewrite length_set_gates; lia).
  - rewrite list_lookup_insert_ne by done. apply set_gates_lookup; lia.
Qed.

Lemma ideinit_wp (Q : unit -> idest H -> Prop) s :
  (forall h b, Q tt (mkIde (ibufs s) (idequeue s) b h (wakeups s) (imypid s))) -> wp Ide.ideinit Q s.
Proof.
  intros HQ. unfold Ide.ideinit. apply wp_bind, idewait_wp. intros h _. apply wp_bind, wp_modify.
  assert (Hp : forall k s, wp (probe_disk1 k) (fun _ s' => exists h, s' = set_hw h s) s).
  { induction k as [|k IH]; intros s0; cbn [probe_disk1]; [apply wp_ret; exists (hw s0); by destruct s0|].
    apply wp_bind. unfold wp at 1, Ide.inb. destruct (hw_inb 503 (hw s0)) as [v h']. destruct (negb (v =? 0)); [apply wp_ret; by exists h'|].
    eapply wp_mono; [apply IH|]. intros b s' (h2 & ->). by exists h2. }
  apply wp_bind. eapply wp_mono; [apply Hp|]. intros d s1 (h1 & ->). apply wp_bind, wp_modify, wp_modify. apply HQ.
Qed.

(** The devices are set up: [sg] the tables, [d] the interrupts. *)
Record devices_up (y : sys) (sg : segst) (d : dev) : Prop := mkDevicesUp {
  du_on : lapic_on d = true;
  du_kbd : forall f, redir f (hist d) IRQ_KBD = enabled IRQ_KBD 0;
  du_ide : forall f, redir f (hist d) IRQ_IDE = enabled IRQ_IDE (Z.of_nat (length (cpus (y_mp y))) - 1);
  du_tables : tables_at sg;
  du_segs : kernel_segs (c_gdt (s_cpu sg));
  du_gates : kernel_gates (s_idt sg);
  du_gdtr : gdtr sg = (47, c_gdt_addr (s_cpu sg));
  du_cr3 : cr3 sg = cr3 (y_seg y);
  du_kpgdir : s_kpgdir sg = s_kpgdir (y_seg y);
}.

Lemma wp_enable irq cpu (Q : unit -> sys -> Prop) y :
  (forall d, lapic_on d = lapic_on (y_dev y) -> (forall f, redir f (hist d) irq = enabled irq cpu) ->
     (forall f i, i <> irq -> redir f (hist d) i = redir f (hist (y_dev y)) i) -> Q tt (set_dev d y)) ->
  wp (ondev answer (fun _ => ioapicenable irq cpu)) Q y.
Proof. intros HQ. unfold wp, ondev, zoom. destruct (enable_sets irq cpu (y_dev y)) as (d & -> & H1 & H2 & H3). by apply HQ. Qed.

Lemma init_devices_wp y : lapic_on (y_dev y) = true -> tables_at (y_seg y) ->
  wp init_devices (fun _ y' => exists sg d ide, devices_up y sg d /\ idequeue ide = idequeue (y_ide y) /\ ibufs ide = ibufs (y_ide y) /\
    y' = mkSys (y_kern y) (Bio.binit (disk (y_bc y)) (Bio.disksize (y_bc y)) (mypid (y_bc y))) ide (y_mp y) (y_apic y) sg d
           (y_started y) (y_starts y) (y_aps y)) y.
Proof.
  intros Hon HT. unfold Startup.init_devices.
  apply wp_bind, (wp_ondev (fun _ => False)); [by apply keeps_lapicinit|]. intros [] d1 L1 _.
  apply wp_bind, wp_zoom. eapply wp_mono; [apply (seginit_wp (y_seg y) HT)|]. intros [] s2 ((S1 & S2 & S3 & S4 & S5) & K2 & G2 & C2 & _).
  apply wp_bind, (wp_ondev (fun _ => False)); [apply keeps_picinit|]. intros [] d2 L2 _.
  apply wp_bind, (wp_ondev (fun _ => False)); [apply returns_ioapicinit|]. intros [] d3 L3 _.
  apply wp_bind, wp_enable. intros d4 L4 E4 _.
  apply wp_bind, (wp_ondev (fun i => i <> IRQ_COM1)); [apply keeps_uartinit|]. intros [] d5 L5 R5.
  destruct HT as (T1 & T2 & T3 & T4). apply wp_bind, wp_zoom, tvinit_wp; [cbn; by rewrite S1|]. intros idt Hg Hlen.
  apply wp_bind, wp_modify. apply wp_bind, wp_get. apply wp_bind, wp_enable. intros d6 L6 E6 R6. apply wp_zoom, ideinit_wp. intros h b.
  cbn in L1, L2, L3, L4, L5, L6, R5, R6, E6.
  exists (mkSegst (s_cpu s2) idt (s_idt_addr s2) (s_kpgdir s2) (gdtr s2) (idtr s2) (tr s2) (cr3 s2)), d6. eexists. split; [|split; [|split; [|reflexivity]]]; [|done|done].
  split; cbn [s_cpu s_idt s_idt_addr s_kpgdir gdtr cr3]; try done.
  - congruence.
  - intros f. rewrite R6, R5 by done. apply E4.
  - split; [cbn; by rewrite S5|]. split; [cbn; by rewrite S4|]. split; [cbn; by rewrite S2|done].
  - by rewrite S4.
Qed.

(** ** The processors *)

(** A byte of physical memory, as the kernel sees it. *)
Definition phys (k : kstate) (a : Z) : Z := load8 (mem k) (P2V a).

(** The tables of the processors, in the first megabyte. *)
Record mp_tables (m : Z -> Z) (mp conf : Z) (es : list Mp.entry) : Prop := mkMpTables {
  mt_ebda : ebda m <> 0;
  mt_ebda_low : ebda m + 1024 <= EXTMEM;
  mt_config : mpconfig m = Some (mp, conf);
  mt_entries : Forall entry_ok es;
  mt_laid : laid m (conf + sizeof_mpconf) (table es);
  mt_length : conf_length m conf = sizeof_mpconf + Z.of_nat (length (table es));
  mt_low : conf + conf_length m conf <= EXTMEM;
  mt_lapic : conf_lapicaddr m conf <> 0
}.

Lemma phys_same k k' a : same_except page_ok (mem k) (mem k') -> 0 <= a < EXTMEM -> phys k' a = phys k a.
Proof.
  intros Hs Ha. unfold phys. apply Hs. intros (_ & He & _). pose proof sym_end_after_data. pose proof sym_data_after_text.
  unfold P2V, KERNLINK, KERNBASE, EXTMEM in *. rewrite u32_small in He by lia. pose proof (Z.mul_div_le (a + 2147483648) 4096 ltac:(done)). lia.
Qed.

Lemma mpinit_wp k mp conf es k0 y : mp_tables (phys k0) mp conf es -> same_except page_ok (mem k0) (mem (y_mem y)) ->
  cpus (y_mp y) = [] -> (length es < k)%nat ->
  wp (mpinit in23 k) (fun _ y' => exists m d, cpus m = take NCPU (procs es) /\ lapic_on d = true /\ y' = set_dev d (set_mp m y)) y.
Proof.
  intros [M1 M2 M3 M4 M5 M6 M7 M8] Hs Hc Hk. set (m := phys k0) in *. set (m' := phys (y_mem y)).
  assert (Hb : forall a, 0 <= m a < 256) by (intros a; apply load8_range).
  assert (Hm : forall a, 0 <= a < EXTMEM -> m' a = m a) by (intros a Ha; by apply phys_same).
  destruct (mpconfig_low m m' EXTMEM Hm Hb ltac:(done) mp conf M1 M2 M3) as (C1 & C2 & C3 & C4 & _);
    [rewrite M6; unfold sizeof_mpconf; lia|done|].
  unfold wp, mpinit. fold (phys (y_mem y)). fold m'. rewrite (mpinit_run m' in23 mp conf es (y_mp y) k); [|done|done| |done|by rewrite C3|done].
  - do 2 eexists. split; [|split; [|reflexivity]]; [done|]. cbn [lapic_on Mp.lapic]. rewrite C4. by rewrite (proj2 (Z.eqb_neq _ _) M8).
  - intros i x Hi. pose proof (lookup_lt_Some _ _ _ Hi). rewrite Hm; [by apply M5|]. unfold sizeof_mpconf in *. lia.
Qed.

(** ** main *)
#[local] Abbreviation main := (main (H := H) answer patience in23 vectors entryother initcode mpenter_addr entrypgdir_addr forkret cpu_at).

(** The kernel as the boot loader leaves it: the image with its zeroed data, enough of
    the first 4 MB behind it, and the console cleared. *)
Record power_on (n : nat) (y : sys) : Prop := mkPowerOn {
  po_end : sym_end <= KERNBASE + 4194304 - 74 * 4096;
  po_free : freelist (y_mem y) = 0;
  po_table : ptable (tab (y_kern y)) = replicate (S n) proc0;
  po_pid : nextpid (tab (y_kern y)) = 1;
  po_idle : Forall (eq None) (running (tab (y_kern y)));
  po_icache : exists ip l, icache (fsys (env (y_kern y))) = ip :: l /\ Forall (fun ip => i_ref ip = 0) (ip :: l);
  po_screen : screen_ok (y_cons y);
  po_tables : tables_at (y_seg y);
  po_cpus : cpus (y_mp y) = [];
  po_starts : y_starts y = [] /\ y_aps y = [];
  po_disk : forall b, block_ok (dread (disk (y_bc y)) b)
}.

(** What main leaves: [fl] is free, [st] the stacks of the other processors' schedulers,
    [kst], [d] and [pg] the kernel stack, the page directory and the page of the first
    process; the kernel's own page table is kpgdir. *)
Record up_and_running (ids : list Z) (me n : nat) (y y' : sys) (fl st : list Z) (kst d pg : Z) : Prop := mkUp {
  up_free : kinv (y_mem y') fl /\ use_lock (y_mem y') = true;
  up_pages : forall p, page_ok p <->
    p ∈ fl \/ p ∈ st \/ p = kst \/ p = pg \/ pt_page (mem (y_mem y')) (s_kpgdir (y_seg y')) p \/ pt_page (mem (y_mem y')) d p;
  up_disjoint : ForallOrdPairs disjoint_pages [(.∈ fl); (.∈ st); (.= kst); (.= pg);
    pt_page (mem (y_mem y')) (s_kpgdir (y_seg y')); pt_page (mem (y_mem y')) d];
  up_kmap : forall va, paligned va -> lookup_pte (mem (y_mem y')) (s_kpgdir (y_seg y')) va = default 0 (kmap_pte kmap va);
  up_user : as_inv (y_mem y') fl d;
  up_umap : forall va, paligned va -> lookup_pte (mem (y_mem y')) d va =
    if decide (va = 0) then Z.lor (Z.lor (V2P pg) (Z.lor PTE_W PTE_U)) PTE_P else default 0 (kmap_pte kmap va);
  up_code : forall i, 0 <= i < 4096 -> load8 (mem (y_mem y')) (pg + i) = default 0 (initcode !! Z.to_nat i) mod 256;
  up_table : tab (y_kern y') = mkPtab (first_proc kst d :: replicate n proc0) (running (tab (y_kern y))) (Some 0%nat) 2;
  up_booted : booted (tab (y_kern y')) (replicate (S n) PRun);
  up_starts : y_starts y' = expected (others ids 0 me) st /\ length st = length (others ids 0 me);
  up_segs : seg_up (y_seg y') /\ kernel_gates (s_idt (y_seg y')) /\ length (y_aps y') = length (others ids 0 me) /\
    Forall (fun g => seg_up g /\ s_kpgdir g = s_kpgdir (y_seg y') /\ s_idt g = s_idt (y_seg y')) (y_aps y');
  up_irqs : forall f, redir f (hist (y_dev y')) IRQ_KBD = enabled IRQ_KBD 0 /\
    redir f (hist (y_dev y')) IRQ_IDE = enabled IRQ_IDE (Z.of_nat (length ids) - 1);
  up_bcache : binv (y_bc y')
}.

(** A list without duplicates that has [n] pages in a row is that long. *)
Lemma pages_count fl lo (n : nat) : NoDup fl -> (forall i, (i < n)%nat -> lo + 4096 * Z.of_nat i ∈ fl) -> (n <= length fl)%nat.
Proof.
  intros Hnd Hin. rewrite <- (length_seq n 0), <- (length_fmap (fun i => lo + 4096 * Z.of_nat i) (seq 0 n)).
  apply submseteq_length, NoDup_submseteq.
  - apply NoDup_fmap_2; [intros i j E; lia|apply NoDup_seq].
  - intros p (i & -> & Hi%elem_of_seq)%list_elem_of_fmap. apply Hin. lia.
Qed.

Lemma low_count fl : NoDup fl -> sym_end <= KERNBASE + 4194304 - 74 * 4096 ->
  (forall p, p ∈ fl <-> page_ok p /\ p < KERNBASE + 4 * 1024 * 1024) -> (73 <= length fl)%nat.
Proof.
  intros Hnd He Hfl. pose proof sym_end_after_data. pose proof sym_data_after_text. unfold KERNLINK, EXTMEM, KERNBASE in *.
  apply (pages_count fl (2147483648 + 4194304 - 73 * 4096)); [done|]. intros i Hi. apply Hfl. unfold page_ok, KERNBASE, PHYSTOP.
  split; [|lia]. split; [|lia]. rewrite (Z.mul_comm 4096), Z.mod_add by done. done.
Qed.

Lemma high_count fl (P : Z -> Prop) : NoDup fl -> (forall p, p ∈ fl <-> P p \/ page_ok p /\ KERNBASE + 4 * 1024 * 1024 <= p) -> (70 <= length fl)%nat.
Proof.
  intros Hnd Hfl. pose proof sym_end_in_entrypgdir. apply (pages_count fl (KERNBASE + 4194304)); [done|]. intros i Hi. apply Hfl. right.
  unfold page_ok, KERNBASE, PHYSTOP in *. split; [|lia]. split; [|lia]. rewrite (Z.mul_comm 4096), Z.mod_add by done. done.
Qed.

Lemma booted_first n kst d run : Forall (eq None) run -> booted (mkPtab (first_proc kst d :: replicate n proc0) run (Some 0%nat) 2) (replicate (S n) PRun).
Proof.
  intros Hrun. split.
  - cbn. by rewrite length_replicate.
  - intros c i Hon. unfold on in Hon. cbn in Hon. rewrite Forall_lookup in Hrun. by pose proof (Hrun c _ Hon).
  - exists 0%nat, (first_proc kst d). split_and!; try done. intros j q E Hj. destruct j as [|j]; [done|]. cbn in E.
    apply lookup_replicate in E as [-> _]. done.
Qed.

(** The kernel's page table is as setupkvm left it, whatever happens to other pages. *)
Lemma kpgdir_kept kA fl kpg m (P : Z -> Prop) : as_inv kA fl kpg -> same_except P (mem kA) m ->
  (forall p, pt_page (mem kA) kpg p -> ~ P p) ->
  (forall p, pt_page m kpg p <-> pt_page (mem kA) kpg p) /\ forall va, paligned va -> lookup_pte m kpg va = lookup_pte (mem kA) kpg va.
Proof.
  intros [[_ Hpt] _] Hs HP. split.
  - intros p. apply (pt_page_same P _ _ fl); [done|done|]. apply HP. by left.
  - intros va [_ Hva]. by apply (lookup_pte_same P _ _ fl).
Qed.

(** The memory through main: [kA] after kvmalloc, [kB] after startothers, [kC] after
    kinit2, [kD] after setupkvm and [kE] after inituvm of the first process. *)
Lemma boot_memory (fl0 fl1 fl2 fl3 fl4 fl5 st : list Z) (kpg kst d pg : Z) (kA kB kC kD kE : kstate) :
  (forall p, p ∈ fl0 <-> page_ok p /\ p < KERNBASE + 4 * 1024 * 1024) -> as_inv kA fl1 kpg ->
  (forall p, p ∈ fl0 <-> p ∈ fl1 \/ pt_page (mem kA) kpg p) -> fl1 = st ++ fl2 -> same_except low_pages (mem kA) (mem kB) ->
  (forall p, p ∈ fl3 <-> p ∈ fl2 \/ page_ok p /\ KERNBASE + 4 * 1024 * 1024 <= p) ->
  same_except (fun p => page_ok p /\ KERNBASE + 4 * 1024 * 1024 <= p) (mem kB) (mem kC) ->
  (forall p, p ∈ fl3 <-> p = kst \/ p ∈ fl4 \/ pt_page (mem kD) d p) -> (kst ∉ fl4) -> ~ pt_page (mem kD) d kst ->
  same_except (.∈ fl3) (mem kC) (mem kD) ->
  (forall p, p ∈ fl4 \/ pt_page (mem kD) d p <-> p = pg \/ p ∈ fl5 \/ pt_page (mem kE) d p) -> (pg ∉ fl5) -> ~ pt_page (mem kE) d pg ->
  as_inv kE fl5 d -> same_except (fun p => p ∈ fl4 \/ pt_page (mem kD) d p) (mem kD) (mem kE) ->
  (forall p, page_ok p <-> p ∈ fl5 \/ p ∈ st \/ p = kst \/ p = pg \/ pt_page (mem kE) kpg p \/ pt_page (mem kE) d p) /\
  ForallOrdPairs disjoint_pages [(.∈ fl5); (.∈ st); (.= kst); (.= pg); pt_page (mem kE) kpg; pt_page (mem kE) d] /\
  forall va, paligned va -> lookup_pte (mem kE) kpg va = lookup_pte (mem kA) kpg va.
Proof.
  intros F0 HA PA EB SB FC SC Q6 Q2 Q3 Q8 G2 G3 G4 HE SE.
  set (P p := p ∈ fl1 \/ low_pages p \/ page_ok p /\ KERNBASE + 4 * 1024 * 1024 <= p).
  assert (H3 : forall p, p ∈ fl3 -> P p).
  { intros p Hp. apply FC in Hp as [Hp|Hp]; [left; rewrite EB; apply elem_of_app; by right|by right; right]. }
  assert (HS : same_except P (mem kA) (mem kE)).
  { eapply same_except_trans; [eapply same_except_mono; [|exact SB]; intros p Hp; by right; left|].
    eapply same_except_trans; [eapply same_except_mono; [|exact SC]; intros p Hp; by right; right|].
    eapply same_except_trans; [eapply same_except_mono; [|exact Q8]; exact H3|].
    eapply same_except_mono; [|exact SE]. intros p Hp. apply H3, Q6. by right. }
  assert (HKn : forall p, pt_page (mem kA) kpg p -> p ∉ fl1) by (intros p Hp; by apply (pt_page_ok _ _ _ _ (vm_pt _ _ _ (as_vm _ _ _ HA)))).
  assert (HK : forall p, pt_page (mem kA) kpg p -> ~ P p).
  { intros p Hp. assert (Hp0 : p ∈ fl0) by (apply PA; by right). apply F0 in Hp0 as [Hok Hlt].
    intros [?|[?|[_ ?]]]; [by destruct (HKn p Hp)|by destruct (low_pages_used p Hok)|lia]. }
  destruct (kpgdir_kept kA fl1 kpg _ P HA HS HK) as [Epp Elk].
  destruct (pages_partition page_ok (fun p => p < KERNBASE + 4 * 1024 * 1024) (pt_page (mem kE) kpg) (pt_page (mem kD) d) (pt_page (mem kE) d)
    fl0 fl1 fl2 fl3 fl4 fl5 st kst pg) as [R1 R2]; try done.
  - intros p. lia.
  - intros p. by rewrite Epp.
  - intros p. rewrite Epp. apply HKn.
  - apply (kinv_nodup _ _ (vm_kinv _ _ _ (as_vm _ _ _ HA))).
  - intros p. rewrite FC, Z.nlt_ge. done.
  - intros p Hp. by apply (pt_page_ok _ _ _ _ (vm_pt _ _ _ (as_vm _ _ _ HE))).
Qed.

(** Before startothers: the kernel runs on its own page table [kpg]; of the pages below
    4 MB, [fl0], those of [fl1] are free. *)
Record low_done (ids : list Z) (me n : nat) (y y4 : sys) (fl0 fl1 : list Z) (kpg : Z) (sg : segst) (d : dev) : Prop := mkLowDone {
  ld_pages : forall p, p ∈ fl0 <-> page_ok p /\ p < KERNBASE + 4 * 1024 * 1024;
  ld_as : as_inv (y_mem y4) fl1 kpg;
  ld_split : forall p, p ∈ fl0 <-> p ∈ fl1 \/ pt_page (mem (y_mem y4)) kpg p;
  ld_kmap : forall va, paligned va -> lookup_pte (mem (y_mem y4)) kpg va = default 0 (kmap_pte kmap va);
  ld_len : (8 <= length fl1)%nat;
  ld_tab : tab (y_kern y4) = tab (y_kern y);
  ld_icache : icache (fsys (env (y_kern y4))) = icache (fsys (env (y_kern y)));
  ld_ready : ready me y4;
  ld_cpus : cpus (y_mp y4) = ids;
  ld_seg : y_seg y4 = sg /\ y_dev y4 = d /\ devices_up y4 sg d /\ s_kpgdir sg = kpg /\ cr3 sg = V2P kpg;
  ld_starts : y_starts y4 = [] /\ y_aps y4 = [];
  ld_bc : binv (y_bc y4)
}.

Definition main_rest : M sys unit :=
  startothers;;
  onmem (kinit2 (P2V (4 * 1024 * 1024)) (P2V PHYSTOP));;
  userinit initcode forkret;;
  mpmain.

Lemma main_low (k n me : nat) (mp conf : Z) (es : list Mp.entry) y (Q : unit -> sys -> Prop) :
  power_on n y -> mp_tables (phys (y_mem y)) mp conf es ->
  cpus_ok (take NCPU (procs es)) -> take NCPU (procs es) !! me = Some (y_apic y) -> (length es < k)%nat ->
  (forall y4 fl0 fl1 kpg sg d, low_done (take NCPU (procs es)) me n y y4 fl0 fl1 kpg sg d -> wp main_rest Q y4) -> wp (main k) Q y.
Proof.
  intros [P1 P2 P3 P4 P5 _ P7 P8 P9 [P10 P10'] P11] HM Hids Hme Hk HQ. set (ids := take NCPU (procs es)) in *.
  unfold Startup.main. apply wp_bind, wp_zoom. eapply wp_mono; [apply (proj1 (kinit_frees_all _) P2)|].
  intros [] k1 (U1 & fl0 & K0 & F0 & S0). pose proof (low_count fl0 (kinv_nodup _ _ K0) P1 F0) as L0.
  apply wp_bind. unfold kvmalloc. apply wp_bind, wp_zoom. eapply wp_mono; [apply (setupkvm_wp k1 fl0 K0)|].
  intros kpg kA (fl1 & UA & SA & [(Hkpg & HasA & (tkA & EA & LA) & PA & LkA)|(_ & _ & _ & ?)]); [|lia]. apply wp_zoom.
  apply wp_bind, wp_modify, wp_switchkvm.
  apply wp_bind. eapply wp_mono; [apply (mpinit_wp k mp conf es (y_mem y)); [done| |done|done]|].
  { eapply same_except_trans; [exact S0|]. eapply same_except_mono; [|exact SA]. intros p Hp. by apply F0. }
  intros [] ? (m & d0 & Em & Hd0 & ->). change (cpus m = ids) in Em. apply wp_bind. eapply wp_mono; [by apply init_devices_wp|].
  intros [] ? (sg & d1 & ide & HD & _ & _ & ->). destruct (cpus_ok_at _ _ _ Hids Hme) as (I1 & I2 & I3).
  apply (HQ _ fl0 fl1 kpg sg d1). split; try done.
  - rewrite EA, length_app in L0. lia.
  - split; [apply (du_on _ _ _ HD)|exact I2|cbn; by rewrite Em|done|exact P7|apply (du_tables _ _ _ HD)].
  - split; [done|]. split; [done|]. split; [destruct HD; by split|]. split; [exact (du_kpgdir _ _ _ HD)|exact (du_cr3 _ _ _ HD)].
  - by apply binit_inv.
Qed.
(** Before mpmain: the first process is there. *)
Record high_done (ids : list Z) (me n : nat) (y y4 y7 : sys) (fl0 fl1 : list Z) (kpg : Z) (fl st : list Z) (kst d pg : Z) : Prop := mkHighDone {
  hd_free : as_inv (y_mem y7) fl d /\ use_lock (y_mem y7) = true;
  hd_pages : (forall p, page_ok p <-> p ∈ fl \/ p ∈ st \/ p = kst \/ p = pg \/ pt_page (mem (y_mem y7)) kpg p \/ pt_page (mem (y_mem y7)) d p) /\
    ForallOrdPairs disjoint_pages [(.∈ fl); (.∈ st); (.= kst); (.= pg); pt_page (mem (y_mem y7)) kpg; pt_page (mem (y_mem y7)) d] /\
    forall va, paligned va -> lookup_pte (mem (y_mem y7)) kpg va = lookup_pte (mem (y_mem y4)) kpg va;
  hd_umap : (forall va, paligned va -> lookup_pte (mem (y_mem y7)) d va =
      if decide (va = 0) then Z.lor (Z.lor (V2P pg) (Z.lor PTE_W PTE_U)) PTE_P else default 0 (kmap_pte kmap va)) /\
    forall i, 0 <= i < 4096 -> load8 (mem (y_mem y7)) (pg + i) = default 0 (initcode !! Z.to_nat i) mod 256;
  hd_tab : tab (y_kern y7) = mkPtab (first_proc kst d :: replicate n proc0) (running (tab (y_kern y))) (Some 0%nat) 2;
  hd_ready : ready me y7;
  hd_starts : y_starts y7 = expected (others ids 0 me) st /\ length st = length (others ids 0 me);
  hd_aps : length (y_aps y7) = length (others ids 0 me) /\
    Forall (fun g => seg_up g /\ s_kpgdir g = s_kpgdir (y_seg y4) /\ s_idt g = s_idt (y_seg y4)) (y_aps y7);
  hd_same : y_seg y7 = y_seg y4 /\ y_bc y7 = y_bc y4 /\ forall f j, redir f (hist (y_dev y7)) j = redir f (hist (y_dev y4)) j
}.

Lemma main_rest_wp (ids : list Z) (me n : nat) y y4 fl0 fl1 kpg sg d0 (Q : unit -> sys -> Prop) :
  power_on n y -> cpus_ok ids -> low_done ids me n y y4 fl0 fl1 kpg sg d0 ->
  (forall y7 fl st kst d pg, high_done ids me n y y4 y7 fl0 fl1 kpg fl st kst d pg -> wp mpmain Q y7) -> wp main_rest Q y4.
Proof.
  intros [P1 P2 P3 P4 P5 (ip & il & P6 & P6') P7 P8 P9 _ P11] Hids [F0 HA PA LkA L1 E1 E2 Hrd Hcp _ [E3 E4] _] HQ. unfold main_rest.
  assert (Hlen : (length (others ids 0 me) <= length fl1)%nat) by (pose proof (others_length ids me (co_len _ Hids)); unfold NCPU in *; lia).
  apply wp_bind. eapply wp_mono; [apply (startothers_wp me y4 fl1); [apply HA|done|by rewrite Hcp|by rewrite Hcp]|]. rewrite Hcp.
  intros [] y5 (kB & st & fl2 & gs & MB & EB & LB & KB & UB & SB & EsB & GB & LgB & FgB).
  apply wp_bind, wp_zoom. rewrite (moved_mem _ _ _ MB).
  assert (F1 : forall p, p ∈ fl2 -> p < KERNBASE + 4 * 1024 * 1024) by (intros p Hp; apply F0, PA; left; rewrite EB; apply elem_of_app; by right).
  eapply wp_mono; [exact (proj2 (kinit_frees_all kB) fl2 KB F1)|]. intros [] kC (UC & fl3 & KC & FC & SC).
  apply wp_bind. unfold userinit. apply wp_zoom. set (y6 := set_mem_of kC y5). destruct (mv_env _ _ _ MB) as (cB & HcB & EeB).
  assert (Et : tab (y_kern y6) = tab (y_kern y)) by (change (tab (y_kern y5) = tab (y_kern y)); by rewrite (mv_tab _ _ _ MB)).
  eapply wp_mono; [apply (userinit_wp n fl3 ip il (y_kern y6))|].
  { by rewrite Et. } { by rewrite Et. } { cbn. by rewrite EeB, <- P6, <- E2. } { done. } { done. }
  { by apply (high_count fl3 (.∈ fl2) (kinv_nodup _ _ KC)). }
  intros [] s7 (kst & d & kD & fl4 & kE & fl5 & ip' & il' & _ & ET & EE & Q1 & Q2 & Q3 & Q4 & Q5 & Q6 & Q7 & Q8 & Q9 & Q10).
  destruct (in_page _ _ _ _ _ _ Q9) as (pg & G1 & G2 & G3 & G4 & G5 & G6). set (y7 := set_kern s7 y6).
  assert (Hy7 : y_mem y7 = kE) by (unfold y_mem, y7; cbn; by rewrite EE). apply (HQ y7 fl5 st kst d pg). constructor; rewrite ?Hy7.
  - split; [apply Q9|]. by rewrite Q10.
  - apply (boot_memory fl0 fl1 fl2 fl3 fl4 fl5 st kpg kst d pg (y_mem y4) kB kC kD kE); try done; [apply Q9|apply (in_mem _ _ _ _ _ _ Q9)].
  - split; [|done]. intros va Hva. rewrite G5 by done. destruct (decide (va = 0)); [done|by apply Q7].
  - change (tab (y_kern y7)) with (tab s7). by rewrite ET, Et.
  - assert (Hrd5 : ready me y5) by (by apply (moved_ready me _ _ _ MB)). destruct Hrd5 as [R1 R2 R3 R4 R5 R6]. split; try done.
    unfold y_cons, y7. cbn. rewrite EE. change (env (y_kern y6)) with (set_kmem kC (env (y_kern y5))). rewrite EeB. exact HcB.
  - change (y_starts y7) with (y_starts y5). by rewrite EsB, E3.
  - change (y_aps y7) with (y_aps y5). by rewrite GB, E4.
  - change (y_seg y7) with (y_seg y5). change (y_bc y7) with (y_bc y5). change (y_dev y7) with (y_dev y5).
    split; [apply (mv_seg _ _ _ MB)|]. split; [apply (mv_bc _ _ _ MB)|apply (mv_redir _ _ _ MB)].
Qed.

(** C18.  Booting.  On a machine with tables of its processors in low memory, with local
    APICs that deliver and a disk that gets ready, and with 73 pages between the
    kernel's image and 4 MB, main reaches the scheduler, and then: every page of
    physical memory has exactly one owner, the free list, the stack of another
    processor, the kernel's page table, or the first process (its kernel stack, its
    page table and its page); the kernel's page table maps the kernel's regions; the
    first process is RUNNABLE with the initial code at address 0 of its memory and
    nothing else mapped for the user; the process table is one from which the
    invariants of proc.c hold; every other processor of the table was started once, in
    order, with a stack of its own, and is in the scheduler with its segments, the
    interrupt table and the kernel's page table loaded; the keyboard and the disk
    interrupt; and the buffer cache satisfies its invariant. *)
Theorem main_boots (k n me : nat) (mp conf : Z) (es : list Mp.entry) y : power_on n y -> mp_tables (phys (y_mem y)) mp conf es ->
  cpus_ok (take NCPU (procs es)) -> take NCPU (procs es) !! me = Some (y_apic y) -> (length es < k)%nat ->
  wp (main k) (fun _ y' => exists fl st kst d pg, up_and_running (take NCPU (procs es)) me n y y' fl st kst d pg) y.
Proof.
  intros HP HM Hids Hme Hk. eapply main_low; [done..|]. intros y4 fl0 fl1 kpg sg d0 HL'. apply (main_rest_wp _ _ _ _ _ _ _ _ _ _ _ HP Hids HL').
  intros y7 fl st kst d pg [[U1 U2] (R1 & R2 & R3) [M1 M2] ET Hrd HS [A1 A2] (S1 & S2 & S3)].
  destruct HL' as [_ _ _ LkA _ _ _ _ Hcp (<- & <- & HD & Hkp & Hc) _ Hbc]. eapply wp_mono; [apply (mpmain_wp me y7 Hrd)|].
  intros [] y8 ([Z1 (c8 & Z2 & _) Z3 Z4 Z5 Z6] & (T1 & T2 & T3 & T4 & T5) & TK & TG & TC & TI & _ & W1 & W2 & _ & W4).
  assert (Hy8 : y_mem y8 = y_mem y7) by (unfold y_mem; by rewrite Z2). rewrite S1 in *.
  assert (Hkp8 : s_kpgdir (y_seg y8) = kpg) by (by rewrite T3).
  exists fl, st, kst, d, pg. constructor; rewrite ?Hy8, ?Hkp8, ?Z1, ?ET, ?W1, ?W2; try done.
  - split; [apply U1|done].
  - intros va Hva. by rewrite R3, LkA.
  - apply booted_first, HP.
  - rewrite T1. split; [|split; [apply (du_gates _ _ _ HD)|split; [done|]]].
    + split; [rewrite TK; apply (du_segs _ _ _ HD)|]. by rewrite Hkp8, TC, TG, TI, T2, T4, Hc, (du_gdtr _ _ _ HD).
    + by rewrite Hkp in A2.
  - intros f. rewrite !W4, !S3, <- Hcp. split; [apply (du_kbd _ _ _ HD)|apply (du_ide _ _ _ HD)].
  - by rewrite Z3, S2.
Qed.
End Boot.

(** ** Example: two processors *)
Definition demo_answer (id : Z) (h : list io) (e : io) : Z := match e with LapicR _ => Z.shiftl id 24 | IoapicR => 1507328 | _ => 0 end.
Definition demo_cpu (i : nat) : cpu := mkCpu (c_ts (s_cpu demo_segst)) (replicate 6 zero_seg) 2148532224 2148532400.

(** The EBDA at 0x9fc00, with the structure, and the table at 0x9000. *)
Definition boot_mem : memory :=
  store_bytes (store_bytes (store_bytes ∅ 2147484686 [192; 159]) 2148137984 demo_mp) 2147520512 demo_conf.
Definition inode0 : inode := mkInode 0 0 0 false false 0 0 0 0 0 (replicate 13 0).
Definition boot_sys : sys (H := simhw) :=
  mkSys (mkPst (mkPtab (replicate 64 proc0) [None; None] None 1)
           (mkKern (mkKstate boot_mem 0 false false) (mkFs ∅ 1000 [] (mkSuperblock 1000 941 200 30 2 32 58) (replicate 50 inode0) console0) [] ∅ 0 0))
    (Bio.binit ∅ 1000 1) (mkIde [] [] false (mkSim (fun _ => 0) None (fun _ _ => []) false) [] 1) (mkMpst 0 [] 0 []) 0 demo_segst (mkDev [] false 0 false) [] [] [].

Lemma boot_tables : mp_tables (phys (mkKstate boot_mem 0 false false)) 654336 36864 demo_es.
Proof.
  split.
  - vm_compute. discriminate.
  - vm_compute. discriminate.
  - vm_compute. reflexivity.
  - repeat constructor.
  - intros i x E. do 48 (destruct i as [|i]; [cbn in E; injection E as <-; vm_compute; reflexivity|]). discriminate E.
  - vm_compute. reflexivity.
  - vm_compute. discriminate.
  - vm_compute. discriminate.
Qed.

Lemma demo_delivers id : delivers (demo_answer id) 1.
Proof.
  intros h. exists 0%nat. split; [lia|]. cbn [demo_answer]. change DELIVS with (Z.shiftl 1 12). apply Z.bits_inj_0. intros n.
  destruct (Z.lt_ge_cases n 0); [by apply Z.testbit_neg_r|]. rewrite Z.land_spec, !Z.shiftl_spec by done.
  destruct (Z.eq_dec n 12) as [->|Hn]; [by rewrite Z.testbit_neg_r|]. rewrite andb_comm.
  replace (Z.testbit 1 (n - 12)) with false; [done|]. symmetry. destruct (Z.lt_ge_cases (n - 12) 0); [by apply Z.testbit_neg_r|].
  apply Z.bits_above_log2; [done|]. change (Z.log2 1) with 0. lia.
Qed.

Lemma boot_power_on : @power_on simhw example_syms 63 boot_sys.
Proof.
  split; try done.
  - repeat constructor.
  - exists inode0, (replicate 49 inode0). split; [done|]. by apply (Forall_replicate _ 50).
  - intros b. unfold dread. cbn. apply zero_block_ok.
Qed.

Lemma main_boots_witness :
  wp (Startup.main (HW := simhw_hw) (LS := example_syms) demo_answer 1 0 (fun n => 2148540416 + Z.of_nat n) (replicate 100 144) (replicate 44 144)
        2148532224 2148552704 2148532600 demo_cpu 4)
    (fun _ y' => exists kst d, tab (y_kern y') = mkPtab (first_proc 2148532600 kst d :: replicate 63 proc0) [None; None] (Some 0%nat) 2 /\
       length (y_starts y') = 1%nat) boot_sys.
Proof.
  eapply wp_mono; [apply (@main_boots simhw simhw_hw simhw_laws example_syms example_syms_ok demo_answer 1 0 (fun n => 2148540416 + Z.of_nat n)
    (replicate 100 144) (replicate 44 144) 2148532224 2148552704 2148532600 demo_cpu) with (n := 63%nat) (me := 0%nat) (es := demo_es) (mp := 654336) (conf := 36864)|].
  - intros id h Hi. cbn [demo_answer]. rewrite Z.shiftr_shiftl_l by done. by rewrite Z.shiftl_0_r.
  - apply demo_delivers.
  - intros i. cbn. lia.
  - lia.
  - cbn. lia.
  - vm_compute. reflexivity.
  - exact boot_power_on.
  - exact boot_tables.
  - split; [repeat constructor; set_solver|repeat constructor; lia|cbn; unfold NCPU; lia].
  - reflexivity.
  - cbn. lia.
  - intros [] y' (fl & st & kst & d & pg & U). exists kst, d. split; [apply U|]. rewrite (proj1 (up_starts _ _ _ _ _ _ _ _ _ _ _ _ _ _ _ U)).
    unfold expected. rewrite length_zip_with. by rewrite (proj2 (up_starts _ _ _ _ _ _ _ _ _ _ _ _ _ _ _ U)).
Defined.
